(* ===== verification/_CoqProject ===== *)
-Q . S2P
Prelude.v
Constants.v
BTree.v
SeenSet.v
SecureMemory.v
Crypto.v
Toy.v
Signatures.v
Padding.v
Shamir.v
GF256Field.v
ShamirProofs.v
DhValidator.v
Nonce.v
ReplayWindow.v
KeyRatchet.v
Proto.v
ToyCodec.v
SessionState.v
Session.v
ToySession.v
SessionPersist.v
SessionChain.v
SessionRecv.v
SessionSend.v
SessionInv.v
SessionRun.v
SessionSync.v
SessionStart.v
SessionExamples.v
SessionSeal.v
SealExamples.v
VoipFrame.v
CallKeys.v
VoipSession.v
VoipMedia.v
VoipRun.v
VoipRekey.v
VoipSeal.v
VoipExamples.v
TreeIndex.v
GroupProto.v
KeySchedule.v
SenderKeys.v
SenderRun.v
IdentityModels.v
Identity.v
Handshake.v
IdentityFacts.v
Protocol.v
HandshakeProofs.v
HandshakeReplay.v
HandshakeRun.v
HandshakeExamples.v
KeyPackage.v
RatchetTree.v
TreeKem.v
Commit.v
Welcome.v
TreeFacts.v
TreeMembers.v
TreeResolution.v
PathSecrets.v
TreeUpdates.v
PathAgreement.v
ProposalSync.v
TreeTypes.v
CommitSync.v
TreeSigned.v
GroupReplay.v
GroupContent.v
GroupSessions.v
GroupMessages.v
GroupSeal.v
GroupSync.v
GroupMessageSync.v
WelcomeSync.v
GroupRestart.v
GroupRun.v
GroupExamples.v
