(* ===== verification/Prelude.v ===== *)
(** * Aura Protected Protocol: a verification library

    A model, in Rocq, of the end-to-end encryption library under [src/src], with
    the theorems that make it correct.  Definitions are translations of the Rust
    functions, keep their names and can be evaluated; the theorems are about
    these definitions.

    ** The program

    - Primitives and utilities ([src/crypto], [src/security], [src/core]): HKDF,
      AES-GCM-SIV, X25519, ML-KEM and Ed25519 behind length-checked wrappers,
      message padding, Shamir secret sharing, key validation.
    - Identities and the handshake ([src/identity], [src/models],
      [src/protocol/handshake.rs], [src/api/mod.rs]): a user publishes a bundle of
      pre-keys, a peer begins a session with it, the user accepts; both derive the
      same root, and a handshake message is answered once.
    - Two-party sessions ([src/protocol/session.rs], [nonce.rs]): a double ratchet
      with hybrid steps, encrypted headers, skipped-key caches, replay protection,
      rollback of failed operations, and a sealed state for restarts.
    - Calls ([src/protocol/voip]): key agreement inside a session, a media key
      ratchet with a replay window, rekeying, signalling, a sealed state.
    - Groups ([src/protocol/group]): a ratchet tree with hybrid node keys, commits
      with update paths, welcomes for new members, sender-key messages, a sealed
      state.

    ** Conventions

    Machine integers are [Z]; a conversion, a shift or an addition whose width
    matters is written out ([checked_add], [saturating_add], reduction modulo a
    power of two, bit operations of [Z]).  Byte strings are [bytes], that is
    [list Z]; strings are [String.string]; structs are records, enums inductive
    types, a module per type with setters for the fields the code assigns.  A
    [Result] is [Result E A] with the [?] operator as [let?].  A function on
    [&mut self] is a state and error computation [Stm E S A] with [do] notation,
    which returns the state on both branches: what an early return leaves behind
    is part of the model.  Ordered maps are sorted association lists ([BTree]),
    the bounded replay caches are in [SeenSet].

    Code outside the repository is a parameter.  The cryptographic crates are the
    classes [Primitives] (Crypto) and [Signatures]; the generated protobuf codec
    is the class [Prost] (Proto).  What is assumed of them are the classes
    [PrimitiveLaws], [SignatureLaws] and [ProstLaws]: lengths of outputs,
    decryption after encryption, agreement of the two sides of a key exchange,
    verification of own signatures, decoding after encoding.  Unforgeability and
    secrecy are not assumed and not concluded.  Toy and ToyCodec give small
    executable instances that satisfy the laws; the [Examples] files evaluate
    concrete runs on them and apply the theorems there.  Random values and the clock are arguments.

    ** Files

    - Prelude, Constants, BTree, SeenSet, SecureMemory: the language of the
      model; [src/core]; [src/crypto/secure_memory.rs].
    - Crypto, Toy, Signatures: primitives, their laws and wrappers.
    - Padding; Shamir, GF256Field, ShamirProofs; DhValidator; Nonce: the
      utilities.  Unpadding decides exactly the padding grammar; any threshold of
      shares reconstructs and fewer fit every secret, by way of MathComp's
      polynomials over GF(2^8); the borrow chain decides the field bound; nonces
      never repeat.
    - Proto, ToyCodec: the wire messages of sessions, handshakes and calls.
    - SessionState, Session, SessionPersist: [session.rs], definitions.
      SessionChain, SessionRecv, SessionSend: what single operations do; a failed
      [encrypt] changes nothing.  SessionInv, SessionRun: invariants and
      histories on arbitrary input: no position is accepted or used for sending
      twice, caches stay bounded, and what a lost ratchet envelope does.
      SessionSync, SessionStart: two ends in step deliver every conversation with
      in-order arrival, from the handshake on, through ratchet steps.  SessionSeal:
      the sealed state restores the session, refuses a rollback, and the
      conversation goes on; a destroyed session stays dead.  ToySession,
      SessionExamples, SealExamples: concrete runs.
    - ReplayWindow, KeyRatchet, VoipFrame, CallKeys, VoipSession: calls,
      definitions, with the refinement of the bitmap window and the agreement of
      the call keys.  VoipMedia, VoipRun, VoipRekey, VoipSeal: delivery of frames in
      any order the window allows, counters used once, rekeying, sealed state.
      VoipExamples: concrete runs.
    - IdentityModels, Identity, Handshake, Protocol: identities, the handshake and
      the protocol object of the API, definitions.  IdentityFacts,
      HandshakeProofs, HandshakeReplay, HandshakeRun: both ends agree; replayed
      handshakes are refused and pre-keys serve once, over any history; two
      identities get from the bundle to a delivered conversation.
      HandshakeExamples: concrete runs.
    - TreeIndex: index arithmetic of the tree; paths terminate, and the co-path
      of a leaf partitions the other leaves.
    - GroupProto, KeySchedule, SenderKeys, KeyPackage, RatchetTree, TreeKem,
      Commit, Welcome, GroupReplay, GroupContent, GroupSessions, GroupMessages,
      GroupSeal: the group protocol, definitions.
    - SenderRun: sender and receiver agree on every message key, and no key is
      handed out twice.  TreeFacts, TreeMembers, TreeTypes: the tree stays well
      formed.  TreeResolution, PathSecrets, TreeUpdates, ProposalSync,
      PathAgreement, CommitSync, TreeSigned: every member that stays can open the
      path of a committer, and both end with the same public tree and keys.
      GroupSync: the same for sessions, and that a refused commit changes nothing.
      GroupMessageSync: messages are readable once and authentic.  WelcomeSync: a
      welcome makes the new member agree with the committer.  GroupRestart: a
      member comes back from its sealed state.  GroupRun: the group as a step
      relation; in every reachable state all members agree, commits are accepted,
      and messages can be read.  GroupExamples: a concrete group.

    ** Bounds and fuel

    Loops of the source that are not structural take fuel.  In TreeIndex the fuel
    of [right_loop], [find_parent], [path_loop] and [copath_loop] covers the depth
    of any tree on 32-bit indices, and the lemmas [right_loop_ok] and
    [path_loop_ok] show that it is not exhausted.  [resolution_inner] and
    [compute_node_hash_inner] take the rest of [MAX_TREE_DEPTH], the bound the
    source itself enforces; a well-formed tree has at most 1024 leaves and stays
    below it.  [advance_loop] of SenderKeys runs once per skipped generation.
    Every other recursion is structural.

    ** What is not modelled

    Page locking, zeroing of buffers and the mutexes: they do not change the
    values computed by one caller, and each operation runs to its end under its
    lock.  Ed25519 key generation, the generated codec and the system clock are
    parameters.  Attachments, channels, the relay's checks of forwarded messages
    and the C interface are left out.  Entry points that only fix the clock or
    test entropy are their general forms.  The external join of a group is
    modelled with its checks; no theorem follows it to the joined session.  A
    theorem about adding a member to a group assumes that the populated nodes
    above the new leaf are above the committer ([covered]); the run at the end of
    GroupExamples shows what happens otherwise. *)

From Stdlib Require Import ZArith List Bool Lia Ascii String.
Import ListNotations.
Open Scope Z_scope.

(** ** Fallible computations

    [Result E A] is Rust's [Result<A, E>].  [let? x := c in k] is the [?]
    operator; [ensure b e] is the early return [if !b { return Err(e) }]. *)

Inductive Result (E A : Type) : Type :=
| Ok (a : A)
| Err (e : E).
Arguments Ok {E A} a.
Arguments Err {E A} e.

Definition rbind {E A B} (c : Result E A) (k : A -> Result E B) : Result E B :=
  match c with Ok a => k a | Err e => Err e end.

Definition map_err {E F A} (f : E -> F) (c : Result E A) : Result F A :=
  match c with Ok a => Ok a | Err e => Err (f e) end.

Definition ensure {E} (b : bool) (e : E) : Result E unit :=
  if b then Ok tt else Err e.

Definition ok_or {E A} (o : option A) (e : E) : Result E A :=
  match o with Some a => Ok a | None => Err e end.

Definition is_ok {E A} (r : Result E A) : bool :=
  match r with Ok _ => true | Err _ => false end.

Definition unwrap_or {E A} (r : Result E A) (d : A) : A :=
  match r with Ok a => a | Err _ => d end.

Declare Scope rust_scope.
Notation "'let?' p ':=' c 'in' k" := (rbind c (fun p => k))
  (at level 10, p pattern, c at level 200, k at level 200) : rust_scope.
Notation "'check?' b 'else' e 'in' k" := (rbind (ensure b e) (fun _ => k))
  (at level 10, b at level 200, e at level 200, k at level 200) : rust_scope.
Open Scope rust_scope.

Fixpoint mapR {E A B} (f : A -> Result E B) (l : list A) : Result E (list B) :=
  match l with
  | [] => Ok []
  | a :: l =>
      let? b := f a in
      let? bs := mapR f l in
      Ok (b :: bs)
  end.

Fixpoint foldR {E A S} (f : S -> A -> Result E S) (l : list A) (s : S) : Result E S :=
  match l with
  | [] => Ok s
  | a :: l => let? s' := f s a in foldR f l s'
  end.

Lemma rbind_Ok {E A B} (c : Result E A) (k : A -> Result E B) b :
  rbind c k = Ok b <-> exists a, c = Ok a /\ k a = Ok b.
Proof.
  destruct c; simpl; split.
  - eauto.
  - now intros (? & [= <-] & ?).
  - discriminate.
  - now intros (? & ? & ?).
Qed.

Lemma ensure_Ok {E} b (e : E) u : ensure b e = Ok u <-> b = true.
Proof. destruct b, u; simpl; split; congruence. Qed.

Lemma ok_or_Ok {E A} (o : option A) (e : E) a : ok_or o e = Ok a <-> o = Some a.
Proof. destruct o; simpl; split; congruence. Qed.

Lemma map_err_Ok {E F A} (f : E -> F) (c : Result E A) a : map_err f c = Ok a <-> c = Ok a.
Proof. destruct c; simpl; split; congruence. Qed.

Lemma Ok_inj {E A} (a b : A) : @Ok E A a = Ok b -> a = b.
Proof. congruence. Qed.

Lemma Some_inj {A} (a b : A) : Some a = Some b -> a = b.
Proof. congruence. Qed.

Lemma pair_inj {A B} (a a' : A) (b b' : B) : (a, b) = (a', b') -> a = a' /\ b = b'.
Proof. split; congruence. Qed.

(** [inv_ok] turns a hypothesis [c = Ok v], with [c] built from binds, checks
    and matches, into the conditions under which the computation succeeded. *)
Ltac inv_ok_step :=
  match goal with
  | H : rbind _ _ = Ok _ |- _ => apply rbind_Ok in H; destruct H as (? & ? & H)
  | H : ensure _ _ = Ok _ |- _ => apply ensure_Ok in H
  | H : ok_or _ _ = Ok _ |- _ => apply ok_or_Ok in H
  | H : map_err _ _ = Ok _ |- _ => apply map_err_Ok in H
  | H : Ok _ = Ok _ |- _ => apply Ok_inj in H; subst
  | H : Err _ = Ok _ |- _ => discriminate H
  | H : Some _ = Some _ |- _ => apply Some_inj in H; subst
  | H : (_, _) = (_, _) |- _ => apply pair_inj in H; destruct H; subst
  end.
Ltac inv_ok := repeat inv_ok_step.

(** [run_res] runs a fallible computation as far as its results are known,
    without unfolding the data it works on. *)
Ltac run_res :=
  repeat (rewrite ?Z.eqb_refl; cbn [rbind ensure ok_or map_err andb negb unwrap_or]).

(** [case_if] splits on the first boolean test or match of the goal. *)
Ltac case_if :=
  match goal with
  | |- context [if ?b then _ else _] => let E := fresh "E" in destruct b eqn:E
  end.
Ltac case_if_in H :=
  match type of H with
  | context [if ?b then _ else _] => let E := fresh "E" in destruct b eqn:E
  end.

(** [conjs] splits the conjunctions of the goal and nothing else. *)
Ltac conjs := repeat match goal with |- _ /\ _ => split end.

(** [bools] turns boolean comparisons of integers into propositions. *)
Ltac bools :=
  repeat match goal with
  | H : (_ && _) = true |- _ => apply andb_true_iff in H; destruct H
  | H : (_ || _) = false |- _ => apply orb_false_iff in H; destruct H
  | H : negb _ = true |- _ => apply negb_true_iff in H
  | H : negb _ = false |- _ => apply negb_false_iff in H
  | H : (_ <? _) = true |- _ => apply Z.ltb_lt in H
  | H : (_ <? _) = false |- _ => apply Z.ltb_ge in H
  | H : (_ <=? _) = true |- _ => apply Z.leb_le in H
  | H : (_ <=? _) = false |- _ => apply Z.leb_gt in H
  | H : (_ =? _) = true |- _ => apply Z.eqb_eq in H
  | H : (_ =? _) = false |- _ => apply Z.eqb_neq in H
  | H : (_ >? _) = true |- _ => rewrite Z.gtb_ltb in H
  | H : (_ >? _) = false |- _ => rewrite Z.gtb_ltb in H
  | H : (_ >=? _) = true |- _ => rewrite Z.geb_leb in H
  | H : (_ >=? _) = false |- _ => rewrite Z.geb_leb in H
  end.

(** ** State with errors

    [Stm E S A] is a Rust function [&mut S -> Result<A, E>]: on an error the
    mutations made before the early return stay, so the state is returned on
    both branches. *)

Definition Stm (E S A : Type) : Type := S -> Result E A * S.

Definition sret {E S A} (a : A) : Stm E S A := fun s => (Ok a, s).
Definition sfail {E S A} (e : E) : Stm E S A := fun s => (Err e, s).
Definition sbind {E S A B} (c : Stm E S A) (k : A -> Stm E S B) : Stm E S B :=
  fun s => match c s with
           | (Ok a, s') => k a s'
           | (Err e, s') => (Err e, s')
           end.
Definition slift {E S A} (r : Result E A) : Stm E S A := fun s => (r, s).
Definition sget {E S A} (f : S -> A) : Stm E S A := fun s => (Ok (f s), s).
Definition sgets {E S A} (f : S -> Result E A) : Stm E S A := fun s => (f s, s).
Definition smod {E S} (f : S -> S) : Stm E S unit := fun s => (Ok tt, f s).
(** [sguard b e]: return early with [e] unless [b]. *)
Definition sguard {E S} (b : bool) (e : E) : Stm E S unit := slift (ensure b e).
(** [on_err c h]: run [c]; on an error apply the clean-up [h] to the state. *)
Definition on_err {E S A} (c : Stm E S A) (h : S -> S) : Stm E S A :=
  fun s => match c s with
           | (Ok a, s') => (Ok a, s')
           | (Err e, s') => (Err e, h s')
           end.

Notation "'do' p '<-' c ';' k" := (sbind c (fun p => k))
  (at level 10, p pattern, c at level 100, k at level 200) : rust_scope.
Notation "'do!' c ';' k" := (sbind c (fun _ => k))
  (at level 10, c at level 100, k at level 200) : rust_scope.

Lemma sbind_Ok {E S A B} (c : Stm E S A) (k : A -> Stm E S B) s b s' :
  sbind c k s = (Ok b, s') <-> exists a s1, c s = (Ok a, s1) /\ k a s1 = (Ok b, s').
Proof.
  unfold sbind. destruct (c s) as [[a|e] s1]; split; intros H.
  - exists a, s1; auto.
  - now destruct H as (? & ? & [= <- <-] & ?).
  - discriminate.
  - now destruct H as (? & ? & ? & ?).
Qed.

Lemma sbind_Err {E S A B} (c : Stm E S A) (k : A -> Stm E S B) s e s' :
  sbind c k s = (Err e, s') <->
  c s = (Err e, s') \/ exists a s1, c s = (Ok a, s1) /\ k a s1 = (Err e, s').
Proof.
  unfold sbind. destruct (c s) as [[a|e'] s1]; split; intros H.
  - right; exists a, s1; auto.
  - now destruct H as [[=]|(? & ? & [= <- <-] & ?)].
  - left. congruence.
  - destruct H as [H|(? & ? & [=] & ?)]. congruence.
Qed.

(** ** Machine integers

    A [w]-bit unsigned integer is a [Z] in [[0, 2^w)]; the wrap-around of the
    operations that have one is written out. *)

Definition wrap (w x : Z) : Z := x mod 2 ^ w.
Definition wrapping_sub (w a b : Z) : Z := wrap w (a - b).
Definition wrapping_neg (w a : Z) : Z := wrap w (- a).
(** [!x] on a [w]-bit word. *)
Definition bitnot (w x : Z) : Z := 2 ^ w - 1 - x.
(** [x << k] on a [w]-bit word. *)
Definition shl (w x k : Z) : Z := wrap w (Z.shiftl x k).
Definition saturating_sub (a b : Z) : Z := Z.max 0 (a - b).
Definition checked_add (w a b : Z) : option Z :=
  if a + b <? 2 ^ w then Some (a + b) else None.
Definition checked_mul (w a b : Z) : option Z :=
  if a * b <? 2 ^ w then Some (a * b) else None.
Definition div_ceil (a b : Z) : Z := (a + b - 1) / b.

Lemma checked_add_inv w a b c : checked_add w a b = Some c -> c = a + b.
Proof. unfold checked_add. destruct (a + b <? 2 ^ w); congruence. Qed.

Lemma checked_add_lt w a b c : checked_add w a b = Some c -> a + b < 2 ^ w.
Proof. unfold checked_add. destruct (Z.ltb_spec (a + b) (2 ^ w)); [auto|discriminate]. Qed.

Definition in_range (w x : Z) : Prop := 0 <= x < 2 ^ w.
Abbreviation is_u8 := (in_range 8).
Abbreviation is_u16 := (in_range 16).
Abbreviation is_u32 := (in_range 32).
Abbreviation is_u64 := (in_range 64).

Definition u16_max : Z := 2 ^ 16 - 1.
Definition u32_max : Z := 2 ^ 32 - 1.
Definition u64_max : Z := 2 ^ 64 - 1.

Lemma wrap_small w x : in_range w x -> wrap w x = x.
Proof. intros H. apply Z.mod_small. exact H. Qed.

Lemma wrap_range w x : 0 <= w -> in_range w (wrap w x).
Proof. intros Hw. apply Z.mod_pos_bound. lia. Qed.

Lemma testbit_high w x i : in_range w x -> 0 <= w <= i -> Z.testbit x i = false.
Proof.
  intros Hx Hi. rewrite <- (wrap_small w x Hx).
  unfold wrap. apply Z.mod_pow2_bits_high. lia.
Qed.

Lemma testbit_wrap w x i : 0 <= w -> 0 <= i -> Z.testbit (wrap w x) i = (i <? w) && Z.testbit x i.
Proof.
  intros Hw Hi. unfold wrap. destruct (Z.ltb_spec i w); simpl.
  - now rewrite Z.mod_pow2_bits_low.
  - rewrite Z.mod_pow2_bits_high by lia. reflexivity.
Qed.

Lemma bits_range w x : 0 <= w -> 0 <= x ->
  (forall i, w <= i -> Z.testbit x i = false) -> in_range w x.
Proof.
  intros Hw Hx H. split; [lia|].
  destruct (Z.lt_ge_cases x (2 ^ w)) as [|Hge]; [assumption|exfalso].
  assert (Hpos : 0 < x) by (pose proof (Z.pow_pos_nonneg 2 w); lia).
  assert (Hl : w <= Z.log2 x) by (apply Z.log2_le_pow2; lia).
  specialize (H (Z.log2 x) Hl). rewrite Z.bit_log2 in H by lia. discriminate.
Qed.

Lemma lxor_range w a b : 0 <= w -> in_range w a -> in_range w b -> in_range w (Z.lxor a b).
Proof.
  intros Hw Ha Hb. apply bits_range; [lia| |].
  - apply Z.lxor_nonneg. unfold in_range in *; lia.
  - intros i Hi. rewrite Z.lxor_spec, (testbit_high w a), (testbit_high w b) by (auto; lia).
    reflexivity.
Qed.

Lemma lor_range w a b : 0 <= w -> in_range w a -> in_range w b -> in_range w (Z.lor a b).
Proof.
  intros Hw Ha Hb. apply bits_range; [lia| |].
  - apply Z.lor_nonneg. unfold in_range in *; lia.
  - intros i Hi. rewrite Z.lor_spec, (testbit_high w a), (testbit_high w b) by (auto; lia).
    reflexivity.
Qed.

Lemma land_range w a b : 0 <= w -> in_range w a -> 0 <= b -> in_range w (Z.land a b).
Proof.
  intros Hw Ha Hb. apply bits_range; [lia| |].
  - apply Z.land_nonneg. lia.
  - intros i Hi. rewrite Z.land_spec, (testbit_high w a) by (auto; lia). reflexivity.
Qed.

(** ** Bytes *)

Abbreviation byte := Z (only parsing).
Abbreviation bytes := (list Z) (only parsing).
Definition bytes_ok (l : bytes) : Prop := Forall is_u8 l.

(** [l.len()] *)
Definition len {A} (l : list A) : Z := Z.of_nat (List.length l).

Lemma len_nonneg {A} (l : list A) : 0 <= len l.
Proof. unfold len. lia. Qed.

Lemma len_app {A} (l1 l2 : list A) : len (l1 ++ l2) = len l1 + len l2.
Proof. unfold len. rewrite length_app. lia. Qed.

Lemma len_nil {A} : len (@nil A) = 0.
Proof. reflexivity. Qed.

Lemma len_cons {A} (a : A) l : len (a :: l) = 1 + len l.
Proof. unfold len. simpl List.length. lia. Qed.

Lemma len_repeat {A} (a : A) n : len (repeat a n) = Z.of_nat n.
Proof. unfold len. now rewrite repeat_length. Qed.

Lemma len_firstn {A} n (l : list A) : len (firstn n l) = Z.min (Z.of_nat n) (len l).
Proof. unfold len. rewrite length_firstn. lia. Qed.

Lemma len_skipn {A} n (l : list A) : len (skipn n l) = Z.max 0 (len l - Z.of_nat n).
Proof. unfold len. rewrite length_skipn. lia. Qed.

Lemma len_map {A B} (f : A -> B) l : len (map f l) = len l.
Proof. unfold len. now rewrite length_map. Qed.

Create Rewrite HintDb lens.
#[export] Hint Rewrite @len_app @len_nil @len_cons @len_repeat @len_firstn @len_skipn @len_map : lens.

Fixpoint bytes_eqb (a b : bytes) : bool :=
  match a, b with
  | [], [] => true
  | x :: a, y :: b => (x =? y) && bytes_eqb a b
  | _, _ => false
  end.

Lemma bytes_eqb_eq a b : bytes_eqb a b = true <-> a = b.
Proof.
  revert b. induction a as [|x a IH]; intros [|y b]; simpl; split; try congruence.
  - intros H. bools. subst. f_equal. now apply IH.
  - intros [= -> ->]. rewrite Z.eqb_refl. now apply IH.
Qed.

Lemma bytes_eqb_sym a b : bytes_eqb a b = bytes_eqb b a.
Proof. revert b. induction a as [|x a IH]; intros [|y b]; simpl; auto. now rewrite Z.eqb_sym, IH. Qed.

Lemma bytes_eqb_refl a : bytes_eqb a a = true.
Proof. now apply bytes_eqb_eq. Qed.

Lemma bytes_eqb_neq a b : bytes_eqb a b = false <-> a <> b.
Proof.
  rewrite <- bytes_eqb_eq. destruct (bytes_eqb a b); split; congruence.
Qed.

(** The lexicographic order of [Vec<u8>]: [bytes_gtb a b] is [a > b]. *)
Fixpoint bytes_gtb (a b : bytes) : bool :=
  match a, b with
  | x :: a, y :: b => if x =? y then bytes_gtb a b else y <? x
  | _ :: _, [] => true
  | [], _ => false
  end.

(** [buf.iter().fold(0, |acc, b| acc | b) == 0] *)
Definition is_all_zero (l : bytes) : bool := fold_left Z.lor l 0 =? 0.

(** [x.to_le_bytes()] of an [n]-byte integer, and its inverse. *)
Fixpoint to_le_bytes (n : nat) (x : Z) : bytes :=
  match n with
  | O => []
  | S n => Z.land x 255 :: to_le_bytes n (Z.shiftr x 8)
  end.

Fixpoint from_le_bytes (l : bytes) : Z :=
  match l with
  | [] => 0
  | b :: l => b + Z.shiftl (from_le_bytes l) 8
  end.

Lemma to_le_bytes_length n x : List.length (to_le_bytes n x) = n.
Proof. revert x; induction n; simpl; auto. Qed.

Lemma len_to_le_bytes n x : len (to_le_bytes n x) = Z.of_nat n.
Proof. unfold len. now rewrite to_le_bytes_length. Qed.
#[export] Hint Rewrite len_to_le_bytes : lens.

Lemma from_to_le_bytes n x :
  0 <= x < 2 ^ (8 * Z.of_nat n) -> from_le_bytes (to_le_bytes n x) = x.
Proof.
  revert x. induction n as [|n IH]; intros x Hx.
  - simpl. simpl in Hx. lia.
  - cbn [to_le_bytes from_le_bytes].
    rewrite IH.
    + rewrite Z.shiftl_mul_pow2, Z.shiftr_div_pow2 by lia.
      change 255 with (Z.ones 8). rewrite Z.land_ones by lia.
      rewrite (Z.div_mod x (2 ^ 8)) at 3 by lia. ring.
    + rewrite Z.shiftr_div_pow2 by lia. split; [apply Z.div_pos; lia|].
      apply Z.div_lt_upper_bound; [lia|].
      rewrite <- Z.pow_add_r by lia. replace (8 + 8 * Z.of_nat n) with (8 * Z.of_nat (S n)) by lia.
      lia.
Qed.

Lemma to_le_bytes_inj n x y :
  0 <= x < 2 ^ (8 * Z.of_nat n) -> 0 <= y < 2 ^ (8 * Z.of_nat n) ->
  to_le_bytes n x = to_le_bytes n y -> x = y.
Proof.
  intros Hx Hy H. rewrite <- (from_to_le_bytes n x Hx), <- (from_to_le_bytes n y Hy).
  now rewrite H.
Qed.

Lemma to_le_bytes_ok n x : bytes_ok (to_le_bytes n x).
Proof.
  revert x; induction n as [|n IH]; intros x; simpl; constructor; [|apply IH].
  change 255 with (Z.ones 8). rewrite Z.land_ones by lia. apply Z.mod_pos_bound. lia.
Qed.

(** [x.to_be_bytes()] and its inverse. *)
Definition to_be_bytes (n : nat) (x : Z) : bytes := rev (to_le_bytes n x).
Definition from_be_bytes (l : bytes) : Z := from_le_bytes (rev l).

Lemma len_to_be_bytes n x : len (to_be_bytes n x) = Z.of_nat n.
Proof. unfold to_be_bytes, len. now rewrite length_rev, to_le_bytes_length. Qed.
#[export] Hint Rewrite len_to_be_bytes : lens.

Lemma from_to_be_bytes n x :
  0 <= x < 2 ^ (8 * Z.of_nat n) -> from_be_bytes (to_be_bytes n x) = x.
Proof. intros H. unfold from_be_bytes, to_be_bytes. rewrite rev_involutive. now apply from_to_le_bytes. Qed.

Lemma to_be_bytes_inj n x y :
  0 <= x < 2 ^ (8 * Z.of_nat n) -> 0 <= y < 2 ^ (8 * Z.of_nat n) ->
  to_be_bytes n x = to_be_bytes n y -> x = y.
Proof.
  intros Hx Hy H. rewrite <- (from_to_be_bytes n x), <- (from_to_be_bytes n y) by assumption. now rewrite H.
Qed.

(** Splitting a concatenation at a known length. *)
Lemma app_inj_len {A} (a1 a2 b1 b2 : list A) :
  len a1 = len a2 -> a1 ++ b1 = a2 ++ b2 -> a1 = a2 /\ b1 = b2.
Proof.
  intros Hl H. assert (Hn : List.length a1 = List.length a2) by (unfold len in Hl; lia).
  clear Hl. revert a2 Hn H. induction a1 as [|x a1 IH]; intros [|y a2] Hn H; simpl in *; try lia.
  - auto.
  - injection H as -> H. injection Hn as Hn. destruct (IH a2 Hn H). now subst.
Qed.

(** [buf.resize(n, b)] *)
Definition resize (n : Z) (b : byte) (l : bytes) : bytes :=
  firstn (Z.to_nat n) l ++ repeat b (Z.to_nat (n - len l)).

(** The half-open range [lo..hi]. *)
Definition zrange (lo hi : Z) : list Z :=
  map (fun i => lo + Z.of_nat i) (seq 0 (Z.to_nat (hi - lo))).

Lemma zrange_In lo hi i : In i (zrange lo hi) <-> lo <= i < hi.
Proof.
  unfold zrange. rewrite in_map_iff. split.
  - intros (k & <- & Hk). apply in_seq in Hk. lia.
  - intros H. exists (Z.to_nat (i - lo)). split; [lia|]. apply in_seq. lia.
Qed.

Lemma zrange_empty lo hi : hi <= lo -> zrange lo hi = [].
Proof. intros H. unfold zrange. now replace (Z.to_nat (hi - lo)) with 0%nat by lia. Qed.

Lemma zrange_cons lo hi : lo < hi -> zrange lo hi = lo :: zrange (lo + 1) hi.
Proof.
  intros H. unfold zrange. replace (Z.to_nat (hi - lo)) with (S (Z.to_nat (hi - (lo + 1)))) by lia.
  simpl. f_equal; [lia|]. rewrite <- seq_shift, map_map. apply map_ext. intros; lia.
Qed.

Lemma zrange_snoc lo hi : lo <= hi -> zrange lo (hi + 1) = zrange lo hi ++ [hi].
Proof.
  intros H. unfold zrange. replace (Z.to_nat (hi + 1 - lo)) with (S (Z.to_nat (hi - lo))) by lia.
  rewrite seq_S, map_app. simpl. repeat f_equal. lia.
Qed.

Lemma zrange_length lo hi : List.length (zrange lo hi) = Z.to_nat (hi - lo).
Proof. unfold zrange. now rewrite length_map, length_seq. Qed.

(** ** Byte strings

    [bstr "text"] is the Rust byte literal [b"text"] (and [s.as_bytes()] of an
    ASCII string). *)
Definition bstr (s : string) : bytes :=
  map (fun c => Z.of_N (Ascii.N_of_ascii c)) (list_ascii_of_string s).

Lemma bstr_ok s : bytes_ok (bstr s).
Proof.
  unfold bstr, bytes_ok. apply Forall_map, Forall_forall. intros c _.
  pose proof (Ascii.N_ascii_bounded c). unfold in_range. simpl. lia.
Qed.

(** [l.iter().enumerate()], the index starting at [i]. *)
Fixpoint enumerate_from {A} (i : Z) (l : list A) : list (Z * A) :=
  match l with
  | [] => []
  | a :: l => (i, a) :: enumerate_from (i + 1) l
  end.

Lemma enumerate_from_app {A} i (l1 l2 : list A) :
  enumerate_from i (l1 ++ l2) = enumerate_from i l1 ++ enumerate_from (i + len l1) l2.
Proof.
  revert i. induction l1 as [|a l1 IH]; intros i; simpl.
  - now rewrite len_nil, Z.add_0_r.
  - rewrite IH, len_cons. now rewrite Z.add_assoc.
Qed.

Lemma mapR_zrange {E A} (f : Z -> Result E A) (l : list A) (d : A) k :
  (forall j, (j < List.length l)%nat -> f (k + Z.of_nat j) = Ok (nth j l d)) ->
  mapR f (zrange k (k + len l)) = Ok l.
Proof.
  revert k. induction l as [|a l IH]; intros k H.
  - rewrite zrange_empty; [reflexivity|]. rewrite len_nil. lia.
  - rewrite len_cons, zrange_cons by (pose proof (len_nonneg l); lia). cbn [mapR].
    pose proof (H 0%nat) as H0. simpl in H0. rewrite Z.add_0_r in H0. rewrite H0 by lia. cbn [rbind].
    replace (k + (1 + len l)) with (k + 1 + len l) by lia. rewrite IH; [reflexivity|].
    intros j Hj. specialize (H (S j)). simpl nth in H. rewrite <- H by (simpl; lia). f_equal. lia.
Qed.

Lemma mapR_length {E A B} (f : A -> Result E B) l l' :
  mapR f l = Ok l' -> List.length l' = List.length l.
Proof.
  revert l'. induction l as [|a l IH]; intros l' H; simpl in H; inv_ok; simpl; auto.
Qed.

Lemma from_le_bytes_app a b :
  from_le_bytes (a ++ b) = from_le_bytes a + 2 ^ (8 * len a) * from_le_bytes b.
Proof.
  induction a as [|x a IH].
  - change (2 ^ (8 * len [])) with 1. simpl app. simpl from_le_bytes. lia.
  - cbn [app from_le_bytes]. rewrite IH, len_cons, !Z.shiftl_mul_pow2 by lia.
    pose proof (len_nonneg a). replace (8 * (1 + len a)) with (8 * len a + 8) by lia.
    rewrite Z.pow_add_r by lia. ring.
Qed.

Lemma from_le_bytes_range l : bytes_ok l -> 0 <= from_le_bytes l < 2 ^ (8 * len l).
Proof.
  induction 1 as [|x l Hx _ IH].
  - change (2 ^ (8 * len [])) with 1. simpl. lia.
  - cbn [from_le_bytes]. rewrite Z.shiftl_mul_pow2, len_cons by lia.
    pose proof (len_nonneg l). replace (8 * (1 + len l)) with (8 * len l + 8) by lia.
    rewrite Z.pow_add_r by lia. unfold in_range in Hx. lia.
Qed.

Lemma to_from_le_bytes l : bytes_ok l -> to_le_bytes (List.length l) (from_le_bytes l) = l.
Proof.
  induction 1 as [|x l Hx _ IH]; [reflexivity|].
  cbn [List.length to_le_bytes from_le_bytes]. rewrite Z.shiftl_mul_pow2 by lia.
  unfold in_range in Hx. f_equal.
  - change 255 with (Z.ones 8). rewrite Z.land_ones by lia.
    rewrite Z.mod_add by lia. apply Z.mod_small. lia.
  - etransitivity; [|exact IH]. f_equal. rewrite Z.shiftr_div_pow2 by lia.
    rewrite Z.div_add by lia. rewrite Z.div_small by lia. lia.
Qed.

Lemma from_le_bytes_inj a b :
  bytes_ok a -> bytes_ok b -> len a = len b -> from_le_bytes a = from_le_bytes b -> a = b.
Proof.
  intros Ha Hb Hl H. rewrite <- (to_from_le_bytes a Ha), <- (to_from_le_bytes b Hb), H.
  unfold len in Hl. f_equal. lia.
Qed.

Lemma bytes_ok_app a b : bytes_ok (a ++ b) <-> bytes_ok a /\ bytes_ok b.
Proof. apply Forall_app. Qed.

Lemma bytes_ok_firstn n l : bytes_ok l -> bytes_ok (firstn n l).
Proof. intros H. rewrite <- (firstn_skipn n l) in H. now apply bytes_ok_app in H. Qed.

Lemma bytes_ok_skipn n l : bytes_ok l -> bytes_ok (skipn n l).
Proof. intros H. rewrite <- (firstn_skipn n l) in H. now apply bytes_ok_app in H. Qed.

(** ** Vectors indexed by integers

    [vget v i] is [v.get(i as usize)]; [update v i x] is [v[i] = x], which the
    program only does in range. *)

Definition vget {A} (v : list A) (i : Z) : option A := nth_error v (Z.to_nat i).

Fixpoint update {A} (t : list A) (i : nat) (v : A) : list A :=
  match t, i with
  | [], _ => []
  | _ :: t, O => v :: t
  | a :: t, S i => a :: update t i v
  end.

Definition vset {A} (v : list A) (i : Z) (x : A) : list A := update v (Z.to_nat i) x.

Lemma update_length {A} (t : list A) i v : List.length (update t i v) = List.length t.
Proof. revert i; induction t; intros [|i]; simpl; auto. Qed.

Lemma nth_update {A} (t : list A) i j v d :
  (i < List.length t)%nat -> nth j (update t i v) d = if Nat.eqb i j then v else nth j t d.
Proof.
  revert i j; induction t as [|a t IH]; intros [|i] [|j] H; simpl in *; try lia; auto.
  apply IH. lia.
Qed.

Lemma nth_error_update {A} (t : list A) i j v :
  nth_error (update t i v) j =
  if Nat.eqb i j then (if (i <? List.length t)%nat then Some v else None) else nth_error t j.
Proof.
  revert i j; induction t as [|a t IH]; intros [|i] [|j]; simpl; auto; now destruct (Nat.eqb i j).
Qed.

Lemma len_vset {A} (v : list A) i x : len (vset v i x) = len v.
Proof. unfold vset, len. now rewrite update_length. Qed.
#[export] Hint Rewrite @len_vset : lens.

Lemma vget_vset {A} (v : list A) i j x : 0 <= i < len v -> 0 <= j ->
  vget (vset v i x) j = if i =? j then Some x else vget v j.
Proof.
  intros Hi Hj. unfold vget, vset, len in *. rewrite nth_error_update.
  destruct (Nat.ltb_spec (Z.to_nat i) (List.length v)); [|lia].
  destruct (Nat.eqb_spec (Z.to_nat i) (Z.to_nat j)), (Z.eqb_spec i j); try reflexivity; lia.
Qed.

Lemma vget_Some_range {A} (v : list A) i x : 0 <= i -> vget v i = Some x -> i < len v.
Proof.
  intros Hi H. unfold vget in H. assert (Hn : nth_error v (Z.to_nat i) <> None) by congruence.
  apply nth_error_Some in Hn. unfold len. lia.
Qed.

Lemma vget_in_range {A} (v : list A) i : 0 <= i < len v -> exists x, vget v i = Some x.
Proof.
  intros Hi. unfold vget, len in *. destruct (nth_error v (Z.to_nat i)) eqn:E; [eauto|].
  apply nth_error_None in E. lia.
Qed.

Lemma vget_None {A} (v : list A) i : 0 <= i -> vget v i = None <-> len v <= i.
Proof. intros Hi. unfold vget, len. rewrite nth_error_None. lia. Qed.

(** ** Length-prefixed fields

    [(bytes.len() as u32).to_le_bytes()] followed by the bytes: a sequence of such
    fields is read back in one way only. *)

Definition len_prefixed (b : bytes) : bytes := to_le_bytes 4 (wrap 32 (len b)) ++ b.

Lemma len_prefixed_inj a b r s : len a < 2 ^ 32 -> len b < 2 ^ 32 ->
  len_prefixed a ++ r = len_prefixed b ++ s -> a = b /\ r = s.
Proof.
  intros Ha Hb H. unfold len_prefixed in H. rewrite <- !app_assoc in H.
  pose proof (len_nonneg a). pose proof (len_nonneg b).
  apply app_inj_len in H; [|now rewrite !len_to_le_bytes]. destruct H as [Hl H].
  apply to_le_bytes_inj in Hl; [|apply wrap_range; lia..].
  rewrite !wrap_small in Hl by (unfold in_range; lia).
  now apply app_inj_len in H.
Qed.

Lemma len_len_prefixed b : len (len_prefixed b) = 4 + len b.
Proof. unfold len_prefixed. now rewrite len_app, len_to_le_bytes. Qed.
#[export] Hint Rewrite len_len_prefixed : lens.

Lemma map_filter_comm {A B} (f : A -> B) (p : B -> bool) l :
  map f (filter (fun x => p (f x)) l) = filter p (map f l).
Proof. induction l as [|a l IH]; [reflexivity|]. cbn [filter map]. destruct (p (f a)); cbn [map]; now rewrite IH. Qed.

Lemma NoDup_app_inv {A} (l1 l2 : list A) :
  NoDup (l1 ++ l2) -> NoDup l1 /\ NoDup l2 /\ forall x, In x l1 -> ~ In x l2.
Proof.
  induction l1 as [|a l1 IH]; intros H.
  - split; [constructor|]. split; [exact H|]. intros x [].
  - inversion H as [|? ? Hn Hd]; subst. destruct (IH Hd) as (H1 & H2 & H3). rewrite in_app_iff in Hn.
    split; [constructor; tauto|]. split; [assumption|]. intros x [->|Hx]; [tauto|auto].
Qed.

Lemma fold_left_orb {A} (g : A -> bool) l b :
  fold_left (fun found a => found || g a) l b = b || existsb g l.
Proof.
  revert b. induction l as [|a l IH]; intros b; simpl; [now rewrite orb_false_r|].
  now rewrite IH, orb_assoc.
Qed.

Arguments to_le_bytes : simpl never.
Arguments from_le_bytes : simpl never.
Arguments len : simpl never.

(** ** Inversion of stateful computations *)

Lemma slift_inv {E S A} (r : Result E A) (s : S) x s' : slift r s = (x, s') <-> r = x /\ s' = s.
Proof. unfold slift. split; [intros [= <- <-]|intros [-> ->]]; auto. Qed.

Lemma sret_inv {E S A} (a : A) (s : S) (x : Result E A) s' : sret a s = (x, s') <-> x = Ok a /\ s' = s.
Proof. unfold sret. split; [intros [= <- <-]|intros [-> ->]]; auto. Qed.

Lemma sfail_inv {E S A} (e : E) (s : S) (x : Result E A) s' : sfail e s = (x, s') <-> x = Err e /\ s' = s.
Proof. unfold sfail. split; [intros [= <- <-]|intros [-> ->]]; auto. Qed.

Lemma sget_inv {E S A} (f : S -> A) s (x : Result E A) s' : sget f s = (x, s') <-> x = Ok (f s) /\ s' = s.
Proof. unfold sget. split; [intros [= <- <-]|intros [-> ->]]; auto. Qed.

Lemma sgets_inv {E S A} (f : S -> Result E A) s x s' : sgets f s = (x, s') <-> f s = x /\ s' = s.
Proof. unfold sgets. split; [intros [= <- <-]|intros [-> ->]]; auto. Qed.

Lemma smod_inv {E S} (f : S -> S) s (x : Result E unit) s' : smod f s = (x, s') <-> x = Ok tt /\ s' = f s.
Proof. unfold smod. split; [intros [= <- <-]|intros [-> ->]]; auto. Qed.

Lemma sguard_Ok {E S} b (e : E) (s : S) u s' : sguard b e s = (Ok u, s') <-> b = true /\ s' = s.
Proof. unfold sguard. rewrite slift_inv, ensure_Ok. reflexivity. Qed.

Lemma sguard_Err {E S} b (e : E) (s : S) e' s' :
  sguard b e s = (Err e', s') <-> b = false /\ e' = e /\ s' = s.
Proof.
  unfold sguard, slift, ensure. destruct b; split; try congruence; try (intros (? & ? & ?); congruence).
  intros [= -> ->]. auto.
Qed.

Lemma on_err_Ok {E S A} (c : Stm E S A) h s a s' : on_err c h s = (Ok a, s') <-> c s = (Ok a, s').
Proof. unfold on_err. destruct (c s) as [[|] ?]; split; congruence. Qed.

Lemma on_err_Err {E S A} (c : Stm E S A) h s e s' :
  on_err c h s = (Err e, s') <-> exists s1, c s = (Err e, s1) /\ s' = h s1.
Proof.
  unfold on_err. destruct (c s) as [[|e1] s1]; split; try congruence.
  - intros (? & [=] & _).
  - intros [= -> <-]. eauto.
  - intros (? & [= -> ->] & ->). reflexivity.
Qed.

(** [inv_stm] decomposes the hypotheses about runs of straight-line code: a
    successful run into the success of each step, a failed run into the cases
    of the step that failed. *)
Ltac inv_stm_step :=
  match goal with
  | H : sbind _ _ _ = (Ok _, _) |- _ =>
      apply sbind_Ok in H; let a := fresh "a" in let s := fresh "s" in let Hc := fresh "Hc" in
      destruct H as (a & s & Hc & H)
  | H : sbind _ _ _ = (Err _, _) |- _ =>
      apply sbind_Err in H; let a := fresh "a" in let s := fresh "s" in let Hc := fresh "Hc" in
      destruct H as [H|(a & s & Hc & H)]
  | H : sguard _ _ _ = (Ok _, _) |- _ => apply sguard_Ok in H; destruct H as [H ->]
  | H : sguard _ _ _ = (Err _, _) |- _ => apply sguard_Err in H; destruct H as (H & -> & ->)
  | H : slift _ _ = (_, _) |- _ => apply slift_inv in H; destruct H as [H ->]
  | H : sret _ _ = (_, _) |- _ => apply sret_inv in H; destruct H as [H ->]
  | H : sfail _ _ = (_, _) |- _ => apply sfail_inv in H; destruct H as [H ->]
  | H : sget _ _ = (_, _) |- _ => apply sget_inv in H; destruct H as [H ->]
  | H : sgets _ _ = (_, _) |- _ => apply sgets_inv in H; destruct H as [H ->]
  | H : smod _ _ = (_, _) |- _ => apply smod_inv in H; destruct H as [H ->]
  | H : on_err _ _ _ = (Ok _, _) |- _ => apply on_err_Ok in H
  | H : on_err _ _ _ = (Err _, _) |- _ => apply on_err_Err in H; destruct H as (? & H & ->)
  | H : Err _ = Ok _ |- _ => discriminate H
  | H : Ok _ = Err _ |- _ => discriminate H
  | H : Ok _ = Ok _ |- _ => apply Ok_inj in H; subst
  | H : Err _ = Err _ |- _ => injection H as H; subst
  | H : (let '(_, _) := ?p in _) _ = _ |- _ =>
      tryif is_var p then destruct p else (let E := fresh "Hp" in destruct p eqn:E)
  | H : (_, _) = (_, _) |- _ => apply pair_inj in H; destruct H; subst
  end.
Ltac inv_stm := repeat inv_stm_step.

(** ** Frames

    [keeps f c]: whatever the outcome, running [c] does not change [f] of the
    state.  The hint database [frame] composes it along straight-line code. *)

Definition keeps {E S A V} (f : S -> V) (c : Stm E S A) : Prop := forall s, f (snd (c s)) = f s.

Lemma keeps_bind {E S A B V} (f : S -> V) (c : Stm E S A) (k : A -> Stm E S B) :
  keeps f c -> (forall a, keeps f (k a)) -> keeps f (sbind c k).
Proof.
  intros Hc Hk s. unfold sbind. specialize (Hc s). destruct (c s) as [[a|e] s1]; cbn [snd] in *; [|assumption].
  now rewrite Hk.
Qed.

Lemma keeps_slift {E S A V} (f : S -> V) (r : Result E A) : keeps f (slift r).
Proof. intros s. reflexivity. Qed.
Lemma keeps_sget {E S A V} (f : S -> V) (g : S -> A) : keeps f (sget (E := E) g).
Proof. intros s. reflexivity. Qed.
Lemma keeps_sgets {E S A V} (f : S -> V) (g : S -> Result E A) : keeps f (sgets g).
Proof. intros s. reflexivity. Qed.
Lemma keeps_sret {E S A V} (f : S -> V) (a : A) : keeps f (sret (E := E) a).
Proof. intros s. reflexivity. Qed.
Lemma keeps_sfail {E S A V} (f : S -> V) (e : E) : keeps f (sfail (A := A) e).
Proof. intros s. reflexivity. Qed.
Lemma keeps_sguard {E S V} (f : S -> V) b (e : E) : keeps f (sguard b e).
Proof. intros s. reflexivity. Qed.
Lemma keeps_smod {E S V} (f : S -> V) (g : S -> S) : (forall s, f (g s) = f s) -> keeps f (smod (E := E) g).
Proof. intros H s. apply H. Qed.

Create HintDb frame.
#[export] Hint Resolve keeps_bind keeps_slift keeps_sget keeps_sgets keeps_sret keeps_sfail keeps_sguard : frame.

(** [frame] proves [keeps f c] for code whose writes do not touch [f]. *)
Ltac frame_step :=
  match goal with
  | |- keeps _ (sbind _ _) => apply keeps_bind; [|intros ?]
  | |- keeps _ (smod _) => apply keeps_smod; intros ?; reflexivity
  | |- keeps _ (let '(_, _) := ?p in _) => destruct p
  | |- keeps _ (match ?x with _ => _ end) => destruct x
  | |- keeps _ (if ?b then _ else _) => destruct b
  | |- keeps _ _ => solve [auto with frame]
  end.
Ltac frame := repeat frame_step.
