(* ===== verification/Constants.v ===== *)
(** * Errors and constants ([src/core/errors.rs], [src/core/constants.rs])

    The two error enumerations with the source's constructors, and the constants
    under their source names.  Message texts built with [format!] keep the
    template with its placeholders; no branch of the program reads a message
    back. *)

From Stdlib Require Import ZArith String.
From S2P Require Import Prelude.
Open Scope string_scope.
Open Scope list_scope.
Open Scope Z_scope.

Module CryptoError.

Inductive t : Type :=
| LibraryNotFound
| InitializationFailed
| BufferTooSmall (capacity required : Z)
| BufferTooLarge (max actual : Z)
| MemoryPinningFailed
| AllocationFailed (size : Z)
| WriteOperationFailed
| ReadOperationFailed
| ComparisonFailed (left right : Z)
| InvalidOperation (operation : string)
| KyberFailed (operation detail : string).

End CryptoError.

Module ProtocolError.

Inductive t : Type :=
| KeyGeneration (msg : string)
| DeriveKey (msg : string)
| InvalidInput (msg : string)
| PrepareLocal (msg : string)
| PeerPubKey (msg : string)
| Handshake (msg : string)
| Decode (msg : string)
| Encode (msg : string)
| BufferTooSmall (msg : string)
| ObjectDisposed
| ReplayAttack (msg : string)
| InvalidState (msg : string)
| NullPointer
| Generic (msg : string)
| GroupProtocol (msg : string)
| GroupMembership (msg : string)
| TreeIntegrity (msg : string)
| WelcomeError (msg : string)
| MessageExpired (msg : string)
| FrankingFailed (msg : string)
| VoipCall (msg : string)
| VoipMedia (msg : string)
| VoipRekey (msg : string)
| Crypto (e : CryptoError.t).

Definition from_crypto (e : CryptoError.t) : t := Crypto e.
Definition generic (msg : string) : t := Generic msg.
Definition key_generation (msg : string) : t := KeyGeneration msg.
Definition derive_key (msg : string) : t := DeriveKey msg.
Definition invalid_input (msg : string) : t := InvalidInput msg.
Definition prepare_local (msg : string) : t := PrepareLocal msg.
Definition handshake (msg : string) : t := Handshake msg.
Definition decode (msg : string) : t := Decode msg.
Definition encode (msg : string) : t := Encode msg.
Definition invalid_state (msg : string) : t := InvalidState msg.
Definition replay_attack (msg : string) : t := ReplayAttack msg.
Definition peer_pub_key (msg : string) : t := PeerPubKey msg.
Definition buffer_too_small (msg : string) : t := BufferTooSmall msg.
Definition group_protocol (msg : string) : t := GroupProtocol msg.
Definition group_membership (msg : string) : t := GroupMembership msg.
Definition tree_integrity (msg : string) : t := TreeIntegrity msg.
Definition welcome_error (msg : string) : t := WelcomeError msg.
Definition message_expired (msg : string) : t := MessageExpired msg.
Definition franking_failed (msg : string) : t := FrankingFailed msg.
Definition voip_call (msg : string) : t := VoipCall msg.
Definition voip_media (msg : string) : t := VoipMedia msg.
Definition voip_rekey (msg : string) : t := VoipRekey msg.

End ProtocolError.

(** A fallible function of the protocol layer, and of the crypto layer. *)
Definition PResult (A : Type) : Type := Result ProtocolError.t A.
Definition CResult (A : Type) : Type := Result CryptoError.t A.

(** [r.map_err(ProtocolError::from_crypto)] *)
Definition crypto_err {A} (r : CResult A) : PResult A := map_err ProtocolError.from_crypto r.

(** * Protocol constants ([src/core/constants.rs])

    Every constant under its source name: sizes, limits and versions as [Z],
    domain-separation labels as byte strings. *)

Definition PROTOCOL_VERSION : Z := 2.
Definition X25519_PUBLIC_KEY_BYTES : Z := 32.
Definition X25519_PRIVATE_KEY_BYTES : Z := 32.
Definition X25519_SHARED_SECRET_BYTES : Z := 32.
Definition ED25519_PUBLIC_KEY_BYTES : Z := 32.
Definition ED25519_SECRET_KEY_BYTES : Z := 64.
Definition ED25519_SIGNATURE_BYTES : Z := 64.
Definition KYBER_PUBLIC_KEY_BYTES : Z := 1184.
Definition KYBER_SECRET_KEY_BYTES : Z := 64.
Definition KYBER_CIPHERTEXT_BYTES : Z := 1088.
Definition KYBER_SHARED_SECRET_BYTES : Z := 32.
Definition KYBER_SEED_KEY_BYTES : Z := 32.
Definition ROOT_KEY_BYTES : Z := 32.
Definition CHAIN_KEY_BYTES : Z := 32.
Definition MESSAGE_KEY_BYTES : Z := 32.
Definition METADATA_KEY_BYTES : Z := 32.
Definition SESSION_ID_BYTES : Z := 16.
Definition HMAC_BYTES : Z := 32.
Definition IDENTITY_BINDING_HASH_BYTES : Z := 32.
Definition OPAQUE_SESSION_KEY_BYTES : Z := 32.
Definition AES_KEY_BYTES : Z := 32.
Definition AES_GCM_NONCE_BYTES : Z := 12.
Definition AES_GCM_TAG_BYTES : Z := 16.
Definition NONCE_PREFIX_BYTES : Z := 8.
Definition NONCE_COUNTER_BYTES : Z := 2.
Definition NONCE_INDEX_BYTES : Z := 2.
Definition MAX_NONCE_COUNTER : Z := 65535.
Definition MAX_MESSAGE_INDEX : Z := 65535.
Definition NONCE_EXHAUSTION_WARNING_PERCENT : Z := 10.
Definition DEFAULT_MESSAGES_PER_CHAIN : Z := 1000.
Definition MAX_SKIPPED_MESSAGE_KEYS : Z := 1000.
Definition MAX_CACHED_METADATA_KEYS : Z := 100.
Definition MAX_METADATA_KEY_EPOCH_AGE : Z := 32.
Definition MAX_SKIPPED_KEY_EPOCH_AGE : Z := MAX_METADATA_KEY_EPOCH_AGE.
Definition MAX_SEEN_NONCES : Z := 2048.
Definition MAX_SEEN_HANDSHAKE_INITS : Z := 16384.
Definition MAX_INFLIGHT_HANDSHAKE_INITS : Z := 4096.
Definition MAX_MESSAGES_PER_CHAIN : Z := 10000.
Definition MAX_ONE_TIME_PRE_KEYS_PER_BUNDLE : Z := 4096.
Definition RATCHET_OUTPUT_BYTES : Z := ROOT_KEY_BYTES + CHAIN_KEY_BYTES + METADATA_KEY_BYTES.
Definition DEFAULT_ONE_TIME_KEY_COUNT : Z := 100.
Definition OPK_ID_MODULUS : Z := 4294967294.
Definition OPK_ID_OFFSET : Z := 2.
Definition DEVICE_ID_BYTES : Z := 32.
Definition MIN_SESSION_TTL_SECONDS : Z := 60.
Definition MAX_SESSION_TTL_SECONDS : Z := 365 * 24 * 3600.
Definition MAX_BUFFER_SIZE : Z := 10 * 1024 * 1024.
Definition MAX_SHARE_SIZE : Z := 65536.
Definition MAX_PROTOBUF_MESSAGE_SIZE : Z := 1024 * 1024.
Definition MAX_HANDSHAKE_MESSAGE_SIZE : Z := 16 * 1024.
Definition MAX_ENVELOPE_MESSAGE_SIZE : Z := 1024 * 1024.
Definition X25519_CLAMP_BYTE0 : Z := 248.
Definition X25519_CLAMP_BYTE31_LOW : Z := 127.
Definition X25519_CLAMP_BYTE31_HIGH : Z := 64.
Definition X3DH_INFO : bytes := bstr "Aura-X3DH".
Definition HYBRID_X3DH_INFO : bytes := bstr "Aura-Hybrid-X3DH".
Definition HYBRID_RATCHET_INFO : bytes := bstr "Aura-Hybrid-Ratchet".
Definition DH_RATCHET_INFO : bytes := bstr "Aura-DH-Ratchet".
Definition CHAIN_INIT_INFO : bytes := bstr "Aura-ChainInit".
Definition CHAIN_INFO : bytes := bstr "Aura-Chain".
Definition MESSAGE_INFO : bytes := bstr "Aura-Msg".
Definition SESSION_ID_INFO : bytes := bstr "Aura-SessionId".
Definition METADATA_KEY_INFO : bytes := bstr "Aura-MetadataKey".
Definition OPAQUE_ROOT_INFO : bytes := bstr "Aura-OPAQUE-Root".
Definition STATE_HMAC_INFO : bytes := bstr "Aura-State-HMAC".
Definition KEY_CONFIRM_INIT_INFO : bytes := bstr "Aura-KeyConfirm-I".
Definition KEY_CONFIRM_RESP_INFO : bytes := bstr "Aura-KeyConfirm-R".
Definition TRANSCRIPT_LABEL : bytes := bstr "Aura-Handshake-Transcript".
Definition IDENTITY_BINDING_INFO : bytes := bstr "Aura-Identity-Binding".
Definition HANDSHAKE_INIT_IDENTITY_BINDING_INFO : bytes := bstr "Aura-Handshake-Init-Identity-Binding".
Definition HYBRID_SALT_PREFIX : bytes := bstr "Aura-PQ-Hybrid::".
Definition X3DH_FILL_BYTE : Z := 255.
Definition X3DH_DH_COUNT : Z := 4.
Definition PURPOSE_IDENTITY_X25519 : string := "identity-x25519".
Definition PURPOSE_SIGNED_PRE_KEY : string := "signed-pre-key".
Definition PURPOSE_IDENTITY_KYBER : string := "identity-kyber".
Definition PURPOSE_EPHEMERAL_X25519 : string := "ephemeral-x25519".
Definition DEFAULT_MEMBERSHIP_ID : string := "default".
Definition MAX_GROUP_MEMBERS : Z := 1024.
Definition MAX_TREE_NODES : Z := 2 * MAX_GROUP_MEMBERS - 1.
Definition MAX_CREDENTIAL_SIZE : Z := 4096.
Definition MAX_TREE_DEPTH : Z := 20.
Definition MAX_PROPOSALS_PER_COMMIT : Z := 64.
Definition MAX_CACHED_GROUP_EPOCHS : Z := 5.
Definition MAX_SENDER_KEY_GENERATION : Z := 100000.
Definition MAX_SKIPPED_SENDER_KEYS : Z := 256.
Definition MAX_GROUP_MESSAGE_SIZE : Z := 1024 * 1024.
Definition GROUP_ID_BYTES : Z := 32.
Definition EPOCH_SECRET_BYTES : Z := 32.
Definition INIT_SECRET_BYTES : Z := 32.
Definition JOINER_SECRET_BYTES : Z := 32.
Definition COMMIT_SECRET_BYTES : Z := 32.
Definition PATH_SECRET_BYTES : Z := 32.
Definition SENDER_KEY_BASE_BYTES : Z := 32.
Definition WELCOME_KEY_BYTES : Z := 32.
Definition CONFIRMATION_KEY_BYTES : Z := 32.
Definition REUSE_GUARD_BYTES : Z := 4.
Definition GROUP_PROTOCOL_VERSION : Z := 2.
Definition GROUP_EXTERNAL_JOIN_AUTH_FORMAT_VERSION : Z := 1.
Definition GROUP_SEALED_STATE_VERSION : Z := 1.
Definition GROUP_EPOCH_SECRET_INFO : bytes := bstr "Aura-Group-EpochSecret".
Definition GROUP_SENDER_KEY_INFO : bytes := bstr "Aura-Group-SenderKey".
Definition GROUP_METADATA_KEY_INFO : bytes := bstr "Aura-Group-MetadataKey".
Definition GROUP_WELCOME_KEY_INFO : bytes := bstr "Aura-Group-WelcomeKey".
Definition GROUP_CONFIRM_KEY_INFO : bytes := bstr "Aura-Group-ConfirmKey".
Definition GROUP_INIT_SECRET_INFO : bytes := bstr "Aura-Group-InitSecret".
Definition GROUP_CHAIN_INFO : bytes := bstr "Aura-Group-Chain".
Definition GROUP_MSG_INFO : bytes := bstr "Aura-Group-Msg".
Definition GROUP_PATH_SECRET_INFO : bytes := bstr "Aura-Group-PathSecret".
Definition GROUP_NODE_KEY_INFO : bytes := bstr "Aura-Group-NodeKey".
Definition GROUP_JOINER_SECRET_INFO : bytes := bstr "Aura-Group-JoinerSecret".
Definition GROUP_HYBRID_PATH_INFO : bytes := bstr "Aura-Group-HybridPath".
Definition GROUP_STATE_HMAC_INFO : bytes := bstr "Aura-Group-StateHMAC".
Definition GROUP_EXTERNAL_JOIN_AUTH_INFO : bytes := bstr "Aura-Group-ExternalJoinAuth".
Definition GROUP_HYBRID_SALT_PREFIX : bytes := bstr "Aura-PQ-Group-Hybrid::".
Definition GROUP_PARENT_HASH_LABEL : bytes := bstr "Aura-Group-ParentHash-v2".
Definition GROUP_LEAF_NODE_HASH_LABEL : bytes := bstr "Aura-Group-LeafNodeHash-v2".
Definition GROUP_PARENT_NODE_HASH_LABEL : bytes := bstr "Aura-Group-ParentNodeHash-v2".
Definition GROUP_BLANK_NODE_HASH_LABEL : bytes := bstr "Aura-Group-BlankNodeHash-v2".
Definition GROUP_EXTERNAL_PUB_X25519_INFO : bytes := bstr "Aura-Group-ExternalPub-X25519".
Definition GROUP_EXTERNAL_PUB_KYBER_INFO : bytes := bstr "Aura-Group-ExternalPub-Kyber".
Definition GROUP_EXTERNAL_INIT_SECRET_INFO : bytes := bstr "Aura-Group-ExternalInitSecret".
Definition GROUP_PSK_SECRET_INFO : bytes := bstr "Aura-Group-PskSecret".
Definition GROUP_PSK_EXTRACT_INFO : bytes := bstr "Aura-Group-PskExtract".
Definition PSK_BYTES : Z := 32.
Definition GROUP_REINIT_LABEL : bytes := bstr "Aura-Group-ReInit".
Definition GROUP_SEAL_KEY_INFO : bytes := bstr "Aura-Group-SealKey".
Definition GROUP_MESSAGE_SIGNATURE_INFO : bytes := bstr "Aura-Group-MessageSignature".
Definition GROUP_FRANKING_TAG_INFO : bytes := bstr "Aura-Group-FrankingTag-v2".
Definition SEAL_KEY_BYTES : Z := 32.
Definition SEALED_AAD_SUFFIX : bytes := bstr "sealed".
Definition FRANKING_TAG_BYTES : Z := 32.
Definition FRANKING_KEY_BYTES : Z := 32.
Definition CONTENT_TYPE_NORMAL : Z := 0.
Definition CONTENT_TYPE_SEALED : Z := 1.
Definition CONTENT_TYPE_DISAPPEARING : Z := 2.
Definition CONTENT_TYPE_SEALED_DISAPPEARING : Z := 3.
Definition CONTENT_TYPE_EDIT : Z := 4.
Definition CONTENT_TYPE_DELETE : Z := 5.
Definition CONTENT_TYPE_REACTION : Z := 6.
Definition CONTENT_TYPE_READ_RECEIPT : Z := 7.
Definition CONTENT_TYPE_TYPING : Z := 8.
Definition MAX_REACTION_EMOJI_CHARS : Z := 16.
Definition MAX_READ_RECEIPT_MESSAGE_IDS : Z := 100.
Definition MAX_MENTIONS_PER_MESSAGE : Z := 50.
Definition MAX_THREAD_DEPTH : Z := 100.
Definition MESSAGE_ID_BYTES : Z := 32.
Definition GROUP_MSG_ID_INFO : bytes := bstr "Aura-Group-MsgId".
Definition MAX_TTL_SECONDS : Z := 7 * 24 * 3600.
Definition MAX_FUTURE_TIMESTAMP_SKEW_SECS : Z := 300.
Definition EXTERNAL_JOIN_AUTH_VALIDITY_SECS : Z := 600.
Definition MESSAGE_PADDING_BLOCK_SIZE : Z := 64.
Definition RATCHET_STALLING_WARNING_THRESHOLD : Z := 100.
Definition SENDER_KEY_EXHAUSTION_WARNING_PERCENT : Z := 10.
Definition OTK_EXHAUSTION_WARNING_PERCENT : Z := 10.
Definition SHIELD_MAX_MESSAGES_PER_EPOCH : Z := 1000.
Definition SHIELD_MAX_SKIPPED_KEYS_PER_SENDER : Z := 4.
Definition STANDARD_MAX_SKIPPED_KEYS_PER_SENDER : Z := 1000.
Definition SHIELD_MIN_MESSAGES_PER_EPOCH : Z := 10.
Definition SHIELD_MIN_SKIPPED_PER_SENDER : Z := 1.
Definition GROUP_ENHANCED_KDF_PASS1 : bytes := bstr "Aura-Enhanced-Pass1".
Definition GROUP_ENHANCED_KDF_PASS2 : bytes := bstr "Aura-Enhanced-Pass2".
Definition GROUP_BLAKE2B_CHAIN_PERSONALIZATION : bytes := bstr "Aura-B2Chain".
Definition SHA256_HASH_BYTES : Z := 32.
Definition HKDF_MAX_ITERATIONS : Z := 255.
Definition HKDF_MAX_OUTPUT_BYTES : Z := HKDF_MAX_ITERATIONS * SHA256_HASH_BYTES.
Definition MIN_MASTER_KEY_BYTES : Z := 32.
Definition MAX_SKIPPED_SENDER_KEYS_PER_SENDER : Z := 1024.
Definition MKD_ED25519_INFO : bytes := bstr "aura-identity-ed25519".
Definition MKD_X25519_INFO : bytes := bstr "aura-identity-x25519".
Definition MKD_SIGNED_PRE_KEY_INFO : bytes := bstr "aura-signed-pre-key".
Definition MKD_OPK_PREFIX : string := "aura-opk-".
Definition MKD_KYBER_SEED_1_INFO : bytes := bstr "aura-kyber-seed-1".
Definition MKD_KYBER_SEED_2_INFO : bytes := bstr "aura-kyber-seed-2".
Definition SPK_ID_INFO : bytes := bstr "Aura-SPK-ID".
Definition SPK_ID_BYTES : Z := 4.
Definition VOIP_PROTOCOL_VERSION : Z := 2.
Definition CALL_ID_BYTES : Z := 32.
Definition SSRC_BYTES : Z := 4.
Definition VOIP_MEDIA_KEY_BYTES : Z := 32.
Definition VOIP_MEDIA_NONCE_BYTES : Z := 12.
Definition VOIP_HEADER_KEY_BYTES : Z := 32.
Definition DEFAULT_RATCHET_INTERVAL_FRAMES : Z := 512.
Definition DEFAULT_PQ_REKEY_INTERVAL_SECS : Z := 60.
Definition MAX_RATCHET_GENERATION : Z := 16777215.
Definition MAX_FRAME_COUNTER : Z := 281474976710655.
Definition MAX_VOIP_FRAME_SIZE : Z := 64 * 1024.
Definition VOIP_FRAME_PADDING_BLOCK : Z := 16.
Definition MAX_SKIPPED_RATCHET_GENERATIONS : Z := 8.
Definition MAX_VOIP_SIGNAL_MESSAGE_SIZE : Z := 64 * 1024.
Definition MAX_VOIP_ENCRYPTED_PAYLOAD_SIZE : Z := MAX_VOIP_FRAME_SIZE + VOIP_FRAME_PADDING_BLOCK + AES_GCM_TAG_BYTES.
Definition MAX_VOIP_ENCRYPTED_HEADER_SIZE : Z := 4 * 1024.
Definition VOIP_CALL_INIT_TIMEOUT_SECS : Z := 30.
Definition VOIP_CALL_ACTIVE_IDLE_TIMEOUT_SECS : Z := 5 * 60.
Definition VOIP_CALL_MAX_LIFETIME_SECS : Z := 24 * 60 * 60.
Definition VOIP_ROOT_SECRET_INFO : bytes := bstr "Aura-VoIP-RootSecret".
Definition VOIP_MEDIA_KEY_SEND_INFO : bytes := bstr "Aura-VoIP-MediaKey-Send".
Definition VOIP_MEDIA_KEY_RECV_INFO : bytes := bstr "Aura-VoIP-MediaKey-Recv".
Definition VOIP_HEADER_KEY_SEND_INFO : bytes := bstr "Aura-VoIP-HeaderKey-Send".
Definition VOIP_HEADER_KEY_RECV_INFO : bytes := bstr "Aura-VoIP-HeaderKey-Recv".
Definition VOIP_RATCHET_CHAIN_INFO : bytes := bstr "Aura-VoIP-RatchetChain".
Definition VOIP_FRAME_KEY_INFO : bytes := bstr "Aura-VoIP-FrameKey".
Definition VOIP_REKEY_INFO : bytes := bstr "Aura-VoIP-Rekey".
Definition VOIP_KEY_CONFIRM_CALLER_INFO : bytes := bstr "Aura-VoIP-KeyConfirm-Caller".
Definition VOIP_KEY_CONFIRM_CALLEE_INFO : bytes := bstr "Aura-VoIP-KeyConfirm-Callee".
Definition VOIP_HYBRID_SALT_PREFIX : bytes := bstr "Aura-PQ-VoIP-Hybrid::".
Definition VOIP_CALL_END_HMAC_INFO : bytes := bstr "Aura-VoIP-CallEnd-HMAC".
Definition VOIP_SHIELD_KDF_PASS1 : bytes := bstr "Aura-VoIP-Shield-Pass1".
Definition VOIP_SHIELD_KDF_PASS2 : bytes := bstr "Aura-VoIP-Shield-Pass2".
Definition VOIP_NONCE_PREFIX_INFO : bytes := bstr "Aura-VoIP-NoncePrefix".
Definition VOIP_NONCE_PREFIX_BYTES : Z := 4.
Definition MAX_SCREEN_SHARE_WIDTH : Z := 7680.
Definition MAX_SCREEN_SHARE_HEIGHT : Z := 4320.
Definition MAX_SCREEN_SHARE_FRAME_RATE : Z := 120.
Definition MAX_CODEC_HINT_CHARS : Z := 64.
Definition MAX_AUDIO_LEVEL : Z := 127.
Definition ATTACHMENT_PROTOCOL_VERSION : Z := 1.
Definition ATTACHMENT_ID_BYTES : Z := 32.
Definition ATTACHMENT_FILE_KEY_BYTES : Z := 32.
Definition ATTACHMENT_HASH_BYTES : Z := 32.
Definition MAX_ATTACHMENT_MANIFEST_SIZE : Z := 16 * 1024.
Definition MAX_ATTACHMENT_CHUNK_SIZE : Z := 1024 * 1024.
Definition MAX_ATTACHMENT_CHUNK_COUNT : Z := (MAX_BUFFER_SIZE / 4).
Definition MAX_ATTACHMENT_ENCRYPTED_FILE_KEY_SIZE : Z := 8 * 1024.
Definition ATTACHMENT_NONCE_INFO : bytes := bstr "Aura-Attachment-Nonce".
Definition MAX_ATTACHMENT_THUMBNAIL_SIZE : Z := 64 * 1024.
Definition ATTACHMENT_THUMBNAIL_CHUNK_INDEX : Z := 4294967295.
Definition ATTACHMENT_THUMBNAIL_AAD_PREFIX : bytes := bstr "Aura-Attachment-Thumbnail-v1".
Definition MAX_ATTACHMENT_TTL_SECONDS : Z := 30 * 24 * 3600.
Definition MIN_ATTACHMENT_TTL_SECONDS : Z := 60.
Definition MAX_COLLAGE_ATTACHMENTS : Z := 20.
Definition COLLAGE_ID_BYTES : Z := 32.
Definition MAX_COLLAGE_MANIFEST_SIZE : Z := 512 * 1024.
Definition MAX_ATTACHMENT_FILENAME_BYTES : Z := 255.
Definition MAX_ATTACHMENT_ALT_TEXT_CHARS : Z := 1024.
Definition MAX_COLLAGE_NAME_CHARS : Z := 255.
Definition MAX_COLLAGE_DESCRIPTION_CHARS : Z := 1024.
Definition MAGIC_BYTES_MIN_HEADER : Z := 12.
Definition MAX_INLINE_ATTACHMENT_DATA_SIZE : Z := 4096.
Definition MAX_VOICE_WAVEFORM_SAMPLES : Z := 256.
Definition MAX_VOICE_TRANSCRIPT_CHARS : Z := 4096.
Definition MAX_LOCATION_LABEL_CHARS : Z := 255.
Definition MAX_CONTACT_DISPLAY_NAME_CHARS : Z := 255.
Definition MAX_CONTACT_PHONE_CHARS : Z := 255.
Definition MAX_CONTACT_EMAIL_CHARS : Z := 255.
Definition MAX_CONTACT_AVATAR_DATA_SIZE : Z := 64 * 1024.
Definition MAX_CONTACT_ORGANIZATION_CHARS : Z := 255.
Definition MAX_LINK_PREVIEW_URL_CHARS : Z := 2048.
Definition MAX_LINK_PREVIEW_TITLE_CHARS : Z := 255.
Definition MAX_LINK_PREVIEW_DESCRIPTION_CHARS : Z := 1024.
Definition MAX_LINK_PREVIEW_IMAGE_SIZE : Z := 256 * 1024.
Definition MAX_LINK_PREVIEW_DOMAIN_CHARS : Z := 255.
Definition IDENTITY_REPLAY_STATE_VERSION : Z := 1.
Definition IDENTITY_REPLAY_STATE_AAD : bytes := bstr "aura-identity-replay-state-v1".
