(* ===== verification/BTree.v ===== *)
(** * Ordered maps (the [BTreeMap] operations the program uses)

    A map is an association list sorted by key.  The program relies on the
    order: [pop_first] and [iter().next()] give the smallest key. *)

From Stdlib Require Import ZArith List Bool Lia.
From S2P Require Import Prelude.
Import ListNotations.
Open Scope Z_scope.

(** Keys with a strict total order ([Ord] in the source). *)
Class OrdKey (K : Type) : Type := { key_ltb : K -> K -> bool }.

Class OrdKeyLaws (K : Type) {O : OrdKey K} : Prop := {
  key_irrefl k : key_ltb k k = false;
  key_trans a b c : key_ltb a b = true -> key_ltb b c = true -> key_ltb a c = true;
  key_total a b : key_ltb a b = false -> key_ltb b a = false -> a = b }.

#[export] Instance Z_key : OrdKey Z := { key_ltb := Z.ltb }.

#[export] Instance Z_key_laws : OrdKeyLaws Z.
Proof.
  constructor; simpl; intros.
  - apply Z.ltb_irrefl.
  - bools. apply Z.ltb_lt. lia.
  - bools. lia.
Qed.

(** Pairs are ordered lexicographically, as derived for tuples. *)
#[export] Instance pair_key : OrdKey (Z * Z) := {
  key_ltb a b := (fst a <? fst b) || ((fst a =? fst b) && (snd a <? snd b)) }.

Lemma pair_key_spec (a b : Z * Z) :
  key_ltb a b = true <-> fst a < fst b \/ (fst a = fst b /\ snd a < snd b).
Proof.
  simpl. rewrite orb_true_iff, andb_true_iff, !Z.ltb_lt, Z.eqb_eq. reflexivity.
Qed.

#[export] Instance pair_key_laws : OrdKeyLaws (Z * Z).
Proof.
  constructor.
  - intros k. apply not_true_is_false. rewrite pair_key_spec. lia.
  - intros a b c. rewrite !pair_key_spec. lia.
  - intros [a1 a2] [b1 b2] H1 H2.
    apply not_true_iff_false in H1, H2. rewrite pair_key_spec in H1, H2. simpl in *. f_equal; lia.
Qed.

Module BTreeMap.
Section Map.
Context {K V : Type} `{O : OrdKey K}.

Definition t : Type := list (K * V).

Definition empty : t := [].

(** Equality of keys, as [Ord::cmp] decides it. *)
Definition key_eqb (a b : K) : bool := negb (key_ltb a b) && negb (key_ltb b a).

Fixpoint get (m : t) (k : K) : option V :=
  match m with
  | [] => None
  | (k', v) :: m => if key_eqb k k' then Some v else get m k
  end.

Fixpoint insert (m : t) (k : K) (v : V) : t :=
  match m with
  | [] => [(k, v)]
  | (k', v') :: m' =>
      if key_ltb k k' then (k, v) :: m
      else if key_ltb k' k then (k', v') :: insert m' k v
      else (k, v) :: m'
  end.

Fixpoint remove (m : t) (k : K) : t :=
  match m with
  | [] => []
  | (k', v') :: m' => if key_eqb k k' then m' else (k', v') :: remove m' k
  end.

(** [iter().next()] *)
Definition first (m : t) : option (K * V) :=
  match m with [] => None | e :: _ => Some e end.

(** What [pop_first] leaves. *)
Definition pop_first (m : t) : t := tl m.

Definition contains_key (m : t) (k : K) : bool :=
  match get m k with Some _ => true | None => false end.

(** ** Sortedness *)

Definition above (k : K) (m : t) : Prop := Forall (fun e => key_ltb k (fst e) = true) m.

Inductive sorted : t -> Prop :=
| sorted_nil : sorted []
| sorted_cons k v m : above k m -> sorted m -> sorted ((k, v) :: m).

Context {L : OrdKeyLaws K}.

Lemma key_eqb_spec a b : key_eqb a b = true <-> a = b.
Proof.
  unfold key_eqb. rewrite andb_true_iff, !negb_true_iff. split.
  - intros [H1 H2]. now apply key_total.
  - intros ->. now rewrite key_irrefl.
Qed.

Lemma key_eqb_refl a : key_eqb a a = true.
Proof. now apply key_eqb_spec. Qed.

Lemma key_eqb_neq a b : a <> b -> key_eqb a b = false.
Proof. intros H. apply not_true_is_false. now rewrite key_eqb_spec. Qed.

Lemma key_ltb_neq a b : key_ltb a b = true -> a <> b.
Proof. intros H ->. rewrite key_irrefl in H. discriminate. Qed.

Lemma key_ltb_asym a b : key_ltb a b = true -> key_ltb b a = false.
Proof.
  intros H. apply not_true_is_false. intros H'. pose proof (key_trans _ _ _ H H') as E.
  rewrite key_irrefl in E. discriminate.
Qed.

Lemma above_trans a b m : key_ltb a b = true -> above b m -> above a m.
Proof.
  intros H Hm. eapply Forall_impl; [|exact Hm]. intros e He. eapply key_trans; eassumption.
Qed.

Lemma above_insert a m k v : above a m -> key_ltb a k = true -> above a (insert m k v).
Proof.
  intros Hm Hk. induction Hm as [|[k' v'] m Hk' Hm IH]; simpl.
  - now repeat constructor.
  - repeat case_if; repeat constructor; auto.
Qed.

Lemma insert_sorted m k v : sorted m -> sorted (insert m k v).
Proof.
  induction 1 as [|k' v' m Ha Hs IH]; simpl.
  - repeat constructor.
  - destruct (key_ltb k k') eqn:E1; [|destruct (key_ltb k' k) eqn:E2].
    + constructor; [|now constructor]. constructor; [assumption|]. eapply above_trans; eassumption.
    + constructor; [now apply above_insert|assumption].
    + rewrite (key_total _ _ E1 E2). now constructor.
Qed.

Lemma above_remove a m k : above a m -> above a (remove m k).
Proof.
  intros Hm. induction Hm as [|[k' v'] m Hk' Hm IH]; simpl; [constructor|].
  case_if; [assumption|now constructor].
Qed.

Lemma remove_sorted m k : sorted m -> sorted (remove m k).
Proof.
  induction 1 as [|k' v' m Ha Hs IH]; simpl; [constructor|].
  case_if; [assumption|]. constructor; [now apply above_remove|assumption].
Qed.

Lemma pop_first_sorted m : sorted m -> sorted (pop_first m).
Proof. destruct 1; simpl; [constructor|assumption]. Qed.

(** ** Lookup *)

Lemma get_above a m k : above a m -> key_ltb k a = true \/ k = a -> get m k = None.
Proof.
  intros Hm Hk. induction Hm as [|[k' v'] m Hk' Hm IH]; [reflexivity|]. simpl in *.
  rewrite key_eqb_neq; [assumption|]. destruct Hk as [Hk| ->].
  - apply key_ltb_neq. eapply key_trans; eassumption.
  - now apply key_ltb_neq.
Qed.

Lemma get_insert_eq m k v : get (insert m k v) k = Some v.
Proof.
  induction m as [|[k' v'] m IH]; simpl.
  - now rewrite key_eqb_refl.
  - destruct (key_ltb k k') eqn:E1; [simpl; now rewrite key_eqb_refl|].
    destruct (key_ltb k' k) eqn:E2; simpl; [|now rewrite key_eqb_refl].
    rewrite key_eqb_neq; [assumption|]. intros ->. rewrite key_irrefl in E2. discriminate.
Qed.

Lemma get_insert_neq m k k' v : k <> k' -> get (insert m k v) k' = get m k'.
Proof.
  intros Hn. induction m as [|[k'' v'] m IH]; simpl.
  - rewrite key_eqb_neq; [reflexivity|congruence].
  - destruct (key_ltb k k'') eqn:E1; [|destruct (key_ltb k'' k) eqn:E2]; simpl.
    + rewrite (key_eqb_neq k' k); [reflexivity|congruence].
    + now rewrite IH.
    + rewrite <- (key_total _ _ E1 E2). now rewrite key_eqb_neq by congruence.
Qed.

Lemma get_remove_eq m k : sorted m -> get (remove m k) k = None.
Proof.
  induction 1 as [|k' v' m Ha Hs IH]; simpl; [reflexivity|].
  destruct (key_eqb k k') eqn:E; [|simpl; now rewrite E].
  apply key_eqb_spec in E. subst. eapply get_above; [exact Ha|now right].
Qed.

Lemma get_remove_neq m k k' : k <> k' -> get (remove m k) k' = get m k'.
Proof.
  intros Hn. induction m as [|[k'' v'] m IH]; simpl; [reflexivity|].
  destruct (key_eqb k k'') eqn:E; simpl.
  - apply key_eqb_spec in E. subst. now rewrite key_eqb_neq by congruence.
  - now rewrite IH.
Qed.

Lemma get_pop_first m k : sorted m ->
  get (pop_first m) k = match first m with
                        | Some (k0, _) => if key_eqb k k0 then None else get m k
                        | None => None
                        end.
Proof.
  destruct 1 as [|k' v' m Ha Hs]; [reflexivity|]. simpl.
  destruct (key_eqb k k') eqn:E; [|reflexivity].
  apply key_eqb_spec in E. subst. eapply get_above; [exact Ha|now right].
Qed.

(** ** Size *)

Lemma len_insert m k v : sorted m ->
  len (insert m k v) = len m + (if contains_key m k then 0 else 1).
Proof.
  induction 1 as [|k' v' m Ha Hs IH]; [reflexivity|].
  unfold contains_key in *. simpl insert. simpl get. unfold key_eqb.
  destruct (key_ltb k k') eqn:E1; cbn [negb andb]; [|destruct (key_ltb k' k) eqn:E2; cbn [negb andb]].
  - rewrite (get_above k' m k) by auto. rewrite !len_cons. lia.
  - rewrite !len_cons, IH. lia.
  - rewrite !len_cons. lia.
Qed.

Lemma len_insert_le m k v : sorted m -> len (insert m k v) <= len m + 1.
Proof. intros H. rewrite len_insert by assumption. case_if; lia. Qed.

Lemma len_remove_le m k : len (remove m k) <= len m.
Proof.
  induction m as [|[k' v'] m IH]; simpl; [lia|]. case_if; rewrite ?len_cons; lia.
Qed.

Lemma len_pop_first m : m <> [] -> len (pop_first m) = len m - 1.
Proof. destruct m as [|e m]; [easy|]. unfold pop_first. cbn [tl]. rewrite len_cons. lia. Qed.

(** ** Extensionality *)

Lemma sorted_ext m1 m2 : sorted m1 -> sorted m2 -> (forall k, get m1 k = get m2 k) -> m1 = m2.
Proof.
  intros H1. revert m2. induction H1 as [|k v m1 Ha Hs IH]; intros m2 H2 Heq.
  - destruct H2 as [|k' v' m2]; [reflexivity|]. specialize (Heq k'). simpl in Heq.
    rewrite key_eqb_refl in Heq. discriminate.
  - destruct H2 as [|k' v' m2 Ha' Hs'].
    { specialize (Heq k). simpl in Heq. rewrite key_eqb_refl in Heq. discriminate. }
    assert (k = k') as <-.
    { destruct (key_ltb k k') eqn:E1; [|destruct (key_ltb k' k) eqn:E2; [|now apply key_total]].
      - specialize (Heq k). simpl in Heq. rewrite key_eqb_refl, (key_eqb_neq k k') in Heq
          by (now apply key_ltb_neq). rewrite (get_above k' m2 k) in Heq by auto. discriminate.
      - specialize (Heq k'). simpl in Heq. rewrite key_eqb_refl, (key_eqb_neq k' k) in Heq
          by (now apply key_ltb_neq). rewrite (get_above k m1 k') in Heq by auto. discriminate. }
    assert (v = v') as <-.
    { specialize (Heq k). simpl in Heq. rewrite key_eqb_refl in Heq. now injection Heq. }
    f_equal. apply IH; [assumption|]. intros k'. specialize (Heq k'). simpl in Heq.
    destruct (key_eqb k' k) eqn:E; [|assumption].
    apply key_eqb_spec in E. subst. rewrite !(get_above k) by auto. reflexivity.
Qed.

Lemma remove_insert m k v : sorted m -> get m k = None -> remove (insert m k v) k = m.
Proof.
  intros Hs Hg. apply sorted_ext; auto using remove_sorted, insert_sorted.
  intros k'. destruct (key_eqb k k') eqn:E.
  - apply key_eqb_spec in E. subst. rewrite Hg. apply get_remove_eq. now apply insert_sorted.
  - rewrite get_remove_neq, get_insert_neq; auto; intros ->; rewrite key_eqb_refl in E; discriminate.
Qed.

Lemma insert_remove m k v : sorted m -> get m k = Some v -> insert (remove m k) k v = m.
Proof.
  intros Hs Hg. apply sorted_ext; auto using remove_sorted, insert_sorted.
  intros k'. destruct (key_eqb k k') eqn:E.
  - apply key_eqb_spec in E. subst. rewrite Hg. apply get_insert_eq.
  - rewrite get_insert_neq, get_remove_neq; auto; intros ->; rewrite key_eqb_refl in E; discriminate.
Qed.

(** ** Loops that evict from the front *)

(** [while first key satisfies p { pop_first }] *)
Fixpoint pop_while (p : K -> bool) (m : t) : t :=
  match m with
  | [] => []
  | (k, v) :: m' => if p k then pop_while p m' else m
  end.

(** Pop the [n] smallest entries. *)
Definition pop_n (n : nat) (m : t) : t := skipn n m.

Lemma pop_while_suffix p m : exists n, pop_while p m = skipn n m.
Proof.
  induction m as [|[k v] m [n IH]]; simpl; [now exists 0%nat|].
  case_if; [exists (S n); assumption|now exists 0%nat].
Qed.

Lemma skipn_sorted n m : sorted m -> sorted (skipn n m).
Proof.
  intros H. revert n. induction H as [|k v m Ha Hs IH]; intros [|n]; simpl; auto using sorted.
Qed.

Lemma pop_while_sorted p m : sorted m -> sorted (pop_while p m).
Proof. intros H. destruct (pop_while_suffix p m) as [n ->]. now apply skipn_sorted. Qed.

Lemma len_pop_while p m : len (pop_while p m) <= len m.
Proof. destruct (pop_while_suffix p m) as [n ->]. rewrite len_skipn. pose proof (len_nonneg m). lia. Qed.

Lemma get_skipn n m k v : sorted m -> get (skipn n m) k = Some v -> get m k = Some v.
Proof.
  intros H. revert n. induction H as [|k' v' m Ha Hs IH]; intros [|n]; simpl; auto.
  intros Hg. apply IH in Hg. destruct (key_eqb k k') eqn:E; [|assumption].
  apply key_eqb_spec in E. subst. rewrite (get_above k' m k') in Hg by auto. discriminate.
Qed.

Lemma get_In m k v : get m k = Some v -> In (k, v) m.
Proof.
  induction m as [|[k' v'] m IH]; simpl; [discriminate|]. case_if; [|auto].
  intros [= ->]. apply key_eqb_spec in E. subst. now left.
Qed.

Lemma In_get m k v : sorted m -> In (k, v) m -> get m k = Some v.
Proof.
  induction 1 as [|k' v' m Ha Hs IH]; [easy|]. intros [[= -> ->]|Hin]; simpl.
  - now rewrite key_eqb_refl.
  - rewrite key_eqb_neq; [auto|]. intros ->. unfold above in Ha. rewrite Forall_forall in Ha.
    apply Ha in Hin. simpl in Hin. rewrite key_irrefl in Hin. discriminate.
Qed.

(** ** Entries in ascending order *)

Definition below (m : t) (k : K) : Prop := Forall (fun e => key_ltb (fst e) k = true) m.

Lemma insert_last m k v : below m k -> insert m k v = m ++ [(k, v)].
Proof.
  induction m as [|[k' v'] m IH]; intros H; [reflexivity|]. inversion H as [|? ? Hk Hm]; subst. cbn [fst] in Hk.
  simpl. rewrite (key_ltb_asym _ _ Hk), Hk. f_equal. auto.
Qed.

Lemma get_below m k : below m k -> get m k = None.
Proof.
  induction m as [|[k' v'] m IH]; intros H; [reflexivity|]. inversion H as [|? ? Hk Hm]; subst. cbn [fst] in Hk.
  simpl. rewrite key_eqb_neq; auto. intros ->. exact (key_ltb_neq _ _ Hk eq_refl).
Qed.

Lemma sorted_snoc m k v m' : sorted (m ++ (k, v) :: m') -> below m k.
Proof.
  induction m as [|[k' v'] m IH]; intros H; [constructor|]. cbn [app] in H. inversion H as [|? ? ? Ha Hs]; subst.
  constructor; [|exact (IH Hs)]. unfold above in Ha. rewrite Forall_app in Ha. destruct Ha as [_ Ha].
  exact (Forall_inv Ha).
Qed.

End Map.
Arguments t : clear implicits.
End BTreeMap.

(** [while map.len() > limit { map.pop_first() }] *)
Fixpoint pop_over {K V} (limit : Z) (m : BTreeMap.t K V) : BTreeMap.t K V :=
  match m with
  | [] => []
  | _ :: m' => if limit <? len m then pop_over limit m' else m
  end.

Section PopOver.
Context {K V : Type}.

Lemma pop_over_suffix limit (m : BTreeMap.t K V) : exists n, pop_over limit m = skipn n m.
Proof.
  induction m as [|e m [n IH]]; simpl; [now exists 0%nat|].
  case_if; [exists (S n); assumption|now exists 0%nat].
Qed.

Lemma len_pop_over limit (m : BTreeMap.t K V) : 0 <= limit -> len (pop_over limit m) <= limit.
Proof.
  intros Hl. induction m as [|e m IH]; cbn [pop_over]; [rewrite len_nil; lia|]. case_if; bools; lia.
Qed.

Lemma pop_over_id limit (m : BTreeMap.t K V) : len m <= limit -> pop_over limit m = m.
Proof.
  destruct m as [|e m]; cbn [pop_over]; [reflexivity|]. intros H. case_if; [bools; lia|reflexivity].
Qed.

End PopOver.
