(* ===== verification/SeenSet.v ===== *)
(** * Bounded sets of recently seen values

    The replay caches of the session and of the identity keep a
    [HashSet<Vec<u8>>] for membership next to a [VecDeque<Vec<u8>>] with the
    order of arrival; when the queue is over its limit the oldest values leave
    both.  The set is the list of its elements. *)

From Stdlib Require Import ZArith List Bool Lia.
From S2P Require Import Prelude.
Import ListNotations.
Open Scope Z_scope.

Definition bset_contains (set : list bytes) (n : bytes) : bool := existsb (bytes_eqb n) set.
Definition bset_insert (set : list bytes) (n : bytes) : list bytes :=
  if bset_contains set n then set else n :: set.
Definition bset_remove (set : list bytes) (n : bytes) : list bytes :=
  filter (fun m => negb (bytes_eqb n m)) set.

(** [while order.len() > max { set.remove(&order.pop_front()) }] *)
Fixpoint prune_recent (max : Z) (set order : list bytes) : list bytes * list bytes :=
  match order with
  | [] => (set, [])
  | oldest :: rest =>
      if max <? len order then prune_recent max (bset_remove set oldest) rest
      else (set, order)
  end.

Lemma bset_contains_In set n : bset_contains set n = true <-> In n set.
Proof.
  unfold bset_contains. rewrite existsb_exists. split.
  - intros (x & Hx & He). apply bytes_eqb_eq in He. now subst.
  - intros H. exists n. split; [assumption|apply bytes_eqb_refl].
Qed.

Lemma bset_contains_not set n : bset_contains set n = false <-> ~ In n set.
Proof. rewrite <- bset_contains_In. destruct (bset_contains set n); split; congruence. Qed.

Lemma bset_remove_In set n m : In m (bset_remove set n) <-> In m set /\ m <> n.
Proof.
  unfold bset_remove. rewrite filter_In, negb_true_iff, bytes_eqb_neq. intuition congruence.
Qed.

Lemma bset_insert_In set n m : In m (bset_insert set n) <-> m = n \/ In m set.
Proof.
  unfold bset_insert. case_if; [|cbn [In]; intuition].
  apply bset_contains_In in E. intuition congruence.
Qed.

Lemma bset_remove_len set n : len (bset_remove set n) <= len set.
Proof. unfold bset_remove, len. pose proof (filter_length_le (fun m => negb (bytes_eqb n m)) set). lia. Qed.

Lemma bset_remove_id set n : ~ In n set -> bset_remove set n = set.
Proof.
  unfold bset_remove. induction set as [|m set IH]; intros H; [reflexivity|]. cbn [filter].
  destruct (bytes_eqb n m) eqn:E; [apply bytes_eqb_eq in E; subst; exfalso; apply H; now left|].
  cbn [negb]. rewrite IH; [reflexivity|]. intros Hn. apply H. now right.
Qed.

Lemma bset_remove_cons set n : ~ In n set -> bset_remove (n :: set) n = set.
Proof. intros H. unfold bset_remove. cbn [filter]. rewrite bytes_eqb_refl. now apply bset_remove_id. Qed.

(** The set and the queue hold the same values, each once. *)
Definition seen_consistent (set order : list bytes) : Prop :=
  NoDup order /\ forall n, In n set <-> In n order.

Lemma prune_consistent max set order set' order' : 0 <= max ->
  seen_consistent set order -> prune_recent max set order = (set', order') ->
  seen_consistent set' order' /\ len order' <= max.
Proof.
  intros Hmax. revert set. induction order as [|n order IH]; intros set [Hd Hs] H.
  - cbn in H. inv_ok. split; [split; assumption|]. rewrite len_nil. easy.
  - cbn [prune_recent] in H. inversion Hd as [|? ? Hn Hd']; subst. case_if_in H.
    + eapply IH; [|exact H]. split; [assumption|]. intros m. rewrite bset_remove_In, Hs. cbn [In].
      split; [intros [[->|?] ?]; congruence|]. intros Hm. split; [now right|]. intros ->. contradiction.
    + bools. inv_ok. split; [split|]; assumption.
Qed.

Lemma remember_consistent set order n :
  seen_consistent set order -> bset_contains set n = false -> seen_consistent (n :: set) (order ++ [n]).
Proof.
  intros [Hd Hs] Hn. apply bset_contains_not in Hn. split.
  - apply NoDup_app; [assumption|constructor; [easy|constructor]|]. intros m Hm [->|[]]. now apply Hn, Hs.
  - intros m. rewrite in_app_iff. cbn [In]. rewrite Hs. intuition.
Qed.

Lemma prune_recent_subset max order m : forall set set' order',
  prune_recent max set order = (set', order') -> In m set' -> In m set.
Proof.
  induction order as [|x order IH]; intros set set' order' H Hm; cbn [prune_recent] in H; [inv_ok; exact Hm|].
  case_if_in H; [|inv_ok; exact Hm]. apply (IH _ _ _ H) in Hm. now apply bset_remove_In in Hm.
Qed.

Lemma prune_recent_fits max set order : len order <= max -> prune_recent max set order = (set, order).
Proof.
  intros H. destruct order as [|n order]; [reflexivity|]. cbn [prune_recent].
  now rewrite (proj2 (Z.ltb_ge _ _)) by exact H.
Qed.

(** What stays of the queue is its end. *)
Lemma prune_recent_order max set order : 0 <= max ->
  snd (prune_recent max set order) = skipn (List.length order - Z.to_nat max) order.
Proof.
  intros Hm. revert set. induction order as [|n order IH]; intros set; cbn [prune_recent]; [now rewrite skipn_nil|].
  case_if; bools; rewrite len_cons in E; unfold len in E.
  - rewrite IH. cbn [List.length]. replace (S (List.length order) - Z.to_nat max)%nat
      with (S (List.length order - Z.to_nat max)) by lia. reflexivity.
  - cbn [List.length snd]. replace (S (List.length order) - Z.to_nat max)%nat with 0%nat by lia. reflexivity.
Qed.
