(* ===== verification/SecureMemory.v ===== *)
(** * Secure memory handles ([src/crypto/secure_memory.rs])

    The handle of the build without page locking ([mod inner] under
    [no-secure-memory], iOS and Windows): a boxed byte slice with bounds
    checks.  Wiping on [Drop] has no observable effect on the values the
    program computes with and is not part of the model. *)

From Stdlib Require Import ZArith List Bool Lia.
From S2P Require Import Prelude Constants.
Import ListNotations.
Open Scope Z_scope.

Module SecureMemoryHandle.

Record t : Type := mk { data : bytes }.

Definition allocate (size : Z) : CResult t :=
  if (size =? 0) || (MAX_BUFFER_SIZE <? size)
  then Err (CryptoError.AllocationFailed size)
  else Ok (mk (repeat 0 (Z.to_nat size))).

Definition size (h : t) : Z := len (data h).

Definition write (h : t) (d : bytes) : CResult t :=
  if len (data h) <? len d
  then Err (CryptoError.BufferTooSmall (len (data h)) (len d))
  else Ok (mk (d ++ repeat 0 (List.length (data h) - List.length d))).

Definition read_bytes (h : t) (n : Z) : CResult bytes :=
  if len (data h) <? n
  then Err (CryptoError.BufferTooSmall (len (data h)) n)
  else Ok (firstn (Z.to_nat n) (data h)).

Definition try_clone (h : t) : CResult t :=
  let? _ := allocate (len (data h)) in
  Ok (mk (data h)).

(** The idiom [allocate(n)?; write(bytes)?] used for every stored key. *)
Definition alloc_write (n : Z) (d : bytes) : CResult t :=
  let? h := allocate n in
  write h d.

Lemma alloc_write_spec n d :
  0 <= n -> alloc_write n d =
  if (n =? 0) || (MAX_BUFFER_SIZE <? n) then Err (CryptoError.AllocationFailed n)
  else if n <? len d then Err (CryptoError.BufferTooSmall n (len d))
  else Ok (mk (d ++ repeat 0 (Z.to_nat (n - len d)))).
Proof.
  intros Hn. unfold alloc_write, allocate. case_if; [reflexivity|]. simpl.
  unfold write. simpl. rewrite len_repeat, Z2Nat.id by lia. case_if; [reflexivity|].
  rewrite repeat_length. unfold len. do 4 f_equal. lia.
Qed.

Lemma alloc_write_exact n d :
  0 < n <= MAX_BUFFER_SIZE -> len d = n -> alloc_write n d = Ok (mk d).
Proof.
  intros Hn Hd. rewrite alloc_write_spec by lia.
  destruct (Z.eqb_spec n 0), (Z.ltb_spec MAX_BUFFER_SIZE n), (Z.ltb_spec n (len d)); try lia.
  simpl. rewrite Hd, Z.sub_diag. now rewrite app_nil_r.
Qed.

Lemma read_bytes_exact d n : len d = n -> read_bytes (mk d) n = Ok d.
Proof.
  intros <-. unfold read_bytes. simpl. rewrite Z.ltb_irrefl.
  unfold len. now rewrite Nat2Z.id, firstn_all.
Qed.

Lemma read_bytes_len h n d : 0 <= n -> read_bytes h n = Ok d -> len d = n.
Proof.
  unfold read_bytes. intros Hn. case_if; [discriminate|]. bools. intros [= <-].
  rewrite len_firstn. lia.
Qed.

End SecureMemoryHandle.
