(* ===== verification/Crypto.v ===== *)
(** * Cryptographic primitives and their wrappers ([src/crypto/])

    The primitives come from crates outside the repository (hkdf, sha2, hmac,
    aes-gcm-siv, x25519-dalek, ml-kem, rand_chacha, blake2).  They are the
    operations of the class [Primitives]; [PrimitiveLaws] states the documented
    behaviour the program relies on: output lengths, correctness of the AEAD,
    agreement of the two Diffie-Hellman sides, agreement of encapsulation and
    decapsulation.  The wrappers ([hkdf.rs], [aes_gcm.rs], [kyber_interop.rs],
    [crypto_interop.rs], [blake2b.rs], [master_key_derivation.rs]) are
    translated on top.  Random values are arguments named [entropy]. *)

From Stdlib Require Import ZArith List Bool Lia String DecimalString DecimalN.
From S2P Require Import Prelude Constants SecureMemory.
Import ListNotations.
Open Scope string_scope.
Open Scope list_scope.
Open Scope Z_scope.

Class Primitives : Type := {
  (** [Sha256::digest] and [Hmac::<Sha256>] over a key and a message. *)
  sha256 : bytes -> bytes;
  hmac_sha256 : bytes -> bytes -> bytes;
  (** [Hkdf::<Sha256>::extract(salt, ikm).0] and [from_prk(prk).expand(info, okm)]. *)
  hkdf_extract : option bytes -> bytes -> bytes;
  hkdf_expand : bytes -> bytes -> Z -> bytes;
  (** [Aes256GcmSiv]: key, nonce, message, associated data. *)
  siv_encrypt : bytes -> bytes -> bytes -> bytes -> option bytes;
  siv_decrypt : bytes -> bytes -> bytes -> bytes -> option bytes;
  (** [PublicKey::from(&secret)] and [secret.diffie_hellman(&public)]. *)
  x25519_public : bytes -> bytes;
  x25519_dh : bytes -> bytes -> bytes;
  (** [MlKem768]: key pair from 64 bytes of randomness as (decapsulation key
      seed, encapsulation key bytes); [Ek::new] followed by [to_bytes];
      encapsulation to a key from 32 bytes of randomness; decapsulation. *)
  mlkem_generate : bytes -> bytes * bytes;
  mlkem_ek_new : bytes -> option bytes;
  mlkem_encapsulate : bytes -> bytes -> bytes * bytes;
  mlkem_decapsulate : bytes -> bytes -> bytes;
  (** The first 64 bytes of [ChaCha20Rng::from_seed(seed)]. *)
  chacha20rng : bytes -> bytes;
  (** [Blake2bMac::<U32>]; [None] when the key is refused. *)
  blake2b_mac : bytes -> bytes -> option bytes }.

Class PrimitiveLaws (P : Primitives) : Prop := {
  sha256_len m : len (sha256 m) = 32;
  hmac_sha256_len k m : len (hmac_sha256 k m) = 32;
  hkdf_extract_len s ikm : len (hkdf_extract s ikm) = 32;
  hkdf_expand_len prk info n : 0 <= n -> len (hkdf_expand prk info n) = n;
  siv_roundtrip k n m a c : siv_encrypt k n m a = Some c -> siv_decrypt k n c a = Some m;
  siv_encrypt_len k n m a c : siv_encrypt k n m a = Some c -> len c = len m + AES_GCM_TAG_BYTES;
  (** The RFC 8452 limit on a message is far above any buffer of the program. *)
  siv_encrypt_total k n m a : len m < 2 ^ 32 -> len a < 2 ^ 32 -> exists c, siv_encrypt k n m a = Some c;
  x25519_public_len s : len (x25519_public s) = 32;
  x25519_dh_len s p : len (x25519_dh s p) = 32;
  x25519_agree a b : x25519_dh a (x25519_public b) = x25519_dh b (x25519_public a);
  mlkem_generate_len e : len (fst (mlkem_generate e)) = KYBER_SECRET_KEY_BYTES /\
    len (snd (mlkem_generate e)) = KYBER_PUBLIC_KEY_BYTES;
  mlkem_ek_valid e : mlkem_ek_new (snd (mlkem_generate e)) = Some (snd (mlkem_generate e));
  mlkem_encapsulate_len ek e : len (fst (mlkem_encapsulate ek e)) = KYBER_CIPHERTEXT_BYTES /\
    len (snd (mlkem_encapsulate ek e)) = KYBER_SHARED_SECRET_BYTES;
  mlkem_decapsulate_len dk ct : len (mlkem_decapsulate dk ct) = KYBER_SHARED_SECRET_BYTES;
  mlkem_agree e r : let '(dk, ek) := mlkem_generate e in
    let '(ct, ss) := mlkem_encapsulate ek r in mlkem_decapsulate dk ct = ss;
  (** Keys of up to 64 bytes are accepted. *)
  blake2b_mac_total k m : len k <= 64 -> exists t, blake2b_mac k m = Some t /\ len t = 32 }.

Section Wrappers.
Context `{P : Primitives}.

(** ** [hkdf.rs] *)

Definition MAX_OUTPUT_LEN : Z := HKDF_MAX_OUTPUT_BYTES.

(** [if salt.is_empty() { None } else { Some(salt) }] *)
Definition salt_opt (salt : bytes) : option bytes :=
  match salt with [] => None | _ => Some salt end.

Definition derive_key_bytes (ikm : bytes) (out_len : Z) (salt info : bytes) : PResult bytes :=
  check? negb ((out_len =? 0) || (MAX_OUTPUT_LEN <? out_len))
    else ProtocolError.derive_key "Invalid HKDF output length: {out_len}" in
  let prk := hkdf_extract (salt_opt salt) ikm in
  check? SHA256_HASH_BYTES <=? len prk
    else ProtocolError.derive_key "Invalid PRK for HKDF: {e}" in
  Ok (hkdf_expand prk info out_len).

Definition extract (salt ikm : bytes) : bytes := hkdf_extract (salt_opt salt) ikm.

Definition expand (prk info : bytes) (out_len : Z) : PResult bytes :=
  check? negb ((out_len =? 0) || (MAX_OUTPUT_LEN <? out_len))
    else ProtocolError.derive_key "Invalid HKDF output length: {out_len}" in
  check? SHA256_HASH_BYTES <=? len prk
    else ProtocolError.derive_key "Invalid PRK for HKDF expand: {e}" in
  Ok (hkdf_expand prk info out_len).

(** ** [aes_gcm.rs] *)

Definition validate_key_nonce (key nonce : bytes) : PResult unit :=
  check? len key =? AES_KEY_BYTES
    else ProtocolError.invalid_input "AES-256-GCM-SIV key must be {} bytes, got {}" in
  check? len nonce =? AES_GCM_NONCE_BYTES
    else ProtocolError.invalid_input "AES-256-GCM-SIV nonce must be {} bytes, got {}" in
  Ok tt.

Definition aes_encrypt (key nonce plaintext associated_data : bytes) : PResult bytes :=
  let? _ := validate_key_nonce key nonce in
  ok_or (siv_encrypt key nonce plaintext associated_data)
    (ProtocolError.generic "AES-256-GCM-SIV encryption failed").

Definition aes_decrypt (key nonce ciphertext_with_tag associated_data : bytes) : PResult bytes :=
  let? _ := validate_key_nonce key nonce in
  check? AES_GCM_TAG_BYTES <=? len ciphertext_with_tag
    else ProtocolError.invalid_input "Ciphertext too small: {} bytes (minimum {} for tag)" in
  ok_or (siv_decrypt key nonce ciphertext_with_tag associated_data)
    (ProtocolError.generic
       "Authentication tag verification failed - data may have been tampered with").

(** ** [crypto_interop.rs] *)

(** [buffer.zeroize()] *)
Definition secure_wipe (buffer : bytes) : bytes := repeat 0 (List.length buffer).

Definition constant_time_equals (a b : bytes) : CResult bool :=
  if negb (len a =? len b) then Ok false
  else Ok (bytes_eqb a b).

Definition generate_x25519_keypair (entropy : bytes) : PResult (SecureMemoryHandle.t * bytes) :=
  let pk := x25519_public entropy in
  let? sk_handle := crypto_err (SecureMemoryHandle.alloc_write X25519_PRIVATE_KEY_BYTES entropy) in
  Ok (sk_handle, pk).

(** X25519 clamping of a derived seed:
    [seed[0] &= 248; seed[31] &= 127; seed[31] |= 64] *)
Definition clamp (seed : bytes) : bytes :=
  let s := update seed 0 (Z.land (nth 0 seed 0) X25519_CLAMP_BYTE0) in
  let s := update s 31 (Z.land (nth 31 s 0) X25519_CLAMP_BYTE31_LOW) in
  update s 31 (Z.lor (nth 31 s 0) X25519_CLAMP_BYTE31_HIGH).

Lemma len_clamp s : len (clamp s) = len s.
Proof. unfold clamp, len. now rewrite !update_length. Qed.

(** ** [blake2b.rs] *)

Definition keyed_hash (key data : bytes) : PResult bytes :=
  ok_or (blake2b_mac key data) (ProtocolError.derive_key "BLAKE2b-MAC init: {e}").

(** ** [kyber_interop.rs] *)

Definition kyber_generate_keypair (entropy self_test_entropy : bytes) :
    CResult (SecureMemoryHandle.t * bytes) :=
  let '(sk_bytes, pk_bytes) := mlkem_generate entropy in
  let '(ct, ss_enc) := mlkem_encapsulate pk_bytes self_test_entropy in
  let ss_dec := mlkem_decapsulate sk_bytes ct in
  check? bytes_eqb ss_enc ss_dec
    else CryptoError.KyberFailed "self-test"
           "encapsulate/decapsulate shared secrets do not match" in
  let? sk_handle := SecureMemoryHandle.alloc_write (len sk_bytes) sk_bytes in
  Ok (sk_handle, pk_bytes).

Definition kyber_generate_keypair_from_seed (seed : bytes) :
    CResult (SecureMemoryHandle.t * bytes) :=
  check? KYBER_SEED_KEY_BYTES <=? len seed
    else CryptoError.KyberFailed "generate_keypair_from_seed"
           "seed too short: expected at least {} bytes, got {}" in
  let seed_array := firstn (Z.to_nat KYBER_SEED_KEY_BYTES) seed in
  let '(sk_bytes, pk_bytes) := mlkem_generate (chacha20rng seed_array) in
  let? sk_handle := SecureMemoryHandle.alloc_write (len sk_bytes) sk_bytes in
  Ok (sk_handle, pk_bytes).

Definition kyber_encapsulate_with_rng (peer_public_key entropy : bytes) (operation : string) :
    CResult (bytes * SecureMemoryHandle.t) :=
  check? len peer_public_key =? KYBER_PUBLIC_KEY_BYTES
    else CryptoError.KyberFailed operation "invalid public key size: expected {} bytes, got {}" in
  let? ek := ok_or (mlkem_ek_new peer_public_key)
    (CryptoError.KyberFailed operation "failed to parse ML-KEM public key bytes") in
  let '(ct_bytes, ss) := mlkem_encapsulate ek entropy in
  let? ss_handle := SecureMemoryHandle.alloc_write KYBER_SHARED_SECRET_BYTES ss in
  Ok (ct_bytes, ss_handle).

Definition kyber_encapsulate (peer_public_key entropy : bytes) :
    CResult (bytes * SecureMemoryHandle.t) :=
  kyber_encapsulate_with_rng peer_public_key entropy "encapsulate".

Definition kyber_decapsulate (ciphertext : bytes) (secret_key_handle : SecureMemoryHandle.t) :
    CResult SecureMemoryHandle.t :=
  check? len ciphertext =? KYBER_CIPHERTEXT_BYTES
    else CryptoError.KyberFailed "decapsulate"
           "invalid ciphertext size: expected {} bytes, got {}" in
  let? sk_bytes := SecureMemoryHandle.read_bytes secret_key_handle KYBER_SECRET_KEY_BYTES in
  let ss := mlkem_decapsulate sk_bytes ciphertext in
  SecureMemoryHandle.alloc_write KYBER_SHARED_SECRET_BYTES ss.

Definition kyber_validate_public_key (key : bytes) : CResult unit :=
  check? len key =? KYBER_PUBLIC_KEY_BYTES
    else CryptoError.KyberFailed "validate_public_key"
           "invalid public key size: expected {} bytes, got {}" in
  check? negb (forallb (fun b => b =? 0) key)
    else CryptoError.KyberFailed "validate_public_key" "degenerate all-zero public key" in
  let? ek := ok_or (mlkem_ek_new key)
    (CryptoError.KyberFailed "validate_public_key" "failed to parse ML-KEM public key bytes") in
  check? bytes_eqb ek key
    else CryptoError.KyberFailed "validate_public_key"
           "public key fails re-encoding structural check" in
  Ok tt.

Definition kyber_validate_ciphertext (ct : bytes) : CResult unit :=
  check? len ct =? KYBER_CIPHERTEXT_BYTES
    else CryptoError.KyberFailed "validate_ciphertext"
           "invalid ciphertext size: expected {} bytes, got {}" in
  check? negb (forallb (fun b => b =? 0) ct)
    else CryptoError.KyberFailed "validate_ciphertext" "degenerate all-zero ciphertext" in
  Ok tt.

Definition combine_hybrid_secrets (classical_secret kyber_secret : bytes) (out_len : Z)
    (info : bytes) : PResult bytes :=
  let salt := HYBRID_SALT_PREFIX ++ classical_secret in
  derive_key_bytes kyber_secret out_len salt info.

(** ** [master_key_derivation.rs] *)

Definition MKD_LABEL : bytes := bstr "aura-mkd".
Definition MAX_OUTPUT_BYTES : Z := 64.

Definition mkd_info (context_string membership_id : bytes) : bytes :=
  to_le_bytes 2 (wrap 16 (len context_string)) ++ context_string ++
  to_le_bytes 2 (wrap 16 (len membership_id)) ++ membership_id.

Definition mkd_derive (master_key context_string membership_id : bytes) (out_len : Z) :
    PResult bytes :=
  check? MIN_MASTER_KEY_BYTES <=? len master_key
    else ProtocolError.derive_key "Master key must be at least 32 bytes" in
  check? negb ((out_len =? 0) || (MAX_OUTPUT_BYTES <? out_len))
    else ProtocolError.derive_key "Invalid output length: {out_len}" in
  check? len context_string <=? u16_max
    else ProtocolError.invalid_input "Context string too long (max 65535 bytes)" in
  check? len membership_id <=? u16_max
    else ProtocolError.invalid_input "Membership ID too long (max 65535 bytes)" in
  let info := mkd_info context_string membership_id in
  let extracted := extract MKD_LABEL master_key in
  expand extracted info out_len.

Definition mkd_derive_ed25519_seed (master_key membership_id : bytes) : PResult bytes :=
  mkd_derive master_key MKD_ED25519_INFO membership_id X25519_PRIVATE_KEY_BYTES.

Definition mkd_derive_x25519_seed (master_key membership_id : bytes) : PResult bytes :=
  mkd_derive master_key MKD_X25519_INFO membership_id X25519_PRIVATE_KEY_BYTES.

Definition mkd_derive_signed_pre_key_seed (master_key membership_id : bytes) : PResult bytes :=
  mkd_derive master_key MKD_SIGNED_PRE_KEY_INFO membership_id X25519_PRIVATE_KEY_BYTES.

(** [format!("{MKD_OPK_PREFIX}{index}")] *)
Definition opk_label (index : Z) : bytes :=
  bstr MKD_OPK_PREFIX ++ bstr (NilEmpty.string_of_uint (N.to_uint (Z.to_N index))).

Definition mkd_derive_one_time_pre_key_seed (master_key membership_id : bytes) (index : Z) :
    PResult bytes :=
  mkd_derive master_key (opk_label index) membership_id X25519_PRIVATE_KEY_BYTES.

Definition mkd_derive_kyber_seed (master_key membership_id : bytes) : PResult bytes :=
  check? MIN_MASTER_KEY_BYTES <=? len master_key
    else ProtocolError.derive_key
           "Master key must be at least 32 bytes for Kyber seed derivation" in
  let? seed := mkd_derive master_key MKD_KYBER_SEED_1_INFO membership_id KYBER_SEED_KEY_BYTES in
  let? seed2 := mkd_derive master_key MKD_KYBER_SEED_2_INFO membership_id KYBER_SEED_KEY_BYTES in
  Ok (seed ++ seed2).

End Wrappers.

(** ** Consequences of the laws for the wrappers *)

Section WrapperFacts.
Context `{P : Primitives} {L : PrimitiveLaws P}.

(** The key derived by a successful [derive_key_bytes]. *)
Definition kdf (ikm : bytes) (n : Z) (salt info : bytes) : bytes :=
  hkdf_expand (hkdf_extract (salt_opt salt) ikm) info n.

Lemma derive_key_bytes_ok ikm n salt info :
  0 < n <= HKDF_MAX_OUTPUT_BYTES -> derive_key_bytes ikm n salt info = Ok (kdf ikm n salt info).
Proof.
  intros Hn. unfold derive_key_bytes, MAX_OUTPUT_LEN.
  destruct (Z.eqb_spec n 0), (Z.ltb_spec HKDF_MAX_OUTPUT_BYTES n); try lia.
  simpl. now rewrite hkdf_extract_len.
Qed.

Lemma kdf_len ikm n salt info : 0 <= n -> len (kdf ikm n salt info) = n.
Proof. intros. unfold kdf. now apply hkdf_expand_len. Qed.

Lemma derive_key_bytes_len ikm n salt info k :
  0 < n -> derive_key_bytes ikm n salt info = Ok k -> len k = n.
Proof.
  intros Hn H. unfold derive_key_bytes in H. inv_ok. apply hkdf_expand_len. lia.
Qed.

Lemma expand_ok prk info n :
  len prk = 32 -> 0 < n <= HKDF_MAX_OUTPUT_BYTES -> expand prk info n = Ok (hkdf_expand prk info n).
Proof.
  intros Hp Hn. unfold expand, MAX_OUTPUT_LEN.
  destruct (Z.eqb_spec n 0), (Z.ltb_spec HKDF_MAX_OUTPUT_BYTES n); try lia.
  simpl. now rewrite Hp.
Qed.

Lemma extract_len salt ikm : len (extract salt ikm) = 32.
Proof. apply hkdf_extract_len. Qed.

Lemma aes_encrypt_inv key nonce m aad c :
  aes_encrypt key nonce m aad = Ok c ->
  len key = AES_KEY_BYTES /\ len nonce = AES_GCM_NONCE_BYTES /\ siv_encrypt key nonce m aad = Some c.
Proof.
  intros H. unfold aes_encrypt, validate_key_nonce in H. inv_ok. bools. auto.
Qed.

Lemma aes_roundtrip key nonce m aad c :
  aes_encrypt key nonce m aad = Ok c -> aes_decrypt key nonce c aad = Ok m.
Proof.
  intros H. apply aes_encrypt_inv in H. destruct H as (Hk & Hn & He).
  unfold aes_decrypt, validate_key_nonce. rewrite Hk, Hn. simpl.
  pose proof (siv_encrypt_len _ _ _ _ _ He) as Hl. pose proof (len_nonneg m).
  destruct (Z.leb_spec AES_GCM_TAG_BYTES (len c)); [|lia].
  simpl. now rewrite (siv_roundtrip _ _ _ _ _ He).
Qed.

Lemma aes_encrypt_ok key nonce m aad :
  len key = AES_KEY_BYTES -> len nonce = AES_GCM_NONCE_BYTES -> len m < 2 ^ 32 -> len aad < 2 ^ 32 ->
  exists c, aes_encrypt key nonce m aad = Ok c /\ siv_encrypt key nonce m aad = Some c.
Proof.
  intros Hk Hn Hm Ha. destruct (siv_encrypt_total key nonce m aad Hm Ha) as [c Hc].
  exists c. unfold aes_encrypt, validate_key_nonce. rewrite Hk, Hn. simpl. now rewrite Hc.
Qed.

Lemma constant_time_equals_spec a b : constant_time_equals a b = Ok (bytes_eqb a b).
Proof.
  unfold constant_time_equals. destruct (Z.eqb_spec (len a) (len b)) as [|Hn]; simpl; [reflexivity|].
  f_equal. symmetry. apply bytes_eqb_neq. congruence.
Qed.

Lemma kyber_roundtrip e pk r ct ss :
  pk = snd (mlkem_generate e) ->
  kyber_encapsulate pk r = Ok (ct, ss) ->
  kyber_decapsulate ct (SecureMemoryHandle.mk (fst (mlkem_generate e))) = Ok ss.
Proof.
  intros -> H. unfold kyber_encapsulate, kyber_encapsulate_with_rng in H.
  pose proof (mlkem_agree e r) as Ha. pose proof (mlkem_generate_len e) as [Hd Hk].
  pose proof (mlkem_ek_valid e) as Hv.
  destruct (mlkem_generate e) as [dk ek]. simpl in *. rewrite Hv in H.
  pose proof (mlkem_encapsulate_len ek r) as [Hc Hs].
  destruct (mlkem_encapsulate ek r) as [ct' ss'] eqn:He. simpl in *.
  inv_ok. simpl in *. rewrite He in *. inv_ok. unfold kyber_decapsulate.
  rewrite Hc. simpl. rewrite SecureMemoryHandle.read_bytes_exact by exact Hd. simpl. assumption.
Qed.

Lemma generate_x25519_keypair_inv e h pk :
  len e = X25519_PRIVATE_KEY_BYTES -> generate_x25519_keypair e = Ok (h, pk) ->
  h = SecureMemoryHandle.mk e /\ pk = x25519_public e.
Proof.
  intros He H. unfold generate_x25519_keypair, crypto_err in H.
  rewrite SecureMemoryHandle.alloc_write_exact in H by (auto; unfold X25519_PRIVATE_KEY_BYTES, MAX_BUFFER_SIZE; lia).
  inv_ok. simpl in *. inv_ok. auto.
Qed.

Lemma kyber_generate_keypair_inv e r h pk :
  kyber_generate_keypair e r = Ok (h, pk) ->
  h = SecureMemoryHandle.mk (fst (mlkem_generate e)) /\ pk = snd (mlkem_generate e).
Proof.
  unfold kyber_generate_keypair. pose proof (mlkem_generate_len e) as [Hd _].
  destruct (mlkem_generate e) as [sk ek]. simpl in Hd. destruct (mlkem_encapsulate ek r). intros H. inv_ok.
  rewrite SecureMemoryHandle.alloc_write_exact in * by (rewrite ?Hd; unfold KYBER_SECRET_KEY_BYTES, MAX_BUFFER_SIZE; lia).
  inv_ok. auto.
Qed.

Lemma kyber_encapsulate_inv pk r ct h :
  kyber_encapsulate pk r = Ok (ct, h) ->
  exists ss, h = SecureMemoryHandle.mk ss /\ len ss = KYBER_SHARED_SECRET_BYTES /\ len ct = KYBER_CIPHERTEXT_BYTES.
Proof.
  unfold kyber_encapsulate, kyber_encapsulate_with_rng. intros H. inv_ok.
  match goal with H : (let '(_, _) := mlkem_encapsulate ?ek r in _) = _ |- _ =>
    pose proof (mlkem_encapsulate_len ek r) as [Hc Hs]; destruct (mlkem_encapsulate ek r) as [ct' ss] end.
  simpl in Hc, Hs. inv_ok.
  rewrite SecureMemoryHandle.alloc_write_exact in * by (rewrite ?Hs; unfold KYBER_SHARED_SECRET_BYTES, MAX_BUFFER_SIZE; lia).
  inv_ok. eauto.
Qed.

End WrapperFacts.
