(* ===== verification/Toy.v ===== *)
(** * A concrete instance of the primitives

    Small executable functions with the interface and the laws of [Crypto],
    used only to evaluate concrete runs: they show that the laws can hold
    together and let the witnesses compute.  They are not secure and model no
    code of the program. *)

From Stdlib Require Import ZArith List Bool Lia.
From S2P Require Import Prelude Constants SecureMemory Crypto.
Import ListNotations.
Open Scope Z_scope.

Definition toy_mix (l : bytes) : Z :=
  fold_left (fun acc b => Z.land (acc * 33 + b + 7) 4294967295) l 5381.

Fixpoint toy_stream (n : nat) (s : Z) : bytes :=
  match n with
  | O => []
  | S n => Z.shiftr s 24 :: toy_stream n (Z.land (s * 69069 + 12345) 4294967295)
  end.

Fixpoint toy_frame (parts : list bytes) : bytes :=
  match parts with
  | [] => []
  | p :: ps => len p :: p ++ toy_frame ps
  end.

Definition toy_hash (parts : list bytes) (n : Z) : bytes :=
  toy_stream (Z.to_nat n) (Z.land (toy_mix (toy_frame parts) * 2654435761) 4294967295).

Lemma toy_stream_length n s : List.length (toy_stream n s) = n.
Proof. revert s; induction n; simpl; auto. Qed.

Lemma toy_hash_len parts n : 0 <= n -> len (toy_hash parts n) = n.
Proof. intros. unfold toy_hash, len. rewrite toy_stream_length. lia. Qed.

Lemma resize_len n b l : 0 <= n -> len (resize n b l) = n.
Proof. intros. unfold resize. autorewrite with lens. pose proof (len_nonneg l). lia. Qed.

Lemma resize_exact n b l : len l = n -> resize n b l = l.
Proof.
  intros <-. unfold resize. rewrite Z.sub_diag. unfold len.
  rewrite Nat2Z.id, firstn_all. apply app_nil_r.
Qed.

Lemma firstn_resize k n b l :
  len l = k -> k <= n -> firstn (Z.to_nat k) (resize n b l) = l.
Proof.
  intros <- Hn. unfold resize, len in *. rewrite Nat2Z.id, firstn_app.
  rewrite (firstn_all2 (n := Z.to_nat n)) by lia.
  now rewrite firstn_all, Nat.sub_diag, firstn_O, app_nil_r.
Qed.

Fixpoint toy_add (a b : bytes) : bytes :=
  match a, b with
  | x :: a, y :: b => (x + y) mod 256 :: toy_add a b
  | _, _ => []
  end.

Lemma toy_add_comm a b : toy_add a b = toy_add b a.
Proof. revert b; induction a; intros [|y b]; simpl; f_equal; auto. f_equal. lia. Qed.

Definition toy_siv_decrypt (k n c a : bytes) : option bytes :=
  let m := firstn (List.length c - 16) c in
  if bytes_eqb (skipn (List.length c - 16) c) (toy_hash [k; n; m; a] 16) then Some m else None.

#[export] Instance toy_primitives : Primitives := {
  sha256 m := toy_hash [[1]; m] 32;
  hmac_sha256 k m := toy_hash [[2]; k; m] 32;
  hkdf_extract salt ikm := toy_hash [[3]; match salt with Some s => s | None => [] end; ikm] 32;
  hkdf_expand prk info n := toy_hash [[4]; prk; info] n;
  siv_encrypt k n m a := Some (m ++ toy_hash [k; n; m; a] 16);
  siv_decrypt := toy_siv_decrypt;
  x25519_public s := resize 32 0 s;
  x25519_dh s p := toy_hash [[5]; toy_add (resize 32 0 s) (resize 32 0 p)] 32;
  mlkem_generate e := (resize 64 0 e, resize 1184 3 (resize 64 0 e));
  mlkem_ek_new k := if len k =? 1184 then Some k else None;
  mlkem_encapsulate ek r :=
    let ct := resize 1088 1 (resize 32 0 r) in (ct, toy_hash [[6]; firstn (Z.to_nat 64) ek; ct] 32);
  mlkem_decapsulate dk ct := toy_hash [[6]; dk; ct] 32;
  chacha20rng seed := toy_hash [[7]; seed] 64;
  blake2b_mac k m := if len k <=? 64 then Some (toy_hash [[8]; k; m] 32) else None }.

Lemma toy_siv_roundtrip k n m a c :
  siv_encrypt k n m a = Some c -> siv_decrypt k n c a = Some m.
Proof.
  intros [= <-]. simpl. unfold toy_siv_decrypt.
  assert (Hl : List.length (toy_hash [k; n; m; a] 16) = 16%nat) by apply toy_stream_length.
  rewrite length_app, Hl, Nat.add_sub, firstn_app, firstn_all, Nat.sub_diag, firstn_O, app_nil_r.
  rewrite skipn_app, skipn_all, Nat.sub_diag. simpl app. now rewrite bytes_eqb_refl.
Qed.

#[export] Instance toy_laws : PrimitiveLaws toy_primitives.
Proof.
  constructor; intros; try (now apply toy_hash_len).
  - now apply toy_siv_roundtrip.
  - injection H as <-. rewrite len_app. now rewrite toy_hash_len.
  - eexists; reflexivity.
  - now apply resize_len.
  - simpl. do 3 f_equal. rewrite !(resize_exact 32 0 (resize 32 0 _)) by (now apply resize_len).
    now rewrite toy_add_comm.
  - split; now apply resize_len.
  - simpl. rewrite resize_len by lia. reflexivity.
  - split; [now apply resize_len|now apply toy_hash_len].
  - unfold mlkem_generate, mlkem_encapsulate, mlkem_decapsulate, toy_primitives.
    cbv beta iota zeta.
    rewrite (firstn_resize 64); [reflexivity|now apply resize_len|lia].
  - unfold blake2b_mac, toy_primitives. destruct (Z.leb_spec (len k) 64); [|lia].
    eexists. split; [reflexivity|]. now apply toy_hash_len.
Qed.
