(* ===== verification/Signatures.v ===== *)
(** * Ed25519 signatures

    The signing keys of the crate [ed25519-dalek] as operations of a class, the
    behaviour it documents as [SignatureLaws], and a small executable instance
    used to evaluate concrete runs. *)

From Stdlib Require Import ZArith List Bool Lia.
From S2P Require Import Prelude Constants SecureMemory Crypto Toy.
Import ListNotations.
Open Scope Z_scope.

Class Signatures : Type := {
  (** [SigningKey::from_bytes(seed).to_keypair_bytes()]: secret and public half. *)
  ed25519_keypair : bytes -> bytes;
  (** [SigningKey::from_keypair_bytes] accepts the 64 bytes. *)
  ed25519_keypair_ok : bytes -> bool;
  (** [signing_key.sign(message).to_bytes()] for keypair bytes. *)
  ed25519_sign : bytes -> bytes -> bytes;
  (** [VerifyingKey::from_bytes] accepts the 32 bytes. *)
  ed25519_public_ok : bytes -> bool;
  (** [verifying_key.verify_strict(message, signature)] *)
  ed25519_verify_strict : bytes -> bytes -> bytes -> bool }.

(** The public half of keypair bytes: [keypair_bytes[32..]]. *)
Definition ed25519_public (kp : bytes) : bytes := skipn 32 kp.

Class SignatureLaws (SG : Signatures) : Prop := {
  ed25519_keypair_len s : len (ed25519_keypair s) = ED25519_SECRET_KEY_BYTES;
  ed25519_keypair_valid s : ed25519_keypair_ok (ed25519_keypair s) = true;
  ed25519_sign_len kp m : len (ed25519_sign kp m) = ED25519_SIGNATURE_BYTES;
  ed25519_public_valid s : ed25519_public_ok (ed25519_public (ed25519_keypair s)) = true;
  ed25519_sign_verify s m :
    ed25519_verify_strict (ed25519_public (ed25519_keypair s)) m (ed25519_sign (ed25519_keypair s) m) = true }.

Lemma ed25519_public_len kp : len kp = ED25519_SECRET_KEY_BYTES -> len (ed25519_public kp) = ED25519_PUBLIC_KEY_BYTES.
Proof. unfold ed25519_public, ED25519_SECRET_KEY_BYTES, ED25519_PUBLIC_KEY_BYTES. intros H. rewrite len_skipn. lia. Qed.

Definition toy_signature (pk m : bytes) : bytes := toy_hash [[9]; pk; m] 64.

#[export] Instance toy_signatures : Signatures := {
  ed25519_keypair s := resize 32 0 s ++ resize 32 0 s;
  ed25519_keypair_ok kp := len kp =? 64;
  ed25519_sign kp m := toy_signature (skipn 32 kp) m;
  ed25519_public_ok pk := len pk =? 32;
  ed25519_verify_strict pk m sg := bytes_eqb sg (toy_signature pk m) }.

Lemma toy_keypair_len s : len (resize 32 0 s ++ resize 32 0 s) = 64.
Proof. rewrite len_app, !resize_len by lia. reflexivity. Qed.

Lemma toy_public_len s : len (skipn 32 (resize 32 0 s ++ resize 32 0 s)) = 32.
Proof. rewrite len_skipn, toy_keypair_len. reflexivity. Qed.

#[export] Instance toy_signature_laws : SignatureLaws toy_signatures.
Proof.
  constructor; intros.
  - exact (toy_keypair_len s).
  - exact (proj2 (Z.eqb_eq _ _) (toy_keypair_len s)).
  - exact (toy_hash_len _ 64 ltac:(easy)).
  - exact (proj2 (Z.eqb_eq _ _) (toy_public_len s)).
  - exact (bytes_eqb_refl _).
Qed.
