(* ===== verification/Padding.v ===== *)
(** * Message padding ([src/crypto/padding.rs])

    Block padding with a [0x01] sentinel and its branch-free removal, with the
    masks computed as the code computes them on 8-, 16- and 64-bit words.  The
    theorems show that the branch-free scan decides exactly the padding
    grammar, and that padding round-trips. *)

From Stdlib Require Import ZArith List Bool Lia String.
From S2P Require Import Prelude Constants.
Import ListNotations.
Open Scope string_scope.
Open Scope list_scope.
Open Scope Z_scope.

(** [x as isize] *)
Definition as_isize (x : Z) : Z := if x <? 2 ^ 63 then x else x - 2 ^ 64.

Definition ct_gt_mask (a b : Z) : Z :=
  let diff := as_isize (wrapping_sub 64 b a) in
  wrap 8 (Z.shiftr diff (64 - 1)).

Module MessagePadding.

Definition padded_length (plaintext_len : Z) : Z :=
  let with_sentinel := plaintext_len + 1 in
  let blocks := div_ceil with_sentinel MESSAGE_PADDING_BLOCK_SIZE in
  blocks * MESSAGE_PADDING_BLOCK_SIZE.

Definition pad (plaintext : bytes) : bytes :=
  resize (padded_length (len plaintext)) 0 (plaintext ++ [1]).

(** The mask of the sentinel scan: all ones when [byte] is the sentinel. *)
Definition sentinel_mask (byte : Z) : Z :=
  let diff := Z.lxor byte 1 in
  let is_nonzero := Z.land (Z.shiftr (Z.lor diff (wrapping_neg 16 diff)) 7) 1 in
  wrapping_sub 64 is_nonzero 1.

(** One iteration of the first loop, on [(found_pos, found)]. *)
Definition scan_step (st : Z * Z) (e : Z * byte) : Z * Z :=
  let '(found_pos, found) := st in
  let '(i, b) := e in
  let mask := sentinel_mask b in
  (Z.lor (Z.land found_pos (bitnot 64 mask)) (Z.land i mask),
   Z.lor found (Z.land mask 1)).

(** One iteration of the second loop. *)
Definition tail_step (found_pos : Z) (acc : Z) (e : Z * byte) : Z :=
  let '(i, b) := e in
  Z.lor acc (Z.land b (ct_gt_mask i found_pos)).

Definition unpad (padded : bytes) : PResult bytes :=
  check? negb (len padded =? 0)
    else ProtocolError.decode "Invalid padding: empty input" in
  check? len padded mod MESSAGE_PADDING_BLOCK_SIZE =? 0
    else ProtocolError.decode "Invalid padding: not block-aligned" in
  let '(found_pos, found) := fold_left scan_step (enumerate_from 0 padded) (0, 0) in
  check? negb (found =? 0)
    else ProtocolError.decode "Invalid padding: no sentinel byte found" in
  let non_zero_after_sentinel :=
    fold_left (tail_step found_pos) (enumerate_from 0 padded) 0 in
  check? non_zero_after_sentinel =? 0
    else ProtocolError.decode "Invalid padding: non-zero bytes after sentinel" in
  Ok (firstn (Z.to_nat found_pos) padded).

(** ** The masks *)

Lemma sentinel_mask_spec b : is_u8 b ->
  sentinel_mask b = if b =? 1 then 2 ^ 64 - 1 else 0.
Proof.
  intros Hb.
  assert (H : forallb (fun b => sentinel_mask b =? if b =? 1 then 2 ^ 64 - 1 else 0)
                (zrange 0 256) = true) by (vm_compute; reflexivity).
  rewrite forallb_forall in H. apply Z.eqb_eq, H, zrange_In. exact Hb.
Qed.

(** The mask comment of the source ([0xFF] when [a > b]) holds for indices of
    a buffer, whose length is at most [isize::MAX]. *)
Lemma ct_gt_mask_spec a b : 0 <= a < 2 ^ 63 -> 0 <= b < 2 ^ 63 ->
  ct_gt_mask a b = if b <? a then 255 else 0.
Proof.
  intros Ha Hb. unfold ct_gt_mask, as_isize, wrapping_sub.
  destruct (Z.ltb_spec b a).
  - assert (Hw : wrap 64 (b - a) = b - a + 2 ^ 64)
      by (symmetry; apply Z.mod_unique with (q := -1); lia).
    rewrite Hw. destruct (Z.ltb_spec (b - a + 2 ^ 64) (2 ^ 63)); [lia|].
    replace (Z.shiftr (b - a + 2 ^ 64 - 2 ^ 64) (64 - 1)) with (-1); [reflexivity|].
    rewrite Z.shiftr_div_pow2 by lia. change (64 - 1) with 63.
    apply Z.div_unique with (r := b - a + 2 ^ 63); lia.
  - rewrite (wrap_small 64) by (unfold in_range; lia).
    destruct (Z.ltb_spec (b - a) (2 ^ 63)); [|lia].
    replace (Z.shiftr (b - a) (64 - 1)) with 0; [reflexivity|].
    rewrite Z.shiftr_div_pow2 by lia. symmetry. apply Z.div_small. change (64 - 1) with 63. lia.
Qed.

Lemma land_ones_u64 x : is_u64 x -> Z.land x (2 ^ 64 - 1) = x.
Proof.
  intros Hx. change (2 ^ 64 - 1) with (Z.ones 64). rewrite Z.land_ones by lia.
  now apply wrap_small.
Qed.

Lemma scan_step_spec pos found i b :
  is_u64 pos -> is_u64 i -> is_u8 b -> found = 0 \/ found = 1 ->
  scan_step (pos, found) (i, b) = if b =? 1 then (i, 1) else (pos, found).
Proof.
  intros Hp Hi Hb Hf. unfold scan_step. rewrite (sentinel_mask_spec b Hb).
  destruct (b =? 1); unfold bitnot.
  - rewrite (land_ones_u64 i Hi). replace (2 ^ 64 - 1 - (2 ^ 64 - 1)) with 0 by lia.
    rewrite Z.land_0_r, Z.lor_0_l. f_equal. now destruct Hf; subst.
  - rewrite Z.sub_0_r, (land_ones_u64 pos Hp), !Z.land_0_r, !Z.lor_0_r. reflexivity.
Qed.

(** ** The sentinel scan finds the last sentinel *)

Definition not_sentinel (b : Z) : Prop := b <> 1.

Lemma scan_no_sentinel l i pos found :
  bytes_ok l -> Forall not_sentinel l -> is_u64 pos -> 0 <= i -> i + len l < 2 ^ 64 ->
  found = 0 \/ found = 1 ->
  fold_left scan_step (enumerate_from i l) (pos, found) = (pos, found).
Proof.
  revert i. induction l as [|b l IH]; intros i Hok Hns Hp Hi Hl Hf; [reflexivity|].
  inversion_clear Hok. inversion_clear Hns. rewrite len_cons in Hl. pose proof (len_nonneg l).
  cbn [enumerate_from fold_left].
  rewrite scan_step_spec by (auto; unfold in_range in *; lia).
  destruct (Z.eqb_spec b 1); [easy|]. apply IH; auto; lia.
Qed.

Lemma scan_wf l i pos found :
  bytes_ok l -> is_u64 pos -> 0 <= i -> i + len l < 2 ^ 64 -> found = 0 \/ found = 1 ->
  exists pos' found', fold_left scan_step (enumerate_from i l) (pos, found) = (pos', found')
    /\ is_u64 pos' /\ (found' = 0 \/ found' = 1).
Proof.
  revert i pos found. induction l as [|b l IH]; intros i pos found Hok Hp Hi Hl Hf.
  { simpl; eauto. }
  inversion_clear Hok. rewrite len_cons in Hl. pose proof (len_nonneg l).
  cbn [enumerate_from fold_left]. assert (Hiu : is_u64 i) by (unfold in_range; lia).
  rewrite scan_step_spec by auto.
  destruct (b =? 1); apply IH; auto; lia.
Qed.

Lemma scan_last_sentinel p z :
  bytes_ok (p ++ 1 :: z) -> Forall not_sentinel z -> len (p ++ 1 :: z) < 2 ^ 63 ->
  fold_left scan_step (enumerate_from 0 (p ++ 1 :: z)) (0, 0) = (len p, 1).
Proof.
  intros Hok Hns Hl. apply Forall_app in Hok. destruct Hok as [Hp Hz].
  inversion_clear Hz. autorewrite with lens in Hl.
  pose proof (len_nonneg p). pose proof (len_nonneg z).
  rewrite enumerate_from_app, fold_left_app.
  destruct (scan_wf p 0 0 0) as (pos & f & -> & Hpos & Hf); auto; unfold in_range; try lia.
  cbn [enumerate_from fold_left]. rewrite scan_step_spec by (auto; unfold in_range; lia).
  simpl (1 =? 1). cbv iota. apply scan_no_sentinel; auto; unfold in_range; lia.
Qed.

Lemma last_sentinel_dec l :
  Forall not_sentinel l \/ exists p z, l = p ++ 1 :: z /\ Forall not_sentinel z.
Proof.
  induction l as [|b l IH]; [auto|].
  destruct IH as [H|(p & z & -> & Hz)].
  - destruct (Z.eq_dec b 1) as [->|Hb]; [right; exists [], l; auto|left; auto].
  - right. exists (b :: p), z. auto.
Qed.

(** ** The second loop collects the bytes after the sentinel *)

Lemma tail_before pos l i acc :
  0 <= i -> i + len l <= pos + 1 -> pos < 2 ^ 63 ->
  fold_left (tail_step pos) (enumerate_from i l) acc = acc.
Proof.
  revert i acc. induction l as [|b l IH]; intros i acc Hi Hl Hp; [reflexivity|].
  rewrite len_cons in Hl. pose proof (len_nonneg l). cbn [enumerate_from fold_left tail_step].
  rewrite ct_gt_mask_spec by lia. destruct (Z.ltb_spec pos i); [lia|].
  rewrite Z.land_0_r, Z.lor_0_r. apply IH; lia.
Qed.

Lemma land_u8_255 b : is_u8 b -> Z.land b 255 = b.
Proof.
  intros Hb. change 255 with (Z.ones 8). rewrite Z.land_ones by lia. now apply wrap_small.
Qed.

Lemma tail_after pos l i acc :
  bytes_ok l -> 0 <= pos < i -> i + len l < 2 ^ 63 ->
  fold_left (tail_step pos) (enumerate_from i l) acc = 0 <-> acc = 0 /\ l = repeat 0 (List.length l).
Proof.
  revert i acc. induction l as [|b l IH]; intros i acc Hok Hi Hl; [simpl; tauto|].
  inversion_clear Hok. rewrite len_cons in Hl. pose proof (len_nonneg l).
  cbn [enumerate_from fold_left tail_step List.length repeat].
  rewrite ct_gt_mask_spec by lia. destruct (Z.ltb_spec pos i); [|lia].
  rewrite land_u8_255 by auto. rewrite IH, Z.lor_eq_0_iff by (auto; lia).
  split; [intros [[-> ->] HR]|intros [-> [= -> HR]]]; repeat split; auto. now rewrite <- HR.
Qed.

Lemma repeat_0_not_sentinel n : Forall not_sentinel (repeat 0 n).
Proof. induction n; simpl; constructor; auto. unfold not_sentinel. lia. Qed.

Lemma tail_of_sentinel p z :
  bytes_ok (p ++ 1 :: z) -> len (p ++ 1 :: z) < 2 ^ 63 ->
  fold_left (tail_step (len p)) (enumerate_from 0 (p ++ 1 :: z)) 0 = 0 <->
  z = repeat 0 (List.length z).
Proof.
  intros Hok Hl. apply Forall_app in Hok. destruct Hok as [_ Hz]. inversion_clear Hz.
  autorewrite with lens in Hl. pose proof (len_nonneg z). pose proof (len_nonneg p).
  rewrite enumerate_from_app, fold_left_app, (tail_before (len p) p) by lia.
  cbn [enumerate_from fold_left tail_step]. rewrite ct_gt_mask_spec by lia.
  rewrite Z.add_0_l, Z.ltb_irrefl, tail_after by (auto; lia). intuition.
Qed.

Lemma firstn_len_app {A} (p z : list A) : firstn (Z.to_nat (len p)) (p ++ z) = p.
Proof.
  unfold len. now rewrite Nat2Z.id, firstn_app, firstn_all, Nat.sub_diag, app_nil_r.
Qed.

(** ** Removal decides the padding grammar *)

Lemma unpad_spec padded p :
  bytes_ok padded -> len padded < 2 ^ 63 ->
  unpad padded = Ok p <->
  len padded mod MESSAGE_PADDING_BLOCK_SIZE = 0 /\ exists k, padded = p ++ 1 :: repeat 0 k.
Proof.
  intros Hok Hl. unfold unpad. split.
  - destruct (fold_left scan_step _ _) as [pos found] eqn:Hscan. intros H. inv_ok. bools.
    split; [assumption|]. destruct (last_sentinel_dec padded) as [Hns|(q & z & -> & Hz)].
    + rewrite scan_no_sentinel in Hscan by (auto; unfold in_range; lia).
      injection Hscan as <- <-. lia.
    + rewrite scan_last_sentinel in Hscan by auto. injection Hscan as <- <-.
      match goal with Ht : fold_left _ _ _ = 0 |- _ => apply tail_of_sentinel in Ht; auto end.
      rewrite firstn_len_app. eauto using f_equal.
  - intros (Hmod & k & ->). rewrite scan_last_sentinel by auto using repeat_0_not_sentinel.
    rewrite Hmod, firstn_len_app. pose proof (len_nonneg p).
    replace (fold_left (tail_step _) _ _) with 0
      by (symmetry; apply tail_of_sentinel; auto; now rewrite repeat_length).
    destruct (Z.eqb_spec (len (p ++ 1 :: repeat 0 k)) 0); [|reflexivity].
    autorewrite with lens in *. lia.
Qed.

(** ** Padding *)

Lemma padded_length_spec n : 0 <= n ->
  padded_length n mod MESSAGE_PADDING_BLOCK_SIZE = 0 /\ n < padded_length n <= n + MESSAGE_PADDING_BLOCK_SIZE.
Proof.
  intros Hn. unfold padded_length, div_ceil, MESSAGE_PADDING_BLOCK_SIZE.
  split; [apply Z.mod_mul; lia|].
  pose proof (Z.div_mod (n + 1 + 64 - 1) 64). pose proof (Z.mod_pos_bound (n + 1 + 64 - 1) 64). lia.
Qed.

Lemma pad_shape p :
  pad p = p ++ 1 :: repeat 0 (Z.to_nat (padded_length (len p) - (len p + 1))).
Proof.
  pose proof (padded_length_spec (len p) (len_nonneg p)).
  unfold pad, resize. rewrite firstn_all2 by (rewrite length_app; simpl; unfold len in *; lia).
  rewrite <- app_assoc. simpl. repeat f_equal. autorewrite with lens. lia.
Qed.

Lemma len_pad p : len (pad p) = padded_length (len p).
Proof.
  pose proof (padded_length_spec (len p) (len_nonneg p)).
  rewrite pad_shape. autorewrite with lens. lia.
Qed.

Lemma pad_ok p : bytes_ok p -> bytes_ok (pad p).
Proof.
  intros H. rewrite pad_shape. apply Forall_app. split; [assumption|].
  constructor; [unfold in_range; lia|]. apply Forall_forall. intros x Hx.
  apply repeat_spec in Hx. subst. unfold in_range. lia.
Qed.

Lemma unpad_pad_lemma p : bytes_ok p -> len p < 2 ^ 62 -> unpad (pad p) = Ok p.
Proof.
  intros Hok Hl. pose proof (padded_length_spec (len p) (len_nonneg p)) as [Hm Hb].
  unfold MESSAGE_PADDING_BLOCK_SIZE in Hb.
  apply unpad_spec; [now apply pad_ok|rewrite len_pad; lia|].
  rewrite len_pad. split; [assumption|]. rewrite pad_shape. eauto.
Qed.

End MessagePadding.

(** * Properties *)

(** Removing the padding of a padded message gives the message back, and
    the padded length is the next multiple of the 64-byte block that leaves
    room for the sentinel. *)
Theorem message_padding_roundtrip p (Hok : bytes_ok p) (Hlen : len p < 2 ^ 62) :
  MessagePadding.unpad (MessagePadding.pad p) = Ok p /\
  len (MessagePadding.pad p) mod MESSAGE_PADDING_BLOCK_SIZE = 0 /\
  len p < len (MessagePadding.pad p) <= len p + MESSAGE_PADDING_BLOCK_SIZE.
Proof.
  rewrite MessagePadding.len_pad.
  pose proof (MessagePadding.padded_length_spec (len p) (len_nonneg p)) as [? ?].
  auto using MessagePadding.unpad_pad_lemma.
Qed.

Lemma message_padding_roundtrip_witness :
  MessagePadding.unpad (MessagePadding.pad [7; 1; 0; 255]) = Ok [7; 1; 0; 255].
Proof.
  apply (message_padding_roundtrip [7; 1; 0; 255]); [repeat constructor; easy | reflexivity].
Defined.

(** C38. The branch-free removal accepts exactly the block-aligned buffers of
    the form message, sentinel [0x01], zero bytes, and returns that message:
    no other buffer is accepted, and none of these is refused. *)
Theorem unpad_decides_padding_grammar padded p
    (Hok : bytes_ok padded) (Hlen : len padded < 2 ^ 63) :
  MessagePadding.unpad padded = Ok p <->
  len padded mod MESSAGE_PADDING_BLOCK_SIZE = 0 /\ exists k, padded = p ++ 1 :: repeat 0 k.
Proof. now apply MessagePadding.unpad_spec. Qed.

Lemma unpad_decides_padding_grammar_witness :
  MessagePadding.unpad (5 :: 1 :: repeat 0 62) = Ok [5].
Proof.
  apply (unpad_decides_padding_grammar (5 :: 1 :: repeat 0 62) [5]).
  - repeat constructor; easy.
  - reflexivity.
  - split; [reflexivity | now exists 62%nat].
Defined.
