(* ===== verification/Shamir.v ===== *)
(** * Shamir secret sharing ([src/crypto/shamir_secret_sharing.rs])

    The GF(2^8) tables built as the constant initialisers build them, the
    branch-free field operations on them, polynomial evaluation, Lagrange
    interpolation, and the three public operations.  This file holds the
    definitions and the field laws of the table-driven operations; the
    theorems about sharing are in [ShamirProofs]. *)

From Stdlib Require Import ZArith List Bool Lia String.
From S2P Require Import Prelude Constants SecureMemory Crypto.
Import ListNotations.
Open Scope string_scope.
Open Scope list_scope.
Open Scope Z_scope.

Definition MAGIC_BYTES : bytes := [236; 17; 28; 0].
Definition SHARE_HEADER_SIZE : Z := len MAGIC_BYTES + 1.
Definition MIN_SHARE_SIZE : Z := SHARE_HEADER_SIZE + 1.
Definition GF256_MODULUS : Z := 283.
Definition GF256_OVERFLOW : Z := 256.

(** [t[i as usize]]; every index of the program is below the table length. *)
Definition index (t : list Z) (i : Z) : Z := nth (Z.to_nat i) t 0.

(** One turn of the loop that fills [EXP_TABLE]: multiply [val] by 3. *)
Definition exp_next (val : Z) : Z :=
  let val := Z.lxor (shl 16 val 1) val in
  if negb (Z.land val GF256_OVERFLOW =? 0) then Z.lxor val GF256_MODULUS else val.

Fixpoint exp_loop (n : nat) (val : Z) : list Z :=
  match n with
  | O => []
  | S n => wrap 8 val :: exp_loop n (exp_next val)
  end.

Definition EXP_TABLE : list Z := Eval vm_compute in exp_loop 512 1.

Definition log_step (table : list Z) (i : Z) : list Z :=
  update table (Z.to_nat (index EXP_TABLE i)) i.

Definition LOG_TABLE : list Z :=
  Eval vm_compute in fold_left log_step (zrange 0 255) (repeat 0 256).

(** [u16::from(a).wrapping_sub(1) >> 8] *)
Definition zero_mask (a : Z) : Z := Z.shiftr (wrapping_sub 16 a 1) 8.

Definition gf_mul (a b : Z) : Z :=
  let log_sum := index LOG_TABLE a + index LOG_TABLE b in
  let result := index EXP_TABLE log_sum in
  let mask := Z.lor (zero_mask a) (zero_mask b) in
  Z.land result (wrap 8 (bitnot 16 mask)).

Definition gf_inv (a : Z) : Z :=
  let log_a := index LOG_TABLE a in
  let result := index EXP_TABLE (255 - log_a) in
  let mask := zero_mask a in
  Z.land result (wrap 8 (bitnot 16 mask)).

Definition evaluate_polynomial (coefficients : bytes) (x : Z) : Z :=
  fold_left (fun result coef => Z.lxor (gf_mul result x) coef) (rev coefficients) 0.

(** The inner loop of [lagrange_interpolate] at [i], on
    [(numerator, denominator)]. *)
Definition lagrange_step (x xi i : Z) (st : Z * Z) (e : Z * Z) : Z * Z :=
  let '(numerator, denominator) := st in
  let '(j, xj) := e in
  let is_same := if Z.lxor i j =? 0 then 1 else 0 in
  let mask := wrapping_neg 8 is_same in
  let num_factor := Z.lor (Z.lxor x xj) mask in
  let den_factor := Z.lor (Z.lxor xi xj) mask in
  let num_product := gf_mul numerator num_factor in
  let den_product := gf_mul denominator den_factor in
  (Z.lor (Z.land numerator mask) (Z.land num_product (bitnot 8 mask)),
   Z.lor (Z.land denominator mask) (Z.land den_product (bitnot 8 mask))).

Definition lagrange_term (x_values : bytes) (x : Z) (e : Z * (Z * Z)) : Z :=
  let '(i, (xi, yi)) := e in
  let '(numerator, denominator) :=
    fold_left (lagrange_step x xi i) (enumerate_from 0 x_values) (yi, 1) in
  gf_mul numerator (gf_inv denominator).

Definition lagrange_interpolate (x_values y_values : bytes) (x : Z) : PResult Z :=
  check? len x_values =? len y_values
    else ProtocolError.generic "x/y length mismatch in Lagrange interpolation" in
  Ok (fold_left (fun result e => Z.lxor result (lagrange_term x_values x e))
        (enumerate_from 0 (combine x_values y_values)) 0).

(** ** Splitting and reconstruction *)

Section Sharing.
Context `{P : Primitives}.

(** The polynomial of one secret byte: the byte, then [threshold - 1] random
    coefficients. *)
Definition share_coefficients (secret_byte : Z) (rand : bytes) : bytes := secret_byte :: rand.

(** One turn of the loop over the secret: append [y] to every share. *)
Definition push_byte (shares : list bytes) (coefficients : bytes) : list bytes :=
  map (fun '(share_idx, share) => share ++ [evaluate_polynomial coefficients (share_idx + 1)])
    (enumerate_from 0 shares).

(** [entropy] lists the random coefficients drawn for each byte of the secret. *)
Definition split (secret : bytes) (threshold share_count : Z) (auth_key : bytes)
    (entropy : list bytes) : PResult (list bytes) :=
  check? negb (threshold <? 2)
    else ProtocolError.invalid_input "Threshold must be at least 2" in
  check? negb (share_count <? threshold)
    else ProtocolError.invalid_input "share_count must be >= threshold" in
  check? negb ((len secret =? 0) || (MAX_SHARE_SIZE <? len secret))
    else ProtocolError.invalid_input "Invalid secret length" in
  check? len auth_key =? HMAC_BYTES
    else ProtocolError.invalid_input "Auth key must be 32 bytes" in
  let shares := map (fun i => MAGIC_BYTES ++ [i + 1]) (zrange 0 share_count) in
  let shares :=
    fold_left (fun shares '(secret_byte, rand) =>
                 push_byte shares (share_coefficients secret_byte rand))
      (combine secret entropy) shares in
  let auth_tag := hmac_sha256 auth_key secret in
  Ok (shares ++ [auth_tag]).

(** The duplicate check: fold over the seen set, [None] at a repetition. *)
Definition mark_seen (seen : option (list bool)) (x : Z) : option (list bool) :=
  match seen with
  | None => None
  | Some seen =>
      if nth (Z.to_nat x) seen false then None else Some (update seen (Z.to_nat x) true)
  end.

Definition reconstruct_byte (data_shares : list bytes) (x_values : bytes) (byte_idx : Z) :
    PResult Z :=
  let y_values := map (fun s => index s (SHARE_HEADER_SIZE + byte_idx)) data_shares in
  lagrange_interpolate x_values y_values 0.

Definition reconstruct (shares : list bytes) (auth_key : bytes) (threshold : Z) : PResult bytes :=
  check? negb (len shares <? 2)
    else ProtocolError.invalid_input "Need at least one data share plus auth tag" in
  check? len auth_key =? HMAC_BYTES
    else ProtocolError.invalid_input "Auth key must be 32 bytes" in
  let auth_tag := last shares [] in
  let data_shares := removelast shares in
  check? negb (len data_shares <? threshold)
    else ProtocolError.invalid_input "Not enough shares" in
  let first_len := len (nth 0 data_shares []) in
  check? negb (first_len <? MIN_SHARE_SIZE)
    else ProtocolError.invalid_input "Share too short" in
  check? forallb (fun share => (len share =? first_len) && bytes_eqb (firstn 4 share) MAGIC_BYTES)
           data_shares
    else ProtocolError.invalid_input "Invalid share format" in
  let secret_len := first_len - SHARE_HEADER_SIZE in
  check? negb ((secret_len =? 0) || (MAX_SHARE_SIZE <? secret_len))
    else ProtocolError.invalid_input "Invalid secret length" in
  let x_values := map (fun s => index s (len MAGIC_BYTES)) data_shares in
  let? _ := ok_or (fold_left mark_seen x_values (Some (repeat false 256)))
    (ProtocolError.invalid_input "Duplicate x-coordinate in shares") in
  let? secret := mapR (reconstruct_byte data_shares x_values) (zrange 0 secret_len) in
  let expected := hmac_sha256 auth_key secret in
  check? unwrap_or (constant_time_equals auth_tag expected) false
    else ProtocolError.invalid_input "Share authentication failed" in
  Ok secret.

(** The length test multiplies in [usize]; buffers are far below its bound. *)
Definition reconstruct_serialized (serialized : bytes) (share_length share_count : Z)
    (auth_key : bytes) (threshold : Z) : PResult bytes :=
  check? len serialized =? share_length * share_count
    else ProtocolError.invalid_input "Invalid serialized shares length" in
  let shares :=
    map (fun i => firstn (Z.to_nat share_length) (skipn (Z.to_nat (i * share_length)) serialized))
      (zrange 0 share_count) in
  reconstruct shares auth_key threshold.

End Sharing.

(** ** The table-driven operations form the field GF(2^8) *)

(** [forall_byte] proves a decidable fact about a byte by running it on all. *)
Ltac forall_byte b Hb f :=
  let H := fresh in
  assert (H : forallb f (zrange 0 256) = true) by (vm_compute; reflexivity);
  rewrite forallb_forall in H; specialize (H b (proj2 (zrange_In 0 256 b) Hb)); cbv beta in H.

Lemma zero_mask_spec a : is_u8 a -> zero_mask a = if a =? 0 then 255 else 0.
Proof.
  intros Ha. forall_byte a Ha (fun a => zero_mask a =? if a =? 0 then 255 else 0).
  now apply Z.eqb_eq.
Qed.

Lemma log_spec a : is_u8 a -> a <> 0 ->
  0 <= index LOG_TABLE a < 255 /\ index EXP_TABLE (index LOG_TABLE a) = a.
Proof.
  intros Ha Hn.
  forall_byte a Ha (fun a => (a =? 0) || ((0 <=? index LOG_TABLE a) && (index LOG_TABLE a <? 255) &&
                       (index EXP_TABLE (index LOG_TABLE a) =? a))).
  apply orb_true_iff in H. destruct H; bools; lia.
Qed.

Lemma exp_spec k : 0 <= k < 510 ->
  1 <= index EXP_TABLE k < 256 /\ index LOG_TABLE (index EXP_TABLE k) = k mod 255 /\
  index EXP_TABLE k = index EXP_TABLE (k mod 255).
Proof.
  intros Hk.
  assert (H : forallb (fun k => (1 <=? index EXP_TABLE k) && (index EXP_TABLE k <? 256) &&
     (index LOG_TABLE (index EXP_TABLE k) =? k mod 255) &&
     (index EXP_TABLE k =? index EXP_TABLE (k mod 255))) (zrange 0 510) = true)
    by (vm_compute; reflexivity).
  rewrite forallb_forall in H. specialize (H k (proj2 (zrange_In 0 510 k) Hk)).
  cbv beta in H. bools. auto.
Qed.

Lemma gf_mul_spec a b : is_u8 a -> is_u8 b ->
  gf_mul a b = if (a =? 0) || (b =? 0) then 0
               else index EXP_TABLE ((index LOG_TABLE a + index LOG_TABLE b) mod 255).
Proof.
  intros Ha Hb. unfold gf_mul. rewrite (zero_mask_spec a Ha), (zero_mask_spec b Hb).
  destruct (Z.eqb_spec a 0), (Z.eqb_spec b 0); try apply Z.land_0_r; simpl orb; cbv iota.
  destruct (log_spec a Ha), (log_spec b Hb); auto.
  destruct (exp_spec (index LOG_TABLE a + index LOG_TABLE b)) as (Hr & _ & <-); [lia|].
  change (wrap 8 _) with (Z.ones 8). rewrite Z.land_ones by lia. apply Z.mod_small. lia.
Qed.

Lemma gf_mul_nonzero a b : is_u8 a -> is_u8 b -> a <> 0 -> b <> 0 ->
  is_u8 (gf_mul a b) /\ gf_mul a b <> 0 /\
  index LOG_TABLE (gf_mul a b) = (index LOG_TABLE a + index LOG_TABLE b) mod 255.
Proof.
  intros Ha Hb Ha0 Hb0. rewrite gf_mul_spec by auto.
  apply Z.eqb_neq in Ha0, Hb0. rewrite Ha0, Hb0. simpl.
  pose proof (Z.mod_pos_bound (index LOG_TABLE a + index LOG_TABLE b) 255).
  destruct (exp_spec ((index LOG_TABLE a + index LOG_TABLE b) mod 255)) as (Hr & Hl & _); [lia|].
  rewrite Hl, Zmod_mod. unfold in_range. repeat split; lia.
Qed.

Lemma gf_mul_range a b : is_u8 a -> is_u8 b -> is_u8 (gf_mul a b).
Proof.
  intros Ha Hb. destruct (Z.eq_dec a 0) as [->|Hna].
  { rewrite gf_mul_spec by auto. unfold in_range; simpl; lia. }
  destruct (Z.eq_dec b 0) as [->|Hnb].
  { rewrite gf_mul_spec, orb_true_r by auto. unfold in_range; simpl; lia. }
  now apply gf_mul_nonzero.
Qed.

Lemma gf_mul_0_l b : is_u8 b -> gf_mul 0 b = 0.
Proof. intros Hb. rewrite gf_mul_spec by (auto; unfold in_range; lia). reflexivity. Qed.

Lemma gf_mul_comm a b : is_u8 a -> is_u8 b -> gf_mul a b = gf_mul b a.
Proof. intros Ha Hb. rewrite !gf_mul_spec, orb_comm, Z.add_comm by auto. reflexivity. Qed.

Lemma gf_mul_assoc a b c : is_u8 a -> is_u8 b -> is_u8 c ->
  gf_mul (gf_mul a b) c = gf_mul a (gf_mul b c).
Proof.
  intros Ha Hb Hc.
  assert (Hab := gf_mul_range a b Ha Hb). assert (Hbc := gf_mul_range b c Hb Hc).
  destruct (Z.eq_dec a 0) as [->|Hna]; [now rewrite !gf_mul_0_l|].
  destruct (Z.eq_dec c 0) as [->|Hnc].
  { rewrite !(gf_mul_comm _ 0), !gf_mul_0_l by (auto using gf_mul_range; unfold in_range; lia).
    rewrite gf_mul_comm, gf_mul_0_l; auto; unfold in_range; lia. }
  destruct (Z.eq_dec b 0) as [->|Hnb].
  { rewrite (gf_mul_comm a 0), !gf_mul_0_l, (gf_mul_comm a 0), gf_mul_0_l; auto. }
  destruct (gf_mul_nonzero a b) as (_ & Hn1 & Hl1); auto.
  destruct (gf_mul_nonzero b c) as (_ & Hn2 & Hl2); auto.
  rewrite (gf_mul_spec (gf_mul a b) c), (gf_mul_spec a (gf_mul b c)) by auto.
  rewrite Hl1, Hl2. apply Z.eqb_neq in Hna, Hnc, Hn1, Hn2. rewrite Hna, Hnc, Hn1, Hn2. simpl.
  rewrite Zplus_mod_idemp_l, Zplus_mod_idemp_r. do 2 f_equal. lia.
Qed.

Lemma gf_mul_1_l a : is_u8 a -> gf_mul 1 a = a.
Proof. intros Ha. forall_byte a Ha (fun a => gf_mul 1 a =? a). now apply Z.eqb_eq. Qed.

Lemma gf_inv_range a : is_u8 a -> is_u8 (gf_inv a).
Proof.
  intros Ha. forall_byte a Ha (fun a => (0 <=? gf_inv a) && (gf_inv a <? 256)).
  unfold in_range. bools. lia.
Qed.

Lemma gf_mul_inv_l a : is_u8 a -> a <> 0 -> gf_mul (gf_inv a) a = 1.
Proof.
  intros Ha Hn. forall_byte a Ha (fun a => (a =? 0) || (gf_mul (gf_inv a) a =? 1)).
  apply orb_true_iff in H. destruct H; bools; [contradiction|assumption].
Qed.

(** *** The schoolbook product modulo [x^8 + x^4 + x^3 + x + 1] *)

Definition xtime (a : Z) : Z :=
  let v := 2 * a in if 256 <=? v then Z.lxor v GF256_MODULUS else v.

(** [a] times the [n] low bits of [b], by shift and add. *)
Fixpoint clmul (n : nat) (a b : Z) : Z :=
  match n with
  | O => 0
  | S n => Z.lxor (if Z.odd b then a else 0) (clmul n (xtime a) (Z.div2 b))
  end.

Definition gf_mul_ref (a b : Z) : Z := clmul 8 a b.

Lemma gf_mul_table_check :
  forallb (fun a => forallb (fun b => gf_mul a b =? gf_mul_ref a b) (zrange 0 256)) (zrange 0 256) = true.
Proof. vm_compute. reflexivity. Qed.

Lemma gf_mul_ref_eq a b : is_u8 a -> is_u8 b -> gf_mul a b = gf_mul_ref a b.
Proof.
  intros Ha Hb. pose proof gf_mul_table_check as H. rewrite forallb_forall in H.
  specialize (H a (proj2 (zrange_In 0 256 a) Ha)). cbv beta in H. rewrite forallb_forall in H.
  apply Z.eqb_eq, H, zrange_In, Hb.
Qed.

Lemma odd_lxor a b : Z.odd (Z.lxor a b) = xorb (Z.odd a) (Z.odd b).
Proof. now rewrite <- !Z.bit0_odd, Z.lxor_spec. Qed.

Lemma div2_lxor a b : Z.div2 (Z.lxor a b) = Z.lxor (Z.div2 a) (Z.div2 b).
Proof. rewrite !Z.div2_spec. apply Z.shiftr_lxor. Qed.

Lemma lxor_swap a b c d :
  Z.lxor (Z.lxor a b) (Z.lxor c d) = Z.lxor (Z.lxor a c) (Z.lxor b d).
Proof. rewrite !Z.lxor_assoc. f_equal. rewrite <- !Z.lxor_assoc. f_equal. apply Z.lxor_comm. Qed.

Lemma clmul_lxor n a b c : clmul n a (Z.lxor b c) = Z.lxor (clmul n a b) (clmul n a c).
Proof.
  revert a b c. induction n as [|n IH]; intros a b c; [reflexivity|].
  cbn [clmul]. rewrite odd_lxor, div2_lxor, IH, lxor_swap. f_equal.
  destruct (Z.odd b), (Z.odd c); simpl; rewrite ?Z.lxor_nilpotent, ?Z.lxor_0_r, ?Z.lxor_0_l; reflexivity.
Qed.

Lemma gf_mul_lxor_r a b c : is_u8 a -> is_u8 b -> is_u8 c ->
  gf_mul a (Z.lxor b c) = Z.lxor (gf_mul a b) (gf_mul a c).
Proof.
  intros Ha Hb Hc. rewrite !gf_mul_ref_eq by (auto; now apply lxor_range). apply clmul_lxor.
Qed.
