(* ===== verification/GF256Field.v ===== *)
(** * GF(2^8) as a MathComp field

    The byte operations of [Shamir] packaged as a [fieldType], so that the
    polynomial library applies to the code's evaluation and interpolation.
    The results are stated back on byte lists, for [ShamirProofs]. *)

From HB Require Import structures.
From Stdlib Require Import ZArith List Lia.
From mathcomp Require Import boot ssralg poly.
From S2P Require Import Prelude Constants SecureMemory Crypto Shamir.

Set Implicit Arguments.
Unset Strict Implicit.
Unset Printing Implicit Defensive.
Set Warnings "-redundant-canonical-projection".

Import GRing.Theory.
Local Open Scope seq_scope.
Local Open Scope ring_scope.

Definition gf : Type := 'I_256.
HB.instance Definition _ := Finite.copy gf 'I_256.

Definition toZ (a : gf) : Z := Z.of_nat (nat_of_ord a).
Definition ofZ (z : Z) : gf := inord (Z.to_nat z).

Lemma toZ_range a : in_range 8 (toZ a).
Proof. by rw /toZ /in_range; move: (ltn_ord a) => /ltP; lia. Qed.

Lemma toZK : cancel toZ ofZ.
Proof. by move=> a; rw /toZ /ofZ Nat2Z.id inord_val. Qed.

Lemma ofZK z : in_range 8 z -> toZ (ofZ z) = z.
Proof.
move=> [H0 H1]; have H2 : (Z.to_nat z < 256)%N by apply/ltP; lia.
by rw /toZ /ofZ inordK //; lia.
Qed.

Lemma toZ_inj : injective toZ.
Proof. exact: can_inj toZK. Qed.

Definition gf_add (a b : gf) : gf := ofZ (Z.lxor (toZ a) (toZ b)).
Definition gf_times (a b : gf) : gf := ofZ (gf_mul (toZ a) (toZ b)).
Definition gf_invf (a : gf) : gf := ofZ (gf_inv (toZ a)).

Lemma toZ_add a b : toZ (gf_add a b) = Z.lxor (toZ a) (toZ b).
Proof. by apply: ofZK; apply: lxor_range; [lia|exact: toZ_range..]. Qed.

Lemma toZ_times a b : toZ (gf_times a b) = gf_mul (toZ a) (toZ b).
Proof. by apply: ofZK; apply: gf_mul_range; exact: toZ_range. Qed.

Lemma toZ_invf a : toZ (gf_invf a) = gf_inv (toZ a).
Proof. by apply: ofZK; apply: gf_inv_range; exact: toZ_range. Qed.

Lemma toZ_zero : toZ (ofZ 0) = 0%Z.
Proof. by apply: ofZK. Qed.

Lemma toZ_one : toZ (ofZ 1) = 1%Z.
Proof. by apply: ofZK. Qed.

Lemma gf_addA : associative gf_add.
Proof. by move=> a b c; apply: toZ_inj; rw !toZ_add Z.lxor_assoc. Qed.

Lemma gf_addC : commutative gf_add.
Proof. by move=> a b; apply: toZ_inj; rw !toZ_add Z.lxor_comm. Qed.

Lemma gf_add0 : left_id (ofZ 0) gf_add.
Proof. by move=> a; apply: toZ_inj; rw toZ_add toZ_zero Z.lxor_0_l. Qed.

Lemma gf_addN : left_inverse (ofZ 0) id gf_add.
Proof. by move=> a; apply: toZ_inj; rw toZ_add Z.lxor_nilpotent toZ_zero. Qed.

HB.instance Definition _ := GRing.isZmodule.Build gf gf_addA gf_addC gf_add0 gf_addN.

Lemma gf_timesA : associative gf_times.
Proof.
by move=> a b c; apply: toZ_inj; rw !toZ_times gf_mul_assoc //; exact: toZ_range.
Qed.

Lemma gf_timesC : commutative gf_times.
Proof. by move=> a b; apply: toZ_inj; rw !toZ_times gf_mul_comm //; exact: toZ_range. Qed.

Lemma gf_times1 : left_id (ofZ 1) gf_times.
Proof. by move=> a; apply: toZ_inj; rw toZ_times toZ_one gf_mul_1_l //; exact: toZ_range. Qed.

Lemma gf_timesDl : left_distributive gf_times gf_add.
Proof.
move=> a b c; apply: toZ_inj; rw toZ_add !toZ_times toZ_add.
have Ha := toZ_range a; have Hb := toZ_range b; have Hc := toZ_range c.
have Hab : in_range 8 (Z.lxor (toZ a) (toZ b)) by apply: lxor_range.
by rw (gf_mul_comm _ _ Hab Hc) gf_mul_lxor_r // !(gf_mul_comm (toZ c)).
Qed.

Lemma gf_one_neq0 : ofZ 1 != 0 :> gf.
Proof. by apply/eqP => /(congr1 toZ); rw toZ_one toZ_zero. Qed.

HB.instance Definition _ :=
  GRing.Zmodule_isComNzRing.Build gf gf_timesA gf_timesC gf_times1 gf_timesDl gf_one_neq0.

Lemma gf_mulVf (x : gf) : x != 0 -> gf_invf x * x = 1.
Proof.
move=> /eqP Hx; apply: toZ_inj.
rw [toZ (_ * _)]toZ_times toZ_invf [toZ 1]toZ_one gf_mul_inv_l //; first exact: toZ_range.
by move=> Hz; apply: Hx; apply: toZ_inj; rw Hz [toZ 0]toZ_zero.
Qed.

Lemma gf_invr0 : gf_invf 0 = 0.
Proof. by apply: toZ_inj; rw toZ_invf [toZ 0]toZ_zero. Qed.

HB.instance Definition _ := GRing.ComNzRing_isField.Build gf gf_mulVf gf_invr0.

(** The field operations on bytes are the code's. *)
Lemma toZD (a b : gf) : toZ (a + b) = Z.lxor (toZ a) (toZ b).
Proof. exact: toZ_add. Qed.

Lemma toZB (a b : gf) : toZ (a - b) = Z.lxor (toZ a) (toZ b).
Proof. exact: toZ_add. Qed.

Lemma toZM (a b : gf) : toZ (a * b) = gf_mul (toZ a) (toZ b).
Proof. exact: toZ_times. Qed.

Lemma toZV (a : gf) : toZ a^-1 = gf_inv (toZ a).
Proof. exact: toZ_invf. Qed.

Lemma toZ0 : toZ 0 = 0%Z.
Proof. exact: toZ_zero. Qed.

Lemma toZ1 : toZ 1 = 1%Z.
Proof. exact: toZ_one. Qed.

(** ** Lagrange interpolation over a field *)

Section Lagrange.
Variable F : fieldType.
Implicit Types (xs : seq F) (p q : {poly F}).

Definition others xs (a : F) : seq F := [seq b <- xs | b != a].

(** The unnormalised basis polynomial of the point [a]. *)
Definition lagP xs (a : F) : {poly F} := \prod_(b <- others xs a) ('X - b%:P).

Definition lagrange_sum xs (f : F -> F) (x : F) : F :=
  \sum_(a <- xs) f a * (lagP xs a).[x] / (lagP xs a).[a].

Lemma lagP_horner xs a x : (lagP xs a).[x] = \prod_(b <- others xs a) (x - b).
Proof. by rw /lagP horner_prod; apply: eq_bigr => b _; rw hornerXsubC. Qed.

Lemma lagP_size xs a : uniq xs -> a \in xs -> size (lagP xs a) = size xs.
Proof.
move=> Hu Ha; rw /lagP size_prod_XsubC /others -rem_filter // size_rem //.
by case: xs Ha {Hu} => [|b xs].
Qed.

Lemma lagP_neq0 xs a : (lagP xs a).[a] != 0.
Proof.
rw lagP_horner prodf_seq_neq0; apply/allP => b.
by rw mem_filter subr_eq0 eq_sym => /andP[].
Qed.

Lemma lagP_root xs a b : b \in xs -> b != a -> (lagP xs a).[b] = 0.
Proof.
move=> Hb Hba; apply/eqP; rw lagP_horner prodf_seq_eq0; apply/hasP; exists b.
  by rw mem_filter Hba.
by rw /= subrr.
Qed.

(** The interpolation polynomial of a function through the points [xs]. *)
Definition interpP xs (f : F -> F) : {poly F} :=
  \sum_(a <- xs) (f a / (lagP xs a).[a]) *: lagP xs a.

Lemma interpP_size xs f : uniq xs -> (size (interpP xs f) <= size xs)%N.
Proof.
move=> Hu; rw /interpP big_seq; elim/big_ind: _.
- by rw size_poly0.
- by move=> p q Hp Hq; apply: (leq_trans (size_polyD _ _)); rw geq_max Hp Hq.
- by move=> a Ha; apply: (leq_trans (size_scale_leq _ _)); rw lagP_size.
Qed.

Lemma interpP_horner xs f x : (interpP xs f).[x] = lagrange_sum xs f x.
Proof.
rw /interpP horner_sum; apply: eq_bigr => a _.
by rw hornerZ mulrAC.
Qed.

Lemma interpP_point xs f b : uniq xs -> b \in xs -> (interpP xs f).[b] = f b.
Proof.
move=> Hu Hb; rw interpP_horner /lagrange_sum (bigD1_seq b) //= big_seq_cond.
rw big1 ?addr0 ?mulfK ?lagP_neq0 // => a /andP[Ha Hab].
by rw lagP_root 1?eq_sym // mulr0 mul0r.
Qed.

(** Two polynomials with at most [size xs] coefficients that agree on the
    points [xs] are equal. *)
Lemma poly_eq_on xs p q : uniq xs -> (size p <= size xs)%N -> (size q <= size xs)%N ->
  {in xs, forall a, p.[a] = q.[a]} -> p = q.
Proof.
move=> Hu Hp Hq Heq; apply/eqP; rw -subr_eq0; apply/eqP.
apply: (roots_geq_poly_eq0 (rs := xs)) => //.
- by apply/allP => a Ha; rw /root hornerD hornerN Heq // subrr.
- by apply: (leq_trans (size_polyD _ _)); rw geq_max Hp size_polyN.
Qed.

(** Interpolation of a polynomial with at most as many coefficients as there
    are points reproduces it everywhere. *)
Lemma lagrange_exact xs p x : uniq xs -> (size p <= size xs)%N ->
  lagrange_sum xs (fun a => p.[a]) x = p.[x].
Proof.
move=> Hu Hp; rw -interpP_horner; congr (_.[x]); apply: (@poly_eq_on xs) => //.
  exact: interpP_size.
by move=> a Ha; rw interpP_point.
Qed.

End Lagrange.

(** ** The code's loops as field expressions *)

(** Byte lists of field elements. *)
Definition toZs (l : seq gf) : list Z := List.map toZ l.
Definition ofZs (l : list Z) : seq gf := List.map ofZ l.

Lemma ofZsK l : bytes_ok l -> toZs (ofZs l) = l.
Proof. by elim=> //= z l' Hz _ IH; rw ofZK // IH. Qed.

Lemma toZsK l : ofZs (toZs l) = l.
Proof. by elim: l => //= a l ->; rw toZK. Qed.

Lemma bytes_toZs l : bytes_ok l -> exists l', l = toZs l'.
Proof. by move=> Hl; exists (ofZs l); rw ofZsK. Qed.

Lemma toZs_ok l : bytes_ok (toZs l).
Proof. by elim: l => [|a l IH]; constructor => //; exact: toZ_range. Qed.

Lemma toZs_cat l1 l2 : toZs (l1 ++ l2) = List.app (toZs l1) (toZs l2).
Proof. exact: List.map_app. Qed.

Lemma len_toZs l : len (toZs l) = len l.
Proof. exact: len_map. Qed.

Lemma len_rcons (l : seq gf) a : len (l ++ [:: a]) = (len l + 1)%Z.
Proof. exact: (len_app l [:: a]). Qed.

Lemma evaluate_polynomial_cons c cs x :
  evaluate_polynomial (c :: cs) x = Z.lxor (gf_mul (evaluate_polynomial cs x) x) c.
Proof. by rw /evaluate_polynomial /= List.fold_left_app. Qed.

Lemma evaluate_polynomial_toZ cs x :
  evaluate_polynomial (toZs cs) (toZ x) = toZ (Poly cs).[x].
Proof.
elim: cs => [|c cs IH]; first by rw /evaluate_polynomial /= horner0 toZ0.
by rw [toZs _]/= evaluate_polynomial_cons IH /= horner_cons toZD toZM.
Qed.

(** The inner loop skips its own index and multiplies otherwise. *)
Lemma lagrange_step_same x xi i n d xj : in_range 8 n -> in_range 8 d ->
  lagrange_step x xi i (n, d) (i, xj) = (n, d).
Proof.
move=> Hn Hd; rw /lagrange_step Z.lxor_nilpotent /=.
change (wrapping_neg 8 1) with (Z.ones 8).
change (bitnot 8 (Z.ones 8)) with 0%Z.
by rw !Z.land_0_r !Z.lor_0_r !Z.land_ones // -/(wrap 8 n) -/(wrap 8 d) !wrap_small.
Qed.

Lemma lagrange_step_other x xi i n d j xj : i <> j ->
  in_range 8 n -> in_range 8 d -> in_range 8 x -> in_range 8 xi -> in_range 8 xj ->
  lagrange_step x xi i (n, d) (j, xj) = (gf_mul n (Z.lxor x xj), gf_mul d (Z.lxor xi xj)).
Proof.
move=> Hij Hn Hd Hx Hxi Hxj; rw /lagrange_step.
case: (Z.eqb_spec (Z.lxor i j) 0) => [/Z.lxor_eq //|_].
change (wrapping_neg 8 0) with 0%Z.
change (bitnot 8 0) with (Z.ones 8).
rw !Z.land_0_r !Z.lor_0_l !Z.lor_0_r !Z.land_ones //.
by congr pair; apply: wrap_small; apply: gf_mul_range => //; apply: lxor_range.
Qed.

Lemma fold_left_cons {A B} (f : A -> B -> A) b l a :
  List.fold_left f (b :: l) a = List.fold_left f l (f a b).
Proof. by []. Qed.

Lemma enumerate_toZs k b l :
  enumerate_from k (toZs (b :: l)) = (k, toZ b) :: enumerate_from (k + 1) (toZs l).
Proof. by []. Qed.

(** A pass over points none of which has the index [i]. *)
Lemma lagrange_pass i k (l : seq gf) (x xi n d : gf) :
  (i < k)%Z \/ (k + len l <= i)%Z ->
  List.fold_left (lagrange_step (toZ x) (toZ xi) i) (enumerate_from k (toZs l)) (toZ n, toZ d) =
  (toZ (n * \prod_(b <- l) (x - b)), toZ (d * \prod_(b <- l) (xi - b))).
Proof.
elim: l k n d => [|b l IH] k n d Hi; first by rw !big_nil !mulr1.
move: Hi; rw len_cons => Hi; have Hl := len_nonneg l.
have Hik : i <> k by lia.
rw enumerate_toZs fold_left_cons (lagrange_step_other Hik); try exact: toZ_range.
rw -!toZB -!toZM IH ?big_cons ?mulrA //; lia.
Qed.

Lemma lagrange_term_toZ (l1 l2 : seq gf) (x a y : gf) :
  lagrange_term (toZs (l1 ++ a :: l2)) (toZ x) (len l1, (toZ a, toZ y)) =
  toZ (y * \prod_(b <- l1 ++ l2) (x - b) / \prod_(b <- l1 ++ l2) (a - b)).
Proof.
rw /lagrange_term toZs_cat enumerate_from_app List.fold_left_app.
have H1 : (len l1 < 0)%Z \/ (0 + len l1 <= len l1)%Z by lia.
have H2 : (len l1 < 0 + len l1 + 1)%Z \/ (0 + len l1 + 1 + len l2 <= len l1)%Z by lia.
rw -toZ1 (lagrange_pass _ _ _ _ H1).
rw len_toZs enumerate_toZs fold_left_cons lagrange_step_same; try exact: toZ_range.
rw (lagrange_pass _ _ _ _ H2).
by rw !big_cat /= mul1r -toZV -toZM !mulrA.
Qed.

Lemma others_split (l1 l2 : seq gf) a : uniq (l1 ++ a :: l2) -> others (l1 ++ a :: l2) a = l1 ++ l2.
Proof.
move=> Hu; have : perm_eq (l1 ++ a :: l2) (a :: l1 ++ l2) by rw -cat1s perm_catCA.
move=> /perm_uniq; rw Hu /= => /esym /andP[]; rw mem_cat negb_or => /andP[H1 H2] _.
rw /others filter_cat /= eqxx /=; congr cat; apply/all_filterP/allP => b Hb.
- by apply: contraNneq H1 => <-.
- by apply: contraNneq H2 => <-.
Qed.

Lemma lagrange_loop (pre l : seq gf) (f : gf -> gf) (x acc : gf) : uniq (pre ++ l) ->
  List.fold_left
    (fun r e => Z.lxor r (lagrange_term (toZs (pre ++ l)) (toZ x) e))
    (enumerate_from (len pre) (List.combine (toZs l) (toZs [seq f a | a <- l]))) (toZ acc) =
  toZ (acc + \sum_(a <- l) f a * (lagP (pre ++ l) a).[x] / (lagP (pre ++ l) a).[a]).
Proof.
elim: l pre acc => [|a l IH] pre acc Hu; first by rw big_nil addr0.
rw [List.combine _ _]/= [enumerate_from _ _]/= fold_left_cons lagrange_term_toZ -toZD.
have E : pre ++ a :: l = (pre ++ [:: a]) ++ l by rw -catA.
have -> : (len pre + 1)%Z = len (pre ++ [:: a]) by rw len_rcons.
by rw [in LHS]E IH -?E // big_cons !lagP_horner others_split // addrA.
Qed.

Lemma lagrange_interpolate_toZ (xs : seq gf) (f : gf -> gf) (x : gf) : uniq xs ->
  lagrange_interpolate (toZs xs) (toZs [seq f a | a <- xs]) (toZ x) = Ok (toZ (lagrange_sum xs f x)).
Proof.
move=> Hu; rw /lagrange_interpolate.
have -> : len (toZs [seq f a | a <- xs]) = len (toZs xs).
  by rw !len_toZs; exact: (len_map f xs).
rw Z.eqb_refl /=; congr Ok.
by move: (@lagrange_loop [::] xs f x 0 Hu); rw toZ0 add0r.
Qed.

Lemma uniq_ofZs l : bytes_ok l -> List.NoDup l -> uniq (ofZs l).
Proof.
elim: l => [|z l IH] //= Hok Hnd; inversion_clear Hok; inversion_clear Hnd.
rw IH // andbT; apply/negP => Hin; apply: H1.
elim: l H0 Hin {IH H2} => [|w l IH] //= Hok; inversion_clear Hok.
rw inE => /orP[/eqP Hz|Hin]; last by right; apply: IH.
by left; rw -(ofZK H) -(ofZK H0) Hz.
Qed.

Lemma toZs_map_eval cs xs :
  toZs [seq (Poly cs).[a] | a <- xs] = List.map (evaluate_polynomial (toZs cs)) (toZs xs).
Proof. by elim: xs => //= a xs ->; rw evaluate_polynomial_toZ. Qed.

(** Interpolating the values of a polynomial with at most as many coefficients
    as there are points gives its value, at any point. *)
Lemma interpolate_evaluate cs xs x :
  bytes_ok cs -> bytes_ok xs -> in_range 8 x -> List.NoDup xs ->
  (List.length cs <= List.length xs)%coq_nat ->
  lagrange_interpolate xs (List.map (evaluate_polynomial cs) xs) x = Ok (evaluate_polynomial cs x).
Proof.
move=> /bytes_toZs[C ->] Hxs Hx Hnd Hle; have Hu := uniq_ofZs Hxs Hnd.
have [X EX] := bytes_toZs Hxs; rw EX toZsK in Hu; rw EX -(ofZK Hx) in Hle *.
rw -toZs_map_eval lagrange_interpolate_toZ // evaluate_polynomial_toZ lagrange_exact //.
by apply: (leq_trans (size_Poly _)); apply/leP; move: Hle; rw /toZs !List.length_map.
Qed.

(** *** Any secret is consistent with too few shares *)

Lemma Poly_cons_at0 (s : gf) R : (Poly (s :: R)).[0] = s.
Proof. by rw horner_coef0 coef_Poly. Qed.

Lemma Poly_eq_inv (s : gf) (R R' : seq gf) :
  size R' = size R -> Poly (s :: R') = Poly (s :: R) -> R' = R.
Proof.
move=> Hs HP; apply: (@eq_from_nth _ 0) => // i _.
by move: (congr1 (fun p : {poly gf} => p`_i.+1) HP); rw !coef_Poly.
Qed.

(** A polynomial with at most [n + 1] coefficients and value [s] at zero, as a
    coefficient list starting with [s]. *)
Lemma poly_coefficients (s : gf) n (q : {poly gf}) : (size q <= n.+1)%N -> q.[0] = s ->
  exists2 R, size R = n & Poly (s :: R) = q.
Proof.
move=> Hq H0; exists (mkseq (fun i => q`_i.+1) n); first by rw size_mkseq.
apply/polyP => -[|i]; rw coef_Poly /=; first by rw -H0 horner_coef0.
case: (ltnP i n) => Hi; first by rw nth_mkseq.
by rw !nth_default ?size_mkseq //; apply: leq_trans Hq _.
Qed.

Lemma secret_consistent_gf (X Y : seq gf) (s : gf) : uniq (0 :: X) -> size Y = size X ->
  exists R, [/\ size R = size X, [seq (Poly (s :: R)).[a] | a <- X] = Y &
    forall R', size R' = size X -> [seq (Poly (s :: R')).[a] | a <- X] = Y -> R' = R].
Proof.
move=> Hu HY; pose f (a : gf) := if a == 0 then s else nth 0 Y (seq.index a X).
have H0 : (interpP (0 :: X) f).[0] = s by rw interpP_point ?inE ?eqxx // /f eqxx.
have [R HR HP] := poly_coefficients (interpP_size f Hu) H0.
have HE : [seq (Poly (s :: R)).[a] | a <- X] = Y.
  apply: (@eq_from_nth _ 0); first by rw size_map HY.
  move=> i; rw size_map => Hi; rw (nth_map 0) // HP interpP_point ?inE ?mem_nth ?orbT //.
  move: Hu => /= /andP[HX Hu]; rw /f index_uniq //; case: eqP => // E.
  by move: HX; rw -E mem_nth.
exists R; split=> // R' HR' HE'; apply: (@Poly_eq_inv s); first by rw HR' HR.
apply: (@poly_eq_on _ (0 :: X)) => //; try by apply: leq_trans (size_Poly _) _; rw /= ?HR ?HR'.
move=> a; rw inE => /orP[/eqP ->|Ha]; first by rw !Poly_cons_at0.
by move: HE'; rw -HE => /eq_in_map; apply.
Qed.

(** With one share fewer than the threshold, every value of the secret byte is
    consistent with the shares seen, for exactly one choice of the random
    coefficients. *)
Lemma secret_consistent xs ys s :
  bytes_ok xs -> bytes_ok ys -> in_range 8 s -> List.NoDup (0%Z :: xs) ->
  List.length ys = List.length xs ->
  exists rand, (List.length rand = List.length xs /\ bytes_ok rand /\
      List.map (evaluate_polynomial (s :: rand)) xs = ys) /\
    forall rand', List.length rand' = List.length xs -> bytes_ok rand' ->
      List.map (evaluate_polynomial (s :: rand')) xs = ys -> rand' = rand.
Proof.
move=> Hxs Hys Hs Hnd Hlen.
have H0xs : bytes_ok (0%Z :: xs) by constructor.
have Hu := uniq_ofZs H0xs Hnd; rw [ofZs _]/= in Hu.
have HY : size (ofZs ys) = size (ofZs xs) by rw /ofZs; move: Hlen; rw -!(List.length_map ofZ).
have [R [HR HE Huniq]] := secret_consistent_gf (ofZ s) Hu HY.
have Hev R' : List.map (evaluate_polynomial (s :: toZs R')) xs =
    toZs [seq (Poly (ofZ s :: R')).[a] | a <- ofZs xs].
  by rw toZs_map_eval ofZsK // [toZs (_ :: _)]/= ofZK.
exists (toZs R); split; first split; [|split|].
- by rw /toZs List.length_map -[List.length R]/(size R) HR /ofZs -(List.length_map ofZ).
- exact: toZs_ok.
- by rw Hev HE ofZsK.
- move=> rand' Hl /bytes_toZs[R' E]; rw E Hev => Hm; congr toZs; apply: Huniq.
    by move: Hl; rw E /toZs List.length_map /ofZs -(List.length_map ofZ).
  by rw -[LHS]toZsK Hm.
Qed.
