(* ===== verification/ShamirProofs.v ===== *)
(** * Correctness of secret sharing

    Splitting followed by reconstruction from any set of at least [threshold]
    distinct shares gives the secret back; with one share fewer every secret
    is equally consistent; the serialised entry point can only succeed when a
    share happens to be as long as the authentication tag. *)

From Stdlib Require Import ZArith List Bool Lia String.
From S2P Require Import Prelude Constants SecureMemory Crypto Toy Shamir GF256Field.
Import ListNotations.
Open Scope string_scope.
Open Scope list_scope.
Open Scope Z_scope.

(** ** The shares produced by [split] *)

(** The share with index [i]: header, x-coordinate, one value per byte. *)
Definition share_at (secret : bytes) (entropy : list bytes) (i : Z) : bytes :=
  MAGIC_BYTES ++ [i + 1] ++
  map (fun '(s, rand) => evaluate_polynomial (share_coefficients s rand) (i + 1))
    (combine secret entropy).

Lemma enumerate_map_zrange {A} (g : Z -> A) lo hi :
  enumerate_from lo (map g (zrange lo hi)) = map (fun i => (i, g i)) (zrange lo hi).
Proof.
  remember (Z.to_nat (hi - lo)) as n eqn:Hn. revert lo Hn.
  induction n as [|n IH]; intros lo Hn.
  - now rewrite !zrange_empty by lia.
  - rewrite !zrange_cons by lia. simpl. f_equal. apply IH. lia.
Qed.

Lemma push_byte_zrange g n coefficients :
  push_byte (map g (zrange 0 n)) coefficients =
  map (fun i => g i ++ [evaluate_polynomial coefficients (i + 1)]) (zrange 0 n).
Proof. unfold push_byte. now rewrite enumerate_map_zrange, map_map. Qed.

Lemma push_all_zrange l g n :
  fold_left (fun shares '(s, rand) => push_byte shares (share_coefficients s rand)) l
    (map g (zrange 0 n)) =
  map (fun i => g i ++ map (fun '(s, rand) => evaluate_polynomial (share_coefficients s rand) (i + 1)) l)
    (zrange 0 n).
Proof.
  revert g. induction l as [|[s rand] l IH]; intros g; simpl.
  - apply map_ext. intros. now rewrite app_nil_r.
  - rewrite push_byte_zrange, IH. apply map_ext. intros i. now rewrite <- app_assoc.
Qed.

Section Sharing.
Context `{P : Primitives}.

Lemma split_spec secret threshold share_count auth_key entropy shares :
  split secret threshold share_count auth_key entropy = Ok shares <->
  2 <= threshold <= share_count /\ 0 < len secret <= MAX_SHARE_SIZE /\ len auth_key = HMAC_BYTES /\
  shares = map (share_at secret entropy) (zrange 0 share_count) ++ [hmac_sha256 auth_key secret].
Proof.
  unfold split. rewrite push_all_zrange. pose proof (len_nonneg secret).
  destruct (Z.ltb_spec threshold 2), (Z.ltb_spec share_count threshold), (Z.eqb_spec (len secret) 0),
    (Z.ltb_spec MAX_SHARE_SIZE (len secret)), (Z.eqb_spec (len auth_key) HMAC_BYTES); simpl;
    split; try discriminate; try lia.
  - intros [= <-]. repeat split; lia.
  - now intros (_ & _ & _ & ->).
Qed.

Lemma nth_shares {A} (g : Z -> list A) n t i : 0 <= i < n ->
  nth (Z.to_nat i) (map g (zrange 0 n) ++ t) [] = g i.
Proof.
  intros Hi. rewrite app_nth1 by (rewrite length_map, zrange_length; lia).
  rewrite nth_indep with (d' := g 0) by (rewrite length_map, zrange_length; lia).
  rewrite map_nth. unfold zrange.
  rewrite (nth_indep _ _ (0 + Z.of_nat 0)) by (rewrite length_map, length_seq; lia).
  rewrite (map_nth (fun k => 0 + Z.of_nat k)), seq_nth by lia. f_equal. lia.
Qed.

Lemma len_share_at secret entropy i :
  len entropy = len secret -> len (share_at secret entropy i) = SHARE_HEADER_SIZE + len secret.
Proof.
  intros He. unfold share_at. autorewrite with lens.
  unfold len in *. rewrite length_combine. change (List.length MAGIC_BYTES) with 4%nat.
  unfold SHARE_HEADER_SIZE. change (len MAGIC_BYTES) with 4. lia.
Qed.

Lemma share_at_x secret entropy i : index (share_at secret entropy i) (len MAGIC_BYTES) = i + 1.
Proof. reflexivity. Qed.

Lemma share_at_magic secret entropy i : bytes_eqb (firstn 4 (share_at secret entropy i)) MAGIC_BYTES = true.
Proof. reflexivity. Qed.

Lemma share_at_y secret entropy i j :
  len entropy = len secret -> (j < List.length secret)%nat ->
  index (share_at secret entropy i) (SHARE_HEADER_SIZE + Z.of_nat j) =
  evaluate_polynomial (nth j secret 0 :: nth j entropy []) (i + 1).
Proof.
  intros He Hj. unfold index, SHARE_HEADER_SIZE. change (len MAGIC_BYTES) with 4.
  replace (Z.to_nat (4 + 1 + Z.of_nat j)) with (S (S (S (S (S j))))) by lia.
  unfold share_at, MAGIC_BYTES. cbn [app nth]. unfold len in He.
  set (f := fun '(s, rand) => evaluate_polynomial (share_coefficients s rand) (i + 1)).
  rewrite (nth_indep _ 0 (f (0, []))) by (rewrite length_map, length_combine; lia).
  rewrite map_nth, combine_nth by lia. reflexivity.
Qed.

(** ** The duplicate check *)

Lemma mark_seen_none xs : fold_left mark_seen xs None = None.
Proof. induction xs; auto. Qed.

Lemma mark_seen_spec xs seen :
  bytes_ok xs -> List.length seen = 256%nat ->
  (exists seen', fold_left mark_seen xs (Some seen) = Some seen') <->
  NoDup xs /\ Forall (fun x => nth (Z.to_nat x) seen false = false) xs.
Proof.
  revert seen. induction xs as [|x xs IH]; intros seen Hok Hl; simpl.
  { split; [split; constructor|eauto]. }
  inversion_clear Hok as [|? ? Hx Hxs]. rewrite Forall_cons_iff, NoDup_cons_iff.
  destruct (nth (Z.to_nat x) seen false) eqn:Hs.
  { rewrite mark_seen_none. split; [intros [? [=]]|intros (_ & [=] & _)]. }
  rewrite IH by (auto; now rewrite update_length). unfold in_range in Hx.
  assert (Hu : forall y, nth (Z.to_nat y) (update seen (Z.to_nat x) true) false =
            if Nat.eqb (Z.to_nat x) (Z.to_nat y) then true else nth (Z.to_nat y) seen false)
    by (intros; apply nth_update; lia).
  rewrite !Forall_forall. unfold bytes_ok in Hxs. rewrite Forall_forall in Hxs.
  split.
  - intros [Hnd Hf]. repeat split; auto.
    + intros Hin. specialize (Hf x Hin). rewrite Hu, Nat.eqb_refl in Hf. discriminate.
    + intros y Hy. specialize (Hf y Hy). rewrite Hu in Hf. now destruct (Nat.eqb _ _).
  - intros [[Hni Hnd] [_ Hf]]. split; [assumption|]. intros y Hy. rewrite Hu.
    destruct (Nat.eqb_spec (Z.to_nat x) (Z.to_nat y)) as [E|]; [|auto].
    specialize (Hxs y Hy). unfold in_range in Hxs. replace y with x in Hy by lia. contradiction.
Qed.

Lemma mark_seen_iff xs : bytes_ok xs ->
  (exists seen', fold_left mark_seen xs (Some (repeat false 256)) = Some seen') <-> NoDup xs.
Proof.
  intros Hok. rewrite mark_seen_spec by (auto; apply repeat_length).
  split; [tauto|]. intros H. split; [assumption|]. apply Forall_forall. intros x _. apply nth_repeat.
Qed.

(** ** Reconstruction *)

Lemma evaluate_polynomial_range cs x :
  bytes_ok cs -> is_u8 x -> is_u8 (evaluate_polynomial cs x).
Proof.
  intros Hcs Hx. induction Hcs as [|c cs Hc _ IH].
  - unfold evaluate_polynomial, in_range. simpl. lia.
  - rewrite evaluate_polynomial_cons. apply lxor_range; [lia| |assumption].
    now apply gf_mul_range.
Qed.

Lemma evaluate_polynomial_at_0 c cs :
  bytes_ok cs -> evaluate_polynomial (c :: cs) 0 = c.
Proof.
  intros Hcs. assert (H0 : is_u8 0) by (unfold in_range; lia).
  rewrite evaluate_polynomial_cons, gf_mul_comm by auto using evaluate_polynomial_range.
  rewrite gf_mul_0_l by auto using evaluate_polynomial_range. apply Z.lxor_0_l.
Qed.

(** The random coefficients drawn by [split]. *)
Definition entropy_ok (secret : bytes) (threshold : Z) (entropy : list bytes) : Prop :=
  len entropy = len secret /\ Forall (fun r => bytes_ok r /\ len r = threshold - 1) entropy.

(** Distinct share indices that [split] hands out. *)
Definition indices_ok (share_count : Z) (idxs : list Z) : Prop :=
  NoDup idxs /\ Forall (fun i => 0 <= i < share_count) idxs.

Lemma x_values_ok share_count idxs :
  share_count <= 255 -> indices_ok share_count idxs ->
  bytes_ok (map (fun i => i + 1) idxs) /\ NoDup (map (fun i => i + 1) idxs).
Proof.
  intros Hc [Hnd Hr]. split.
  - apply Forall_map. eapply Forall_impl; [|exact Hr]. intros i Hi. simpl in *. unfold in_range. lia.
  - apply NoDup_map_NoDup_ForallPairs; [|assumption]. intros i j _ _ Hij. lia.
Qed.

Lemma reconstruct_byte_ok secret threshold share_count entropy idxs j :
  bytes_ok secret -> entropy_ok secret threshold entropy -> share_count <= 255 ->
  indices_ok share_count idxs -> threshold <= len idxs -> (j < List.length secret)%nat ->
  reconstruct_byte (map (share_at secret entropy) idxs) (map (fun i => i + 1) idxs) (Z.of_nat j) =
  Ok (nth j secret 0).
Proof.
  intros Hs [He Hr] Hc Hi Ht Hj. destruct (x_values_ok _ _ Hc Hi) as [Hx Hnd].
  unfold reconstruct_byte. rewrite map_map.
  rewrite (map_ext (fun i => index (share_at secret entropy i) (SHARE_HEADER_SIZE + Z.of_nat j))
             (fun i => evaluate_polynomial (nth j secret 0 :: nth j entropy []) (i + 1)))
    by (intros; now apply share_at_y).
  rewrite <- (map_map (fun i => i + 1) (evaluate_polynomial (nth j secret 0 :: nth j entropy []))).
  rewrite Forall_forall in Hr. unfold bytes_ok in Hs. rewrite Forall_forall in Hs.
  destruct (Hr (nth j entropy [])) as [Hr1 Hr2]; [apply nth_In; unfold len in He; lia|].
  rewrite interpolate_evaluate; auto.
  - now rewrite evaluate_polynomial_at_0.
  - constructor; [apply Hs, nth_In; lia|assumption].
  - unfold in_range. lia.
  - rewrite length_map. simpl. unfold len in *. lia.
Qed.

Lemma reconstruct_bytes_ok secret threshold share_count entropy idxs :
  bytes_ok secret -> entropy_ok secret threshold entropy -> share_count <= 255 ->
  indices_ok share_count idxs -> threshold <= len idxs ->
  mapR (reconstruct_byte (map (share_at secret entropy) idxs) (map (fun i => i + 1) idxs))
    (zrange 0 (len secret)) = Ok secret.
Proof.
  intros. apply (mapR_zrange _ secret 0 0). intros j Hj.
  now apply (reconstruct_byte_ok secret threshold share_count).
Qed.

Lemma reconstruct_picked secret threshold share_count entropy auth_key idxs :
  bytes_ok secret -> entropy_ok secret threshold entropy ->
  2 <= threshold -> share_count <= 255 -> 0 < len secret <= MAX_SHARE_SIZE ->
  len auth_key = HMAC_BYTES -> indices_ok share_count idxs -> threshold <= len idxs ->
  reconstruct (map (share_at secret entropy) idxs ++ [hmac_sha256 auth_key secret]) auth_key threshold
  = Ok secret.
Proof.
  intros Hs He Ht Hc Hl Hk Hi Hn. destruct (x_values_ok _ _ Hc Hi) as [Hx Hnd].
  unfold reconstruct. rewrite last_last, removelast_last. autorewrite with lens.
  rewrite Hk, Z.eqb_refl.
  assert (Hf : len (nth 0 (map (share_at secret entropy) idxs) []) = SHARE_HEADER_SIZE + len secret).
  { destruct idxs; [rewrite len_nil in Hn; lia|]. now apply len_share_at, He. }
  rewrite Hf. replace (SHARE_HEADER_SIZE + len secret - SHARE_HEADER_SIZE) with (len secret) by lia.
  assert (Hfmt : forallb (fun share => (len share =? SHARE_HEADER_SIZE + len secret) &&
                   bytes_eqb (firstn 4 share) MAGIC_BYTES) (map (share_at secret entropy) idxs) = true).
  { apply forallb_forall. intros s Hin. apply in_map_iff in Hin. destruct Hin as (i & <- & _).
    rewrite len_share_at, Z.eqb_refl by apply He. apply share_at_magic. }
  rewrite Hfmt, map_map. rewrite (map_ext _ (fun i => i + 1)) by (intros; apply share_at_x).
  apply mark_seen_iff in Hnd; [|assumption]. destruct Hnd as [seen ->].
  rewrite (reconstruct_bytes_ok secret threshold share_count) by assumption.
  destruct (Z.ltb_spec (len idxs + (1 + 0)) 2); [lia|].
  destruct (Z.ltb_spec (len idxs) threshold); [lia|].
  destruct (Z.ltb_spec (SHARE_HEADER_SIZE + len secret) MIN_SHARE_SIZE);
    [unfold MIN_SHARE_SIZE in *; lia|].
  destruct (Z.eqb_spec (len secret) 0); [lia|].
  destruct (Z.ltb_spec MAX_SHARE_SIZE (len secret)); [lia|].
  simpl. rewrite constant_time_equals_spec. simpl. now rewrite bytes_eqb_refl.
Qed.

(** What a successful reconstruction returns carries the authentication tag,
    and all its data shares have one length and distinct x-coordinates. *)
Lemma reconstruct_inv shares auth_key threshold secret :
  reconstruct shares auth_key threshold = Ok secret ->
  2 <= len shares /\ last shares [] = hmac_sha256 auth_key secret /\
  len (nth 0 (removelast shares) []) = SHARE_HEADER_SIZE + len secret.
Proof.
  intros H. unfold reconstruct in H. inv_ok. bools.
  match goal with H : unwrap_or _ _ = true |- _ => rewrite constant_time_equals_spec in H;
    simpl in H; apply bytes_eqb_eq in H end.
  repeat split; auto; try lia.
  match goal with H : mapR _ _ = Ok _ |- _ => apply mapR_length in H; unfold MIN_SHARE_SIZE, len in *;
    rewrite zrange_length in H end.
  lia.
Qed.

End Sharing.

(** ** Too few shares determine nothing *)

(** The bytes of a share after its header. *)
Definition share_values (secret : bytes) (entropy : list bytes) (i : Z) : bytes :=
  map (fun '(s, rand) => evaluate_polynomial (share_coefficients s rand) (i + 1))
    (combine secret entropy).

Lemma evaluate_map_eq cs cs' idxs :
  map (evaluate_polynomial cs) (map (fun i => i + 1) idxs) =
  map (evaluate_polynomial cs') (map (fun i => i + 1) idxs) <->
  (forall i, In i idxs -> evaluate_polynomial cs (i + 1) = evaluate_polynomial cs' (i + 1)).
Proof. rewrite !map_map. apply map_ext_in_iff. Qed.

Lemma secret_byte_consistent s s' rand idxs :
  is_u8 s -> is_u8 s' -> bytes_ok rand -> indices_ok 255 idxs -> List.length rand = List.length idxs ->
  exists rand', bytes_ok rand' /\ List.length rand' = List.length rand /\
    (forall i, In i idxs -> evaluate_polynomial (s' :: rand') (i + 1) = evaluate_polynomial (s :: rand) (i + 1)) /\
    forall rand'', bytes_ok rand'' -> List.length rand'' = List.length rand ->
      (forall i, In i idxs ->
         evaluate_polynomial (s' :: rand'') (i + 1) = evaluate_polynomial (s :: rand) (i + 1)) ->
      rand'' = rand'.
Proof.
  intros Hs Hs' Hr Hi Hl. destruct (x_values_ok 255 idxs ltac:(lia) Hi) as [Hx Hnd].
  set (xs := map (fun i => i + 1) idxs) in *.
  destruct (@secret_consistent xs (map (evaluate_polynomial (s :: rand)) xs) s')
    as (rand' & (Hl' & Hok' & He') & Hu); auto.
  - apply Forall_map. eapply Forall_impl; [|exact Hx]. intros x Hxx.
    apply evaluate_polynomial_range; [now constructor|assumption].
  - constructor; [|assumption]. subst xs. rewrite in_map_iff. intros (i & Hi0 & Hin).
    destruct Hi as [_ Hi]. rewrite Forall_forall in Hi. apply Hi in Hin. lia.
  - now rewrite length_map.
  - assert (Hlx : List.length xs = List.length rand) by (subst xs; rewrite length_map; lia).
    exists rand'. repeat split; [assumption|lia| |].
    + now apply evaluate_map_eq.
    + intros rand'' Hok'' Hl'' He''. apply Hu; [lia|assumption|now apply evaluate_map_eq].
Qed.

Lemma secret_values_consistent idxs : indices_ok 255 idxs ->
  forall secret secret' entropy,
  bytes_ok secret -> bytes_ok secret' -> len secret' = len secret ->
  entropy_ok secret (len idxs + 1) entropy ->
  exists entropy', entropy_ok secret' (len idxs + 1) entropy' /\
    (forall i, In i idxs -> share_values secret' entropy' i = share_values secret entropy i) /\
    forall entropy'', entropy_ok secret' (len idxs + 1) entropy'' ->
      (forall i, In i idxs -> share_values secret' entropy'' i = share_values secret entropy i) ->
      entropy'' = entropy'.
Proof.
  intros Hi secret. induction secret as [|s secret IH]; intros [|s' secret'] [|rand entropy] Hs Hs' Hl [He Hr];
    try (unfold len in *; simpl List.length in *; lia).
  - exists []. split; [split; [reflexivity|constructor]|]. split; [reflexivity|].
    intros entropy'' [He'' _] _. destruct entropy''; [reflexivity|].
    rewrite len_cons, len_nil in He''. pose proof (len_nonneg entropy''). lia.
  - rewrite !len_cons in *. inversion_clear Hs. inversion_clear Hs'. inversion_clear Hr as [|? ? [Hr1 Hr2] Hr3].
    destruct (IH secret' entropy) as (entropy' & [He1 He2] & Hv & Hu); auto; [lia|split; [lia|assumption]|].
    destruct (secret_byte_consistent s s' rand idxs) as (rand' & Hok & Hrl & Hev & Hur); auto;
      [unfold len in *; lia|].
    exists (rand' :: entropy'). split; [|split].
    + split; [rewrite !len_cons; lia|]. constructor; [|assumption]. unfold len in *; split; [assumption|lia].
    + intros i Hin. cbn [share_values combine map]. unfold share_coefficients at 1 3.
      f_equal; [now apply Hev|now apply Hv].
    + intros [|rand'' entropy''] [He'' Hr''] Hv''; rewrite ?len_cons, ?len_nil in *;
        [pose proof (len_nonneg secret'); lia|]. inversion_clear Hr'' as [|? ? [Hr4 Hr5] Hr6].
      f_equal; [apply Hur|apply Hu]; unfold len in *; auto; try lia.
      * intros i Hin. specialize (Hv'' i Hin). now injection Hv''.
      * split; [unfold len; lia|assumption].
      * intros i Hin. specialize (Hv'' i Hin). now injection Hv''.
Qed.

(** ** Cutting a serialised buffer into equal pieces *)

Lemma serialized_piece_len (serialized : bytes) share_length share_count s :
  0 <= share_length -> len serialized = share_length * share_count ->
  In s (map (fun i => firstn (Z.to_nat share_length) (skipn (Z.to_nat (i * share_length)) serialized))
          (zrange 0 share_count)) ->
  len s = share_length.
Proof.
  intros Hl Hs Hin. apply in_map_iff in Hin. destruct Hin as (i & <- & Hi). apply zrange_In in Hi.
  rewrite len_firstn, len_skipn, Hs. nia.
Qed.

Lemma last_In {A} (l : list A) d : l <> [] -> In (last l d) l.
Proof.
  intros Hl. destruct (exists_last Hl) as (l' & a & ->). rewrite last_last. apply in_elt.
Qed.

Lemma removelast_In {A} (l : list A) a : In a (removelast l) -> In a l.
Proof.
  destruct l as [|b l]; [auto|]. intros H.
  rewrite (app_removelast_last b) by discriminate. apply in_or_app. now left.
Qed.

Lemma length_removelast {A} (l : list A) : (2 <= List.length l -> 1 <= List.length (removelast l))%nat.
Proof. destruct l as [|a [|b l]]; simpl; lia. Qed.

(** * Properties *)

(** C35. The table-driven, branch-free product is multiplication in
    GF(2)[x]/(x^8 + x^4 + x^3 + x + 1), computed by shift and add, and
    [gf_inv] is its inverse: for every pair of bytes, not a sample. *)
Theorem gf_mul_is_field_product a b (Ha : is_u8 a) (Hb : is_u8 b) :
  gf_mul a b = gf_mul_ref a b /\ (a <> 0 -> gf_mul a (gf_inv a) = 1).
Proof.
  split; [now apply gf_mul_ref_eq|]. intros Hn.
  rewrite gf_mul_comm by auto using gf_inv_range. now apply gf_mul_inv_l.
Qed.

Lemma gf_mul_is_field_product_witness : gf_mul 87 131 = gf_mul_ref 87 131 /\ gf_mul_ref 87 131 = 193.
Proof.
  split; [apply (gf_mul_is_field_product 87 131); unfold in_range; lia | reflexivity].
Defined.

(** C32. Splitting succeeds on valid parameters, and reconstruction from any
    [threshold] or more distinct shares, in any order, together with the
    authentication tag returns the secret. *)
Theorem shamir_split_reconstruct {P : Primitives} secret threshold share_count auth_key entropy
    (Hs : bytes_ok secret) (Hl : 0 < len secret <= MAX_SHARE_SIZE)
    (Ht : 2 <= threshold <= share_count) (Hc : share_count <= 255)
    (Hk : len auth_key = HMAC_BYTES) (He : entropy_ok secret threshold entropy) :
  exists shares, split secret threshold share_count auth_key entropy = Ok shares /\
    len shares = share_count + 1 /\
    forall idxs, indices_ok share_count idxs -> threshold <= len idxs ->
      reconstruct (map (fun i => nth (Z.to_nat i) shares []) idxs ++ [last shares []])
        auth_key threshold = Ok secret.
Proof.
  eexists. split; [now apply split_spec|]. split.
  { autorewrite with lens. unfold len at 1. rewrite zrange_length. lia. }
  intros idxs Hi Hn. rewrite last_last. erewrite map_ext_in.
  - apply (reconstruct_picked secret threshold share_count); eauto; lia.
  - intros i Hin. apply nth_shares. destruct Hi as [_ Hi]. rewrite Forall_forall in Hi. now apply Hi.
Qed.

Lemma shamir_split_reconstruct_witness :
  let key := repeat 7 32 in
  exists shares, split [42; 200] 2 3 key [[99]; [5]] = Ok shares /\
    reconstruct [nth 2 shares []; nth 0 shares []; last shares []] key 2 = Ok [42; 200].
Proof.
  intros key.
  destruct (shamir_split_reconstruct [42; 200] 2 3 key [[99]; [5]]) as (shares & Hs & _ & Hr).
  - repeat constructor; easy.
  - easy.
  - easy.
  - easy.
  - reflexivity.
  - split; [reflexivity|]. repeat constructor; easy.
  - exists shares. split; [exact Hs|]. apply (Hr [2; 0]); [|easy].
    split; repeat constructor; simpl; intuition lia.
Defined.



(** The serialised entry point cuts its buffer into pieces of one length, the
    authentication tag included.  It can therefore succeed only when a share is
    as long as the 32-byte tag, that is for secrets of exactly 27 bytes. *)
Theorem reconstruct_serialized_only_27 {P : Primitives} {L : PrimitiveLaws P}
    serialized share_length share_count auth_key threshold secret
    (Hpos : 0 <= share_length)
    (H : reconstruct_serialized serialized share_length share_count auth_key threshold = Ok secret) :
  share_length = HMAC_BYTES /\ len secret = 27.
Proof.
  unfold reconstruct_serialized in H. inv_ok. bools. apply reconstruct_inv in H.
  destruct H as (Hn & Htag & Hf). set (shares := map _ _) in *.
  assert (Hall : forall s, In s shares -> len s = share_length)
    by (intros s; now apply serialized_piece_len).
  assert (Hne : shares <> []) by (intros E; rewrite E, len_nil in Hn; lia).
  pose proof (Hall _ (last_In shares [] Hne)) as Hlast. rewrite Htag, hmac_sha256_len in Hlast.
  assert (Hfirst : In (nth 0 (removelast shares) []) shares).
  { apply removelast_In, nth_In. pose proof (length_removelast shares) as Hr. unfold len in Hn. lia. }
  rewrite (Hall _ Hfirst) in Hf. change SHARE_HEADER_SIZE with 5 in Hf.
  unfold HMAC_BYTES. lia.
Qed.

Definition serialized_example : bytes :=
  List.concat (map (share_at (repeat 9 27) (repeat [3] 27)) [0; 1]) ++ hmac_sha256 (repeat 7 32) (repeat 9 27).

Lemma reconstruct_serialized_only_27_witness :
  reconstruct_serialized serialized_example 32 3 (repeat 7 32) 2 = Ok (repeat 9 27) /\ 32 = HMAC_BYTES.
Proof.
  assert (H : reconstruct_serialized serialized_example 32 3 (repeat 7 32) 2 = Ok (repeat 9 27))
    by (vm_compute; reflexivity).
  split; [exact H|].
  exact (proj1 (reconstruct_serialized_only_27 serialized_example 32 3 (repeat 7 32) 2 (repeat 9 27)
                  ltac:(lia) H)).
Defined.
