(* ===== verification/DhValidator.v ===== *)
(** * Validation of X25519 public keys ([src/security/validation/dh_validator.rs])

    The small-order table, the masked comparison against it, and the eight-limb
    borrow chain that compares a key with the field prime.  The theorems show
    that the chain decides [key < 2^255 - 19], which keys are accepted, and
    which table entries are small-order points of the curve. *)

From Stdlib Require Import ZArith List Bool Lia String.
From S2P Require Import Prelude Constants.
Import ListNotations.
Open Scope string_scope.
Open Scope list_scope.
Open Scope Z_scope.

Definition SMALL_ORDER_POINTS : list bytes :=
  [[0; 0; 0; 0; 0; 0; 0; 0; 0; 0; 0; 0; 0; 0; 0; 0;
    0; 0; 0; 0; 0; 0; 0; 0; 0; 0; 0; 0; 0; 0; 0; 0];
   [1; 0; 0; 0; 0; 0; 0; 0; 0; 0; 0; 0; 0; 0; 0; 0;
    0; 0; 0; 0; 0; 0; 0; 0; 0; 0; 0; 0; 0; 0; 0; 0];
   [95; 156; 149; 188; 163; 80; 140; 36; 177; 208; 177; 85; 156; 131; 239; 91;
    4; 68; 92; 196; 88; 28; 142; 134; 216; 34; 78; 221; 208; 159; 17; 87];
   [224; 235; 122; 124; 59; 65; 184; 174; 22; 86; 227; 250; 241; 159; 196; 106;
    218; 9; 141; 235; 156; 50; 177; 253; 134; 98; 5; 22; 95; 73; 184; 0];
   [236; 255; 255; 255; 255; 255; 255; 255; 255; 255; 255; 255; 255; 255; 255; 255;
    255; 255; 255; 255; 255; 255; 255; 255; 255; 255; 255; 255; 255; 255; 255; 127];
   [237; 255; 255; 255; 255; 255; 255; 255; 255; 255; 255; 255; 255; 255; 255; 255;
    255; 255; 255; 255; 255; 255; 255; 255; 255; 255; 255; 255; 255; 255; 255; 127];
   [238; 255; 255; 255; 255; 255; 255; 255; 255; 255; 255; 255; 255; 255; 255; 255;
    255; 255; 255; 255; 255; 255; 255; 255; 255; 255; 255; 255; 255; 255; 255; 127];
   [205; 235; 122; 124; 59; 65; 184; 174; 22; 86; 227; 250; 241; 159; 196; 106;
    218; 9; 141; 235; 156; 50; 177; 253; 134; 98; 5; 22; 95; 73; 184; 0]].

Definition CURVE_25519_PRIME : bytes :=
  [237; 255; 255; 255; 255; 255; 255; 255; 255; 255; 255; 255; 255; 255; 255; 255;
   255; 255; 255; 255; 255; 255; 255; 255; 255; 255; 255; 255; 255; 255; 255; 127].

Module DhValidator.

Definition has_small_order (public_key : bytes) : bool :=
  let normalized :=
    firstn 31 public_key ++ [Z.land (nth 31 public_key 0) X25519_CLAMP_BYTE31_LOW] in
  fold_left (fun found point => found || bytes_eqb normalized point) SMALL_ORDER_POINTS false.

(** [u64::from(u32::from_le_bytes([l[4i], l[4i+1], l[4i+2], l[4i+3]]))] *)
Definition word_at (l : bytes) (i : Z) : Z :=
  from_le_bytes (firstn 4 (skipn (Z.to_nat (i * 4)) l)).

Definition borrow_step (public_key : bytes) (borrow i : Z) : Z :=
  let key_word := word_at public_key i in
  let prime_word := word_at CURVE_25519_PRIME i in
  let diff := wrapping_sub 64 (wrapping_sub 64 key_word prime_word) borrow in
  Z.land (Z.shiftr diff 63) 1.

Definition is_valid_curve25519_point (public_key : bytes) : bool :=
  if negb (len public_key =? X25519_PUBLIC_KEY_BYTES) then false
  else fold_left (borrow_step public_key) (zrange 0 8) 0 =? 1.

Definition validate_x25519_public_key (public_key : bytes) : PResult unit :=
  check? len public_key =? X25519_PUBLIC_KEY_BYTES
    else ProtocolError.invalid_input "Invalid X25519 public key size: expected {}, got {}" in
  check? negb (has_small_order public_key)
    else ProtocolError.invalid_input "X25519 public key is a small-order point (invalid for DH)" in
  check? is_valid_curve25519_point public_key
    else ProtocolError.invalid_input "X25519 public key is not a valid Curve25519 field element" in
  Ok tt.

(** ** The borrow chain *)

Definition p25519 : Z := 2 ^ 255 - 19.

(** The value of the low [i] limbs. *)
Definition low (l : bytes) (i : nat) : Z := from_le_bytes (firstn (i * 4) l).

Lemma low_S l i : (S i * 4 <= List.length l)%nat ->
  low l (S i) = low l i + 2 ^ (32 * Z.of_nat i) * word_at l (Z.of_nat i).
Proof.
  intros Hl. unfold low, word_at.
  replace (Z.to_nat (Z.of_nat i * 4)) with (i * 4)%nat by lia.
  replace (S i * 4)%nat with (i * 4 + 4)%nat by lia.
  rewrite <- (firstn_skipn (i * 4) l) at 1. rewrite firstn_app, firstn_firstn.
  rewrite length_firstn. replace (Nat.min (i * 4 + 4) (i * 4)) with (i * 4)%nat by lia.
  replace (i * 4 + 4 - Nat.min (i * 4) (List.length l))%nat with 4%nat by lia.
  rewrite from_le_bytes_app, len_firstn. do 3 f_equal. unfold len. lia.
Qed.

Lemma word_at_range l i : bytes_ok l -> 0 <= word_at l i < 2 ^ 32.
Proof.
  intros H. unfold word_at. set (w := firstn 4 _).
  assert (Hw : bytes_ok w) by (apply bytes_ok_firstn, bytes_ok_skipn, H).
  pose proof (from_le_bytes_range w Hw) as Hr. assert (len w <= 4) by (subst w; rewrite len_firstn; lia).
  pose proof (Z.pow_le_mono_r 2 (8 * len w) 32). lia.
Qed.

Lemma low_range l i : bytes_ok l -> 0 <= low l i < 2 ^ (32 * Z.of_nat i).
Proof.
  intros H. unfold low. pose proof (from_le_bytes_range _ (bytes_ok_firstn (i * 4) l H)) as Hr.
  assert (len (firstn (i * 4) l) <= 4 * Z.of_nat i) by (rewrite len_firstn; lia).
  pose proof (Z.pow_le_mono_r 2 (8 * len (firstn (i * 4) l)) (32 * Z.of_nat i)). lia.
Qed.

(** The sign bit of a difference of 32-bit words with a borrow. *)
Lemma borrow_bit k p b : 0 <= k < 2 ^ 32 -> 0 <= p < 2 ^ 32 -> 0 <= b <= 1 ->
  Z.land (Z.shiftr (wrapping_sub 64 (wrapping_sub 64 k p) b) 63) 1 = if k - p - b <? 0 then 1 else 0.
Proof.
  intros Hk Hp Hb. unfold wrapping_sub, wrap. rewrite Zminus_mod_idemp_l.
  change 1 with (Z.ones 1) at 1. rewrite Z.land_ones, Z.shiftr_div_pow2 by lia.
  destruct (Z.ltb_spec (k - p - b) 0).
  - rewrite <- (Z.mod_unique (k - p - b) (2 ^ 64) (-1) (k - p - b + 2 ^ 64)) by lia.
    rewrite <- (Z.div_unique (k - p - b + 2 ^ 64) (2 ^ 63) 1 (k - p - b + 2 ^ 63)) by lia. reflexivity.
  - rewrite (Z.mod_small (k - p - b)), Z.div_small by lia. reflexivity.
Qed.

Lemma borrow_chain key n : bytes_ok key -> List.length key = 32%nat -> (n <= 8)%nat ->
  fold_left (borrow_step key) (zrange 0 (Z.of_nat n)) 0 =
  if low key n <? low CURVE_25519_PRIME n then 1 else 0.
Proof.
  intros Hk Hl. induction n as [|n IH]; intros Hn; [reflexivity|].
  rewrite Nat2Z.inj_succ, <- Z.add_1_r, zrange_snoc, fold_left_app, IH by lia.
  cbn [fold_left]. unfold borrow_step.
  assert (Hp : bytes_ok CURVE_25519_PRIME) by (repeat constructor; easy).
  pose proof (word_at_range key (Z.of_nat n) Hk). pose proof (word_at_range _ (Z.of_nat n) Hp).
  rewrite borrow_bit by (auto; case_if; lia).
  rewrite !low_S by (simpl; lia).
  pose proof (low_range key n Hk). pose proof (low_range _ n Hp).
  set (B := 2 ^ (32 * Z.of_nat n)) in *. set (kw := word_at key _) in *. set (pw := word_at CURVE_25519_PRIME _) in *.
  destruct (Z.ltb_spec (low key n) (low CURVE_25519_PRIME n)),
    (Z.ltb_spec (low key n + B * kw) (low CURVE_25519_PRIME n + B * pw)); case_if; bools; nia.
Qed.

Lemma is_valid_spec key : bytes_ok key -> len key = 32 ->
  is_valid_curve25519_point key = true <-> from_le_bytes key < p25519.
Proof.
  intros Hk Hl. unfold is_valid_curve25519_point. rewrite Hl.
  change (negb (32 =? X25519_PUBLIC_KEY_BYTES)) with false. cbv iota.
  assert (Hn : List.length key = 32%nat) by (unfold len in Hl; lia).
  change 8 with (Z.of_nat 8). rewrite borrow_chain by (auto; lia).
  unfold low. rewrite firstn_all2 by lia.
  change (from_le_bytes (firstn (8 * 4) CURVE_25519_PRIME)) with p25519.
  rewrite <- Z.ltb_lt. destruct (from_le_bytes key <? p25519); split; easy.
Qed.

(** ** The comparison with the table *)

Lemma has_small_order_existsb key :
  has_small_order key =
  existsb (bytes_eqb (firstn 31 key ++ [Z.land (nth 31 key 0) X25519_CLAMP_BYTE31_LOW])) SMALL_ORDER_POINTS.
Proof. apply fold_left_orb. Qed.

Lemma top_byte key : bytes_ok key -> List.length key = 32%nat ->
  exists b, key = firstn 31 key ++ [b] /\ nth 31 key 0 = b /\ is_u8 b /\
    from_le_bytes key = from_le_bytes (firstn 31 key) + 2 ^ 248 * b.
Proof.
  intros Hk Hl. exists (nth 31 key 0).
  assert (E : key = firstn 31 key ++ [nth 31 key 0]).
  { rewrite <- (firstn_skipn 31 key) at 1. f_equal. rewrite <- (firstn_skipn 31 key) at 2.
    assert (Hs : List.length (skipn 31 key) = 1%nat) by (rewrite length_skipn; lia).
    rewrite app_nth2 by (rewrite length_firstn; lia). rewrite length_firstn.
    replace (31 - Nat.min 31 (List.length key))%nat with 0%nat by lia.
    now destruct (skipn 31 key) as [|b [|]]. }
  split; [exact E|]. split; [reflexivity|]. split.
  - eapply Forall_forall in Hk; [exact Hk|]. apply nth_In. lia.
  - rewrite E at 1. rewrite from_le_bytes_app, len_firstn. unfold len. rewrite Hl.
    change (8 * Z.min (Z.of_nat 31) (Z.of_nat 32)) with 248.
    replace (from_le_bytes [nth 31 key 0]) with (nth 31 key 0); [lia|].
    unfold from_le_bytes. rewrite Z.shiftl_0_l. lia.
Qed.

Lemma masked_canonical key : bytes_ok key -> len key = 32 -> from_le_bytes key < 2 ^ 255 ->
  firstn 31 key ++ [Z.land (nth 31 key 0) X25519_CLAMP_BYTE31_LOW] = key.
Proof.
  intros Hk Hl Hv. assert (Hn : List.length key = 32%nat) by (unfold len in Hl; lia).
  destruct (top_byte key Hk Hn) as (b & E & Hb & Hr & Hval). rewrite Hb.
  pose proof (from_le_bytes_range _ (bytes_ok_firstn 31 key Hk)). unfold in_range in Hr.
  replace (Z.land b X25519_CLAMP_BYTE31_LOW) with b; [now symmetry|].
  change X25519_CLAMP_BYTE31_LOW with (Z.ones 7). rewrite Z.land_ones by lia.
  symmetry. apply Z.mod_small. lia.
Qed.

Lemma table_ok point : In point SMALL_ORDER_POINTS -> bytes_ok point /\ len point = 32.
Proof.
  revert point. apply Forall_forall. repeat constructor; easy.
Qed.

Lemma small_order_canonical key : bytes_ok key -> len key = 32 -> from_le_bytes key < 2 ^ 255 ->
  has_small_order key = true <-> In (from_le_bytes key) (map from_le_bytes SMALL_ORDER_POINTS).
Proof.
  intros Hk Hl Hv. rewrite has_small_order_existsb, masked_canonical, existsb_exists, in_map_iff by auto.
  split; intros (point & H1 & H2).
  - apply bytes_eqb_eq in H2. subst. eauto.
  - exists point. destruct (table_ok point H2) as [Hp1 Hp2]. split; [assumption|].
    apply bytes_eqb_eq. symmetry. apply from_le_bytes_inj; auto. congruence.
Qed.

(** ** Small order on the curve *)

(** x-only doubling on the Montgomery curve with coefficient [A = 486662]. *)
Definition montgomery_double (pt : Z * Z) : Z * Z :=
  let '(X, Z_) := pt in
  let d := (X * X - Z_ * Z_) mod p25519 in
  ((d * d) mod p25519, (4 * X * Z_ * (X * X + 486662 * X * Z_ + Z_ * Z_)) mod p25519).

(** The order of the point with x-coordinate [u] divides 8: three doublings
    reach the point at infinity. *)
Definition order_divides_8 (u : Z) : bool :=
  let '(_, Z_) := montgomery_double (montgomery_double (montgomery_double (u mod p25519, 1))) in
  Z_ =? 0.

End DhValidator.

(** * Properties *)

(** C37. The eight-limb wrapping borrow chain decides whether the little-endian
    value of a key is below the field prime [2^255 - 19]. *)
Theorem borrow_chain_decides_field_element key (Hk : bytes_ok key) (Hl : len key = 32) :
  DhValidator.is_valid_curve25519_point key = true <-> from_le_bytes key < 2 ^ 255 - 19.
Proof. now apply DhValidator.is_valid_spec. Qed.

Lemma borrow_chain_decides_field_element_witness :
  DhValidator.is_valid_curve25519_point (9 :: repeat 0 31) = true.
Proof.
  apply (borrow_chain_decides_field_element (9 :: repeat 0 31)); [repeat constructor; easy|reflexivity|reflexivity].
Defined.

(** A public key is accepted exactly when it has 32 bytes, encodes a reduced
    field element, and that element is not in the small-order table. *)
Theorem validate_x25519_public_key_spec key (Hk : bytes_ok key) :
  DhValidator.validate_x25519_public_key key = Ok tt <->
  len key = 32 /\ from_le_bytes key < 2 ^ 255 - 19 /\
  ~ In (from_le_bytes key) (map from_le_bytes SMALL_ORDER_POINTS).
Proof.
  unfold DhValidator.validate_x25519_public_key. split.
  - intros H. inv_ok. bools. change X25519_PUBLIC_KEY_BYTES with 32 in *.
    match goal with H : DhValidator.is_valid_curve25519_point _ = true |- _ =>
      apply DhValidator.is_valid_spec in H; auto; unfold DhValidator.p25519 in H end.
    repeat split; auto. rewrite <- DhValidator.small_order_canonical by (auto; lia). congruence.
  - intros (Hl & Hv & Hn). rewrite Hl. rewrite <- DhValidator.small_order_canonical in Hn by (auto; lia).
    apply not_true_is_false in Hn. rewrite Hn.
    now rewrite (proj2 (DhValidator.is_valid_spec key Hk Hl) Hv).
Qed.

Lemma validate_x25519_public_key_spec_witness :
  DhValidator.validate_x25519_public_key (9 :: repeat 0 31) = Ok tt.
Proof.
  apply (validate_x25519_public_key_spec (9 :: repeat 0 31)); [repeat constructor; easy|].
  split; [reflexivity|]. split; [reflexivity|]. vm_compute. intuition discriminate.
Defined.

(** Of the eight entries of the small-order table, the first seven are
    x-coordinates of points whose order divides 8; the eighth is not, although
    a key with that value is refused as a small-order point. *)
Theorem small_order_table_eighth_entry :
  map (fun point => DhValidator.order_divides_8 (from_le_bytes point)) SMALL_ORDER_POINTS =
    [true; true; true; true; true; true; true; false] /\
  DhValidator.validate_x25519_public_key (nth 7 SMALL_ORDER_POINTS []) =
    Err (ProtocolError.invalid_input "X25519 public key is a small-order point (invalid for DH)").
Proof. split; vm_compute; reflexivity. Qed.
