(* ===== verification/Nonce.v ===== *)
(** * Nonce generation ([src/protocol/nonce.rs])

    A 12-byte nonce is an 8-byte random prefix, a 16-bit counter and the 16-bit
    message index.  The theorems show that a generator never repeats a nonce,
    that the encoded index can be read back, and that the counter limit is
    enforced. *)

From Stdlib Require Import ZArith List Bool Lia String.
From S2P Require Import Prelude Constants.
Import ListNotations.
Open Scope string_scope.
Open Scope list_scope.
Open Scope Z_scope.

Record NonceState : Type := mkNonceState { ns_prefix : bytes; ns_counter : Z }.

Definition NonceState_new (prefix : bytes) (counter : Z) : PResult NonceState :=
  check? negb (MAX_NONCE_COUNTER <=? counter)
    else ProtocolError.invalid_state "Nonce counter exceeds maximum" in
  Ok (mkNonceState prefix counter).

Record NonceGenerator : Type := mkNonceGenerator { ng_state : NonceState; ng_max_counter : Z }.

(** The effective limit: zero or too large a request means the maximum. *)
Definition effective_limit (max_counter : Z) : Z :=
  if (max_counter =? 0) || (MAX_NONCE_COUNTER <? max_counter) then MAX_NONCE_COUNTER else max_counter.

(** [random] is the output of [get_random_bytes(NONCE_PREFIX_BYTES)]. *)
Definition create_with_limit (max_counter : Z) (random : bytes) : PResult NonceGenerator :=
  let limit := effective_limit max_counter in
  check? len random =? NONCE_PREFIX_BYTES
    else ProtocolError.generic "Failed to generate nonce prefix" in
  Ok (mkNonceGenerator (mkNonceState (firstn (Z.to_nat NONCE_PREFIX_BYTES) random) 0) limit).

Definition create (random : bytes) : PResult NonceGenerator :=
  create_with_limit MAX_NONCE_COUNTER random.

Definition from_state_with_limit (state : NonceState) (max_counter : Z) : PResult NonceGenerator :=
  let limit := effective_limit max_counter in
  check? negb (limit <=? ns_counter state)
    else ProtocolError.invalid_state "Nonce counter exceeds maximum" in
  Ok (mkNonceGenerator state limit).

Definition from_state (state : NonceState) : PResult NonceGenerator :=
  from_state_with_limit state MAX_NONCE_COUNTER.

(** [for i in 0..2 { nonce[off + i] = ((v >> (i * 8)) & 0xFF) as u8 }] *)
Definition le16_loop (v : Z) : bytes :=
  map (fun i => Z.land (Z.shiftr v (i * 8)) 255) (zrange 0 2).

Definition next (message_index : Z) : Stm ProtocolError.t NonceGenerator bytes :=
  do! sguard (negb (MAX_MESSAGE_INDEX <=? message_index))
        (ProtocolError.invalid_input "Message index exceeds nonce encoding limits");
  do g <- sget (fun g => g);
  do! sguard (negb (ng_max_counter g <=? ns_counter (ng_state g)))
        (ProtocolError.invalid_state "Nonce counter overflow - rotate keys");
  do! sguard (ns_counter (ng_state g) <=? u16_max)
        (ProtocolError.invalid_state "Nonce counter does not fit 16-bit encoding");
  do! sguard (message_index <=? u16_max)
        (ProtocolError.invalid_input "Message index does not fit 16-bit nonce encoding");
  let nonce := ns_prefix (ng_state g) ++ le16_loop (ns_counter (ng_state g)) ++ le16_loop message_index in
  do! smod (fun g => mkNonceGenerator
              (mkNonceState (ns_prefix (ng_state g)) (ns_counter (ng_state g) + 1)) (ng_max_counter g));
  sret nonce.

Definition export_state (g : NonceGenerator) : NonceState := ng_state g.

(** ** Well-formed generators *)

Definition nonce_wf (g : NonceGenerator) : Prop :=
  len (ns_prefix (ng_state g)) = NONCE_PREFIX_BYTES /\
  0 <= ns_counter (ng_state g) <= ng_max_counter g /\ ng_max_counter g <= MAX_NONCE_COUNTER.

Lemma effective_limit_range n : 0 <= n -> 0 < effective_limit n <= MAX_NONCE_COUNTER.
Proof.
  intros Hn. unfold effective_limit, MAX_NONCE_COUNTER.
  destruct (Z.eqb_spec n 0), (Z.ltb_spec 65535 n); simpl; lia.
Qed.

Lemma create_with_limit_wf n random g :
  0 <= n -> create_with_limit n random = Ok g -> nonce_wf g.
Proof.
  intros Hn H. unfold create_with_limit in H. inv_ok. bools.
  pose proof (effective_limit_range n Hn). unfold nonce_wf.
  cbn [ng_state ns_prefix ns_counter ng_max_counter]. rewrite len_firstn.
  unfold NONCE_PREFIX_BYTES in *. lia.
Qed.

Lemma from_state_with_limit_wf s n g :
  0 <= n -> len (ns_prefix s) = NONCE_PREFIX_BYTES -> 0 <= ns_counter s ->
  from_state_with_limit s n = Ok g -> nonce_wf g /\ ng_state g = s.
Proof.
  intros Hn Hp Hc H. unfold from_state_with_limit in H. inv_ok. bools.
  pose proof (effective_limit_range n Hn). unfold nonce_wf. simpl. intuition lia.
Qed.

Lemma le16_loop_spec v : le16_loop v = to_le_bytes 2 v.
Proof.
  unfold le16_loop, to_le_bytes. change (zrange 0 2) with [0; 1]. cbn [map].
  change (0 * 8) with 0. now rewrite Z.shiftr_0_r.
Qed.

(** The state after a nonce has been issued. *)
Definition bump (g : NonceGenerator) : NonceGenerator :=
  mkNonceGenerator (mkNonceState (ns_prefix (ng_state g)) (ns_counter (ng_state g) + 1)) (ng_max_counter g).

(** The nonce of a generator state and a message index. *)
Definition nonce_of (g : NonceGenerator) (message_index : Z) : bytes :=
  ns_prefix (ng_state g) ++ to_le_bytes 2 (ns_counter (ng_state g)) ++ to_le_bytes 2 message_index.

Lemma next_spec i g :
  nonce_wf g ->
  next i g =
  if MAX_MESSAGE_INDEX <=? i
  then (Err (ProtocolError.invalid_input "Message index exceeds nonce encoding limits"), g)
  else if ng_max_counter g <=? ns_counter (ng_state g)
  then (Err (ProtocolError.invalid_state "Nonce counter overflow - rotate keys"), g)
  else (Ok (nonce_of g i), bump g).
Proof.
  intros (_ & Hc & Hm). unfold next, sguard, slift, sbind, sget, smod, sret, ensure.
  unfold MAX_NONCE_COUNTER, MAX_MESSAGE_INDEX, u16_max in *.
  destruct (Z.leb_spec 65535 i); [reflexivity|].
  destruct (Z.leb_spec (ng_max_counter g) (ns_counter (ng_state g))); [reflexivity|]. simpl negb. cbv iota.
  destruct (Z.leb_spec (ns_counter (ng_state g)) (2 ^ 16 - 1)); [|lia].
  destruct (Z.leb_spec i (2 ^ 16 - 1)); [|lia]. now rewrite !le16_loop_spec.
Qed.

Lemma next_Ok i g n g' :
  nonce_wf g -> next i g = (Ok n, g') ->
  i < MAX_MESSAGE_INDEX /\ ns_counter (ng_state g) < ng_max_counter g /\ n = nonce_of g i /\ g' = bump g.
Proof.
  intros Hwf H. rewrite next_spec in H by assumption. repeat case_if_in H; bools; try discriminate.
  injection H as <- <-. auto.
Qed.

Lemma bump_wf g : nonce_wf g -> ns_counter (ng_state g) < ng_max_counter g -> nonce_wf (bump g).
Proof. unfold nonce_wf, bump. simpl. intuition lia. Qed.

Lemma next_wf i g r g' : nonce_wf g -> next i g = (r, g') -> nonce_wf g'.
Proof.
  intros Hwf H. rewrite next_spec in H by assumption.
  repeat case_if_in H; injection H as <- <-; auto. bools. now apply bump_wf.
Qed.

Lemma len_nonce_of g i : nonce_wf g -> len (nonce_of g i) = AES_GCM_NONCE_BYTES.
Proof.
  intros (Hp & _). unfold nonce_of. autorewrite with lens. rewrite Hp. reflexivity.
Qed.

(** Nonces of one prefix with different counters differ. *)
Lemma nonce_of_inj g1 g2 i1 i2 :
  nonce_wf g1 -> nonce_wf g2 -> 0 <= i1 < MAX_MESSAGE_INDEX -> 0 <= i2 < MAX_MESSAGE_INDEX ->
  nonce_of g1 i1 = nonce_of g2 i2 ->
  ns_prefix (ng_state g1) = ns_prefix (ng_state g2) /\
  ns_counter (ng_state g1) = ns_counter (ng_state g2) /\ i1 = i2.
Proof.
  intros (Hp1 & Hc1 & Hm1) (Hp2 & Hc2 & Hm2) Hi1 Hi2 H. unfold nonce_of in H.
  unfold MAX_NONCE_COUNTER, MAX_MESSAGE_INDEX in *.
  apply app_inj_len in H; [|congruence]. destruct H as [Hp H].
  apply app_inj_len in H; [|now rewrite !len_to_le_bytes]. destruct H as [Hc Hi].
  apply to_le_bytes_inj in Hc, Hi; try (simpl; lia). auto.
Qed.

(** ** Runs *)

(** The results of a sequence of [next] calls. *)
Fixpoint nonce_run (idxs : list Z) (g : NonceGenerator) : list bytes * NonceGenerator :=
  match idxs with
  | [] => ([], g)
  | i :: idxs =>
      match next i g with
      | (Ok n, g') => let '(ns, g'') := nonce_run idxs g' in (n :: ns, g'')
      | (Err _, g') => nonce_run idxs g'
      end
  end.

Definition issued_after (g : NonceGenerator) (n : bytes) : Prop :=
  exists c i, ns_counter (ng_state g) <= c < ng_max_counter g /\ 0 <= i < MAX_MESSAGE_INDEX /\
    n = ns_prefix (ng_state g) ++ to_le_bytes 2 c ++ to_le_bytes 2 i.

Lemma nonce_run_spec idxs g :
  nonce_wf g -> Forall (fun i => 0 <= i) idxs ->
  let '(ns, g') := nonce_run idxs g in
  NoDup ns /\ Forall (issued_after g) ns /\ nonce_wf g' /\
  ns_counter (ng_state g') = ns_counter (ng_state g) + len ns /\ ng_max_counter g' = ng_max_counter g.
Proof.
  revert g. induction idxs as [|i idxs IH]; intros g Hwf Hi; simpl.
  { rewrite len_nil. repeat split; auto; try constructor; try apply Hwf. lia. }
  inversion_clear Hi. destruct (next i g) as [[n|e] g'] eqn:Hn.
  - assert (Hwf' := next_wf _ _ _ _ Hwf Hn). apply next_Ok in Hn; [|assumption].
    destruct Hn as (Hlt & Hc & -> & ->). specialize (IH _ Hwf' H0).
    destruct (nonce_run idxs (bump g)) as [ns g'']. destruct IH as (Hnd & Hf & Hw & Hcc & Hmm).
    rewrite len_cons. unfold bump in Hcc, Hmm, Hf. simpl in Hcc, Hmm. repeat split; auto; try apply Hw; try lia.
    + constructor; [|assumption]. intros Hin. rewrite Forall_forall in Hf. apply Hf in Hin.
      destruct Hin as (c & i' & Hcr & Hir & E). cbn [ng_state ns_prefix ns_counter ng_max_counter] in Hcr, E. unfold nonce_of in E.
      apply app_inv_head in E. apply app_inj_len in E; [|now rewrite !len_to_le_bytes].
      destruct E as [E _]. destruct Hwf as (_ & ? & ?). unfold MAX_NONCE_COUNTER in *.
      apply to_le_bytes_inj in E; simpl; lia.
    + constructor; [exists (ns_counter (ng_state g)), i; repeat split; auto; lia|].
      eapply Forall_impl; [|exact Hf]. intros m (c & i' & Hcr & Hir & E). cbn [ng_state ns_prefix ns_counter ng_max_counter] in *.
      exists c, i'. repeat split; auto; lia.
  - assert (g' = g) as ->; [|now apply IH].
    rewrite next_spec in Hn by assumption. repeat case_if_in Hn; now injection Hn.
Qed.

(** * Properties *)

(** C36. A generator never issues the same nonce twice, whatever message indices
    are requested in whatever order, and it issues at most as many nonces as
    its limit; every nonce has the AEAD's length and its last two bytes encode
    the message index. *)
Theorem nonces_never_repeat limit random g idxs
    (Hlimit : 0 <= limit) (Hg : create_with_limit limit random = Ok g)
    (Hidxs : Forall (fun i => 0 <= i) idxs) :
  let '(nonces, _) := nonce_run idxs g in
  NoDup nonces /\ len nonces <= effective_limit limit /\
  Forall (fun n => len n = AES_GCM_NONCE_BYTES /\
                   exists i, 0 <= i < MAX_MESSAGE_INDEX /\ from_le_bytes (skipn 10 n) = i) nonces.
Proof.
  pose proof (create_with_limit_wf _ _ _ Hlimit Hg) as Hwf.
  pose proof (nonce_run_spec idxs g Hwf Hidxs) as H.
  destruct (nonce_run idxs g) as [ns g']. destruct H as (Hnd & Hf & Hw & Hc & Hm).
  assert (Hg0 : ns_counter (ng_state g) = 0 /\ ng_max_counter g = effective_limit limit)
    by (unfold create_with_limit in Hg; inv_ok; auto).
  destruct Hw as (_ & Hw & _). destruct Hg0 as [Hg0 Hg1].
  split; [assumption|]. split; [lia|]. eapply Forall_impl; [|exact Hf].
  intros n (c & i & Hcr & Hir & ->). destruct Hwf as (Hp & _). split.
  - autorewrite with lens. rewrite Hp. reflexivity.
  - exists i. split; [assumption|]. rewrite app_assoc, skipn_app, skipn_all2
      by (rewrite length_app, to_le_bytes_length; unfold len, NONCE_PREFIX_BYTES in Hp; lia).
    replace (10 - _)%nat with 0%nat
      by (rewrite length_app, to_le_bytes_length; unfold len, NONCE_PREFIX_BYTES in Hp; lia).
    simpl. apply from_to_le_bytes. unfold MAX_MESSAGE_INDEX in Hir. simpl. lia.
Qed.

Lemma nonces_never_repeat_witness :
  exists g, create_with_limit 2 [1; 2; 3; 4; 5; 6; 7; 8] = Ok g /\ NoDup (fst (nonce_run [5; 5; 9] g)) /\
    len (fst (nonce_run [5; 5; 9] g)) = 2.
Proof.
  eexists. split; [reflexivity|]. split; [|reflexivity].
  refine (proj1 (nonces_never_repeat 2 [1; 2; 3; 4; 5; 6; 7; 8] _ [5; 5; 9] _ eq_refl _)); [lia|].
  repeat constructor; easy.
Defined.
