(* ===== verification/ReplayWindow.v ===== *)
(** * Replay window ([src/protocol/voip/replay_window.rs])

    A 128-entry sliding bitmap over two 64-bit words.  The abstract
    specification is the list of accepted counters; the theorems show that the
    bitmap refines it and that no counter is accepted twice. *)

From Stdlib Require Import ZArith List Bool Lia.
From S2P Require Import Prelude.
Import ListNotations.
Open Scope Z_scope.

Definition WINDOW_SIZE : Z := 128.
Definition BITMAP_WORDS : Z := 128 / 64.

Module ReplayWindow.

Record t : Type := mk { high_water : Z; bitmap : list Z }.

Definition new : t := mk 0 (repeat 0 (Z.to_nat BITMAP_WORDS)).

(** [a[i]] and [a[i] = v]; the indices are below [BITMAP_WORDS]. *)
Definition get (a : list Z) (i : Z) : Z := nth (Z.to_nat i) a 0.
Fixpoint set_nat (a : list Z) (i : nat) (v : Z) : list Z :=
  match a, i with
  | [], _ => []
  | _ :: a, O => v :: a
  | w :: a, S i => w :: set_nat a i v
  end.
Definition set (a : list Z) (i v : Z) : list Z := set_nat a (Z.to_nat i) v.

Definition check (w : t) (counter : Z) : bool :=
  if high_water w <? counter then true
  else
    let delta := high_water w - counter in
    if WINDOW_SIZE <=? delta then false
    else
      let word := delta / 64 in
      let bit := delta mod 64 in
      Z.land (get (bitmap w) word) (shl 64 1 bit) =? 0.

Definition shift_window (bitmap : list Z) (shift : Z) : list Z :=
  if WINDOW_SIZE <=? shift then repeat 0 (Z.to_nat BITMAP_WORDS)
  else
    let word_shift := shift / 64 in
    let bit_shift := shift mod 64 in
    let bitmap :=
      if 0 <? word_shift then
        let bitmap :=
          fold_left (fun b i => set b i (get b (i - word_shift)))
            (rev (zrange word_shift BITMAP_WORDS)) bitmap in
        fold_left (fun b i => set b i 0) (zrange 0 (Z.min word_shift BITMAP_WORDS)) bitmap
      else bitmap in
    if 0 <? bit_shift then
      let bitmap :=
        fold_left (fun b i => set b i (Z.lor (shl 64 (get b i) bit_shift)
                                          (Z.shiftr (get b (i - 1)) (64 - bit_shift))))
          (rev (zrange 1 BITMAP_WORDS)) bitmap in
      set bitmap 0 (shl 64 (get bitmap 0) bit_shift)
    else bitmap.

Definition mark (w : t) (counter : Z) : t :=
  if high_water w <? counter then
    let shift := counter - high_water w in
    let b := shift_window (bitmap w) shift in
    mk counter (set b 0 (Z.lor (get b 0) 1))
  else
    let delta := high_water w - counter in
    if delta <? WINDOW_SIZE then
      let word := delta / 64 in
      let bit := delta mod 64 in
      mk (high_water w) (set (bitmap w) word (Z.lor (get (bitmap w) word) (shl 64 1 bit)))
    else w.

(** ** Bits of the bitmap *)

Definition bit (b : list Z) (i : Z) : bool := Z.testbit (get b (i / 64)) (i mod 64).

Definition words_ok (b : list Z) : Prop := exists w0 w1, b = [w0; w1] /\ is_u64 w0 /\ is_u64 w1.

Lemma bit_low w0 w1 i : 0 <= i < 64 -> bit [w0; w1] i = Z.testbit w0 i.
Proof. intros H. unfold bit. now rewrite Z.div_small, Z.mod_small by lia. Qed.

Lemma bit_high w0 w1 i : 64 <= i < 128 -> bit [w0; w1] i = Z.testbit w1 (i - 64).
Proof.
  intros H. unfold bit. rewrite <- (Z.div_unique i 64 1 (i - 64)), <- (Z.mod_unique i 64 1 (i - 64)) by lia.
  reflexivity.
Qed.

Lemma split_128 i : 0 <= i < 128 -> 0 <= i < 64 \/ 64 <= i < 128.
Proof. lia. Qed.

Lemma testbit_shl w x k i : 0 <= w -> 0 <= i -> 0 <= k ->
  Z.testbit (shl w x k) i = (i <? w) && Z.testbit x (i - k).
Proof. intros. unfold shl. now rewrite testbit_wrap, Z.shiftl_spec by lia. Qed.

Lemma testbit_neg_i x i : i < 0 -> Z.testbit x i = false.
Proof. apply Z.testbit_neg_r. Qed.

Lemma shl_range w x k : 0 <= w -> in_range w (shl w x k).
Proof. intros. now apply wrap_range. Qed.

Lemma shiftr_range w x k : 0 <= k -> in_range w x -> in_range w (Z.shiftr x k).
Proof.
  intros Hk [H0 H1]. split; [now apply Z.shiftr_nonneg|].
  rewrite Z.shiftr_div_pow2 by lia. eapply Z.le_lt_trans; [|exact H1].
  apply Z.div_le_upper_bound; [lia|]. nia.
Qed.

(** The bitmap after each branch of [shift_window], computed. *)
Lemma shift_window_eq w0 w1 s : 0 <= s ->
  shift_window [w0; w1] s =
  if 128 <=? s then [0; 0]
  else if 64 <=? s then
    if 0 <? s - 64 then [shl 64 0 (s - 64); Z.lor (shl 64 w0 (s - 64)) (Z.shiftr 0 (64 - (s - 64)))]
    else [0; w0]
  else if 0 <? s then [shl 64 w0 s; Z.lor (shl 64 w1 s) (Z.shiftr w0 (64 - s))]
  else [w0; w1].
Proof.
  intros Hs. unfold shift_window, WINDOW_SIZE. destruct (Z.leb_spec 128 s); [reflexivity|].
  destruct (Z.leb_spec 64 s).
  - rewrite <- (Z.div_unique s 64 1 (s - 64)), <- (Z.mod_unique s 64 1 (s - 64)) by lia. reflexivity.
  - rewrite Z.div_small, Z.mod_small by lia. reflexivity.
Qed.

Lemma shift_window_ok b s : words_ok b -> 0 <= s -> words_ok (shift_window b s).
Proof.
  intros (w0 & w1 & -> & H0 & H1) Hs. rewrite shift_window_eq by assumption.
  assert (Hz : is_u64 0) by (unfold in_range; lia).
  repeat case_if; eexists _, _; (split; [reflexivity|]); bools; split; auto;
    try (apply shl_range; lia); apply lor_range; try lia; try (apply shl_range; lia);
    apply shiftr_range; auto; lia.
Qed.

(** [solve_bits] closes an equality of bits of 64-bit words: comparisons are
    decided, bits outside a word are false, the others agree up to [lia]. *)
Ltac solve_bits :=
  rewrite ?Z.lor_spec, ?testbit_shl, ?Z.shiftr_spec, ?Z.testbit_0_l by lia;
  repeat match goal with |- context [?a <? ?b] => destruct (Z.ltb_spec a b); try lia end;
  cbn [andb];
  repeat match goal with
  | |- context [Z.testbit ?w ?j] =>
      first [rewrite (Z.testbit_neg_r w j) by lia
            |rewrite (testbit_high 64 w j) by (auto; lia)]
  end;
  rewrite ?orb_false_r, ?orb_false_l; try reflexivity; try (f_equal; lia).

(** Shifting moves bit [i - s] to bit [i]. *)
Lemma bit_shift_window b s i : words_ok b -> 0 <= s -> 0 <= i < 128 ->
  bit (shift_window b s) i = (s <=? i) && bit b (i - s).
Proof.
  intros (w0 & w1 & -> & H0 & H1) Hs Hi. rewrite shift_window_eq by assumption.
  destruct (Z.leb_spec s i) as [Hsi|Hsi]; cbn [andb].
  - destruct (split_128 (i - s) ltac:(lia)) as [Hm|Hm];
      [rewrite (bit_low _ _ (i - s)) by lia | rewrite (bit_high _ _ (i - s)) by lia];
      destruct (Z.leb_spec 128 s), (Z.leb_spec 64 s); try lia; case_if; bools;
      destruct (split_128 i Hi) as [Hl|Hl]; try lia;
      rewrite ?(bit_low _ _ i), ?(bit_high _ _ i) by lia; solve_bits.
  - destruct (Z.leb_spec 128 s), (Z.leb_spec 64 s); try lia; try case_if; bools; try lia;
      destruct (split_128 i Hi) as [Hl|Hl];
      rewrite ?(bit_low _ _ i), ?(bit_high _ _ i) by lia; solve_bits.
Qed.

(** Setting the bit of a distance [d] below the high-water mark. *)
Definition set_bit (b : list Z) (d : Z) : list Z :=
  set b (d / 64) (Z.lor (get b (d / 64)) (shl 64 1 (d mod 64))).

Lemma testbit_one k j : 0 <= k < 64 -> 0 <= j ->
  Z.testbit (shl 64 1 k) j = (j =? k).
Proof.
  intros Hk Hj. rewrite testbit_shl by lia.
  destruct (Z.eqb_spec j k) as [->|Hn].
  - rewrite Z.sub_diag. destruct (Z.ltb_spec k 64); [reflexivity|lia].
  - destruct (Z.lt_ge_cases j k).
    + rewrite Z.testbit_neg_r by lia. apply andb_false_r.
    + rewrite (testbit_high 1 1) by (unfold in_range; lia). apply andb_false_r.
Qed.

Lemma set_bit_ok b d : words_ok b -> 0 <= d < 128 -> words_ok (set_bit b d).
Proof.
  intros (w0 & w1 & -> & H0 & H1) Hd. unfold set_bit.
  destruct (split_128 d Hd).
  - rewrite Z.div_small by lia. eexists _, _. split; [reflexivity|]. split; [|assumption].
    apply lor_range; [lia|assumption|apply shl_range; lia].
  - rewrite <- (Z.div_unique d 64 1 (d - 64)) by lia. eexists _, _. split; [reflexivity|].
    split; [assumption|]. apply lor_range; [lia|assumption|apply shl_range; lia].
Qed.

Lemma bit_set_bit b d i : words_ok b -> 0 <= d < 128 -> 0 <= i < 128 ->
  bit (set_bit b d) i = (i =? d) || bit b i.
Proof.
  intros (w0 & w1 & -> & H0 & H1) Hd Hi. unfold set_bit.
  pose proof (Z.mod_pos_bound d 64 ltac:(lia)) as Hm.
  destruct (split_128 d Hd) as [Hdl|Hdl].
  - rewrite Z.div_small, Z.mod_small by lia. change (set [w0; w1] 0 ?v) with [v; w1].
    cbn [get]. destruct (split_128 i Hi); rewrite ?bit_low, ?bit_high by lia.
    + rewrite Z.lor_spec, testbit_one by lia. apply orb_comm.
    + destruct (Z.eqb_spec i d); [lia|reflexivity].
  - rewrite <- (Z.div_unique d 64 1 (d - 64)), <- (Z.mod_unique d 64 1 (d - 64)) by lia.
    change (set [w0; w1] 1 ?v) with [w0; v].
    destruct (split_128 i Hi); rewrite ?bit_low, ?bit_high by lia.
    + destruct (Z.eqb_spec i d); [lia|reflexivity].
    + rewrite Z.lor_spec, testbit_one by lia. rewrite orb_comm. f_equal.
      destruct (Z.eqb_spec i d), (Z.eqb_spec (i - 64) (d - 64)); auto; lia.
Qed.

Lemma land_one_zero w k : 0 <= k < 64 -> (Z.land w (shl 64 1 k) =? 0) = negb (Z.testbit w k).
Proof.
  intros Hk. destruct (Z.eqb_spec (Z.land w (shl 64 1 k)) 0) as [E|E].
  - apply (f_equal (fun x => Z.testbit x k)) in E.
    rewrite Z.land_spec, testbit_one, Z.eqb_refl, andb_true_r, Z.testbit_0_l in E by lia. now rewrite E.
  - destruct (Z.testbit w k) eqn:Hw; [reflexivity|]. exfalso. apply E. apply Z.bits_inj'. intros j Hj.
    rewrite Z.land_spec, testbit_one, Z.testbit_0_l by lia.
    destruct (Z.eqb_spec j k) as [->|]; [now rewrite Hw|apply andb_false_r].
Qed.

(** ** The abstract specification *)

(** The accepted counters, newest first. *)
Definition top (seen : list Z) : Z := fold_right Z.max 0 seen.
Definition seen_before (seen : list Z) (c : Z) : bool := existsb (Z.eqb c) seen.

(** A counter is acceptable if it is newer than everything accepted so far, or
    less than a window behind and not yet accepted. *)
Definition acceptable (seen : list Z) (c : Z) : bool :=
  (top seen <? c) || ((top seen - c <? WINDOW_SIZE) && negb (seen_before seen c)).

Definition refines (w : t) (seen : list Z) : Prop :=
  high_water w = top seen /\ words_ok (bitmap w) /\ Forall (fun c => 0 <= c) seen /\
  forall i, 0 <= i < 128 -> bit (bitmap w) i = seen_before seen (high_water w - i).

Lemma top_nonneg seen : 0 <= top seen.
Proof. induction seen; simpl; lia. Qed.

Lemma seen_le_top seen c : seen_before seen c = true -> c <= top seen.
Proof.
  unfold seen_before. rewrite existsb_exists. intros (x & Hin & E). bools. subst x.
  induction seen as [|a seen IH]; [easy|]. destruct Hin as [->|Hin]; simpl; [lia|].
  specialize (IH Hin). lia.
Qed.

Lemma new_refines : refines new [].
Proof.
  split; [reflexivity|]. split; [|split; [constructor|]].
  - exists 0, 0. unfold in_range. repeat split; lia.
  - intros i Hi. change (bitmap new) with [0; 0]. cbn [seen_before existsb].
    destruct (split_128 i Hi); [rewrite bit_low by lia|rewrite bit_high by lia];
      apply Z.testbit_0_l.
Qed.

Lemma check_refines w seen c : refines w seen -> 0 <= c -> check w c = acceptable seen c.
Proof.
  intros (Hh & Hw & _ & Hb) Hc. unfold check, acceptable. rewrite <- Hh.
  destruct (Z.ltb_spec (high_water w) c); [reflexivity|]. cbn [orb].
  unfold WINDOW_SIZE. destruct (Z.leb_spec 128 (high_water w - c)), (Z.ltb_spec (high_water w - c) 128);
    try lia. cbn [andb].
  rewrite land_one_zero by (apply Z.mod_pos_bound; lia). f_equal.
  change (bit (bitmap w) (high_water w - c) = seen_before seen c). rewrite Hb by lia. f_equal. lia.
Qed.

Lemma mark_refines w seen c : refines w seen -> 0 <= c -> refines (mark w c) (c :: seen).
Proof.
  intros (Hh & Hw & Hnn & Hb) Hc. unfold mark.
  assert (Hnn' : Forall (fun c => 0 <= c) (c :: seen)) by auto.
  destruct (Z.ltb_spec (high_water w) c).
  - assert (Hs : words_ok (shift_window (bitmap w) (c - high_water w))) by (apply shift_window_ok; auto; lia).
    change (set ?b 0 (Z.lor (get ?b 0) 1)) with (set_bit b 0).
    split; [simpl; lia|]. split; [apply set_bit_ok; auto; lia|]. split; [assumption|].
    intros i Hi. cbn [bitmap high_water seen_before existsb].
    rewrite bit_set_bit, bit_shift_window by (auto; lia).
    destruct (Z.eqb_spec i 0), (Z.eqb_spec (c - i) c); try lia. cbn [orb].
    destruct (Z.leb_spec (c - high_water w) i); cbn [andb].
    + rewrite Hb by lia. unfold seen_before. do 2 f_equal. lia.
    + symmetry. apply not_true_is_false. intros E. apply seen_le_top in E. lia.
  - unfold WINDOW_SIZE. destruct (Z.ltb_spec (high_water w - c) 128).
    + change (set ?b ?k ?v) with (set_bit b (high_water w - c)).
      split; [simpl; lia|]. split; [apply set_bit_ok; auto; lia|]. split; [assumption|].
      intros i Hi. cbn [bitmap high_water seen_before existsb]. rewrite bit_set_bit by (auto; lia).
      rewrite Hb by lia. f_equal. destruct (Z.eqb_spec i (high_water w - c)), (Z.eqb_spec (high_water w - i) c); lia.
    + split; [simpl; lia|]. split; [assumption|]. split; [assumption|].
      intros i Hi. cbn [seen_before existsb]. rewrite Hb by assumption.
      destruct (Z.eqb_spec (high_water w - i) c); [lia|reflexivity].
Qed.

(** ** Runs: the receiver checks each counter and marks the accepted ones *)

Fixpoint accept_run (cs : list Z) (w : t) : list Z :=
  match cs with
  | [] => []
  | c :: cs => if check w c then c :: accept_run cs (mark w c) else accept_run cs w
  end.

Fixpoint spec_run (cs : list Z) (seen : list Z) : list Z :=
  match cs with
  | [] => []
  | c :: cs => if acceptable seen c then c :: spec_run cs (c :: seen) else spec_run cs seen
  end.

Lemma accept_run_refines cs w seen :
  refines w seen -> Forall (fun c => 0 <= c) cs -> accept_run cs w = spec_run cs seen.
Proof.
  revert w seen. induction cs as [|c cs IH]; intros w seen Hr Hcs; [reflexivity|].
  inversion_clear Hcs. cbn [accept_run spec_run]. rewrite (check_refines w seen) by assumption.
  destruct (acceptable seen c); [f_equal|]; auto using mark_refines.
Qed.

Lemma acceptable_fresh seen c : acceptable seen c = true -> ~ In c seen.
Proof.
  intros Ha Hin. assert (Hs : seen_before seen c = true)
    by (apply existsb_exists; exists c; split; [assumption|apply Z.eqb_refl]).
  unfold acceptable in Ha. rewrite Hs, andb_false_r, orb_false_r in Ha. bools.
  apply seen_le_top in Hs. lia.
Qed.

Lemma spec_run_fresh cs seen :
  NoDup (spec_run cs seen) /\ forall c, In c (spec_run cs seen) -> ~ In c seen.
Proof.
  revert seen. induction cs as [|c cs IH]; intros seen; cbn [spec_run].
  { split; [constructor|easy]. }
  destruct (acceptable seen c) eqn:Ha; [|apply IH].
  destruct (IH (c :: seen)) as [Hnd Hf]. split.
  - constructor; [|assumption]. intros Hin. apply Hf in Hin. apply Hin. now left.
  - intros c' [<-|Hin]; [now apply acceptable_fresh|]. apply Hf in Hin. intros H. apply Hin. now right.
Qed.

End ReplayWindow.

(** * Properties *)

(** C34. The bitmap refines the specification on every sequence of frames: the
    counters it accepts are exactly those newer than all accepted ones, or
    fewer than 128 behind the newest and not accepted before. *)
Theorem replay_window_refines_spec cs (Hcs : Forall (fun c => 0 <= c) cs) :
  ReplayWindow.accept_run cs ReplayWindow.new = ReplayWindow.spec_run cs [].
Proof. apply ReplayWindow.accept_run_refines; [apply ReplayWindow.new_refines|assumption]. Qed.

Lemma replay_window_refines_spec_witness :
  ReplayWindow.accept_run [0; 70; 3; 70; 300; 170; 172; 173; 3] ReplayWindow.new = [0; 70; 3; 300; 173].
Proof.
  rewrite (replay_window_refines_spec [0; 70; 3; 70; 300; 170; 172; 173; 3]); [reflexivity|].
  repeat constructor; easy.
Defined.

(** No counter is accepted twice. *)
Theorem replay_window_no_replay cs (Hcs : Forall (fun c => 0 <= c) cs) :
  NoDup (ReplayWindow.accept_run cs ReplayWindow.new).
Proof.
  rewrite (ReplayWindow.accept_run_refines cs _ [] ReplayWindow.new_refines Hcs).
  apply ReplayWindow.spec_run_fresh.
Qed.

Lemma replay_window_no_replay_witness : NoDup (ReplayWindow.accept_run [5; 5; 200; 5; 200] ReplayWindow.new).
Proof. apply (replay_window_no_replay [5; 5; 200; 5; 200]). repeat constructor; easy. Defined.
