(* ===== verification/KeyRatchet.v ===== *)
(** * Media key ratchet ([src/protocol/voip/key_ratchet.rs])

    The forward-only ratchet of a call direction, its speculative variants that
    leave the ratchet untouched until a frame has been authenticated, and the
    commit of a snapshot.  The theorems relate every operation to one
    generation-indexed key schedule. *)

From Stdlib Require Import ZArith List Bool Lia String.
From S2P Require Import Prelude Constants SecureMemory Crypto Toy.
Import ListNotations.
Open Scope string_scope.
Open Scope list_scope.
Open Scope Z_scope.

Record MediaKeyRatchet : Type := mkRatchet {
  chain_key : SecureMemoryHandle.t;
  generation : Z;
  nonce_prefix : bytes }.

Record RatchetedKey : Type := mkKey { media_key : bytes; key_generation : Z }.
Record RatchetSnapshot : Type := mkSnapshot { snap_chain_bytes : bytes; snap_generation : Z }.

Section KeyRatchet.
Context `{P : Primitives}.

Definition derive_at_generation (chain_bytes : bytes) (generation : Z) (nonce_prefix : bytes) :
    PResult (bytes * bytes) :=
  let gen_bytes := to_le_bytes 4 generation in
  let salt := nonce_prefix ++ gen_bytes in
  let? output_key := derive_key_bytes chain_bytes VOIP_MEDIA_KEY_BYTES salt VOIP_RATCHET_CHAIN_INFO in
  let? next_chain := derive_key_bytes chain_bytes VOIP_MEDIA_KEY_BYTES salt (bstr "Aura-VoIP-NextChain") in
  Ok (output_key, next_chain).

Definition derive_frame_key_at_generation (chain_bytes : bytes) (generation : Z)
    (nonce_prefix : bytes) (frame_counter : Z) : PResult bytes :=
  let? (generation_key, _) := derive_at_generation chain_bytes generation nonce_prefix in
  derive_key_bytes generation_key VOIP_MEDIA_KEY_BYTES (to_le_bytes 8 frame_counter) VOIP_FRAME_KEY_INFO.

Definition ratchet_new (initial_key : SecureMemoryHandle.t) (prefix : bytes) : MediaKeyRatchet :=
  mkRatchet initial_key 0 prefix.

Definition ratchet_from_state (chain_bytes : bytes) (gen : Z) (prefix : bytes) : PResult MediaKeyRatchet :=
  check? len chain_bytes =? VOIP_MEDIA_KEY_BYTES
    else ProtocolError.voip_media "invalid ratchet chain key size" in
  let? handle := crypto_err (SecureMemoryHandle.alloc_write VOIP_MEDIA_KEY_BYTES chain_bytes) in
  Ok (mkRatchet handle gen prefix).

Definition read_chain (r : MediaKeyRatchet) : PResult bytes :=
  crypto_err (SecureMemoryHandle.read_bytes (chain_key r) VOIP_MEDIA_KEY_BYTES).

Definition advance : Stm ProtocolError.t MediaKeyRatchet RatchetedKey :=
  do r <- sget (fun r => r);
  do! sguard (negb (MAX_RATCHET_GENERATION <=? generation r))
        (ProtocolError.voip_media "media key ratchet generation exhausted");
  do chain_bytes <- slift (read_chain r);
  do (output_key, next_chain) <- slift (derive_at_generation chain_bytes (generation r) (nonce_prefix r));
  do new_handle <- slift (crypto_err (SecureMemoryHandle.alloc_write VOIP_MEDIA_KEY_BYTES next_chain));
  do! smod (fun r => mkRatchet new_handle (generation r + 1) (nonce_prefix r));
  sret (mkKey output_key (generation r)).

Definition advance_generation : Stm ProtocolError.t MediaKeyRatchet Z :=
  do! advance;
  sget generation.

(** [for _ in 0..n { let _ = self.advance()?; }] *)
Fixpoint advance_n (n : nat) : Stm ProtocolError.t MediaKeyRatchet unit :=
  match n with
  | O => sret tt
  | S n => do! advance; advance_n n
  end.

Definition check_target (r : MediaKeyRatchet) (target_generation : Z) : PResult Z :=
  check? negb (target_generation <? generation r)
    else ProtocolError.voip_media "cannot ratchet backwards: current={}, target={}" in
  let skip_count := target_generation - generation r in
  check? negb (MAX_SKIPPED_RATCHET_GENERATIONS <? skip_count)
    else ProtocolError.voip_media
           "ratchet skip too large: {skip_count} exceeds max {MAX_SKIPPED_RATCHET_GENERATIONS}" in
  Ok skip_count.

Definition advance_to (target_generation : Z) : Stm ProtocolError.t MediaKeyRatchet RatchetedKey :=
  do r <- sget (fun r => r);
  do skip_count <- slift (check_target r target_generation);
  do! advance_n (Z.to_nat skip_count);
  advance.

Definition snapshot (r : MediaKeyRatchet) : PResult RatchetSnapshot :=
  let? chain_bytes := read_chain r in
  Ok (mkSnapshot chain_bytes (generation r)).

Definition frame_key (r : MediaKeyRatchet) (frame_counter : Z) : PResult RatchetedKey :=
  let? s := snapshot r in
  let? k := derive_frame_key_at_generation (snap_chain_bytes s) (snap_generation s)
              (nonce_prefix r) frame_counter in
  Ok (mkKey k (snap_generation s)).

(** [for _ in 0..n { (_, next) = derive_at_generation(..)?; current_gen += 1 }] *)
Fixpoint walk_chain (n : nat) (prefix current_chain : bytes) (current_gen : Z) : PResult (bytes * Z) :=
  match n with
  | O => Ok (current_chain, current_gen)
  | S n =>
      let? (_, next) := derive_at_generation current_chain current_gen prefix in
      walk_chain n prefix next (current_gen + 1)
  end.

Definition speculative_sync_to (r : MediaKeyRatchet) (target_generation : Z) : PResult RatchetSnapshot :=
  let? skip_count := check_target r target_generation in
  let? chain := read_chain r in
  let? (current_chain, current_gen) :=
    walk_chain (Z.to_nat skip_count) (nonce_prefix r) chain (generation r) in
  Ok (mkSnapshot current_chain current_gen).

Definition speculative_advance_to (r : MediaKeyRatchet) (target_generation : Z) :
    PResult (RatchetedKey * RatchetSnapshot) :=
  let? skip_count := check_target r target_generation in
  let? chain := read_chain r in
  let? (current_chain, current_gen) :=
    walk_chain (Z.to_nat skip_count) (nonce_prefix r) chain (generation r) in
  let? (output_key, next_chain) := derive_at_generation current_chain current_gen (nonce_prefix r) in
  Ok (mkKey output_key current_gen, mkSnapshot next_chain (current_gen + 1)).

Definition speculative_frame_key (r : MediaKeyRatchet) (target_generation frame_counter : Z) :
    PResult (RatchetedKey * RatchetSnapshot) :=
  let? s := speculative_sync_to r target_generation in
  let? k := derive_frame_key_at_generation (snap_chain_bytes s) (snap_generation s)
              (nonce_prefix r) frame_counter in
  Ok (mkKey k (snap_generation s), s).

Definition commit_snapshot (s : RatchetSnapshot) : Stm ProtocolError.t MediaKeyRatchet unit :=
  do new_handle <- slift (crypto_err (SecureMemoryHandle.alloc_write VOIP_MEDIA_KEY_BYTES (snap_chain_bytes s)));
  smod (fun r => mkRatchet new_handle (snap_generation s) (nonce_prefix r)).

Definition ratchet_reset (new_key : SecureMemoryHandle.t) (new_nonce_prefix : bytes)
    (r : MediaKeyRatchet) : MediaKeyRatchet :=
  mkRatchet new_key 0 new_nonce_prefix.

Definition set_generation (gen : Z) (r : MediaKeyRatchet) : MediaKeyRatchet :=
  mkRatchet (chain_key r) gen (nonce_prefix r).

(** ** The key schedule *)

Context {L : PrimitiveLaws P}.

Definition ratchet_salt (prefix : bytes) (g : Z) : bytes := prefix ++ to_le_bytes 4 g.

(** The chain key [n] generations after chain [c] at generation [g]. *)
Fixpoint chain_after (n : nat) (prefix c : bytes) (g : Z) : bytes :=
  match n with
  | O => c
  | S n => chain_after n prefix
             (kdf c VOIP_MEDIA_KEY_BYTES (ratchet_salt prefix g) (bstr "Aura-VoIP-NextChain")) (g + 1)
  end.

(** The media key of a chain key at generation [g]. *)
Definition generation_key (prefix c : bytes) (g : Z) : bytes :=
  kdf c VOIP_MEDIA_KEY_BYTES (ratchet_salt prefix g) VOIP_RATCHET_CHAIN_INFO.

Definition ratchet_wf (r : MediaKeyRatchet) : Prop :=
  len (SecureMemoryHandle.data (chain_key r)) = VOIP_MEDIA_KEY_BYTES /\ 0 <= generation r.

(** The ratchet [n] generations later. *)
Definition ratchet_after (n : nat) (r : MediaKeyRatchet) : MediaKeyRatchet :=
  mkRatchet (SecureMemoryHandle.mk
               (chain_after n (nonce_prefix r) (SecureMemoryHandle.data (chain_key r)) (generation r)))
    (generation r + Z.of_nat n) (nonce_prefix r).

Lemma derive_at_generation_ok c g prefix :
  derive_at_generation c g prefix =
  Ok (generation_key prefix c g, chain_after 1 prefix c g).
Proof.
  unfold derive_at_generation. rewrite !derive_key_bytes_ok by easy. reflexivity.
Qed.

Lemma len_chain_after n prefix c g :
  len c = VOIP_MEDIA_KEY_BYTES -> len (chain_after n prefix c g) = VOIP_MEDIA_KEY_BYTES.
Proof.
  revert c g. induction n as [|n IH]; intros c g Hc; [assumption|]. apply IH, kdf_len. easy.
Qed.

Lemma chain_after_add n m prefix c g :
  chain_after (n + m) prefix c g = chain_after m prefix (chain_after n prefix c g) (g + Z.of_nat n).
Proof.
  revert c g. induction n as [|n IH]; intros c g; simpl chain_after at 1 3.
  - now rewrite Z.add_0_r.
  - cbn [Nat.add chain_after]. rewrite IH. f_equal. lia.
Qed.

Lemma ratchet_after_wf n r : ratchet_wf r -> ratchet_wf (ratchet_after n r).
Proof. intros [Hl Hg]. split; simpl; [now apply len_chain_after|lia]. Qed.

Lemma ratchet_after_add n m r : ratchet_after m (ratchet_after n r) = ratchet_after (n + m) r.
Proof.
  unfold ratchet_after. simpl. rewrite chain_after_add. f_equal. lia.
Qed.

Lemma ratchet_after_0 r : ratchet_after 0 r = r.
Proof. destruct r as [[c] g p]. unfold ratchet_after. simpl. now rewrite Z.add_0_r. Qed.

(** The key a ratchet hands out at its current generation. *)
Definition current_key (r : MediaKeyRatchet) : RatchetedKey :=
  mkKey (generation_key (nonce_prefix r) (SecureMemoryHandle.data (chain_key r)) (generation r)) (generation r).

Lemma read_chain_ok r : ratchet_wf r -> read_chain r = Ok (SecureMemoryHandle.data (chain_key r)).
Proof.
  intros [Hl _]. unfold read_chain. destruct (chain_key r) as [c]. simpl in *.
  now rewrite SecureMemoryHandle.read_bytes_exact.
Qed.

Lemma alloc_chain_ok c : len c = VOIP_MEDIA_KEY_BYTES ->
  SecureMemoryHandle.alloc_write VOIP_MEDIA_KEY_BYTES c = Ok (SecureMemoryHandle.mk c).
Proof. intros H. now apply SecureMemoryHandle.alloc_write_exact. Qed.

Lemma advance_spec r : ratchet_wf r ->
  advance r =
  if MAX_RATCHET_GENERATION <=? generation r
  then (Err (ProtocolError.voip_media "media key ratchet generation exhausted"), r)
  else (Ok (current_key r), ratchet_after 1 r).
Proof.
  intros Hwf. unfold advance, sbind, sget, sguard, slift, smod, sret, ensure.
  destruct (MAX_RATCHET_GENERATION <=? generation r); [reflexivity|]. simpl negb. cbv iota beta.
  rewrite read_chain_ok, derive_at_generation_ok by assumption.
  rewrite alloc_chain_ok by (now apply len_chain_after; apply Hwf). reflexivity.
Qed.

Lemma advance_n_spec n r : ratchet_wf r -> generation r + Z.of_nat n <= MAX_RATCHET_GENERATION ->
  advance_n n r = (Ok tt, ratchet_after n r).
Proof.
  revert r. induction n as [|n IH]; intros r Hwf Hg; cbn [advance_n].
  - now rewrite ratchet_after_0.
  - unfold sbind. rewrite advance_spec by assumption.
    destruct (Z.leb_spec MAX_RATCHET_GENERATION (generation r)); [lia|].
    rewrite IH, ratchet_after_add by (auto using ratchet_after_wf; simpl; lia). reflexivity.
Qed.

Lemma walk_chain_spec n prefix c g :
  walk_chain n prefix c g = Ok (chain_after n prefix c g, g + Z.of_nat n).
Proof.
  revert c g. induction n as [|n IH]; intros c g; cbn [walk_chain].
  - simpl. now rewrite Z.add_0_r.
  - rewrite derive_at_generation_ok. simpl rbind. rewrite IH. do 2 f_equal. lia.
Qed.

Lemma check_target_spec r target n :
  check_target r target = Ok n <->
  0 <= n <= MAX_SKIPPED_RATCHET_GENERATIONS /\ target = generation r + n.
Proof.
  unfold check_target. destruct (Z.ltb_spec target (generation r)); simpl; [split; [discriminate|lia]|].
  destruct (Z.ltb_spec MAX_SKIPPED_RATCHET_GENERATIONS (target - generation r)); simpl.
  - split; [discriminate|lia].
  - split; [intros [= <-]; lia|intros [? ->]; f_equal; lia].
Qed.

Lemma speculative_advance_to_spec r target n : ratchet_wf r ->
  check_target r target = Ok n ->
  speculative_advance_to r target =
  Ok (current_key (ratchet_after (Z.to_nat n) r),
      mkSnapshot (SecureMemoryHandle.data (chain_key (ratchet_after (Z.to_nat n + 1) r))) (target + 1)).
Proof.
  intros Hwf Hc. unfold speculative_advance_to. rewrite Hc. simpl rbind.
  apply check_target_spec in Hc. destruct Hc as [Hn ->].
  rewrite read_chain_ok by assumption. simpl rbind. rewrite walk_chain_spec. simpl rbind.
  rewrite derive_at_generation_ok. simpl rbind. rewrite <- ratchet_after_add.
  unfold current_key, ratchet_after. simpl. rewrite !Z2Nat.id by lia. reflexivity.
Qed.

Lemma speculative_sync_to_spec r target n : ratchet_wf r ->
  check_target r target = Ok n ->
  speculative_sync_to r target =
  Ok (mkSnapshot (SecureMemoryHandle.data (chain_key (ratchet_after (Z.to_nat n) r))) target).
Proof.
  intros Hwf Hc. unfold speculative_sync_to. rewrite Hc. simpl rbind.
  apply check_target_spec in Hc. destruct Hc as [Hn ->].
  rewrite read_chain_ok by assumption. simpl rbind. rewrite walk_chain_spec. simpl rbind.
  rewrite Z2Nat.id by lia. reflexivity.
Qed.

Lemma commit_snapshot_spec n r : ratchet_wf r ->
  commit_snapshot (mkSnapshot (SecureMemoryHandle.data (chain_key (ratchet_after n r)))
                     (generation (ratchet_after n r))) r = (Ok tt, ratchet_after n r).
Proof.
  intros Hwf. unfold commit_snapshot, sbind, slift, smod. cbn [snap_chain_bytes snap_generation].
  rewrite alloc_chain_ok by apply (ratchet_after_wf n r Hwf). reflexivity.
Qed.

Lemma advance_to_spec r target n : ratchet_wf r -> check_target r target = Ok n ->
  target < MAX_RATCHET_GENERATION ->
  advance_to target r = (Ok (current_key (ratchet_after (Z.to_nat n) r)), ratchet_after (Z.to_nat n + 1) r).
Proof.
  intros Hwf Hc Ht. unfold advance_to, sbind, sget, slift. rewrite Hc.
  apply check_target_spec in Hc. destruct Hc as [Hn ->].
  rewrite advance_n_spec by (auto; lia). rewrite advance_spec by (now apply ratchet_after_wf).
  destruct (Z.leb_spec MAX_RATCHET_GENERATION (generation (ratchet_after (Z.to_nat n) r)));
    [simpl in *; lia|]. now rewrite ratchet_after_add.
Qed.

Lemma frame_key_ok r fc : ratchet_wf r ->
  exists k, frame_key r fc = Ok (mkKey k (generation r)) /\
    derive_frame_key_at_generation (SecureMemoryHandle.data (chain_key r)) (generation r)
      (nonce_prefix r) fc = Ok k.
Proof.
  intros Hwf. unfold frame_key, snapshot. rewrite read_chain_ok by assumption. simpl rbind.
  unfold derive_frame_key_at_generation. rewrite derive_at_generation_ok. simpl rbind.
  rewrite derive_key_bytes_ok by easy. simpl. eauto.
Qed.

End KeyRatchet.

(** * Properties *)

(** The speculative advance followed by committing its snapshot is the
    mutating advance: same key, same ratchet, same refusals, for every target
    generation below the ratchet's limit. *)
Theorem speculative_advance_then_commit {P : Primitives} {L : PrimitiveLaws P} r target
    (Hwf : ratchet_wf r) (Ht : target < MAX_RATCHET_GENERATION) :
  match speculative_advance_to r target with
  | Ok (k, s) => exists r', advance_to target r = (Ok k, r') /\ commit_snapshot s r = (Ok tt, r')
  | Err e => advance_to target r = (Err e, r)
  end.
Proof.
  destruct (check_target r target) as [n|e] eqn:Hc.
  - rewrite (speculative_advance_to_spec r target n) by assumption.
    rewrite (advance_to_spec r target n) by assumption. apply check_target_spec in Hc.
    eexists. split; [reflexivity|].
    replace (target + 1) with (generation (ratchet_after (Z.to_nat n + 1) r)) by (simpl; lia).
    now apply commit_snapshot_spec.
  - unfold speculative_advance_to. rewrite Hc. simpl. unfold advance_to, sbind, sget, slift. now rewrite Hc.
Qed.

Definition example_ratchet : MediaKeyRatchet :=
  mkRatchet (SecureMemoryHandle.mk (repeat 7 32)) 5 [1; 2; 3; 4].

Lemma speculative_advance_then_commit_witness :
  exists k r', advance_to 9 example_ratchet = (Ok k, r') /\ generation r' = 10.
Proof.
  pose proof (speculative_advance_then_commit example_ratchet 9 ltac:(split; [reflexivity|easy]) ltac:(reflexivity)) as H.
  destruct (speculative_advance_to example_ratchet 9) as [[k s]|e] eqn:E; [|vm_compute in E; discriminate].
  destruct H as (r' & Ha & _). exists k, r'. split; [exact Ha|].
  apply (f_equal snd) in Ha. vm_compute in Ha. now rewrite <- Ha.
Defined.

(** Sender and receiver stay in step: after the sender has advanced by up to
    eight generations, the key it uses for a frame is the key the receiver
    derives speculatively from the generation and counter of that frame, and
    committing the receiver's snapshot makes the two ratchets equal. *)
Theorem media_ratchet_in_step {P : Primitives} {L : PrimitiveLaws P} r n frame_counter
    (Hwf : ratchet_wf r) (Hn : Z.of_nat n <= MAX_SKIPPED_RATCHET_GENERATIONS)
    (Hg : generation r + Z.of_nat n <= MAX_RATCHET_GENERATION) :
  exists sender k s,
    advance_n n r = (Ok tt, sender) /\ frame_key sender frame_counter = Ok k /\
    speculative_frame_key r (generation sender) frame_counter = Ok (k, s) /\
    commit_snapshot s r = (Ok tt, sender).
Proof.
  pose proof (ratchet_after_wf n r Hwf) as Hwf'.
  destruct (frame_key_ok (ratchet_after n r) frame_counter Hwf') as (k & Hk & Hd).
  assert (Hc : check_target r (generation (ratchet_after n r)) = Ok (Z.of_nat n))
    by (apply check_target_spec; simpl; lia).
  exists (ratchet_after n r), (mkKey k (generation (ratchet_after n r))). eexists.
  split; [now apply advance_n_spec|]. split; [assumption|]. split.
  - unfold speculative_frame_key. rewrite (speculative_sync_to_spec _ _ _ Hwf Hc), Nat2Z.id.
    cbn [rbind snap_chain_bytes snap_generation].
    change (nonce_prefix (ratchet_after n r)) with (nonce_prefix r) in Hd. rewrite Hd. reflexivity.
  - now apply commit_snapshot_spec.
Qed.

Lemma media_ratchet_in_step_witness :
  exists sender k s, advance_n 3 example_ratchet = (Ok tt, sender) /\
    speculative_frame_key example_ratchet (generation sender) 77 = Ok (k, s).
Proof.
  destruct (media_ratchet_in_step example_ratchet 3 77) as (sender & k & s & H1 & _ & H2 & _).
  - split; [reflexivity|easy].
  - easy.
  - easy.
  - exists sender, k, s. auto.
Defined.
