(* ===== verification/Proto.v ===== *)
(** * Protocol buffer messages

    The messages of the session ([proto/protocol/state.proto],
    [envelope.proto], [sealed_state.proto]), of the handshake
    ([handshake.proto]) and of a call ([voip.proto]) as records with the fields
    of the generated structs, and setters for the fields the program assigns.
    The wire codec is generated by prost; [Prost] is its interface and
    [ProstLaws] the round trip it documents. *)

From Stdlib Require Import ZArith List Bool String.
From S2P Require Import Prelude.
Import ListNotations.
Open Scope Z_scope.

(** [Message::encode_to_vec] and [Message::decode].  Encoding into a growing
    [Vec] does not fail. *)
Class Prost (M : Type) : Type := {
  encode : M -> bytes;
  decode : bytes -> option M }.

(** The round trip, for the values of the message's Rust type. *)
Class ProstLaws (M : Type) {C : Prost M} (wf : M -> Prop) : Prop := {
  decode_encode m : wf m -> decode (encode m) = Some m }.

(** [google.protobuf.Timestamp] *)
Module Timestamp.

Record t : Type := mk {
  seconds : Z;
  nanos : Z }.

End Timestamp.

(** A skipped message key as persisted. *)
Module CachedMessageKey.

Record t : Type := mk {
  message_index : Z;
  message_key : bytes;
  epoch : Z }.

End CachedMessageKey.

(** A metadata key of an old epoch as persisted. *)
Module CachedMetadataKey.

Record t : Type := mk {
  epoch : Z;
  metadata_key : bytes }.

End CachedMetadataKey.

(** A symmetric chain. *)
Module ChainState.

Record t : Type := mk {
  message_index : Z;
  chain_key : bytes;
  skipped_message_keys : list CachedMessageKey.t }.

Definition set_message_index (v : Z) (s : t) : t :=
  mk v (chain_key s) (skipped_message_keys s).
Definition set_chain_key (v : bytes) (s : t) : t :=
  mk (message_index s) v (skipped_message_keys s).
Definition set_skipped_message_keys (v : list CachedMessageKey.t) (s : t) : t :=
  mk (message_index s) (chain_key s) v.

End ChainState.

(** An X25519 key pair; the private part is zeroed while a session is live. *)
Module DhKeyPair.

Record t : Type := mk {
  private_key : bytes;
  public_key : bytes }.

Definition set_private_key (v : bytes) (s : t) : t :=
  mk v (public_key s).
Definition set_public_key (v : bytes) (s : t) : t :=
  mk (private_key s) v.

End DhKeyPair.

(** An ML-KEM-768 key pair. *)
Module KyberKeyPair.

Record t : Type := mk {
  secret_key : bytes;
  public_key : bytes }.

Definition set_secret_key (v : bytes) (s : t) : t :=
  mk v (public_key s).
Definition set_public_key (v : bytes) (s : t) : t :=
  mk (secret_key s) v.

End KyberKeyPair.

(** The nonce generator as persisted. *)
Module NonceStateProto.

Record t : Type := mk {
  prefix : bytes;
  counter : Z }.

End NonceStateProto.

(** The state of a 1:1 session. *)
Module ProtocolState.

Record t : Type := mk {
  version : Z;
  is_initiator : bool;
  created_at : option Timestamp.t;
  session_id : bytes;
  state_counter : Z;
  send_ratchet_epoch : Z;
  recv_ratchet_epoch : Z;
  root_key : bytes;
  send_chain : option ChainState.t;
  recv_chain : option ChainState.t;
  dh_local : option DhKeyPair.t;
  dh_remote_public : bytes;
  dh_local_initial_public : bytes;
  dh_remote_initial_public : bytes;
  metadata_key : bytes;
  kyber_local : option KyberKeyPair.t;
  kyber_remote_public : bytes;
  nonce_generator : option NonceStateProto.t;
  state_hmac : bytes;
  max_messages_per_chain : Z;
  max_nonce_counter : Z;
  local_identity_ed25519_public : bytes;
  local_identity_x25519_public : bytes;
  peer_identity_ed25519_public : bytes;
  peer_identity_x25519_public : bytes;
  identity_binding_hash : bytes;
  replay_epoch : Z;
  seen_payload_nonces : list bytes;
  send_ratchet_pending : bool;
  skipped_keys : list CachedMessageKey.t;
  cached_metadata_keys : list CachedMetadataKey.t;
  send_metadata_key : bytes;
  device_id : option bytes;
  session_ttl_seconds : option Z;
  last_activity_unix : option Z;
  total_messages_sent : Z;
  total_messages_received : Z }.

Definition set_version (v : Z) (s : t) : t :=
  mk v (is_initiator s) (created_at s) (session_id s) (state_counter s) (send_ratchet_epoch s)
    (recv_ratchet_epoch s) (root_key s) (send_chain s) (recv_chain s) (dh_local s)
    (dh_remote_public s) (dh_local_initial_public s) (dh_remote_initial_public s) (metadata_key s)
    (kyber_local s) (kyber_remote_public s) (nonce_generator s) (state_hmac s)
    (max_messages_per_chain s) (max_nonce_counter s) (local_identity_ed25519_public s)
    (local_identity_x25519_public s) (peer_identity_ed25519_public s)
    (peer_identity_x25519_public s) (identity_binding_hash s) (replay_epoch s)
    (seen_payload_nonces s) (send_ratchet_pending s) (skipped_keys s) (cached_metadata_keys s)
    (send_metadata_key s) (device_id s) (session_ttl_seconds s) (last_activity_unix s)
    (total_messages_sent s) (total_messages_received s).
Definition set_is_initiator (v : bool) (s : t) : t :=
  mk (version s) v (created_at s) (session_id s) (state_counter s) (send_ratchet_epoch s)
    (recv_ratchet_epoch s) (root_key s) (send_chain s) (recv_chain s) (dh_local s)
    (dh_remote_public s) (dh_local_initial_public s) (dh_remote_initial_public s) (metadata_key s)
    (kyber_local s) (kyber_remote_public s) (nonce_generator s) (state_hmac s)
    (max_messages_per_chain s) (max_nonce_counter s) (local_identity_ed25519_public s)
    (local_identity_x25519_public s) (peer_identity_ed25519_public s)
    (peer_identity_x25519_public s) (identity_binding_hash s) (replay_epoch s)
    (seen_payload_nonces s) (send_ratchet_pending s) (skipped_keys s) (cached_metadata_keys s)
    (send_metadata_key s) (device_id s) (session_ttl_seconds s) (last_activity_unix s)
    (total_messages_sent s) (total_messages_received s).
Definition set_created_at (v : option Timestamp.t) (s : t) : t :=
  mk (version s) (is_initiator s) v (session_id s) (state_counter s) (send_ratchet_epoch s)
    (recv_ratchet_epoch s) (root_key s) (send_chain s) (recv_chain s) (dh_local s)
    (dh_remote_public s) (dh_local_initial_public s) (dh_remote_initial_public s) (metadata_key s)
    (kyber_local s) (kyber_remote_public s) (nonce_generator s) (state_hmac s)
    (max_messages_per_chain s) (max_nonce_counter s) (local_identity_ed25519_public s)
    (local_identity_x25519_public s) (peer_identity_ed25519_public s)
    (peer_identity_x25519_public s) (identity_binding_hash s) (replay_epoch s)
    (seen_payload_nonces s) (send_ratchet_pending s) (skipped_keys s) (cached_metadata_keys s)
    (send_metadata_key s) (device_id s) (session_ttl_seconds s) (last_activity_unix s)
    (total_messages_sent s) (total_messages_received s).
Definition set_session_id (v : bytes) (s : t) : t :=
  mk (version s) (is_initiator s) (created_at s) v (state_counter s) (send_ratchet_epoch s)
    (recv_ratchet_epoch s) (root_key s) (send_chain s) (recv_chain s) (dh_local s)
    (dh_remote_public s) (dh_local_initial_public s) (dh_remote_initial_public s) (metadata_key s)
    (kyber_local s) (kyber_remote_public s) (nonce_generator s) (state_hmac s)
    (max_messages_per_chain s) (max_nonce_counter s) (local_identity_ed25519_public s)
    (local_identity_x25519_public s) (peer_identity_ed25519_public s)
    (peer_identity_x25519_public s) (identity_binding_hash s) (replay_epoch s)
    (seen_payload_nonces s) (send_ratchet_pending s) (skipped_keys s) (cached_metadata_keys s)
    (send_metadata_key s) (device_id s) (session_ttl_seconds s) (last_activity_unix s)
    (total_messages_sent s) (total_messages_received s).
Definition set_state_counter (v : Z) (s : t) : t :=
  mk (version s) (is_initiator s) (created_at s) (session_id s) v (send_ratchet_epoch s)
    (recv_ratchet_epoch s) (root_key s) (send_chain s) (recv_chain s) (dh_local s)
    (dh_remote_public s) (dh_local_initial_public s) (dh_remote_initial_public s) (metadata_key s)
    (kyber_local s) (kyber_remote_public s) (nonce_generator s) (state_hmac s)
    (max_messages_per_chain s) (max_nonce_counter s) (local_identity_ed25519_public s)
    (local_identity_x25519_public s) (peer_identity_ed25519_public s)
    (peer_identity_x25519_public s) (identity_binding_hash s) (replay_epoch s)
    (seen_payload_nonces s) (send_ratchet_pending s) (skipped_keys s) (cached_metadata_keys s)
    (send_metadata_key s) (device_id s) (session_ttl_seconds s) (last_activity_unix s)
    (total_messages_sent s) (total_messages_received s).
Definition set_send_ratchet_epoch (v : Z) (s : t) : t :=
  mk (version s) (is_initiator s) (created_at s) (session_id s) (state_counter s) v
    (recv_ratchet_epoch s) (root_key s) (send_chain s) (recv_chain s) (dh_local s)
    (dh_remote_public s) (dh_local_initial_public s) (dh_remote_initial_public s) (metadata_key s)
    (kyber_local s) (kyber_remote_public s) (nonce_generator s) (state_hmac s)
    (max_messages_per_chain s) (max_nonce_counter s) (local_identity_ed25519_public s)
    (local_identity_x25519_public s) (peer_identity_ed25519_public s)
    (peer_identity_x25519_public s) (identity_binding_hash s) (replay_epoch s)
    (seen_payload_nonces s) (send_ratchet_pending s) (skipped_keys s) (cached_metadata_keys s)
    (send_metadata_key s) (device_id s) (session_ttl_seconds s) (last_activity_unix s)
    (total_messages_sent s) (total_messages_received s).
Definition set_recv_ratchet_epoch (v : Z) (s : t) : t :=
  mk (version s) (is_initiator s) (created_at s) (session_id s) (state_counter s)
    (send_ratchet_epoch s) v (root_key s) (send_chain s) (recv_chain s) (dh_local s)
    (dh_remote_public s) (dh_local_initial_public s) (dh_remote_initial_public s) (metadata_key s)
    (kyber_local s) (kyber_remote_public s) (nonce_generator s) (state_hmac s)
    (max_messages_per_chain s) (max_nonce_counter s) (local_identity_ed25519_public s)
    (local_identity_x25519_public s) (peer_identity_ed25519_public s)
    (peer_identity_x25519_public s) (identity_binding_hash s) (replay_epoch s)
    (seen_payload_nonces s) (send_ratchet_pending s) (skipped_keys s) (cached_metadata_keys s)
    (send_metadata_key s) (device_id s) (session_ttl_seconds s) (last_activity_unix s)
    (total_messages_sent s) (total_messages_received s).
Definition set_root_key (v : bytes) (s : t) : t :=
  mk (version s) (is_initiator s) (created_at s) (session_id s) (state_counter s)
    (send_ratchet_epoch s) (recv_ratchet_epoch s) v (send_chain s) (recv_chain s) (dh_local s)
    (dh_remote_public s) (dh_local_initial_public s) (dh_remote_initial_public s) (metadata_key s)
    (kyber_local s) (kyber_remote_public s) (nonce_generator s) (state_hmac s)
    (max_messages_per_chain s) (max_nonce_counter s) (local_identity_ed25519_public s)
    (local_identity_x25519_public s) (peer_identity_ed25519_public s)
    (peer_identity_x25519_public s) (identity_binding_hash s) (replay_epoch s)
    (seen_payload_nonces s) (send_ratchet_pending s) (skipped_keys s) (cached_metadata_keys s)
    (send_metadata_key s) (device_id s) (session_ttl_seconds s) (last_activity_unix s)
    (total_messages_sent s) (total_messages_received s).
Definition set_send_chain (v : option ChainState.t) (s : t) : t :=
  mk (version s) (is_initiator s) (created_at s) (session_id s) (state_counter s)
    (send_ratchet_epoch s) (recv_ratchet_epoch s) (root_key s) v (recv_chain s) (dh_local s)
    (dh_remote_public s) (dh_local_initial_public s) (dh_remote_initial_public s) (metadata_key s)
    (kyber_local s) (kyber_remote_public s) (nonce_generator s) (state_hmac s)
    (max_messages_per_chain s) (max_nonce_counter s) (local_identity_ed25519_public s)
    (local_identity_x25519_public s) (peer_identity_ed25519_public s)
    (peer_identity_x25519_public s) (identity_binding_hash s) (replay_epoch s)
    (seen_payload_nonces s) (send_ratchet_pending s) (skipped_keys s) (cached_metadata_keys s)
    (send_metadata_key s) (device_id s) (session_ttl_seconds s) (last_activity_unix s)
    (total_messages_sent s) (total_messages_received s).
Definition set_recv_chain (v : option ChainState.t) (s : t) : t :=
  mk (version s) (is_initiator s) (created_at s) (session_id s) (state_counter s)
    (send_ratchet_epoch s) (recv_ratchet_epoch s) (root_key s) (send_chain s) v (dh_local s)
    (dh_remote_public s) (dh_local_initial_public s) (dh_remote_initial_public s) (metadata_key s)
    (kyber_local s) (kyber_remote_public s) (nonce_generator s) (state_hmac s)
    (max_messages_per_chain s) (max_nonce_counter s) (local_identity_ed25519_public s)
    (local_identity_x25519_public s) (peer_identity_ed25519_public s)
    (peer_identity_x25519_public s) (identity_binding_hash s) (replay_epoch s)
    (seen_payload_nonces s) (send_ratchet_pending s) (skipped_keys s) (cached_metadata_keys s)
    (send_metadata_key s) (device_id s) (session_ttl_seconds s) (last_activity_unix s)
    (total_messages_sent s) (total_messages_received s).
Definition set_dh_local (v : option DhKeyPair.t) (s : t) : t :=
  mk (version s) (is_initiator s) (created_at s) (session_id s) (state_counter s)
    (send_ratchet_epoch s) (recv_ratchet_epoch s) (root_key s) (send_chain s) (recv_chain s) v
    (dh_remote_public s) (dh_local_initial_public s) (dh_remote_initial_public s) (metadata_key s)
    (kyber_local s) (kyber_remote_public s) (nonce_generator s) (state_hmac s)
    (max_messages_per_chain s) (max_nonce_counter s) (local_identity_ed25519_public s)
    (local_identity_x25519_public s) (peer_identity_ed25519_public s)
    (peer_identity_x25519_public s) (identity_binding_hash s) (replay_epoch s)
    (seen_payload_nonces s) (send_ratchet_pending s) (skipped_keys s) (cached_metadata_keys s)
    (send_metadata_key s) (device_id s) (session_ttl_seconds s) (last_activity_unix s)
    (total_messages_sent s) (total_messages_received s).
Definition set_dh_remote_public (v : bytes) (s : t) : t :=
  mk (version s) (is_initiator s) (created_at s) (session_id s) (state_counter s)
    (send_ratchet_epoch s) (recv_ratchet_epoch s) (root_key s) (send_chain s) (recv_chain s)
    (dh_local s) v (dh_local_initial_public s) (dh_remote_initial_public s) (metadata_key s)
    (kyber_local s) (kyber_remote_public s) (nonce_generator s) (state_hmac s)
    (max_messages_per_chain s) (max_nonce_counter s) (local_identity_ed25519_public s)
    (local_identity_x25519_public s) (peer_identity_ed25519_public s)
    (peer_identity_x25519_public s) (identity_binding_hash s) (replay_epoch s)
    (seen_payload_nonces s) (send_ratchet_pending s) (skipped_keys s) (cached_metadata_keys s)
    (send_metadata_key s) (device_id s) (session_ttl_seconds s) (last_activity_unix s)
    (total_messages_sent s) (total_messages_received s).
Definition set_dh_local_initial_public (v : bytes) (s : t) : t :=
  mk (version s) (is_initiator s) (created_at s) (session_id s) (state_counter s)
    (send_ratchet_epoch s) (recv_ratchet_epoch s) (root_key s) (send_chain s) (recv_chain s)
    (dh_local s) (dh_remote_public s) v (dh_remote_initial_public s) (metadata_key s)
    (kyber_local s) (kyber_remote_public s) (nonce_generator s) (state_hmac s)
    (max_messages_per_chain s) (max_nonce_counter s) (local_identity_ed25519_public s)
    (local_identity_x25519_public s) (peer_identity_ed25519_public s)
    (peer_identity_x25519_public s) (identity_binding_hash s) (replay_epoch s)
    (seen_payload_nonces s) (send_ratchet_pending s) (skipped_keys s) (cached_metadata_keys s)
    (send_metadata_key s) (device_id s) (session_ttl_seconds s) (last_activity_unix s)
    (total_messages_sent s) (total_messages_received s).
Definition set_dh_remote_initial_public (v : bytes) (s : t) : t :=
  mk (version s) (is_initiator s) (created_at s) (session_id s) (state_counter s)
    (send_ratchet_epoch s) (recv_ratchet_epoch s) (root_key s) (send_chain s) (recv_chain s)
    (dh_local s) (dh_remote_public s) (dh_local_initial_public s) v (metadata_key s)
    (kyber_local s) (kyber_remote_public s) (nonce_generator s) (state_hmac s)
    (max_messages_per_chain s) (max_nonce_counter s) (local_identity_ed25519_public s)
    (local_identity_x25519_public s) (peer_identity_ed25519_public s)
    (peer_identity_x25519_public s) (identity_binding_hash s) (replay_epoch s)
    (seen_payload_nonces s) (send_ratchet_pending s) (skipped_keys s) (cached_metadata_keys s)
    (send_metadata_key s) (device_id s) (session_ttl_seconds s) (last_activity_unix s)
    (total_messages_sent s) (total_messages_received s).
Definition set_metadata_key (v : bytes) (s : t) : t :=
  mk (version s) (is_initiator s) (created_at s) (session_id s) (state_counter s)
    (send_ratchet_epoch s) (recv_ratchet_epoch s) (root_key s) (send_chain s) (recv_chain s)
    (dh_local s) (dh_remote_public s) (dh_local_initial_public s) (dh_remote_initial_public s) v
    (kyber_local s) (kyber_remote_public s) (nonce_generator s) (state_hmac s)
    (max_messages_per_chain s) (max_nonce_counter s) (local_identity_ed25519_public s)
    (local_identity_x25519_public s) (peer_identity_ed25519_public s)
    (peer_identity_x25519_public s) (identity_binding_hash s) (replay_epoch s)
    (seen_payload_nonces s) (send_ratchet_pending s) (skipped_keys s) (cached_metadata_keys s)
    (send_metadata_key s) (device_id s) (session_ttl_seconds s) (last_activity_unix s)
    (total_messages_sent s) (total_messages_received s).
Definition set_kyber_local (v : option KyberKeyPair.t) (s : t) : t :=
  mk (version s) (is_initiator s) (created_at s) (session_id s) (state_counter s)
    (send_ratchet_epoch s) (recv_ratchet_epoch s) (root_key s) (send_chain s) (recv_chain s)
    (dh_local s) (dh_remote_public s) (dh_local_initial_public s) (dh_remote_initial_public s)
    (metadata_key s) v (kyber_remote_public s) (nonce_generator s) (state_hmac s)
    (max_messages_per_chain s) (max_nonce_counter s) (local_identity_ed25519_public s)
    (local_identity_x25519_public s) (peer_identity_ed25519_public s)
    (peer_identity_x25519_public s) (identity_binding_hash s) (replay_epoch s)
    (seen_payload_nonces s) (send_ratchet_pending s) (skipped_keys s) (cached_metadata_keys s)
    (send_metadata_key s) (device_id s) (session_ttl_seconds s) (last_activity_unix s)
    (total_messages_sent s) (total_messages_received s).
Definition set_kyber_remote_public (v : bytes) (s : t) : t :=
  mk (version s) (is_initiator s) (created_at s) (session_id s) (state_counter s)
    (send_ratchet_epoch s) (recv_ratchet_epoch s) (root_key s) (send_chain s) (recv_chain s)
    (dh_local s) (dh_remote_public s) (dh_local_initial_public s) (dh_remote_initial_public s)
    (metadata_key s) (kyber_local s) v (nonce_generator s) (state_hmac s)
    (max_messages_per_chain s) (max_nonce_counter s) (local_identity_ed25519_public s)
    (local_identity_x25519_public s) (peer_identity_ed25519_public s)
    (peer_identity_x25519_public s) (identity_binding_hash s) (replay_epoch s)
    (seen_payload_nonces s) (send_ratchet_pending s) (skipped_keys s) (cached_metadata_keys s)
    (send_metadata_key s) (device_id s) (session_ttl_seconds s) (last_activity_unix s)
    (total_messages_sent s) (total_messages_received s).
Definition set_nonce_generator (v : option NonceStateProto.t) (s : t) : t :=
  mk (version s) (is_initiator s) (created_at s) (session_id s) (state_counter s)
    (send_ratchet_epoch s) (recv_ratchet_epoch s) (root_key s) (send_chain s) (recv_chain s)
    (dh_local s) (dh_remote_public s) (dh_local_initial_public s) (dh_remote_initial_public s)
    (metadata_key s) (kyber_local s) (kyber_remote_public s) v (state_hmac s)
    (max_messages_per_chain s) (max_nonce_counter s) (local_identity_ed25519_public s)
    (local_identity_x25519_public s) (peer_identity_ed25519_public s)
    (peer_identity_x25519_public s) (identity_binding_hash s) (replay_epoch s)
    (seen_payload_nonces s) (send_ratchet_pending s) (skipped_keys s) (cached_metadata_keys s)
    (send_metadata_key s) (device_id s) (session_ttl_seconds s) (last_activity_unix s)
    (total_messages_sent s) (total_messages_received s).
Definition set_state_hmac (v : bytes) (s : t) : t :=
  mk (version s) (is_initiator s) (created_at s) (session_id s) (state_counter s)
    (send_ratchet_epoch s) (recv_ratchet_epoch s) (root_key s) (send_chain s) (recv_chain s)
    (dh_local s) (dh_remote_public s) (dh_local_initial_public s) (dh_remote_initial_public s)
    (metadata_key s) (kyber_local s) (kyber_remote_public s) (nonce_generator s) v
    (max_messages_per_chain s) (max_nonce_counter s) (local_identity_ed25519_public s)
    (local_identity_x25519_public s) (peer_identity_ed25519_public s)
    (peer_identity_x25519_public s) (identity_binding_hash s) (replay_epoch s)
    (seen_payload_nonces s) (send_ratchet_pending s) (skipped_keys s) (cached_metadata_keys s)
    (send_metadata_key s) (device_id s) (session_ttl_seconds s) (last_activity_unix s)
    (total_messages_sent s) (total_messages_received s).
Definition set_max_messages_per_chain (v : Z) (s : t) : t :=
  mk (version s) (is_initiator s) (created_at s) (session_id s) (state_counter s)
    (send_ratchet_epoch s) (recv_ratchet_epoch s) (root_key s) (send_chain s) (recv_chain s)
    (dh_local s) (dh_remote_public s) (dh_local_initial_public s) (dh_remote_initial_public s)
    (metadata_key s) (kyber_local s) (kyber_remote_public s) (nonce_generator s) (state_hmac s) v
    (max_nonce_counter s) (local_identity_ed25519_public s) (local_identity_x25519_public s)
    (peer_identity_ed25519_public s) (peer_identity_x25519_public s) (identity_binding_hash s)
    (replay_epoch s) (seen_payload_nonces s) (send_ratchet_pending s) (skipped_keys s)
    (cached_metadata_keys s) (send_metadata_key s) (device_id s) (session_ttl_seconds s)
    (last_activity_unix s) (total_messages_sent s) (total_messages_received s).
Definition set_max_nonce_counter (v : Z) (s : t) : t :=
  mk (version s) (is_initiator s) (created_at s) (session_id s) (state_counter s)
    (send_ratchet_epoch s) (recv_ratchet_epoch s) (root_key s) (send_chain s) (recv_chain s)
    (dh_local s) (dh_remote_public s) (dh_local_initial_public s) (dh_remote_initial_public s)
    (metadata_key s) (kyber_local s) (kyber_remote_public s) (nonce_generator s) (state_hmac s)
    (max_messages_per_chain s) v (local_identity_ed25519_public s)
    (local_identity_x25519_public s) (peer_identity_ed25519_public s)
    (peer_identity_x25519_public s) (identity_binding_hash s) (replay_epoch s)
    (seen_payload_nonces s) (send_ratchet_pending s) (skipped_keys s) (cached_metadata_keys s)
    (send_metadata_key s) (device_id s) (session_ttl_seconds s) (last_activity_unix s)
    (total_messages_sent s) (total_messages_received s).
Definition set_local_identity_ed25519_public (v : bytes) (s : t) : t :=
  mk (version s) (is_initiator s) (created_at s) (session_id s) (state_counter s)
    (send_ratchet_epoch s) (recv_ratchet_epoch s) (root_key s) (send_chain s) (recv_chain s)
    (dh_local s) (dh_remote_public s) (dh_local_initial_public s) (dh_remote_initial_public s)
    (metadata_key s) (kyber_local s) (kyber_remote_public s) (nonce_generator s) (state_hmac s)
    (max_messages_per_chain s) (max_nonce_counter s) v (local_identity_x25519_public s)
    (peer_identity_ed25519_public s) (peer_identity_x25519_public s) (identity_binding_hash s)
    (replay_epoch s) (seen_payload_nonces s) (send_ratchet_pending s) (skipped_keys s)
    (cached_metadata_keys s) (send_metadata_key s) (device_id s) (session_ttl_seconds s)
    (last_activity_unix s) (total_messages_sent s) (total_messages_received s).
Definition set_local_identity_x25519_public (v : bytes) (s : t) : t :=
  mk (version s) (is_initiator s) (created_at s) (session_id s) (state_counter s)
    (send_ratchet_epoch s) (recv_ratchet_epoch s) (root_key s) (send_chain s) (recv_chain s)
    (dh_local s) (dh_remote_public s) (dh_local_initial_public s) (dh_remote_initial_public s)
    (metadata_key s) (kyber_local s) (kyber_remote_public s) (nonce_generator s) (state_hmac s)
    (max_messages_per_chain s) (max_nonce_counter s) (local_identity_ed25519_public s) v
    (peer_identity_ed25519_public s) (peer_identity_x25519_public s) (identity_binding_hash s)
    (replay_epoch s) (seen_payload_nonces s) (send_ratchet_pending s) (skipped_keys s)
    (cached_metadata_keys s) (send_metadata_key s) (device_id s) (session_ttl_seconds s)
    (last_activity_unix s) (total_messages_sent s) (total_messages_received s).
Definition set_peer_identity_ed25519_public (v : bytes) (s : t) : t :=
  mk (version s) (is_initiator s) (created_at s) (session_id s) (state_counter s)
    (send_ratchet_epoch s) (recv_ratchet_epoch s) (root_key s) (send_chain s) (recv_chain s)
    (dh_local s) (dh_remote_public s) (dh_local_initial_public s) (dh_remote_initial_public s)
    (metadata_key s) (kyber_local s) (kyber_remote_public s) (nonce_generator s) (state_hmac s)
    (max_messages_per_chain s) (max_nonce_counter s) (local_identity_ed25519_public s)
    (local_identity_x25519_public s) v (peer_identity_x25519_public s) (identity_binding_hash s)
    (replay_epoch s) (seen_payload_nonces s) (send_ratchet_pending s) (skipped_keys s)
    (cached_metadata_keys s) (send_metadata_key s) (device_id s) (session_ttl_seconds s)
    (last_activity_unix s) (total_messages_sent s) (total_messages_received s).
Definition set_peer_identity_x25519_public (v : bytes) (s : t) : t :=
  mk (version s) (is_initiator s) (created_at s) (session_id s) (state_counter s)
    (send_ratchet_epoch s) (recv_ratchet_epoch s) (root_key s) (send_chain s) (recv_chain s)
    (dh_local s) (dh_remote_public s) (dh_local_initial_public s) (dh_remote_initial_public s)
    (metadata_key s) (kyber_local s) (kyber_remote_public s) (nonce_generator s) (state_hmac s)
    (max_messages_per_chain s) (max_nonce_counter s) (local_identity_ed25519_public s)
    (local_identity_x25519_public s) (peer_identity_ed25519_public s) v (identity_binding_hash s)
    (replay_epoch s) (seen_payload_nonces s) (send_ratchet_pending s) (skipped_keys s)
    (cached_metadata_keys s) (send_metadata_key s) (device_id s) (session_ttl_seconds s)
    (last_activity_unix s) (total_messages_sent s) (total_messages_received s).
Definition set_identity_binding_hash (v : bytes) (s : t) : t :=
  mk (version s) (is_initiator s) (created_at s) (session_id s) (state_counter s)
    (send_ratchet_epoch s) (recv_ratchet_epoch s) (root_key s) (send_chain s) (recv_chain s)
    (dh_local s) (dh_remote_public s) (dh_local_initial_public s) (dh_remote_initial_public s)
    (metadata_key s) (kyber_local s) (kyber_remote_public s) (nonce_generator s) (state_hmac s)
    (max_messages_per_chain s) (max_nonce_counter s) (local_identity_ed25519_public s)
    (local_identity_x25519_public s) (peer_identity_ed25519_public s)
    (peer_identity_x25519_public s) v (replay_epoch s) (seen_payload_nonces s)
    (send_ratchet_pending s) (skipped_keys s) (cached_metadata_keys s) (send_metadata_key s)
    (device_id s) (session_ttl_seconds s) (last_activity_unix s) (total_messages_sent s)
    (total_messages_received s).
Definition set_replay_epoch (v : Z) (s : t) : t :=
  mk (version s) (is_initiator s) (created_at s) (session_id s) (state_counter s)
    (send_ratchet_epoch s) (recv_ratchet_epoch s) (root_key s) (send_chain s) (recv_chain s)
    (dh_local s) (dh_remote_public s) (dh_local_initial_public s) (dh_remote_initial_public s)
    (metadata_key s) (kyber_local s) (kyber_remote_public s) (nonce_generator s) (state_hmac s)
    (max_messages_per_chain s) (max_nonce_counter s) (local_identity_ed25519_public s)
    (local_identity_x25519_public s) (peer_identity_ed25519_public s)
    (peer_identity_x25519_public s) (identity_binding_hash s) v (seen_payload_nonces s)
    (send_ratchet_pending s) (skipped_keys s) (cached_metadata_keys s) (send_metadata_key s)
    (device_id s) (session_ttl_seconds s) (last_activity_unix s) (total_messages_sent s)
    (total_messages_received s).
Definition set_seen_payload_nonces (v : list bytes) (s : t) : t :=
  mk (version s) (is_initiator s) (created_at s) (session_id s) (state_counter s)
    (send_ratchet_epoch s) (recv_ratchet_epoch s) (root_key s) (send_chain s) (recv_chain s)
    (dh_local s) (dh_remote_public s) (dh_local_initial_public s) (dh_remote_initial_public s)
    (metadata_key s) (kyber_local s) (kyber_remote_public s) (nonce_generator s) (state_hmac s)
    (max_messages_per_chain s) (max_nonce_counter s) (local_identity_ed25519_public s)
    (local_identity_x25519_public s) (peer_identity_ed25519_public s)
    (peer_identity_x25519_public s) (identity_binding_hash s) (replay_epoch s) v
    (send_ratchet_pending s) (skipped_keys s) (cached_metadata_keys s) (send_metadata_key s)
    (device_id s) (session_ttl_seconds s) (last_activity_unix s) (total_messages_sent s)
    (total_messages_received s).
Definition set_send_ratchet_pending (v : bool) (s : t) : t :=
  mk (version s) (is_initiator s) (created_at s) (session_id s) (state_counter s)
    (send_ratchet_epoch s) (recv_ratchet_epoch s) (root_key s) (send_chain s) (recv_chain s)
    (dh_local s) (dh_remote_public s) (dh_local_initial_public s) (dh_remote_initial_public s)
    (metadata_key s) (kyber_local s) (kyber_remote_public s) (nonce_generator s) (state_hmac s)
    (max_messages_per_chain s) (max_nonce_counter s) (local_identity_ed25519_public s)
    (local_identity_x25519_public s) (peer_identity_ed25519_public s)
    (peer_identity_x25519_public s) (identity_binding_hash s) (replay_epoch s)
    (seen_payload_nonces s) v (skipped_keys s) (cached_metadata_keys s) (send_metadata_key s)
    (device_id s) (session_ttl_seconds s) (last_activity_unix s) (total_messages_sent s)
    (total_messages_received s).
Definition set_skipped_keys (v : list CachedMessageKey.t) (s : t) : t :=
  mk (version s) (is_initiator s) (created_at s) (session_id s) (state_counter s)
    (send_ratchet_epoch s) (recv_ratchet_epoch s) (root_key s) (send_chain s) (recv_chain s)
    (dh_local s) (dh_remote_public s) (dh_local_initial_public s) (dh_remote_initial_public s)
    (metadata_key s) (kyber_local s) (kyber_remote_public s) (nonce_generator s) (state_hmac s)
    (max_messages_per_chain s) (max_nonce_counter s) (local_identity_ed25519_public s)
    (local_identity_x25519_public s) (peer_identity_ed25519_public s)
    (peer_identity_x25519_public s) (identity_binding_hash s) (replay_epoch s)
    (seen_payload_nonces s) (send_ratchet_pending s) v (cached_metadata_keys s)
    (send_metadata_key s) (device_id s) (session_ttl_seconds s) (last_activity_unix s)
    (total_messages_sent s) (total_messages_received s).
Definition set_cached_metadata_keys (v : list CachedMetadataKey.t) (s : t) : t :=
  mk (version s) (is_initiator s) (created_at s) (session_id s) (state_counter s)
    (send_ratchet_epoch s) (recv_ratchet_epoch s) (root_key s) (send_chain s) (recv_chain s)
    (dh_local s) (dh_remote_public s) (dh_local_initial_public s) (dh_remote_initial_public s)
    (metadata_key s) (kyber_local s) (kyber_remote_public s) (nonce_generator s) (state_hmac s)
    (max_messages_per_chain s) (max_nonce_counter s) (local_identity_ed25519_public s)
    (local_identity_x25519_public s) (peer_identity_ed25519_public s)
    (peer_identity_x25519_public s) (identity_binding_hash s) (replay_epoch s)
    (seen_payload_nonces s) (send_ratchet_pending s) (skipped_keys s) v (send_metadata_key s)
    (device_id s) (session_ttl_seconds s) (last_activity_unix s) (total_messages_sent s)
    (total_messages_received s).
Definition set_send_metadata_key (v : bytes) (s : t) : t :=
  mk (version s) (is_initiator s) (created_at s) (session_id s) (state_counter s)
    (send_ratchet_epoch s) (recv_ratchet_epoch s) (root_key s) (send_chain s) (recv_chain s)
    (dh_local s) (dh_remote_public s) (dh_local_initial_public s) (dh_remote_initial_public s)
    (metadata_key s) (kyber_local s) (kyber_remote_public s) (nonce_generator s) (state_hmac s)
    (max_messages_per_chain s) (max_nonce_counter s) (local_identity_ed25519_public s)
    (local_identity_x25519_public s) (peer_identity_ed25519_public s)
    (peer_identity_x25519_public s) (identity_binding_hash s) (replay_epoch s)
    (seen_payload_nonces s) (send_ratchet_pending s) (skipped_keys s) (cached_metadata_keys s) v
    (device_id s) (session_ttl_seconds s) (last_activity_unix s) (total_messages_sent s)
    (total_messages_received s).
Definition set_device_id (v : option bytes) (s : t) : t :=
  mk (version s) (is_initiator s) (created_at s) (session_id s) (state_counter s)
    (send_ratchet_epoch s) (recv_ratchet_epoch s) (root_key s) (send_chain s) (recv_chain s)
    (dh_local s) (dh_remote_public s) (dh_local_initial_public s) (dh_remote_initial_public s)
    (metadata_key s) (kyber_local s) (kyber_remote_public s) (nonce_generator s) (state_hmac s)
    (max_messages_per_chain s) (max_nonce_counter s) (local_identity_ed25519_public s)
    (local_identity_x25519_public s) (peer_identity_ed25519_public s)
    (peer_identity_x25519_public s) (identity_binding_hash s) (replay_epoch s)
    (seen_payload_nonces s) (send_ratchet_pending s) (skipped_keys s) (cached_metadata_keys s)
    (send_metadata_key s) v (session_ttl_seconds s) (last_activity_unix s) (total_messages_sent s)
    (total_messages_received s).
Definition set_session_ttl_seconds (v : option Z) (s : t) : t :=
  mk (version s) (is_initiator s) (created_at s) (session_id s) (state_counter s)
    (send_ratchet_epoch s) (recv_ratchet_epoch s) (root_key s) (send_chain s) (recv_chain s)
    (dh_local s) (dh_remote_public s) (dh_local_initial_public s) (dh_remote_initial_public s)
    (metadata_key s) (kyber_local s) (kyber_remote_public s) (nonce_generator s) (state_hmac s)
    (max_messages_per_chain s) (max_nonce_counter s) (local_identity_ed25519_public s)
    (local_identity_x25519_public s) (peer_identity_ed25519_public s)
    (peer_identity_x25519_public s) (identity_binding_hash s) (replay_epoch s)
    (seen_payload_nonces s) (send_ratchet_pending s) (skipped_keys s) (cached_metadata_keys s)
    (send_metadata_key s) (device_id s) v (last_activity_unix s) (total_messages_sent s)
    (total_messages_received s).
Definition set_last_activity_unix (v : option Z) (s : t) : t :=
  mk (version s) (is_initiator s) (created_at s) (session_id s) (state_counter s)
    (send_ratchet_epoch s) (recv_ratchet_epoch s) (root_key s) (send_chain s) (recv_chain s)
    (dh_local s) (dh_remote_public s) (dh_local_initial_public s) (dh_remote_initial_public s)
    (metadata_key s) (kyber_local s) (kyber_remote_public s) (nonce_generator s) (state_hmac s)
    (max_messages_per_chain s) (max_nonce_counter s) (local_identity_ed25519_public s)
    (local_identity_x25519_public s) (peer_identity_ed25519_public s)
    (peer_identity_x25519_public s) (identity_binding_hash s) (replay_epoch s)
    (seen_payload_nonces s) (send_ratchet_pending s) (skipped_keys s) (cached_metadata_keys s)
    (send_metadata_key s) (device_id s) (session_ttl_seconds s) v (total_messages_sent s)
    (total_messages_received s).
Definition set_total_messages_sent (v : Z) (s : t) : t :=
  mk (version s) (is_initiator s) (created_at s) (session_id s) (state_counter s)
    (send_ratchet_epoch s) (recv_ratchet_epoch s) (root_key s) (send_chain s) (recv_chain s)
    (dh_local s) (dh_remote_public s) (dh_local_initial_public s) (dh_remote_initial_public s)
    (metadata_key s) (kyber_local s) (kyber_remote_public s) (nonce_generator s) (state_hmac s)
    (max_messages_per_chain s) (max_nonce_counter s) (local_identity_ed25519_public s)
    (local_identity_x25519_public s) (peer_identity_ed25519_public s)
    (peer_identity_x25519_public s) (identity_binding_hash s) (replay_epoch s)
    (seen_payload_nonces s) (send_ratchet_pending s) (skipped_keys s) (cached_metadata_keys s)
    (send_metadata_key s) (device_id s) (session_ttl_seconds s) (last_activity_unix s) v
    (total_messages_received s).
Definition set_total_messages_received (v : Z) (s : t) : t :=
  mk (version s) (is_initiator s) (created_at s) (session_id s) (state_counter s)
    (send_ratchet_epoch s) (recv_ratchet_epoch s) (root_key s) (send_chain s) (recv_chain s)
    (dh_local s) (dh_remote_public s) (dh_local_initial_public s) (dh_remote_initial_public s)
    (metadata_key s) (kyber_local s) (kyber_remote_public s) (nonce_generator s) (state_hmac s)
    (max_messages_per_chain s) (max_nonce_counter s) (local_identity_ed25519_public s)
    (local_identity_x25519_public s) (peer_identity_ed25519_public s)
    (peer_identity_x25519_public s) (identity_binding_hash s) (replay_epoch s)
    (seen_payload_nonces s) (send_ratchet_pending s) (skipped_keys s) (cached_metadata_keys s)
    (send_metadata_key s) (device_id s) (session_ttl_seconds s) (last_activity_unix s)
    (total_messages_sent s) v.

End ProtocolState.

(** A message on the wire. *)
Module SecureEnvelope.

Record t : Type := mk {
  version : Z;
  encrypted_metadata : bytes;
  encrypted_payload : bytes;
  header_nonce : bytes;
  ratchet_epoch : Z;
  dh_public_key : option bytes;
  kyber_ciphertext : option bytes;
  sent_at : option Timestamp.t;
  new_kyber_public : option bytes;
  previous_chain_length : option Z }.

Definition set_version (v : Z) (s : t) : t :=
  mk v (encrypted_metadata s) (encrypted_payload s) (header_nonce s) (ratchet_epoch s)
    (dh_public_key s) (kyber_ciphertext s) (sent_at s) (new_kyber_public s)
    (previous_chain_length s).
Definition set_encrypted_metadata (v : bytes) (s : t) : t :=
  mk (version s) v (encrypted_payload s) (header_nonce s) (ratchet_epoch s) (dh_public_key s)
    (kyber_ciphertext s) (sent_at s) (new_kyber_public s) (previous_chain_length s).
Definition set_encrypted_payload (v : bytes) (s : t) : t :=
  mk (version s) (encrypted_metadata s) v (header_nonce s) (ratchet_epoch s) (dh_public_key s)
    (kyber_ciphertext s) (sent_at s) (new_kyber_public s) (previous_chain_length s).
Definition set_header_nonce (v : bytes) (s : t) : t :=
  mk (version s) (encrypted_metadata s) (encrypted_payload s) v (ratchet_epoch s)
    (dh_public_key s) (kyber_ciphertext s) (sent_at s) (new_kyber_public s)
    (previous_chain_length s).
Definition set_ratchet_epoch (v : Z) (s : t) : t :=
  mk (version s) (encrypted_metadata s) (encrypted_payload s) (header_nonce s) v (dh_public_key s)
    (kyber_ciphertext s) (sent_at s) (new_kyber_public s) (previous_chain_length s).
Definition set_dh_public_key (v : option bytes) (s : t) : t :=
  mk (version s) (encrypted_metadata s) (encrypted_payload s) (header_nonce s) (ratchet_epoch s) v
    (kyber_ciphertext s) (sent_at s) (new_kyber_public s) (previous_chain_length s).
Definition set_kyber_ciphertext (v : option bytes) (s : t) : t :=
  mk (version s) (encrypted_metadata s) (encrypted_payload s) (header_nonce s) (ratchet_epoch s)
    (dh_public_key s) v (sent_at s) (new_kyber_public s) (previous_chain_length s).
Definition set_sent_at (v : option Timestamp.t) (s : t) : t :=
  mk (version s) (encrypted_metadata s) (encrypted_payload s) (header_nonce s) (ratchet_epoch s)
    (dh_public_key s) (kyber_ciphertext s) v (new_kyber_public s) (previous_chain_length s).
Definition set_new_kyber_public (v : option bytes) (s : t) : t :=
  mk (version s) (encrypted_metadata s) (encrypted_payload s) (header_nonce s) (ratchet_epoch s)
    (dh_public_key s) (kyber_ciphertext s) (sent_at s) v (previous_chain_length s).
Definition set_previous_chain_length (v : option Z) (s : t) : t :=
  mk (version s) (encrypted_metadata s) (encrypted_payload s) (header_nonce s) (ratchet_epoch s)
    (dh_public_key s) (kyber_ciphertext s) (sent_at s) (new_kyber_public s) v.

End SecureEnvelope.

(** The encrypted header of a message. *)
Module EnvelopeMetadata.

Record t : Type := mk {
  message_index : Z;
  payload_nonce : bytes;
  envelope_type : Z;
  envelope_id : Z;
  correlation_id : option string }.

End EnvelopeMetadata.

(** The sealed session state. *)
Module SealedState.

Record t : Type := mk {
  version : Z;
  dek_nonce : bytes;
  state_nonce : bytes;
  encrypted_dek : bytes;
  encrypted_state : bytes;
  external_counter : Z }.

End SealedState.

(** The values an [EnvelopeMetadata] of the Rust type can have. *)
Definition metadata_wf (m : EnvelopeMetadata.t) : Prop :=
  is_u64 (EnvelopeMetadata.message_index m) /\ bytes_ok (EnvelopeMetadata.payload_nonce m) /\
  - 2 ^ 31 <= EnvelopeMetadata.envelope_type m < 2 ^ 31 /\ is_u32 (EnvelopeMetadata.envelope_id m).

(** ** The values the other messages of the Rust types can have *)

Definition ok_u32 (z : Z) : bool := (0 <=? z) && (z <? 2 ^ 32).
Definition ok_u64 (z : Z) : bool := (0 <=? z) && (z <? 2 ^ 64).
Definition ok_bytes (l : bytes) : bool := forallb (fun x => (0 <=? x) && (x <? 256)) l.
Definition ok_opt {A} (f : A -> bool) (o : option A) : bool := match o with Some a => f a | None => true end.

Definition timestamp_wf (t : Timestamp.t) : bool :=
  (- 2 ^ 63 <=? Timestamp.seconds t) && (Timestamp.seconds t <? 2 ^ 63) &&
  (- 2 ^ 31 <=? Timestamp.nanos t) && (Timestamp.nanos t <? 2 ^ 31).

Definition message_key_wf (k : CachedMessageKey.t) : bool :=
  ok_u64 (CachedMessageKey.message_index k) && ok_bytes (CachedMessageKey.message_key k) &&
  ok_u64 (CachedMessageKey.epoch k).

Definition metadata_key_wf (k : CachedMetadataKey.t) : bool :=
  ok_u64 (CachedMetadataKey.epoch k) && ok_bytes (CachedMetadataKey.metadata_key k).

Definition chain_wf (c : ChainState.t) : bool :=
  ok_u64 (ChainState.message_index c) && ok_bytes (ChainState.chain_key c) &&
  forallb message_key_wf (ChainState.skipped_message_keys c).

Definition state_wf (s : ProtocolState.t) : bool :=
  ok_u32 (ProtocolState.version s) && ok_opt timestamp_wf (ProtocolState.created_at s) &&
  ok_bytes (ProtocolState.session_id s) && ok_u64 (ProtocolState.state_counter s) &&
  ok_u64 (ProtocolState.send_ratchet_epoch s) && ok_u64 (ProtocolState.recv_ratchet_epoch s) &&
  ok_bytes (ProtocolState.root_key s) && ok_opt chain_wf (ProtocolState.send_chain s) &&
  ok_opt chain_wf (ProtocolState.recv_chain s) &&
  ok_opt (fun p => ok_bytes (DhKeyPair.private_key p) && ok_bytes (DhKeyPair.public_key p))
    (ProtocolState.dh_local s) &&
  ok_bytes (ProtocolState.dh_remote_public s) && ok_bytes (ProtocolState.dh_local_initial_public s) &&
  ok_bytes (ProtocolState.dh_remote_initial_public s) && ok_bytes (ProtocolState.metadata_key s) &&
  ok_opt (fun p => ok_bytes (KyberKeyPair.secret_key p) && ok_bytes (KyberKeyPair.public_key p))
    (ProtocolState.kyber_local s) &&
  ok_bytes (ProtocolState.kyber_remote_public s) &&
  ok_opt (fun n => ok_bytes (NonceStateProto.prefix n) && ok_u64 (NonceStateProto.counter n))
    (ProtocolState.nonce_generator s) &&
  ok_bytes (ProtocolState.state_hmac s) && ok_u32 (ProtocolState.max_messages_per_chain s) &&
  ok_u64 (ProtocolState.max_nonce_counter s) && ok_bytes (ProtocolState.local_identity_ed25519_public s) &&
  ok_bytes (ProtocolState.local_identity_x25519_public s) &&
  ok_bytes (ProtocolState.peer_identity_ed25519_public s) &&
  ok_bytes (ProtocolState.peer_identity_x25519_public s) && ok_bytes (ProtocolState.identity_binding_hash s) &&
  ok_u64 (ProtocolState.replay_epoch s) && forallb ok_bytes (ProtocolState.seen_payload_nonces s) &&
  forallb message_key_wf (ProtocolState.skipped_keys s) &&
  forallb metadata_key_wf (ProtocolState.cached_metadata_keys s) && ok_bytes (ProtocolState.send_metadata_key s) &&
  ok_opt ok_bytes (ProtocolState.device_id s) && ok_opt ok_u64 (ProtocolState.session_ttl_seconds s) &&
  ok_opt ok_u64 (ProtocolState.last_activity_unix s) && ok_u64 (ProtocolState.total_messages_sent s) &&
  ok_u64 (ProtocolState.total_messages_received s).

Definition sealed_wf (s : SealedState.t) : bool :=
  ok_u32 (SealedState.version s) && ok_bytes (SealedState.dek_nonce s) && ok_bytes (SealedState.state_nonce s) &&
  ok_bytes (SealedState.encrypted_dek s) && ok_bytes (SealedState.encrypted_state s) &&
  ok_u64 (SealedState.external_counter s).

(** * Messages of the handshake ([proto/protocol/handshake.proto]) and the sealed replay state

    Records with the fields of the generated structs in the order of the files. *)

(** A one-time pre-key as published. *)
Module OneTimePreKeyMessage.

Record t : Type := mk {
  one_time_pre_key_id : Z;
  public_key : bytes }.

End OneTimePreKeyMessage.

(** The public keys of a responder. *)
Module PreKeyBundle.

Record t : Type := mk {
  version : Z;
  identity_ed25519_public : bytes;
  identity_x25519_public : bytes;
  signed_pre_key_id : Z;
  signed_pre_key_public : bytes;
  signed_pre_key_signature : bytes;
  one_time_pre_keys : list OneTimePreKeyMessage.t;
  kyber_public : bytes;
  identity_x25519_signature : bytes }.

End PreKeyBundle.

(** The first message of a handshake. *)
Module HandshakeInit.

Record t : Type := mk {
  version : Z;
  initiator_identity_ed25519_public : bytes;
  initiator_identity_x25519_public : bytes;
  initiator_ephemeral_x25519_public : bytes;
  one_time_pre_key_id : option Z;
  kyber_ciphertext : bytes;
  key_confirmation_mac : bytes;
  initiator_kyber_public : bytes;
  max_messages_per_chain : Z;
  initiator_identity_binding_signature : bytes }.

Definition set_key_confirmation_mac (v : bytes) (s : t) : t :=
  mk (version s) (initiator_identity_ed25519_public s) (initiator_identity_x25519_public s)
    (initiator_ephemeral_x25519_public s) (one_time_pre_key_id s) (kyber_ciphertext s) v
    (initiator_kyber_public s) (max_messages_per_chain s) (initiator_identity_binding_signature s).

End HandshakeInit.

(** The answer to a [HandshakeInit]. *)
Module HandshakeAck.

Record t : Type := mk {
  version : Z;
  key_confirmation_mac : bytes }.

End HandshakeAck.

(** The sealed replay state of an identity. *)
Module IdentityReplayState.

Record t : Type := mk {
  state_version : Z;
  identity_ed25519_public : bytes;
  remaining_one_time_pre_key_ids : list Z;
  recent_handshake_init_fingerprints : list bytes;
  external_counter : Z }.

End IdentityReplayState.

(** * Messages of the call protocol ([proto/protocol/voip.proto])

    The messages the call code builds and reads, as records with the fields of
    the generated structs in the order of the file, and the values the Rust
    types allow. *)

(** Parameters of a shared screen. *)
Module ScreenShareMetadata.

Record t : Type := mk {
  width : Z;
  height : Z;
  frame_rate : Z;
  codec_hint : option string }.

End ScreenShareMetadata.

(** The signal that ends a call. *)
Module CallEnd.

Record t : Type := mk {
  call_id : bytes;
  device_id : bytes;
  timestamp : Z;
  hmac : bytes }.

End CallEnd.

(** The request for new call keys. *)
Module CallRekey.

Record t : Type := mk {
  call_id : bytes;
  rekey_generation : Z;
  ephemeral_x25519_public : bytes;
  kyber_ciphertext : bytes;
  signature : bytes;
  key_confirmation_mac : bytes }.

End CallRekey.

(** The answer to a [CallRekey]. *)
Module CallRekeyAck.

Record t : Type := mk {
  call_id : bytes;
  rekey_generation : Z;
  ephemeral_x25519_public : bytes;
  kyber_ciphertext : bytes;
  signature : bytes;
  key_confirmation_mac : bytes }.

End CallRekeyAck.

(** Call quality as reported by a client. *)
Module CallQualityMetrics.

Record t : Type := mk {
  timestamp_unix : Z;
  packets_sent : Z;
  packets_received : Z;
  packets_lost : Z;
  jitter_ms : Z;
  round_trip_ms : Z;
  bitrate_kbps : Z;
  audio_level : option Z }.

End CallQualityMetrics.

(** A signed statement about recording. *)
Module RecordingConsentMessage.

Record t : Type := mk {
  call_id : bytes;
  consent : Z;
  timestamp_unix : Z;
  signature : bytes }.

End RecordingConsentMessage.

(** The state of a call as persisted. *)
Module VoipSessionState.

Record t : Type := mk {
  state_version : Z;
  call_id : bytes;
  role : Z;
  ssrc : Z;
  send_frame_counter : Z;
  replay_high_water : Z;
  ratchet_generation : Z;
  ratchet_interval_frames : Z;
  pq_rekey_interval_secs : Z;
  shield_mode : bool;
  frames_since_ratchet : Z;
  root_secret : bytes;
  external_counter : Z;
  send_ratchet_chain_key : bytes;
  recv_ratchet_chain_key : bytes;
  send_ratchet_generation : Z;
  recv_ratchet_generation : Z;
  replay_bitmap : bytes;
  screen_share_meta : option ScreenShareMetadata.t;
  local_recording_consent : option Z;
  remote_recording_consent : option Z;
  total_rekey_count : Z;
  created_at_unix : Z;
  frames_sent : Z;
  frames_received : Z;
  frames_dropped : Z;
  last_metrics_timestamp : Z;
  remote_recording_consent_timestamp_unix : Z;
  local_recording_consent_timestamp_unix : Z }.

End VoipSessionState.

Abbreviation ScreenShareMetadata := ScreenShareMetadata.t.
