(* ===== verification/ToyCodec.v ===== *)
(** * A concrete codec

    An executable stand-in for the generated protobuf codec, used only to
    evaluate concrete runs.  It models no code of the program. *)

From Stdlib Require Import ZArith List Bool Lia String Ascii.
From S2P Require Import Prelude Proto.
Import ListNotations.
Open Scope list_scope.
Open Scope Z_scope.

(** A prefix codec: [dec] undoes [enc] and returns what follows. *)
Class Codec (A : Type) : Type := {
  enc : A -> list Z;
  dec : list Z -> option (A * list Z);
  dec_enc a rest : dec (enc a ++ rest) = Some (a, rest) }.

(** An integer as its sign and its bits, closed by a [2]. *)
Fixpoint enc_pos (p : positive) : list Z :=
  match p with xH => [2] | xO p => 0 :: enc_pos p | xI p => 1 :: enc_pos p end.

Fixpoint dec_pos (l : list Z) : option (positive * list Z) :=
  match l with
  | 2 :: l => Some (xH, l)
  | 0 :: l => match dec_pos l with Some (p, l) => Some (xO p, l) | None => None end
  | 1 :: l => match dec_pos l with Some (p, l) => Some (xI p, l) | None => None end
  | _ => None
  end.

Lemma dec_enc_pos p rest : dec_pos (enc_pos p ++ rest) = Some (p, rest).
Proof. induction p as [p IH|p IH|]; cbn; [now rewrite IH|now rewrite IH|reflexivity]. Qed.

Lemma enc_pos_len p : len (enc_pos p) <= Zpos p.
Proof. induction p as [p IH|p IH|]; cbn [enc_pos]; rewrite ?len_cons; [lia|lia|easy]. Qed.

Definition enc_Z (z : Z) : list Z :=
  match z with Z0 => [0] | Zpos p => 1 :: enc_pos p | Zneg p => 2 :: enc_pos p end.

Definition dec_Z (l : list Z) : option (Z * list Z) :=
  match l with
  | 0 :: l => Some (0, l)
  | 1 :: l => match dec_pos l with Some (p, l) => Some (Zpos p, l) | None => None end
  | 2 :: l => match dec_pos l with Some (p, l) => Some (Zneg p, l) | None => None end
  | _ => None
  end.

Lemma dec_enc_Z z rest : dec_Z (enc_Z z ++ rest) = Some (z, rest).
Proof. destruct z; cbn; rewrite ?dec_enc_pos; reflexivity. Qed.

#[export] Instance codec_Z : Codec Z := {| enc := enc_Z; dec := dec_Z; dec_enc := dec_enc_Z |}.

Program Definition codec_iso {A B} `{Codec A} (f : B -> A) (g : A -> B)
    (fg : forall b, g (f b) = b) : Codec B := {|
  enc b := enc (f b);
  dec l := match dec l with Some (a, l) => Some (g a, l) | None => None end |}.
Next Obligation. now rewrite dec_enc, fg. Qed.

#[export] Program Instance codec_pair {A B} `{Codec A} `{Codec B} : Codec (A * B) := {
  enc p := enc (fst p) ++ enc (snd p);
  dec l := match dec l with
           | Some (a, l) => match dec l with Some (b, l) => Some ((a, b), l) | None => None end
           | None => None
           end }.
Next Obligation. rewrite <- app_assoc, dec_enc, dec_enc. reflexivity. Qed.

Fixpoint dec_n {A} `{Codec A} (n : nat) (l : list Z) : option (list A * list Z) :=
  match n with
  | O => Some ([], l)
  | S n => match dec l with
           | Some (a, l) => match dec_n n l with Some (xs, l) => Some (a :: xs, l) | None => None end
           | None => None
           end
  end.

#[export] Program Instance codec_list {A} `{Codec A} : Codec (list A) := {
  enc xs := enc (len xs) ++ flat_map enc xs;
  dec l := match dec l with Some (n, l) => dec_n (Z.to_nat n) l | None => None end }.
Next Obligation.
  rewrite <- app_assoc. cbn [dec enc codec_Z]. rewrite dec_enc_Z. unfold len. rewrite Nat2Z.id. induction a as [|x xs IH]; simpl; [reflexivity|].
  now rewrite <- app_assoc, dec_enc, IH.
Qed.

(** Byte strings are copied. *)
#[export] Program Instance codec_bytes : Codec (list Z) := {
  enc xs := enc (len xs) ++ xs;
  dec l := match dec l with
           | Some (n, l) => Some (firstn (Z.to_nat n) l, skipn (Z.to_nat n) l)
           | None => None
           end }.
Next Obligation.
  rewrite <- app_assoc. cbn [dec enc codec_Z]. rewrite dec_enc_Z. unfold len. rewrite Nat2Z.id.
  now rewrite firstn_app, firstn_all, Nat.sub_diag, firstn_O, app_nil_r, skipn_app, skipn_all, Nat.sub_diag.
Qed.

#[export] Program Instance codec_option {A} `{Codec A} : Codec (option A) := {
  enc o := match o with Some a => 1 :: enc a | None => [0] end;
  dec l := match l with
           | 0 :: l => Some (None, l)
           | _ :: l => match dec l with Some (a, l) => Some (Some a, l) | None => None end
           | [] => None
           end }.
Next Obligation. destruct a; simpl; [now rewrite dec_enc|reflexivity]. Qed.

#[export] Program Instance codec_bool : Codec bool := {
  enc b := [if b then 1 else 0];
  dec l := match l with z :: l => Some (negb (z =? 0), l) | [] => None end }.
Next Obligation. now destruct a. Qed.

Definition string_codes (s : string) : list Z := map (fun c => Z.of_N (N_of_ascii c)) (list_ascii_of_string s).
Definition codes_string (l : list Z) : string := string_of_list_ascii (map (fun z => ascii_of_N (Z.to_N z)) l).

Lemma codes_string_codes s : codes_string (string_codes s) = s.
Proof.
  unfold codes_string, string_codes. rewrite map_map, map_ext with (g := fun c => c).
  - rewrite map_id. apply string_of_list_ascii_of_string.
  - intros c. rewrite N2Z.id. apply ascii_N_embedding.
Qed.

#[export] Instance codec_string : Codec string := codec_iso string_codes codes_string codes_string_codes.

#[export] Instance codec_metadata : Codec EnvelopeMetadata.t.
Proof.
  refine (codec_iso (A := Z * (list Z * (Z * (Z * option string))))
    (fun m => (EnvelopeMetadata.message_index m, (EnvelopeMetadata.payload_nonce m,
       (EnvelopeMetadata.envelope_type m, (EnvelopeMetadata.envelope_id m, EnvelopeMetadata.correlation_id m)))))
    (fun '(a, (b, (c, (d, e)))) => EnvelopeMetadata.mk a b c d e) _).
  now intros [].
Defined.

#[export] Instance codec_timestamp : Codec Timestamp.t.
Proof.
  refine (codec_iso (A :=
    Z * (Z))
    (fun m =>
    (Timestamp.seconds m, (Timestamp.nanos m)))
    (fun '(x1, (x2)) =>
    Timestamp.mk x1 x2) _).
  now intros [].
Defined.

#[export] Instance codec_cached_message : Codec CachedMessageKey.t.
Proof.
  refine (codec_iso (A :=
    Z * (bytes * (Z)))
    (fun m =>
    (CachedMessageKey.message_index m, (CachedMessageKey.message_key m, (CachedMessageKey.epoch m))))
    (fun '(x1, (x2, (x3))) =>
    CachedMessageKey.mk x1 x2 x3) _).
  now intros [].
Defined.

#[export] Instance codec_cached_metadata : Codec CachedMetadataKey.t.
Proof.
  refine (codec_iso (A :=
    Z * (bytes))
    (fun m =>
    (CachedMetadataKey.epoch m, (CachedMetadataKey.metadata_key m)))
    (fun '(x1, (x2)) =>
    CachedMetadataKey.mk x1 x2) _).
  now intros [].
Defined.

#[export] Instance codec_chain : Codec ChainState.t.
Proof.
  refine (codec_iso (A :=
    Z * (bytes * ((list CachedMessageKey.t))))
    (fun m =>
    (ChainState.message_index m, (ChainState.chain_key m, (ChainState.skipped_message_keys m))))
    (fun '(x1, (x2, (x3))) =>
    ChainState.mk x1 x2 x3) _).
  now intros [].
Defined.

#[export] Instance codec_dh_pair : Codec DhKeyPair.t.
Proof.
  refine (codec_iso (A :=
    bytes * (bytes))
    (fun m =>
    (DhKeyPair.private_key m, (DhKeyPair.public_key m)))
    (fun '(x1, (x2)) =>
    DhKeyPair.mk x1 x2) _).
  now intros [].
Defined.

#[export] Instance codec_kyber_pair : Codec KyberKeyPair.t.
Proof.
  refine (codec_iso (A :=
    bytes * (bytes))
    (fun m =>
    (KyberKeyPair.secret_key m, (KyberKeyPair.public_key m)))
    (fun '(x1, (x2)) =>
    KyberKeyPair.mk x1 x2) _).
  now intros [].
Defined.

#[export] Instance codec_nonce_state : Codec NonceStateProto.t.
Proof.
  refine (codec_iso (A :=
    bytes * (Z))
    (fun m =>
    (NonceStateProto.prefix m, (NonceStateProto.counter m)))
    (fun '(x1, (x2)) =>
    NonceStateProto.mk x1 x2) _).
  now intros [].
Defined.

#[export] Instance codec_state : Codec ProtocolState.t.
Proof.
  refine (codec_iso (A :=
    Z * (bool * ((option Timestamp.t) * (bytes * (Z * (Z * (Z * (bytes * ((option ChainState.t) * ((option
      ChainState.t) * ((option DhKeyPair.t) * (bytes * (bytes * (bytes * (bytes * ((option KyberKeyPair.t) *
      (bytes * ((option NonceStateProto.t) * (bytes * (Z * (Z * (bytes * (bytes * (bytes * (bytes * (bytes *
      (Z * ((list bytes) * (bool * ((list CachedMessageKey.t) * ((list CachedMetadataKey.t) * (bytes *
      ((option bytes) * ((option Z) * ((option Z) * (Z * (Z)))))))))))))))))))))))))))))))))))))
    (fun m =>
    (ProtocolState.version m, (ProtocolState.is_initiator m, (ProtocolState.created_at m,
      (ProtocolState.session_id m, (ProtocolState.state_counter m, (ProtocolState.send_ratchet_epoch m,
      (ProtocolState.recv_ratchet_epoch m, (ProtocolState.root_key m, (ProtocolState.send_chain m,
      (ProtocolState.recv_chain m, (ProtocolState.dh_local m, (ProtocolState.dh_remote_public m,
      (ProtocolState.dh_local_initial_public m, (ProtocolState.dh_remote_initial_public m,
      (ProtocolState.metadata_key m, (ProtocolState.kyber_local m, (ProtocolState.kyber_remote_public m,
      (ProtocolState.nonce_generator m, (ProtocolState.state_hmac m, (ProtocolState.max_messages_per_chain
      m, (ProtocolState.max_nonce_counter m, (ProtocolState.local_identity_ed25519_public m,
      (ProtocolState.local_identity_x25519_public m, (ProtocolState.peer_identity_ed25519_public m,
      (ProtocolState.peer_identity_x25519_public m, (ProtocolState.identity_binding_hash m,
      (ProtocolState.replay_epoch m, (ProtocolState.seen_payload_nonces m,
      (ProtocolState.send_ratchet_pending m, (ProtocolState.skipped_keys m,
      (ProtocolState.cached_metadata_keys m, (ProtocolState.send_metadata_key m, (ProtocolState.device_id m,
      (ProtocolState.session_ttl_seconds m, (ProtocolState.last_activity_unix m,
      (ProtocolState.total_messages_sent m, (ProtocolState.total_messages_received
      m))))))))))))))))))))))))))))))))))))))
    (fun '(x1, (x2, (x3, (x4, (x5, (x6, (x7, (x8, (x9, (x10, (x11, (x12, (x13, (x14, (x15, (x16, (x17, (x18, (x19, (x20, (x21, (x22, (x23, (x24, (x25, (x26, (x27, (x28, (x29, (x30, (x31, (x32, (x33, (x34, (x35, (x36, (x37))))))))))))))))))))))))))))))))))))) =>
    ProtocolState.mk x1 x2 x3 x4 x5 x6 x7 x8 x9 x10 x11 x12 x13 x14 x15 x16 x17 x18 x19 x20 x21 x22 x23 x24
      x25 x26 x27 x28 x29 x30 x31 x32 x33 x34 x35 x36 x37) _).
  now intros [].
Defined.

#[export] Instance codec_sealed : Codec SealedState.t.
Proof.
  refine (codec_iso (A :=
    Z * (bytes * (bytes * (bytes * (bytes * (Z))))))
    (fun m =>
    (SealedState.version m, (SealedState.dek_nonce m, (SealedState.state_nonce m, (SealedState.encrypted_dek
      m, (SealedState.encrypted_state m, (SealedState.external_counter m)))))))
    (fun '(x1, (x2, (x3, (x4, (x5, (x6)))))) =>
    SealedState.mk x1 x2 x3 x4 x5 x6) _).
  now intros [].
Defined.

Definition prost_of {M} `{Codec M} : Prost M := {|
  encode := enc;
  decode l := match dec l with Some (m, []) => Some m | _ => None end |}.

Lemma prost_of_laws {M} `{Codec M} (wf : M -> Prop) : ProstLaws M (C := prost_of) wf.
Proof. constructor. intros m _. cbn. rewrite <- (app_nil_r (enc m)), dec_enc. reflexivity. Qed.

#[export] Instance toy_metadata_prost : Prost EnvelopeMetadata.t := prost_of.
#[export] Instance toy_state_prost : Prost ProtocolState.t := prost_of.
#[export] Instance toy_sealed_prost : Prost SealedState.t := prost_of.

#[export] Instance toy_metadata_laws : ProstLaws EnvelopeMetadata.t metadata_wf := prost_of_laws _.
#[export] Instance toy_state_laws : ProstLaws ProtocolState.t (fun s => state_wf s = true) := prost_of_laws _.
#[export] Instance toy_sealed_laws : ProstLaws SealedState.t (fun s => sealed_wf s = true) := prost_of_laws _.
