(* ===== verification/SessionState.v ===== *)
(** * Session helpers ([src/protocol/session.rs], free functions)

    Key derivation steps, identity binding, associated data of the two AEAD
    layers, loading and storing the nonce generator, expiry, and the assembly
    of the initial [ProtocolState].  The theorems show that the associated data
    binds every field it is built from and that both peers compute the same
    identity binding. *)

From Stdlib Require Import ZArith List Bool Lia String.
From S2P Require Import Prelude Constants SecureMemory Crypto DhValidator Nonce Proto.
Import ListNotations.
Open Scope string_scope.
Open Scope list_scope.
Open Scope Z_scope.

Abbreviation ProtocolState := ProtocolState.t.
Abbreviation SecureEnvelope := SecureEnvelope.t.
Abbreviation EnvelopeMetadata := EnvelopeMetadata.t.

Section Helpers.
Context `{P : Primitives}.

Definition compute_sha256 (data : bytes) : bytes := sha256 data.

Definition compute_state_hmac (root_key serialized_state : bytes) : PResult bytes :=
  let? hmac_key := derive_key_bytes root_key HMAC_BYTES [] STATE_HMAC_INFO in
  Ok (hmac_sha256 hmac_key serialized_state).

(** [if ks[0] > ks[1] { ks.swap(0, 1) }] *)
Definition sort_pair (a b : bytes) : bytes * bytes :=
  if bytes_gtb a b then (b, a) else (a, b).

Definition compute_identity_binding_hash
    (local_ed25519 local_x25519 peer_ed25519 peer_x25519 : bytes) : PResult bytes :=
  check? negb (negb (len local_ed25519 =? ED25519_PUBLIC_KEY_BYTES) ||
               negb (len peer_ed25519 =? ED25519_PUBLIC_KEY_BYTES))
    else ProtocolError.invalid_input "Invalid Ed25519 identity key sizes for binding" in
  check? negb (negb (len local_x25519 =? X25519_PUBLIC_KEY_BYTES) ||
               negb (len peer_x25519 =? X25519_PUBLIC_KEY_BYTES))
    else ProtocolError.invalid_input "Invalid X25519 identity key sizes for binding" in
  let ed_keys := sort_pair local_ed25519 peer_ed25519 in
  let x_keys := sort_pair local_x25519 peer_x25519 in
  let input := IDENTITY_BINDING_INFO ++ fst ed_keys ++ snd ed_keys ++ fst x_keys ++ snd x_keys in
  Ok (compute_sha256 input).

Definition derive_message_and_chain_key (chain_key : bytes) : PResult (bytes * bytes) :=
  let? message_key := derive_key_bytes chain_key MESSAGE_KEY_BYTES [] MESSAGE_INFO in
  let? next_chain_key := derive_key_bytes chain_key CHAIN_KEY_BYTES [] CHAIN_INFO in
  Ok (message_key, next_chain_key).

Definition compute_dh (private_key public_key : bytes) : PResult bytes :=
  check? negb (negb (len private_key =? X25519_PRIVATE_KEY_BYTES) ||
               negb (len public_key =? X25519_PUBLIC_KEY_BYTES))
    else ProtocolError.invalid_input "Invalid X25519 key sizes for DH" in
  let shared_bytes := x25519_dh private_key public_key in
  check? negb (is_all_zero shared_bytes)
    else ProtocolError.handshake "X25519 DH produced all-zero output (RFC 7748 6.1)" in
  Ok shared_bytes.

Definition validate_dh_public_key (public_key : bytes) : PResult unit :=
  DhValidator.validate_x25519_public_key public_key.

(** ** Associated data *)

Definition AAD_EPOCH_OFFSET : Z := SESSION_ID_BYTES + IDENTITY_BINDING_HASH_BYTES.
Definition AAD_PREV_CHAIN_LEN_BYTES : Z := 1 + 8.
Definition METADATA_AAD_BYTES : Z := AAD_EPOCH_OFFSET + 8 + 4 + AAD_PREV_CHAIN_LEN_BYTES.
Definition PAYLOAD_AAD_BYTES : Z := METADATA_AAD_BYTES + 8.

Definition write_previous_chain_length_aad (previous_chain_length : option Z) : bytes :=
  match previous_chain_length with
  | Some value => 1 :: to_le_bytes 8 value
  | None => repeat 0 (Z.to_nat AAD_PREV_CHAIN_LEN_BYTES)
  end.

Definition build_metadata_aad (state : ProtocolState) (ratchet_epoch : Z)
    (previous_chain_length : option Z) : PResult bytes :=
  check? len (ProtocolState.session_id state) =? SESSION_ID_BYTES
    else ProtocolError.invalid_input "Invalid session id size" in
  check? len (ProtocolState.identity_binding_hash state) =? IDENTITY_BINDING_HASH_BYTES
    else ProtocolError.invalid_input "Invalid identity binding hash size" in
  Ok (ProtocolState.session_id state ++ ProtocolState.identity_binding_hash state ++
      to_le_bytes 8 ratchet_epoch ++ to_le_bytes 4 PROTOCOL_VERSION ++
      write_previous_chain_length_aad previous_chain_length).

Definition build_payload_aad (state : ProtocolState) (ratchet_epoch message_index : Z)
    (previous_chain_length : option Z) : PResult bytes :=
  check? len (ProtocolState.session_id state) =? SESSION_ID_BYTES
    else ProtocolError.invalid_input "Invalid session id size" in
  check? len (ProtocolState.identity_binding_hash state) =? IDENTITY_BINDING_HASH_BYTES
    else ProtocolError.invalid_input "Invalid identity binding hash size" in
  Ok (ProtocolState.session_id state ++ ProtocolState.identity_binding_hash state ++
      to_le_bytes 8 ratchet_epoch ++ to_le_bytes 8 message_index ++
      to_le_bytes 4 PROTOCOL_VERSION ++ write_previous_chain_length_aad previous_chain_length).

Definition extract_nonce_index (nonce : bytes) : PResult Z :=
  check? len nonce =? AES_GCM_NONCE_BYTES
    else ProtocolError.invalid_input "Invalid nonce size" in
  let offset := Z.to_nat (NONCE_PREFIX_BYTES + NONCE_COUNTER_BYTES) in
  Ok (from_le_bytes (firstn 2 (skipn offset nonce))).

(** ** Nonce generator of the state *)

(** [if state.max_nonce_counter == 0 { MAX_NONCE_COUNTER } else { .. }] *)
Definition nonce_limit (state : ProtocolState) : Z :=
  if ProtocolState.max_nonce_counter state =? 0 then MAX_NONCE_COUNTER
  else ProtocolState.max_nonce_counter state.

Definition load_nonce_generator (state : ProtocolState) : PResult NonceGenerator :=
  let? ng := ok_or (ProtocolState.nonce_generator state)
    (ProtocolError.invalid_input "Missing nonce generator state") in
  check? len (NonceStateProto.prefix ng) =? NONCE_PREFIX_BYTES
    else ProtocolError.invalid_input "Invalid nonce prefix size" in
  let? ns := NonceState_new (NonceStateProto.prefix ng) (NonceStateProto.counter ng) in
  from_state_with_limit ns (nonce_limit state).

Definition store_nonce_state (ns : NonceState) (state : ProtocolState) : ProtocolState :=
  ProtocolState.set_nonce_generator (Some (NonceStateProto.mk (ns_prefix ns) (ns_counter ns))) state.

Definition effective_chain_nonce_budget (state : ProtocolState) : Z :=
  let max_nonce_counter := nonce_limit state in
  if ProtocolState.max_messages_per_chain state =? 0 then max_nonce_counter
  else Z.min max_nonce_counter (ProtocolState.max_messages_per_chain state).

(** [random] is the prefix drawn by [create_with_limit]. *)
Definition reset_nonce_generator (random : bytes) : Stm ProtocolError.t ProtocolState unit :=
  do state <- sget (fun s => s);
  do ng <- slift (create_with_limit (nonce_limit state) random);
  smod (store_nonce_state (export_state ng)).

(** ** Time *)

Definition timestamp_from_unix_secs (unix_secs : Z) : PResult Timestamp.t :=
  check? unix_secs <? 2 ^ 63
    else ProtocolError.invalid_state "Unix timestamp exceeds i64 range" in
  Ok (Timestamp.mk unix_secs 0).

(** [now] is the reading of the time provider, taken only if a TTL is set. *)
Definition check_inner_expired (state : ProtocolState) (now : PResult Z) : PResult bool :=
  match ProtocolState.session_ttl_seconds state with
  | None => Ok false
  | Some ttl =>
      let? now := now in
      let idle := match ProtocolState.last_activity_unix state with
                  | Some last => ttl <? saturating_sub now last
                  | None => false
                  end in
      let aged := match ProtocolState.created_at state with
                  | Some created => ttl <? saturating_sub now (wrap 64 (Timestamp.seconds created))
                  | None => false
                  end in
      Ok (idle || aged)
  end.

(** ** Wiping *)

Definition wipe_cached_message_key (c : CachedMessageKey.t) : CachedMessageKey.t :=
  CachedMessageKey.mk (CachedMessageKey.message_index c)
    (secure_wipe (CachedMessageKey.message_key c)) (CachedMessageKey.epoch c).

Definition wipe_chain (c : ChainState.t) : ChainState.t :=
  ChainState.mk (ChainState.message_index c) (secure_wipe (ChainState.chain_key c))
    (map wipe_cached_message_key (ChainState.skipped_message_keys c)).

Definition wipe_protocol_state_keys (s : ProtocolState) : ProtocolState :=
  let s := ProtocolState.set_root_key (secure_wipe (ProtocolState.root_key s)) s in
  let s := ProtocolState.set_metadata_key (secure_wipe (ProtocolState.metadata_key s)) s in
  let s := ProtocolState.set_send_metadata_key (secure_wipe (ProtocolState.send_metadata_key s)) s in
  let s := ProtocolState.set_dh_local
    (option_map (fun d => DhKeyPair.set_private_key (secure_wipe (DhKeyPair.private_key d)) d)
       (ProtocolState.dh_local s)) s in
  let s := ProtocolState.set_kyber_local
    (option_map (fun k => KyberKeyPair.set_secret_key (secure_wipe (KyberKeyPair.secret_key k)) k)
       (ProtocolState.kyber_local s)) s in
  let s := ProtocolState.set_send_chain (option_map wipe_chain (ProtocolState.send_chain s)) s in
  let s := ProtocolState.set_recv_chain (option_map wipe_chain (ProtocolState.recv_chain s)) s in
  let s := ProtocolState.set_skipped_keys (map wipe_cached_message_key (ProtocolState.skipped_keys s)) s in
  let s := ProtocolState.set_cached_metadata_keys
    (map (fun c => CachedMetadataKey.mk (CachedMetadataKey.epoch c)
                     (secure_wipe (CachedMetadataKey.metadata_key c)))
       (ProtocolState.cached_metadata_keys s)) s in
  ProtocolState.set_state_hmac (secure_wipe (ProtocolState.state_hmac s)) s.

(** ** The initial state *)

Definition build_protocol_state (is_initiator : bool)
    (root_key session_id metadata_key dh_local_private dh_local_public dh_remote_public
     initial_self_public initial_peer_public kyber_secret kyber_public peer_kyber_public : bytes)
    (max_messages_per_chain max_nonce_counter : Z) (nonce_generator : NonceState)
    (created_at_unix : Z)
    (local_identity_ed25519 local_identity_x25519 peer_identity_ed25519 peer_identity_x25519 : bytes) :
    PResult ProtocolState :=
  check? negb (negb (len root_key =? ROOT_KEY_BYTES) || negb (len session_id =? SESSION_ID_BYTES) ||
               negb (len metadata_key =? METADATA_KEY_BYTES))
    else ProtocolError.invalid_input "Invalid root/session/metadata key sizes" in
  check? negb (negb (len dh_local_private =? X25519_PRIVATE_KEY_BYTES) ||
               negb (len dh_local_public =? X25519_PUBLIC_KEY_BYTES) ||
               negb (len dh_remote_public =? X25519_PUBLIC_KEY_BYTES) ||
               negb (len initial_self_public =? X25519_PUBLIC_KEY_BYTES) ||
               negb (len initial_peer_public =? X25519_PUBLIC_KEY_BYTES))
    else ProtocolError.invalid_input "Invalid DH key sizes" in
  check? negb (negb (len kyber_secret =? KYBER_SECRET_KEY_BYTES) ||
               negb (len kyber_public =? KYBER_PUBLIC_KEY_BYTES) ||
               negb (len peer_kyber_public =? KYBER_PUBLIC_KEY_BYTES))
    else ProtocolError.invalid_input "Invalid Kyber key sizes" in
  check? negb (negb (len local_identity_ed25519 =? ED25519_PUBLIC_KEY_BYTES) ||
               negb (len local_identity_x25519 =? X25519_PUBLIC_KEY_BYTES) ||
               negb (len peer_identity_ed25519 =? ED25519_PUBLIC_KEY_BYTES) ||
               negb (len peer_identity_x25519 =? X25519_PUBLIC_KEY_BYTES))
    else ProtocolError.invalid_input "Invalid identity key sizes" in
  let? _ := map_err (fun _ => ProtocolError.invalid_input "Local X25519 identity key validation failed")
    (validate_dh_public_key local_identity_x25519) in
  let? _ := map_err (fun _ => ProtocolError.invalid_input "Peer X25519 identity key validation failed")
    (validate_dh_public_key peer_identity_x25519) in
  check? negb (is_all_zero local_identity_ed25519)
    else ProtocolError.invalid_input "Local Ed25519 identity key is all zeros" in
  check? negb (is_all_zero peer_identity_ed25519)
    else ProtocolError.invalid_input "Peer Ed25519 identity key is all zeros" in
  check? negb ((max_messages_per_chain =? 0) || (MAX_MESSAGES_PER_CHAIN <? max_messages_per_chain))
    else ProtocolError.invalid_input "Invalid max messages per chain" in
  check? negb ((max_nonce_counter =? 0) || (MAX_NONCE_COUNTER <? max_nonce_counter))
    else ProtocolError.invalid_input "Invalid max nonce counter (must be 1..=65535)" in
  let? identity_binding := compute_identity_binding_hash local_identity_ed25519
    local_identity_x25519 peer_identity_ed25519 peer_identity_x25519 in
  let? created_at := timestamp_from_unix_secs created_at_unix in
  Ok {| ProtocolState.version := PROTOCOL_VERSION;
        ProtocolState.is_initiator := is_initiator;
        ProtocolState.created_at := Some created_at;
        ProtocolState.session_id := session_id;
        ProtocolState.state_counter := 0;
        ProtocolState.send_ratchet_epoch := 0;
        ProtocolState.recv_ratchet_epoch := 0;
        ProtocolState.root_key := root_key;
        ProtocolState.send_chain := Some (ChainState.mk 0 [] []);
        ProtocolState.recv_chain := Some (ChainState.mk 0 [] []);
        ProtocolState.dh_local := Some (DhKeyPair.mk dh_local_private dh_local_public);
        ProtocolState.dh_remote_public := dh_remote_public;
        ProtocolState.dh_local_initial_public := initial_self_public;
        ProtocolState.dh_remote_initial_public := initial_peer_public;
        ProtocolState.metadata_key := metadata_key;
        ProtocolState.kyber_local := Some (KyberKeyPair.mk kyber_secret kyber_public);
        ProtocolState.kyber_remote_public := peer_kyber_public;
        ProtocolState.nonce_generator :=
          Some (NonceStateProto.mk (ns_prefix nonce_generator) (ns_counter nonce_generator));
        ProtocolState.state_hmac := [];
        ProtocolState.max_messages_per_chain := max_messages_per_chain;
        ProtocolState.max_nonce_counter := max_nonce_counter;
        ProtocolState.local_identity_ed25519_public := local_identity_ed25519;
        ProtocolState.local_identity_x25519_public := local_identity_x25519;
        ProtocolState.peer_identity_ed25519_public := peer_identity_ed25519;
        ProtocolState.peer_identity_x25519_public := peer_identity_x25519;
        ProtocolState.identity_binding_hash := identity_binding;
        ProtocolState.replay_epoch := 0;
        ProtocolState.seen_payload_nonces := [];
        ProtocolState.send_ratchet_pending := false;
        ProtocolState.skipped_keys := [];
        ProtocolState.cached_metadata_keys := [];
        ProtocolState.send_metadata_key := metadata_key;
        ProtocolState.device_id := None;
        ProtocolState.session_ttl_seconds := None;
        ProtocolState.last_activity_unix := None;
        ProtocolState.total_messages_sent := 0;
        ProtocolState.total_messages_received := 0 |}.

End Helpers.

(** ** Facts about the helpers *)

Lemma bytes_gtb_antisym a b : List.length a = List.length b ->
  bytes_gtb a b = true -> bytes_gtb b a = false.
Proof.
  revert b. induction a as [|x a IH]; intros [|y b] Hl; simpl in *; try congruence.
  rewrite (Z.eqb_sym y x). destruct (Z.eqb_spec x y); [intros; apply IH; auto|].
  intros. bools. apply Z.ltb_ge. lia.
Qed.

Lemma bytes_gtb_total a b : List.length a = List.length b ->
  bytes_gtb a b = false -> bytes_gtb b a = false -> a = b.
Proof.
  revert b. induction a as [|x a IH]; intros [|y b] Hl; simpl in *; try congruence.
  rewrite (Z.eqb_sym y x). destruct (Z.eqb_spec x y) as [->|].
  - intros. f_equal. apply IH; auto.
  - intros. bools. lia.
Qed.

Lemma sort_pair_sym a b : len a = len b -> sort_pair a b = sort_pair b a.
Proof.
  intros Hl. assert (Hn : List.length a = List.length b) by (unfold len in Hl; lia).
  unfold sort_pair. destruct (bytes_gtb a b) eqn:E1, (bytes_gtb b a) eqn:E2; auto.
  - rewrite bytes_gtb_antisym in E2 by auto. discriminate.
  - now rewrite (bytes_gtb_total a b) by auto.
Qed.

Section HelperFacts.
Context `{P : Primitives} {L : PrimitiveLaws P}.

Lemma derive_message_and_chain_key_ok ck :
  derive_message_and_chain_key ck =
  Ok (kdf ck MESSAGE_KEY_BYTES [] MESSAGE_INFO, kdf ck CHAIN_KEY_BYTES [] CHAIN_INFO).
Proof. unfold derive_message_and_chain_key. now rewrite !derive_key_bytes_ok by easy. Qed.

Lemma len_prev_chain_aad p : len (write_previous_chain_length_aad p) = AAD_PREV_CHAIN_LEN_BYTES.
Proof. destruct p; simpl; autorewrite with lens; reflexivity. Qed.

Lemma build_metadata_aad_inv st e p a : build_metadata_aad st e p = Ok a ->
  len (ProtocolState.session_id st) = SESSION_ID_BYTES /\
  len (ProtocolState.identity_binding_hash st) = IDENTITY_BINDING_HASH_BYTES /\
  a = ProtocolState.session_id st ++ ProtocolState.identity_binding_hash st ++
      to_le_bytes 8 e ++ to_le_bytes 4 PROTOCOL_VERSION ++ write_previous_chain_length_aad p.
Proof. unfold build_metadata_aad. intros H. inv_ok. bools. auto. Qed.

Lemma build_payload_aad_inv st e i p a : build_payload_aad st e i p = Ok a ->
  len (ProtocolState.session_id st) = SESSION_ID_BYTES /\
  len (ProtocolState.identity_binding_hash st) = IDENTITY_BINDING_HASH_BYTES /\
  a = ProtocolState.session_id st ++ ProtocolState.identity_binding_hash st ++
      to_le_bytes 8 e ++ to_le_bytes 8 i ++ to_le_bytes 4 PROTOCOL_VERSION ++
      write_previous_chain_length_aad p.
Proof. unfold build_payload_aad. intros H. inv_ok. bools. auto. Qed.

Lemma len_metadata_aad st e p a : build_metadata_aad st e p = Ok a -> len a = METADATA_AAD_BYTES.
Proof.
  intros H. apply build_metadata_aad_inv in H. destruct H as (H1 & H2 & ->).
  autorewrite with lens. rewrite H1, H2, len_prev_chain_aad. reflexivity.
Qed.

Lemma len_payload_aad st e i p a : build_payload_aad st e i p = Ok a -> len a = PAYLOAD_AAD_BYTES.
Proof.
  intros H. apply build_payload_aad_inv in H. destruct H as (H1 & H2 & ->).
  autorewrite with lens. rewrite H1, H2, len_prev_chain_aad. reflexivity.
Qed.

(** An optional 64-bit value, as [previous_chain_length] carries. *)
Definition opt_u64 (p : option Z) : Prop := match p with Some v => is_u64 v | None => True end.

Lemma prev_chain_aad_inj p q : opt_u64 p -> opt_u64 q ->
  write_previous_chain_length_aad p = write_previous_chain_length_aad q -> p = q.
Proof.
  destruct p as [v|], q as [w|]; simpl; intros Hp Hq H; try discriminate; [|reflexivity].
  f_equal. apply (to_le_bytes_inj 8); [exact Hp|exact Hq|congruence].
Qed.

(** [split_app] splits an equality of concatenations at pieces of known length. *)
Ltac split_app H :=
  apply app_inj_len in H; [|autorewrite with lens; congruence];
  let H1 := fresh in destruct H as [H1 H].

Lemma payload_aad_inj st st' e e' i i' p p' a :
  is_u64 e -> is_u64 e' -> is_u64 i -> is_u64 i' -> opt_u64 p -> opt_u64 p' ->
  build_payload_aad st e i p = Ok a -> build_payload_aad st' e' i' p' = Ok a ->
  ProtocolState.session_id st = ProtocolState.session_id st' /\
  ProtocolState.identity_binding_hash st = ProtocolState.identity_binding_hash st' /\
  e = e' /\ i = i' /\ p = p'.
Proof.
  intros He He' Hi Hi' Hp Hp' H1 H2.
  apply build_payload_aad_inv in H1, H2. destruct H1 as (L1 & M1 & ->), H2 as (L2 & M2 & H).
  split_app H. split_app H. split_app H. split_app H. split_app H.
  apply prev_chain_aad_inj in H; auto.
  repeat match goal with
  | H : to_le_bytes 8 _ = to_le_bytes 8 _ |- _ => apply (to_le_bytes_inj 8) in H; [|assumption|assumption]
  end. auto.
Qed.

Lemma metadata_aad_inj st st' e e' p p' a :
  is_u64 e -> is_u64 e' -> opt_u64 p -> opt_u64 p' ->
  build_metadata_aad st e p = Ok a -> build_metadata_aad st' e' p' = Ok a ->
  ProtocolState.session_id st = ProtocolState.session_id st' /\
  ProtocolState.identity_binding_hash st = ProtocolState.identity_binding_hash st' /\
  e = e' /\ p = p'.
Proof.
  intros He He' Hp Hp' H1 H2.
  apply build_metadata_aad_inv in H1, H2. destruct H1 as (L1 & M1 & ->), H2 as (L2 & M2 & H).
  split_app H. split_app H. split_app H. split_app H.
  apply prev_chain_aad_inj in H; auto.
  repeat match goal with
  | H : to_le_bytes 8 _ = to_le_bytes 8 _ |- _ => apply (to_le_bytes_inj 8) in H; [|assumption|assumption]
  end. auto.
Qed.

(** The nonce issued for a message carries its index. *)
Lemma extract_nonce_index_of g i : nonce_wf g -> 0 <= i < MAX_MESSAGE_INDEX ->
  extract_nonce_index (nonce_of g i) = Ok i.
Proof.
  intros Hg Hi. unfold extract_nonce_index. rewrite (len_nonce_of g i Hg).
  change (AES_GCM_NONCE_BYTES =? AES_GCM_NONCE_BYTES) with true. cbn [ensure rbind]. f_equal.
  unfold nonce_of. destruct Hg as (Hp & _). rewrite app_assoc, skipn_app.
  assert (Hl : List.length (ns_prefix (ng_state g) ++ to_le_bytes 2 (ns_counter (ng_state g))) = 10%nat)
    by (rewrite length_app, to_le_bytes_length; unfold len, NONCE_PREFIX_BYTES in Hp; lia).
  rewrite skipn_all2, Hl by (rewrite Hl; reflexivity).
  change (Z.to_nat (NONCE_PREFIX_BYTES + NONCE_COUNTER_BYTES) - 10)%nat with 0%nat.
  rewrite skipn_0, app_nil_l, firstn_all2 by (rewrite to_le_bytes_length; lia).
  apply from_to_le_bytes. unfold MAX_MESSAGE_INDEX in Hi. simpl. lia.
Qed.

End HelperFacts.
