(* ===== verification/Session.v ===== *)
(** * The 1:1 session ([src/protocol/session.rs], [SessionInner] and [Session])

    The double ratchet with a hybrid X25519 / ML-KEM step.  Every function that
    takes [&mut SessionInner] is a state transformer that returns the state on
    both branches, so that the rollbacks of the error paths are part of the
    model.  Random values and clock readings are arguments.  The mutex, whose
    poisoning the code turns into an error, is not modelled. *)

From Stdlib Require Import ZArith List Bool Lia String.
From S2P Require Import Prelude Constants BTree SeenSet SecureMemory Crypto Padding Nonce Proto SessionState.
Import ListNotations.
Open Scope string_scope.
Open Scope list_scope.
Open Scope Z_scope.

(** Calls on [IProtocolEventHandler] made by the session. *)
Inductive ProtocolEvent : Type :=
| on_nonce_exhaustion_warning (remaining max_capacity : Z)
| on_ratchet_stalling_warning (messages_since_ratchet : Z).

(** [struct SessionInner].  [event_handler] says whether a handler is installed;
    [handler_calls] records the calls it received, newest first. *)
Module SessionInner.

Record t : Type := mk {
  state : ProtocolState;
  pending_kyber_shared_secret : bytes;
  skipped_message_keys : BTreeMap.t (Z * Z) bytes;
  cached_metadata_keys : BTreeMap.t Z bytes;
  replay_epoch : Z;
  seen_payload_nonces : list bytes;
  seen_payload_nonce_order : list bytes;
  is_initiator : bool;
  dh_private_handle : option SecureMemoryHandle.t;
  kyber_secret_handle : option SecureMemoryHandle.t;
  send_ratchet_pending : bool;
  event_handler : bool;
  messages_since_last_dh_ratchet : Z;
  handler_calls : list ProtocolEvent }.

Definition set_state (v : ProtocolState) (s : t) : t :=
  mk v (pending_kyber_shared_secret s) (skipped_message_keys s) (cached_metadata_keys s)
    (replay_epoch s) (seen_payload_nonces s) (seen_payload_nonce_order s) (is_initiator s)
    (dh_private_handle s) (kyber_secret_handle s) (send_ratchet_pending s) (event_handler s)
    (messages_since_last_dh_ratchet s) (handler_calls s).
Definition set_pending_kyber_shared_secret (v : bytes) (s : t) : t :=
  mk (state s) v (skipped_message_keys s) (cached_metadata_keys s) (replay_epoch s)
    (seen_payload_nonces s) (seen_payload_nonce_order s) (is_initiator s) (dh_private_handle s)
    (kyber_secret_handle s) (send_ratchet_pending s) (event_handler s)
    (messages_since_last_dh_ratchet s) (handler_calls s).
Definition set_skipped_message_keys (v : BTreeMap.t (Z * Z) bytes) (s : t) : t :=
  mk (state s) (pending_kyber_shared_secret s) v (cached_metadata_keys s) (replay_epoch s)
    (seen_payload_nonces s) (seen_payload_nonce_order s) (is_initiator s) (dh_private_handle s)
    (kyber_secret_handle s) (send_ratchet_pending s) (event_handler s)
    (messages_since_last_dh_ratchet s) (handler_calls s).
Definition set_cached_metadata_keys (v : BTreeMap.t Z bytes) (s : t) : t :=
  mk (state s) (pending_kyber_shared_secret s) (skipped_message_keys s) v (replay_epoch s)
    (seen_payload_nonces s) (seen_payload_nonce_order s) (is_initiator s) (dh_private_handle s)
    (kyber_secret_handle s) (send_ratchet_pending s) (event_handler s)
    (messages_since_last_dh_ratchet s) (handler_calls s).
Definition set_replay_epoch (v : Z) (s : t) : t :=
  mk (state s) (pending_kyber_shared_secret s) (skipped_message_keys s) (cached_metadata_keys s) v
    (seen_payload_nonces s) (seen_payload_nonce_order s) (is_initiator s) (dh_private_handle s)
    (kyber_secret_handle s) (send_ratchet_pending s) (event_handler s)
    (messages_since_last_dh_ratchet s) (handler_calls s).
Definition set_seen_payload_nonces (v : list bytes) (s : t) : t :=
  mk (state s) (pending_kyber_shared_secret s) (skipped_message_keys s) (cached_metadata_keys s)
    (replay_epoch s) v (seen_payload_nonce_order s) (is_initiator s) (dh_private_handle s)
    (kyber_secret_handle s) (send_ratchet_pending s) (event_handler s)
    (messages_since_last_dh_ratchet s) (handler_calls s).
Definition set_seen_payload_nonce_order (v : list bytes) (s : t) : t :=
  mk (state s) (pending_kyber_shared_secret s) (skipped_message_keys s) (cached_metadata_keys s)
    (replay_epoch s) (seen_payload_nonces s) v (is_initiator s) (dh_private_handle s)
    (kyber_secret_handle s) (send_ratchet_pending s) (event_handler s)
    (messages_since_last_dh_ratchet s) (handler_calls s).
Definition set_is_initiator (v : bool) (s : t) : t :=
  mk (state s) (pending_kyber_shared_secret s) (skipped_message_keys s) (cached_metadata_keys s)
    (replay_epoch s) (seen_payload_nonces s) (seen_payload_nonce_order s) v (dh_private_handle s)
    (kyber_secret_handle s) (send_ratchet_pending s) (event_handler s)
    (messages_since_last_dh_ratchet s) (handler_calls s).
Definition set_dh_private_handle (v : option SecureMemoryHandle.t) (s : t) : t :=
  mk (state s) (pending_kyber_shared_secret s) (skipped_message_keys s) (cached_metadata_keys s)
    (replay_epoch s) (seen_payload_nonces s) (seen_payload_nonce_order s) (is_initiator s) v
    (kyber_secret_handle s) (send_ratchet_pending s) (event_handler s)
    (messages_since_last_dh_ratchet s) (handler_calls s).
Definition set_kyber_secret_handle (v : option SecureMemoryHandle.t) (s : t) : t :=
  mk (state s) (pending_kyber_shared_secret s) (skipped_message_keys s) (cached_metadata_keys s)
    (replay_epoch s) (seen_payload_nonces s) (seen_payload_nonce_order s) (is_initiator s)
    (dh_private_handle s) v (send_ratchet_pending s) (event_handler s)
    (messages_since_last_dh_ratchet s) (handler_calls s).
Definition set_send_ratchet_pending (v : bool) (s : t) : t :=
  mk (state s) (pending_kyber_shared_secret s) (skipped_message_keys s) (cached_metadata_keys s)
    (replay_epoch s) (seen_payload_nonces s) (seen_payload_nonce_order s) (is_initiator s)
    (dh_private_handle s) (kyber_secret_handle s) v (event_handler s)
    (messages_since_last_dh_ratchet s) (handler_calls s).
Definition set_event_handler (v : bool) (s : t) : t :=
  mk (state s) (pending_kyber_shared_secret s) (skipped_message_keys s) (cached_metadata_keys s)
    (replay_epoch s) (seen_payload_nonces s) (seen_payload_nonce_order s) (is_initiator s)
    (dh_private_handle s) (kyber_secret_handle s) (send_ratchet_pending s) v
    (messages_since_last_dh_ratchet s) (handler_calls s).
Definition set_messages_since_last_dh_ratchet (v : Z) (s : t) : t :=
  mk (state s) (pending_kyber_shared_secret s) (skipped_message_keys s) (cached_metadata_keys s)
    (replay_epoch s) (seen_payload_nonces s) (seen_payload_nonce_order s) (is_initiator s)
    (dh_private_handle s) (kyber_secret_handle s) (send_ratchet_pending s) (event_handler s) v
    (handler_calls s).
Definition set_handler_calls (v : list ProtocolEvent) (s : t) : t :=
  mk (state s) (pending_kyber_shared_secret s) (skipped_message_keys s) (cached_metadata_keys s)
    (replay_epoch s) (seen_payload_nonces s) (seen_payload_nonce_order s) (is_initiator s)
    (dh_private_handle s) (kyber_secret_handle s) (send_ratchet_pending s) (event_handler s)
    (messages_since_last_dh_ratchet s) v.

End SessionInner.

Abbreviation SessionInner := SessionInner.t.
Abbreviation SM := (Stm ProtocolError.t SessionInner).

(** Assign a field of [inner.state]. *)
Definition upd_state (f : ProtocolState -> ProtocolState) (inner : SessionInner) : SessionInner :=
  SessionInner.set_state (f (SessionInner.state inner)) inner.

(** The readings of the time provider during one operation: for the expiry
    test, for the activity mark, for the envelope's timestamp. *)
Record Clock : Type := mkClock { now_expiry : PResult Z; now_activity : PResult Z; now_sent : PResult Z }.

(** The random values an encryption may draw. *)
Record SendEntropy : Type := mkSendEntropy {
  e_x25519 : bytes;
  e_kem_encapsulation : bytes;
  e_kem_keygen : bytes;
  e_kem_self_test : bytes;
  e_nonce_prefix : bytes;
  e_header_nonce : bytes }.

Record DecryptResult : Type := mkDecryptResult { plaintext : bytes; metadata : EnvelopeMetadata }.

(** ** Sets of payload nonces ([HashSet] and [VecDeque]) *)

(** [while order.len() > MAX_SEEN_NONCES { .. }] *)
Definition prune_seen_nonces (set order : list bytes) : list bytes * list bytes :=
  prune_recent MAX_SEEN_NONCES set order.

Definition payload_nonce_to_array (nonce : bytes) : PResult bytes :=
  check? len nonce =? AES_GCM_NONCE_BYTES
    else ProtocolError.invalid_input "Invalid payload nonce size" in
  Ok nonce.

Definition seen_cache_step (cache : list bytes * list bytes) (nonce : bytes) :
    PResult (list bytes * list bytes) :=
  let? nonce := payload_nonce_to_array nonce in
  let '(set, order) := cache in
  if bset_contains set nonce then Ok (set, order)
  else Ok (prune_seen_nonces (nonce :: set) (order ++ [nonce])).

Definition rebuild_seen_payload_nonce_cache (entries : list bytes) : PResult (list bytes * list bytes) :=
  foldR seen_cache_step entries ([], []).

Definition remember_seen_payload_nonce (nonce : bytes) (inner : SessionInner) : SessionInner :=
  if bset_contains (SessionInner.seen_payload_nonces inner) nonce then inner
  else
    let '(set, order) :=
      prune_seen_nonces (nonce :: SessionInner.seen_payload_nonces inner)
        (SessionInner.seen_payload_nonce_order inner ++ [nonce]) in
    SessionInner.set_seen_payload_nonce_order order (SessionInner.set_seen_payload_nonces set inner).

(** ** Bounded caches *)

(** [while let Some((&(oldest, _), _)) = map.iter().next() { if oldest >= min { break } pop_first }] *)
Definition evict_aged_skipped_keys (inner : SessionInner) : SessionInner :=
  let min_allowed_epoch :=
    saturating_sub (ProtocolState.recv_ratchet_epoch (SessionInner.state inner)) MAX_SKIPPED_KEY_EPOCH_AGE in
  SessionInner.set_skipped_message_keys
    (BTreeMap.pop_while (fun k => fst k <? min_allowed_epoch) (SessionInner.skipped_message_keys inner)) inner.

Definition reserve_skipped_capacity (needed : Z) : SM unit :=
  do! sguard (negb (MAX_SKIPPED_MESSAGE_KEYS <? needed))
        (ProtocolError.invalid_state "Message key cache overflow");
  do! smod evict_aged_skipped_keys;
  smod (fun inner => SessionInner.set_skipped_message_keys
          (pop_over (MAX_SKIPPED_MESSAGE_KEYS - needed) (SessionInner.skipped_message_keys inner)) inner).

Definition enforce_cache_limit (inner : SessionInner) : SessionInner :=
  let inner := evict_aged_skipped_keys inner in
  SessionInner.set_skipped_message_keys
    (pop_over MAX_SKIPPED_MESSAGE_KEYS (SessionInner.skipped_message_keys inner)) inner.

Definition enforce_metadata_cache_limit (inner : SessionInner) : SessionInner :=
  let min_allowed_epoch :=
    saturating_sub (ProtocolState.recv_ratchet_epoch (SessionInner.state inner)) MAX_METADATA_KEY_EPOCH_AGE in
  let m := BTreeMap.pop_while (fun k => k <? min_allowed_epoch) (SessionInner.cached_metadata_keys inner) in
  SessionInner.set_cached_metadata_keys (pop_over MAX_CACHED_METADATA_KEYS m) inner.

Section Session.
Context `{P : Primitives} {C : Prost EnvelopeMetadata}.

(** ** Chains *)

Definition next_send_message_key : SM (Z * bytes) :=
  do inner <- sget (fun i => i);
  do chain <- slift (ok_or (ProtocolState.send_chain (SessionInner.state inner))
                       (ProtocolError.invalid_state "Send chain not initialized"));
  do! sguard (len (ChainState.chain_key chain) =? CHAIN_KEY_BYTES)
        (ProtocolError.invalid_state "Sending chain key missing");
  let message_index := ChainState.message_index chain in
  do! sguard (negb (MAX_MESSAGE_INDEX <? message_index))
        (ProtocolError.invalid_state "Message index exceeds maximum");
  do (message_key, next_chain_key) <- slift (derive_message_and_chain_key (ChainState.chain_key chain));
  do! smod (upd_state (ProtocolState.set_send_chain
              (Some (ChainState.mk (message_index + 1) next_chain_key
                       (ChainState.skipped_message_keys chain)))));
  sret (message_index, message_key).

Definition insert_skipped (epoch idx : Z) (key : bytes) (inner : SessionInner) : SessionInner :=
  SessionInner.set_skipped_message_keys
    (BTreeMap.insert (SessionInner.skipped_message_keys inner) (epoch, idx) key) inner.

(** [for idx in idx..idx + n { derive; skipped.insert((epoch, idx), key) }];
    the result is the chain key after the loop. *)
Fixpoint skip_loop (n : nat) (epoch idx : Z) (chain_key : bytes) : SM bytes :=
  match n with
  | O => sret chain_key
  | S n =>
      do (message_key, next_chain_key) <- slift (derive_message_and_chain_key chain_key);
      do! smod (insert_skipped epoch idx message_key);
      skip_loop n epoch (idx + 1) next_chain_key
  end.

(** [rc.chain_key = key; rc.message_index = index] on [recv_chain]. *)
Definition set_recv_progress (key : bytes) (index : Z) (inner : SessionInner) : SessionInner :=
  match ProtocolState.recv_chain (SessionInner.state inner) with
  | Some rc =>
      upd_state (ProtocolState.set_recv_chain
        (Some (ChainState.mk index key (ChainState.skipped_message_keys rc)))) inner
  | None => inner
  end.

Definition get_recv_chain : SM ChainState.t :=
  do inner <- sget (fun i => i);
  slift (ok_or (ProtocolState.recv_chain (SessionInner.state inner))
           (ProtocolError.invalid_state "Recv chain not initialized")).

Definition skip_old_chain_keys (previous_chain_length : Z) : SM unit :=
  do recv_chain <- get_recv_chain;
  do! sguard (len (ChainState.chain_key recv_chain) =? CHAIN_KEY_BYTES)
        (ProtocolError.invalid_state "Receiving chain key missing");
  let current_index := ChainState.message_index recv_chain in
  do epoch <- sget (fun i => ProtocolState.recv_ratchet_epoch (SessionInner.state i));
  do max_messages <- sget (fun i => ProtocolState.max_messages_per_chain (SessionInner.state i));
  do! sguard (negb ((max_messages =? 0) || (MAX_MESSAGES_PER_CHAIN <? max_messages)))
        (ProtocolError.invalid_state "Invalid max messages per chain");
  do! sguard (negb (max_messages <? previous_chain_length))
        (ProtocolError.invalid_input "Previous chain length exceeds per-chain limit");
  if previous_chain_length <=? current_index then sret tt
  else
    let count_to_skip := previous_chain_length - current_index in
    do! reserve_skipped_capacity count_to_skip;
    do recv_chain <- get_recv_chain;
    do chain_key <- skip_loop (Z.to_nat count_to_skip) epoch current_index (ChainState.chain_key recv_chain);
    smod (set_recv_progress chain_key previous_chain_length).

(** [skipped_message_keys.remove(&(epoch, message_index))] *)
Definition try_skipped_key (epoch message_index : Z) : SM (option bytes) :=
  do inner <- sget (fun i => i);
  do! smod (SessionInner.set_skipped_message_keys
              (BTreeMap.remove (SessionInner.skipped_message_keys inner) (epoch, message_index)));
  sret (BTreeMap.get (SessionInner.skipped_message_keys inner) (epoch, message_index)).

(** The loop of [get_recv_message_key]: cache [n] keys, then take the next one
    and move the chain past it. *)
Fixpoint recv_loop (n : nat) (epoch index : Z) (chain_key : bytes) : SM bytes :=
  do (message_key, next_chain_key) <- slift (derive_message_and_chain_key chain_key);
  match n with
  | O =>
      do! get_recv_chain;
      do! smod (set_recv_progress next_chain_key (index + 1));
      sret message_key
  | S n =>
      do! smod (insert_skipped epoch index message_key);
      recv_loop n epoch (index + 1) next_chain_key
  end.

Definition get_recv_message_key (message_index : Z) : SM bytes :=
  do epoch <- sget (fun i => ProtocolState.recv_ratchet_epoch (SessionInner.state i));
  do chain <- get_recv_chain;
  do! sguard (len (ChainState.chain_key chain) =? CHAIN_KEY_BYTES)
        (ProtocolError.invalid_state "Receiving chain key missing");
  let current_index := ChainState.message_index chain in
  do! sguard (negb (MAX_MESSAGE_INDEX <? message_index))
        (ProtocolError.invalid_input "Message index exceeds maximum");
  if message_index <? current_index then
    do key <- try_skipped_key epoch message_index;
    slift (ok_or key (ProtocolError.replay_attack "Replay attack detected: message index already processed"))
  else
    let span := saturating_sub message_index current_index in
    do! reserve_skipped_capacity span;
    do recv_chain <- get_recv_chain;
    recv_loop (Z.to_nat span) epoch current_index (ChainState.chain_key recv_chain).

(** ** Sending ratchet *)

Definition send_ratchet_rotation_needed (inner : SessionInner) : PResult bool :=
  let chain_idx := match ProtocolState.send_chain (SessionInner.state inner) with
                   | Some c => ChainState.message_index c
                   | None => 0
                   end in
  let max := ProtocolState.max_messages_per_chain (SessionInner.state inner) in
  check? negb ((max =? 0) || (MAX_MESSAGES_PER_CHAIN <? max))
    else ProtocolError.invalid_state "Invalid max messages per chain" in
  Ok (SessionInner.send_ratchet_pending inner || (max <=? chain_idx)).

(** The three keys of a ratchet step. *)
Definition split_ratchet_out (ratchet_out : bytes) : bytes * bytes * bytes :=
  let r := Z.to_nat ROOT_KEY_BYTES in
  let c := Z.to_nat CHAIN_KEY_BYTES in
  (firstn r ratchet_out, firstn c (skipn r ratchet_out), skipn (r + c) ratchet_out).

Definition derive_ratchet (root_key dh_secret kyber_ss new_kyber_pk : bytes) :
    PResult (bytes * bytes * bytes) :=
  let hybrid_ikm := dh_secret ++ kyber_ss in
  let augmented_info := HYBRID_RATCHET_INFO ++ new_kyber_pk in
  let? ratchet_out := derive_key_bytes hybrid_ikm RATCHET_OUTPUT_BYTES root_key augmented_info in
  check? len ratchet_out =? RATCHET_OUTPUT_BYTES
    else ProtocolError.invalid_state "Ratchet output size mismatch" in
  Ok (split_ratchet_out ratchet_out).

Definition set_dh_local_public (new_public : bytes) (s : ProtocolState) : ProtocolState :=
  ProtocolState.set_dh_local
    (Some (DhKeyPair.mk (repeat 0 (Z.to_nat X25519_PRIVATE_KEY_BYTES)) new_public)) s.

Definition set_kyber_local_public (new_kyber_pk : bytes) (s : ProtocolState) : ProtocolState :=
  ProtocolState.set_kyber_local
    (option_map (fun _ => KyberKeyPair.mk (repeat 0 (Z.to_nat KYBER_SECRET_KEY_BYTES)) new_kyber_pk)
       (ProtocolState.kyber_local s)) s.

Definition maybe_rotate_send_ratchet (ent : SendEntropy) (envelope : SecureEnvelope) : SM SecureEnvelope :=
  do should_ratchet <- sgets send_ratchet_rotation_needed;
  if negb should_ratchet then sret envelope
  else
    do st <- sget SessionInner.state;
    do! sguard (negb (negb (len (ProtocolState.dh_remote_public st) =? X25519_PUBLIC_KEY_BYTES) ||
                      negb (len (ProtocolState.root_key st) =? ROOT_KEY_BYTES)))
          (ProtocolError.invalid_state "Cannot rotate ratchet: missing key material");
    do! sguard (len (ProtocolState.kyber_remote_public st) =? KYBER_PUBLIC_KEY_BYTES)
          (ProtocolError.invalid_state "Peer Kyber public key missing");
    do (new_private_handle, new_public) <- slift (generate_x25519_keypair (e_x25519 ent));
    do new_private <- slift (crypto_err
                       (SecureMemoryHandle.read_bytes new_private_handle X25519_PRIVATE_KEY_BYTES));
    do! slift (validate_dh_public_key (ProtocolState.dh_remote_public st));
    do dh_secret <- slift (compute_dh new_private (ProtocolState.dh_remote_public st));
    do (kyber_ct, kyber_ss_handle) <-
      slift (crypto_err (kyber_encapsulate (ProtocolState.kyber_remote_public st) (e_kem_encapsulation ent)));
    do kyber_ss <- slift (crypto_err
                     (SecureMemoryHandle.read_bytes kyber_ss_handle KYBER_SHARED_SECRET_BYTES));
    do (new_kyber_sk_handle, new_kyber_pk) <-
      slift (crypto_err (kyber_generate_keypair (e_kem_keygen ent) (e_kem_self_test ent)));
    do (new_root, new_chain, new_metadata) <-
      slift (derive_ratchet (ProtocolState.root_key st) dh_secret kyber_ss new_kyber_pk);
    let prev_chain_len := match ProtocolState.send_chain st with
                          | Some c => ChainState.message_index c
                          | None => 0
                          end in
    let envelope := SecureEnvelope.set_previous_chain_length (Some prev_chain_len) envelope in
    do! smod (upd_state (fun s =>
           ProtocolState.set_send_chain (Some (ChainState.mk 0 new_chain []))
             (ProtocolState.set_send_metadata_key new_metadata
                (ProtocolState.set_root_key new_root s))));
    do next_epoch <- slift (ok_or (checked_add 64 (ProtocolState.send_ratchet_epoch st) 1)
                             (ProtocolError.invalid_state "Send ratchet epoch overflow"));
    do! smod (upd_state (ProtocolState.set_send_ratchet_epoch next_epoch));
    do dh_handle <- slift (crypto_err (SecureMemoryHandle.alloc_write X25519_PRIVATE_KEY_BYTES new_private));
    do! smod (SessionInner.set_dh_private_handle (Some dh_handle));
    do! smod (upd_state (set_dh_local_public new_public));
    do! smod (SessionInner.set_kyber_secret_handle (Some new_kyber_sk_handle));
    do! smod (upd_state (set_kyber_local_public new_kyber_pk));
    let envelope := SecureEnvelope.set_dh_public_key (Some new_public) envelope in
    let envelope := SecureEnvelope.set_kyber_ciphertext (Some kyber_ct) envelope in
    let envelope := SecureEnvelope.set_new_kyber_public (Some new_kyber_pk) envelope in
    do! smod (SessionInner.set_send_ratchet_pending false);
    do! smod (upd_state (ProtocolState.set_send_ratchet_pending false));
    do! smod (SessionInner.set_messages_since_last_dh_ratchet 0);
    do inner <- sget (fun i => i);
    do ng <- slift (create_with_limit (nonce_limit (SessionInner.state inner)) (e_nonce_prefix ent));
    do! smod (upd_state (store_nonce_state (export_state ng)));
    sret envelope.

(** ** Receiving ratchet *)

Definition apply_recv_ratchet (envelope : SecureEnvelope) : SM unit :=
  do dh_public <- slift (ok_or (SecureEnvelope.dh_public_key envelope)
                           (ProtocolError.invalid_input "Ratchet header missing"));
  do kyber_ct <- slift (ok_or (SecureEnvelope.kyber_ciphertext envelope)
                          (ProtocolError.invalid_input "Ratchet header missing"));
  do new_kyber_pk <- slift (ok_or (SecureEnvelope.new_kyber_public envelope)
                       (ProtocolError.invalid_input "Ratchet message missing new Kyber public key"));
  do! sguard (negb (negb (len dh_public =? X25519_PUBLIC_KEY_BYTES) ||
                    negb (len kyber_ct =? KYBER_CIPHERTEXT_BYTES)))
        (ProtocolError.invalid_input "Invalid ratchet header sizes");
  do! sguard (len new_kyber_pk =? KYBER_PUBLIC_KEY_BYTES)
        (ProtocolError.invalid_input "Invalid new Kyber public key size");
  do! slift (validate_dh_public_key dh_public);
  do! slift (crypto_err (kyber_validate_ciphertext kyber_ct));
  do! slift (crypto_err (kyber_validate_public_key new_kyber_pk));
  do! (do st <- sget SessionInner.state;
       sguard (len (ProtocolState.root_key st) =? ROOT_KEY_BYTES)
         (ProtocolError.invalid_state "Missing ratchet key material"));
  do! match SecureEnvelope.previous_chain_length envelope with
      | Some pcl => skip_old_chain_keys pcl
      | None => sret tt
      end;
  do inner <- sget (fun i => i);
  do dh_handle <- slift (ok_or (SessionInner.dh_private_handle inner)
                           (ProtocolError.invalid_state "DH private key handle missing"));
  do dh_private <- slift (crypto_err (SecureMemoryHandle.read_bytes dh_handle X25519_PRIVATE_KEY_BYTES));
  do dh_secret <- slift (compute_dh dh_private dh_public);
  do sk_handle <- slift (ok_or (SessionInner.kyber_secret_handle inner)
                           (ProtocolError.invalid_state "Kyber secret key handle missing"));
  do ss_handle <- slift (crypto_err (kyber_decapsulate kyber_ct sk_handle));
  do kyber_ss <- slift (crypto_err (SecureMemoryHandle.read_bytes ss_handle KYBER_SHARED_SECRET_BYTES));
  let st := SessionInner.state inner in
  do (new_root, new_chain, new_metadata) <-
    slift (derive_ratchet (ProtocolState.root_key st) dh_secret kyber_ss new_kyber_pk);
  do! smod (fun i => SessionInner.set_cached_metadata_keys
              (BTreeMap.insert (SessionInner.cached_metadata_keys i)
                 (ProtocolState.recv_ratchet_epoch st) (ProtocolState.metadata_key st)) i);
  do! smod enforce_metadata_cache_limit;
  do! smod (upd_state (fun s =>
         ProtocolState.set_recv_chain (Some (ChainState.mk 0 new_chain []))
           (ProtocolState.set_metadata_key new_metadata (ProtocolState.set_root_key new_root s))));
  do next_epoch <- slift (ok_or (checked_add 64 (ProtocolState.recv_ratchet_epoch st) 1)
                           (ProtocolError.invalid_state "Recv ratchet epoch overflow"));
  do! smod (upd_state (fun s =>
         ProtocolState.set_kyber_remote_public new_kyber_pk
           (ProtocolState.set_dh_remote_public dh_public (ProtocolState.set_recv_ratchet_epoch next_epoch s))));
  do! smod (SessionInner.set_replay_epoch next_epoch);
  do! smod enforce_cache_limit;
  do! smod (SessionInner.set_send_ratchet_pending true);
  smod (upd_state (ProtocolState.set_send_ratchet_pending true)).

(** ** Snapshots of the sending side *)

Record SendProgressSnapshot : Type := mkSendProgressSnapshot {
  sp_send_chain : option ChainState.t;
  sp_nonce_generator : option NonceStateProto.t;
  sp_messages_since_last_dh_ratchet : Z }.

Definition capture_progress (inner : SessionInner) : SendProgressSnapshot :=
  mkSendProgressSnapshot (ProtocolState.send_chain (SessionInner.state inner))
    (ProtocolState.nonce_generator (SessionInner.state inner))
    (SessionInner.messages_since_last_dh_ratchet inner).

Definition restore_progress (s : SendProgressSnapshot) (inner : SessionInner) : SessionInner :=
  let inner := upd_state (ProtocolState.set_send_chain (sp_send_chain s)) inner in
  let inner := upd_state (ProtocolState.set_nonce_generator (sp_nonce_generator s)) inner in
  SessionInner.set_messages_since_last_dh_ratchet (sp_messages_since_last_dh_ratchet s) inner.

Record SendRatchetSnapshot : Type := mkSendRatchetSnapshot {
  sr_state : ProtocolState;
  sr_dh_private_key : option bytes;
  sr_kyber_secret_key : option bytes;
  sr_send_ratchet_pending : bool;
  sr_messages_since_last_dh_ratchet : Z }.

(** [handle.as_ref().map(|h| h.read_bytes(n)).transpose()] *)
Definition read_handle (h : option SecureMemoryHandle.t) (n : Z) : PResult (option bytes) :=
  match h with
  | None => Ok None
  | Some h => let? b := crypto_err (SecureMemoryHandle.read_bytes h n) in Ok (Some b)
  end.

Definition capture_ratchet (inner : SessionInner) : PResult SendRatchetSnapshot :=
  let? dh := read_handle (SessionInner.dh_private_handle inner) X25519_PRIVATE_KEY_BYTES in
  let? kyber := read_handle (SessionInner.kyber_secret_handle inner) KYBER_SECRET_KEY_BYTES in
  Ok (mkSendRatchetSnapshot (SessionInner.state inner) dh kyber
        (SessionInner.send_ratchet_pending inner) (SessionInner.messages_since_last_dh_ratchet inner)).

Definition restore_secret_handle (secret : option bytes) (expected_len : Z) : option SecureMemoryHandle.t :=
  match secret with
  | None => None
  | Some secret =>
      if negb (len secret =? expected_len) then None
      else match SecureMemoryHandle.alloc_write expected_len secret with
           | Ok h => Some h
           | Err _ => None
           end
  end.

Definition restore_ratchet (s : SendRatchetSnapshot) (inner : SessionInner) : SessionInner :=
  let inner := SessionInner.set_state (sr_state s) inner in
  let inner := SessionInner.set_send_ratchet_pending (sr_send_ratchet_pending s) inner in
  let inner := SessionInner.set_messages_since_last_dh_ratchet (sr_messages_since_last_dh_ratchet s) inner in
  let inner := SessionInner.set_dh_private_handle
                 (restore_secret_handle (sr_dh_private_key s) X25519_PRIVATE_KEY_BYTES) inner in
  SessionInner.set_kyber_secret_handle
    (restore_secret_handle (sr_kyber_secret_key s) KYBER_SECRET_KEY_BYTES) inner.

Definition rollback_send_encrypt_state (ratchet_snapshot : option SendRatchetSnapshot)
    (progress_snapshot : SendProgressSnapshot) (inner : SessionInner) : SessionInner :=
  match ratchet_snapshot with
  | Some s => restore_ratchet s inner
  | None => restore_progress progress_snapshot inner
  end.

(** ** Encryption *)

(** [if let Some(handler) = &inner.event_handler { handler.call() }] *)
Definition notify (ev : ProtocolEvent) (inner : SessionInner) : SessionInner :=
  if SessionInner.event_handler inner
  then SessionInner.set_handler_calls (ev :: SessionInner.handler_calls inner) inner else inner.

Definition empty_envelope : SecureEnvelope :=
  SecureEnvelope.mk PROTOCOL_VERSION [] [] [] 0 None None None None None.

(** The messages [encrypt_internal] builds after the ratchet step: everything
    between the progress snapshot and the final bookkeeping.  Every error in
    here is followed by the rollback. *)
Definition encrypt_body (payload : bytes) (envelope_type envelope_id : Z) (correlation_id : option string)
    (header_nonce_override : option bytes) (post_ratchet_hook : SM unit)
    (clock : Clock) (ent : SendEntropy) (ratchet_epoch : Z) (envelope : SecureEnvelope) : SM SecureEnvelope :=
  do! post_ratchet_hook;
  do (message_index, message_key) <- next_send_message_key;
  do nonce_gen <- sgets (fun i => load_nonce_generator (SessionInner.state i));
  let '(nonce_result, nonce_gen) := next message_index nonce_gen in
  do payload_nonce <- slift nonce_result;
  let nonce_export := export_state nonce_gen in
  do max_cap <- sget (fun i => effective_chain_nonce_budget (SessionInner.state i));
  let remaining := saturating_sub max_cap (ns_counter nonce_export) in
  do! smod (upd_state (store_nonce_state nonce_export));
  let threshold := div_ceil (Z.min u64_max (max_cap * NONCE_EXHAUSTION_WARNING_PERCENT)) 100 in
  do! smod (fun i => if remaining <=? threshold then notify (on_nonce_exhaustion_warning remaining max_cap) i else i);
  do! smod (fun i => SessionInner.set_messages_since_last_dh_ratchet
                       (SessionInner.messages_since_last_dh_ratchet i + 1) i);
  do! smod (fun i => if RATCHET_STALLING_WARNING_THRESHOLD <=? SessionInner.messages_since_last_dh_ratchet i
                     then notify (on_ratchet_stalling_warning (SessionInner.messages_since_last_dh_ratchet i)) i
                     else i);
  let metadata := EnvelopeMetadata.mk message_index payload_nonce envelope_type envelope_id correlation_id in
  let metadata_bytes := encode metadata in
  do header_nonce <- slift
    match header_nonce_override with
    | Some nonce =>
        check? len nonce =? AES_GCM_NONCE_BYTES
          else ProtocolError.invalid_input "Invalid header nonce size" in Ok nonce
    | None => Ok (e_header_nonce ent)
    end;
  do! sguard (len header_nonce =? AES_GCM_NONCE_BYTES) (ProtocolError.generic "Failed to generate header nonce");
  do st <- sget SessionInner.state;
  do metadata_aad <- slift (build_metadata_aad st ratchet_epoch (SecureEnvelope.previous_chain_length envelope));
  do encrypted_metadata <-
    slift (aes_encrypt (ProtocolState.send_metadata_key st) header_nonce metadata_bytes metadata_aad);
  do payload_aad <- slift (build_payload_aad st ratchet_epoch message_index
                             (SecureEnvelope.previous_chain_length envelope));
  let padded_payload := MessagePadding.pad payload in
  do encrypted_payload <- slift (aes_encrypt message_key payload_nonce padded_payload payload_aad);
  do sent_at <- slift (let? now := now_sent clock in timestamp_from_unix_secs now);
  sret (SecureEnvelope.set_sent_at (Some sent_at)
          (SecureEnvelope.set_header_nonce header_nonce
             (SecureEnvelope.set_encrypted_payload encrypted_payload
                (SecureEnvelope.set_encrypted_metadata encrypted_metadata envelope)))).

Definition encrypt_internal (payload : bytes) (envelope_type envelope_id : Z)
    (correlation_id : option string) (header_nonce_override : option bytes)
    (post_ratchet_hook : SM unit) (clock : Clock) (ent : SendEntropy) : SM SecureEnvelope :=
  do st <- sget SessionInner.state;
  do! sguard (negb (ProtocolState.version st =? 0)) (ProtocolError.invalid_state "Session has been destroyed");
  do expired <- slift (check_inner_expired st (now_expiry clock));
  do! sguard (negb expired) (ProtocolError.invalid_state "Session expired");
  do activity_unix <- slift (now_activity clock);
  do next_total_sent <- slift (ok_or (checked_add 64 (ProtocolState.total_messages_sent st) 1)
                                 (ProtocolError.invalid_state "Sent-message counter overflow"));
  do! sguard (len (ProtocolState.send_metadata_key st) =? METADATA_KEY_BYTES)
        (ProtocolError.invalid_state "Send metadata key not initialized");
  do! sguard (negb (MAX_BUFFER_SIZE <? len payload)) (ProtocolError.invalid_input "Payload too large");
  do rotation <- sgets send_ratchet_rotation_needed;
  do snapshot <- sgets (fun i => if (rotation : bool) then let? s := capture_ratchet i in Ok (Some s) else Ok None);
  do envelope <- on_err (maybe_rotate_send_ratchet ent empty_envelope)
                   (fun i => match snapshot with Some s => restore_ratchet s i | None => i end);
  do ratchet_epoch <- sget (fun i => ProtocolState.send_ratchet_epoch (SessionInner.state i));
  let envelope := SecureEnvelope.set_ratchet_epoch ratchet_epoch envelope in
  do progress <- sget capture_progress;
  do envelope <- on_err (encrypt_body payload envelope_type envelope_id correlation_id header_nonce_override
                           post_ratchet_hook clock ent ratchet_epoch envelope)
                   (rollback_send_encrypt_state snapshot progress);
  do! smod (upd_state (fun s => ProtocolState.set_total_messages_sent next_total_sent
                                  (ProtocolState.set_last_activity_unix (Some activity_unix) s)));
  sret envelope.

Definition encrypt (payload : bytes) (envelope_type envelope_id : Z) (correlation_id : option string)
    (clock : Clock) (ent : SendEntropy) : SM SecureEnvelope :=
  encrypt_internal payload envelope_type envelope_id correlation_id None (sret tt) clock ent.

(** ** Decryption *)

Record RecvSnapshot : Type := mkRecvSnapshot {
  rs_state : ProtocolState;
  rs_cached_metadata_keys : BTreeMap.t Z bytes;
  rs_skipped_message_keys : BTreeMap.t (Z * Z) bytes;
  rs_replay_epoch : Z;
  rs_send_ratchet_pending : bool }.

Definition capture_recv (i : SessionInner) : RecvSnapshot :=
  mkRecvSnapshot (SessionInner.state i) (SessionInner.cached_metadata_keys i)
    (SessionInner.skipped_message_keys i) (SessionInner.replay_epoch i) (SessionInner.send_ratchet_pending i).

Definition rollback_ratchet (s : RecvSnapshot) (i : SessionInner) : SessionInner :=
  let i := SessionInner.set_state (rs_state s) i in
  let i := SessionInner.set_cached_metadata_keys (rs_cached_metadata_keys s) i in
  let i := SessionInner.set_skipped_message_keys (rs_skipped_message_keys s) i in
  let i := SessionInner.set_replay_epoch (rs_replay_epoch s) i in
  SessionInner.set_send_ratchet_pending (rs_send_ratchet_pending s) i.

(** The undo of [decrypt]'s payload failures outside a ratchet step: put the
    consumed key back, or drop the keys cached on the way and rewind the chain. *)
Definition undo_message_key (is_old_epoch : bool) (envelope_epoch message_index : Z)
    (recv_chain_pre : option (bytes * Z)) (message_key : bytes) (inner : SessionInner) : SessionInner :=
  if is_old_epoch then insert_skipped envelope_epoch message_index message_key inner
  else match recv_chain_pre with
  | Some (saved_key, saved_index) =>
      let epoch := ProtocolState.recv_ratchet_epoch (SessionInner.state inner) in
      let inner :=
        if message_index <? saved_index then insert_skipped epoch message_index message_key inner
        else
          fold_left (fun i idx => SessionInner.set_skipped_message_keys
                                    (BTreeMap.remove (SessionInner.skipped_message_keys i) (epoch, idx)) i)
            (zrange saved_index message_index) inner in
      set_recv_progress saved_key saved_index inner
  | None => inner
  end.

(** The key of a message: of an old epoch only from the cache. *)
Definition message_key_for (is_old_epoch : bool) (envelope_epoch message_index : Z) : SM bytes :=
  if is_old_epoch
  then do key <- try_skipped_key envelope_epoch message_index;
       slift (ok_or key (ProtocolError.replay_attack
                "Old-epoch message key not found (already consumed or never cached)"))
  else get_recv_message_key message_index.

(** The part of [decrypt] after the ratchet decision.  [in_ratchet] says that a
    ratchet snapshot is held: then the caller rolls back every error. *)
Definition decrypt_message (envelope : SecureEnvelope) (max : Z) (is_old_epoch in_ratchet : bool) :
    SM DecryptResult :=
  let envelope_epoch := SecureEnvelope.ratchet_epoch envelope in
  do inner <- sget (fun i => i);
  let st := SessionInner.state inner in
  do metadata_key <-
    slift (if is_old_epoch
           then ok_or (BTreeMap.get (SessionInner.cached_metadata_keys inner) envelope_epoch)
                  (ProtocolError.invalid_state "Metadata decryption failed")
           else Ok (ProtocolState.metadata_key st));
  do metadata_aad <- slift (build_metadata_aad st envelope_epoch (SecureEnvelope.previous_chain_length envelope));
  do metadata_bytes <- slift (aes_decrypt metadata_key (SecureEnvelope.header_nonce envelope)
                                (SecureEnvelope.encrypted_metadata envelope) metadata_aad);
  do metadata <- slift (ok_or (decode metadata_bytes) (ProtocolError.decode "Failed to parse metadata: {e}"));
  let payload_nonce := EnvelopeMetadata.payload_nonce metadata in
  let message_index := EnvelopeMetadata.message_index metadata in
  do! sguard (len payload_nonce =? AES_GCM_NONCE_BYTES) (ProtocolError.invalid_input "Invalid payload nonce size");
  do! sguard (negb (MAX_MESSAGE_INDEX <? message_index)) (ProtocolError.invalid_input "Message index exceeds maximum");
  do! sguard (negb (max <=? message_index)) (ProtocolError.invalid_input "Message index exceeds per-chain limit");
  do nonce_index <- slift (extract_nonce_index payload_nonce);
  do! sguard (nonce_index =? message_index) (ProtocolError.invalid_input "Nonce index mismatch");
  do nonce_key <- slift (payload_nonce_to_array payload_nonce);
  do! sguard (negb (bset_contains (SessionInner.seen_payload_nonces inner) nonce_key))
        (ProtocolError.replay_attack "Replay attack detected: payload nonce reused");
  let recv_chain_pre :=
    if is_old_epoch then None
    else option_map (fun rc => (ChainState.chain_key rc, ChainState.message_index rc))
           (ProtocolState.recv_chain st) in
  do message_key <- message_key_for is_old_epoch envelope_epoch message_index;
  do plaintext <-
    on_err (do st <- sget SessionInner.state;
            do padded <- slift (let? payload_aad := build_payload_aad st envelope_epoch message_index
                                                      (SecureEnvelope.previous_chain_length envelope) in
                                aes_decrypt message_key payload_nonce
                                  (SecureEnvelope.encrypted_payload envelope) payload_aad);
            slift (MessagePadding.unpad padded))
      (fun i => if in_ratchet then i
                else undo_message_key is_old_epoch envelope_epoch message_index recv_chain_pre message_key i);
  do! smod (remember_seen_payload_nonce nonce_key);
  do! smod (fun i => if SessionInner.send_ratchet_pending i then i
                     else upd_state (ProtocolState.set_send_ratchet_pending true)
                            (SessionInner.set_send_ratchet_pending true i));
  sret (mkDecryptResult plaintext metadata).

Definition is_some {A} (o : option A) : bool := match o with Some _ => true | None => false end.

Definition decrypt (envelope : SecureEnvelope) (clock : Clock) : SM DecryptResult :=
  do inner <- sget (fun i => i);
  let st := SessionInner.state inner in
  do! sguard (negb (ProtocolState.version st =? 0)) (ProtocolError.invalid_state "Session has been destroyed");
  do expired <- slift (check_inner_expired st (now_expiry clock));
  do! sguard (negb expired) (ProtocolError.invalid_state "Session expired");
  do activity_unix <- slift (now_activity clock);
  do next_total_received <- slift (ok_or (checked_add 64 (ProtocolState.total_messages_received st) 1)
                                     (ProtocolError.invalid_state "Received-message counter overflow"));
  do! sguard (SecureEnvelope.version envelope =? PROTOCOL_VERSION)
        (ProtocolError.invalid_input "Invalid envelope version");
  do! sguard (len (SecureEnvelope.header_nonce envelope) =? AES_GCM_NONCE_BYTES)
        (ProtocolError.invalid_input "Invalid header nonce size");
  do! sguard (len (ProtocolState.metadata_key st) =? METADATA_KEY_BYTES)
        (ProtocolError.invalid_state "Metadata key not initialized");
  let max := ProtocolState.max_messages_per_chain st in
  do! sguard (negb ((max =? 0) || (MAX_MESSAGES_PER_CHAIN <? max)))
        (ProtocolError.invalid_state "Invalid max messages per chain");
  let envelope_epoch := SecureEnvelope.ratchet_epoch envelope in
  let has_dh := is_some (SecureEnvelope.dh_public_key envelope) in
  let has_kyber_ct := is_some (SecureEnvelope.kyber_ciphertext envelope) in
  let has_new_kyber_pk := is_some (SecureEnvelope.new_kyber_public envelope) in
  do result <-
    (if has_dh || has_kyber_ct || has_new_kyber_pk then
       do! sguard (has_dh && has_kyber_ct && has_new_kyber_pk)
             (ProtocolError.invalid_input "Incomplete ratchet header: dh_public_key, kyber_ciphertext, and new_kyber_public must all be present");
       do expected_epoch <- slift (ok_or (checked_add 64 (ProtocolState.recv_ratchet_epoch st) 1)
                                     (ProtocolError.invalid_state "Receive ratchet epoch overflow"));
       do! sguard (envelope_epoch =? expected_epoch) (ProtocolError.invalid_state "Unexpected ratchet epoch");
       do! match SecureEnvelope.previous_chain_length envelope with
           | Some pcl =>
               do! sguard (negb (ProtocolState.max_messages_per_chain st <? pcl))
                     (ProtocolError.invalid_input "Previous chain length exceeds per-chain limit");
               let current_index := match ProtocolState.recv_chain st with
                                    | Some rc => ChainState.message_index rc
                                    | None => 0
                                    end in
               sguard (negb (MAX_SKIPPED_MESSAGE_KEYS <? saturating_sub pcl current_index))
                 (ProtocolError.invalid_state "Message key cache overflow")
           | None => sret tt
           end;
       let snapshot := capture_recv inner in
       on_err (do! apply_recv_ratchet envelope;
               decrypt_message envelope max false true)
         (rollback_ratchet snapshot)
     else if envelope_epoch <=? ProtocolState.recv_ratchet_epoch st then
       do! sguard (negb (is_some (SecureEnvelope.previous_chain_length envelope)))
             (ProtocolError.invalid_input "previous_chain_length present on non-ratchet envelope");
       decrypt_message envelope max (envelope_epoch <? ProtocolState.recv_ratchet_epoch st) false
     else sfail (ProtocolError.invalid_state "Future ratchet epoch without ratchet headers"));
  do! smod (upd_state (fun s => ProtocolState.set_total_messages_received next_total_received
                                  (ProtocolState.set_last_activity_unix (Some activity_unix) s)));
  sret result.

(** ** Construction from a handshake *)

Record HandshakeState : Type := mkHandshakeState {
  hs_state : ProtocolState;
  hs_kyber_shared_secret : bytes }.

(** Move a secret of the state into a handle, leaving zeros behind. *)
Definition take_dh_private (st : ProtocolState) : PResult (option SecureMemoryHandle.t * ProtocolState) :=
  match ProtocolState.dh_local st with
  | Some dh =>
      match DhKeyPair.private_key dh with
      | [] => Ok (None, st)
      | key =>
          let? handle := crypto_err (SecureMemoryHandle.alloc_write X25519_PRIVATE_KEY_BYTES key) in
          Ok (Some handle, ProtocolState.set_dh_local
                (Some (DhKeyPair.set_private_key (repeat 0 (Z.to_nat X25519_PRIVATE_KEY_BYTES)) dh)) st)
      end
  | None => Ok (None, st)
  end.

Definition take_kyber_secret (st : ProtocolState) : PResult (option SecureMemoryHandle.t * ProtocolState) :=
  match ProtocolState.kyber_local st with
  | Some kyber =>
      match KyberKeyPair.secret_key kyber with
      | [] => Ok (None, st)
      | key =>
          let? handle := crypto_err (SecureMemoryHandle.alloc_write KYBER_SECRET_KEY_BYTES key) in
          Ok (Some handle, ProtocolState.set_kyber_local
                (Some (KyberKeyPair.set_secret_key (repeat 0 (Z.to_nat KYBER_SECRET_KEY_BYTES)) kyber)) st)
      end
  | None => Ok (None, st)
  end.

Definition Session_new (st : ProtocolState) (pending_kyber_shared_secret : bytes) : PResult SessionInner :=
  let replay_epoch := ProtocolState.recv_ratchet_epoch st in
  let is_initiator := ProtocolState.is_initiator st in
  let? (dh_private_handle, st) := take_dh_private st in
  let? (kyber_secret_handle, st) := take_kyber_secret st in
  Ok (SessionInner.mk st pending_kyber_shared_secret BTreeMap.empty BTreeMap.empty replay_epoch [] []
        is_initiator dh_private_handle kyber_secret_handle false false 0 []).

Definition wipe_pending (inner : SessionInner) : SessionInner :=
  SessionInner.set_pending_kyber_shared_secret [] inner.

(** [if !b { wipe_pending(inner); return Err(e) }] *)
Definition guard_wiping (b : bool) (e : ProtocolError.t) : SM unit := on_err (sguard b e) wipe_pending.

Definition initialize_from_handshake_inner : SM unit :=
  do inner <- sget (fun i => i);
  let st := SessionInner.state inner in
  let pending := SessionInner.pending_kyber_shared_secret inner in
  do! guard_wiping (len pending =? KYBER_SHARED_SECRET_BYTES)
        (ProtocolError.invalid_state "Missing Kyber shared secret for handshake init");
  do! guard_wiping (len (ProtocolState.root_key st) =? ROOT_KEY_BYTES)
        (ProtocolError.invalid_input "Invalid root key size");
  let dh_priv_len := match ProtocolState.dh_local st with
                     | Some d => len (DhKeyPair.private_key d)
                     | None => 0
                     end in
  do! guard_wiping (negb (negb (dh_priv_len =? X25519_PRIVATE_KEY_BYTES) ||
                          negb (len (ProtocolState.dh_remote_public st) =? X25519_PUBLIC_KEY_BYTES)))
        (ProtocolError.invalid_input "Invalid DH keys for handshake init");
  do! on_err (slift (validate_dh_public_key (ProtocolState.dh_remote_public st))) wipe_pending;
  do dh_handle <- slift (ok_or (SessionInner.dh_private_handle inner)
                           (ProtocolError.invalid_state "DH private key handle missing"));
  do dh_private <- slift (crypto_err (SecureMemoryHandle.read_bytes dh_handle X25519_PRIVATE_KEY_BYTES));
  do dh_init <- slift (compute_dh dh_private (ProtocolState.dh_remote_public st));
  let hybrid_ikm := dh_init ++ pending in
  do hybrid_out <- on_err (slift (derive_key_bytes hybrid_ikm (ROOT_KEY_BYTES * 2)
                                    (ProtocolState.root_key st) HYBRID_RATCHET_INFO)) wipe_pending;
  do! guard_wiping (len hybrid_out =? ROOT_KEY_BYTES * 2)
        (ProtocolError.invalid_state "Hybrid ratchet output size mismatch");
  let new_root := firstn (Z.to_nat ROOT_KEY_BYTES) hybrid_out in
  do chain_init <- on_err (slift (derive_key_bytes new_root (CHAIN_KEY_BYTES * 2) [] CHAIN_INIT_INFO)) wipe_pending;
  do! guard_wiping (len chain_init =? CHAIN_KEY_BYTES * 2)
        (ProtocolError.invalid_state "Chain init output size mismatch");
  let first_chain := firstn (Z.to_nat CHAIN_KEY_BYTES) chain_init in
  let second_chain := skipn (Z.to_nat CHAIN_KEY_BYTES) chain_init in
  let '(send_chain, recv_chain) :=
    if negb (SessionInner.is_initiator inner) then (second_chain, first_chain) else (first_chain, second_chain) in
  do! smod (upd_state (fun s =>
         ProtocolState.set_recv_ratchet_epoch 0
           (ProtocolState.set_send_ratchet_epoch 0
              (ProtocolState.set_recv_chain (Some (ChainState.mk 0 recv_chain []))
                 (ProtocolState.set_send_chain (Some (ChainState.mk 0 send_chain []))
                    (ProtocolState.set_root_key new_root s))))));
  do! smod wipe_pending;
  smod (SessionInner.set_skipped_message_keys BTreeMap.empty).

Definition from_handshake_state (hs : HandshakeState) : PResult SessionInner :=
  check? ProtocolState.version (hs_state hs) =? PROTOCOL_VERSION
    else ProtocolError.invalid_input "Invalid protocol version in handshake state" in
  let? session := Session_new (hs_state hs) (hs_kyber_shared_secret hs) in
  match initialize_from_handshake_inner session with
  | (Ok _, session) => Ok session
  | (Err e, _) => Err e
  end.

End Session.
