(* ===== verification/ToySession.v ===== *)
(** * Two concrete sessions

    The two ends of one handshake on the concrete primitives, for evaluating
    runs.  The initiator's and the responder's states are built with
    [build_protocol_state]. *)

From Stdlib Require Import ZArith List Bool Lia String.
From S2P Require Import Prelude Constants BTree SecureMemory Crypto Toy Nonce Proto ToyCodec SessionState Session.
Import ListNotations.
Open Scope string_scope.
Open Scope list_scope.
Open Scope Z_scope.

(** [n] bytes that depend on a seed. *)
Definition toy_bytes (seed n : Z) : bytes := map (fun i => (seed * 7 + i) mod 100 + 1) (zrange 0 n).

Definition toy_kyber (seed : Z) : bytes * bytes := mlkem_generate (toy_bytes seed 64).

(** One end: its own seed, its peer's, its role. *)
Definition toy_state (is_initiator : bool) (me peer : Z) (max_messages : Z) : PResult ProtocolState :=
  build_protocol_state is_initiator (toy_bytes 1 32) (toy_bytes 2 16) (toy_bytes 3 32)
    (toy_bytes me 32) (x25519_public (toy_bytes me 32)) (x25519_public (toy_bytes peer 32))
    (x25519_public (toy_bytes me 32)) (x25519_public (toy_bytes peer 32))
    (fst (toy_kyber me)) (snd (toy_kyber me)) (snd (toy_kyber peer))
    max_messages 1000 (mkNonceState (toy_bytes (me + 50) 8) 0) 1000
    (toy_bytes (me + 60) 32) (x25519_public (toy_bytes (me + 70) 32))
    (toy_bytes (peer + 60) 32) (x25519_public (toy_bytes (peer + 70) 32)).

Definition toy_handshake (is_initiator : bool) (me peer : Z) : PResult HandshakeState :=
  let? st := toy_state is_initiator me peer 100 in
  Ok (mkHandshakeState st (toy_bytes 4 32)).

Definition toy_session (is_initiator : bool) (me peer : Z) : PResult SessionInner :=
  let? hs := toy_handshake is_initiator me peer in
  from_handshake_state hs.

(** A session nothing can be done with, for the type checker. *)
Definition no_state : ProtocolState :=
  ProtocolState.mk 0 false None [] 0 0 0 [] None None None [] [] [] [] None [] None [] 0 0 [] [] [] [] [] 0 []
    false [] [] [] None None None 0 0.
Definition no_session : SessionInner :=
  SessionInner.mk no_state [] [] [] 0 [] [] false None None false false 0 [].

Definition toy_alice_hs : HandshakeState := unwrap_or (toy_handshake true 10 20) (mkHandshakeState no_state []).
Definition toy_alice : SessionInner := unwrap_or (toy_session true 10 20) no_session.
Definition toy_bob : SessionInner := unwrap_or (toy_session false 20 10) no_session.

Definition toy_clock : Clock := mkClock (Ok 2000) (Ok 2000) (Ok 2000).

Definition toy_entropy (seed : Z) : SendEntropy :=
  mkSendEntropy (toy_bytes seed 32) (toy_bytes (seed + 1) 32) (toy_bytes (seed + 2) 64)
    (toy_bytes (seed + 3) 32) (toy_bytes (seed + 4) 8) (toy_bytes (seed + 5) 12).

Lemma toy_alice_hs_ok : from_handshake_state toy_alice_hs = Ok toy_alice.
Proof. vm_compute. reflexivity. Qed.

Definition no_envelope : SecureEnvelope := SecureEnvelope.mk 0 [] [] [] 0 None None None None None.

(** Result and state of a run, with a default for a failure. *)
Definition toy_encrypt (payload : bytes) (seed : Z) (s : SessionInner) : SecureEnvelope * SessionInner :=
  let '(r, s') := encrypt payload 0 1 None toy_clock (toy_entropy seed) s in (unwrap_or r no_envelope, s').

Definition toy_decrypt (env : SecureEnvelope) (s : SessionInner) : PResult bytes * SessionInner :=
  let '(r, s') := decrypt env toy_clock s in
  (match r with Ok d => Ok (plaintext d) | Err e => Err e end, s').
