(* ===== verification/SessionPersist.v ===== *)
(** * Persistence and inspection of a session ([src/protocol/session.rs])

    [export_sealed_state] and [from_sealed_state] with the checks of
    [from_state_internal_with_time_provider], the getters and setters, and
    [destroy].  The key provider is an argument: the handle it returns. *)

From Stdlib Require Import ZArith List Bool Lia String.
From S2P Require Import Prelude Constants BTree SecureMemory Crypto Nonce Proto SessionState Session.
Import ListNotations.
Open Scope string_scope.
Open Scope list_scope.
Open Scope Z_scope.

(** The random values drawn by an export. *)
Record ExportEntropy : Type := mkExportEntropy { x_dek : bytes; x_dek_nonce : bytes; x_state_nonce : bytes }.

Section Persist.
Context `{P : Primitives} {CS : Prost ProtocolState} {CZ : Prost SealedState.t}.

(** ** Import *)

Definition sizes_ok (l : list (bytes * Z)) : bool := forallb (fun p => len (fst p) =? snd p) l.

(** The HMAC test; the state goes on without its tag. *)
Definition verify_state_hmac (state : ProtocolState) : PResult ProtocolState :=
  check? len (ProtocolState.state_hmac state) =? HMAC_BYTES
    else ProtocolError.invalid_input "State HMAC missing or invalid size — possible tampering" in
  check? negb (ProtocolState.state_counter state =? 0)
    else ProtocolError.invalid_input "State counter must be non-zero for imported state" in
  let saved_hmac := ProtocolState.state_hmac state in
  let state := ProtocolState.set_state_hmac [] state in
  let tmp := encode state in
  let? expected := compute_state_hmac (ProtocolState.root_key state) tmp in
  let? eq := crypto_err (constant_time_equals saved_hmac expected) in
  check? eq
    else ProtocolError.invalid_input "State HMAC verification failed — possible rollback or tampering" in
  Ok state.

(** Sizes of the key pairs, chains and nonce prefix, and the index bounds. *)
Definition check_state_material (state : ProtocolState) : PResult unit :=
  let? dh_local := ok_or (ProtocolState.dh_local state) (ProtocolError.invalid_input "Missing dh_local in state") in
  check? sizes_ok [(DhKeyPair.private_key dh_local, X25519_PRIVATE_KEY_BYTES);
                   (DhKeyPair.public_key dh_local, X25519_PUBLIC_KEY_BYTES);
                   (ProtocolState.dh_remote_public state, X25519_PUBLIC_KEY_BYTES)]
    else ProtocolError.invalid_input "Invalid DH key sizes in state" in
  check? sizes_ok [(ProtocolState.dh_local_initial_public state, X25519_PUBLIC_KEY_BYTES);
                   (ProtocolState.dh_remote_initial_public state, X25519_PUBLIC_KEY_BYTES)]
    else ProtocolError.invalid_input "Invalid initial DH public key sizes in state" in
  let? kyber_local := ok_or (ProtocolState.kyber_local state)
    (ProtocolError.invalid_input "Missing kyber_local in state") in
  check? sizes_ok [(KyberKeyPair.secret_key kyber_local, KYBER_SECRET_KEY_BYTES);
                   (KyberKeyPair.public_key kyber_local, KYBER_PUBLIC_KEY_BYTES);
                   (ProtocolState.kyber_remote_public state, KYBER_PUBLIC_KEY_BYTES)]
    else ProtocolError.invalid_input "Invalid Kyber key sizes in state" in
  let? send_chain := ok_or (ProtocolState.send_chain state)
    (ProtocolError.invalid_input "Missing send_chain in state") in
  let? recv_chain := ok_or (ProtocolState.recv_chain state)
    (ProtocolError.invalid_input "Missing recv_chain in state") in
  check? sizes_ok [(ChainState.chain_key send_chain, CHAIN_KEY_BYTES);
                   (ChainState.chain_key recv_chain, CHAIN_KEY_BYTES)]
    else ProtocolError.invalid_input "Invalid chain key sizes in state" in
  let? nonce_gen := ok_or (ProtocolState.nonce_generator state)
    (ProtocolError.invalid_input "Missing nonce_generator in state") in
  check? len (NonceStateProto.prefix nonce_gen) =? NONCE_PREFIX_BYTES
    else ProtocolError.invalid_input "Invalid nonce prefix size in state" in
  let max := ProtocolState.max_messages_per_chain state in
  check? negb ((max =? 0) || (MAX_MESSAGES_PER_CHAIN <? max))
    else ProtocolError.invalid_input "Invalid max messages per chain in state" in
  check? negb ((max <? ChainState.message_index send_chain) || (max <? ChainState.message_index recv_chain))
    else ProtocolError.invalid_input "Chain index exceeds max messages per chain" in
  let nonce_limit := if ProtocolState.max_nonce_counter state =? 0 then MAX_NONCE_COUNTER
                     else Z.min (ProtocolState.max_nonce_counter state) MAX_NONCE_COUNTER in
  check? negb (nonce_limit <? NonceStateProto.counter nonce_gen)
    else ProtocolError.invalid_state "Nonce counter exceeds maximum" in
  check? negb (is_all_zero (DhKeyPair.private_key dh_local))
    else ProtocolError.invalid_input "DH private key is all zeros" in
  check? negb (is_all_zero (KyberKeyPair.secret_key kyber_local))
    else ProtocolError.invalid_input "Kyber secret key is all zeros" in
  let? _ := validate_dh_public_key (DhKeyPair.public_key dh_local) in
  let? _ := validate_dh_public_key (ProtocolState.dh_remote_public state) in
  let? _ := validate_dh_public_key (ProtocolState.dh_local_initial_public state) in
  let? _ := validate_dh_public_key (ProtocolState.dh_remote_initial_public state) in
  let? _ := crypto_err (kyber_validate_public_key (KyberKeyPair.public_key kyber_local)) in
  let? _ := crypto_err (kyber_validate_public_key (ProtocolState.kyber_remote_public state)) in
  Ok tt.

Definition check_state_identity (state : ProtocolState) : PResult unit :=
  check? sizes_ok [(ProtocolState.local_identity_ed25519_public state, ED25519_PUBLIC_KEY_BYTES);
                   (ProtocolState.local_identity_x25519_public state, X25519_PUBLIC_KEY_BYTES);
                   (ProtocolState.peer_identity_ed25519_public state, ED25519_PUBLIC_KEY_BYTES);
                   (ProtocolState.peer_identity_x25519_public state, X25519_PUBLIC_KEY_BYTES)]
    else ProtocolError.invalid_input "Invalid identity key sizes in state" in
  check? len (ProtocolState.identity_binding_hash state) =? IDENTITY_BINDING_HASH_BYTES
    else ProtocolError.invalid_input "Missing or invalid identity binding hash" in
  let? computed_binding := compute_identity_binding_hash
    (ProtocolState.local_identity_ed25519_public state) (ProtocolState.local_identity_x25519_public state)
    (ProtocolState.peer_identity_ed25519_public state) (ProtocolState.peer_identity_x25519_public state) in
  let? eq := crypto_err (constant_time_equals computed_binding (ProtocolState.identity_binding_hash state)) in
  check? eq else ProtocolError.invalid_input "Identity binding hash verification failed" in
  Ok tt.

(** One entry of [state.skipped_keys]; the set of tuples seen so far is the key
    set of the map. *)
Definition load_skipped_entry (recv_epoch : Z) (skipped : BTreeMap.t (Z * Z) bytes)
    (cached : CachedMessageKey.t) : PResult (BTreeMap.t (Z * Z) bytes) :=
  check? len (CachedMessageKey.message_key cached) =? MESSAGE_KEY_BYTES
    else ProtocolError.invalid_input "Invalid skipped message key size in state" in
  check? negb (MAX_MESSAGE_INDEX <? CachedMessageKey.message_index cached)
    else ProtocolError.invalid_input "Cached message key index exceeds maximum" in
  check? negb (recv_epoch <? CachedMessageKey.epoch cached)
    else ProtocolError.invalid_input "Cached message key epoch exceeds current recv epoch" in
  let key := (CachedMessageKey.epoch cached, CachedMessageKey.message_index cached) in
  check? negb (BTreeMap.contains_key skipped key)
    else ProtocolError.invalid_input "Duplicate skipped message key" in
  Ok (BTreeMap.insert skipped key (CachedMessageKey.message_key cached)).

(** One entry of the older layout, inside [recv_chain]. *)
Definition load_chain_skipped_entry (recv_epoch recv_index : Z) (skipped : BTreeMap.t (Z * Z) bytes)
    (cached : CachedMessageKey.t) : PResult (BTreeMap.t (Z * Z) bytes) :=
  check? len (CachedMessageKey.message_key cached) =? MESSAGE_KEY_BYTES
    else ProtocolError.invalid_input "Invalid skipped message key size in state" in
  check? negb (recv_index <=? CachedMessageKey.message_index cached)
    else ProtocolError.invalid_input "Cached message key index out of range" in
  Ok (BTreeMap.insert skipped (recv_epoch, CachedMessageKey.message_index cached)
        (CachedMessageKey.message_key cached)).

Definition load_skipped (state : ProtocolState) (recv_chain : ChainState.t) :
    PResult (BTreeMap.t (Z * Z) bytes) :=
  check? negb (MAX_SKIPPED_MESSAGE_KEYS <? len (ProtocolState.skipped_keys state))
    else ProtocolError.invalid_input "Too many skipped message keys in state" in
  let epoch := ProtocolState.recv_ratchet_epoch state in
  let? skipped := foldR (load_skipped_entry epoch) (ProtocolState.skipped_keys state) BTreeMap.empty in
  let legacy := ChainState.skipped_message_keys recv_chain in
  if (len skipped =? 0) && negb (len legacy =? 0) then
    check? negb (MAX_SKIPPED_MESSAGE_KEYS <? len legacy)
      else ProtocolError.invalid_input "Too many skipped message keys in state" in
    foldR (load_chain_skipped_entry epoch (ChainState.message_index recv_chain)) legacy skipped
  else Ok skipped.

Definition load_metadata_entry (recv_epoch : Z) (cached_mk : BTreeMap.t Z bytes)
    (entry : CachedMetadataKey.t) : PResult (BTreeMap.t Z bytes) :=
  check? len (CachedMetadataKey.metadata_key entry) =? METADATA_KEY_BYTES
    else ProtocolError.invalid_input "Invalid cached metadata key size in state" in
  check? negb (recv_epoch <? CachedMetadataKey.epoch entry)
    else ProtocolError.invalid_input "Cached metadata key epoch exceeds current recv epoch" in
  check? negb (BTreeMap.contains_key cached_mk (CachedMetadataKey.epoch entry))
    else ProtocolError.invalid_input "Duplicate cached metadata key epoch" in
  Ok (BTreeMap.insert cached_mk (CachedMetadataKey.epoch entry) (CachedMetadataKey.metadata_key entry)).

Definition load_cached_metadata (state : ProtocolState) : PResult (BTreeMap.t Z bytes) :=
  check? negb (MAX_CACHED_METADATA_KEYS <? len (ProtocolState.cached_metadata_keys state))
    else ProtocolError.invalid_input "Too many cached metadata keys in state" in
  foldR (load_metadata_entry (ProtocolState.recv_ratchet_epoch state))
    (ProtocolState.cached_metadata_keys state) BTreeMap.empty.

Definition clear_chain (c : option ChainState.t) : option ChainState.t :=
  option_map (ChainState.set_skipped_message_keys []) c.

(** What is kept of the imported state: the caches live in [SessionInner]. *)
Definition sanitize (state : ProtocolState) : ProtocolState :=
  let s := ProtocolState.set_state_hmac [] state in
  let s := ProtocolState.set_seen_payload_nonces [] s in
  let s := ProtocolState.set_skipped_keys [] s in
  let s := ProtocolState.set_cached_metadata_keys [] s in
  let s := ProtocolState.set_send_chain (clear_chain (ProtocolState.send_chain s)) s in
  ProtocolState.set_recv_chain (clear_chain (ProtocolState.recv_chain s)) s.

Definition from_state_internal (state : ProtocolState) : PResult SessionInner :=
  check? ProtocolState.version state =? PROTOCOL_VERSION
    else ProtocolError.invalid_input "Invalid protocol version in state" in
  let state := match ProtocolState.send_metadata_key state with
               | [] => ProtocolState.set_send_metadata_key (ProtocolState.metadata_key state) state
               | _ => state
               end in
  check? sizes_ok [(ProtocolState.session_id state, SESSION_ID_BYTES);
                   (ProtocolState.root_key state, ROOT_KEY_BYTES);
                   (ProtocolState.metadata_key state, METADATA_KEY_BYTES);
                   (ProtocolState.send_metadata_key state, METADATA_KEY_BYTES)]
    else ProtocolError.invalid_input "Invalid session key material sizes" in
  let? state := verify_state_hmac state in
  let? _ := check_state_material state in
  let? _ := check_state_identity state in
  let? send_chain := ok_or (ProtocolState.send_chain state)
    (ProtocolError.invalid_input "Missing send_chain in state") in
  let? recv_chain := ok_or (ProtocolState.recv_chain state)
    (ProtocolError.invalid_input "Missing recv_chain in state") in
  check? len (ChainState.skipped_message_keys send_chain) =? 0
    else ProtocolError.invalid_input "Send chain must not include skipped message keys" in
  let? skipped := load_skipped state recv_chain in
  let? cached_mk := load_cached_metadata state in
  let replay_epoch := ProtocolState.replay_epoch state in
  let? (seen, order) := rebuild_seen_payload_nonce_cache (ProtocolState.seen_payload_nonces state) in
  let sanitized := sanitize state in
  let? (dh_private_handle, sanitized) := take_dh_private sanitized in
  let? (kyber_secret_handle, sanitized) := take_kyber_secret sanitized in
  Ok (SessionInner.mk sanitized [] skipped cached_mk replay_epoch seen order
        (ProtocolState.is_initiator sanitized) dh_private_handle kyber_secret_handle
        (ProtocolState.send_ratchet_pending sanitized) false 0 []).

(** ** Export *)

(** [if let (Some(pair), Some(handle)) = .. { pair.secret = handle.read_bytes(n)? }] *)
Definition put_dh_private (inner : SessionInner) (copy : ProtocolState) : PResult ProtocolState :=
  match ProtocolState.dh_local copy, SessionInner.dh_private_handle inner with
  | Some dh, Some handle =>
      let? k := crypto_err (SecureMemoryHandle.read_bytes handle X25519_PRIVATE_KEY_BYTES) in
      Ok (ProtocolState.set_dh_local (Some (DhKeyPair.set_private_key k dh)) copy)
  | _, _ => Ok copy
  end.

Definition put_kyber_secret (inner : SessionInner) (copy : ProtocolState) : PResult ProtocolState :=
  match ProtocolState.kyber_local copy, SessionInner.kyber_secret_handle inner with
  | Some kyber, Some handle =>
      let? k := crypto_err (SecureMemoryHandle.read_bytes handle KYBER_SECRET_KEY_BYTES) in
      Ok (ProtocolState.set_kyber_local (Some (KyberKeyPair.set_secret_key k kyber)) copy)
  | _, _ => Ok copy
  end.

(** The self-contained copy of the session that is serialised. *)
Definition export_copy (inner : SessionInner) (next_gen : Z) : PResult ProtocolState :=
  let copy := SessionInner.state inner in
  let copy := ProtocolState.set_send_chain (clear_chain (ProtocolState.send_chain copy)) copy in
  let copy := ProtocolState.set_recv_chain (clear_chain (ProtocolState.recv_chain copy)) copy in
  let copy := ProtocolState.set_state_counter next_gen copy in
  let copy := ProtocolState.set_state_hmac [] copy in
  let? copy := put_dh_private inner copy in
  let? copy := put_kyber_secret inner copy in
  let copy := ProtocolState.set_replay_epoch (SessionInner.replay_epoch inner) copy in
  let copy := ProtocolState.set_seen_payload_nonces (SessionInner.seen_payload_nonce_order inner) copy in
  let copy := ProtocolState.set_skipped_keys
    (map (fun e => CachedMessageKey.mk (snd (fst e)) (snd e) (fst (fst e)))
       (SessionInner.skipped_message_keys inner)) copy in
  let copy := ProtocolState.set_cached_metadata_keys
    (map (fun e => CachedMetadataKey.mk (fst e) (snd e)) (SessionInner.cached_metadata_keys inner)) copy in
  Ok copy.

Definition SEALED_STATE_VERSION : Z := 1.

Definition sealed_dek_aad (external_counter : Z) : bytes :=
  SEALED_STATE_VERSION :: to_le_bytes 8 external_counter.

Definition sealed_state_aad (dek_nonce encrypted_dek : bytes) : bytes :=
  SEALED_STATE_VERSION :: dek_nonce ++ encrypted_dek.

(** The closure of [export_sealed_state]: serialise, authenticate, wrap. *)
Definition seal_copy (kek : PResult SecureMemoryHandle.t) (external_counter : Z) (ent : ExportEntropy)
    (copy : ProtocolState) : PResult bytes :=
  let copy := ProtocolState.set_state_hmac [] copy in
  let tmp := encode copy in
  let? hmac := compute_state_hmac (ProtocolState.root_key copy) tmp in
  let copy := ProtocolState.set_state_hmac hmac copy in
  let plaintext_state := encode copy in
  let? kek_handle := kek in
  let? kek_bytes := crypto_err (SecureMemoryHandle.read_bytes kek_handle AES_KEY_BYTES) in
  let dek := x_dek ent in
  let dek_nonce := x_dek_nonce ent in
  let state_nonce := x_state_nonce ent in
  let? encrypted_dek := aes_encrypt kek_bytes dek_nonce dek (sealed_dek_aad external_counter) in
  let? encrypted_state :=
    aes_encrypt dek state_nonce plaintext_state (sealed_state_aad dek_nonce encrypted_dek) in
  Ok (encode (SealedState.mk SEALED_STATE_VERSION dek_nonce state_nonce encrypted_dek encrypted_state
                external_counter)).

Definition export_sealed_state (kek : PResult SecureMemoryHandle.t) (external_counter : Z)
    (ent : ExportEntropy) : SM bytes :=
  do! sguard (negb (external_counter =? 0))
        (ProtocolError.invalid_input "External sealed-state counter must be > 0");
  do inner <- sget (fun i => i);
  do! sguard (negb (ProtocolState.version (SessionInner.state inner) =? 0))
        (ProtocolError.invalid_state "Session has been destroyed");
  do! sguard (negb (ProtocolState.state_counter (SessionInner.state inner) =? u64_max))
        (ProtocolError.invalid_state "State counter overflow");
  let previous_gen := ProtocolState.state_counter (SessionInner.state inner) in
  let next_gen := previous_gen + 1 in
  do copy <- slift (export_copy inner next_gen);
  do! smod (upd_state (ProtocolState.set_state_counter next_gen));
  on_err (slift (seal_copy kek external_counter ent copy))
    (fun i => if ProtocolState.state_counter (SessionInner.state i) =? next_gen
              then upd_state (ProtocolState.set_state_counter previous_gen) i else i).

(** ** Import of a sealed state *)

Definition from_sealed_state (sealed_data : bytes) (kek : PResult SecureMemoryHandle.t)
    (min_external_counter : Z) : PResult SessionInner :=
  check? negb (MAX_PROTOBUF_MESSAGE_SIZE <? len sealed_data)
    else ProtocolError.invalid_input "Sealed state too large" in
  let? sealed := ok_or (decode sealed_data) (ProtocolError.decode "Failed to parse sealed state: {e}") in
  check? SealedState.version sealed =? SEALED_STATE_VERSION
    else ProtocolError.invalid_input "Unsupported sealed state version" in
  check? negb (negb (len (SealedState.dek_nonce sealed) =? AES_GCM_NONCE_BYTES) ||
               negb (len (SealedState.state_nonce sealed) =? AES_GCM_NONCE_BYTES))
    else ProtocolError.invalid_input "Invalid nonce size in sealed state" in
  check? negb (SealedState.external_counter sealed =? 0)
    else ProtocolError.invalid_input "Sealed state external counter must be > 0" in
  check? negb (SealedState.external_counter sealed <? min_external_counter)
    else ProtocolError.invalid_state "Sealed session state rollback detected by external counter" in
  let? kek_handle := kek in
  let? kek_bytes := crypto_err (SecureMemoryHandle.read_bytes kek_handle AES_KEY_BYTES) in
  let? dek := map_err (fun _ => ProtocolError.generic "Decryption failed - invalid key or tampered data")
    (aes_decrypt kek_bytes (SealedState.dek_nonce sealed) (SealedState.encrypted_dek sealed)
       (sealed_dek_aad (SealedState.external_counter sealed))) in
  let? plaintext_state :=
    map_err (fun _ => ProtocolError.generic "Decryption failed - invalid key or tampered data")
    (aes_decrypt dek (SealedState.state_nonce sealed) (SealedState.encrypted_state sealed)
       (sealed_state_aad (SealedState.dek_nonce sealed) (SealedState.encrypted_dek sealed))) in
  let? state_proto := ok_or (decode plaintext_state)
    (ProtocolError.decode "Failed to parse protocol state: {e}") in
  from_state_internal state_proto.

Definition sealed_state_external_counter (sealed_data : bytes) : PResult Z :=
  check? negb (MAX_PROTOBUF_MESSAGE_SIZE <? len sealed_data)
    else ProtocolError.invalid_input "Sealed state too large" in
  let? sealed := ok_or (decode sealed_data) (ProtocolError.decode "Failed to parse sealed state: {e}") in
  Ok (SealedState.external_counter sealed).

(** ** Inspection *)

Record SessionMetadata : Type := mkSessionMetadata {
  sm_session_id : bytes;
  sm_is_initiator : bool;
  sm_send_ratchet_epoch : Z;
  sm_recv_ratchet_epoch : Z;
  sm_send_message_index : Z;
  sm_recv_message_index : Z;
  sm_nonce_remaining : Z;
  sm_skipped_keys_count : Z;
  sm_cached_metadata_keys_count : Z;
  sm_state_counter : Z;
  sm_total_messages_sent : Z;
  sm_total_messages_received : Z;
  sm_device_id : option bytes;
  sm_session_ttl_seconds : option Z;
  sm_last_activity_unix : option Z }.

Definition chain_index (c : option ChainState.t) : Z :=
  match c with Some c => ChainState.message_index c | None => 0 end.

Definition nonce_remaining (inner : SessionInner) : PResult Z :=
  let? ng := load_nonce_generator (SessionInner.state inner) in
  let counter := ns_counter (export_state ng) in
  Ok (saturating_sub (effective_chain_nonce_budget (SessionInner.state inner)) counter).

Definition not_destroyed (inner : SessionInner) : bool :=
  negb (ProtocolState.version (SessionInner.state inner) =? 0).

Definition get_metadata (inner : SessionInner) : PResult SessionMetadata :=
  let st := SessionInner.state inner in
  check? not_destroyed inner else ProtocolError.invalid_state "Session has been destroyed" in
  let? nonce_remaining := nonce_remaining inner in
  Ok (mkSessionMetadata (ProtocolState.session_id st) (SessionInner.is_initiator inner)
        (ProtocolState.send_ratchet_epoch st) (ProtocolState.recv_ratchet_epoch st)
        (chain_index (ProtocolState.send_chain st)) (chain_index (ProtocolState.recv_chain st))
        nonce_remaining (len (SessionInner.skipped_message_keys inner))
        (len (SessionInner.cached_metadata_keys inner)) (ProtocolState.state_counter st)
        (ProtocolState.total_messages_sent st) (ProtocolState.total_messages_received st)
        (ProtocolState.device_id st) (ProtocolState.session_ttl_seconds st)
        (ProtocolState.last_activity_unix st)).

(** [is_expired] repeats the tests of [check_inner_expired]. *)
Definition is_expired (inner : SessionInner) (now : PResult Z) : PResult bool :=
  check? not_destroyed inner else ProtocolError.invalid_state "Session has been destroyed" in
  let st := SessionInner.state inner in
  match ProtocolState.session_ttl_seconds st with
  | None => Ok false
  | Some ttl =>
      let? now := now in
      if match ProtocolState.last_activity_unix st with
         | Some last => ttl <? saturating_sub now last
         | None => false
         end
      then Ok true
      else
        match ProtocolState.created_at st with
        | Some created => Ok (ttl <? saturating_sub now (wrap 64 (Timestamp.seconds created)))
        | None => Ok false
        end
  end.

Definition get_device_id (inner : SessionInner) : PResult (option bytes) :=
  check? not_destroyed inner else ProtocolError.invalid_state "Session has been destroyed" in
  Ok (ProtocolState.device_id (SessionInner.state inner)).

Definition set_device_id (device_id : bytes) : SM unit :=
  do! sguard (len device_id =? DEVICE_ID_BYTES)
        (ProtocolError.invalid_input "device_id must be exactly DEVICE_ID_BYTES");
  do inner <- sget (fun i => i);
  do! sguard (not_destroyed inner) (ProtocolError.invalid_state "Session has been destroyed");
  smod (upd_state (ProtocolState.set_device_id (Some device_id))).

Definition set_session_ttl (ttl_seconds : option Z) : SM unit :=
  do! sguard match ttl_seconds with
             | Some ttl => (MIN_SESSION_TTL_SECONDS <=? ttl) && (ttl <=? MAX_SESSION_TTL_SECONDS)
             | None => true
             end (ProtocolError.invalid_input "TTL out of allowed range");
  do inner <- sget (fun i => i);
  do! sguard (not_destroyed inner) (ProtocolError.invalid_state "Session has been destroyed");
  smod (upd_state (ProtocolState.set_session_ttl_seconds ttl_seconds)).

Definition set_event_handler (inner : SessionInner) : SessionInner := SessionInner.set_event_handler true inner.

(** ** Destruction *)

Definition destroy_state (s : ProtocolState) : ProtocolState :=
  let s := ProtocolState.set_root_key (secure_wipe (ProtocolState.root_key s)) s in
  let s := ProtocolState.set_metadata_key (secure_wipe (ProtocolState.metadata_key s)) s in
  let s := ProtocolState.set_send_metadata_key (secure_wipe (ProtocolState.send_metadata_key s)) s in
  let s := ProtocolState.set_send_chain (option_map wipe_chain (ProtocolState.send_chain s)) s in
  let s := ProtocolState.set_recv_chain (option_map wipe_chain (ProtocolState.recv_chain s)) s in
  let s := ProtocolState.set_dh_local
    (option_map (fun d => DhKeyPair.set_private_key (secure_wipe (DhKeyPair.private_key d)) d)
       (ProtocolState.dh_local s)) s in
  let s := ProtocolState.set_kyber_local
    (option_map (fun k => KyberKeyPair.set_secret_key (secure_wipe (KyberKeyPair.secret_key k)) k)
       (ProtocolState.kyber_local s)) s in
  let s := ProtocolState.set_identity_binding_hash (secure_wipe (ProtocolState.identity_binding_hash s)) s in
  let s := ProtocolState.set_session_id (secure_wipe (ProtocolState.session_id s)) s in
  let s := ProtocolState.set_state_hmac (secure_wipe (ProtocolState.state_hmac s)) s in
  ProtocolState.set_version 0 s.

Definition destroy (inner : SessionInner) : SessionInner :=
  let i := SessionInner.set_state (destroy_state (SessionInner.state inner)) inner in
  let i := SessionInner.set_dh_private_handle None i in
  let i := SessionInner.set_kyber_secret_handle None i in
  let i := SessionInner.set_skipped_message_keys BTreeMap.empty i in
  let i := SessionInner.set_cached_metadata_keys BTreeMap.empty i in
  let i := SessionInner.set_pending_kyber_shared_secret
             (secure_wipe (SessionInner.pending_kyber_shared_secret i)) i in
  let i := SessionInner.set_seen_payload_nonces [] i in
  SessionInner.set_seen_payload_nonce_order [] i.

Definition is_destroyed (inner : SessionInner) : bool :=
  ProtocolState.version (SessionInner.state inner) =? 0.

End Persist.
