(* ===== verification/SessionChain.v ===== *)
(** * Chains and caches of a session

    Closed forms of the loops of [session.rs]: deriving along a chain, caching
    the keys of skipped messages, making room in the cache; the seen-nonce set.
    [get_recv_message_key_eq] and [skip_old_chain_keys_eq] give the receiving
    functions on every branch. *)

From Stdlib Require Import ZArith List Bool Lia String.
From S2P Require Import Prelude Constants BTree SecureMemory Crypto Nonce Proto SessionState Session.
Import ListNotations.
Open Scope string_scope.
Open Scope list_scope.
Open Scope Z_scope.

(** ** Eviction *)

Section Evict.
Context {K V : Type} `{O : OrdKey K} {L : OrdKeyLaws K}.

Lemma pop_while_none (p : K -> bool) (m : BTreeMap.t K V) :
  (forall k v, In (k, v) m -> p k = false) -> BTreeMap.pop_while p m = m.
Proof.
  destruct m as [|[k v] m]; simpl; [reflexivity|]. intros H. rewrite (H k v); auto.
Qed.

(** [suffix m' m]: [m'] is what is left of [m] after some evictions. *)
Definition suffix (m' m : BTreeMap.t K V) : Prop := exists n, m' = skipn n m.

Lemma suffix_refl m : suffix m m.
Proof. now exists 0%nat. Qed.

Lemma suffix_trans m1 m2 m3 : suffix m1 m2 -> suffix m2 m3 -> suffix m1 m3.
Proof. intros [n ->] [k ->]. exists (n + k)%nat. now rewrite skipn_skipn. Qed.

Lemma suffix_sorted m m' : suffix m' m -> BTreeMap.sorted m -> BTreeMap.sorted m'.
Proof. intros [n ->]. apply BTreeMap.skipn_sorted. Qed.

Lemma suffix_get m m' k v : suffix m' m -> BTreeMap.sorted m ->
  BTreeMap.get m' k = Some v -> BTreeMap.get m k = Some v.
Proof. intros [n ->] Hs. now apply BTreeMap.get_skipn. Qed.

Lemma suffix_get_none m m' k : suffix m' m -> BTreeMap.sorted m ->
  BTreeMap.get m k = None -> BTreeMap.get m' k = None.
Proof.
  intros Hx Hs Hn. destruct (BTreeMap.get m' k) eqn:E; [|reflexivity].
  now rewrite (suffix_get _ _ _ _ Hx Hs E) in Hn.
Qed.

Lemma suffix_len m m' : suffix m' m -> len m' <= len m.
Proof. intros [n ->]. rewrite len_skipn. pose proof (len_nonneg m). lia. Qed.

Lemma remove_absent (m : BTreeMap.t K V) k : BTreeMap.get m k = None -> BTreeMap.remove m k = m.
Proof.
  induction m as [|[k' v'] m IH]; simpl; [reflexivity|].
  destruct (BTreeMap.key_eqb k k'); [discriminate|]. intros H. now rewrite IH.
Qed.

Lemma len_remove_present (m : BTreeMap.t K V) k v :
  BTreeMap.get m k = Some v -> len (BTreeMap.remove m k) = len m - 1.
Proof.
  induction m as [|[k' v'] m IH]; cbn [BTreeMap.get BTreeMap.remove]; [discriminate|].
  destruct (BTreeMap.key_eqb k k'); intros H; rewrite ?len_cons; [lia|]. rewrite IH by assumption. lia.
Qed.

End Evict.

(** ** Chains *)

Section Chain.
Context `{P : Primitives} {L : PrimitiveLaws P}.

Definition chain_msg (ck : bytes) : bytes := kdf ck MESSAGE_KEY_BYTES [] MESSAGE_INFO.
Definition chain_step (ck : bytes) : bytes := kdf ck CHAIN_KEY_BYTES [] CHAIN_INFO.

(** The chain key after [n] messages. *)
Fixpoint chain_at (n : nat) (ck : bytes) : bytes :=
  match n with O => ck | S n => chain_at n (chain_step ck) end.

Lemma derive_eq ck : derive_message_and_chain_key ck = Ok (chain_msg ck, chain_step ck).
Proof. apply derive_message_and_chain_key_ok. Qed.

Lemma chain_at_add n m ck : chain_at (n + m) ck = chain_at m (chain_at n ck).
Proof. revert ck. induction n; intros ck; simpl; auto. Qed.

Lemma chain_at_S n ck : chain_at (S n) ck = chain_step (chain_at n ck).
Proof. replace (S n) with (n + 1)%nat by lia. apply chain_at_add. Qed.

Lemma len_chain_step ck : len (chain_step ck) = CHAIN_KEY_BYTES.
Proof. now apply kdf_len. Qed.

Lemma len_chain_msg ck : len (chain_msg ck) = MESSAGE_KEY_BYTES.
Proof. now apply kdf_len. Qed.

Lemma len_chain_at n ck : len ck = CHAIN_KEY_BYTES -> len (chain_at n ck) = CHAIN_KEY_BYTES.
Proof. revert ck. induction n; intros ck H; simpl; auto using len_chain_step. Qed.

(** The cache after the loop that skips [n] messages. *)
Fixpoint insert_keys (n : nat) (epoch idx : Z) (ck : bytes) (m : BTreeMap.t (Z * Z) bytes) :
    BTreeMap.t (Z * Z) bytes :=
  match n with
  | O => m
  | S n => insert_keys n epoch (idx + 1) (chain_step ck) (BTreeMap.insert m (epoch, idx) (chain_msg ck))
  end.

Lemma insert_keys_sorted n epoch idx ck m :
  BTreeMap.sorted m -> BTreeMap.sorted (insert_keys n epoch idx ck m).
Proof.
  revert idx ck m. induction n as [|n IH]; intros idx ck m H; simpl; [assumption|].
  apply IH. now apply BTreeMap.insert_sorted.
Qed.

Lemma len_insert_keys n epoch idx ck m :
  BTreeMap.sorted m -> len (insert_keys n epoch idx ck m) <= len m + Z.of_nat n.
Proof.
  revert idx ck m. induction n as [|n IH]; intros idx ck m H; cbn [insert_keys]; [lia|].
  etransitivity; [apply IH; now apply BTreeMap.insert_sorted|].
  pose proof (BTreeMap.len_insert_le m (epoch, idx) (chain_msg ck) H). lia.
Qed.

Lemma get_insert_keys_out n epoch idx ck m e i :
  ~ (e = epoch /\ idx <= i < idx + Z.of_nat n) ->
  BTreeMap.get (insert_keys n epoch idx ck m) (e, i) = BTreeMap.get m (e, i).
Proof.
  revert idx ck m. induction n as [|n IH]; intros idx ck m H; cbn [insert_keys]; [reflexivity|].
  rewrite IH by lia. apply BTreeMap.get_insert_neq. intros [= -> ->]. lia.
Qed.

Lemma get_insert_keys_in n epoch idx ck m i :
  idx <= i < idx + Z.of_nat n ->
  BTreeMap.get (insert_keys n epoch idx ck m) (epoch, i) =
  Some (chain_msg (chain_at (Z.to_nat (i - idx)) ck)).
Proof.
  revert idx ck m. induction n as [|n IH]; intros idx ck m H; cbn [insert_keys]; [lia|].
  destruct (Z.eq_dec i idx) as [->|Hn].
  - rewrite get_insert_keys_out by lia. rewrite BTreeMap.get_insert_eq.
    now rewrite Z.sub_diag.
  - rewrite IH by lia. now replace (Z.to_nat (i - idx)) with (S (Z.to_nat (i - (idx + 1)))) by lia.
Qed.

Lemma skip_loop_eq n epoch idx ck s :
  skip_loop n epoch idx ck s =
  (Ok (chain_at n ck), SessionInner.set_skipped_message_keys
     (insert_keys n epoch idx ck (SessionInner.skipped_message_keys s)) s).
Proof.
  revert idx ck s. induction n as [|n IH]; intros idx ck s.
  - now destruct s.
  - cbn [skip_loop]. unfold sbind, slift. rewrite derive_eq. cbn [smod]. rewrite IH. reflexivity.
Qed.

Lemma recv_loop_eq n epoch idx ck s rc :
  ProtocolState.recv_chain (SessionInner.state s) = Some rc ->
  recv_loop n epoch idx ck s =
  (Ok (chain_msg (chain_at n ck)),
   set_recv_progress (chain_at (S n) ck) (idx + Z.of_nat n + 1)
     (SessionInner.set_skipped_message_keys
        (insert_keys n epoch idx ck (SessionInner.skipped_message_keys s)) s)).
Proof.
  revert idx ck s. induction n as [|n IH]; intros idx ck s Hrc.
  - cbn [recv_loop]. unfold sbind, slift. rewrite derive_eq. unfold get_recv_chain, sbind, sget, slift.
    rewrite Hrc. cbn [ok_or]. unfold smod, sret, set_recv_progress. rewrite Z.add_0_r. now destruct s.
  - cbn [recv_loop]. unfold sbind, slift. rewrite derive_eq. cbn [smod].
    unfold sbind in IH. rewrite IH by exact Hrc. cbn [chain_at]. f_equal. f_equal. lia.
Qed.

End Chain.

(** ** The receiving functions *)

Definition recv_epoch (s : SessionInner) : Z := ProtocolState.recv_ratchet_epoch (SessionInner.state s).

(** The keys [reserve_skipped_capacity needed] keeps. *)
Definition reserved (needed : Z) (s : SessionInner) : BTreeMap.t (Z * Z) bytes :=
  pop_over (MAX_SKIPPED_MESSAGE_KEYS - needed)
    (BTreeMap.pop_while (fun k => fst k <? saturating_sub (recv_epoch s) MAX_SKIPPED_KEY_EPOCH_AGE)
       (SessionInner.skipped_message_keys s)).

Lemma reserved_suffix needed s : suffix (reserved needed s) (SessionInner.skipped_message_keys s).
Proof.
  unfold reserved. eapply suffix_trans; [apply pop_over_suffix|apply BTreeMap.pop_while_suffix].
Qed.

Lemma len_reserved needed s :
  needed <= MAX_SKIPPED_MESSAGE_KEYS -> len (reserved needed s) <= MAX_SKIPPED_MESSAGE_KEYS - needed.
Proof. intros H. apply len_pop_over. lia. Qed.

Lemma reserve_eq needed s :
  reserve_skipped_capacity needed s =
  if MAX_SKIPPED_MESSAGE_KEYS <? needed then (Err (ProtocolError.invalid_state "Message key cache overflow"), s)
  else (Ok tt, SessionInner.set_skipped_message_keys (reserved needed s) s).
Proof.
  unfold reserve_skipped_capacity, sbind, sguard, slift, ensure, smod.
  destruct (MAX_SKIPPED_MESSAGE_KEYS <? needed); reflexivity.
Qed.

Section Recv.
Context `{P : Primitives} {L : PrimitiveLaws P} {C : Prost EnvelopeMetadata}.

(** The state after the chain [rc] gave the key of message [i]: [i - index]
    keys cached, the chain past [i]. *)
Definition advanced (rc : ChainState.t) (i : Z) (s : SessionInner) : SessionInner :=
  let span := i - ChainState.message_index rc in
  set_recv_progress (chain_at (S (Z.to_nat span)) (ChainState.chain_key rc)) (i + 1)
    (SessionInner.set_skipped_message_keys
       (insert_keys (Z.to_nat span) (recv_epoch s) (ChainState.message_index rc)
          (ChainState.chain_key rc) (reserved span s)) s).

Lemma get_recv_message_key_eq i s :
  get_recv_message_key i s =
  match ProtocolState.recv_chain (SessionInner.state s) with
  | None => (Err (ProtocolError.invalid_state "Recv chain not initialized"), s)
  | Some rc =>
      if negb (len (ChainState.chain_key rc) =? CHAIN_KEY_BYTES)
      then (Err (ProtocolError.invalid_state "Receiving chain key missing"), s)
      else if MAX_MESSAGE_INDEX <? i
      then (Err (ProtocolError.invalid_input "Message index exceeds maximum"), s)
      else if i <? ChainState.message_index rc then
        match BTreeMap.get (SessionInner.skipped_message_keys s) (recv_epoch s, i) with
        | Some k => (Ok k, SessionInner.set_skipped_message_keys
                             (BTreeMap.remove (SessionInner.skipped_message_keys s) (recv_epoch s, i)) s)
        | None => (Err (ProtocolError.replay_attack "Replay attack detected: message index already processed"), s)
        end
      else if MAX_SKIPPED_MESSAGE_KEYS <? i - ChainState.message_index rc
      then (Err (ProtocolError.invalid_state "Message key cache overflow"), s)
      else (Ok (chain_msg (chain_at (Z.to_nat (i - ChainState.message_index rc)) (ChainState.chain_key rc))),
            advanced rc i s)
  end.
Proof.
  unfold get_recv_message_key, get_recv_chain.
  unfold sbind at 1 2 3. unfold sget, slift at 1.
  destruct (ProtocolState.recv_chain (SessionInner.state s)) as [rc|] eqn:Hrc; [|reflexivity]. cbn [ok_or].
  unfold sbind at 1 2. unfold sguard at 1, slift at 1.
  destruct (len (ChainState.chain_key rc) =? CHAIN_KEY_BYTES); [|reflexivity]. cbn [ensure negb].
  unfold sguard, slift at 1. destruct (MAX_MESSAGE_INDEX <? i); [reflexivity|]. cbn [ensure negb].
  destruct (Z.ltb_spec i (ChainState.message_index rc)).
  - unfold try_skipped_key, sbind, sget, smod, sret, slift, recv_epoch. cbn [ok_or].
    destruct (BTreeMap.get _ _) eqn:Eg; [reflexivity|]. cbn [ok_or]. rewrite remove_absent by exact Eg.
    now destruct s.
  - replace (saturating_sub i (ChainState.message_index rc)) with (i - ChainState.message_index rc)
      by (unfold saturating_sub; lia).
    unfold sbind at 1. rewrite reserve_eq. case_if; [reflexivity|].
    unfold sbind, sget, slift.
    cbn [SessionInner.state SessionInner.set_skipped_message_keys]. rewrite Hrc. cbn [ok_or].
    rewrite (recv_loop_eq _ _ _ _ _ rc) by exact Hrc. unfold advanced, recv_epoch.
    do 2 f_equal. lia.
Qed.

(** Caching what is left of the old chain before a ratchet step. *)
Definition skipped_to (rc : ChainState.t) (i : Z) (s : SessionInner) : SessionInner :=
  let count := i - ChainState.message_index rc in
  set_recv_progress (chain_at (Z.to_nat count) (ChainState.chain_key rc)) i
    (SessionInner.set_skipped_message_keys
       (insert_keys (Z.to_nat count) (recv_epoch s) (ChainState.message_index rc)
          (ChainState.chain_key rc) (reserved count s)) s).

Lemma skip_old_chain_keys_Ok pcl s u s' :
  skip_old_chain_keys pcl s = (Ok u, s') ->
  exists rc, ProtocolState.recv_chain (SessionInner.state s) = Some rc /\
    len (ChainState.chain_key rc) = CHAIN_KEY_BYTES /\
    ((pcl <= ChainState.message_index rc /\ s' = s) \/
     (ChainState.message_index rc < pcl /\ pcl - ChainState.message_index rc <= MAX_SKIPPED_MESSAGE_KEYS /\
      s' = skipped_to rc pcl s)).
Proof.
  unfold skip_old_chain_keys, get_recv_chain. intros H. inv_stm. inv_ok.
  match goal with H : ProtocolState.recv_chain _ = Some ?rc |- _ => exists rc; split; [exact H|]; rename H into Hrc end.
  bools. split; [assumption|]. case_if_in H; bools; inv_stm; [now left|right].
  rewrite reserve_eq in Hc. case_if_in Hc; [discriminate|]. bools. inv_stm. repeat split; [lia..|].
  cbn [SessionInner.state SessionInner.set_skipped_message_keys] in Hc1. rewrite Hrc in Hc1. inv_ok.
  rewrite skip_loop_eq in Hc2. inv_stm. reflexivity.
Qed.

Lemma skip_old_chain_keys_run pcl s rc :
  ProtocolState.recv_chain (SessionInner.state s) = Some rc ->
  len (ChainState.chain_key rc) = CHAIN_KEY_BYTES ->
  0 < ProtocolState.max_messages_per_chain (SessionInner.state s) <= MAX_MESSAGES_PER_CHAIN ->
  pcl <= ProtocolState.max_messages_per_chain (SessionInner.state s) ->
  pcl - ChainState.message_index rc <= MAX_SKIPPED_MESSAGE_KEYS ->
  skip_old_chain_keys pcl s =
  (Ok tt, if pcl <=? ChainState.message_index rc then s else skipped_to rc pcl s).
Proof.
  intros Hrc Hk Hm Hp Hs. unfold skip_old_chain_keys, get_recv_chain.
  unfold sbind, sget, slift. rewrite Hrc. cbn [ok_or]. unfold sguard, slift. rewrite Hk, Z.eqb_refl.
  set (mx := ProtocolState.max_messages_per_chain _) in *.
  rewrite (proj2 (Z.eqb_neq mx 0)), (proj2 (Z.ltb_ge MAX_MESSAGES_PER_CHAIN mx)),
    (proj2 (Z.ltb_ge mx pcl)) by lia. cbn [ensure negb orb].
  case_if; [reflexivity|]. rewrite reserve_eq, (proj2 (Z.ltb_ge _ _)) by lia.
  cbn [SessionInner.state SessionInner.set_skipped_message_keys]. rewrite Hrc. cbn [ok_or].
  rewrite skip_loop_eq. reflexivity.
Qed.

End Recv.
