(* ===== verification/SessionRecv.v ===== *)
(** * The receiving side, step by step

    Inversion of successful and failed runs of [apply_recv_ratchet],
    [decrypt_message] and [decrypt]: which intermediate states a run goes
    through and what its result is.  The invariants, the rollback theorems and
    the round trip are proved from these. *)

From Stdlib Require Import ZArith List Bool Lia String.
From S2P Require Import Prelude Constants BTree SeenSet SecureMemory Crypto Padding Nonce Proto SessionState Session SessionChain.
Import ListNotations.
Open Scope string_scope.
Open Scope list_scope.
Open Scope Z_scope.

Section Recv.
Context `{P : Primitives} {L : PrimitiveLaws P} {C : Prost EnvelopeMetadata}.

(** ** The ratchet step *)

(** The assignments of a successful [apply_recv_ratchet], after the old chain
    was skipped. *)
Definition ratcheted (keys : bytes * bytes * bytes) (dh_public new_kyber_pk : bytes) (s : SessionInner) :
    SessionInner :=
  let '(new_root, new_chain, new_metadata) := keys in
  let st := SessionInner.state s in
  let next_epoch := ProtocolState.recv_ratchet_epoch st + 1 in
  let s := SessionInner.set_cached_metadata_keys
             (BTreeMap.insert (SessionInner.cached_metadata_keys s)
                (ProtocolState.recv_ratchet_epoch st) (ProtocolState.metadata_key st)) s in
  let s := enforce_metadata_cache_limit s in
  let s := upd_state (fun s =>
             ProtocolState.set_recv_chain (Some (ChainState.mk 0 new_chain []))
               (ProtocolState.set_metadata_key new_metadata (ProtocolState.set_root_key new_root s))) s in
  let s := upd_state (fun s =>
             ProtocolState.set_kyber_remote_public new_kyber_pk
               (ProtocolState.set_dh_remote_public dh_public
                  (ProtocolState.set_recv_ratchet_epoch next_epoch s))) s in
  let s := SessionInner.set_replay_epoch next_epoch s in
  let s := enforce_cache_limit s in
  let s := SessionInner.set_send_ratchet_pending true s in
  upd_state (ProtocolState.set_send_ratchet_pending true) s.

(** What [apply_recv_ratchet] computes from the handles and the header. *)
Definition recv_ratchet_keys (env : SecureEnvelope) (s : SessionInner) : PResult (bytes * bytes * bytes) :=
  let? dh_public := ok_or (SecureEnvelope.dh_public_key env) (ProtocolError.invalid_input "Ratchet header missing") in
  let? kyber_ct := ok_or (SecureEnvelope.kyber_ciphertext env) (ProtocolError.invalid_input "Ratchet header missing") in
  let? new_kyber_pk := ok_or (SecureEnvelope.new_kyber_public env)
    (ProtocolError.invalid_input "Ratchet message missing new Kyber public key") in
  let? dh_handle := ok_or (SessionInner.dh_private_handle s)
    (ProtocolError.invalid_state "DH private key handle missing") in
  let? dh_private := crypto_err (SecureMemoryHandle.read_bytes dh_handle X25519_PRIVATE_KEY_BYTES) in
  let? dh_secret := compute_dh dh_private dh_public in
  let? sk_handle := ok_or (SessionInner.kyber_secret_handle s)
    (ProtocolError.invalid_state "Kyber secret key handle missing") in
  let? ss_handle := crypto_err (kyber_decapsulate kyber_ct sk_handle) in
  let? kyber_ss := crypto_err (SecureMemoryHandle.read_bytes ss_handle KYBER_SHARED_SECRET_BYTES) in
  derive_ratchet (ProtocolState.root_key (SessionInner.state s)) dh_secret kyber_ss new_kyber_pk.

(** The structural checks on the header of a ratchet message. *)
Definition ratchet_header_ok (env : SecureEnvelope) (dh_public kyber_ct new_kyber_pk : bytes) : Prop :=
  SecureEnvelope.dh_public_key env = Some dh_public /\
  SecureEnvelope.kyber_ciphertext env = Some kyber_ct /\
  SecureEnvelope.new_kyber_public env = Some new_kyber_pk /\
  len dh_public = X25519_PUBLIC_KEY_BYTES /\ len kyber_ct = KYBER_CIPHERTEXT_BYTES /\
  len new_kyber_pk = KYBER_PUBLIC_KEY_BYTES /\ validate_dh_public_key dh_public = Ok tt /\
  kyber_validate_ciphertext kyber_ct = Ok tt /\ kyber_validate_public_key new_kyber_pk = Ok tt.

(** The state before the ratchet step proper: the keys of the messages of the
    old chain that are still under way are cached. *)
Definition old_chain_cached (pcl : option Z) (s s0 : SessionInner) : Prop :=
  match pcl with
  | None => s0 = s
  | Some n =>
      exists rc, ProtocolState.recv_chain (SessionInner.state s) = Some rc /\
        len (ChainState.chain_key rc) = CHAIN_KEY_BYTES /\
        ((n <= ChainState.message_index rc /\ s0 = s) \/
         (ChainState.message_index rc < n /\ n - ChainState.message_index rc <= MAX_SKIPPED_MESSAGE_KEYS /\
          s0 = skipped_to rc n s))
  end.

Lemma apply_recv_ratchet_Ok env s u s1 :
  apply_recv_ratchet env s = (Ok u, s1) ->
  exists dh ct pk s0 keys, ratchet_header_ok env dh ct pk /\
    old_chain_cached (SecureEnvelope.previous_chain_length env) s s0 /\
    recv_ratchet_keys env s0 = Ok keys /\ s1 = ratcheted keys dh pk s0.
Proof.
  unfold apply_recv_ratchet. intros H. unfold crypto_err in H. inv_stm. inv_ok. bools.
  match goal with H : checked_add _ _ _ = Some _ |- _ => apply checked_add_inv in H; subst end.
  repeat match goal with u : unit |- _ => destruct u end.
  exists a, a0, a1, s10, (l0, l1, l). split; [|split; [|split]].
  - unfold ratchet_header_ok. tauto.
  - unfold old_chain_cached. destruct (SecureEnvelope.previous_chain_length env).
    + eapply skip_old_chain_keys_Ok. eassumption.
    + now inv_stm.
  - unfold recv_ratchet_keys, crypto_err. rewrite Hc, Hc0, Hc1, Hc10, Hc13. cbn [ok_or rbind].
    rewrite Hc11. cbn [map_err rbind]. rewrite Hc12. cbn [rbind]. rewrite Hc14. cbn [map_err rbind].
    rewrite Hc15. exact Hc16.
  - reflexivity.
Qed.

(** The other direction: a well-formed header that yields keys is applied. *)
Lemma apply_recv_ratchet_run env s dh ct pk rc pcl keys :
  let st := SessionInner.state s in
  let s0 := if pcl <=? ChainState.message_index rc then s else skipped_to rc pcl s in
  ratchet_header_ok env dh ct pk ->
  len (ProtocolState.root_key st) = ROOT_KEY_BYTES ->
  SecureEnvelope.previous_chain_length env = Some pcl ->
  ProtocolState.recv_chain st = Some rc -> len (ChainState.chain_key rc) = CHAIN_KEY_BYTES ->
  0 < ProtocolState.max_messages_per_chain st <= MAX_MESSAGES_PER_CHAIN ->
  pcl <= ProtocolState.max_messages_per_chain st ->
  pcl - ChainState.message_index rc <= MAX_SKIPPED_MESSAGE_KEYS ->
  recv_ratchet_keys env s0 = Ok keys ->
  ProtocolState.recv_ratchet_epoch (SessionInner.state s0) + 1 < 2 ^ 64 ->
  apply_recv_ratchet env s = (Ok tt, ratcheted keys dh pk s0).
Proof.
  cbv zeta. intros (Hdh & Hct & Hpk & L1 & L2 & L3 & V1 & V2 & V3) Hr Hp Hrc Hck Hm Hpm Hps Hk He.
  unfold recv_ratchet_keys in Hk. rewrite Hdh, Hct, Hpk in Hk. cbn [ok_or rbind] in Hk.
  unfold apply_recv_ratchet, crypto_err. rewrite Hdh, Hct, Hpk, Hp.
  unfold sbind, slift, sguard, sget, smod, slift. cbn [ok_or map_err].
  rewrite L1, L2, L3, V1, V2, V3, Hr. rewrite !Z.eqb_refl. cbn [ensure negb orb map_err].
  rewrite (skip_old_chain_keys_run pcl s rc) by assumption.
  set (s0 := if pcl <=? ChainState.message_index rc then s else skipped_to rc pcl s) in *.
  unfold crypto_err in Hk. inv_ok.
  repeat match goal with H : ?x = Some _ |- context [?x] => rewrite H; cbn [ok_or] end.
  repeat match goal with H : ?x = Ok _ |- context [?x] => rewrite H; cbn [map_err] end.
  destruct keys as [[nr nc] nm]. unfold checked_add. rewrite (proj2 (Z.ltb_lt _ _)) by assumption.
  cbn [ok_or]. reflexivity.
Qed.

(** ** A message within a chain *)

(** The checks of [decrypt_message] before a key is taken: the state is only
    read. *)
Definition accepted_metadata (env : SecureEnvelope) (max : Z) (old : bool) (s : SessionInner) :
    PResult EnvelopeMetadata :=
  let st := SessionInner.state s in
  let? metadata_key :=
    if old then ok_or (BTreeMap.get (SessionInner.cached_metadata_keys s) (SecureEnvelope.ratchet_epoch env))
                  (ProtocolError.invalid_state "Metadata decryption failed")
    else Ok (ProtocolState.metadata_key st) in
  let? aad := build_metadata_aad st (SecureEnvelope.ratchet_epoch env) (SecureEnvelope.previous_chain_length env) in
  let? metadata_bytes := aes_decrypt metadata_key (SecureEnvelope.header_nonce env)
                           (SecureEnvelope.encrypted_metadata env) aad in
  let? md := ok_or (decode metadata_bytes) (ProtocolError.decode "Failed to parse metadata: {e}") in
  let nonce := EnvelopeMetadata.payload_nonce md in
  let i := EnvelopeMetadata.message_index md in
  check? len nonce =? AES_GCM_NONCE_BYTES else ProtocolError.invalid_input "Invalid payload nonce size" in
  check? negb (MAX_MESSAGE_INDEX <? i) else ProtocolError.invalid_input "Message index exceeds maximum" in
  check? negb (max <=? i) else ProtocolError.invalid_input "Message index exceeds per-chain limit" in
  let? nonce_index := extract_nonce_index nonce in
  check? nonce_index =? i else ProtocolError.invalid_input "Nonce index mismatch" in
  check? negb (bset_contains (SessionInner.seen_payload_nonces s) nonce)
    else ProtocolError.replay_attack "Replay attack detected: payload nonce reused" in
  Ok md.

Definition open_payload (env : SecureEnvelope) (md : EnvelopeMetadata) (key : bytes) (st : ProtocolState) :
    PResult bytes :=
  let? aad := build_payload_aad st (SecureEnvelope.ratchet_epoch env) (EnvelopeMetadata.message_index md)
                (SecureEnvelope.previous_chain_length env) in
  let? padded := aes_decrypt key (EnvelopeMetadata.payload_nonce md) (SecureEnvelope.encrypted_payload env) aad in
  MessagePadding.unpad padded.

Definition mark_pending (s : SessionInner) : SessionInner :=
  if SessionInner.send_ratchet_pending s then s
  else upd_state (ProtocolState.set_send_ratchet_pending true) (SessionInner.set_send_ratchet_pending true s).

(** The chain position [decrypt_message] saves for its undo. *)
Definition saved_chain (old : bool) (s : SessionInner) : option (bytes * Z) :=
  if old then None
  else option_map (fun rc => (ChainState.chain_key rc, ChainState.message_index rc))
         (ProtocolState.recv_chain (SessionInner.state s)).

Lemma decrypt_message_eq env max old inr s :
  decrypt_message env max old inr s =
  match accepted_metadata env max old s with
  | Err e => (Err e, s)
  | Ok md =>
      match message_key_for old (SecureEnvelope.ratchet_epoch env) (EnvelopeMetadata.message_index md) s with
      | (Err e, s2) => (Err e, s2)
      | (Ok key, s2) =>
          match open_payload env md key (SessionInner.state s2) with
          | Err e =>
              (Err e, if inr then s2
                      else undo_message_key old (SecureEnvelope.ratchet_epoch env)
                             (EnvelopeMetadata.message_index md) (saved_chain old s) key s2)
          | Ok pt =>
              (Ok (mkDecryptResult pt md),
               mark_pending (remember_seen_payload_nonce (EnvelopeMetadata.payload_nonce md) s2))
          end
      end
  end.
Proof.
  unfold decrypt_message, accepted_metadata. unfold sbind at 1. cbn [sget].
  unfold sbind at 1, slift at 1. destruct (if old then _ else _) as [mk|]; [|reflexivity]. cbn [rbind].
  unfold sbind at 1, slift at 1. destruct (build_metadata_aad _ _ _) as [aad|]; [|reflexivity]. cbn [rbind].
  unfold sbind at 1, slift at 1. destruct (aes_decrypt mk _ _ _) as [mb|]; [|reflexivity]. cbn [rbind].
  unfold sbind at 1, slift at 1. destruct (decode mb) as [md|]; [|reflexivity]. cbn [ok_or rbind].
  unfold payload_nonce_to_array.
  unfold sbind at 1, sguard at 1, slift at 1. destruct (len _ =? _); [|reflexivity]. cbn [ensure rbind].
  unfold sbind at 1, sguard at 1, slift at 1. destruct (negb (MAX_MESSAGE_INDEX <? _)); [|reflexivity]. cbn [ensure rbind].
  unfold sbind at 1, sguard at 1, slift at 1. destruct (negb (max <=? _)); [|reflexivity]. cbn [ensure rbind].
  unfold sbind at 1, slift at 1. destruct (extract_nonce_index _) as [ni|]; [|reflexivity]. cbn [rbind].
  unfold sbind at 1, sguard at 1, slift at 1. destruct (ni =? _); [|reflexivity]. cbn [ensure rbind].
  unfold sbind at 1, slift at 1. cbn [rbind].
  unfold sbind at 1, sguard at 1, slift at 1. destruct (negb (bset_contains _ _)); [|reflexivity]. cbn [ensure rbind].
  unfold sbind at 1. destruct (message_key_for _ _ _ s) as [[key|e] s2]; [|reflexivity].
  unfold open_payload, sbind, on_err, slift, sget, smod, sret.
  destruct (build_payload_aad _ _ _ _) as [paad|]; [|reflexivity]. cbn [rbind].
  destruct (aes_decrypt key _ _ _) as [padded|]; [|reflexivity]. cbn [rbind].
  destruct (MessagePadding.unpad padded); reflexivity.
Qed.

Lemma message_key_for_old epoch i s :
  message_key_for true epoch i s =
  match BTreeMap.get (SessionInner.skipped_message_keys s) (epoch, i) with
  | Some k => (Ok k, SessionInner.set_skipped_message_keys
                       (BTreeMap.remove (SessionInner.skipped_message_keys s) (epoch, i)) s)
  | None => (Err (ProtocolError.replay_attack
                    "Old-epoch message key not found (already consumed or never cached)"), s)
  end.
Proof.
  unfold message_key_for, try_skipped_key, sbind, sget, smod, sret, slift.
  destruct (BTreeMap.get _ _) eqn:E; [reflexivity|]. cbn [ok_or]. rewrite remove_absent by exact E.
  now destruct s.
Qed.

(** ** The whole of [decrypt] *)

Definition has_ratchet_header (env : SecureEnvelope) : bool :=
  is_some (SecureEnvelope.dh_public_key env) || is_some (SecureEnvelope.kyber_ciphertext env) ||
  is_some (SecureEnvelope.new_kyber_public env).

Definition max_chain (s : SessionInner) : Z := ProtocolState.max_messages_per_chain (SessionInner.state s).

Definition recv_done (act total : Z) (s : SessionInner) : SessionInner :=
  upd_state (fun st => ProtocolState.set_total_messages_received total
                         (ProtocolState.set_last_activity_unix (Some act) st)) s.

Lemma decrypt_Ok env clock s r s' :
  decrypt env clock s = (Ok r, s') ->
  exists act s1 s2,
    s' = recv_done act (ProtocolState.total_messages_received (SessionInner.state s) + 1) s2 /\
    ProtocolState.version (SessionInner.state s) <> 0 /\
    ((has_ratchet_header env = true /\ SecureEnvelope.ratchet_epoch env = recv_epoch s + 1 /\
      apply_recv_ratchet env s = (Ok tt, s1) /\
      decrypt_message env (max_chain s) false true s1 = (Ok r, s2)) \/
     (has_ratchet_header env = false /\ SecureEnvelope.ratchet_epoch env <= recv_epoch s /\ s1 = s /\
      SecureEnvelope.previous_chain_length env = None /\
      decrypt_message env (max_chain s) (SecureEnvelope.ratchet_epoch env <? recv_epoch s) false s = (Ok r, s2))).
Proof.
  unfold decrypt. intros H. inv_stm. inv_ok.
  match goal with H : checked_add _ _ _ = Some _ |- _ => apply checked_add_inv in H; subst end.
  fold (has_ratchet_header env) in *. fold (recv_epoch s) in *. fold (max_chain s) in *.
  match goal with H : (if has_ratchet_header env then _ else _) s = _ |- _ => rename H into Hr end.
  destruct (has_ratchet_header env) eqn:Hh.
  - inv_stm. inv_ok. bools.
    match goal with H : checked_add _ _ _ = Some _ |- _ => apply checked_add_inv in H; subst end.
    match goal with H : apply_recv_ratchet _ ?s0 = (Ok ?u, _) |- _ => assert (s0 = s) as ->; [|destruct u] end.
    { destruct (SecureEnvelope.previous_chain_length env); inv_stm; reflexivity. }
    do 3 eexists. split; [reflexivity|]. split; [assumption|]. left. eauto.
  - destruct (SecureEnvelope.ratchet_epoch env <=? recv_epoch s) eqn:He; inv_stm. bools.
    do 3 eexists. split; [reflexivity|]. split; [assumption|]. right.
    destruct (SecureEnvelope.previous_chain_length env); [discriminate|]. auto.
Qed.

(** The tests on [previous_chain_length] do not change the state. *)
Ltac guard_state :=
  match goal with
  | H : match SecureEnvelope.previous_chain_length ?env with _ => _ end ?a = (Ok _, ?b) |- _ =>
      assert (b = a) as -> by (destruct (SecureEnvelope.previous_chain_length env); inv_stm; reflexivity)
  end.

Lemma decrypt_Err env clock s e s' :
  decrypt env clock s = (Err e, s') ->
  s' = s \/
  (has_ratchet_header env = true /\
   exists s1, s' = rollback_ratchet (capture_recv s) s1 /\
     (apply_recv_ratchet env s = (Err e, s1) \/
      exists s0, apply_recv_ratchet env s = (Ok tt, s0) /\
        decrypt_message env (max_chain s) false true s0 = (Err e, s1))) \/
  (has_ratchet_header env = false /\ SecureEnvelope.ratchet_epoch env <= recv_epoch s /\
   decrypt_message env (max_chain s) (SecureEnvelope.ratchet_epoch env <? recv_epoch s) false s = (Err e, s')).
Proof.
  unfold decrypt. intros H. inv_stm; auto.
  fold (has_ratchet_header env) in H. fold (recv_epoch s) in H. fold (max_chain s) in H.
  destruct (has_ratchet_header env) eqn:Hh.
  - apply sbind_Err in H. destruct H as [H|(? & ? & H1 & H)]; [inv_stm; auto|]. inv_stm; auto.
    + destruct (SecureEnvelope.previous_chain_length env); inv_stm; auto.
    + guard_state. right. left. split; [reflexivity|]. eexists. split; [reflexivity|]. now left.
    + guard_state. right. left. split; [reflexivity|]. eexists. split; [reflexivity|]. right.
      match goal with H : apply_recv_ratchet _ _ = (Ok ?u, _) |- _ => destruct u end. eauto.
  - destruct (SecureEnvelope.ratchet_epoch env <=? recv_epoch s) eqn:He; inv_stm; auto. bools. auto.
Qed.

End Recv.
