(* ===== verification/SessionSend.v ===== *)
(** * The sending side, step by step

    Inversion of successful and failed runs of [maybe_rotate_send_ratchet],
    [encrypt_body] and [encrypt], and the theorem that a failed encryption
    leaves the session as it was. *)

From Stdlib Require Import ZArith List Bool Lia String.
From S2P Require Import Prelude Constants BTree SecureMemory Crypto Padding Nonce Proto SessionState Session SessionChain.
Import ListNotations.
Open Scope string_scope.
Open Scope list_scope.
Open Scope Z_scope.

Section Send.
Context `{P : Primitives} {L : PrimitiveLaws P} {C : Prost EnvelopeMetadata}.

(** ** The ratchet step *)

(** The three values a rotation puts into the header. *)
Record RatchetHeader : Type := mkRatchetHeader { rh_dh : bytes; rh_ct : bytes; rh_pk : bytes }.

(** The assignments of a successful [maybe_rotate_send_ratchet]. *)
Definition rotated (keys : bytes * bytes * bytes) (h : RatchetHeader) (dh_private kyber_secret : bytes)
    (ns : NonceState) (s : SessionInner) : SessionInner :=
  let '(new_root, new_chain, new_metadata) := keys in
  let next_epoch := ProtocolState.send_ratchet_epoch (SessionInner.state s) + 1 in
  let s := upd_state (fun st =>
             ProtocolState.set_send_chain (Some (ChainState.mk 0 new_chain []))
               (ProtocolState.set_send_metadata_key new_metadata (ProtocolState.set_root_key new_root st))) s in
  let s := upd_state (ProtocolState.set_send_ratchet_epoch next_epoch) s in
  let s := SessionInner.set_dh_private_handle (Some (SecureMemoryHandle.mk dh_private)) s in
  let s := upd_state (set_dh_local_public (rh_dh h)) s in
  let s := SessionInner.set_kyber_secret_handle (Some (SecureMemoryHandle.mk kyber_secret)) s in
  let s := upd_state (set_kyber_local_public (rh_pk h)) s in
  let s := SessionInner.set_send_ratchet_pending false s in
  let s := upd_state (ProtocolState.set_send_ratchet_pending false) s in
  let s := SessionInner.set_messages_since_last_dh_ratchet 0 s in
  upd_state (store_nonce_state ns) s.

Definition send_index (s : SessionInner) : Z :=
  match ProtocolState.send_chain (SessionInner.state s) with
  | Some c => ChainState.message_index c
  | None => 0
  end.

Definition with_ratchet (h : RatchetHeader) (pcl : Z) (env : SecureEnvelope) : SecureEnvelope :=
  SecureEnvelope.set_new_kyber_public (Some (rh_pk h))
    (SecureEnvelope.set_kyber_ciphertext (Some (rh_ct h))
       (SecureEnvelope.set_dh_public_key (Some (rh_dh h))
          (SecureEnvelope.set_previous_chain_length (Some pcl) env))).

(** The keys both sides of a ratchet step derive, from the sender's view. *)
Definition send_ratchet_keys (ent : SendEntropy) (st : ProtocolState) (h : RatchetHeader)
    (keys : bytes * bytes * bytes) : Prop :=
  exists dh_secret ss, compute_dh (e_x25519 ent) (ProtocolState.dh_remote_public st) = Ok dh_secret /\
    kyber_encapsulate (ProtocolState.kyber_remote_public st) (e_kem_encapsulation ent) =
      Ok (rh_ct h, SecureMemoryHandle.mk ss) /\ len ss = KYBER_SHARED_SECRET_BYTES /\
    derive_ratchet (ProtocolState.root_key st) dh_secret ss (rh_pk h) = Ok keys.

(** The random generator returns as many bytes as asked for. *)
Definition entropy_ok (ent : SendEntropy) : Prop :=
  len (e_x25519 ent) = X25519_PRIVATE_KEY_BYTES /\ len (e_kem_keygen ent) = 64 /\
  len (e_nonce_prefix ent) = NONCE_PREFIX_BYTES /\ len (e_header_nonce ent) = AES_GCM_NONCE_BYTES.

Lemma maybe_rotate_Ok ent env s env' s' : entropy_ok ent ->
  maybe_rotate_send_ratchet ent env s = (Ok env', s') ->
  send_ratchet_rotation_needed s = Ok false /\ env' = env /\ s' = s \/
  send_ratchet_rotation_needed s = Ok true /\
  exists h keys ng,
    rh_dh h = x25519_public (e_x25519 ent) /\ rh_pk h = snd (mlkem_generate (e_kem_keygen ent)) /\
    validate_dh_public_key (ProtocolState.dh_remote_public (SessionInner.state s)) = Ok tt /\
    send_ratchet_keys ent (SessionInner.state s) h keys /\
    create_with_limit (nonce_limit (SessionInner.state s)) (e_nonce_prefix ent) = Ok ng /\
    ProtocolState.send_ratchet_epoch (SessionInner.state s) + 1 < 2 ^ 64 /\
    env' = with_ratchet h (send_index s) env /\
    s' = rotated keys h (e_x25519 ent) (fst (mlkem_generate (e_kem_keygen ent))) (export_state ng) s.
Proof.
  intros (He & _). unfold maybe_rotate_send_ratchet. intros H. inv_stm.
  destruct a; cbn [negb] in H; [right|left; inv_stm; auto]. split; [assumption|].
  unfold crypto_err in H. inv_stm. inv_ok. bools.
  apply generate_x25519_keypair_inv in Hc3; [|exact He]. destruct Hc3 as [-> ->].
  rewrite SecureMemoryHandle.read_bytes_exact in Hc0 by exact He. inv_ok.
  apply kyber_generate_keypair_inv in Hc8. destruct Hc8 as [-> ->].
  destruct (kyber_encapsulate_inv _ _ _ _ Hc6) as (ss & -> & Hss & _).
  rewrite SecureMemoryHandle.read_bytes_exact in Hc7 by exact Hss. inv_ok.
  rewrite SecureMemoryHandle.alloc_write_exact in Hc13
    by (rewrite ?He; unfold X25519_PRIVATE_KEY_BYTES, MAX_BUFFER_SIZE; lia). inv_ok.
  pose proof (checked_add_lt _ _ _ _ Hc11). apply checked_add_inv in Hc11. subst.
  exists (mkRatchetHeader (x25519_public (e_x25519 ent)) l0 (snd (mlkem_generate (e_kem_keygen ent)))), (l3, l4, l2), a17.
  destruct a2. repeat split; auto. exists a3, a4. auto.
Qed.

(** ** Frames *)

(** The fields no sending step assigns. *)
Definition recv_part (s : SessionInner) :=
  (SessionInner.pending_kyber_shared_secret s, SessionInner.skipped_message_keys s,
   SessionInner.cached_metadata_keys s, SessionInner.replay_epoch s, SessionInner.seen_payload_nonces s,
   SessionInner.seen_payload_nonce_order s, SessionInner.is_initiator s, SessionInner.event_handler s).

(** The fields [encrypt_body] does not assign. *)
Definition idle_part (s : SessionInner) :=
  (recv_part s, ProtocolState.set_send_chain None (ProtocolState.set_nonce_generator None (SessionInner.state s)),
   SessionInner.dh_private_handle s, SessionInner.kyber_secret_handle s, SessionInner.send_ratchet_pending s).

(** The session without the record of handler calls. *)
Definition forget_calls (s : SessionInner) : SessionInner := SessionInner.set_handler_calls [] s.

Lemma maybe_rotate_frame ent env s r s' :
  maybe_rotate_send_ratchet ent env s = (r, s') -> recv_part s' = recv_part s.
Proof.
  unfold maybe_rotate_send_ratchet. intros H. destruct r; inv_stm; try reflexivity.
  all: match goal with H : (if negb ?b then _ else _) _ = _ |- _ => destruct b; cbn [negb] in H end.
  all: inv_stm; reflexivity.
Qed.

Lemma idle_notify (b : bool) ev s : idle_part (if b then notify ev s else s) = idle_part s.
Proof. unfold notify. now repeat case_if. Qed.

Lemma idle_messages n s : idle_part (SessionInner.set_messages_since_last_dh_ratchet n s) = idle_part s.
Proof. reflexivity. Qed.

Lemma idle_nonce ns s : idle_part (upd_state (store_nonce_state ns) s) = idle_part s.
Proof. reflexivity. Qed.

Lemma idle_chain c s : idle_part (upd_state (ProtocolState.set_send_chain c) s) = idle_part s.
Proof. reflexivity. Qed.

Create Rewrite HintDb idle.
Hint Rewrite idle_notify idle_messages idle_nonce idle_chain : idle.

Lemma encrypt_body_frame payload ty id corr hn clock ent epoch env s r s' :
  encrypt_body payload ty id corr hn (sret tt) clock ent epoch env s = (r, s') -> idle_part s' = idle_part s.
Proof.
  unfold encrypt_body, next_send_message_key. intros H.
  destruct r; inv_stm; try reflexivity; now autorewrite with idle.
Qed.

(** ** Failed encryptions *)

(** Secret handles hold exactly one key, as every constructor stores them. *)
Definition handle_exact (h : option SecureMemoryHandle.t) (n : Z) : Prop :=
  match h with Some h => len (SecureMemoryHandle.data h) = n | None => True end.

Definition handles_exact (s : SessionInner) : Prop :=
  handle_exact (SessionInner.dh_private_handle s) X25519_PRIVATE_KEY_BYTES /\
  handle_exact (SessionInner.kyber_secret_handle s) KYBER_SECRET_KEY_BYTES.

Lemma restore_handle_exact h n b :
  0 < n <= MAX_BUFFER_SIZE -> handle_exact h n -> read_handle h n = Ok b -> restore_secret_handle b n = h.
Proof.
  intros Hn He Hr. destruct h as [[d]|]; cbn in *; [|inv_ok; reflexivity].
  unfold crypto_err in Hr. rewrite SecureMemoryHandle.read_bytes_exact in Hr by exact He. cbn in Hr. inv_ok.
  cbn. rewrite Z.eqb_refl. cbn. now rewrite SecureMemoryHandle.alloc_write_exact.
Qed.

Lemma restore_ratchet_exact s snap s1 :
  handles_exact s -> capture_ratchet s = Ok snap -> recv_part s1 = recv_part s ->
  forget_calls (restore_ratchet snap s1) = forget_calls s.
Proof.
  intros [H1 H2] Hc Hf. unfold capture_ratchet in Hc. inv_ok.
  unfold restore_ratchet. cbn [sr_state sr_dh_private_key sr_kyber_secret_key sr_send_ratchet_pending sr_messages_since_last_dh_ratchet].
  rewrite (restore_handle_exact (SessionInner.dh_private_handle s) X25519_PRIVATE_KEY_BYTES) by (auto; unfold X25519_PRIVATE_KEY_BYTES, MAX_BUFFER_SIZE; lia).
  rewrite (restore_handle_exact (SessionInner.kyber_secret_handle s) KYBER_SECRET_KEY_BYTES) by (auto; unfold KYBER_SECRET_KEY_BYTES, MAX_BUFFER_SIZE; lia).
  destruct s, s1. unfold recv_part in Hf. cbn in Hf. injection Hf as -> -> -> -> -> -> -> ->. reflexivity.
Qed.

Lemma restore_progress_exact s s1 :
  idle_part s1 = idle_part s ->
  forget_calls (restore_progress (capture_progress s) s1) = forget_calls s.
Proof.
  destruct s as [[]], s1 as [[]]. intros H. unfold idle_part, recv_part in H. cbn in H.
  injection H; intros; subst. reflexivity.
Qed.

Lemma maybe_rotate_idle ent env s :
  send_ratchet_rotation_needed s = Ok false -> maybe_rotate_send_ratchet ent env s = (Ok env, s).
Proof. intros H. unfold maybe_rotate_send_ratchet, sbind, sgets. now rewrite H. Qed.

Lemma idle_recv s s' : idle_part s = idle_part s' -> recv_part s = recv_part s'.
Proof. intros H. exact (f_equal (fun p => fst (fst (fst (fst p)))) H). Qed.

(** C20. A failed [encrypt] leaves the session unchanged, whichever step fails
    (checks, ratchet step, key derivation, nonce exhaustion, either AEAD layer,
    clock): keys, chains, counters, handles and caches are those from before
    the call.  Only notifications already delivered to an event handler remain
    delivered. *)
Theorem encrypt_failure_is_noop payload ty id corr clock ent s e s' :
  handles_exact s ->
  encrypt payload ty id corr clock ent s = (Err e, s') -> forget_calls s' = forget_calls s.
Proof.
  intros Hh. unfold encrypt, encrypt_internal. intros H. inv_stm; try reflexivity.
  - destruct a7; inv_ok.
    + eapply restore_ratchet_exact; eauto using maybe_rotate_frame.
    + rewrite maybe_rotate_idle in H by assumption. discriminate.
  - apply encrypt_body_frame in H. destruct a7; inv_ok; cbn [rollback_send_encrypt_state].
    + eapply restore_ratchet_exact; eauto. apply maybe_rotate_frame in Hc9. apply idle_recv in H. congruence.
    + rewrite maybe_rotate_idle in Hc9 by assumption. inv_stm. now apply restore_progress_exact.
Qed.

(** ** Successful encryptions *)

Lemma state_notify (b : bool) ev s : SessionInner.state (if b then notify ev s else s) = SessionInner.state s.
Proof. unfold notify. now repeat case_if. Qed.

Lemma state_messages n s :
  SessionInner.state (SessionInner.set_messages_since_last_dh_ratchet n s) = SessionInner.state s.
Proof. reflexivity. Qed.

(** The state after [encrypt_body] took message [i] from the chain. *)
Definition sent_state (chain : ChainState.t) (ns : NonceState) (st : ProtocolState) : ProtocolState :=
  store_nonce_state ns
    (ProtocolState.set_send_chain
       (Some (ChainState.mk (ChainState.message_index chain + 1) (chain_step (ChainState.chain_key chain))
                (ChainState.skipped_message_keys chain))) st).

Definition message_metadata (i : Z) (nonce : bytes) (ty id : Z) (corr : option string) : EnvelopeMetadata :=
  EnvelopeMetadata.mk i nonce ty id corr.

(** The envelope a successful [encrypt_body] returns is sealed with the keys of
    the chain and bound to the header. *)
Definition sealed_message (payload : bytes) (ty id : Z) (corr : option string) (epoch i : Z)
    (nonce mdkey msgkey : bytes) (st : ProtocolState) (env : SecureEnvelope) : Prop :=
  let pcl := SecureEnvelope.previous_chain_length env in
  exists mdaad paad,
    build_metadata_aad st epoch pcl = Ok mdaad /\ build_payload_aad st epoch i pcl = Ok paad /\
    aes_encrypt mdkey (SecureEnvelope.header_nonce env) (encode (message_metadata i nonce ty id corr)) mdaad =
      Ok (SecureEnvelope.encrypted_metadata env) /\
    aes_encrypt msgkey nonce (MessagePadding.pad payload) paad = Ok (SecureEnvelope.encrypted_payload env).

(** The parts of the envelope [encrypt_body] does not fill in. *)
Definition header_of (env : SecureEnvelope) :=
  (SecureEnvelope.version env, SecureEnvelope.ratchet_epoch env, SecureEnvelope.previous_chain_length env,
   SecureEnvelope.dh_public_key env, SecureEnvelope.kyber_ciphertext env, SecureEnvelope.new_kyber_public env).

Lemma encrypt_body_Ok payload ty id corr clock ent epoch env s env' s' :
  encrypt_body payload ty id corr None (sret tt) clock ent epoch env s = (Ok env', s') ->
  exists chain g g' nonce,
    ProtocolState.send_chain (SessionInner.state s) = Some chain /\
    len (ChainState.chain_key chain) = CHAIN_KEY_BYTES /\
    load_nonce_generator (SessionInner.state s) = Ok g /\
    next (ChainState.message_index chain) g = (Ok nonce, g') /\
    SessionInner.state s' = sent_state chain (export_state g') (SessionInner.state s) /\
    header_of env' = header_of env /\
    SecureEnvelope.header_nonce env' = e_header_nonce ent /\ len (e_header_nonce ent) = AES_GCM_NONCE_BYTES /\
    sealed_message payload ty id corr epoch (ChainState.message_index chain) nonce
      (ProtocolState.send_metadata_key (SessionInner.state s)) (chain_msg (ChainState.chain_key chain))
      (SessionInner.state s) env'.
Proof.
  unfold encrypt_body, next_send_message_key. intros H. inv_stm. inv_ok. rewrite derive_eq in *. inv_ok. bools.
  repeat (rewrite state_notify in * || rewrite state_messages in * ).
  do 4 eexists. split; [eassumption|]. split; [assumption|]. split; [eassumption|]. split; [eassumption|].
  do 4 (split; [first [reflexivity|assumption]|]). do 2 eexists. eauto.
Qed.

Definition send_done (act total : Z) (s : SessionInner) : SessionInner :=
  upd_state (fun st => ProtocolState.set_total_messages_sent total
                         (ProtocolState.set_last_activity_unix (Some act) st)) s.

Definition send_epoch (s : SessionInner) : Z := ProtocolState.send_ratchet_epoch (SessionInner.state s).

Lemma encrypt_Ok payload ty id corr clock ent s env s' :
  encrypt payload ty id corr clock ent s = (Ok env, s') ->
  exists act env0 s1 s2,
    ProtocolState.version (SessionInner.state s) <> 0 /\ len payload <= MAX_BUFFER_SIZE /\
    len (ProtocolState.send_metadata_key (SessionInner.state s)) = METADATA_KEY_BYTES /\
    maybe_rotate_send_ratchet ent empty_envelope s = (Ok env0, s1) /\
    encrypt_body payload ty id corr None (sret tt) clock ent (send_epoch s1)
      (SecureEnvelope.set_ratchet_epoch (send_epoch s1) env0) s1 = (Ok env, s2) /\
    s' = send_done act (ProtocolState.total_messages_sent (SessionInner.state s) + 1) s2.
Proof.
  unfold encrypt, encrypt_internal. intros H. inv_stm. inv_ok. bools.
  match goal with H : checked_add _ _ _ = Some _ |- _ => apply checked_add_inv in H; subst end.
  do 4 eexists. do 3 (split; [assumption|]). split; [eassumption|]. split; [eassumption|reflexivity].
Qed.

End Send.
