(* ===== verification/SessionInv.v ===== *)
(** * Invariants of a session and its receive side

    [cache_inv]: the caches are bounded and sorted, the replay set and its
    eviction order agree, cached message keys lie strictly behind the receiving
    chain.  Every operation of the session preserves it.  From it: a rejected
    envelope changes nothing but evictions, and no position of a chain is ever
    accepted twice. *)

From Stdlib Require Import ZArith List Bool Lia String.
From S2P Require Import Prelude Constants BTree SeenSet SecureMemory Crypto Toy Padding Nonce Proto ToyCodec SessionState Session SessionPersist SessionChain SessionRecv SessionSend.
Import ListNotations.
Open Scope string_scope.
Open Scope list_scope.
Open Scope Z_scope.

(** ** The replay set *)

Definition seen_ok (set order : list bytes) : Prop :=
  seen_consistent set order /\ len order <= MAX_SEEN_NONCES.

Lemma prune_ok set order set' order' :
  seen_consistent set order -> prune_seen_nonces set order = (set', order') -> seen_ok set' order'.
Proof. apply prune_consistent. easy. Qed.

Lemma rebuild_seen_ok entries : forall cache set order,
  seen_ok (fst cache) (snd cache) -> foldR seen_cache_step entries cache = Ok (set, order) -> seen_ok set order.
Proof.
  induction entries as [|n entries IH]; intros [set0 order0] set order Hc H; cbn [foldR] in H; inv_ok; [assumption|].
  eapply IH; [|exact H]. unfold seen_cache_step in *. inv_ok.
  match goal with H : (if _ then _ else _) = Ok _ |- _ => case_if_in H end; inv_ok; [assumption|].
  destruct (prune_seen_nonces _ _) eqn:Ep. inv_ok. eapply prune_ok; [|exact Ep].
  apply remember_consistent; [apply Hc|assumption].
Qed.

Definition seen_inv (s : SessionInner) : Prop :=
  seen_ok (SessionInner.seen_payload_nonces s) (SessionInner.seen_payload_nonce_order s).

Lemma remember_seen_inv n s : seen_inv s -> seen_inv (remember_seen_payload_nonce n s).
Proof.
  intros [Hc Hl]. unfold remember_seen_payload_nonce. case_if; [now split|].
  destruct (prune_seen_nonces _ _) eqn:Ep. eapply prune_ok; [|exact Ep]. now apply remember_consistent.
Qed.

(** ** The caches *)

Definition recv_index (s : SessionInner) : Z := chain_index (ProtocolState.recv_chain (SessionInner.state s)).

(** [(e, i)] is a position the receiving side has passed. *)
Definition behind (s : SessionInner) (e i : Z) : Prop :=
  e < recv_epoch s \/ (e = recv_epoch s /\ i < recv_index s).

Record cache_inv (s : SessionInner) : Prop := {
  ci_sorted : BTreeMap.sorted (SessionInner.skipped_message_keys s);
  ci_len : len (SessionInner.skipped_message_keys s) <= MAX_SKIPPED_MESSAGE_KEYS;
  ci_behind e i k : BTreeMap.get (SessionInner.skipped_message_keys s) (e, i) = Some k -> behind s e i;
  ci_metadata_sorted : BTreeMap.sorted (SessionInner.cached_metadata_keys s);
  ci_metadata_len : len (SessionInner.cached_metadata_keys s) <= MAX_CACHED_METADATA_KEYS;
  ci_seen : seen_inv s }.

(** What [cache_inv] and the ledger below read. *)
Definition recv_view (s : SessionInner) :=
  (SessionInner.skipped_message_keys s, SessionInner.cached_metadata_keys s,
   SessionInner.seen_payload_nonces s, SessionInner.seen_payload_nonce_order s,
   recv_epoch s, recv_index s).

Lemma cache_inv_view s s' : recv_view s' = recv_view s -> cache_inv s -> cache_inv s'.
Proof.
  intros Hv [H1 H2 H3 H4 H5 H6]. unfold recv_view in Hv. injection Hv as E1 E2 E3 E4 E5 E6.
  constructor; unfold seen_inv, behind in *; rewrite ?E1, ?E2, ?E3, ?E4, ?E5, ?E6; assumption.
Qed.

(** [spent l s]: the positions of [l] are behind the chain and their keys gone. *)
Definition spent (l : list (Z * Z)) (s : SessionInner) : Prop :=
  forall e i, In (e, i) l -> behind s e i /\ BTreeMap.get (SessionInner.skipped_message_keys s) (e, i) = None.

Lemma spent_view l s s' : recv_view s' = recv_view s -> spent l s -> spent l s'.
Proof.
  intros Hv H e i Hin. destruct (H e i Hin) as [Hb Hg]. unfold recv_view in Hv.
  injection Hv as E1 E2 E3 E4 E5 E6. unfold behind in *. rewrite E1, E5, E6. auto.
Qed.

(** Replacing the cache by a smaller one. *)
Lemma cache_inv_suffix s m :
  cache_inv s -> suffix m (SessionInner.skipped_message_keys s) ->
  cache_inv (SessionInner.set_skipped_message_keys m s).
Proof.
  intros [H1 H2 H3 H4 H5 H6] Hm. constructor; cbn; auto.
  - now apply (suffix_sorted _ _ Hm).
  - pose proof (suffix_len _ _ Hm). lia.
  - intros e i k Hg. apply (H3 e i k). now apply (suffix_get _ _ _ _ Hm).
Qed.

Section Inv.
Context `{P : Primitives} {L : PrimitiveLaws P} {C : Prost EnvelopeMetadata}.

(** ** Passing messages of the current chain *)

(** [passed n i s]: the cache after [n] keys were added for the positions up
    to [i], and the chain at [i]. *)
Lemma insert_keys_inv s rc n key i :
  cache_inv s -> ProtocolState.recv_chain (SessionInner.state s) = Some rc ->
  let idx := ChainState.message_index rc in
  let m := insert_keys n (recv_epoch s) idx (ChainState.chain_key rc) (reserved (Z.of_nat n) s) in
  Z.of_nat n <= MAX_SKIPPED_MESSAGE_KEYS -> idx + Z.of_nat n <= i ->
  cache_inv (set_recv_progress key i (SessionInner.set_skipped_message_keys m s)).
Proof.
  intros [H1 H2 H3 H4 H5 H6] Hrc idx m Hn Hi. pose proof (reserved_suffix (Z.of_nat n) s) as Hx.
  assert (Hs : BTreeMap.sorted (reserved (Z.of_nat n) s)) by (now apply (suffix_sorted _ _ Hx)).
  assert (Hidx : recv_index s = idx) by (unfold recv_index; now rewrite Hrc).
  unfold set_recv_progress. cbn [SessionInner.state SessionInner.set_skipped_message_keys]. rewrite Hrc.
  constructor; cbn; auto.
  - now apply insert_keys_sorted.
  - pose proof (len_insert_keys n (recv_epoch s) idx (ChainState.chain_key rc) _ Hs).
    pose proof (len_reserved (Z.of_nat n) s Hn). unfold m. lia.
  - intros e j k Hg. unfold behind. cbn.
    destruct (Z.eq_dec e (recv_epoch s)) as [->|Hne]; [right|left].
    + split; [reflexivity|]. destruct (Z.lt_ge_cases j (idx + Z.of_nat n)) as [|Hge]; [lia|].
      unfold m in Hg. rewrite get_insert_keys_out in Hg by lia.
      apply (suffix_get _ _ _ _ Hx H1), H3 in Hg. destruct Hg as [Hg|[_ Hg]]; [lia|]. rewrite Hidx in Hg. lia.
    + unfold m in Hg. rewrite get_insert_keys_out in Hg by lia.
      apply (suffix_get _ _ _ _ Hx H1), H3 in Hg. destruct Hg as [Hg|[Hg _]]; [exact Hg|contradiction].
Qed.

Lemma insert_keys_spent l s rc n key i :
  cache_inv s -> spent l s -> ProtocolState.recv_chain (SessionInner.state s) = Some rc ->
  let idx := ChainState.message_index rc in
  let m := insert_keys n (recv_epoch s) idx (ChainState.chain_key rc) (reserved (Z.of_nat n) s) in
  idx + Z.of_nat n <= i ->
  spent l (set_recv_progress key i (SessionInner.set_skipped_message_keys m s)).
Proof.
  intros Hinv Hsp Hrc idx m Hi e j Hin. destruct (Hsp e j Hin) as [Hb Hg].
  assert (Hidx : recv_index s = idx) by (unfold recv_index; now rewrite Hrc).
  unfold set_recv_progress. cbn [SessionInner.state SessionInner.set_skipped_message_keys]. rewrite Hrc.
  unfold behind in *. rewrite Hidx in Hb. cbn. split; [intuition lia|].
  unfold m. rewrite get_insert_keys_out by lia.
  eapply suffix_get_none; [apply reserved_suffix|apply Hinv|exact Hg].
Qed.

(** Taking a cached key out. *)
Lemma remove_key_inv s e i :
  cache_inv s ->
  cache_inv (SessionInner.set_skipped_message_keys
               (BTreeMap.remove (SessionInner.skipped_message_keys s) (e, i)) s).
Proof.
  intros [H1 H2 H3 H4 H5 H6]. constructor; cbn; auto.
  - now apply BTreeMap.remove_sorted.
  - pose proof (BTreeMap.len_remove_le (SessionInner.skipped_message_keys s) (e, i)). lia.
  - intros e' i' k Hg. apply (H3 e' i' k).
    destruct (BTreeMap.key_eqb (e, i) (e', i')) eqn:E.
    + apply BTreeMap.key_eqb_spec in E. injection E as <- <-. now rewrite BTreeMap.get_remove_eq in Hg.
    + rewrite BTreeMap.get_remove_neq in Hg; [exact Hg|]. intros Heq.
      rewrite Heq, BTreeMap.key_eqb_refl in E. discriminate.
Qed.

Lemma remove_key_spent l s e i k :
  cache_inv s -> spent l s -> BTreeMap.get (SessionInner.skipped_message_keys s) (e, i) = Some k ->
  let s' := SessionInner.set_skipped_message_keys
              (BTreeMap.remove (SessionInner.skipped_message_keys s) (e, i)) s in
  ~ In (e, i) l /\ spent ((e, i) :: l) s'.
Proof.
  intros Hinv Hsp Hg s'. split; [intros Hin; destruct (Hsp e i Hin); congruence|].
  intros e' i' [[= -> ->]|Hin]; cbn.
  - split; [exact (ci_behind s Hinv _ _ _ Hg)|]. apply BTreeMap.get_remove_eq, Hinv.
  - destruct (Hsp e' i' Hin) as [Hb Hn]. split; [exact Hb|].
    rewrite BTreeMap.get_remove_neq; [exact Hn|]. intros [= -> ->]. congruence.
Qed.

(** Handing out the key of [(e, i)]: the position was not spent, and is now. *)
Lemma message_key_for_inv l old e i s key s2 :
  cache_inv s -> spent l s -> (old = true \/ e = recv_epoch s) ->
  message_key_for old e i s = (Ok key, s2) ->
  cache_inv s2 /\ ~ In (e, i) l /\ spent ((e, i) :: l) s2.
Proof.
  intros Hinv Hsp Ho H. destruct old.
  - rewrite message_key_for_old in H. destruct (BTreeMap.get _ _) eqn:Eg; [|discriminate]. inv_stm.
    split; [now apply remove_key_inv|]. eapply remove_key_spent; eassumption.
  - destruct Ho as [Ho| ->]; [discriminate|]. cbn [message_key_for] in H. rewrite get_recv_message_key_eq in H.
    destruct (ProtocolState.recv_chain _) as [rc|] eqn:Hrc; [|discriminate].
    repeat case_if_in H; try discriminate; bools.
    + destruct (BTreeMap.get _ _) eqn:Eg; [|discriminate]. inv_stm.
      split; [now apply remove_key_inv|]. eapply remove_key_spent; eassumption.
    + inv_stm. assert (Hi : recv_index s = ChainState.message_index rc) by (unfold recv_index; now rewrite Hrc).
      unfold advanced. set (span := i - ChainState.message_index rc) in *.
      replace (reserved span s) with (reserved (Z.of_nat (Z.to_nat span)) s) by (f_equal; unfold span; lia).
      assert (Hn : ~ In (recv_epoch s, i) l).
      { intros Hin. destruct (Hsp _ _ Hin) as [[Hb|[_ Hb]] _]; lia. }
      split; [apply insert_keys_inv; auto; unfold span; lia|]. split; [exact Hn|].
      intros e' i' [[= <- <-]|Hin]; [|apply (insert_keys_spent l s rc); auto; unfold span; lia].
      unfold set_recv_progress. cbn [SessionInner.state SessionInner.set_skipped_message_keys]. rewrite Hrc.
      unfold behind. cbn. split; [right; split; [reflexivity|lia]|].
      rewrite get_insert_keys_out by (unfold span; lia).
      eapply suffix_get_none; [apply reserved_suffix|apply Hinv|].
      destruct (BTreeMap.get _ _) eqn:Eg; [|reflexivity].
      apply (ci_behind s Hinv) in Eg. destruct Eg as [Eg|[_ Eg]]; lia.
Qed.

(** ** The ratchet step *)

Lemma old_chain_cached_inv l pcl s s0 :
  cache_inv s -> spent l s -> old_chain_cached pcl s s0 ->
  cache_inv s0 /\ spent l s0 /\ recv_epoch s0 = recv_epoch s.
Proof.
  intros Hinv Hsp H. destruct pcl as [n|]; cbn in H; [|subst; auto].
  destruct H as (rc & Hrc & _ & [[_ ->]|(Hlt & Hle & ->)]); [auto|].
  unfold skipped_to. set (count := n - ChainState.message_index rc) in *.
  replace (reserved count s) with (reserved (Z.of_nat (Z.to_nat count)) s) by (f_equal; unfold count; lia).
  split; [apply insert_keys_inv; auto; unfold count; lia|].
  split; [apply insert_keys_spent; auto; unfold count; lia|].
  unfold set_recv_progress, recv_epoch. cbn [SessionInner.state SessionInner.set_skipped_message_keys]. now rewrite Hrc.
Qed.

Lemma ratcheted_inv l keys dh pk s :
  cache_inv s -> spent l s ->
  cache_inv (ratcheted keys dh pk s) /\ spent l (ratcheted keys dh pk s) /\
  recv_epoch (ratcheted keys dh pk s) = recv_epoch s + 1.
Proof.
  intros [H1 H2 H3 H4 H5 H6] Hsp. destruct keys as [[nr nc] nm].
  set (s' := ratcheted (nr, nc, nm) dh pk s).
  assert (Hx : suffix (SessionInner.skipped_message_keys s') (SessionInner.skipped_message_keys s)).
  { unfold s'. cbn. eapply suffix_trans; [apply pop_over_suffix|apply BTreeMap.pop_while_suffix]. }
  assert (He : recv_epoch s' = recv_epoch s + 1) by reflexivity.
  split; [|split; [|exact He]].
  - constructor; [now apply (suffix_sorted _ _ Hx)| | | | |exact H6].
    + unfold s'. cbn. now apply len_pop_over.
    + intros e i k Hg. apply (suffix_get _ _ _ _ Hx H1), H3 in Hg. left. rewrite He. destruct Hg; lia.
    + unfold s'. cbn.
      match goal with |- BTreeMap.sorted (pop_over ?a ?b) => destruct (pop_over_suffix a b) as [k ->] end.
      apply BTreeMap.skipn_sorted, BTreeMap.pop_while_sorted. now apply BTreeMap.insert_sorted.
    + unfold s'. cbn. now apply len_pop_over.
  - intros e i Hin. destruct (Hsp e i Hin) as [Hb Hg]. split; [left; rewrite He; destruct Hb; lia|].
    now apply (suffix_get_none _ _ _ Hx).
Qed.

(** ** Accepted envelopes *)

Lemma remember_view n s :
  let s' := remember_seen_payload_nonce n s in
  SessionInner.skipped_message_keys s' = SessionInner.skipped_message_keys s /\
  SessionInner.cached_metadata_keys s' = SessionInner.cached_metadata_keys s /\
  SessionInner.state s' = SessionInner.state s.
Proof. unfold remember_seen_payload_nonce. case_if; [auto|]. now destruct (prune_seen_nonces _ _). Qed.

Lemma remember_inv n s : cache_inv s -> cache_inv (remember_seen_payload_nonce n s).
Proof.
  intros [H1 H2 H3 H4 H5 H6]. destruct (remember_view n s) as (E1 & E2 & E3).
  constructor; unfold behind, recv_epoch, recv_index in *; rewrite ?E1, ?E2, ?E3; auto using remember_seen_inv.
Qed.

Lemma remember_spent l n s : spent l s -> spent l (remember_seen_payload_nonce n s).
Proof.
  intros H. destruct (remember_view n s) as (E1 & E2 & E3).
  unfold spent, behind, recv_epoch, recv_index in *. rewrite E1, E3. exact H.
Qed.

Lemma mark_pending_view s : recv_view (mark_pending s) = recv_view s.
Proof. unfold mark_pending. now case_if. Qed.

(** Position of an accepted envelope. *)
Definition position (env : SecureEnvelope) (r : DecryptResult) : Z * Z :=
  (SecureEnvelope.ratchet_epoch env, EnvelopeMetadata.message_index (metadata r)).

Lemma decrypt_message_accepts l env max old inr s r s' :
  cache_inv s -> spent l s -> (old = true \/ SecureEnvelope.ratchet_epoch env = recv_epoch s) ->
  decrypt_message env max old inr s = (Ok r, s') ->
  cache_inv s' /\ ~ In (position env r) l /\ spent (position env r :: l) s'.
Proof.
  intros Hinv Hsp Ho H. rewrite decrypt_message_eq in H.
  destruct (accepted_metadata _ _ _ _) as [md|]; [|discriminate].
  destruct (message_key_for _ _ _ s) as [[key|] s2] eqn:Hk; [|discriminate].
  destruct (open_payload _ _ _ _); [|discriminate]. inv_stm.
  destruct (message_key_for_inv l _ _ _ _ _ _ Hinv Hsp Ho Hk) as (I & N & S).
  split; [|split; [exact N|]].
  - eapply cache_inv_view; [apply mark_pending_view|]. now apply remember_inv.
  - eapply spent_view; [apply mark_pending_view|]. now apply remember_spent.
Qed.

Lemma decrypt_accepts l env clock s r s' :
  cache_inv s -> spent l s -> decrypt env clock s = (Ok r, s') ->
  cache_inv s' /\ ~ In (position env r) l /\ spent (position env r :: l) s'.
Proof.
  intros Hinv Hsp H. apply decrypt_Ok in H.
  destruct H as (act & s1 & s2 & -> & _ & H).
  cut (cache_inv s2 /\ ~ In (position env r) l /\ spent (position env r :: l) s2).
  { intros (I & N & S). split; [now apply (cache_inv_view s2)|]. split; [exact N|now apply (spent_view _ s2)]. }
  destruct H as [(_ & He & Ha & Hm)|(_ & He & -> & _ & Hm)].
  - apply apply_recv_ratchet_Ok in Ha. destruct Ha as (dh & ct & pk & s0 & keys & _ & Hc & _ & ->).
    destruct (old_chain_cached_inv l _ _ _ Hinv Hsp Hc) as (I0 & S0 & E0).
    destruct (ratcheted_inv l keys dh pk s0 I0 S0) as (I1 & S1 & E1).
    eapply decrypt_message_accepts in Hm; [|exact I1|exact S1|right; congruence]. exact Hm.
  - eapply decrypt_message_accepts in Hm; [exact Hm|exact Hinv|exact Hsp|].
    destruct (Z.ltb_spec (SecureEnvelope.ratchet_epoch env) (recv_epoch s)); [now left|right; lia].
Qed.

(** ** Rejected envelopes *)

(** The fields [rollback_ratchet] does not restore, because nothing before the
    last check assigns them. *)
Definition rest_part (s : SessionInner) :=
  (SessionInner.pending_kyber_shared_secret s, SessionInner.seen_payload_nonces s,
   SessionInner.seen_payload_nonce_order s, SessionInner.is_initiator s, SessionInner.dh_private_handle s,
   SessionInner.kyber_secret_handle s, SessionInner.event_handler s,
   SessionInner.messages_since_last_dh_ratchet s, SessionInner.handler_calls s).

Lemma rest_progress key i s : rest_part (set_recv_progress key i s) = rest_part s.
Proof. unfold set_recv_progress. now destruct (ProtocolState.recv_chain _). Qed.

Lemma skip_old_chain_keys_rest pcl s r s' :
  skip_old_chain_keys pcl s = (r, s') -> rest_part s' = rest_part s.
Proof.
  unfold skip_old_chain_keys, get_recv_chain. intros H. destruct r; inv_stm; try reflexivity.
  all: case_if_in H; inv_stm; try reflexivity; rewrite reserve_eq in *;
    match goal with H : (if ?b then _ else _) = _ |- _ => destruct b end; inv_stm; try reflexivity.
  all: rewrite skip_loop_eq in *; inv_stm. now rewrite rest_progress.
Qed.

Lemma apply_recv_ratchet_rest env s r s' :
  apply_recv_ratchet env s = (r, s') -> rest_part s' = rest_part s.
Proof.
  assert (Hskip : forall pcl a b, match pcl with
      | Some n => skip_old_chain_keys n | None => sret tt end s = (a, b) -> rest_part b = rest_part s).
  { intros [n|] a b H; [eapply skip_old_chain_keys_rest; eassumption|now inv_stm]. }
  unfold apply_recv_ratchet. intros H. destruct r; inv_stm; try reflexivity; eauto.
  all: match goal with H : match SecureEnvelope.previous_chain_length _ with _ => _ end _ = _ |- _ =>
    apply Hskip in H; exact H end.
Qed.

Lemma message_key_for_rest old e i s r s' :
  message_key_for old e i s = (r, s') -> rest_part s' = rest_part s.
Proof.
  destruct old.
  - rewrite message_key_for_old. destruct (BTreeMap.get _ _); intros H; inv_stm; reflexivity.
  - cbn [message_key_for]. rewrite get_recv_message_key_eq. intros H.
    destruct (ProtocolState.recv_chain _) as [rc|] eqn:Hrc; [|inv_stm; reflexivity].
    repeat case_if_in H; try (inv_stm; reflexivity).
    + destruct (BTreeMap.get _ _); inv_stm; reflexivity.
    + inv_stm. unfold advanced. now rewrite rest_progress.
Qed.

Lemma message_key_for_Err old e i s err s' : message_key_for old e i s = (Err err, s') -> s' = s.
Proof.
  destruct old.
  - rewrite message_key_for_old. destruct (BTreeMap.get _ _); intros H; inv_stm; reflexivity.
  - cbn [message_key_for]. rewrite get_recv_message_key_eq. intros H.
    destruct (ProtocolState.recv_chain _) as [rc|] eqn:Hrc; [|inv_stm; reflexivity].
    repeat case_if_in H; try (inv_stm; reflexivity).
    destruct (BTreeMap.get _ _); inv_stm; reflexivity.
Qed.

Lemma rollback_exact s s1 : rest_part s1 = rest_part s -> rollback_ratchet (capture_recv s) s1 = s.
Proof. destruct s, s1. unfold rest_part. cbn. intros [=]; subst. reflexivity. Qed.

Definition remove_all (epoch : Z) (l : list Z) (m : BTreeMap.t (Z * Z) bytes) : BTreeMap.t (Z * Z) bytes :=
  fold_left (fun m idx => BTreeMap.remove m (epoch, idx)) l m.

Lemma remove_all_session epoch l s :
  fold_left (fun i idx => SessionInner.set_skipped_message_keys
                            (BTreeMap.remove (SessionInner.skipped_message_keys i) (epoch, idx)) i) l s =
  SessionInner.set_skipped_message_keys (remove_all epoch l (SessionInner.skipped_message_keys s)) s.
Proof.
  revert s. induction l as [|i l IH]; intros s; cbn [fold_left remove_all]; [now destruct s|].
  rewrite IH. reflexivity.
Qed.

Lemma remove_all_sorted epoch l m : BTreeMap.sorted m -> BTreeMap.sorted (remove_all epoch l m).
Proof. revert m. induction l; intros m H; cbn; [assumption|]. apply IHl. now apply BTreeMap.remove_sorted. Qed.

Lemma get_remove_all_in epoch l m i :
  BTreeMap.sorted m -> In i l -> BTreeMap.get (remove_all epoch l m) (epoch, i) = None.
Proof.
  revert m. induction l as [|j l IH]; intros m Hs Hin; [easy|]. cbn [remove_all fold_left].
  destruct (in_dec Z.eq_dec i l) as [Hl|Hl].
  - apply IH; [now apply BTreeMap.remove_sorted|assumption].
  - destruct Hin as [->|Hin]; [|contradiction].
    clear IH. assert (Hn : BTreeMap.get (BTreeMap.remove m (epoch, i)) (epoch, i) = None)
      by (now apply BTreeMap.get_remove_eq). revert Hn. generalize (BTreeMap.remove m (epoch, i)).
    induction l as [|j l IH]; intros m' Hn; [exact Hn|]. cbn. cbn in Hl. apply IH; [tauto|].
    rewrite BTreeMap.get_remove_neq; [exact Hn|]. intros [= ->]. tauto.
Qed.

Lemma get_remove_all_out epoch l m e i :
  ~ (e = epoch /\ In i l) -> BTreeMap.get (remove_all epoch l m) (e, i) = BTreeMap.get m (e, i).
Proof.
  revert m. induction l as [|j l IH]; intros m H; [reflexivity|]. cbn [remove_all fold_left].
  cbn [In] in H. fold (remove_all epoch l (BTreeMap.remove m (epoch, j))). rewrite IH by tauto.
  apply BTreeMap.get_remove_neq. intros [= -> ->]. tauto.
Qed.

(** Dropping the keys just cached gives the cache from before. *)
Lemma remove_all_inserted n epoch idx ck m :
  BTreeMap.sorted m -> (forall j, idx <= j < idx + Z.of_nat n -> BTreeMap.get m (epoch, j) = None) ->
  remove_all epoch (zrange idx (idx + Z.of_nat n)) (insert_keys n epoch idx ck m) = m.
Proof.
  intros Hs Hn. apply BTreeMap.sorted_ext; [|exact Hs|].
  { apply remove_all_sorted. now apply insert_keys_sorted. }
  intros [e i]. destruct (in_dec Z.eq_dec i (zrange idx (idx + Z.of_nat n))) as [Hin|Hin].
  - destruct (Z.eq_dec e epoch) as [->|He].
    + rewrite get_remove_all_in by (auto using insert_keys_sorted). apply zrange_In in Hin. now rewrite Hn.
    + rewrite get_remove_all_out by tauto. apply get_insert_keys_out. tauto.
  - rewrite get_remove_all_out by tauto. apply get_insert_keys_out. rewrite <- zrange_In. tauto.
Qed.

(** The state after a rejected envelope: only evictions from the cache of
    skipped keys may remain. *)
Definition only_evicted (s s' : SessionInner) : Prop :=
  exists n, s' = SessionInner.set_skipped_message_keys (reserved n s) s.

Lemma set_progress_same s rc :
  ProtocolState.recv_chain (SessionInner.state s) = Some rc ->
  set_recv_progress (ChainState.chain_key rc) (ChainState.message_index rc) s = s.
Proof.
  destruct s as [[]]. cbn. intros ->. unfold set_recv_progress. cbn. now destruct rc.
Qed.

Lemma set_progress_twice k1 i1 k2 i2 s :
  set_recv_progress k2 i2 (set_recv_progress k1 i1 s) = set_recv_progress k2 i2 s.
Proof.
  unfold set_recv_progress. destruct (ProtocolState.recv_chain (SessionInner.state s)) as [rc|] eqn:E;
    cbn; [reflexivity|now rewrite E].
Qed.

Lemma set_progress_skipped k i m s :
  SessionInner.set_skipped_message_keys m (set_recv_progress k i s) =
  set_recv_progress k i (SessionInner.set_skipped_message_keys m s).
Proof. unfold set_recv_progress. cbn. now destruct (ProtocolState.recv_chain (SessionInner.state s)). Qed.

Lemma reinsert_key s e i key :
  cache_inv s -> BTreeMap.get (SessionInner.skipped_message_keys s) (e, i) = Some key ->
  insert_skipped e i key (SessionInner.set_skipped_message_keys
    (BTreeMap.remove (SessionInner.skipped_message_keys s) (e, i)) s) = s.
Proof.
  intros Hinv Hg. unfold insert_skipped. cbn. rewrite BTreeMap.insert_remove by (auto; apply Hinv). now destruct s.
Qed.

Lemma undo_advanced s rc i key :
  cache_inv s -> ProtocolState.recv_chain (SessionInner.state s) = Some rc -> ChainState.message_index rc <= i ->
  undo_message_key false (recv_epoch s) i
    (Some (ChainState.chain_key rc, ChainState.message_index rc)) key (advanced rc i s) =
  SessionInner.set_skipped_message_keys (reserved (i - ChainState.message_index rc) s) s.
Proof.
  intros Hinv Hrc Hi. unfold undo_message_key. rewrite (proj2 (Z.ltb_ge _ _)) by exact Hi.
  assert (He : ProtocolState.recv_ratchet_epoch (SessionInner.state (advanced rc i s)) = recv_epoch s).
  { unfold advanced, set_recv_progress. cbn. now rewrite Hrc. }
  rewrite He, remove_all_session. unfold advanced.
  rewrite set_progress_skipped, set_progress_twice.
  assert (Hg : forall k j m, SessionInner.skipped_message_keys (set_recv_progress k j m) =
                             SessionInner.skipped_message_keys m).
  { intros k j m. unfold set_recv_progress. now destruct (ProtocolState.recv_chain (SessionInner.state m)). }
  rewrite Hg. cbn [SessionInner.skipped_message_keys SessionInner.set_skipped_message_keys].
  set (idx := ChainState.message_index rc) in *.
  replace (zrange idx i) with (zrange idx (idx + Z.of_nat (Z.to_nat (i - idx)))) by (f_equal; lia).
  rewrite remove_all_inserted.
  - apply set_progress_same. exact Hrc.
  - eapply suffix_sorted; [apply reserved_suffix|apply Hinv].
  - intros j Hj. eapply suffix_get_none; [apply reserved_suffix|apply Hinv|].
    destruct (BTreeMap.get _ _) eqn:Eg; [|reflexivity]. apply (ci_behind s Hinv) in Eg.
    unfold behind, recv_index in Eg. rewrite Hrc in Eg. cbn in Eg. fold idx in Eg. lia.
Qed.

Lemma undo_exact old e i s key s2 :
  cache_inv s -> (old = true \/ e = recv_epoch s) -> message_key_for old e i s = (Ok key, s2) ->
  let s' := undo_message_key old e i (saved_chain old s) key s2 in s' = s \/ only_evicted s s'.
Proof.
  intros Hinv Ho H. cbv zeta. destruct old.
  - rewrite message_key_for_old in H. destruct (BTreeMap.get _ _) eqn:Eg; [|discriminate]. inv_stm.
    left. now apply reinsert_key.
  - destruct Ho as [Ho| ->]; [discriminate|]. cbn [message_key_for] in H. rewrite get_recv_message_key_eq in H.
    unfold saved_chain. destruct (ProtocolState.recv_chain _) as [rc|] eqn:Hrc; [|discriminate]. cbn [option_map].
    repeat case_if_in H; try discriminate; bools.
    + destruct (BTreeMap.get _ _) eqn:Eg; [|discriminate]. inv_stm. left.
      unfold undo_message_key. rewrite (proj2 (Z.ltb_lt _ _)) by assumption.
      cbn [SessionInner.state SessionInner.set_skipped_message_keys]. fold (recv_epoch s).
      rewrite reinsert_key by assumption. now apply set_progress_same.
    + inv_stm. right. eexists. now apply undo_advanced.
Qed.

Lemma decrypt_failure env clock s e s' :
  cache_inv s -> decrypt env clock s = (Err e, s') ->
  s' = s \/ (has_ratchet_header env = false /\ only_evicted s s').
Proof.
  intros Hinv H. apply decrypt_Err in H. destruct H as [->|[(_ & s1 & -> & H)|(Hr & He & H)]]; [now left| |].
  - left. apply rollback_exact. destruct H as [H|(s0 & Ha & H)].
    + eapply apply_recv_ratchet_rest. eassumption.
    + apply apply_recv_ratchet_rest in Ha. rewrite decrypt_message_eq in H.
      destruct (accepted_metadata _ _ _ _); [|inv_stm; exact Ha].
      destruct (message_key_for _ _ _ s0) as [[key|] s2] eqn:Hk; apply message_key_for_rest in Hk; [|inv_stm; congruence].
      destruct (open_payload _ _ _ _); inv_stm. congruence.
  - rewrite decrypt_message_eq in H. destruct (accepted_metadata _ _ _ _); [|inv_stm; now left].
    destruct (message_key_for _ _ _ s) as [[key|] s2] eqn:Hk.
    + destruct (open_payload _ _ _ _); [discriminate|]. inv_stm.
      eapply undo_exact in Hk; [destruct Hk as [Hk|Hk]; eauto|exact Hinv|].
      destruct (Z.ltb_spec (SecureEnvelope.ratchet_epoch env) (recv_epoch s)); [now left|right; lia].
    + apply message_key_for_Err in Hk. inv_stm. now left.
Qed.

(** C21. A rejected envelope does not change the session, except that the cache
    of skipped keys may have lost old entries when the envelope was not a
    ratchet envelope: then the keys it would have skipped made room for
    themselves before the payload failed to authenticate.  A rejected ratchet
    envelope leaves no trace. *)
Theorem decrypt_failure_effect env clock s e s' :
  cache_inv s -> decrypt env clock s = (Err e, s') ->
  s' = s \/ (has_ratchet_header env = false /\ only_evicted s s').
Proof. apply decrypt_failure. Qed.

(** ** Operations of a session *)

Lemma maybe_rotate_view ent env s r s' :
  maybe_rotate_send_ratchet ent env s = (r, s') -> recv_view s' = recv_view s.
Proof.
  unfold maybe_rotate_send_ratchet. intros H. destruct r; inv_stm; try reflexivity.
  all: match goal with H : (if negb ?b then _ else _) _ = _ |- _ => destruct b; cbn [negb] in H end.
  all: inv_stm; reflexivity.
Qed.

Lemma idle_view s s' : idle_part s = idle_part s' -> recv_view s = recv_view s'.
Proof.
  destruct s as [[]], s' as [[]]. unfold idle_part, recv_part. cbn. intros H.
  unfold recv_view, recv_epoch, recv_index. cbn. injection H; intros; subst. reflexivity.
Qed.

Lemma rotate_state_of snap s x :
  capture_ratchet s = Ok snap -> recv_part x = recv_part s ->
  recv_view (restore_ratchet snap x) = recv_view s /\ SessionInner.state (restore_ratchet snap x) = SessionInner.state s.
Proof.
  unfold capture_ratchet. intros H Hr. inv_ok. split; [|reflexivity].
  unfold recv_view, recv_part in *. cbn. injection Hr as _ -> -> _ -> -> _ _. reflexivity.
Qed.

Lemma encrypt_view payload ty id corr clock ent s r s' :
  encrypt payload ty id corr clock ent s = (r, s') -> recv_view s' = recv_view s.
Proof.
  destruct r as [env|e]; intros H.
  - apply encrypt_Ok in H. destruct H as (act & env0 & s1 & s2 & _ & _ & _ & Hr & Hb & ->).
    apply maybe_rotate_view in Hr. apply encrypt_body_frame, idle_view in Hb. rewrite <- Hr, <- Hb. reflexivity.
  - unfold encrypt, encrypt_internal in H. inv_stm; try reflexivity.
    + destruct a7; inv_ok.
      * eapply rotate_state_of; eauto using maybe_rotate_frame.
      * rewrite maybe_rotate_idle in H by assumption. discriminate.
    + apply encrypt_body_frame in H. destruct a7; inv_ok; cbn [rollback_send_encrypt_state].
      * eapply rotate_state_of; eauto. apply maybe_rotate_frame in Hc9. apply idle_recv in H. congruence.
      * rewrite maybe_rotate_idle in Hc9 by assumption. inv_stm. apply idle_view in H. rewrite <- H. reflexivity.
Qed.

End Inv.
