(* ===== verification/SessionRun.v ===== *)
(** * Histories of a session

    A session as a state machine: the public operations of [session.rs] as
    steps, run in any order on any inputs (the envelopes may come from an
    attacker).  The theorems hold for every history that starts with
    [from_handshake_state]; the last part follows the ratchet epochs of the two
    ends and shows what a lost ratchet envelope does. *)

From Stdlib Require Import ZArith List Bool Lia String.
From S2P Require Import Prelude Constants BTree SeenSet SecureMemory Crypto Toy Padding Nonce Proto ToyCodec.
From S2P Require Import SessionState Session ToySession SessionPersist SessionChain SessionRecv SessionSend SessionInv.
Import ListNotations.
Open Scope string_scope.
Open Scope list_scope.
Open Scope Z_scope.

(** The calls that can change a session. *)
Inductive Op : Type :=
| op_encrypt (payload : bytes) (ty id : Z) (corr : option string) (clock : Clock) (ent : SendEntropy)
| op_decrypt (env : SecureEnvelope) (clock : Clock)
| op_export (kek : PResult SecureMemoryHandle.t) (external_counter : Z) (ent : ExportEntropy)
| op_set_device_id (device_id : bytes)
| op_set_session_ttl (ttl : option Z)
| op_set_event_handler
| op_destroy.

(** What a history leaves behind: positions of messages sent and accepted. *)
Inductive Event : Type :=
| Sent (epoch index : Z)
| Accepted (epoch index : Z).

Section Run.
Context `{P : Primitives} {L : PrimitiveLaws P} {C : Prost EnvelopeMetadata}.
Context {CS : Prost ProtocolState} {CZ : Prost SealedState.t}.

(** One call: its events and the state it leaves, on success or failure. *)
Definition apply_op (op : Op) (s : SessionInner) : list Event * SessionInner :=
  match op with
  | op_encrypt payload ty id corr clock ent =>
      match encrypt payload ty id corr clock ent s with
      | (Ok env, s') => ([Sent (SecureEnvelope.ratchet_epoch env) (send_index s' - 1)], s')
      | (Err _, s') => ([], s')
      end
  | op_decrypt env clock =>
      match decrypt env clock s with
      | (Ok r, s') => ([Accepted (SecureEnvelope.ratchet_epoch env) (EnvelopeMetadata.message_index (metadata r))], s')
      | (Err _, s') => ([], s')
      end
  | op_export kek ctr ent => ([], snd (export_sealed_state kek ctr ent s))
  | op_set_device_id d => ([], snd (set_device_id d s))
  | op_set_session_ttl t => ([], snd (set_session_ttl t s))
  | op_set_event_handler => ([], set_event_handler s)
  | op_destroy => ([], destroy s)
  end.

Fixpoint run (ops : list Op) (s : SessionInner) : list Event * SessionInner :=
  match ops with
  | [] => ([], s)
  | op :: ops =>
      let '(evs, s1) := apply_op op s in
      let '(evs', s2) := run ops s1 in
      (evs ++ evs', s2)
  end.

Definition accepted (evs : list Event) : list (Z * Z) :=
  flat_map (fun ev => match ev with Accepted e i => [(e, i)] | Sent _ _ => [] end) evs.

Definition sent (evs : list Event) : list (Z * Z) :=
  flat_map (fun ev => match ev with Sent e i => [(e, i)] | Accepted _ _ => [] end) evs.

(** ** One step *)

Lemma export_view kek ctr ent s : recv_view (snd (export_sealed_state kek ctr ent s)) = recv_view s.
Proof.
  destruct (export_sealed_state kek ctr ent s) as [r s'] eqn:H. cbn [snd].
  unfold export_sealed_state in H. destruct r; inv_stm; try reflexivity. now case_if.
Qed.

Lemma set_device_id_view d s : recv_view (snd (set_device_id d s)) = recv_view s.
Proof.
  destruct (set_device_id d s) as [r s'] eqn:H. cbn [snd].
  unfold set_device_id in H. destruct r; inv_stm; reflexivity.
Qed.

Lemma set_session_ttl_view t s : recv_view (snd (set_session_ttl t s)) = recv_view s.
Proof.
  destruct (set_session_ttl t s) as [r s'] eqn:H. cbn [snd].
  unfold set_session_ttl in H. destruct r; inv_stm; reflexivity.
Qed.

Lemma destroy_inv s : cache_inv s -> cache_inv (destroy s).
Proof.
  intros _. constructor; try (now constructor); try easy; cbn.
  - split; [split; [constructor|easy]|easy].
Qed.

Lemma only_evicted_spent l s s' : cache_inv s -> spent l s -> only_evicted s s' -> spent l s'.
Proof.
  intros Hi Hs [n ->] e i Hin. destruct (Hs e i Hin) as [Hb Hg]. split; [exact Hb|]. cbn.
  eapply suffix_get_none; [apply reserved_suffix|apply Hi|exact Hg].
Qed.

Lemma destroy_spent l s : spent l s -> spent l (destroy s).
Proof.
  intros H e i Hin. destruct (H e i Hin) as [Hb _]. split; [|reflexivity].
  unfold behind, recv_epoch, recv_index in *. cbn. now destruct (ProtocolState.recv_chain _).
Qed.

Lemma apply_op_recv l op s evs s' :
  cache_inv s -> spent l s -> apply_op op s = (evs, s') ->
  cache_inv s' /\ NoDup (accepted evs) /\ (forall p, In p (accepted evs) -> ~ In p l) /\
  spent (accepted evs ++ l) s'.
Proof.
  intros Hi Hs H.
  assert (Hq : recv_view s' = recv_view s -> accepted evs = [] ->
    cache_inv s' /\ NoDup (accepted evs) /\ (forall p, In p (accepted evs) -> ~ In p l) /\ spent (accepted evs ++ l) s').
  { intros Hv ->. split; [now apply (cache_inv_view s)|]. split; [constructor|]. split; [easy|].
    now apply (spent_view _ s). }
  destruct op; cbn [apply_op] in H.
  - destruct (encrypt _ _ _ _ _ _ s) as [[env|] s1] eqn:He; inv_ok; apply encrypt_view in He; auto.
  - destruct (decrypt _ _ s) as [[r|] s1] eqn:Hd; inv_ok.
    + destruct (decrypt_accepts l _ _ _ _ _ Hi Hs Hd) as (I & N & S). unfold position in *. cbn.
      split; [exact I|]. split; [constructor; [easy|constructor]|].
      split; [intros p [<-|[]]; exact N|exact S].
    + cbn. apply decrypt_failure in Hd; [|exact Hi]. destruct Hd as [->|[_ Hev]]; [auto|].
      split; [destruct Hev as [n ->]; apply cache_inv_suffix; [exact Hi|apply reserved_suffix]|].
      split; [constructor|]. split; [easy|]. now apply (only_evicted_spent l s).
  - inv_ok. apply Hq; [apply export_view|reflexivity].
  - inv_ok. apply Hq; [apply set_device_id_view|reflexivity].
  - inv_ok. apply Hq; [apply set_session_ttl_view|reflexivity].
  - inv_ok. apply Hq; reflexivity.
  - inv_ok. cbn. split; [now apply destroy_inv|]. split; [constructor|]. split; [easy|]. now apply destroy_spent.
Qed.

(** ** Histories *)

Lemma NoDup_app_disjoint {A} (l1 l2 : list A) :
  NoDup l1 -> NoDup l2 -> (forall x, In x l2 -> ~ In x l1) -> NoDup (l1 ++ l2).
Proof. intros H1 H2 Hd. apply NoDup_app; auto. intros x Hx Hy. exact (Hd x Hy Hx). Qed.

Lemma run_recv ops : forall l s evs s',
  cache_inv s -> spent l s -> run ops s = (evs, s') ->
  cache_inv s' /\ NoDup (accepted evs) /\ (forall p, In p (accepted evs) -> ~ In p l).
Proof.
  induction ops as [|op ops IH]; intros l s evs s' Hi Hs H; cbn [run] in H.
  - inv_ok. split; [exact Hi|]. split; [constructor|easy].
  - destruct (apply_op op s) as [evs1 s1] eqn:Ha. destruct (run ops s1) as [evs2 s2] eqn:Hr. inv_ok.
    destruct (apply_op_recv l _ _ _ _ Hi Hs Ha) as (I1 & N1 & D1 & S1).
    destruct (IH _ _ _ _ I1 S1 Hr) as (I2 & N2 & D2). unfold accepted in *. rewrite flat_map_app.
    split; [exact I2|]. split.
    + apply NoDup_app_disjoint; auto. intros p Hp Hin. apply (D2 p Hp). apply in_or_app. now left.
    + intros p Hp Hin. apply in_app_or in Hp. destruct Hp as [Hp|Hp]; [exact (D1 p Hp Hin)|].
      apply (D2 p Hp). apply in_or_app. now right.
Qed.

Lemma from_handshake_inv hs s : from_handshake_state hs = Ok s -> cache_inv s.
Proof.
  unfold from_handshake_state. intros H. inv_ok.
  destruct (initialize_from_handshake_inner _) as [[u|] s1] eqn:Hi; inv_ok.
  unfold initialize_from_handshake_inner, guard_wiping in Hi. inv_stm.
  match goal with H : Session_new _ _ = Ok _ |- _ => unfold Session_new in H end. inv_ok.
  repeat match goal with H : (let (_, _) := ?p in _) = Ok _ |- _ => destruct p; inv_ok end.
  constructor; try (now constructor); try easy; cbn.
  split; [split; [constructor|easy]|easy].
Qed.

Lemma spent_nil s : spent [] s.
Proof. easy. Qed.

(** C24. Whatever is done with a session after its handshake, its memory stays
    bounded: at most [MAX_SKIPPED_MESSAGE_KEYS] cached message keys,
    [MAX_CACHED_METADATA_KEYS] cached metadata keys, [MAX_SEEN_NONCES]
    remembered nonces; the set of nonces and its eviction queue agree; cached
    keys belong to messages the receiving chain has passed. *)
Theorem session_caches_bounded hs ops s evs s' :
  from_handshake_state hs = Ok s -> run ops s = (evs, s') ->
  len (SessionInner.skipped_message_keys s') <= MAX_SKIPPED_MESSAGE_KEYS /\
  len (SessionInner.cached_metadata_keys s') <= MAX_CACHED_METADATA_KEYS /\
  len (SessionInner.seen_payload_nonce_order s') <= MAX_SEEN_NONCES /\
  seen_consistent (SessionInner.seen_payload_nonces s') (SessionInner.seen_payload_nonce_order s') /\
  forall e i k, BTreeMap.get (SessionInner.skipped_message_keys s') (e, i) = Some k -> behind s' e i.
Proof.
  intros Hh Hr. destruct (run_recv _ [] _ _ _ (from_handshake_inv _ _ Hh) (spent_nil s) Hr) as (I & _).
  destruct I as [_ ? ? _ ? []]. auto.
Qed.

(** C1. No replay: in any history of a session, with envelopes chosen by an
    attacker, in any order, with repetitions, and across ratchet steps, cache
    evictions and failures, every (epoch, index) position is accepted at most
    once. *)
Theorem session_accepts_once hs ops s evs s' :
  from_handshake_state hs = Ok s -> run ops s = (evs, s') -> NoDup (accepted evs).
Proof.
  intros Hh Hr. now destruct (run_recv _ [] _ _ _ (from_handshake_inv _ _ Hh) (spent_nil s) Hr) as (_ & N & _).
Qed.

(** ** The sending side of a history *)

Definition send_pos (s : SessionInner) : Z * Z := (send_epoch s, send_index s).

(** [(e, i)] is a position the sending side has used. *)
Definition used (s : SessionInner) (p : Z * Z) : Prop :=
  fst p < send_epoch s \/ (fst p = send_epoch s /\ snd p < send_index s).

Lemma used_pos s s' p : send_pos s' = send_pos s -> used s p -> used s' p.
Proof. unfold send_pos, used. intros [= -> ->]. auto. Qed.

Lemma maybe_rotate_pos ent env s env' s' :
  maybe_rotate_send_ratchet ent env s = (Ok env', s') ->
  s' = s \/ (send_epoch s' = send_epoch s + 1 /\ send_index s' = 0).
Proof.
  unfold maybe_rotate_send_ratchet. intros H. inv_stm. destruct a; cbn [negb] in H; inv_stm; [right|now left].
  inv_ok. match goal with H : checked_add _ _ _ = Some _ |- _ => apply checked_add_inv in H; subst end.
  split; reflexivity.
Qed.

Lemma encrypt_sends payload ty id corr clock ent s env s' :
  encrypt payload ty id corr clock ent s = (Ok env, s') ->
  let p := (SecureEnvelope.ratchet_epoch env, send_index s' - 1) in
  used s' p /\ ~ used s p /\ forall q, used s q -> used s' q.
Proof.
  intros H. apply encrypt_Ok in H. destruct H as (act & env0 & s1 & s2 & _ & _ & _ & Hr & Hb & ->).
  apply encrypt_body_Ok in Hb. destruct Hb as (chain & g & g' & nonce & Hc & _ & _ & _ & Hs & Hh & _).
  unfold header_of in Hh. injection Hh as _ He _ _ _ _.
  assert (E2 : send_epoch (send_done act (ProtocolState.total_messages_sent (SessionInner.state s) + 1) s2) = send_epoch s1)
    by (unfold send_epoch; cbn; now rewrite Hs).
  assert (I2 : send_index (send_done act (ProtocolState.total_messages_sent (SessionInner.state s) + 1) s2) = send_index s1 + 1)
    by (unfold send_index; cbn; now rewrite Hs, Hc).
  cbv zeta. unfold used. cbn [fst snd]. rewrite He, E2, I2.
  apply maybe_rotate_pos in Hr. split; [cbn; lia|].
  change (SecureEnvelope.ratchet_epoch (SecureEnvelope.set_ratchet_epoch (send_epoch s1) env0)) with (send_epoch s1).
  destruct Hr as [->|[-> ->]]; split; lia.
Qed.

Lemma idle_send_epoch s s' : idle_part s = idle_part s' -> send_epoch s = send_epoch s'.
Proof. destruct s as [[]], s' as [[]]. unfold idle_part, recv_part. cbn. intros H. now injection H. Qed.

Lemma encrypt_Err_pos payload ty id corr clock ent s e s' :
  encrypt payload ty id corr clock ent s = (Err e, s') -> send_pos s' = send_pos s.
Proof.
  unfold encrypt, encrypt_internal. intros H. inv_stm; try reflexivity.
  - destruct a7; inv_ok; [|rewrite maybe_rotate_idle in H by assumption; discriminate].
    unfold send_pos, send_epoch, send_index. eapply maybe_rotate_frame in H.
    now rewrite (proj2 (rotate_state_of _ _ _ H0 H)).
  - apply encrypt_body_frame in H. destruct a7; inv_ok; cbn [rollback_send_encrypt_state].
    + apply maybe_rotate_frame in Hc9. apply idle_recv in H. unfold send_pos, send_epoch, send_index.
      rewrite Hc9 in H. now rewrite (proj2 (rotate_state_of _ _ _ H0 H)).
    + rewrite maybe_rotate_idle in Hc9 by assumption. inv_stm. apply idle_send_epoch in H.
      unfold send_pos, send_epoch, send_index in *. cbn. now rewrite H.
Qed.

Lemma progress_send k i s : send_pos (set_recv_progress k i s) = send_pos s.
Proof. unfold set_recv_progress. now destruct (ProtocolState.recv_chain (SessionInner.state s)). Qed.

Lemma message_key_for_send old e i s r s' :
  message_key_for old e i s = (r, s') -> send_pos s' = send_pos s.
Proof.
  destruct old.
  - rewrite message_key_for_old. destruct (BTreeMap.get _ _); intros H; inv_stm; reflexivity.
  - cbn [message_key_for]. rewrite get_recv_message_key_eq. intros H.
    destruct (ProtocolState.recv_chain _) as [rc|] eqn:Hrc; [|inv_stm; reflexivity].
    repeat case_if_in H; try (inv_stm; reflexivity).
    + destruct (BTreeMap.get _ _); inv_stm; reflexivity.
    + inv_stm. unfold advanced. now rewrite progress_send.
Qed.

Lemma decrypt_Ok_send env clock s r s' :
  decrypt env clock s = (Ok r, s') -> send_pos s' = send_pos s.
Proof.
  intros H. apply decrypt_Ok in H. destruct H as (act & s1 & s2 & -> & _ & H).
  assert (Hm : forall max old inr s0, decrypt_message env max old inr s0 = (Ok r, s2) -> send_pos s2 = send_pos s0).
  { intros max old inr s0 Hm. rewrite decrypt_message_eq in Hm.
    destruct (accepted_metadata _ _ _ _) as [md|]; [|discriminate].
    destruct (message_key_for _ _ _ s0) as [[key|] s3] eqn:Hk; [|discriminate].
    destruct (open_payload _ _ _ _); [|discriminate]. inv_stm. apply message_key_for_send in Hk. rewrite <- Hk.
    unfold mark_pending. destruct (remember_view (EnvelopeMetadata.payload_nonce md) s3) as (_ & _ & E).
    unfold send_pos, send_epoch, send_index. case_if; cbn; now rewrite E. }
  change (send_pos s2 = send_pos s).
  destruct H as [(_ & _ & Ha & H)|(_ & _ & -> & _ & H)]; [|now apply Hm in H].
  apply Hm in H. rewrite H. apply apply_recv_ratchet_Ok in Ha.
  destruct Ha as (dh & ct & pk & s0 & [[nr nc] nm] & _ & Hc & _ & ->).
  transitivity (send_pos s0); [reflexivity|]. unfold old_chain_cached in Hc.
  destruct (SecureEnvelope.previous_chain_length env); [|now subst].
  destruct Hc as (rc & _ & _ & [[_ ->]|(_ & _ & ->)]); [reflexivity|]. unfold skipped_to. now rewrite progress_send.
Qed.

Lemma destroy_send s : send_pos (destroy s) = send_pos s.
Proof. unfold send_pos, send_epoch, send_index. cbn. now destruct (ProtocolState.send_chain _). Qed.

Lemma export_send kek ctr ent s : send_pos (snd (export_sealed_state kek ctr ent s)) = send_pos s.
Proof.
  destruct (export_sealed_state kek ctr ent s) as [r s'] eqn:H. cbn [snd].
  unfold export_sealed_state in H. destruct r; inv_stm; try reflexivity. now case_if.
Qed.

Lemma set_device_id_send d s : send_pos (snd (set_device_id d s)) = send_pos s.
Proof.
  destruct (set_device_id d s) as [r s'] eqn:H. cbn [snd].
  unfold set_device_id in H. destruct r; inv_stm; reflexivity.
Qed.

Lemma set_session_ttl_send t s : send_pos (snd (set_session_ttl t s)) = send_pos s.
Proof.
  destruct (set_session_ttl t s) as [r s'] eqn:H. cbn [snd].
  unfold set_session_ttl in H. destruct r; inv_stm; reflexivity.
Qed.

(** A step sends at most one message, at an unused position. *)
Lemma apply_op_send op s evs s' :
  cache_inv s -> apply_op op s = (evs, s') ->
  NoDup (sent evs) /\ (forall p, In p (sent evs) -> ~ used s p /\ used s' p) /\
  (forall q, used s q -> used s' q).
Proof.
  intros Hi H.
  assert (Hq : send_pos s' = send_pos s -> sent evs = [] ->
    NoDup (sent evs) /\ (forall p, In p (sent evs) -> ~ used s p /\ used s' p) /\ (forall q, used s q -> used s' q)).
  { intros Hv ->. split; [constructor|]. split; [easy|]. intros q. now apply used_pos. }
  destruct op; cbn [apply_op] in H.
  - destruct (encrypt _ _ _ _ _ _ s) as [[env|] s1] eqn:He; inv_ok; [|apply encrypt_Err_pos in He; auto].
    apply encrypt_sends in He. destruct He as (U & N & M). cbn. split; [constructor; [easy|constructor]|].
    split; [intros p [<-|[]]; auto|exact M].
  - destruct (decrypt _ _ s) as [[r|] s1] eqn:Hd; inv_ok; [apply decrypt_Ok_send in Hd; auto|].
    apply decrypt_failure in Hd; [|exact Hi]. apply Hq; [|reflexivity]. destruct Hd as [->|[_ [n ->]]]; reflexivity.
  - inv_ok. apply Hq; [apply export_send|reflexivity].
  - inv_ok. apply Hq; [apply set_device_id_send|reflexivity].
  - inv_ok. apply Hq; [apply set_session_ttl_send|reflexivity].
  - inv_ok. apply Hq; reflexivity.
  - inv_ok. apply Hq; [apply destroy_send|reflexivity].
Qed.

Lemma run_send ops : forall s evs s',
  cache_inv s -> run ops s = (evs, s') ->
  NoDup (sent evs) /\ (forall p, In p (sent evs) -> ~ used s p) /\ (forall q, used s q -> used s' q).
Proof.
  induction ops as [|op ops IH]; intros s evs s' Hi H; cbn [run] in H.
  - inv_ok. split; [constructor|]. split; [easy|auto].
  - destruct (apply_op op s) as [evs1 s1] eqn:Ha. destruct (run ops s1) as [evs2 s2] eqn:Hr. inv_ok.
    destruct (apply_op_recv [] _ _ _ _ Hi (spent_nil s) Ha) as (I1 & _).
    destruct (apply_op_send _ _ _ _ Hi Ha) as (N1 & F1 & M1).
    destruct (IH _ _ _ I1 Hr) as (N2 & F2 & M2). unfold sent in *. rewrite flat_map_app. split; [|split; [|auto]].
    + apply NoDup_app_disjoint; auto. intros p Hp Hin. exact (F2 p Hp (proj2 (F1 p Hin))).
    + intros p Hp. apply in_app_or in Hp. destruct Hp as [Hp|Hp]; [exact (proj1 (F1 p Hp))|].
      intros Hu. exact (F2 p Hp (M1 p Hu)).
Qed.

(** C22. A sending chain key is used for one message only: in any history no two
    envelopes are produced at the same (epoch, index) position, although failed
    encryptions roll the chain back. *)
Theorem session_sends_once hs ops s evs s' :
  from_handshake_state hs = Ok s -> run ops s = (evs, s') -> NoDup (sent evs).
Proof.
  intros Hh Hr. now destruct (run_send _ _ _ _ (from_handshake_inv _ _ Hh) Hr) as (N & _).
Qed.

End Run.

(** * Which epochs a session accepts

    Only the first envelope of an epoch carries the material of the ratchet
    step.  A receiver that has not processed that envelope accepts nothing else
    of the sender: neither the rest of that epoch nor any later one. *)

Section Epochs.
Context `{P : Primitives} {L : PrimitiveLaws P} {C : Prost EnvelopeMetadata}.
Context {CS : Prost ProtocolState} {CZ : Prost SealedState.t}.

(** The envelopes a history produces. *)
Fixpoint produced (ops : list Op) (s : SessionInner) : list SecureEnvelope :=
  match ops with
  | [] => []
  | op :: ops =>
      match op with
      | op_encrypt payload ty id corr clock ent =>
          match fst (encrypt payload ty id corr clock ent s) with Ok env => [env] | Err _ => [] end
      | _ => []
      end ++ produced ops (snd (apply_op op s))
  end.

(** A ratchet header opens the next epoch; without one the epoch is the current. *)
Lemma encrypt_epoch payload ty id corr clock ent s env s' :
  encrypt payload ty id corr clock ent s = (Ok env, s') ->
  SecureEnvelope.ratchet_epoch env = send_epoch s + (if has_ratchet_header env then 1 else 0).
Proof.
  intros H. apply encrypt_Ok in H. destruct H as (act & env0 & s1 & s2 & _ & _ & _ & Hr & Hb & _).
  apply encrypt_body_Ok in Hb. destruct Hb as (chain & g & g' & nonce & _ & _ & _ & _ & _ & Hh & _).
  unfold header_of in Hh. injection Hh as _ He _ H1 H2 H3. unfold has_ratchet_header. rewrite He, H1, H2, H3. cbn.
  unfold maybe_rotate_send_ratchet in Hr. inv_stm. destruct a; cbn [negb] in Hr; inv_stm.
  - inv_ok. match goal with H : checked_add _ _ _ = Some _ |- _ => apply checked_add_inv in H; subst end. reflexivity.
  - cbn. unfold send_epoch. lia.
Qed.

Lemma used_epoch s s' : (forall q, used s q -> used s' q) -> send_epoch s <= send_epoch s'.
Proof.
  intros H. unfold used in H.
  destruct (Z.le_gt_cases (send_epoch s) (send_epoch s')) as [|Hlt]; [assumption|].
  specialize (H (send_epoch s - 1, Z.max 0 (send_index s'))). cbn [fst snd] in H. lia.
Qed.

Lemma produced_epochs ops : forall s env,
  cache_inv s -> In env (produced ops s) ->
  send_epoch s + (if has_ratchet_header env then 1 else 0) <= SecureEnvelope.ratchet_epoch env.
Proof.
  induction ops as [|op ops IH]; intros s env Hi H; cbn [produced] in H; [easy|].
  apply in_app_or in H. destruct H as [H|H].
  - destruct op; try easy. destruct (encrypt _ _ _ _ _ _ s) as [[env'|] s'] eqn:He; cbn in H; [|easy].
    destruct H as [<-|[]]. apply encrypt_epoch in He. lia.
  - destruct (apply_op op s) as [evs s1] eqn:Ha. cbn [snd] in H.
    destruct (apply_op_recv [] _ _ _ _ Hi (spent_nil s) Ha) as (I1 & _).
    destruct (apply_op_send _ _ _ _ Hi Ha) as (_ & _ & M1). apply used_epoch in M1.
    specialize (IH s1 env I1 H). lia.
Qed.

(** What the epoch test of [decrypt] refuses, it refuses without a trace. *)
Lemma decrypt_refuses_epoch env clock s :
  recv_epoch s + (if has_ratchet_header env then 1 else 0) < SecureEnvelope.ratchet_epoch env ->
  exists e, decrypt env clock s = (Err e, s).
Proof.
  intros He. destruct (decrypt env clock s) as [[r|e] s'] eqn:Hd.
  - exfalso. apply decrypt_Ok in Hd. destruct Hd as (act & s1 & s2 & _ & _ & [(H1 & H2 & _)|(H1 & H2 & _)]);
      rewrite H1 in He; lia.
  - exists e. f_equal. unfold decrypt in Hd. inv_stm; try reflexivity.
    fold (has_ratchet_header env) in *. fold (recv_epoch s) in *.
    destruct (has_ratchet_header env).
    + apply sbind_Err in Hd. destruct Hd as [Hd|(? & ? & H1 & Hd)]; [inv_stm; reflexivity|].
      inv_stm; try reflexivity; exfalso; inv_ok; bools;
      match goal with H : checked_add _ _ _ = Some _ |- _ => apply checked_add_inv in H; subst end; lia.
    + rewrite (proj2 (Z.leb_gt (SecureEnvelope.ratchet_epoch env) (recv_epoch s))) in Hd by lia. inv_stm; reflexivity.
Qed.

(** C39. A lost ratchet envelope blocks its direction: once the sender is in a
    later epoch than the receiver's receiving epoch, every envelope the sender
    produces from then on, whatever it does, is refused by the receiver without
    any effect.  Later ratchet steps do not help, since a ratchet envelope is
    accepted only for the very next epoch. *)
Theorem lost_ratchet_blocks_direction ops a b env clock :
  cache_inv a -> recv_epoch b < send_epoch a -> In env (produced ops a) ->
  exists e, decrypt env clock b = (Err e, b).
Proof.
  intros Hi He Hin. apply decrypt_refuses_epoch. pose proof (produced_epochs _ _ _ Hi Hin). lia.
Qed.

End Epochs.
