(* ===== verification/SessionSync.v ===== *)
(** * Two sessions in step

    [paired a b] relates the two ends of a session: what one end needs to read
    the next message of the other, in both directions.  The theorems: the ends
    of a handshake are paired; from paired ends a message is encrypted and
    decrypted to the same payload and the ends are paired again, with or
    without a ratchet step; so any conversation in which each message arrives
    before the next one is sent succeeds. *)

From Stdlib Require Import ZArith List Bool Lia String.
From S2P Require Import Prelude Constants BTree SeenSet SecureMemory Crypto Padding Nonce Proto SessionState Session SessionPersist SessionChain SessionRecv SessionSend SessionInv.
Import ListNotations.
Open Scope string_scope.
Open Scope list_scope.
Open Scope Z_scope.

Abbreviation st := SessionInner.state.

Section Sync.
Context `{P : Primitives} {L : PrimitiveLaws P} {C : Prost EnvelopeMetadata}.
Context {CL : ProstLaws EnvelopeMetadata metadata_wf}.

(** ** Wrappers that cannot fail *)

Definition ratchet_keys (root dh_secret ss pk : bytes) : bytes * bytes * bytes :=
  split_ratchet_out (kdf (dh_secret ++ ss) RATCHET_OUTPUT_BYTES root (HYBRID_RATCHET_INFO ++ pk)).

Lemma derive_ratchet_ok root dh_secret ss pk :
  derive_ratchet root dh_secret ss pk = Ok (ratchet_keys root dh_secret ss pk).
Proof. unfold derive_ratchet. rewrite derive_key_bytes_ok by easy. cbn [rbind]. now rewrite kdf_len. Qed.

Lemma ratchet_keys_len root dh_secret ss pk :
  let '(nr, nc, nm) := ratchet_keys root dh_secret ss pk in
  len nr = ROOT_KEY_BYTES /\ len nc = CHAIN_KEY_BYTES /\ len nm = METADATA_KEY_BYTES.
Proof.
  unfold ratchet_keys, split_ratchet_out.
  set (k := kdf _ _ _ _). assert (Hk : len k = 96) by (now apply kdf_len).
  autorewrite with lens. rewrite Hk. repeat split; reflexivity.
Qed.

Lemma kyber_generate_keypair_ok e r :
  kyber_generate_keypair e r = Ok (SecureMemoryHandle.mk (fst (mlkem_generate e)), snd (mlkem_generate e)).
Proof.
  unfold kyber_generate_keypair. pose proof (mlkem_agree e r) as Ha. pose proof (mlkem_generate_len e) as [Hd _].
  destruct (mlkem_generate e) as [dk ek]. destruct (mlkem_encapsulate ek r) as [ct ss]. cbn in Hd.
  rewrite Ha, bytes_eqb_refl. cbn [ensure rbind fst snd].
  rewrite SecureMemoryHandle.alloc_write_exact; [reflexivity| |reflexivity].
  rewrite Hd. unfold KYBER_SECRET_KEY_BYTES, MAX_BUFFER_SIZE. lia.
Qed.

(** The ciphertext and the shared secret of an encapsulation to [e]'s key. *)
Definition encaps (e r : bytes) : bytes * bytes := mlkem_encapsulate (snd (mlkem_generate e)) r.

Lemma kyber_encapsulate_ok e r :
  kyber_encapsulate (snd (mlkem_generate e)) r =
  Ok (fst (encaps e r), SecureMemoryHandle.mk (snd (encaps e r))).
Proof.
  unfold kyber_encapsulate, kyber_encapsulate_with_rng, encaps.
  pose proof (mlkem_generate_len e) as [_ Hk]. pose proof (mlkem_encapsulate_len (snd (mlkem_generate e)) r) as [_ Hs].
  rewrite Hk, (mlkem_ek_valid e). cbn [ensure rbind ok_or Z.eqb KYBER_PUBLIC_KEY_BYTES].
  destruct (mlkem_encapsulate _ _) as [ct ss]. cbn [fst snd rbind] in Hs |- *.
  rewrite SecureMemoryHandle.alloc_write_exact; [reflexivity| |exact Hs].
  unfold KYBER_SHARED_SECRET_BYTES, MAX_BUFFER_SIZE. lia.
Qed.

Lemma encaps_len e r : len (fst (encaps e r)) = KYBER_CIPHERTEXT_BYTES /\
  len (snd (encaps e r)) = KYBER_SHARED_SECRET_BYTES.
Proof. apply mlkem_encapsulate_len. Qed.

Lemma kyber_decapsulate_ok e r :
  kyber_decapsulate (fst (encaps e r)) (SecureMemoryHandle.mk (fst (mlkem_generate e))) =
  Ok (SecureMemoryHandle.mk (snd (encaps e r))).
Proof. eapply kyber_roundtrip; [reflexivity|apply kyber_encapsulate_ok]. Qed.

(** ** Being in step *)

(** The nonces the generator can still issue are not among [seen]. *)
Definition fresh_for (ng : NonceStateProto.t) (seen : list bytes) : Prop :=
  forall c i, NonceStateProto.counter ng <= c <= MAX_NONCE_COUNTER -> 0 <= i < MAX_MESSAGE_INDEX ->
    ~ In (NonceStateProto.prefix ng ++ to_le_bytes 2 c ++ to_le_bytes 2 i) seen.

(** [channel a b]: [b] can read what [a] sends next. *)
Record channel (a b : SessionInner) : Prop := {
  ch_epoch : send_epoch a = recv_epoch b;
  ch_metadata : ProtocolState.send_metadata_key (st a) = ProtocolState.metadata_key (st b);
  ch_metadata_len : len (ProtocolState.metadata_key (st b)) = METADATA_KEY_BYTES;
  ch_chain : exists sc rc,
    ProtocolState.send_chain (st a) = Some sc /\ ProtocolState.recv_chain (st b) = Some rc /\
    len (ChainState.chain_key rc) = CHAIN_KEY_BYTES /\
    0 <= ChainState.message_index rc <= ChainState.message_index sc /\
    ChainState.message_index sc <= ProtocolState.max_messages_per_chain (st a) /\
    ChainState.message_index sc - ChainState.message_index rc <= MAX_SKIPPED_MESSAGE_KEYS /\
    ChainState.chain_key sc =
      chain_at (Z.to_nat (ChainState.message_index sc - ChainState.message_index rc)) (ChainState.chain_key rc);
  ch_nonce : exists ng,
    ProtocolState.nonce_generator (st a) = Some ng /\ len (NonceStateProto.prefix ng) = NONCE_PREFIX_BYTES /\
    bytes_ok (NonceStateProto.prefix ng) /\ 0 <= NonceStateProto.counter ng <= MAX_NONCE_COUNTER /\
    fresh_for ng (SessionInner.seen_payload_nonces b);
  ch_dh : exists sk, SessionInner.dh_private_handle b = Some (SecureMemoryHandle.mk sk) /\
    len sk = X25519_PRIVATE_KEY_BYTES /\ ProtocolState.dh_remote_public (st a) = x25519_public sk /\
    validate_dh_public_key (x25519_public sk) = Ok tt;
  ch_kyber : exists e, SessionInner.kyber_secret_handle b = Some (SecureMemoryHandle.mk (fst (mlkem_generate e))) /\
    ProtocolState.kyber_remote_public (st a) = snd (mlkem_generate e) }.

(** The state both ends share. *)
Record shared (a b : SessionInner) : Prop := {
  sh_session : ProtocolState.session_id (st a) = ProtocolState.session_id (st b);
  sh_session_len : len (ProtocolState.session_id (st a)) = SESSION_ID_BYTES;
  sh_binding : ProtocolState.identity_binding_hash (st a) = ProtocolState.identity_binding_hash (st b);
  sh_binding_len : len (ProtocolState.identity_binding_hash (st a)) = IDENTITY_BINDING_HASH_BYTES;
  sh_root : ProtocolState.root_key (st a) = ProtocolState.root_key (st b);
  sh_root_len : len (ProtocolState.root_key (st a)) = ROOT_KEY_BYTES;
  sh_max : ProtocolState.max_messages_per_chain (st a) = ProtocolState.max_messages_per_chain (st b);
  sh_max_range : 0 < ProtocolState.max_messages_per_chain (st a) <= MAX_MESSAGES_PER_CHAIN;
  sh_nonce_limit : 0 <= ProtocolState.max_nonce_counter (st a) /\ 0 <= ProtocolState.max_nonce_counter (st b);
  sh_live : ProtocolState.version (st a) <> 0 /\ ProtocolState.version (st b) <> 0 }.

Record paired (a b : SessionInner) : Prop := {
  pr_shared : shared a b;
  pr_there : channel a b;
  pr_back : channel b a }.

Lemma shared_sym a b : shared a b -> shared b a.
Proof. intros []. constructor; try congruence; try lia; tauto. Qed.

Lemma paired_sym a b : paired a b -> paired b a.
Proof. intros []. constructor; auto using shared_sym. Qed.

(** ** Sending *)

Lemma generate_x25519_keypair_ok e :
  len e = X25519_PRIVATE_KEY_BYTES ->
  generate_x25519_keypair e = Ok (SecureMemoryHandle.mk e, x25519_public e).
Proof.
  intros He. unfold generate_x25519_keypair, crypto_err.
  rewrite SecureMemoryHandle.alloc_write_exact; [reflexivity| |exact He].
  unfold X25519_PRIVATE_KEY_BYTES, MAX_BUFFER_SIZE. lia.
Qed.

Lemma compute_dh_ok sk pk :
  len sk = X25519_PRIVATE_KEY_BYTES -> len pk = X25519_PUBLIC_KEY_BYTES ->
  is_all_zero (x25519_dh sk pk) = false -> compute_dh sk pk = Ok (x25519_dh sk pk).
Proof. intros H1 H2 H3. unfold compute_dh. now rewrite H1, H2, H3. Qed.

(** The header a rotation to the holder of [e] produces. *)
Definition new_header (ent : SendEntropy) (e : bytes) : RatchetHeader :=
  mkRatchetHeader (x25519_public (e_x25519 ent)) (fst (encaps e (e_kem_encapsulation ent)))
    (snd (mlkem_generate (e_kem_keygen ent))).

(** The keys a rotation derives against the peer's X25519 key [sk] and KEM key [e]. *)
Definition new_keys (ent : SendEntropy) (root sk e : bytes) : bytes * bytes * bytes :=
  ratchet_keys root (x25519_dh (e_x25519 ent) (x25519_public sk)) (snd (encaps e (e_kem_encapsulation ent)))
    (snd (mlkem_generate (e_kem_keygen ent))).

(** [a] after a rotation. *)
Definition rotated_session (ent : SendEntropy) (sk e : bytes) (a : SessionInner) : SessionInner :=
  rotated (new_keys ent (ProtocolState.root_key (st a)) sk e) (new_header ent e) (e_x25519 ent)
    (fst (mlkem_generate (e_kem_keygen ent))) (mkNonceState (e_nonce_prefix ent) 0) a.

Lemma maybe_rotate_run ent env a sk e :
  send_ratchet_rotation_needed a = Ok true -> entropy_ok ent ->
  len (ProtocolState.root_key (st a)) = ROOT_KEY_BYTES ->
  ProtocolState.dh_remote_public (st a) = x25519_public sk ->
  validate_dh_public_key (x25519_public sk) = Ok tt ->
  ProtocolState.kyber_remote_public (st a) = snd (mlkem_generate e) ->
  is_all_zero (x25519_dh (e_x25519 ent) (x25519_public sk)) = false -> send_epoch a + 1 < 2 ^ 64 ->
  maybe_rotate_send_ratchet ent env a =
  (Ok (with_ratchet (new_header ent e) (send_index a) env), rotated_session ent sk e a).
Proof.
  intros Hrot (He & Hg & Hp & _) Hroot Hdh Hv Hk Hz Hep.
  pose proof (x25519_public_len sk) as Lpk. pose proof (proj2 (mlkem_generate_len e)) as Lk.
  unfold maybe_rotate_send_ratchet, crypto_err.
  unfold sbind, sgets, sget, slift, sguard, slift, smod, sret. rewrite Hrot. cbn [negb].
  rewrite Hdh, Hk, Lpk, Lk, Hroot, Hv. cbn [ensure negb orb].
  replace (32 =? X25519_PUBLIC_KEY_BYTES) with true by reflexivity. rewrite !Z.eqb_refl. cbn [ensure negb orb].
  rewrite (generate_x25519_keypair_ok _ He). rewrite (SecureMemoryHandle.read_bytes_exact _ _ He). cbn [map_err].
  rewrite (compute_dh_ok _ _ He Lpk Hz), kyber_encapsulate_ok. cbn [map_err].
  rewrite (SecureMemoryHandle.read_bytes_exact _ _ (proj2 (encaps_len e _))). cbn [map_err].
  rewrite kyber_generate_keypair_ok. cbn [map_err]. rewrite derive_ratchet_ok.
  unfold rotated_session, new_keys. destruct (ratchet_keys _ _ _ _) as [[nr nc] nm].
  unfold checked_add. rewrite (proj2 (Z.ltb_lt _ _)) by exact Hep. cbn [ok_or].
  rewrite SecureMemoryHandle.alloc_write_exact
    by (auto; unfold X25519_PRIVATE_KEY_BYTES, MAX_BUFFER_SIZE; lia). cbn [map_err].
  unfold create_with_limit. rewrite Hp. cbn [ensure rbind Z.eqb NONCE_PREFIX_BYTES Pos.eqb export_state ng_state].
  rewrite (firstn_all2 (n := Z.to_nat NONCE_PREFIX_BYTES)) by (unfold len in Hp; lia). reflexivity.
Qed.

Lemma pad_len_bound p : len p <= MAX_BUFFER_SIZE -> len (MessagePadding.pad p) < 2 ^ 32.
Proof.
  intros H. rewrite MessagePadding.len_pad.
  pose proof (MessagePadding.padded_length_spec (len p) (len_nonneg p)).
  unfold MAX_BUFFER_SIZE, MESSAGE_PADDING_BLOCK_SIZE in *. lia.
Qed.

(** What a call to [encrypt] needs besides a paired session. *)
Record can_send (a : SessionInner) (payload : bytes) (ty id : Z) (corr : option string) (clock : Clock)
    (ent : SendEntropy) : Prop := {
  cs_live : check_inner_expired (st a) (now_expiry clock) = Ok false;
  cs_activity : exists t, now_activity clock = Ok t;
  cs_sent_at : exists t, now_sent clock = Ok t /\ t < 2 ^ 63;
  cs_count : ProtocolState.total_messages_sent (st a) + 1 < 2 ^ 64;
  cs_epoch : send_epoch a + 1 < 2 ^ 64;
  cs_payload : bytes_ok payload /\ len payload <= MAX_BUFFER_SIZE;
  cs_type : - 2 ^ 31 <= ty < 2 ^ 31;
  cs_id : is_u32 id;
  cs_header : forall i nonce, 0 <= i < MAX_MESSAGE_INDEX -> len nonce = AES_GCM_NONCE_BYTES ->
    len (encode (message_metadata i nonce ty id corr)) < 2 ^ 32;
  cs_entropy : entropy_ok ent /\ bytes_ok (e_nonce_prefix ent);
  cs_nonce : send_ratchet_rotation_needed a = Ok true \/
    exists g, load_nonce_generator (st a) = Ok g;
  cs_dh : is_all_zero (x25519_dh (e_x25519 ent) (ProtocolState.dh_remote_public (st a))) = false }.

Lemma load_nonce_generator_wf stt g :
  0 <= ProtocolState.max_nonce_counter stt ->
  (forall ng, ProtocolState.nonce_generator stt = Some ng -> 0 <= NonceStateProto.counter ng) ->
  load_nonce_generator stt = Ok g ->
  nonce_wf g /\ exists ng, ProtocolState.nonce_generator stt = Some ng /\
    ng_state g = mkNonceState (NonceStateProto.prefix ng) (NonceStateProto.counter ng) /\
    NonceStateProto.counter ng < ng_max_counter g.
Proof.
  intros Hm Hc H. unfold load_nonce_generator, NonceState_new, from_state_with_limit in H. inv_ok. bools.
  cbn [ns_counter] in *.
  match goal with H : ProtocolState.nonce_generator _ = Some ?x |- _ =>
    pose proof (Hc x H); split; [|exists x; cbn; auto] end.
  pose proof (effective_limit_range (nonce_limit stt)) as Hl.
  assert (0 <= nonce_limit stt) by (unfold nonce_limit, MAX_NONCE_COUNTER; case_if; lia).
  unfold nonce_wf. cbn. split; [assumption|]. split; [lia|]. apply Hl. assumption.
Qed.

Lemma build_metadata_aad_ok stt e p :
  len (ProtocolState.session_id stt) = SESSION_ID_BYTES ->
  len (ProtocolState.identity_binding_hash stt) = IDENTITY_BINDING_HASH_BYTES ->
  exists a, build_metadata_aad stt e p = Ok a /\ len a < 2 ^ 32.
Proof.
  intros H1 H2. destruct (build_metadata_aad stt e p) as [a|] eqn:H.
  - exists a. split; [reflexivity|]. rewrite (len_metadata_aad _ _ _ _ H). reflexivity.
  - unfold build_metadata_aad in H. rewrite H1, H2 in H. discriminate.
Qed.

Lemma build_payload_aad_ok stt e i p :
  len (ProtocolState.session_id stt) = SESSION_ID_BYTES ->
  len (ProtocolState.identity_binding_hash stt) = IDENTITY_BINDING_HASH_BYTES ->
  exists a, build_payload_aad stt e i p = Ok a /\ len a < 2 ^ 32.
Proof.
  intros H1 H2. destruct (build_payload_aad stt e i p) as [a|] eqn:H.
  - exists a. split; [reflexivity|]. rewrite (len_payload_aad _ _ _ _ _ H). reflexivity.
  - unfold build_payload_aad in H. rewrite H1, H2 in H. discriminate.
Qed.

Lemma encrypt_body_succeeds payload ty id corr clock ent epoch env s sc g :
  ProtocolState.send_chain (st s) = Some sc -> len (ChainState.chain_key sc) = CHAIN_KEY_BYTES ->
  0 <= ChainState.message_index sc < MAX_MESSAGE_INDEX ->
  load_nonce_generator (st s) = Ok g -> nonce_wf g -> ns_counter (ng_state g) < ng_max_counter g ->
  len (ProtocolState.session_id (st s)) = SESSION_ID_BYTES ->
  len (ProtocolState.identity_binding_hash (st s)) = IDENTITY_BINDING_HASH_BYTES ->
  len (ProtocolState.send_metadata_key (st s)) = METADATA_KEY_BYTES ->
  (exists t, now_sent clock = Ok t /\ t < 2 ^ 63) -> len payload <= MAX_BUFFER_SIZE ->
  (forall i nonce, 0 <= i < MAX_MESSAGE_INDEX -> len nonce = AES_GCM_NONCE_BYTES ->
    len (encode (message_metadata i nonce ty id corr)) < 2 ^ 32) -> entropy_ok ent ->
  exists env' s', encrypt_body payload ty id corr None (sret tt) clock ent epoch env s = (Ok env', s').
Proof.
  intros Hsc Hck Hi Hg Hwf Hcnt Hsid Hb Hmd (t & Ht & Ht63) Hp Henc (_ & _ & _ & Hhn).
  unfold encrypt_body, next_send_message_key.
  unfold sbind, sgets, sget, slift, sguard, slift, smod, sret. rewrite Hsc. cbn [ok_or].
  rewrite Hck, Z.eqb_refl, (proj2 (Z.ltb_ge _ _)) by lia. cbn [ensure negb]. rewrite derive_eq.
  set (c := ProtocolState.set_send_chain _).
  assert (Hg' : load_nonce_generator (st (upd_state c s)) = Ok g) by exact Hg.
  rewrite Hg', (next_spec _ _ Hwf), !(proj2 (Z.leb_gt _ _)) by lia. cbn iota beta.
  rewrite Hhn. replace (AES_GCM_NONCE_BYTES =? AES_GCM_NONCE_BYTES) with true by reflexivity. cbn [ensure].
  match goal with |- context [build_metadata_aad (st ?x) _ _] =>
    set (s2 := x); assert (E2 : st s2 = sent_state sc (export_state (bump g)) (st s))
      by (unfold s2; rewrite state_notify, state_messages, state_notify; reflexivity); clearbody s2 end.
  rewrite E2.
  destruct (build_metadata_aad_ok (sent_state sc (export_state (bump g)) (st s)) epoch
              (SecureEnvelope.previous_chain_length env) Hsid Hb) as (ma & -> & Hma).
  destruct (build_payload_aad_ok (sent_state sc (export_state (bump g)) (st s)) epoch
              (ChainState.message_index sc) (SecureEnvelope.previous_chain_length env) Hsid Hb) as (pa & -> & Hpa).
  edestruct (aes_encrypt_ok (ProtocolState.send_metadata_key (sent_state sc (export_state (bump g)) (st s)))
    (e_header_nonce ent)) as (em & -> & _); [exact Hmd|exact Hhn|apply Henc; [lia|now apply len_nonce_of]|exact Hma|].
  edestruct (aes_encrypt_ok (chain_msg (ChainState.chain_key sc)) (nonce_of g (ChainState.message_index sc))
    (MessagePadding.pad payload)) as (ep & -> & _);
    [apply len_chain_msg|now apply len_nonce_of|now apply pad_len_bound|exact Hpa|].
  rewrite Ht. cbn [rbind]. unfold timestamp_from_unix_secs. rewrite (proj2 (Z.ltb_lt _ _)) by assumption.
  cbn [ensure rbind]. eauto.
Qed.

Lemma capture_ratchet_ok a :
  handles_exact a -> exists snap, capture_ratchet a = Ok snap.
Proof.
  intros [H1 H2]. unfold capture_ratchet, read_handle, crypto_err.
  destruct (SessionInner.dh_private_handle a) as [[d]|], (SessionInner.kyber_secret_handle a) as [[k]|]; cbn in H1, H2;
    rewrite ?(SecureMemoryHandle.read_bytes_exact _ _ H1), ?(SecureMemoryHandle.read_bytes_exact _ _ H2); cbn; eauto.
Qed.

Lemma encrypt_run payload ty id corr clock ent a needed env0 s1 env s2 act :
  ProtocolState.version (st a) <> 0 -> check_inner_expired (st a) (now_expiry clock) = Ok false ->
  now_activity clock = Ok act -> ProtocolState.total_messages_sent (st a) + 1 < 2 ^ 64 ->
  len (ProtocolState.send_metadata_key (st a)) = METADATA_KEY_BYTES -> len payload <= MAX_BUFFER_SIZE ->
  send_ratchet_rotation_needed a = Ok needed -> handles_exact a ->
  maybe_rotate_send_ratchet ent empty_envelope a = (Ok env0, s1) ->
  encrypt_body payload ty id corr None (sret tt) clock ent (send_epoch s1)
    (SecureEnvelope.set_ratchet_epoch (send_epoch s1) env0) s1 = (Ok env, s2) ->
  encrypt payload ty id corr clock ent a =
  (Ok env, send_done act (ProtocolState.total_messages_sent (st a) + 1) s2).
Proof.
  intros Hv He Ha Ht Hm Hp Hn Hh Hr Hb. destruct (capture_ratchet_ok a Hh) as [snap Hs].
  unfold encrypt, encrypt_internal, sbind, sget, sgets, slift, sguard, slift, smod, sret, on_err.
  rewrite (proj2 (Z.eqb_neq _ 0)) by exact Hv. cbn [negb ensure]. rewrite He. cbn [negb ensure]. rewrite Ha.
  unfold checked_add. rewrite (proj2 (Z.ltb_lt _ (2 ^ 64))) by exact Ht. cbn [ok_or].
  rewrite Hm, Z.eqb_refl. cbn [ensure]. rewrite (proj2 (Z.ltb_ge _ _)) by exact Hp. cbn [negb ensure].
  rewrite Hn, Hs. cbn [rbind]. unfold send_epoch, sret in Hb.
  destruct needed; rewrite Hr, Hb; reflexivity.
Qed.

Lemma rotation_decided a :
  0 < ProtocolState.max_messages_per_chain (st a) <= MAX_MESSAGES_PER_CHAIN ->
  exists b, send_ratchet_rotation_needed a = Ok b /\
    (b = false -> send_index a < ProtocolState.max_messages_per_chain (st a)).
Proof.
  intros H. unfold send_ratchet_rotation_needed.
  rewrite (proj2 (Z.eqb_neq _ _)), (proj2 (Z.ltb_ge _ _)) by lia. cbn [orb negb ensure rbind].
  eexists. split; [reflexivity|]. intros Hb. bools. unfold send_index. lia.
Qed.

Lemma paired_handles a b : paired a b -> handles_exact a.
Proof.
  intros [_ _ []]. destruct ch_dh0 as (sk & E1 & Hl & _), ch_kyber0 as (e & E2 & _).
  unfold handles_exact, handle_exact. rewrite E1, E2. cbn. split; [exact Hl|apply mlkem_generate_len].
Qed.

(** The generator of a session that has just rotated. *)
Definition new_generator (ent : SendEntropy) (a : SessionInner) : NonceGenerator :=
  mkNonceGenerator (mkNonceState (e_nonce_prefix ent) 0) (effective_limit (nonce_limit (st a))).

Lemma rotated_fields ent sk e a nr nc nm :
  new_keys ent (ProtocolState.root_key (st a)) sk e = (nr, nc, nm) ->
  let s1 := rotated_session ent sk e a in
  ProtocolState.send_chain (st s1) = Some (ChainState.mk 0 nc []) /\
  ProtocolState.send_metadata_key (st s1) = nm /\ ProtocolState.root_key (st s1) = nr /\
  ProtocolState.nonce_generator (st s1) = Some (NonceStateProto.mk (e_nonce_prefix ent) 0) /\
  nonce_limit (st s1) = nonce_limit (st a).
Proof. unfold rotated_session. intros ->. repeat split; reflexivity. Qed.

Lemma new_keys_len ent root sk e nr nc nm :
  new_keys ent root sk e = (nr, nc, nm) ->
  len nr = ROOT_KEY_BYTES /\ len nc = CHAIN_KEY_BYTES /\ len nm = METADATA_KEY_BYTES.
Proof.
  unfold new_keys. intros H. pose proof (ratchet_keys_len root (x25519_dh (e_x25519 ent) (x25519_public sk))
    (snd (encaps e (e_kem_encapsulation ent))) (snd (mlkem_generate (e_kem_keygen ent)))) as Hl.
  now rewrite H in Hl.
Qed.

Lemma nonce_limit_nonneg stt : 0 <= ProtocolState.max_nonce_counter stt -> 0 <= nonce_limit stt.
Proof. intros H. unfold nonce_limit, MAX_NONCE_COUNTER. case_if; lia. Qed.

Lemma rotated_generator ent sk e a :
  0 <= ProtocolState.max_nonce_counter (st a) -> entropy_ok ent ->
  load_nonce_generator (st (rotated_session ent sk e a)) = Ok (new_generator ent a) /\
  nonce_wf (new_generator ent a) /\ ns_counter (ng_state (new_generator ent a)) < ng_max_counter (new_generator ent a).
Proof.
  intros Hm (_ & _ & Hp & _). pose proof (effective_limit_range _ (nonce_limit_nonneg _ Hm)) as Hl.
  destruct (new_keys ent (ProtocolState.root_key (st a)) sk e) as [[nr nc] nm] eqn:Hk.
  destruct (rotated_fields _ _ _ _ _ _ _ Hk) as (_ & _ & _ & Hg & Hlim).
  split; [|split; [unfold nonce_wf|]; cbn; lia].
  unfold load_nonce_generator. rewrite Hg. cbn [ok_or rbind NonceStateProto.prefix NonceStateProto.counter].
  rewrite Hp, Z.eqb_refl. cbn [ensure rbind NonceState_new]. unfold NonceState_new, from_state_with_limit. rewrite Hlim.
  cbn [ensure rbind ns_counter negb Z.leb MAX_NONCE_COUNTER Z.compare].
  rewrite (proj2 (Z.leb_gt _ _)) by lia. reflexivity.
Qed.

(** The rotated session of [a] towards [b]'s keys. *)
Definition rotates_to (a b : SessionInner) (ent : SendEntropy) (sk e : bytes) : Prop :=
  SessionInner.dh_private_handle b = Some (SecureMemoryHandle.mk sk) /\ len sk = X25519_PRIVATE_KEY_BYTES /\
  SessionInner.kyber_secret_handle b = Some (SecureMemoryHandle.mk (fst (mlkem_generate e))) /\
  maybe_rotate_send_ratchet ent empty_envelope a =
    (Ok (with_ratchet (new_header ent e) (send_index a) empty_envelope), rotated_session ent sk e a).

Lemma paired_rotates a b payload ty id corr clock ent :
  paired a b -> can_send a payload ty id corr clock ent -> send_ratchet_rotation_needed a = Ok true ->
  exists sk e, rotates_to a b ent sk e.
Proof.
  intros [Hsh Hc _] Hcs Hn. destruct (ch_dh _ _ Hc) as (sk & H1 & H2 & H3 & H4).
  destruct (ch_kyber _ _ Hc) as (e & H5 & H6). exists sk, e. repeat split; auto.
  apply maybe_rotate_run; auto; try apply Hcs; try apply Hsh.
  rewrite <- H3. apply Hcs.
Qed.

(** What [encrypt_body] needs of the session it is run on. *)
Record body_ready (s1 a : SessionInner) (sc : ChainState.t) (g : NonceGenerator) : Prop := {
  br_chain : ProtocolState.send_chain (st s1) = Some sc;
  br_chain_len : len (ChainState.chain_key sc) = CHAIN_KEY_BYTES;
  br_index : 0 <= ChainState.message_index sc < MAX_MESSAGE_INDEX;
  br_nonce : load_nonce_generator (st s1) = Ok g;
  br_nonce_wf : nonce_wf g;
  br_nonce_left : ns_counter (ng_state g) < ng_max_counter g;
  br_session : ProtocolState.session_id (st s1) = ProtocolState.session_id (st a);
  br_binding : ProtocolState.identity_binding_hash (st s1) = ProtocolState.identity_binding_hash (st a);
  br_metadata : len (ProtocolState.send_metadata_key (st s1)) = METADATA_KEY_BYTES }.

Lemma rotated_ready ent sk e a :
  0 <= ProtocolState.max_nonce_counter (st a) -> entropy_ok ent ->
  exists sc, body_ready (rotated_session ent sk e a) a sc (new_generator ent a).
Proof.
  intros Hm Hent.
  destruct (new_keys ent (ProtocolState.root_key (st a)) sk e) as [[nr nc] nm] eqn:Hk.
  destruct (rotated_fields _ _ _ _ _ _ _ Hk) as (F1 & F2 & _).
  destruct (new_keys_len _ _ _ _ _ _ _ Hk) as (_ & Lc & Lm).
  destruct (rotated_generator ent sk e a Hm Hent) as (G1 & G2 & G3).
  exists (ChainState.mk 0 nc []). constructor; [assumption|assumption|split; [discriminate|reflexivity]|assumption..| | |].
  - unfold rotated_session. now rewrite Hk.
  - unfold rotated_session. now rewrite Hk.
  - now rewrite F2.
Qed.

Lemma idle_ready a b g :
  shared a b -> channel a b -> send_ratchet_rotation_needed a = Ok false -> load_nonce_generator (st a) = Ok g ->
  exists sc, body_ready a a sc g.
Proof.
  intros Hsh Hc Hn Hg. destruct (rotation_decided a (sh_max_range _ _ Hsh)) as (needed & Hn' & Hlt).
  rewrite Hn in Hn'. inv_ok. specialize (Hlt eq_refl).
  destruct (ch_chain _ _ Hc) as (sc & rc & Hsc & Hrc & Hck & Hidx & Hmax & Hlag & Hkey).
  destruct (ch_nonce _ _ Hc) as (ng & Hng & _ & _ & Hcnt & _).
  assert (Hpos : forall ng', ProtocolState.nonce_generator (st a) = Some ng' -> 0 <= NonceStateProto.counter ng')
    by (intros ng' E; rewrite Hng in E; inv_ok; lia).
  destruct (load_nonce_generator_wf _ _ (proj1 (sh_nonce_limit _ _ Hsh)) Hpos Hg) as (Hwf & ng' & E & Hst & Hl).
  exists sc. constructor; auto.
  - rewrite Hkey. now apply len_chain_at.
  - unfold send_index in Hlt. rewrite Hsc in Hlt. pose proof (sh_max_range _ _ Hsh).
    unfold MAX_MESSAGE_INDEX, MAX_MESSAGES_PER_CHAIN in *. lia.
  - now rewrite Hst.
  - rewrite (ch_metadata _ _ Hc). apply (ch_metadata_len _ _ Hc).
Qed.

(** Paired sessions can send. *)
Lemma encrypt_succeeds payload ty id corr clock ent a b :
  paired a b -> can_send a payload ty id corr clock ent ->
  exists env a', encrypt payload ty id corr clock ent a = (Ok env, a').
Proof.
  intros Hp Hcs. pose proof (paired_handles a b Hp) as Hh. pose proof Hp as [Hsh Hc _].
  destruct (cs_activity _ _ _ _ _ _ _ Hcs) as [act Hact]. destruct (cs_payload _ _ _ _ _ _ _ Hcs) as [Hpb Hpl].
  destruct (cs_entropy _ _ _ _ _ _ _ Hcs) as [Hent Hprefix].
  destruct (rotation_decided a (sh_max_range _ _ Hsh)) as (needed & Hn & _).
  assert (Hbody : exists env0 s1 sc g,
    maybe_rotate_send_ratchet ent empty_envelope a = (Ok env0, s1) /\ body_ready s1 a sc g).
  { destruct needed.
    - destruct (paired_rotates _ _ _ _ _ _ _ _ Hp Hcs Hn) as (sk & e & _ & _ & _ & Hr).
      destruct (rotated_ready ent sk e a (proj1 (sh_nonce_limit _ _ Hsh)) Hent) as (sc & Hb). eauto 6.
    - destruct (cs_nonce _ _ _ _ _ _ _ Hcs) as [|[g Hg]]; [congruence|].
      destruct (idle_ready a b g Hsh Hc Hn Hg) as (sc & Hb). rewrite maybe_rotate_idle by exact Hn. eauto 6. }
  destruct Hbody as (env0 & s1 & sc & g & Hr & []).
  edestruct (encrypt_body_succeeds payload ty id corr clock ent (send_epoch s1)
    (SecureEnvelope.set_ratchet_epoch (send_epoch s1) env0) s1 sc g) as (env & s2 & Hb); auto.
  - rewrite br_session0. apply (sh_session_len _ _ Hsh).
  - rewrite br_binding0. apply (sh_binding_len _ _ Hsh).
  - apply (cs_sent_at _ _ _ _ _ _ _ Hcs).
  - apply (cs_header _ _ _ _ _ _ _ Hcs).
  - exists env. eexists. eapply encrypt_run; try eassumption.
    + apply (sh_live _ _ Hsh).
    + apply (cs_live _ _ _ _ _ _ _ Hcs).
    + apply (cs_count _ _ _ _ _ _ _ Hcs).
    + rewrite (ch_metadata _ _ Hc). apply (ch_metadata_len _ _ Hc).
Qed.

(** ** Receiving *)

Lemma aad_same sa sb epoch p :
  ProtocolState.session_id sa = ProtocolState.session_id sb ->
  ProtocolState.identity_binding_hash sa = ProtocolState.identity_binding_hash sb ->
  build_metadata_aad sa epoch p = build_metadata_aad sb epoch p /\
  forall i, build_payload_aad sa epoch i p = build_payload_aad sb epoch i p.
Proof. intros H1 H2. unfold build_metadata_aad, build_payload_aad. rewrite H1, H2. auto. Qed.

Lemma advanced_state rc i s :
  ProtocolState.recv_chain (st s) = Some rc ->
  st (advanced rc i s) =
  ProtocolState.set_recv_chain
    (Some (ChainState.mk (i + 1) (chain_at (S (Z.to_nat (i - ChainState.message_index rc))) (ChainState.chain_key rc))
             (ChainState.skipped_message_keys rc))) (st s).
Proof. intros H. unfold advanced, set_recv_progress. cbn [SessionInner.state SessionInner.set_skipped_message_keys]. now rewrite H. Qed.

(** A sealed message that the chain can reach is opened. *)
Lemma decrypt_message_delivers payload ty id corr i nonce mdkey msgkey sa env s rc inr max :
  sealed_message payload ty id corr (SecureEnvelope.ratchet_epoch env) i nonce mdkey msgkey sa env ->
  ProtocolState.session_id sa = ProtocolState.session_id (st s) ->
  ProtocolState.identity_binding_hash sa = ProtocolState.identity_binding_hash (st s) ->
  ProtocolState.metadata_key (st s) = mdkey ->
  ProtocolState.recv_chain (st s) = Some rc -> len (ChainState.chain_key rc) = CHAIN_KEY_BYTES ->
  ChainState.message_index rc <= i -> i - ChainState.message_index rc <= MAX_SKIPPED_MESSAGE_KEYS ->
  msgkey = chain_msg (chain_at (Z.to_nat (i - ChainState.message_index rc)) (ChainState.chain_key rc)) ->
  0 <= i < max -> max <= MAX_MESSAGES_PER_CHAIN ->
  len nonce = AES_GCM_NONCE_BYTES -> extract_nonce_index nonce = Ok i -> bytes_ok nonce ->
  ~ In nonce (SessionInner.seen_payload_nonces s) ->
  bytes_ok payload -> len payload <= MAX_BUFFER_SIZE -> - 2 ^ 31 <= ty < 2 ^ 31 -> is_u32 id ->
  decrypt_message env max false inr s =
  (Ok (mkDecryptResult payload (message_metadata i nonce ty id corr)),
   mark_pending (remember_seen_payload_nonce nonce (advanced rc i s))).
Proof.
  intros (ma & pa & Hma & Hpa & Hem & Hep) Hsid Hb Hmd Hrc Hck Hlo Hspan Hkey Hi Hmax Hnl Hni Hnb Hns Hpb Hpl Hty Hid.
  assert (Hmi : i <= MAX_MESSAGE_INDEX) by (unfold MAX_MESSAGE_INDEX, MAX_MESSAGES_PER_CHAIN in *; lia).
  destruct (aad_same sa (st s) (SecureEnvelope.ratchet_epoch env) (SecureEnvelope.previous_chain_length env) Hsid Hb) as [E1 E2].
  assert (Hwf : metadata_wf (message_metadata i nonce ty id corr)).
  { unfold metadata_wf, message_metadata. cbn. unfold in_range, MAX_MESSAGE_INDEX in *. split; [lia|auto]. }
  assert (Hacc : accepted_metadata env max false s = Ok (message_metadata i nonce ty id corr)).
  { unfold accepted_metadata. cbn [rbind]. rewrite <- E1, Hma. cbn [rbind]. rewrite Hmd, (aes_roundtrip _ _ _ _ _ Hem). cbn [rbind].
    rewrite (decode_encode _ Hwf). cbn [ok_or rbind message_metadata EnvelopeMetadata.payload_nonce EnvelopeMetadata.message_index].
    rewrite Hnl, Z.eqb_refl, (proj2 (Z.ltb_ge _ _)), (proj2 (Z.leb_gt _ _)), Hni by lia. cbn [ensure rbind negb].
    rewrite Z.eqb_refl, (proj2 (bset_contains_not _ _) Hns). reflexivity. }
  rewrite decrypt_message_eq, Hacc. cbn [message_metadata EnvelopeMetadata.payload_nonce EnvelopeMetadata.message_index message_key_for].
  rewrite get_recv_message_key_eq, Hrc, Hck, Z.eqb_refl. cbn [negb].
  rewrite (proj2 (Z.ltb_ge MAX_MESSAGE_INDEX i)), (proj2 (Z.ltb_ge i _)), (proj2 (Z.ltb_ge MAX_SKIPPED_MESSAGE_KEYS _)) by lia.
  assert (Hop : open_payload env (message_metadata i nonce ty id corr) msgkey (st (advanced rc i s)) = Ok payload).
  { unfold open_payload. rewrite (advanced_state rc i s Hrc).
    cbn [message_metadata EnvelopeMetadata.payload_nonce EnvelopeMetadata.message_index].
    change (build_payload_aad (ProtocolState.set_recv_chain _ (st s))) with (build_payload_aad (st s)).
    rewrite <- E2, Hpa. cbn [rbind]. rewrite (aes_roundtrip _ _ _ _ _ Hep). cbn [rbind].
    apply MessagePadding.unpad_pad_lemma; [exact Hpb|]. unfold MAX_BUFFER_SIZE in Hpl. lia. }
  rewrite <- Hkey. unfold message_metadata in *. rewrite Hop. reflexivity.
Qed.

(** ** What each direction reads *)

Definition send_side (s : SessionInner) :=
  (send_epoch s, ProtocolState.send_metadata_key (st s), ProtocolState.send_chain (st s),
   ProtocolState.nonce_generator (st s), ProtocolState.dh_remote_public (st s),
   ProtocolState.kyber_remote_public (st s), ProtocolState.max_messages_per_chain (st s)).

Definition recv_side (s : SessionInner) :=
  (recv_epoch s, ProtocolState.metadata_key (st s), ProtocolState.recv_chain (st s),
   SessionInner.seen_payload_nonces s, SessionInner.dh_private_handle s, SessionInner.kyber_secret_handle s).

Definition common_side (s : SessionInner) :=
  (ProtocolState.session_id (st s), ProtocolState.identity_binding_hash (st s), ProtocolState.root_key (st s),
   ProtocolState.max_messages_per_chain (st s), ProtocolState.max_nonce_counter (st s), ProtocolState.version (st s)).

Lemma channel_ext a b a' b' :
  send_side a' = send_side a -> recv_side b' = recv_side b -> channel a b -> channel a' b'.
Proof.
  unfold send_side, recv_side. intros Ha Hb []. injection Ha as A1 A2 A3 A4 A5 A6 A7. injection Hb as B1 B2 B3 B4 B5 B6.
  constructor; rewrite ?A1, ?A2, ?A3, ?A4, ?A5, ?A6, ?A7, ?B1, ?B2, ?B3, ?B4, ?B5, ?B6; assumption.
Qed.

Lemma shared_ext a b a' b' :
  common_side a' = common_side a -> common_side b' = common_side b -> shared a b -> shared a' b'.
Proof.
  unfold common_side. intros Ha Hb []. injection Ha as A1 A2 A3 A4 A5 A6. injection Hb as B1 B2 B3 B4 B5 B6.
  constructor; rewrite ?A1, ?A2, ?A3, ?A4, ?A5, ?A6, ?B1, ?B2, ?B3, ?B4, ?B5, ?B6; assumption.
Qed.

(** What a call to [decrypt] needs besides a paired session. *)
Record can_recv (b : SessionInner) (clock : Clock) : Prop := {
  cr_live : check_inner_expired (st b) (now_expiry clock) = Ok false;
  cr_activity : exists t, now_activity clock = Ok t;
  cr_count : ProtocolState.total_messages_received (st b) + 1 < 2 ^ 64 }.

(** The checks [decrypt] makes before it looks at the epoch. *)
Record recv_ready (env : SecureEnvelope) (clock : Clock) (s : SessionInner) : Prop := {
  rr_recv : can_recv s clock;
  rr_version : ProtocolState.version (st s) <> 0;
  rr_env : SecureEnvelope.version env = PROTOCOL_VERSION;
  rr_nonce : len (SecureEnvelope.header_nonce env) = AES_GCM_NONCE_BYTES;
  rr_metadata : len (ProtocolState.metadata_key (st s)) = METADATA_KEY_BYTES;
  rr_max : 0 < max_chain s <= MAX_MESSAGES_PER_CHAIN }.

Ltac decrypt_guards H s :=
  destruct H as [[Hexp [act Hact] Hcnt] Hver Henv Hhn Hmd Hmax];
  unfold decrypt, sbind, sget, slift, sguard, slift, smod, sret, on_err;
  rewrite (proj2 (Z.eqb_neq _ 0)) by exact Hver; cbn [negb ensure]; rewrite Hexp; cbn [negb ensure]; rewrite Hact;
  unfold checked_add; rewrite (proj2 (Z.ltb_lt _ (2 ^ 64))) by exact Hcnt; cbn [ok_or];
  rewrite Henv, Hhn, Hmd, !Z.eqb_refl; cbn [ensure];
  fold (max_chain s); rewrite (proj2 (Z.eqb_neq (max_chain s) 0)), (proj2 (Z.ltb_ge MAX_MESSAGES_PER_CHAIN (max_chain s))) by lia;
  cbn [orb negb ensure].

Lemma decrypt_run_plain env clock s r s2 :
  recv_ready env clock s ->
  SecureEnvelope.dh_public_key env = None -> SecureEnvelope.kyber_ciphertext env = None ->
  SecureEnvelope.new_kyber_public env = None -> SecureEnvelope.previous_chain_length env = None ->
  SecureEnvelope.ratchet_epoch env = recv_epoch s ->
  decrypt_message env (max_chain s) false false s = (Ok r, s2) ->
  exists act, decrypt env clock s = (Ok r, recv_done act (ProtocolState.total_messages_received (st s) + 1) s2).
Proof.
  intros H H1 H2 H3 H4 He Hm. decrypt_guards H s. exists act.
  rewrite H1, H2, H3, H4. cbn [is_some orb]. fold (recv_epoch s). rewrite He, Z.leb_refl, Z.ltb_irrefl. cbn [negb ensure].
  rewrite Hm. reflexivity.
Qed.

Lemma decrypt_run_ratchet env clock s r s1 s2 dh ct pk pcl :
  recv_ready env clock s ->
  SecureEnvelope.dh_public_key env = Some dh -> SecureEnvelope.kyber_ciphertext env = Some ct ->
  SecureEnvelope.new_kyber_public env = Some pk -> SecureEnvelope.previous_chain_length env = Some pcl ->
  SecureEnvelope.ratchet_epoch env = recv_epoch s + 1 -> recv_epoch s + 1 < 2 ^ 64 ->
  pcl <= max_chain s -> pcl - recv_index s <= MAX_SKIPPED_MESSAGE_KEYS ->
  apply_recv_ratchet env s = (Ok tt, s1) ->
  decrypt_message env (max_chain s) false true s1 = (Ok r, s2) ->
  exists act, decrypt env clock s = (Ok r, recv_done act (ProtocolState.total_messages_received (st s) + 1) s2).
Proof.
  intros H H1 H2 H3 H4 He He64 Hp Hs Ha Hm. decrypt_guards H s. exists act.
  rewrite H1, H2, H3, H4. cbn [is_some orb andb ensure]. fold (recv_epoch s).
  rewrite (proj2 (Z.ltb_lt (recv_epoch s + 1) _)) by exact He64. cbn [ok_or].
  rewrite He, Z.eqb_refl. cbn [ensure]. rewrite (proj2 (Z.ltb_ge (max_chain s) pcl)) by exact Hp. cbn [negb ensure].
  fold (chain_index (ProtocolState.recv_chain (st s))). fold (recv_index s).
  rewrite (proj2 (Z.ltb_ge _ (saturating_sub pcl _)))
    by (unfold saturating_sub, MAX_SKIPPED_MESSAGE_KEYS in *; lia).
  cbn [negb ensure]. rewrite Ha, Hm. reflexivity.
Qed.

(** ** The states after a message *)

Lemma sent_sides s1 s2 sc ns act total :
  st s2 = sent_state sc ns (st s1) -> idle_part s2 = idle_part s1 ->
  let a' := send_done act total s2 in
  recv_side a' = recv_side s1 /\ common_side a' = common_side s1 /\
  send_side a' = (send_epoch s1, ProtocolState.send_metadata_key (st s1),
    Some (ChainState.mk (ChainState.message_index sc + 1) (chain_step (ChainState.chain_key sc))
            (ChainState.skipped_message_keys sc)),
    Some (NonceStateProto.mk (ns_prefix ns) (ns_counter ns)), ProtocolState.dh_remote_public (st s1),
    ProtocolState.kyber_remote_public (st s1), ProtocolState.max_messages_per_chain (st s1)).
Proof.
  intros Hs Hi a'. unfold recv_side, common_side, send_side, recv_epoch, send_epoch, a'. cbn. rewrite !Hs.
  rewrite (f_equal (fun p => snd (fst (fst p))) Hi : SessionInner.dh_private_handle s2 = _).
  rewrite (f_equal (fun p => snd (fst p)) Hi : SessionInner.kyber_secret_handle s2 = _).
  rewrite (f_equal (fun p => snd (fst (fst (fst p)))) (idle_recv _ _ Hi) : SessionInner.seen_payload_nonces s2 = _).
  repeat split; reflexivity.
Qed.

Lemma remember_seen_subset n s m :
  In m (SessionInner.seen_payload_nonces (remember_seen_payload_nonce n s)) ->
  m = n \/ In m (SessionInner.seen_payload_nonces s).
Proof.
  unfold remember_seen_payload_nonce. case_if; [auto|]. destruct (prune_seen_nonces _ _) as [set order] eqn:Ep. cbn.
  intros Hm. cut (In m (n :: SessionInner.seen_payload_nonces s)); [intros [<-|]; auto|].
  exact (prune_recent_subset _ _ _ _ _ _ Ep Hm).
Qed.

Lemma received_sides nonce rc i s act total :
  ProtocolState.recv_chain (st s) = Some rc ->
  let b' := recv_done act total (mark_pending (remember_seen_payload_nonce nonce (advanced rc i s))) in
  send_side b' = send_side s /\ common_side b' = common_side s /\ recv_epoch b' = recv_epoch s /\
  ProtocolState.metadata_key (st b') = ProtocolState.metadata_key (st s) /\
  ProtocolState.recv_chain (st b') =
    Some (ChainState.mk (i + 1) (chain_at (S (Z.to_nat (i - ChainState.message_index rc))) (ChainState.chain_key rc))
            (ChainState.skipped_message_keys rc)) /\
  SessionInner.dh_private_handle b' = SessionInner.dh_private_handle s /\
  SessionInner.kyber_secret_handle b' = SessionInner.kyber_secret_handle s /\
  (forall m, In m (SessionInner.seen_payload_nonces b') -> m = nonce \/ In m (SessionInner.seen_payload_nonces s)).
Proof.
  intros Hrc b'. unfold b'. set (s3 := remember_seen_payload_nonce nonce (advanced rc i s)).
  destruct (remember_view nonce (advanced rc i s)) as (_ & _ & E). fold s3 in E.
  rewrite (advanced_state rc i s Hrc) in E.
  assert (Hseen : forall m, In m (SessionInner.seen_payload_nonces s3) -> m = nonce \/ In m (SessionInner.seen_payload_nonces s)).
  { intros m Hm. apply remember_seen_subset in Hm. destruct Hm as [Hm|Hm]; [now left|right].
    unfold advanced, set_recv_progress in Hm. cbn in Hm. now rewrite Hrc in Hm. }
  assert (Hh : SessionInner.dh_private_handle s3 = SessionInner.dh_private_handle s /\
               SessionInner.kyber_secret_handle s3 = SessionInner.kyber_secret_handle s).
  { unfold s3, remember_seen_payload_nonce, advanced, set_recv_progress. cbn. rewrite Hrc.
    case_if; [split; reflexivity|]. destruct (prune_seen_nonces _ _). split; reflexivity. }
  clearbody s3. unfold mark_pending, send_side, common_side, recv_epoch, send_epoch.
  destruct (SessionInner.send_ratchet_pending s3); cbn; rewrite E; cbn; intuition.
Qed.

(** ** One message *)

(** Conditions on a message, from [can_send]. *)
Definition message_ok (payload : bytes) (ty id : Z) : Prop :=
  bytes_ok payload /\ len payload <= MAX_BUFFER_SIZE /\ - 2 ^ 31 <= ty < 2 ^ 31 /\ is_u32 id.

Lemma nonce_of_bytes_ok g i : bytes_ok (ns_prefix (ng_state g)) -> bytes_ok (nonce_of g i).
Proof. intros H. unfold nonce_of. rewrite !bytes_ok_app. auto using to_le_bytes_ok. Qed.

(** The nonce just used is not one the generator can still issue. *)
Lemma fresh_after ng i seen seen' :
  len (NonceStateProto.prefix ng) = NONCE_PREFIX_BYTES ->
  0 <= NonceStateProto.counter ng < MAX_NONCE_COUNTER -> 0 <= i < MAX_MESSAGE_INDEX ->
  fresh_for ng seen ->
  (forall m, In m seen' ->
     m = NonceStateProto.prefix ng ++ to_le_bytes 2 (NonceStateProto.counter ng) ++ to_le_bytes 2 i \/ In m seen) ->
  fresh_for (NonceStateProto.mk (NonceStateProto.prefix ng) (NonceStateProto.counter ng + 1)) seen'.
Proof.
  intros Hp Hc Hi Hf Hs c j Hcr Hj Hin. cbn in Hcr, Hin. apply Hs in Hin. destruct Hin as [Hin|Hin].
  - apply app_inv_head in Hin. apply app_inj_len in Hin; [|now rewrite !len_to_le_bytes].
    destruct Hin as [Hin _]. unfold MAX_NONCE_COUNTER in *.
    apply to_le_bytes_inj in Hin; cbn; lia.
  - revert Hin. apply Hf; lia.
Qed.

(** The ends are in step again after a message. *)
Lemma paired_after s1 s s2 sc rc ng t1 n1 t2 n2 :
  paired s1 s -> ProtocolState.send_chain (st s1) = Some sc -> ProtocolState.recv_chain (st s) = Some rc ->
  ProtocolState.nonce_generator (st s1) = Some ng -> NonceStateProto.counter ng < MAX_NONCE_COUNTER ->
  ChainState.message_index sc < ProtocolState.max_messages_per_chain (st s1) ->
  st s2 = sent_state sc (mkNonceState (NonceStateProto.prefix ng) (NonceStateProto.counter ng + 1)) (st s1) ->
  idle_part s2 = idle_part s1 ->
  let i := ChainState.message_index sc in
  let nonce := NonceStateProto.prefix ng ++ to_le_bytes 2 (NonceStateProto.counter ng) ++ to_le_bytes 2 i in
  paired (send_done t1 n1 s2)
    (recv_done t2 n2 (mark_pending (remember_seen_payload_nonce nonce (advanced rc i s)))).
Proof.
  intros [Hsh Hc Hback] Hsc Hrc Hng Hcm Hi Hst Hidle i nonce.
  destruct (sent_sides _ _ _ _ t1 n1 Hst Hidle) as (A1 & A2 & A3). cbn [ns_prefix ns_counter] in A3.
  destruct (received_sides nonce rc i s t2 n2 Hrc) as (B1 & B2 & B3 & B4 & B5 & B6 & B7 & B8).
  set (a' := send_done t1 n1 s2) in *. set (b' := recv_done _ _ _) in *. clearbody a' b'.
  constructor; [exact (shared_ext _ _ _ _ A2 B2 Hsh)| |exact (channel_ext _ _ _ _ B1 A1 Hback)].
  unfold send_side in A3. injection A3 as E1 E2 E3 E4 E5 E6 E7.
  destruct (ch_chain _ _ Hc) as (sc' & rc' & Hsc' & Hrc' & Hck & Hidx & Hmax & Hlag & Hkey).
  rewrite Hsc in Hsc'. rewrite Hrc in Hrc'. inv_ok.
  destruct (ch_nonce _ _ Hc) as (ng' & Hng' & Hnl & Hnb & Hcnt & Hfresh). rewrite Hng in Hng'. inv_ok.
  pose proof (sh_max_range _ _ Hsh) as Hmr. destruct Hc as [C1 C2 C3 _ _ C6 C7].
  constructor; rewrite ?E1, ?E2, ?E5, ?E6, ?B3, ?B4, ?B6, ?B7; auto.
  - do 2 eexists. split; [exact E3|]. split; [exact B5|]. cbn [ChainState.chain_key ChainState.message_index].
    rewrite E7. fold i. rewrite Z.sub_diag. unfold MAX_SKIPPED_MESSAGE_KEYS. split; [|split; [lia|split; [lia|split; [lia|]]]].
    + apply len_chain_at. exact Hck.
    + rewrite chain_at_S. unfold i. now rewrite <- Hkey.
  - eexists. split; [exact E4|]. cbn [NonceStateProto.prefix NonceStateProto.counter].
    split; [exact Hnl|]. split; [exact Hnb|]. split; [lia|].
    eapply fresh_after; [exact Hnl|lia| |exact Hfresh|exact B8].
    unfold i, MAX_MESSAGE_INDEX, MAX_MESSAGES_PER_CHAIN in *. lia.
Qed.

Lemma body_delivers payload ty id corr clock ent env0 s1 s env s2 inr :
  paired s1 s -> message_ok payload ty id -> send_index s1 < max_chain s ->
  encrypt_body payload ty id corr None (sret tt) clock ent (send_epoch s1)
    (SecureEnvelope.set_ratchet_epoch (send_epoch s1) env0) s1 = (Ok env, s2) ->
  exists nonce s3,
    decrypt_message env (max_chain s) false inr s =
      (Ok (mkDecryptResult payload (message_metadata (send_index s1) nonce ty id corr)), s3) /\
    (forall t1 n1 t2 n2, paired (send_done t1 n1 s2) (recv_done t2 n2 s3)) /\
    SecureEnvelope.ratchet_epoch env = send_epoch s1 /\ SecureEnvelope.version env = SecureEnvelope.version env0 /\
    len (SecureEnvelope.header_nonce env) = AES_GCM_NONCE_BYTES /\
    SecureEnvelope.dh_public_key env = SecureEnvelope.dh_public_key env0 /\
    SecureEnvelope.kyber_ciphertext env = SecureEnvelope.kyber_ciphertext env0 /\
    SecureEnvelope.new_kyber_public env = SecureEnvelope.new_kyber_public env0 /\
    SecureEnvelope.previous_chain_length env = SecureEnvelope.previous_chain_length env0.
Proof.
  intros [Hsh Hc Hback] (Hpb & Hpl & Hty & Hid) Hlt Hb.
  pose proof (encrypt_body_frame _ _ _ _ _ _ _ _ _ _ _ _ Hb) as Hidle. apply encrypt_body_Ok in Hb.
  destruct Hb as (sc & g & g' & nonce & Hsc & Hsck & Hg & Hnx & Hst & Hhd & Hhn & Hhl & Hsealed).
  destruct (ch_chain _ _ Hc) as (sc' & rc & Hsc' & Hrc & Hck & Hidx & Hmax & Hlag & Hkey).
  rewrite Hsc in Hsc'. apply Some_inj in Hsc'. subst sc'.
  destruct (ch_nonce _ _ Hc) as (ng & Hng & Hnl & Hnb & Hcnt & Hfresh).
  assert (Hi : send_index s1 = ChainState.message_index sc) by (unfold send_index; now rewrite Hsc).
  assert (Hpos : forall n', ProtocolState.nonce_generator (st s1) = Some n' -> 0 <= NonceStateProto.counter n')
    by (intros n' E; rewrite Hng in E; inv_ok; lia).
  destruct (load_nonce_generator_wf _ _ (proj1 (sh_nonce_limit _ _ Hsh)) Hpos Hg) as (Hwf & ng' & E & Hgs & Hgl).
  rewrite Hng in E. apply Some_inj in E. subst ng'.
  apply (next_Ok _ _ _ _ Hwf) in Hnx. destruct Hnx as (Himax & _ & -> & ->).
  pose proof (sh_max_range _ _ Hsh) as Hmr.
  assert (Hmx : max_chain s = ProtocolState.max_messages_per_chain (st s1)) by (unfold max_chain; symmetry; apply Hsh).
  assert (Hcm : NonceStateProto.counter ng < MAX_NONCE_COUNTER) by (destruct Hwf as (_ & _ & Hw); lia).
  unfold header_of in Hhd. injection Hhd as V1 V2 V3 V4 V5 V6. rewrite <- V2 in Hsealed.
  assert (Hno : nonce_of g (ChainState.message_index sc) = NonceStateProto.prefix ng ++
    to_le_bytes 2 (NonceStateProto.counter ng) ++ to_le_bytes 2 (ChainState.message_index sc))
    by (unfold nonce_of; now rewrite Hgs).
  exists (nonce_of g (ChainState.message_index sc)). eexists. split; [|split].
  - rewrite Hi. eapply decrypt_message_delivers; try eassumption; try apply Hsh; try (symmetry; apply Hc); try lia.
    + now rewrite Hkey.
    + now apply len_nonce_of.
    + apply extract_nonce_index_of; [exact Hwf|lia].
    + apply nonce_of_bytes_ok. now rewrite Hgs.
    + rewrite Hno. apply Hfresh; [lia|]. unfold MAX_MESSAGE_INDEX in *. lia.
  - intros. rewrite Hno. eapply paired_after; try eassumption; [constructor; assumption|lia|].
    rewrite Hst. unfold bump, export_state. now rewrite Hgs.
  - rewrite Hhn. auto 10.
Qed.

(** ** A ratchet step *)

(** What the peer checks on the keys of a rotation, and freshness of the new
    nonce prefix. *)
Record good_ratchet (a b : SessionInner) (ent : SendEntropy) : Prop := {
  gr_dh : validate_dh_public_key (x25519_public (e_x25519 ent)) = Ok tt;
  gr_ct : forallb (fun x => x =? 0)
            (fst (mlkem_encapsulate (ProtocolState.kyber_remote_public (st a)) (e_kem_encapsulation ent))) = false;
  gr_pk : forallb (fun x => x =? 0) (snd (mlkem_generate (e_kem_keygen ent))) = false;
  gr_prefix : forall n, In n (SessionInner.seen_payload_nonces b) ->
                firstn (Z.to_nat NONCE_PREFIX_BYTES) n <> e_nonce_prefix ent }.

Lemma new_header_ok env a b ent e pcl :
  good_ratchet a b ent -> ProtocolState.kyber_remote_public (st a) = snd (mlkem_generate e) ->
  header_of env = header_of (with_ratchet (new_header ent e) pcl env) ->
  ratchet_header_ok env (x25519_public (e_x25519 ent)) (fst (encaps e (e_kem_encapsulation ent)))
    (snd (mlkem_generate (e_kem_keygen ent))).
Proof.
  intros [Hdh Hct Hpk _] Hk Hh. unfold header_of in Hh. injection Hh as _ H1 H2 H3. rewrite Hk in Hct.
  pose proof (proj2 (mlkem_generate_len (e_kem_keygen ent))) as Hl.
  pose proof (proj1 (encaps_len e (e_kem_encapsulation ent))) as Hc.
  unfold ratchet_header_ok. split; [exact H1|]. split; [exact H2|]. split; [exact H3|].
  split; [apply x25519_public_len|]. split; [exact Hc|]. split; [exact Hl|]. split; [exact Hdh|]. split.
  - unfold kyber_validate_ciphertext. rewrite Hc, Z.eqb_refl. cbn [ensure rbind].
    unfold encaps in *. rewrite Hct. reflexivity.
  - unfold kyber_validate_public_key. rewrite Hl, Z.eqb_refl. cbn [ensure rbind]. rewrite Hpk. cbn [negb ensure rbind].
    rewrite mlkem_ek_valid. cbn [ok_or rbind]. now rewrite bytes_eqb_refl.
Qed.

(** [b] once the rest of its receiving chain is cached. *)
Definition caught_up (rc : ChainState.t) (pcl : Z) (b : SessionInner) : SessionInner :=
  if pcl <=? ChainState.message_index rc then b else skipped_to rc pcl b.

Lemma caught_up_sides rc pcl b :
  let b0 := caught_up rc pcl b in
  ProtocolState.recv_chain (st b) = Some rc ->
  send_side b0 = send_side b /\ common_side b0 = common_side b /\ recv_epoch b0 = recv_epoch b /\
  ProtocolState.metadata_key (st b0) = ProtocolState.metadata_key (st b) /\
  SessionInner.seen_payload_nonces b0 = SessionInner.seen_payload_nonces b /\
  SessionInner.dh_private_handle b0 = SessionInner.dh_private_handle b /\
  SessionInner.kyber_secret_handle b0 = SessionInner.kyber_secret_handle b.
Proof.
  intros b0 Hrc. unfold b0, caught_up. case_if; [auto 10|].
  unfold skipped_to, set_recv_progress. cbn [SessionInner.state SessionInner.set_skipped_message_keys]. rewrite Hrc.
  repeat split; reflexivity.
Qed.

Lemma rotated_sides ent sk e a nr nc nm :
  new_keys ent (ProtocolState.root_key (st a)) sk e = (nr, nc, nm) ->
  let a1 := rotated_session ent sk e a in
  recv_side a1 = (recv_epoch a, ProtocolState.metadata_key (st a), ProtocolState.recv_chain (st a),
    SessionInner.seen_payload_nonces a, Some (SecureMemoryHandle.mk (e_x25519 ent)),
    Some (SecureMemoryHandle.mk (fst (mlkem_generate (e_kem_keygen ent))))) /\
  send_side a1 = (send_epoch a + 1, nm, Some (ChainState.mk 0 nc []),
    Some (NonceStateProto.mk (e_nonce_prefix ent) 0), ProtocolState.dh_remote_public (st a),
    ProtocolState.kyber_remote_public (st a), ProtocolState.max_messages_per_chain (st a)) /\
  common_side a1 = (ProtocolState.session_id (st a), ProtocolState.identity_binding_hash (st a), nr,
    ProtocolState.max_messages_per_chain (st a), ProtocolState.max_nonce_counter (st a), ProtocolState.version (st a)).
Proof. intros Hk a1. unfold a1, rotated_session. rewrite Hk. repeat split; reflexivity. Qed.

Lemma ratcheted_sides nr nc nm dh pk s :
  let b1 := ratcheted (nr, nc, nm) dh pk s in
  recv_side b1 = (recv_epoch s + 1, nm, Some (ChainState.mk 0 nc []), SessionInner.seen_payload_nonces s,
    SessionInner.dh_private_handle s, SessionInner.kyber_secret_handle s) /\
  send_side b1 = (send_epoch s, ProtocolState.send_metadata_key (st s), ProtocolState.send_chain (st s),
    ProtocolState.nonce_generator (st s), dh, pk, ProtocolState.max_messages_per_chain (st s)) /\
  common_side b1 = (ProtocolState.session_id (st s), ProtocolState.identity_binding_hash (st s), nr,
    ProtocolState.max_messages_per_chain (st s), ProtocolState.max_nonce_counter (st s), ProtocolState.version (st s)).
Proof. intros b1. repeat split; reflexivity. Qed.

Lemma fresh_prefix prefix seen :
  len prefix = NONCE_PREFIX_BYTES ->
  (forall n, In n seen -> firstn (Z.to_nat NONCE_PREFIX_BYTES) n <> prefix) ->
  fresh_for (NonceStateProto.mk prefix 0) seen.
Proof.
  intros Hl H c i _ _ Hin. apply (H _ Hin). cbn [NonceStateProto.prefix].
  rewrite firstn_app. replace (Z.to_nat NONCE_PREFIX_BYTES) with (List.length prefix) by (unfold len in Hl; lia).
  now rewrite firstn_all, Nat.sub_diag, firstn_O, app_nil_r.
Qed.

Lemma ratchet_paired a b ent sk e rc pcl :
  paired a b -> good_ratchet a b ent -> entropy_ok ent -> bytes_ok (e_nonce_prefix ent) ->
  SessionInner.dh_private_handle b = Some (SecureMemoryHandle.mk sk) ->
  SessionInner.kyber_secret_handle b = Some (SecureMemoryHandle.mk (fst (mlkem_generate e))) ->
  ProtocolState.dh_remote_public (st a) = x25519_public sk -> len sk = X25519_PRIVATE_KEY_BYTES ->
  validate_dh_public_key (x25519_public sk) = Ok tt ->
  ProtocolState.kyber_remote_public (st a) = snd (mlkem_generate e) ->
  ProtocolState.recv_chain (st b) = Some rc ->
  paired (rotated_session ent sk e a)
    (ratcheted (new_keys ent (ProtocolState.root_key (st a)) sk e) (x25519_public (e_x25519 ent))
       (snd (mlkem_generate (e_kem_keygen ent))) (caught_up rc pcl b)).
Proof.
  intros [Hsh Hc Hb] Hgr (He1 & He2 & He3 & _) Hpb Hh1 Hh2 Hdh Hskl Hval Hky Hrc.
  destruct (new_keys ent (ProtocolState.root_key (st a)) sk e) as [[nr nc] nm] eqn:Hk.
  destruct (new_keys_len _ _ _ _ _ _ _ Hk) as (Lr & Lc & Lm).
  destruct (rotated_sides _ _ _ _ _ _ _ Hk) as (A1 & A2 & A3).
  destruct (ratcheted_sides nr nc nm (x25519_public (e_x25519 ent)) (snd (mlkem_generate (e_kem_keygen ent)))
              (caught_up rc pcl b)) as (B1 & B2 & B3).
  destruct (caught_up_sides rc pcl b Hrc) as (D1 & D2 & D3 & D4 & D5 & D6 & D7).
  set (a1 := rotated_session ent sk e a) in *. set (b1 := ratcheted _ _ _ _) in *. clearbody a1 b1.
  set (b0 := caught_up rc pcl b) in *. clearbody b0.
  unfold recv_side, send_side, common_side in *.
  injection A1 as A11 A12 A13 A14 A15 A16. injection A2 as A21 A22 A23 A24 A25 A26 A27.
  injection A3 as A31 A32 A33 A34 A35 A36. injection B1 as B11 B12 B13 B14 B15 B16.
  injection B2 as B21 B22 B23 B24 B25 B26 B27. injection B3 as B31 B32 B33 B34 B35 B36.
  injection D1 as D11 D12 D13 D14 D15 D16 D17. injection D2 as D21 D22 D23 D24 D25 D26.
  destruct Hsh, Hc, Hb. constructor.
  - constructor; rewrite ?A31, ?A32, ?A33, ?A34, ?A35, ?A36, ?B31, ?B32, ?B33, ?B34, ?B35, ?B36, ?D21, ?D22, ?D24, ?D25, ?D26; auto.
  - constructor; rewrite ?A21, ?A22, ?A23, ?A24, ?A25, ?A26, ?A27, ?B11, ?B12, ?B13, ?B14, ?B15, ?B16, ?D3, ?D5, ?D6, ?D7; auto.
    + now rewrite ch_epoch0.
    + do 2 eexists. split; [reflexivity|]. split; [reflexivity|]. cbn. unfold MAX_SKIPPED_MESSAGE_KEYS.
      split; [exact Lc|]. repeat split; lia.
    + eexists. split; [reflexivity|]. cbn [NonceStateProto.prefix NonceStateProto.counter]. unfold MAX_NONCE_COUNTER.
      split; [exact He3|]. split; [exact Hpb|]. split; [lia|]. apply fresh_prefix; [exact He3|apply Hgr].
  - constructor; rewrite ?B21, ?B22, ?B23, ?B24, ?B25, ?B26, ?B27, ?A11, ?A12, ?A13, ?A14, ?A15, ?A16, ?D11, ?D12, ?D13, ?D14, ?D17; auto.
    + eexists. split; [reflexivity|]. split; [exact He1|]. split; [reflexivity|apply Hgr].
    + eauto.
Qed.

(** The receiver derives the sender's keys. *)
Lemma recv_keys_agree env a b ent sk e rc pcl :
  ProtocolState.recv_chain (st b) = Some rc ->
  ratchet_header_ok env (x25519_public (e_x25519 ent)) (fst (encaps e (e_kem_encapsulation ent)))
    (snd (mlkem_generate (e_kem_keygen ent))) ->
  SessionInner.dh_private_handle b = Some (SecureMemoryHandle.mk sk) -> len sk = X25519_PRIVATE_KEY_BYTES ->
  SessionInner.kyber_secret_handle b = Some (SecureMemoryHandle.mk (fst (mlkem_generate e))) ->
  is_all_zero (x25519_dh (e_x25519 ent) (x25519_public sk)) = false ->
  ProtocolState.root_key (st a) = ProtocolState.root_key (st b) ->
  recv_ratchet_keys env (caught_up rc pcl b) = Ok (new_keys ent (ProtocolState.root_key (st a)) sk e).
Proof.
  intros Hrc (H1 & H2 & H3 & _) Hd Hl Hk Hz Hr.
  destruct (caught_up_sides rc pcl b Hrc) as (_ & D2 & _ & _ & _ & D6 & D7).
  unfold common_side in D2. injection D2 as _ _ D23 _ _ _.
  unfold recv_ratchet_keys, crypto_err. rewrite H1, H2, H3, D6, D7, Hd, Hk. cbn [ok_or rbind].
  rewrite (SecureMemoryHandle.read_bytes_exact _ _ Hl). cbn [map_err rbind].
  rewrite compute_dh_ok; [|exact Hl|apply x25519_public_len|rewrite x25519_agree; exact Hz]. cbn [rbind].
  rewrite kyber_decapsulate_ok. cbn [map_err rbind].
  rewrite (SecureMemoryHandle.read_bytes_exact _ _ (proj2 (encaps_len e _))). cbn [map_err rbind].
  rewrite derive_ratchet_ok. unfold new_keys. rewrite x25519_agree. now rewrite D23, Hr.
Qed.

Lemma channel_index a b rc :
  channel a b -> ProtocolState.recv_chain (st b) = Some rc ->
  len (ChainState.chain_key rc) = CHAIN_KEY_BYTES /\ recv_index b = ChainState.message_index rc /\
  send_index a - recv_index b <= MAX_SKIPPED_MESSAGE_KEYS /\
  send_index a <= ProtocolState.max_messages_per_chain (st a).
Proof.
  intros Hc Hrc. destruct (ch_chain _ _ Hc) as (sc & rc' & Hsc & Hrc' & Hck & Hidx & Hmax & Hlag & Hkey).
  rewrite Hrc in Hrc'. apply Some_inj in Hrc'. subst rc'.
  unfold recv_index, send_index. rewrite Hrc, Hsc. cbn. auto.
Qed.

(** The receiver applies the sender's rotation. *)
Lemma ratchet_applied env a b ent sk e rc :
  paired a b -> good_ratchet a b ent -> ProtocolState.recv_chain (st b) = Some rc ->
  SessionInner.dh_private_handle b = Some (SecureMemoryHandle.mk sk) -> len sk = X25519_PRIVATE_KEY_BYTES ->
  SessionInner.kyber_secret_handle b = Some (SecureMemoryHandle.mk (fst (mlkem_generate e))) ->
  ProtocolState.kyber_remote_public (st a) = snd (mlkem_generate e) ->
  is_all_zero (x25519_dh (e_x25519 ent) (x25519_public sk)) = false -> send_epoch a + 1 < 2 ^ 64 ->
  header_of env = header_of (with_ratchet (new_header ent e) (send_index a) env) ->
  apply_recv_ratchet env b =
  (Ok tt, ratcheted (new_keys ent (ProtocolState.root_key (st a)) sk e) (x25519_public (e_x25519 ent))
            (snd (mlkem_generate (e_kem_keygen ent))) (caught_up rc (send_index a) b)).
Proof.
  intros [Hsh Hc _] Hgr Hrc Hd Hl Hkb Hka Hz He64 Hh.
  destruct (channel_index _ _ _ Hc Hrc) as (Hck & Hri & Hlag & Hmax). rewrite Hri in Hlag.
  pose proof (new_header_ok _ _ _ _ _ _ Hgr Hka Hh) as Hok.
  pose proof (recv_keys_agree env a b ent sk e rc (send_index a) Hrc Hok Hd Hl Hkb Hz (sh_root _ _ Hsh)) as Hkeys.
  destruct (caught_up_sides rc (send_index a) b Hrc) as (_ & _ & D3 & _).
  pose proof (sh_max _ _ Hsh) as Hm. pose proof (sh_max_range _ _ Hsh) as Hmr.
  unfold header_of in Hh. injection Hh as Hp _ _ _. unfold caught_up in *.
  eapply (apply_recv_ratchet_run env b _ (fst (encaps e (e_kem_encapsulation ent))) _ rc (send_index a)); auto; try lia.
  - rewrite <- (sh_root _ _ Hsh). apply (sh_root_len _ _ Hsh).
  - fold (recv_epoch (if send_index a <=? ChainState.message_index rc then b else skipped_to rc (send_index a) b)).
    rewrite D3, <- (ch_epoch _ _ Hc). exact He64.
Qed.

(** ** Exchanging messages *)

(** One exchange from [a] to [b]: everything needed for it to go through. *)
Definition exchange_ok (payload : bytes) (ty id : Z) (corr : option string) (clock clock' : Clock)
    (ent : SendEntropy) (a b : SessionInner) : Prop :=
  can_send a payload ty id corr clock ent /\ can_recv b clock' /\
  (send_ratchet_rotation_needed a = Ok true -> good_ratchet a b ent).

(** [delivered]: [encrypt] and [decrypt] succeed, the payload and the header
    fields arrive, and the ends are in step again. *)
Definition delivered (payload : bytes) (ty id : Z) (corr : option string) (clock clock' : Clock)
    (ent : SendEntropy) (a b a' b' : SessionInner) : Prop :=
  exists env i nonce,
    encrypt payload ty id corr clock ent a = (Ok env, a') /\
    decrypt env clock' b = (Ok (mkDecryptResult payload (EnvelopeMetadata.mk i nonce ty id corr)), b') /\
    paired a' b'.

Lemma can_send_message a payload ty id corr clock ent :
  can_send a payload ty id corr clock ent -> message_ok payload ty id.
Proof. intros []. destruct cs_payload0. unfold message_ok. auto. Qed.

Lemma shared_recv_ready a b env clock :
  shared a b -> channel a b -> can_recv b clock -> SecureEnvelope.version env = PROTOCOL_VERSION ->
  len (SecureEnvelope.header_nonce env) = AES_GCM_NONCE_BYTES -> recv_ready env clock b.
Proof.
  intros Hsh Hc Hr Hv Hn. constructor; auto; [apply Hsh|apply Hc|].
  unfold max_chain. rewrite <- (sh_max _ _ Hsh). apply (sh_max_range _ _ Hsh).
Qed.

Lemma exchange_plain payload ty id corr clock clock' ent a b :
  paired a b -> exchange_ok payload ty id corr clock clock' ent a b ->
  send_ratchet_rotation_needed a = Ok false ->
  exists a' b', delivered payload ty id corr clock clock' ent a b a' b'.
Proof.
  intros Hp (Hcs & Hcr & _) Hn. destruct (encrypt_succeeds _ _ _ _ _ _ _ _ Hp Hcs) as (env & a' & He).
  pose proof He as He'. apply encrypt_Ok in He'. destruct He' as (act & env0 & s1 & s2 & _ & _ & _ & Hr & Hb & ->).
  rewrite maybe_rotate_idle in Hr by exact Hn. apply pair_inj in Hr. destruct Hr as [Hr <-]. inv_ok.
  pose proof Hp as [Hsh Hc _]. destruct (rotation_decided a (sh_max_range _ _ Hsh)) as (n & Hn' & Hlt).
  rewrite Hn in Hn'. inv_ok. specialize (Hlt eq_refl). rewrite (sh_max _ _ Hsh) in Hlt.
  destruct (body_delivers _ _ _ _ _ _ _ _ _ _ _ false Hp (can_send_message _ _ _ _ _ _ _ Hcs) Hlt Hb)
    as (nonce & s3 & Hd & Hpair & V1 & V2 & V3 & V4 & V5 & V6 & V7).
  rewrite (ch_epoch _ _ Hc) in V1.
  destruct (decrypt_run_plain _ _ _ _ _ (shared_recv_ready _ _ _ _ Hsh Hc Hcr V2 V3) V4 V5 V6 V7 V1 Hd) as (act' & Hdec).
  do 2 eexists. do 3 eexists. split; [exact He|]. split; [exact Hdec|apply Hpair].
Qed.

Lemma exchange_ratchet payload ty id corr clock clock' ent a b :
  paired a b -> exchange_ok payload ty id corr clock clock' ent a b ->
  send_ratchet_rotation_needed a = Ok true ->
  exists a' b', delivered payload ty id corr clock clock' ent a b a' b'.
Proof.
  intros Hp (Hcs & Hcr & Hgr) Hn. specialize (Hgr Hn).
  destruct (encrypt_succeeds _ _ _ _ _ _ _ _ Hp Hcs) as (env & a' & He).
  pose proof He as He'. apply encrypt_Ok in He'. destruct He' as (act & env0 & s1 & s2 & _ & _ & _ & Hr & Hb & ->).
  pose proof Hp as [Hsh Hc _]. destruct (cs_entropy _ _ _ _ _ _ _ Hcs) as [Hent Hpb].
  destruct (ch_dh _ _ Hc) as (sk & K1 & K2 & K3 & K4). destruct (ch_kyber _ _ Hc) as (e & K5 & K6).
  destruct (ch_chain _ _ Hc) as (sc & rc & Hsc & Hrc & _).
  assert (Hz : is_all_zero (x25519_dh (e_x25519 ent) (x25519_public sk)) = false)
    by (rewrite <- K3; exact (cs_dh _ _ _ _ _ _ _ Hcs)).
  pose proof (cs_epoch _ _ _ _ _ _ _ Hcs) as Hep.
  rewrite (maybe_rotate_run _ _ _ sk e Hn Hent (sh_root_len _ _ Hsh) K3 K4 K6 Hz Hep) in Hr.
  apply pair_inj in Hr. destruct Hr as [Hr <-]. apply Ok_inj in Hr. subst env0.
  pose proof (ratchet_paired a b ent sk e rc (send_index a) Hp Hgr Hent Hpb K1 K5 K3 K2 K4 K6 Hrc) as Hp1.
  set (b1 := ratcheted _ _ _ _) in Hp1.
  assert (Hmax : max_chain b1 = max_chain b).
  { unfold max_chain. rewrite <- (sh_max _ _ (pr_shared _ _ Hp1)), <- (sh_max _ _ Hsh).
    unfold rotated_session. now destruct (new_keys _ _ _ _) as [[? ?] ?]. }
  assert (Hlt : send_index (rotated_session ent sk e a) < max_chain b1).
  { rewrite Hmax. unfold rotated_session. destruct (new_keys _ _ _ _) as [[? ?] ?]. cbn.
    unfold max_chain. rewrite <- (sh_max _ _ Hsh). apply (sh_max_range _ _ Hsh). }
  destruct (body_delivers _ _ _ _ _ _ _ _ _ _ _ true Hp1 (can_send_message _ _ _ _ _ _ _ Hcs) Hlt Hb)
    as (nonce & s3 & Hd & Hpair & V1 & V2 & V3 & V4 & V5 & V6 & V7). rewrite Hmax in Hd.
  assert (Hh : header_of env = header_of (with_ratchet (new_header ent e) (send_index a) env))
    by (unfold header_of; rewrite V4, V5, V6, V7; reflexivity).
  assert (Hap : apply_recv_ratchet env b = (Ok tt, b1)) by (apply ratchet_applied; auto).
  destruct (channel_index _ _ _ Hc Hrc) as (_ & _ & Hlag & Hmx).
  assert (E1 : SecureEnvelope.ratchet_epoch env = recv_epoch b + 1)
    by (rewrite V1, <- (ch_epoch _ _ Hc); unfold rotated_session; now destruct (new_keys _ _ _ _) as [[? ?] ?]).
  assert (E2 : recv_epoch b + 1 < 2 ^ 64) by (rewrite <- (ch_epoch _ _ Hc); exact Hep).
  assert (E3 : send_index a <= max_chain b) by (unfold max_chain; rewrite <- (sh_max _ _ Hsh); exact Hmx).
  destruct (decrypt_run_ratchet _ _ _ _ _ _ _ _ _ _ (shared_recv_ready _ _ _ _ Hsh Hc Hcr V2 V3) V4 V5 V6 V7
              E1 E2 E3 Hlag Hap Hd) as (act' & Hdec).
  do 2 eexists. do 3 eexists. split; [exact He|]. split; [exact Hdec|apply Hpair].
Qed.

(** C14. From two ends that are in step, a message whose preconditions hold (live
    session, buffers in range, a nonce left, non-degenerate key material) is
    encrypted, is decrypted by the peer to the same payload, type, id and
    correlation id, and leaves the two ends in step.  This covers the plain
    case, the hybrid ratchet step and the catching up on messages that were
    sent but have not arrived. *)
Theorem message_roundtrip payload ty id corr clock clock' ent a b :
  paired a b -> exchange_ok payload ty id corr clock clock' ent a b ->
  exists a' b', delivered payload ty id corr clock clock' ent a b a' b'.
Proof.
  intros Hp Hx. destruct (rotation_decided a (sh_max_range _ _ (pr_shared _ _ Hp))) as ([] & Hn & _).
  - now apply exchange_ratchet.
  - now apply exchange_plain.
Qed.

(** ** Conversations *)

Record Turn : Type := mkTurn {
  t_forward : bool;
  t_payload : bytes;
  t_type : Z;
  t_id : Z;
  t_corr : option string;
  t_clock : Clock;
  t_peer_clock : Clock;
  t_entropy : SendEntropy }.

(** One turn: the sender encrypts, the receiver decrypts. *)
Definition exchange (t : Turn) (a b : SessionInner) : option (bytes * SessionInner * SessionInner) :=
  match encrypt (t_payload t) (t_type t) (t_id t) (t_corr t) (t_clock t) (t_entropy t) a with
  | (Ok env, a') =>
      match decrypt env (t_peer_clock t) b with
      | (Ok r, b') => Some (plaintext r, a', b')
      | (Err _, _) => None
      end
  | (Err _, _) => None
  end.

Definition take_turn (t : Turn) (a b : SessionInner) : option (bytes * SessionInner * SessionInner) :=
  if t_forward t then exchange t a b
  else match exchange t b a with Some (p, b', a') => Some (p, a', b') | None => None end.

Definition turn_ok (t : Turn) (a b : SessionInner) : Prop :=
  let ok := exchange_ok (t_payload t) (t_type t) (t_id t) (t_corr t) (t_clock t) (t_peer_clock t) (t_entropy t) in
  if t_forward t then ok a b else ok b a.

(** What the receivers read over a conversation. *)
Fixpoint converse (ts : list Turn) (a b : SessionInner) : option (list bytes * SessionInner * SessionInner) :=
  match ts with
  | [] => Some ([], a, b)
  | t :: ts =>
      match take_turn t a b with
      | Some (p, a', b') =>
          match converse ts a' b' with
          | Some (ps, a'', b'') => Some (p :: ps, a'', b'')
          | None => None
          end
      | None => None
      end
  end.

(** The preconditions of every turn, in the states it is taken in. *)
Fixpoint turns_ok (ts : list Turn) (a b : SessionInner) : Prop :=
  match ts with
  | [] => True
  | t :: ts => turn_ok t a b /\
      match take_turn t a b with Some (_, a', b') => turns_ok ts a' b' | None => True end
  end.

Lemma take_turn_delivers t a b :
  paired a b -> turn_ok t a b -> exists a' b', take_turn t a b = Some (t_payload t, a', b') /\ paired a' b'.
Proof.
  intros Hp Ht. unfold turn_ok in Ht. unfold take_turn, exchange. destruct (t_forward t).
  - destruct (rotation_decided a (sh_max_range _ _ (pr_shared _ _ Hp))) as ([] & Hn & _);
      [destruct (exchange_ratchet _ _ _ _ _ _ _ _ _ Hp Ht Hn) as (a' & b' & env & i & nonce & He & Hd & Hp')
      |destruct (exchange_plain _ _ _ _ _ _ _ _ _ Hp Ht Hn) as (a' & b' & env & i & nonce & He & Hd & Hp')];
      rewrite He, Hd; eauto.
  - apply paired_sym in Hp.
    destruct (rotation_decided b (sh_max_range _ _ (pr_shared _ _ Hp))) as ([] & Hn & _);
      [destruct (exchange_ratchet _ _ _ _ _ _ _ _ _ Hp Ht Hn) as (a' & b' & env & i & nonce & He & Hd & Hp')
      |destruct (exchange_plain _ _ _ _ _ _ _ _ _ Hp Ht Hn) as (a' & b' & env & i & nonce & He & Hd & Hp')];
      rewrite He, Hd; eauto using paired_sym.
Qed.

(** A conversation that starts in step is delivered completely and in order. *)
Lemma converse_delivers ts : forall a b,
  paired a b -> turns_ok ts a b ->
  exists a' b', converse ts a b = Some (map t_payload ts, a', b') /\ paired a' b'.
Proof.
  induction ts as [|t ts IH]; intros a b Hp Ht; cbn [converse map]; [eauto|]. destruct Ht as [Ht Hts].
  destruct (take_turn_delivers t a b Hp Ht) as (a1 & b1 & E & Hp1). rewrite E in *.
  destruct (IH _ _ Hp1 Hts) as (a2 & b2 & E2 & Hp2). rewrite E2. eauto.
Qed.

End Sync.
