(* ===== verification/SessionStart.v ===== *)
(** * From the handshake to a pair of sessions

    The two ends build their states from the common outputs of the handshake
    ([build_protocol_state]) and turn them into sessions
    ([from_handshake_state]); the sessions are in step. *)

From Stdlib Require Import ZArith List Bool Lia String.
From S2P Require Import Prelude Constants BTree SecureMemory Crypto DhValidator Padding Nonce Proto SessionState Session SessionPersist SessionChain SessionRecv SessionSend SessionInv SessionSync.
Import ListNotations.
Open Scope string_scope.
Open Scope list_scope.
Open Scope Z_scope.

Section Start.
Context `{P : Primitives} {L : PrimitiveLaws P} {C : Prost EnvelopeMetadata} {CL : ProstLaws EnvelopeMetadata metadata_wf}.

(** ** Moving secrets into handles *)

Lemma take_dh_private_ok stt sk pk :
  ProtocolState.dh_local stt = Some (DhKeyPair.mk sk pk) -> len sk = X25519_PRIVATE_KEY_BYTES ->
  take_dh_private stt =
  Ok (Some (SecureMemoryHandle.mk sk),
      ProtocolState.set_dh_local (Some (DhKeyPair.mk (repeat 0 (Z.to_nat X25519_PRIVATE_KEY_BYTES)) pk)) stt).
Proof.
  intros Hd Hl. unfold take_dh_private, crypto_err. rewrite Hd. cbn [DhKeyPair.private_key].
  destruct sk as [|x sk]; [discriminate|].
  rewrite SecureMemoryHandle.alloc_write_exact
    by (auto; unfold X25519_PRIVATE_KEY_BYTES, MAX_BUFFER_SIZE; lia). reflexivity.
Qed.

Lemma take_kyber_secret_ok stt sk pk :
  ProtocolState.kyber_local stt = Some (KyberKeyPair.mk sk pk) -> len sk = KYBER_SECRET_KEY_BYTES ->
  take_kyber_secret stt =
  Ok (Some (SecureMemoryHandle.mk sk),
      ProtocolState.set_kyber_local (Some (KyberKeyPair.mk (repeat 0 (Z.to_nat KYBER_SECRET_KEY_BYTES)) pk)) stt).
Proof.
  intros Hd Hl. unfold take_kyber_secret, crypto_err. rewrite Hd. cbn [KyberKeyPair.secret_key].
  destruct sk as [|x sk]; [discriminate|].
  rewrite SecureMemoryHandle.alloc_write_exact
    by (auto; unfold KYBER_SECRET_KEY_BYTES, MAX_BUFFER_SIZE; lia). reflexivity.
Qed.

(** ** The first keys *)

(** The root key and the chain pair both ends derive. *)
Definition start_root (dh_init ss root : bytes) : bytes :=
  firstn (Z.to_nat ROOT_KEY_BYTES) (kdf (dh_init ++ ss) (ROOT_KEY_BYTES * 2) root HYBRID_RATCHET_INFO).
Definition start_chains (root' : bytes) : bytes := kdf root' (CHAIN_KEY_BYTES * 2) [] CHAIN_INIT_INFO.
Definition first_chain (root' : bytes) : bytes := firstn (Z.to_nat CHAIN_KEY_BYTES) (start_chains root').
Definition second_chain (root' : bytes) : bytes := skipn (Z.to_nat CHAIN_KEY_BYTES) (start_chains root').

Lemma start_lens dh_init ss root root' :
  len (start_root dh_init ss root) = ROOT_KEY_BYTES /\ len (first_chain root') = CHAIN_KEY_BYTES /\
  len (second_chain root') = CHAIN_KEY_BYTES.
Proof.
  unfold start_root, first_chain, second_chain, start_chains.
  autorewrite with lens. rewrite !kdf_len by easy. repeat split; reflexivity.
Qed.

Lemma compute_dh_inv sk pk k : compute_dh sk pk = Ok k -> k = x25519_dh sk pk.
Proof. unfold compute_dh. intros H. inv_ok. reflexivity. Qed.

(** What [initialize_from_handshake_inner] makes of a fresh session. *)
Lemma initialize_Ok x u s sk :
  SessionInner.dh_private_handle x = Some (SecureMemoryHandle.mk sk) -> len sk = X25519_PRIVATE_KEY_BYTES ->
  initialize_from_handshake_inner x = (Ok u, s) ->
  let root' := start_root (x25519_dh sk (ProtocolState.dh_remote_public (st x)))
                 (SessionInner.pending_kyber_shared_secret x) (ProtocolState.root_key (st x)) in
  let '(send, recv) := if SessionInner.is_initiator x then (first_chain root', second_chain root')
                       else (second_chain root', first_chain root') in
  send_side s = (0, ProtocolState.send_metadata_key (st x), Some (ChainState.mk 0 send []),
    ProtocolState.nonce_generator (st x), ProtocolState.dh_remote_public (st x),
    ProtocolState.kyber_remote_public (st x), ProtocolState.max_messages_per_chain (st x)) /\
  recv_side s = (0, ProtocolState.metadata_key (st x), Some (ChainState.mk 0 recv []),
    SessionInner.seen_payload_nonces x, Some (SecureMemoryHandle.mk sk), SessionInner.kyber_secret_handle x) /\
  common_side s = (ProtocolState.session_id (st x), ProtocolState.identity_binding_hash (st x), root',
    ProtocolState.max_messages_per_chain (st x), ProtocolState.max_nonce_counter (st x), ProtocolState.version (st x)) /\
  validate_dh_public_key (ProtocolState.dh_remote_public (st x)) = Ok tt.
Proof.
  intros Hd Hsk H. unfold initialize_from_handshake_inner, guard_wiping in H. inv_stm. inv_ok.
  rewrite Hd in *. inv_ok. unfold crypto_err in *. rewrite (SecureMemoryHandle.read_bytes_exact _ _ Hsk) in *. inv_ok.
  match goal with H : compute_dh _ _ = Ok _ |- _ => apply compute_dh_inv in H; subst end.
  rewrite derive_key_bytes_ok in * by easy. inv_ok. cbv zeta.
  repeat match goal with u : unit |- _ => destruct u end.
  fold (start_root (x25519_dh a5 (ProtocolState.dh_remote_public (st x)))
          (SessionInner.pending_kyber_shared_secret x) (ProtocolState.root_key (st x))) in *.
  set (root' := start_root _ _ _) in *.
  fold (start_chains root') in *. fold (first_chain root') in *. fold (second_chain root') in *.
  unfold recv_side. rewrite <- Hd. destruct (SessionInner.is_initiator x); cbn [negb] in *; inv_ok; auto.
Qed.

(** The session [from_handshake_state] makes of a state with full key pairs. *)
Lemma from_handshake_Ok stt ss s sk pk ksk kpk :
  ProtocolState.dh_local stt = Some (DhKeyPair.mk sk pk) -> len sk = X25519_PRIVATE_KEY_BYTES ->
  ProtocolState.kyber_local stt = Some (KyberKeyPair.mk ksk kpk) -> len ksk = KYBER_SECRET_KEY_BYTES ->
  from_handshake_state (mkHandshakeState stt ss) = Ok s ->
  let root' := start_root (x25519_dh sk (ProtocolState.dh_remote_public stt)) ss (ProtocolState.root_key stt) in
  let '(send, recv) := if ProtocolState.is_initiator stt then (first_chain root', second_chain root')
                       else (second_chain root', first_chain root') in
  send_side s = (0, ProtocolState.send_metadata_key stt, Some (ChainState.mk 0 send []),
    ProtocolState.nonce_generator stt, ProtocolState.dh_remote_public stt, ProtocolState.kyber_remote_public stt,
    ProtocolState.max_messages_per_chain stt) /\
  recv_side s = (0, ProtocolState.metadata_key stt, Some (ChainState.mk 0 recv []), [],
    Some (SecureMemoryHandle.mk sk), Some (SecureMemoryHandle.mk ksk)) /\
  common_side s = (ProtocolState.session_id stt, ProtocolState.identity_binding_hash stt, root',
    ProtocolState.max_messages_per_chain stt, ProtocolState.max_nonce_counter stt, ProtocolState.version stt) /\
  validate_dh_public_key (ProtocolState.dh_remote_public stt) = Ok tt.
Proof.
  intros Hd Hsk Hk Hksk H. unfold from_handshake_state in H. cbn [hs_state hs_kyber_shared_secret] in H. inv_ok.
  destruct (initialize_from_handshake_inner _) as [[u|] s1] eqn:Hi; inv_ok.
  match goal with H : Session_new _ _ = Ok _ |- _ => rename H into Hn end.
  unfold Session_new in Hn. rewrite (take_dh_private_ok _ _ _ Hd Hsk) in Hn. cbn [rbind] in Hn.
  rewrite (take_kyber_secret_ok _ ksk kpk) in Hn by assumption. cbn [rbind] in Hn. apply Ok_inj in Hn. subst x0.
  apply (initialize_Ok _ _ _ sk) in Hi; [|reflexivity|exact Hsk].
  exact Hi.
Qed.

(** ** Both ends of a handshake *)

(** What one end contributes: its secrets, its identity keys, its nonces. *)
Record Party := mkParty {
  pt_secret : bytes;
  pt_kyber_seed : bytes;
  pt_ed25519 : bytes;
  pt_x25519 : bytes;
  pt_nonces : NonceState;
  pt_created : Z }.

(** [build_protocol_state] as one end calls it with the outputs of the handshake. *)
Definition party_state (is_initiator : bool) (root session metadata : bytes) (max_messages max_nonce : Z)
    (me peer : Party) : PResult ProtocolState :=
  let public p := x25519_public (pt_secret p) in
  let kyber p := mlkem_generate (pt_kyber_seed p) in
  build_protocol_state is_initiator root session metadata (pt_secret me) (public me) (public peer)
    (public me) (public peer) (fst (kyber me)) (snd (kyber me)) (snd (kyber peer)) max_messages max_nonce
    (pt_nonces me) (pt_created me) (pt_ed25519 me) (pt_x25519 me) (pt_ed25519 peer) (pt_x25519 peer).

Definition party_session (is_initiator : bool) (root session metadata ss : bytes) (max_messages max_nonce : Z)
    (me peer : Party) : PResult SessionInner :=
  let? stt := party_state is_initiator root session metadata max_messages max_nonce me peer in
  from_handshake_state (mkHandshakeState stt ss).

(** The prefix and counter a [NonceGenerator] has. *)
Definition nonces_ok (ng : NonceState) : Prop :=
  len (ns_prefix ng) = NONCE_PREFIX_BYTES /\ bytes_ok (ns_prefix ng) /\ 0 <= ns_counter ng <= MAX_NONCE_COUNTER.

Lemma identity_binding_sym e1 x1 e2 x2 h :
  compute_identity_binding_hash e1 x1 e2 x2 = Ok h -> compute_identity_binding_hash e2 x2 e1 x1 = Ok h.
Proof.
  unfold compute_identity_binding_hash. intros H. inv_ok. bools.
  rewrite (sort_pair_sym e2 e1), (sort_pair_sym x2 x1) by congruence.
  repeat match goal with H : len _ = _ |- _ => rewrite H end. reflexivity.
Qed.

Lemma identity_binding_len e1 x1 e2 x2 h :
  compute_identity_binding_hash e1 x1 e2 x2 = Ok h -> len h = IDENTITY_BINDING_HASH_BYTES.
Proof. unfold compute_identity_binding_hash. intros H. inv_ok. apply sha256_len. Qed.

(** The session one end starts with. *)
Lemma party_session_Ok init root session metadata ss mm mn me peer s :
  party_session init root session metadata ss mm mn me peer = Ok s ->
  let root' := start_root (x25519_dh (pt_secret me) (x25519_public (pt_secret peer))) ss root in
  let '(send, recv) := if init then (first_chain root', second_chain root')
                       else (second_chain root', first_chain root') in
  exists h,
  send_side s = (0, metadata, Some (ChainState.mk 0 send []),
    Some (NonceStateProto.mk (ns_prefix (pt_nonces me)) (ns_counter (pt_nonces me))),
    x25519_public (pt_secret peer), snd (mlkem_generate (pt_kyber_seed peer)), mm) /\
  recv_side s = (0, metadata, Some (ChainState.mk 0 recv []), [],
    Some (SecureMemoryHandle.mk (pt_secret me)),
    Some (SecureMemoryHandle.mk (fst (mlkem_generate (pt_kyber_seed me))))) /\
  common_side s = (session, h, root', mm, mn, PROTOCOL_VERSION) /\
  compute_identity_binding_hash (pt_ed25519 me) (pt_x25519 me) (pt_ed25519 peer) (pt_x25519 peer) = Ok h /\
  validate_dh_public_key (x25519_public (pt_secret peer)) = Ok tt /\
  len (pt_secret me) = X25519_PRIVATE_KEY_BYTES /\
  len session = SESSION_ID_BYTES /\ len metadata = METADATA_KEY_BYTES /\ mm <> 0 /\ mm <= MAX_MESSAGES_PER_CHAIN /\
  mn <> 0 /\ mn <= MAX_NONCE_COUNTER.
Proof.
  intros H. unfold party_session in H. inv_ok. unfold party_state, build_protocol_state in *. inv_ok. bools.
  match goal with H : from_handshake_state _ = _ |- _ =>
    eapply from_handshake_Ok in H; [|reflexivity|assumption|reflexivity|apply mlkem_generate_len] end.
  cbn -[start_root first_chain second_chain send_side recv_side common_side] in H.
  cbv zeta. destruct init; destruct H as (A & B & D & E); exists x10; do 11 (split; [assumption|]); assumption.
Qed.

(** The two directions of a fresh pair. *)
Lemma start_channel a b metadata chain mm ng sk seed :
  (exists dh, send_side a = (0, metadata, Some (ChainState.mk 0 chain []),
     Some (NonceStateProto.mk (ns_prefix ng) (ns_counter ng)), dh, snd (mlkem_generate seed), mm) /\
     dh = x25519_public sk) ->
  recv_side b = (0, metadata, Some (ChainState.mk 0 chain []), [], Some (SecureMemoryHandle.mk sk),
    Some (SecureMemoryHandle.mk (fst (mlkem_generate seed)))) ->
  nonces_ok ng -> len metadata = METADATA_KEY_BYTES -> len chain = CHAIN_KEY_BYTES -> 0 < mm ->
  len sk = X25519_PRIVATE_KEY_BYTES -> validate_dh_public_key (x25519_public sk) = Ok tt ->
  channel a b.
Proof.
  intros (dh & Ha & ->) Hb (N1 & N2 & N3) Hm Hc Hmm Hsk Hv. unfold send_side, recv_side in *.
  injection Ha as A1 A2 A3 A4 A5 A6 A7. injection Hb as B1 B2 B3 B4 B5 B6.
  constructor; rewrite ?A1, ?A2, ?A3, ?A4, ?A5, ?A6, ?A7, ?B1, ?B2, ?B3, ?B4, ?B5, ?B6; auto.
  - eexists _, _. split; [reflexivity|]. split; [reflexivity|]. split; [exact Hc|].
    cbn [ChainState.message_index ChainState.chain_key].
    split; [lia|]. split; [lia|]. split; [unfold MAX_SKIPPED_MESSAGE_KEYS; lia|reflexivity].
  - eexists. split; [reflexivity|]. cbn [NonceStateProto.prefix NonceStateProto.counter].
    do 3 (split; [assumption|]). intros c i _ _ [].
  - eauto.
  - eauto.
Qed.

(** The sessions the two ends of a handshake start with are in step. *)
Lemma start_paired root session metadata ss mm mn alice bob a b :
  party_session true root session metadata ss mm mn alice bob = Ok a ->
  party_session false root session metadata ss mm mn bob alice = Ok b ->
  nonces_ok (pt_nonces alice) -> nonces_ok (pt_nonces bob) -> 0 <= mm -> 0 <= mn ->
  paired a b.
Proof.
  intros Ha Hb Na Nb Hmm Hmn. apply party_session_Ok in Ha, Hb. cbv zeta in Ha, Hb.
  rewrite (x25519_agree (pt_secret bob)) in Hb. set (root' := start_root _ _ _) in *.
  destruct Ha as (h & As & Ar & Ac & Ah & Av & Ask & Asl & Ame & Am1 & Am2 & _).
  destruct Hb as (h' & Bs & Br & Bc & Bh & Bv & Bsk & _).
  apply identity_binding_sym in Bh. rewrite Ah in Bh. apply Ok_inj in Bh. subst h'.
  assert (Hr : len root' = ROOT_KEY_BYTES) by apply (start_lens _ _ _ []).
  destruct (start_lens [] [] [] root') as (_ & L1 & L2).
  assert (Hpos : 0 < mm) by lia.
  constructor.
  - unfold common_side in Ac, Bc. injection Ac as A1 A2 A3 A4 A5 A6. injection Bc as B1 B2 B3 B4 B5 B6.
    constructor; rewrite ?A1, ?A2, ?A3, ?A4, ?A5, ?A6, ?B1, ?B2, ?B3, ?B4, ?B5, ?B6;
      [reflexivity|assumption|reflexivity|eapply identity_binding_len; eassumption|reflexivity|assumption
      |reflexivity|lia|lia|split; discriminate].
  - apply (start_channel a b metadata (first_chain root') mm (pt_nonces alice) (pt_secret bob) (pt_kyber_seed bob));
      try assumption; eauto.
  - apply (start_channel b a metadata (second_chain root') mm (pt_nonces bob) (pt_secret alice) (pt_kyber_seed alice));
      try assumption; eauto.
Qed.

(** A state built from well-formed parts always starts a session. *)
Lemma initialize_total x sk :
  SessionInner.dh_private_handle x = Some (SecureMemoryHandle.mk sk) -> len sk = X25519_PRIVATE_KEY_BYTES ->
  len (SessionInner.pending_kyber_shared_secret x) = KYBER_SHARED_SECRET_BYTES ->
  len (ProtocolState.root_key (st x)) = ROOT_KEY_BYTES ->
  (exists pub, ProtocolState.dh_local (st x) =
     Some (DhKeyPair.mk (repeat 0 (Z.to_nat X25519_PRIVATE_KEY_BYTES)) pub)) ->
  validate_dh_public_key (ProtocolState.dh_remote_public (st x)) = Ok tt ->
  is_all_zero (x25519_dh sk (ProtocolState.dh_remote_public (st x))) = false ->
  exists s, initialize_from_handshake_inner x = (Ok tt, s).
Proof.
  intros Hd Hsk Hp Hr (pub & Hl) Hv Hz.
  assert (Hrl : len (ProtocolState.dh_remote_public (st x)) = X25519_PUBLIC_KEY_BYTES).
  { unfold validate_dh_public_key, DhValidator.validate_x25519_public_key in Hv. inv_ok. now bools. }
  unfold initialize_from_handshake_inner, guard_wiping, sbind, on_err, sget, sguard, slift, smod, sret, crypto_err, compute_dh.
  rewrite Hp, Hr, Hl, Hrl, Hv, Hd. run_res. cbn [orb].
  rewrite (SecureMemoryHandle.read_bytes_exact _ _ Hsk). run_res. rewrite Hsk, Hz. run_res. cbn [orb]. run_res.
  rewrite derive_key_bytes_ok by easy. rewrite kdf_len by easy. run_res.
  rewrite derive_key_bytes_ok by easy. rewrite kdf_len by easy. run_res.
  destruct (SessionInner.is_initiator x); cbn [negb]; eauto.
Qed.

Lemma party_session_total init root session metadata ss mm mn me peer pst :
  party_state init root session metadata mm mn me peer = Ok pst -> len ss = KYBER_SHARED_SECRET_BYTES ->
  validate_dh_public_key (x25519_public (pt_secret peer)) = Ok tt ->
  is_all_zero (x25519_dh (pt_secret me) (x25519_public (pt_secret peer))) = false ->
  exists s, from_handshake_state (mkHandshakeState pst ss) = Ok s.
Proof.
  intros Hst Hss Hv Hz. unfold party_state, build_protocol_state in Hst. inv_ok. bools.
  unfold from_handshake_state. cbn [hs_state hs_kyber_shared_secret ProtocolState.version]. run_res.
  unfold Session_new. erewrite take_dh_private_ok by (reflexivity || assumption). cbn [rbind].
  erewrite take_kyber_secret_ok by (reflexivity || assumption). cbn [rbind].
  match goal with |- context [initialize_from_handshake_inner ?x] =>
    destruct (initialize_total x (pt_secret me)) as [s' Hs'] end; try reflexivity; try assumption;
    [eexists; reflexivity|rewrite Hs'; eauto].
Qed.

(** C5. From the handshake on, a conversation of any length and any alternation
    of speakers, in which every message arrives before the next one is sent, is
    delivered completely and in order, through every ratchet step on the way.
    Both ends build their states from the same root key, session id, metadata
    key, Kyber secret and limits, each with its own secrets and the other's
    public keys. *)
Theorem handshake_conversation_delivered root session metadata ss mm mn alice bob a b ts :
  party_session true root session metadata ss mm mn alice bob = Ok a ->
  party_session false root session metadata ss mm mn bob alice = Ok b ->
  nonces_ok (pt_nonces alice) -> nonces_ok (pt_nonces bob) -> 0 <= mm -> 0 <= mn ->
  turns_ok ts a b ->
  exists a' b', converse ts a b = Some (map t_payload ts, a', b') /\ paired a' b'.
Proof. intros Ha Hb Na Nb H1 H2. apply converse_delivers. eapply start_paired; eassumption. Qed.

End Start.
