(* ===== verification/SessionExamples.v ===== *)
(** * Concrete runs of two sessions

    The conditions of the delivery theorems as boolean functions, a concrete
    conversation on the concrete primitives, and the instances of the theorems
    on it. *)

From Stdlib Require Import ZArith List Bool Lia String.
From S2P Require Import Prelude Constants BTree SecureMemory Crypto Toy Padding DhValidator Nonce Proto ToyCodec SessionState Session ToySession SessionPersist SessionChain SessionRecv SessionSend SessionInv SessionRun SessionSync SessionStart.
Import ListNotations.
Open Scope string_scope.
Open Scope list_scope.
Open Scope Z_scope.

(** ** The conditions, decided *)

Section Decide.
Context `{P : Primitives} {L : PrimitiveLaws P} {C : Prost EnvelopeMetadata}.

Definition is_okb {E A} (r : Result E A) : bool := match r with Ok _ => true | Err _ => false end.

Definition is_false (r : PResult bool) : bool := match r with Ok false => true | _ => false end.

Definition bytes_okb (l : bytes) : bool := forallb (fun x => (0 <=? x) && (x <? 256)) l.

Definition entropy_okb (ent : SendEntropy) : bool :=
  (len (e_x25519 ent) =? X25519_PRIVATE_KEY_BYTES) && (len (e_kem_keygen ent) =? 64) &&
  (len (e_nonce_prefix ent) =? NONCE_PREFIX_BYTES) && (len (e_header_nonce ent) =? AES_GCM_NONCE_BYTES) &&
  bytes_okb (e_nonce_prefix ent).

Definition rotates (a : SessionInner) : bool :=
  match send_ratchet_rotation_needed a with Ok b => b | Err _ => false end.

(** The message itself, the clocks and the counters. *)
Definition message_okb (a b : SessionInner) (t : Turn) : bool :=
  is_false (check_inner_expired (st a) (now_expiry (t_clock t))) &&
  is_false (check_inner_expired (st b) (now_expiry (t_peer_clock t))) &&
  is_okb (now_activity (t_clock t)) && is_okb (now_activity (t_peer_clock t)) &&
  match now_sent (t_clock t) with Ok n => n <? 2 ^ 63 | Err _ => false end &&
  (ProtocolState.total_messages_sent (st a) + 1 <? 2 ^ 64) &&
  (ProtocolState.total_messages_received (st b) + 1 <? 2 ^ 64) && (send_epoch a + 1 <? 2 ^ 64) &&
  bytes_okb (t_payload t) && (len (t_payload t) <=? MAX_BUFFER_SIZE) &&
  (- 2 ^ 31 <=? t_type t) && (t_type t <? 2 ^ 31) && (0 <=? t_id t) && (t_id t <? 2 ^ 32).

(** The key material. *)
Definition keys_okb (a b : SessionInner) (ent : SendEntropy) : bool :=
  entropy_okb ent && (rotates a || is_okb (load_nonce_generator (st a))) &&
  negb (is_all_zero (x25519_dh (e_x25519 ent) (ProtocolState.dh_remote_public (st a)))) &&
  is_okb (validate_dh_public_key (x25519_public (e_x25519 ent))) &&
  negb (forallb (fun x => x =? 0)
    (fst (mlkem_encapsulate (ProtocolState.kyber_remote_public (st a)) (e_kem_encapsulation ent)))) &&
  negb (forallb (fun x => x =? 0) (snd (mlkem_generate (e_kem_keygen ent)))) &&
  forallb (fun n => negb (bytes_eqb (firstn (Z.to_nat NONCE_PREFIX_BYTES) n) (e_nonce_prefix ent)))
    (SessionInner.seen_payload_nonces b).

Definition turn_okb (t : Turn) (a b : SessionInner) : bool :=
  let '(x, y) := if t_forward t then (a, b) else (b, a) in message_okb x y t && keys_okb x y (t_entropy t).

Fixpoint turns_okb (ts : list Turn) (a b : SessionInner) : bool :=
  match ts with
  | [] => true
  | t :: ts => turn_okb t a b &&
      match take_turn t a b with Some (_, a', b') => turns_okb ts a' b' | None => true end
  end.

(** The one condition that is about the codec: headers are short. *)
Definition header_short (t : Turn) : Prop :=
  forall i nonce, 0 <= i < MAX_MESSAGE_INDEX -> len nonce = AES_GCM_NONCE_BYTES ->
    len (encode (message_metadata i nonce (t_type t) (t_id t) (t_corr t))) < 2 ^ 32.

Lemma is_okb_true {E A} (r : Result E A) : is_okb r = true -> exists a, r = Ok a.
Proof. destruct r; [eauto|discriminate]. Qed.

Lemma is_false_true r : is_false r = true -> r = Ok false.
Proof. destruct r as [[]|]; [discriminate|reflexivity|discriminate]. Qed.

Lemma bytes_okb_true l : bytes_okb l = true -> bytes_ok l.
Proof.
  unfold bytes_okb. rewrite forallb_forall. intros H. apply Forall_forall. intros x Hx.
  specialize (H x Hx). bools. unfold in_range. lia.
Qed.

Lemma exchange_okb t a b :
  header_short t -> message_okb a b t = true -> keys_okb a b (t_entropy t) = true ->
  exchange_ok (t_payload t) (t_type t) (t_id t) (t_corr t) (t_clock t) (t_peer_clock t) (t_entropy t) a b.
Proof.
  intros Hh Hm Hk. unfold message_okb, keys_okb, entropy_okb in *.
  repeat match goal with H : _ && _ = true |- _ => apply andb_prop in H as [? ?] end.
  repeat match goal with
  | H : is_okb _ = true |- _ => apply is_okb_true in H as [? ?]
  | H : is_false _ = true |- _ => apply is_false_true in H
  | H : bytes_okb _ = true |- _ => apply bytes_okb_true in H
  end.
  destruct (now_sent (t_clock t)) as [n|] eqn:Hn; [|discriminate].
  repeat match goal with
  | H : negb _ = true |- _ => apply negb_true_iff in H
  | H : (_ <? _) = true |- _ => apply Z.ltb_lt in H
  | H : (_ <=? _) = true |- _ => apply Z.leb_le in H
  | H : (_ =? _) = true |- _ => apply Z.eqb_eq in H
  | x : unit |- _ => destruct x
  end.
  split; [|split].
  - constructor; try assumption; try (split; assumption); eauto.
    + split; [|assumption]. repeat (split; [assumption|]). assumption.
    + unfold rotates in *. match goal with H : _ || _ = true |- _ => apply orb_prop in H as [H|H] end.
      * left. destruct (send_ratchet_rotation_needed a) as [[]|]; [reflexivity|discriminate..].
      * right. now apply is_okb_true.
  - constructor; [assumption|eauto|assumption].
  - intros _. constructor; try assumption. intros m Hm E.
    match goal with H : forallb _ (SessionInner.seen_payload_nonces b) = true |- _ =>
      rewrite forallb_forall in H; specialize (H m Hm) end.
    rewrite E, bytes_eqb_refl in *. discriminate.
Qed.

Lemma turns_okb_true ts : forall a b,
  Forall header_short ts -> turns_okb ts a b = true -> turns_ok ts a b.
Proof.
  induction ts as [|t ts IH]; intros a b Hh H; [exact I|]. cbn [turns_okb turns_ok] in *.
  inversion Hh as [|? ? Ht Hts]; subst. apply andb_prop in H as [H1 H2]. split.
  - unfold turn_okb in H1. unfold turn_ok. destruct (t_forward t); apply andb_prop in H1 as [? ?];
      now apply exchange_okb.
  - destruct (take_turn t a b) as [[[p a'] b']|]; [now apply IH|exact I].
Qed.

End Decide.

(** ** The concrete parties *)

Definition toy_party (me : Z) : Party :=
  mkParty (toy_bytes me 32) (toy_bytes me 64) (toy_bytes (me + 60) 32) (x25519_public (toy_bytes (me + 70) 32))
    (mkNonceState (toy_bytes (me + 50) 8) 0) 1000.

Definition toy_turn (forward : bool) (payload : bytes) (id seed : Z) : Turn :=
  mkTurn forward payload 0 id None toy_clock toy_clock (toy_entropy seed).

(** Both directions, several ratchet steps, an empty payload. *)
Definition toy_turns : list Turn :=
  [toy_turn true [1; 2; 3] 1 30; toy_turn true [] 2 40; toy_turn false [4] 3 50; toy_turn true [5; 6] 4 60;
   toy_turn false [7] 5 70; toy_turn false [8] 6 80].

Definition toy_party_session (initiator : bool) (me peer : Z) : PResult SessionInner :=
  party_session initiator (toy_bytes 1 32) (toy_bytes 2 16) (toy_bytes 3 32) (toy_bytes 4 32) 100 1000
    (toy_party me) (toy_party peer).

Lemma enc_index_short i : 0 <= i < MAX_MESSAGE_INDEX -> len (enc i) <= 65536.
Proof.
  unfold MAX_MESSAGE_INDEX. intros H. destruct i as [|p|p]; cbn [enc codec_Z enc_Z]; [easy| |lia].
  rewrite len_cons. pose proof (enc_pos_len p). lia.
Qed.

Definition toy_small (id : Z) : Prop := len (enc id) <= 100.

Lemma toy_header_short forward payload id seed : toy_small id -> header_short (toy_turn forward payload id seed).
Proof.
  intros Hs i nonce Hi Hn. pose proof (enc_index_short i Hi) as Hl. unfold toy_small in Hs.
  cbn [toy_turn t_type t_id t_corr]. unfold message_metadata.
  change (len (enc i ++ ((enc (len nonce) ++ nonce) ++ ([0] ++ (enc id ++ [0])))) < 2 ^ 32).
  rewrite Hn. autorewrite with lens. unfold AES_GCM_NONCE_BYTES in *. cbn [enc codec_Z enc_Z enc_pos]. rewrite !len_cons, !len_nil. unfold enc, codec_Z in Hl, Hs. lia.
Qed.

Lemma toy_turns_ok : turns_ok toy_turns toy_alice toy_bob.
Proof.
  apply turns_okb_true; [repeat (constructor; [apply toy_header_short; discriminate|]); constructor|].
  vm_compute. reflexivity.
Qed.

Lemma toy_nonces_ok me : nonces_ok (pt_nonces (toy_party me)).
Proof.
  unfold nonces_ok, toy_party. cbn [pt_nonces ns_prefix ns_counter]. split; [|split].
  - unfold toy_bytes. unfold len. rewrite length_map. reflexivity.
  - unfold toy_bytes. apply Forall_forall. intros x Hx. apply in_map_iff in Hx as (i & <- & _).
    pose proof (Z.mod_pos_bound ((me + 50) * 7 + i) 100). unfold in_range. lia.
  - unfold MAX_NONCE_COUNTER. lia.
Qed.

Lemma handshake_conversation_delivered_witness :
  exists a' b', converse toy_turns toy_alice toy_bob = Some (map t_payload toy_turns, a', b') /\ paired a' b'.
Proof.
  apply (handshake_conversation_delivered (toy_bytes 1 32) (toy_bytes 2 16) (toy_bytes 3 32) (toy_bytes 4 32)
           100 1000 (toy_party 10) (toy_party 20)).
  - vm_compute. reflexivity.
  - vm_compute. reflexivity.
  - apply toy_nonces_ok.
  - apply toy_nonces_ok.
  - discriminate.
  - discriminate.
  - exact toy_turns_ok.
Defined.

Lemma toy_paired : paired toy_alice toy_bob.
Proof.
  apply (start_paired (toy_bytes 1 32) (toy_bytes 2 16) (toy_bytes 3 32) (toy_bytes 4 32)
           100 1000 (toy_party 10) (toy_party 20)).
  - vm_compute. reflexivity.
  - vm_compute. reflexivity.
  - apply toy_nonces_ok.
  - apply toy_nonces_ok.
  - discriminate.
  - discriminate.
Qed.

Lemma message_roundtrip_witness :
  exists a' b', delivered [1; 2; 3] 0 1 None toy_clock toy_clock (toy_entropy 30) toy_alice toy_bob a' b'.
Proof.
  apply message_roundtrip; [exact toy_paired|].
  apply (exchange_okb (toy_turn true [1; 2; 3] 1 30)); [apply toy_header_short; discriminate|vm_compute; reflexivity..].
Defined.

(** ** Failures *)

(** A message the responder has read: its next message ratchets. *)
Definition toy_env1 : SecureEnvelope := fst (toy_encrypt [1; 2; 3] 30 toy_alice).
Definition toy_bob1 : SessionInner := snd (toy_decrypt toy_env1 toy_bob).

(** The clock fails when the message has been sealed. *)
Definition toy_bad_clock : Clock := mkClock (Ok 2000) (Ok 2000) (Err (ProtocolError.generic "clock")).

Definition error_of {A} (r : PResult A) : ProtocolError.t := match r with Ok _ => ProtocolError.generic "" | Err e => e end.

Lemma encrypt_failure_is_noop_witness :
  send_ratchet_rotation_needed toy_bob1 = Ok true /\
  let r := encrypt [4] 0 1 None toy_bad_clock (toy_entropy 40) toy_bob1 in
  is_okb (fst r) = false /\ forget_calls (snd r) = forget_calls toy_bob1.
Proof.
  split; [vm_compute; reflexivity|]. cbv zeta. split; [vm_compute; reflexivity|].
  apply (encrypt_failure_is_noop [4] 0 1 None toy_bad_clock (toy_entropy 40) toy_bob1
    (error_of (fst (encrypt [4] 0 1 None toy_bad_clock (toy_entropy 40) toy_bob1)))).
  - split; vm_compute; reflexivity.
  - vm_compute. reflexivity.
Defined.

Definition tamper (env : SecureEnvelope) : SecureEnvelope :=
  SecureEnvelope.set_encrypted_payload (map (fun x => (x + 1) mod 256) (SecureEnvelope.encrypted_payload env)) env.

(** [n] cached keys of epoch [0], from index [i]. *)
Fixpoint old_keys (n : nat) (i : Z) : BTreeMap.t (Z * Z) bytes :=
  match n with O => [] | S n => ((0, i), [i]) :: old_keys n (i + 1) end.

Lemma old_keys_above n : forall i j, i < j -> BTreeMap.above (0, i) (old_keys n j).
Proof.
  induction n as [|n IH]; intros i j H; cbn [old_keys]; [constructor|].
  constructor; [cbn; apply Z.ltb_lt; exact H|]. apply IH. lia.
Qed.

Lemma old_keys_sorted n : forall i, BTreeMap.sorted (old_keys n i).
Proof.
  induction n as [|n IH]; intros i; cbn [old_keys]; constructor; [apply old_keys_above; lia|apply IH].
Qed.

Lemma old_keys_epoch n : forall i e j k, BTreeMap.get (old_keys n i) (e, j) = Some k -> e = 0.
Proof.
  intros i e j k H. apply BTreeMap.get_In in H. revert i H.
  induction n as [|n IH]; intros i H; cbn [old_keys] in H; [easy|].
  destruct H as [H|H]; [now inversion H|eauto].
Qed.

(** The responder in epoch [1] with a full cache of keys of epoch [0], and the
    initiator in step with it. *)
Definition full_bob : SessionInner :=
  SessionInner.set_skipped_message_keys (old_keys 1000 0)
    (upd_state (ProtocolState.set_recv_ratchet_epoch 1) toy_bob).
Definition full_alice : SessionInner := upd_state (ProtocolState.set_send_ratchet_epoch 1) toy_alice.

(** The second message, tampered with; the first one has not arrived. *)
Definition tampered : SecureEnvelope := tamper (fst (toy_encrypt [2] 40 (snd (toy_encrypt [1] 30 full_alice)))).

Definition after_tampered : SessionInner := snd (decrypt tampered toy_clock full_bob).

Lemma full_bob_inv : cache_inv full_bob.
Proof.
  constructor.
  - apply old_keys_sorted.
  - vm_compute. discriminate.
  - intros e i k H. apply old_keys_epoch in H. subst e. left. vm_compute. reflexivity.
  - exact (BTreeMap.sorted_nil).
  - vm_compute. discriminate.
  - unfold seen_inv.
    replace (SessionInner.seen_payload_nonces full_bob) with (@nil bytes) by (vm_compute; reflexivity).
    replace (SessionInner.seen_payload_nonce_order full_bob) with (@nil bytes) by (vm_compute; reflexivity).
    split; [split; [constructor|easy]|easy].
Qed.

(** The rejected envelope costs the receiver the oldest cached key. *)
Lemma decrypt_failure_effect_witness :
  is_okb (fst (decrypt tampered toy_clock full_bob)) = false /\
  BTreeMap.get (SessionInner.skipped_message_keys full_bob) (0, 0) = Some [0] /\
  BTreeMap.get (SessionInner.skipped_message_keys after_tampered) (0, 0) = None /\
  (after_tampered = full_bob \/ (has_ratchet_header tampered = false /\ only_evicted full_bob after_tampered)).
Proof.
  split; [vm_compute; reflexivity|]. split; [vm_compute; reflexivity|]. split; [vm_compute; reflexivity|].
  apply (decrypt_failure_effect tampered toy_clock full_bob (error_of (fst (decrypt tampered toy_clock full_bob)))).
  - exact full_bob_inv.
  - vm_compute. reflexivity.
Defined.

(** ** Histories *)

(** The responder's side of a history: it reads two messages in the wrong order,
    is offered both again, sends (with a ratchet step), has its clock fail once
    and sends again. *)
Definition toy_env2 : SecureEnvelope := fst (toy_encrypt [4; 5] 32 (snd (toy_encrypt [1; 2; 3] 30 toy_alice))).

Definition toy_bob_hs : HandshakeState := unwrap_or (toy_handshake false 20 10) (mkHandshakeState no_state []).

Definition toy_history : list Op :=
  [op_decrypt toy_env2 toy_clock; op_decrypt toy_env1 toy_clock; op_decrypt toy_env1 toy_clock;
   op_decrypt toy_env2 toy_clock; op_encrypt [6] 0 1 None toy_clock (toy_entropy 50);
   op_encrypt [7] 0 2 None toy_bad_clock (toy_entropy 60); op_encrypt [8] 0 3 None toy_clock (toy_entropy 70)].

Definition toy_run : list Event * SessionInner := run toy_history toy_bob.

Lemma toy_bob_hs_ok : from_handshake_state toy_bob_hs = Ok toy_bob.
Proof. vm_compute. reflexivity. Qed.

Lemma toy_run_eq : run toy_history toy_bob = (fst toy_run, snd toy_run).
Proof. unfold toy_run. exact (surjective_pairing (run toy_history toy_bob)). Qed.

Lemma session_accepts_once_witness :
  accepted (fst toy_run) = [(0, 1); (0, 0)] /\ NoDup (accepted (fst toy_run)).
Proof.
  split; [vm_compute; reflexivity|].
  apply (session_accepts_once toy_bob_hs toy_history toy_bob (fst toy_run) (snd toy_run)).
  - exact toy_bob_hs_ok.
  - exact toy_run_eq.
Defined.

Lemma session_sends_once_witness :
  sent (fst toy_run) = [(1, 0); (1, 1)] /\ NoDup (sent (fst toy_run)).
Proof.
  split; [vm_compute; reflexivity|].
  apply (session_sends_once toy_bob_hs toy_history toy_bob (fst toy_run) (snd toy_run)).
  - exact toy_bob_hs_ok.
  - exact toy_run_eq.
Defined.

Lemma session_caches_bounded_witness :
  len (SessionInner.skipped_message_keys (snd toy_run)) <= MAX_SKIPPED_MESSAGE_KEYS.
Proof.
  exact (proj1 (session_caches_bounded toy_bob_hs toy_history toy_bob (fst toy_run) (snd toy_run)
    toy_bob_hs_ok toy_run_eq)).
Defined.

(** ** Crossing ratchet steps *)

(** Each end has read a message of the other, so the next message of each end
    is a ratchet step; the two envelopes cross. *)
Definition cross_reads : list Op := [op_decrypt (fst (toy_encrypt [2] 31 toy_bob)) toy_clock].
Definition cross_ops : list Op :=
  op_encrypt [1] 0 1 None toy_clock (toy_entropy 30) :: cross_reads ++
  [op_encrypt [3] 0 1 None toy_clock (toy_entropy 40)].

Definition cross_alice : SessionInner := snd (run cross_ops toy_alice).
Definition cross_bob : SessionInner :=
  snd (toy_encrypt [4] 50 (snd (toy_decrypt (fst (toy_encrypt [1] 30 toy_alice)) (snd (toy_encrypt [2] 31 toy_bob))))).

(** The crossing envelopes. *)
Definition cross_to_bob : SecureEnvelope := nth 1 (produced cross_ops toy_alice) no_envelope.
Definition cross_to_alice : SecureEnvelope :=
  fst (toy_encrypt [4] 50 (snd (toy_decrypt (fst (toy_encrypt [1] 30 toy_alice)) (snd (toy_encrypt [2] 31 toy_bob))))).

(** What the initiator sends afterwards. *)
Definition cross_later : SecureEnvelope := fst (toy_encrypt [5] 60 cross_alice).

Lemma cross_alice_inv : cache_inv cross_alice.
Proof.
  destruct (run cross_ops toy_alice) as [evs s] eqn:Hr.
  destruct (run_recv _ [] _ _ _ (from_handshake_inv _ _ toy_alice_hs_ok) (spent_nil toy_alice) Hr) as (I & _).
  unfold cross_alice. rewrite Hr. exact I.
Qed.

Definition cross_more : list Op := [op_encrypt [5] 0 1 None toy_clock (toy_entropy 60)].

Lemma cross_produced : produced cross_more cross_alice = [cross_later].
Proof. vm_compute. reflexivity. Qed.

(** Neither end can read the other's ratchet envelope, and the responder
    refuses what the initiator sends afterwards. *)
Lemma lost_ratchet_blocks_direction_witness :
  is_okb (fst (decrypt cross_to_bob toy_clock cross_bob)) = false /\
  is_okb (fst (decrypt cross_to_alice toy_clock cross_alice)) = false /\
  exists e, decrypt cross_later toy_clock cross_bob = (Err e, cross_bob).
Proof.
  split; [vm_compute; reflexivity|]. split; [vm_compute; reflexivity|].
  apply (lost_ratchet_blocks_direction cross_more cross_alice).
  - exact cross_alice_inv.
  - vm_compute. reflexivity.
  - rewrite cross_produced. left. reflexivity.
Defined.
