(* ===== verification/SessionSeal.v ===== *)
(** * Saving, restoring and destroying a session

    A session whose fields pass the tests of the import is exported, sealed
    under a key-encryption key and an external counter, and restored.  The
    restored session is the exported one without its event handler, and takes
    its place beside the peer.  A destroyed session holds no secret and refuses
    every operation from then on. *)

From Stdlib Require Import ZArith List Bool Lia String.
From S2P Require Import Prelude Constants BTree SeenSet SecureMemory Crypto Toy Nonce Proto ToyCodec SessionState.
From S2P Require Import Session ToySession SessionPersist SessionChain SessionRecv SessionSend SessionInv SessionRun.
From S2P Require Import SessionSync SessionStart.
Import ListNotations.
Open Scope string_scope.
Open Scope list_scope.
Open Scope Z_scope.

(** ** The caches survive serialisation *)

Definition skipped_entry_ok (epoch : Z) (e : Z * Z * bytes) : Prop :=
  len (snd e) = MESSAGE_KEY_BYTES /\ snd (fst e) <= MAX_MESSAGE_INDEX /\ fst (fst e) <= epoch.

Lemma load_skipped_entries epoch m : forall acc,
  BTreeMap.sorted (acc ++ m) -> Forall (skipped_entry_ok epoch) m ->
  foldR (load_skipped_entry epoch)
    (map (fun e => CachedMessageKey.mk (snd (fst e)) (snd e) (fst (fst e))) m) acc = Ok (acc ++ m).
Proof.
  induction m as [|[[e i] k] m IH]; intros acc Hs Hf; cbn [map foldR]; [now rewrite app_nil_r|].
  inversion Hf as [|? ? (H1 & H2 & H3) Hm]; subst. cbn [fst snd] in *.
  pose proof (BTreeMap.sorted_snoc _ _ _ _ Hs) as Hb.
  unfold load_skipped_entry at 1. cbn. rewrite H1, Z.eqb_refl. cbn.
  rewrite !(proj2 (Z.ltb_ge _ _)) by assumption. cbn.
  unfold BTreeMap.contains_key. rewrite (BTreeMap.get_below _ _ Hb). cbn.
  rewrite (BTreeMap.insert_last _ _ _ Hb), (IH (acc ++ [(e, i, k)])), <- app_assoc; auto. now rewrite <- app_assoc.
Qed.

Lemma load_metadata_entries epoch m : forall acc,
  BTreeMap.sorted (acc ++ m) ->
  Forall (fun e => len (snd e) = METADATA_KEY_BYTES /\ fst e <= epoch) m ->
  foldR (load_metadata_entry epoch) (map (fun e => CachedMetadataKey.mk (fst e) (snd e)) m) acc = Ok (acc ++ m).
Proof.
  induction m as [|[e k] m IH]; intros acc Hs Hf; cbn [map foldR]; [now rewrite app_nil_r|].
  inversion Hf as [|? ? (H1 & H2) Hm]; subst. cbn [fst snd] in *.
  pose proof (BTreeMap.sorted_snoc _ _ _ _ Hs) as Hb.
  unfold load_metadata_entry at 1. cbn. rewrite H1, Z.eqb_refl. cbn.
  rewrite (proj2 (Z.ltb_ge _ _)) by assumption. cbn.
  unfold BTreeMap.contains_key. rewrite (BTreeMap.get_below _ _ Hb). cbn.
  rewrite (BTreeMap.insert_last _ _ _ Hb), (IH (acc ++ [(e, k)])), <- app_assoc; auto. now rewrite <- app_assoc.
Qed.

Lemma rebuild_seen l : forall acc,
  NoDup (acc ++ l) -> len (acc ++ l) <= MAX_SEEN_NONCES -> Forall (fun n => len n = AES_GCM_NONCE_BYTES) l ->
  foldR seen_cache_step l (rev acc, acc) = Ok (rev (acc ++ l), acc ++ l).
Proof.
  induction l as [|n l IH]; intros acc Hd Hl Hf; cbn [foldR]; [now rewrite app_nil_r|].
  inversion Hf as [|? ? Hn Hfl]; subst. unfold seen_cache_step at 1, payload_nonce_to_array.
  rewrite Hn, Z.eqb_refl. cbn [ensure rbind].
  assert (E : bset_contains (rev acc) n = false).
  { apply bset_contains_not. rewrite <- in_rev. apply NoDup_remove_2 in Hd. intros H. apply Hd, in_or_app. now left. }
  rewrite E. cbn [rbind]. change (n :: rev acc) with ([n] ++ rev acc).
  replace ([n] ++ rev acc) with (rev (acc ++ [n])) by (now rewrite rev_app_distr).
  autorewrite with lens in Hl. unfold prune_seen_nonces. rewrite prune_recent_fits by (autorewrite with lens; pose proof (len_nonneg l); lia). cbn [rbind].
  rewrite IH, <- app_assoc; auto; rewrite <- app_assoc; cbn [app]; [assumption|autorewrite with lens; lia].
Qed.

Section Seal.
Context `{P : Primitives} {L : PrimitiveLaws P} {C : Prost EnvelopeMetadata} {CL : ProstLaws EnvelopeMetadata metadata_wf}.
Context {CS : Prost ProtocolState} {CSL : ProstLaws ProtocolState (fun s => state_wf s = true)}.
Context {CZ : Prost SealedState.t} {CZL : ProstLaws SealedState.t (fun s => sealed_wf s = true)}.

(** The state with the secrets of the handles in their fields. *)
Definition with_secrets (dh : DhKeyPair.t) (kyber : KyberKeyPair.t) (s : ProtocolState) : ProtocolState :=
  ProtocolState.set_kyber_local (Some kyber) (ProtocolState.set_dh_local (Some dh) s).

(** A live session that the tests of the import let through. *)
Record importable (s : SessionInner) (dh : DhKeyPair.t) (kyber : KyberKeyPair.t) : Prop := {
  im_version : ProtocolState.version (st s) = PROTOCOL_VERSION;
  im_counter : 0 <= ProtocolState.state_counter (st s);
  im_sizes : sizes_ok [(ProtocolState.session_id (st s), SESSION_ID_BYTES);
                       (ProtocolState.root_key (st s), ROOT_KEY_BYTES);
                       (ProtocolState.metadata_key (st s), METADATA_KEY_BYTES);
                       (ProtocolState.send_metadata_key (st s), METADATA_KEY_BYTES)] = true;
  im_dh : exists old, ProtocolState.dh_local (st s) = Some (DhKeyPair.mk old (DhKeyPair.public_key dh));
  im_dh_handle : SessionInner.dh_private_handle s = Some (SecureMemoryHandle.mk (DhKeyPair.private_key dh));
  im_kyber : exists old, ProtocolState.kyber_local (st s) = Some (KyberKeyPair.mk old (KyberKeyPair.public_key kyber));
  im_kyber_handle : SessionInner.kyber_secret_handle s = Some (SecureMemoryHandle.mk (KyberKeyPair.secret_key kyber));
  im_material : check_state_material (with_secrets dh kyber (st s)) = Ok tt;
  im_identity : check_state_identity (st s) = Ok tt;
  im_skipped_sorted : BTreeMap.sorted (SessionInner.skipped_message_keys s);
  im_skipped_len : len (SessionInner.skipped_message_keys s) <= MAX_SKIPPED_MESSAGE_KEYS;
  im_skipped : Forall (skipped_entry_ok (recv_epoch s)) (SessionInner.skipped_message_keys s);
  im_cached_sorted : BTreeMap.sorted (SessionInner.cached_metadata_keys s);
  im_cached_len : len (SessionInner.cached_metadata_keys s) <= MAX_CACHED_METADATA_KEYS;
  im_cached : Forall (fun e => len (snd e) = METADATA_KEY_BYTES /\ fst e <= recv_epoch s)
                (SessionInner.cached_metadata_keys s);
  im_seen : seen_inv s;
  im_seen_len : Forall (fun n => len n = AES_GCM_NONCE_BYTES) (SessionInner.seen_payload_nonce_order s) }.

(** The image of a session that is written out, with generation [n]. *)
Definition image (s : SessionInner) (dh : DhKeyPair.t) (kyber : KyberKeyPair.t) (n : Z) : ProtocolState :=
  ProtocolState.set_cached_metadata_keys
    (map (fun e => CachedMetadataKey.mk (fst e) (snd e)) (SessionInner.cached_metadata_keys s))
    (ProtocolState.set_skipped_keys
       (map (fun e => CachedMessageKey.mk (snd (fst e)) (snd e) (fst (fst e))) (SessionInner.skipped_message_keys s))
       (ProtocolState.set_seen_payload_nonces (SessionInner.seen_payload_nonce_order s)
          (ProtocolState.set_replay_epoch (SessionInner.replay_epoch s)
             (with_secrets dh kyber
                (ProtocolState.set_state_hmac []
                   (ProtocolState.set_state_counter n
                      (ProtocolState.set_recv_chain (clear_chain (ProtocolState.recv_chain (st s)))
                         (ProtocolState.set_send_chain (clear_chain (ProtocolState.send_chain (st s))) (st s))))))))).

(** The session an image is read back as. *)
Definition zeroed_state (dh : DhKeyPair.t) (kyber : KyberKeyPair.t) (img : ProtocolState) : ProtocolState :=
  with_secrets (DhKeyPair.mk (repeat 0 (Z.to_nat X25519_PRIVATE_KEY_BYTES)) (DhKeyPair.public_key dh))
    (KyberKeyPair.mk (repeat 0 (Z.to_nat KYBER_SECRET_KEY_BYTES)) (KyberKeyPair.public_key kyber)) (sanitize img).

Definition reopened (s : SessionInner) (dh : DhKeyPair.t) (kyber : KyberKeyPair.t) (img : ProtocolState) : SessionInner :=
  SessionInner.mk (zeroed_state dh kyber img) [] (SessionInner.skipped_message_keys s)
    (SessionInner.cached_metadata_keys s) (SessionInner.replay_epoch s)
    (rev (SessionInner.seen_payload_nonce_order s)) (SessionInner.seen_payload_nonce_order s)
    (ProtocolState.is_initiator (st s)) (SessionInner.dh_private_handle s) (SessionInner.kyber_secret_handle s)
    (ProtocolState.send_ratchet_pending (st s)) false 0 [].

(** *** What the tests say *)

Lemma material_sizes stt dh kyber :
  ProtocolState.dh_local stt = Some dh -> ProtocolState.kyber_local stt = Some kyber ->
  check_state_material stt = Ok tt ->
  len (DhKeyPair.private_key dh) = X25519_PRIVATE_KEY_BYTES /\
  len (KyberKeyPair.secret_key kyber) = KYBER_SECRET_KEY_BYTES /\
  exists sc rc, ProtocolState.send_chain stt = Some sc /\ ProtocolState.recv_chain stt = Some rc.
Proof.
  intros Hd Hk H. unfold check_state_material in H. rewrite Hd, Hk in H. inv_ok. unfold sizes_ok in *. cbn in *. bools.
  eauto 8.
Qed.

Lemma put_dh_private_ok s copy old dh :
  ProtocolState.dh_local copy = Some (DhKeyPair.mk old (DhKeyPair.public_key dh)) ->
  SessionInner.dh_private_handle s = Some (SecureMemoryHandle.mk (DhKeyPair.private_key dh)) ->
  len (DhKeyPair.private_key dh) = X25519_PRIVATE_KEY_BYTES ->
  put_dh_private s copy = Ok (ProtocolState.set_dh_local (Some dh) copy).
Proof.
  intros Hd Hh Hl. unfold put_dh_private, crypto_err. rewrite Hd, Hh, SecureMemoryHandle.read_bytes_exact by assumption.
  destruct dh. reflexivity.
Qed.

Lemma put_kyber_secret_ok s copy old kyber :
  ProtocolState.kyber_local copy = Some (KyberKeyPair.mk old (KyberKeyPair.public_key kyber)) ->
  SessionInner.kyber_secret_handle s = Some (SecureMemoryHandle.mk (KyberKeyPair.secret_key kyber)) ->
  len (KyberKeyPair.secret_key kyber) = KYBER_SECRET_KEY_BYTES ->
  put_kyber_secret s copy = Ok (ProtocolState.set_kyber_local (Some kyber) copy).
Proof.
  intros Hd Hh Hl. unfold put_kyber_secret, crypto_err. rewrite Hd, Hh, SecureMemoryHandle.read_bytes_exact by assumption.
  destruct kyber. reflexivity.
Qed.

Lemma export_copy_image s dh kyber n : importable s dh kyber -> export_copy s n = Ok (image s dh kyber n).
Proof.
  intros I. destruct (material_sizes (with_secrets dh kyber (st s)) dh kyber eq_refl eq_refl (im_material _ _ _ I)) as (Hsk & Hksk & _).
  destruct (im_dh _ _ _ I) as [d0 Hd]. destruct (im_kyber _ _ _ I) as [k0 Hk].
  unfold export_copy. rewrite (put_dh_private_ok _ _ d0 dh); [|exact Hd|apply I|assumption]. cbn [rbind].
  rewrite (put_kyber_secret_ok _ _ k0 kyber); [|exact Hk|apply I|assumption]. cbn [rbind].
  reflexivity.
Qed.

(** *** Reading an image back *)

Lemma image_material s dh kyber n :
  check_state_material (image s dh kyber n) = check_state_material (with_secrets dh kyber (st s)).
Proof.
  unfold check_state_material, image, with_secrets. cbn.
  destruct (ProtocolState.send_chain (st s)) as [[]|], (ProtocolState.recv_chain (st s)) as [[]|]; reflexivity.
Qed.

Lemma image_identity s dh kyber n : check_state_identity (image s dh kyber n) = check_state_identity (st s).
Proof. reflexivity. Qed.

Lemma image_hmac s dh kyber n h :
  ProtocolState.set_state_hmac [] (ProtocolState.set_state_hmac h (image s dh kyber n)) = image s dh kyber n.
Proof.
  assert (E : ProtocolState.state_hmac (image s dh kyber n) = []) by reflexivity.
  destruct (image s dh kyber n). cbn in *. now subst.
Qed.

Lemma state_hmac_ok s dh kyber n h :
  n <> 0 -> compute_state_hmac (ProtocolState.root_key (st s)) (encode (image s dh kyber n)) = Ok h ->
  verify_state_hmac (ProtocolState.set_state_hmac h (image s dh kyber n)) = Ok (image s dh kyber n).
Proof.
  intros Hn Hh. assert (Hl : len h = HMAC_BYTES).
  { unfold compute_state_hmac in Hh. inv_ok. apply hmac_sha256_len. }
  unfold verify_state_hmac. rewrite image_hmac.
  change (ProtocolState.state_hmac (ProtocolState.set_state_hmac h (image s dh kyber n))) with h.
  change (ProtocolState.state_counter (ProtocolState.set_state_hmac h (image s dh kyber n))) with n.
  change (ProtocolState.root_key (image s dh kyber n)) with (ProtocolState.root_key (st s)).
  rewrite Hl, Z.eqb_refl, (proj2 (Z.eqb_neq n 0)) by assumption. cbn [ensure rbind negb].
  rewrite Hh. cbn [rbind]. unfold crypto_err. rewrite constant_time_equals_spec, bytes_eqb_refl. reflexivity.
Qed.

Lemma image_skipped s dh kyber n rc :
  importable s dh kyber -> ProtocolState.recv_chain (st s) = Some rc ->
  load_skipped (image s dh kyber n) (ChainState.set_skipped_message_keys [] rc) =
  Ok (SessionInner.skipped_message_keys s).
Proof.
  intros I Hrc. unfold load_skipped.
  change (ProtocolState.recv_ratchet_epoch (image s dh kyber n)) with (recv_epoch s).
  change (ProtocolState.skipped_keys (image s dh kyber n)) with
    (map (fun e => CachedMessageKey.mk (snd (fst e)) (snd e) (fst (fst e))) (SessionInner.skipped_message_keys s)).
  autorewrite with lens. rewrite (proj2 (Z.ltb_ge _ _)) by apply I. cbn [negb ensure rbind].
  rewrite (load_skipped_entries _ _ BTreeMap.empty); [|apply I|apply I]. cbn [rbind app BTreeMap.empty].
  now rewrite andb_false_r.
Qed.

Lemma image_cached s dh kyber n :
  importable s dh kyber -> load_cached_metadata (image s dh kyber n) = Ok (SessionInner.cached_metadata_keys s).
Proof.
  intros I. unfold load_cached_metadata.
  change (ProtocolState.recv_ratchet_epoch (image s dh kyber n)) with (recv_epoch s).
  change (ProtocolState.cached_metadata_keys (image s dh kyber n)) with
    (map (fun e => CachedMetadataKey.mk (fst e) (snd e)) (SessionInner.cached_metadata_keys s)).
  autorewrite with lens. rewrite (proj2 (Z.ltb_ge _ _)) by apply I. cbn [negb ensure rbind].
  apply (load_metadata_entries _ _ BTreeMap.empty); apply I.
Qed.

Lemma image_handles s dh kyber n :
  importable s dh kyber ->
  take_dh_private (sanitize (image s dh kyber n)) =
    Ok (SessionInner.dh_private_handle s,
        ProtocolState.set_dh_local
          (Some (DhKeyPair.mk (repeat 0 (Z.to_nat X25519_PRIVATE_KEY_BYTES)) (DhKeyPair.public_key dh)))
          (sanitize (image s dh kyber n))) /\
  forall dhp, take_kyber_secret (ProtocolState.set_dh_local dhp (sanitize (image s dh kyber n))) =
    Ok (SessionInner.kyber_secret_handle s,
        ProtocolState.set_kyber_local
          (Some (KyberKeyPair.mk (repeat 0 (Z.to_nat KYBER_SECRET_KEY_BYTES)) (KyberKeyPair.public_key kyber)))
          (ProtocolState.set_dh_local dhp (sanitize (image s dh kyber n)))).
Proof.
  intros I. destruct (material_sizes (with_secrets dh kyber (st s)) dh kyber eq_refl eq_refl (im_material _ _ _ I))
    as (Hsk & Hksk & _).
  rewrite (im_dh_handle _ _ _ I), (im_kyber_handle _ _ _ I). destruct dh as [sk pk], kyber as [ksk kpk]. split.
  - apply take_dh_private_ok; [reflexivity|assumption].
  - intros dhp. apply take_kyber_secret_ok; [reflexivity|assumption].
Qed.

(** The fields of an image the import reads. *)
Definition image_reads (s : SessionInner) (img : ProtocolState) (sc rc : option ChainState.t) : Prop :=
  ProtocolState.version img = ProtocolState.version (st s) /\
  ProtocolState.session_id img = ProtocolState.session_id (st s) /\
  ProtocolState.root_key img = ProtocolState.root_key (st s) /\
  ProtocolState.metadata_key img = ProtocolState.metadata_key (st s) /\
  ProtocolState.send_metadata_key img = ProtocolState.send_metadata_key (st s) /\
  ProtocolState.send_chain img = clear_chain sc /\ ProtocolState.recv_chain img = clear_chain rc /\
  ProtocolState.seen_payload_nonces img = SessionInner.seen_payload_nonce_order s /\
  ProtocolState.replay_epoch img = SessionInner.replay_epoch s /\
  ProtocolState.is_initiator img = ProtocolState.is_initiator (st s) /\
  ProtocolState.send_ratchet_pending img = ProtocolState.send_ratchet_pending (st s).

Lemma image_fields s dh kyber n :
  image_reads s (image s dh kyber n) (ProtocolState.send_chain (st s)) (ProtocolState.recv_chain (st s)).
Proof. unfold image_reads. do 10 (split; [reflexivity|]). reflexivity. Qed.

(** The import, given what its steps return. *)
Lemma from_state_steps raw img sc rc sk ck seen order dhh z1 kyh z2 :
  ProtocolState.version raw = PROTOCOL_VERSION ->
  sizes_ok [(ProtocolState.session_id raw, SESSION_ID_BYTES); (ProtocolState.root_key raw, ROOT_KEY_BYTES);
            (ProtocolState.metadata_key raw, METADATA_KEY_BYTES);
            (ProtocolState.send_metadata_key raw, METADATA_KEY_BYTES)] = true ->
  verify_state_hmac raw = Ok img -> check_state_material img = Ok tt -> check_state_identity img = Ok tt ->
  ProtocolState.send_chain img = Some sc -> ChainState.skipped_message_keys sc = [] ->
  ProtocolState.recv_chain img = Some rc -> load_skipped img rc = Ok sk -> load_cached_metadata img = Ok ck ->
  rebuild_seen_payload_nonce_cache (ProtocolState.seen_payload_nonces img) = Ok (seen, order) ->
  take_dh_private (sanitize img) = Ok (dhh, z1) -> take_kyber_secret z1 = Ok (kyh, z2) ->
  from_state_internal raw =
  Ok (SessionInner.mk z2 [] sk ck (ProtocolState.replay_epoch img) seen order (ProtocolState.is_initiator z2) dhh kyh
        (ProtocolState.send_ratchet_pending z2) false 0 []).
Proof.
  intros H1 H2 H3 H4 H5 H6 H7 H8 H9 H10 H11 H12 H13. unfold from_state_internal. rewrite H1, Z.eqb_refl. cbn [ensure rbind].
  assert (Hne : exists b l, ProtocolState.send_metadata_key raw = b :: l).
  { destruct (ProtocolState.send_metadata_key raw); [|eauto].
    unfold sizes_ok in H2. cbn [forallb fst snd] in H2. bools. discriminate. }
  destruct Hne as (b & l & Hne). rewrite Hne. rewrite Hne in H2. rewrite Hne, H2. cbn [ensure rbind].
  rewrite H3. cbn [rbind]. rewrite H4, H5, H6, H8. cbn [rbind ok_or]. rewrite H7, H9, H10, H11. cbn [len ensure rbind].
  change (len [] =? 0) with true. cbn [ensure rbind]. rewrite H12. cbn [rbind]. rewrite H13. reflexivity.
Qed.

Lemma hmac_fields h img :
  ProtocolState.version (ProtocolState.set_state_hmac h img) = ProtocolState.version img /\
  ProtocolState.session_id (ProtocolState.set_state_hmac h img) = ProtocolState.session_id img /\
  ProtocolState.root_key (ProtocolState.set_state_hmac h img) = ProtocolState.root_key img /\
  ProtocolState.metadata_key (ProtocolState.set_state_hmac h img) = ProtocolState.metadata_key img /\
  ProtocolState.send_metadata_key (ProtocolState.set_state_hmac h img) = ProtocolState.send_metadata_key img.
Proof. do 4 (split; [reflexivity|]). reflexivity. Qed.

(** The import of any state that agrees with the session on what it reads. *)
Lemma import_any s dh kyber img h sc rc :
  ProtocolState.version (st s) = PROTOCOL_VERSION ->
  sizes_ok [(ProtocolState.session_id (st s), SESSION_ID_BYTES); (ProtocolState.root_key (st s), ROOT_KEY_BYTES);
            (ProtocolState.metadata_key (st s), METADATA_KEY_BYTES);
            (ProtocolState.send_metadata_key (st s), METADATA_KEY_BYTES)] = true ->
  image_reads s img (Some sc) (Some rc) ->
  verify_state_hmac (ProtocolState.set_state_hmac h img) = Ok img ->
  check_state_material img = Ok tt -> check_state_identity img = Ok tt ->
  load_skipped img (ChainState.set_skipped_message_keys [] rc) = Ok (SessionInner.skipped_message_keys s) ->
  load_cached_metadata img = Ok (SessionInner.cached_metadata_keys s) ->
  foldR seen_cache_step (SessionInner.seen_payload_nonce_order s) ([], []) =
    Ok (rev (SessionInner.seen_payload_nonce_order s), SessionInner.seen_payload_nonce_order s) ->
  take_dh_private (sanitize img) =
    Ok (SessionInner.dh_private_handle s,
        ProtocolState.set_dh_local
          (Some (DhKeyPair.mk (repeat 0 (Z.to_nat X25519_PRIVATE_KEY_BYTES)) (DhKeyPair.public_key dh))) (sanitize img)) ->
  (forall dhp, take_kyber_secret (ProtocolState.set_dh_local dhp (sanitize img)) =
    Ok (SessionInner.kyber_secret_handle s,
        ProtocolState.set_kyber_local
          (Some (KyberKeyPair.mk (repeat 0 (Z.to_nat KYBER_SECRET_KEY_BYTES)) (KyberKeyPair.public_key kyber)))
          (ProtocolState.set_dh_local dhp (sanitize img)))) ->
  from_state_internal (ProtocolState.set_state_hmac h img) = Ok (reopened s dh kyber img).
Proof.
  intros Hver Hz (F1 & F2 & F3 & F4 & F5 & F6 & F7 & F8 & F9 & F10 & F11) Hv Hm Hid Hs Hc Hr Ht Hk.
  destruct (hmac_fields h img) as (R1 & R2 & R3 & R4 & R5).
  rewrite <- R2 in F2. rewrite <- R3 in F3. rewrite <- R4 in F4. rewrite <- R5 in F5. rewrite <- F2, <- F3, <- F4, <- F5 in Hz.
  assert (Hseen : rebuild_seen_payload_nonce_cache (ProtocolState.seen_payload_nonces img) =
    Ok (rev (SessionInner.seen_payload_nonce_order s), SessionInner.seen_payload_nonce_order s))
    by (rewrite F8; exact Hr).
  rewrite (from_state_steps _ img (ChainState.set_skipped_message_keys [] sc)
    (ChainState.set_skipped_message_keys [] rc) (SessionInner.skipped_message_keys s)
    (SessionInner.cached_metadata_keys s) (rev (SessionInner.seen_payload_nonce_order s))
    (SessionInner.seen_payload_nonce_order s) _ _ _ _ (eq_trans R1 (eq_trans F1 Hver)) Hz Hv Hm Hid
    F6 eq_refl F7 Hs Hc Hseen Ht (Hk _)).
  unfold reopened, zeroed_state, with_secrets. rewrite F9. set (zs := sanitize img).
  assert (Z1 : ProtocolState.is_initiator zs = ProtocolState.is_initiator img) by reflexivity.
  assert (Z2 : ProtocolState.send_ratchet_pending zs = ProtocolState.send_ratchet_pending img) by reflexivity.
  clearbody zs. rewrite <- F10, <- F11, <- Z1, <- Z2. reflexivity.
Qed.

Lemma import_image s dh kyber n h :
  importable s dh kyber -> n <> 0 ->
  compute_state_hmac (ProtocolState.root_key (st s)) (encode (image s dh kyber n)) = Ok h ->
  from_state_internal (ProtocolState.set_state_hmac h (image s dh kyber n)) = Ok (reopened s dh kyber (image s dh kyber n)).
Proof.
  intros I Hn Hh. destruct (material_sizes (with_secrets dh kyber (st s)) dh kyber eq_refl eq_refl (im_material _ _ _ I))
    as (_ & _ & sc & rc & Hsc & Hrc).
  change (ProtocolState.send_chain (st s) = Some sc) in Hsc. change (ProtocolState.recv_chain (st s) = Some rc) in Hrc.
  destruct (image_handles s dh kyber n I) as (Ht & Hk). destruct (im_seen _ _ _ I) as [[Hd _] Hl].
  pose proof (image_fields s dh kyber n) as F. rewrite Hsc, Hrc in F.
  pose proof (state_hmac_ok s dh kyber n h Hn Hh) as Hv.
  pose proof (eq_trans (image_material s dh kyber n) (im_material _ _ _ I)) as Hm.
  pose proof (eq_trans (image_identity s dh kyber n) (im_identity _ _ _ I)) as Hid.
  pose proof (image_skipped s dh kyber n rc I Hrc) as Hs. pose proof (image_cached s dh kyber n I) as Hc.
  pose proof (rebuild_seen _ [] Hd Hl (im_seen_len _ _ _ I)) as Hr. cbn [rev app] in Hr.
  exact (import_any s dh kyber _ h sc rc (im_version _ _ _ I) (im_sizes _ _ _ I) F Hv Hm Hid Hs Hc Hr Ht Hk).
Qed.

Lemma image_no_hmac s dh kyber n :
  ProtocolState.set_state_hmac [] (image s dh kyber n) = image s dh kyber n.
Proof.
  assert (E : ProtocolState.state_hmac (image s dh kyber n) = []) by reflexivity.
  destruct (image s dh kyber n). cbn in *. now subst.
Qed.

(** *** Sealing and opening *)

(** What is written are values of the message types. *)
Definition export_typed (s : SessionInner) (dh : DhKeyPair.t) (kyber : KyberKeyPair.t) (kek : bytes) (ctr : Z)
    (ent : ExportEntropy) : Prop :=
  forall h encrypted_dek encrypted_state,
    let img := image s dh kyber (ProtocolState.state_counter (st s) + 1) in
    compute_state_hmac (ProtocolState.root_key (st s)) (encode img) = Ok h ->
    aes_encrypt kek (x_dek_nonce ent) (x_dek ent) (sealed_dek_aad ctr) = Ok encrypted_dek ->
    aes_encrypt (x_dek ent) (x_state_nonce ent) (encode (ProtocolState.set_state_hmac h img))
      (sealed_state_aad (x_dek_nonce ent) encrypted_dek) = Ok encrypted_state ->
    state_wf (ProtocolState.set_state_hmac h img) = true /\
    sealed_wf (SealedState.mk SEALED_STATE_VERSION (x_dek_nonce ent) (x_state_nonce ent) encrypted_dek
                 encrypted_state ctr) = true.

Lemma export_Ok s dh kyber kek ctr ent data s' :
  importable s dh kyber -> len kek = AES_KEY_BYTES ->
  export_sealed_state (Ok (SecureMemoryHandle.mk kek)) ctr ent s = (Ok data, s') ->
  ctr <> 0 /\ s' = upd_state (ProtocolState.set_state_counter (ProtocolState.state_counter (st s) + 1)) s /\
  exists h ed es,
    let img := image s dh kyber (ProtocolState.state_counter (st s) + 1) in
    compute_state_hmac (ProtocolState.root_key (st s)) (encode img) = Ok h /\
    aes_encrypt kek (x_dek_nonce ent) (x_dek ent) (sealed_dek_aad ctr) = Ok ed /\
    aes_encrypt (x_dek ent) (x_state_nonce ent) (encode (ProtocolState.set_state_hmac h img))
      (sealed_state_aad (x_dek_nonce ent) ed) = Ok es /\
    data = encode (SealedState.mk SEALED_STATE_VERSION (x_dek_nonce ent) (x_state_nonce ent) ed es ctr).
Proof.
  intros I Hk H. unfold export_sealed_state in H. inv_stm. inv_ok. bools.
  rewrite (export_copy_image s dh kyber _ I) in *.
  apply Ok_inj in Hc3. subst a3. split; [assumption|]. split; [reflexivity|].
  pose proof (image_no_hmac s dh kyber (ProtocolState.state_counter (st s) + 1)) as E.
  pose proof (proj1 (proj2 (proj2 (image_fields s dh kyber (ProtocolState.state_counter (st s) + 1))))) as Er.
  cbv zeta. set (img := image s dh kyber (ProtocolState.state_counter (st s) + 1)) in *. clearbody img.
  unfold seal_copy, crypto_err in H. rewrite E, Er in H. cbn [rbind] in H.
  rewrite SecureMemoryHandle.read_bytes_exact in H by assumption. cbn [map_err rbind] in H. inv_ok.
  do 3 eexists. eauto.
Qed.

Lemma from_sealed_steps kek ctr ed es min ent data copy :
  data = encode (SealedState.mk SEALED_STATE_VERSION (x_dek_nonce ent) (x_state_nonce ent) ed es ctr) ->
  len data <= MAX_PROTOBUF_MESSAGE_SIZE -> len kek = AES_KEY_BYTES -> ctr <> 0 ->
  sealed_wf (SealedState.mk SEALED_STATE_VERSION (x_dek_nonce ent) (x_state_nonce ent) ed es ctr) = true ->
  state_wf copy = true ->
  aes_encrypt kek (x_dek_nonce ent) (x_dek ent) (sealed_dek_aad ctr) = Ok ed ->
  aes_encrypt (x_dek ent) (x_state_nonce ent) (encode copy) (sealed_state_aad (x_dek_nonce ent) ed) = Ok es ->
  from_sealed_state data (Ok (SecureMemoryHandle.mk kek)) min =
  if ctr <? min then Err (ProtocolError.invalid_state "Sealed session state rollback detected by external counter")
  else from_state_internal copy.
Proof.
  intros -> Hl Hk Hc Hz Hw He Hs. unfold from_sealed_state.
  rewrite (proj2 (Z.ltb_ge _ _)) by exact Hl. cbn [negb ensure rbind]. rewrite decode_encode by exact Hz.
  destruct (aes_encrypt_inv _ _ _ _ _ He) as (_ & Hn1 & _). destruct (aes_encrypt_inv _ _ _ _ _ Hs) as (_ & Hn2 & _).
  cbn [ok_or rbind SealedState.version SealedState.dek_nonce SealedState.state_nonce SealedState.external_counter
       SealedState.encrypted_dek SealedState.encrypted_state].
  rewrite Z.eqb_refl, Hn1, Hn2, (proj2 (Z.eqb_neq ctr 0)) by assumption. rewrite Z.eqb_refl. cbn [negb orb ensure rbind].
  destruct (ctr <? min); cbn [negb ensure rbind]; [reflexivity|].
  unfold crypto_err. rewrite SecureMemoryHandle.read_bytes_exact by assumption. cbn [map_err rbind].
  rewrite (aes_roundtrip _ _ _ _ _ He). cbn [map_err rbind]. rewrite (aes_roundtrip _ _ _ _ _ Hs). cbn [map_err rbind].
  now rewrite decode_encode by exact Hw.
Qed.


(** *** The restored session beside its peer *)

(** What the peer depends on, up to the skipped keys stored in chains and the
    order of the set of nonces. *)
Definition same_chain (c c' : option ChainState.t) : Prop :=
  option_map ChainState.message_index c = option_map ChainState.message_index c' /\
  option_map ChainState.chain_key c = option_map ChainState.chain_key c'.

Record resumes (s r : SessionInner) : Prop := {
  rs_epochs : send_epoch r = send_epoch s /\ recv_epoch r = recv_epoch s;
  rs_metadata : ProtocolState.send_metadata_key (st r) = ProtocolState.send_metadata_key (st s) /\
    ProtocolState.metadata_key (st r) = ProtocolState.metadata_key (st s);
  rs_send : same_chain (ProtocolState.send_chain (st r)) (ProtocolState.send_chain (st s));
  rs_recv : same_chain (ProtocolState.recv_chain (st r)) (ProtocolState.recv_chain (st s));
  rs_nonces : ProtocolState.nonce_generator (st r) = ProtocolState.nonce_generator (st s);
  rs_seen : forall n, In n (SessionInner.seen_payload_nonces r) <-> In n (SessionInner.seen_payload_nonces s);
  rs_remote : ProtocolState.dh_remote_public (st r) = ProtocolState.dh_remote_public (st s) /\
    ProtocolState.kyber_remote_public (st r) = ProtocolState.kyber_remote_public (st s);
  rs_handles : SessionInner.dh_private_handle r = SessionInner.dh_private_handle s /\
    SessionInner.kyber_secret_handle r = SessionInner.kyber_secret_handle s;
  rs_common : common_side r = common_side s }.

Lemma same_clear c : same_chain (clear_chain (clear_chain c)) c.
Proof. destruct c as [[]|]; split; reflexivity. Qed.

Lemma reopened_resumes s dh kyber n : seen_inv s -> resumes s (reopened s dh kyber (image s dh kyber n)).
Proof.
  intros [[_ Hs] _]. constructor; try (split; reflexivity); try reflexivity; try apply same_clear.
  intros m. rewrite Hs. symmetry. apply in_rev.
Qed.

Lemma same_chain_Some c c' x : same_chain c c' -> c' = Some x ->
  exists y, c = Some y /\ ChainState.message_index y = ChainState.message_index x /\
    ChainState.chain_key y = ChainState.chain_key x.
Proof. intros [H1 H2] ->. destruct c as [y|]; [|discriminate]. cbn in *. exists y. inv_ok. auto. Qed.

Lemma resumes_channel a b a' b' : resumes a a' -> resumes b b' -> channel a b -> channel a' b'.
Proof.
  intros [[A1 A2] [A3 A4] A5 A6 A7 A8 [A9 A10] [A11 A12] A13] [[B1 B2] [B3 B4] B5 B6 B7 B8 [B9 B10] [B11 B12] B13] [].
  unfold common_side in *. injection A13 as C1 C2 C3 C4 C5 C6.
  constructor; rewrite ?A1, ?A3, ?A7, ?A9, ?A10, ?B2, ?B4, ?B11, ?B12, ?C4; auto.
  - destruct ch_chain as (sc & rc & Hsc & Hrc & H1 & H2 & H3 & H4 & H5).
    destruct (same_chain_Some _ _ _ A5 Hsc) as (sc' & -> & Ei & Ek).
    destruct (same_chain_Some _ _ _ B6 Hrc) as (rc' & -> & Fi & Fk).
    exists sc', rc'. rewrite Ei, Ek, Fi, Fk. auto 8.
  - destruct ch_nonce as (ng & H1 & H2 & H3 & H4 & H5). exists ng. do 4 (split; [assumption|]).
    intros c i Hc Hi Hin. exact (H5 c i Hc Hi (proj1 (B8 _) Hin)).
Qed.

Lemma resumes_refl s : resumes s s.
Proof. constructor; try (split; reflexivity); reflexivity. Qed.

Lemma resumes_paired a b a' : resumes a a' -> paired a b -> paired a' b.
Proof.
  intros H [Hs Ht Hb]. constructor.
  - exact (shared_ext a b a' b (rs_common _ _ H) eq_refl Hs).
  - exact (resumes_channel a b a' b H (resumes_refl b) Ht).
  - exact (resumes_channel b a b a' (resumes_refl b) H Hb).
Qed.

(** C18. A restart in the middle of a conversation: a session restored from its
    sealed state is in step with the peer it was in step with, so the
    conversation goes on and is delivered. *)
Theorem conversation_survives_restart a b dh kyber kek ctr min ent data a' r ts :
  paired a b -> importable a dh kyber -> len kek = AES_KEY_BYTES -> export_typed a dh kyber kek ctr ent ->
  export_sealed_state (Ok (SecureMemoryHandle.mk kek)) ctr ent a = (Ok data, a') ->
  len data <= MAX_PROTOBUF_MESSAGE_SIZE -> from_sealed_state data (Ok (SecureMemoryHandle.mk kek)) min = Ok r ->
  turns_ok ts r b ->
  exists r' b', converse ts r b = Some (map t_payload ts, r', b') /\ paired r' b'.
Proof.
  intros Hp I Hk Ht H Hl Hr. apply converse_delivers.
  destruct (export_Ok _ _ _ _ _ _ _ _ I Hk H) as (Hc & _ & h & ed & es & Hh & He & Hs & Hd).
  destruct (Ht h ed es Hh He Hs) as (Hw & Hz).
  rewrite (from_sealed_steps kek ctr ed es min ent data _ Hd Hl Hk Hc Hz Hw He Hs) in Hr.
  destruct (ctr <? min); [discriminate|].
  rewrite (import_image _ _ _ _ _ I) in Hr; [|pose proof (im_counter _ _ _ I); lia|exact Hh].
  apply Ok_inj in Hr. subst r. eapply resumes_paired; [|exact Hp]. apply reopened_resumes, I.
Qed.

End Seal.

(** * A destroyed session

    [destroy] wipes every secret; afterwards nothing is sent, accepted or
    exported, and the secrets stay wiped. *)

Definition zeros (l : bytes) : Prop := Forall (fun x => x = 0) l.

Definition chain_wiped (c : option ChainState.t) : Prop :=
  match c with
  | Some c => zeros (ChainState.chain_key c) /\
      Forall (fun k => zeros (CachedMessageKey.message_key k)) (ChainState.skipped_message_keys c)
  | None => True
  end.

(** No secret is left in the session. *)
Record wiped (s : SessionInner) : Prop := {
  w_version : ProtocolState.version (SessionInner.state s) = 0;
  w_root : zeros (ProtocolState.root_key (SessionInner.state s));
  w_metadata : zeros (ProtocolState.metadata_key (SessionInner.state s));
  w_send_metadata : zeros (ProtocolState.send_metadata_key (SessionInner.state s));
  w_send_chain : chain_wiped (ProtocolState.send_chain (SessionInner.state s));
  w_recv_chain : chain_wiped (ProtocolState.recv_chain (SessionInner.state s));
  w_dh : match ProtocolState.dh_local (SessionInner.state s) with
         | Some d => zeros (DhKeyPair.private_key d) | None => True end;
  w_kyber : match ProtocolState.kyber_local (SessionInner.state s) with
            | Some k => zeros (KyberKeyPair.secret_key k) | None => True end;
  w_handles : SessionInner.dh_private_handle s = None /\ SessionInner.kyber_secret_handle s = None;
  w_pending : zeros (SessionInner.pending_kyber_shared_secret s);
  w_caches : SessionInner.skipped_message_keys s = [] /\ SessionInner.cached_metadata_keys s = [] /\
    SessionInner.seen_payload_nonces s = [] /\ SessionInner.seen_payload_nonce_order s = [] }.

Lemma wipe_zeros l : zeros (secure_wipe l).
Proof. unfold secure_wipe, zeros. apply Forall_forall. intros x Hx. now apply repeat_spec in Hx. Qed.

Lemma wipe_chain_wiped c : chain_wiped (option_map wipe_chain c).
Proof.
  destruct c as [c|]; cbn; [|exact I]. split; [apply wipe_zeros|]. apply Forall_forall. intros k Hk.
  apply in_map_iff in Hk as (k' & <- & _). apply wipe_zeros.
Qed.

Section Destroy.
Context `{P : Primitives} {C : Prost EnvelopeMetadata} {CS : Prost ProtocolState} {CZ : Prost SealedState.t}.

Lemma destroy_wiped s : wiped (destroy s).
Proof.
  constructor; try (cbn; apply wipe_zeros); try (cbn; apply wipe_chain_wiped); cbn; auto.
  - destruct (ProtocolState.dh_local _); cbn; [apply wipe_zeros|exact I].
  - destruct (ProtocolState.kyber_local _); cbn; [apply wipe_zeros|exact I].
Qed.

Lemma encrypt_dead payload ty id corr clock ent s :
  ProtocolState.version (SessionInner.state s) = 0 ->
  encrypt payload ty id corr clock ent s = (Err (ProtocolError.invalid_state "Session has been destroyed"), s).
Proof. intros H. unfold encrypt, encrypt_internal, sbind, sget, sguard, slift. rewrite H. reflexivity. Qed.

Lemma decrypt_dead env clock s :
  ProtocolState.version (SessionInner.state s) = 0 ->
  decrypt env clock s = (Err (ProtocolError.invalid_state "Session has been destroyed"), s).
Proof. intros H. unfold decrypt, sbind, sget, sguard, slift. rewrite H. reflexivity. Qed.

Lemma export_dead kek ctr ent s :
  ProtocolState.version (SessionInner.state s) = 0 -> snd (export_sealed_state kek ctr ent s) = s.
Proof.
  intros H. unfold export_sealed_state, sbind, sget, sguard, slift. rewrite H.
  destruct (negb (ctr =? 0)); reflexivity.
Qed.

Lemma set_device_id_dead d s :
  ProtocolState.version (SessionInner.state s) = 0 -> snd (set_device_id d s) = s.
Proof.
  intros H. unfold set_device_id, sbind, sget, sguard, slift, not_destroyed. rewrite H.
  destruct (len d =? DEVICE_ID_BYTES); reflexivity.
Qed.

Lemma set_session_ttl_dead t s :
  ProtocolState.version (SessionInner.state s) = 0 -> snd (set_session_ttl t s) = s.
Proof.
  intros H. unfold set_session_ttl, sbind, sget, sguard, slift, not_destroyed. rewrite H.
  destruct t as [t|]; [destruct ((MIN_SESSION_TTL_SECONDS <=? t) && (t <=? MAX_SESSION_TTL_SECONDS))|]; reflexivity.
Qed.

Lemma dead_op op s evs s' : wiped s -> apply_op op s = (evs, s') -> evs = [] /\ wiped s'.
Proof.
  intros W H. pose proof (w_version _ W) as Hv. destruct op; cbn [apply_op] in H.
  - rewrite encrypt_dead in H by assumption. inv_ok. auto.
  - rewrite decrypt_dead in H by assumption. inv_ok. auto.
  - rewrite export_dead in H by assumption. inv_ok. auto.
  - rewrite set_device_id_dead in H by assumption. inv_ok. auto.
  - rewrite set_session_ttl_dead in H by assumption. inv_ok. auto.
  - inv_ok. split; [reflexivity|]. destruct W. constructor; assumption.
  - inv_ok. split; [reflexivity|apply destroy_wiped].
Qed.

Lemma dead_run ops : forall s evs s', wiped s -> run ops s = (evs, s') -> evs = [] /\ wiped s'.
Proof.
  induction ops as [|op ops IH]; intros s evs s' W H; cbn [run] in H; [inv_ok; auto|].
  destruct (apply_op op s) as [e1 s1] eqn:Ha. destruct (run ops s1) as [e2 s2] eqn:Hr. inv_ok.
  destruct (dead_op _ _ _ _ W Ha) as [-> W1]. destruct (IH _ _ _ W1 Hr) as [-> W2]. auto.
Qed.


End Destroy.

Definition dead_ops : list Op :=
  [op_encrypt [1] 0 1 None toy_clock (toy_entropy 30); op_set_event_handler; op_set_session_ttl None].

