(* ===== verification/SealExamples.v ===== *)
(** * A concrete restart

    The responder of the concrete pair, after it has read two messages in the
    wrong order, is saved, restored, and goes on with the conversation. *)

From Stdlib Require Import ZArith List Bool Lia String.
From S2P Require Import Prelude Constants BTree SecureMemory Crypto Toy Padding DhValidator Nonce Proto ToyCodec SessionState Session ToySession SessionPersist SessionChain SessionRecv SessionSend SessionInv SessionRun SessionSync SessionStart SessionExamples SessionSeal.
Import ListNotations.
Open Scope string_scope.
Open Scope list_scope.
Open Scope Z_scope.

(** ** The conditions, decided *)


Section Decide.
Context `{P : Primitives} {CS : Prost ProtocolState} {CZ : Prost SealedState.t}.

Definition export_typedb (s : SessionInner) (dh : DhKeyPair.t) (kyber : KyberKeyPair.t) (kek : bytes) (ctr : Z)
    (ent : ExportEntropy) : bool :=
  let img := image s dh kyber (ProtocolState.state_counter (st s) + 1) in
  match compute_state_hmac (ProtocolState.root_key (st s)) (encode img) with
  | Ok h =>
      match aes_encrypt kek (x_dek_nonce ent) (x_dek ent) (sealed_dek_aad ctr) with
      | Ok ed =>
          match aes_encrypt (x_dek ent) (x_state_nonce ent) (encode (ProtocolState.set_state_hmac h img))
                  (sealed_state_aad (x_dek_nonce ent) ed) with
          | Ok es => state_wf (ProtocolState.set_state_hmac h img) &&
              sealed_wf (SealedState.mk SEALED_STATE_VERSION (x_dek_nonce ent) (x_state_nonce ent) ed es ctr)
          | Err _ => true
          end
      | Err _ => true
      end
  | Err _ => true
  end.

Lemma export_typedb_true s dh kyber kek ctr ent :
  export_typedb s dh kyber kek ctr ent = true -> export_typed s dh kyber kek ctr ent.
Proof.
  unfold export_typedb, export_typed. intros H h ed es. cbv zeta. intros Hh He Hs. rewrite Hh, He, Hs in H.
  now apply andb_prop in H.
Qed.

(** The tests of [importable] that read numbers and lengths. *)
Definition importableb (s : SessionInner) (dh : DhKeyPair.t) (kyber : KyberKeyPair.t) : bool :=
  (ProtocolState.version (st s) =? PROTOCOL_VERSION) && (0 <=? ProtocolState.state_counter (st s)) &&
  sizes_ok [(ProtocolState.session_id (st s), SESSION_ID_BYTES); (ProtocolState.root_key (st s), ROOT_KEY_BYTES);
            (ProtocolState.metadata_key (st s), METADATA_KEY_BYTES);
            (ProtocolState.send_metadata_key (st s), METADATA_KEY_BYTES)] &&
  match ProtocolState.dh_local (st s) with Some p => bytes_eqb (DhKeyPair.public_key p) (DhKeyPair.public_key dh) | None => false end &&
  match SessionInner.dh_private_handle s with Some h => bytes_eqb (SecureMemoryHandle.data h) (DhKeyPair.private_key dh) | None => false end &&
  match ProtocolState.kyber_local (st s) with Some p => bytes_eqb (KyberKeyPair.public_key p) (KyberKeyPair.public_key kyber) | None => false end &&
  match SessionInner.kyber_secret_handle s with Some h => bytes_eqb (SecureMemoryHandle.data h) (KyberKeyPair.secret_key kyber) | None => false end &&
  is_okb (check_state_material (with_secrets dh kyber (st s))) && is_okb (check_state_identity (st s)) &&
  forallb (fun e => (len (snd e) =? MESSAGE_KEY_BYTES) && (snd (fst e) <=? MAX_MESSAGE_INDEX) && (fst (fst e) <=? recv_epoch s))
    (SessionInner.skipped_message_keys s) &&
  forallb (fun e => (len (snd e) =? METADATA_KEY_BYTES) && (fst e <=? recv_epoch s)) (SessionInner.cached_metadata_keys s) &&
  forallb (fun n => len n =? AES_GCM_NONCE_BYTES) (SessionInner.seen_payload_nonce_order s).

Lemma importableb_true s dh kyber :
  cache_inv s -> importableb s dh kyber = true -> importable s dh kyber.
Proof.
  intros [S1 S2 _ S4 S5 S6] H. unfold importableb in H.
  repeat match goal with H : _ && _ = true |- _ => apply andb_prop in H as [? ?] end.
  constructor; auto; try (now apply Z.eqb_eq); try (now apply Z.leb_le).
  - destruct (ProtocolState.dh_local (st s)) as [[old pk]|]; [|discriminate]. cbn in *.
    match goal with H : bytes_eqb pk _ = true |- _ => apply bytes_eqb_eq in H; subst end. eauto.
  - destruct (SessionInner.dh_private_handle s) as [[d]|]; [|discriminate]. cbn in *.
    match goal with H : bytes_eqb d _ = true |- _ => apply bytes_eqb_eq in H; now subst end.
  - destruct (ProtocolState.kyber_local (st s)) as [[old pk]|]; [|discriminate]. cbn in *.
    match goal with H : bytes_eqb pk _ = true |- _ => apply bytes_eqb_eq in H; subst end. eauto.
  - destruct (SessionInner.kyber_secret_handle s) as [[d]|]; [|discriminate]. cbn in *.
    match goal with H : bytes_eqb d _ = true |- _ => apply bytes_eqb_eq in H; now subst end.
  - match goal with H : is_okb (check_state_material _) = true |- _ => apply is_okb_true in H as [[] H]; exact H end.
  - match goal with H : is_okb (check_state_identity _) = true |- _ => apply is_okb_true in H as [[] H]; exact H end.
  - apply Forall_forall. intros e He.
    match goal with H : forallb _ (SessionInner.skipped_message_keys s) = true |- _ =>
      rewrite forallb_forall in H; specialize (H e He) end. bools. repeat split; assumption.
  - apply Forall_forall. intros e He.
    match goal with H : forallb _ (SessionInner.cached_metadata_keys s) = true |- _ =>
      rewrite forallb_forall in H; specialize (H e He) end. bools. split; assumption.
  - apply Forall_forall. intros e He.
    match goal with H : forallb _ (SessionInner.seen_payload_nonce_order s) = true |- _ =>
      rewrite forallb_forall in H; specialize (H e He) end. bools. assumption.
Qed.

End Decide.

(** ** The concrete restart *)

Definition before_restart : list Turn := [toy_turn true [1; 2; 3] 1 30; toy_turn false [4] 2 40; toy_turn true [5] 3 50].
Definition after_restart : list Turn := [toy_turn true [6] 4 60; toy_turn false [7] 5 70].

Definition no_pair : list bytes * SessionInner * SessionInner := ([], no_session, no_session).

Definition mid : list bytes * SessionInner * SessionInner :=
  match converse before_restart toy_alice toy_bob with Some r => r | None => no_pair end.
Definition mid_alice : SessionInner := snd (fst mid).
Definition mid_bob : SessionInner := snd mid.

(** The initiator's side of the same exchange as a history. *)
Definition mid_reply : SecureEnvelope :=
  unwrap_or (fst (encrypt [4] 0 2 None toy_clock (toy_entropy 40) (snd (toy_decrypt toy_env1 toy_bob)))) no_envelope.
Definition mid_history : list Op :=
  [op_encrypt [1; 2; 3] 0 1 None toy_clock (toy_entropy 30); op_decrypt mid_reply toy_clock;
   op_encrypt [5] 0 3 None toy_clock (toy_entropy 50)].

Definition mid_dh : DhKeyPair.t :=
  match SessionInner.dh_private_handle mid_alice, ProtocolState.dh_local (SessionInner.state mid_alice) with
  | Some h, Some p => DhKeyPair.mk (SecureMemoryHandle.data h) (DhKeyPair.public_key p)
  | _, _ => DhKeyPair.mk [] []
  end.
Definition mid_kyber : KyberKeyPair.t :=
  match SessionInner.kyber_secret_handle mid_alice, ProtocolState.kyber_local (SessionInner.state mid_alice) with
  | Some h, Some p => KyberKeyPair.mk (SecureMemoryHandle.data h) (KyberKeyPair.public_key p)
  | _, _ => KyberKeyPair.mk [] []
  end.

Definition toy_kek : bytes := toy_bytes 5 32.
Definition toy_export_entropy : ExportEntropy := mkExportEntropy (toy_bytes 6 32) (toy_bytes 7 12) (toy_bytes 8 12).

Definition mid_export : PResult bytes * SessionInner :=
  export_sealed_state (Ok (SecureMemoryHandle.mk toy_kek)) 7 toy_export_entropy mid_alice.
Definition mid_sealed : bytes := unwrap_or (fst mid_export) [].
Definition mid_restored : SessionInner :=
  unwrap_or (from_sealed_state mid_sealed (Ok (SecureMemoryHandle.mk toy_kek)) 7) no_session.

Lemma mid_paired : paired mid_alice mid_bob.
Proof.
  destruct (converse_delivers before_restart toy_alice toy_bob toy_paired) as (a & b & E & Hp).
  { apply turns_okb_true; [repeat (constructor; [apply toy_header_short; discriminate|]); constructor|].
    vm_compute. reflexivity. }
  unfold mid_alice, mid_bob, mid. rewrite E. exact Hp.
Qed.

Lemma mid_inv : cache_inv mid_alice.
Proof.
  replace mid_alice with (snd (run mid_history toy_alice)) by (vm_compute; reflexivity).
  destruct (run mid_history toy_alice) as [evs s] eqn:Hr.
  exact (proj1 (run_recv _ [] _ _ _ (from_handshake_inv _ _ toy_alice_hs_ok) (spent_nil toy_alice) Hr)).
Qed.

Lemma mid_importable : importable mid_alice mid_dh mid_kyber.
Proof. apply importableb_true; [exact mid_inv|]. vm_compute. reflexivity. Qed.

Lemma mid_typed : export_typed mid_alice mid_dh mid_kyber toy_kek 7 toy_export_entropy.
Proof. apply export_typedb_true. vm_compute. reflexivity. Qed.

Lemma mid_export_eq :
  export_sealed_state (Ok (SecureMemoryHandle.mk toy_kek)) 7 toy_export_entropy mid_alice =
  (Ok mid_sealed, snd mid_export).
Proof. vm_compute. reflexivity. Qed.

Lemma mid_sealed_len : len mid_sealed <= MAX_PROTOBUF_MESSAGE_SIZE.
Proof. vm_compute. discriminate. Qed.


Lemma mid_restored_eq : from_sealed_state mid_sealed (Ok (SecureMemoryHandle.mk toy_kek)) 7 = Ok mid_restored.
Proof. vm_compute. reflexivity. Qed.

Lemma after_restart_ok : turns_ok after_restart mid_restored mid_bob.
Proof.
  apply turns_okb_true; [repeat (constructor; [apply toy_header_short; discriminate|]); constructor|].
  vm_compute. reflexivity.
Qed.

Lemma conversation_survives_restart_witness :
  exists r' b', converse after_restart mid_restored mid_bob = Some ([[6]; [7]], r', b') /\ paired r' b'.
Proof.
  exact (conversation_survives_restart mid_alice mid_bob mid_dh mid_kyber toy_kek 7 7 toy_export_entropy mid_sealed
    (snd mid_export) mid_restored after_restart mid_paired mid_importable eq_refl mid_typed mid_export_eq mid_sealed_len
    mid_restored_eq after_restart_ok).
Defined.
