(* ===== verification/VoipFrame.v ===== *)
(** * Media frames ([src/protocol/voip/frame.rs], [media_crypto.rs])

    The clear-text frame header and its big-endian encoding, the associated
    data of a frame, the nonces, and the encryption of a padded frame and of
    its header.  The lemmas show that the header and the padding round-trip and
    that a frame encrypted with a key is decrypted by the same key. *)

From Stdlib Require Import ZArith List Bool Lia String.
From S2P Require Import Prelude Constants SecureMemory Crypto Padding.
Import ListNotations.
Open Scope string_scope.
Open Scope list_scope.
Open Scope Z_scope.

Module FrameHeader.

Record t : Type := mk {
  payload_type : Z;
  ssrc : Z;
  timestamp : Z;
  sequence_number : Z }.

Definition SERIALIZED_SIZE : Z := 11.

Definition serialize (h : t) : bytes :=
  [payload_type h] ++ to_be_bytes 4 (ssrc h) ++ to_be_bytes 4 (timestamp h) ++
  to_be_bytes 2 (sequence_number h).

(** [data[lo..hi]] *)
Definition slice (data : bytes) (lo hi : nat) : bytes := firstn (hi - lo) (skipn lo data).

Definition deserialize (data : bytes) : PResult t :=
  check? SERIALIZED_SIZE <=? len data else ProtocolError.voip_media "frame header too short" in
  Ok (mk (nth 0 data 0)
        (from_be_bytes (slice data 1 5))
        (from_be_bytes (slice data 5 9))
        (from_be_bytes (slice data 9 11))).

(** The values of the Rust type. *)
Definition wf (h : t) : Prop :=
  is_u8 (payload_type h) /\ is_u32 (ssrc h) /\ is_u32 (timestamp h) /\ is_u16 (sequence_number h).

Lemma serialize_len h : len (serialize h) = SERIALIZED_SIZE.
Proof. unfold serialize. autorewrite with lens. reflexivity. Qed.

Lemma deserialize_serialize h : wf h -> deserialize (serialize h) = Ok h.
Proof.
  intros (Hp & Hs & Ht & Hq). unfold deserialize. rewrite serialize_len. destruct h as [p s t q]. simpl in *.
  unfold in_range in *. do 2 f_equal; apply (from_to_be_bytes 4 s) || apply (from_to_be_bytes 4 t) ||
    apply (from_to_be_bytes 2 q); simpl; lia.
Qed.

End FrameHeader.

Definition build_frame_aad (call_id : bytes) (ssrc frame_counter ratchet_generation : Z) : bytes :=
  call_id ++ to_be_bytes 4 ssrc ++ to_be_bytes 8 frame_counter ++ to_be_bytes 4 ratchet_generation.

(** The associated data binds every field of the envelope of a frame. *)
Lemma build_frame_aad_inj call_id call_id' s s' c c' g g' :
  len call_id = len call_id' -> is_u32 s -> is_u32 s' -> is_u64 c -> is_u64 c' -> is_u32 g -> is_u32 g' ->
  build_frame_aad call_id s c g = build_frame_aad call_id' s' c' g' ->
  call_id = call_id' /\ s = s' /\ c = c' /\ g = g'.
Proof.
  unfold build_frame_aad, in_range. intros Hl Hs Hs' Hc Hc' Hg Hg' H.
  apply app_inj_len in H; [|assumption]. destruct H as [-> H].
  apply app_inj_len in H; [|now autorewrite with lens]. destruct H as [H1 H].
  apply app_inj_len in H; [|now autorewrite with lens]. destruct H as [H2 H3].
  repeat split; [apply (to_be_bytes_inj 4)|apply (to_be_bytes_inj 8)|apply (to_be_bytes_inj 4)]; assumption.
Qed.

(** ** Frame padding *)

Definition frame_padded_len (n : Z) : Z :=
  let with_sentinel := n + 1 in
  let blocks := div_ceil with_sentinel VOIP_FRAME_PADDING_BLOCK in
  blocks * VOIP_FRAME_PADDING_BLOCK.

Definition pad_frame (data : bytes) : bytes :=
  resize (frame_padded_len (len data)) 0 (data ++ [1]).

(** The two loops are those of [MessagePadding::unpad]. *)
Definition unpad_frame (padded : bytes) : PResult bytes :=
  check? negb (len padded =? 0) else ProtocolError.voip_media "invalid padding: empty" in
  check? len padded mod VOIP_FRAME_PADDING_BLOCK =? 0
    else ProtocolError.voip_media "invalid padding: not aligned" in
  let '(found_pos, found) := fold_left MessagePadding.scan_step (enumerate_from 0 padded) (0, 0) in
  check? negb (found =? 0) else ProtocolError.voip_media "invalid padding: no sentinel found" in
  check? negb (found_pos =? 0) else ProtocolError.voip_media "empty decrypted frame payload" in
  let non_zero_after := fold_left (MessagePadding.tail_step found_pos) (enumerate_from 0 padded) 0 in
  check? non_zero_after =? 0 else ProtocolError.voip_media "invalid padding: non-zero after sentinel" in
  Ok (firstn (Z.to_nat found_pos) padded).

Lemma frame_padded_len_spec n : 0 <= n ->
  frame_padded_len n mod VOIP_FRAME_PADDING_BLOCK = 0 /\ n < frame_padded_len n <= n + VOIP_FRAME_PADDING_BLOCK.
Proof.
  intros Hn. unfold frame_padded_len, div_ceil, VOIP_FRAME_PADDING_BLOCK.
  split; [apply Z.mod_mul; lia|].
  pose proof (Z.div_mod (n + 1 + 16 - 1) 16). pose proof (Z.mod_pos_bound (n + 1 + 16 - 1) 16). lia.
Qed.

Lemma pad_frame_shape p :
  pad_frame p = p ++ 1 :: repeat 0 (Z.to_nat (frame_padded_len (len p) - (len p + 1))).
Proof.
  pose proof (frame_padded_len_spec (len p) (len_nonneg p)).
  unfold pad_frame, resize. rewrite firstn_all2 by (rewrite length_app; simpl; unfold len in *; lia).
  rewrite <- app_assoc. simpl. repeat f_equal. autorewrite with lens. lia.
Qed.

Lemma len_pad_frame p : len (pad_frame p) = frame_padded_len (len p).
Proof.
  pose proof (frame_padded_len_spec (len p) (len_nonneg p)).
  rewrite pad_frame_shape. autorewrite with lens. lia.
Qed.

Lemma pad_frame_ok p : bytes_ok p -> bytes_ok (pad_frame p).
Proof.
  intros H. rewrite pad_frame_shape. apply Forall_app. split; [assumption|].
  constructor; [unfold in_range; lia|]. apply Forall_forall. intros x Hx.
  apply repeat_spec in Hx. subst. unfold in_range. lia.
Qed.

Lemma unpad_pad_frame p :
  bytes_ok p -> p <> [] -> len p < 2 ^ 62 -> unpad_frame (pad_frame p) = Ok p.
Proof.
  intros Hok Hne Hl. pose proof (frame_padded_len_spec (len p) (len_nonneg p)) as [Hm Hb].
  pose proof (pad_frame_ok p Hok) as Hpok. pose proof (len_pad_frame p) as Hlp.
  assert (Hpos : 0 < len p) by (destruct p; [easy|rewrite len_cons; pose proof (len_nonneg p); lia]).
  unfold unpad_frame. rewrite Hlp, Hm. destruct (Z.eqb_spec (frame_padded_len (len p)) 0); [lia|]. simpl negb.
  unfold VOIP_FRAME_PADDING_BLOCK in Hb. rewrite pad_frame_shape in Hpok, Hlp |- *.
  rewrite MessagePadding.scan_last_sentinel by (auto using MessagePadding.repeat_0_not_sentinel; lia).
  replace (fold_left (MessagePadding.tail_step _) _ _) with 0
    by (symmetry; apply MessagePadding.tail_of_sentinel; [assumption|lia|now rewrite repeat_length]).
  rewrite MessagePadding.firstn_len_app. destruct (Z.eqb_spec (len p) 0); [lia|reflexivity].
Qed.

(** ** Frame encryption *)

Module MediaCrypto.
Section MediaCrypto.
Context `{P : Primitives}.

Definition build_nonce (nonce_prefix : bytes) (frame_counter : Z) : bytes :=
  nonce_prefix ++ to_be_bytes 8 frame_counter.

Definition encrypt_frame (media_key nonce_prefix : bytes) (frame_counter : Z) (plaintext aad : bytes) :
    PResult bytes :=
  check? len media_key =? VOIP_MEDIA_KEY_BYTES else ProtocolError.voip_media "invalid media key size" in
  check? negb (len plaintext =? 0) else ProtocolError.voip_media "empty frame payload" in
  check? len plaintext <=? MAX_VOIP_FRAME_SIZE else ProtocolError.voip_media "frame payload too large" in
  check? frame_counter <=? MAX_FRAME_COUNTER else ProtocolError.voip_media "frame counter overflow" in
  let padded := pad_frame plaintext in
  let nonce_bytes := build_nonce nonce_prefix frame_counter in
  map_err (fun _ => ProtocolError.voip_media "AES-256-GCM-SIV frame encryption failed")
    (aes_encrypt media_key nonce_bytes padded aad).

Definition decrypt_frame (media_key nonce_prefix : bytes) (frame_counter : Z) (ciphertext aad : bytes) :
    PResult bytes :=
  check? len media_key =? VOIP_MEDIA_KEY_BYTES else ProtocolError.voip_media "invalid media key size" in
  check? AES_GCM_TAG_BYTES <=? len ciphertext else ProtocolError.voip_media "ciphertext too small" in
  check? frame_counter <=? MAX_FRAME_COUNTER else ProtocolError.voip_media "frame counter overflow" in
  let nonce_bytes := build_nonce nonce_prefix frame_counter in
  let? padded := map_err (fun _ => ProtocolError.voip_media "frame authentication failed — tampered data")
    (aes_decrypt media_key nonce_bytes ciphertext aad) in
  unpad_frame padded.

(** [header_nonce[0] ^= 0xFF] *)
Definition header_nonce (nonce_bytes : bytes) : bytes :=
  match nonce_bytes with b :: rest => Z.lxor b 255 :: rest | [] => [] end.

Definition encrypt_header (header_key nonce_prefix : bytes) (frame_counter : Z) (header : bytes) :
    PResult bytes :=
  check? len header_key =? VOIP_HEADER_KEY_BYTES else ProtocolError.voip_media "invalid header key size" in
  let nonce := header_nonce (build_nonce nonce_prefix frame_counter) in
  map_err (fun _ => ProtocolError.voip_media "header encryption failed") (aes_encrypt header_key nonce header []).

Definition decrypt_header (header_key nonce_prefix : bytes) (frame_counter : Z) (ciphertext : bytes) :
    PResult bytes :=
  check? len header_key =? VOIP_HEADER_KEY_BYTES else ProtocolError.voip_media "invalid header key size" in
  check? AES_GCM_TAG_BYTES <=? len ciphertext else ProtocolError.voip_media "header ciphertext too small" in
  let nonce := header_nonce (build_nonce nonce_prefix frame_counter) in
  map_err (fun _ => ProtocolError.voip_media "header authentication failed")
    (aes_decrypt header_key nonce ciphertext []).

Context {L : PrimitiveLaws P}.

Lemma header_nonce_len n : len (header_nonce n) = len n.
Proof. now destruct n. Qed.

Lemma build_nonce_len p c : len p = VOIP_NONCE_PREFIX_BYTES -> len (build_nonce p c) = AES_GCM_NONCE_BYTES.
Proof. intros H. unfold build_nonce. autorewrite with lens. rewrite H. reflexivity. Qed.

Lemma build_nonce_inj p c c' : is_u64 c -> is_u64 c' -> build_nonce p c = build_nonce p c' -> c = c'.
Proof.
  intros Hc Hc' H. apply app_inj_len in H; [|reflexivity]. destruct H as [_ H].
  now apply (to_be_bytes_inj 8) in H.
Qed.

Lemma encrypt_frame_ok k p c m aad :
  len k = VOIP_MEDIA_KEY_BYTES -> len p = VOIP_NONCE_PREFIX_BYTES -> c <= MAX_FRAME_COUNTER ->
  m <> [] -> len m <= MAX_VOIP_FRAME_SIZE -> len aad < 2 ^ 32 ->
  exists ct, encrypt_frame k p c m aad = Ok ct /\ len ct = frame_padded_len (len m) + AES_GCM_TAG_BYTES.
Proof.
  intros Hk Hp Hc Hm Hl Ha. pose proof (frame_padded_len_spec (len m) (len_nonneg m)) as [_ Hb].
  unfold MAX_VOIP_FRAME_SIZE, VOIP_FRAME_PADDING_BLOCK in *.
  destruct (aes_encrypt_ok k (build_nonce p c) (pad_frame m) aad) as (ct & He & Hs);
    [exact Hk|now apply build_nonce_len|rewrite len_pad_frame; lia|assumption|].
  exists ct. unfold encrypt_frame. rewrite Hk, He. simpl.
  assert (Hpos : 0 < len m) by (destruct m; [easy|rewrite len_cons; pose proof (len_nonneg m); lia]).
  destruct (Z.eqb_spec (len m) 0), (Z.leb_spec (len m) (64 * 1024)), (Z.leb_spec c MAX_FRAME_COUNTER); try lia.
  unfold MAX_VOIP_FRAME_SIZE. destruct (Z.leb_spec (len m) (64 * 1024)); [|lia]. simpl.
  split; [reflexivity|]. rewrite (siv_encrypt_len _ _ _ _ _ Hs), len_pad_frame. reflexivity.
Qed.

Lemma decrypt_encrypt_frame k p c m aad ct :
  bytes_ok m -> encrypt_frame k p c m aad = Ok ct -> decrypt_frame k p c ct aad = Ok m.
Proof.
  intros Hok H. unfold encrypt_frame in H. inv_ok. bools.
  match goal with H : aes_encrypt _ _ _ _ = Ok _ |- _ =>
    pose proof (aes_roundtrip _ _ _ _ _ H) as Hd; apply aes_encrypt_inv in H; destruct H as (_ & _ & Hs) end.
  pose proof (siv_encrypt_len _ _ _ _ _ Hs) as Hl. pose proof (len_nonneg (pad_frame m)).
  unfold decrypt_frame. rewrite Hd.
  repeat match goal with H : len k = _ |- _ => rewrite H end. rewrite Z.eqb_refl.
  destruct (Z.leb_spec AES_GCM_TAG_BYTES (len ct)); [|lia]. destruct (Z.leb_spec c MAX_FRAME_COUNTER); [|lia].
  simpl. apply unpad_pad_frame; [assumption|now intros ->|]. unfold MAX_VOIP_FRAME_SIZE in *. lia.
Qed.

Lemma encrypt_header_ok k p c h :
  len k = VOIP_HEADER_KEY_BYTES -> len p = VOIP_NONCE_PREFIX_BYTES -> len h < 2 ^ 32 ->
  exists ct, encrypt_header k p c h = Ok ct /\ decrypt_header k p c ct = Ok h /\
    len ct = len h + AES_GCM_TAG_BYTES.
Proof.
  intros Hk Hp Hh.
  destruct (aes_encrypt_ok k (header_nonce (build_nonce p c)) h []) as (ct & He & Hs);
    [exact Hk|rewrite header_nonce_len; now apply build_nonce_len|assumption|easy|].
  exists ct. unfold encrypt_header, decrypt_header. rewrite Hk, He, (aes_roundtrip _ _ _ _ _ He). simpl.
  pose proof (siv_encrypt_len _ _ _ _ _ Hs). pose proof (len_nonneg h).
  destruct (Z.leb_spec AES_GCM_TAG_BYTES (len ct)); [|lia]. auto.
Qed.

End MediaCrypto.
End MediaCrypto.
