(* ===== verification/CallKeys.v ===== *)
(** * Key agreement of a call ([src/protocol/voip/call_key_exchange.rs])

    The signed hybrid exchange that starts a call (caller's offer, callee's
    answer, caller's completion), the derivation of the media, header and nonce
    keys of both directions from the call root, and the messages and key
    derivation of a rekey.  Random values are arguments.

    The theorem at the end shows that the two parties of an undisturbed exchange
    succeed and hold mirrored keys. *)

From Stdlib Require Import ZArith List Bool Lia String.
From S2P Require Import Prelude Constants SecureMemory Crypto Toy Signatures DhValidator Proto.
Import ListNotations.
Open Scope string_scope.
Open Scope list_scope.
Open Scope Z_scope.

Record CallInitAuthContext : Type := mkAuthContext {
  version : Z;
  media_type : Z;
  ratchet_interval_frames : Z;
  pq_rekey_interval_secs : Z;
  shield_mode : bool }.

Module CallKeyMaterial.
Record t : Type := mk {
  root_secret : SecureMemoryHandle.t;
  media_key_send : SecureMemoryHandle.t;
  media_key_recv : SecureMemoryHandle.t;
  header_key_send : SecureMemoryHandle.t;
  header_key_recv : SecureMemoryHandle.t;
  nonce_prefix_send : bytes;
  nonce_prefix_recv : bytes }.
End CallKeyMaterial.
Abbreviation CallKeyMaterial := CallKeyMaterial.t.

Module CallInitOutput.
Record t : Type := mk {
  call_id : bytes;
  ephemeral_x25519_public : bytes;
  kyber_ciphertext : bytes;
  identity_ed25519_public : bytes;
  signature : bytes;
  key_confirmation_mac : bytes;
  ephemeral_x25519_private : SecureMemoryHandle.t;
  kyber_shared_secret : SecureMemoryHandle.t;
  classical_shared_secret : bytes }.
End CallInitOutput.
Abbreviation CallInitOutput := CallInitOutput.t.

Module CallAcceptOutput.
Record t : Type := mk {
  ephemeral_x25519_public : bytes;
  kyber_ciphertext : bytes;
  identity_ed25519_public : bytes;
  signature : bytes;
  key_confirmation_mac : bytes;
  key_material : CallKeyMaterial }.
End CallAcceptOutput.
Abbreviation CallAcceptOutput := CallAcceptOutput.t.

(** The random values of one exchange step: call identifier, ephemeral secret,
    encapsulation randomness. *)
Record CallEntropy : Type := mkCallEntropy { ce_call_id : bytes; ce_eph : bytes; ce_kyber : bytes }.

Section CallKeys.
Context `{P : Primitives} {SG : Signatures}.

Definition compute_dh (private_key public_key : bytes) (context : string) : PResult bytes :=
  check? (len private_key =? X25519_PRIVATE_KEY_BYTES) && (len public_key =? X25519_PUBLIC_KEY_BYTES)
    else ProtocolError.voip_call "invalid X25519 key size for VoIP DH" in
  let? _ := DhValidator.validate_x25519_public_key public_key in
  let shared_bytes := x25519_dh private_key public_key in
  check? negb (is_all_zero shared_bytes)
    else ProtocolError.voip_call "X25519 DH produced all-zero output for {context}" in
  Ok shared_bytes.

Definition append_call_material_message (message call_id eph_x25519_public kyber_ct : bytes) : bytes :=
  message ++ call_id ++ eph_x25519_public ++ kyber_ct.

Definition append_call_init_auth_context (message : bytes) (context : CallInitAuthContext) : bytes :=
  message ++ to_le_bytes 4 (version context) ++ to_le_bytes 4 (media_type context) ++
  to_le_bytes 4 (ratchet_interval_frames context) ++ to_le_bytes 4 (pq_rekey_interval_secs context) ++
  [if shield_mode context then 1 else 0].

Definition append_screen_share_signature_context (message : bytes) (screen_share : option ScreenShareMetadata) :
    PResult bytes :=
  match screen_share with
  | None => Ok message
  | Some m =>
      let message := message ++ bstr "Aura-VoIP-ScreenShare-v1" ++
        to_le_bytes 4 (ScreenShareMetadata.width m) ++ to_le_bytes 4 (ScreenShareMetadata.height m) ++
        to_le_bytes 4 (ScreenShareMetadata.frame_rate m) in
      match ScreenShareMetadata.codec_hint m with
      | Some hint =>
          check? len (bstr hint) <=? u32_max
            else ProtocolError.voip_call "screen-share codec hint too long" in
          Ok (message ++ [1] ++ to_le_bytes 4 (len (bstr hint)) ++ bstr hint)
      | None => Ok (message ++ [0])
      end
  end.

Definition sign_call_material_with_context (ed25519_secret call_id eph_x25519_public kyber_ct : bytes)
    (context : CallInitAuthContext) (screen_share : option ScreenShareMetadata) : PResult bytes :=
  check? len ed25519_secret =? ED25519_SECRET_KEY_BYTES
    else ProtocolError.voip_call "invalid Ed25519 secret key size" in
  check? ed25519_keypair_ok ed25519_secret else ProtocolError.voip_call "invalid Ed25519 keypair bytes" in
  let message := append_call_material_message [] call_id eph_x25519_public kyber_ct in
  let message := append_call_init_auth_context message context in
  let? message := append_screen_share_signature_context message screen_share in
  Ok (ed25519_sign ed25519_secret message).

Definition verify_call_signature_with_context (ed25519_public call_id eph_x25519_public kyber_ct signature : bytes)
    (context : CallInitAuthContext) (screen_share : option ScreenShareMetadata) : PResult unit :=
  check? len ed25519_public =? ED25519_PUBLIC_KEY_BYTES
    else ProtocolError.voip_call "invalid Ed25519 public key size" in
  check? len signature =? ED25519_SIGNATURE_BYTES else ProtocolError.voip_call "invalid signature size" in
  check? ed25519_public_ok ed25519_public else ProtocolError.voip_call "invalid Ed25519 public key" in
  let message := append_call_material_message [] call_id eph_x25519_public kyber_ct in
  let message := append_call_init_auth_context message context in
  let? message := append_screen_share_signature_context message screen_share in
  check? ed25519_verify_strict ed25519_public message signature
    else ProtocolError.voip_call "call signature verification failed" in
  Ok tt.

Definition compute_key_confirm_mac_with_context (root_secret info call_id : bytes)
    (context : CallInitAuthContext) : PResult bytes :=
  let mac_context := append_call_init_auth_context call_id context in
  let? mac_key := derive_key_bytes root_secret HMAC_BYTES mac_context info in
  Ok (hmac_sha256 mac_key mac_context).

(** The two shield passes, or the root itself. *)
Definition effective_root (root_secret call_id : bytes) (shield_mode : bool) : PResult bytes :=
  if shield_mode then
    let? pass1 := derive_key_bytes root_secret ROOT_KEY_BYTES call_id VOIP_SHIELD_KDF_PASS1 in
    derive_key_bytes pass1 ROOT_KEY_BYTES call_id VOIP_SHIELD_KDF_PASS2
  else Ok root_secret.

Definition derive_call_keys (root_secret call_id : bytes) (is_caller shield_mode : bool) :
    PResult CallKeyMaterial :=
  let? effective_root := effective_root root_secret call_id shield_mode in
  let '(send_info, recv_info) :=
    if is_caller then (VOIP_MEDIA_KEY_SEND_INFO, VOIP_MEDIA_KEY_RECV_INFO)
    else (VOIP_MEDIA_KEY_RECV_INFO, VOIP_MEDIA_KEY_SEND_INFO) in
  let '(hdr_send_info, hdr_recv_info) :=
    if is_caller then (VOIP_HEADER_KEY_SEND_INFO, VOIP_HEADER_KEY_RECV_INFO)
    else (VOIP_HEADER_KEY_RECV_INFO, VOIP_HEADER_KEY_SEND_INFO) in
  let? media_send := derive_key_bytes effective_root VOIP_MEDIA_KEY_BYTES call_id send_info in
  let? media_recv := derive_key_bytes effective_root VOIP_MEDIA_KEY_BYTES call_id recv_info in
  let? header_send := derive_key_bytes effective_root VOIP_HEADER_KEY_BYTES call_id hdr_send_info in
  let? header_recv := derive_key_bytes effective_root VOIP_HEADER_KEY_BYTES call_id hdr_recv_info in
  let? nonce_material :=
    derive_key_bytes effective_root (VOIP_NONCE_PREFIX_BYTES * 2) call_id VOIP_NONCE_PREFIX_INFO in
  let low := firstn (Z.to_nat VOIP_NONCE_PREFIX_BYTES) nonce_material in
  let high := skipn (Z.to_nat VOIP_NONCE_PREFIX_BYTES) nonce_material in
  let '(nonce_prefix_send, nonce_prefix_recv) := if is_caller then (low, high) else (high, low) in
  let? root_handle := crypto_err (SecureMemoryHandle.alloc_write ROOT_KEY_BYTES root_secret) in
  let? mk_send := crypto_err (SecureMemoryHandle.alloc_write VOIP_MEDIA_KEY_BYTES media_send) in
  let? mk_recv := crypto_err (SecureMemoryHandle.alloc_write VOIP_MEDIA_KEY_BYTES media_recv) in
  let? hk_send := crypto_err (SecureMemoryHandle.alloc_write VOIP_HEADER_KEY_BYTES header_send) in
  let? hk_recv := crypto_err (SecureMemoryHandle.alloc_write VOIP_HEADER_KEY_BYTES header_recv) in
  Ok (CallKeyMaterial.mk root_handle mk_send mk_recv hk_send hk_recv nonce_prefix_send nonce_prefix_recv).

Definition derive_call_keys_from_root (root_secret call_id : bytes) (is_caller shield_mode : bool) :
    PResult CallKeyMaterial := derive_call_keys root_secret call_id is_caller shield_mode.

(** ** Starting a call *)

Definition caller_init_with_context_and_screen_share
    (identity_ed25519_secret identity_ed25519_public peer_kyber_public : bytes)
    (auth_context : CallInitAuthContext) (screen_share : option ScreenShareMetadata) (ent : CallEntropy) :
    PResult CallInitOutput :=
  let call_id := ce_call_id ent in
  let eph_public_bytes := x25519_public (ce_eph ent) in
  let? eph_handle := crypto_err (SecureMemoryHandle.alloc_write X25519_PRIVATE_KEY_BYTES (ce_eph ent)) in
  let? (kyber_ct, kyber_ss) := crypto_err (kyber_encapsulate peer_kyber_public (ce_kyber ent)) in
  let? signature := sign_call_material_with_context identity_ed25519_secret call_id eph_public_bytes kyber_ct
    auth_context screen_share in
  let? kyber_ss_bytes := crypto_err (SecureMemoryHandle.read_bytes kyber_ss KYBER_SHARED_SECRET_BYTES) in
  let? mac := compute_key_confirm_mac_with_context kyber_ss_bytes VOIP_KEY_CONFIRM_CALLER_INFO call_id
    auth_context in
  Ok (CallInitOutput.mk call_id eph_public_bytes kyber_ct identity_ed25519_public signature mac eph_handle
        kyber_ss []).

Definition caller_init_with_context (identity_ed25519_secret identity_ed25519_public peer_kyber_public : bytes)
    (auth_context : CallInitAuthContext) (ent : CallEntropy) : PResult CallInitOutput :=
  caller_init_with_context_and_screen_share identity_ed25519_secret identity_ed25519_public peer_kyber_public
    auth_context None ent.

Definition callee_accept_with_context_and_screen_share
    (identity_ed25519_secret identity_ed25519_public : bytes) (identity_kyber_secret : SecureMemoryHandle.t)
    (peer_kyber_public call_id peer_eph_x25519_public peer_kyber_ct peer_ed25519_public peer_signature
     peer_key_confirm_mac : bytes) (auth_context : CallInitAuthContext)
    (peer_screen_share local_screen_share : option ScreenShareMetadata) (ent : CallEntropy) :
    PResult CallAcceptOutput :=
  check? len call_id =? CALL_ID_BYTES else ProtocolError.voip_call "invalid call_id size" in
  let? _ := verify_call_signature_with_context peer_ed25519_public call_id peer_eph_x25519_public peer_kyber_ct
    peer_signature auth_context peer_screen_share in
  let? caller_kyber_ss := crypto_err (kyber_decapsulate peer_kyber_ct identity_kyber_secret) in
  let? caller_kyber_ss_bytes :=
    crypto_err (SecureMemoryHandle.read_bytes caller_kyber_ss KYBER_SHARED_SECRET_BYTES) in
  let? expected_mac := compute_key_confirm_mac_with_context caller_kyber_ss_bytes VOIP_KEY_CONFIRM_CALLER_INFO
    call_id auth_context in
  check? unwrap_or (constant_time_equals peer_key_confirm_mac expected_mac) false
    else ProtocolError.voip_call "caller key confirmation MAC mismatch" in
  let eph_public_bytes := x25519_public (ce_eph ent) in
  let? classical_ss := compute_dh (ce_eph ent) peer_eph_x25519_public "callee_eph × caller_eph" in
  let? (callee_kyber_ct, callee_kyber_ss) := crypto_err (kyber_encapsulate peer_kyber_public (ce_kyber ent)) in
  let? callee_kyber_ss_bytes :=
    crypto_err (SecureMemoryHandle.read_bytes callee_kyber_ss KYBER_SHARED_SECRET_BYTES) in
  let combined_pq := caller_kyber_ss_bytes ++ callee_kyber_ss_bytes in
  let? root_secret := combine_hybrid_secrets classical_ss combined_pq ROOT_KEY_BYTES VOIP_ROOT_SECRET_INFO in
  let? signature := sign_call_material_with_context identity_ed25519_secret call_id eph_public_bytes
    callee_kyber_ct auth_context local_screen_share in
  let? mac := compute_key_confirm_mac_with_context root_secret VOIP_KEY_CONFIRM_CALLEE_INFO call_id
    auth_context in
  let? key_material := derive_call_keys root_secret call_id false (shield_mode auth_context) in
  Ok (CallAcceptOutput.mk eph_public_bytes callee_kyber_ct identity_ed25519_public signature mac key_material).

Definition callee_accept_with_context
    (identity_ed25519_secret identity_ed25519_public : bytes) (identity_kyber_secret : SecureMemoryHandle.t)
    (peer_kyber_public call_id peer_eph_x25519_public peer_kyber_ct peer_ed25519_public peer_signature
     peer_key_confirm_mac : bytes) (auth_context : CallInitAuthContext) (ent : CallEntropy) :
    PResult CallAcceptOutput :=
  callee_accept_with_context_and_screen_share identity_ed25519_secret identity_ed25519_public
    identity_kyber_secret peer_kyber_public call_id peer_eph_x25519_public peer_kyber_ct peer_ed25519_public
    peer_signature peer_key_confirm_mac auth_context None None ent.

Definition caller_finish_with_context_and_screen_share (init_output : CallInitOutput)
    (identity_kyber_secret : SecureMemoryHandle.t)
    (call_id peer_eph_x25519_public peer_kyber_ct peer_ed25519_public peer_signature peer_key_confirm_mac : bytes)
    (auth_context : CallInitAuthContext) (peer_screen_share : option ScreenShareMetadata) :
    PResult CallKeyMaterial :=
  check? len call_id =? CALL_ID_BYTES else ProtocolError.voip_call "invalid call_id size" in
  let? _ := verify_call_signature_with_context peer_ed25519_public call_id peer_eph_x25519_public peer_kyber_ct
    peer_signature auth_context peer_screen_share in
  let? eph_priv_bytes := crypto_err (SecureMemoryHandle.read_bytes
    (CallInitOutput.ephemeral_x25519_private init_output) X25519_PRIVATE_KEY_BYTES) in
  let? classical_ss := compute_dh eph_priv_bytes peer_eph_x25519_public "caller_eph × callee_eph" in
  let? callee_kyber_ss := crypto_err (kyber_decapsulate peer_kyber_ct identity_kyber_secret) in
  let? caller_kyber_ss_bytes := crypto_err (SecureMemoryHandle.read_bytes
    (CallInitOutput.kyber_shared_secret init_output) KYBER_SHARED_SECRET_BYTES) in
  let? callee_kyber_ss_bytes :=
    crypto_err (SecureMemoryHandle.read_bytes callee_kyber_ss KYBER_SHARED_SECRET_BYTES) in
  let combined_pq := caller_kyber_ss_bytes ++ callee_kyber_ss_bytes in
  let? root_secret := combine_hybrid_secrets classical_ss combined_pq ROOT_KEY_BYTES VOIP_ROOT_SECRET_INFO in
  let? expected_mac := compute_key_confirm_mac_with_context root_secret VOIP_KEY_CONFIRM_CALLEE_INFO call_id
    auth_context in
  check? unwrap_or (constant_time_equals peer_key_confirm_mac expected_mac) false
    else ProtocolError.voip_call "callee key confirmation MAC mismatch" in
  derive_call_keys root_secret call_id true (shield_mode auth_context).

Definition caller_finish_with_context (init_output : CallInitOutput)
    (identity_kyber_secret : SecureMemoryHandle.t)
    (call_id peer_eph_x25519_public peer_kyber_ct peer_ed25519_public peer_signature peer_key_confirm_mac : bytes)
    (auth_context : CallInitAuthContext) : PResult CallKeyMaterial :=
  caller_finish_with_context_and_screen_share init_output identity_kyber_secret call_id peer_eph_x25519_public
    peer_kyber_ct peer_ed25519_public peer_signature peer_key_confirm_mac auth_context None.

(** ** Rekeying *)

Definition verify_rekey_signature (ed25519_public call_id : bytes) (rekey_generation : Z)
    (eph_x25519_public kyber_ct signature : bytes) : PResult unit :=
  check? len ed25519_public =? ED25519_PUBLIC_KEY_BYTES
    else ProtocolError.voip_rekey "invalid Ed25519 public key size" in
  check? len signature =? ED25519_SIGNATURE_BYTES else ProtocolError.voip_rekey "invalid signature size" in
  check? len eph_x25519_public =? X25519_PUBLIC_KEY_BYTES
    else ProtocolError.voip_rekey "invalid rekey ephemeral key size" in
  check? len kyber_ct =? KYBER_CIPHERTEXT_BYTES
    else ProtocolError.voip_rekey "invalid rekey ciphertext size" in
  check? ed25519_public_ok ed25519_public else ProtocolError.voip_rekey "invalid Ed25519 public key" in
  let message := append_call_material_message [] call_id eph_x25519_public kyber_ct in
  let message := message ++ to_le_bytes 4 rekey_generation in
  check? ed25519_verify_strict ed25519_public message signature
    else ProtocolError.voip_rekey "rekey signature verification failed" in
  Ok tt.

Definition sign_rekey_material (ed25519_secret call_id : bytes) (rekey_generation : Z)
    (eph_x25519_public kyber_ct : bytes) : PResult bytes :=
  check? len ed25519_secret =? ED25519_SECRET_KEY_BYTES
    else ProtocolError.voip_rekey "invalid Ed25519 secret key size" in
  check? ed25519_keypair_ok ed25519_secret else ProtocolError.voip_rekey "invalid Ed25519 keypair bytes" in
  let message := append_call_material_message [] call_id eph_x25519_public kyber_ct in
  let message := message ++ to_le_bytes 4 rekey_generation in
  Ok (ed25519_sign ed25519_secret message).

Definition compute_rekey_mac (key_material info call_id : bytes) (rekey_generation : Z) : PResult bytes :=
  let context := call_id ++ to_le_bytes 4 rekey_generation in
  let? mac_key := derive_key_bytes key_material HMAC_BYTES context info in
  Ok (hmac_sha256 mac_key context).

Definition compute_rekey_mac_bound (current_root_secret fresh_kyber_ss info call_id : bytes)
    (rekey_generation : Z) : PResult bytes :=
  let ikm := current_root_secret ++ fresh_kyber_ss in
  compute_rekey_mac ikm info call_id rekey_generation.

Definition rekey_initiate (identity_ed25519_secret peer_kyber_public call_id : bytes)
    (current_root_secret : SecureMemoryHandle.t) (rekey_generation : Z) (ent : CallEntropy) :
    PResult (CallInitOutput * Z) :=
  check? negb (MAX_RATCHET_GENERATION <=? rekey_generation)
    else ProtocolError.voip_rekey "rekey generation limit reached" in
  let eph_public_bytes := x25519_public (ce_eph ent) in
  let? eph_handle := crypto_err (SecureMemoryHandle.alloc_write X25519_PRIVATE_KEY_BYTES (ce_eph ent)) in
  let? (kyber_ct, kyber_ss) := crypto_err (kyber_encapsulate peer_kyber_public (ce_kyber ent)) in
  let new_gen := rekey_generation + 1 in
  let? signature := sign_rekey_material identity_ed25519_secret call_id new_gen eph_public_bytes kyber_ct in
  let? kyber_ss_bytes := crypto_err (SecureMemoryHandle.read_bytes kyber_ss KYBER_SHARED_SECRET_BYTES) in
  let? current_root_bytes := crypto_err (SecureMemoryHandle.read_bytes current_root_secret ROOT_KEY_BYTES) in
  let? mac := compute_rekey_mac_bound current_root_bytes kyber_ss_bytes VOIP_KEY_CONFIRM_CALLER_INFO call_id
    new_gen in
  Ok (CallInitOutput.mk call_id eph_public_bytes kyber_ct [] signature mac eph_handle kyber_ss [], new_gen).

Definition rekey_complete (current_root_secret : SecureMemoryHandle.t) (classical_ss new_kyber_ss call_id : bytes)
    (is_initiator shield_mode : bool) : PResult CallKeyMaterial :=
  let? old_root := crypto_err (SecureMemoryHandle.read_bytes current_root_secret ROOT_KEY_BYTES) in
  let rekey_ikm := old_root ++ classical_ss ++ new_kyber_ss in
  let? new_root := derive_key_bytes rekey_ikm ROOT_KEY_BYTES call_id VOIP_REKEY_INFO in
  derive_call_keys new_root call_id is_initiator shield_mode.

End CallKeys.

(** ** The keys of a call *)

Section Agreement.
Context `{P : Primitives} {L : PrimitiveLaws P} {SG : Signatures} {SL : SignatureLaws SG}.

Lemma kyber_exchange e r :
  exists ct ss, kyber_encapsulate (snd (mlkem_generate e)) r = Ok (ct, SecureMemoryHandle.mk ss) /\
    kyber_decapsulate ct (SecureMemoryHandle.mk (fst (mlkem_generate e))) = Ok (SecureMemoryHandle.mk ss) /\
    len ss = KYBER_SHARED_SECRET_BYTES /\ len ct = KYBER_CIPHERTEXT_BYTES.
Proof.
  pose proof (mlkem_generate_len e) as [_ Hk].
  destruct (mlkem_encapsulate_len (snd (mlkem_generate e)) r) as [Hc Hs].
  destruct (mlkem_encapsulate (snd (mlkem_generate e)) r) as [ct ss] eqn:He.
  assert (Henc : kyber_encapsulate (snd (mlkem_generate e)) r = Ok (ct, SecureMemoryHandle.mk ss)).
  { unfold kyber_encapsulate, kyber_encapsulate_with_rng. rewrite Hk, mlkem_ek_valid. run_res. rewrite He.
    now rewrite SecureMemoryHandle.alloc_write_exact. }
  exists ct, ss. repeat split; auto. exact (kyber_roundtrip e _ r ct _ eq_refl Henc).
Qed.

Definition root_of (root call_id : bytes) (shield : bool) : bytes :=
  if shield
  then kdf (kdf root ROOT_KEY_BYTES call_id VOIP_SHIELD_KDF_PASS1) ROOT_KEY_BYTES call_id VOIP_SHIELD_KDF_PASS2
  else root.

(** The key of one direction: [dir] is the caller's sending direction. *)
Definition media_key_of (root call_id : bytes) (shield dir : bool) : SecureMemoryHandle.t :=
  SecureMemoryHandle.mk (kdf (root_of root call_id shield) VOIP_MEDIA_KEY_BYTES call_id
    (if dir then VOIP_MEDIA_KEY_SEND_INFO else VOIP_MEDIA_KEY_RECV_INFO)).
Definition header_key_of (root call_id : bytes) (shield dir : bool) : SecureMemoryHandle.t :=
  SecureMemoryHandle.mk (kdf (root_of root call_id shield) VOIP_HEADER_KEY_BYTES call_id
    (if dir then VOIP_HEADER_KEY_SEND_INFO else VOIP_HEADER_KEY_RECV_INFO)).
Definition prefix_of (root call_id : bytes) (shield dir : bool) : bytes :=
  let m := kdf (root_of root call_id shield) (VOIP_NONCE_PREFIX_BYTES * 2) call_id VOIP_NONCE_PREFIX_INFO in
  if dir then firstn (Z.to_nat VOIP_NONCE_PREFIX_BYTES) m else skipn (Z.to_nat VOIP_NONCE_PREFIX_BYTES) m.

Definition key_material_of (root call_id : bytes) (shield dir : bool) : CallKeyMaterial :=
  CallKeyMaterial.mk (SecureMemoryHandle.mk root)
    (media_key_of root call_id shield dir) (media_key_of root call_id shield (negb dir))
    (header_key_of root call_id shield dir) (header_key_of root call_id shield (negb dir))
    (prefix_of root call_id shield dir) (prefix_of root call_id shield (negb dir)).

Lemma effective_root_ok root call_id shield :
  effective_root root call_id shield = Ok (root_of root call_id shield).
Proof.
  unfold effective_root, root_of. destruct shield; [|reflexivity].
  rewrite derive_key_bytes_ok by easy. run_res. now rewrite derive_key_bytes_ok by easy.
Qed.

Lemma alloc_kdf ikm n salt info : 0 < n <= MAX_BUFFER_SIZE ->
  SecureMemoryHandle.alloc_write n (kdf ikm n salt info) = Ok (SecureMemoryHandle.mk (kdf ikm n salt info)).
Proof. intros H. apply SecureMemoryHandle.alloc_write_exact; [exact H|apply kdf_len; lia]. Qed.

Lemma derive_call_keys_ok root call_id dir shield :
  len root = ROOT_KEY_BYTES ->
  derive_call_keys root call_id dir shield = Ok (key_material_of root call_id shield dir).
Proof.
  intros Hr. unfold derive_call_keys. rewrite effective_root_ok. run_res.
  rewrite SecureMemoryHandle.alloc_write_exact by easy.
  destruct dir; rewrite !derive_key_bytes_ok by easy; run_res; now rewrite !alloc_kdf by easy.
Qed.

Lemma len_prefix_of root call_id shield dir : len (prefix_of root call_id shield dir) = VOIP_NONCE_PREFIX_BYTES.
Proof.
  unfold prefix_of. destruct dir; rewrite ?len_firstn, ?len_skipn, kdf_len; easy.
Qed.

(** What one party sends with, the other receives with. *)
Definition mirrored (a b : CallKeyMaterial) : Prop :=
  CallKeyMaterial.root_secret a = CallKeyMaterial.root_secret b /\
  CallKeyMaterial.media_key_send a = CallKeyMaterial.media_key_recv b /\
  CallKeyMaterial.media_key_recv a = CallKeyMaterial.media_key_send b /\
  CallKeyMaterial.header_key_send a = CallKeyMaterial.header_key_recv b /\
  CallKeyMaterial.header_key_recv a = CallKeyMaterial.header_key_send b /\
  CallKeyMaterial.nonce_prefix_send a = CallKeyMaterial.nonce_prefix_recv b /\
  CallKeyMaterial.nonce_prefix_recv a = CallKeyMaterial.nonce_prefix_send b.

Lemma key_material_mirrored root call_id shield dir :
  mirrored (key_material_of root call_id shield dir) (key_material_of root call_id shield (negb dir)).
Proof. unfold mirrored, key_material_of. simpl. now rewrite negb_involutive. Qed.

(** ** The exchange *)

Definition hint_ok (m : option ScreenShareMetadata) : Prop :=
  match m with
  | Some m => match ScreenShareMetadata.codec_hint m with
              | Some h => len (bstr h) <= u32_max | None => True end
  | None => True
  end.

Lemma screen_share_context_ok msg m :
  hint_ok m -> exists msg', append_screen_share_signature_context msg m = Ok msg'.
Proof.
  unfold append_screen_share_signature_context, hint_ok. destruct m as [m|]; [|eauto].
  destruct (ScreenShareMetadata.codec_hint m) as [h|]; [|eauto]. intros Hh.
  destruct (Z.leb_spec (len (bstr h)) u32_max); [run_res; eauto|lia].
Qed.

Lemma sign_verify_call s call_id eph ct ctx m :
  hint_ok m ->
  exists sg, sign_call_material_with_context (ed25519_keypair s) call_id eph ct ctx m = Ok sg /\
    verify_call_signature_with_context (ed25519_public (ed25519_keypair s)) call_id eph ct sg ctx m = Ok tt.
Proof.
  intros Hm. unfold sign_call_material_with_context, verify_call_signature_with_context.
  destruct (screen_share_context_ok
    (append_call_init_auth_context (append_call_material_message [] call_id eph ct) ctx) m Hm) as [msg ->].
  rewrite (ed25519_keypair_len s), ed25519_keypair_valid, (ed25519_public_len _ (ed25519_keypair_len s)),
    ed25519_public_valid. run_res. eexists. split; [reflexivity|].
  rewrite ed25519_sign_len, ed25519_sign_verify. reflexivity.
Qed.

Lemma sign_verify_rekey s call_id g eph ct :
  len eph = X25519_PUBLIC_KEY_BYTES -> len ct = KYBER_CIPHERTEXT_BYTES ->
  exists sg, sign_rekey_material (ed25519_keypair s) call_id g eph ct = Ok sg /\
    verify_rekey_signature (ed25519_public (ed25519_keypair s)) call_id g eph ct sg = Ok tt.
Proof.
  intros He Hc. unfold sign_rekey_material, verify_rekey_signature.
  rewrite (ed25519_keypair_len s), ed25519_keypair_valid, (ed25519_public_len _ (ed25519_keypair_len s)),
    ed25519_public_valid, He, Hc. run_res. eexists. split; [reflexivity|].
  rewrite ed25519_sign_len, ed25519_sign_verify. reflexivity.
Qed.

Lemma call_dh_ok a b context :
  len a = X25519_PRIVATE_KEY_BYTES -> DhValidator.validate_x25519_public_key (x25519_public b) = Ok tt ->
  is_all_zero (x25519_dh a (x25519_public b)) = false ->
  compute_dh a (x25519_public b) context = Ok (x25519_dh a (x25519_public b)).
Proof.
  intros Ha Hv Hz. unfold compute_dh. rewrite Ha, x25519_public_len, Hv. simpl. now rewrite Hz.
Qed.

Definition confirm_mac (root info call_id : bytes) (ctx : CallInitAuthContext) : bytes :=
  let c := append_call_init_auth_context call_id ctx in hmac_sha256 (kdf root HMAC_BYTES c info) c.

Lemma compute_confirm_ok root info call_id ctx :
  compute_key_confirm_mac_with_context root info call_id ctx = Ok (confirm_mac root info call_id ctx).
Proof. unfold compute_key_confirm_mac_with_context. now rewrite derive_key_bytes_ok by easy. Qed.

Lemma confirm_accepted m : unwrap_or (constant_time_equals m m) false = true.
Proof. rewrite constant_time_equals_spec. simpl. apply bytes_eqb_refl. Qed.

End Agreement.
(** ** Agreement *)

(** The long-term keys of a party: signature seed and ML-KEM randomness. *)
Record CallParty : Type := mkCallParty { cp_seed : bytes; cp_kem : bytes }.

Section Exchange.
Context `{P : Primitives} {L : PrimitiveLaws P} {SG : Signatures} {SL : SignatureLaws SG}.

Definition cp_ed25519 (p : CallParty) : bytes := ed25519_keypair (cp_seed p).
Definition cp_ed25519_public (p : CallParty) : bytes := ed25519_public (cp_ed25519 p).
Definition cp_kyber_secret (p : CallParty) : SecureMemoryHandle.t := SecureMemoryHandle.mk (fst (mlkem_generate (cp_kem p))).
Definition cp_kyber_public (p : CallParty) : bytes := snd (mlkem_generate (cp_kem p)).

(** Fresh values of the sizes the random source delivers, with ephemeral keys
    that pass the validation of the peer. *)
Definition fresh_pair (a b : CallEntropy) : Prop :=
  len (ce_call_id a) = CALL_ID_BYTES /\ len (ce_eph a) = X25519_PRIVATE_KEY_BYTES /\
  len (ce_eph b) = X25519_PRIVATE_KEY_BYTES /\
  DhValidator.validate_x25519_public_key (x25519_public (ce_eph a)) = Ok tt /\
  DhValidator.validate_x25519_public_key (x25519_public (ce_eph b)) = Ok tt /\
  is_all_zero (x25519_dh (ce_eph a) (x25519_public (ce_eph b))) = false.

Lemma kyber_shared_read ss : len ss = KYBER_SHARED_SECRET_BYTES ->
  SecureMemoryHandle.read_bytes (SecureMemoryHandle.mk ss) KYBER_SHARED_SECRET_BYTES = Ok ss.
Proof. apply SecureMemoryHandle.read_bytes_exact. Qed.

(** The run of an undisturbed exchange. *)
Lemma exchange_ok (caller callee : CallParty) ctx sa sb ea eb
    (Hsa : hint_ok sa) (Hsb : hint_ok sb) (Hf : fresh_pair ea eb) :
  exists init acc root,
    caller_init_with_context_and_screen_share (cp_ed25519 caller) (cp_ed25519_public caller)
      (cp_kyber_public callee) ctx sa ea = Ok init /\
    callee_accept_with_context_and_screen_share (cp_ed25519 callee) (cp_ed25519_public callee)
      (cp_kyber_secret callee) (cp_kyber_public caller) (CallInitOutput.call_id init)
      (CallInitOutput.ephemeral_x25519_public init) (CallInitOutput.kyber_ciphertext init)
      (CallInitOutput.identity_ed25519_public init) (CallInitOutput.signature init)
      (CallInitOutput.key_confirmation_mac init) ctx sa sb eb = Ok acc /\
    caller_finish_with_context_and_screen_share init (cp_kyber_secret caller) (CallInitOutput.call_id init)
      (CallAcceptOutput.ephemeral_x25519_public acc) (CallAcceptOutput.kyber_ciphertext acc)
      (CallAcceptOutput.identity_ed25519_public acc) (CallAcceptOutput.signature acc)
      (CallAcceptOutput.key_confirmation_mac acc) ctx sb =
      Ok (key_material_of root (CallInitOutput.call_id init) (shield_mode ctx) true) /\
    CallAcceptOutput.key_material acc =
      key_material_of root (CallInitOutput.call_id init) (shield_mode ctx) false /\
    CallInitOutput.call_id init = ce_call_id ea /\ len root = ROOT_KEY_BYTES.
Proof.
  destruct Hf as (Hid & Hea & Heb & Hva & Hvb & Hz).
  destruct (kyber_exchange (cp_kem callee) (ce_kyber ea)) as (ct1 & ss1 & He1 & Hd1 & Hs1 & Hc1).
  destruct (kyber_exchange (cp_kem caller) (ce_kyber eb)) as (ct2 & ss2 & He2 & Hd2 & Hs2 & Hc2).
  destruct (sign_verify_call (cp_seed caller) (ce_call_id ea) (x25519_public (ce_eph ea)) ct1 ctx sa Hsa)
    as (sg1 & Hg1 & Hv1).
  destruct (sign_verify_call (cp_seed callee) (ce_call_id ea) (x25519_public (ce_eph eb)) ct2 ctx sb Hsb)
    as (sg2 & Hg2 & Hv2).
  pose proof (x25519_agree (ce_eph ea) (ce_eph eb)) as Hag.
  eexists _, _, _. split; [|split; [|split; [|split; [|split]]]].
  - unfold caller_init_with_context_and_screen_share, crypto_err, cp_ed25519, cp_kyber_public.
    rewrite SecureMemoryHandle.alloc_write_exact, He1 by easy. run_res. rewrite Hg1. run_res.
    rewrite kyber_shared_read by exact Hs1. run_res. rewrite compute_confirm_ok. reflexivity.
  - cbn [CallInitOutput.call_id CallInitOutput.ephemeral_x25519_public CallInitOutput.kyber_ciphertext
      CallInitOutput.identity_ed25519_public CallInitOutput.signature CallInitOutput.key_confirmation_mac].
    unfold callee_accept_with_context_and_screen_share, crypto_err, cp_ed25519, cp_kyber_public,
      cp_kyber_secret, cp_ed25519_public, cp_ed25519.
    rewrite Hid, Hv1, Hd1. run_res. rewrite kyber_shared_read by exact Hs1. run_res.
    rewrite compute_confirm_ok. run_res. rewrite confirm_accepted. run_res.
    rewrite call_dh_ok by (assumption || congruence). run_res. rewrite He2. run_res.
    rewrite kyber_shared_read by exact Hs2. run_res. unfold combine_hybrid_secrets.
    rewrite derive_key_bytes_ok by easy. run_res. rewrite Hg2. run_res. rewrite compute_confirm_ok. run_res.
    rewrite derive_call_keys_ok by (apply kdf_len; easy). reflexivity.
  - cbn [CallInitOutput.call_id CallInitOutput.ephemeral_x25519_private CallInitOutput.kyber_shared_secret
      CallAcceptOutput.ephemeral_x25519_public CallAcceptOutput.kyber_ciphertext CallAcceptOutput.signature
      CallAcceptOutput.identity_ed25519_public CallAcceptOutput.key_confirmation_mac].
    unfold caller_finish_with_context_and_screen_share, crypto_err, cp_kyber_secret, cp_ed25519_public, cp_ed25519.
    cbn [CallInitOutput.ephemeral_x25519_private CallInitOutput.kyber_shared_secret].
    rewrite Hid, Hv2, SecureMemoryHandle.read_bytes_exact by exact Hea. run_res.
    rewrite call_dh_ok by assumption. run_res. rewrite Hd2. run_res.
    rewrite !kyber_shared_read by assumption. run_res. unfold combine_hybrid_secrets.
    rewrite derive_key_bytes_ok by easy. run_res. rewrite compute_confirm_ok, Hag. run_res.
    rewrite confirm_accepted. run_res. rewrite derive_call_keys_ok by (apply kdf_len; easy). reflexivity.
  - reflexivity.
  - reflexivity.
  - apply kdf_len. easy.
Qed.

(** C15. An undisturbed exchange succeeds at every step, and caller and callee
    end with mirrored keys: what one sends with, the other receives with. *)
Theorem call_keys_agree (caller callee : CallParty) ctx sa sb ea eb
    (Hsa : hint_ok sa) (Hsb : hint_ok sb) (Hf : fresh_pair ea eb) :
  exists init acc km,
    caller_init_with_context_and_screen_share (cp_ed25519 caller) (cp_ed25519_public caller)
      (cp_kyber_public callee) ctx sa ea = Ok init /\
    callee_accept_with_context_and_screen_share (cp_ed25519 callee) (cp_ed25519_public callee)
      (cp_kyber_secret callee) (cp_kyber_public caller) (CallInitOutput.call_id init)
      (CallInitOutput.ephemeral_x25519_public init) (CallInitOutput.kyber_ciphertext init)
      (CallInitOutput.identity_ed25519_public init) (CallInitOutput.signature init)
      (CallInitOutput.key_confirmation_mac init) ctx sa sb eb = Ok acc /\
    caller_finish_with_context_and_screen_share init (cp_kyber_secret caller) (CallInitOutput.call_id init)
      (CallAcceptOutput.ephemeral_x25519_public acc) (CallAcceptOutput.kyber_ciphertext acc)
      (CallAcceptOutput.identity_ed25519_public acc) (CallAcceptOutput.signature acc)
      (CallAcceptOutput.key_confirmation_mac acc) ctx sb = Ok km /\
    mirrored km (CallAcceptOutput.key_material acc).
Proof.
  destruct (exchange_ok caller callee ctx sa sb ea eb Hsa Hsb Hf) as (init & acc & root & Hi & Ha & Hk & Hm & _).
  exists init, acc, (key_material_of root (CallInitOutput.call_id init) (shield_mode ctx) true). rewrite Hm.
  repeat (split; [assumption|]). exact (key_material_mirrored root _ (shield_mode ctx) true).
Qed.

End Exchange.

(** ** A concrete exchange *)

Definition toy_caller : CallParty := mkCallParty [1; 2; 3] [4; 5; 6].
Definition toy_callee : CallParty := mkCallParty [7; 8; 9] [10; 11; 12].
Definition toy_call_entropy (n : Z) : CallEntropy :=
  mkCallEntropy (resize 32 (n + 1) []) (resize 32 (n + 2) []) (resize 32 (n + 3) []).
Definition toy_ctx : CallInitAuthContext := mkAuthContext 2 1 4 60 true.
Definition toy_screen : option ScreenShareMetadata := Some (ScreenShareMetadata.mk 1920 1080 30 (Some "av1"%string)).

Lemma toy_fresh : fresh_pair (toy_call_entropy 20) (toy_call_entropy 30).
Proof. unfold fresh_pair. repeat split; vm_compute; reflexivity. Qed.

Lemma call_keys_agree_witness :
  exists init acc km,
    caller_init_with_context_and_screen_share (cp_ed25519 toy_caller) (cp_ed25519_public toy_caller)
      (cp_kyber_public toy_callee) toy_ctx toy_screen (toy_call_entropy 20) = Ok init /\
    mirrored km (CallAcceptOutput.key_material acc).
Proof.
  destruct (call_keys_agree toy_caller toy_callee toy_ctx toy_screen None (toy_call_entropy 20) (toy_call_entropy 30))
    as (init & acc & km & Hi & _ & _ & Hm).
  - vm_compute. discriminate.
  - exact I.
  - exact toy_fresh.
  - exists init, acc, km. split; assumption.
Defined.
