(* ===== verification/VoipSession.v ===== *)
(** * Call sessions ([src/protocol/voip/mod.rs])

    An active call: media frames and in-band controls, the signed rekey
    exchange, the authenticated end of the call, recording consent, screen
    sharing, statistics and the sealed state.  An operation is a state and error
    computation on [VoipSessionInner]; the mutex, under which each of them runs
    to its end, is left out.  Random values and clock readings are arguments.
    Counters are unbounded integers: the build checks for overflow, so a run
    past their width stops instead of wrapping. *)

From Stdlib Require Import ZArith List Bool Lia String.
From S2P Require Import Prelude Constants SecureMemory Crypto Signatures DhValidator ReplayWindow.
From S2P Require Import KeyRatchet Proto VoipFrame CallKeys.
Import ListNotations.
Open Scope string_scope.
Open Scope list_scope.
Open Scope Z_scope.

Inductive CallRole : Type := Caller | Callee.
Inductive CallState : Type := Init | Ringing | Active | Ended.
Inductive CallControlType : Type := Mute | Unmute | Hold | Unhold | Dtmf (tone : Z).

(** Calls on [IVoipEventHandler]. *)
Inductive VoipEvent : Type :=
| on_call_established (call_id : bytes) (role : CallRole)
| on_rekey_completed (call_id : bytes) (new_generation : Z)
| on_frame_auth_failed (call_id : bytes) (frame_counter : Z)
| on_replay_detected (call_id : bytes) (frame_counter : Z)
| on_ratchet_exhaustion_warning (call_id : bytes) (remaining max : Z)
| on_call_ended (call_id : bytes)
| on_frame_dropped_late (call_id : bytes) (frame_counter : Z).

Definition is_active (s : CallState) : bool := match s with Active => true | _ => false end.
Definition is_ended (s : CallState) : bool := match s with Ended => true | _ => false end.
Definition is_caller_role (r : CallRole) : bool := match r with Caller => true | Callee => false end.

Module EncryptedFrame.
Record t : Type := mk {
  call_id : bytes;
  ssrc : Z;
  frame_counter : Z;
  ratchet_generation : Z;
  encrypted_payload : bytes;
  nonce : bytes;
  encrypted_header : bytes }.
End EncryptedFrame.
Abbreviation EncryptedFrame := EncryptedFrame.t.

Module DecryptedFrame.
Record t : Type := mk {
  header : FrameHeader.t;
  payload : bytes;
  frame_counter : Z;
  ratchet_generation : Z }.
End DecryptedFrame.
Abbreviation DecryptedFrame := DecryptedFrame.t.

Module CallStatistics.
Record t : Type := mk {
  frames_sent : Z;
  frames_received : Z;
  frames_dropped : Z;
  rekey_count : Z;
  ratchet_generation : Z;
  call_duration_secs : Z }.
End CallStatistics.

(** [struct VoipSessionInner].  [event_handler] says whether a handler is installed;
    [handler_calls] records the calls it received, newest first. *)
Module VoipSessionInner.

Record t : Type := mk {
  call_id : bytes;
  role : CallRole;
  state : CallState;
  ssrc : Z;
  send_ratchet : MediaKeyRatchet;
  recv_ratchet : MediaKeyRatchet;
  header_key_send : SecureMemoryHandle.t;
  header_key_recv : SecureMemoryHandle.t;
  root_secret : SecureMemoryHandle.t;
  send_frame_counter : Z;
  replay_window : ReplayWindow.t;
  ratchet_generation : Z;
  ratchet_interval_frames : Z;
  pq_rekey_interval_secs : Z;
  shield_mode : bool;
  frames_since_ratchet : Z;
  event_handler : bool;
  pending_rekey : option CallInitOutput;
  screen_share_meta : option ScreenShareMetadata;
  frames_sent : Z;
  frames_received : Z;
  frames_dropped : Z;
  last_metrics_timestamp : Z;
  local_recording_consent : Z;
  local_recording_consent_timestamp_unix : Z;
  remote_recording_consent : Z;
  remote_recording_consent_timestamp_unix : Z;
  created_at_unix : Z;
  handler_calls : list VoipEvent }.

Definition set_state (v : CallState) (s : t) : t :=
  mk (call_id s) (role s) v (ssrc s) (send_ratchet s) (recv_ratchet s) (header_key_send s)
    (header_key_recv s) (root_secret s) (send_frame_counter s) (replay_window s)
    (ratchet_generation s) (ratchet_interval_frames s) (pq_rekey_interval_secs s) (shield_mode s)
    (frames_since_ratchet s) (event_handler s) (pending_rekey s) (screen_share_meta s)
    (frames_sent s) (frames_received s) (frames_dropped s) (last_metrics_timestamp s)
    (local_recording_consent s) (local_recording_consent_timestamp_unix s)
    (remote_recording_consent s) (remote_recording_consent_timestamp_unix s) (created_at_unix s)
    (handler_calls s).
Definition set_send_ratchet (v : MediaKeyRatchet) (s : t) : t :=
  mk (call_id s) (role s) (state s) (ssrc s) v (recv_ratchet s) (header_key_send s)
    (header_key_recv s) (root_secret s) (send_frame_counter s) (replay_window s)
    (ratchet_generation s) (ratchet_interval_frames s) (pq_rekey_interval_secs s) (shield_mode s)
    (frames_since_ratchet s) (event_handler s) (pending_rekey s) (screen_share_meta s)
    (frames_sent s) (frames_received s) (frames_dropped s) (last_metrics_timestamp s)
    (local_recording_consent s) (local_recording_consent_timestamp_unix s)
    (remote_recording_consent s) (remote_recording_consent_timestamp_unix s) (created_at_unix s)
    (handler_calls s).
Definition set_recv_ratchet (v : MediaKeyRatchet) (s : t) : t :=
  mk (call_id s) (role s) (state s) (ssrc s) (send_ratchet s) v (header_key_send s)
    (header_key_recv s) (root_secret s) (send_frame_counter s) (replay_window s)
    (ratchet_generation s) (ratchet_interval_frames s) (pq_rekey_interval_secs s) (shield_mode s)
    (frames_since_ratchet s) (event_handler s) (pending_rekey s) (screen_share_meta s)
    (frames_sent s) (frames_received s) (frames_dropped s) (last_metrics_timestamp s)
    (local_recording_consent s) (local_recording_consent_timestamp_unix s)
    (remote_recording_consent s) (remote_recording_consent_timestamp_unix s) (created_at_unix s)
    (handler_calls s).
Definition set_header_key_send (v : SecureMemoryHandle.t) (s : t) : t :=
  mk (call_id s) (role s) (state s) (ssrc s) (send_ratchet s) (recv_ratchet s) v
    (header_key_recv s) (root_secret s) (send_frame_counter s) (replay_window s)
    (ratchet_generation s) (ratchet_interval_frames s) (pq_rekey_interval_secs s) (shield_mode s)
    (frames_since_ratchet s) (event_handler s) (pending_rekey s) (screen_share_meta s)
    (frames_sent s) (frames_received s) (frames_dropped s) (last_metrics_timestamp s)
    (local_recording_consent s) (local_recording_consent_timestamp_unix s)
    (remote_recording_consent s) (remote_recording_consent_timestamp_unix s) (created_at_unix s)
    (handler_calls s).
Definition set_header_key_recv (v : SecureMemoryHandle.t) (s : t) : t :=
  mk (call_id s) (role s) (state s) (ssrc s) (send_ratchet s) (recv_ratchet s)
    (header_key_send s) v (root_secret s) (send_frame_counter s) (replay_window s)
    (ratchet_generation s) (ratchet_interval_frames s) (pq_rekey_interval_secs s) (shield_mode s)
    (frames_since_ratchet s) (event_handler s) (pending_rekey s) (screen_share_meta s)
    (frames_sent s) (frames_received s) (frames_dropped s) (last_metrics_timestamp s)
    (local_recording_consent s) (local_recording_consent_timestamp_unix s)
    (remote_recording_consent s) (remote_recording_consent_timestamp_unix s) (created_at_unix s)
    (handler_calls s).
Definition set_root_secret (v : SecureMemoryHandle.t) (s : t) : t :=
  mk (call_id s) (role s) (state s) (ssrc s) (send_ratchet s) (recv_ratchet s) (header_key_send s)
    (header_key_recv s) v (send_frame_counter s) (replay_window s) (ratchet_generation s)
    (ratchet_interval_frames s) (pq_rekey_interval_secs s) (shield_mode s)
    (frames_since_ratchet s) (event_handler s) (pending_rekey s) (screen_share_meta s)
    (frames_sent s) (frames_received s) (frames_dropped s) (last_metrics_timestamp s)
    (local_recording_consent s) (local_recording_consent_timestamp_unix s)
    (remote_recording_consent s) (remote_recording_consent_timestamp_unix s) (created_at_unix s)
    (handler_calls s).
Definition set_send_frame_counter (v : Z) (s : t) : t :=
  mk (call_id s) (role s) (state s) (ssrc s) (send_ratchet s) (recv_ratchet s) (header_key_send s)
    (header_key_recv s) (root_secret s) v (replay_window s) (ratchet_generation s)
    (ratchet_interval_frames s) (pq_rekey_interval_secs s) (shield_mode s)
    (frames_since_ratchet s) (event_handler s) (pending_rekey s) (screen_share_meta s)
    (frames_sent s) (frames_received s) (frames_dropped s) (last_metrics_timestamp s)
    (local_recording_consent s) (local_recording_consent_timestamp_unix s)
    (remote_recording_consent s) (remote_recording_consent_timestamp_unix s) (created_at_unix s)
    (handler_calls s).
Definition set_replay_window (v : ReplayWindow.t) (s : t) : t :=
  mk (call_id s) (role s) (state s) (ssrc s) (send_ratchet s) (recv_ratchet s) (header_key_send s)
    (header_key_recv s) (root_secret s) (send_frame_counter s) v (ratchet_generation s)
    (ratchet_interval_frames s) (pq_rekey_interval_secs s) (shield_mode s)
    (frames_since_ratchet s) (event_handler s) (pending_rekey s) (screen_share_meta s)
    (frames_sent s) (frames_received s) (frames_dropped s) (last_metrics_timestamp s)
    (local_recording_consent s) (local_recording_consent_timestamp_unix s)
    (remote_recording_consent s) (remote_recording_consent_timestamp_unix s) (created_at_unix s)
    (handler_calls s).
Definition set_ratchet_generation (v : Z) (s : t) : t :=
  mk (call_id s) (role s) (state s) (ssrc s) (send_ratchet s) (recv_ratchet s) (header_key_send s)
    (header_key_recv s) (root_secret s) (send_frame_counter s) (replay_window s) v
    (ratchet_interval_frames s) (pq_rekey_interval_secs s) (shield_mode s)
    (frames_since_ratchet s) (event_handler s) (pending_rekey s) (screen_share_meta s)
    (frames_sent s) (frames_received s) (frames_dropped s) (last_metrics_timestamp s)
    (local_recording_consent s) (local_recording_consent_timestamp_unix s)
    (remote_recording_consent s) (remote_recording_consent_timestamp_unix s) (created_at_unix s)
    (handler_calls s).
Definition set_frames_since_ratchet (v : Z) (s : t) : t :=
  mk (call_id s) (role s) (state s) (ssrc s) (send_ratchet s) (recv_ratchet s) (header_key_send s)
    (header_key_recv s) (root_secret s) (send_frame_counter s) (replay_window s)
    (ratchet_generation s) (ratchet_interval_frames s) (pq_rekey_interval_secs s)
    (shield_mode s) v (event_handler s) (pending_rekey s) (screen_share_meta s) (frames_sent s)
    (frames_received s) (frames_dropped s) (last_metrics_timestamp s) (local_recording_consent s)
    (local_recording_consent_timestamp_unix s) (remote_recording_consent s)
    (remote_recording_consent_timestamp_unix s) (created_at_unix s) (handler_calls s).
Definition set_event_handler (v : bool) (s : t) : t :=
  mk (call_id s) (role s) (state s) (ssrc s) (send_ratchet s) (recv_ratchet s) (header_key_send s)
    (header_key_recv s) (root_secret s) (send_frame_counter s) (replay_window s)
    (ratchet_generation s) (ratchet_interval_frames s) (pq_rekey_interval_secs s) (shield_mode s)
    (frames_since_ratchet s) v (pending_rekey s) (screen_share_meta s) (frames_sent s)
    (frames_received s) (frames_dropped s) (last_metrics_timestamp s) (local_recording_consent s)
    (local_recording_consent_timestamp_unix s) (remote_recording_consent s)
    (remote_recording_consent_timestamp_unix s) (created_at_unix s) (handler_calls s).
Definition set_pending_rekey (v : option CallInitOutput) (s : t) : t :=
  mk (call_id s) (role s) (state s) (ssrc s) (send_ratchet s) (recv_ratchet s) (header_key_send s)
    (header_key_recv s) (root_secret s) (send_frame_counter s) (replay_window s)
    (ratchet_generation s) (ratchet_interval_frames s) (pq_rekey_interval_secs s) (shield_mode s)
    (frames_since_ratchet s) (event_handler s) v (screen_share_meta s) (frames_sent s)
    (frames_received s) (frames_dropped s) (last_metrics_timestamp s) (local_recording_consent s)
    (local_recording_consent_timestamp_unix s) (remote_recording_consent s)
    (remote_recording_consent_timestamp_unix s) (created_at_unix s) (handler_calls s).
Definition set_screen_share_meta (v : option ScreenShareMetadata) (s : t) : t :=
  mk (call_id s) (role s) (state s) (ssrc s) (send_ratchet s) (recv_ratchet s) (header_key_send s)
    (header_key_recv s) (root_secret s) (send_frame_counter s) (replay_window s)
    (ratchet_generation s) (ratchet_interval_frames s) (pq_rekey_interval_secs s) (shield_mode s)
    (frames_since_ratchet s) (event_handler s) (pending_rekey s) v (frames_sent s)
    (frames_received s) (frames_dropped s) (last_metrics_timestamp s) (local_recording_consent s)
    (local_recording_consent_timestamp_unix s) (remote_recording_consent s)
    (remote_recording_consent_timestamp_unix s) (created_at_unix s) (handler_calls s).
Definition set_frames_sent (v : Z) (s : t) : t :=
  mk (call_id s) (role s) (state s) (ssrc s) (send_ratchet s) (recv_ratchet s) (header_key_send s)
    (header_key_recv s) (root_secret s) (send_frame_counter s) (replay_window s)
    (ratchet_generation s) (ratchet_interval_frames s) (pq_rekey_interval_secs s) (shield_mode s)
    (frames_since_ratchet s) (event_handler s) (pending_rekey s) (screen_share_meta s) v
    (frames_received s) (frames_dropped s) (last_metrics_timestamp s) (local_recording_consent s)
    (local_recording_consent_timestamp_unix s) (remote_recording_consent s)
    (remote_recording_consent_timestamp_unix s) (created_at_unix s) (handler_calls s).
Definition set_frames_received (v : Z) (s : t) : t :=
  mk (call_id s) (role s) (state s) (ssrc s) (send_ratchet s) (recv_ratchet s) (header_key_send s)
    (header_key_recv s) (root_secret s) (send_frame_counter s) (replay_window s)
    (ratchet_generation s) (ratchet_interval_frames s) (pq_rekey_interval_secs s) (shield_mode s)
    (frames_since_ratchet s) (event_handler s) (pending_rekey s) (screen_share_meta s)
    (frames_sent s) v (frames_dropped s) (last_metrics_timestamp s) (local_recording_consent s)
    (local_recording_consent_timestamp_unix s) (remote_recording_consent s)
    (remote_recording_consent_timestamp_unix s) (created_at_unix s) (handler_calls s).
Definition set_frames_dropped (v : Z) (s : t) : t :=
  mk (call_id s) (role s) (state s) (ssrc s) (send_ratchet s) (recv_ratchet s) (header_key_send s)
    (header_key_recv s) (root_secret s) (send_frame_counter s) (replay_window s)
    (ratchet_generation s) (ratchet_interval_frames s) (pq_rekey_interval_secs s) (shield_mode s)
    (frames_since_ratchet s) (event_handler s) (pending_rekey s) (screen_share_meta s)
    (frames_sent s) (frames_received s) v (last_metrics_timestamp s) (local_recording_consent s)
    (local_recording_consent_timestamp_unix s) (remote_recording_consent s)
    (remote_recording_consent_timestamp_unix s) (created_at_unix s) (handler_calls s).
Definition set_local_recording_consent (v : Z) (s : t) : t :=
  mk (call_id s) (role s) (state s) (ssrc s) (send_ratchet s) (recv_ratchet s) (header_key_send s)
    (header_key_recv s) (root_secret s) (send_frame_counter s) (replay_window s)
    (ratchet_generation s) (ratchet_interval_frames s) (pq_rekey_interval_secs s) (shield_mode s)
    (frames_since_ratchet s) (event_handler s) (pending_rekey s) (screen_share_meta s)
    (frames_sent s) (frames_received s) (frames_dropped s) (last_metrics_timestamp s) v
    (local_recording_consent_timestamp_unix s) (remote_recording_consent s)
    (remote_recording_consent_timestamp_unix s) (created_at_unix s) (handler_calls s).
Definition set_local_recording_consent_timestamp_unix (v : Z) (s : t) : t :=
  mk (call_id s) (role s) (state s) (ssrc s) (send_ratchet s) (recv_ratchet s) (header_key_send s)
    (header_key_recv s) (root_secret s) (send_frame_counter s) (replay_window s)
    (ratchet_generation s) (ratchet_interval_frames s) (pq_rekey_interval_secs s) (shield_mode s)
    (frames_since_ratchet s) (event_handler s) (pending_rekey s) (screen_share_meta s)
    (frames_sent s) (frames_received s) (frames_dropped s) (last_metrics_timestamp s)
    (local_recording_consent s) v (remote_recording_consent s)
    (remote_recording_consent_timestamp_unix s) (created_at_unix s) (handler_calls s).
Definition set_remote_recording_consent (v : Z) (s : t) : t :=
  mk (call_id s) (role s) (state s) (ssrc s) (send_ratchet s) (recv_ratchet s) (header_key_send s)
    (header_key_recv s) (root_secret s) (send_frame_counter s) (replay_window s)
    (ratchet_generation s) (ratchet_interval_frames s) (pq_rekey_interval_secs s) (shield_mode s)
    (frames_since_ratchet s) (event_handler s) (pending_rekey s) (screen_share_meta s)
    (frames_sent s) (frames_received s) (frames_dropped s) (last_metrics_timestamp s)
    (local_recording_consent s) (local_recording_consent_timestamp_unix s) v
    (remote_recording_consent_timestamp_unix s) (created_at_unix s) (handler_calls s).
Definition set_remote_recording_consent_timestamp_unix (v : Z) (s : t) : t :=
  mk (call_id s) (role s) (state s) (ssrc s) (send_ratchet s) (recv_ratchet s) (header_key_send s)
    (header_key_recv s) (root_secret s) (send_frame_counter s) (replay_window s)
    (ratchet_generation s) (ratchet_interval_frames s) (pq_rekey_interval_secs s) (shield_mode s)
    (frames_since_ratchet s) (event_handler s) (pending_rekey s) (screen_share_meta s)
    (frames_sent s) (frames_received s) (frames_dropped s) (last_metrics_timestamp s)
    (local_recording_consent s) (local_recording_consent_timestamp_unix s)
    (remote_recording_consent s) v (created_at_unix s) (handler_calls s).
Definition set_handler_calls (v : list VoipEvent) (s : t) : t :=
  mk (call_id s) (role s) (state s) (ssrc s) (send_ratchet s) (recv_ratchet s) (header_key_send s)
    (header_key_recv s) (root_secret s) (send_frame_counter s) (replay_window s)
    (ratchet_generation s) (ratchet_interval_frames s) (pq_rekey_interval_secs s) (shield_mode s)
    (frames_since_ratchet s) (event_handler s) (pending_rekey s) (screen_share_meta s)
    (frames_sent s) (frames_received s) (frames_dropped s) (last_metrics_timestamp s)
    (local_recording_consent s) (local_recording_consent_timestamp_unix s)
    (remote_recording_consent s) (remote_recording_consent_timestamp_unix s) (created_at_unix s) v.

End VoipSessionInner.
Abbreviation VoipSessionInner := VoipSessionInner.t.

(** ** Helpers *)

Definition encode_dtmf_tone (tone : Z) : PResult Z :=
  if (48 <=? tone) && (tone <=? 57) then Ok (tone - 48)
  else if tone =? 42 then Ok 10
  else if tone =? 35 then Ok 11
  else if (tone =? 65) || (tone =? 97) then Ok 12
  else if (tone =? 66) || (tone =? 98) then Ok 13
  else if (tone =? 67) || (tone =? 99) then Ok 14
  else if (tone =? 68) || (tone =? 100) then Ok 15
  else Err (ProtocolError.InvalidInput "DTMF tone must be ASCII 0-9, *, #, or A-D").

Definition decode_dtmf_tone (code : Z) : option Z :=
  if (0 <=? code) && (code <=? 9) then Some (48 + code)
  else if code =? 10 then Some 42
  else if code =? 11 then Some 35
  else if code =? 12 then Some 65
  else if code =? 13 then Some 66
  else if code =? 14 then Some 67
  else if code =? 15 then Some 68
  else None.

(** [time_provider.now_unix_secs()]: [None] is its error. *)
Definition now_unix_secs (clock : option Z) : PResult Z :=
  ok_or clock (ProtocolError.voip_call "system clock is before UNIX epoch").

Definition validate_recording_consent_value (consent : Z) : PResult unit :=
  check? (0 <=? consent) && (consent <=? 2)
    else ProtocolError.InvalidInput "recording consent must be 0, 1, or 2" in
  Ok tt.

Definition saturating_add_u64 (a b : Z) : Z := Z.min u64_max (a + b).

Definition validate_timestamp_not_too_far_in_future (timestamp_unix : Z) (clock : option Z) : PResult unit :=
  let? now := now_unix_secs clock in
  check? timestamp_unix <=? saturating_add_u64 now MAX_FUTURE_TIMESTAMP_SKEW_SECS
    else ProtocolError.voip_call "{label} timestamp {timestamp_unix} is too far in the future (now {now})" in
  Ok tt.

Definition append_recording_consent_signature_input (out call_id : bytes) (consent timestamp_unix : Z) : bytes :=
  out ++ bstr "Aura-VoIP-RecordingConsent-v1" ++ call_id ++ to_le_bytes 4 consent ++ to_le_bytes 8 timestamp_unix.

Definition validate_screen_share_metadata (m : ScreenShareMetadata) : PResult unit :=
  check? negb ((ScreenShareMetadata.width m =? 0) || (MAX_SCREEN_SHARE_WIDTH <? ScreenShareMetadata.width m))
    else ProtocolError.InvalidInput "screen share width out of range" in
  check? negb ((ScreenShareMetadata.height m =? 0) || (MAX_SCREEN_SHARE_HEIGHT <? ScreenShareMetadata.height m))
    else ProtocolError.InvalidInput "screen share height out of range" in
  check? negb ((ScreenShareMetadata.frame_rate m =? 0) ||
               (MAX_SCREEN_SHARE_FRAME_RATE <? ScreenShareMetadata.frame_rate m))
    else ProtocolError.InvalidInput "screen share frame_rate out of range" in
  match ScreenShareMetadata.codec_hint m with
  | Some hint =>
      check? len (bstr hint) <=? MAX_CODEC_HINT_CHARS else ProtocolError.InvalidInput "codec_hint too long" in
      Ok tt
  | None => Ok tt
  end.

(** [if let Some(ref meta) = screen_share_meta { validate(meta)? }] *)
Definition check_screen_share (m : option ScreenShareMetadata) : PResult unit :=
  match m with Some m => validate_screen_share_metadata m | None => Ok tt end.

Definition validate_call_media_type (media_type : Z) : PResult unit :=
  check? (1 <=? media_type) && (media_type <=? 5)
    else ProtocolError.InvalidInput "unsupported VoIP call media_type" in
  Ok tt.

Definition validate_call_quality_metrics (m : CallQualityMetrics.t) : PResult unit :=
  match CallQualityMetrics.audio_level m with
  | Some level =>
      check? level <=? MAX_AUDIO_LEVEL else ProtocolError.InvalidInput "audio_level exceeds maximum" in Ok tt
  | None => Ok tt
  end.

Section Voip.
Context `{P : Primitives} {SG : Signatures}
  {CEnd : Prost CallEnd.t} {CRekey : Prost CallRekey.t} {CAck : Prost CallRekeyAck.t}
  {CState : Prost VoipSessionState.t} {CConsent : Prost RecordingConsentMessage.t}.

Definition VM (A : Type) : Type := Stm ProtocolError.t VoipSessionInner A.

Definition sign_recording_consent_message (identity_ed25519_secret call_id : bytes) (consent timestamp_unix : Z) :
    PResult bytes :=
  check? len identity_ed25519_secret =? ED25519_SECRET_KEY_BYTES
    else ProtocolError.voip_call "invalid Ed25519 secret key size" in
  check? ed25519_keypair_ok identity_ed25519_secret else ProtocolError.voip_call "invalid Ed25519 keypair bytes" in
  Ok (ed25519_sign identity_ed25519_secret
        (append_recording_consent_signature_input [] call_id consent timestamp_unix)).

Definition verify_recording_consent_signature (peer_ed25519_public call_id : bytes) (consent timestamp_unix : Z)
    (signature : bytes) : PResult unit :=
  check? len peer_ed25519_public =? ED25519_PUBLIC_KEY_BYTES
    else ProtocolError.voip_call "invalid Ed25519 public key size" in
  check? len signature =? ED25519_SIGNATURE_BYTES
    else ProtocolError.voip_call "invalid recording consent signature size" in
  check? ed25519_public_ok peer_ed25519_public else ProtocolError.voip_call "invalid Ed25519 public key" in
  check? ed25519_verify_strict peer_ed25519_public
           (append_recording_consent_signature_input [] call_id consent timestamp_unix) signature
    else ProtocolError.voip_call "recording consent signature verification failed" in
  Ok tt.

(** [if let Some(handler) = &inner.event_handler { handler.call() }] *)
Definition notify (ev : VoipEvent) (inner : VoipSessionInner) : VoipSessionInner :=
  if VoipSessionInner.event_handler inner
  then VoipSessionInner.set_handler_calls (ev :: VoipSessionInner.handler_calls inner) inner else inner.

(** A call on [inner.send_ratchet] or [inner.recv_ratchet]. *)
Definition on_send_ratchet {A} (c : Stm ProtocolError.t MediaKeyRatchet A) : VM A :=
  fun s => let '(r, x) := c (VoipSessionInner.send_ratchet s) in (r, VoipSessionInner.set_send_ratchet x s).
Definition on_recv_ratchet {A} (c : Stm ProtocolError.t MediaKeyRatchet A) : VM A :=
  fun s => let '(r, x) := c (VoipSessionInner.recv_ratchet s) in (r, VoipSessionInner.set_recv_ratchet x s).

Definition require_active (e : ProtocolError.t) : VM unit :=
  do s <- sget VoipSessionInner.state;
  sguard (is_active s) e.

(** ** Construction *)

Definition nonzero_or (x d : Z) : Z := if x =? 0 then d else x.

Definition from_key_material_with_time_provider_and_screen_share (call_id : bytes) (role : CallRole)
    (key_material : CallKeyMaterial) (ratchet_interval_frames pq_rekey_interval_secs : Z) (shield_mode : bool)
    (clock : option Z) (screen_share_meta : option ScreenShareMetadata) (ssrc_bytes : bytes) :
    PResult VoipSessionInner :=
  check? len call_id =? CALL_ID_BYTES else ProtocolError.voip_call "invalid call_id size" in
  let? _ := check_screen_share screen_share_meta in
  let? created_at_unix := now_unix_secs clock in
  let ssrc := from_be_bytes (firstn 4 ssrc_bytes) in
  let ratchet_interval := nonzero_or ratchet_interval_frames DEFAULT_RATCHET_INTERVAL_FRAMES in
  let pq_rekey := nonzero_or pq_rekey_interval_secs DEFAULT_PQ_REKEY_INTERVAL_SECS in
  let send_ratchet :=
    ratchet_new (CallKeyMaterial.media_key_send key_material) (CallKeyMaterial.nonce_prefix_send key_material) in
  let recv_ratchet :=
    ratchet_new (CallKeyMaterial.media_key_recv key_material) (CallKeyMaterial.nonce_prefix_recv key_material) in
  Ok (VoipSessionInner.mk call_id role Active ssrc send_ratchet recv_ratchet
        (CallKeyMaterial.header_key_send key_material) (CallKeyMaterial.header_key_recv key_material)
        (CallKeyMaterial.root_secret key_material) 0 ReplayWindow.new 0 ratchet_interval pq_rekey shield_mode 0
        false None screen_share_meta 0 0 0 0 0 0 0 0 created_at_unix []).

Definition from_key_material (call_id : bytes) (role : CallRole) (key_material : CallKeyMaterial)
    (ratchet_interval_frames pq_rekey_interval_secs : Z) (shield_mode : bool) (clock : option Z)
    (ssrc_bytes : bytes) : PResult VoipSessionInner :=
  from_key_material_with_time_provider_and_screen_share call_id role key_material ratchet_interval_frames
    pq_rekey_interval_secs shield_mode clock None ssrc_bytes.

Definition set_event_handler (inner : VoipSessionInner) : VoipSessionInner :=
  let calls := VoipSessionInner.handler_calls inner in
  VoipSessionInner.set_event_handler true
    (if is_active (VoipSessionInner.state inner)
     then VoipSessionInner.set_handler_calls
            (on_call_established (VoipSessionInner.call_id inner) (VoipSessionInner.role inner) :: calls) inner
     else inner).

(** ** Media frames *)

(** The ratchet step due after [ratchet_interval_frames] frames. *)
Definition maybe_advance_send : VM unit :=
  do inner <- sget (fun s => s);
  if VoipSessionInner.ratchet_interval_frames inner <=? VoipSessionInner.frames_since_ratchet inner then
    do! on_send_ratchet advance_generation;
    smod (VoipSessionInner.set_frames_since_ratchet 0)
  else sret tt.

Definition count_sent (inner : VoipSessionInner) : VoipSessionInner :=
  VoipSessionInner.set_frames_sent (VoipSessionInner.frames_sent inner + 1)
    (VoipSessionInner.set_frames_since_ratchet (VoipSessionInner.frames_since_ratchet inner + 1)
       (VoipSessionInner.set_send_frame_counter (VoipSessionInner.send_frame_counter inner + 1) inner)).

Definition warn_exhaustion (inner : VoipSessionInner) : VoipSessionInner :=
  let g := generation (VoipSessionInner.send_ratchet inner) in
  if MAX_RATCHET_GENERATION - 100 <? g
  then notify (on_ratchet_exhaustion_warning (VoipSessionInner.call_id inner) (MAX_RATCHET_GENERATION - g)
                 MAX_RATCHET_GENERATION) inner
  else inner.

Definition encrypt_frame (header : FrameHeader.t) (payload : bytes) : VM EncryptedFrame :=
  do! require_active (ProtocolError.voip_call "call is not active");
  do inner <- sget (fun s => s);
  do! sguard (FrameHeader.ssrc header =? VoipSessionInner.ssrc inner)
        (ProtocolError.voip_media "frame header ssrc does not match active call ssrc");
  do! sguard (VoipSessionInner.send_frame_counter inner <=? MAX_FRAME_COUNTER)
        (ProtocolError.voip_media "send frame counter exhausted");
  do! maybe_advance_send;
  do inner <- sget (fun s => s);
  let frame_counter := VoipSessionInner.send_frame_counter inner in
  do ratcheted_key <- slift (frame_key (VoipSessionInner.send_ratchet inner) frame_counter);
  let ratchet_gen := key_generation ratcheted_key in
  let aad := build_frame_aad (VoipSessionInner.call_id inner) (VoipSessionInner.ssrc inner) frame_counter
               ratchet_gen in
  let prefix := nonce_prefix (VoipSessionInner.send_ratchet inner) in
  do encrypted_payload <-
    slift (MediaCrypto.encrypt_frame (media_key ratcheted_key) prefix frame_counter payload aad);
  let header_bytes := FrameHeader.serialize header in
  do header_key_bytes <-
    slift (crypto_err (SecureMemoryHandle.read_bytes (VoipSessionInner.header_key_send inner) VOIP_HEADER_KEY_BYTES));
  do encrypted_header <- slift (MediaCrypto.encrypt_header header_key_bytes prefix frame_counter header_bytes);
  let nonce := MediaCrypto.build_nonce prefix frame_counter in
  do! smod count_sent;
  do! smod warn_exhaustion;
  sret (EncryptedFrame.mk (VoipSessionInner.call_id inner) (VoipSessionInner.ssrc inner) frame_counter ratchet_gen
          encrypted_payload nonce encrypted_header).

(** [inner.frames_dropped += 1] and the notification of a replay. *)
Definition drop_replay (frame_counter : Z) (inner : VoipSessionInner) : VoipSessionInner :=
  notify (on_replay_detected (VoipSessionInner.call_id inner) frame_counter)
    (VoipSessionInner.set_frames_dropped (VoipSessionInner.frames_dropped inner + 1) inner).

Definition decrypt_frame (encrypted : EncryptedFrame) : VM DecryptedFrame :=
  let counter := EncryptedFrame.frame_counter encrypted in
  do! require_active (ProtocolError.voip_call "call is not active");
  do inner <- sget (fun s => s);
  do! sguard (bytes_eqb (EncryptedFrame.call_id encrypted) (VoipSessionInner.call_id inner))
        (ProtocolError.voip_call "call_id mismatch");
  do! sguard (len (EncryptedFrame.encrypted_payload encrypted) <=? MAX_VOIP_ENCRYPTED_PAYLOAD_SIZE)
        (ProtocolError.voip_media "encrypted payload too large");
  do! sguard (len (EncryptedFrame.encrypted_header encrypted) <=? MAX_VOIP_ENCRYPTED_HEADER_SIZE)
        (ProtocolError.voip_media "encrypted header too large");
  do! on_err (sguard (ReplayWindow.check (VoipSessionInner.replay_window inner) counter)
                (ProtocolError.replay_attack "VoIP frame replay or too old: counter={}, window_high={}"))
        (drop_replay counter);
  let target_gen := EncryptedFrame.ratchet_generation encrypted in
  do (ratcheted_key, snap) <- slift (speculative_frame_key (VoipSessionInner.recv_ratchet inner) target_gen counter);
  let prefix := nonce_prefix (VoipSessionInner.recv_ratchet inner) in
  let aad := build_frame_aad (VoipSessionInner.call_id inner) (EncryptedFrame.ssrc encrypted) counter
               (EncryptedFrame.ratchet_generation encrypted) in
  do payload <-
    on_err (slift (MediaCrypto.decrypt_frame (media_key ratcheted_key) prefix counter
                     (EncryptedFrame.encrypted_payload encrypted) aad))
      (notify (on_frame_auth_failed (VoipSessionInner.call_id inner) counter));
  do header_key_bytes <-
    slift (crypto_err (SecureMemoryHandle.read_bytes (VoipSessionInner.header_key_recv inner) VOIP_HEADER_KEY_BYTES));
  do header_bytes <-
    slift (MediaCrypto.decrypt_header header_key_bytes prefix counter (EncryptedFrame.encrypted_header encrypted));
  do header <- slift (FrameHeader.deserialize header_bytes);
  do! sguard (FrameHeader.ssrc header =? EncryptedFrame.ssrc encrypted)
        (ProtocolError.voip_media "frame header ssrc mismatch with encrypted envelope ssrc");
  do! on_recv_ratchet (commit_snapshot snap);
  do! smod (fun s => VoipSessionInner.set_replay_window (ReplayWindow.mark (VoipSessionInner.replay_window s) counter) s);
  do! smod (fun s => VoipSessionInner.set_frames_received (VoipSessionInner.frames_received s + 1) s);
  sret (DecryptedFrame.mk header payload counter (EncryptedFrame.ratchet_generation encrypted)).

Definition encrypt_call_control (control : CallControlType) : VM EncryptedFrame :=
  do control_byte <- slift (match control with
    | Mute => Ok 1
    | Unmute => Ok 2
    | Hold => Ok 3
    | Unhold => Ok 4
    | Dtmf digit => let? code := encode_dtmf_tone digit in Ok (Z.lor 16 code)
    end);
  let payload := [204; control_byte] in
  do ssrc <- sget VoipSessionInner.ssrc;
  encrypt_frame (FrameHeader.mk 200 ssrc 0 0) payload.

Definition decode_call_control (decrypted : DecryptedFrame) : option CallControlType :=
  if negb (FrameHeader.payload_type (DecryptedFrame.header decrypted) =? 200) then None
  else match DecryptedFrame.payload decrypted with
  | tag :: b :: _ =>
      if negb (tag =? 204) then None
      else if b =? 1 then Some Mute
      else if b =? 2 then Some Unmute
      else if b =? 3 then Some Hold
      else if b =? 4 then Some Unhold
      else if Z.land b 240 =? 16 then option_map Dtmf (decode_dtmf_tone (Z.land b 15))
      else None
  | _ => None
  end.

(** ** The end of the call *)

Definition generate_call_end_hmac (device_id : bytes) (timestamp : Z) (inner : VoipSessionInner) : PResult bytes :=
  let? root_bytes := crypto_err (SecureMemoryHandle.read_bytes (VoipSessionInner.root_secret inner) ROOT_KEY_BYTES) in
  let? hmac_key := derive_key_bytes root_bytes HMAC_BYTES (VoipSessionInner.call_id inner) VOIP_CALL_END_HMAC_INFO in
  Ok (hmac_sha256 hmac_key (VoipSessionInner.call_id inner ++ device_id ++ to_le_bytes 8 timestamp)).

Definition verify_call_end_hmac (device_id : bytes) (timestamp : Z) (hmac_value : bytes) (inner : VoipSessionInner) :
    PResult bool :=
  let? expected := generate_call_end_hmac device_id timestamp inner in
  crypto_err (constant_time_equals expected hmac_value).

Definition build_call_end (device_id : bytes) (timestamp : Z) (inner : VoipSessionInner) : PResult bytes :=
  let? hmac_value := generate_call_end_hmac device_id timestamp inner in
  Ok (encode (CallEnd.mk (VoipSessionInner.call_id inner) device_id timestamp hmac_value)).

Definition end_call : VM unit :=
  do! smod (VoipSessionInner.set_state Ended);
  smod (fun s => notify (on_call_ended (VoipSessionInner.call_id s)) s).

Definition process_call_end (call_end_bytes : bytes) : VM unit :=
  do! sguard (len call_end_bytes <=? MAX_VOIP_SIGNAL_MESSAGE_SIZE)
        (ProtocolError.invalid_input "CallEnd exceeds maximum VoIP signal size");
  do call_end <- slift (ok_or (decode call_end_bytes) (ProtocolError.decode "CallEnd decode: {e}"));
  do inner <- sget (fun s => s);
  do! sguard (bytes_eqb (CallEnd.call_id call_end) (VoipSessionInner.call_id inner))
        (ProtocolError.voip_call "call end call_id mismatch");
  do is_valid <- slift (verify_call_end_hmac (CallEnd.device_id call_end) (CallEnd.timestamp call_end)
                          (CallEnd.hmac call_end) inner);
  do! sguard is_valid (ProtocolError.voip_call "call end HMAC verification failed");
  end_call.

(** ** Sealed state *)

Definition role_code (r : CallRole) : Z := match r with Caller => 1 | Callee => 2 end.

Definition exported_state (external_counter : Z) (inner : VoipSessionInner) : PResult VoipSessionState.t :=
  let? send_snapshot := snapshot (VoipSessionInner.send_ratchet inner) in
  let? recv_snapshot := snapshot (VoipSessionInner.recv_ratchet inner) in
  let replay_bitmap :=
    List.concat (map (to_le_bytes 8) (ReplayWindow.bitmap (VoipSessionInner.replay_window inner))) in
  let? root := crypto_err (SecureMemoryHandle.read_bytes (VoipSessionInner.root_secret inner) ROOT_KEY_BYTES) in
  Ok (VoipSessionState.mk VOIP_PROTOCOL_VERSION (VoipSessionInner.call_id inner)
        (role_code (VoipSessionInner.role inner)) (VoipSessionInner.ssrc inner)
        (VoipSessionInner.send_frame_counter inner) (ReplayWindow.high_water (VoipSessionInner.replay_window inner))
        (VoipSessionInner.ratchet_generation inner) (VoipSessionInner.ratchet_interval_frames inner)
        (VoipSessionInner.pq_rekey_interval_secs inner) (VoipSessionInner.shield_mode inner)
        (VoipSessionInner.frames_since_ratchet inner) root external_counter (snap_chain_bytes send_snapshot)
        (snap_chain_bytes recv_snapshot) (snap_generation send_snapshot) (snap_generation recv_snapshot)
        replay_bitmap (VoipSessionInner.screen_share_meta inner)
        (Some (VoipSessionInner.local_recording_consent inner))
        (Some (VoipSessionInner.remote_recording_consent inner)) (VoipSessionInner.ratchet_generation inner)
        (VoipSessionInner.created_at_unix inner) (VoipSessionInner.frames_sent inner)
        (VoipSessionInner.frames_received inner) (VoipSessionInner.frames_dropped inner)
        (VoipSessionInner.last_metrics_timestamp inner)
        (VoipSessionInner.remote_recording_consent_timestamp_unix inner)
        (VoipSessionInner.local_recording_consent_timestamp_unix inner)).

(** The key of the outer HMAC of a sealed state. *)
Definition state_hmac_key (state_key : bytes) (external_counter : Z) : PResult bytes :=
  derive_key_bytes state_key HMAC_BYTES (to_le_bytes 8 external_counter) (bstr "Aura-VoIP-StateHMAC").

Definition export_sealed_state (state_key : bytes) (external_counter : Z) (nonce : bytes)
    (inner : VoipSessionInner) : PResult bytes :=
  check? negb (external_counter =? 0)
    else ProtocolError.invalid_input "sealed state external counter must be greater than zero" in
  check? negb (is_ended (VoipSessionInner.state inner))
    else ProtocolError.voip_call "cannot export ended call state" in
  let? state := exported_state external_counter inner in
  let state_bytes := encode state in
  let? ct := aes_encrypt state_key nonce state_bytes [] in
  let? hmac_key := state_hmac_key state_key external_counter in
  let hmac_tag := hmac_sha256 hmac_key (ct ++ nonce) in
  Ok (to_le_bytes 8 external_counter ++ nonce ++ hmac_tag ++ ct).

(** [data.as_chunks::<8>().0] *)
Fixpoint chunks8 (n : nat) (data : bytes) : list bytes :=
  match n with
  | O => []
  | S n => firstn 8 data :: chunks8 n (skipn 8 data)
  end.

Definition restore_send_ratchet (state : VoipSessionState.t) (key_material : CallKeyMaterial) :
    PResult MediaKeyRatchet :=
  match VoipSessionState.send_ratchet_chain_key state with
  | [] =>
      check? (VoipSessionState.send_frame_counter state =? 0) && (VoipSessionState.frames_since_ratchet state =? 0)
        else ProtocolError.voip_call "sealed state missing send ratchet state" in
      Ok (ratchet_new (CallKeyMaterial.media_key_send key_material) (CallKeyMaterial.nonce_prefix_send key_material))
  | chain => ratchet_from_state chain (VoipSessionState.send_ratchet_generation state)
               (CallKeyMaterial.nonce_prefix_send key_material)
  end.

Definition restore_recv_ratchet (state : VoipSessionState.t) (key_material : CallKeyMaterial) :
    PResult MediaKeyRatchet :=
  match VoipSessionState.recv_ratchet_chain_key state with
  | [] =>
      check? VoipSessionState.replay_high_water state =? 0
        else ProtocolError.voip_call "sealed state missing recv ratchet state" in
      Ok (ratchet_new (CallKeyMaterial.media_key_recv key_material) (CallKeyMaterial.nonce_prefix_recv key_material))
  | chain => ratchet_from_state chain (VoipSessionState.recv_ratchet_generation state)
               (CallKeyMaterial.nonce_prefix_recv key_material)
  end.

Definition restore_replay_window (state : VoipSessionState.t) : PResult ReplayWindow.t :=
  match VoipSessionState.replay_bitmap state with
  | [] => Err (ProtocolError.voip_call "sealed state replay bitmap missing")
  | bitmap =>
      check? len bitmap =? BITMAP_WORDS * 8
        else ProtocolError.voip_call "invalid replay bitmap size in sealed state" in
      Ok (ReplayWindow.mk (VoipSessionState.replay_high_water state)
            (map from_le_bytes (chunks8 (Z.to_nat BITMAP_WORDS) bitmap)))
  end.

Definition check_consent (c : option Z) : PResult unit :=
  match c with Some consent => validate_recording_consent_value consent | None => Ok tt end.

Definition check_consent_time (timestamp : Z) (clock : option Z) : PResult unit :=
  if 0 <? timestamp then validate_timestamp_not_too_far_in_future timestamp clock else Ok tt.

Definition restored_role (code : Z) : PResult CallRole :=
  if code =? 1 then Ok Caller
  else if code =? 2 then Ok Callee
  else Err (ProtocolError.voip_call "invalid role in sealed state").

(** The part of [from_sealed_state_with_time_provider] after decryption. *)
Definition from_voip_state (state : VoipSessionState.t) (stored_counter : Z)
    (clock_local clock_remote clock_created : option Z) : PResult VoipSessionInner :=
  check? VoipSessionState.state_version state =? VOIP_PROTOCOL_VERSION
    else ProtocolError.voip_call "unsupported sealed VoIP state version: expected {VOIP_PROTOCOL_VERSION}, got {}" in
  check? VoipSessionState.external_counter state =? stored_counter
    else ProtocolError.voip_call "sealed state external counter mismatch" in
  check? len (VoipSessionState.call_id state) =? CALL_ID_BYTES
    else ProtocolError.voip_call "invalid call_id in sealed state" in
  let? role := restored_role (VoipSessionState.role state) in
  check? len (VoipSessionState.root_secret state) =? ROOT_KEY_BYTES
    else ProtocolError.voip_call "invalid root secret size in sealed state" in
  let? root_handle := crypto_err (SecureMemoryHandle.alloc_write ROOT_KEY_BYTES (VoipSessionState.root_secret state)) in
  let? key_material := derive_call_keys_from_root (VoipSessionState.root_secret state)
    (VoipSessionState.call_id state) (is_caller_role role) (VoipSessionState.shield_mode state) in
  let? send_ratchet := restore_send_ratchet state key_material in
  let? recv_ratchet := restore_recv_ratchet state key_material in
  let? replay_window := restore_replay_window state in
  let ratchet_interval :=
    nonzero_or (VoipSessionState.ratchet_interval_frames state) DEFAULT_RATCHET_INTERVAL_FRAMES in
  let pq_rekey := nonzero_or (VoipSessionState.pq_rekey_interval_secs state) DEFAULT_PQ_REKEY_INTERVAL_SECS in
  let? _ := check_screen_share (VoipSessionState.screen_share_meta state) in
  let? _ := check_consent (VoipSessionState.local_recording_consent state) in
  let? _ := check_consent (VoipSessionState.remote_recording_consent state) in
  let? _ := check_consent_time (VoipSessionState.local_recording_consent_timestamp_unix state) clock_local in
  let? _ := check_consent_time (VoipSessionState.remote_recording_consent_timestamp_unix state) clock_remote in
  let? created_at_unix :=
    if VoipSessionState.created_at_unix state =? 0 then now_unix_secs clock_created
    else Ok (VoipSessionState.created_at_unix state) in
  Ok (VoipSessionInner.mk (VoipSessionState.call_id state) role Active (VoipSessionState.ssrc state)
        send_ratchet recv_ratchet (CallKeyMaterial.header_key_send key_material)
        (CallKeyMaterial.header_key_recv key_material) root_handle (VoipSessionState.send_frame_counter state)
        replay_window (VoipSessionState.ratchet_generation state) ratchet_interval pq_rekey
        (VoipSessionState.shield_mode state) (VoipSessionState.frames_since_ratchet state) false None
        (VoipSessionState.screen_share_meta state) (VoipSessionState.frames_sent state)
        (VoipSessionState.frames_received state) (VoipSessionState.frames_dropped state)
        (VoipSessionState.last_metrics_timestamp state)
        (match VoipSessionState.local_recording_consent state with Some c => c | None => 0 end)
        (VoipSessionState.local_recording_consent_timestamp_unix state)
        (match VoipSessionState.remote_recording_consent state with Some c => c | None => 0 end)
        (VoipSessionState.remote_recording_consent_timestamp_unix state) created_at_unix []).

Definition from_sealed_state_with_time_provider (data state_key : bytes) (min_external_counter : Z)
    (clock_local clock_remote clock_created : option Z) : PResult VoipSessionInner :=
  let header_size := 8 + AES_GCM_NONCE_BYTES + HMAC_BYTES in
  check? header_size + AES_GCM_TAG_BYTES <=? len data else ProtocolError.voip_call "sealed state too short" in
  check? len data <=? MAX_VOIP_SIGNAL_MESSAGE_SIZE + MAX_VOIP_ENCRYPTED_PAYLOAD_SIZE
    else ProtocolError.voip_call "sealed state too large" in
  let stored_counter := from_le_bytes (firstn 8 data) in
  check? negb (stored_counter =? 0)
    else ProtocolError.invalid_input "sealed state external counter must be greater than zero" in
  check? min_external_counter <=? stored_counter else ProtocolError.voip_call "sealed state rollback detected" in
  let nonce := FrameHeader.slice data 8 (8 + Z.to_nat AES_GCM_NONCE_BYTES) in
  let stored_hmac := FrameHeader.slice data (8 + Z.to_nat AES_GCM_NONCE_BYTES) (Z.to_nat header_size) in
  let ct := skipn (Z.to_nat header_size) data in
  let? hmac_key := state_hmac_key state_key stored_counter in
  let computed_hmac := hmac_sha256 hmac_key (ct ++ nonce) in
  check? unwrap_or (constant_time_equals stored_hmac computed_hmac) false
    else ProtocolError.voip_call "sealed state HMAC mismatch" in
  let? state_bytes := aes_decrypt state_key nonce ct [] in
  let? state := ok_or (decode state_bytes) (ProtocolError.decode "VoipSessionState decode: {e}") in
  from_voip_state state stored_counter clock_local clock_remote clock_created.

Definition sealed_state_external_counter (data : bytes) : PResult Z :=
  check? 8 <=? len data else ProtocolError.voip_call "sealed state too short for counter" in
  Ok (from_le_bytes (firstn 8 data)).

(** ** Rekeying *)

Definition needs_pq_rekey (elapsed_secs : Z) (inner : VoipSessionInner) : bool :=
  VoipSessionInner.pq_rekey_interval_secs inner <=? elapsed_secs.

(** The assignments that install new call keys. *)
Definition install_keys (new_keys : CallKeyMaterial) (inner : VoipSessionInner) : VoipSessionInner :=
  VoipSessionInner.set_root_secret (CallKeyMaterial.root_secret new_keys)
    (VoipSessionInner.set_header_key_recv (CallKeyMaterial.header_key_recv new_keys)
      (VoipSessionInner.set_header_key_send (CallKeyMaterial.header_key_send new_keys)
        (VoipSessionInner.set_recv_ratchet
           (ratchet_reset (CallKeyMaterial.media_key_recv new_keys) (CallKeyMaterial.nonce_prefix_recv new_keys)
              (VoipSessionInner.recv_ratchet inner))
          (VoipSessionInner.set_send_ratchet
             (ratchet_reset (CallKeyMaterial.media_key_send new_keys) (CallKeyMaterial.nonce_prefix_send new_keys)
                (VoipSessionInner.send_ratchet inner)) inner)))).

(** The rest of a completed rekey: generation, frame count, notification. *)
Definition finish_rekey (generation : Z) (inner : VoipSessionInner) : VoipSessionInner :=
  let inner := VoipSessionInner.set_frames_since_ratchet 0 (VoipSessionInner.set_ratchet_generation generation inner) in
  notify (on_rekey_completed (VoipSessionInner.call_id inner) generation) inner.

Definition apply_rekey (new_keys : CallKeyMaterial) : VM unit :=
  do! require_active (ProtocolError.voip_call "cannot rekey: call not active");
  do! smod (install_keys new_keys);
  smod (fun s => finish_rekey (VoipSessionInner.ratchet_generation s + 1) s).

Definition initiate_rekey (identity_ed25519_secret peer_kyber_public : bytes) (ent : CallEntropy) : VM bytes :=
  do! require_active (ProtocolError.voip_rekey "cannot rekey: call not active");
  do inner <- sget (fun s => s);
  do! sguard (match VoipSessionInner.pending_rekey inner with Some _ => false | None => true end)
        (ProtocolError.voip_rekey "rekey already pending");
  do (init_output, new_gen) <- slift (rekey_initiate identity_ed25519_secret peer_kyber_public
    (VoipSessionInner.call_id inner) (VoipSessionInner.root_secret inner) (VoipSessionInner.ratchet_generation inner) ent);
  let proto := CallRekey.mk (VoipSessionInner.call_id inner) new_gen
    (CallInitOutput.ephemeral_x25519_public init_output) (CallInitOutput.kyber_ciphertext init_output)
    (CallInitOutput.signature init_output) (CallInitOutput.key_confirmation_mac init_output) in
  let buf := encode proto in
  do! smod (VoipSessionInner.set_pending_rekey (Some init_output));
  sret buf.

(** [inner.ratchet_generation.checked_add(1)] *)
Definition expected_generation (inner : VoipSessionInner) : PResult Z :=
  ok_or (checked_add 32 (VoipSessionInner.ratchet_generation inner) 1)
    (ProtocolError.voip_rekey "rekey generation overflow").

(** The Diffie-Hellman value of a rekey. *)
Definition rekey_dh (secret peer_public : bytes) (size_error zero_error : string) : PResult bytes :=
  check? len peer_public =? X25519_PUBLIC_KEY_BYTES else ProtocolError.voip_rekey size_error in
  let? _ := DhValidator.validate_x25519_public_key peer_public in
  let classical_ss := x25519_dh secret peer_public in
  check? negb (is_all_zero classical_ss) else ProtocolError.voip_rekey zero_error in
  Ok classical_ss.

(** What [process_rekey] computes before it changes the session: the new keys
    and the answer. *)
Definition answer_rekey (rekey_bytes peer_ed25519_public : bytes) (identity_kyber_secret : SecureMemoryHandle.t)
    (peer_kyber_public identity_ed25519_secret : bytes) (ent : CallEntropy) (inner : VoipSessionInner) :
    PResult (Z * CallKeyMaterial * bytes) :=
  check? is_active (VoipSessionInner.state inner)
    else ProtocolError.voip_rekey "cannot process rekey: call not active" in
  check? len rekey_bytes <=? MAX_VOIP_SIGNAL_MESSAGE_SIZE
    else ProtocolError.voip_rekey "rekey message too large" in
  let? rekey := ok_or (decode rekey_bytes) (ProtocolError.decode "CallRekey decode: {e}") in
  check? bytes_eqb (CallRekey.call_id rekey) (VoipSessionInner.call_id inner)
    else ProtocolError.voip_rekey "rekey call_id mismatch" in
  let? expected_generation := expected_generation inner in
  check? CallRekey.rekey_generation rekey =? expected_generation
    else ProtocolError.voip_rekey "unexpected rekey generation" in
  let? _ := verify_rekey_signature peer_ed25519_public (CallRekey.call_id rekey) (CallRekey.rekey_generation rekey)
    (CallRekey.ephemeral_x25519_public rekey) (CallRekey.kyber_ciphertext rekey) (CallRekey.signature rekey) in
  let? callee_kyber_ss := crypto_err (kyber_decapsulate (CallRekey.kyber_ciphertext rekey) identity_kyber_secret) in
  let? callee_kyber_bytes :=
    crypto_err (SecureMemoryHandle.read_bytes callee_kyber_ss KYBER_SHARED_SECRET_BYTES) in
  let? current_root_bytes :=
    crypto_err (SecureMemoryHandle.read_bytes (VoipSessionInner.root_secret inner) ROOT_KEY_BYTES) in
  let? expected_mac := compute_rekey_mac_bound current_root_bytes callee_kyber_bytes VOIP_KEY_CONFIRM_CALLER_INFO
    (CallRekey.call_id rekey) (CallRekey.rekey_generation rekey) in
  check? unwrap_or (constant_time_equals (CallRekey.key_confirmation_mac rekey) expected_mac) false
    else ProtocolError.voip_rekey "rekey MAC verification failed" in
  let eph_public_bytes := x25519_public (ce_eph ent) in
  let? classical_ss := rekey_dh (ce_eph ent) (CallRekey.ephemeral_x25519_public rekey)
    "invalid rekey ephemeral key" "X25519 rekey DH produced all-zero output" in
  let? (resp_kyber_ct, resp_kyber_ss) := crypto_err (kyber_encapsulate peer_kyber_public (ce_kyber ent)) in
  let? resp_kyber_bytes := crypto_err (SecureMemoryHandle.read_bytes resp_kyber_ss KYBER_SHARED_SECRET_BYTES) in
  let combined_pq := callee_kyber_bytes ++ resp_kyber_bytes in
  let? new_keys := rekey_complete (VoipSessionInner.root_secret inner) classical_ss combined_pq
    (VoipSessionInner.call_id inner) false (VoipSessionInner.shield_mode inner) in
  let? ack_signature := sign_rekey_material identity_ed25519_secret (VoipSessionInner.call_id inner)
    (CallRekey.rekey_generation rekey) eph_public_bytes resp_kyber_ct in
  let? new_root_bytes :=
    crypto_err (SecureMemoryHandle.read_bytes (CallKeyMaterial.root_secret new_keys) ROOT_KEY_BYTES) in
  let? ack_mac := compute_rekey_mac new_root_bytes VOIP_KEY_CONFIRM_CALLEE_INFO (VoipSessionInner.call_id inner)
    (CallRekey.rekey_generation rekey) in
  Ok (CallRekey.rekey_generation rekey, new_keys,
      encode (CallRekeyAck.mk (VoipSessionInner.call_id inner) (CallRekey.rekey_generation rekey) eph_public_bytes
                resp_kyber_ct ack_signature ack_mac)).

Definition process_rekey (rekey_bytes peer_ed25519_public : bytes) (identity_kyber_secret : SecureMemoryHandle.t)
    (peer_kyber_public identity_ed25519_secret : bytes) (ent : CallEntropy) : VM bytes :=
  do (generation, new_keys, buf) <- sgets (answer_rekey rekey_bytes peer_ed25519_public identity_kyber_secret
    peer_kyber_public identity_ed25519_secret ent);
  do! smod (install_keys new_keys);
  do! smod (finish_rekey generation);
  sret buf.

(** What [process_rekey_ack] computes before it changes the session. *)
Definition check_rekey_ack (ack_bytes peer_ed25519_public : bytes) (identity_kyber_secret : SecureMemoryHandle.t)
    (inner : VoipSessionInner) : PResult (Z * CallKeyMaterial) :=
  check? is_active (VoipSessionInner.state inner)
    else ProtocolError.voip_rekey "cannot process rekey ack: call not active" in
  check? len ack_bytes <=? MAX_VOIP_SIGNAL_MESSAGE_SIZE
    else ProtocolError.voip_rekey "rekey ack message too large" in
  let? ack := ok_or (decode ack_bytes) (ProtocolError.decode "CallRekeyAck decode: {e}") in
  check? bytes_eqb (CallRekeyAck.call_id ack) (VoipSessionInner.call_id inner)
    else ProtocolError.voip_rekey "rekey ack call_id mismatch" in
  let? expected_generation := expected_generation inner in
  check? CallRekeyAck.rekey_generation ack =? expected_generation
    else ProtocolError.voip_rekey "unexpected rekey ack generation" in
  let? _ := verify_rekey_signature peer_ed25519_public (CallRekeyAck.call_id ack) (CallRekeyAck.rekey_generation ack)
    (CallRekeyAck.ephemeral_x25519_public ack) (CallRekeyAck.kyber_ciphertext ack) (CallRekeyAck.signature ack) in
  let? pending := ok_or (VoipSessionInner.pending_rekey inner) (ProtocolError.voip_rekey "no pending rekey") in
  let? eph_priv := crypto_err (SecureMemoryHandle.read_bytes (CallInitOutput.ephemeral_x25519_private pending)
    X25519_PRIVATE_KEY_BYTES) in
  let? classical_ss := rekey_dh eph_priv (CallRekeyAck.ephemeral_x25519_public ack)
    "invalid rekey ack ephemeral key" "X25519 rekey ack DH produced all-zero output" in
  let? resp_kyber_ss := crypto_err (kyber_decapsulate (CallRekeyAck.kyber_ciphertext ack) identity_kyber_secret) in
  let? init_kyber_bytes := crypto_err (SecureMemoryHandle.read_bytes (CallInitOutput.kyber_shared_secret pending)
    KYBER_SHARED_SECRET_BYTES) in
  let? resp_kyber_bytes := crypto_err (SecureMemoryHandle.read_bytes resp_kyber_ss KYBER_SHARED_SECRET_BYTES) in
  let combined_pq := init_kyber_bytes ++ resp_kyber_bytes in
  let? new_keys := rekey_complete (VoipSessionInner.root_secret inner) classical_ss combined_pq
    (VoipSessionInner.call_id inner) true (VoipSessionInner.shield_mode inner) in
  let? new_root_bytes :=
    crypto_err (SecureMemoryHandle.read_bytes (CallKeyMaterial.root_secret new_keys) ROOT_KEY_BYTES) in
  let? expected_ack_mac := compute_rekey_mac new_root_bytes VOIP_KEY_CONFIRM_CALLEE_INFO
    (VoipSessionInner.call_id inner) (CallRekeyAck.rekey_generation ack) in
  check? unwrap_or (constant_time_equals (CallRekeyAck.key_confirmation_mac ack) expected_ack_mac) false
    else ProtocolError.voip_rekey "rekey ack MAC verification failed" in
  Ok (CallRekeyAck.rekey_generation ack, new_keys).

Definition process_rekey_ack (ack_bytes peer_ed25519_public : bytes) (identity_kyber_secret : SecureMemoryHandle.t) :
    VM unit :=
  do (generation, new_keys) <- sgets (check_rekey_ack ack_bytes peer_ed25519_public identity_kyber_secret);
  do! smod (install_keys new_keys);
  do! smod (VoipSessionInner.set_pending_rekey None);
  smod (finish_rekey generation).

Definition root_secret_handle (inner : VoipSessionInner) : PResult SecureMemoryHandle.t :=
  let? b := crypto_err (SecureMemoryHandle.read_bytes (VoipSessionInner.root_secret inner) ROOT_KEY_BYTES) in
  crypto_err (SecureMemoryHandle.alloc_write ROOT_KEY_BYTES b).

(** ** Screen sharing and statistics *)

Definition set_screen_share_meta (width height frame_rate : Z) (codec_hint : option string) : VM unit :=
  do! slift (validate_screen_share_metadata (ScreenShareMetadata.mk width height frame_rate codec_hint));
  do! require_active (ProtocolError.voip_call "call is not active");
  smod (VoipSessionInner.set_screen_share_meta (Some (ScreenShareMetadata.mk width height frame_rate codec_hint))).

Definition get_screen_share_meta (inner : VoipSessionInner) : option (Z * Z * Z * option string) :=
  option_map (fun m => (ScreenShareMetadata.width m, ScreenShareMetadata.height m, ScreenShareMetadata.frame_rate m,
                        ScreenShareMetadata.codec_hint m)) (VoipSessionInner.screen_share_meta inner).

Definition clear_screen_share_meta : VM unit :=
  do! require_active (ProtocolError.voip_call "call is not active");
  smod (VoipSessionInner.set_screen_share_meta None).

Definition get_call_statistics (clock : option Z) (inner : VoipSessionInner) : PResult CallStatistics.t :=
  let? now := now_unix_secs clock in
  let elapsed := saturating_sub now (VoipSessionInner.created_at_unix inner) in
  Ok (CallStatistics.mk (VoipSessionInner.frames_sent inner) (VoipSessionInner.frames_received inner)
        (VoipSessionInner.frames_dropped inner) (VoipSessionInner.ratchet_generation inner)
        (generation (VoipSessionInner.send_ratchet inner)) elapsed).

(** ** Recording consent *)

Definition set_recording_consent (consent : Z) : VM unit :=
  do! slift (validate_recording_consent_value consent);
  do! require_active (ProtocolError.voip_call "call is not active");
  smod (VoipSessionInner.set_local_recording_consent consent).

Definition set_remote_recording_consent (consent : Z) : VM unit :=
  do! slift (validate_recording_consent_value consent);
  sfail (ProtocolError.voip_call "remote recording consent must be updated via a signed RecordingConsentMessage").

Definition both_consented_to_recording (inner : VoipSessionInner) : bool :=
  (VoipSessionInner.local_recording_consent inner =? 1) && (VoipSessionInner.remote_recording_consent inner =? 1).

Definition build_recording_consent_message (consent timestamp_unix : Z) (identity_ed25519_secret : bytes)
    (clock : option Z) : VM bytes :=
  do! slift (validate_recording_consent_value consent);
  do! sguard (negb (timestamp_unix =? 0)) (ProtocolError.voip_call "recording consent timestamp must be > 0");
  do! slift (validate_timestamp_not_too_far_in_future timestamp_unix clock);
  do! require_active (ProtocolError.voip_call "call is not active");
  do inner <- sget (fun s => s);
  do! sguard (negb (timestamp_unix <=? VoipSessionInner.local_recording_consent_timestamp_unix inner))
        (ProtocolError.voip_call "stale local recording consent timestamp rejected");
  do signature <- slift (sign_recording_consent_message identity_ed25519_secret (VoipSessionInner.call_id inner)
                           consent timestamp_unix);
  let out := encode (RecordingConsentMessage.mk (VoipSessionInner.call_id inner) consent timestamp_unix signature) in
  do! smod (VoipSessionInner.set_local_recording_consent consent);
  do! smod (VoipSessionInner.set_local_recording_consent_timestamp_unix timestamp_unix);
  sret out.

Definition process_recording_consent_message (message_bytes peer_ed25519_public : bytes) (clock : option Z) : VM Z :=
  do! sguard (len message_bytes <=? MAX_VOIP_SIGNAL_MESSAGE_SIZE)
        (ProtocolError.voip_call "RecordingConsentMessage too large");
  do message <- slift (ok_or (decode message_bytes) (ProtocolError.decode "RecordingConsentMessage decode: {e}"));
  do! slift (validate_recording_consent_value (RecordingConsentMessage.consent message));
  do! sguard (negb (RecordingConsentMessage.timestamp_unix message =? 0))
        (ProtocolError.voip_call "recording consent timestamp must be > 0");
  do! slift (validate_timestamp_not_too_far_in_future (RecordingConsentMessage.timestamp_unix message) clock);
  do! require_active (ProtocolError.voip_call "call is not active");
  do inner <- sget (fun s => s);
  do! sguard (bytes_eqb (RecordingConsentMessage.call_id message) (VoipSessionInner.call_id inner))
        (ProtocolError.voip_call "recording consent call_id mismatch");
  do! sguard (negb (RecordingConsentMessage.timestamp_unix message <=?
                    VoipSessionInner.remote_recording_consent_timestamp_unix inner))
        (ProtocolError.voip_call "stale recording consent message rejected");
  do! slift (verify_recording_consent_signature peer_ed25519_public (RecordingConsentMessage.call_id message)
               (RecordingConsentMessage.consent message) (RecordingConsentMessage.timestamp_unix message)
               (RecordingConsentMessage.signature message));
  do! smod (VoipSessionInner.set_remote_recording_consent (RecordingConsentMessage.consent message));
  do! smod (VoipSessionInner.set_remote_recording_consent_timestamp_unix (RecordingConsentMessage.timestamp_unix message));
  sret (RecordingConsentMessage.consent message).

End Voip.
