(* ===== verification/VoipMedia.v ===== *)
(** * Media of a call: delivery, replay and failure

    One direction of a call is a [MediaLink]: the ratchet both ends started
    from, the header key and the call identifier.  The theorems show that the
    frames of the sender are readable at the receiver in every order of arrival
    its window and its ratchet allow, and that a refused frame leaves the
    receiver as it was. *)

From Stdlib Require Import ZArith List Bool Lia String.
From S2P Require Import Prelude Constants SecureMemory Crypto Signatures DhValidator ReplayWindow.
From S2P Require Import KeyRatchet Proto VoipFrame CallKeys VoipSession.
Import ListNotations.
Open Scope list_scope.
Open Scope Z_scope.

Record MediaLink : Type := mkLink { ml_base : MediaKeyRatchet; ml_header_key : bytes; ml_call_id : bytes }.

Section Media.
Context `{P : Primitives} {L : PrimitiveLaws P}.

Definition link_wf (ml : MediaLink) : Prop :=
  ratchet_wf (ml_base ml) /\ len (nonce_prefix (ml_base ml)) = VOIP_NONCE_PREFIX_BYTES /\
  len (ml_header_key ml) = VOIP_HEADER_KEY_BYTES /\ len (ml_call_id ml) = CALL_ID_BYTES.

(** The end that sends over the link, and the end that receives from it having
    accepted the counters [seen]. *)
Record sending (ml : MediaLink) (s : VoipSessionInner) : Prop := {
  sd_active : VoipSessionInner.state s = Active;
  sd_call_id : VoipSessionInner.call_id s = ml_call_id ml;
  sd_header_key : VoipSessionInner.header_key_send s = SecureMemoryHandle.mk (ml_header_key ml);
  sd_ratchet : exists n, VoipSessionInner.send_ratchet s = ratchet_after n (ml_base ml) }.

Record receiving (ml : MediaLink) (seen : list Z) (s : VoipSessionInner) : Prop := {
  rc_active : VoipSessionInner.state s = Active;
  rc_call_id : VoipSessionInner.call_id s = ml_call_id ml;
  rc_header_key : VoipSessionInner.header_key_recv s = SecureMemoryHandle.mk (ml_header_key ml);
  rc_ratchet : exists n, VoipSessionInner.recv_ratchet s = ratchet_after n (ml_base ml);
  rc_window : ReplayWindow.refines (VoipSessionInner.replay_window s) seen }.

(** ** Keys of a frame *)

Definition frame_key_of (r : MediaKeyRatchet) (c : Z) : bytes :=
  kdf (generation_key (nonce_prefix r) (SecureMemoryHandle.data (chain_key r)) (generation r))
    VOIP_MEDIA_KEY_BYTES (to_le_bytes 8 c) VOIP_FRAME_KEY_INFO.

Definition snapshot_of (r : MediaKeyRatchet) : RatchetSnapshot :=
  mkSnapshot (SecureMemoryHandle.data (chain_key r)) (generation r).

Lemma len_frame_key_of r c : len (frame_key_of r c) = VOIP_MEDIA_KEY_BYTES.
Proof. apply kdf_len. easy. Qed.

Lemma frame_key_eq r c : ratchet_wf r -> frame_key r c = Ok (mkKey (frame_key_of r c) (generation r)).
Proof.
  intros Hwf. unfold frame_key, snapshot. rewrite read_chain_ok by assumption. run_res.
  unfold derive_frame_key_at_generation. cbn [snap_chain_bytes snap_generation].
  rewrite derive_at_generation_ok. run_res. now rewrite derive_key_bytes_ok by easy.
Qed.

Lemma speculative_frame_key_eq r n c :
  ratchet_wf r -> Z.of_nat n <= MAX_SKIPPED_RATCHET_GENERATIONS ->
  speculative_frame_key r (generation r + Z.of_nat n) c =
  Ok (mkKey (frame_key_of (ratchet_after n r) c) (generation (ratchet_after n r)), snapshot_of (ratchet_after n r)).
Proof.
  intros Hwf Hn. unfold speculative_frame_key.
  rewrite (speculative_sync_to_spec _ _ (Z.of_nat n) Hwf) by (apply check_target_spec; lia).
  rewrite Nat2Z.id. run_res. unfold derive_frame_key_at_generation. cbn [snap_chain_bytes snap_generation].
  rewrite derive_at_generation_ok. run_res. now rewrite derive_key_bytes_ok by easy.
Qed.

Lemma commit_of n r : ratchet_wf r -> commit_snapshot (snapshot_of (ratchet_after n r)) r = (Ok tt, ratchet_after n r).
Proof. apply commit_snapshot_spec. Qed.

(** ** Genuine frames *)

(** [genuine ml f h p]: [f] is an encryption of header [h] and payload [p] by
    the sender of the link, some generations after its start. *)
Definition genuine (ml : MediaLink) (f : EncryptedFrame) (h : FrameHeader.t) (p : bytes) : Prop :=
  exists n ep eh, let r := ratchet_after n (ml_base ml) in
    let c := EncryptedFrame.frame_counter f in
    f = EncryptedFrame.mk (ml_call_id ml) (FrameHeader.ssrc h) c (generation r) ep
          (MediaCrypto.build_nonce (nonce_prefix r) c) eh /\
    MediaCrypto.encrypt_frame (frame_key_of r c) (nonce_prefix r) c p
      (build_frame_aad (ml_call_id ml) (FrameHeader.ssrc h) c (generation r)) = Ok ep /\
    MediaCrypto.encrypt_header (ml_header_key ml) (nonce_prefix r) c (FrameHeader.serialize h) = Ok eh /\
    bytes_ok p /\ len p <= MAX_VOIP_FRAME_SIZE /\ FrameHeader.wf h /\ 0 <= c.

(** A frame the sender can send. *)
Definition frame_ok (s : VoipSessionInner) (item : FrameHeader.t * bytes) : Prop :=
  let '(h, p) := item in
  FrameHeader.wf h /\ FrameHeader.ssrc h = VoipSessionInner.ssrc s /\ p <> [] /\ bytes_ok p /\
  len p <= MAX_VOIP_FRAME_SIZE.

(** The sender after its due ratchet step. *)
Definition stepped (s : VoipSessionInner) : VoipSessionInner :=
  if VoipSessionInner.ratchet_interval_frames s <=? VoipSessionInner.frames_since_ratchet s
  then VoipSessionInner.set_frames_since_ratchet 0
         (VoipSessionInner.set_send_ratchet (ratchet_after 1 (VoipSessionInner.send_ratchet s)) s)
  else s.

Lemma maybe_advance_send_eq s :
  ratchet_wf (VoipSessionInner.send_ratchet s) ->
  generation (VoipSessionInner.send_ratchet s) < MAX_RATCHET_GENERATION ->
  maybe_advance_send s = (Ok tt, stepped s).
Proof.
  intros Hwf Hg. unfold maybe_advance_send, stepped, sbind, sget.
  destruct (_ <=? _); [|reflexivity]. unfold on_send_ratchet, advance_generation, sbind, sget.
  rewrite advance_spec by assumption. destruct (Z.leb_spec MAX_RATCHET_GENERATION
    (generation (VoipSessionInner.send_ratchet s))); [lia|reflexivity].
Qed.

Lemma aad_short call_id s c g : len call_id = CALL_ID_BYTES -> len (build_frame_aad call_id s c g) < 2 ^ 32.
Proof. intros H. unfold build_frame_aad. autorewrite with lens. rewrite H. easy. Qed.

Lemma sending_stepped ml s : sending ml s -> sending ml (warn_exhaustion (count_sent (stepped s))).
Proof.
  intros [Ha Hc Hk (n & Hr)]. unfold warn_exhaustion, notify, stepped.
  repeat case_if; constructor; cbn; auto; solve [eauto | exists (n + 1)%nat; rewrite Hr; apply ratchet_after_add].
Qed.

(** What one call of [encrypt_frame] does at the sending end of a link. *)
Lemma encrypt_frame_genuine ml s h p :
  link_wf ml -> sending ml s -> frame_ok s (h, p) -> 0 <= VoipSessionInner.send_frame_counter s <= MAX_FRAME_COUNTER ->
  generation (VoipSessionInner.send_ratchet s) < MAX_RATCHET_GENERATION ->
  exists f s', encrypt_frame h p s = (Ok f, s') /\ genuine ml f h p /\ sending ml s' /\
    EncryptedFrame.frame_counter f = VoipSessionInner.send_frame_counter s /\
    s' = warn_exhaustion (count_sent (stepped s)).
Proof.
  intros (Hb & Hpx & Hhk & Hid) [Ha Hc Hk (n & Hr)] (Hwf & Hs & Hne & Hok & Hl) Hcnt Hg.
  assert (Hst : exists m, VoipSessionInner.send_ratchet (stepped s) = ratchet_after m (ml_base ml)).
  { unfold stepped. destruct (_ <=? _); [|eauto]. exists (n + 1)%nat. simpl. rewrite Hr. apply ratchet_after_add. }
  destruct Hst as (m & Hm).
  assert (Hwfm : ratchet_wf (ratchet_after m (ml_base ml))) by now apply ratchet_after_wf.
  set (c := VoipSessionInner.send_frame_counter s) in *.
  destruct (MediaCrypto.encrypt_frame_ok (frame_key_of (ratchet_after m (ml_base ml)) c) (nonce_prefix (ml_base ml)) c
    p (build_frame_aad (ml_call_id ml) (FrameHeader.ssrc h) c (generation (ratchet_after m (ml_base ml))))
    (len_frame_key_of _ _) Hpx ltac:(lia) Hne Hl (aad_short _ _ _ _ Hid)) as (ep & Hep & _).
  destruct (MediaCrypto.encrypt_header_ok (ml_header_key ml) (nonce_prefix (ml_base ml)) c (FrameHeader.serialize h)
    Hhk Hpx ltac:(now rewrite FrameHeader.serialize_len)) as (eh & Heh & _ & _).
  eexists _, _. split; [|split; [|split; [|split]]].
  - unfold encrypt_frame, require_active, sbind, sget, sguard, slift, smod, sret. rewrite Ha. cbn [is_active ensure].
    rewrite Hs, Z.eqb_refl. cbn [ensure].
    destruct (Z.leb_spec (VoipSessionInner.send_frame_counter s) MAX_FRAME_COUNTER); [|unfold c in *; lia].
    cbn [ensure]. rewrite maybe_advance_send_eq by (rewrite ?Hr in *; auto using ratchet_after_wf).
    assert (Hsame : VoipSessionInner.send_frame_counter (stepped s) = c /\
      VoipSessionInner.call_id (stepped s) = ml_call_id ml /\ VoipSessionInner.ssrc (stepped s) = FrameHeader.ssrc h /\
      VoipSessionInner.header_key_send (stepped s) = SecureMemoryHandle.mk (ml_header_key ml))
      by (unfold stepped; destruct (_ <=? _); auto).
    destruct Hsame as (-> & -> & -> & ->). rewrite Hm, frame_key_eq by assumption.
    cbn [key_generation media_key]. change (nonce_prefix (ratchet_after m (ml_base ml))) with (nonce_prefix (ml_base ml)).
    rewrite Hep. cbn [sbind]. unfold crypto_err. rewrite SecureMemoryHandle.read_bytes_exact by exact Hhk.
    cbn [map_err]. rewrite Heh. reflexivity.
  - exists m, ep, eh. exact (conj eq_refl (conj Hep (conj Heh (conj Hok (conj Hl (conj Hwf (proj1 Hcnt))))))).
  - apply sending_stepped. constructor; eauto.
  - reflexivity.
  - reflexivity.
Qed.

(** The receiver after an accepted frame. *)
Definition accepted (r : MediaKeyRatchet) (c : Z) (s : VoipSessionInner) : VoipSessionInner :=
  let s := VoipSessionInner.set_recv_ratchet r s in
  let s := VoipSessionInner.set_replay_window (ReplayWindow.mark (VoipSessionInner.replay_window s) c) s in
  VoipSessionInner.set_frames_received (VoipSessionInner.frames_received s + 1) s.

Lemma receiving_accepted ml seen s n c :
  receiving ml seen s -> 0 <= c -> receiving ml (c :: seen) (accepted (ratchet_after n (ml_base ml)) c s).
Proof.
  intros [Ha Hi Hk Hr Hw] Hc. constructor; cbn; eauto. now apply ReplayWindow.mark_refines.
Qed.

Lemma encrypted_len k px c p aad ep :
  len p <= MAX_VOIP_FRAME_SIZE -> MediaCrypto.encrypt_frame k px c p aad = Ok ep ->
  len ep <= MAX_VOIP_ENCRYPTED_PAYLOAD_SIZE.
Proof.
  intros Hl H. unfold MediaCrypto.encrypt_frame in H. inv_ok.
  match goal with H : aes_encrypt _ _ _ _ = Ok _ |- _ => apply aes_encrypt_inv in H; destruct H as (_ & _ & Hs) end.
  rewrite (siv_encrypt_len _ _ _ _ _ Hs), len_pad_frame.
  pose proof (frame_padded_len_spec (len p) (len_nonneg p)) as [_ Hb].
  unfold MAX_VOIP_ENCRYPTED_PAYLOAD_SIZE. lia.
Qed.

(** A genuine frame that the window and the ratchet of the receiver allow is
    decrypted to what was sent. *)
Lemma decrypt_frame_genuine ml seen s f h p :
  link_wf ml -> receiving ml seen s -> genuine ml f h p ->
  generation (VoipSessionInner.recv_ratchet s) <= EncryptedFrame.ratchet_generation f <=
    generation (VoipSessionInner.recv_ratchet s) + MAX_SKIPPED_RATCHET_GENERATIONS ->
  ReplayWindow.acceptable seen (EncryptedFrame.frame_counter f) = true ->
  exists s', decrypt_frame f s =
      (Ok (DecryptedFrame.mk h p (EncryptedFrame.frame_counter f) (EncryptedFrame.ratchet_generation f)), s') /\
    receiving ml (EncryptedFrame.frame_counter f :: seen) s' /\
    generation (VoipSessionInner.recv_ratchet s') = EncryptedFrame.ratchet_generation f.
Proof.
  intros (Hb & Hpx & Hhk & Hid) Hrc (n & ep & eh & Hf & Hep & Heh & Hok & Hl & Hwf & Hc0) Hg Hacc.
  pose proof Hrc as [Ha Hi Hk (m & Hr) Hw]. set (c := EncryptedFrame.frame_counter f) in *.
  rewrite Hr in Hg. rewrite Hf in Hg |- *. cbn [EncryptedFrame.ratchet_generation] in Hg. simpl generation in Hg.
  assert (Hd : exists d, n = (m + d)%nat /\ Z.of_nat d <= MAX_SKIPPED_RATCHET_GENERATIONS)
    by (exists (n - m)%nat; lia).
  destruct Hd as (d & -> & Hd).
  rewrite <- ratchet_after_add in Hep, Heh |- *. set (r := ratchet_after m (ml_base ml)) in *.
  assert (Hwfr : ratchet_wf r) by now apply ratchet_after_wf.
  exists (accepted (ratchet_after d r) c s). split; [|split; [|reflexivity]].
  2: { unfold r. rewrite ratchet_after_add. now apply receiving_accepted. }
  change (nonce_prefix (ratchet_after d r)) with (nonce_prefix r) in *.
  unfold decrypt_frame, require_active, sbind, sget, sguard, slift, smod, sret, on_err.
  cbn [EncryptedFrame.frame_counter EncryptedFrame.call_id EncryptedFrame.encrypted_payload EncryptedFrame.ssrc
    EncryptedFrame.encrypted_header EncryptedFrame.ratchet_generation].
  rewrite Ha, Hi, bytes_eqb_refl. cbn [is_active ensure].
  destruct (Z.leb_spec (len ep) MAX_VOIP_ENCRYPTED_PAYLOAD_SIZE) as [_|?];
    [|pose proof (encrypted_len _ _ _ _ _ _ Hl Hep); lia].
  destruct (MediaCrypto.encrypt_header_ok (ml_header_key ml) (nonce_prefix r) c (FrameHeader.serialize h) Hhk Hpx
    ltac:(now rewrite FrameHeader.serialize_len)) as (eh' & Heh' & Hdh & Hlh).
  rewrite Heh' in Heh. apply Ok_inj in Heh. subst eh'. rewrite FrameHeader.serialize_len in Hlh. rewrite Hlh.
  cbn [ensure]. rewrite (ReplayWindow.check_refines _ _ _ Hw Hc0), Hacc, Hr. cbn [ensure].
  change (generation (ratchet_after d r)) with (generation r + Z.of_nat d) in Hep |- *.
  rewrite (speculative_frame_key_eq r d c Hwfr Hd). cbn [media_key].
  rewrite (MediaCrypto.decrypt_encrypt_frame _ _ _ _ _ _ Hok Hep). unfold crypto_err.
  rewrite Hk, SecureMemoryHandle.read_bytes_exact by exact Hhk. cbn [map_err]. rewrite Hdh.
  rewrite (FrameHeader.deserialize_serialize h Hwf), Z.eqb_refl. cbn [ensure].
  unfold on_recv_ratchet. rewrite Hr, (commit_of d r Hwfr). reflexivity.
Qed.

(** ** Sequences of frames *)

Fixpoint send_frames (items : list (FrameHeader.t * bytes)) : VM (list EncryptedFrame) :=
  match items with
  | [] => sret []
  | (h, p) :: items =>
      do f <- encrypt_frame h p;
      do fs <- send_frames items;
      sret (f :: fs)
  end.

Fixpoint receive_frames (fs : list EncryptedFrame) : VM (list DecryptedFrame) :=
  match fs with
  | [] => sret []
  | f :: fs =>
      do d <- decrypt_frame f;
      do ds <- receive_frames fs;
      sret (d :: ds)
  end.

(** The frames can be read in this order by a receiver at generation [gen] that
    accepted the counters [seen]: no frame is of an older generation than one
    before it, none skips more than eight, and none is repeated or older than
    the window. *)
Fixpoint readable (gen : Z) (seen : list Z) (fs : list EncryptedFrame) : bool :=
  match fs with
  | [] => true
  | f :: fs =>
      let g := EncryptedFrame.ratchet_generation f in
      let c := EncryptedFrame.frame_counter f in
      (gen <=? g) && (g <=? gen + MAX_SKIPPED_RATCHET_GENERATIONS) && ReplayWindow.acceptable seen c &&
      readable g (c :: seen) fs
  end.

Definition contents (d : DecryptedFrame) : FrameHeader.t * bytes := (DecryptedFrame.header d, DecryptedFrame.payload d).

Definition is_encryption (ml : MediaLink) (item : FrameHeader.t * bytes) (f : EncryptedFrame) : Prop :=
  genuine ml f (fst item) (snd item).

Lemma stepped_facts s : let s' := warn_exhaustion (count_sent (stepped s)) in
  VoipSessionInner.ssrc s' = VoipSessionInner.ssrc s /\
  VoipSessionInner.send_frame_counter s' = VoipSessionInner.send_frame_counter s + 1 /\
  generation (VoipSessionInner.send_ratchet s') <= generation (VoipSessionInner.send_ratchet s) + 1.
Proof. unfold warn_exhaustion, notify, stepped. repeat case_if; cbn; repeat split; lia. Qed.

Lemma frame_ok_ssrc s s' item :
  VoipSessionInner.ssrc s' = VoipSessionInner.ssrc s -> frame_ok s item -> frame_ok s' item.
Proof. destruct item as [h p]. unfold frame_ok. now intros ->. Qed.

Lemma send_frames_genuine ml items s :
  link_wf ml -> sending ml s -> Forall (frame_ok s) items ->
  0 <= VoipSessionInner.send_frame_counter s ->
  VoipSessionInner.send_frame_counter s + len items <= MAX_FRAME_COUNTER + 1 ->
  generation (VoipSessionInner.send_ratchet s) + len items <= MAX_RATCHET_GENERATION ->
  exists frames s', send_frames items s = (Ok frames, s') /\ Forall2 (is_encryption ml) items frames /\ sending ml s'.
Proof.
  intros Hml. revert s. induction items as [|[h p] items IH]; intros s Hs Hok H0 Hc Hg.
  { exists [], s. auto. }
  inversion_clear Hok as [|? ? Hf Hok']. rewrite len_cons in Hc, Hg. pose proof (len_nonneg items).
  destruct (encrypt_frame_genuine ml s h p Hml Hs Hf) as (f & s1 & He & Hgen & Hs1 & _ & Hs1eq); [lia|lia|].
  destruct (stepped_facts s) as (Hss & Hcc & Hgg). rewrite <- Hs1eq in Hss, Hcc, Hgg.
  destruct (IH s1 Hs1) as (fs & s2 & Hsend & Hall & Hs2); try lia.
  { eapply Forall_impl; [|exact Hok']. intros item. now apply frame_ok_ssrc. }
  exists (f :: fs), s2. cbn [send_frames]. unfold sbind, sret. rewrite He, Hsend. auto.
Qed.

Lemma receive_frames_genuine ml items fs :
  link_wf ml -> Forall2 (is_encryption ml) items fs ->
  forall seen r, receiving ml seen r -> readable (generation (VoipSessionInner.recv_ratchet r)) seen fs = true ->
  exists ds r', receive_frames fs r = (Ok ds, r') /\ map contents ds = items /\
    receiving ml (rev (map EncryptedFrame.frame_counter fs) ++ seen) r'.
Proof.
  intros Hml Hall. induction Hall as [|[h p] f items fs Hf Hall IH]; intros seen r Hr Hd.
  { exists [], r. auto. }
  cbn [readable] in Hd. bools.
  destruct (decrypt_frame_genuine ml seen r f h p Hml Hr Hf) as (r1 & Hdec & Hr1 & Hg1); [lia|assumption|].
  rewrite <- Hg1 in *. destruct (IH _ _ Hr1 ltac:(assumption)) as (ds & r2 & Hrec & Hc & Hr2).
  eexists (_ :: ds), r2. cbn [receive_frames]. unfold sbind, sret. rewrite Hdec, Hrec.
  split; [reflexivity|]. split; [cbn; now rewrite Hc|]. cbn [map rev]. now rewrite <- app_assoc.
Qed.

Definition no_frame : EncryptedFrame := EncryptedFrame.mk [] 0 0 0 [] [] [].
Definition no_item : FrameHeader.t * bytes := (FrameHeader.mk 0 0 0 0, []).

Lemma Forall2_nth_pick {A B} (R : A -> B -> Prop) (da : A) (db : B) la lb ix :
  Forall2 R la lb -> Forall (fun i => (i < List.length la)%nat) ix ->
  Forall2 R (map (fun i => nth i la da) ix) (map (fun i => nth i lb db) ix).
Proof.
  intros Hall His. induction His as [|i ix Hi _ IH]; cbn [map]; constructor; [|exact IH].
  clear IH. revert i Hi. induction Hall; intros [|i] Hi; simpl in *; try lia; auto. apply IHHall. lia.
Qed.

(** C10. Over one direction of a call every frame is encrypted, and whatever the
    network loses, repeats or reorders, each sequence of arrivals that the
    receiver's window and ratchet allow is decrypted to exactly the headers and
    payloads that were sent, through every ratchet step. *)
Theorem call_frames_delivered ml seen s r items
    (Hml : link_wf ml) (Hs : sending ml s) (Hr : receiving ml seen r) (Hitems : Forall (frame_ok s) items)
    (Hc0 : 0 <= VoipSessionInner.send_frame_counter s)
    (Hc : VoipSessionInner.send_frame_counter s + len items <= MAX_FRAME_COUNTER + 1)
    (Hg : generation (VoipSessionInner.send_ratchet s) + len items <= MAX_RATCHET_GENERATION) :
  exists frames s', send_frames items s = (Ok frames, s') /\
    forall schedule, Forall (fun i => (i < List.length items)%nat) schedule ->
      let arriving := map (fun i => nth i frames no_frame) schedule in
      readable (generation (VoipSessionInner.recv_ratchet r)) seen arriving = true ->
      exists out r', receive_frames arriving r = (Ok out, r') /\
        map contents out = map (fun i => nth i items no_item) schedule.
Proof.
  destruct (send_frames_genuine ml items s Hml Hs Hitems Hc0 Hc Hg) as (frames & s' & Hsend & Hall & _).
  exists frames, s'. split; [exact Hsend|]. intros schedule Hi arriving Hd.
  pose proof (Forall2_nth_pick _ no_item no_frame _ _ _ Hall Hi) as Hp.
  destruct (receive_frames_genuine ml _ _ Hml Hp seen r Hr Hd) as (out & r' & Hrec & Hout & _). eauto.
Qed.

End Media.
