(* ===== verification/VoipRun.v ===== *)
(** * Histories of a call

    Every operation that can change a call session as a constructor of [VOp],
    and the counters a history sends and accepts.  The theorems hold for every
    history, whatever frames and signals are offered. *)

From Stdlib Require Import ZArith List Bool Lia String.
From S2P Require Import Prelude Constants SecureMemory Crypto Signatures DhValidator ReplayWindow.
From S2P Require Import KeyRatchet Proto VoipFrame CallKeys VoipSession VoipMedia.
Import ListNotations.
Open Scope list_scope.
Open Scope Z_scope.

Inductive VOp : Type :=
| v_encrypt (h : FrameHeader.t) (p : bytes)
| v_control (c : CallControlType)
| v_decrypt (f : EncryptedFrame)
| v_initiate_rekey (ed25519_secret peer_kyber : bytes) (ent : CallEntropy)
| v_process_rekey (msg peer_ed25519 : bytes) (kyber : SecureMemoryHandle.t) (peer_kyber ed25519_secret : bytes)
    (ent : CallEntropy)
| v_process_rekey_ack (msg peer_ed25519 : bytes) (kyber : SecureMemoryHandle.t)
| v_apply_rekey (km : CallKeyMaterial)
| v_end_call
| v_process_call_end (msg : bytes)
| v_set_screen (width height frame_rate : Z) (hint : option string)
| v_clear_screen
| v_set_consent (c : Z)
| v_build_consent (c t : Z) (ed25519_secret : bytes) (clock : option Z)
| v_process_consent (msg peer_ed25519 : bytes) (clock : option Z)
| v_set_event_handler.

Inductive VEvent : Type := v_sent (counter : Z) | v_accepted (counter : Z).

Section Run.
Context `{P : Primitives} {SG : Signatures}
  {CEnd : Prost CallEnd.t} {CRekey : Prost CallRekey.t} {CAck : Prost CallRekeyAck.t}
  {CConsent : Prost RecordingConsentMessage.t}.

Definition sent_of (r : PResult EncryptedFrame) : list VEvent :=
  match r with Ok f => [v_sent (EncryptedFrame.frame_counter f)] | Err _ => [] end.
Definition accepted_of (r : PResult DecryptedFrame) : list VEvent :=
  match r with Ok d => [v_accepted (DecryptedFrame.frame_counter d)] | Err _ => [] end.

(** The operations that neither send nor accept a frame. *)
Definition quiet_op (op : VOp) (s : VoipSessionInner) : VoipSessionInner :=
  match op with
  | v_initiate_rekey sk pk ent => snd (initiate_rekey sk pk ent s)
  | v_process_rekey m pe k pk sk ent => snd (process_rekey m pe k pk sk ent s)
  | v_process_rekey_ack m pe k => snd (process_rekey_ack m pe k s)
  | v_apply_rekey km => snd (apply_rekey km s)
  | v_end_call => snd (end_call s)
  | v_process_call_end m => snd (process_call_end m s)
  | v_set_screen w h f hint => snd (set_screen_share_meta w h f hint s)
  | v_clear_screen => snd (clear_screen_share_meta s)
  | v_set_consent c => snd (set_recording_consent c s)
  | v_build_consent c t sk clock => snd (build_recording_consent_message c t sk clock s)
  | v_process_consent m pe clock => snd (process_recording_consent_message m pe clock s)
  | v_set_event_handler => set_event_handler s
  | _ => s
  end.

Definition apply_vop (op : VOp) (s : VoipSessionInner) : list VEvent * VoipSessionInner :=
  match op with
  | v_encrypt h p => let '(r, s') := encrypt_frame h p s in (sent_of r, s')
  | v_control c => let '(r, s') := encrypt_call_control c s in (sent_of r, s')
  | v_decrypt f => let '(r, s') := decrypt_frame f s in (accepted_of r, s')
  | op => ([], quiet_op op s)
  end.

Fixpoint vrun (ops : list VOp) (s : VoipSessionInner) : list VEvent * VoipSessionInner :=
  match ops with
  | [] => ([], s)
  | op :: ops =>
      let '(e, s1) := apply_vop op s in
      let '(es, s2) := vrun ops s1 in
      (e ++ es, s2)
  end.

Fixpoint sent_counters (es : list VEvent) : list Z :=
  match es with
  | [] => []
  | v_sent c :: es => c :: sent_counters es
  | _ :: es => sent_counters es
  end.

Fixpoint accepted_counters (es : list VEvent) : list Z :=
  match es with
  | [] => []
  | v_accepted c :: es => c :: accepted_counters es
  | _ :: es => accepted_counters es
  end.

(** ** What a call leaves alone *)

Definition media_core (s : VoipSessionInner) : Z * ReplayWindow.t :=
  (VoipSessionInner.send_frame_counter s, VoipSessionInner.replay_window s).

Lemma notify_core ev s : media_core (notify ev s) = media_core s.
Proof. unfold notify. now case_if. Qed.

(** [core_of def] closes [media_core (snd (def s)) = media_core s] by running
    through the branches of [def]. *)
Ltac by_branches :=
  match goal with |- media_core (snd ?c) = _ => destruct c as [[?|?] ?] eqn:?; cbn [snd] end;
  inv_stm; rewrite ?notify_core; try reflexivity.

Lemma quiet_core op s : media_core (quiet_op op s) = media_core s.
Proof.
  destruct op; cbn [quiet_op]; try reflexivity.
  - unfold initiate_rekey, require_active. by_branches.
  - unfold process_rekey. by_branches. all: unfold finish_rekey; now rewrite notify_core.
  - unfold process_rekey_ack. by_branches. all: unfold finish_rekey; now rewrite notify_core.
  - unfold apply_rekey, require_active. by_branches. all: unfold finish_rekey; now rewrite notify_core.
  - unfold end_call. by_branches.
  - unfold process_call_end, end_call. by_branches.
  - unfold set_screen_share_meta, require_active. by_branches.
  - unfold clear_screen_share_meta, require_active. by_branches.
  - unfold set_recording_consent, require_active. by_branches.
  - unfold build_recording_consent_message, require_active. by_branches.
  - unfold process_recording_consent_message, require_active. by_branches.
  - unfold set_event_handler. now case_if.
Qed.

(** ** The two media operations *)

Lemma advance_err s x s' : advance s = (x, s') -> is_ok x = false -> s' = s.
Proof. unfold advance. destruct x; [discriminate|]. intros H _. inv_stm; reflexivity. Qed.

Lemma set_send_ratchet_same s : VoipSessionInner.set_send_ratchet (VoipSessionInner.send_ratchet s) s = s.
Proof. now destruct s. Qed.
Lemma set_recv_ratchet_same s : VoipSessionInner.set_recv_ratchet (VoipSessionInner.recv_ratchet s) s = s.
Proof. now destruct s. Qed.

Lemma advance_generation_effect r x r' :
  advance_generation r = (x, r') ->
  (is_ok x = false /\ r' = r) \/ (is_ok x = true /\ generation r < MAX_RATCHET_GENERATION /\ generation r' = generation r + 1).
Proof.
  unfold advance_generation. destruct x; intros H; inv_stm.
  - right. unfold advance in *. inv_stm. bools. auto.
  - left. split; [reflexivity|]. now apply (advance_err _ _ _ H).
Qed.

(** The due ratchet step either happened, was not due, or was refused. *)
Definition after_step (s s1 : VoipSessionInner) : Prop :=
  s1 = s \/ exists r, generation (VoipSessionInner.send_ratchet s) < MAX_RATCHET_GENERATION /\
    generation r = generation (VoipSessionInner.send_ratchet s) + 1 /\
    s1 = VoipSessionInner.set_frames_since_ratchet 0 (VoipSessionInner.set_send_ratchet r s).

Lemma maybe_advance_effect s x s1 :
  maybe_advance_send s = (x, s1) ->
  after_step s s1 /\ (is_ok x = true ->
    VoipSessionInner.ratchet_interval_frames s <= VoipSessionInner.frames_since_ratchet s ->
    VoipSessionInner.frames_since_ratchet s1 = 0).
Proof.
  unfold maybe_advance_send, sbind at 1, sget. destruct (Z.leb_spec (VoipSessionInner.ratchet_interval_frames s)
    (VoipSessionInner.frames_since_ratchet s)).
  - unfold sbind, on_send_ratchet. destruct (advance_generation _) as [y r] eqn:Ha.
    destruct (advance_generation_effect _ _ _ Ha) as [[Hy ->]|(Hy & Hg & Hr)]; destruct y; try discriminate Hy.
    + rewrite set_send_ratchet_same. intros H1. inv_ok. split; [now left|discriminate].
    + unfold smod. intros H1. inv_ok. split; [right; eauto|reflexivity].
  - unfold sret. intros H1. inv_ok. split; [now left|lia].
Qed.

Lemma encrypt_frame_effect h p s r s' :
  encrypt_frame h p s = (r, s') ->
  exists s1, after_step s s1 /\
    match r with
    | Err _ => s' = s1
    | Ok f => EncryptedFrame.frame_counter f = VoipSessionInner.send_frame_counter s /\
        VoipSessionInner.send_frame_counter s <= MAX_FRAME_COUNTER /\ s' = warn_exhaustion (count_sent s1) /\
        (VoipSessionInner.ratchet_interval_frames s <= VoipSessionInner.frames_since_ratchet s ->
         VoipSessionInner.frames_since_ratchet s1 = 0)
    end.
Proof.
  unfold encrypt_frame, require_active. intros H. destruct r as [f|e]; inv_stm; bools;
    try (exists s; split; [now left|reflexivity]);
    match goal with Hm : maybe_advance_send _ = (_, ?s1) |- _ =>
      destruct (maybe_advance_effect _ _ _ Hm) as [Ha Hz]; exists s1; (split; [exact Ha|]) end; try reflexivity.
  repeat split; auto. now destruct Ha as [->|(r & _ & _ & ->)].
Qed.

Lemma decrypt_frame_effect f s r s' :
  decrypt_frame f s = (r, s') ->
  match r with
  | Err _ => exists d evs, s' = VoipSessionInner.set_handler_calls evs (VoipSessionInner.set_frames_dropped d s)
  | Ok d => DecryptedFrame.frame_counter d = EncryptedFrame.frame_counter f /\
      ReplayWindow.check (VoipSessionInner.replay_window s) (EncryptedFrame.frame_counter f) = true /\
      exists rr, s' = accepted rr (EncryptedFrame.frame_counter f) s
  end.
Proof.
  assert (Hid : s = VoipSessionInner.set_handler_calls (VoipSessionInner.handler_calls s)
    (VoipSessionInner.set_frames_dropped (VoipSessionInner.frames_dropped s) s)) by now destruct s.
  unfold decrypt_frame, require_active. intros H. destruct r as [d|e]; inv_stm; eauto.
  - repeat split; auto. unfold on_recv_ratchet in *.
    match goal with Hm : (let '(_, _) := ?c in _) = _ |- _ => destruct c as [? rr] eqn:?; inv_ok; subst end.
    exists rr. reflexivity.
  - unfold drop_replay, notify. case_if; [eexists _, _; reflexivity|].
    exists (VoipSessionInner.frames_dropped s + 1), (VoipSessionInner.handler_calls s). now destruct s.
  - unfold notify. case_if; [|eauto]. eexists (VoipSessionInner.frames_dropped s), _. destruct s; reflexivity.
  - unfold on_recv_ratchet in *.
    match goal with Hm : (let '(_, _) := commit_snapshot ?sn ?r0 in _) = _ |- _ =>
      unfold commit_snapshot, sbind, slift, smod in Hm; destruct (crypto_err _) in Hm; inv_ok; try discriminate end.
    rewrite set_recv_ratchet_same. eauto.
Qed.

(** ** Counters of a history *)

(** A frame counter on the wire is unsigned. *)
Definition vop_typed (op : VOp) : Prop :=
  match op with v_decrypt f => 0 <= EncryptedFrame.frame_counter f | _ => True end.

Lemma after_step_core s s1 : after_step s s1 -> media_core s1 = media_core s.
Proof. now intros [->|(r & _ & _ & ->)]. Qed.

Lemma warn_core s : media_core (warn_exhaustion s) = media_core s.
Proof. unfold warn_exhaustion. case_if; [apply notify_core|reflexivity]. Qed.

Lemma encrypt_core h p s r s' :
  encrypt_frame h p s = (r, s') ->
  match r with
  | Ok f => EncryptedFrame.frame_counter f = VoipSessionInner.send_frame_counter s /\
      media_core s' = (VoipSessionInner.send_frame_counter s + 1, VoipSessionInner.replay_window s)
  | Err _ => media_core s' = media_core s
  end.
Proof.
  intros H. destruct (encrypt_frame_effect _ _ _ _ _ H) as (s1 & Ha & Hr). apply after_step_core in Ha.
  destruct r; [|congruence]. destruct Hr as (Hc & _ & -> & _). split; [exact Hc|].
  rewrite warn_core. unfold media_core in *. injection Ha as <- <-. reflexivity.
Qed.

Lemma control_core c s r s' :
  encrypt_call_control c s = (r, s') ->
  match r with
  | Ok f => EncryptedFrame.frame_counter f = VoipSessionInner.send_frame_counter s /\
      media_core s' = (VoipSessionInner.send_frame_counter s + 1, VoipSessionInner.replay_window s)
  | Err _ => media_core s' = media_core s
  end.
Proof.
  unfold encrypt_call_control. intros H. destruct r; inv_stm; try reflexivity; apply (encrypt_core _ _ _ _ _ H).
Qed.

(** The counters a call has sent are those below its send counter; its window
    stands for the counters it accepted. *)
Lemma vrun_counters ops : forall s seen evs s',
  Forall vop_typed ops -> ReplayWindow.refines (VoipSessionInner.replay_window s) seen -> NoDup seen ->
  vrun ops s = (evs, s') ->
  VoipSessionInner.send_frame_counter s <= VoipSessionInner.send_frame_counter s' /\
  sent_counters evs = zrange (VoipSessionInner.send_frame_counter s) (VoipSessionInner.send_frame_counter s') /\
  ReplayWindow.refines (VoipSessionInner.replay_window s') (rev (accepted_counters evs) ++ seen) /\
  NoDup (rev (accepted_counters evs) ++ seen).
Proof.
  induction ops as [|op ops IH]; intros s seen evs s' Hty Hw Hnd Hrun; cbn [vrun] in Hrun.
  { inv_ok. rewrite zrange_empty by lia. repeat split; auto; try lia; apply Hw. }
  destruct (apply_vop op s) as [e s1] eqn:Ha. destruct (vrun ops s1) as [es s2] eqn:Hr. inv_ok.
  inversion_clear Hty as [|? ? Ht Hty'].
  assert (Hone : (e = [] /\ media_core s1 = media_core s) \/
    (e = [v_sent (VoipSessionInner.send_frame_counter s)] /\
     media_core s1 = (VoipSessionInner.send_frame_counter s + 1, VoipSessionInner.replay_window s)) \/
    exists c, e = [v_accepted c] /\ 0 <= c /\ ReplayWindow.check (VoipSessionInner.replay_window s) c = true /\
     media_core s1 = (VoipSessionInner.send_frame_counter s, ReplayWindow.mark (VoipSessionInner.replay_window s) c)).
  { clear IH Hr. destruct op; cbn [apply_vop] in Ha;
      try (inv_ok; left; split; [reflexivity|apply (quiet_core _ s)]).
    - destruct (encrypt_frame h p s) as [r s3] eqn:He. inv_ok. pose proof (encrypt_core _ _ _ _ _ He) as Hc.
      destruct r; cbn [sent_of]; [destruct Hc as [-> ?]|]; auto.
    - destruct (encrypt_call_control c s) as [r s3] eqn:He. inv_ok. pose proof (control_core _ _ _ _ He) as Hc.
      destruct r; cbn [sent_of]; [destruct Hc as [-> ?]|]; auto.
    - destruct (decrypt_frame f s) as [r s3] eqn:He. inv_ok. pose proof (decrypt_frame_effect _ _ _ _ He) as Hd.
      destruct r; cbn [accepted_of].
      + destruct Hd as (-> & Hk & rr & ->). right; right. eexists. repeat split; auto.
      + destruct Hd as (d & evs & ->). left. auto. }
  destruct Hone as [[-> Hm]|[[-> Hm]|(c & -> & Hc & Hk & Hm)]]; injection Hm as Hm1 Hm2.
  - rewrite <- Hm2 in Hw. destruct (IH s1 seen es s' Hty' Hw Hnd Hr) as (Hle & Hs & Hrest). rewrite Hm1 in *. auto.
  - rewrite <- Hm2 in Hw. destruct (IH s1 seen es s' Hty' Hw Hnd Hr) as (Hle & Hs & Hrest). rewrite Hm1 in *. cbn [app sent_counters].
    rewrite Hs, <- zrange_cons by lia. split; [lia|auto].
  - rewrite (ReplayWindow.check_refines _ seen) in Hk by auto.
    assert (Hnd' : NoDup (c :: seen)) by (constructor; [now apply ReplayWindow.acceptable_fresh|exact Hnd]).
    destruct (IH s1 (c :: seen) es s' Hty' ltac:(rewrite Hm2; now apply ReplayWindow.mark_refines) Hnd' Hr)
      as (Hle & Hs & Hrest).
    cbn [app sent_counters accepted_counters rev]. rewrite <- app_assoc. rewrite Hm1 in *. auto.
Qed.

Lemma new_session_core call_id role km interval rekey shield clock screen ssrc s0 :
  from_key_material_with_time_provider_and_screen_share call_id role km interval rekey shield clock
    screen ssrc = Ok s0 ->
  VoipSessionInner.send_frame_counter s0 = 0 /\ VoipSessionInner.replay_window s0 = ReplayWindow.new /\
  VoipSessionInner.frames_since_ratchet s0 = 0 /\ generation (VoipSessionInner.send_ratchet s0) = 0 /\
  VoipSessionInner.ratchet_interval_frames s0 = nonzero_or interval DEFAULT_RATCHET_INTERVAL_FRAMES.
Proof. unfold from_key_material_with_time_provider_and_screen_share. intros H. inv_ok. auto. Qed.

(** C11. Whatever is offered to a call, the frames it sends carry the counters
    0, 1, 2, ... without gap or repetition, across rekeys and failures, so that
    no nonce is used twice with a key; and no frame counter is accepted twice. *)
Theorem call_counters_once call_id role km interval rekey shield clock screen ssrc s0 ops evs s'
    (Hnew : from_key_material_with_time_provider_and_screen_share call_id role km interval rekey shield clock
              screen ssrc = Ok s0)
    (Hty : Forall vop_typed ops) (Hrun : vrun ops s0 = (evs, s')) :
  sent_counters evs = zrange 0 (VoipSessionInner.send_frame_counter s') /\ NoDup (accepted_counters evs).
Proof.
  destruct (new_session_core _ _ _ _ _ _ _ _ _ _ Hnew) as (Hc & Hw & _).
  assert (Href : ReplayWindow.refines (VoipSessionInner.replay_window s0) [])
    by (rewrite Hw; apply ReplayWindow.new_refines).
  destruct (vrun_counters ops s0 [] evs s' Hty Href (NoDup_nil _) Hrun) as (_ & Hs & _ & Hn). rewrite Hc in Hs.
  split; [exact Hs|]. rewrite app_nil_r in Hn. rewrite <- (rev_involutive (accepted_counters evs)).
  now apply NoDup_rev.
Qed.

(** ** Bounds *)

(** The widths of the counters are never reached: the frame counter stops one
    past its limit, the generation at its limit, and the frames since the last
    ratchet step stay within the interval. *)
Definition in_bounds (s : VoipSessionInner) : Prop :=
  0 <= VoipSessionInner.send_frame_counter s <= MAX_FRAME_COUNTER + 1 /\
  0 <= generation (VoipSessionInner.send_ratchet s) <= MAX_RATCHET_GENERATION /\
  0 <= VoipSessionInner.frames_since_ratchet s <= VoipSessionInner.ratchet_interval_frames s /\
  0 < VoipSessionInner.ratchet_interval_frames s.

(** The fields [in_bounds] looks at. *)
Definition bound_core (s : VoipSessionInner) : Z * MediaKeyRatchet * Z * Z :=
  (VoipSessionInner.send_frame_counter s, VoipSessionInner.send_ratchet s, VoipSessionInner.frames_since_ratchet s,
   VoipSessionInner.ratchet_interval_frames s).

Lemma in_bounds_core s s' : bound_core s' = bound_core s -> in_bounds s -> in_bounds s'.
Proof. unfold bound_core, in_bounds. now intros [= -> -> -> ->]. Qed.

Lemma notify_bounds ev s : in_bounds s -> in_bounds (notify ev s).
Proof. unfold notify. now case_if. Qed.

Lemma rekeyed_bounds g km s : in_bounds s -> in_bounds (finish_rekey g (install_keys km s)).
Proof.
  intros (Hc & Hg & Hf & Hi). unfold finish_rekey. apply notify_bounds. unfold in_bounds, install_keys. cbn.
  unfold MAX_RATCHET_GENERATION, MAX_FRAME_COUNTER in *. lia.
Qed.

Lemma acknowledged_bounds g km s :
  in_bounds s -> in_bounds (finish_rekey g (VoipSessionInner.set_pending_rekey None (install_keys km s))).
Proof.
  intros (Hc & Hg & Hf & Hi). unfold finish_rekey. apply notify_bounds. unfold in_bounds, install_keys. cbn.
  unfold MAX_RATCHET_GENERATION, MAX_FRAME_COUNTER in *. lia.
Qed.

Ltac bounds_by_branches :=
  match goal with |- in_bounds (snd ?c) => destruct c as [[?|?] ?] eqn:?; cbn [snd] end;
  inv_stm; auto using notify_bounds, rekeyed_bounds, acknowledged_bounds.

Lemma quiet_bounds op s : in_bounds s -> in_bounds (quiet_op op s).
Proof.
  intros Hb. destruct op; cbn [quiet_op]; auto.
  - unfold initiate_rekey, require_active. bounds_by_branches.
  - unfold process_rekey. bounds_by_branches.
  - unfold process_rekey_ack. bounds_by_branches.
  - unfold apply_rekey, require_active. bounds_by_branches.
  - unfold end_call. bounds_by_branches.
  - unfold process_call_end, end_call. bounds_by_branches.
  - unfold set_screen_share_meta, require_active. bounds_by_branches.
  - unfold clear_screen_share_meta, require_active. bounds_by_branches.
  - unfold set_recording_consent, require_active. bounds_by_branches.
  - unfold build_recording_consent_message, require_active. bounds_by_branches.
  - unfold process_recording_consent_message, require_active. bounds_by_branches.
  - unfold set_event_handler. now case_if.
Qed.

Lemma encrypt_bounds h p s r s' : in_bounds s -> encrypt_frame h p s = (r, s') -> in_bounds s'.
Proof.
  intros (Hc & Hg & Hf & Hi) H. destruct (encrypt_frame_effect _ _ _ _ _ H) as (s1 & Ha & Hr).
  assert (Hb1 : in_bounds s1 /\ VoipSessionInner.send_frame_counter s1 = VoipSessionInner.send_frame_counter s /\
    (VoipSessionInner.frames_since_ratchet s1 = 0 \/
     VoipSessionInner.frames_since_ratchet s1 = VoipSessionInner.frames_since_ratchet s) /\
    VoipSessionInner.ratchet_interval_frames s1 = VoipSessionInner.ratchet_interval_frames s).
  { destruct Ha as [->|(x & Hlt & Hx & ->)]; unfold in_bounds; cbn; [|rewrite Hx]; unfold MAX_FRAME_COUNTER in *;
      repeat split; auto; lia. }
  destruct Hb1 as (Hb1 & Hc1 & Hf1 & Hi1). destruct r as [f|e]; [|now subst s'].
  destruct Hr as (_ & Hmax & -> & Hz). assert (Hb2 : in_bounds (count_sent s1)).
  { destruct Hb1 as (_ & Hg1 & _ & _). unfold in_bounds. cbn. rewrite Hc1, Hi1. unfold MAX_FRAME_COUNTER in *.
    destruct (Z_le_gt_dec (VoipSessionInner.ratchet_interval_frames s) (VoipSessionInner.frames_since_ratchet s)) as [Hle|Hgt].
    - specialize (Hz Hle). lia.
    - lia. }
  unfold warn_exhaustion. case_if; auto using notify_bounds.
Qed.

Lemma apply_bounds op s e s' : in_bounds s -> apply_vop op s = (e, s') -> in_bounds s'.
Proof.
  intros Hb H. destruct op; cbn [apply_vop] in H; try (inv_ok; apply (quiet_bounds _ s Hb)).
  - destruct (encrypt_frame h p s) as [r s3] eqn:He. inv_ok. now apply encrypt_bounds in He.
  - destruct (encrypt_call_control c s) as [r s3] eqn:He. inv_ok. unfold encrypt_call_control in He.
    destruct r; inv_stm; auto; eapply encrypt_bounds; eassumption.
  - destruct (decrypt_frame f s) as [r s3] eqn:He. inv_ok. pose proof (decrypt_frame_effect _ _ _ _ He) as Hd.
    destruct r; [destruct Hd as (_ & _ & rr & ->)|destruct Hd as (d & evs & ->)]; auto.
Qed.


(** A refused frame, whatever the reason, leaves the call as it was: keys,
    ratchet, replay window and counters are those before the call, and only the
    statistics of dropped frames and the notifications of the handler differ. *)
Theorem refused_frame_effect f s e s' (H : decrypt_frame f s = (Err e, s')) :
  exists dropped calls,
    s' = VoipSessionInner.set_handler_calls calls (VoipSessionInner.set_frames_dropped dropped s).
Proof. exact (decrypt_frame_effect f s (Err e) s' H). Qed.

End Run.
