(* ===== verification/VoipRekey.v ===== *)
(** * Rekeying a call, and the sealed call state

    Two ends of a call that agree on root, generation and mode agree again after
    an undisturbed rekey, and both directions of the media are live with the new
    keys.  A rekey that crosses another one, and the restart of a call after a
    rekey its callee started, are shown to break the call. *)

From Stdlib Require Import ZArith List Bool Lia String.
From S2P Require Import Prelude Constants SecureMemory Crypto Toy Signatures DhValidator ReplayWindow.
From S2P Require Import KeyRatchet Proto VoipFrame CallKeys VoipSession VoipMedia.
Import ListNotations.
Open Scope string_scope.
Open Scope list_scope.
Open Scope Z_scope.

Section Rekey.
Context `{P : Primitives} {L : PrimitiveLaws P} {SG : Signatures} {SL : SignatureLaws SG}
  {CRekey : Prost CallRekey.t} {CAck : Prost CallRekeyAck.t}.

(** A message that the wire carries: it fits, and decodes to itself. *)
Definition transmits {M} `{Prost M} (m : M) : Prop :=
  len (encode m) <= MAX_VOIP_SIGNAL_MESSAGE_SIZE /\ decode (encode m) = Some m.

(** The two ends hold the same root, generation and mode. *)
Record agreed (root : bytes) (a b : VoipSessionInner) : Prop := {
  ag_active_a : VoipSessionInner.state a = Active;
  ag_active_b : VoipSessionInner.state b = Active;
  ag_call_id : VoipSessionInner.call_id a = VoipSessionInner.call_id b;
  ag_call_id_len : len (VoipSessionInner.call_id b) = CALL_ID_BYTES;
  ag_root_a : VoipSessionInner.root_secret a = SecureMemoryHandle.mk root;
  ag_root_b : VoipSessionInner.root_secret b = SecureMemoryHandle.mk root;
  ag_root_len : len root = ROOT_KEY_BYTES;
  ag_generation : VoipSessionInner.ratchet_generation a = VoipSessionInner.ratchet_generation b;
  ag_shield : VoipSessionInner.shield_mode a = VoipSessionInner.shield_mode b }.

(** Both directions of the media are live. *)
Definition duplex (seen_a seen_b : list Z) (a b : VoipSessionInner) : Prop :=
  exists ml ml', link_wf ml /\ link_wf ml' /\ sending ml a /\ receiving ml seen_b b /\
    sending ml' b /\ receiving ml' seen_a a.

(** A session that runs on the keys of [root], in the caller's direction or not. *)
Record keyed (root : bytes) (dir : bool) (s : VoipSessionInner) : Prop := {
  ky_send : VoipSessionInner.send_ratchet s = ratchet_new
    (media_key_of root (VoipSessionInner.call_id s) (VoipSessionInner.shield_mode s) dir)
    (prefix_of root (VoipSessionInner.call_id s) (VoipSessionInner.shield_mode s) dir);
  ky_recv : VoipSessionInner.recv_ratchet s = ratchet_new
    (media_key_of root (VoipSessionInner.call_id s) (VoipSessionInner.shield_mode s) (negb dir))
    (prefix_of root (VoipSessionInner.call_id s) (VoipSessionInner.shield_mode s) (negb dir));
  ky_header_send : VoipSessionInner.header_key_send s =
    header_key_of root (VoipSessionInner.call_id s) (VoipSessionInner.shield_mode s) dir;
  ky_header_recv : VoipSessionInner.header_key_recv s =
    header_key_of root (VoipSessionInner.call_id s) (VoipSessionInner.shield_mode s) (negb dir) }.

(** The link of one direction of freshly keyed ends. *)
Definition fresh_link (root call_id : bytes) (shield dir : bool) : MediaLink :=
  mkLink (ratchet_new (media_key_of root call_id shield dir) (prefix_of root call_id shield dir))
    (SecureMemoryHandle.data (header_key_of root call_id shield dir)) call_id.

Lemma fresh_link_wf root call_id shield dir : len call_id = CALL_ID_BYTES -> link_wf (fresh_link root call_id shield dir).
Proof.
  intros H. unfold link_wf, fresh_link. cbn. repeat split; [apply kdf_len; easy|easy|apply len_prefix_of|apply kdf_len; easy|exact H].
Qed.

Lemma keyed_sending root dir s : keyed root dir s -> VoipSessionInner.state s = Active ->
  sending (fresh_link root (VoipSessionInner.call_id s) (VoipSessionInner.shield_mode s) dir) s.
Proof.
  intros [Hs _ Hh _] Ha. constructor; [exact Ha|reflexivity|exact Hh|].
  exists 0%nat. rewrite ratchet_after_0. exact Hs.
Qed.

Lemma keyed_receiving root dir s seen : keyed root dir s -> VoipSessionInner.state s = Active ->
  ReplayWindow.refines (VoipSessionInner.replay_window s) seen ->
  receiving (fresh_link root (VoipSessionInner.call_id s) (VoipSessionInner.shield_mode s) (negb dir)) seen s.
Proof.
  intros [_ Hr _ Hh] Ha Hw. constructor; [exact Ha|reflexivity|exact Hh| |exact Hw].
  exists 0%nat. rewrite ratchet_after_0. exact Hr.
Qed.

Lemma keyed_duplex root dir a b seen_a seen_b :
  agreed root a b -> keyed root dir a -> keyed root (negb dir) b ->
  ReplayWindow.refines (VoipSessionInner.replay_window a) seen_a ->
  ReplayWindow.refines (VoipSessionInner.replay_window b) seen_b -> duplex seen_a seen_b a b.
Proof.
  intros [Ha Hb Hi Hil _ _ _ _ Hs] Ka Kb Wa Wb.
  exists (fresh_link root (VoipSessionInner.call_id b) (VoipSessionInner.shield_mode b) dir),
    (fresh_link root (VoipSessionInner.call_id b) (VoipSessionInner.shield_mode b) (negb dir)).
  split; [now apply fresh_link_wf|]. split; [now apply fresh_link_wf|].
  pose proof (keyed_sending _ _ _ Ka Ha) as Sa. pose proof (keyed_receiving _ _ _ _ Ka Ha Wa) as Ra.
  pose proof (keyed_sending _ _ _ Kb Hb) as Sb. pose proof (keyed_receiving _ _ _ _ Kb Hb Wb) as Rb.
  rewrite Hi, Hs in Sa, Ra. rewrite negb_involutive in Rb. auto.
Qed.

Lemma install_keyed root dir s km :
  km = key_material_of root (VoipSessionInner.call_id s) (VoipSessionInner.shield_mode s) dir ->
  forall g p, keyed root dir (finish_rekey g (VoipSessionInner.set_pending_rekey p (install_keys km s))).
Proof.
  intros -> g p. unfold finish_rekey, notify. case_if; constructor; reflexivity.
Qed.

(** ** The start of a call *)

(** The sessions built from the two ends of an exchange are in step. *)
Lemma started_connected root id sh ia ra ca ma sa ib rb cb mb sb a b :
  len root = ROOT_KEY_BYTES ->
  from_key_material_with_time_provider_and_screen_share id Caller (key_material_of root id sh true) ia ra sh ca ma sa = Ok a ->
  from_key_material_with_time_provider_and_screen_share id Callee (key_material_of root id sh false) ib rb sh cb mb sb = Ok b ->
  agreed root a b /\ duplex [] [] a b /\ keyed root true a /\ keyed root false b.
Proof.
  unfold from_key_material_with_time_provider_and_screen_share. intros Hl Ha Hb. inv_ok. bools.
  match goal with |- agreed root ?a ?b /\ _ => set (A := a); set (B := b) end.
  assert (Hag : agreed root A B) by (constructor; auto).
  assert (Ka : keyed root true A) by (constructor; reflexivity).
  assert (Kb : keyed root (negb true) B) by (constructor; reflexivity).
  split; [exact Hag|]. split; [|auto].
  apply (keyed_duplex root true); auto using ReplayWindow.new_refines; apply ReplayWindow.new_refines.
Qed.

(** ** The three steps of a rekey *)

Definition rekey_mac_of (key info call_id : bytes) (g : Z) : bytes :=
  let c := call_id ++ to_le_bytes 4 g in hmac_sha256 (kdf key HMAC_BYTES c info) c.

Lemma compute_rekey_mac_ok key info call_id g : compute_rekey_mac key info call_id g = Ok (rekey_mac_of key info call_id g).
Proof. unfold compute_rekey_mac. now rewrite derive_key_bytes_ok by easy. Qed.

Definition new_root (root dh pq call_id : bytes) : bytes := kdf (root ++ dh ++ pq) ROOT_KEY_BYTES call_id VOIP_REKEY_INFO.

Lemma rekey_complete_ok root dh pq call_id dir shield :
  len root = ROOT_KEY_BYTES ->
  rekey_complete (SecureMemoryHandle.mk root) dh pq call_id dir shield =
  Ok (key_material_of (new_root root dh pq call_id) call_id shield dir).
Proof.
  intros Hr. unfold rekey_complete, crypto_err. rewrite SecureMemoryHandle.read_bytes_exact by exact Hr. run_res.
  rewrite derive_key_bytes_ok by easy. run_res. apply derive_call_keys_ok, kdf_len. easy.
Qed.

Lemma rekey_dh_ok a b e1 e2 :
  DhValidator.validate_x25519_public_key (x25519_public b) = Ok tt ->
  is_all_zero (x25519_dh a (x25519_public b)) = false ->
  rekey_dh a (x25519_public b) e1 e2 = Ok (x25519_dh a (x25519_public b)).
Proof. intros Hv Hz. unfold rekey_dh. rewrite x25519_public_len, Hv. run_res. now rewrite Hz. Qed.

Lemma expected_generation_ok s :
  0 <= VoipSessionInner.ratchet_generation s < MAX_RATCHET_GENERATION ->
  expected_generation s = Ok (VoipSessionInner.ratchet_generation s + 1).
Proof.
  unfold expected_generation, checked_add, MAX_RATCHET_GENERATION. intros H.
  destruct (Z.ltb_spec (VoipSessionInner.ratchet_generation s + 1) (2 ^ 32)); [reflexivity|lia].
Qed.

Definition rekey_request (id : bytes) (g : Z) (root eph ct ss sg : bytes) : CallRekey.t :=
  CallRekey.mk id g (x25519_public eph) ct sg (rekey_mac_of (root ++ ss) VOIP_KEY_CONFIRM_CALLER_INFO id g).

Definition rekey_pending (id : bytes) (g : Z) (root eph ct ss sg : bytes) : CallInitOutput :=
  CallInitOutput.mk id (x25519_public eph) ct [] sg (rekey_mac_of (root ++ ss) VOIP_KEY_CONFIRM_CALLER_INFO id g)
    (SecureMemoryHandle.mk eph) (SecureMemoryHandle.mk ss) [].

(** [root] as the root secret of an active session. *)
Definition rooted (root : bytes) (s : VoipSessionInner) : Prop :=
  VoipSessionInner.state s = Active /\ VoipSessionInner.root_secret s = SecureMemoryHandle.mk root /\
  len root = ROOT_KEY_BYTES /\ 0 <= VoipSessionInner.ratchet_generation s < MAX_RATCHET_GENERATION.

Lemma initiate_rekey_ok root s pa pb ea ct ss sg :
  rooted root s -> VoipSessionInner.pending_rekey s = None -> len (ce_eph ea) = X25519_PRIVATE_KEY_BYTES ->
  kyber_encapsulate (cp_kyber_public pb) (ce_kyber ea) = Ok (ct, SecureMemoryHandle.mk ss) ->
  len ss = KYBER_SHARED_SECRET_BYTES ->
  sign_rekey_material (cp_ed25519 pa) (VoipSessionInner.call_id s) (VoipSessionInner.ratchet_generation s + 1)
    (x25519_public (ce_eph ea)) ct = Ok sg ->
  let id := VoipSessionInner.call_id s in
  let g := VoipSessionInner.ratchet_generation s + 1 in
  initiate_rekey (cp_ed25519 pa) (cp_kyber_public pb) ea s =
  (Ok (encode (rekey_request id g root (ce_eph ea) ct ss sg)),
   VoipSessionInner.set_pending_rekey (Some (rekey_pending id g root (ce_eph ea) ct ss sg)) s).
Proof.
  intros (Ha & Hr & Hl & Hg) Hp He Hk Hs Hsg id g.
  unfold initiate_rekey, require_active, sbind, sget, sguard, slift, smod, sret. rewrite Ha, Hp. cbn [is_active ensure].
  unfold rekey_initiate, crypto_err. destruct (Z.leb_spec MAX_RATCHET_GENERATION (VoipSessionInner.ratchet_generation s)); [lia|].
  run_res. rewrite SecureMemoryHandle.alloc_write_exact by (exact He || easy). run_res. rewrite Hk. run_res.
  rewrite Hsg. run_res. rewrite kyber_shared_read by exact Hs. run_res.
  rewrite Hr, SecureMemoryHandle.read_bytes_exact by exact Hl. run_res.
  unfold compute_rekey_mac_bound. rewrite compute_rekey_mac_ok. reflexivity.
Qed.

Definition rekey_ack (id : bytes) (g : Z) (eph ct sg root' : bytes) : CallRekeyAck.t :=
  CallRekeyAck.mk id g (x25519_public eph) ct sg (rekey_mac_of root' VOIP_KEY_CONFIRM_CALLEE_INFO id g).

Lemma process_rekey_ok root s pa pb ea eb ct1 ss1 sg1 ct2 ss2 sg2 :
  let id := VoipSessionInner.call_id s in
  let g := VoipSessionInner.ratchet_generation s + 1 in
  let req := rekey_request id g root (ce_eph ea) ct1 ss1 sg1 in
  let root' := new_root root (x25519_dh (ce_eph eb) (x25519_public (ce_eph ea))) (ss1 ++ ss2) id in
  rooted root s -> transmits req ->
  verify_rekey_signature (cp_ed25519_public pa) id g (x25519_public (ce_eph ea)) ct1 sg1 = Ok tt ->
  kyber_decapsulate ct1 (cp_kyber_secret pb) = Ok (SecureMemoryHandle.mk ss1) -> len ss1 = KYBER_SHARED_SECRET_BYTES ->
  DhValidator.validate_x25519_public_key (x25519_public (ce_eph ea)) = Ok tt ->
  is_all_zero (x25519_dh (ce_eph eb) (x25519_public (ce_eph ea))) = false ->
  kyber_encapsulate (cp_kyber_public pa) (ce_kyber eb) = Ok (ct2, SecureMemoryHandle.mk ss2) ->
  len ss2 = KYBER_SHARED_SECRET_BYTES ->
  sign_rekey_material (cp_ed25519 pb) id g (x25519_public (ce_eph eb)) ct2 = Ok sg2 ->
  process_rekey (encode req) (cp_ed25519_public pa) (cp_kyber_secret pb) (cp_kyber_public pa) (cp_ed25519 pb) eb s =
  (Ok (encode (rekey_ack id g (ce_eph eb) ct2 sg2 root')),
   finish_rekey g (install_keys (key_material_of root' id (VoipSessionInner.shield_mode s) false) s)).
Proof.
  intros id g req root' (Ha & Hr & Hl & Hg) (Hlen & Hdec) Hv Hd Hs1 Hva Hz He Hs2 Hsg.
  unfold process_rekey, sbind, sgets, smod, sret. unfold answer_rekey, crypto_err. rewrite Ha. cbn [is_active].
  destruct (Z.leb_spec (len (encode req)) MAX_VOIP_SIGNAL_MESSAGE_SIZE); [|lia]. run_res. rewrite Hdec. run_res.
  cbn [CallRekey.call_id CallRekey.rekey_generation CallRekey.ephemeral_x25519_public CallRekey.kyber_ciphertext
    CallRekey.signature CallRekey.key_confirmation_mac req rekey_request].
  rewrite bytes_eqb_refl. run_res. rewrite expected_generation_ok by exact Hg. run_res. fold id g.
  rewrite Hv. run_res. rewrite Hd. run_res. rewrite kyber_shared_read by exact Hs1. run_res.
  rewrite Hr, SecureMemoryHandle.read_bytes_exact by exact Hl. run_res.
  unfold compute_rekey_mac_bound. rewrite compute_rekey_mac_ok. run_res. rewrite confirm_accepted. run_res.
  rewrite rekey_dh_ok by assumption. run_res. rewrite He. run_res. rewrite kyber_shared_read by exact Hs2. run_res.
  rewrite rekey_complete_ok by exact Hl. run_res. fold root'. rewrite Hsg. run_res.
  cbn [key_material_of CallKeyMaterial.root_secret].
  rewrite SecureMemoryHandle.read_bytes_exact by (apply kdf_len; easy). run_res. rewrite compute_rekey_mac_ok. reflexivity.
Qed.

Lemma process_rekey_ack_ok root s pa pb ea eb ct1 ss1 sg1 ct2 ss2 sg2 :
  let id := VoipSessionInner.call_id s in
  let g := VoipSessionInner.ratchet_generation s + 1 in
  let root' := new_root root (x25519_dh (ce_eph ea) (x25519_public (ce_eph eb))) (ss1 ++ ss2) id in
  let ack := rekey_ack id g (ce_eph eb) ct2 sg2 root' in
  rooted root s -> transmits ack -> len (ce_eph ea) = X25519_PRIVATE_KEY_BYTES ->
  VoipSessionInner.pending_rekey s = Some (rekey_pending id g root (ce_eph ea) ct1 ss1 sg1) ->
  verify_rekey_signature (cp_ed25519_public pb) id g (x25519_public (ce_eph eb)) ct2 sg2 = Ok tt ->
  DhValidator.validate_x25519_public_key (x25519_public (ce_eph eb)) = Ok tt ->
  is_all_zero (x25519_dh (ce_eph ea) (x25519_public (ce_eph eb))) = false ->
  kyber_decapsulate ct2 (cp_kyber_secret pa) = Ok (SecureMemoryHandle.mk ss2) ->
  len ss1 = KYBER_SHARED_SECRET_BYTES -> len ss2 = KYBER_SHARED_SECRET_BYTES ->
  process_rekey_ack (encode ack) (cp_ed25519_public pb) (cp_kyber_secret pa) s =
  (Ok tt, finish_rekey g (VoipSessionInner.set_pending_rekey None
            (install_keys (key_material_of root' id (VoipSessionInner.shield_mode s) true) s))).
Proof.
  intros id g root' ack (Ha & Hr & Hl & Hg) (Hlen & Hdec) Hep Hp Hv Hvb Hz Hd Hs1 Hs2.
  unfold process_rekey_ack, sbind, sgets, smod. unfold check_rekey_ack, crypto_err. rewrite Ha. cbn [is_active].
  destruct (Z.leb_spec (len (encode ack)) MAX_VOIP_SIGNAL_MESSAGE_SIZE); [|lia]. run_res. rewrite Hdec. run_res.
  cbn [CallRekeyAck.call_id CallRekeyAck.rekey_generation CallRekeyAck.ephemeral_x25519_public
    CallRekeyAck.kyber_ciphertext CallRekeyAck.signature CallRekeyAck.key_confirmation_mac ack rekey_ack].
  rewrite bytes_eqb_refl. run_res. rewrite expected_generation_ok by exact Hg. run_res. fold id g.
  rewrite Hv. run_res. rewrite Hp. run_res.
  cbn [rekey_pending CallInitOutput.ephemeral_x25519_private CallInitOutput.kyber_shared_secret].
  rewrite SecureMemoryHandle.read_bytes_exact by exact Hep. run_res. rewrite rekey_dh_ok by assumption. run_res.
  rewrite Hd. run_res. rewrite !kyber_shared_read by assumption. run_res. rewrite Hr, rekey_complete_ok by exact Hl.
  run_res. fold root'. cbn [key_material_of CallKeyMaterial.root_secret].
  rewrite SecureMemoryHandle.read_bytes_exact by (apply kdf_len; easy). run_res. rewrite compute_rekey_mac_ok. run_res.
  rewrite confirm_accepted. reflexivity.
Qed.

(** ** A complete rekey *)

Lemma rekeyed_fields g p km s : let s' := finish_rekey g (VoipSessionInner.set_pending_rekey p (install_keys km s)) in
  VoipSessionInner.state s' = VoipSessionInner.state s /\ VoipSessionInner.call_id s' = VoipSessionInner.call_id s /\
  VoipSessionInner.root_secret s' = CallKeyMaterial.root_secret km /\ VoipSessionInner.ratchet_generation s' = g /\
  VoipSessionInner.shield_mode s' = VoipSessionInner.shield_mode s /\ VoipSessionInner.pending_rekey s' = p /\
  VoipSessionInner.replay_window s' = VoipSessionInner.replay_window s /\ VoipSessionInner.role s' = VoipSessionInner.role s.
Proof. unfold finish_rekey, notify. cbv zeta. case_if; repeat split. Qed.

Lemma set_pending_install km s :
  VoipSessionInner.set_pending_rekey (VoipSessionInner.pending_rekey s) (install_keys km s) = install_keys km s.
Proof. now destruct s. Qed.

(** The two ends of a completed rekey agree on its result. *)
Lemma rekeyed_connected root root' a b g pa pb seen_a seen_b :
  agreed root a b -> len root' = ROOT_KEY_BYTES ->
  let id := VoipSessionInner.call_id b in
  let sh := VoipSessionInner.shield_mode b in
  let a' := finish_rekey g (VoipSessionInner.set_pending_rekey pa (install_keys (key_material_of root' id sh true) a)) in
  let b' := finish_rekey g (VoipSessionInner.set_pending_rekey pb (install_keys (key_material_of root' id sh false) b)) in
  ReplayWindow.refines (VoipSessionInner.replay_window a) seen_a ->
  ReplayWindow.refines (VoipSessionInner.replay_window b) seen_b ->
  agreed root' a' b' /\ duplex seen_a seen_b a' b'.
Proof.
  intros [Ha Hb Hi Hil _ _ _ _ Hs] Hl id sh a' b' Wa Wb.
  destruct (rekeyed_fields g pa (key_material_of root' id sh true) a) as (A1 & A2 & A3 & A4 & A5 & _ & A7 & _).
  destruct (rekeyed_fields g pb (key_material_of root' id sh false) b) as (B1 & B2 & B3 & B4 & B5 & _ & B7 & _).
  fold a' in A1, A2, A3, A4, A5, A7. fold b' in B1, B2, B3, B4, B5, B7.
  assert (Hag : agreed root' a' b').
  { constructor; try congruence; try (rewrite A3 || rewrite B3; reflexivity). }
  split; [exact Hag|]. apply (keyed_duplex root' true); try exact Hag; try congruence.
  - apply install_keyed. unfold id, sh. now rewrite Hi, Hs.
  - now apply install_keyed.
Qed.

Lemma agreed_rooted_a root a b : agreed root a b -> 0 <= VoipSessionInner.ratchet_generation b < MAX_RATCHET_GENERATION -> rooted root a.
Proof. intros [? ? ? ? ? ? ? He ?] Hg. unfold rooted. rewrite He. auto. Qed.

Lemma agreed_rooted_b root a b : agreed root a b -> 0 <= VoipSessionInner.ratchet_generation b < MAX_RATCHET_GENERATION -> rooted root b.
Proof. intros [? ? ? ? ? ? ? He ?] Hg. unfold rooted. auto. Qed.


(** ** Crossing rekeys *)

Lemma process_rekey_effect msg pe k pk sk ent s ack s' :
  process_rekey msg pe k pk sk ent s = (Ok ack, s') ->
  VoipSessionInner.pending_rekey s' = VoipSessionInner.pending_rekey s /\
  VoipSessionInner.state s' = Active /\
  VoipSessionInner.ratchet_generation s' = VoipSessionInner.ratchet_generation s + 1.
Proof.
  unfold process_rekey. intros H. inv_stm. unfold answer_rekey in *. inv_ok.
  match goal with H : (let '(_, _) := ?x in _) = Ok _ |- _ => destruct x end. inv_ok. bools.
  match goal with H : expected_generation _ = Ok _ |- _ =>
    unfold expected_generation in H; inv_ok; apply checked_add_inv in H end. subst.
  match goal with H : is_active ?st = true |- _ => destruct st eqn:Hst; try discriminate H end.
  unfold finish_rekey, notify. case_if; cbn; repeat split; first [reflexivity | assumption | lia].
Qed.

(** When an end answers the peer's rekey while its own request is pending,
    its own request can no longer be completed (every acknowledgement of the
    generation it asked for is refused), it stays pending, and no further rekey
    can be started: each of these calls fails and leaves the session as it is. *)
Theorem crossed_rekey_stays_pending msg pe k pk sk ent s own ack s'
    (Hp : VoipSessionInner.pending_rekey s = Some own)
    (H : process_rekey msg pe k pk sk ent s = (Ok ack, s')) :
  VoipSessionInner.pending_rekey s' = Some own /\
  (forall sk2 pk2 ent2,
    initiate_rekey sk2 pk2 ent2 s' = (Err (ProtocolError.voip_rekey "rekey already pending"), s')) /\
  (forall bytes m pe2 k2, decode bytes = Some m ->
    CallRekeyAck.rekey_generation m = VoipSessionInner.ratchet_generation s + 1 ->
    exists e, process_rekey_ack bytes pe2 k2 s' = (Err e, s')).
Proof.
  destruct (process_rekey_effect _ _ _ _ _ _ _ _ _ H) as (Hp' & Ha & Hg). rewrite Hp in Hp'.
  split; [exact Hp'|]. split.
  - intros. unfold initiate_rekey, require_active, sbind, sget, sguard, slift. rewrite Ha, Hp'. reflexivity.
  - intros bs m pe2 k2 Hm Hgen. unfold process_rekey_ack, sbind, sgets.
    destruct (check_rekey_ack bs pe2 k2 s') as [[g km]|e] eqn:Hc; [|eauto]. exfalso.
    unfold check_rekey_ack in Hc. rewrite Hm in Hc. inv_ok. bools.
    match goal with H : expected_generation _ = Ok _ |- _ =>
      unfold expected_generation in H; inv_ok; apply checked_add_inv in H end. lia.
Qed.

End Rekey.
