(* ===== verification/VoipSeal.v ===== *)
(** * The sealed state of a call

    Export and import of a call session.  The restored session is the exported
    one with header keys and nonce prefixes derived anew from the root for the
    role of the session: this is the exported session when its keys were derived
    for that role, and the mirror image of it when they were derived for the
    other one, as they are after a rekey that the callee started. *)

From Stdlib Require Import ZArith List Bool Lia String.
From S2P Require Import Prelude Constants SecureMemory Crypto Toy Signatures DhValidator ReplayWindow.
From S2P Require Import KeyRatchet Proto VoipFrame CallKeys VoipSession VoipMedia VoipRekey.
Import ListNotations.
Open Scope string_scope.
Open Scope list_scope.
Open Scope Z_scope.

Section Seal.
Context `{P : Primitives} {L : PrimitiveLaws P} {CState : Prost VoipSessionState.t}.

(** A live session whose root is [root] and whose recorded values pass the
    checks of the import at the given clock readings. *)
Record sealable (root : bytes) (cl cr : option Z) (s : VoipSessionInner) : Prop := {
  sl_active : VoipSessionInner.state s = Active;
  sl_call_id : len (VoipSessionInner.call_id s) = CALL_ID_BYTES;
  sl_root : VoipSessionInner.root_secret s = SecureMemoryHandle.mk root;
  sl_root_len : len root = ROOT_KEY_BYTES;
  sl_send : ratchet_wf (VoipSessionInner.send_ratchet s);
  sl_recv : ratchet_wf (VoipSessionInner.recv_ratchet s);
  sl_window : ReplayWindow.words_ok (ReplayWindow.bitmap (VoipSessionInner.replay_window s));
  sl_interval : VoipSessionInner.ratchet_interval_frames s <> 0;
  sl_rekey : VoipSessionInner.pq_rekey_interval_secs s <> 0;
  sl_created : VoipSessionInner.created_at_unix s <> 0;
  sl_meta : check_screen_share (VoipSessionInner.screen_share_meta s) = Ok tt;
  sl_local : validate_recording_consent_value (VoipSessionInner.local_recording_consent s) = Ok tt;
  sl_remote : validate_recording_consent_value (VoipSessionInner.remote_recording_consent s) = Ok tt;
  sl_local_time : check_consent_time (VoipSessionInner.local_recording_consent_timestamp_unix s) cl = Ok tt;
  sl_remote_time : check_consent_time (VoipSessionInner.remote_recording_consent_timestamp_unix s) cr = Ok tt }.

(** The message the export builds. *)
Definition state_image (root : bytes) (ctr : Z) (s : VoipSessionInner) : VoipSessionState.t :=
  VoipSessionState.mk VOIP_PROTOCOL_VERSION (VoipSessionInner.call_id s) (role_code (VoipSessionInner.role s))
    (VoipSessionInner.ssrc s) (VoipSessionInner.send_frame_counter s)
    (ReplayWindow.high_water (VoipSessionInner.replay_window s)) (VoipSessionInner.ratchet_generation s)
    (VoipSessionInner.ratchet_interval_frames s) (VoipSessionInner.pq_rekey_interval_secs s)
    (VoipSessionInner.shield_mode s) (VoipSessionInner.frames_since_ratchet s) root ctr
    (SecureMemoryHandle.data (chain_key (VoipSessionInner.send_ratchet s)))
    (SecureMemoryHandle.data (chain_key (VoipSessionInner.recv_ratchet s)))
    (generation (VoipSessionInner.send_ratchet s)) (generation (VoipSessionInner.recv_ratchet s))
    (List.concat (map (to_le_bytes 8) (ReplayWindow.bitmap (VoipSessionInner.replay_window s))))
    (VoipSessionInner.screen_share_meta s) (Some (VoipSessionInner.local_recording_consent s))
    (Some (VoipSessionInner.remote_recording_consent s)) (VoipSessionInner.ratchet_generation s)
    (VoipSessionInner.created_at_unix s) (VoipSessionInner.frames_sent s) (VoipSessionInner.frames_received s)
    (VoipSessionInner.frames_dropped s) (VoipSessionInner.last_metrics_timestamp s)
    (VoipSessionInner.remote_recording_consent_timestamp_unix s)
    (VoipSessionInner.local_recording_consent_timestamp_unix s).

(** [s] with the header keys and prefixes of [root] for direction [dir], without
    its handler and its pending rekey. *)
Definition reopened (root : bytes) (dir : bool) (s : VoipSessionInner) : VoipSessionInner :=
  let id := VoipSessionInner.call_id s in
  let sh := VoipSessionInner.shield_mode s in
  let rekeyed r d := mkRatchet (chain_key r) (generation r) (prefix_of root id sh d) in
  VoipSessionInner.mk id (VoipSessionInner.role s) Active (VoipSessionInner.ssrc s)
    (rekeyed (VoipSessionInner.send_ratchet s) dir) (rekeyed (VoipSessionInner.recv_ratchet s) (negb dir))
    (header_key_of root id sh dir) (header_key_of root id sh (negb dir)) (VoipSessionInner.root_secret s)
    (VoipSessionInner.send_frame_counter s) (VoipSessionInner.replay_window s) (VoipSessionInner.ratchet_generation s)
    (VoipSessionInner.ratchet_interval_frames s) (VoipSessionInner.pq_rekey_interval_secs s) sh
    (VoipSessionInner.frames_since_ratchet s) false None (VoipSessionInner.screen_share_meta s)
    (VoipSessionInner.frames_sent s) (VoipSessionInner.frames_received s) (VoipSessionInner.frames_dropped s)
    (VoipSessionInner.last_metrics_timestamp s) (VoipSessionInner.local_recording_consent s)
    (VoipSessionInner.local_recording_consent_timestamp_unix s) (VoipSessionInner.remote_recording_consent s)
    (VoipSessionInner.remote_recording_consent_timestamp_unix s) (VoipSessionInner.created_at_unix s) [].

Lemma exported_state_ok root cl cr s ctr :
  sealable root cl cr s -> exported_state ctr s = Ok (state_image root ctr s).
Proof.
  intros [_ _ Hr Hl Hs Hv _ _ _ _ _ _ _ _ _]. unfold exported_state, snapshot, crypto_err.
  rewrite !read_chain_ok by assumption. run_res. rewrite Hr, SecureMemoryHandle.read_bytes_exact by exact Hl.
  reflexivity.
Qed.

Lemma restore_chain c g px : len c = VOIP_MEDIA_KEY_BYTES ->
  ratchet_from_state c g px = Ok (mkRatchet (SecureMemoryHandle.mk c) g px).
Proof.
  intros H. unfold ratchet_from_state, crypto_err. rewrite H, alloc_chain_ok by exact H. reflexivity.
Qed.

Lemma restore_send_ok root ctr s km : ratchet_wf (VoipSessionInner.send_ratchet s) ->
  restore_send_ratchet (state_image root ctr s) km =
  Ok (mkRatchet (chain_key (VoipSessionInner.send_ratchet s)) (generation (VoipSessionInner.send_ratchet s))
        (CallKeyMaterial.nonce_prefix_send km)).
Proof.
  intros [H _]. unfold restore_send_ratchet. cbn [state_image VoipSessionState.send_ratchet_chain_key
    VoipSessionState.send_ratchet_generation].
  destruct (chain_key (VoipSessionInner.send_ratchet s)) as [[|x c]]; [discriminate|].
  cbn [SecureMemoryHandle.data] in *. now rewrite restore_chain.
Qed.

Lemma restore_recv_ok root ctr s km : ratchet_wf (VoipSessionInner.recv_ratchet s) ->
  restore_recv_ratchet (state_image root ctr s) km =
  Ok (mkRatchet (chain_key (VoipSessionInner.recv_ratchet s)) (generation (VoipSessionInner.recv_ratchet s))
        (CallKeyMaterial.nonce_prefix_recv km)).
Proof.
  intros [H _]. unfold restore_recv_ratchet. cbn [state_image VoipSessionState.recv_ratchet_chain_key
    VoipSessionState.recv_ratchet_generation].
  destruct (chain_key (VoipSessionInner.recv_ratchet s)) as [[|x c]]; [discriminate|].
  cbn [SecureMemoryHandle.data] in *. now rewrite restore_chain.
Qed.

Lemma chunks8_app n a b : List.length a = 8%nat -> chunks8 (S n) (a ++ b) = a :: chunks8 n b.
Proof.
  intros H. cbn [chunks8]. now rewrite <- H, firstn_app, skipn_app, firstn_all, skipn_all, Nat.sub_diag, app_nil_r.
Qed.

Lemma restore_bitmap_ok words :
  ReplayWindow.words_ok words ->
  map from_le_bytes (chunks8 (Z.to_nat BITMAP_WORDS) (List.concat (map (to_le_bytes 8) words))) = words /\
  len (List.concat (map (to_le_bytes 8) words)) = BITMAP_WORDS * 8.
Proof.
  intros (w0 & w1 & -> & H0 & H1). unfold in_range in *. cbn [map List.concat].
  split; [|autorewrite with lens; reflexivity].
  change (Z.to_nat BITMAP_WORDS) with 2%nat. rewrite !chunks8_app by apply to_le_bytes_length.
  cbn [map chunks8]. now rewrite !(from_to_le_bytes 8) by (simpl; lia).
Qed.

Lemma restore_replay_ok root ctr s :
  ReplayWindow.words_ok (ReplayWindow.bitmap (VoipSessionInner.replay_window s)) ->
  restore_replay_window (state_image root ctr s) = Ok (VoipSessionInner.replay_window s).
Proof.
  intros Hw. destruct (restore_bitmap_ok _ Hw) as [Hm Hl]. unfold restore_replay_window, state_image.
  cbn [VoipSessionState.replay_bitmap VoipSessionState.replay_high_water].
  destruct (List.concat _) as [|x bs]; [discriminate|]. rewrite Hl, Hm. run_res.
  now destruct (VoipSessionInner.replay_window s).
Qed.

Lemma restored_role_ok r : restored_role (role_code r) = Ok r.
Proof. now destruct r. Qed.

Lemma nonzero_or_ok x d : x <> 0 -> nonzero_or x d = x.
Proof. unfold nonzero_or. intros H. now destruct (Z.eqb_spec x 0). Qed.

Lemma from_voip_state_ok root cl cr cc s ctr :
  sealable root cl cr s ->
  from_voip_state (state_image root ctr s) ctr cl cr cc = Ok (reopened root (is_caller_role (VoipSessionInner.role s)) s).
Proof.
  intros [Ha Hi Hr Hl Hs Hv Hw Hint Hrk Hcr Hm Hlc Hrc Hlt Hrt].
  unfold from_voip_state, crypto_err, derive_call_keys_from_root. rewrite restore_replay_ok by exact Hw.
  set (rs := restore_send_ratchet (state_image root ctr s)). set (rr := restore_recv_ratchet (state_image root ctr s)).
  cbn [state_image VoipSessionState.state_version VoipSessionState.call_id VoipSessionState.role VoipSessionState.root_secret
    VoipSessionState.external_counter VoipSessionState.shield_mode VoipSessionState.ratchet_interval_frames
    VoipSessionState.pq_rekey_interval_secs VoipSessionState.screen_share_meta VoipSessionState.ssrc
    VoipSessionState.local_recording_consent VoipSessionState.remote_recording_consent
    VoipSessionState.local_recording_consent_timestamp_unix VoipSessionState.remote_recording_consent_timestamp_unix
    VoipSessionState.created_at_unix VoipSessionState.send_frame_counter VoipSessionState.ratchet_generation
    VoipSessionState.frames_since_ratchet VoipSessionState.frames_sent VoipSessionState.frames_received
    VoipSessionState.frames_dropped VoipSessionState.last_metrics_timestamp check_consent].
  run_res. rewrite Hi, restored_role_ok. run_res. rewrite Hl. run_res.
  rewrite SecureMemoryHandle.alloc_write_exact by (exact Hl || easy). run_res.
  rewrite derive_call_keys_ok by exact Hl. run_res. unfold rs. rewrite restore_send_ok by exact Hs. run_res.
  unfold rr. rewrite restore_recv_ok by exact Hv. run_res.
  rewrite Hm. run_res. rewrite Hlc. run_res. rewrite Hrc. run_res. rewrite Hlt. run_res. rewrite Hrt. run_res.
  destruct (Z.eqb_spec (VoipSessionInner.created_at_unix s) 0); [contradiction|]. run_res.
  unfold reopened. rewrite !nonzero_or_ok, Hr by assumption.
  destruct (VoipSessionInner.role s); reflexivity.
Qed.

(** ** Opening what was sealed *)

Lemma sealed_parts a b c d : List.length a = 8%nat -> List.length b = 12%nat -> List.length c = 32%nat ->
  let data := a ++ b ++ c ++ d in
  firstn 8 data = a /\ FrameHeader.slice data 8 20 = b /\ FrameHeader.slice data 20 52 = c /\ skipn 52 data = d.
Proof.
  intros Ha Hb Hc data. unfold data, FrameHeader.slice.
  assert (H1 : skipn 8 (a ++ b ++ c ++ d) = b ++ c ++ d)
    by (rewrite <- Ha, skipn_app, skipn_all, Nat.sub_diag; reflexivity).
  assert (H2 : skipn 12 (b ++ c ++ d) = c ++ d) by (rewrite <- Hb, skipn_app, skipn_all, Nat.sub_diag; reflexivity).
  assert (H3 : skipn 32 (c ++ d) = d) by (rewrite <- Hc, skipn_app, skipn_all, Nat.sub_diag; reflexivity).
  assert (H4 : skipn 20 (a ++ b ++ c ++ d) = c ++ d) by (change 20%nat with (12 + 8)%nat; now rewrite <- skipn_skipn, H1).
  assert (H5 : skipn 52 (a ++ b ++ c ++ d) = d) by (change 52%nat with (32 + 20)%nat; now rewrite <- skipn_skipn, H4).
  rewrite H1, H4, H5. repeat split.
  - rewrite <- Ha, firstn_app, firstn_all, Nat.sub_diag. apply app_nil_r.
  - change (20 - 8)%nat with 12%nat. rewrite <- Hb, firstn_app, firstn_all, Nat.sub_diag. apply app_nil_r.
  - change (52 - 20)%nat with 32%nat. rewrite <- Hc, firstn_app, firstn_all, Nat.sub_diag. apply app_nil_r.
Qed.

Lemma len_length {A} (l : list A) n : len l = Z.of_nat n -> List.length l = n.
Proof. unfold len. lia. Qed.

Lemma export_sealed_inv root cl cr key ctr nonce s data :
  sealable root cl cr s -> export_sealed_state key ctr nonce s = Ok data ->
  exists ct hk, aes_encrypt key nonce (encode (state_image root ctr s)) [] = Ok ct /\
    state_hmac_key key ctr = Ok hk /\
    data = to_le_bytes 8 ctr ++ nonce ++ hmac_sha256 hk (ct ++ nonce) ++ ct.
Proof.
  intros Hs H. unfold export_sealed_state in H. rewrite (exported_state_ok _ _ _ _ _ Hs) in H. inv_ok. eauto.
Qed.

Lemma sealed_call_opens root cl cr cc key ctr min nonce s data :
  sealable root cl cr s -> 0 < ctr < 2 ^ 64 -> min <= ctr ->
  decode (encode (state_image root ctr s)) = Some (state_image root ctr s) ->
  export_sealed_state key ctr nonce s = Ok data ->
  len data <= MAX_VOIP_SIGNAL_MESSAGE_SIZE + MAX_VOIP_ENCRYPTED_PAYLOAD_SIZE ->
  from_sealed_state_with_time_provider data key min cl cr cc =
  Ok (reopened root (is_caller_role (VoipSessionInner.role s)) s).
Proof.
  intros Hs Hctr Hmin Hcodec Hx Hmax.
  destruct (export_sealed_inv _ _ _ _ _ _ _ _ Hs Hx) as (ct & hk & He & Hk & Hd).
  destruct (aes_encrypt_inv _ _ _ _ _ He) as (_ & Hn & Hsiv).
  pose proof (siv_encrypt_len _ _ _ _ _ Hsiv) as Hct. pose proof (len_nonneg (encode (state_image root ctr s))).
  destruct (sealed_parts (to_le_bytes 8 ctr) nonce (hmac_sha256 hk (ct ++ nonce)) ct) as (P1 & P2 & P3 & P4);
    [apply to_le_bytes_length|now apply len_length|apply len_length, hmac_sha256_len|].
  rewrite <- Hd in P1, P2, P3, P4.
  assert (Hlen : len data = 52 + len ct).
  { rewrite Hd. autorewrite with lens. rewrite Hn, hmac_sha256_len. unfold AES_GCM_NONCE_BYTES. lia. }
  unfold from_sealed_state_with_time_provider. unfold AES_GCM_TAG_BYTES in *.
  destruct (Z.leb_spec (8 + AES_GCM_NONCE_BYTES + HMAC_BYTES + 16) (len data));
    [|unfold AES_GCM_NONCE_BYTES, HMAC_BYTES in *; lia].
  destruct (Z.leb_spec (len data) (MAX_VOIP_SIGNAL_MESSAGE_SIZE + MAX_VOIP_ENCRYPTED_PAYLOAD_SIZE)); [|lia].
  run_res. change (8 + Z.to_nat AES_GCM_NONCE_BYTES)%nat with 20%nat.
  change (Z.to_nat (8 + AES_GCM_NONCE_BYTES + HMAC_BYTES)) with 52%nat.
  rewrite P1, P2, P3, P4, (from_to_le_bytes 8) by (simpl; lia).
  destruct (Z.eqb_spec ctr 0); [lia|]. destruct (Z.leb_spec min ctr); [|lia]. run_res.
  rewrite Hk. run_res. rewrite confirm_accepted. run_res. rewrite (aes_roundtrip _ _ _ _ _ He). run_res.
  rewrite Hcodec. run_res. now apply from_voip_state_ok.
Qed.

(** The keys a session runs on are those of [root] for direction [dir]. *)
Definition runs_on (root : bytes) (dir : bool) (s : VoipSessionInner) : Prop :=
  let id := VoipSessionInner.call_id s in
  let sh := VoipSessionInner.shield_mode s in
  VoipSessionInner.header_key_send s = header_key_of root id sh dir /\
  VoipSessionInner.header_key_recv s = header_key_of root id sh (negb dir) /\
  nonce_prefix (VoipSessionInner.send_ratchet s) = prefix_of root id sh dir /\
  nonce_prefix (VoipSessionInner.recv_ratchet s) = prefix_of root id sh (negb dir).


(** C40. The keys of a call after a rekey are derived for the initiator of the
    rekey as if it were the caller, but the restored call derives them for its
    recorded role.  When a callee that started the last rekey is sealed and
    opened, it comes back with its two directions exchanged: it would encrypt
    with the header key and the nonce prefix it used to receive with, and the
    other way round. *)
Theorem restart_after_callee_rekey_swaps_directions root cl cr cc key ctr min nonce s data
    (Hs : sealable root cl cr s) (Hrole : VoipSessionInner.role s = Callee) (Hrun : runs_on root true s)
    (Hctr : 0 < ctr < 2 ^ 64) (Hmin : min <= ctr)
    (Hcodec : decode (encode (state_image root ctr s)) = Some (state_image root ctr s))
    (Hx : export_sealed_state key ctr nonce s = Ok data)
    (Hmax : len data <= MAX_VOIP_SIGNAL_MESSAGE_SIZE + MAX_VOIP_ENCRYPTED_PAYLOAD_SIZE) :
  exists r, from_sealed_state_with_time_provider data key min cl cr cc = Ok r /\
    VoipSessionInner.header_key_send r = VoipSessionInner.header_key_recv s /\
    VoipSessionInner.header_key_recv r = VoipSessionInner.header_key_send s /\
    nonce_prefix (VoipSessionInner.send_ratchet r) = nonce_prefix (VoipSessionInner.recv_ratchet s) /\
    nonce_prefix (VoipSessionInner.recv_ratchet r) = nonce_prefix (VoipSessionInner.send_ratchet s) /\
    chain_key (VoipSessionInner.send_ratchet r) = chain_key (VoipSessionInner.send_ratchet s).
Proof.
  eexists. split; [exact (sealed_call_opens root cl cr cc key ctr min nonce s data Hs Hctr Hmin Hcodec Hx Hmax)|].
  destruct Hrun as (H1 & H2 & H3 & H4). rewrite Hrole. cbn [is_caller_role reopened negb].
  unfold reopened. cbn. rewrite H1, H2, H3, H4. repeat split.
Qed.

End Seal.
