(* ===== verification/VoipExamples.v ===== *)
(** * A concrete call

    Executable stand-ins for the codec of the call messages and a small call
    between a toy caller and a toy callee, on which the theorems about calls are
    applied. *)

From Stdlib Require Import ZArith List Bool Lia String.
From S2P Require Import Prelude Constants SecureMemory Crypto Toy Signatures DhValidator ReplayWindow.
From S2P Require Import KeyRatchet Proto ToyCodec VoipFrame CallKeys VoipSession VoipMedia VoipRun.
From S2P Require Import VoipRekey VoipSeal.
Import ListNotations.
Open Scope list_scope.
Open Scope Z_scope.

#[export] Instance codec_screen : Codec ScreenShareMetadata.t.
Proof.
  refine (codec_iso (A := Z * (Z * (Z * ((option string)))))
    (fun m => (ScreenShareMetadata.width m, (ScreenShareMetadata.height m, (ScreenShareMetadata.frame_rate m,
    ScreenShareMetadata.codec_hint m))))
    (fun '(x1, (x2, (x3, x4))) =>
    ScreenShareMetadata.mk x1 x2 x3 x4) _).
  now intros [].
Defined.

#[export] Instance codec_rekey : Codec CallRekey.t.
Proof.
  refine (codec_iso (A := bytes * (Z * (bytes * (bytes * (bytes * (bytes))))))
    (fun m => (CallRekey.call_id m, (CallRekey.rekey_generation m, (CallRekey.ephemeral_x25519_public m,
    (CallRekey.kyber_ciphertext m, (CallRekey.signature m, CallRekey.key_confirmation_mac m))))))
    (fun '(x1, (x2, (x3, (x4, (x5, x6))))) =>
    CallRekey.mk x1 x2 x3 x4 x5 x6) _).
  now intros [].
Defined.

#[export] Instance codec_rekey_ack : Codec CallRekeyAck.t.
Proof.
  refine (codec_iso (A := bytes * (Z * (bytes * (bytes * (bytes * (bytes))))))
    (fun m => (CallRekeyAck.call_id m, (CallRekeyAck.rekey_generation m, (CallRekeyAck.ephemeral_x25519_public m,
    (CallRekeyAck.kyber_ciphertext m, (CallRekeyAck.signature m, CallRekeyAck.key_confirmation_mac
    m))))))
    (fun '(x1, (x2, (x3, (x4, (x5, x6))))) =>
    CallRekeyAck.mk x1 x2 x3 x4 x5 x6) _).
  now intros [].
Defined.

#[export] Instance codec_voip_state : Codec VoipSessionState.t.
Proof.
  refine (codec_iso (A := Z * (bytes * (Z * (Z * (Z * (Z * (Z * (Z * (Z * (bool * (Z * (bytes * (Z * (bytes * (bytes * (Z * (Z
    * (bytes * ((option ScreenShareMetadata.t) * ((option Z) * ((option Z) * (Z * (Z * (Z * (Z * (Z * (Z
    * (Z * (Z)))))))))))))))))))))))))))))
    (fun m => (VoipSessionState.state_version m, (VoipSessionState.call_id m, (VoipSessionState.role m,
    (VoipSessionState.ssrc m, (VoipSessionState.send_frame_counter m,
    (VoipSessionState.replay_high_water m, (VoipSessionState.ratchet_generation m,
    (VoipSessionState.ratchet_interval_frames m, (VoipSessionState.pq_rekey_interval_secs m,
    (VoipSessionState.shield_mode m, (VoipSessionState.frames_since_ratchet m,
    (VoipSessionState.root_secret m, (VoipSessionState.external_counter m,
    (VoipSessionState.send_ratchet_chain_key m, (VoipSessionState.recv_ratchet_chain_key m,
    (VoipSessionState.send_ratchet_generation m, (VoipSessionState.recv_ratchet_generation m,
    (VoipSessionState.replay_bitmap m, (VoipSessionState.screen_share_meta m,
    (VoipSessionState.local_recording_consent m, (VoipSessionState.remote_recording_consent m,
    (VoipSessionState.total_rekey_count m, (VoipSessionState.created_at_unix m,
    (VoipSessionState.frames_sent m, (VoipSessionState.frames_received m,
    (VoipSessionState.frames_dropped m, (VoipSessionState.last_metrics_timestamp m,
    (VoipSessionState.remote_recording_consent_timestamp_unix m,
    VoipSessionState.local_recording_consent_timestamp_unix m)))))))))))))))))))))))))))))
    (fun '(x1, (x2, (x3, (x4, (x5, (x6, (x7, (x8, (x9, (x10, (x11, (x12, (x13, (x14, (x15, (x16, (x17, (x18,
    (x19, (x20, (x21, (x22, (x23, (x24, (x25, (x26, (x27, (x28, x29)))))))))))))))))))))))))))) =>
    VoipSessionState.mk x1 x2 x3 x4 x5 x6 x7 x8 x9 x10 x11 x12 x13 x14 x15 x16 x17 x18 x19 x20 x21 x22
    x23 x24 x25 x26 x27 x28 x29) _).
  now intros [].
Defined.

#[export] Instance codec_call_end : Codec CallEnd.t.
Proof.
  refine (codec_iso (A := bytes * (bytes * (Z * (bytes))))
    (fun m => (CallEnd.call_id m, (CallEnd.device_id m, (CallEnd.timestamp m, CallEnd.hmac m))))
    (fun '(x1, (x2, (x3, x4))) =>
    CallEnd.mk x1 x2 x3 x4) _).
  now intros [].
Defined.

#[export] Instance codec_consent : Codec RecordingConsentMessage.t.
Proof.
  refine (codec_iso (A := bytes * (Z * (Z * (bytes))))
    (fun m => (RecordingConsentMessage.call_id m, (RecordingConsentMessage.consent m,
    (RecordingConsentMessage.timestamp_unix m, RecordingConsentMessage.signature m))))
    (fun '(x1, (x2, (x3, x4))) =>
    RecordingConsentMessage.mk x1 x2 x3 x4) _).
  now intros [].
Defined.

#[export] Instance toy_rekey_prost : Prost CallRekey.t := prost_of.
#[export] Instance toy_rekey_ack_prost : Prost CallRekeyAck.t := prost_of.
#[export] Instance toy_voip_state_prost : Prost VoipSessionState.t := prost_of.
#[export] Instance toy_call_end_prost : Prost CallEnd.t := prost_of.
#[export] Instance toy_consent_prost : Prost RecordingConsentMessage.t := prost_of.

Lemma toy_transmits {M} `{C : Codec M} (m : M) :
  len (enc m) <= MAX_VOIP_SIGNAL_MESSAGE_SIZE -> transmits (H := prost_of) m.
Proof. intros H. split; [exact H|]. cbn. now rewrite <- (app_nil_r (enc m)), dec_enc. Qed.

(** ** The call *)

Definition toy_root : bytes := resize 32 77 [].
Definition toy_call_id : bytes := resize 32 5 [].

Definition no_call : VoipSessionInner :=
  VoipSessionInner.mk [] Caller Ended 0 (ratchet_new (SecureMemoryHandle.mk []) []) (ratchet_new (SecureMemoryHandle.mk []) [])
    (SecureMemoryHandle.mk []) (SecureMemoryHandle.mk []) (SecureMemoryHandle.mk []) 0 ReplayWindow.new 0 1 1 false 0
    false None None 0 0 0 0 0 0 0 0 1 [].

(** A call with a ratchet step every second frame. *)
Definition toy_session (role : CallRole) (dir : bool) (ssrc : Z) : VoipSessionInner :=
  unwrap_or (from_key_material_with_time_provider_and_screen_share toy_call_id role
               (key_material_of toy_root toy_call_id true dir) 2 60 true (Some 1000) None [0; 0; 0; ssrc]) no_call.
Definition alice_call : VoipSessionInner := toy_session Caller true 9.
Definition bob_call : VoipSessionInner := toy_session Callee false 8.

Lemma alice_call_ok :
  from_key_material_with_time_provider_and_screen_share toy_call_id Caller
    (key_material_of toy_root toy_call_id true true) 2 60 true (Some 1000) None [0; 0; 0; 9] = Ok alice_call.
Proof. vm_compute. reflexivity. Qed.

Lemma bob_call_ok :
  from_key_material_with_time_provider_and_screen_share toy_call_id Callee
    (key_material_of toy_root toy_call_id true false) 2 60 true (Some 1000) None [0; 0; 0; 8] = Ok bob_call.
Proof. vm_compute. reflexivity. Qed.

Lemma toy_connected :
  agreed toy_root alice_call bob_call /\ duplex [] [] alice_call bob_call /\
  keyed toy_root true alice_call /\ keyed toy_root false bob_call.
Proof.
  exact (started_connected toy_root toy_call_id true _ _ _ _ _ _ _ _ _ _ _ _ eq_refl alice_call_ok bob_call_ok).
Qed.

Definition toy_item (n : Z) : FrameHeader.t * bytes := (FrameHeader.mk 111 9 (n * 160) n, [n; n + 1; 1]).
Definition toy_items : list (FrameHeader.t * bytes) := [toy_item 1; toy_item 2; toy_item 3; toy_item 4; toy_item 5].

Lemma toy_item_ok n : 0 <= n < 255 -> frame_ok alice_call (toy_item n).
Proof.
  intros H. unfold frame_ok, toy_item, FrameHeader.wf, in_range. cbn [FrameHeader.payload_type FrameHeader.ssrc
    FrameHeader.timestamp FrameHeader.sequence_number].
  change (VoipSessionInner.ssrc alice_call) with 9.
  repeat split; try lia; try discriminate. repeat constructor; unfold in_range; lia.
Qed.

Definition toy_frames : list EncryptedFrame := unwrap_or (fst (send_frames toy_items alice_call)) [].

(** The second frame arrives before the first, the third is lost. *)
Definition toy_schedule : list nat := [1; 0; 3; 4]%nat.


Lemma call_frames_delivered_witness :
  exists out r', receive_frames (map (fun i => nth i toy_frames no_frame) toy_schedule) bob_call = (Ok out, r') /\
    map contents out = [toy_item 2; toy_item 1; toy_item 4; toy_item 5].
Proof.
  destruct toy_connected as (_ & (ml & ml' & Hw & _ & Hs & Hr & _) & _).
  assert (Hitems : Forall (frame_ok alice_call) toy_items)
    by (repeat (constructor; [apply toy_item_ok; split; discriminate || reflexivity|]); constructor).
  destruct (call_frames_delivered ml [] alice_call bob_call toy_items Hw Hs Hr Hitems) as (frames & s' & Hf & Hd).
  - vm_compute. discriminate.
  - vm_compute. discriminate.
  - vm_compute. discriminate.
  - assert (Hfr : frames = toy_frames) by (unfold toy_frames; rewrite Hf; reflexivity). subst frames.
    apply (Hd toy_schedule).
    + unfold toy_schedule. repeat constructor.
    + vm_compute. reflexivity.
Defined.

(** ** Histories *)

Definition toy_frame1 : EncryptedFrame := nth 0 toy_frames no_frame.

(** Bob receives a frame twice, talks, and receives it again after a mute. *)
Definition bob_ops : list VOp :=
  [v_decrypt toy_frame1; v_decrypt toy_frame1; v_control Mute; v_decrypt (nth 2 toy_frames no_frame);
   v_control (Dtmf 35); v_decrypt toy_frame1].

Lemma call_counters_once_witness :
  sent_counters (fst (vrun bob_ops bob_call)) = [0; 1] /\ accepted_counters (fst (vrun bob_ops bob_call)) = [0; 2] /\
  NoDup (accepted_counters (fst (vrun bob_ops bob_call))).
Proof.
  destruct (call_counters_once _ _ _ _ _ _ _ _ _ bob_call bob_ops (fst (vrun bob_ops bob_call))
    (snd (vrun bob_ops bob_call)) bob_call_ok) as [Hs Hn].
  - repeat (constructor; [exact I || (vm_compute; discriminate)|]). constructor.
  - exact (surjective_pairing (vrun bob_ops bob_call)).
  - split; [rewrite Hs; vm_compute; reflexivity|]. split; [vm_compute; reflexivity|exact Hn].
Defined.


(** The first frame with a changed payload byte. *)
Definition tampered_frame : EncryptedFrame :=
  EncryptedFrame.mk (EncryptedFrame.call_id toy_frame1) (EncryptedFrame.ssrc toy_frame1) 0 0
    (255 :: tl (EncryptedFrame.encrypted_payload toy_frame1)) (EncryptedFrame.nonce toy_frame1)
    (EncryptedFrame.encrypted_header toy_frame1).

Lemma refused_frame_effect_witness :
  exists dropped calls, snd (decrypt_frame tampered_frame (set_event_handler bob_call)) =
    VoipSessionInner.set_handler_calls calls (VoipSessionInner.set_frames_dropped dropped (set_event_handler bob_call)).
Proof.
  destruct (decrypt_frame tampered_frame (set_event_handler bob_call)) as [[d|e] s'] eqn:E.
  - exfalso. apply (f_equal (fun p => is_ok (fst p))) in E. vm_compute in E. discriminate E.
  - exact (refused_frame_effect tampered_frame (set_event_handler bob_call) e s' E).
Defined.

(** ** Rekeys *)

Lemma toy_windows : ReplayWindow.refines (VoipSessionInner.replay_window alice_call) [] /\
  ReplayWindow.refines (VoipSessionInner.replay_window bob_call) [].
Proof. split; exact ReplayWindow.new_refines. Qed.

Lemma is_small {A : Type} (r : PResult bytes * A) b s n : r = (Ok b, s) -> len (unwrap_or (fst r) []) <= n -> len b <= n.
Proof. now intros ->. Qed.

(** Both ends ask for a rekey at the same time. *)
Definition alice_asked : PResult bytes * VoipSessionInner :=
  initiate_rekey (cp_ed25519 toy_caller) (cp_kyber_public toy_callee) (toy_call_entropy 20) alice_call.
Definition bob_asked : PResult bytes * VoipSessionInner :=
  initiate_rekey (cp_ed25519 toy_callee) (cp_kyber_public toy_caller) (toy_call_entropy 30) bob_call.
Definition request (r : PResult bytes * VoipSessionInner) : bytes := unwrap_or (fst r) [].


Definition alice_crossed : PResult bytes * VoipSessionInner :=
  process_rekey (request bob_asked) (cp_ed25519_public toy_callee) (cp_kyber_secret toy_caller)
    (cp_kyber_public toy_callee) (cp_ed25519 toy_caller) (toy_call_entropy 40) (snd alice_asked).
Definition bob_crossed : PResult bytes * VoipSessionInner :=
  process_rekey (request alice_asked) (cp_ed25519_public toy_caller) (cp_kyber_secret toy_callee)
    (cp_kyber_public toy_caller) (cp_ed25519 toy_callee) (toy_call_entropy 50) (snd bob_asked).

Definition own_request : CallInitOutput :=
  match VoipSessionInner.pending_rekey (snd alice_asked) with
  | Some o => o | None => CallInitOutput.mk [] [] [] [] [] [] (SecureMemoryHandle.mk []) (SecureMemoryHandle.mk []) [] end.

Definition bob_ack : CallRekeyAck.t :=
  match decode (request bob_crossed) with Some m => m | None => CallRekeyAck.mk [] 0 [] [] [] [] end.

Lemma bob_ack_decodes : decode (request bob_crossed) = Some bob_ack.
Proof. vm_compute. reflexivity. Qed.

Lemma bob_ack_generation : CallRekeyAck.rekey_generation bob_ack = VoipSessionInner.ratchet_generation (snd alice_asked) + 1.
Proof. vm_compute. reflexivity. Qed.

Lemma alice_own : VoipSessionInner.pending_rekey (snd alice_asked) = Some own_request.
Proof. vm_compute. reflexivity. Qed.

Lemma alice_crossed_eq :
  process_rekey (request bob_asked) (cp_ed25519_public toy_callee) (cp_kyber_secret toy_caller)
    (cp_kyber_public toy_callee) (cp_ed25519 toy_caller) (toy_call_entropy 40) (snd alice_asked) =
  (Ok (request alice_crossed), snd alice_crossed).
Proof. vm_compute. reflexivity. Qed.

Lemma crossed_roots :
  VoipSessionInner.root_secret (snd alice_crossed) <> VoipSessionInner.root_secret (snd bob_crossed).
Proof. vm_compute. discriminate. Qed.

(** After the crossing the two ends hold different roots, and bob's answer to
    alice's request is refused. *)
Lemma crossed_rekey_stays_pending_witness :
  VoipSessionInner.root_secret (snd alice_crossed) <> VoipSessionInner.root_secret (snd bob_crossed) /\
  fst (initiate_rekey (cp_ed25519 toy_caller) (cp_kyber_public toy_callee) (toy_call_entropy 60) (snd alice_crossed)) =
    Err (ProtocolError.voip_rekey "rekey already pending"%string) /\
  exists e, process_rekey_ack (request bob_crossed) (cp_ed25519_public toy_callee) (cp_kyber_secret toy_caller)
    (snd alice_crossed) = (Err e, snd alice_crossed).
Proof.
  destruct (crossed_rekey_stays_pending (request bob_asked) (cp_ed25519_public toy_callee) (cp_kyber_secret toy_caller)
    (cp_kyber_public toy_callee) (cp_ed25519 toy_caller) (toy_call_entropy 40) (snd alice_asked) own_request
    (request alice_crossed) (snd alice_crossed) alice_own alice_crossed_eq) as (_ & Hi & Ha).
  split; [exact crossed_roots|].
  split; [exact (f_equal fst (Hi (cp_ed25519 toy_caller) (cp_kyber_public toy_callee) (toy_call_entropy 60)))|].
  exact (Ha (request bob_crossed) bob_ack (cp_ed25519_public toy_callee) (cp_kyber_secret toy_caller)
    bob_ack_decodes bob_ack_generation).
Defined.

(** ** Sealed calls *)

Definition toy_state_key : bytes := resize 32 3 [].
Definition toy_state_nonce : bytes := resize 12 4 [].

(** Alice after two frames: the next one is due a ratchet step. *)
Definition alice_talked : VoipSessionInner := snd (send_frames [toy_item 1; toy_item 2] alice_call).

Definition sealed_of (s : VoipSessionInner) : bytes :=
  unwrap_or (export_sealed_state toy_state_key 7 toy_state_nonce s) [].

(** The decidable part of [sealable]. *)
Definition sealableb (root : bytes) (cl cr : option Z) (s : VoipSessionInner) : bool :=
  let is_tt (r : PResult unit) := match r with Ok _ => true | Err _ => false end in
  is_active (VoipSessionInner.state s) && (len (VoipSessionInner.call_id s) =? CALL_ID_BYTES) &&
  bytes_eqb (SecureMemoryHandle.data (VoipSessionInner.root_secret s)) root && (len root =? ROOT_KEY_BYTES) &&
  (len (SecureMemoryHandle.data (chain_key (VoipSessionInner.send_ratchet s))) =? VOIP_MEDIA_KEY_BYTES) &&
  (0 <=? generation (VoipSessionInner.send_ratchet s)) &&
  (len (SecureMemoryHandle.data (chain_key (VoipSessionInner.recv_ratchet s))) =? VOIP_MEDIA_KEY_BYTES) &&
  (0 <=? generation (VoipSessionInner.recv_ratchet s)) &&
  match ReplayWindow.bitmap (VoipSessionInner.replay_window s) with
  | [w0; w1] => ok_u64 w0 && ok_u64 w1
  | _ => false
  end &&
  negb (VoipSessionInner.ratchet_interval_frames s =? 0) && negb (VoipSessionInner.pq_rekey_interval_secs s =? 0) &&
  negb (VoipSessionInner.created_at_unix s =? 0) &&
  is_tt (check_screen_share (VoipSessionInner.screen_share_meta s)) &&
  is_tt (validate_recording_consent_value (VoipSessionInner.local_recording_consent s)) &&
  is_tt (validate_recording_consent_value (VoipSessionInner.remote_recording_consent s)) &&
  is_tt (check_consent_time (VoipSessionInner.local_recording_consent_timestamp_unix s) cl) &&
  is_tt (check_consent_time (VoipSessionInner.remote_recording_consent_timestamp_unix s) cr).

Lemma is_tt_true (r : PResult unit) : match r with Ok _ => true | Err _ => false end = true -> r = Ok tt.
Proof. now destruct r as [[]|]. Qed.

Lemma sealableb_true root cl cr s : sealableb root cl cr s = true -> sealable root cl cr s.
Proof.
  unfold sealableb. intros H. bools.
  repeat match goal with H : match ?r with Ok _ => true | Err _ => false end = true |- _ => apply is_tt_true in H end.
  constructor; auto.
  - now destruct (VoipSessionInner.state s).
  - destruct (VoipSessionInner.root_secret s) as [d]. cbn in *. f_equal. now apply bytes_eqb_eq.
  - now split.
  - now split.
  - destruct (ReplayWindow.bitmap _) as [|w0 [|w1 [|]]]; try discriminate. bools.
    exists w0, w1. unfold ok_u64, in_range in *. bools. auto.
Qed.

Lemma alice_sealable : sealable toy_root (Some 2000) (Some 2000) alice_talked.
Proof. apply sealableb_true. vm_compute. reflexivity. Qed.

Lemma toy_decodes s root ctr : decode (encode (state_image root ctr s)) = Some (state_image root ctr s).
Proof. exact (decode_encode (ProstLaws := prost_of_laws (fun _ : VoipSessionState.t => True)) _ I). Qed.

Lemma alice_exported : export_sealed_state toy_state_key 7 toy_state_nonce alice_talked = Ok (sealed_of alice_talked).
Proof. vm_compute. reflexivity. Qed.

Lemma alice_sealed_small :
  len (sealed_of alice_talked) <= MAX_VOIP_SIGNAL_MESSAGE_SIZE + MAX_VOIP_ENCRYPTED_PAYLOAD_SIZE.
Proof. vm_compute. discriminate. Qed.

Lemma alice_runs_on : runs_on toy_root true alice_talked.
Proof. vm_compute. auto. Qed.


(** ** A callee that starts a rekey, is restarted and speaks *)

Definition alice_answered : PResult bytes * VoipSessionInner :=
  process_rekey (request bob_asked) (cp_ed25519_public toy_callee) (cp_kyber_secret toy_caller)
    (cp_kyber_public toy_callee) (cp_ed25519 toy_caller) (toy_call_entropy 40) alice_call.
Definition bob_rekeyed : VoipSessionInner :=
  snd (process_rekey_ack (request alice_answered) (cp_ed25519_public toy_caller) (cp_kyber_secret toy_callee)
         (snd bob_asked)).
Definition rekeyed_root : bytes := SecureMemoryHandle.data (VoipSessionInner.root_secret bob_rekeyed).
Definition bob_restarted : VoipSessionInner :=
  unwrap_or (from_sealed_state_with_time_provider (sealed_of bob_rekeyed) toy_state_key 7 None None None) no_call.

(** Whether alice can read the next frame of [s]. *)
Definition heard_by_alice (s : VoipSessionInner) : bool :=
  match fst (encrypt_call_control Mute s) with
  | Ok f => is_ok (fst (decrypt_frame f (snd alice_answered)))
  | Err _ => false
  end.

Lemma bob_sealable : sealable rekeyed_root None None bob_rekeyed.
Proof. apply sealableb_true. vm_compute. reflexivity. Qed.

Lemma bob_runs_on : runs_on rekeyed_root true bob_rekeyed.
Proof. vm_compute. auto. Qed.

Lemma bob_exported : export_sealed_state toy_state_key 7 toy_state_nonce bob_rekeyed = Ok (sealed_of bob_rekeyed).
Proof. vm_compute. reflexivity. Qed.

Lemma bob_sealed_small :
  len (sealed_of bob_rekeyed) <= MAX_VOIP_SIGNAL_MESSAGE_SIZE + MAX_VOIP_ENCRYPTED_PAYLOAD_SIZE.
Proof. vm_compute. discriminate. Qed.

Lemma bob_role : VoipSessionInner.role bob_rekeyed = Callee.
Proof. vm_compute. reflexivity. Qed.

Lemma bob_heard : heard_by_alice bob_rekeyed = true /\ heard_by_alice bob_restarted = false.
Proof. split; vm_compute; reflexivity. Qed.

(** Alice hears bob before the restart and not after it. *)
Lemma restart_after_callee_rekey_swaps_directions_witness :
  (heard_by_alice bob_rekeyed = true /\ heard_by_alice bob_restarted = false) /\
  exists r, from_sealed_state_with_time_provider (sealed_of bob_rekeyed) toy_state_key 7 None None None = Ok r /\
    VoipSessionInner.header_key_send r = VoipSessionInner.header_key_recv bob_rekeyed.
Proof.
  split; [exact bob_heard|].
  destruct (restart_after_callee_rekey_swaps_directions rekeyed_root None None None toy_state_key 7 7 toy_state_nonce
    bob_rekeyed (sealed_of bob_rekeyed) bob_sealable bob_role bob_runs_on (conj eq_refl eq_refl) (Z.le_refl 7)
    (toy_decodes _ _ _) bob_exported bob_sealed_small) as (r & Hr & Hh & _).
  exists r. exact (conj Hr Hh).
Defined.
