(* ===== verification/TreeIndex.v ===== *)
(** * Index arithmetic of the ratchet tree ([src/protocol/group/tree.rs])

    The tree of a group with [n] leaves is kept in an array: leaf [i] is node
    [2 i], and the inner nodes are the odd indices of a left-balanced binary
    tree.  The functions below walk that tree on 32-bit indices.  A walk that
    the source writes as an unbounded loop takes fuel here; the bound is never
    reached (lemmas [right_loop_ok] and [path_loop_ok]).  The specification is
    the interval of indices below a node ([below]): the two children split the
    interval of their parent. *)

From Stdlib Require Import ZArith List Bool Lia String.
From S2P Require Import Prelude Constants.
Import ListNotations.
Open Scope string_scope.
Open Scope list_scope.
Open Scope Z_scope.

Fixpoint trailing_zeros (w : nat) (x : Z) : Z :=
  match w with
  | O => 0
  | S w => if Z.odd x then 0 else 1 + trailing_zeros w (x / 2)
  end.

Definition level (x : Z) : Z := trailing_zeros 32 (bitnot 32 x).

Definition is_leaf (x : Z) : bool := Z.land x 1 =? 0.

Definition node_count (n : Z) : Z := if n =? 0 then 0 else 2 * n - 1.

Definition log2 (x : Z) : PResult Z :=
  check? negb (x =? 0) else ProtocolError.tree_integrity "log2(0) is undefined" in
  Ok (Z.log2 x).

Definition root (n : Z) : PResult Z :=
  check? negb (n =? 0) else ProtocolError.tree_integrity "root: leaf count must be > 0" in
  let w := node_count n in
  let? k := log2 w in
  Ok (shl 32 1 k - 1).

Definition left (x : Z) : PResult Z :=
  check? negb (is_leaf x) else ProtocolError.tree_integrity "left: leaves have no children" in
  let k := level x in
  check? negb (k =? 0) else ProtocolError.tree_integrity "left: level must be > 0 for non-leaf" in
  Ok (Z.lxor x (shl 32 1 (k - 1))).

(** [while r >= node_count(n) { r = left(r)? }] *)
Fixpoint right_loop (fuel : nat) (r n : Z) : PResult Z :=
  if node_count n <=? r then
    match fuel with
    | O => Err (ProtocolError.tree_integrity "right: loop bound")
    | S fuel => let? r := left r in right_loop fuel r n
    end
  else Ok r.

Definition right (x n : Z) : PResult Z :=
  check? negb (is_leaf x) else ProtocolError.tree_integrity "right: leaves have no children" in
  let k := level x in
  check? negb (k =? 0) else ProtocolError.tree_integrity "right: level must be > 0 for non-leaf" in
  let r := Z.lxor x (shl 32 3 (k - 1)) in
  right_loop 33 r n.

(** The search of [parent_walk], below [node]; [fuel] is what is left of
    [MAX_TREE_DEPTH]. *)
Fixpoint find_parent (fuel : nat) (node target n nc : Z) : PResult (option Z) :=
  match fuel with
  | O => Err (ProtocolError.tree_integrity "parent_walk: exceeded MAX_TREE_DEPTH")
  | S fuel =>
      if is_leaf node || (nc <=? node) then Ok None else
      let? l := left node in
      let? r := right node n in
      if (l =? target) || (r =? target) then Ok (Some node) else
      let? left_result := find_parent fuel l target n nc in
      match left_result with
      | Some p => Ok (Some p)
      | None => find_parent fuel r target n nc
      end
  end.

Definition depth_fuel : nat := Z.to_nat (MAX_TREE_DEPTH + 1).

Definition parent_walk (x n : Z) : PResult Z :=
  let? r := root n in
  let nc := node_count n in
  let? found := find_parent depth_fuel r x n nc in
  Ok (match found with Some p => p | None => r end).

Definition parent (x n : Z) : PResult Z :=
  let? r := root n in
  check? negb (x =? r) else ProtocolError.tree_integrity "parent: root has no parent" in
  let k := level x in
  check? negb (31 <=? k) else ProtocolError.tree_integrity "parent: node level exceeds tree depth" in
  let b := Z.land (Z.shiftr x (k + 1)) 1 in
  let p := Z.lxor (Z.lor x (shl 32 1 k)) (shl 32 b (k + 1)) in
  if (r <? p) || (node_count n <=? p) then parent_walk x n else Ok p.

Definition sibling (x n : Z) : PResult Z :=
  let? p := parent x n in
  let? l := left p in
  if l =? x then right p n else Ok l.

Definition checked_leaf_to_node (leaf_idx : Z) : PResult Z :=
  ok_or (checked_mul 32 leaf_idx 2) (ProtocolError.tree_integrity "checked_leaf_to_node: leaf index overflow").

Definition leaf_to_node (leaf_idx : Z) : PResult Z := checked_leaf_to_node leaf_idx.

Definition node_to_leaf (node_idx : Z) : option Z := if is_leaf node_idx then Some (node_idx / 2) else None.

(** [while x != r { x = parent(x, n)?; path.push(x) }], and the loop of [copath]
    that pushes the siblings instead. *)
Fixpoint path_loop (fuel : nat) (x r n : Z) : PResult (list Z) :=
  if x =? r then Ok [] else
  match fuel with
  | O => Err (ProtocolError.tree_integrity "direct_path: loop bound")
  | S fuel =>
      let? x := parent x n in
      let? path := path_loop fuel x r n in
      Ok (x :: path)
  end.

Fixpoint copath_loop (fuel : nat) (x r n : Z) : PResult (list Z) :=
  if x =? r then Ok [] else
  match fuel with
  | O => Err (ProtocolError.tree_integrity "copath: loop bound")
  | S fuel =>
      let? s := sibling x n in
      let? x := parent x n in
      let? cp := copath_loop fuel x r n in
      Ok (s :: cp)
  end.

Definition path_fuel : nat := 33.

Definition direct_path (leaf_idx n : Z) : PResult (list Z) :=
  let? r := root n in
  let? x := checked_leaf_to_node leaf_idx in
  path_loop path_fuel x r n.

Definition copath (leaf_idx n : Z) : PResult (list Z) :=
  let? r := root n in
  let? x := checked_leaf_to_node leaf_idx in
  copath_loop path_fuel x r n.

(** ** Nodes by level and position

    Node [m] of level [k] has index [(2 m + 1) 2^k - 1] and stands over the
    leaves [m 2^k, ..., (m + 1) 2^k - 1], of which the tree keeps those below [n]. *)

Definition node (k m : Z) : Z := (2 * m + 1) * 2 ^ k - 1.

Lemma trailing_zeros_located w : forall x, 0 <= x < 2 ^ Z.of_nat w - 1 ->
  let k := trailing_zeros w (bitnot (Z.of_nat w) x) in
  0 <= k < Z.of_nat w /\ exists m, 0 <= m /\ x = node k m.
Proof.
  unfold node, bitnot. induction w as [|w IH]; intros x Hx; [change (2 ^ Z.of_nat 0) with 1 in Hx; lia|].
  rewrite Nat2Z.inj_succ, Z.pow_succ_r in * by lia. cbn [trailing_zeros].
  assert (Hp : 0 < 2 ^ Z.of_nat w) by (apply Z.pow_pos_nonneg; lia).
  destruct (Z.odd _) eqn:Ho.
  - split; [lia|]. exists (x / 2). rewrite Z.pow_0_r.
    assert (Hx2 : x mod 2 = 0).
    { replace (2 * 2 ^ Z.of_nat w - 1 - x) with (1 + x + 2 * (2 ^ Z.of_nat w - 1 - x)) in Ho by ring.
      rewrite Z.odd_add_mul_2 in Ho. replace (1 + x) with (Z.succ x) in Ho by lia.
      rewrite Z.odd_succ, Z.even_spec in Ho. destruct Ho as [c Hc].
      subst x. rewrite Z.mul_comm. apply Z.mod_mul. lia. }
    split; [apply Z.div_pos; lia|]. pose proof (Z.div_mod x 2). lia.
  - assert (Hq : exists q, x = 2 * q + 1).
    { replace (2 * 2 ^ Z.of_nat w - 1 - x) with (1 + x + 2 * (2 ^ Z.of_nat w - 1 - x)) in Ho by ring.
      rewrite Z.odd_add_mul_2 in Ho. replace (1 + x) with (Z.succ x) in Ho by lia.
      rewrite Z.odd_succ in Ho. rewrite <- Z.negb_odd in Ho. apply negb_false_iff, Z.odd_spec in Ho. exact Ho. }
    destruct Hq as [q ->].
    replace (2 * 2 ^ Z.of_nat w - 1 - (2 * q + 1)) with ((2 ^ Z.of_nat w - 1 - q) * 2) by ring.
    rewrite Z.div_mul by lia. destruct (IH q ltac:(lia)) as (Hk & m & Hm & Hq). cbv zeta in *.
    set (t := trailing_zeros w _) in *. split; [lia|]. exists m. split; [exact Hm|].
    rewrite Z.pow_add_r by lia. change (2 ^ 1) with 2. nia.
Qed.

Definition located (x k m : Z) : Prop := 0 <= k < 32 /\ 0 <= m /\ x = node k m.

Lemma level_located x : 0 <= x < u32_max -> exists m, located x (level x) m.
Proof.
  intros Hx. unfold u32_max in Hx. destruct (trailing_zeros_located 32 x Hx) as (Hk & m & Hm & He).
  change (Z.of_nat 32) with 32 in *. exists m. repeat split; try exact He; try exact Hm; apply Hk.
Qed.

Lemma odd_power_le k k' m m' : 0 <= k < k' -> (2 * m + 1) * 2 ^ k = (2 * m' + 1) * 2 ^ k' -> False.
Proof.
  intros Hk He. replace k' with (k + 1 + (k' - k - 1)) in He by lia.
  rewrite !Z.pow_add_r in He by lia. change (2 ^ 1) with 2 in He.
  assert (Hp : 0 < 2 ^ k) by (apply Z.pow_pos_nonneg; lia).
  set (c := 2 ^ (k' - k - 1)) in *.
  assert (2 * m + 1 = 2 * ((2 * m' + 1) * c)) by nia. lia.
Qed.

Lemma located_unique x k m k' m' : located x k m -> located x k' m' -> k = k' /\ m = m'.
Proof.
  intros (Hk & Hm & Hx) (Hk' & Hm' & Hx'). unfold node in *.
  assert (He : (2 * m + 1) * 2 ^ k = (2 * m' + 1) * 2 ^ k') by lia.
  assert (k = k') as <-.
  { destruct (Z.lt_trichotomy k k') as [H|[H|H]]; [|exact H|]; exfalso.
    - now apply (odd_power_le k k' m m').
    - now apply (odd_power_le k' k m' m). }
  assert (Hp : 0 < 2 ^ k) by (apply Z.pow_pos_nonneg; lia). split; [reflexivity|nia].
Qed.

Lemma node_bound k m : 0 <= k -> 0 <= m -> 0 < 2 ^ k /\ 2 ^ k - 1 <= node k m.
Proof. intros Hk Hm. assert (0 < 2 ^ k) by (apply Z.pow_pos_nonneg; lia). unfold node. nia. Qed.

Lemma node_first k m : node k m = 2 * (m * 2 ^ k) + 2 ^ k - 1.
Proof. unfold node. ring. Qed.

Lemma pow_half k : 0 < k -> 2 ^ k = 2 * 2 ^ (k - 1) /\ 0 < 2 ^ (k - 1).
Proof.
  intros Hk. split; [|apply Z.pow_pos_nonneg; lia].
  replace k with (1 + (k - 1)) at 1 by lia. rewrite Z.pow_add_r by lia. reflexivity.
Qed.

Lemma located_level x k m : located x k m -> 0 <= x < u32_max -> level x = k.
Proof. intros H Hx. destruct (level_located x Hx) as [m' H']. now destruct (located_unique _ _ _ _ _ H H'). Qed.

Lemma node_div k m i : 0 <= i <= k -> node k m / 2 ^ i = (2 * m + 1) * 2 ^ (k - i) - 1.
Proof.
  intros Hi. unfold node. assert (Hp : 0 < 2 ^ i) by (apply Z.pow_pos_nonneg; lia).
  symmetry. apply Z.div_unique with (r := 2 ^ i - 1); [lia|].
  replace k with (i + (k - i)) at 1 by lia. rewrite Z.pow_add_r by lia. ring.
Qed.

Lemma node_bit_low k m i : 0 <= i < k -> Z.testbit (node k m) i = true.
Proof.
  intros Hi. rewrite Z.testbit_odd, Z.shiftr_div_pow2, node_div by lia.
  replace (k - i) with (1 + (k - i - 1)) by lia. rewrite Z.pow_add_r by lia. change (2 ^ 1) with 2.
  rewrite Z.odd_sub, !Z.odd_mul. cbn [Z.odd]. rewrite andb_false_r. reflexivity.
Qed.

Lemma node_bit_level k m : 0 <= k -> Z.testbit (node k m) k = false.
Proof.
  intros Hk. rewrite Z.testbit_odd, Z.shiftr_div_pow2, node_div, Z.sub_diag by lia.
  replace ((2 * m + 1) * 2 ^ 0 - 1) with (2 * m) by (rewrite Z.pow_0_r; lia). now rewrite Z.odd_mul.
Qed.

Lemma node_shift k m : 0 <= k -> Z.shiftr (node k m) (k + 1) = m.
Proof.
  intros Hk. rewrite Z.shiftr_div_pow2 by lia. unfold node. rewrite Z.pow_add_r by lia. change (2 ^ 1) with 2.
  assert (Hp : 0 < 2 ^ k) by (apply Z.pow_pos_nonneg; lia).
  symmetry. apply Z.div_unique with (r := 2 ^ k - 1); [lia|ring].
Qed.

(** Flipping a bit that is set subtracts it; one that is clear adds it. *)
Lemma lxor_set x i : 0 <= i -> Z.testbit x i = true -> Z.lxor x (2 ^ i) = x - 2 ^ i.
Proof.
  intros Hi Hb. rewrite Z.sub_nocarry_ldiff.
  - apply Z.bits_inj'. intros j Hj. rewrite Z.lxor_spec, Z.ldiff_spec, Z.pow2_bits_eqb by exact Hi.
    destruct (Z.eqb_spec i j) as [<-|]; [now rewrite Hb|now destruct (Z.testbit x j)].
  - apply Z.bits_inj'. intros j Hj. rewrite Z.ldiff_spec, Z.pow2_bits_eqb, Z.bits_0 by exact Hi.
    destruct (Z.eqb_spec i j) as [<-|]; [now rewrite Hb|reflexivity].
Qed.

Lemma lor_clear x i : 0 <= i -> Z.testbit x i = false -> Z.lor x (2 ^ i) = x + 2 ^ i.
Proof.
  intros Hi Hb. assert (Hl : Z.land x (2 ^ i) = 0).
  { apply Z.bits_inj'. intros j Hj. rewrite Z.land_spec, Z.pow2_bits_eqb, Z.bits_0 by exact Hi.
    destruct (Z.eqb_spec i j) as [<-|]; [now rewrite Hb|now rewrite andb_false_r]. }
  pose proof (Z.add_lor_land x (2 ^ i)). lia.
Qed.

Lemma lxor_clear x i : 0 <= i -> Z.testbit x i = false -> Z.lxor x (2 ^ i) = x + 2 ^ i.
Proof.
  intros Hi Hb. rewrite <- lor_clear by assumption. apply Z.bits_inj'. intros j Hj.
  rewrite Z.lxor_spec, Z.lor_spec, Z.pow2_bits_eqb by exact Hi.
  destruct (Z.eqb_spec i j) as [<-|]; [now rewrite Hb|now destruct (Z.testbit x j)].
Qed.

Lemma shl_pow2 k : 0 <= k < 32 -> shl 32 1 k = 2 ^ k.
Proof.
  intros Hk. unfold shl. rewrite Z.shiftl_mul_pow2, Z.mul_1_l by lia. apply wrap_small.
  split; [apply Z.pow_nonneg; lia|apply Z.pow_lt_mono_r; lia].
Qed.

Lemma is_leaf_even x : is_leaf x = Z.even x.
Proof. unfold is_leaf. change 1 with (Z.ones 1). rewrite Z.land_ones by lia. change (2 ^ 1) with 2. now rewrite Zeven_mod. Qed.

Lemma node_leaf k m : 0 <= k -> is_leaf (node k m) = (k =? 0).
Proof.
  intros Hk. rewrite is_leaf_even, <- Z.negb_odd, <- Z.bit0_odd.
  destruct (Z.eqb_spec k 0) as [->|]; [now rewrite node_bit_level|now rewrite node_bit_low by lia].
Qed.

Lemma left_node k m : 0 < k < 32 -> 0 <= m -> node k m < u32_max -> left (node k m) = Ok (node (k - 1) (2 * m)).
Proof.
  intros Hk Hm Hx. destruct (node_bound k m) as [Hp Hb]; [lia..|].
  unfold left. rewrite node_leaf by lia. rewrite (located_level (node k m) k m); [|repeat split; lia|lia].
  destruct (Z.eqb_spec k 0); [lia|]. run_res. rewrite shl_pow2 by lia.
  rewrite lxor_set; [|lia|apply node_bit_low; lia]. f_equal. unfold node.
  replace k with (1 + (k - 1)) at 1 by lia. rewrite Z.pow_add_r by lia. change (2 ^ 1) with 2. ring.
Qed.

Lemma lxor_three k : 0 <= k -> Z.lxor (2 ^ k) (2 ^ (k + 1)) = 3 * 2 ^ k.
Proof.
  intros Hk. rewrite lxor_clear; [|lia|].
  - rewrite Z.pow_add_r by lia. change (2 ^ 1) with 2. ring.
  - rewrite Z.pow2_bits_eqb by lia. apply Z.eqb_neq. lia.
Qed.

Lemma right_start k m : 0 < k < 32 -> 0 <= m ->
  Z.lxor (node k m) (shl 32 3 (k - 1)) = node (k - 1) (2 * m + 1).
Proof.
  intros Hk Hm. assert (Hp : 0 < 2 ^ (k - 1)) by (apply Z.pow_pos_nonneg; lia).
  assert (Hs : shl 32 3 (k - 1) = 3 * 2 ^ (k - 1)).
  { unfold shl. rewrite Z.shiftl_mul_pow2 by lia. apply wrap_small. split; [lia|].
    assert (2 ^ (k - 1) <= 2 ^ 30) by (apply Z.pow_le_mono_r; lia). lia. }
  assert (Hl : node k m - 2 ^ (k - 1) = node (k - 1) (2 * m)).
  { unfold node. replace k with (1 + (k - 1)) at 1 by lia. rewrite Z.pow_add_r by lia. change (2 ^ 1) with 2. ring. }
  rewrite Hs, <- lxor_three, <- Z.lxor_assoc by lia.
  rewrite (lxor_set (node k m) (k - 1)), Hl by (try apply node_bit_low; lia).
  rewrite lxor_clear.
  - unfold node. rewrite Z.pow_add_r by lia. change (2 ^ 1) with 2. ring.
  - lia.
  - rewrite Z.testbit_odd, node_shift by lia. now rewrite Z.odd_mul.
Qed.

(** The smallest and the largest index below a node of the tree with [n] leaves. *)
Definition low (x : Z) : Z := x + 1 - 2 ^ level x.
Definition high (n x : Z) : Z := Z.min (x + 2 ^ level x - 1) (2 * n - 2).
Definition below (n x t : Z) : bool := (low x <=? t) && (t <=? high n x).

(** Leaf counts for which the depth limit of the walks is enough. *)
Definition max_leaves : Z := 2 ^ MAX_TREE_DEPTH.

Section Tree.
Context (n : Z) (Hn : 0 < n <= max_leaves).

Definition in_tree (x : Z) : Prop := 0 <= x < node_count n.

Lemma node_count_eq : node_count n = 2 * n - 1.
Proof. unfold node_count. destruct (Z.eqb_spec n 0); lia. Qed.

Lemma max_leaves_eq : max_leaves = 1048576.
Proof. reflexivity. Qed.

Lemma in_tree_u32 x : in_tree x -> 0 <= x < 2097151 /\ x < u32_max.
Proof. unfold in_tree. rewrite node_count_eq. rewrite max_leaves_eq in Hn. unfold u32_max. lia. Qed.

Lemma in_tree_located x : in_tree x -> exists k m, located x k m /\ level x = k /\ k <= 20.
Proof.
  intros Hx. destruct (in_tree_u32 x Hx) as [Hb Hu].
  destruct (level_located x ltac:(lia)) as [m H]. exists (level x), m. split; [exact H|]. split; [reflexivity|].
  destruct H as (Hk & Hm & He). destruct (node_bound (level x) m) as [_ Hl]; [lia..|].
  destruct (Z.le_gt_cases (level x) 20); [assumption|].
  assert (2 ^ 21 <= 2 ^ level x) by (apply Z.pow_le_mono_r; lia). change (2 ^ 21) with 2097152 in *. lia.
Qed.

(** The loop of [right] goes down the left spine from a node whose first leaf is
    in the tree, to the first node that is. *)
Lemma right_loop_ok fuel : forall j q, 0 <= j < 32 -> 0 <= q -> node j q < u32_max -> (Z.to_nat j <= fuel)%nat ->
  2 * (q * 2 ^ j) < 2 * n - 1 ->
  exists i q', 0 <= i <= j /\ 0 <= q' /\ q' * 2 ^ i = q * 2 ^ j /\ right_loop fuel (node j q) n = Ok (node i q') /\
    node i q' < 2 * n - 1 /\ (i = j \/ 2 * n - 1 <= 2 * (q * 2 ^ j) + 2 ^ (i + 1) - 1).
Proof.
  induction fuel as [|fuel IH]; intros j q Hj Hq Hu Hf Hlo; cbn [right_loop]; rewrite node_count_eq;
    (destruct (Z.leb_spec (2 * n - 1) (node j q)) as [Hle|Hlt];
      [|exists j, q; repeat split; try lia]); rewrite node_first in Hle.
  - assert (j = 0) by lia. subst j. rewrite Z.pow_0_r in *. lia.
  - destruct (Z.eq_dec j 0) as [->|Hj0]; [rewrite Z.pow_0_r in *; lia|].
    rewrite left_node by lia. cbn [rbind]. destruct (pow_half j ltac:(lia)) as [E2 Hp].
    assert (Eq : 2 * q * 2 ^ (j - 1) = q * 2 ^ j) by (rewrite E2; ring).
    destruct (IH (j - 1) (2 * q)) as (i & q' & Hi & Hq' & He & Hr & Hb & Hor); [lia|lia| |lia|lia|].
    + rewrite node_first in *. lia.
    + exists i, q'. rewrite Eq in He, Hor. repeat split; try assumption; try lia. right.
      destruct Hor as [->|Hor]; [|exact Hor]. replace (j - 1 + 1) with j by lia. exact Hle.
Qed.

(** The two children of an inner node share its interval out. *)
Lemma children x : in_tree x -> is_leaf x = false ->
  exists l r, left x = Ok l /\ right x n = Ok r /\ in_tree l /\ in_tree r /\
    level l < level x /\ level r < level x /\
    low l = low x /\ high n l = x - 1 /\ low r = x + 1 /\ high n r = high n x.
Proof.
  intros Hx Hl. destruct (in_tree_located x Hx) as (k & m & (Hk & Hm & He) & Hlev & Hk20).
  destruct (in_tree_u32 x Hx) as [Hb Hu]. unfold in_tree in *. rewrite node_count_eq in *.
  rewrite He, node_leaf in Hl by lia. apply Z.eqb_neq in Hl.
  destruct (pow_half k ltac:(lia)) as [E2 Hp].
  assert (Hpk : 2 ^ (k - 1) <= 2 ^ 20) by (apply Z.pow_le_mono_r; lia). change (2 ^ 20) with 1048576 in Hpk.
  assert (F : x = 2 * (m * 2 ^ k) + 2 ^ k - 1) by (rewrite He; apply node_first).
  assert (Fl : node (k - 1) (2 * m) = 2 * (m * 2 ^ k) + 2 ^ (k - 1) - 1) by (rewrite node_first, E2; ring).
  assert (El : (2 * m + 1) * 2 ^ (k - 1) = m * 2 ^ k + 2 ^ (k - 1)) by (rewrite E2; ring).
  destruct (right_loop_ok 33 (k - 1) (2 * m + 1)) as (i & q & Hi & Hq & Hlo & Hr & Hrb & Hor);
    [lia|lia|rewrite node_first; unfold u32_max; lia|lia|lia|].
  assert (Hpi : 0 < 2 ^ i) by (apply Z.pow_pos_nonneg; lia).
  assert (Fr : node i q = 2 * (m * 2 ^ k) + 2 ^ k + 2 ^ i - 1) by (rewrite node_first; lia).
  exists (node (k - 1) (2 * m)), (node i q).
  assert (Hmk : 0 <= m * 2 ^ k) by (apply Z.mul_nonneg_nonneg; lia).
  assert (Ll : level (node (k - 1) (2 * m)) = k - 1).
  { apply located_level with (m := 2 * m); [repeat split; lia|]. lia. }
  assert (Lr : level (node i q) = i).
  { apply located_level with (m := q); [repeat split; lia|]. pose proof max_leaves_eq. unfold u32_max. lia. }
  split; [rewrite He; apply left_node; lia|].
  split.
  { unfold right. rewrite He, node_leaf by lia. rewrite <- He, Hlev, He.
    destruct (Z.eqb_spec k 0); [lia|]. run_res. rewrite right_start by lia. exact Hr. }
  unfold low, high. rewrite Ll, Lr, Hlev, Fl, Fr. clear Hr Ll Lr Hlev Hu Hb He.
  repeat split; try lia.
  assert (2 ^ i <= 2 ^ (k - 1)) by (apply Z.pow_le_mono_r; lia). destruct Hor as [->|Hor]; [lia|]. rewrite Z.pow_add_r in Hor by lia. change (2 ^ 1) with 2 in Hor. lia.
Qed.

Lemma leaf_interval x : in_tree x -> is_leaf x = true -> low x = x /\ high n x = x.
Proof.
  intros Hx Hl. destruct (in_tree_located x Hx) as (k & m & (Hk & Hm & He) & Hlev & _).
  unfold in_tree in Hx. rewrite node_count_eq in Hx.
  rewrite He, node_leaf in Hl by lia. apply Z.eqb_eq in Hl. unfold low, high. rewrite Hlev, Hl. change (2 ^ 0) with 1.
  rewrite Hl, node_first, Z.pow_0_r in He. lia.
Qed.

Lemma interval_self x : in_tree x -> low x <= x <= high n x /\ 0 <= low x.
Proof.
  intros Hx. destruct (in_tree_located x Hx) as (k & m & (Hk & Hm & He) & Hlev & _).
  unfold in_tree in Hx. rewrite node_count_eq in Hx. rewrite node_first in He.
  assert (0 < 2 ^ k) by (apply Z.pow_pos_nonneg; lia). assert (0 <= m * 2 ^ k) by (apply Z.mul_nonneg_nonneg; lia).
  unfold low, high. rewrite Hlev. lia.
Qed.

Lemma root_ok : exists r, root n = Ok r /\ in_tree r /\ low r = 0 /\ high n r = 2 * n - 2.
Proof.
  unfold root, log2, in_tree. rewrite node_count_eq. pose proof max_leaves_eq as Hm.
  destruct (Z.eqb_spec n 0); [lia|]. destruct (Z.eqb_spec (2 * n - 1) 0); [lia|]. run_res.
  set (k := Z.log2 (2 * n - 1)). destruct (Z.log2_spec (2 * n - 1)) as [H1 H2]; [lia|]. fold k in H1, H2.
  assert (Hk : 0 <= k) by apply Z.log2_nonneg. rewrite Z.pow_succ_r in H2 by lia.
  assert (Hk20 : k <= 20).
  { destruct (Z.le_gt_cases k 20); [assumption|]. assert (2 ^ 21 <= 2 ^ k) by (apply Z.pow_le_mono_r; lia).
    change (2 ^ 21) with 2097152 in *. lia. }
  assert (Hp : 0 < 2 ^ k) by (apply Z.pow_pos_nonneg; lia).
  rewrite shl_pow2 by lia. exists (2 ^ k - 1). split; [reflexivity|]. split; [lia|].
  assert (Hl : level (2 ^ k - 1) = k).
  { apply located_level with (m := 0); [|unfold u32_max; lia]. repeat split; try lia. rewrite node_first. lia. }
  unfold low, high. rewrite Hl. lia.
Qed.

(** A node of the tree is below [x] exactly when the walk from [x] to the children
    gets there. *)
Inductive descends : Z -> Z -> Prop :=
| descends_here x : descends x x
| descends_left x l t : left x = Ok l -> descends l t -> descends x t
| descends_right x r t : right x n = Ok r -> descends r t -> descends x t.

Lemma interval_descends k : forall x t, in_tree x -> level x <= Z.of_nat k -> low x <= t <= high n x -> descends x t.
Proof.
  induction k as [|k IH]; intros x t Hx Hk Ht.
  - destruct (in_tree_located x Hx) as (j & m & (Hj & Hm & He) & Hlev & _).
    assert (j = 0) by lia. destruct (leaf_interval x Hx) as [H1 H2]; [rewrite He, node_leaf by lia; now apply Z.eqb_eq|].
    assert (t = x) by lia. subst. constructor.
  - destruct (is_leaf x) eqn:Hl.
    + destruct (leaf_interval x Hx Hl). assert (t = x) by lia. subst. constructor.
    + destruct (children x Hx Hl) as (l & r & El & Er & Tl & Tr & Ll & Lr & L1 & H1 & L2 & H2).
      destruct (Z.lt_trichotomy t x) as [Hlt|[->|Hgt]]; [|constructor|].
      * apply (descends_left x l); [exact El|]. apply IH; [exact Tl|lia|lia].
      * apply (descends_right x r); [exact Er|]. apply IH; [exact Tr|lia|lia].
Qed.

Definition is_child (p x : Z) : Prop := in_tree p /\ is_leaf p = false /\ (left p = Ok x \/ right p n = Ok x).

Lemma is_child_interval p x : is_child p x ->
  in_tree x /\ level x < level p /\
  ((left p = Ok x /\ low x = low p /\ high n x = p - 1) \/ (right p n = Ok x /\ low x = p + 1 /\ high n x = high n p)).
Proof.
  intros (Hp & Hl & Hc). destruct (children p Hp Hl) as (l & r & El & Er & Tl & Tr & Ll & Lr & L1 & H1 & L2 & H2).
  destruct Hc as [Hc|Hc]; [rewrite Hc in El|rewrite Hc in Er]; apply Ok_inj in El || apply Ok_inj in Er; subst; auto 8.
Qed.

Lemma crossed_children p p' : in_tree p -> in_tree p' -> low p = p' + 1 -> high n p' = p - 1 -> False.
Proof.
  intros Hp Hp' Hlow Hhigh.
  destruct (in_tree_located p Hp) as (k & m & (Hk & Hm & He) & Hlev & _).
  destruct (in_tree_located p' Hp') as (k' & m' & (Hk' & Hm' & He') & Hlev' & _).
  unfold low, high, in_tree in *. rewrite node_count_eq in *. rewrite Hlev in Hlow. rewrite Hlev' in Hhigh.
  assert (E : 2 ^ k = 2 ^ k') by lia. apply Z.pow_inj_r in E; [|lia..]. subst k'.
  rewrite node_first in He, He'. assert (0 < 2 ^ k) by (apply Z.pow_pos_nonneg; lia).
  assert (2 ^ k * (2 * (m - m') - 1) = 0) as E0 by lia. apply Z.mul_eq_0 in E0. lia.
Qed.

Lemma parent_unique p p' x : is_child p x -> is_child p' x -> p = p'.
Proof.
  intros H H'. destruct (is_child_interval _ _ H) as (_ & _ & [(_ & A & B)|(_ & A & B)]);
    destruct (is_child_interval _ _ H') as (_ & _ & [(_ & A' & B')|(_ & A' & B')]); try lia.
  - exfalso. apply (crossed_children p p'); [apply H|apply H'|lia..].
  - exfalso. apply (crossed_children p' p); [apply H'|apply H|lia..].
Qed.

Lemma level_nonneg x : in_tree x -> 0 <= level x <= 20.
Proof. intros Hx. destruct (in_tree_located x Hx) as (k & m & (Hk & _) & Hlev & H20). lia. Qed.

Lemma descends_leaf x t : is_leaf x = true -> descends x t -> t = x.
Proof.
  intros Hl Hd. destruct Hd as [x|x l t He _|x r t He _]; [reflexivity| |];
    (unfold left in He || unfold right in He); rewrite Hl in He; discriminate.
Qed.

Lemma find_parent_ok t fuel : forall x, in_tree x -> level x < Z.of_nat fuel ->
  exists o, find_parent fuel x t n (node_count n) = Ok o /\
    match o with Some p => is_child p t | None => descends x t -> t = x end.
Proof.
  induction fuel as [|fuel IH]; intros x Hx Hk; [pose proof (level_nonneg x Hx); lia|].
  cbn [find_parent]. destruct (is_leaf x) eqn:Hl; cbn [orb].
  { exists None. split; [reflexivity|]. now apply descends_leaf. }
  destruct (Z.leb_spec (node_count n) x); [unfold in_tree in Hx; lia|].
  destruct (children x Hx Hl) as (l & r & El & Er & Tl & Tr & Ll & Lr & _). rewrite El, Er. cbn [rbind].
  destruct (Z.eqb_spec l t) as [->|Hlt]; cbn [orb]; [exists (Some x); split; [reflexivity|]; unfold is_child; auto|].
  destruct (Z.eqb_spec r t) as [->|Hrt]; [exists (Some x); split; [reflexivity|]; unfold is_child; auto|].
  destruct (IH l Tl ltac:(lia)) as ([p|] & -> & Hp); cbn [rbind]; [now exists (Some p)|].
  destruct (IH r Tr ltac:(lia)) as ([q|] & -> & Hq); [now exists (Some q)|].
  exists None. split; [reflexivity|]. intros Hd.
  inversion Hd as [|? l' ? He Hd'|? r' ? He Hd']; subst; [reflexivity| |].
  - rewrite He in El. apply Ok_inj in El. subst l'. now rewrite (Hp Hd') in Hlt.
  - rewrite He in Er. apply Ok_inj in Er. subst r'. now rewrite (Hq Hd') in Hrt.
Qed.

Lemma depth_fuel_enough x : in_tree x -> level x < Z.of_nat depth_fuel.
Proof. intros Hx. pose proof (level_nonneg x Hx). change (Z.of_nat depth_fuel) with 21. lia. Qed.

Lemma parent_walk_ok x : exists p, parent_walk x n = Ok p /\ in_tree p /\
  (in_tree x -> root n <> Ok x -> is_child p x).
Proof.
  unfold parent_walk. destruct root_ok as (r & Hr & Tr & L & H). rewrite Hr. cbn [rbind].
  destruct (find_parent_ok x depth_fuel r Tr (depth_fuel_enough r Tr)) as ([p|] & -> & Hp); cbn [rbind].
  - exists p. split; [reflexivity|]. split; [apply Hp|]. auto.
  - exists r. split; [reflexivity|]. split; [exact Tr|]. intros Hx Hxr. exfalso. apply Hxr. f_equal. symmetry.
    apply Hp. pose proof (level_nonneg r Tr).
    apply (interval_descends 20); [exact Tr|lia|]. unfold in_tree in Hx. rewrite node_count_eq in Hx. lia.
Qed.

(** The direct formula of [parent]: the node above in the full tree. *)
Lemma parent_formula k m : 0 <= k < 31 -> 0 <= m -> node k m < u32_max ->
  let b := Z.land (Z.shiftr (node k m) (k + 1)) 1 in
  Z.lxor (Z.lor (node k m) (shl 32 1 k)) (shl 32 b (k + 1)) = node (k + 1) (m / 2).
Proof.
  intros Hk Hm Hu. cbv zeta. rewrite node_shift by lia. rewrite shl_pow2 by lia.
  rewrite lor_clear; [|lia|apply node_bit_level; lia].
  replace (Z.land m 1) with (m mod 2) by (change 1 with (Z.ones 1); rewrite Z.land_ones by lia; reflexivity).
  assert (E : node k m + 2 ^ k = m * 2 ^ (k + 1) + 2 ^ (k + 1) - 1)
    by (rewrite node_first, Z.pow_add_r by lia; change (2 ^ 1) with 2; ring).
  assert (Hp : 0 < 2 ^ (k + 1)) by (apply Z.pow_pos_nonneg; lia).
  rewrite E, node_first. pose proof (Z.div_mod m 2 ltac:(lia)) as D. set (h := m / 2) in *.
  pose proof (Zmod_even m) as Em. destruct (Z.even m) eqn:Ev; rewrite Em in *.
  - unfold shl. rewrite Z.shiftl_0_l. change (wrap 32 0) with 0. rewrite Z.lxor_0_r. rewrite D. ring.
  - rewrite shl_pow2 by lia. rewrite lxor_set; [rewrite D; ring|lia|].
    rewrite Z.testbit_odd, Z.shiftr_div_pow2 by lia.
    replace ((m * 2 ^ (k + 1) + 2 ^ (k + 1) - 1) / 2 ^ (k + 1)) with m;
      [rewrite <- Z.negb_even, Ev; reflexivity|].
    apply Z.div_unique with (r := 2 ^ (k + 1) - 1); [lia|ring].
Qed.

Lemma formula_is_child k m : 0 <= k < 31 -> 0 <= m -> in_tree (node k m) -> in_tree (node (k + 1) (m / 2)) ->
  is_child (node (k + 1) (m / 2)) (node k m).
Proof.
  intros Hk Hm Hx Hp. destruct (in_tree_u32 _ Hx) as [_ Hu]. destruct (in_tree_u32 _ Hp) as [Hpb Hpu].
  assert (Hh : 0 <= m / 2) by (apply Z.div_pos; lia). pose proof (Z.div_mod m 2 ltac:(lia)) as D.
  pose proof (Z.mod_pos_bound m 2 ltac:(lia)) as B. split; [exact Hp|]. rewrite node_leaf by lia.
  split; [apply Z.eqb_neq; lia|].
  destruct (Z.eq_dec (m mod 2) 0) as [E|E].
  - left. rewrite left_node by lia. do 2 f_equal; lia.
  - right. unfold right. rewrite node_leaf by lia.
    rewrite (located_level (node (k + 1) (m / 2)) (k + 1) (m / 2)); [|repeat split; lia|lia].
    destruct (Z.eqb_spec (k + 1) 0); [lia|]. run_res. rewrite right_start by lia.
    replace (node (k + 1 - 1) (2 * (m / 2) + 1)) with (node k m) by (f_equal; lia).
    cbn [right_loop]. destruct (Z.leb_spec (node_count n) (node k m)); [unfold in_tree in Hx; lia|reflexivity].
Qed.

Lemma parent_total x r : 0 <= x < u32_max -> level x < 31 -> root n = Ok r -> x <> r ->
  exists p, parent x n = Ok p /\ in_tree p /\ (in_tree x -> is_child p x).
Proof.
  intros Hx Hk Hr Hne. unfold parent. rewrite Hr. cbn [rbind].
  destruct (Z.eqb_spec x r); [easy|]. destruct (Z.leb_spec 31 (level x)); [lia|]. run_res.
  destruct (level_located x Hx) as (m & Hlk & Hm & He). set (k := level x) in *.
  pose proof (parent_formula k m ltac:(lia) Hm ltac:(lia)) as F. cbv zeta in F. rewrite <- He in F. rewrite F.
  destruct (_ || _) eqn:E.
  - destruct (parent_walk_ok x) as (p & -> & Tp & Hc). exists p. split; [reflexivity|]. split; [exact Tp|].
    intros Tx. apply Hc; [exact Tx|]. rewrite Hr. congruence.
  - apply orb_false_iff in E. destruct E as [_ E]. apply Z.leb_gt in E.
    assert (Tp : in_tree (node (k + 1) (m / 2))).
    { split; [|exact E]. destruct (node_bound (k + 1) (m / 2)); [lia|apply Z.div_pos; lia|lia]. }
    exists (node (k + 1) (m / 2)). split; [reflexivity|]. split; [exact Tp|]. intros Tx.
    rewrite He. apply formula_is_child; try assumption; [lia|]. now rewrite <- He.
Qed.

Lemma parent_ok x r : in_tree x -> root n = Ok r -> x <> r -> exists p, parent x n = Ok p /\ is_child p x.
Proof.
  intros Tx Hr Hne. destruct (in_tree_u32 x Tx) as [Hb Hu]. pose proof (level_nonneg x Tx).
  destruct (parent_total x r) as (p & Hp & _ & Hc); [lia|lia|exact Hr|exact Hne|]. eauto.
Qed.

Lemma below_spec x t : below n x t = true <-> low x <= t <= high n x.
Proof. unfold below. now rewrite andb_true_iff, !Z.leb_le. Qed.

(** [s] is the other child of the parent [p] of [x]. *)
Definition siblings (p x s : Z) : Prop :=
  is_child p x /\ is_child p s /\
  ((low x = low p /\ high n x = p - 1 /\ low s = p + 1 /\ high n s = high n p) \/
   (low s = low p /\ high n s = p - 1 /\ low x = p + 1 /\ high n x = high n p)).

Lemma sibling_ok x r : in_tree x -> root n = Ok r -> x <> r ->
  exists p s, parent x n = Ok p /\ sibling x n = Ok s /\ siblings p x s.
Proof.
  intros Tx Hr Hne. destruct (parent_ok x r Tx Hr Hne) as (p & Hp & Hc). exists p.
  destruct Hc as (Tp & Hl & Hc).
  destruct (children p Tp Hl) as (l & q & El & Er & Tl & Tr & Ll & Lr & L1 & H1 & L2 & H2).
  unfold sibling. rewrite Hp. cbn [rbind]. rewrite El. cbn [rbind].
  assert (Cl : is_child p l) by (unfold is_child; auto). assert (Cq : is_child p q) by (unfold is_child; auto).
  destruct (Z.eqb_spec l x) as [->|Hlx].
  - exists q. split; [reflexivity|]. split; [exact Er|]. split; [exact Cl|]. split; [exact Cq|]. left. auto.
  - exists l. split; [reflexivity|]. split; [reflexivity|].
    assert (q = x) as ->.
    { destruct Hc as [Hc|Hc]; [rewrite Hc in El|rewrite Hc in Er]; apply Ok_inj in El || apply Ok_inj in Er; congruence. }
    split; [exact Cq|]. split; [exact Cl|]. right. auto.
Qed.

(** The way from [x] up to the root, with the siblings it passes. *)
Inductive climbs (r : Z) : Z -> list Z -> list Z -> Prop :=
| climbs_top : climbs r r [] []
| climbs_up x p s path cp : x <> r -> siblings p x s -> climbs r p path cp -> climbs r x (p :: path) (s :: cp).

Lemma path_loop_ok r fuel : root n = Ok r -> forall x, in_tree x -> 20 - level x <= Z.of_nat fuel ->
  exists path cp, path_loop fuel x r n = Ok path /\ copath_loop fuel x r n = Ok cp /\ climbs r x path cp /\
    len path <= 20 - level x.
Proof.
  intros Hr. induction fuel as [|fuel IH]; intros x Tx Hf; cbn [path_loop copath_loop];
    (destruct (Z.eqb_spec x r) as [->|Hne];
      [exists [], []; repeat split; [constructor|rewrite len_nil; pose proof (level_nonneg r Tx); lia]|]);
    destruct (sibling_ok x r Tx Hr Hne) as (p & s & Hp & Hs & Hsib);
    destruct (is_child_interval p x (proj1 Hsib)) as (_ & Hlev & _);
    pose proof (level_nonneg p (proj1 (proj1 Hsib))) as Hlp; [lia|].
  destruct (IH p (proj1 (proj1 Hsib)) ltac:(lia)) as (path & cp & E1 & E2 & Hc & Hlen).
  rewrite Hs, Hp. cbn [rbind]. rewrite E1, E2. exists (p :: path), (s :: cp). rewrite len_cons.
  repeat split; [now apply climbs_up|lia].
Qed.

(** How many nodes of [l] stand over the node [t]. *)
Definition covers (l : list Z) (t : Z) : Z := len (filter (fun c => below n c t) l).

Definition one_if (b : bool) : Z := if b then 1 else 0.

Lemma covers_cons c l t : covers (c :: l) t = one_if (below n c t) + covers l t.
Proof. unfold covers. cbn [filter]. destruct (below n c t); rewrite ?len_cons; cbn [one_if]; lia. Qed.

Lemma siblings_split p x s t : siblings p x s ->
  one_if (below n p t) = one_if (below n x t) + one_if (p =? t) + one_if (below n s t).
Proof.
  intros (Hx & Hs & H). pose proof (interval_self p (proj1 Hx)) as Hp.
  unfold below. destruct H as [(-> & -> & -> & ->)|(-> & -> & -> & ->)];
    destruct (Z.leb_spec (low p) t), (Z.leb_spec t (high n p)), (Z.leb_spec t (p - 1)),
      (Z.leb_spec (p + 1) t), (Z.eqb_spec p t); cbn [andb one_if]; lia.
Qed.

(** Below the root every node is passed exactly once: it is below the start, on
    the path, or below one of the siblings. *)
Lemma climbs_partition r x path cp t : root n = Ok r -> climbs r x path cp -> in_tree t ->
  one_if (below n x t) + len (filter (fun p => p =? t) path) + covers cp t = 1.
Proof.
  intros Hr Hc Ht. induction Hc as [|x p s path cp Hne Hs Hc IH].
  - destruct root_ok as (r' & Hr' & _ & L & H). rewrite Hr in Hr'. apply Ok_inj in Hr'. subst r'.
    assert (Hb : below n r t = true).
    { apply below_spec. unfold in_tree in Ht. rewrite node_count_eq in Ht. lia. }
    rewrite Hb. reflexivity.
  - rewrite (siblings_split p x s t Hs) in IH. rewrite covers_cons. cbn [filter].
    destruct (p =? t); rewrite ?len_cons; cbn [one_if] in *; lia.
Qed.

Lemma path_inner r x path cp : climbs r x path cp -> Forall (fun p => in_tree p /\ is_leaf p = false) path.
Proof. induction 1 as [|x p s path cp Hne Hs Hc IH]; constructor; [|exact IH]. destruct Hs as ((Tp & Lp & _) & _). auto. Qed.

Lemma climbs_lengths r x path cp : climbs r x path cp -> len path = len cp.
Proof. induction 1; rewrite ?len_cons; lia. Qed.

Lemma climbs_last r x path cp d : climbs r x path cp -> last (x :: path) d = r.
Proof. induction 1 as [|x p s path cp Hne Hs Hc IH]; [reflexivity|exact IH]. Qed.

Lemma leaf_in_tree i : 0 <= i < n -> checked_leaf_to_node i = Ok (2 * i) /\ in_tree (2 * i).
Proof.
  intros Hi. pose proof max_leaves_eq. unfold checked_leaf_to_node, checked_mul, in_tree. rewrite node_count_eq.
  rewrite (Z.mul_comm i 2). destruct (Z.ltb_spec (2 * i) (2 ^ 32)); [split; [reflexivity|lia]|].
  change (2 ^ 32) with 4294967296 in *. lia.
Qed.

Lemma leaf_paths i : 0 <= i < n ->
  exists r path cp, root n = Ok r /\ direct_path i n = Ok path /\ copath i n = Ok cp /\ climbs r (2 * i) path cp /\ len path <= 20.
Proof.
  intros Hi. destruct root_ok as (r & Hr & _). destruct (leaf_in_tree i Hi) as [Hc Ht].
  destruct (path_loop_ok r path_fuel Hr (2 * i) Ht) as (path & cp & E1 & E2 & Hcl & Hl).
  { pose proof (level_nonneg _ Ht). change (Z.of_nat path_fuel) with 33. lia. }
  exists r, path, cp. unfold direct_path, copath. rewrite Hr, Hc. cbn [rbind].
  pose proof (level_nonneg _ Ht). repeat split; try assumption. lia.
Qed.

Lemma is_leaf_double i : is_leaf (2 * i) = true.
Proof. rewrite is_leaf_even, Z.even_mul. reflexivity. Qed.

Lemma copath_covers r i path cp j : root n = Ok r -> climbs r (2 * i) path cp -> 0 <= i < n -> 0 <= j < n ->
  covers cp (2 * j) = if j =? i then 0 else 1.
Proof.
  intros Hr Hc Hi Hj. destruct (leaf_in_tree i Hi) as [_ Ti]. destruct (leaf_in_tree j Hj) as [_ Tj].
  pose proof (climbs_partition r _ _ _ (2 * j) Hr Hc Tj) as Hp.
  assert (filter (fun p => p =? 2 * j) path = []) as E.
  { pose proof (path_inner _ _ _ _ Hc) as Hin. induction Hin as [|p path [_ Hl] Hin IH]; [reflexivity|]. cbn [filter].
    destruct (Z.eqb_spec p (2 * j)) as [->|]; [now rewrite is_leaf_double in Hl|].
    clear -Hin. induction Hin as [|p' path [_ Hl] Hin IH]; [reflexivity|]. cbn [filter].
    destruct (Z.eqb_spec p' (2 * j)) as [->|]; [now rewrite is_leaf_double in Hl|exact IH]. }
  rewrite E, len_nil in Hp. destruct (leaf_interval (2 * i) Ti (is_leaf_double i)) as [L H].
  unfold below in Hp. rewrite L, H in Hp.
  destruct (Z.eqb_spec j i) as [->|Hne].
  - rewrite !(proj2 (Z.leb_le _ _)) in Hp by lia. cbn [andb one_if] in Hp. lia.
  - destruct (Z.leb_spec (2 * i) (2 * j)), (Z.leb_spec (2 * j) (2 * i)); cbn [andb one_if] in Hp; lia.
Qed.

End Tree.

(** C28. In a tree of at most 2^20 leaves the co-path of a leaf shares out all the
    others: the two walks return paths of one length, at most twenty, and every
    other leaf of the tree is below exactly one node of the co-path, the leaf
    itself below none. *)
Theorem copath_partitions_leaves n i (Hn : 0 < n <= max_leaves) (Hi : 0 <= i < n) :
  exists path cp, direct_path i n = Ok path /\ copath i n = Ok cp /\ len path = len cp /\ len path <= 20 /\
    forall j, 0 <= j < n -> covers n cp (2 * j) = if j =? i then 0 else 1.
Proof.
  destruct (leaf_paths n Hn i Hi) as (r & path & cp & Hr & H1 & H2 & Hc & Hl). exists path, cp.
  repeat split; try assumption; [now apply (climbs_lengths n r (2 * i))|].
  intros j Hj. now apply (copath_covers n Hn r i path cp j).
Qed.

Lemma copath_partitions_leaves_witness : 0 < 6 <= max_leaves /\ 0 <= 4 < 6 /\
  exists path cp, direct_path 4 6 = Ok path /\ copath 4 6 = Ok cp /\ len path = len cp /\ len path <= 20 /\
    forall j, 0 <= j < 6 -> covers 6 cp (2 * j) = if j =? 4 then 0 else 1.
Proof.
  assert (0 < 6 <= max_leaves) by (unfold max_leaves; vm_compute; split; congruence).
  repeat split; try lia; try apply H. apply (copath_partitions_leaves 6 4 H). lia.
Defined.


