(* ===== verification/GroupProto.v ===== *)
(** * Messages of the group protocol ([proto/protocol/group.proto])

    The messages of the file as records with the fields of the generated structs
    in their order; a [oneof] is an option of an inductive type.  Enumerations
    are the integers prost keeps them as. *)

From Stdlib Require Import ZArith List Bool String.
From S2P Require Import Prelude Proto.
Import ListNotations.
Open Scope Z_scope.

(** A member's keys and credential, signed. *)
Module GroupKeyPackage.

Record t : Type := mk {
  version : Z;
  identity_ed25519_public : bytes;
  identity_x25519_public : bytes;
  leaf_x25519_public : bytes;
  leaf_kyber_public : bytes;
  signature : bytes;
  credential : bytes;
  created_at : option Timestamp.t;
  identity_kyber_public : bytes }.

End GroupKeyPackage.

(** A node of the ratchet tree as sent or persisted. *)
Module GroupTreeNode.

Record t : Type := mk {
  node_index : Z;
  x25519_public : bytes;
  kyber_public : bytes;
  x25519_private : bytes;
  kyber_secret : bytes;
  parent_hash : bytes;
  key_package : option GroupKeyPackage.t }.

End GroupTreeNode.

(** The key exchange of an external join. *)
Module GroupExternalInitProposal.

Record t : Type := mk {
  ephemeral_x25519_public : bytes;
  kyber_ciphertext : bytes;
  authorization : bytes }.

End GroupExternalInitProposal.

(** A member's permission for an external join. *)
Module GroupExternalJoinAuthorization.

Record t : Type := mk {
  group_id : bytes;
  epoch : Z;
  joiner_identity_ed25519_public : bytes;
  joiner_identity_x25519_public : bytes;
  joiner_credential : bytes;
  authorizer_leaf_index : Z;
  authorizer_signature : bytes;
  group_context_hash : bytes;
  external_x25519_public : bytes;
  external_kyber_public : bytes;
  issued_at_unix : Z;
  expires_at_unix : Z;
  auth_format_version : Z }.

Definition set_authorizer_signature (v : bytes) (s : t) : t :=
  mk (group_id s) (epoch s) (joiner_identity_ed25519_public s) (joiner_identity_x25519_public s)
    (joiner_credential s) (authorizer_leaf_index s) v (group_context_hash s)
    (external_x25519_public s) (external_kyber_public s) (issued_at_unix s) (expires_at_unix s)
    (auth_format_version s).

End GroupExternalJoinAuthorization.

(** A pre-shared key to mix in. *)
Module GroupPskProposal.

Record t : Type := mk {
  psk_id : bytes;
  psk_nonce : bytes }.

End GroupPskProposal.

(** The move to a new group. *)
Module GroupReInitProposal.

Record t : Type := mk {
  new_group_id : bytes;
  new_version : Z }.

End GroupReInitProposal.

(** A member to add. *)
Module GroupAddProposal.

Record t : Type := mk {
  key_package : option GroupKeyPackage.t }.

End GroupAddProposal.

(** A member to remove. *)
Module GroupRemoveProposal.

Record t : Type := mk {
  removed_leaf_index : Z }.

End GroupRemoveProposal.

(** New leaf keys. *)
Module GroupUpdateProposal.

Record t : Type := mk {
  leaf_x25519_public : bytes;
  leaf_kyber_public : bytes }.

End GroupUpdateProposal.

(** A proposal of a commit. *)
Module GroupProposal.

Inductive Proposal : Type :=
| Add (add : GroupAddProposal.t)
| Remove (remove : GroupRemoveProposal.t)
| Update (update : GroupUpdateProposal.t)
| ExternalInit (external_init : GroupExternalInitProposal.t)
| Psk (psk : GroupPskProposal.t)
| ReInit (re_init : GroupReInitProposal.t).

Record t : Type := mk { proposal : option Proposal }.

End GroupProposal.

(** A path secret encrypted to a node. *)
Module GroupHybridCiphertext.

Record t : Type := mk {
  ephemeral_x25519_public : bytes;
  kyber_ciphertext : bytes;
  encrypted_secret : bytes;
  nonce : bytes }.

End GroupHybridCiphertext.

(** A new node of the committer's path. *)
Module GroupUpdatePathNode.

Record t : Type := mk {
  x25519_public : bytes;
  kyber_public : bytes;
  encrypted_path_secrets : list GroupHybridCiphertext.t;
  parent_hash : bytes }.

Definition set_parent_hash (v : bytes) (s : t) : t :=
  mk (x25519_public s) (kyber_public s) (encrypted_path_secrets s) v.

End GroupUpdatePathNode.

(** The committer's new path. *)
Module GroupUpdatePath.

Record t : Type := mk {
  leaf_x25519_public : bytes;
  leaf_kyber_public : bytes;
  nodes : list GroupUpdatePathNode.t;
  leaf_signature : bytes }.

Definition set_leaf_signature (v : bytes) (s : t) : t :=
  mk (leaf_x25519_public s) (leaf_kyber_public s) (nodes s) v.

End GroupUpdatePath.

(** The step to the next epoch. *)
Module GroupCommit.

Record t : Type := mk {
  committer_leaf_index : Z;
  proposals : list GroupProposal.t;
  update_path : option GroupUpdatePath.t;
  confirmation_mac : bytes;
  epoch : Z;
  group_id : bytes;
  committer_signature : bytes }.

Definition set_committer_signature (v : bytes) (s : t) : t :=
  mk (committer_leaf_index s) (proposals s) (update_path s) (confirmation_mac s) (epoch s)
    (group_id s) v.

End GroupCommit.

(** What a new member receives. *)
Module GroupWelcome.

Record t : Type := mk {
  version : Z;
  group_id : bytes;
  epoch : Z;
  encrypted_group_info : bytes;
  welcome_nonce : bytes;
  encrypted_joiner_secret : option GroupHybridCiphertext.t;
  tree_hash : bytes;
  target_leaf_index : Z;
  committer_leaf_index : Z;
  committer_signature : bytes }.

Definition set_committer_signature (v : bytes) (s : t) : t :=
  mk (version s) (group_id s) (epoch s) (encrypted_group_info s) (welcome_nonce s)
    (encrypted_joiner_secret s) (tree_hash s) (target_leaf_index s) (committer_leaf_index s) v.

End GroupWelcome.

(** The group as a new member sees it. *)
Module GroupInfo.

Record t : Type := mk {
  group_id : bytes;
  epoch : Z;
  tree_nodes : list GroupTreeNode.t;
  group_context_hash : bytes;
  confirmation_mac : bytes;
  security_policy : bytes }.

End GroupInfo.

(** An encrypted message of the group. *)
Module GroupApplicationMessage.

Record t : Type := mk {
  encrypted_sender_data : bytes;
  sender_data_nonce : bytes;
  encrypted_payload : bytes;
  payload_nonce : bytes;
  franking_tag : bytes;
  sender_signature : bytes }.

Definition set_sender_signature (v : bytes) (s : t) : t :=
  mk (encrypted_sender_data s) (sender_data_nonce s) (encrypted_payload s) (payload_nonce s) (franking_tag s) v.

End GroupApplicationMessage.

(** A message of the group with its envelope. *)
Module GroupMessage.

Inductive Content : Type :=
| Application (application : GroupApplicationMessage.t)
| Commit (commit : GroupCommit.t)
| Welcome (welcome : GroupWelcome.t).

Record t : Type := mk {
  version : Z;
  group_id : bytes;
  epoch : Z;
  content : option Content }.

End GroupMessage.

(** The group as an external joiner sees it. *)
Module GroupPublicState.

Record t : Type := mk {
  version : Z;
  group_id : bytes;
  epoch : Z;
  tree_nodes : list GroupTreeNode.t;
  group_context_hash : bytes;
  confirmation_mac : bytes;
  external_x25519_public : bytes;
  external_kyber_public : bytes;
  security_policy : bytes }.

End GroupPublicState.

(** Who sent a message. *)
Module GroupSenderData.

Record t : Type := mk {
  sender_leaf_index : Z;
  generation : Z;
  reuse_guard : bytes }.

End GroupSenderData.

(** The kind of a message and its lifetime. *)
Module GroupMessagePolicy.

Record t : Type := mk {
  content_type : Z;
  ttl_seconds : Z;
  sent_timestamp : Z }.

End GroupMessagePolicy.

(** A mention of a member. *)
Module GroupMention.

Record t : Type := mk {
  leaf_index : Z;
  offset : Z;
  length : Z }.

End GroupMention.

(** What a message answers. *)
Module GroupReplyContext.

Record t : Type := mk {
  reply_to_message_id : bytes;
  thread_root_id : option bytes;
  depth : option Z }.

End GroupReplyContext.

(** The content of a message. *)
Module GroupPlaintext.

Record t : Type := mk {
  content : bytes;
  policy : option GroupMessagePolicy.t;
  franking_key : bytes;
  sealed_content : bytes;
  sealed_nonce : bytes;
  prev_message_hash : bytes;
  referenced_message_id : bytes;
  mentions : list GroupMention.t;
  reply_context : option GroupReplyContext.t }.

Definition set_prev_message_hash (v : bytes) (s : t) : t :=
  mk (content s) (policy s) (franking_key s) (sealed_content s) (sealed_nonce s) v (referenced_message_id s)
    (mentions s) (reply_context s).

End GroupPlaintext.

(** A sender chain as persisted. *)
Module GroupMemberSenderChain.

Record t : Type := mk {
  leaf_index : Z;
  chain_key : bytes;
  generation : Z }.

End GroupMemberSenderChain.

(** The group as persisted. *)
Module GroupProtocolState.

Record t : Type := mk {
  version : Z;
  group_id : bytes;
  epoch : Z;
  my_leaf_index : Z;
  tree_nodes : list GroupTreeNode.t;
  epoch_secret : bytes;
  init_secret : bytes;
  metadata_key : bytes;
  confirmation_key : bytes;
  welcome_key : bytes;
  sender_chains : list GroupMemberSenderChain.t;
  my_identity_ed25519_public : bytes;
  my_identity_x25519_public : bytes;
  group_context_hash : bytes;
  seen_message_ids : list bytes;
  state_hmac : bytes;
  state_counter : Z;
  nonce_counter : Z;
  created_at : option Timestamp.t;
  security_policy : bytes;
  member_roles : (list (Z * Z)) }.

Definition set_state_hmac (v : bytes) (s : t) : t :=
  mk (version s) (group_id s) (epoch s) (my_leaf_index s) (tree_nodes s) (epoch_secret s)
    (init_secret s) (metadata_key s) (confirmation_key s) (welcome_key s) (sender_chains s)
    (my_identity_ed25519_public s) (my_identity_x25519_public s) (group_context_hash s)
    (seen_message_ids s) v (state_counter s) (nonce_counter s) (created_at s) (security_policy s)
    (member_roles s).

End GroupProtocolState.

(** The persisted group, encrypted. *)
Module SealedGroupState.

Record t : Type := mk {
  version : Z;
  dek_nonce : bytes;
  state_nonce : bytes;
  encrypted_dek : bytes;
  encrypted_state : bytes;
  external_counter : Z }.

End SealedGroupState.

(** A reaction to a message. *)
Module GroupReaction.

Record t : Type := mk {
  message_id : bytes;
  emoji : string;
  remove : bool }.

End GroupReaction.

(** Messages that were read. *)
Module GroupReadReceipt.

Record t : Type := mk {
  message_ids : list bytes;
  timestamp : Z }.

End GroupReadReceipt.

(** Whether a member is typing. *)
Module GroupTypingIndicator.

Record t : Type := mk {
  is_typing : bool }.

End GroupTypingIndicator.

(** The security policy of a group. *)
Module GroupSecurityPolicyProto.

Record t : Type := mk {
  max_messages_per_epoch : Z;
  max_skipped_keys_per_sender : Z;
  block_external_join : bool;
  enhanced_key_schedule : bool;
  mandatory_franking : bool }.

End GroupSecurityPolicyProto.

