(* ===== verification/KeySchedule.v ===== *)
(** * Key schedule of a group epoch ([src/protocol/group/key_schedule.rs])

    From the init secret of an epoch and the commit secret of a commit to the
    keys of the next epoch, the sender key bases, the external join key pairs,
    pre-shared key injection and the confirmation tag. *)

From Stdlib Require Import ZArith List Bool Lia String.
From S2P Require Import Prelude Constants SecureMemory Crypto.
Import ListNotations.
Open Scope string_scope.
Open Scope list_scope.
Open Scope Z_scope.

Module EpochKeys.
Record t : Type := mk {
  epoch_secret : bytes;
  metadata_key : bytes;
  welcome_key : bytes;
  confirmation_key : bytes;
  init_secret : bytes }.
End EpochKeys.
Abbreviation EpochKeys := EpochKeys.t.

Section GroupKeySchedule.
Context {P : Primitives}.

Definition derive_sub_key (epoch_secret info : bytes) (n : Z) (enhanced : bool) : PResult bytes :=
  if enhanced then
    let pass1_info := info ++ GROUP_ENHANCED_KDF_PASS1 in
    let? intermediate := expand epoch_secret pass1_info n in
    let pass2_info := info ++ GROUP_ENHANCED_KDF_PASS2 in
    expand intermediate pass2_info n
  else expand epoch_secret info n.

Definition derive_sub_keys_from_epoch_secret_ex (epoch_secret : bytes) (enhanced : bool) : PResult EpochKeys :=
  let? metadata_key := derive_sub_key epoch_secret GROUP_METADATA_KEY_INFO METADATA_KEY_BYTES enhanced in
  let? welcome_key := derive_sub_key epoch_secret GROUP_WELCOME_KEY_INFO WELCOME_KEY_BYTES enhanced in
  let? confirmation_key := derive_sub_key epoch_secret GROUP_CONFIRM_KEY_INFO CONFIRMATION_KEY_BYTES enhanced in
  let? init_secret := derive_sub_key epoch_secret GROUP_INIT_SECRET_INFO INIT_SECRET_BYTES enhanced in
  Ok (EpochKeys.mk epoch_secret metadata_key welcome_key confirmation_key init_secret).

Definition derive_sub_keys_from_epoch_secret (epoch_secret : bytes) : PResult EpochKeys :=
  derive_sub_keys_from_epoch_secret_ex epoch_secret true.

Definition derive_epoch_keys (prev_init_secret commit_secret group_context_hash : bytes) (enhanced : bool) :
    PResult EpochKeys :=
  let joiner_secret := extract prev_init_secret commit_secret in
  let epoch_info := GROUP_EPOCH_SECRET_INFO ++ group_context_hash in
  let? epoch_secret := expand joiner_secret epoch_info EPOCH_SECRET_BYTES in
  derive_sub_keys_from_epoch_secret_ex epoch_secret enhanced.

Definition derive_joiner_secret (prev_init_secret commit_secret : bytes) : bytes :=
  extract prev_init_secret commit_secret.

Definition derive_sender_key_base (epoch_secret : bytes) (leaf_index : Z) (group_context_hash : bytes) :
    PResult bytes :=
  let info := GROUP_SENDER_KEY_INFO ++ to_le_bytes 4 leaf_index ++ group_context_hash in
  expand epoch_secret info SENDER_KEY_BASE_BYTES.

(** The hashed context: every variable-length field is length-prefixed. *)
Definition group_context (group_id : bytes) (epoch : Z) (tree_hash policy_bytes : bytes) : bytes :=
  len_prefixed group_id ++ to_le_bytes 8 epoch ++ len_prefixed tree_hash ++ len_prefixed policy_bytes.

Definition compute_group_context_hash (group_id : bytes) (epoch : Z) (tree_hash policy_bytes : bytes) : bytes :=
  sha256 (group_context group_id epoch tree_hash policy_bytes).

Definition derive_external_keypairs (init_secret : bytes) :
    PResult (SecureMemoryHandle.t * bytes * SecureMemoryHandle.t * bytes) :=
  let? x25519_seed := expand init_secret GROUP_EXTERNAL_PUB_X25519_INFO X25519_PRIVATE_KEY_BYTES in
  let x25519_seed := clamp x25519_seed in
  check? len x25519_seed =? X25519_PRIVATE_KEY_BYTES
    else ProtocolError.group_protocol "External X25519 seed has wrong length" in
  let x25519_public := x25519_public x25519_seed in
  let? x25519_handle := crypto_err (SecureMemoryHandle.alloc_write X25519_PRIVATE_KEY_BYTES x25519_seed) in
  let? kyber_seed := expand init_secret GROUP_EXTERNAL_PUB_KYBER_INFO KYBER_SEED_KEY_BYTES in
  let? (kyber_secret, kyber_public) := crypto_err (kyber_generate_keypair_from_seed kyber_seed) in
  Ok (x25519_handle, x25519_public, kyber_secret, kyber_public).

Definition inject_psk (epoch_secret psk psk_nonce : bytes) : PResult bytes :=
  let psk_input := extract psk_nonce psk in
  let extracted := extract epoch_secret psk_input in
  let? intermediate := expand extracted GROUP_PSK_EXTRACT_INFO EPOCH_SECRET_BYTES in
  expand intermediate GROUP_PSK_SECRET_INFO EPOCH_SECRET_BYTES.

(** HMAC accepts keys of any length. *)
Definition compute_confirmation_mac (confirmation_key group_context_hash : bytes) : PResult bytes :=
  Ok (hmac_sha256 confirmation_key group_context_hash).

End GroupKeySchedule.

(** ** Success on well-sized input, and the encoding of the context *)

Section Facts.
Context {P : Primitives} {L : PrimitiveLaws P}.

Definition sized (k : EpochKeys) : Prop :=
  len (EpochKeys.epoch_secret k) = EPOCH_SECRET_BYTES /\ len (EpochKeys.metadata_key k) = METADATA_KEY_BYTES /\
  len (EpochKeys.welcome_key k) = WELCOME_KEY_BYTES /\ len (EpochKeys.confirmation_key k) = CONFIRMATION_KEY_BYTES /\
  len (EpochKeys.init_secret k) = INIT_SECRET_BYTES.

Lemma expand_small prk info n : len prk = 32 -> 0 < n <= 64 ->
  expand prk info n = Ok (hkdf_expand prk info n) /\ len (hkdf_expand prk info n) = n.
Proof. intros Hp Hn. split; [apply expand_ok; [exact Hp|vm_compute (HKDF_MAX_OUTPUT_BYTES); lia]|apply hkdf_expand_len; lia]. Qed.

Lemma derive_sub_key_ok s info b : len s = 32 -> exists k, derive_sub_key s info 32 b = Ok k /\ len k = 32.
Proof.
  intros Hs. unfold derive_sub_key. destruct b.
  - destruct (expand_small s (info ++ GROUP_ENHANCED_KDF_PASS1) 32 Hs) as [-> H1]; [lia|]. cbn [rbind].
    destruct (expand_small _ (info ++ GROUP_ENHANCED_KDF_PASS2) 32 H1) as [-> H2]; [lia|]. eauto.
  - destruct (expand_small s info 32 Hs) as [-> H1]; [lia|]. eauto.
Qed.

Lemma sub_keys_ok s b : len s = 32 -> exists k, derive_sub_keys_from_epoch_secret_ex s b = Ok k /\ sized k /\
  EpochKeys.epoch_secret k = s.
Proof.
  intros Hs. unfold derive_sub_keys_from_epoch_secret_ex.
  unfold METADATA_KEY_BYTES, WELCOME_KEY_BYTES, CONFIRMATION_KEY_BYTES, INIT_SECRET_BYTES.
  destruct (derive_sub_key_ok s GROUP_METADATA_KEY_INFO b Hs) as (k1 & -> & H1).
  destruct (derive_sub_key_ok s GROUP_WELCOME_KEY_INFO b Hs) as (k2 & -> & H2).
  destruct (derive_sub_key_ok s GROUP_CONFIRM_KEY_INFO b Hs) as (k3 & -> & H3).
  destruct (derive_sub_key_ok s GROUP_INIT_SECRET_INFO b Hs) as (k4 & -> & H4).
  cbn [rbind]. eexists. split; [reflexivity|]. split; [|reflexivity]. repeat split; assumption.
Qed.

Lemma derive_epoch_keys_ok i c h b : exists k, derive_epoch_keys i c h b = Ok k /\ sized k.
Proof.
  unfold derive_epoch_keys, EPOCH_SECRET_BYTES.
  destruct (expand_small (extract i c) (GROUP_EPOCH_SECRET_INFO ++ h) 32 (extract_len i c)) as [-> H1]; [lia|].
  cbn [rbind]. destruct (sub_keys_ok _ b H1) as (k & Hk & Hs & _). eauto.
Qed.

Lemma inject_psk_ok s psk nonce : exists k, inject_psk s psk nonce = Ok k /\ len k = 32.
Proof.
  unfold inject_psk, EPOCH_SECRET_BYTES.
  destruct (expand_small (extract s (extract nonce psk)) GROUP_PSK_EXTRACT_INFO 32 (extract_len _ _)) as [-> H1]; [lia|].
  cbn [rbind]. destruct (expand_small _ GROUP_PSK_SECRET_INFO 32 H1) as [-> H2]; [lia|]. eauto.
Qed.

Lemma sender_key_base_ok s i h : len s = 32 -> exists k, derive_sender_key_base s i h = Ok k /\ len k = 32.
Proof.
  intros Hs. unfold derive_sender_key_base, SENDER_KEY_BASE_BYTES.
  destruct (expand_small s (GROUP_SENDER_KEY_INFO ++ to_le_bytes 4 i ++ h) 32 Hs) as [-> H]; [lia|]. eauto.
Qed.

(** Two group contexts with the same bytes are the same context. *)
Lemma group_context_inj g1 e1 t1 p1 g2 e2 t2 p2 :
  Forall (fun b => len b < 2 ^ 32) [g1; t1; p1; g2; t2; p2] -> is_u64 e1 -> is_u64 e2 ->
  group_context g1 e1 t1 p1 = group_context g2 e2 t2 p2 -> g1 = g2 /\ e1 = e2 /\ t1 = t2 /\ p1 = p2.
Proof.
  intros Hl He1 He2 H. unfold group_context in H. repeat (apply Forall_cons_iff in Hl; destruct Hl as [? Hl]).
  apply len_prefixed_inj in H; [|assumption..]. destruct H as [-> H].
  apply app_inj_len in H; [|now rewrite !len_to_le_bytes]. destruct H as [He H].
  apply to_le_bytes_inj in He; [|assumption..].
  apply len_prefixed_inj in H; [|assumption..]. destruct H as [-> H].
  rewrite <- (app_nil_r (len_prefixed p1)), <- (app_nil_r (len_prefixed p2)) in H.
  apply len_prefixed_inj in H; [|assumption..]. now destruct H as [-> _].
Qed.

End Facts.
