(* ===== verification/SenderKeys.v ===== *)
(** * Sender keys ([src/protocol/group/sender_key.rs])

    Every member of an epoch has a chain of message keys, derived from the epoch
    secret; a member keeps the chains of all of them and the keys of messages
    that have not arrived yet.  Operations on [&mut self] are state and error
    computations, since a failure in the middle of a walk leaves the chain where
    it got to. *)

From Stdlib Require Import ZArith List Bool Lia String.
From S2P Require Import Prelude Constants BTree Crypto KeySchedule.
Import ListNotations.
Open Scope string_scope.
Open Scope list_scope.
Open Scope Z_scope.

Module SenderKeyChain.
Record t : Type := mk {
  leaf_index : Z;
  chain_key : bytes;
  generation : Z;
  enhanced : bool;
  max_generation : Z;
  max_skipped_per_sender : Z }.

Definition set_progress (k : bytes) (g : Z) (s : t) : t :=
  mk (leaf_index s) k g (enhanced s) (max_generation s) (max_skipped_per_sender s).
End SenderKeyChain.
Abbreviation SenderKeyChain := SenderKeyChain.t.

Module SenderKeyStore.
Record t : Type := mk {
  chains : list (Z * SenderKeyChain);
  skipped_keys : BTreeMap.t (Z * Z) bytes;
  max_skipped_per_sender : Z;
  max_skipped_total : Z }.

Definition set_chains (v : list (Z * SenderKeyChain)) (s : t) : t :=
  mk v (skipped_keys s) (max_skipped_per_sender s) (max_skipped_total s).
Definition set_skipped_keys (v : BTreeMap.t (Z * Z) bytes) (s : t) : t :=
  mk (chains s) v (max_skipped_per_sender s) (max_skipped_total s).
End SenderKeyStore.
Abbreviation SenderKeyStore := SenderKeyStore.t.

Section SenderKeys.
Context {P : Primitives}.

(** ** [SenderKeyChain] *)

Abbreviation ChainM A := (Stm ProtocolError.t SenderKeyChain A).

Definition new_with_policy (leaf_index : Z) (sender_key_base : bytes) (enhanced : bool)
    (max_generation max_skipped_per_sender : Z) : PResult SenderKeyChain :=
  check? len sender_key_base =? SENDER_KEY_BASE_BYTES
    else ProtocolError.invalid_input "Invalid sender key base size" in
  Ok (SenderKeyChain.mk leaf_index sender_key_base 0 enhanced max_generation max_skipped_per_sender).

Definition SenderKeyChain_new (leaf_index : Z) (sender_key_base : bytes) : PResult SenderKeyChain :=
  new_with_policy leaf_index sender_key_base false MAX_SENDER_KEY_GENERATION MAX_SKIPPED_SENDER_KEYS_PER_SENDER.

Definition from_state_with_policy (leaf_index : Z) (chain_key : bytes) (generation : Z) (enhanced : bool)
    (max_generation max_skipped_per_sender : Z) : PResult SenderKeyChain :=
  check? len chain_key =? CHAIN_KEY_BYTES else ProtocolError.invalid_input "Invalid chain key size" in
  Ok (SenderKeyChain.mk leaf_index chain_key generation enhanced max_generation max_skipped_per_sender).

Definition SenderKeyChain_from_state (leaf_index : Z) (chain_key : bytes) (generation : Z) : PResult SenderKeyChain :=
  from_state_with_policy leaf_index chain_key generation false MAX_SENDER_KEY_GENERATION
    MAX_SKIPPED_SENDER_KEYS_PER_SENDER.

Definition next_message_key : ChainM (Z * bytes) :=
  do s <- sget (fun s => s);
  do! sguard (SenderKeyChain.generation s <? SenderKeyChain.max_generation s)
        (ProtocolError.group_protocol "Sender key chain exhausted — trigger epoch update");
  let gen := SenderKeyChain.generation s in
  do message_key <- slift (expand (SenderKeyChain.chain_key s) GROUP_MSG_INFO MESSAGE_KEY_BYTES);
  do next_chain <- slift (expand (SenderKeyChain.chain_key s) GROUP_CHAIN_INFO CHAIN_KEY_BYTES);
  do next_chain <- slift (if SenderKeyChain.enhanced s
                          then keyed_hash GROUP_BLAKE2B_CHAIN_PERSONALIZATION next_chain else Ok next_chain);
  do! smod (SenderKeyChain.set_progress next_chain (gen + 1));
  sret (gen, message_key).

(** [while self.generation < target_generation]: every turn adds one to the
    generation, so the difference is the number of turns. *)
Fixpoint advance_loop (fuel : nat) (target_generation : Z) : ChainM (list (Z * bytes)) :=
  do g <- sget SenderKeyChain.generation;
  if g <? target_generation then
    match fuel with
    | O => sret []
    | S fuel =>
        do p <- next_message_key;
        do skipped <- advance_loop fuel target_generation;
        sret (p :: skipped)
    end
  else sret [].

Definition advance_to (target_generation : Z) : ChainM (bytes * list (Z * bytes)) :=
  do s <- sget (fun s => s);
  do! sguard (negb (target_generation <? SenderKeyChain.generation s))
        (ProtocolError.replay_attack "Sender key generation {} already consumed (current: {})");
  do! sguard (negb (SenderKeyChain.max_generation s <=? target_generation))
        (ProtocolError.group_protocol "Target generation exceeds maximum");
  let skip_count := target_generation - SenderKeyChain.generation s in
  do! sguard (skip_count <=? SenderKeyChain.max_skipped_per_sender s)
        (ProtocolError.group_protocol "Too many skipped generations: {skip_count} (max {})");
  do skipped <- advance_loop (Z.to_nat skip_count) target_generation;
  do (_, message_key) <- next_message_key;
  sret (message_key, skipped).

(** ** [SenderKeyStore] *)

Abbreviation StoreM A := (Stm ProtocolError.t SenderKeyStore A).

Definition new_epoch_with_policy (epoch_secret : bytes) (leaf_indices : list Z) (group_context_hash : bytes)
    (enhanced : bool) (max_generation max_skipped_per_sender : Z) : PResult SenderKeyStore :=
  let? chains := mapR (fun leaf_idx =>
    let? base := derive_sender_key_base epoch_secret leaf_idx group_context_hash in
    let? chain := new_with_policy leaf_idx base enhanced max_generation max_skipped_per_sender in
    Ok (leaf_idx, chain)) leaf_indices in
  Ok (SenderKeyStore.mk chains BTreeMap.empty max_skipped_per_sender MAX_SKIPPED_SENDER_KEYS).

Definition new_epoch (epoch_secret : bytes) (leaf_indices : list Z) (group_context_hash : bytes) :
    PResult SenderKeyStore :=
  new_epoch_with_policy epoch_secret leaf_indices group_context_hash false MAX_SENDER_KEY_GENERATION
    MAX_SKIPPED_SENDER_KEYS_PER_SENDER.

Definition from_chains (chains : BTreeMap.t Z SenderKeyChain) (max_skipped_per_sender : Z) : SenderKeyStore :=
  SenderKeyStore.mk chains BTreeMap.empty max_skipped_per_sender MAX_SKIPPED_SENDER_KEYS.

(** [chains.iter().find(|(idx, _)| *idx == leaf_index)], and the same place written back. *)
Fixpoint find_chain (chains : list (Z * SenderKeyChain)) (leaf_index : Z) : option SenderKeyChain :=
  match chains with
  | [] => None
  | (idx, chain) :: rest => if idx =? leaf_index then Some chain else find_chain rest leaf_index
  end.

Fixpoint put_chain (chains : list (Z * SenderKeyChain)) (leaf_index : Z) (c : SenderKeyChain) :
    list (Z * SenderKeyChain) :=
  match chains with
  | [] => []
  | (idx, chain) :: rest => if idx =? leaf_index then (idx, c) :: rest else (idx, chain) :: put_chain rest leaf_index c
  end.

Definition get_chain (s : SenderKeyStore) (leaf_index : Z) : option SenderKeyChain :=
  find_chain (SenderKeyStore.chains s) leaf_index.

(** An operation on the chain that [get_chain_mut] finds. *)
Definition with_chain {A} (leaf_index : Z) (missing : ProtocolError.t) (op : ChainM A) : StoreM A := fun s =>
  match get_chain s leaf_index with
  | None => (Err missing, s)
  | Some c => let '(r, c') := op c in (r, SenderKeyStore.set_chains (put_chain (SenderKeyStore.chains s) leaf_index c') s)
  end.

Definition next_own_message_key (my_leaf_index : Z) : StoreM (Z * bytes) :=
  with_chain my_leaf_index (ProtocolError.group_protocol "Own sender key chain not found") next_message_key.

(** [keys.sort_by_key(|&(_, gen)| gen)], a stable sort. *)
Fixpoint insert_by_gen (k : Z * Z) (l : list (Z * Z)) : list (Z * Z) :=
  match l with
  | [] => [k]
  | k' :: l' => if snd k' <=? snd k then k' :: insert_by_gen k l' else k :: l
  end.

Definition sort_by_gen (l : list (Z * Z)) : list (Z * Z) := fold_left (fun acc k => insert_by_gen k acc) l [].

(** The keys of each sender, senders in ascending order. *)
Definition per_sender (keys : list (Z * Z)) : BTreeMap.t Z (list (Z * Z)) :=
  fold_left (fun m k =>
    BTreeMap.insert m (fst k) (match BTreeMap.get m (fst k) with Some l => l | None => [] end ++ [k]))
    keys BTreeMap.empty.

Definition evict_sender (limit : Z) (skipped : BTreeMap.t (Z * Z) bytes) (keys : list (Z * Z)) :
    BTreeMap.t (Z * Z) bytes :=
  if limit <? len keys then
    let keys := sort_by_gen keys in
    let evict_count := len keys - limit in
    fold_left BTreeMap.remove (firstn (Z.to_nat evict_count) keys) skipped
  else skipped.

Definition enforce_cache_limit (s : SenderKeyStore) : SenderKeyStore :=
  let skipped := SenderKeyStore.skipped_keys s in
  let groups := map snd (per_sender (map fst skipped)) in
  let skipped := fold_left (evict_sender (SenderKeyStore.max_skipped_per_sender s)) groups skipped in
  SenderKeyStore.set_skipped_keys (pop_over (SenderKeyStore.max_skipped_total s) skipped) s.

Definition get_message_key (sender_leaf_index generation : Z) : StoreM bytes :=
  do s <- sget (fun s => s);
  match BTreeMap.get (SenderKeyStore.skipped_keys s) (sender_leaf_index, generation) with
  | Some key =>
      do! smod (SenderKeyStore.set_skipped_keys
                  (BTreeMap.remove (SenderKeyStore.skipped_keys s) (sender_leaf_index, generation)));
      sret key
  | None =>
      let missing := ProtocolError.group_protocol "No sender key chain for leaf {sender_leaf_index}" in
      do current <- with_chain sender_leaf_index missing (sget SenderKeyChain.generation);
      do! sguard (negb (generation <? current))
            (ProtocolError.replay_attack "Generation {generation} already consumed for sender {sender_leaf_index}");
      if generation =? current then
        do (_, key) <- with_chain sender_leaf_index missing next_message_key;
        sret key
      else
        do (message_key, skipped) <- with_chain sender_leaf_index missing (advance_to generation);
        do! smod (fun s => SenderKeyStore.set_skipped_keys
                    (fold_left (fun m e => BTreeMap.insert m (sender_leaf_index, fst e) (snd e)) skipped
                       (SenderKeyStore.skipped_keys s)) s);
        do! smod enforce_cache_limit;
        sret message_key
  end.

Definition export_chains (s : SenderKeyStore) : list (Z * bytes * Z) :=
  map (fun e => let c := snd e in
        (SenderKeyChain.leaf_index c, SenderKeyChain.chain_key c, SenderKeyChain.generation c))
    (SenderKeyStore.chains s).

End SenderKeys.
