(* ===== verification/SenderRun.v ===== *)
(** * Histories of a sender key store

    The chains of an epoch as functions of their bases, the invariant of a store
    and what every operation does to it; the theorem is about any sequence of
    operations on the store of a new epoch. *)

From Stdlib Require Import ZArith List Bool Lia String.
From S2P Require Import Prelude Constants BTree Crypto Toy KeySchedule SenderKeys.
Import ListNotations.
Open Scope string_scope.
Open Scope list_scope.
Open Scope Z_scope.

Section Chains.
Context {P : Primitives} {L : PrimitiveLaws P}.

(** The chain of a sender as a function of its base. *)
Definition chain_step (enhanced : bool) (k : bytes) : bytes :=
  let next := hkdf_expand k GROUP_CHAIN_INFO CHAIN_KEY_BYTES in
  if enhanced then match blake2b_mac GROUP_BLAKE2B_CHAIN_PERSONALIZATION next with Some t => t | None => next end
  else next.

Definition chain_at (enhanced : bool) (base : bytes) (g : Z) : bytes :=
  Nat.iter (Z.to_nat g) (chain_step enhanced) base.

Definition message_at (enhanced : bool) (base : bytes) (g : Z) : bytes :=
  hkdf_expand (chain_at enhanced base g) GROUP_MSG_INFO MESSAGE_KEY_BYTES.

Lemma personalised (enhanced : bool) k :
  (if enhanced then keyed_hash GROUP_BLAKE2B_CHAIN_PERSONALIZATION (hkdf_expand k GROUP_CHAIN_INFO CHAIN_KEY_BYTES)
   else Ok (hkdf_expand k GROUP_CHAIN_INFO CHAIN_KEY_BYTES)) = Ok (chain_step enhanced k) /\
  len (chain_step enhanced k) = 32.
Proof.
  unfold chain_step, keyed_hash. destruct enhanced.
  - destruct (blake2b_mac_total GROUP_BLAKE2B_CHAIN_PERSONALIZATION (hkdf_expand k GROUP_CHAIN_INFO CHAIN_KEY_BYTES))
      as (t & Ht & Hl); [vm_compute; discriminate|]. cbv zeta. rewrite Ht. auto.
  - split; [reflexivity|]. apply hkdf_expand_len. unfold CHAIN_KEY_BYTES. lia.
Qed.

Lemma chain_at_succ e b g : 0 <= g -> chain_at e b (g + 1) = chain_step e (chain_at e b g).
Proof. intros Hg. unfold chain_at. replace (Z.to_nat (g + 1)) with (S (Z.to_nat g)) by lia. reflexivity. Qed.

Lemma len_sender_chain_at e b g : len b = 32 -> len (chain_at e b g) = 32.
Proof. intros Hb. unfold chain_at. destruct (Z.to_nat g); [exact Hb|]. apply personalised. Qed.

(** [c] has been advanced from [base] to its generation. *)
Definition chain_ok (base : bytes) (enhanced : bool) (c : SenderKeyChain) : Prop :=
  len base = 32 /\ 0 <= SenderKeyChain.generation c /\ SenderKeyChain.enhanced c = enhanced /\
  SenderKeyChain.chain_key c = chain_at enhanced base (SenderKeyChain.generation c).

(** [c] moved on to generation [g]. *)
Definition moved (base : bytes) (g : Z) (c : SenderKeyChain) : SenderKeyChain :=
  SenderKeyChain.set_progress (chain_at (SenderKeyChain.enhanced c) base g) g c.

Lemma moved_ok b e g c : chain_ok b e c -> 0 <= g -> chain_ok b e (moved b g c).
Proof. intros (H1 & H2 & H3 & H4) Hg. repeat split; cbn; auto. now rewrite H3. Qed.

Lemma moved_moved b g g' c : moved b g (moved b g' c) = moved b g c.
Proof. reflexivity. Qed.

Lemma moved_here b e c : chain_ok b e c -> moved b (SenderKeyChain.generation c) c = c.
Proof. intros (_ & _ & H3 & H4). unfold moved. rewrite H3, <- H4. destruct c; reflexivity. Qed.

Lemma next_message_key_eq b e c : chain_ok b e c ->
  next_message_key c =
  let g := SenderKeyChain.generation c in
  if g <? SenderKeyChain.max_generation c then (Ok (g, message_at e b g), moved b (g + 1) c)
  else (Err (ProtocolError.group_protocol "Sender key chain exhausted — trigger epoch update"), c).
Proof.
  intros (Hb & Hg & He & Hk). unfold next_message_key, sbind, sget, sguard, slift, smod, sret. cbv zeta.
  destruct (_ <? _) eqn:E; cbn [ensure]; [|reflexivity].
  assert (Hl : len (SenderKeyChain.chain_key c) = 32) by (rewrite Hk; now apply len_sender_chain_at).
  destruct (expand_small _ GROUP_MSG_INFO MESSAGE_KEY_BYTES Hl) as [-> _]; [unfold MESSAGE_KEY_BYTES; lia|].
  destruct (expand_small _ GROUP_CHAIN_INFO CHAIN_KEY_BYTES Hl) as [-> _]; [unfold CHAIN_KEY_BYTES; lia|].
  rewrite (proj1 (personalised _ _)). unfold moved, message_at.
  rewrite chain_at_succ by lia. rewrite He, <- Hk. reflexivity.
Qed.

Definition skipped_range (e : bool) (b : bytes) (lo hi : Z) : list (Z * bytes) :=
  map (fun g => (g, message_at e b g)) (zrange lo hi).

Lemma advance_loop_eq b e target fuel : forall c, chain_ok b e c ->
  Z.of_nat fuel = target - SenderKeyChain.generation c -> target <= SenderKeyChain.max_generation c ->
  advance_loop fuel target c = (Ok (skipped_range e b (SenderKeyChain.generation c) target), moved b target c).
Proof.
  induction fuel as [|fuel IH]; intros c Hc Hf Hm; cbn [advance_loop]; unfold sbind at 1, sget at 1; cbn [fst snd].
  - destruct (Z.ltb_spec (SenderKeyChain.generation c) target); [lia|]. unfold sret, skipped_range.
    replace target with (SenderKeyChain.generation c) by lia. rewrite zrange_empty by lia. now rewrite (moved_here b e).
  - destruct (Z.ltb_spec (SenderKeyChain.generation c) target); [|lia]. unfold sbind at 1.
    rewrite (next_message_key_eq b e c Hc). cbv zeta. destruct (Z.ltb_spec (SenderKeyChain.generation c) (SenderKeyChain.max_generation c)); [|lia].
    unfold sbind. rewrite IH; [|apply moved_ok; [exact Hc|destruct Hc; lia]|cbn; lia|exact Hm].
    unfold sret. rewrite moved_moved. cbn [SenderKeyChain.generation moved SenderKeyChain.set_progress].
    unfold skipped_range. rewrite (zrange_cons (SenderKeyChain.generation c)) by lia. reflexivity.
Qed.

Lemma advance_to_eq b e target c : chain_ok b e c ->
  let g := SenderKeyChain.generation c in
  (exists err, advance_to target c = (Err err, c)) \/
  (g <= target < SenderKeyChain.max_generation c /\
   advance_to target c = (Ok (message_at e b target, skipped_range e b g target), moved b (target + 1) c)).
Proof.
  intros Hc. cbv zeta. unfold advance_to, sbind, sget, sguard, slift, sret. cbv zeta.
  destruct (Z.ltb_spec target (SenderKeyChain.generation c)); cbn [negb ensure]; [eauto|].
  destruct (Z.leb_spec (SenderKeyChain.max_generation c) target); cbn [negb ensure]; [eauto|].
  destruct (_ <=? _); cbn [ensure]; [|eauto]. right. split; [lia|].
  rewrite (advance_loop_eq b e target _ c Hc) by lia.
  assert (Hm : chain_ok b e (moved b target c)) by (apply moved_ok; [exact Hc|destruct Hc; lia]).
  rewrite (next_message_key_eq b e _ Hm). cbv zeta.
  cbn [SenderKeyChain.generation SenderKeyChain.max_generation moved SenderKeyChain.set_progress].
  destruct (Z.ltb_spec target (SenderKeyChain.max_generation c)); [|lia]. now rewrite <- (moved_moved b (target + 1) target c).
Qed.

End Chains.

(** ** Places and evictions *)

Lemma find_put_same chains l c c' : find_chain chains l = Some c -> find_chain (put_chain chains l c') l = Some c'.
Proof.
  induction chains as [|[i d] chains IH]; cbn; [discriminate|].
  destruct (i =? l) eqn:E; cbn; rewrite E; auto.
Qed.

Lemma find_put_other chains l l' c : l <> l' -> find_chain (put_chain chains l c) l' = find_chain chains l'.
Proof.
  intros Hl. induction chains as [|[i d] chains IH]; cbn; [reflexivity|].
  destruct (Z.eqb_spec i l) as [->|]; cbn; [|now rewrite IH].
  destruct (Z.eqb_spec l l'); [easy|reflexivity].
Qed.

Lemma put_same chains l c : find_chain chains l = Some c -> put_chain chains l c = chains.
Proof.
  induction chains as [|[i d] chains IH]; cbn; [discriminate|].
  destruct (i =? l); intros H; [congruence|now rewrite IH].
Qed.

Lemma with_chain_same {A} l missing (op : Stm ProtocolError.t SenderKeyChain A) s c r :
  get_chain s l = Some c -> op c = (r, c) -> with_chain l missing op s = (r, s).
Proof.
  intros Hc Hop. unfold with_chain. rewrite Hc, Hop. unfold get_chain in Hc. rewrite (put_same _ _ _ Hc).
  destruct s; reflexivity.
Qed.

(** [m'] has only entries of [m]. *)
Definition submap (m' m : BTreeMap.t (Z * Z) bytes) : Prop :=
  BTreeMap.sorted m' /\ forall k v, BTreeMap.get m' k = Some v -> BTreeMap.get m k = Some v.

Lemma submap_trans a b c : submap a b -> submap b c -> submap a c.
Proof. intros [H1 H2] [_ H3]. split; auto. Qed.

Lemma submap_remove m k : BTreeMap.sorted m -> submap (BTreeMap.remove m k) m.
Proof.
  intros Hs. split; [now apply BTreeMap.remove_sorted|]. intros k' v H.
  destruct (BTreeMap.key_eqb k k') eqn:E.
  - apply BTreeMap.key_eqb_spec in E. subst. rewrite BTreeMap.get_remove_eq in H by exact Hs. discriminate.
  - rewrite BTreeMap.get_remove_neq in H; [exact H|]. intros ->. rewrite BTreeMap.key_eqb_refl in E. discriminate.
Qed.

Lemma submap_removes ks : forall m, BTreeMap.sorted m -> submap (fold_left BTreeMap.remove ks m) m.
Proof.
  induction ks as [|k ks IH]; intros m Hs; cbn [fold_left]; [split; auto|].
  pose proof (submap_remove m k Hs) as Hr. exact (submap_trans _ _ _ (IH _ (proj1 Hr)) Hr).
Qed.

Lemma submap_evict limit groups : forall m, BTreeMap.sorted m -> submap (fold_left (evict_sender limit) groups m) m.
Proof.
  induction groups as [|ks groups IH]; intros m Hs; cbn [fold_left]; [split; auto|].
  assert (Hr : submap (evict_sender limit m ks) m)
    by (unfold evict_sender; destruct (_ <? _); [now apply submap_removes|split; auto]).
  exact (submap_trans _ _ _ (IH _ (proj1 Hr)) Hr).
Qed.

Lemma submap_pop limit m : BTreeMap.sorted m -> submap (pop_over limit m) m.
Proof.
  intros Hs. destruct (pop_over_suffix limit m) as [n ->].
  split; [now apply BTreeMap.skipn_sorted|]. intros k v. now apply BTreeMap.get_skipn.
Qed.

Lemma enforce_submap s : BTreeMap.sorted (SenderKeyStore.skipped_keys s) ->
  submap (SenderKeyStore.skipped_keys (enforce_cache_limit s)) (SenderKeyStore.skipped_keys s).
Proof.
  intros Hs. cbn [enforce_cache_limit SenderKeyStore.skipped_keys SenderKeyStore.set_skipped_keys].
  pose proof (submap_evict (SenderKeyStore.max_skipped_per_sender s)
    (map snd (per_sender (map fst (SenderKeyStore.skipped_keys s)))) _ Hs) as He.
  exact (submap_trans _ _ _ (submap_pop _ _ (proj1 He)) He).
Qed.

Lemma insert_all_sorted l ks : forall m, BTreeMap.sorted m ->
  BTreeMap.sorted (fold_left (fun m e => BTreeMap.insert m (l, fst e) (snd e)) ks m : BTreeMap.t (Z * Z) bytes).
Proof. induction ks as [|k ks IH]; intros m Hs; cbn [fold_left]; [exact Hs|]. apply IH. now apply BTreeMap.insert_sorted. Qed.

Lemma insert_all_get l ks key v : forall m : BTreeMap.t (Z * Z) bytes,
  BTreeMap.get (fold_left (fun m e => BTreeMap.insert m (l, fst e) (snd e)) ks m) key = Some v ->
  BTreeMap.get m key = Some v \/ exists g, key = (l, g) /\ In (g, v) ks.
Proof.
  induction ks as [|[g k] ks IH]; intros m H; cbn [fold_left fst snd] in *; [auto|].
  destruct (IH _ H) as [Hg|(g' & -> & Hin)]; [|right; exists g'; cbn; auto].
  destruct (BTreeMap.key_eqb (l, g) key) eqn:E.
  - apply BTreeMap.key_eqb_spec in E. subst key. rewrite BTreeMap.get_insert_eq in Hg.
    right. exists g. split; [reflexivity|]. left. congruence.
  - rewrite BTreeMap.get_insert_neq in Hg; [auto|]. intros <-. rewrite BTreeMap.key_eqb_refl in E. discriminate.
Qed.

(** ** The invariant of a store *)

Section Store.
Context {P : Primitives} {L : PrimitiveLaws P} (bases : Z -> bytes) (e : bool).

Record store_ok (s : SenderKeyStore) : Prop := {
  so_sorted : BTreeMap.sorted (SenderKeyStore.skipped_keys s);
  so_chains l c : get_chain s l = Some c -> chain_ok (bases l) e c;
  so_keys l g k : BTreeMap.get (SenderKeyStore.skipped_keys s) (l, g) = Some k ->
    k = message_at e (bases l) g /\ exists c, get_chain s l = Some c /\ 0 <= g < SenderKeyChain.generation c;
  so_bound : 0 <= SenderKeyStore.max_skipped_total s /\
    len (SenderKeyStore.skipped_keys s) <= SenderKeyStore.max_skipped_total s }.

(** The key of generation [g] of leaf [l] has been handed out, or dropped. *)
Definition spent (s : SenderKeyStore) (l g : Z) : Prop :=
  BTreeMap.get (SenderKeyStore.skipped_keys s) (l, g) = None /\
  exists c, get_chain s l = Some c /\ 0 <= g < SenderKeyChain.generation c.

Definition hands_out (s : SenderKeyStore) (l g : Z) (k : bytes) (s' : SenderKeyStore) : Prop :=
  k = message_at e (bases l) g /\ store_ok s' /\ ~ spent s l g /\ spent s' l g /\
  (forall l' g', spent s l' g' -> spent s' l' g') /\
  SenderKeyStore.max_skipped_total s' = SenderKeyStore.max_skipped_total s.

Definition with_moved (s : SenderKeyStore) (l g : Z) (c : SenderKeyChain) (skipped : BTreeMap.t (Z * Z) bytes) :
    SenderKeyStore :=
  SenderKeyStore.set_skipped_keys skipped
    (SenderKeyStore.set_chains (put_chain (SenderKeyStore.chains s) l (moved (bases l) g c)) s).

(** A chain moved past [g], with the keys before [g] cached. *)
Lemma advance_hands_out s l g c skipped : store_ok s -> get_chain s l = Some c ->
  SenderKeyChain.generation c <= g -> BTreeMap.sorted skipped ->
  len skipped <= SenderKeyStore.max_skipped_total s ->
  (forall key v, BTreeMap.get skipped key = Some v ->
     BTreeMap.get (SenderKeyStore.skipped_keys s) key = Some v \/
     exists g', key = (l, g') /\ SenderKeyChain.generation c <= g' < g /\ v = message_at e (bases l) g') ->
  hands_out s l g (message_at e (bases l) g) (with_moved s l (g + 1) c skipped).
Proof.
  intros Hs Hc Hg Hsort Hlen Hsk. pose proof (so_chains s Hs l c Hc) as Hok.
  assert (H0 : 0 <= SenderKeyChain.generation c) by apply Hok.
  assert (Hfl : get_chain (with_moved s l (g + 1) c skipped) l = Some (moved (bases l) (g + 1) c))
    by (apply (find_put_same _ _ c); exact Hc).
  assert (Hfo : forall l', l <> l' -> get_chain (with_moved s l (g + 1) c skipped) l' = get_chain s l')
    by (intros l' Hl; apply find_put_other; exact Hl).
  assert (Hage : forall l' g', (exists c', get_chain s l' = Some c' /\ 0 <= g' < SenderKeyChain.generation c') ->
    exists c', get_chain (with_moved s l (g + 1) c skipped) l' = Some c' /\ 0 <= g' < SenderKeyChain.generation c').
  { intros l' g' (c' & Hc' & Hg'). destruct (Z.eq_dec l l') as [<-|Hl].
    - rewrite Hc in Hc'. injection Hc' as <-. exists (moved (bases l) (g + 1) c). split; [exact Hfl|]. cbn. lia.
    - exists c'. rewrite (Hfo l' Hl). auto. }
  split; [reflexivity|]. split; [|split; [|split; [|split; [|reflexivity]]]].
  - constructor.
    + exact Hsort.
    + intros l' c' Hc'. destruct (Z.eq_dec l l') as [<-|Hl].
      * rewrite Hfl in Hc'. injection Hc' as <-. apply moved_ok; [exact Hok|lia].
      * rewrite (Hfo l' Hl) in Hc'. exact (so_chains s Hs l' c' Hc').
    + intros l' g' k Hk. destruct (Hsk _ _ Hk) as [Hold|(g'' & [= -> ->] & Hr & ->)].
      * destruct (so_keys s Hs _ _ _ Hold) as [-> Hc']. auto.
      * split; [reflexivity|]. exists (moved (bases l) (g + 1) c). split; [exact Hfl|]. cbn. lia.
    + split; [exact (proj1 (so_bound s Hs))|exact Hlen].
  - intros [_ (c' & Hc' & Hg')]. rewrite Hc in Hc'. injection Hc' as <-. lia.
  - split; [|exists (moved (bases l) (g + 1) c); split; [exact Hfl|cbn; lia]].
    change (BTreeMap.get skipped (l, g) = None). destruct (BTreeMap.get skipped _) eqn:E; [|reflexivity].
    destruct (Hsk _ _ E) as [Hold|(g'' & [= <-] & Hr & _)]; [|lia].
    destruct (so_keys s Hs _ _ _ Hold) as [_ (c' & Hc' & Hg')]. rewrite Hc in Hc'. injection Hc' as <-. lia.
  - intros l' g' [Hn Hc']. split; [|exact (Hage l' g' Hc')]. change (BTreeMap.get skipped (l', g') = None).
    destruct (BTreeMap.get skipped _) eqn:E; [|reflexivity]. destruct (Hsk _ _ E) as [Hold|(g'' & [= -> ->] & Hr & _)]; [congruence|].
    destruct Hc' as (c' & Hc' & Hg'). rewrite Hc in Hc'. injection Hc' as <-. lia.
Qed.

Lemma remove_hands_out s l g k : store_ok s -> BTreeMap.get (SenderKeyStore.skipped_keys s) (l, g) = Some k ->
  hands_out s l g k (SenderKeyStore.set_skipped_keys (BTreeMap.remove (SenderKeyStore.skipped_keys s) (l, g)) s).
Proof.
  intros Hs Hk. destruct (so_keys s Hs _ _ _ Hk) as [-> Hc].
  destruct (submap_remove (SenderKeyStore.skipped_keys s) (l, g) (so_sorted s Hs)) as [Hsort Hsub].
  split; [reflexivity|]. split; [|split; [|split; [|split; [|reflexivity]]]].
  - constructor; [exact Hsort|exact (so_chains s Hs)| |].
    + intros l' g' k' Hk'. exact (so_keys s Hs _ _ _ (Hsub _ _ Hk')).
    + destruct (so_bound s Hs) as [H0 Hb]. split; [exact H0|].
      cbn [SenderKeyStore.skipped_keys SenderKeyStore.set_skipped_keys SenderKeyStore.max_skipped_total].
      pose proof (BTreeMap.len_remove_le (SenderKeyStore.skipped_keys s) (l, g)). lia.
  - intros [Hn _]. congruence.
  - split; [exact (BTreeMap.get_remove_eq _ _ (so_sorted s Hs))|exact Hc].
  - intros l' g' [Hn Hc']. split; [|exact Hc'].
    change (BTreeMap.get (BTreeMap.remove (SenderKeyStore.skipped_keys s) (l, g)) (l', g') = None).
    destruct (BTreeMap.get (BTreeMap.remove _ _) _) eqn:E; [|reflexivity]. apply Hsub in E. congruence.
Qed.

Lemma next_own_effect s l r s' : store_ok s -> next_own_message_key l s = (r, s') ->
  match r with Ok (g, k) => hands_out s l g k s' | Err _ => s' = s end.
Proof.
  intros Hs H. unfold next_own_message_key in H. destruct (get_chain s l) as [c|] eqn:Hc.
  2:{ unfold with_chain in H. rewrite Hc in H. now injection H as <- <-. }
  pose proof (next_message_key_eq _ _ _ (so_chains s Hs l c Hc)) as Hn. cbv zeta in Hn. destruct (_ <? _).
  2:{ rewrite (with_chain_same _ _ _ s c _ Hc Hn) in H. now injection H as <- <-. }
  unfold with_chain in H. rewrite Hc, Hn in H. injection H as <- <-.
  assert (E : SenderKeyStore.set_chains (put_chain (SenderKeyStore.chains s) l (moved (bases l) (SenderKeyChain.generation c + 1) c)) s =
    with_moved s l (SenderKeyChain.generation c + 1) c (SenderKeyStore.skipped_keys s)) by (destruct s; reflexivity).
  rewrite E. apply advance_hands_out; auto; [lia|apply (so_sorted s Hs)|apply (so_bound s Hs)].
Qed.

Lemma enforce_bound s : 0 <= SenderKeyStore.max_skipped_total s ->
  len (SenderKeyStore.skipped_keys (enforce_cache_limit s)) <= SenderKeyStore.max_skipped_total s.
Proof. intros H. cbn [enforce_cache_limit SenderKeyStore.skipped_keys SenderKeyStore.set_skipped_keys]. now apply len_pop_over. Qed.

Lemma get_message_key_effect s l g r s' : store_ok s -> get_message_key l g s = (r, s') ->
  match r with Ok k => hands_out s l g k s' | Err _ => s' = s end.
Proof.
  intros Hs H. unfold get_message_key, sbind, sget, smod, sguard, slift, sret in H.
  destruct (BTreeMap.get (SenderKeyStore.skipped_keys s) (l, g)) as [k|] eqn:Hk.
  { injection H as <- <-. now apply remove_hands_out. }
  destruct (get_chain s l) as [c|] eqn:Hc.
  2:{ unfold with_chain in H. rewrite Hc in H. now injection H as <- <-. }
  rewrite (with_chain_same _ _ (fun c => (Ok (SenderKeyChain.generation c), c)) s c _ Hc eq_refl) in H.
  destruct (Z.ltb_spec g (SenderKeyChain.generation c)) as [Hlt|Hge]; cbn [negb ensure] in H; [now injection H as <- <-|].
  pose proof (so_chains s Hs l c Hc) as Hok. destruct (Z.eqb_spec g (SenderKeyChain.generation c)) as [->|Hne].
  - pose proof (next_own_effect s l) as Ho. unfold next_own_message_key in Ho.
    pose proof (next_message_key_eq _ _ _ Hok) as Hn. cbv zeta in Hn. unfold with_chain in H, Ho. rewrite Hc, Hn in *.
    destruct (_ <? _); injection H as <- <-; [apply (Ho _ _ Hs eq_refl)|].
    unfold get_chain in Hc. rewrite (put_same _ _ _ Hc). destruct s; reflexivity.
  - destruct (advance_to_eq _ _ g _ Hok) as [[err Ha]|[Hr Ha]]; cbv zeta in *.
    + rewrite (with_chain_same _ _ _ s c _ Hc Ha) in H. now injection H as <- <-.
    + unfold with_chain in H. rewrite Hc, Ha in H. cbv iota beta in H. injection H as <- <-.
      set (filled := SenderKeyStore.set_skipped_keys _ _).
      change (hands_out s l g (message_at e (bases l) g)
                (with_moved s l (g + 1) c (SenderKeyStore.skipped_keys (enforce_cache_limit filled)))).
      assert (Hsort : BTreeMap.sorted (SenderKeyStore.skipped_keys filled))
        by (apply insert_all_sorted, (so_sorted s Hs)).
      destruct (enforce_submap filled Hsort) as [H1 H2].
      apply advance_hands_out; auto; [apply (enforce_bound filled), (so_bound s Hs)|].
      intros key v Hv. apply H2 in Hv. apply insert_all_get in Hv. destruct Hv as [Hv|(g' & -> & Hin)]; [auto|].
      right. exists g'. unfold skipped_range in Hin. apply in_map_iff in Hin.
      destruct Hin as (g'' & [= -> <-] & Hz). apply zrange_In in Hz. auto.
Qed.

(** ** Histories *)

Inductive SOp : Type :=
| OwnKey (leaf : Z)
| PeerKey (leaf generation : Z).

(** What an operation hands out: the leaf, the generation and the key. *)
Definition apply_sop (op : SOp) (s : SenderKeyStore) : option (Z * Z * bytes) * SenderKeyStore :=
  match op with
  | OwnKey l => match next_own_message_key l s with
                | (Ok (g, k), s') => (Some (l, g, k), s')
                | (Err _, s') => (None, s')
                end
  | PeerKey l g => match get_message_key l g s with
                   | (Ok k, s') => (Some (l, g, k), s')
                   | (Err _, s') => (None, s')
                   end
  end.

Fixpoint srun (ops : list SOp) (s : SenderKeyStore) : list (Z * Z * bytes) * SenderKeyStore :=
  match ops with
  | [] => ([], s)
  | op :: ops =>
      let '(out, s) := apply_sop op s in
      let '(outs, s) := srun ops s in
      (match out with Some o => [o] | None => [] end ++ outs, s)
  end.

Lemma apply_sop_effect op s out s' : store_ok s -> apply_sop op s = (out, s') ->
  match out with Some (l, g, k) => hands_out s l g k s' | None => s' = s end.
Proof.
  intros Hs H. destruct op as [l|l g]; cbn [apply_sop] in H.
  - destruct (next_own_message_key l s) as [[[g k]|err] s1] eqn:E; injection H as <- <-;
      exact (next_own_effect _ _ _ _ Hs E).
  - destruct (get_message_key l g s) as [[k|err] s1] eqn:E; injection H as <- <-;
      exact (get_message_key_effect _ _ _ _ _ Hs E).
Qed.

Lemma srun_effect ops : forall s outs s', store_ok s -> srun ops s = (outs, s') ->
  store_ok s' /\ SenderKeyStore.max_skipped_total s' = SenderKeyStore.max_skipped_total s /\
  (forall l g k, In (l, g, k) outs -> k = message_at e (bases l) g /\ ~ spent s l g) /\ NoDup (map fst outs).
Proof.
  induction ops as [|op ops IH]; intros s outs s' Hs H; cbn [srun] in H.
  { injection H as <- <-. split; [exact Hs|]. split; [reflexivity|]. split; [easy|constructor]. }
  destruct (apply_sop op s) as [out s1] eqn:Ha. destruct (srun ops s1) as [outs1 s2] eqn:Hr. injection H as <- <-.
  pose proof (apply_sop_effect _ _ _ _ Hs Ha) as He. destruct out as [[[l g] k]|].
  - destruct He as (Hk & Hs1 & Hf & Hsp & Hmono & Hm). destruct (IH s1 outs1 s2 Hs1 Hr) as (H1 & H2 & H3 & H4).
    split; [exact H1|]. split; [congruence|]. split.
    + intros l' g' k' [[= <- <- <-]|Hin]; [auto|]. destruct (H3 _ _ _ Hin) as [Hk' Hn]. auto.
    + cbn [app map fst]. constructor; [|exact H4]. intros Hin. apply in_map_iff in Hin.
      destruct Hin as ([[l' g'] k'] & [= -> ->] & Hin). now destruct (H3 _ _ _ Hin) as [_ Hn].
  - subst s1. exact (IH s outs1 s2 Hs Hr).
Qed.

End Store.

Section NewEpoch.
Context {P : Primitives} {L : PrimitiveLaws P}.

(** The base of a leaf's chain in an epoch. *)
Definition sender_base (epoch_secret group_context_hash : bytes) (leaf : Z) : bytes :=
  hkdf_expand epoch_secret (GROUP_SENDER_KEY_INFO ++ to_le_bytes 4 leaf ++ group_context_hash) SENDER_KEY_BASE_BYTES.

Lemma new_epoch_chains secret ctx e maxg maxs leaves : forall chains,
  mapR (fun leaf_idx =>
    let? base := derive_sender_key_base secret leaf_idx ctx in
    let? chain := new_with_policy leaf_idx base e maxg maxs in
    Ok (leaf_idx, chain)) leaves = Ok chains ->
  forall l c, find_chain chains l = Some c -> chain_ok (sender_base secret ctx l) e c.
Proof.
  induction leaves as [|i leaves IH]; intros chains H l c Hf; cbn [mapR] in H; [injection H as <-; discriminate|].
  inv_ok. unfold derive_sender_key_base, expand, new_with_policy in *. inv_ok. bools. cbn [find_chain] in Hf.
  destruct (Z.eqb_spec i l) as [->|]; [|eauto]. apply Some_inj in Hf. subst c.
  unfold chain_ok. cbn [SenderKeyChain.generation SenderKeyChain.enhanced SenderKeyChain.chain_key].
  split; [|repeat split; lia]. apply hkdf_expand_len. unfold SENDER_KEY_BASE_BYTES. lia.
Qed.

Lemma new_epoch_ok secret leaves ctx e maxg maxs s : new_epoch_with_policy secret leaves ctx e maxg maxs = Ok s ->
  store_ok (sender_base secret ctx) e s /\ SenderKeyStore.max_skipped_total s = MAX_SKIPPED_SENDER_KEYS.
Proof.
  intros H. unfold new_epoch_with_policy in H. inv_ok. split; [|reflexivity]. constructor.
  - constructor.
  - intros l c Hc. eapply new_epoch_chains; eassumption.
  - discriminate.
  - cbn [SenderKeyStore.max_skipped_total SenderKeyStore.skipped_keys]. unfold BTreeMap.empty, MAX_SKIPPED_SENDER_KEYS.
    split; [lia|apply Z.leb_le; reflexivity].
Qed.

(** C27. In every history of the sender keys of an epoch each key that is handed
    out, for an own or a received message, in order or late, is the key of that
    generation in the chain the epoch secret gives that leaf, so that all members
    get the same one; no generation of a leaf is served twice; a refused request
    changes nothing; and the cache of skipped keys stays within its limit. *)
Theorem sender_keys_once_in_step secret leaves ctx e maxg maxs s0 ops outs s'
    (Hnew : new_epoch_with_policy secret leaves ctx e maxg maxs = Ok s0) (Hrun : srun ops s0 = (outs, s')) :
  (forall l g k, In (l, g, k) outs -> k = message_at e (sender_base secret ctx l) g) /\
  NoDup (map fst outs) /\
  (forall op, fst (apply_sop op s') = None -> snd (apply_sop op s') = s') /\
  len (SenderKeyStore.skipped_keys s') <= MAX_SKIPPED_SENDER_KEYS.
Proof.
  destruct (new_epoch_ok _ _ _ _ _ _ _ Hnew) as [Hs Hm].
  destruct (srun_effect _ _ _ _ _ _ Hs Hrun) as (Hs' & Hm' & Hk & Hn).
  split; [intros l g k Hin; apply (Hk l g k Hin)|]. split; [exact Hn|]. split.
  - intros op Hop. destruct (apply_sop op s') as [out s1] eqn:E. cbn in *. subst out.
    exact (apply_sop_effect _ _ op s' None s1 Hs' E).
  - rewrite <- Hm, <- Hm'. apply (so_bound _ _ _ Hs').
Qed.

End NewEpoch.

(** ** A run *)

Definition toy_secret : bytes := repeat 7 32.
Definition toy_context : bytes := repeat 9 32.

Definition toy_store : SenderKeyStore :=
  match new_epoch_with_policy toy_secret [0; 1] toy_context true 100 8 with
  | Ok s => s
  | Err _ => SenderKeyStore.mk [] [] 0 0
  end.

Definition toy_sops : list SOp :=
  [OwnKey 0; PeerKey 1 2; PeerKey 1 0; PeerKey 1 0; PeerKey 1 50; PeerKey 1 3; PeerKey 2 0; PeerKey 1 1; OwnKey 0].

Lemma toy_store_new : new_epoch_with_policy toy_secret [0; 1] toy_context true 100 8 = Ok toy_store.
Proof. vm_compute. reflexivity. Qed.

Lemma toy_srun_positions : map fst (fst (srun toy_sops toy_store)) = [(0, 0); (1, 2); (1, 0); (1, 3); (1, 1); (0, 1)].
Proof. vm_compute. reflexivity. Qed.

Lemma sender_keys_once_in_step_witness :
  let out := fst (srun toy_sops toy_store) in
  (forall l g k, In (l, g, k) out -> k = message_at true (sender_base toy_secret toy_context l) g) /\
  NoDup (map fst out) /\ map fst out = [(0, 0); (1, 2); (1, 0); (1, 3); (1, 1); (0, 1)].
Proof.
  cbv zeta. destruct (sender_keys_once_in_step toy_secret [0; 1] toy_context true 100 8 toy_store toy_sops
    (fst (srun toy_sops toy_store)) (snd (srun toy_sops toy_store)) toy_store_new (surjective_pairing _)) as (H1 & H2 & _).
  split; [exact H1|]. split; [exact H2|]. exact toy_srun_positions.
Defined.
