(* ===== verification/IdentityModels.v ===== *)
(** * Key material of an identity ([src/models/])

    The key pairs, pre-keys and public bundles the identity is made of, with
    the size checks of their constructors. *)

From Stdlib Require Import ZArith List Bool Lia String.
From S2P Require Import Prelude Constants SecureMemory Crypto Signatures.
Import ListNotations.
Open Scope string_scope.
Open Scope list_scope.
Open Scope Z_scope.

Module Ed25519KeyPair.

Record t : Type := mk { private_key : SecureMemoryHandle.t; public_key : bytes }.

Definition new (private_key : SecureMemoryHandle.t) (public_key : bytes) : PResult t :=
  check? len public_key =? ED25519_PUBLIC_KEY_BYTES
    else ProtocolError.invalid_input "Invalid Ed25519 public key size" in
  Ok (mk private_key public_key).

Definition get_private_key_bytes (kp : t) : CResult bytes :=
  SecureMemoryHandle.read_bytes (private_key kp) ED25519_SECRET_KEY_BYTES.

Definition sign `{Signatures} (kp : t) (message : bytes) : PResult bytes :=
  let? sk_bytes := crypto_err (SecureMemoryHandle.read_bytes (private_key kp) ED25519_SECRET_KEY_BYTES) in
  check? len sk_bytes =? ED25519_SECRET_KEY_BYTES
    else ProtocolError.generic "Ed25519 secret key has wrong length" in
  check? ed25519_keypair_ok sk_bytes
    else ProtocolError.generic "Ed25519 sign failed: invalid keypair bytes" in
  Ok (ed25519_sign sk_bytes message).

Definition verify `{Signatures} (public_key message signature : bytes) : PResult unit :=
  check? len public_key =? ED25519_PUBLIC_KEY_BYTES
    else ProtocolError.invalid_input "Invalid Ed25519 public key size" in
  check? len signature =? ED25519_SIGNATURE_BYTES
    else ProtocolError.peer_pub_key "Invalid Ed25519 signature size" in
  check? ed25519_public_ok public_key
    else ProtocolError.peer_pub_key "Invalid Ed25519 public key" in
  check? ed25519_verify_strict public_key message signature
    else ProtocolError.peer_pub_key "Ed25519 signature verification failed" in
  Ok tt.

End Ed25519KeyPair.

Module X25519KeyPair.

Record t : Type := mk { secret_key : SecureMemoryHandle.t; public_key : bytes }.

Definition new (secret_key : SecureMemoryHandle.t) (public_key : bytes) : PResult t :=
  check? len public_key =? X25519_PUBLIC_KEY_BYTES
    else ProtocolError.invalid_input "Invalid X25519 public key size" in
  Ok (mk secret_key public_key).

End X25519KeyPair.

Module SignedPreKeyPair.

Record t : Type := mk {
  id : Z;
  secret_key : SecureMemoryHandle.t;
  public_key : bytes;
  signature : bytes }.

Definition new (id : Z) (secret_key : SecureMemoryHandle.t) (public_key signature : bytes) : PResult t :=
  check? len public_key =? X25519_PUBLIC_KEY_BYTES
    else ProtocolError.invalid_input "Invalid SPK public key size" in
  check? len signature =? ED25519_SIGNATURE_BYTES
    else ProtocolError.invalid_input "Invalid SPK signature size" in
  Ok (mk id secret_key public_key signature).

End SignedPreKeyPair.

Module OneTimePreKey.

Record t : Type := mk {
  id : Z;
  private_key : SecureMemoryHandle.t;
  public_key : bytes }.

Definition generate `{Primitives} (id : Z) (entropy : bytes) : PResult t :=
  let? (handle, public_key) := generate_x25519_keypair entropy in
  Ok (mk id handle public_key).

Definition create_from_seed `{Primitives} (id : Z) (seed : bytes) : PResult t :=
  check? len seed =? X25519_PRIVATE_KEY_BYTES
    else ProtocolError.key_generation "Invalid seed size for OPK derivation" in
  let private_key := clamp seed in
  let public_key := x25519_public private_key in
  let? handle := crypto_err (SecureMemoryHandle.alloc_write X25519_PRIVATE_KEY_BYTES private_key) in
  Ok (mk id handle public_key).

End OneTimePreKey.

Module OneTimePreKeyPublic.

Record t : Type := mk {
  id : Z;
  public_key : bytes;
  kyber_public : option bytes }.

End OneTimePreKeyPublic.

Module LocalPublicKeyBundle.

Record t : Type := mk {
  identity_ed25519_public : bytes;
  identity_x25519_public : bytes;
  identity_x25519_signature : bytes;
  signed_pre_key_id : Z;
  signed_pre_key_public : bytes;
  signed_pre_key_signature : bytes;
  one_time_pre_keys : list OneTimePreKeyPublic.t;
  ephemeral_x25519_public : option bytes;
  kyber_public : option bytes;
  kyber_ciphertext : option bytes;
  used_one_time_pre_key_id : option Z }.

Definition has_one_time_pre_keys (b : t) : bool :=
  match one_time_pre_keys b with [] => false | _ => true end.

Definition has_kyber_public (b : t) : bool :=
  match kyber_public b with Some _ => true | None => false end.

(** [matches!(&self.kyber_ciphertext, Some(ct) if !ct.is_empty())] *)
Definition has_kyber_ciphertext (b : t) : bool :=
  match kyber_ciphertext b with Some (_ :: _) => true | _ => false end.

End LocalPublicKeyBundle.

Module IdentityKeyBundle.

Record t : Type := mk {
  ed25519 : Ed25519KeyPair.t;
  identity_x25519 : X25519KeyPair.t;
  signed_pre_key : SignedPreKeyPair.t;
  one_time_pre_keys : list OneTimePreKey.t;
  kyber_secret_key : SecureMemoryHandle.t;
  kyber_public : bytes }.

End IdentityKeyBundle.

(** An ML-KEM ciphertext with the secret it carries. *)
Module HybridHandshakeArtifacts.

Record t : Type := mk {
  kyber_ciphertext : bytes;
  kyber_shared_secret : bytes }.

End HybridHandshakeArtifacts.

(** The state behind the lock of [IdentityKeys].  [event_handler] tells whether a handler is
    set; [handler_calls] are the calls [on_otk_exhaustion_warning(remaining, max_capacity)] made so far. *)
Module IdentityKeysInner.

Record t : Type := mk {
  identity_ed25519_secret_key : SecureMemoryHandle.t;
  identity_ed25519_public : bytes;
  identity_x25519_secret_key : SecureMemoryHandle.t;
  identity_x25519_public : bytes;
  identity_x25519_signature : bytes;
  signed_pre_key_id : Z;
  signed_pre_key_secret_key : SecureMemoryHandle.t;
  signed_pre_key_public : bytes;
  signed_pre_key_signature : bytes;
  one_time_pre_keys : list OneTimePreKey.t;
  one_time_pre_key_capacity : Z;
  kyber_secret_key : SecureMemoryHandle.t;
  kyber_public : bytes;
  pending_kyber_handshake : option HybridHandshakeArtifacts.t;
  ephemeral_secret_key : option SecureMemoryHandle.t;
  ephemeral_x25519_public : option bytes;
  selected_one_time_pre_key_id : option Z;
  inflight_handshake_init_hashes : list bytes;
  recent_handshake_init_hashes : list bytes;
  recent_handshake_init_order : list bytes;
  event_handler : bool;
  handler_calls : list (Z * Z) }.

Definition set_one_time_pre_keys (v : list OneTimePreKey.t) (s : t) : t :=
  mk (identity_ed25519_secret_key s) (identity_ed25519_public s) (identity_x25519_secret_key s)
    (identity_x25519_public s) (identity_x25519_signature s) (signed_pre_key_id s)
    (signed_pre_key_secret_key s) (signed_pre_key_public s) (signed_pre_key_signature s) v
    (one_time_pre_key_capacity s) (kyber_secret_key s) (kyber_public s)
    (pending_kyber_handshake s) (ephemeral_secret_key s) (ephemeral_x25519_public s)
    (selected_one_time_pre_key_id s) (inflight_handshake_init_hashes s)
    (recent_handshake_init_hashes s) (recent_handshake_init_order s) (event_handler s)
    (handler_calls s).
Definition set_one_time_pre_key_capacity (v : Z) (s : t) : t :=
  mk (identity_ed25519_secret_key s) (identity_ed25519_public s) (identity_x25519_secret_key s)
    (identity_x25519_public s) (identity_x25519_signature s) (signed_pre_key_id s)
    (signed_pre_key_secret_key s) (signed_pre_key_public s) (signed_pre_key_signature s)
    (one_time_pre_keys s) v (kyber_secret_key s) (kyber_public s) (pending_kyber_handshake s)
    (ephemeral_secret_key s) (ephemeral_x25519_public s) (selected_one_time_pre_key_id s)
    (inflight_handshake_init_hashes s) (recent_handshake_init_hashes s)
    (recent_handshake_init_order s) (event_handler s) (handler_calls s).
Definition set_pending_kyber_handshake (v : option HybridHandshakeArtifacts.t) (s : t) : t :=
  mk (identity_ed25519_secret_key s) (identity_ed25519_public s) (identity_x25519_secret_key s)
    (identity_x25519_public s) (identity_x25519_signature s) (signed_pre_key_id s)
    (signed_pre_key_secret_key s) (signed_pre_key_public s) (signed_pre_key_signature s)
    (one_time_pre_keys s) (one_time_pre_key_capacity s) (kyber_secret_key s) (kyber_public s) v
    (ephemeral_secret_key s) (ephemeral_x25519_public s) (selected_one_time_pre_key_id s)
    (inflight_handshake_init_hashes s) (recent_handshake_init_hashes s)
    (recent_handshake_init_order s) (event_handler s) (handler_calls s).
Definition set_ephemeral_secret_key (v : option SecureMemoryHandle.t) (s : t) : t :=
  mk (identity_ed25519_secret_key s) (identity_ed25519_public s) (identity_x25519_secret_key s)
    (identity_x25519_public s) (identity_x25519_signature s) (signed_pre_key_id s)
    (signed_pre_key_secret_key s) (signed_pre_key_public s) (signed_pre_key_signature s)
    (one_time_pre_keys s) (one_time_pre_key_capacity s) (kyber_secret_key s) (kyber_public s)
    (pending_kyber_handshake s) v (ephemeral_x25519_public s) (selected_one_time_pre_key_id s)
    (inflight_handshake_init_hashes s) (recent_handshake_init_hashes s)
    (recent_handshake_init_order s) (event_handler s) (handler_calls s).
Definition set_ephemeral_x25519_public (v : option bytes) (s : t) : t :=
  mk (identity_ed25519_secret_key s) (identity_ed25519_public s) (identity_x25519_secret_key s)
    (identity_x25519_public s) (identity_x25519_signature s) (signed_pre_key_id s)
    (signed_pre_key_secret_key s) (signed_pre_key_public s) (signed_pre_key_signature s)
    (one_time_pre_keys s) (one_time_pre_key_capacity s) (kyber_secret_key s) (kyber_public s)
    (pending_kyber_handshake s) (ephemeral_secret_key s) v (selected_one_time_pre_key_id s)
    (inflight_handshake_init_hashes s) (recent_handshake_init_hashes s)
    (recent_handshake_init_order s) (event_handler s) (handler_calls s).
Definition set_selected_one_time_pre_key_id (v : option Z) (s : t) : t :=
  mk (identity_ed25519_secret_key s) (identity_ed25519_public s) (identity_x25519_secret_key s)
    (identity_x25519_public s) (identity_x25519_signature s) (signed_pre_key_id s)
    (signed_pre_key_secret_key s) (signed_pre_key_public s) (signed_pre_key_signature s)
    (one_time_pre_keys s) (one_time_pre_key_capacity s) (kyber_secret_key s) (kyber_public s)
    (pending_kyber_handshake s) (ephemeral_secret_key s) (ephemeral_x25519_public s) v
    (inflight_handshake_init_hashes s) (recent_handshake_init_hashes s)
    (recent_handshake_init_order s) (event_handler s) (handler_calls s).
Definition set_inflight_handshake_init_hashes (v : list bytes) (s : t) : t :=
  mk (identity_ed25519_secret_key s) (identity_ed25519_public s) (identity_x25519_secret_key s)
    (identity_x25519_public s) (identity_x25519_signature s) (signed_pre_key_id s)
    (signed_pre_key_secret_key s) (signed_pre_key_public s) (signed_pre_key_signature s)
    (one_time_pre_keys s) (one_time_pre_key_capacity s) (kyber_secret_key s) (kyber_public s)
    (pending_kyber_handshake s) (ephemeral_secret_key s) (ephemeral_x25519_public s)
    (selected_one_time_pre_key_id s) v (recent_handshake_init_hashes s)
    (recent_handshake_init_order s) (event_handler s) (handler_calls s).
Definition set_recent_handshake_init_hashes (v : list bytes) (s : t) : t :=
  mk (identity_ed25519_secret_key s) (identity_ed25519_public s) (identity_x25519_secret_key s)
    (identity_x25519_public s) (identity_x25519_signature s) (signed_pre_key_id s)
    (signed_pre_key_secret_key s) (signed_pre_key_public s) (signed_pre_key_signature s)
    (one_time_pre_keys s) (one_time_pre_key_capacity s) (kyber_secret_key s) (kyber_public s)
    (pending_kyber_handshake s) (ephemeral_secret_key s) (ephemeral_x25519_public s)
    (selected_one_time_pre_key_id s) (inflight_handshake_init_hashes s) v
    (recent_handshake_init_order s) (event_handler s) (handler_calls s).
Definition set_recent_handshake_init_order (v : list bytes) (s : t) : t :=
  mk (identity_ed25519_secret_key s) (identity_ed25519_public s) (identity_x25519_secret_key s)
    (identity_x25519_public s) (identity_x25519_signature s) (signed_pre_key_id s)
    (signed_pre_key_secret_key s) (signed_pre_key_public s) (signed_pre_key_signature s)
    (one_time_pre_keys s) (one_time_pre_key_capacity s) (kyber_secret_key s) (kyber_public s)
    (pending_kyber_handshake s) (ephemeral_secret_key s) (ephemeral_x25519_public s)
    (selected_one_time_pre_key_id s) (inflight_handshake_init_hashes s)
    (recent_handshake_init_hashes s) v (event_handler s) (handler_calls s).
Definition set_event_handler (v : bool) (s : t) : t :=
  mk (identity_ed25519_secret_key s) (identity_ed25519_public s) (identity_x25519_secret_key s)
    (identity_x25519_public s) (identity_x25519_signature s) (signed_pre_key_id s)
    (signed_pre_key_secret_key s) (signed_pre_key_public s) (signed_pre_key_signature s)
    (one_time_pre_keys s) (one_time_pre_key_capacity s) (kyber_secret_key s) (kyber_public s)
    (pending_kyber_handshake s) (ephemeral_secret_key s) (ephemeral_x25519_public s)
    (selected_one_time_pre_key_id s) (inflight_handshake_init_hashes s)
    (recent_handshake_init_hashes s) (recent_handshake_init_order s) v (handler_calls s).
Definition set_handler_calls (v : list (Z * Z)) (s : t) : t :=
  mk (identity_ed25519_secret_key s) (identity_ed25519_public s) (identity_x25519_secret_key s)
    (identity_x25519_public s) (identity_x25519_signature s) (signed_pre_key_id s)
    (signed_pre_key_secret_key s) (signed_pre_key_public s) (signed_pre_key_signature s)
    (one_time_pre_keys s) (one_time_pre_key_capacity s) (kyber_secret_key s) (kyber_public s)
    (pending_kyber_handshake s) (ephemeral_secret_key s) (ephemeral_x25519_public s)
    (selected_one_time_pre_key_id s) (inflight_handshake_init_hashes s)
    (recent_handshake_init_hashes s) (recent_handshake_init_order s) (event_handler s) v.

End IdentityKeysInner.
Abbreviation IdentityKeysInner := IdentityKeysInner.t.
