(* ===== verification/Identity.v ===== *)
(** * Identity keys ([src/identity/identity_keys.rs])

    The long-term keys of a user, their one-time pre-keys, the replay state of
    the handshakes they answered, and the key agreement with a peer's bundle.
    Methods that take the write lock are state transformers of
    [IdentityKeysInner]; the lock itself, which serialises them, is not part of
    the model.  Random values are arguments. *)

From Stdlib Require Import ZArith List Bool Lia String.
From S2P Require Import Prelude Constants SeenSet SecureMemory Crypto Signatures DhValidator Proto IdentityModels.
Import ListNotations.
Open Scope string_scope.
Open Scope list_scope.
Open Scope Z_scope.

Abbreviation IdStm := (Stm ProtocolError.t IdentityKeysInner).

(** The randomness of a batch of one-time pre-keys: the candidate ids drawn for
    the [i]-th key and its secret. *)
Record OpkEntropy : Type := mkOpkEntropy {
  opk_draw : Z -> Z -> bytes;
  opk_secret : Z -> bytes }.

(** The randomness of [create]. *)
Record IdentityEntropy : Type := mkIdentityEntropy {
  ie_ed25519 : bytes;
  ie_x25519 : bytes;
  ie_spk_id : bytes;
  ie_spk : bytes;
  ie_opks : OpkEntropy;
  ie_kyber : bytes;
  ie_kyber_self_test : bytes }.

Section IdentityKeys.
Context {P : Primitives} {SG : Signatures}.

(** ** Construction *)

Definition IdentityKeys_new (material : IdentityKeyBundle.t) (identity_x25519_signature : bytes) :
    IdentityKeysInner :=
  let spk := IdentityKeyBundle.signed_pre_key material in
  let ed := IdentityKeyBundle.ed25519 material in
  let x := IdentityKeyBundle.identity_x25519 material in
  let opks := IdentityKeyBundle.one_time_pre_keys material in
  IdentityKeysInner.mk (Ed25519KeyPair.private_key ed) (Ed25519KeyPair.public_key ed)
    (X25519KeyPair.secret_key x) (X25519KeyPair.public_key x) identity_x25519_signature
    (SignedPreKeyPair.id spk) (SignedPreKeyPair.secret_key spk) (SignedPreKeyPair.public_key spk)
    (SignedPreKeyPair.signature spk) opks (Z.min (len opks) u32_max)
    (IdentityKeyBundle.kyber_secret_key material) (IdentityKeyBundle.kyber_public material)
    None None None None [] [] [] false [].

Definition generate_ed25519_keys (entropy : bytes) : PResult Ed25519KeyPair.t :=
  let secret_key := ed25519_keypair entropy in
  let public_key := ed25519_public secret_key in
  let? handle := crypto_err (SecureMemoryHandle.alloc_write ED25519_SECRET_KEY_BYTES secret_key) in
  Ed25519KeyPair.new handle public_key.

Definition generate_x25519_identity_keys (entropy : bytes) : PResult X25519KeyPair.t :=
  let? (handle, pk) := generate_x25519_keypair entropy in
  X25519KeyPair.new handle pk.

Definition generate_x25519_signed_pre_key (entropy : bytes) : PResult X25519KeyPair.t :=
  let? (handle, pk) := generate_x25519_keypair entropy in
  X25519KeyPair.new handle pk.

Definition sign_with_ed25519 (ed_secret_key_handle : SecureMemoryHandle.t) (message : bytes) : PResult bytes :=
  let? sk_bytes := crypto_err (SecureMemoryHandle.read_bytes ed_secret_key_handle ED25519_SECRET_KEY_BYTES) in
  check? len sk_bytes =? ED25519_SECRET_KEY_BYTES
    else ProtocolError.generic "Ed25519 secret key has wrong length" in
  check? ed25519_keypair_ok sk_bytes
    else ProtocolError.generic "Failed to parse Ed25519 keypair bytes" in
  Ok (ed25519_sign sk_bytes message).

Definition sign_signed_pre_key (ed_secret_key_handle : SecureMemoryHandle.t) (spk_public : bytes) : PResult bytes :=
  sign_with_ed25519 ed_secret_key_handle spk_public.

Definition sign_identity_x25519_binding (ed_secret_key_handle : SecureMemoryHandle.t)
    (identity_x25519_public : bytes) : PResult bytes :=
  sign_with_ed25519 ed_secret_key_handle identity_x25519_public.

Definition OPK_ID_RETRY_LIMIT : Z := 64.

(** [(raw % OPK_ID_MODULUS).wrapping_add(OPK_ID_OFFSET)] with [raw] the first four bytes. *)
Definition opk_id_of (rb : bytes) : Z :=
  wrap 32 (from_le_bytes (firstn 4 rb) mod OPK_ID_MODULUS + OPK_ID_OFFSET).

(** The retry loop: the first candidate not in use. *)
Fixpoint find_unused_opk_id (used_ids : list Z) (draws : list bytes) : option Z :=
  match draws with
  | [] => None
  | rb :: draws =>
      let candidate := opk_id_of rb in
      if existsb (Z.eqb candidate) used_ids then find_unused_opk_id used_ids draws
      else Some candidate
  end.

Definition generate_opk_step (e : OpkEntropy) (acc : list Z * list OneTimePreKey.t) (i : Z) :
    PResult (list Z * list OneTimePreKey.t) :=
  let '(used_ids, opks) := acc in
  let? id := ok_or (find_unused_opk_id used_ids (map (opk_draw e i) (zrange 0 OPK_ID_RETRY_LIMIT)))
    (ProtocolError.key_generation
       "Could not find an unused one-time prekey ID at index {i} after {OPK_ID_RETRY_LIMIT} attempts") in
  let? opk := OneTimePreKey.generate id (opk_secret e i) in
  Ok (id :: used_ids, opks ++ [opk]).

Definition generate_one_time_pre_keys_excluding (count : Z) (reserved_ids : list Z) (e : OpkEntropy) :
    PResult (list OneTimePreKey.t) :=
  if count =? 0 then Ok [] else
  let? (_, opks) := foldR (generate_opk_step e) (zrange 0 count) (reserved_ids, []) in
  Ok opks.

(** [count + i] is checked arithmetic: a count above [2^31] panics instead of wrapping. *)
Definition master_opk_step (master_key membership_id : bytes) (count : Z)
    (acc : list Z * list OneTimePreKey.t) (i : Z) : PResult (list Z * list OneTimePreKey.t) :=
  let '(used_ids, opks) := acc in
  let? id_seed := mkd_derive_one_time_pre_key_seed master_key membership_id i in
  let id := opk_id_of id_seed in
  check? negb (existsb (Z.eqb id) used_ids)
    else ProtocolError.key_generation "Deterministic OPK ID collision at index {i} (id={id})" in
  let? opk_seed := mkd_derive_one_time_pre_key_seed master_key membership_id (count + i) in
  let? opk := OneTimePreKey.create_from_seed id opk_seed in
  Ok (id :: used_ids, opks ++ [opk]).

Definition generate_one_time_pre_keys_from_master_key (master_key membership_id : bytes) (count : Z) :
    PResult (list OneTimePreKey.t) :=
  if count =? 0 then Ok [] else
  let? (_, opks) := foldR (master_opk_step master_key membership_id count) (zrange 0 count) ([], []) in
  Ok opks.

Definition IdentityKeys_create (one_time_key_count : Z) (e : IdentityEntropy) : PResult IdentityKeysInner :=
  let? ed_pair := generate_ed25519_keys (ie_ed25519 e) in
  let? x_pair := generate_x25519_identity_keys (ie_x25519 e) in
  let? identity_x25519_signature :=
    sign_identity_x25519_binding (Ed25519KeyPair.private_key ed_pair) (X25519KeyPair.public_key x_pair) in
  let spk_id := from_le_bytes (firstn 4 (ie_spk_id e)) in
  let? spk_pair := generate_x25519_signed_pre_key (ie_spk e) in
  let spk_public := X25519KeyPair.public_key spk_pair in
  let? spk_signature := sign_signed_pre_key (Ed25519KeyPair.private_key ed_pair) spk_public in
  let? opks := generate_one_time_pre_keys_excluding one_time_key_count [] (ie_opks e) in
  let? (kyber_sk, kyber_pk) := crypto_err (kyber_generate_keypair (ie_kyber e) (ie_kyber_self_test e)) in
  let? spk_material :=
    SignedPreKeyPair.new spk_id (X25519KeyPair.secret_key spk_pair) (X25519KeyPair.public_key spk_pair) spk_signature in
  Ok (IdentityKeys_new (IdentityKeyBundle.mk ed_pair x_pair spk_material opks kyber_sk kyber_pk)
        identity_x25519_signature).

Definition create_from_master_key (master_key membership_id : bytes) (one_time_key_count : Z) :
    PResult IdentityKeysInner :=
  let? ed_seed := mkd_derive_ed25519_seed master_key membership_id in
  let ed_secret := ed25519_keypair (firstn (Z.to_nat X25519_PRIVATE_KEY_BYTES) ed_seed) in
  let ed_public := ed25519_public ed_secret in
  let? ed_handle := crypto_err (SecureMemoryHandle.alloc_write ED25519_SECRET_KEY_BYTES ed_secret) in
  let? ed_material := Ed25519KeyPair.new ed_handle ed_public in
  let? x_seed := mkd_derive_x25519_seed master_key membership_id in
  let x_seed := clamp x_seed in
  let x_public := x25519_public (firstn (Z.to_nat X25519_PRIVATE_KEY_BYTES) x_seed) in
  let? x_handle := crypto_err (SecureMemoryHandle.alloc_write X25519_PRIVATE_KEY_BYTES x_seed) in
  let? x_material := X25519KeyPair.new x_handle x_public in
  let? identity_x25519_signature :=
    sign_identity_x25519_binding (Ed25519KeyPair.private_key ed_material) (X25519KeyPair.public_key x_material) in
  let? spk_seed := mkd_derive_signed_pre_key_seed master_key membership_id in
  let? spk_id_bytes := derive_key_bytes spk_seed SPK_ID_BYTES [] SPK_ID_INFO in
  let spk_id := from_le_bytes (firstn 4 spk_id_bytes) in
  let spk_secret := clamp (firstn (Z.to_nat X25519_PRIVATE_KEY_BYTES) spk_seed) in
  let spk_public := x25519_public (firstn (Z.to_nat X25519_PRIVATE_KEY_BYTES) spk_secret) in
  let? spk_handle := crypto_err (SecureMemoryHandle.alloc_write X25519_PRIVATE_KEY_BYTES spk_secret) in
  let? spk_signature := sign_signed_pre_key (Ed25519KeyPair.private_key ed_material) spk_public in
  let? spk_material := SignedPreKeyPair.new spk_id spk_handle spk_public spk_signature in
  let? opks := generate_one_time_pre_keys_from_master_key master_key membership_id one_time_key_count in
  let? kyber_seed := mkd_derive_kyber_seed master_key membership_id in
  let? (kyber_sk, kyber_pk) := crypto_err (kyber_generate_keypair_from_seed kyber_seed) in
  Ok (IdentityKeys_new (IdentityKeyBundle.mk ed_material x_material spk_material opks kyber_sk kyber_pk)
        identity_x25519_signature).

(** ** Keys *)

Definition get_identity_x25519_private_key_copy (inner : IdentityKeysInner) : PResult bytes :=
  crypto_err (SecureMemoryHandle.read_bytes (IdentityKeysInner.identity_x25519_secret_key inner)
                X25519_PRIVATE_KEY_BYTES).

Definition clone_kyber_secret_key (inner : IdentityKeysInner) : PResult SecureMemoryHandle.t :=
  let? key := crypto_err (SecureMemoryHandle.read_bytes (IdentityKeysInner.kyber_secret_key inner)
                            KYBER_SECRET_KEY_BYTES) in
  crypto_err (SecureMemoryHandle.alloc_write KYBER_SECRET_KEY_BYTES key).

Definition get_ephemeral_x25519_private_key_copy (inner : IdentityKeysInner) : PResult bytes :=
  let? handle := ok_or (IdentityKeysInner.ephemeral_secret_key inner)
    (ProtocolError.generic "Ephemeral key has not been generated") in
  crypto_err (SecureMemoryHandle.read_bytes handle X25519_PRIVATE_KEY_BYTES).

Definition get_identity_ed25519_private_key_copy (inner : IdentityKeysInner) : PResult bytes :=
  crypto_err (SecureMemoryHandle.read_bytes (IdentityKeysInner.identity_ed25519_secret_key inner)
                ED25519_SECRET_KEY_BYTES).

Definition get_signed_pre_key_private_copy (inner : IdentityKeysInner) : PResult bytes :=
  crypto_err (SecureMemoryHandle.read_bytes (IdentityKeysInner.signed_pre_key_secret_key inner)
                X25519_PRIVATE_KEY_BYTES).

Definition set_selected_one_time_pre_key_id (id : Z) : IdStm unit :=
  smod (IdentityKeysInner.set_selected_one_time_pre_key_id (Some id)).

Definition clear_selected_one_time_pre_key_id : IdStm unit :=
  smod (IdentityKeysInner.set_selected_one_time_pre_key_id None).

Definition create_public_bundle (inner : IdentityKeysInner) : LocalPublicKeyBundle.t :=
  LocalPublicKeyBundle.mk (IdentityKeysInner.identity_ed25519_public inner)
    (IdentityKeysInner.identity_x25519_public inner) (IdentityKeysInner.identity_x25519_signature inner)
    (IdentityKeysInner.signed_pre_key_id inner) (IdentityKeysInner.signed_pre_key_public inner)
    (IdentityKeysInner.signed_pre_key_signature inner)
    (map (fun opk => OneTimePreKeyPublic.mk (OneTimePreKey.id opk) (OneTimePreKey.public_key opk) None)
       (IdentityKeysInner.one_time_pre_keys inner))
    (IdentityKeysInner.ephemeral_x25519_public inner) (Some (IdentityKeysInner.kyber_public inner)) None None.

(** ** The ephemeral key pair of a handshake *)

Definition clear_ephemeral_key_pair_locked (inner : IdentityKeysInner) : IdentityKeysInner :=
  IdentityKeysInner.set_ephemeral_x25519_public None
    (IdentityKeysInner.set_ephemeral_secret_key None inner).

Definition clear_ephemeral_key_pair : IdStm unit := smod clear_ephemeral_key_pair_locked.

Definition generate_ephemeral_key_pair (entropy : bytes) : IdStm unit :=
  do inner <- sget (fun s => s);
  match IdentityKeysInner.ephemeral_secret_key inner, IdentityKeysInner.ephemeral_x25519_public inner with
  | Some _, Some _ => sret tt
  | _, _ =>
      do! smod clear_ephemeral_key_pair_locked;
      do (handle, public_key) <- slift (generate_x25519_keypair entropy);
      do! smod (IdentityKeysInner.set_ephemeral_secret_key (Some handle));
      smod (IdentityKeysInner.set_ephemeral_x25519_public (Some public_key))
  end.

Definition set_ephemeral_key_pair_from_seed (seed : bytes) : IdStm unit :=
  do! sguard (len seed =? X25519_PRIVATE_KEY_BYTES)
        (ProtocolError.invalid_input "Invalid seed size for deterministic ephemeral key");
  let private_key := clamp seed in
  let public_key := x25519_public (firstn (Z.to_nat X25519_PRIVATE_KEY_BYTES) private_key) in
  do handle <- slift (crypto_err (SecureMemoryHandle.alloc_write X25519_PRIVATE_KEY_BYTES private_key));
  do! smod (IdentityKeysInner.set_ephemeral_secret_key (Some handle));
  smod (IdentityKeysInner.set_ephemeral_x25519_public (Some public_key)).

(** ** Verification of a peer's keys *)

Definition verify_remote_spk_signature
    (remote_identity_ed25519 remote_spk_public remote_spk_signature : bytes) : PResult bool :=
  check? (len remote_identity_ed25519 =? ED25519_PUBLIC_KEY_BYTES) &&
         (len remote_spk_public =? X25519_PUBLIC_KEY_BYTES) &&
         (len remote_spk_signature =? ED25519_SIGNATURE_BYTES)
    else ProtocolError.invalid_input "Invalid key or signature length for SPK verification" in
  let? _ := Ed25519KeyPair.verify remote_identity_ed25519 remote_spk_public remote_spk_signature in
  Ok true.

Definition verify_remote_identity_x25519_signature
    (remote_identity_ed25519 remote_identity_x25519_public remote_identity_x25519_signature : bytes) : PResult bool :=
  check? (len remote_identity_ed25519 =? ED25519_PUBLIC_KEY_BYTES) &&
         (len remote_identity_x25519_public =? X25519_PUBLIC_KEY_BYTES) &&
         (len remote_identity_x25519_signature =? ED25519_SIGNATURE_BYTES)
    else ProtocolError.invalid_input
           "Invalid key or signature length for identity X25519 binding verification" in
  let? _ := Ed25519KeyPair.verify remote_identity_ed25519 remote_identity_x25519_public
              remote_identity_x25519_signature in
  Ok true.

(** ** One-time pre-keys *)

Definition find_opk (id : Z) (opks : list OneTimePreKey.t) : option OneTimePreKey.t :=
  find (fun opk => OneTimePreKey.id opk =? id) opks.

Definition find_one_time_pre_key_by_id (id : Z) (inner : IdentityKeysInner) : option bytes :=
  option_map OneTimePreKey.public_key (find_opk id (IdentityKeysInner.one_time_pre_keys inner)).

Definition get_one_time_pre_key_private_by_id (id : Z) (inner : IdentityKeysInner) : PResult bytes :=
  let? opk := ok_or (find_opk id (IdentityKeysInner.one_time_pre_keys inner))
    (ProtocolError.handshake "Requested OPK not found") in
  crypto_err (SecureMemoryHandle.read_bytes (OneTimePreKey.private_key opk) X25519_PRIVATE_KEY_BYTES).

Definition replenish_one_time_pre_keys (count : Z) (e : OpkEntropy) : IdStm (list (Z * bytes)) :=
  do inner <- sget (fun s => s);
  let reserved := map OneTimePreKey.id (IdentityKeysInner.one_time_pre_keys inner) in
  do new_opks <- slift (generate_one_time_pre_keys_excluding count reserved e);
  let pairs := map (fun opk => (OneTimePreKey.id opk, OneTimePreKey.public_key opk)) new_opks in
  do! smod (IdentityKeysInner.set_one_time_pre_keys (IdentityKeysInner.one_time_pre_keys inner ++ new_opks));
  do! smod (IdentityKeysInner.set_one_time_pre_key_capacity
              (Z.min (IdentityKeysInner.one_time_pre_key_capacity inner + count) u32_max));
  sret pairs.

Definition set_event_handler : IdStm unit := smod (IdentityKeysInner.set_event_handler true).

(** [pos = iter().position(..)] followed by [remove(pos)]; [None] when there is no such key. *)
Fixpoint remove_opk (id : Z) (opks : list OneTimePreKey.t) : option (list OneTimePreKey.t) :=
  match opks with
  | [] => None
  | opk :: rest =>
      if OneTimePreKey.id opk =? id then Some rest
      else option_map (cons opk) (remove_opk id rest)
  end.

(** [max_capacity.saturating_mul(OTK_EXHAUSTION_WARNING_PERCENT).div_ceil(100)] *)
Definition exhaustion_threshold (max_capacity : Z) : Z :=
  div_ceil (Z.min (max_capacity * OTK_EXHAUSTION_WARNING_PERCENT) u32_max) 100.

Definition consume_one_time_pre_key_by_id (id : Z) : IdStm unit :=
  do inner <- sget (fun s => s);
  do opks <- slift (ok_or (remove_opk id (IdentityKeysInner.one_time_pre_keys inner))
                      (ProtocolError.invalid_input "OPK with requested ID not found"));
  do! smod (IdentityKeysInner.set_one_time_pre_keys opks);
  let remaining := Z.min (len opks) u32_max in
  let max_capacity := IdentityKeysInner.one_time_pre_key_capacity inner in
  if (remaining <=? exhaustion_threshold max_capacity) && IdentityKeysInner.event_handler inner
  then smod (fun s => IdentityKeysInner.set_handler_calls
                        (IdentityKeysInner.handler_calls s ++ [(remaining, max_capacity)]) s)
  else sret tt.

(** ** The sealed replay state *)

Definition identity_replay_state_aad (external_counter : Z) : bytes :=
  IDENTITY_REPLAY_STATE_AAD ++ [IDENTITY_REPLAY_STATE_VERSION] ++ to_le_bytes 8 external_counter.

Definition replay_state_of (inner : IdentityKeysInner) (external_counter : Z) : IdentityReplayState.t :=
  IdentityReplayState.mk IDENTITY_REPLAY_STATE_VERSION (IdentityKeysInner.identity_ed25519_public inner)
    (map OneTimePreKey.id (IdentityKeysInner.one_time_pre_keys inner))
    (IdentityKeysInner.recent_handshake_init_order inner) external_counter.

Definition export_sealed_replay_state `{Prost IdentityReplayState.t} (inner : IdentityKeysInner)
    (seal_key : bytes) (external_counter : Z) (nonce : bytes) : PResult bytes :=
  check? len seal_key =? AES_KEY_BYTES
    else ProtocolError.invalid_input "Seal key must be {AES_KEY_BYTES} bytes" in
  let plaintext := encode (replay_state_of inner external_counter) in
  let aad := identity_replay_state_aad external_counter in
  let? ciphertext := aes_encrypt seal_key nonce plaintext aad in
  Ok ([IDENTITY_REPLAY_STATE_VERSION] ++ to_le_bytes 8 external_counter ++ nonce ++ ciphertext).

(** [const HEADER: usize = 1 + 8 + AES_GCM_NONCE_BYTES] *)
Definition REPLAY_HEADER : Z := 1 + 8 + AES_GCM_NONCE_BYTES.

(** The checks of a decoded replay state that need no lock. *)
Definition check_replay_state (state : IdentityReplayState.t) : PResult unit :=
  check? IdentityReplayState.state_version state =? IDENTITY_REPLAY_STATE_VERSION
    else ProtocolError.invalid_input "Unsupported sealed identity replay state version" in
  check? len (IdentityReplayState.recent_handshake_init_fingerprints state) <=? MAX_SEEN_HANDSHAKE_INITS
    else ProtocolError.invalid_input "Sealed identity replay state has too many fingerprints" in
  check? forallb (fun fp => len fp =? HMAC_BYTES) (IdentityReplayState.recent_handshake_init_fingerprints state)
    else ProtocolError.invalid_input "Sealed identity replay state has a malformed fingerprint" in
  Ok tt.

(** [for fingerprint in .. { hashes.insert(fingerprint.clone()); order.push_back(fingerprint) }] *)
Definition rebuild_recent (fps : list bytes) : list bytes * list bytes :=
  fold_left (fun acc fp => (bset_insert (fst acc) fp, snd acc ++ [fp])) fps ([], []).

Definition restore_sealed_replay_state `{Prost IdentityReplayState.t} (sealed seal_key : bytes)
    (min_external_counter : Z) : IdStm Z :=
  do! sguard (len seal_key =? AES_KEY_BYTES)
        (ProtocolError.invalid_input "Seal key must be {AES_KEY_BYTES} bytes");
  do! sguard (negb (len sealed <=? REPLAY_HEADER))
        (ProtocolError.invalid_input "Sealed identity replay state is truncated");
  do! sguard (nth 0 sealed 0 =? IDENTITY_REPLAY_STATE_VERSION)
        (ProtocolError.invalid_input "Unsupported sealed identity replay state version");
  let external_counter := from_le_bytes (firstn 8 (skipn 1 sealed)) in
  do! sguard (negb (external_counter <? min_external_counter))
        (ProtocolError.invalid_state "Sealed identity replay state is older than the expected counter");
  let nonce := firstn (Z.to_nat AES_GCM_NONCE_BYTES) (skipn 9 sealed) in
  let aad := identity_replay_state_aad external_counter in
  do plaintext <- slift (aes_decrypt seal_key nonce (skipn (Z.to_nat REPLAY_HEADER) sealed) aad);
  do state <- slift (ok_or (decode plaintext) (ProtocolError.decode "IdentityReplayState decode: {e}"));
  do! slift (check_replay_state state);
  do inner <- sget (fun s => s);
  do! sguard (bytes_eqb (IdentityReplayState.identity_ed25519_public state)
                (IdentityKeysInner.identity_ed25519_public inner))
        (ProtocolError.invalid_input "Sealed identity replay state belongs to a different identity");
  let remaining := IdentityReplayState.remaining_one_time_pre_key_ids state in
  do! smod (IdentityKeysInner.set_one_time_pre_keys
              (filter (fun opk => existsb (Z.eqb (OneTimePreKey.id opk)) remaining)
                 (IdentityKeysInner.one_time_pre_keys inner)));
  let '(hashes, order) := rebuild_recent (IdentityReplayState.recent_handshake_init_fingerprints state) in
  do! smod (IdentityKeysInner.set_recent_handshake_init_hashes hashes);
  do! smod (IdentityKeysInner.set_recent_handshake_init_order order);
  sret external_counter.

Definition sealed_replay_state_external_counter (sealed : bytes) : PResult Z :=
  check? negb ((len sealed <? 9) || negb (nth 0 sealed 0 =? IDENTITY_REPLAY_STATE_VERSION))
    else ProtocolError.invalid_input "Sealed identity replay state is malformed" in
  Ok (from_le_bytes (firstn 8 (skipn 1 sealed))).

(** ** Fingerprints of the handshakes answered *)

Definition reserve_handshake_init_fingerprint (fingerprint : bytes) : IdStm bool :=
  do! sguard (len fingerprint =? HMAC_BYTES)
        (ProtocolError.invalid_input "Invalid HandshakeInit fingerprint size");
  do inner <- sget (fun s => s);
  if bset_contains (IdentityKeysInner.recent_handshake_init_hashes inner) fingerprint ||
     bset_contains (IdentityKeysInner.inflight_handshake_init_hashes inner) fingerprint
  then sret false
  else
    do! sguard (negb (MAX_INFLIGHT_HANDSHAKE_INITS <=? len (IdentityKeysInner.inflight_handshake_init_hashes inner)))
          (ProtocolError.invalid_state "Too many inflight HandshakeInit reservations");
    do! smod (IdentityKeysInner.set_inflight_handshake_init_hashes
                (bset_insert (IdentityKeysInner.inflight_handshake_init_hashes inner) fingerprint));
    sret true.

Definition remember_handshake_init_fingerprint (fingerprint : bytes) : IdStm unit :=
  do! sguard (len fingerprint =? HMAC_BYTES)
        (ProtocolError.invalid_input "Invalid HandshakeInit fingerprint size");
  do! smod (fun s => IdentityKeysInner.set_inflight_handshake_init_hashes
              (bset_remove (IdentityKeysInner.inflight_handshake_init_hashes s) fingerprint) s);
  do inner <- sget (fun s => s);
  if bset_contains (IdentityKeysInner.recent_handshake_init_hashes inner) fingerprint then sret tt
  else
    let '(hashes, order) :=
      prune_recent MAX_SEEN_HANDSHAKE_INITS
        (bset_insert (IdentityKeysInner.recent_handshake_init_hashes inner) fingerprint)
        (IdentityKeysInner.recent_handshake_init_order inner ++ [fingerprint]) in
    do! smod (IdentityKeysInner.set_recent_handshake_init_hashes hashes);
    smod (IdentityKeysInner.set_recent_handshake_init_order order).

Definition release_handshake_init_fingerprint (fingerprint : bytes) (s : IdentityKeysInner) : IdentityKeysInner :=
  if negb (len fingerprint =? HMAC_BYTES) then s
  else IdentityKeysInner.set_inflight_handshake_init_hashes
         (bset_remove (IdentityKeysInner.inflight_handshake_init_hashes s) fingerprint) s.

Definition forget_handshake_init_fingerprint (fingerprint : bytes) : IdStm unit :=
  do! sguard (len fingerprint =? HMAC_BYTES)
        (ProtocolError.invalid_input "Invalid HandshakeInit fingerprint size");
  do! smod (fun s => IdentityKeysInner.set_inflight_handshake_init_hashes
              (bset_remove (IdentityKeysInner.inflight_handshake_init_hashes s) fingerprint) s);
  do! smod (fun s => IdentityKeysInner.set_recent_handshake_init_hashes
              (bset_remove (IdentityKeysInner.recent_handshake_init_hashes s) fingerprint) s);
  smod (fun s => IdentityKeysInner.set_recent_handshake_init_order
          (filter (fun entry => negb (bytes_eqb entry fingerprint))
             (IdentityKeysInner.recent_handshake_init_order s)) s).

(** ** Pending hybrid secrets *)

Definition store_pending_kyber_handshake (kyber_ciphertext kyber_shared_secret : bytes) : IdStm unit :=
  smod (IdentityKeysInner.set_pending_kyber_handshake
          (Some (HybridHandshakeArtifacts.mk kyber_ciphertext kyber_shared_secret))).

Definition consume_pending_kyber_handshake : IdStm HybridHandshakeArtifacts.t :=
  do artifacts <- sget IdentityKeysInner.pending_kyber_handshake;
  do! smod (IdentityKeysInner.set_pending_kyber_handshake None);
  slift (ok_or artifacts (ProtocolError.invalid_input "No pending Kyber handshake data")).

Definition get_pending_kyber_ciphertext (inner : IdentityKeysInner) : PResult bytes :=
  ok_or (option_map HybridHandshakeArtifacts.kyber_ciphertext (IdentityKeysInner.pending_kyber_handshake inner))
    (ProtocolError.invalid_input "No pending Kyber handshake data").

Definition decapsulate_kyber_ciphertext (ciphertext : bytes) (inner : IdentityKeysInner) :
    PResult HybridHandshakeArtifacts.t :=
  let? _ := crypto_err (kyber_validate_ciphertext ciphertext) in
  let? ss_handle := crypto_err (kyber_decapsulate ciphertext (IdentityKeysInner.kyber_secret_key inner)) in
  let? ss_bytes := crypto_err (SecureMemoryHandle.read_bytes ss_handle KYBER_SHARED_SECRET_BYTES) in
  Ok (HybridHandshakeArtifacts.mk ciphertext ss_bytes).

End IdentityKeys.

(** * Hybrid X3DH of the identity ([x3dh_derive_shared_secret])

    The key agreement the identity offers outside the handshake messages: up to
    four Diffie-Hellman results and an ML-KEM secret.  The buffer [dh_results]
    with its offset is the list of the bytes written so far. *)

Section X3dh.
Context {P : Primitives} {SG : Signatures}.

Definition validate_hkdf_info (info : bytes) : PResult unit :=
  check? negb (len info =? 0) else ProtocolError.derive_key "HKDF info cannot be empty" in
  Ok tt.

(** [.map_err(|e| ProtocolError::peer_pub_key(..))] *)
Definition peer_key_err {A} (msg : string) (r : PResult A) : PResult A :=
  map_err (fun _ => ProtocolError.peer_pub_key msg) r.

Definition validate_remote_opk (opk : OneTimePreKeyPublic.t) : PResult unit :=
  let? _ := peer_key_err "Invalid remote one-time X25519 key: {e}"
              (DhValidator.validate_x25519_public_key (OneTimePreKeyPublic.public_key opk)) in
  match OneTimePreKeyPublic.kyber_public opk with
  | Some kyber_public => crypto_err (kyber_validate_public_key kyber_public)
  | None => Ok tt
  end.

Definition validate_remote_bundle (bundle : LocalPublicKeyBundle.t) : PResult unit :=
  check? len (LocalPublicKeyBundle.identity_ed25519_public bundle) =? ED25519_PUBLIC_KEY_BYTES
    else ProtocolError.peer_pub_key "Invalid remote Ed25519 identity key" in
  check? len (LocalPublicKeyBundle.identity_x25519_public bundle) =? X25519_PUBLIC_KEY_BYTES
    else ProtocolError.peer_pub_key "Invalid remote identity X25519 key" in
  check? len (LocalPublicKeyBundle.signed_pre_key_public bundle) =? X25519_PUBLIC_KEY_BYTES
    else ProtocolError.peer_pub_key "Invalid remote signed pre-key public key" in
  let? _ := peer_key_err "Invalid remote identity X25519 key: {e}"
              (DhValidator.validate_x25519_public_key (LocalPublicKeyBundle.identity_x25519_public bundle)) in
  let? _ := peer_key_err "Invalid remote signed pre-key X25519 key: {e}"
              (DhValidator.validate_x25519_public_key (LocalPublicKeyBundle.signed_pre_key_public bundle)) in
  let? _ := match LocalPublicKeyBundle.ephemeral_x25519_public bundle with
            | Some ephemeral => peer_key_err "Invalid remote ephemeral X25519 key: {e}"
                                  (DhValidator.validate_x25519_public_key ephemeral)
            | None => Ok tt
            end in
  let? _ := foldR (fun _ opk => validate_remote_opk opk) (LocalPublicKeyBundle.one_time_pre_keys bundle) tt in
  let? _ := verify_remote_identity_x25519_signature (LocalPublicKeyBundle.identity_ed25519_public bundle)
              (LocalPublicKeyBundle.identity_x25519_public bundle)
              (LocalPublicKeyBundle.identity_x25519_signature bundle) in
  let? _ := verify_remote_spk_signature (LocalPublicKeyBundle.identity_ed25519_public bundle)
              (LocalPublicKeyBundle.signed_pre_key_public bundle)
              (LocalPublicKeyBundle.signed_pre_key_signature bundle) in
  match LocalPublicKeyBundle.kyber_public bundle with
  | Some kp =>
      check? len kp =? KYBER_PUBLIC_KEY_BYTES
        else ProtocolError.peer_pub_key "Invalid remote Kyber-768 public key" in
      crypto_err (kyber_validate_public_key kp)
  | None => Err (ProtocolError.peer_pub_key "Invalid remote Kyber-768 public key")
  end.

Definition ensure_local_keys_valid (inner : IdentityKeysInner) : PResult unit :=
  let? _ := ok_or (IdentityKeysInner.ephemeral_secret_key inner)
              (ProtocolError.prepare_local "Local ephemeral key missing or invalid") in
  Ok tt.

Definition identity_x25519_dh (private_key public_key : bytes) : PResult bytes :=
  check? len private_key =? X25519_PRIVATE_KEY_BYTES
    else ProtocolError.generic "Invalid X25519 private key size" in
  check? len public_key =? X25519_PUBLIC_KEY_BYTES
    else ProtocolError.generic "Invalid X25519 public key size" in
  let? _ := DhValidator.validate_x25519_public_key public_key in
  let shared := x25519_dh private_key public_key in
  check? negb (fold_left Z.lor shared 0 =? 0)
    else ProtocolError.invalid_input "X25519 DH produced all-zero shared secret" in
  Ok shared.

Definition perform_x3dh_dh_as_initiator (ephemeral_secret identity_secret : bytes)
    (remote_bundle : LocalPublicKeyBundle.t) (one_time_pre_key_id : option Z) : PResult bytes :=
  let? dh1 := identity_x25519_dh identity_secret (LocalPublicKeyBundle.signed_pre_key_public remote_bundle) in
  let? dh2 := identity_x25519_dh ephemeral_secret (LocalPublicKeyBundle.identity_x25519_public remote_bundle) in
  let? dh3 := identity_x25519_dh ephemeral_secret (LocalPublicKeyBundle.signed_pre_key_public remote_bundle) in
  let not_found := ProtocolError.invalid_input "Requested OPK ID not found in peer bundle" in
  match one_time_pre_key_id with
  | Some opk_id =>
      if LocalPublicKeyBundle.has_one_time_pre_keys remote_bundle then
        let? opk := ok_or (find (fun opk => OneTimePreKeyPublic.id opk =? opk_id)
                             (LocalPublicKeyBundle.one_time_pre_keys remote_bundle)) not_found in
        check? len (OneTimePreKeyPublic.public_key opk) =? X25519_PUBLIC_KEY_BYTES else not_found in
        let? dh4 := identity_x25519_dh ephemeral_secret (OneTimePreKeyPublic.public_key opk) in
        Ok (dh1 ++ dh2 ++ dh3 ++ dh4)
      else Ok (dh1 ++ dh2 ++ dh3)
  | None => Ok (dh1 ++ dh2 ++ dh3)
  end.

Definition perform_x3dh_dh_as_responder (inner : IdentityKeysInner) (remote_bundle : LocalPublicKeyBundle.t)
    (used_one_time_pre_key_id : option Z) : PResult bytes :=
  let? peer_ephemeral := ok_or (LocalPublicKeyBundle.ephemeral_x25519_public remote_bundle)
    (ProtocolError.invalid_input "Remote bundle must have ephemeral key for responder X3DH") in
  let peer_identity := LocalPublicKeyBundle.identity_x25519_public remote_bundle in
  let? spk_secret := get_signed_pre_key_private_copy inner in
  let? identity_secret := get_identity_x25519_private_key_copy inner in
  let? dh1 := identity_x25519_dh spk_secret peer_identity in
  let? dh2 := identity_x25519_dh identity_secret peer_ephemeral in
  let? dh3 := identity_x25519_dh spk_secret peer_ephemeral in
  match used_one_time_pre_key_id with
  | Some opk_id =>
      let? opk := ok_or (find_opk opk_id (IdentityKeysInner.one_time_pre_keys inner))
        (ProtocolError.invalid_input "OPK with requested ID not found") in
      let? opk_secret := crypto_err (SecureMemoryHandle.read_bytes (OneTimePreKey.private_key opk)
                                       X25519_PRIVATE_KEY_BYTES) in
      let? dh4 := identity_x25519_dh opk_secret peer_ephemeral in
      Ok (dh1 ++ dh2 ++ dh3 ++ dh4)
  | None => Ok (dh1 ++ dh2 ++ dh3)
  end.

(** [a.or(b)] *)
Definition opt_or {A} (a b : option A) : option A := match a with Some _ => a | None => b end.

(** The Diffie-Hellman part: the key id used and the bytes of [dh_results]. *)
Definition x3dh_dh_part (remote_bundle : LocalPublicKeyBundle.t) (is_initiator : bool) : IdStm (option Z * bytes) :=
  do inner <- sget (fun s => s);
  let used := LocalPublicKeyBundle.used_one_time_pre_key_id remote_bundle in
  let selected := IdentityKeysInner.selected_one_time_pre_key_id inner in
  if is_initiator then
    do handle <- slift (ok_or (IdentityKeysInner.ephemeral_secret_key inner)
                          (ProtocolError.prepare_local "Local ephemeral key missing"));
    do eph_secret <- slift (crypto_err (SecureMemoryHandle.read_bytes handle X25519_PRIVATE_KEY_BYTES));
    do id_secret <- slift (get_identity_x25519_private_key_copy inner);
    let opk_to_use := opt_or used selected in
    do! smod (IdentityKeysInner.set_selected_one_time_pre_key_id opk_to_use);
    do dhs <- slift (perform_x3dh_dh_as_initiator eph_secret id_secret remote_bundle opk_to_use);
    sret (opk_to_use, dhs)
  else
    let opk_to_use := opt_or selected used in
    do dhs <- slift (perform_x3dh_dh_as_responder inner remote_bundle opk_to_use);
    sret (opk_to_use, dhs).

(** The ML-KEM part: ciphertext, secret, and whether they were stored before. *)
Definition x3dh_kyber_part (remote_bundle : LocalPublicKeyBundle.t) (is_initiator : bool) (entropy : bytes)
    (inner : IdentityKeysInner) : PResult (bytes * bytes * bool) :=
  let has_peer_ct := LocalPublicKeyBundle.has_kyber_ciphertext remote_bundle in
  match IdentityKeysInner.pending_kyber_handshake inner with
  | Some artifacts =>
      if is_initiator || negb has_peer_ct
      then Ok (HybridHandshakeArtifacts.kyber_ciphertext artifacts,
               HybridHandshakeArtifacts.kyber_shared_secret artifacts, true)
      else
        let? peer_ct := ok_or (LocalPublicKeyBundle.kyber_ciphertext remote_bundle)
          (ProtocolError.invalid_input "Remote bundle missing Kyber ciphertext") in
        let? a := decapsulate_kyber_ciphertext peer_ct inner in
        Ok (peer_ct, HybridHandshakeArtifacts.kyber_shared_secret a, false)
  | None =>
      if has_peer_ct then
        let? peer_ct := ok_or (LocalPublicKeyBundle.kyber_ciphertext remote_bundle)
          (ProtocolError.invalid_input "Remote bundle missing Kyber ciphertext") in
        let? a := decapsulate_kyber_ciphertext peer_ct inner in
        Ok (peer_ct, HybridHandshakeArtifacts.kyber_shared_secret a, false)
      else
        let? remote_kyber_pk := ok_or (LocalPublicKeyBundle.kyber_public remote_bundle)
          (ProtocolError.invalid_input "Remote bundle missing Kyber public key") in
        let? (ct, ss_handle) := crypto_err (kyber_encapsulate remote_kyber_pk entropy) in
        let? ss := crypto_err (SecureMemoryHandle.read_bytes ss_handle KYBER_SHARED_SECRET_BYTES) in
        Ok (ct, ss, false)
  end.

(** [if let Some(idx) = position(..) { remove(idx) }] *)
Definition drop_opk (id : Z) (opks : list OneTimePreKey.t) : list OneTimePreKey.t :=
  match remove_opk id opks with Some rest => rest | None => opks end.

Definition x3dh_derive_shared_secret (remote_bundle : LocalPublicKeyBundle.t) (info : bytes)
    (is_initiator : bool) (entropy : bytes) : IdStm SecureMemoryHandle.t :=
  do! slift (validate_hkdf_info info);
  do! slift (validate_remote_bundle remote_bundle);
  do! sgets ensure_local_keys_valid;
  do! sguard (LocalPublicKeyBundle.has_kyber_public remote_bundle)
        (ProtocolError.invalid_input "Remote Kyber public key required for hybrid X3DH");
  do (used_one_time_pre_key_id, dh_results) <- x3dh_dh_part remote_bundle is_initiator;
  let ikm := repeat X3DH_FILL_BYTE (Z.to_nat X25519_SHARED_SECRET_BYTES) ++ dh_results in
  do classical_shared <- slift (derive_key_bytes ikm X25519_SHARED_SECRET_BYTES [] info);
  do (kyber_ciphertext, kyber_ss_bytes, used_stored) <- sgets (x3dh_kyber_part remote_bundle is_initiator entropy);
  do hybrid_bytes <- slift (combine_hybrid_secrets classical_shared kyber_ss_bytes X25519_SHARED_SECRET_BYTES X3DH_INFO);
  do! smod (fun s => if used_stored then s else IdentityKeysInner.set_pending_kyber_handshake
                       (Some (HybridHandshakeArtifacts.mk kyber_ciphertext kyber_ss_bytes)) s);
  do! smod (fun s => if is_initiator then clear_ephemeral_key_pair_locked s else s);
  do! smod (fun s =>
        match is_initiator, used_one_time_pre_key_id with
        | false, Some opk_id => IdentityKeysInner.set_one_time_pre_keys
                                  (drop_opk opk_id (IdentityKeysInner.one_time_pre_keys s)) s
        | _, _ => s
        end);
  do! smod (IdentityKeysInner.set_selected_one_time_pre_key_id None);
  slift (crypto_err (SecureMemoryHandle.alloc_write X25519_SHARED_SECRET_BYTES hybrid_bytes)).

End X3dh.
