(* ===== verification/Handshake.v ===== *)
(** * The handshake ([src/protocol/handshake.rs])

    The initiator derives a root key from a pre-key bundle and sends a
    [HandshakeInit]; the responder checks it, consumes the one-time pre-key it
    names and answers with a key confirmation.  A message is answered at most
    once: its fingerprint is reserved, locally and with an optional guard of the
    host, before anything else happens, and the reservation is released when the
    answer fails ([Drop] of [HandshakeInitReplayReservation]). *)

From Stdlib Require Import ZArith List Bool Lia String.
From S2P Require Import Prelude Constants SeenSet SecureMemory Crypto Signatures DhValidator Nonce Proto.
From S2P Require Import SessionState Session IdentityModels Identity.
Import ListNotations.
Open Scope string_scope.
Open Scope list_scope.
Open Scope Z_scope.

(** The randomness of [start]. *)
Record InitiatorEntropy : Type := mkInitiatorEntropy {
  he_ephemeral : bytes;
  he_opk_index : Z;
  he_kyber : bytes;
  he_nonce_prefix : bytes }.

Record InitiatorState : Type := mkInitiatorState {
  is_session_state : option HandshakeState;
  is_expected_ack_mac : bytes }.

Record HandshakeInitiator : Type := mkHandshakeInitiator {
  hi_init_message : HandshakeInit.t;
  hi_init_bytes : bytes;
  hi_state : option InitiatorState }.

Record HandshakeResponder : Type := mkHandshakeResponder {
  hr_ack_message : HandshakeAck.t;
  hr_ack_bytes : bytes;
  hr_state : option HandshakeState }.

(** [trait HandshakeInitReplayGuard]: an object of the host with its own state. *)
Record ReplayGuard (G : Type) : Type := mkReplayGuard {
  rg_reserve : bytes -> Stm ProtocolError.t G bool;
  rg_commit : bytes -> Stm ProtocolError.t G unit;
  rg_release : bytes -> Stm ProtocolError.t G unit }.
Arguments rg_reserve {G}.
Arguments rg_commit {G}.
Arguments rg_release {G}.

Record Reservation : Type := mkReservation {
  rv_fingerprint : bytes;
  rv_local_reserved : bool;
  rv_local_committed : bool;
  rv_remote_reserved : bool;
  rv_committed : bool }.

(** Running a step on the identity or on the guard. *)
Definition on_fst {E S1 S2 A} (c : Stm E S1 A) : Stm E (S1 * S2) A :=
  fun s => let '(r, s1) := c (fst s) in (r, (s1, snd s)).
Definition on_snd {E S1 S2 A} (c : Stm E S2 A) : Stm E (S1 * S2) A :=
  fun s => let '(r, s2) := c (snd s) in (r, (fst s, s2)).

Section Handshake.
Context {P : Primitives} {SG : Signatures}.
Context {CB : Prost PreKeyBundle.t} {CI : Prost HandshakeInit.t} {CA : Prost HandshakeAck.t}.

Definition compute_hmac_sha256 (key data : bytes) : PResult bytes :=
  check? len key =? HMAC_BYTES else ProtocolError.invalid_input "HMAC key must be 32 bytes" in
  Ok (hmac_sha256 key data).

Definition handshake_dh (private_key public_key : bytes) (context : string) : PResult bytes :=
  check? (len private_key =? X25519_PRIVATE_KEY_BYTES) && (len public_key =? X25519_PUBLIC_KEY_BYTES)
    else ProtocolError.invalid_input "Invalid X25519 key size for DH" in
  let shared_bytes := x25519_dh private_key public_key in
  check? negb (is_all_zero shared_bytes)
    else ProtocolError.handshake "X25519 DH produced all-zero output for {context} (RFC 7748 6.1)" in
  Ok shared_bytes.

Definition build_transcript_hash (bundle : PreKeyBundle.t) (init : HandshakeInit.t) : bytes :=
  let bundle_bytes := encode bundle in
  let init_copy := HandshakeInit.set_key_confirmation_mac [] init in
  let init_bytes := encode init_copy in
  hmac_sha256 TRANSCRIPT_LABEL (len_prefixed bundle_bytes ++ len_prefixed init_bytes).

Definition build_handshake_init_fingerprint (init : HandshakeInit.t) : bytes := sha256 (encode init).

Definition build_metadata_context (self_dh_public peer_dh_public session_id : bytes) : bytes :=
  let keys := sort_pair self_dh_public peer_dh_public in
  fst keys ++ snd keys ++ session_id.

Definition build_init_identity_binding_message
    (initiator_identity_ed25519_public initiator_identity_x25519_public initiator_kyber_public : bytes) : bytes :=
  HANDSHAKE_INIT_IDENTITY_BINDING_INFO ++ initiator_identity_ed25519_public ++
  initiator_identity_x25519_public ++ initiator_kyber_public.

Definition sign_init_identity_binding (ed25519_secret initiator_identity_ed25519_public
    initiator_identity_x25519_public initiator_kyber_public : bytes) : PResult bytes :=
  check? len ed25519_secret =? ED25519_SECRET_KEY_BYTES
    else ProtocolError.invalid_input "Invalid Ed25519 secret key size for handshake identity binding" in
  check? ed25519_keypair_ok ed25519_secret
    else ProtocolError.key_generation "Invalid Ed25519 keypair bytes" in
  let message := build_init_identity_binding_message initiator_identity_ed25519_public
    initiator_identity_x25519_public initiator_kyber_public in
  Ok (ed25519_sign ed25519_secret message).

Definition verify_init_identity_binding (init : HandshakeInit.t) : PResult unit :=
  let message := build_init_identity_binding_message
    (HandshakeInit.initiator_identity_ed25519_public init)
    (HandshakeInit.initiator_identity_x25519_public init)
    (HandshakeInit.initiator_kyber_public init) in
  Ed25519KeyPair.verify (HandshakeInit.initiator_identity_ed25519_public init) message
    (HandshakeInit.initiator_identity_binding_signature init).

Definition validate_bundle_opk (opk : OneTimePreKeyMessage.t) : PResult unit :=
  check? len (OneTimePreKeyMessage.public_key opk) =? X25519_PUBLIC_KEY_BYTES
    else ProtocolError.invalid_input "Invalid OPK size in PreKeyBundle" in
  DhValidator.validate_x25519_public_key (OneTimePreKeyMessage.public_key opk).

Definition validate_bundle (bundle : PreKeyBundle.t) : PResult unit :=
  check? PreKeyBundle.version bundle =? PROTOCOL_VERSION
    else ProtocolError.invalid_input "Invalid PreKeyBundle version" in
  check? (len (PreKeyBundle.identity_ed25519_public bundle) =? ED25519_PUBLIC_KEY_BYTES) &&
         (len (PreKeyBundle.identity_x25519_public bundle) =? X25519_PUBLIC_KEY_BYTES) &&
         (len (PreKeyBundle.identity_x25519_signature bundle) =? ED25519_SIGNATURE_BYTES) &&
         (len (PreKeyBundle.signed_pre_key_public bundle) =? X25519_PUBLIC_KEY_BYTES) &&
         (len (PreKeyBundle.signed_pre_key_signature bundle) =? ED25519_SIGNATURE_BYTES)
    else ProtocolError.invalid_input "Invalid PreKeyBundle key sizes" in
  check? len (PreKeyBundle.kyber_public bundle) =? KYBER_PUBLIC_KEY_BYTES
    else ProtocolError.invalid_input "Kyber public key required for handshake" in
  let? _ := verify_remote_identity_x25519_signature (PreKeyBundle.identity_ed25519_public bundle)
              (PreKeyBundle.identity_x25519_public bundle) (PreKeyBundle.identity_x25519_signature bundle) in
  let? _ := verify_remote_spk_signature (PreKeyBundle.identity_ed25519_public bundle)
              (PreKeyBundle.signed_pre_key_public bundle) (PreKeyBundle.signed_pre_key_signature bundle) in
  let? _ := DhValidator.validate_x25519_public_key (PreKeyBundle.identity_x25519_public bundle) in
  let? _ := DhValidator.validate_x25519_public_key (PreKeyBundle.signed_pre_key_public bundle) in
  check? len (PreKeyBundle.one_time_pre_keys bundle) <=? MAX_ONE_TIME_PRE_KEYS_PER_BUNDLE
    else ProtocolError.invalid_input "PreKeyBundle has too many one-time pre-keys" in
  let? _ := foldR (fun _ opk => validate_bundle_opk opk) (PreKeyBundle.one_time_pre_keys bundle) tt in
  crypto_err (kyber_validate_public_key (PreKeyBundle.kyber_public bundle)).

Definition validate_max_messages_per_chain (max : Z) : PResult unit :=
  check? negb (max =? 0)
    else ProtocolError.invalid_input "Max messages per chain must be greater than zero" in
  check? max <=? MAX_MESSAGES_PER_CHAIN
    else ProtocolError.invalid_input "Max messages per chain exceeds protocol limit" in
  Ok tt.

Definition validate_init_message (init : HandshakeInit.t) : PResult unit :=
  check? HandshakeInit.version init =? PROTOCOL_VERSION
    else ProtocolError.invalid_input "Invalid HandshakeInit version" in
  check? (len (HandshakeInit.initiator_identity_ed25519_public init) =? ED25519_PUBLIC_KEY_BYTES) &&
         (len (HandshakeInit.initiator_identity_x25519_public init) =? X25519_PUBLIC_KEY_BYTES) &&
         (len (HandshakeInit.initiator_ephemeral_x25519_public init) =? X25519_PUBLIC_KEY_BYTES)
    else ProtocolError.invalid_input "Invalid initiator key sizes" in
  check? len (HandshakeInit.kyber_ciphertext init) =? KYBER_CIPHERTEXT_BYTES
    else ProtocolError.invalid_input "Kyber ciphertext required for handshake" in
  check? len (HandshakeInit.key_confirmation_mac init) =? HMAC_BYTES
    else ProtocolError.invalid_input "Invalid key confirmation MAC size" in
  check? len (HandshakeInit.initiator_identity_binding_signature init) =? ED25519_SIGNATURE_BYTES
    else ProtocolError.invalid_input "Invalid initiator identity binding signature size" in
  check? len (HandshakeInit.initiator_kyber_public init) =? KYBER_PUBLIC_KEY_BYTES
    else ProtocolError.invalid_input "Initiator Kyber public key required for handshake" in
  let? _ := DhValidator.validate_x25519_public_key (HandshakeInit.initiator_identity_x25519_public init) in
  let? _ := DhValidator.validate_x25519_public_key (HandshakeInit.initiator_ephemeral_x25519_public init) in
  let? _ := crypto_err (kyber_validate_ciphertext (HandshakeInit.kyber_ciphertext init)) in
  let? _ := crypto_err (kyber_validate_public_key (HandshakeInit.initiator_kyber_public init)) in
  let? _ := validate_max_messages_per_chain (HandshakeInit.max_messages_per_chain init) in
  verify_init_identity_binding init.

(** [vec![X3DH_FILL_BYTE; 32]] followed by the Diffie-Hellman results; [dh4] is
    empty when no one-time pre-key is used. *)
Definition x3dh_ikm (dh1 dh2 dh3 dh4 : bytes) : bytes :=
  repeat X3DH_FILL_BYTE (Z.to_nat X25519_PUBLIC_KEY_BYTES) ++ dh1 ++ dh2 ++ dh3 ++ dh4.

(** ** The initiator *)

(** The one-time pre-key to use: [rand % opk_count] of the bundle's list. *)
Definition select_opk (rand : Z) (opks : list OneTimePreKeyMessage.t) : PResult (option Z * bytes) :=
  match vget opks (rand mod len opks) with
  | Some opk =>
      check? len (OneTimePreKeyMessage.public_key opk) =? X25519_PUBLIC_KEY_BYTES
        else ProtocolError.invalid_input "Invalid OPK public key size" in
      let? _ := DhValidator.validate_x25519_public_key (OneTimePreKeyMessage.public_key opk) in
      Ok (Some (OneTimePreKeyMessage.one_time_pre_key_id opk), OneTimePreKeyMessage.public_key opk)
  | None => Ok (None, [])
  end.

Definition start (peer_bundle : PreKeyBundle.t) (max_messages_per_chain : Z) (now_unix_secs : PResult Z)
    (e : InitiatorEntropy) : IdStm HandshakeInitiator :=
  do! slift (validate_bundle peer_bundle);
  do! slift (validate_max_messages_per_chain max_messages_per_chain);
  do local_ed25519 <- sget IdentityKeysInner.identity_ed25519_public;
  do! sguard (negb (unwrap_or (constant_time_equals local_ed25519
                                 (PreKeyBundle.identity_ed25519_public peer_bundle)) false))
        (ProtocolError.invalid_input "Reflexion attack: peer identity key matches local identity key");
  do! generate_ephemeral_key_pair (he_ephemeral e);
  do keys <- sget (fun s => s);
  do eph_public <- slift (ok_or (IdentityKeysInner.ephemeral_x25519_public keys)
                            (ProtocolError.prepare_local "Initiator ephemeral key not available"));
  do! sguard (len eph_public =? X25519_PUBLIC_KEY_BYTES)
        (ProtocolError.prepare_local "Initiator ephemeral key invalid size");
  do eph_private <- sgets get_ephemeral_x25519_private_key_copy;
  do identity_private <- sgets get_identity_x25519_private_key_copy;
  let spk := PreKeyBundle.signed_pre_key_public peer_bundle in
  do (used_opk_id, opk_public) <- slift (select_opk (he_opk_index e) (PreKeyBundle.one_time_pre_keys peer_bundle));
  do dh1 <- slift (handshake_dh identity_private spk "DH1");
  do dh2 <- slift (handshake_dh eph_private (PreKeyBundle.identity_x25519_public peer_bundle) "DH2");
  do dh3 <- slift (handshake_dh eph_private spk "DH3");
  do dh4 <- slift (match used_opk_id with
                   | Some _ => handshake_dh eph_private opk_public "DH4"
                   | None => Ok []
                   end);
  do classical_shared <- slift (derive_key_bytes (x3dh_ikm dh1 dh2 dh3 dh4) ROOT_KEY_BYTES [] X3DH_INFO);
  do (kyber_ciphertext, kyber_ss_handle) <-
    slift (crypto_err (kyber_encapsulate (PreKeyBundle.kyber_public peer_bundle) (he_kyber e)));
  do kyber_shared_secret <-
    slift (crypto_err (SecureMemoryHandle.read_bytes kyber_ss_handle KYBER_SHARED_SECRET_BYTES));
  do root_key <- slift (derive_key_bytes kyber_shared_secret ROOT_KEY_BYTES classical_shared HYBRID_X3DH_INFO);
  do session_id <- slift (derive_key_bytes root_key SESSION_ID_BYTES kyber_ciphertext SESSION_ID_INFO);
  let metadata_context := build_metadata_context eph_public spk session_id in
  do metadata_key <- slift (derive_key_bytes root_key METADATA_KEY_BYTES metadata_context METADATA_KEY_INFO);
  do kc_i <- slift (derive_key_bytes root_key HMAC_BYTES [] KEY_CONFIRM_INIT_INFO);
  do kc_r <- slift (derive_key_bytes root_key HMAC_BYTES [] KEY_CONFIRM_RESP_INFO);
  let ed_public := IdentityKeysInner.identity_ed25519_public keys in
  let id_public := IdentityKeysInner.identity_x25519_public keys in
  let kyber_public := IdentityKeysInner.kyber_public keys in
  do! sguard (len kyber_public =? KYBER_PUBLIC_KEY_BYTES)
        (ProtocolError.prepare_local "Invalid local Kyber public key size");
  do ed25519_secret <- sgets get_identity_ed25519_private_key_copy;
  do identity_binding_signature <- slift (sign_init_identity_binding ed25519_secret ed_public id_public kyber_public);
  let unconfirmed :=
    HandshakeInit.mk PROTOCOL_VERSION ed_public id_public eph_public used_opk_id kyber_ciphertext []
      kyber_public max_messages_per_chain identity_binding_signature in
  let transcript_hash := build_transcript_hash peer_bundle unconfirmed in
  do confirmation_mac <- slift (compute_hmac_sha256 kc_i transcript_hash);
  let init_message := HandshakeInit.set_key_confirmation_mac confirmation_mac unconfirmed in
  let serialized := encode init_message in
  do generator <- slift (Nonce.create (he_nonce_prefix e));
  let nonce_generator := export_state generator in
  do kyber_secret_handle <- sgets clone_kyber_secret_key;
  do kyber_secret <- slift (crypto_err (SecureMemoryHandle.read_bytes kyber_secret_handle KYBER_SECRET_KEY_BYTES));
  do created_at_unix <- slift now_unix_secs;
  do proto_state <- slift (build_protocol_state true root_key session_id metadata_key eph_private eph_public spk
    eph_public spk kyber_secret kyber_public (PreKeyBundle.kyber_public peer_bundle) max_messages_per_chain
    MAX_NONCE_COUNTER nonce_generator created_at_unix ed_public id_public
    (PreKeyBundle.identity_ed25519_public peer_bundle) (PreKeyBundle.identity_x25519_public peer_bundle));
  do expected_ack_mac <- slift (compute_hmac_sha256 kc_r transcript_hash);
  do! clear_ephemeral_key_pair;
  sret (mkHandshakeInitiator init_message serialized
    (Some (mkInitiatorState (Some (mkHandshakeState proto_state kyber_shared_secret)) expected_ack_mac))).

Definition initiator_finish (self : HandshakeInitiator) (ack_bytes : bytes) : PResult SessionInner :=
  let? st := ok_or (hi_state self) (ProtocolError.invalid_state "Handshake initiator not initialized") in
  check? len ack_bytes <=? MAX_HANDSHAKE_MESSAGE_SIZE
    else ProtocolError.invalid_input "HandshakeAck too large" in
  let? ack := ok_or (decode ack_bytes) (ProtocolError.decode "Failed to parse HandshakeAck: {e}") in
  check? HandshakeAck.version ack =? PROTOCOL_VERSION
    else ProtocolError.invalid_input "Invalid HandshakeAck version" in
  check? len (HandshakeAck.key_confirmation_mac ack) =? HMAC_BYTES
    else ProtocolError.invalid_input "Invalid acknowledgement MAC size" in
  let? eq := crypto_err (constant_time_equals (is_expected_ack_mac st) (HandshakeAck.key_confirmation_mac ack)) in
  check? eq else ProtocolError.handshake "Responder key confirmation failed" in
  let? session_state := ok_or (is_session_state st) (ProtocolError.invalid_state "InitiatorState already consumed") in
  from_handshake_state session_state.

(** ** The replay reservation of the responder *)

Section Responder.
Context {G : Type}.

Abbreviation RespStm := (Stm ProtocolError.t (IdentityKeysInner * G)).

Definition duplicate_init : ProtocolError.t :=
  ProtocolError.replay_attack "Replay attack detected: duplicate HandshakeInit".

Definition reservation_reserve (guard : option (ReplayGuard G)) (fingerprint : bytes) : RespStm Reservation :=
  do remote_reserved <-
    match guard with
    | Some g =>
        do is_fresh <- on_snd (rg_reserve g fingerprint);
        do! sguard is_fresh duplicate_init;
        sret true
    | None => sret false
    end;
  do is_fresh <- on_fst (reserve_handshake_init_fingerprint fingerprint);
  if negb is_fresh then
    do! (if remote_reserved then
           match guard with
           | Some g => on_snd (rg_release g fingerprint)
           | None => sfail (ProtocolError.invalid_state "Replay guard reservation state inconsistent")
           end
         else sret tt);
    sfail duplicate_init
  else sret (mkReservation fingerprint true false remote_reserved false).

(** [Drop for HandshakeInitReplayReservation] *)
Definition reservation_drop (guard : option (ReplayGuard G)) (r : Reservation)
    (s : IdentityKeysInner * G) : IdentityKeysInner * G :=
  if rv_committed r then s else
  let s :=
    match guard with
    | Some g => if rv_remote_reserved r then snd (on_snd (rg_release g (rv_fingerprint r)) s) else s
    | None => s
    end in
  if rv_local_committed r then snd (on_fst (forget_handshake_init_fingerprint (rv_fingerprint r)) s)
  else if rv_local_reserved r then (release_handshake_init_fingerprint (rv_fingerprint r) (fst s), snd s)
  else s.

(** [commit(mut self)]: the reservation is dropped when it returns. *)
Definition reservation_commit (guard : option (ReplayGuard G)) (r : Reservation) : RespStm unit :=
  fun s =>
  let fp := rv_fingerprint r in
  match on_fst (remember_handshake_init_fingerprint fp) s with
  | (Err e, s) => (Err e, reservation_drop guard r s)
  | (Ok _, s) =>
      match guard with
      | None => (Ok tt, s)
      | Some g =>
          match on_snd (rg_commit g fp) s with
          | (Ok _, s) => (Ok tt, s)
          | (Err commit_err, s) =>
              let '(forget_result, s) := on_fst (forget_handshake_init_fingerprint fp) s in
              let local_committed := negb (is_ok forget_result) in
              let '(release_result, s) :=
                if rv_remote_reserved r then on_snd (rg_release g fp) s else (Ok tt, s) in
              let remote_reserved := rv_remote_reserved r && negb (is_ok release_result) in
              (let? _ := forget_result in let? _ := release_result in Err commit_err,
               reservation_drop guard (mkReservation fp false local_committed remote_reserved false) s)
          end
      end
  end.

(** ** The responder *)

(** The computations of [process] between the reservation and the first change
    of the identity: the answer, the session state and the pre-key used. *)
Definition answer (local_bundle : PreKeyBundle.t) (init_message : HandshakeInit.t) (max_messages_per_chain : Z)
    (now_unix_secs : PResult Z) (nonce_prefix : bytes) (keys : IdentityKeysInner) :
    PResult (HandshakeAck.t * HandshakeState * option Z) :=
  let? _ := validate_init_message init_message in
  check? negb (unwrap_or (constant_time_equals (PreKeyBundle.identity_ed25519_public local_bundle)
                            (HandshakeInit.initiator_identity_ed25519_public init_message)) false)
    else ProtocolError.invalid_input "Reflexion attack: initiator identity key matches local identity key" in
  check? HandshakeInit.max_messages_per_chain init_message =? max_messages_per_chain
    else ProtocolError.invalid_input "Handshake ratchet config mismatch" in
  let? (used_opk_id, opk_private) :=
    match HandshakeInit.one_time_pre_key_id init_message with
    | Some opk_id =>
        let? priv_bytes := get_one_time_pre_key_private_by_id opk_id keys in
        Ok (Some opk_id, priv_bytes)
    | None => Ok (None, [])
    end in
  let? spk_private := get_signed_pre_key_private_copy keys in
  let? identity_private := get_identity_x25519_private_key_copy keys in
  let eph := HandshakeInit.initiator_ephemeral_x25519_public init_message in
  let? dh1 := handshake_dh spk_private (HandshakeInit.initiator_identity_x25519_public init_message) "DH1" in
  let? dh2 := handshake_dh identity_private eph "DH2" in
  let? dh3 := handshake_dh spk_private eph "DH3" in
  let? dh4 := match used_opk_id with
              | Some _ => handshake_dh opk_private eph "DH4"
              | None => Ok []
              end in
  let? classical_shared := derive_key_bytes (x3dh_ikm dh1 dh2 dh3 dh4) ROOT_KEY_BYTES [] X3DH_INFO in
  let? artifacts := decapsulate_kyber_ciphertext (HandshakeInit.kyber_ciphertext init_message) keys in
  let kyber_shared_secret := HybridHandshakeArtifacts.kyber_shared_secret artifacts in
  let? root_key := derive_key_bytes kyber_shared_secret ROOT_KEY_BYTES classical_shared HYBRID_X3DH_INFO in
  let? session_id :=
    derive_key_bytes root_key SESSION_ID_BYTES (HandshakeInit.kyber_ciphertext init_message) SESSION_ID_INFO in
  let spk := PreKeyBundle.signed_pre_key_public local_bundle in
  let metadata_context := build_metadata_context spk eph session_id in
  let? metadata_key := derive_key_bytes root_key METADATA_KEY_BYTES metadata_context METADATA_KEY_INFO in
  let? kc_i := derive_key_bytes root_key HMAC_BYTES [] KEY_CONFIRM_INIT_INFO in
  let? kc_r := derive_key_bytes root_key HMAC_BYTES [] KEY_CONFIRM_RESP_INFO in
  let transcript_hash := build_transcript_hash local_bundle init_message in
  let? expected_init_mac := compute_hmac_sha256 kc_i transcript_hash in
  let? eq := crypto_err (constant_time_equals expected_init_mac (HandshakeInit.key_confirmation_mac init_message)) in
  check? eq else ProtocolError.handshake "Initiator key confirmation failed" in
  let? ack_mac := compute_hmac_sha256 kc_r transcript_hash in
  let ack_message := HandshakeAck.mk PROTOCOL_VERSION ack_mac in
  let? generator := Nonce.create nonce_prefix in
  let nonce_generator := export_state generator in
  let? kyber_secret_handle := clone_kyber_secret_key keys in
  let? kyber_secret := crypto_err (SecureMemoryHandle.read_bytes kyber_secret_handle KYBER_SECRET_KEY_BYTES) in
  let kyber_public := IdentityKeysInner.kyber_public keys in
  check? len kyber_public =? KYBER_PUBLIC_KEY_BYTES
    else ProtocolError.prepare_local "Invalid local Kyber public key size" in
  let? created_at_unix := now_unix_secs in
  let? proto_state := build_protocol_state false root_key session_id metadata_key spk_private spk eph spk eph
    kyber_secret kyber_public (HandshakeInit.initiator_kyber_public init_message) max_messages_per_chain
    MAX_NONCE_COUNTER nonce_generator created_at_unix (PreKeyBundle.identity_ed25519_public local_bundle)
    (PreKeyBundle.identity_x25519_public local_bundle)
    (HandshakeInit.initiator_identity_ed25519_public init_message)
    (HandshakeInit.initiator_identity_x25519_public init_message) in
  Ok (ack_message, mkHandshakeState proto_state kyber_shared_secret, used_opk_id).

(** [if let Some(opk_id) = used_opk_id { identity_keys.consume_one_time_pre_key_by_id(opk_id)?; }] *)
Definition consume_used (used_opk_id : option Z) : IdStm unit :=
  match used_opk_id with
  | Some opk_id => consume_one_time_pre_key_by_id opk_id
  | None => sret tt
  end.

Definition process (local_bundle : PreKeyBundle.t) (init_message_bytes : bytes) (max_messages_per_chain : Z)
    (guard : option (ReplayGuard G)) (now_unix_secs : PResult Z) (nonce_prefix : bytes) :
    RespStm HandshakeResponder :=
  do! slift (validate_bundle local_bundle);
  do! slift (validate_max_messages_per_chain max_messages_per_chain);
  do! sguard (len init_message_bytes <=? MAX_HANDSHAKE_MESSAGE_SIZE)
        (ProtocolError.invalid_input "Message too large");
  do init_message <- slift (ok_or (decode init_message_bytes)
                              (ProtocolError.decode "Failed to parse HandshakeInit: {e}"));
  let init_fingerprint := build_handshake_init_fingerprint init_message in
  do replay_reservation <- reservation_reserve guard init_fingerprint;
  do (ack_message, session_state) <-
    on_err
      (do keys <- sget fst;
       do (ack_message, session_state, used_opk_id) <-
         slift (answer local_bundle init_message max_messages_per_chain now_unix_secs nonce_prefix keys);
       do! on_fst (consume_used used_opk_id);
       sret (ack_message, session_state))
      (reservation_drop guard replay_reservation);
  do! reservation_commit guard replay_reservation;
  sret (mkHandshakeResponder ack_message (encode ack_message) (Some session_state)).

Definition responder_finish (self : HandshakeResponder) : PResult SessionInner :=
  let? st := ok_or (hr_state self) (ProtocolError.invalid_state "Handshake responder not initialized") in
  from_handshake_state st.

End Responder.
End Handshake.
