(* ===== verification/IdentityFacts.v ===== *)
(** * What an identity holds

    The keys of an identity created from fresh randomness or from a master key
    are key pairs of the primitives, signed by its Ed25519 key; the ids of its
    one-time pre-keys are pairwise distinct.  The operations on pre-keys and on
    the ephemeral pair keep this. *)

From Stdlib Require Import ZArith List Bool Lia String.
From S2P Require Import Prelude Constants SeenSet SecureMemory Crypto Signatures DhValidator Proto.
From S2P Require Import IdentityModels Identity.
Import ListNotations.
Open Scope string_scope.
Open Scope list_scope.
Open Scope Z_scope.

(** The secrets of an identity: Ed25519 seed, X25519 identity and signed
    pre-key scalars, ML-KEM randomness. *)
Record IdSecrets : Type := mkIdSecrets {
  sc_ed25519 : bytes;
  sc_x25519 : bytes;
  sc_spk : bytes;
  sc_kyber : bytes }.

Section Facts.
Context {P : Primitives} {L : PrimitiveLaws P} {SG : Signatures} {SL : SignatureLaws SG}.

Definition opk_ok (o : OneTimePreKey.t) : Prop :=
  exists s, OneTimePreKey.private_key o = SecureMemoryHandle.mk s /\ len s = X25519_PRIVATE_KEY_BYTES /\
            OneTimePreKey.public_key o = x25519_public s.

Definition opk_ids (l : list OneTimePreKey.t) : list Z := map OneTimePreKey.id l.

Definition pool_ok (l : list OneTimePreKey.t) : Prop := Forall opk_ok l /\ NoDup (opk_ids l).

Record holds (k : IdentityKeysInner) (c : IdSecrets) : Prop := {
  h_ed_secret : IdentityKeysInner.identity_ed25519_secret_key k = SecureMemoryHandle.mk (ed25519_keypair (sc_ed25519 c));
  h_ed_public : IdentityKeysInner.identity_ed25519_public k = ed25519_public (ed25519_keypair (sc_ed25519 c));
  h_x_secret : IdentityKeysInner.identity_x25519_secret_key k = SecureMemoryHandle.mk (sc_x25519 c);
  h_x_len : len (sc_x25519 c) = X25519_PRIVATE_KEY_BYTES;
  h_x_public : IdentityKeysInner.identity_x25519_public k = x25519_public (sc_x25519 c);
  h_x_signature : IdentityKeysInner.identity_x25519_signature k =
    ed25519_sign (ed25519_keypair (sc_ed25519 c)) (x25519_public (sc_x25519 c));
  h_spk_secret : IdentityKeysInner.signed_pre_key_secret_key k = SecureMemoryHandle.mk (sc_spk c);
  h_spk_len : len (sc_spk c) = X25519_PRIVATE_KEY_BYTES;
  h_spk_public : IdentityKeysInner.signed_pre_key_public k = x25519_public (sc_spk c);
  h_spk_signature : IdentityKeysInner.signed_pre_key_signature k =
    ed25519_sign (ed25519_keypair (sc_ed25519 c)) (x25519_public (sc_spk c));
  h_kyber_secret : IdentityKeysInner.kyber_secret_key k = SecureMemoryHandle.mk (fst (mlkem_generate (sc_kyber c)));
  h_kyber_public : IdentityKeysInner.kyber_public k = snd (mlkem_generate (sc_kyber c));
  h_pool : pool_ok (IdentityKeysInner.one_time_pre_keys k);
  h_ephemeral : forall h p, IdentityKeysInner.ephemeral_secret_key k = Some h ->
    IdentityKeysInner.ephemeral_x25519_public k = Some p ->
    exists s, h = SecureMemoryHandle.mk s /\ len s = X25519_PRIVATE_KEY_BYTES /\ p = x25519_public s }.

(** ** The pool of one-time pre-keys *)

Lemma foldR_inv {E A S} (I : S -> Prop) (f : S -> A -> Result E S) l : forall s s',
  (forall s a s', In a l -> I s -> f s a = Ok s' -> I s') -> I s -> foldR f l s = Ok s' -> I s'.
Proof.
  induction l as [|a l IH]; intros s s' Hf Hs H; cbn [foldR] in H; inv_ok; [assumption|].
  eapply IH; [|eapply Hf; [now left|exact Hs|eassumption]|exact H].
  intros t b t' Hb. apply Hf. now right.
Qed.

Lemma existsb_Zeqb x l : existsb (Z.eqb x) l = true <-> In x l.
Proof.
  rewrite existsb_exists. split; [intros (y & Hy & E); apply Z.eqb_eq in E; now subst|].
  intros H. exists x. split; [assumption|apply Z.eqb_refl].
Qed.

Lemma existsb_Zeqb_false x l : existsb (Z.eqb x) l = false <-> ~ In x l.
Proof. rewrite <- existsb_Zeqb. destruct (existsb (Z.eqb x) l); split; congruence. Qed.

Lemma find_unused_fresh used draws id : find_unused_opk_id used draws = Some id -> ~ In id used.
Proof.
  induction draws as [|rb draws IH]; cbn [find_unused_opk_id]; [discriminate|]. case_if; [exact IH|].
  intros H. inv_ok. now apply existsb_Zeqb_false.
Qed.

(** The keys made so far have new ids, all of them recorded. *)
Definition batch_ok (reserved : list Z) (acc : list Z * list OneTimePreKey.t) : Prop :=
  Forall opk_ok (snd acc) /\ NoDup (opk_ids (snd acc)) /\
  (forall id, In id (opk_ids (snd acc)) -> ~ In id reserved) /\
  (forall id, In id (fst acc) <-> In id reserved \/ In id (opk_ids (snd acc))).

Lemma batch_ok_snoc reserved used opks opk :
  batch_ok reserved (used, opks) -> opk_ok opk -> ~ In (OneTimePreKey.id opk) used ->
  batch_ok reserved (OneTimePreKey.id opk :: used, opks ++ [opk]).
Proof.
  intros (Hf & Hd & Hr & Hu) Ho Hn. cbn [fst snd] in *. unfold batch_ok, opk_ids in *. cbn [fst snd].
  rewrite map_app. cbn [map]. rewrite Hu in Hn. repeat split.
  - apply Forall_app. auto.
  - apply NoDup_app; [assumption|constructor; [easy|constructor]|]. intros i Hi [<-|[]]. auto.
  - intros i Hi. apply in_app_iff in Hi. destruct Hi as [Hi|[<-|[]]]; auto.
  - cbn [In]. rewrite in_app_iff, Hu. cbn [In]. tauto.
  - cbn [In]. rewrite in_app_iff, Hu. cbn [In]. tauto.
Qed.

Lemma opk_generate_ok id e opk : len e = X25519_PRIVATE_KEY_BYTES ->
  OneTimePreKey.generate id e = Ok opk -> opk_ok opk /\ OneTimePreKey.id opk = id.
Proof.
  intros He H. unfold OneTimePreKey.generate in H. inv_ok. destruct x as [h pk]. inv_ok.
  apply generate_x25519_keypair_inv in H0; [|assumption]. destruct H0 as [-> ->].
  split; [|reflexivity]. exists e. auto.
Qed.

Lemma opk_from_seed_ok id seed opk :
  OneTimePreKey.create_from_seed id seed = Ok opk -> opk_ok opk /\ OneTimePreKey.id opk = id.
Proof.
  intros H. unfold OneTimePreKey.create_from_seed, crypto_err in H. inv_ok. bools.
  rewrite SecureMemoryHandle.alloc_write_exact in *
    by (rewrite ?len_clamp; auto; unfold X25519_PRIVATE_KEY_BYTES, MAX_BUFFER_SIZE; lia).
  inv_ok. split; [|reflexivity]. exists (clamp seed). rewrite len_clamp. auto.
Qed.

Lemma batch_ok_nil reserved : batch_ok reserved (reserved, []).
Proof. repeat split; cbn; try constructor; tauto. Qed.

Lemma generate_excluding_ok count reserved e opks :
  (forall i, len (opk_secret e i) = X25519_PRIVATE_KEY_BYTES) ->
  generate_one_time_pre_keys_excluding count reserved e = Ok opks ->
  pool_ok opks /\ forall id, In id (opk_ids opks) -> ~ In id reserved.
Proof.
  intros He H. unfold generate_one_time_pre_keys_excluding in H. case_if_in H.
  { inv_ok. split; [split; constructor|easy]. }
  inv_ok. destruct x as [used l]. inv_ok.
  apply (foldR_inv (batch_ok reserved)) in H0; [now destruct H0 as (? & ? & ? & _)| |apply batch_ok_nil].
  intros [us os] i [us' os'] _ Hb Hs. unfold generate_opk_step in Hs. inv_ok.
  apply opk_generate_ok in H1; [|apply He]. destruct H1 as [Ho Hi].
  rewrite <- Hi. apply batch_ok_snoc; [assumption..|]. rewrite Hi. eapply find_unused_fresh. eassumption.
Qed.

Lemma generate_from_master_ok mk mid count opks :
  generate_one_time_pre_keys_from_master_key mk mid count = Ok opks -> pool_ok opks.
Proof.
  intros H. unfold generate_one_time_pre_keys_from_master_key in H. case_if_in H.
  { inv_ok. split; constructor. }
  inv_ok. destruct x as [used l]. inv_ok.
  apply (foldR_inv (batch_ok [])) in H0; [now destruct H0 as (? & ? & _)| |apply batch_ok_nil].
  intros [us os] i [us' os'] _ Hb Hs. unfold master_opk_step in Hs. inv_ok. bools.
  apply opk_from_seed_ok in H3. destruct H3 as [Ho Hi].
  rewrite <- Hi. apply batch_ok_snoc; [assumption..|]. rewrite Hi. now apply existsb_Zeqb_false.
Qed.

(** ** Creation *)

Lemma sign_with_ok seed m :
  sign_with_ed25519 (SecureMemoryHandle.mk (ed25519_keypair seed)) m = Ok (ed25519_sign (ed25519_keypair seed) m).
Proof.
  unfold sign_with_ed25519, crypto_err.
  rewrite SecureMemoryHandle.read_bytes_exact by apply ed25519_keypair_len.
  cbn [map_err rbind]. rewrite ed25519_keypair_len, ed25519_keypair_valid. reflexivity.
Qed.

Lemma alloc_keypair seed :
  SecureMemoryHandle.alloc_write ED25519_SECRET_KEY_BYTES (ed25519_keypair seed) =
  Ok (SecureMemoryHandle.mk (ed25519_keypair seed)).
Proof.
  apply SecureMemoryHandle.alloc_write_exact; [|apply ed25519_keypair_len].
  unfold ED25519_SECRET_KEY_BYTES, MAX_BUFFER_SIZE. lia.
Qed.

Lemma alloc_x25519 s : len s = X25519_PRIVATE_KEY_BYTES ->
  SecureMemoryHandle.alloc_write X25519_PRIVATE_KEY_BYTES s = Ok (SecureMemoryHandle.mk s).
Proof.
  intros H. apply SecureMemoryHandle.alloc_write_exact; [|exact H].
  unfold X25519_PRIVATE_KEY_BYTES, MAX_BUFFER_SIZE. lia.
Qed.

(** A fresh identity: every field is determined by the secrets and the pool. *)
Lemma new_holds id c opks :
  len (sc_x25519 c) = X25519_PRIVATE_KEY_BYTES -> len (sc_spk c) = X25519_PRIVATE_KEY_BYTES -> pool_ok opks ->
  let ed := ed25519_keypair (sc_ed25519 c) in
  let x := x25519_public (sc_x25519 c) in
  let spk := x25519_public (sc_spk c) in
  let kyber := mlkem_generate (sc_kyber c) in
  holds (IdentityKeys_new
    (IdentityKeyBundle.mk (Ed25519KeyPair.mk (SecureMemoryHandle.mk ed) (ed25519_public ed))
       (X25519KeyPair.mk (SecureMemoryHandle.mk (sc_x25519 c)) x)
       (SignedPreKeyPair.mk id (SecureMemoryHandle.mk (sc_spk c)) spk (ed25519_sign ed spk))
       opks (SecureMemoryHandle.mk (fst kyber)) (snd kyber)) (ed25519_sign ed x)) c.
Proof. intros Hx Hs Hp. constructor; try reflexivity; try assumption. discriminate. Qed.

Definition entropy_ok (e : IdentityEntropy) : Prop :=
  len (ie_x25519 e) = X25519_PRIVATE_KEY_BYTES /\ len (ie_spk e) = X25519_PRIVATE_KEY_BYTES /\
  forall i, len (opk_secret (ie_opks e) i) = X25519_PRIVATE_KEY_BYTES.

Lemma create_holds count e k : entropy_ok e -> IdentityKeys_create count e = Ok k ->
  holds k (mkIdSecrets (ie_ed25519 e) (ie_x25519 e) (ie_spk e) (ie_kyber e)).
Proof.
  intros (Hx & Hs & Ho) H. unfold IdentityKeys_create, generate_ed25519_keys, generate_x25519_identity_keys,
    generate_x25519_signed_pre_key, generate_x25519_keypair, sign_identity_x25519_binding, sign_signed_pre_key,
    Ed25519KeyPair.new, X25519KeyPair.new, SignedPreKeyPair.new, crypto_err in H.
  rewrite alloc_keypair, (alloc_x25519 _ Hx), (alloc_x25519 _ Hs) in H. inv_ok.
  destruct x5 as [ksk kpk]. inv_ok. cbn [Ed25519KeyPair.private_key X25519KeyPair.public_key X25519KeyPair.secret_key] in *.
  rewrite sign_with_ok in *. inv_ok.
  match goal with H : kyber_generate_keypair _ _ = _ |- _ => apply kyber_generate_keypair_inv in H; destruct H as [-> ->] end.
  match goal with H : generate_one_time_pre_keys_excluding _ _ _ = _ |- _ =>
    apply generate_excluding_ok in H; [|exact Ho]; destruct H as [Hp _] end.
  now apply (new_holds _ (mkIdSecrets (ie_ed25519 e) (ie_x25519 e) (ie_spk e) (ie_kyber e))).
Qed.

(** The secrets a master key determines. *)
Definition master_secrets (master_key membership_id : bytes) : IdSecrets :=
  let seed info := hkdf_expand (extract MKD_LABEL master_key) (mkd_info info membership_id) 32 in
  mkIdSecrets (seed MKD_ED25519_INFO) (clamp (seed MKD_X25519_INFO)) (clamp (seed MKD_SIGNED_PRE_KEY_INFO))
    (chacha20rng (seed MKD_KYBER_SEED_1_INFO)).

Lemma mkd_derive_inv mk info mid seed : mkd_derive mk info mid 32 = Ok seed ->
  seed = hkdf_expand (extract MKD_LABEL mk) (mkd_info info mid) 32.
Proof. unfold mkd_derive, expand. intros H. inv_ok. reflexivity. Qed.

Lemma firstn_seed prk info : firstn (Z.to_nat 32) (hkdf_expand prk info 32) = hkdf_expand prk info 32.
Proof. apply firstn_all2. pose proof (hkdf_expand_len prk info 32 ltac:(lia)) as H. unfold len in H. lia. Qed.

Lemma kyber_from_seed_inv seed seed2 h pk : len seed = 32 ->
  kyber_generate_keypair_from_seed (seed ++ seed2) = Ok (h, pk) ->
  h = SecureMemoryHandle.mk (fst (mlkem_generate (chacha20rng seed))) /\ pk = snd (mlkem_generate (chacha20rng seed)).
Proof.
  intros Hl H. unfold kyber_generate_keypair_from_seed in H. inv_ok.
  replace (firstn (Z.to_nat KYBER_SEED_KEY_BYTES) (seed ++ seed2)) with seed in H.
  2: { rewrite firstn_app. replace (_ - _)%nat with 0%nat by (unfold len in Hl; change (Z.to_nat KYBER_SEED_KEY_BYTES) with 32%nat; lia).
       rewrite app_nil_r. symmetry. apply firstn_all2. unfold len in Hl. change (Z.to_nat KYBER_SEED_KEY_BYTES) with 32%nat. lia. }
  destruct (mlkem_generate_len (chacha20rng seed)) as [Hs _].
  destruct (mlkem_generate (chacha20rng seed)) as [sk ek]. cbn [fst snd] in *. inv_ok.
  rewrite SecureMemoryHandle.alloc_write_exact in *
    by (auto; rewrite ?Hs; unfold KYBER_SECRET_KEY_BYTES, MAX_BUFFER_SIZE; lia). inv_ok. auto.
Qed.

Lemma create_from_master_key_holds mk mid count k :
  create_from_master_key mk mid count = Ok k -> holds k (master_secrets mk mid).
Proof.
  intros H. unfold create_from_master_key, mkd_derive_ed25519_seed, mkd_derive_x25519_seed,
    mkd_derive_signed_pre_key_seed, mkd_derive_kyber_seed in H.
  change X25519_PRIVATE_KEY_BYTES with 32 in H. change KYBER_SEED_KEY_BYTES with 32 in H.
  unfold sign_identity_x25519_binding, sign_signed_pre_key,
    Ed25519KeyPair.new, X25519KeyPair.new, SignedPreKeyPair.new, crypto_err in H. inv_ok.
  match goal with p : (SecureMemoryHandle.t * list Z)%type |- _ => destruct p as [ksk kpk] end. inv_ok.
  repeat match goal with H : mkd_derive _ _ _ 32 = Ok ?x |- _ => is_var x; apply mkd_derive_inv in H; subst x end.
  rewrite !firstn_seed in *. rewrite alloc_keypair in *.
  set (xs := hkdf_expand _ (mkd_info MKD_X25519_INFO mid) 32) in *.
  set (ss := hkdf_expand _ (mkd_info MKD_SIGNED_PRE_KEY_INFO mid) 32) in *.
  assert (Hxs : len (clamp xs) = 32) by (rewrite len_clamp; apply hkdf_expand_len; lia).
  assert (Hss : len (clamp ss) = 32) by (rewrite len_clamp; apply hkdf_expand_len; lia).
  rewrite (firstn_all2 (clamp xs)), (firstn_all2 (clamp ss)) in * by (unfold len in *; lia).
  change 32 with X25519_PRIVATE_KEY_BYTES in Hxs, Hss.
  repeat match goal with H : SecureMemoryHandle.alloc_write 32 _ = _ |- _ =>
    change 32 with X25519_PRIVATE_KEY_BYTES in H; rewrite alloc_x25519 in H by assumption; inv_ok end.
  inv_ok. cbn [Ed25519KeyPair.private_key X25519KeyPair.public_key X25519KeyPair.secret_key] in *.
  rewrite sign_with_ok in *. inv_ok.
  match goal with H : kyber_generate_keypair_from_seed _ = _ |- _ =>
    apply kyber_from_seed_inv in H; [destruct H as [-> ->]|apply hkdf_expand_len; lia] end.
  match goal with H : generate_one_time_pre_keys_from_master_key _ _ _ = _ |- _ =>
    apply generate_from_master_ok in H; rename H into Hp end.
  now apply (new_holds _ (master_secrets mk mid)).
Qed.

End Facts.
