(* ===== verification/Protocol.v ===== *)
(** * The protocol object of the host API ([AuraProtocol] of [src/api/mod.rs])

    An identity with the session parameters: it publishes a pre-key bundle,
    begins and accepts sessions.  The bundle a session is accepted for is the
    one the identity publishes at that moment, or one the host kept. *)

From Stdlib Require Import ZArith List Bool Lia String.
From S2P Require Import Prelude Constants SecureMemory Crypto Signatures Proto SessionState Session.
From S2P Require Import IdentityModels Identity Handshake.
Import ListNotations.
Open Scope string_scope.
Open Scope list_scope.
Open Scope Z_scope.

Record AuraProtocol : Type := mkAuraProtocol {
  ap_identity : IdentityKeysInner;
  ap_max_messages : Z }.

Definition set_identity (k : IdentityKeysInner) (p : AuraProtocol) : AuraProtocol :=
  mkAuraProtocol k (ap_max_messages p).

Section Protocol.
Context {P : Primitives} {SG : Signatures}.
Context {CB : Prost PreKeyBundle.t} {CI : Prost HandshakeInit.t} {CA : Prost HandshakeAck.t}.

Definition AuraProtocol_new (opk_count : Z) (e : IdentityEntropy) : PResult AuraProtocol :=
  let? identity := IdentityKeys_create opk_count e in
  Ok (mkAuraProtocol identity DEFAULT_MESSAGES_PER_CHAIN).

Definition from_seed (seed membership_id : bytes) (opk_count : Z) : PResult AuraProtocol :=
  let? identity := create_from_master_key seed membership_id opk_count in
  Ok (mkAuraProtocol identity DEFAULT_MESSAGES_PER_CHAIN).

(** [PreKeyBundle { .. }] of the public bundle of the identity. *)
Definition proto_bundle (identity : IdentityKeysInner) : PreKeyBundle.t :=
  let bundle := create_public_bundle identity in
  PreKeyBundle.mk PROTOCOL_VERSION (LocalPublicKeyBundle.identity_ed25519_public bundle)
    (LocalPublicKeyBundle.identity_x25519_public bundle) (LocalPublicKeyBundle.signed_pre_key_id bundle)
    (LocalPublicKeyBundle.signed_pre_key_public bundle) (LocalPublicKeyBundle.signed_pre_key_signature bundle)
    (map (fun opk => OneTimePreKeyMessage.mk (OneTimePreKeyPublic.id opk) (OneTimePreKeyPublic.public_key opk))
       (LocalPublicKeyBundle.one_time_pre_keys bundle))
    (match LocalPublicKeyBundle.kyber_public bundle with Some k => k | None => [] end)
    (LocalPublicKeyBundle.identity_x25519_signature bundle).

Definition pre_key_bundle (p : AuraProtocol) : bytes := encode (proto_bundle (ap_identity p)).

(** Running a step of the identity on the protocol object. *)
Definition on_identity {A} (c : IdStm A) : Stm ProtocolError.t AuraProtocol A :=
  fun p => let '(r, k) := c (ap_identity p) in (r, set_identity k p).

Definition begin_session (peer_bundle_bytes : bytes) (now_unix_secs : PResult Z) (e : InitiatorEntropy) :
    Stm ProtocolError.t AuraProtocol (HandshakeInitiator * bytes) :=
  do! sguard (len peer_bundle_bytes <=? MAX_HANDSHAKE_MESSAGE_SIZE)
        (ProtocolError.invalid_input "PreKeyBundle too large");
  do peer_bundle <- slift (ok_or (decode peer_bundle_bytes)
                             (ProtocolError.decode "Failed to decode peer PreKeyBundle: {e}"));
  do max_messages <- sget ap_max_messages;
  do initiator <- on_identity (start peer_bundle max_messages now_unix_secs e);
  sret (initiator, hi_init_bytes initiator).

Section Accept.
Context {G : Type}.

Abbreviation AcceptStm := (Stm ProtocolError.t (AuraProtocol * G)).

Definition on_responder {A} (c : Stm ProtocolError.t (IdentityKeysInner * G) A) : AcceptStm A :=
  fun s => let '(r, ks) := c (ap_identity (fst s), snd s) in (r, (set_identity (fst ks) (fst s), snd ks)).

Definition accept_session_for_bundle_with_replay_guard (init_bytes local_bundle_bytes : bytes)
    (guard : option (ReplayGuard G)) (now_unix_secs : PResult Z) (nonce_prefix : bytes) :
    AcceptStm (HandshakeResponder * bytes) :=
  do! sguard (len local_bundle_bytes <=? MAX_HANDSHAKE_MESSAGE_SIZE)
        (ProtocolError.invalid_input "PreKeyBundle too large");
  do local_bundle <- slift (ok_or (decode local_bundle_bytes)
                              (ProtocolError.decode "Failed to decode local PreKeyBundle: {e}"));
  do max_messages <- sget (fun s => ap_max_messages (fst s));
  do responder <- on_responder (process local_bundle init_bytes max_messages guard now_unix_secs nonce_prefix);
  sret (responder, hr_ack_bytes responder).

Definition accept_session_with_replay_guard (init_bytes : bytes) (guard : option (ReplayGuard G))
    (now_unix_secs : PResult Z) (nonce_prefix : bytes) : AcceptStm (HandshakeResponder * bytes) :=
  do local_bundle_bytes <- sget (fun s => pre_key_bundle (fst s));
  accept_session_for_bundle_with_replay_guard init_bytes local_bundle_bytes guard now_unix_secs nonce_prefix.

Definition accept_session (init_bytes : bytes) (now_unix_secs : PResult Z) (nonce_prefix : bytes) :
    AcceptStm (HandshakeResponder * bytes) :=
  accept_session_with_replay_guard init_bytes None now_unix_secs nonce_prefix.

Definition accept_session_for_bundle (init_bytes local_bundle_bytes : bytes) (now_unix_secs : PResult Z)
    (nonce_prefix : bytes) : AcceptStm (HandshakeResponder * bytes) :=
  accept_session_for_bundle_with_replay_guard init_bytes local_bundle_bytes None now_unix_secs nonce_prefix.

End Accept.

Definition initiator_complete (self : HandshakeInitiator) (ack_bytes : bytes) : PResult SessionInner :=
  initiator_finish self ack_bytes.

Definition responder_complete (self : HandshakeResponder) : PResult SessionInner := responder_finish self.

End Protocol.
