(* ===== verification/HandshakeProofs.v ===== *)
(** * Both ends of a handshake agree

    What a successful [start] has computed, and that the responder who holds the
    secrets of the bundle answers it: both ends derive the same root key, the
    key confirmations match, and the sessions they finish with are in step. *)

From Stdlib Require Import ZArith List Bool Lia String.
From S2P Require Import Prelude Constants BTree SeenSet SecureMemory Crypto Signatures DhValidator Padding Nonce Proto.
From S2P Require Import SessionState Session SessionPersist SessionChain SessionRecv SessionSend SessionInv SessionSync SessionStart.
From S2P Require Import IdentityModels Identity IdentityFacts Handshake Protocol.
Import ListNotations.
Open Scope string_scope.
Open Scope list_scope.
Open Scope Z_scope.

Section Agreement.
Context {P : Primitives} {L : PrimitiveLaws P} {SG : Signatures} {SL : SignatureLaws SG}.
Context {CB : Prost PreKeyBundle.t} {CI : Prost HandshakeInit.t} {CA : Prost HandshakeAck.t}.

(** ** The keys of a handshake *)

Definition hk_root (ikm ss : bytes) : bytes :=
  kdf ss ROOT_KEY_BYTES (kdf ikm ROOT_KEY_BYTES [] X3DH_INFO) HYBRID_X3DH_INFO.
Definition hk_session (root ct : bytes) : bytes := kdf root SESSION_ID_BYTES ct SESSION_ID_INFO.
Definition hk_metadata (root self peer sid : bytes) : bytes :=
  kdf root METADATA_KEY_BYTES (build_metadata_context self peer sid) METADATA_KEY_INFO.
Definition hk_confirm (root info : bytes) : bytes := kdf root HMAC_BYTES [] info.

(** ** The ephemeral pair *)

Lemma generate_ephemeral_ok k c e u k1 : holds k c -> len e = X25519_PRIVATE_KEY_BYTES ->
  generate_ephemeral_key_pair e k = (Ok u, k1) ->
  holds k1 c /\ IdentityKeysInner.one_time_pre_keys k1 = IdentityKeysInner.one_time_pre_keys k /\
  exists s, IdentityKeysInner.ephemeral_secret_key k1 = Some (SecureMemoryHandle.mk s) /\
    IdentityKeysInner.ephemeral_x25519_public k1 = Some (x25519_public s) /\ len s = X25519_PRIVATE_KEY_BYTES.
Proof.
  intros Hk He H. unfold generate_ephemeral_key_pair in H. inv_stm.
  destruct (IdentityKeysInner.ephemeral_secret_key k) as [h|] eqn:E1;
    [destruct (IdentityKeysInner.ephemeral_x25519_public k) as [p|] eqn:E2|].
  - inv_stm. destruct (h_ephemeral _ _ Hk _ _ E1 E2) as (s & -> & Hs & ->).
    split; [assumption|]. split; [reflexivity|]. exists s. auto.
  - inv_stm. apply generate_x25519_keypair_inv in Hc0; [|assumption]. destruct Hc0 as [-> ->].
    split; [|split; [reflexivity|exists e; auto]]. destruct Hk. constructor; try assumption.
    intros h' p' [= <-] [= <-]. eauto.
  - inv_stm. apply generate_x25519_keypair_inv in Hc0; [|assumption]. destruct Hc0 as [-> ->].
    split; [|split; [reflexivity|exists e; auto]]. destruct Hk. constructor; try assumption.
    intros h' p' [= <-] [= <-]. eauto.
Qed.

Lemma handshake_dh_inv sk pk ctx d : handshake_dh sk pk ctx = Ok d ->
  d = x25519_dh sk pk /\ len sk = X25519_PRIVATE_KEY_BYTES /\ len pk = X25519_PUBLIC_KEY_BYTES /\
  is_all_zero (x25519_dh sk pk) = false.
Proof. unfold handshake_dh. intros H. inv_ok. bools. auto. Qed.

Lemma handshake_dh_ok sk pk ctx : len sk = X25519_PRIVATE_KEY_BYTES -> len pk = X25519_PUBLIC_KEY_BYTES ->
  is_all_zero (x25519_dh sk pk) = false -> handshake_dh sk pk ctx = Ok (x25519_dh sk pk).
Proof. intros H1 H2 H3. unfold handshake_dh. now rewrite H1, H2, H3. Qed.

(** The message of the initiator. *)
Definition init_of (k : IdentityKeysInner) (c : IdSecrets) (eph_public : bytes) (used : option Z) (ct mac : bytes)
    (mm : Z) : HandshakeInit.t :=
  let ed := IdentityKeysInner.identity_ed25519_public k in
  let x := IdentityKeysInner.identity_x25519_public k in
  let kyber := IdentityKeysInner.kyber_public k in
  HandshakeInit.mk PROTOCOL_VERSION ed x eph_public used ct mac kyber mm
    (ed25519_sign (ed25519_keypair (sc_ed25519 c)) (build_init_identity_binding_message ed x kyber)).

(** The fourth Diffie-Hellman result. *)
Definition dh4_of (used : option Z) (dh : bytes) : bytes := match used with Some _ => dh | None => [] end.

(** What a successful [start] has computed. *)
Record started (k : IdentityKeysInner) (c : IdSecrets) (bundle : PreKeyBundle.t) (mm : Z) (e : InitiatorEntropy)
    (hi : HandshakeInitiator) (eph ct ss : bytes) (used : option Z) (opk_public : bytes) (created : Z) : Prop := {
  sd_bundle : validate_bundle bundle = Ok tt;
  sd_max : validate_max_messages_per_chain mm = Ok tt;
  sd_reflexion : bytes_eqb (IdentityKeysInner.identity_ed25519_public k) (PreKeyBundle.identity_ed25519_public bundle) = false;
  sd_eph : len eph = X25519_PRIVATE_KEY_BYTES;
  sd_opk : select_opk (he_opk_index e) (PreKeyBundle.one_time_pre_keys bundle) = Ok (used, opk_public);
  sd_dh1 : is_all_zero (x25519_dh (sc_x25519 c) (PreKeyBundle.signed_pre_key_public bundle)) = false;
  sd_dh2 : is_all_zero (x25519_dh eph (PreKeyBundle.identity_x25519_public bundle)) = false;
  sd_dh3 : is_all_zero (x25519_dh eph (PreKeyBundle.signed_pre_key_public bundle)) = false;
  sd_dh4 : used <> None -> is_all_zero (x25519_dh eph opk_public) = false;
  sd_kyber : kyber_encapsulate (PreKeyBundle.kyber_public bundle) (he_kyber e) = Ok (ct, SecureMemoryHandle.mk ss);
  sd_ss : len ss = KYBER_SHARED_SECRET_BYTES;
  sd_prefix : len (he_nonce_prefix e) = NONCE_PREFIX_BYTES;
  sd_state : exists pst,
    let spk := PreKeyBundle.signed_pre_key_public bundle in
    let ikm := x3dh_ikm (x25519_dh (sc_x25519 c) spk) (x25519_dh eph (PreKeyBundle.identity_x25519_public bundle))
                 (x25519_dh eph spk) (dh4_of used (x25519_dh eph opk_public)) in
    let root := hk_root ikm ss in
    let sid := hk_session root ct in
    let pub := x25519_public eph in
    let transcript := build_transcript_hash bundle (init_of k c pub used ct [] mm) in
    let init := init_of k c pub used ct (hmac_sha256 (hk_confirm root KEY_CONFIRM_INIT_INFO) transcript) mm in
    build_protocol_state true root sid (hk_metadata root pub spk sid) eph pub spk pub spk
      (fst (mlkem_generate (sc_kyber c))) (snd (mlkem_generate (sc_kyber c))) (PreKeyBundle.kyber_public bundle) mm
      MAX_NONCE_COUNTER (mkNonceState (he_nonce_prefix e) 0) created (IdentityKeysInner.identity_ed25519_public k)
      (IdentityKeysInner.identity_x25519_public k) (PreKeyBundle.identity_ed25519_public bundle)
      (PreKeyBundle.identity_x25519_public bundle) = Ok pst /\
    hi = mkHandshakeInitiator init (encode init)
      (Some (mkInitiatorState (Some (mkHandshakeState pst ss))
               (hmac_sha256 (hk_confirm root KEY_CONFIRM_RESP_INFO) transcript))) }.

Lemma read_kyber c k : holds k c ->
  clone_kyber_secret_key k = Ok (SecureMemoryHandle.mk (fst (mlkem_generate (sc_kyber c)))).
Proof.
  intros Hk. unfold clone_kyber_secret_key, crypto_err. rewrite (h_kyber_secret _ _ Hk).
  destruct (mlkem_generate_len (sc_kyber c)) as [Hl _].
  rewrite SecureMemoryHandle.read_bytes_exact by exact Hl. cbn [map_err rbind].
  rewrite SecureMemoryHandle.alloc_write_exact; [reflexivity|unfold KYBER_SECRET_KEY_BYTES, MAX_BUFFER_SIZE; lia|exact Hl].
Qed.

Lemma create_nonces_inv prefix g : Nonce.create prefix = Ok g ->
  len prefix = NONCE_PREFIX_BYTES /\ export_state g = mkNonceState prefix 0.
Proof.
  unfold Nonce.create, create_with_limit. intros H. inv_ok. bools. split; [assumption|]. cbn.
  f_equal. apply firstn_all2. unfold len, NONCE_PREFIX_BYTES in *. lia.
Qed.

Lemma read_identity_x25519 c k : holds k c -> get_identity_x25519_private_key_copy k = Ok (sc_x25519 c).
Proof.
  intros Hk. unfold get_identity_x25519_private_key_copy, crypto_err. rewrite (h_x_secret _ _ Hk).
  now rewrite (SecureMemoryHandle.read_bytes_exact _ _ (h_x_len _ _ Hk)).
Qed.

Lemma read_spk c k : holds k c -> get_signed_pre_key_private_copy k = Ok (sc_spk c).
Proof.
  intros Hk. unfold get_signed_pre_key_private_copy, crypto_err. rewrite (h_spk_secret _ _ Hk).
  now rewrite (SecureMemoryHandle.read_bytes_exact _ _ (h_spk_len _ _ Hk)).
Qed.

Lemma read_ed25519 c k : holds k c -> get_identity_ed25519_private_key_copy k = Ok (ed25519_keypair (sc_ed25519 c)).
Proof.
  intros Hk. unfold get_identity_ed25519_private_key_copy, crypto_err. rewrite (h_ed_secret _ _ Hk).
  now rewrite SecureMemoryHandle.read_bytes_exact by apply ed25519_keypair_len.
Qed.

Lemma sign_binding_ok seed ed x ky :
  sign_init_identity_binding (ed25519_keypair seed) ed x ky =
  Ok (ed25519_sign (ed25519_keypair seed) (build_init_identity_binding_message ed x ky)).
Proof. unfold sign_init_identity_binding. now rewrite ed25519_keypair_len, ed25519_keypair_valid. Qed.

Lemma hmac_ok root info m : compute_hmac_sha256 (hk_confirm root info) m = Ok (hmac_sha256 (hk_confirm root info) m).
Proof. unfold compute_hmac_sha256, hk_confirm. now rewrite kdf_len by easy. Qed.

Lemma start_Ok k c bundle mm now e hi k' : holds k c -> len (he_ephemeral e) = X25519_PRIVATE_KEY_BYTES ->
  start bundle mm now e k = (Ok hi, k') ->
  exists eph ct ss used opk_public created, now = Ok created /\
    started k c bundle mm e hi eph ct ss used opk_public created.
Proof.
  intros Hk He H. unfold start in H. inv_stm.
  repeat match goal with u : unit |- _ => destruct u end.
  match goal with H : generate_ephemeral_key_pair _ _ = _ |- _ =>
    destruct (generate_ephemeral_ok _ _ _ _ _ Hk He H) as (Hk1 & _ & eph & E1 & E2 & E3); clear H end.
  unfold get_ephemeral_x25519_private_key_copy, crypto_err in *.
  destruct (mlkem_generate_len (sc_kyber c)) as [Hksk _].
  repeat match goal with
  | H : _ = Some ?x, E : _ = Some _ |- _ => is_var x; rewrite E in H; apply Some_inj in H; subst x
  | H : _ = Ok _ |- _ => progress (rewrite ?(read_identity_x25519 _ _ Hk1), ?(read_ed25519 _ _ Hk1),
      ?(read_kyber _ _ Hk1), ?sign_binding_ok in H); inv_ok
  | H : SecureMemoryHandle.read_bytes (SecureMemoryHandle.mk ?d) _ = Ok _, Hd : len ?d = _ |- _ =>
      rewrite (SecureMemoryHandle.read_bytes_exact _ _ Hd) in H; inv_ok
  | H : derive_key_bytes _ _ _ _ = Ok _ |- _ => rewrite derive_key_bytes_ok in H by easy; inv_ok
  | H : handshake_dh _ _ _ = Ok _ |- _ => apply handshake_dh_inv in H; destruct H as (-> & ? & ? & ?)
  | H : kyber_encapsulate _ _ = Ok (_, ?h) |- _ => is_var h;
      destruct (kyber_encapsulate_inv _ _ _ _ H) as (ss & -> & Hss & _)
  end.
  apply create_nonces_inv in Hc24. destruct Hc24 as [Hpre Hng]. rewrite Hng in *.
  rewrite (constant_time_equals_spec) in Hc2. cbn [unwrap_or] in Hc2. apply negb_true_iff in Hc2.
  assert (Hed : IdentityKeysInner.identity_ed25519_public s3 = IdentityKeysInner.identity_ed25519_public k)
    by (now rewrite (h_ed_public _ _ Hk1), (h_ed_public _ _ Hk)).
  assert (Hx : IdentityKeysInner.identity_x25519_public s3 = IdentityKeysInner.identity_x25519_public k)
    by (now rewrite (h_x_public _ _ Hk1), (h_x_public _ _ Hk)).
  assert (Hky : IdentityKeysInner.kyber_public s3 = IdentityKeysInner.kyber_public k)
    by (now rewrite (h_kyber_public _ _ Hk1), (h_kyber_public _ _ Hk)).
  rewrite Hed, Hx, Hky in *.
  assert (Hd4 : a10 = dh4_of o (x25519_dh a7 l) /\ (o <> None -> is_all_zero (x25519_dh a7 l) = false)).
  { destruct o; [|inv_ok; split; [reflexivity|congruence]].
    apply handshake_dh_inv in Hc11. destruct Hc11 as (-> & _ & _ & ?). auto. }
  destruct Hd4 as [-> Hd4]. unfold compute_hmac_sha256 in *. rewrite kdf_len in * by easy. inv_ok.
  exists a7, l0, a12, o, l, a25. split; [reflexivity|]. constructor; try assumption.
  rewrite (h_kyber_public _ _ Hk) in Hc28. exists a26. split; [exact Hc28|reflexivity].
Qed.

(** ** The answer of the holder of the bundle *)

Lemma validate_len pk : DhValidator.validate_x25519_public_key pk = Ok tt -> len pk = X25519_PUBLIC_KEY_BYTES.
Proof. unfold DhValidator.validate_x25519_public_key. intros H. inv_ok. now bools. Qed.

Lemma ed_public_len seed : len (ed25519_public (ed25519_keypair seed)) = ED25519_PUBLIC_KEY_BYTES.
Proof. apply ed25519_public_len, ed25519_keypair_len. Qed.

Lemma verify_ok seed m :
  Ed25519KeyPair.verify (ed25519_public (ed25519_keypair seed)) m (ed25519_sign (ed25519_keypair seed) m) = Ok tt.
Proof.
  unfold Ed25519KeyPair.verify. rewrite ed_public_len, ed25519_sign_len, ed25519_public_valid, ed25519_sign_verify.
  reflexivity.
Qed.

(** What the responder checks of the initiator's public values. *)
Record acceptable (c : IdSecrets) (eph ct : bytes) : Prop := {
  ac_x : DhValidator.validate_x25519_public_key (x25519_public (sc_x25519 c)) = Ok tt;
  ac_eph : DhValidator.validate_x25519_public_key (x25519_public eph) = Ok tt;
  ac_ct : forallb (fun b => b =? 0) ct = false;
  ac_kyber : forallb (fun b => b =? 0) (snd (mlkem_generate (sc_kyber c))) = false }.

Lemma kyber_public_ok seed : forallb (fun b => b =? 0) (snd (mlkem_generate seed)) = false ->
  kyber_validate_public_key (snd (mlkem_generate seed)) = Ok tt.
Proof.
  intros Hz. unfold kyber_validate_public_key. destruct (mlkem_generate_len seed) as [_ Hl].
  rewrite Hl, Hz, mlkem_ek_valid. run_res. now rewrite bytes_eqb_refl.
Qed.

Lemma validate_init_ok k c eph used ct mac mm : holds k c -> acceptable c eph ct ->
  validate_max_messages_per_chain mm = Ok tt -> len ct = KYBER_CIPHERTEXT_BYTES -> len mac = HMAC_BYTES ->
  validate_init_message (init_of k c (x25519_public eph) used ct mac mm) = Ok tt.
Proof.
  intros Hk [Ax Ae Ac Ak] Hm Hc Hmac. destruct (mlkem_generate_len (sc_kyber c)) as [_ Hkl].
  unfold validate_init_message, verify_init_identity_binding, init_of.
  cbn [HandshakeInit.version HandshakeInit.initiator_identity_ed25519_public HandshakeInit.initiator_identity_x25519_public
       HandshakeInit.initiator_ephemeral_x25519_public HandshakeInit.kyber_ciphertext HandshakeInit.key_confirmation_mac
       HandshakeInit.initiator_kyber_public HandshakeInit.max_messages_per_chain
       HandshakeInit.initiator_identity_binding_signature].
  rewrite (h_ed_public _ _ Hk), (h_x_public _ _ Hk), (h_kyber_public _ _ Hk).
  rewrite ed_public_len, ed25519_sign_len, !x25519_public_len, Hc, Hmac, Hkl, Ax, Ae, Hm, verify_ok.
  rewrite (kyber_public_ok _ Ak). unfold kyber_validate_ciphertext. rewrite Hc, Ac. reflexivity.
Qed.

(** The key the initiator chose is the one the pool finds. *)
Lemma find_opk_NoDup l o : NoDup (opk_ids l) -> In o l -> find_opk (OneTimePreKey.id o) l = Some o.
Proof.
  unfold opk_ids, find_opk. induction l as [|x l IH]; intros Hd Hi; [destruct Hi|].
  cbn [find]. destruct Hi as [->|Hi].
  - now rewrite Z.eqb_refl.
  - inversion Hd as [|? ? Hn Hd']; subst. destruct (Z.eqb_spec (OneTimePreKey.id x) (OneTimePreKey.id o)) as [E|];
      [|now apply IH].
    exfalso. apply Hn. rewrite E. now apply in_map.
Qed.

Lemma selected_key k c rand used pub : holds k c ->
  select_opk rand (PreKeyBundle.one_time_pre_keys (proto_bundle k)) = Ok (used, pub) ->
  match used with
  | Some id => exists s, get_one_time_pre_key_private_by_id id k = Ok s /\ pub = x25519_public s /\
      len s = X25519_PRIVATE_KEY_BYTES
  | None => True
  end.
Proof.
  intros Hk H. unfold select_opk in H.
  destruct (vget _ _) as [m|] eqn:E; inv_ok; [|exact I].
  apply nth_error_In in E. cbn [proto_bundle PreKeyBundle.one_time_pre_keys create_public_bundle
    LocalPublicKeyBundle.one_time_pre_keys] in E.
  rewrite map_map in E. apply in_map_iff in E. destruct E as (o & <- & Hi).
  cbn [OneTimePreKeyMessage.one_time_pre_key_id OneTimePreKeyMessage.public_key OneTimePreKeyPublic.id
       OneTimePreKeyPublic.public_key].
  destruct (h_pool _ _ Hk) as [Hf Hd]. rewrite Forall_forall in Hf. destruct (Hf _ Hi) as (s & Hs & Hl & Hp).
  exists s. unfold get_one_time_pre_key_private_by_id, crypto_err. rewrite (find_opk_NoDup _ _ Hd Hi). run_res.
  rewrite Hs, (SecureMemoryHandle.read_bytes_exact _ _ Hl). auto.
Qed.

(** ** The two states *)

(** The parties of the session as the handshake sees them. *)
Definition party_of (k : IdentityKeysInner) (c : IdSecrets) (secret prefix : bytes) (created : Z) : Party :=
  mkParty secret (sc_kyber c) (IdentityKeysInner.identity_ed25519_public k)
    (IdentityKeysInner.identity_x25519_public k) (mkNonceState prefix 0) created.

(** The responder's state can be built whenever the initiator's was. *)
Lemma party_state_mirror root sid meta mm mn a b pst :
  party_state true root sid meta mm mn a b = Ok pst -> len (pt_secret b) = X25519_PRIVATE_KEY_BYTES ->
  pt_created b < 2 ^ 63 -> exists pst', party_state false root sid meta mm mn b a = Ok pst'.
Proof.
  intros H Hb Hc. unfold party_state, build_protocol_state in *. cbv zeta in *. inv_ok. bools.
  match goal with H : compute_identity_binding_hash _ _ _ _ = Ok _ |- _ => apply identity_binding_sym in H; rewrite H end.
  unfold timestamp_from_unix_secs in *. inv_ok.
  pose proof (proj1 (mlkem_generate_len (pt_kyber_seed b))) as Hkb.
  repeat match goal with
  | u : unit |- _ => destruct u
  | H : len _ = _ |- _ => rewrite H
  | H : validate_dh_public_key _ = Ok _ |- _ => rewrite H
  | H : is_all_zero _ = false |- _ => rewrite H
  | H : ?x <> 0 |- context [?x =? 0] => rewrite (proj2 (Z.eqb_neq x 0) H)
  | H : ?x <= ?y |- context [?y <? ?x] => rewrite (proj2 (Z.ltb_ge y x) H)
  end.
  rewrite (proj2 (Z.ltb_lt _ _) Hc). cbn. eauto.
Qed.

Lemma read_decapsulated kb cb r ct ss : holds kb cb ->
  kyber_encapsulate (snd (mlkem_generate (sc_kyber cb))) r = Ok (ct, SecureMemoryHandle.mk ss) ->
  len ss = KYBER_SHARED_SECRET_BYTES -> forallb (fun b => b =? 0) ct = false ->
  decapsulate_kyber_ciphertext ct kb = Ok (HybridHandshakeArtifacts.mk ct ss).
Proof.
  intros Hk He Hs Hz. unfold decapsulate_kyber_ciphertext, kyber_validate_ciphertext, crypto_err.
  destruct (kyber_encapsulate_inv _ _ _ _ He) as (_ & _ & _ & Hc). rewrite Hc, Hz. run_res.
  rewrite (h_kyber_secret _ _ Hk), (kyber_roundtrip _ _ _ _ _ eq_refl He). run_res.
  now rewrite (SecureMemoryHandle.read_bytes_exact _ _ Hs).
Qed.

Lemma metadata_context_sym a b sid : len a = len b ->
  build_metadata_context a b sid = build_metadata_context b a sid.
Proof. intros H. unfold build_metadata_context. now rewrite (sort_pair_sym a b H). Qed.

Lemma nonces_create prefix : len prefix = NONCE_PREFIX_BYTES ->
  exists g, Nonce.create prefix = Ok g /\ export_state g = mkNonceState prefix 0.
Proof.
  intros H. unfold Nonce.create, create_with_limit. rewrite H. run_res. eexists. split; [reflexivity|]. cbn.
  f_equal. apply firstn_all2. unfold len, NONCE_PREFIX_BYTES in *. lia.
Qed.

(** The bundle of an identity, field by field. *)
Lemma bundle_fields k c : holds k c ->
  PreKeyBundle.identity_ed25519_public (proto_bundle k) = IdentityKeysInner.identity_ed25519_public k /\
  PreKeyBundle.identity_x25519_public (proto_bundle k) = x25519_public (sc_x25519 c) /\
  PreKeyBundle.signed_pre_key_public (proto_bundle k) = x25519_public (sc_spk c) /\
  PreKeyBundle.kyber_public (proto_bundle k) = snd (mlkem_generate (sc_kyber c)).
Proof.
  intros Hk. cbn. rewrite (h_x_public _ _ Hk), (h_spk_public _ _ Hk), (h_kyber_public _ _ Hk). auto.
Qed.

(** The responder finds the pre-key and computes the fourth result. *)
Lemma responder_opk k c rand used pub eph : holds k c -> len eph = X25519_PRIVATE_KEY_BYTES ->
  select_opk rand (PreKeyBundle.one_time_pre_keys (proto_bundle k)) = Ok (used, pub) ->
  (used <> None -> is_all_zero (x25519_dh eph pub) = false) ->
  exists s,
    match used with
    | Some id => let? priv := get_one_time_pre_key_private_by_id id k in Ok (Some id, priv)
    | None => Ok (None, [])
    end = Ok (used, s) /\
    match used with Some _ => handshake_dh s (x25519_public eph) "DH4" | None => Ok [] end =
      Ok (dh4_of used (x25519_dh eph pub)).
Proof.
  intros Hk He So S4. pose proof (selected_key _ _ _ _ _ Hk So) as Hs. destruct used as [id|]; [|exists []; auto].
  destruct Hs as (s & Hg & -> & Hl). exists s. rewrite Hg. split; [reflexivity|]. unfold dh4_of.
  rewrite (x25519_agree eph). apply handshake_dh_ok; [assumption|apply x25519_public_len|].
  rewrite <- (x25519_agree eph). apply S4. discriminate.
Qed.

Section Answer.
Variables (ka kb : IdentityKeysInner) (ca cb : IdSecrets) (mm : Z) (e : InitiatorEntropy).
Variables (eph ct ss pub prefix' : bytes) (used : option Z) (created created' : Z).
Hypothesis (Ha : holds ka ca) (Hb : holds kb cb) (Hac : acceptable ca eph ct).
Hypothesis (Hp : len prefix' = NONCE_PREFIX_BYTES) (Hc : created' < 2 ^ 63).

Let a := party_of ka ca eph (he_nonce_prefix e) created.
Let b := party_of kb cb (sc_spk cb) prefix' created'.
Let root := hk_root (x3dh_ikm (x25519_dh (sc_x25519 ca) (x25519_public (sc_spk cb)))
  (x25519_dh eph (x25519_public (sc_x25519 cb))) (x25519_dh eph (x25519_public (sc_spk cb)))
  (dh4_of used (x25519_dh eph pub))) ss.
Let sid := hk_session root ct.
Let meta := hk_metadata root (x25519_public eph) (x25519_public (sc_spk cb)) sid.
Let transcript := build_transcript_hash (proto_bundle kb) (init_of ka ca (x25519_public eph) used ct [] mm).
Let init := init_of ka ca (x25519_public eph) used ct (hmac_sha256 (hk_confirm root KEY_CONFIRM_INIT_INFO) transcript) mm.

(** The responder derives the same keys and builds the mirrored state. *)
Lemma answer_runs hi pb : started ka ca (proto_bundle kb) mm e hi eph ct ss used pub created ->
  party_state false root sid meta mm MAX_NONCE_COUNTER b a = Ok pb ->
  answer (proto_bundle kb) init mm (Ok created') prefix' kb =
  Ok (HandshakeAck.mk PROTOCOL_VERSION (hmac_sha256 (hk_confirm root KEY_CONFIRM_RESP_INFO) transcript),
      mkHandshakeState pb ss, used).
Proof.
  intros [Sb Sm Sr Se So S1 S2 S3 S4 Sk Ss Sp _] Hpb.
  destruct (bundle_fields _ _ Hb) as (B1 & B2 & B3 & B4). rewrite B1, B2, B3, B4 in *.
  destruct (kyber_encapsulate_inv _ _ _ _ Sk) as (_ & _ & _ & Hct).
  destruct (responder_opk _ _ _ _ _ _ Hb Se So S4) as (opk & Ho1 & Ho4).
  destruct (nonces_create _ Hp) as (g & Hg & Hgs).
  destruct (mlkem_generate_len (sc_kyber cb)) as [Hks Hkp].
  unfold answer, crypto_err. unfold init at 1. rewrite validate_init_ok by (assumption || apply hmac_sha256_len).
  change (build_transcript_hash (proto_bundle kb) init) with transcript. unfold init, init_of.
  cbn [HandshakeInit.initiator_identity_ed25519_public HandshakeInit.initiator_identity_x25519_public
       HandshakeInit.initiator_ephemeral_x25519_public HandshakeInit.kyber_ciphertext HandshakeInit.key_confirmation_mac
       HandshakeInit.initiator_kyber_public HandshakeInit.max_messages_per_chain HandshakeInit.one_time_pre_key_id].
  rewrite constant_time_equals_spec, B1, bytes_eqb_sym, Sr, B2, B3. run_res. rewrite Ho1. run_res.
  rewrite (read_spk _ _ Hb), (read_identity_x25519 _ _ Hb), (read_kyber _ _ Hb). run_res.
  unfold PResult in Ho4. rewrite (h_x_public _ _ Ha), (h_kyber_public _ _ Hb), Ho4.
  rewrite !handshake_dh_ok
    by (apply x25519_public_len || apply (h_spk_len _ _ Hb) || apply (h_x_len _ _ Hb) || (rewrite <- x25519_agree; assumption)).
  rewrite (read_decapsulated _ _ _ _ _ Hb Sk Ss (ac_ct _ _ _ Hac)). run_res.
  rewrite derive_key_bytes_ok by easy. run_res. cbn [HybridHandshakeArtifacts.kyber_shared_secret].
  rewrite derive_key_bytes_ok by easy. run_res.
  rewrite <- (x25519_agree (sc_x25519 ca)), <- !(x25519_agree eph).
  match goal with |- context [kdf ss ROOT_KEY_BYTES ?c HYBRID_X3DH_INFO] =>
    change (kdf ss ROOT_KEY_BYTES c HYBRID_X3DH_INFO) with root end.
  rewrite !(derive_key_bytes_ok root) by easy. run_res.
  change (kdf root SESSION_ID_BYTES ct SESSION_ID_INFO) with sid.
  rewrite (metadata_context_sym (x25519_public (sc_spk cb))) by (now rewrite !x25519_public_len).
  rewrite derive_key_bytes_ok by easy. run_res.
  fold (hk_confirm root KEY_CONFIRM_INIT_INFO). fold (hk_confirm root KEY_CONFIRM_RESP_INFO). rewrite !hmac_ok. run_res.
  rewrite constant_time_equals_spec, bytes_eqb_refl, Hg. run_res.
  rewrite (SecureMemoryHandle.read_bytes_exact _ _ Hks). run_res. rewrite Hkp, Hgs. run_res.
  rewrite <- (h_x_public _ _ Ha), <- (h_x_public _ _ Hb).
  rewrite (h_kyber_public _ _ Ha).
  match goal with |- rbind ?x _ = _ => change x with (party_state false root sid meta mm MAX_NONCE_COUNTER b a) end.
  now rewrite Hpb.
Qed.

Lemma answer_ok hi : started ka ca (proto_bundle kb) mm e hi eph ct ss used pub created ->
  exists root sid meta pa pb ack_mac,
    party_state true root sid meta mm MAX_NONCE_COUNTER a b = Ok pa /\
    party_state false root sid meta mm MAX_NONCE_COUNTER b a = Ok pb /\
    hi_state hi = Some (mkInitiatorState (Some (mkHandshakeState pa ss)) ack_mac) /\ len ack_mac = HMAC_BYTES /\
    hi_init_bytes hi = encode (hi_init_message hi) /\
    answer (proto_bundle kb) (hi_init_message hi) mm (Ok created') prefix' kb =
      Ok (HandshakeAck.mk PROTOCOL_VERSION ack_mac, mkHandshakeState pb ss, used).
Proof.
  intros Hst. destruct (sd_state _ _ _ _ _ _ _ _ _ _ _ _ Hst) as (pa & Hpa & Hhi).
  destruct (bundle_fields _ _ Hb) as (B1 & B2 & B3 & B4). rewrite B1, B2, B3, B4 in *. cbv zeta in Hpa.
  rewrite <- (h_x_public _ _ Hb) in Hpa at 5.
  change (party_state true root sid meta mm MAX_NONCE_COUNTER a b = Ok pa) in Hpa.
  destruct (party_state_mirror _ _ _ _ _ _ _ _ Hpa (h_spk_len _ _ Hb) Hc) as [pb Hpb].
  exists root, sid, meta, pa, pb. eexists. split; [exact Hpa|]. split; [exact Hpb|]. rewrite Hhi. split; [reflexivity|].
  split; [apply hmac_sha256_len|]. split; [reflexivity|]. exact (answer_runs _ _ Hst Hpb).
Qed.
End Answer.

End Agreement.
