(* ===== verification/HandshakeReplay.v ===== *)
(** * A handshake message is answered at most once

    What [process] does to the replay state and to the pool of one-time
    pre-keys, when it succeeds and when it fails; over a whole history, no
    message is accepted twice while it is remembered, no one-time pre-key serves
    two sessions, and both survive a restart through the sealed replay state. *)

From Stdlib Require Import ZArith List Bool Lia String Permutation.
From S2P Require Import Prelude Constants SeenSet SecureMemory Crypto Signatures Proto.
From S2P Require Import SessionState Session IdentityModels Identity IdentityFacts Handshake Protocol.
Import ListNotations.
Open Scope string_scope.
Open Scope list_scope.
Open Scope Z_scope.

(** The fields that processing a handshake leaves alone. *)
Definition statics (k : IdentityKeysInner) :=
  (IdentityKeysInner.identity_ed25519_secret_key k, IdentityKeysInner.identity_ed25519_public k,
   IdentityKeysInner.identity_x25519_secret_key k, IdentityKeysInner.identity_x25519_public k,
   IdentityKeysInner.identity_x25519_signature k, IdentityKeysInner.signed_pre_key_id k,
   IdentityKeysInner.signed_pre_key_secret_key k, IdentityKeysInner.signed_pre_key_public k,
   IdentityKeysInner.signed_pre_key_signature k, IdentityKeysInner.kyber_secret_key k,
   IdentityKeysInner.kyber_public k, IdentityKeysInner.ephemeral_secret_key k,
   IdentityKeysInner.ephemeral_x25519_public k).

Definition recent_ok (k : IdentityKeysInner) : Prop :=
  seen_consistent (IdentityKeysInner.recent_handshake_init_hashes k) (IdentityKeysInner.recent_handshake_init_order k) /\
  len (IdentityKeysInner.recent_handshake_init_order k) <= MAX_SEEN_HANDSHAKE_INITS.

Section Replay.
Context {P : Primitives} {L : PrimitiveLaws P} {SG : Signatures}.
Context {CB : Prost PreKeyBundle.t} {CI : Prost HandshakeInit.t} {CA : Prost HandshakeAck.t}.
Context {G : Type}.
Implicit Types (s : IdentityKeysInner * G).

(** ** Reservation without a guard of the host *)

Definition reserve_in (fp : bytes) (k : IdentityKeysInner) : IdentityKeysInner :=
  IdentityKeysInner.set_inflight_handshake_init_hashes
    (bset_insert (IdentityKeysInner.inflight_handshake_init_hashes k) fp) k.

Definition reserved (fp : bytes) : Reservation := mkReservation fp true false false false.

Lemma reserve_inv fp k g r k' g' : len fp = HMAC_BYTES ->
  reservation_reserve (G := G) None fp (k, g) = (r, (k', g')) ->
  g' = g /\
  ((exists e, r = Err e /\ k' = k) \/
   (r = Ok (reserved fp) /\ k' = reserve_in fp k /\
    bset_contains (IdentityKeysInner.recent_handshake_init_hashes k) fp = false /\
    bset_contains (IdentityKeysInner.inflight_handshake_init_hashes k) fp = false)).
Proof.
  intros Hl H. unfold reservation_reserve, sbind, sret, on_fst, reserve_handshake_init_fingerprint, sbind, sguard, slift,
    sget, smod, sret in H. cbn [fst snd] in H. rewrite Hl, Z.eqb_refl in H. cbn [ensure] in H.
  destruct (bset_contains (IdentityKeysInner.recent_handshake_init_hashes k) fp);
    [|destruct (bset_contains (IdentityKeysInner.inflight_handshake_init_hashes k) fp)]; cbn [orb negb] in H.
  1, 2: unfold sfail in H; inv_ok; split; [reflexivity|left; eauto].
  destruct (negb _); cbn [ensure negb] in H; inv_ok; (split; [reflexivity|]); [right|left]; eauto.
Qed.

Lemma drop_reserved fp k g : len fp = HMAC_BYTES ->
  bset_contains (IdentityKeysInner.inflight_handshake_init_hashes k) fp = false ->
  reservation_drop (G := G) None (reserved fp) (reserve_in fp k, g) = (k, g).
Proof.
  intros Hl Hn. unfold reservation_drop, reserved, release_handshake_init_fingerprint.
  cbn [rv_committed rv_local_committed rv_local_reserved rv_fingerprint fst snd].
  rewrite Hl, Z.eqb_refl. cbn [negb]. unfold reserve_in, bset_insert. rewrite Hn.
  apply bset_contains_not in Hn. destruct k. unfold IdentityKeysInner.set_inflight_handshake_init_hashes.
  cbn [IdentityKeysInner.inflight_handshake_init_hashes] in *. now rewrite bset_remove_cons.
Qed.

(** The state after the fingerprint is promoted. *)
Definition remembered (fp : bytes) (k : IdentityKeysInner) : IdentityKeysInner :=
  let '(hashes, order) :=
    prune_recent MAX_SEEN_HANDSHAKE_INITS (fp :: IdentityKeysInner.recent_handshake_init_hashes k)
      (IdentityKeysInner.recent_handshake_init_order k ++ [fp]) in
  IdentityKeysInner.set_recent_handshake_init_order order (IdentityKeysInner.set_recent_handshake_init_hashes hashes k).

Lemma commit_reserved fp k g : len fp = HMAC_BYTES ->
  bset_contains (IdentityKeysInner.recent_handshake_init_hashes k) fp = false ->
  bset_contains (IdentityKeysInner.inflight_handshake_init_hashes k) fp = false ->
  reservation_commit (G := G) None (reserved fp) (reserve_in fp k, g) = (Ok tt, (remembered fp k, g)).
Proof.
  intros Hl Hr Hn. unfold reservation_commit, on_fst, remember_handshake_init_fingerprint, sbind, sguard, slift, smod, sget, sret.
  cbn [fst snd rv_fingerprint reserved]. rewrite Hl, Z.eqb_refl. cbn [ensure].
  unfold reserve_in, remembered, bset_insert. rewrite Hn. apply bset_contains_not in Hn.
  destruct k. unfold IdentityKeysInner.set_inflight_handshake_init_hashes in *.
  cbn [IdentityKeysInner.inflight_handshake_init_hashes IdentityKeysInner.recent_handshake_init_hashes
       IdentityKeysInner.recent_handshake_init_order] in *.
  rewrite bset_remove_cons by assumption. rewrite Hr. destruct (prune_recent _ _ _). reflexivity.
Qed.

(** ** Consumption of the pre-key *)

Lemma remove_opk_Some id l o : find_opk id l = Some o -> exists rest, remove_opk id l = Some rest.
Proof.
  unfold find_opk. induction l as [|x l IH]; cbn [find remove_opk]; [discriminate|].
  destruct (OneTimePreKey.id x =? id); [eauto|]. intros H. destruct (IH H) as [rest ->]. cbn. eauto.
Qed.

Lemma remove_opk_ids id l rest : remove_opk id l = Some rest ->
  exists l1 l2, opk_ids l = l1 ++ id :: l2 /\ opk_ids rest = l1 ++ l2 /\ (forall o, In o rest -> In o l).
Proof.
  revert rest. induction l as [|x l IH]; intros rest H; cbn [remove_opk] in H; [discriminate|].
  destruct (Z.eqb_spec (OneTimePreKey.id x) id) as [<-|].
  - inv_ok. exists [], (opk_ids rest). split; [reflexivity|]. split; [reflexivity|]. intros. now right.
  - destruct (remove_opk id l) as [r|]; [|discriminate]. cbn in H. inv_ok.
    destruct (IH r eq_refl) as (l1 & l2 & E1 & E2 & E3). exists (OneTimePreKey.id x :: l1), l2.
    unfold opk_ids in *. cbn [map app]. rewrite E1, E2.
    split; [reflexivity|]. split; [reflexivity|]. intros o [->|Ho]; [now left|right; auto].
Qed.

Definition consumed (used : option Z) (k : IdentityKeysInner) : IdentityKeysInner := snd (consume_used used k).

Lemma consumed_frame used k :
  statics (consumed used k) = statics k /\
  IdentityKeysInner.inflight_handshake_init_hashes (consumed used k) = IdentityKeysInner.inflight_handshake_init_hashes k /\
  IdentityKeysInner.recent_handshake_init_hashes (consumed used k) = IdentityKeysInner.recent_handshake_init_hashes k /\
  IdentityKeysInner.recent_handshake_init_order (consumed used k) = IdentityKeysInner.recent_handshake_init_order k.
Proof.
  destruct used as [id|]; [|now repeat split].
  unfold consumed, consume_used, consume_one_time_pre_key_by_id, sbind, sget, slift, smod, sret.
  destruct (remove_opk _ _); cbn [ok_or]; [case_if|]; now repeat split.
Qed.

Lemma consume_reserved used fp k :
  match used with Some id => exists o, find_opk id (IdentityKeysInner.one_time_pre_keys k) = Some o | None => True end ->
  consume_used used (reserve_in fp k) = (Ok tt, reserve_in fp (consumed used k)).
Proof.
  destruct used as [id|]; [|reflexivity]. intros [o Ho]. destruct (remove_opk_Some _ _ _ Ho) as [rest Hr].
  unfold consumed, consume_used, consume_one_time_pre_key_by_id, sbind, sget, slift, smod, sret.
  change (IdentityKeysInner.one_time_pre_keys (reserve_in fp k)) with (IdentityKeysInner.one_time_pre_keys k).
  rewrite Hr. cbn [ok_or].
  change (IdentityKeysInner.event_handler (reserve_in fp k)) with (IdentityKeysInner.event_handler k).
  change (IdentityKeysInner.one_time_pre_key_capacity (reserve_in fp k)) with (IdentityKeysInner.one_time_pre_key_capacity k).
  case_if; reflexivity.
Qed.

Lemma answer_used bundle init mm now prefix k ack st used :
  answer bundle init mm now prefix k = Ok (ack, st, used) ->
  used = HandshakeInit.one_time_pre_key_id init /\
  match used with Some id => exists o, find_opk id (IdentityKeysInner.one_time_pre_keys k) = Some o | None => True end.
Proof.
  intros H. unfold answer in H.
  do 3 (apply rbind_Ok in H; destruct H as (? & _ & H)).
  apply rbind_Ok in H. destruct H as ([used' opk] & Ho & H).
  assert (used' = used) as -> by (inv_ok; reflexivity). clear H.
  destruct (HandshakeInit.one_time_pre_key_id init) as [id|]; inv_ok; [|now split].
  split; [reflexivity|]. unfold get_one_time_pre_key_private_by_id in *. inv_ok. eauto.
Qed.

(** ** The outcomes of [process] *)

Lemma process_spec bundle msg mm now prefix k g r k' g' :
  process (G := G) bundle msg mm None now prefix (k, g) = (r, (k', g')) ->
  g' = g /\
  ((exists e, r = Err e /\ k' = k) \/
   exists init ack st used, decode msg = Some init /\
     bset_contains (IdentityKeysInner.recent_handshake_init_hashes k) (build_handshake_init_fingerprint init) = false /\
     answer bundle init mm now prefix k = Ok (ack, st, used) /\
     r = Ok (mkHandshakeResponder ack (encode ack) (Some st)) /\
     k' = remembered (build_handshake_init_fingerprint init) (consumed used k)).
Proof.
  intros H. unfold process, sbind, sguard, slift, sget, sret, on_err in H.
  destruct (validate_bundle bundle) as [[]|]; [|inv_ok; eauto 6].
  destruct (validate_max_messages_per_chain mm) as [[]|]; [|inv_ok; eauto 6].
  destruct (len msg <=? MAX_HANDSHAKE_MESSAGE_SIZE); cbn [ensure] in H; [|inv_ok; eauto 6].
  destruct (decode msg) as [init|]; cbn [ok_or] in H; [|inv_ok; eauto 6].
  assert (Hl : len (build_handshake_init_fingerprint init) = HMAC_BYTES) by apply sha256_len.
  set (fp := build_handshake_init_fingerprint init) in *.
  destruct (reservation_reserve None fp (k, g)) as [rv [k1 g1]] eqn:Er.
  destruct (reserve_inv _ _ _ _ _ _ Hl Er) as (-> & [(e & -> & ->)|(-> & -> & Hrec & Hinf)]); [inv_ok; eauto 6|].
  cbn [fst] in H. change (answer bundle init mm now prefix (reserve_in fp k)) with (answer bundle init mm now prefix k) in H.
  destruct (answer bundle init mm now prefix k) as [[[ack stt] used]|e] eqn:Ea.
  2: { rewrite (drop_reserved _ _ _ Hl Hinf) in H. inv_ok. eauto 6. }
  destruct (answer_used _ _ _ _ _ _ _ _ _ Ea) as [_ Hu]. unfold on_fst in H. cbn [fst snd] in H.
  rewrite (consume_reserved _ _ _ Hu) in H. destruct (consumed_frame used k) as (_ & F1 & F2 & _).
  rewrite commit_reserved in H by (rewrite ?F1, ?F2; assumption). inv_ok.
  split; [reflexivity|]. right. exists init, ack, stt, used. auto 6.
Qed.
End Replay.

(** ** Histories of an identity *)

Section Histories.
Context {P : Primitives} {L : PrimitiveLaws P} {SG : Signatures}.
Context {CB : Prost PreKeyBundle.t} {CI : Prost HandshakeInit.t} {CA : Prost HandshakeAck.t}.

Inductive IdOp : Type :=
| Answer (bundle : PreKeyBundle.t) (msg : bytes) (max_messages : Z) (now : PResult Z) (nonce_prefix : bytes)
| Begin (bundle : PreKeyBundle.t) (max_messages : Z) (now : PResult Z) (e : InitiatorEntropy)
| Replenish (count : Z) (e : OpkEntropy).

(** One operation: the messages it accepts and the new state. *)
Definition idop (k : IdentityKeysInner) (op : IdOp) : list HandshakeInit.t * IdentityKeysInner :=
  match op with
  | Answer bundle msg mm now prefix =>
      match process bundle msg mm None now prefix (k, tt) with
      | (Ok _, (k', _)) => (match decode msg with Some init => [init] | None => [] end, k')
      | (Err _, (k', _)) => ([], k')
      end
  | Begin bundle mm now e => ([], snd (start bundle mm now e k))
  | Replenish count e => ([], snd (replenish_one_time_pre_keys count e k))
  end.

Fixpoint idrun (ops : list IdOp) (k : IdentityKeysInner) : list HandshakeInit.t * IdentityKeysInner :=
  match ops with
  | [] => ([], k)
  | op :: ops =>
      let '(accepted, k) := idop k op in
      let '(later, k) := idrun ops k in
      (accepted ++ later, k)
  end.

Definition recents (k : IdentityKeysInner) :=
  (IdentityKeysInner.recent_handshake_init_hashes k, IdentityKeysInner.recent_handshake_init_order k).

Lemma start_keeps {V} (f : IdentityKeysInner -> V) bundle mm now e :
  (forall h k, f (IdentityKeysInner.set_ephemeral_secret_key h k) = f k) ->
  (forall p k, f (IdentityKeysInner.set_ephemeral_x25519_public p k) = f k) ->
  keeps f (start bundle mm now e).
Proof.
  intros H1 H2. unfold start, generate_ephemeral_key_pair, clear_ephemeral_key_pair. frame.
  all: apply keeps_smod; intros s; unfold clear_ephemeral_key_pair_locked; now rewrite ?H1, ?H2.
Qed.

Lemma replenish_keeps {V} (f : IdentityKeysInner -> V) count e :
  (forall l k, f (IdentityKeysInner.set_one_time_pre_keys l k) = f k) ->
  (forall p k, f (IdentityKeysInner.set_one_time_pre_key_capacity p k) = f k) ->
  keeps f (replenish_one_time_pre_keys count e).
Proof.
  intros H1 H2. unfold replenish_one_time_pre_keys. frame.
  all: apply keeps_smod; intros s; now rewrite ?H1, ?H2.
Qed.

(** A remembered fingerprint leaves only when the queue is full of later ones. *)
Definition remembers (fp : bytes) (n : Z) (k : IdentityKeysInner) : Prop :=
  exists l1 l2, IdentityKeysInner.recent_handshake_init_order k = l1 ++ fp :: l2 /\ len l2 <= n.

Lemma remembered_ok fp k : recent_ok k ->
  bset_contains (IdentityKeysInner.recent_handshake_init_hashes k) fp = false -> recent_ok (remembered fp k).
Proof.
  intros [Hc Hl] Hn. unfold remembered. destruct (prune_recent _ _ _) as [h o] eqn:E.
  apply prune_consistent in E; [exact E|easy|]. now apply remember_consistent.
Qed.

Lemma remembered_order fp k :
  IdentityKeysInner.recent_handshake_init_order (remembered fp k) =
  let order := IdentityKeysInner.recent_handshake_init_order k ++ [fp] in
  skipn (List.length order - Z.to_nat MAX_SEEN_HANDSHAKE_INITS) order.
Proof.
  unfold remembered. destruct (prune_recent _ _ _) as [h o] eqn:E. cbn [IdentityKeysInner.recent_handshake_init_order
    IdentityKeysInner.set_recent_handshake_init_order].
  cbv zeta. rewrite <- (prune_recent_order _ (fp :: IdentityKeysInner.recent_handshake_init_hashes k)) by easy. now rewrite E.
Qed.

Lemma remembers_new fp k : remembers fp 0 (remembered fp k).
Proof.
  unfold remembers. rewrite remembered_order. cbv zeta. rewrite skipn_app, length_app. cbn [List.length].
  change (Z.to_nat MAX_SEEN_HANDSHAKE_INITS) with (S (Z.to_nat (MAX_SEEN_HANDSHAKE_INITS - 1))).
  match goal with |- context [skipn (?d - ?n) [fp]] => replace (d - n)%nat with 0%nat by lia end.
  eexists _, []. split; [reflexivity|easy].
Qed.

Lemma remembers_step fp fp' n k : remembers fp n k -> n + 1 < MAX_SEEN_HANDSHAKE_INITS ->
  remembers fp (n + 1) (remembered fp' k).
Proof.
  intros (l1 & l2 & Ho & Hl) Hn. unfold remembers. rewrite remembered_order, Ho. cbv zeta.
  rewrite <- app_assoc. cbn [app]. rewrite skipn_app.
  match goal with |- context [skipn (?d - List.length l1) _] => replace (d - List.length l1)%nat with 0%nat end.
  - exists (skipn (List.length (l1 ++ fp :: l2 ++ [fp']) - Z.to_nat MAX_SEEN_HANDSHAKE_INITS) l1), (l2 ++ [fp']).
    split; [reflexivity|]. autorewrite with lens. lia.
  - rewrite length_app. cbn [List.length]. rewrite length_app. cbn [List.length]. unfold len in Hl. lia.
Qed.

(** What one operation does to the replay state. *)
Lemma idop_cases k op accs k' : idop k op = (accs, k') ->
  (accs = [] /\ recents k' = recents k) \/
  (exists bundle msg mm now prefix init ack stt used, op = Answer bundle msg mm now prefix /\
     accs = [init] /\ decode msg = Some init /\
     bset_contains (IdentityKeysInner.recent_handshake_init_hashes k) (build_handshake_init_fingerprint init) = false /\
     answer bundle init mm now prefix k = Ok (ack, stt, used) /\
     k' = remembered (build_handshake_init_fingerprint init) (consumed used k)).
Proof.
  destruct op as [bundle msg mm now prefix|bundle mm now e|count e]; cbn [idop]; intros H.
  - destruct (process bundle msg mm None now prefix (k, tt)) as [r [k1 []]] eqn:E.
    apply process_spec in E. destruct E as (_ & [(e & -> & ->)|(init & ack & stt & used & Hd & Hn & Ha & -> & ->)]); inv_ok.
    + now left.
    + right. rewrite Hd. exists bundle, msg, mm, now, prefix, init, ack, stt, used. auto 8.
  - inv_ok. left. split; [reflexivity|]. apply start_keeps; reflexivity.
  - inv_ok. left. split; [reflexivity|]. apply replenish_keeps; reflexivity.
Qed.

Lemma recents_ok k k' : recents k' = recents k -> recent_ok k -> recent_ok k'.
Proof. unfold recents, recent_ok. intros [= -> ->]. auto. Qed.

Lemma consumed_recents used k : recents (consumed used k) = recents k.
Proof. destruct (consumed_frame used k) as (_ & _ & E1 & E2). unfold recents. congruence. Qed.

Lemma idop_recent_ok k op accs k' : recent_ok k -> idop k op = (accs, k') -> recent_ok k'.
Proof.
  intros Hk H. apply idop_cases in H.
  destruct H as [[_ Hr]|(b & m & mm & now & p & init & ack & stt & used & _ & _ & _ & Hn & _ & ->)].
  - eapply recents_ok; eassumption.
  - apply remembered_ok; [eapply recents_ok; [apply consumed_recents|assumption]|].
    destruct (consumed_frame used k) as (_ & _ & -> & _). assumption.
Qed.

Lemma idop_remembers fp n k op accs k' : remembers fp n k -> idop k op = (accs, k') ->
  n + len accs < MAX_SEEN_HANDSHAKE_INITS -> remembers fp (n + len accs) k'.
Proof.
  intros Hk H Hn. apply idop_cases in H.
  destruct H as [[-> Hr]|(b & m & mm & now & p & init & ack & stt & used & _ & -> & _ & _ & _ & ->)].
  - rewrite len_nil, Z.add_0_r. unfold remembers. now rewrite (f_equal snd Hr : IdentityKeysInner.recent_handshake_init_order k' = _).
  - change (len [init]) with 1 in *. apply remembers_step; [|assumption]. unfold remembers.
    destruct (consumed_frame used k) as (_ & _ & _ & ->). assumption.
Qed.

Lemma idrun_remembers fp ops : forall n k accs k', recent_ok k -> remembers fp n k -> idrun ops k = (accs, k') ->
  n + len accs < MAX_SEEN_HANDSHAKE_INITS -> recent_ok k' /\ remembers fp (n + len accs) k'.
Proof.
  induction ops as [|op ops IH]; intros n k accs k' Hok Hk H Hn; cbn [idrun] in H.
  - inv_ok. rewrite len_nil, Z.add_0_r. auto.
  - destruct (idop k op) as [a1 k1] eqn:E1. destruct (idrun ops k1) as [a2 k2] eqn:E2. inv_ok.
    rewrite len_app in *. pose proof (len_nonneg a2). rewrite Z.add_assoc in *.
    eapply IH; [eapply idop_recent_ok|eapply idop_remembers|exact E2|]; eauto. lia.
Qed.

Lemma remembers_contains fp n k : recent_ok k -> remembers fp n k ->
  bset_contains (IdentityKeysInner.recent_handshake_init_hashes k) fp = true.
Proof.
  intros [[_ Hc] _] (l1 & l2 & Ho & _). apply bset_contains_In, Hc. rewrite Ho. apply in_elt.
Qed.

(** C7. A handshake message is answered once.  After a message was accepted, and
    as long as fewer than [MAX_SEEN_HANDSHAKE_INITS] further messages were, every
    byte string that decodes to the same message is refused, whatever else the
    identity did in between, and the refusal leaves the identity as it was. *)
Theorem handshake_init_accepted_once bundle msg mm now prefix k hr k1 (init : HandshakeInit.t) ops accs k2 bundle' msg' mm' now' prefix' :
  recent_ok k -> process bundle msg mm None now prefix (k, tt) = (Ok hr, (k1, tt)) -> decode msg = Some init ->
  idrun ops k1 = (accs, k2) -> len accs < MAX_SEEN_HANDSHAKE_INITS -> decode msg' = Some init ->
  exists e, process bundle' msg' mm' None now' prefix' (k2, tt) = (Err e, (k2, tt)).
Proof.
  intros Hk Hp Hd Hrun Hlen Hd'.
  assert (Hop : idop k (Answer bundle msg mm now prefix) = ([init], k1)) by (cbn [idop]; now rewrite Hp, Hd).
  pose proof (idop_recent_ok _ _ _ _ Hk Hop) as Hk1. apply process_spec in Hp.
  destruct Hp as (_ & [(e & [=] & _)|(init' & ack & stt & used & Hd1 & _ & _ & _ & ->)]).
  rewrite Hd in Hd1. inv_ok.
  destruct (idrun_remembers _ _ 0 _ _ _ Hk1 (remembers_new _ _) Hrun Hlen) as [Hk2 Hr].
  destruct (process bundle' msg' mm' None now' prefix' (k2, tt)) as [r [k3 []]] eqn:E. apply process_spec in E.
  destruct E as (_ & [(e & -> & ->)|(init2 & ack2 & stt2 & used2 & Hd2 & Hn & _)]); [eauto|].
  rewrite Hd' in Hd2. inv_ok. now rewrite (remembers_contains _ _ _ Hk2 Hr) in Hn.
Qed.

(** ** One-time pre-keys *)

(** The ids of the one-time pre-keys the accepted messages name. *)
Definition used_ids (accs : list HandshakeInit.t) : list Z :=
  flat_map (fun init => match HandshakeInit.one_time_pre_key_id init with Some id => [id] | None => [] end) accs.

Definition pool_ids (k : IdentityKeysInner) : list Z := opk_ids (IdentityKeysInner.one_time_pre_keys k).

Definition is_replenish (op : IdOp) : bool := match op with Replenish _ _ => true | _ => false end.

Lemma consumed_pool used k :
  match used with Some id => exists o, find_opk id (IdentityKeysInner.one_time_pre_keys k) = Some o | None => True end ->
  Permutation (pool_ids k) (match used with Some id => [id] | None => [] end ++ pool_ids (consumed used k)).
Proof.
  destruct used as [id|]; [|reflexivity]. intros [o Ho]. destruct (remove_opk_Some _ _ _ Ho) as [rest Hr].
  destruct (remove_opk_ids _ _ _ Hr) as (l1 & l2 & E1 & E2 & _).
  assert (Hp : pool_ids (consumed (Some id) k) = l1 ++ l2).
  { rewrite <- E2. unfold pool_ids, consumed, consume_used, consume_one_time_pre_key_by_id, sbind, sget, slift, smod, sret.
    rewrite Hr. cbn [ok_or]. case_if; reflexivity. }
  unfold pool_ids at 1. rewrite Hp, E1. cbn [app]. apply Permutation_sym, Permutation_middle.
Qed.

Lemma remembered_pool fp k : pool_ids (remembered fp k) = pool_ids k.
Proof. unfold remembered. now destruct (prune_recent _ _ _). Qed.

Lemma idop_pool k op accs k' : is_replenish op = false -> idop k op = (accs, k') ->
  Permutation (pool_ids k) (used_ids accs ++ pool_ids k').
Proof.
  intros Hr H. destruct op as [bundle msg mm now prefix|bundle mm now e|]; [| |discriminate]; cbn [idop] in H.
  - destruct (process bundle msg mm None now prefix (k, tt)) as [r [k1 []]] eqn:E.
    apply process_spec in E. destruct E as (_ & [(e & -> & ->)|(init & ack & stt & used & Hd & _ & Ha & -> & ->)]); inv_ok.
    + reflexivity.
    + rewrite Hd, remembered_pool. apply answer_used in Ha. destruct Ha as [-> Hu]. cbn [used_ids flat_map].
      rewrite app_nil_r. now apply consumed_pool.
  - inv_ok. cbn [used_ids flat_map app]. unfold pool_ids.
    now rewrite (start_keeps IdentityKeysInner.one_time_pre_keys bundle mm now e (fun _ _ => eq_refl) (fun _ _ => eq_refl) k).
Qed.

Lemma idrun_pool ops : forall k accs k', existsb is_replenish ops = false -> idrun ops k = (accs, k') ->
  Permutation (pool_ids k) (used_ids accs ++ pool_ids k').
Proof.
  induction ops as [|op ops IH]; intros k accs k' Hr H; cbn [idrun existsb] in *; [inv_ok; reflexivity|].
  bools. destruct (idop k op) as [a1 k1] eqn:E1. destruct (idrun ops k1) as [a2 k2] eqn:E2. inv_ok.
  unfold used_ids. rewrite flat_map_app, <- app_assoc. etransitivity; [eapply idop_pool; eassumption|].
  apply Permutation_app_head. now apply IH.
Qed.



(** ** The sealed replay state *)

Context {CR : Prost IdentityReplayState.t}.

(** The values the message's Rust type can hold. *)
Definition replay_state_wf (r : IdentityReplayState.t) : Prop :=
  is_u32 (IdentityReplayState.state_version r) /\ bytes_ok (IdentityReplayState.identity_ed25519_public r) /\
  Forall is_u32 (IdentityReplayState.remaining_one_time_pre_key_ids r) /\
  Forall bytes_ok (IdentityReplayState.recent_handshake_init_fingerprints r) /\
  is_u64 (IdentityReplayState.external_counter r).

Context {CRL : ProstLaws IdentityReplayState.t replay_state_wf}.

Lemma rebuild_recent_spec fps : forall acc,
  snd (fold_left (fun acc fp => (bset_insert (fst acc) fp, snd acc ++ [fp])) fps acc) = snd acc ++ fps /\
  forall x, In x (fst (fold_left (fun acc fp => (bset_insert (fst acc) fp, snd acc ++ [fp])) fps acc)) <->
            In x (fst acc) \/ In x fps.
Proof.
  induction fps as [|fp fps IH]; intros acc; cbn [fold_left].
  - rewrite app_nil_r. cbn [In]. tauto.
  - destruct (IH (bset_insert (fst acc) fp, snd acc ++ [fp])) as [E1 E2]. cbn [fst snd] in *.
    rewrite E1, <- app_assoc. split; [reflexivity|]. intros x. rewrite E2, bset_insert_In. cbn [In]. intuition.
Qed.

Lemma rebuild_recent_ok fps hashes order : rebuild_recent fps = (hashes, order) ->
  order = fps /\ forall x, In x hashes <-> In x fps.
Proof.
  unfold rebuild_recent. intros H. destruct (rebuild_recent_spec fps ([], [])) as [E1 E2]. rewrite H in *.
  cbn [fst snd app] in *. split; [assumption|]. intros x. rewrite E2. cbn [In]. tauto.
Qed.

(** The parts of a sealed blob. *)
Lemma sealed_replay_parts ctr nonce ct : is_u64 ctr -> len nonce = AES_GCM_NONCE_BYTES ->
  let sealed := [IDENTITY_REPLAY_STATE_VERSION] ++ to_le_bytes 8 ctr ++ nonce ++ ct in
  from_le_bytes (firstn 8 (skipn 1 sealed)) = ctr /\
  firstn (Z.to_nat AES_GCM_NONCE_BYTES) (skipn 9 sealed) = nonce /\ skipn (Z.to_nat REPLAY_HEADER) sealed = ct /\
  len sealed = REPLAY_HEADER + len ct.
Proof.
  intros Hc Hn sealed. pose proof (len_to_le_bytes 8 ctr) as Hl.
  assert (E9 : skipn 9 sealed = nonce ++ ct).
  { change (skipn 9 sealed) with (skipn 8 (to_le_bytes 8 ctr ++ nonce ++ ct)).
    rewrite skipn_app, skipn_all2 by (unfold len in Hl; lia).
    now replace (8 - List.length (to_le_bytes 8 ctr))%nat with 0%nat by (unfold len in Hl; lia). }
  split; [|split; [|split]].
  - change (skipn 1 sealed) with (to_le_bytes 8 ctr ++ nonce ++ ct).
    rewrite firstn_app, firstn_all2 by (unfold len in Hl; lia).
    replace (8 - List.length (to_le_bytes 8 ctr))%nat with 0%nat by (unfold len in Hl; lia).
    cbn [firstn]. rewrite app_nil_r. now apply from_to_le_bytes.
  - rewrite E9, firstn_app, firstn_all2 by (unfold len, AES_GCM_NONCE_BYTES in *; lia).
    replace (Z.to_nat AES_GCM_NONCE_BYTES - List.length nonce)%nat with 0%nat by (unfold len, AES_GCM_NONCE_BYTES in *; lia).
    cbn [firstn]. apply app_nil_r.
  - change (Z.to_nat REPLAY_HEADER) with (12 + 9)%nat. rewrite <- skipn_skipn, E9, skipn_app.
    rewrite skipn_all2 by (unfold len, AES_GCM_NONCE_BYTES in *; lia).
    now replace (12 - List.length nonce)%nat with 0%nat by (unfold len, AES_GCM_NONCE_BYTES in *; lia).
  - unfold sealed. rewrite !len_app, Hl, Hn. unfold REPLAY_HEADER, AES_GCM_NONCE_BYTES. change (len [_]) with 1. lia.
Qed.

(** The state after a restore. *)
Definition restored (k k0 : IdentityKeysInner) : IdentityKeysInner :=
  let '(hashes, order) := rebuild_recent (IdentityKeysInner.recent_handshake_init_order k) in
  IdentityKeysInner.set_recent_handshake_init_order order
    (IdentityKeysInner.set_recent_handshake_init_hashes hashes
       (IdentityKeysInner.set_one_time_pre_keys
          (filter (fun opk => existsb (Z.eqb (OneTimePreKey.id opk)) (pool_ids k)) (IdentityKeysInner.one_time_pre_keys k0)) k0)).

Section Restart.
Variables (k k0 : IdentityKeysInner) (key nonce sealed : bytes) (ctr min : Z).
Hypothesis (Hk : recent_ok k).
Hypothesis (Hfp : Forall (fun fp => len fp = HMAC_BYTES) (IdentityKeysInner.recent_handshake_init_order k)).
Hypothesis (Hwf : replay_state_wf (replay_state_of k ctr)).
Hypothesis (Hid : IdentityKeysInner.identity_ed25519_public k0 = IdentityKeysInner.identity_ed25519_public k).
Hypothesis (Hexp : export_sealed_replay_state k key ctr nonce = Ok sealed).

Lemma check_exported : check_replay_state (replay_state_of k ctr) = Ok tt.
Proof.
  unfold check_replay_state, replay_state_of.
  cbn [IdentityReplayState.state_version IdentityReplayState.recent_handshake_init_fingerprints].
  destruct Hk as [_ Hl]. rewrite (proj2 (Z.leb_le _ _) Hl). run_res.
  replace (forallb _ _) with true; [reflexivity|]. symmetry. apply forallb_forall. intros fp Hi.
  rewrite Forall_forall in Hfp. now apply Z.eqb_eq, Hfp.
Qed.

Lemma restore_runs :
  restore_sealed_replay_state sealed key min k0 =
  if ctr <? min then (Err (ProtocolError.invalid_state "Sealed identity replay state is older than the expected counter"), k0)
  else (Ok ctr, restored k k0).
Proof.
  unfold export_sealed_replay_state in Hexp. inv_ok. bools.
  match goal with H : aes_encrypt _ _ _ _ = _ |- _ => rename H into Hx end.
  pose proof (aes_roundtrip _ _ _ _ _ Hx) as Hdec.
  apply aes_encrypt_inv in Hx. destruct Hx as (Hkey & Hnonce & Hx). apply siv_encrypt_len in Hx.
  destruct Hwf as (_ & _ & _ & _ & Hctr).
  destruct (sealed_replay_parts ctr nonce x0 Hctr Hnonce) as (E1 & E2 & E3 & E4).
  set (sealed' := [IDENTITY_REPLAY_STATE_VERSION] ++ _) in *.
  unfold restore_sealed_replay_state, sbind, sguard, slift, sget, smod, sret. rewrite Hkey, E1, E2, E3, E4. run_res.
  assert (Hpos : 0 < len x0) by (pose proof (len_nonneg (encode (replay_state_of k ctr))); unfold AES_GCM_TAG_BYTES in Hx; lia).
  rewrite (proj2 (Z.leb_gt _ _)) by lia. change (nth 0 sealed' 0 =? IDENTITY_REPLAY_STATE_VERSION) with true. run_res.
  destruct (ctr <? min); [reflexivity|]. run_res. rewrite Hdec, (decode_encode _ Hwf). run_res. rewrite check_exported.
  cbn [replay_state_of IdentityReplayState.identity_ed25519_public IdentityReplayState.remaining_one_time_pre_key_ids
       IdentityReplayState.recent_handshake_init_fingerprints].
  rewrite Hid, bytes_eqb_refl. run_res. unfold restored. destruct (rebuild_recent _) as [hashes order]. reflexivity.
Qed.

Lemma restored_ok : recent_ok (restored k k0) /\
  IdentityKeysInner.recent_handshake_init_order (restored k k0) = IdentityKeysInner.recent_handshake_init_order k /\
  pool_ids (restored k k0) = filter (fun id => existsb (Z.eqb id) (pool_ids k)) (pool_ids k0).
Proof.
  unfold restored, recent_ok. destruct (rebuild_recent _) as [hashes order] eqn:E. apply rebuild_recent_ok in E.
  destruct E as [-> Hh]. destruct Hk as [[Hd _] Hl].
  cbn [IdentityKeysInner.recent_handshake_init_hashes IdentityKeysInner.recent_handshake_init_order
       IdentityKeysInner.set_recent_handshake_init_order IdentityKeysInner.set_recent_handshake_init_hashes].
  split; [split; [split; [exact Hd|exact Hh]|exact Hl]|]. split; [reflexivity|].
  exact (map_filter_comm _ (fun id => existsb (Z.eqb id) (pool_ids k)) _).
Qed.

End Restart.

(** Replay protection survives a restart.  An identity re-created with the same
    Ed25519 key (from its master key) that restores the sealed replay state gets
    back every remembered fingerprint and loses every one-time pre-key consumed
    before: messages answered before the restart are refused after it.  A blob
    older than the expected counter is refused and changes nothing. *)
Theorem sealed_replay_state_survives_restart k k0 key nonce sealed ctr min :
  recent_ok k -> Forall (fun fp => len fp = HMAC_BYTES) (IdentityKeysInner.recent_handshake_init_order k) ->
  replay_state_wf (replay_state_of k ctr) ->
  IdentityKeysInner.identity_ed25519_public k0 = IdentityKeysInner.identity_ed25519_public k ->
  export_sealed_replay_state k key ctr nonce = Ok sealed ->
  (ctr < min -> exists e, restore_sealed_replay_state sealed key min k0 = (Err e, k0)) /\
  (min <= ctr -> exists k1, restore_sealed_replay_state sealed key min k0 = (Ok ctr, k1) /\
     recent_ok k1 /\ pool_ids k1 = filter (fun id => existsb (Z.eqb id) (pool_ids k)) (pool_ids k0) /\
     forall bundle msg mm now prefix (init : HandshakeInit.t), decode msg = Some init ->
       bset_contains (IdentityKeysInner.recent_handshake_init_hashes k) (build_handshake_init_fingerprint init) = true ->
       exists e, process bundle msg mm None now prefix (k1, tt) = (Err e, (k1, tt))).
Proof.
  intros Hk Hfp Hwf Hid Hexp.
  pose proof (restore_runs k k0 key nonce sealed ctr min Hk Hfp Hwf Hid Hexp) as Hrun.
  split; intros Hm; [rewrite (proj2 (Z.ltb_lt _ _) Hm) in Hrun; eauto|].
  rewrite (proj2 (Z.ltb_ge _ _) Hm) in Hrun. exists (restored k k0). split; [exact Hrun|].
  destruct (restored_ok k k0 Hk) as (H1 & H2 & H3). split; [exact H1|]. split; [exact H3|].
  intros bundle msg mm now prefix init Hd Hc.
  destruct (process bundle msg mm None now prefix (restored k k0, tt)) as [r [k3 []]] eqn:E. apply process_spec in E.
  destruct E as (_ & [(e & -> & ->)|(init2 & ack2 & stt2 & used2 & Hd2 & Hn & _)]); [eauto|].
  rewrite Hd in Hd2. inv_ok. apply bset_contains_not in Hn. exfalso. apply Hn.
  destruct H1 as [[_ H1] _]. apply H1. rewrite H2. destruct Hk as [[_ Hk] _]. now apply Hk, bset_contains_In.
Qed.

End Histories.
