(* ===== verification/HandshakeRun.v ===== *)
(** * From two identities to a conversation

    The host API end to end: one identity publishes its bundle, another begins a
    session with it, the first accepts, both complete; the two sessions are in
    step and deliver a conversation. *)

From Stdlib Require Import ZArith List Bool Lia String.
From S2P Require Import Prelude Constants BTree SeenSet SecureMemory Crypto Signatures DhValidator Padding Nonce Proto.
From S2P Require Import SessionState Session SessionPersist SessionChain SessionRecv SessionSend SessionInv SessionSync SessionStart.
From S2P Require Import IdentityModels Identity IdentityFacts Handshake Protocol HandshakeProofs HandshakeReplay.
Import ListNotations.
Open Scope string_scope.
Open Scope list_scope.
Open Scope Z_scope.

(** A message that the wire carries: it fits, and decodes to itself. *)
Definition carried {M} `{Prost M} (m : M) : Prop :=
  len (encode m) <= MAX_HANDSHAKE_MESSAGE_SIZE /\ decode (encode m) = Some m.

(** The fingerprint is not known and there is room for a reservation. *)
Definition fresh_for (k : IdentityKeysInner) (fp : bytes) : Prop :=
  bset_contains (IdentityKeysInner.recent_handshake_init_hashes k) fp = false /\
  bset_contains (IdentityKeysInner.inflight_handshake_init_hashes k) fp = false /\
  len (IdentityKeysInner.inflight_handshake_init_hashes k) < MAX_INFLIGHT_HANDSHAKE_INITS.

Section Run.
Context {P : Primitives} {L : PrimitiveLaws P} {SG : Signatures} {SL : SignatureLaws SG}.
Context {CB : Prost PreKeyBundle.t} {CI : Prost HandshakeInit.t} {CA : Prost HandshakeAck.t}.
Context {C : Prost EnvelopeMetadata} {CL : ProstLaws EnvelopeMetadata metadata_wf}.

Lemma reserve_fresh {G} fp k (g : G) : len fp = HMAC_BYTES -> fresh_for k fp ->
  reservation_reserve None fp (k, g) = (Ok (reserved fp), (reserve_in fp k, g)).
Proof.
  intros Hl (H1 & H2 & H3). unfold reservation_reserve, sbind, sret, on_fst, reserve_handshake_init_fingerprint, sbind,
    sguard, slift, sget, smod, sret. cbn [fst snd]. rewrite Hl, Z.eqb_refl, H1, H2. cbn [ensure orb].
  rewrite (proj2 (Z.leb_gt _ _) H3). reflexivity.
Qed.

(** A message the answer exists for is accepted. *)
Lemma process_runs {G} bundle (init : HandshakeInit.t) mm now prefix k (g : G) ack stt used :
  validate_bundle bundle = Ok tt -> validate_max_messages_per_chain mm = Ok tt -> carried init ->
  fresh_for k (build_handshake_init_fingerprint init) ->
  answer bundle init mm now prefix k = Ok (ack, stt, used) ->
  process bundle (encode init) mm None now prefix (k, g) =
  (Ok (mkHandshakeResponder ack (encode ack) (Some stt)),
   (remembered (build_handshake_init_fingerprint init) (consumed used k), g)).
Proof.
  intros Hb Hm [Hlen Hdec] Hf Ha. unfold process, sbind, sguard, slift, sget, sret, on_err.
  rewrite Hb, Hm, (proj2 (Z.leb_le _ _) Hlen), Hdec. cbn [ensure ok_or].
  assert (Hl : len (build_handshake_init_fingerprint init) = HMAC_BYTES) by apply sha256_len.
  set (fp := build_handshake_init_fingerprint init) in *.
  rewrite (reserve_fresh _ _ _ Hl Hf). cbn [fst].
  change (answer bundle init mm now prefix (reserve_in fp k)) with (answer bundle init mm now prefix k). rewrite Ha.
  destruct (answer_used _ _ _ _ _ _ _ _ _ Ha) as [_ Hu]. unfold on_fst. cbn [fst snd].
  rewrite (consume_reserved _ _ _ Hu). destruct (consumed_frame used k) as (_ & F1 & F2 & _).
  destruct Hf as (H1 & H2 & _). rewrite commit_reserved by (rewrite ?F1, ?F2; assumption). reflexivity.
Qed.

Lemma initiator_finish_runs hi pa ss mac : carried (HandshakeAck.mk PROTOCOL_VERSION mac) -> len mac = HMAC_BYTES ->
  hi_state hi = Some (mkInitiatorState (Some (mkHandshakeState pa ss)) mac) ->
  initiator_finish hi (encode (HandshakeAck.mk PROTOCOL_VERSION mac)) = from_handshake_state (mkHandshakeState pa ss).
Proof.
  intros [Hl Hd] Hm Hs. unfold initiator_finish, crypto_err. rewrite Hs. run_res.
  rewrite (proj2 (Z.leb_le _ _) Hl), Hd. run_res. cbn [HandshakeAck.version HandshakeAck.key_confirmation_mac].
  run_res. rewrite Hm. run_res. cbn [is_expected_ack_mac is_session_state].
  rewrite constant_time_equals_spec, bytes_eqb_refl. reflexivity.
Qed.

(** The identity key of a started handshake was validated on the way. *)
Lemma started_identity_valid k c bundle mm e hi eph ct ss used pub created : holds k c ->
  started k c bundle mm e hi eph ct ss used pub created ->
  DhValidator.validate_x25519_public_key (x25519_public (sc_x25519 c)) = Ok tt.
Proof.
  intros Hk Hs. destruct (sd_state _ _ _ _ _ _ _ _ _ _ _ _ Hs) as (pst & Hp & _). cbv zeta in Hp.
  unfold build_protocol_state in Hp. inv_ok. rewrite (h_x_public _ _ Hk) in *.
  repeat match goal with u : unit |- _ => destruct u end. assumption.
Qed.

Lemma max_range mm : validate_max_messages_per_chain mm = Ok tt -> mm <> 0 /\ mm <= MAX_MESSAGES_PER_CHAIN.
Proof. unfold validate_max_messages_per_chain. intros H. inv_ok. now bools. Qed.

(** What the responder checks of the message, as conditions on its fields. *)
Definition sound_init (init : HandshakeInit.t) : Prop :=
  DhValidator.validate_x25519_public_key (HandshakeInit.initiator_ephemeral_x25519_public init) = Ok tt /\
  kyber_validate_ciphertext (HandshakeInit.kyber_ciphertext init) = Ok tt /\
  kyber_validate_public_key (HandshakeInit.initiator_kyber_public init) = Ok tt.

Lemma sound_acceptable k c bundle mm e hi eph ct ss used pub created : holds k c ->
  started k c bundle mm e hi eph ct ss used pub created -> sound_init (hi_init_message hi) -> acceptable c eph ct.
Proof.
  intros Hk Hs (V1 & V2 & V3). pose proof (started_identity_valid _ _ _ _ _ _ _ _ _ _ _ _ Hk Hs) as Vx.
  destruct (sd_state _ _ _ _ _ _ _ _ _ _ _ _ Hs) as (pst & _ & Hhi). cbv zeta in Hhi. subst hi.
  unfold init_of in V1, V2, V3. cbn [hi_init_message HandshakeInit.initiator_ephemeral_x25519_public
    HandshakeInit.kyber_ciphertext HandshakeInit.initiator_kyber_public] in V1, V2, V3.
  rewrite (h_kyber_public _ _ Hk) in V3. unfold kyber_validate_ciphertext, kyber_validate_public_key in V2, V3. inv_ok. bools.
  now constructor.
Qed.

(** Two identities, one bundle, one message and its answer: both ends finish. *)
Lemma handshake_finishes ka kb ca cb mm now_a e hi ka' t prefix :
  holds ka ca -> holds kb cb -> len (he_ephemeral e) = X25519_PRIVATE_KEY_BYTES ->
  bytes_ok (he_nonce_prefix e) -> bytes_ok prefix -> len prefix = NONCE_PREFIX_BYTES -> t < 2 ^ 63 -> 0 <= mm ->
  start (proto_bundle kb) mm now_a e ka = (Ok hi, ka') ->
  sound_init (hi_init_message hi) -> carried (hi_init_message hi) ->
  (forall mac, len mac = HMAC_BYTES -> carried (HandshakeAck.mk PROTOCOL_VERSION mac)) ->
  fresh_for kb (build_handshake_init_fingerprint (hi_init_message hi)) ->
  exists hr kb' a b,
    hi_init_bytes hi = encode (hi_init_message hi) /\
    process (G := unit) (proto_bundle kb) (hi_init_bytes hi) mm None (Ok t) prefix (kb, tt) = (Ok hr, (kb', tt)) /\
    initiator_finish hi (hr_ack_bytes hr) = Ok a /\ responder_finish hr = Ok b /\ paired a b.
Proof.
  intros Ha Hb He Hea Heb Hp Ht Hmm Hst Hsound Hc Hack Hf.
  destruct (start_Ok _ _ _ _ _ _ _ _ Ha He Hst) as (eph & ct & ss & used & pub & created & _ & Hs).
  pose proof (sound_acceptable _ _ _ _ _ _ _ _ _ _ _ _ Ha Hs Hsound) as Hacc.
  destruct (answer_ok ka kb ca cb mm e eph ct ss pub prefix used created t Ha Hb Hacc Hp Ht hi Hs)
    as (root & sid & meta & sa & sb & mac & Pa & Pb & Hst' & Hml & Hbytes & Hans).
  destruct (bundle_fields _ _ Hb) as (_ & _ & B3 & _).
  assert (Vspk : validate_dh_public_key (x25519_public (sc_spk cb)) = Ok tt).
  { pose proof (sd_bundle _ _ _ _ _ _ _ _ _ _ _ _ Hs) as Hv. unfold validate_bundle in Hv. inv_ok. rewrite B3 in *.
    repeat match goal with u : unit |- _ => destruct u end. assumption. }
  pose proof (sd_dh3 _ _ _ _ _ _ _ _ _ _ _ _ Hs) as Hz. rewrite B3 in Hz.
  destruct (party_session_total _ _ _ _ ss _ _ _ _ _ Pa (sd_ss _ _ _ _ _ _ _ _ _ _ _ _ Hs) Vspk Hz) as [a Fa].
  destruct (party_session_total _ _ _ _ ss _ _ _ _ _ Pb (sd_ss _ _ _ _ _ _ _ _ _ _ _ _ Hs) (ac_eph _ _ _ Hacc)) as [b Fb].
  { cbn [pt_secret party_of]. rewrite <- x25519_agree. exact Hz. }
  exists (mkHandshakeResponder (HandshakeAck.mk PROTOCOL_VERSION mac) (encode (HandshakeAck.mk PROTOCOL_VERSION mac))
    (Some (mkHandshakeState sb ss))). eexists. exists a, b.
  split; [exact Hbytes|]. rewrite Hbytes. split.
  { apply process_runs; [apply (sd_bundle _ _ _ _ _ _ _ _ _ _ _ _ Hs)|apply (sd_max _ _ _ _ _ _ _ _ _ _ _ _ Hs)
      |exact Hc|exact Hf|exact Hans]. }
  cbn [hr_ack_bytes]. rewrite (initiator_finish_runs _ _ _ _ (Hack _ Hml) Hml Hst'). split; [exact Fa|].
  split; [exact Fb|]. apply (start_paired root sid meta ss mm MAX_NONCE_COUNTER
    (party_of ka ca eph (he_nonce_prefix e) created) (party_of kb cb (sc_spk cb) prefix t)).
  - unfold party_session. now rewrite Pa.
  - unfold party_session. now rewrite Pb.
  - repeat split; cbn; try assumption; try easy. apply (sd_prefix _ _ _ _ _ _ _ _ _ _ _ _ Hs).
  - repeat split; cbn; try assumption; easy.
  - assumption.
  - easy.
Qed.

(** C3. A session begins and delivers.  When an identity begins a session with the
    bundle another identity publishes, that identity accepts the message, both
    ends complete, and the two sessions they get deliver any conversation in
    which every message arrives before the next is sent.  The conditions say that
    the messages fit on the wire, that the fresh keys are not degenerate, and
    that the message was not seen before. *)
Theorem session_begins_and_delivers (pa pb pa' : AuraProtocol) ca cb now_a e hi msg t prefix :
  holds (ap_identity pa) ca -> holds (ap_identity pb) cb -> ap_max_messages pa = ap_max_messages pb ->
  0 <= ap_max_messages pb -> len (he_ephemeral e) = X25519_PRIVATE_KEY_BYTES ->
  bytes_ok (he_nonce_prefix e) -> bytes_ok prefix -> len prefix = NONCE_PREFIX_BYTES -> t < 2 ^ 63 ->
  carried (proto_bundle (ap_identity pb)) ->
  begin_session (pre_key_bundle pb) now_a e pa = (Ok (hi, msg), pa') ->
  sound_init (hi_init_message hi) -> carried (hi_init_message hi) ->
  (forall mac, len mac = HMAC_BYTES -> carried (HandshakeAck.mk PROTOCOL_VERSION mac)) ->
  fresh_for (ap_identity pb) (build_handshake_init_fingerprint (hi_init_message hi)) ->
  exists hr ack pb' a b,
    accept_session msg (Ok t) prefix (pb, tt) = (Ok (hr, ack), (pb', tt)) /\
    initiator_complete hi ack = Ok a /\ responder_complete hr = Ok b /\
    forall ts, turns_ok ts a b -> exists a' b', converse ts a b = Some (map t_payload ts, a', b').
Proof.
  intros Ha Hb Hmm Hpos He Hea Heb Hp Ht [Bl Bd] Hbegin Hsound Hc Hack Hf.
  unfold begin_session, pre_key_bundle in Hbegin. inv_stm. rewrite Bd in *. inv_ok.
  unfold on_identity in *. destruct (start _ _ _ _ _) as [r ka'] eqn:Hst. inv_ok. rewrite Hmm in Hst.
  destruct (handshake_finishes _ _ _ _ _ _ _ _ _ _ _ Ha Hb He Hea Heb Hp Ht Hpos Hst Hsound Hc Hack Hf)
    as (hr & kb' & sa & sb & Hbytes & Hproc & Fa & Fb & Hpair).
  exists hr, (hr_ack_bytes hr), (set_identity kb' pb), sa, sb. split; [|split; [exact Fa|split; [exact Fb|]]].
  - unfold accept_session, accept_session_with_replay_guard, accept_session_for_bundle_with_replay_guard,
      sbind, sget, sguard, slift, sret, on_responder, pre_key_bundle.
    cbn [fst snd]. rewrite (proj2 (Z.leb_le _ _) Bl), Bd. cbn [ensure ok_or]. rewrite Hproc. reflexivity.
  - intros ts Hts. destruct (converse_delivers ts sa sb Hpair Hts) as (a' & b' & Hcv & _). eauto.
Qed.

End Run.
