(* ===== verification/HandshakeExamples.v ===== *)
(** * Concrete handshakes

    Executable stand-ins for the codec of the handshake messages and a handshake
    between two small identities, on which the theorems about identities and
    handshakes are applied. *)

From Stdlib Require Import ZArith List Bool Lia String.
From S2P Require Import Prelude Constants BTree SeenSet SecureMemory Crypto Toy Signatures DhValidator Padding Nonce Proto ToyCodec.
From S2P Require Import SessionState Session ToySession SessionPersist SessionChain SessionRecv SessionSend SessionInv SessionSync SessionStart SessionExamples.
From S2P Require Import IdentityModels Identity IdentityFacts Handshake Protocol HandshakeProofs HandshakeReplay HandshakeRun.
Import ListNotations.
Open Scope list_scope.
Open Scope Z_scope.

#[export] Instance codec_opk_message : Codec OneTimePreKeyMessage.t.
Proof.
  refine (codec_iso (A := Z * (bytes))
    (fun m => (OneTimePreKeyMessage.one_time_pre_key_id m, OneTimePreKeyMessage.public_key m))
    (fun '(x1, x2) =>
    OneTimePreKeyMessage.mk x1 x2) _).
  now intros [].
Defined.

#[export] Instance codec_bundle : Codec PreKeyBundle.t.
Proof.
  refine (codec_iso (A := Z * (bytes * (bytes * (Z * (bytes * (bytes * ((list OneTimePreKeyMessage.t) * (bytes *
    (bytes)))))))))
    (fun m => (PreKeyBundle.version m, (PreKeyBundle.identity_ed25519_public m,
    (PreKeyBundle.identity_x25519_public m, (PreKeyBundle.signed_pre_key_id m,
    (PreKeyBundle.signed_pre_key_public m, (PreKeyBundle.signed_pre_key_signature m,
    (PreKeyBundle.one_time_pre_keys m, (PreKeyBundle.kyber_public m,
    PreKeyBundle.identity_x25519_signature m)))))))))
    (fun '(x1, (x2, (x3, (x4, (x5, (x6, (x7, (x8, x9)))))))) =>
    PreKeyBundle.mk x1 x2 x3 x4 x5 x6 x7 x8 x9) _).
  now intros [].
Defined.

#[export] Instance codec_init : Codec HandshakeInit.t.
Proof.
  refine (codec_iso (A := Z * (bytes * (bytes * (bytes * ((option Z) * (bytes * (bytes * (bytes * (Z * (bytes))))))))))
    (fun m => (HandshakeInit.version m, (HandshakeInit.initiator_identity_ed25519_public m,
    (HandshakeInit.initiator_identity_x25519_public m,
    (HandshakeInit.initiator_ephemeral_x25519_public m, (HandshakeInit.one_time_pre_key_id m,
    (HandshakeInit.kyber_ciphertext m, (HandshakeInit.key_confirmation_mac m,
    (HandshakeInit.initiator_kyber_public m, (HandshakeInit.max_messages_per_chain m,
    HandshakeInit.initiator_identity_binding_signature m))))))))))
    (fun '(x1, (x2, (x3, (x4, (x5, (x6, (x7, (x8, (x9, x10))))))))) =>
    HandshakeInit.mk x1 x2 x3 x4 x5 x6 x7 x8 x9 x10) _).
  now intros [].
Defined.

#[export] Instance codec_ack : Codec HandshakeAck.t.
Proof.
  refine (codec_iso (A := Z * (bytes))
    (fun m => (HandshakeAck.version m, HandshakeAck.key_confirmation_mac m))
    (fun '(x1, x2) =>
    HandshakeAck.mk x1 x2) _).
  now intros [].
Defined.

#[export] Instance codec_replay_state : Codec IdentityReplayState.t.
Proof.
  refine (codec_iso (A := Z * (bytes * ((list Z) * ((list bytes) * (Z)))))
    (fun m => (IdentityReplayState.state_version m, (IdentityReplayState.identity_ed25519_public m,
    (IdentityReplayState.remaining_one_time_pre_key_ids m,
    (IdentityReplayState.recent_handshake_init_fingerprints m, IdentityReplayState.external_counter
    m)))))
    (fun '(x1, (x2, (x3, (x4, x5)))) =>
    IdentityReplayState.mk x1 x2 x3 x4 x5) _).
  now intros [].
Defined.

#[export] Instance toy_bundle_prost : Prost PreKeyBundle.t := prost_of.
#[export] Instance toy_init_prost : Prost HandshakeInit.t := prost_of.
#[export] Instance toy_ack_prost : Prost HandshakeAck.t := prost_of.
#[export] Instance toy_replay_prost : Prost IdentityReplayState.t := prost_of.
#[export] Instance toy_replay_laws : ProstLaws IdentityReplayState.t replay_state_wf := prost_of_laws _.

Lemma toy_decode {M} `{Codec M} (m : M) : @decode M prost_of (@encode M prost_of m) = Some m.
Proof. exact (@decode_encode M prost_of (fun _ => True) (prost_of_laws _) m I). Qed.

(** ** Two identities *)

Definition key_of (seed : Z) : bytes := repeat seed 32.
Definition toy_opks (seed : Z) : OpkEntropy :=
  mkOpkEntropy (fun i _ => [seed + i; 0; 0; 0]) (fun i => key_of (seed + i)).
Definition toy_identity_entropy (seed : Z) : IdentityEntropy :=
  mkIdentityEntropy (key_of seed) (key_of (seed + 1)) [seed; 0; 0; 0] (key_of (seed + 2)) (toy_opks (seed + 10))
    (repeat (seed + 3) 64) (key_of (seed + 4)).

Definition unwrap {A} (r : PResult A) (d : A) : A := match r with Ok a => a | Err _ => d end.
Definition toy_handle : SecureMemoryHandle.t := SecureMemoryHandle.mk [].
Definition no_identity : IdentityKeysInner :=
  IdentityKeysInner.mk toy_handle [] toy_handle [] [] 0 toy_handle [] [] [] 0 toy_handle [] None None None None [] [] [] false [].
Definition alice_protocol : AuraProtocol :=
  Eval vm_compute in unwrap (AuraProtocol_new 1 (toy_identity_entropy 20)) (mkAuraProtocol no_identity 0).
Definition bob_protocol : AuraProtocol :=
  Eval vm_compute in unwrap (AuraProtocol_new 2 (toy_identity_entropy 60)) (mkAuraProtocol no_identity 0).

Lemma alice_created : IdentityKeys_create 1 (toy_identity_entropy 20) = Ok (ap_identity alice_protocol).
Proof. vm_compute. reflexivity. Qed.
Lemma bob_created : IdentityKeys_create 2 (toy_identity_entropy 60) = Ok (ap_identity bob_protocol).
Proof. vm_compute. reflexivity. Qed.

Lemma toy_entropy_ok seed : entropy_ok (toy_identity_entropy seed).
Proof. split; [reflexivity|]. split; [reflexivity|]. intros i. reflexivity. Qed.

Definition alice_secrets : IdSecrets := mkIdSecrets (key_of 20) (key_of 21) (key_of 22) (repeat 23 64).
Definition bob_secrets : IdSecrets := mkIdSecrets (key_of 60) (key_of 61) (key_of 62) (repeat 63 64).

Lemma alice_holds : holds (ap_identity alice_protocol) alice_secrets.
Proof. exact (create_holds 1 (toy_identity_entropy 20) _ (toy_entropy_ok 20) alice_created). Qed.
Lemma bob_holds : holds (ap_identity bob_protocol) bob_secrets.
Proof. exact (create_holds 2 (toy_identity_entropy 60) _ (toy_entropy_ok 60) bob_created). Qed.

(** ** One handshake *)

Definition toy_start_entropy : InitiatorEntropy := mkInitiatorEntropy (key_of 90) 1 (key_of 91) [1; 2; 3; 4; 5; 6; 7; 8].
Definition begun : HandshakeInitiator * bytes :=
  Eval vm_compute in
    unwrap (fst (begin_session (pre_key_bundle bob_protocol) (Ok 1000) toy_start_entropy alice_protocol))
      (mkHandshakeInitiator (HandshakeInit.mk 0 [] [] [] None [] [] [] 0 []) [] None, []).
Definition alice_after : AuraProtocol :=
  Eval vm_compute in snd (begin_session (pre_key_bundle bob_protocol) (Ok 1000) toy_start_entropy alice_protocol).

Lemma begun_ok :
  begin_session (pre_key_bundle bob_protocol) (Ok 1000) toy_start_entropy alice_protocol =
  (Ok (fst begun, snd begun), alice_after).
Proof. vm_compute. reflexivity. Qed.

Lemma toy_ack_carried mac : len mac = HMAC_BYTES -> carried (HandshakeAck.mk PROTOCOL_VERSION mac).
Proof.
  intros H. split; [|exact (toy_decode _)].
  change (len (enc_Z PROTOCOL_VERSION ++ (enc_Z (len mac) ++ mac)) <= MAX_HANDSHAKE_MESSAGE_SIZE).
  rewrite !len_app, H. easy.
Qed.

Lemma toy_bundle_carried : carried (proto_bundle (ap_identity bob_protocol)).
Proof. split; [vm_compute; discriminate|exact (toy_decode _)]. Qed.
Lemma toy_init_carried : carried (hi_init_message (fst begun)).
Proof. split; [vm_compute; discriminate|exact (toy_decode _)]. Qed.
Lemma toy_init_sound : sound_init (hi_init_message (fst begun)).
Proof. split; [|split]; vm_compute; reflexivity. Qed.
Lemma toy_init_fresh : fresh_for (ap_identity bob_protocol) (build_handshake_init_fingerprint (hi_init_message (fst begun))).
Proof. split; [|split]; vm_compute; reflexivity. Qed.

Definition bob_prefix : bytes := [9; 9; 9; 9; 9; 9; 9; 9].

(** Alice begins a session with Bob's bundle; Bob accepts; both complete and talk. *)
Lemma session_begins_and_delivers_witness :
  exists hr ack pb' a b,
    accept_session (snd begun) (Ok 1001) bob_prefix (bob_protocol, tt) = (Ok (hr, ack), (pb', tt)) /\
    initiator_complete (fst begun) ack = Ok a /\ responder_complete hr = Ok b /\
    forall ts, turns_ok ts a b -> exists a' b', converse ts a b = Some (map t_payload ts, a', b').
Proof.
  exact (session_begins_and_delivers alice_protocol bob_protocol alice_after alice_secrets bob_secrets (Ok 1000)
    toy_start_entropy (fst begun) (snd begun) 1001 bob_prefix alice_holds bob_holds eq_refl ltac:(easy) eq_refl
    (bytes_okb_true [1; 2; 3; 4; 5; 6; 7; 8] eq_refl) (bytes_okb_true bob_prefix eq_refl) eq_refl ltac:(easy)
    toy_bundle_carried begun_ok toy_init_sound toy_init_carried toy_ack_carried toy_init_fresh).
Defined.

(** ** Replay *)

Definition bob_max : Z := ap_max_messages bob_protocol.
Definition bob_bundle : PreKeyBundle.t := proto_bundle (ap_identity bob_protocol).
Definition no_responder : HandshakeResponder := mkHandshakeResponder (HandshakeAck.mk 0 []) [] None.
Definition bob_answer : HandshakeResponder :=
  Eval vm_compute in
    unwrap (fst (process (G := unit) bob_bundle (snd begun) bob_max None (Ok 1001) bob_prefix
                   (ap_identity bob_protocol, tt))) no_responder.
Definition bob_after : IdentityKeysInner :=
  Eval vm_compute in
    fst (snd (process (G := unit) bob_bundle (snd begun) bob_max None (Ok 1001) bob_prefix (ap_identity bob_protocol, tt))).

Lemma bob_answered :
  process bob_bundle (snd begun) bob_max None (Ok 1001) bob_prefix (ap_identity bob_protocol, tt) =
  (Ok bob_answer, (bob_after, tt)).
Proof. vm_compute. reflexivity. Qed.

Lemma bob_fresh_recent : recent_ok (ap_identity bob_protocol).
Proof. split; [split; [constructor|easy]|easy]. Qed.

(** Alice sends Bob another message, which Bob accepts; a third is not a message at all. *)
Definition second_entropy : InitiatorEntropy := mkInitiatorEntropy (key_of 94) 0 (key_of 95) [8; 7; 6; 5; 4; 3; 2; 1].
Definition second_msg : bytes :=
  Eval vm_compute in
    match start bob_bundle bob_max (Ok 1002) second_entropy (ap_identity alice_protocol) with
    | (Ok hi, _) => hi_init_bytes hi
    | _ => []
    end.
Definition bob_ops : list IdOp := [Answer bob_bundle second_msg bob_max (Ok 1003) bob_prefix; Answer bob_bundle [1; 2] bob_max (Ok 0) []].
Definition bob_run : list HandshakeInit.t * IdentityKeysInner := Eval vm_compute in idrun bob_ops bob_after.

Lemma bob_ran : idrun bob_ops bob_after = (fst bob_run, snd bob_run).
Proof. vm_compute. reflexivity. Qed.

Lemma begun_decodes : decode (snd begun) = Some (hi_init_message (fst begun)).
Proof. vm_compute. reflexivity. Qed.

(** The replayed message is refused, also after another one was accepted. *)
Lemma handshake_init_accepted_once_witness :
  len (fst bob_run) = 1 /\
  exists e, process bob_bundle (snd begun) bob_max None (Ok 2000) bob_prefix (snd bob_run, tt) = (Err e, (snd bob_run, tt)).
Proof.
  split; [reflexivity|].
  exact (handshake_init_accepted_once bob_bundle (snd begun) bob_max (Ok 1001) bob_prefix (ap_identity bob_protocol)
    bob_answer bob_after (hi_init_message (fst begun)) bob_ops (fst bob_run) (snd bob_run) bob_bundle (snd begun) bob_max
    (Ok 2000) bob_prefix bob_fresh_recent bob_answered begun_decodes bob_ran eq_refl begun_decodes).
Defined.

(** Two messages, two pre-keys. *)
Definition all_ops : list IdOp := Answer bob_bundle (snd begun) bob_max (Ok 1001) bob_prefix :: bob_ops.
Definition all_run : list HandshakeInit.t * IdentityKeysInner := Eval vm_compute in idrun all_ops (ap_identity bob_protocol).
Lemma all_ran : idrun all_ops (ap_identity bob_protocol) = (fst all_run, snd all_run).
Proof. vm_compute. reflexivity. Qed.


(** A message with a broken confirmation is refused without a trace. *)
Definition forged : bytes := encode (HandshakeInit.set_key_confirmation_mac (key_of 0) (hi_init_message (fst begun))).
Definition forged_error : ProtocolError.t :=
  Eval vm_compute in
    match fst (process (G := unit) bob_bundle forged bob_max None (Ok 1001) bob_prefix (ap_identity bob_protocol, tt)) with
    | Err e => e
    | Ok _ => duplicate_init
    end.
Abbreviation forged_outcome := (process bob_bundle forged bob_max None (Ok 1001) bob_prefix (ap_identity bob_protocol, tt)).
Lemma forged_refused : forged_outcome = (Err forged_error, snd forged_outcome).
Proof. vm_compute. reflexivity. Qed.


(** ** Restart *)

Definition seal_key : bytes := key_of 7.
Definition seal_nonce : bytes := repeat 8 12.
Definition sealed_blob : bytes := Eval vm_compute in unwrap (export_sealed_replay_state bob_after seal_key 5 seal_nonce) [].
Lemma sealed_blob_ok : export_sealed_replay_state bob_after seal_key 5 seal_nonce = Ok sealed_blob.
Proof. vm_compute. reflexivity. Qed.

Lemma bob_after_recent_ok : recent_ok bob_after.
Proof.
  apply (idop_recent_ok _ (Answer bob_bundle (snd begun) bob_max (Ok 1001) bob_prefix) [hi_init_message (fst begun)] _
    bob_fresh_recent).
  cbn [idop]. rewrite bob_answered, begun_decodes. reflexivity.
Qed.

Definition u32b (x : Z) : bool := (0 <=? x) && (x <? 2 ^ 32).
Lemma Forall_okb {A} (f : A -> bool) (Q : A -> Prop) l : (forall a, f a = true -> Q a) -> forallb f l = true -> Forall Q l.
Proof. intros H Hf. apply Forall_forall. intros a Ha. apply H. rewrite forallb_forall in Hf. auto. Qed.

Lemma toy_replay_wf : replay_state_wf (replay_state_of bob_after 5).
Proof.
  split; [easy|]. split; [apply bytes_okb_true; vm_compute; reflexivity|].
  split; [|split; [|easy]].
  - apply (Forall_okb u32b); [|vm_compute; reflexivity]. intros x Hx. unfold u32b in Hx. bools. unfold in_range. lia.
  - apply (Forall_okb bytes_okb); [exact bytes_okb_true|vm_compute; reflexivity].
Qed.

(** Bob re-created from the same secrets, with the state sealed after Alice's session. *)
Lemma sealed_replay_state_survives_restart_witness :
  pool_ids bob_after <> pool_ids (ap_identity bob_protocol) /\
  (5 < 6 -> exists e, restore_sealed_replay_state sealed_blob seal_key 6 (ap_identity bob_protocol) =
                        (Err e, ap_identity bob_protocol)) /\
  (exists k1, restore_sealed_replay_state sealed_blob seal_key 5 (ap_identity bob_protocol) = (Ok 5, k1) /\
     recent_ok k1 /\ pool_ids k1 = filter (fun id => existsb (Z.eqb id) (pool_ids bob_after)) (pool_ids (ap_identity bob_protocol)) /\
     forall bundle msg mm now prefix (init : HandshakeInit.t), decode msg = Some init ->
       bset_contains (IdentityKeysInner.recent_handshake_init_hashes bob_after) (build_handshake_init_fingerprint init) = true ->
       exists e, process bundle msg mm None now prefix (k1, tt) = (Err e, (k1, tt))).
Proof.
  assert (Hfp : Forall (fun fp => len fp = HMAC_BYTES) (IdentityKeysInner.recent_handshake_init_order bob_after))
    by (apply (Forall_okb (fun fp => len fp =? HMAC_BYTES)); [intros fp; apply Z.eqb_eq|vm_compute; reflexivity]).
  split; [vm_compute; discriminate|]. split.
  - exact (proj1 (sealed_replay_state_survives_restart bob_after (ap_identity bob_protocol) seal_key seal_nonce sealed_blob 5 6
      bob_after_recent_ok Hfp toy_replay_wf eq_refl sealed_blob_ok)).
  - exact (proj2 (sealed_replay_state_survives_restart bob_after (ap_identity bob_protocol) seal_key seal_nonce sealed_blob 5 5
      bob_after_recent_ok Hfp toy_replay_wf eq_refl sealed_blob_ok) (Z.le_refl 5)).
Defined.

(** ** A published bundle after a first session

    [accept_session] answers for the bundle the identity would publish now.  A
    second initiator who fetched the same bundle before the first session used a
    pre-key is refused; answering for the bundle that was published works. *)

Definition bob_protocol_after : AuraProtocol := set_identity bob_after bob_protocol.

Definition refused_with (r : PResult (HandshakeResponder * bytes) * (AuraProtocol * unit)) : option ProtocolError.t :=
  match fst r with Err e => Some e | Ok _ => None end.

(** Two initiators fetch the same published bundle.  After the first session
    consumed its pre-key, [accept_session] refuses the second initiator with a
    failed key confirmation, although its message is sound: answered for the
    bundle that was published it is accepted. *)
Theorem second_initiator_of_a_bundle_refused :
  refused_with (accept_session second_msg (Ok 1003) bob_prefix (bob_protocol_after, tt)) =
    Some (ProtocolError.handshake "Initiator key confirmation failed") /\
  refused_with (accept_session_for_bundle second_msg (pre_key_bundle bob_protocol) (Ok 1003) bob_prefix
    (bob_protocol_after, tt)) = None.
Proof. split; vm_compute; reflexivity. Qed.
