(* ===== verification/KeyPackage.v ===== *)
(** * Key packages ([src/protocol/group/key_package.rs])

    A member's public keys and credential under its signature, the checks of a
    received package, and the sealed form in which the private halves wait for
    a welcome.  The fallible reads and writes of secure memory are those of
    [SecureMemory]; [read_zeroizing] is [read_bytes]. *)

From Stdlib Require Import ZArith List Bool Lia String.
From S2P Require Import Prelude Constants SecureMemory Crypto Signatures DhValidator.
From S2P Require Import Proto IdentityModels Identity GroupProto.
Import ListNotations.
Open Scope string_scope.
Open Scope list_scope.
Open Scope Z_scope.

(** The randomness of one fresh leaf: an X25519 secret, an ML-KEM seed and the
    encapsulation of its self-test. *)
Record LeafEntropy : Type := mkLeafEntropy {
  le_x25519 : bytes;
  le_kyber : bytes;
  le_self_test : bytes }.

Definition KEY_PACKAGE_SECRETS_SEAL_VERSION : Z := 1.
Definition KEY_PACKAGE_SECRETS_SEAL_AAD : bytes := bstr "aura-group-key-package-secrets-v1".

Section KeyPackage.
Context {P : Primitives} {SG : Signatures}.

Definition build_signed_content (version : Z) (identity_ed25519_public identity_x25519_public
    identity_kyber_public leaf_x25519_public leaf_kyber_public credential : bytes) : bytes :=
  to_le_bytes 4 version ++ identity_ed25519_public ++ identity_x25519_public ++ identity_kyber_public ++
  leaf_x25519_public ++ leaf_kyber_public ++ credential.

Definition kp_ed25519_sign (secret_key message : bytes) : PResult bytes :=
  check? len secret_key =? ED25519_SECRET_KEY_BYTES
    else ProtocolError.invalid_input "Invalid Ed25519 secret key size" in
  check? ed25519_keypair_ok secret_key
    else ProtocolError.key_generation "Invalid Ed25519 keypair bytes" in
  Ok (ed25519_sign secret_key message).

Definition kp_ed25519_verify (public_key signature message : bytes) : PResult unit :=
  check? len public_key =? ED25519_PUBLIC_KEY_BYTES
    else ProtocolError.invalid_input "Invalid Ed25519 public key size" in
  check? len signature =? ED25519_SIGNATURE_BYTES
    else ProtocolError.invalid_input "Invalid Ed25519 signature size" in
  check? ed25519_public_ok public_key
    else ProtocolError.peer_pub_key "Invalid Ed25519 public key" in
  check? ed25519_verify_strict public_key message signature
    else ProtocolError.peer_pub_key "Ed25519 signature verification failed" in
  Ok tt.

Definition create_key_package (identity : IdentityKeysInner) (credential : bytes) (e : LeafEntropy) :
    PResult (GroupKeyPackage.t * SecureMemoryHandle.t * SecureMemoryHandle.t) :=
  let? (x25519_private, x25519_public) := generate_x25519_keypair (le_x25519 e) in
  let? (kyber_secret, kyber_public) := crypto_err (kyber_generate_keypair (le_kyber e) (le_self_test e)) in
  check? negb (MAX_CREDENTIAL_SIZE <? len credential)
    else ProtocolError.invalid_input "Credential size {} exceeds maximum {MAX_CREDENTIAL_SIZE} bytes" in
  let identity_ed25519 := IdentityKeysInner.identity_ed25519_public identity in
  let identity_x25519 := IdentityKeysInner.identity_x25519_public identity in
  let identity_kyber := IdentityKeysInner.kyber_public identity in
  let sign_content := build_signed_content GROUP_PROTOCOL_VERSION identity_ed25519 identity_x25519
    identity_kyber x25519_public kyber_public credential in
  let? ed25519_secret := get_identity_ed25519_private_key_copy identity in
  let? signature := kp_ed25519_sign ed25519_secret sign_content in
  Ok (GroupKeyPackage.mk GROUP_PROTOCOL_VERSION identity_ed25519 identity_x25519 x25519_public kyber_public
        signature credential None identity_kyber, x25519_private, kyber_secret).

Definition validate_key_package (pkg : GroupKeyPackage.t) : PResult unit :=
  check? GroupKeyPackage.version pkg =? GROUP_PROTOCOL_VERSION
    else ProtocolError.invalid_input "Unsupported KeyPackage version: {} (expected {})" in
  check? negb (MAX_CREDENTIAL_SIZE <? len (GroupKeyPackage.credential pkg))
    else ProtocolError.invalid_input "Credential size {} exceeds maximum {MAX_CREDENTIAL_SIZE} bytes" in
  check? len (GroupKeyPackage.identity_ed25519_public pkg) =? ED25519_PUBLIC_KEY_BYTES
    else ProtocolError.invalid_input "Invalid Ed25519 public key size" in
  check? len (GroupKeyPackage.identity_x25519_public pkg) =? X25519_PUBLIC_KEY_BYTES
    else ProtocolError.invalid_input "Invalid identity X25519 public key size" in
  check? len (GroupKeyPackage.identity_kyber_public pkg) =? KYBER_PUBLIC_KEY_BYTES
    else ProtocolError.invalid_input "Invalid identity Kyber public key size" in
  check? len (GroupKeyPackage.leaf_x25519_public pkg) =? X25519_PUBLIC_KEY_BYTES
    else ProtocolError.invalid_input "Invalid leaf X25519 public key size" in
  check? len (GroupKeyPackage.leaf_kyber_public pkg) =? KYBER_PUBLIC_KEY_BYTES
    else ProtocolError.invalid_input "Invalid leaf Kyber public key size" in
  check? len (GroupKeyPackage.signature pkg) =? ED25519_SIGNATURE_BYTES
    else ProtocolError.invalid_input "Invalid signature size" in
  let? _ := DhValidator.validate_x25519_public_key (GroupKeyPackage.identity_x25519_public pkg) in
  let? _ := crypto_err (kyber_validate_public_key (GroupKeyPackage.identity_kyber_public pkg)) in
  let? _ := DhValidator.validate_x25519_public_key (GroupKeyPackage.leaf_x25519_public pkg) in
  let? _ := crypto_err (kyber_validate_public_key (GroupKeyPackage.leaf_kyber_public pkg)) in
  let sign_content := build_signed_content (GroupKeyPackage.version pkg)
    (GroupKeyPackage.identity_ed25519_public pkg) (GroupKeyPackage.identity_x25519_public pkg)
    (GroupKeyPackage.identity_kyber_public pkg) (GroupKeyPackage.leaf_x25519_public pkg)
    (GroupKeyPackage.leaf_kyber_public pkg) (GroupKeyPackage.credential pkg) in
  kp_ed25519_verify (GroupKeyPackage.identity_ed25519_public pkg) (GroupKeyPackage.signature pkg) sign_content.

Definition sign_existing_key_package (ed25519_secret identity_ed25519_public identity_x25519_public
    identity_kyber_public leaf_x25519_public leaf_kyber_public credential : bytes) : PResult bytes :=
  let sign_content := build_signed_content GROUP_PROTOCOL_VERSION identity_ed25519_public identity_x25519_public
    identity_kyber_public leaf_x25519_public leaf_kyber_public credential in
  kp_ed25519_sign ed25519_secret sign_content.

(** ** Sealed secrets *)

Definition secret_too_long : ProtocolError.t :=
  ProtocolError.invalid_input "Key package secret exceeds maximum length".

Definition seal_key_package_secrets (x25519_private kyber_secret : SecureMemoryHandle.t) (seal_key nonce : bytes) :
    PResult bytes :=
  check? len seal_key =? AES_KEY_BYTES
    else ProtocolError.invalid_input "Seal key must be {AES_KEY_BYTES} bytes" in
  let? x := crypto_err (SecureMemoryHandle.read_bytes x25519_private (SecureMemoryHandle.size x25519_private)) in
  let? k := crypto_err (SecureMemoryHandle.read_bytes kyber_secret (SecureMemoryHandle.size kyber_secret)) in
  check? len x <=? u16_max else secret_too_long in
  check? len k <=? u16_max else secret_too_long in
  let inner := to_be_bytes 2 (len x) ++ x ++ to_be_bytes 2 (len k) ++ k in
  let? ciphertext := aes_encrypt seal_key nonce inner KEY_PACKAGE_SECRETS_SEAL_AAD in
  Ok ([KEY_PACKAGE_SECRETS_SEAL_VERSION] ++ nonce ++ ciphertext).

Definition malformed_secrets : ProtocolError.t :=
  ProtocolError.invalid_input "Malformed sealed key package secrets".

(** The field at [offset] and the offset behind it; [start + len] cannot
    overflow a [usize] of 64 bits. *)
Definition read_len_prefixed (buf : bytes) (offset : Z) : PResult (bytes * Z) :=
  check? offset + 2 <=? len buf else malformed_secrets in
  let n := from_be_bytes (firstn 2 (skipn (Z.to_nat offset) buf)) in
  let start := offset + 2 in
  let end_ := start + n in
  check? end_ <=? len buf else malformed_secrets in
  Ok (firstn (Z.to_nat n) (skipn (Z.to_nat start) buf), end_).

Definition unseal_key_package_secrets (sealed seal_key : bytes) :
    PResult (SecureMemoryHandle.t * SecureMemoryHandle.t) :=
  check? len seal_key =? AES_KEY_BYTES
    else ProtocolError.invalid_input "Seal key must be {AES_KEY_BYTES} bytes" in
  let header := 1 + AES_GCM_NONCE_BYTES in
  check? header + AES_GCM_TAG_BYTES <=? len sealed
    else ProtocolError.invalid_input "Sealed key package secrets too short" in
  check? nth 0 sealed 0 =? KEY_PACKAGE_SECRETS_SEAL_VERSION
    else ProtocolError.invalid_input "Unsupported sealed key package secrets version" in
  let nonce := firstn (Z.to_nat AES_GCM_NONCE_BYTES) (skipn 1 sealed) in
  let ciphertext := skipn (Z.to_nat header) sealed in
  let? inner := aes_decrypt seal_key nonce ciphertext KEY_PACKAGE_SECRETS_SEAL_AAD in
  let? (x, off1) := read_len_prefixed inner 0 in
  let? (k, off2) := read_len_prefixed inner off1 in
  check? off2 =? len inner else ProtocolError.invalid_input "Trailing bytes in sealed key package secrets" in
  let? x_handle := crypto_err (SecureMemoryHandle.alloc_write (len x) x) in
  let? k_handle := crypto_err (SecureMemoryHandle.alloc_write (len k) k) in
  Ok (x_handle, k_handle).

End KeyPackage.
