(* ===== verification/RatchetTree.v ===== *)
(** * The ratchet tree ([src/protocol/group/tree.rs])

    The tree of a group: public and private keys at the nodes, the occupants of
    the leaves, and the operations of [RatchetTree] on them.  [self.nodes[i] = x]
    is [vset], which the program reaches with an index in range only (the
    invariant [tree_wf] of [TreeFacts]).  A recursion limited by
    [MAX_TREE_DEPTH] takes what is left of the limit as fuel. *)

From Stdlib Require Import ZArith List Bool Lia String.
From S2P Require Import Prelude Constants SecureMemory Crypto Signatures SeenSet TreeIndex.
From S2P Require Import Proto GroupProto KeyPackage.
Import ListNotations.
Open Scope string_scope.
Open Scope list_scope.
Open Scope Z_scope.

Module HybridNodeKeys.

Record t : Type := mk {
  x25519_public : bytes;
  kyber_public : bytes;
  x25519_private : option SecureMemoryHandle.t;
  kyber_secret : option SecureMemoryHandle.t }.

Definition clone_handle (h : option SecureMemoryHandle.t) : PResult (option SecureMemoryHandle.t) :=
  match h with
  | Some handle => let? c := crypto_err (SecureMemoryHandle.try_clone handle) in Ok (Some c)
  | None => Ok None
  end.

Definition try_clone (k : t) : PResult t :=
  let? x25519_private := clone_handle (x25519_private k) in
  let? kyber_secret := clone_handle (kyber_secret k) in
  Ok (mk (x25519_public k) (kyber_public k) x25519_private kyber_secret).

End HybridNodeKeys.

Module TreeNodeContent.

Inductive t : Type :=
| Blank
| Populated (keys : HybridNodeKeys.t) (parent_hash : bytes).

Definition try_clone (n : t) : PResult t :=
  match n with
  | Blank => Ok Blank
  | Populated keys parent_hash => let? k := HybridNodeKeys.try_clone keys in Ok (Populated k parent_hash)
  end.

End TreeNodeContent.
Export TreeNodeContent (Blank, Populated).

Module LeafData.

Record t : Type := mk {
  credential : bytes;
  identity_ed25519_public : bytes;
  identity_x25519_public : bytes;
  identity_kyber_public : bytes;
  signature : bytes }.

Definition set_signature (v : bytes) (l : t) : t :=
  mk (credential l) (identity_ed25519_public l) (identity_x25519_public l) (identity_kyber_public l) v.

End LeafData.

Module RatchetTree.

Record t : Type := mk {
  nodes : list TreeNodeContent.t;
  leaves : list (option LeafData.t);
  leaf_count : Z }.

Definition set_nodes (v : list TreeNodeContent.t) (s : t) : t := mk v (leaves s) (leaf_count s).
Definition set_leaves (v : list (option LeafData.t)) (s : t) : t := mk (nodes s) v (leaf_count s).
Definition set_leaf_count (v : Z) (s : t) : t := mk (nodes s) (leaves s) v.

Definition try_clone (s : t) : PResult t :=
  let? nodes := mapR TreeNodeContent.try_clone (nodes s) in
  Ok (mk nodes (leaves s) (leaf_count s)).

End RatchetTree.
Abbreviation RatchetTree := RatchetTree.t.

Abbreviation TreeM := (Stm ProtocolError.t RatchetTree).

Definition zero_hash : bytes := repeat 0 (Z.to_nat SHA256_HASH_BYTES).

Definition is_some {A} (o : option A) : bool := match o with Some _ => true | None => false end.

(** [iter().position(Option::is_none)] *)
Fixpoint position_none {A} (i : Z) (l : list (option A)) : option Z :=
  match l with
  | [] => None
  | None :: _ => Some i
  | Some _ :: l => position_none (i + 1) l
  end.

(** ** Reading the tree *)

Definition new_single (x25519_public kyber_public : bytes) (x25519_private kyber_secret : SecureMemoryHandle.t)
    (identity_ed25519 identity_x25519 identity_kyber credential signature : bytes) : PResult RatchetTree :=
  check? len x25519_public =? X25519_PUBLIC_KEY_BYTES
    else ProtocolError.invalid_input "Invalid X25519 public key size" in
  check? len kyber_public =? KYBER_PUBLIC_KEY_BYTES
    else ProtocolError.invalid_input "Invalid Kyber public key size" in
  let keys := HybridNodeKeys.mk x25519_public kyber_public (Some x25519_private) (Some kyber_secret) in
  let leaf := Populated keys zero_hash in
  let leaf_data := LeafData.mk credential identity_ed25519 identity_x25519 identity_kyber signature in
  Ok (RatchetTree.mk [leaf] [Some leaf_data] 1).

Definition member_count (s : RatchetTree) : Z := len (filter is_some (RatchetTree.leaves s)).

Definition get_leaf_data (s : RatchetTree) (leaf_idx : Z) : option LeafData.t :=
  match vget (RatchetTree.leaves s) leaf_idx with Some l => l | None => None end.

Definition populated_leaf_indices (s : RatchetTree) : list Z :=
  map fst (filter (fun il => is_some (snd il)) (enumerate_from 0 (RatchetTree.leaves s))).

Definition get_node_keys (s : RatchetTree) (node_idx : Z) : option HybridNodeKeys.t :=
  match vget (RatchetTree.nodes s) node_idx with
  | Some (Populated keys _) => Some keys
  | _ => None
  end.

Definition get_node_public_keys (s : RatchetTree) (node_idx : Z) : option (bytes * bytes) :=
  match vget (RatchetTree.nodes s) node_idx with
  | Some (Populated keys _) => Some (HybridNodeKeys.x25519_public keys, HybridNodeKeys.kyber_public keys)
  | _ => None
  end.

Definition is_blank (s : RatchetTree) (node_idx : Z) : bool :=
  match vget (RatchetTree.nodes s) node_idx with
  | Some (Populated _ _) => false
  | _ => true
  end.

Definition get_node_parent_hash (s : RatchetTree) (node_idx : Z) : option bytes :=
  match vget (RatchetTree.nodes s) node_idx with
  | Some (Populated _ parent_hash) => Some parent_hash
  | _ => None
  end.

Fixpoint resolution_inner (fuel : nat) (s : RatchetTree) (node_idx : Z) : PResult (list Z) :=
  match fuel with
  | O => Err (ProtocolError.tree_integrity "resolution: exceeded MAX_TREE_DEPTH")
  | S fuel =>
      match vget (RatchetTree.nodes s) node_idx with
      | None => Ok []
      | Some (Populated _ _) => Ok [node_idx]
      | Some Blank =>
          if is_leaf node_idx then Ok [] else
          let? l := left node_idx in
          let? r := right node_idx (RatchetTree.leaf_count s) in
          let? res := resolution_inner fuel s l in
          let? more := resolution_inner fuel s r in
          Ok (res ++ more)
      end
  end.

Definition resolution (s : RatchetTree) (node_idx : Z) : PResult (list Z) :=
  resolution_inner depth_fuel s node_idx.

Definition next_leaf_index (s : RatchetTree) : Z :=
  match position_none 0 (RatchetTree.leaves s) with
  | Some idx => idx
  | None => RatchetTree.leaf_count s
  end.

(** ** Changing the tree *)

Definition put_node (i : Z) (c : TreeNodeContent.t) (s : RatchetTree) : RatchetTree :=
  RatchetTree.set_nodes (vset (RatchetTree.nodes s) i c) s.

Definition put_leaf (i : Z) (l : option LeafData.t) (s : RatchetTree) : RatchetTree :=
  RatchetTree.set_leaves (vset (RatchetTree.leaves s) i l) s.

(** A node with public keys only: [HybridNodeKeys { .., x25519_private: None, kyber_secret: None }]. *)
Definition public_node (x25519_public kyber_public : bytes) : TreeNodeContent.t :=
  Populated (HybridNodeKeys.mk x25519_public kyber_public None None) zero_hash.

Definition add_leaf (x25519_public kyber_public : bytes) (leaf_data : LeafData.t) : TreeM Z :=
  do s <- sget (fun s => s);
  do! sguard (member_count s <? MAX_GROUP_MEMBERS) (ProtocolError.group_membership "Group member limit reached");
  match position_none 0 (RatchetTree.leaves s) with
  | Some idx =>
      do node_idx <- slift (checked_leaf_to_node idx);
      do! smod (put_node node_idx (public_node x25519_public kyber_public));
      do! smod (put_leaf idx (Some leaf_data));
      sret idx
  | None =>
      let new_leaf_idx := RatchetTree.leaf_count s in
      let new_leaf_count := RatchetTree.leaf_count s + 1 in
      let new_node_count := node_count new_leaf_count in
      do! smod (fun s => RatchetTree.set_nodes (RatchetTree.nodes s ++
                  repeat Blank (Z.to_nat (new_node_count - len (RatchetTree.nodes s)))) s);
      do node_idx <- slift (checked_leaf_to_node new_leaf_idx);
      do! smod (put_node node_idx (public_node x25519_public kyber_public));
      do! smod (fun s => RatchetTree.set_leaves (RatchetTree.leaves s ++ [Some leaf_data]) s);
      do! smod (RatchetTree.set_leaf_count new_leaf_count);
      sret new_leaf_idx
  end.

(** [for &p in &path { if p < self.nodes.len() { self.nodes[p] = Blank } }] *)
Definition blank_nodes (path : list Z) (s : RatchetTree) : RatchetTree :=
  fold_left (fun s p => if p <? len (RatchetTree.nodes s) then put_node p Blank s else s) path s.

Definition blank_leaf (leaf_idx : Z) : TreeM unit :=
  do s <- sget (fun s => s);
  do! sguard (leaf_idx <? RatchetTree.leaf_count s) (ProtocolError.group_membership "Leaf index out of range");
  do! sguard (is_some (get_leaf_data s leaf_idx)) (ProtocolError.group_membership "Leaf already blank");
  do node_idx <- slift (checked_leaf_to_node leaf_idx);
  do! smod (put_node node_idx Blank);
  do! smod (put_leaf leaf_idx None);
  if 1 <? RatchetTree.leaf_count s then
    do path <- slift (direct_path leaf_idx (RatchetTree.leaf_count s));
    smod (blank_nodes path)
  else sret tt.

Definition set_node_public_keys (node_idx : Z) (x25519_public kyber_public : bytes) : TreeM unit :=
  do s <- sget (fun s => s);
  do! sguard (node_idx <? len (RatchetTree.nodes s)) (ProtocolError.tree_integrity "Node index out of range");
  match vget (RatchetTree.nodes s) node_idx with
  | Some (Populated keys parent_hash) =>
      smod (put_node node_idx (Populated (HybridNodeKeys.mk x25519_public kyber_public
              (HybridNodeKeys.x25519_private keys) (HybridNodeKeys.kyber_secret keys)) parent_hash))
  | _ => smod (put_node node_idx (public_node x25519_public kyber_public))
  end.

Definition set_node_private_keys (node_idx : Z) (x25519_private kyber_secret : SecureMemoryHandle.t) : TreeM unit :=
  do s <- sget (fun s => s);
  match vget (RatchetTree.nodes s) node_idx with
  | Some (Populated keys parent_hash) =>
      smod (put_node node_idx (Populated (HybridNodeKeys.mk (HybridNodeKeys.x25519_public keys)
              (HybridNodeKeys.kyber_public keys) (Some x25519_private) (Some kyber_secret)) parent_hash))
  | _ => sfail (ProtocolError.tree_integrity "Cannot set private keys on blank node")
  end.

Definition set_leaf_signature (leaf_idx : Z) (signature : bytes) : TreeM unit :=
  do s <- sget (fun s => s);
  match get_leaf_data s leaf_idx with
  | Some leaf => smod (put_leaf leaf_idx (Some (LeafData.set_signature signature leaf)))
  | None => sfail (ProtocolError.tree_integrity "Cannot set signature on blank leaf")
  end.

Definition update_leaf (leaf_idx : Z) (x25519_public kyber_public : bytes)
    (x25519_private kyber_secret : SecureMemoryHandle.t) : TreeM unit :=
  do node_idx <- slift (checked_leaf_to_node leaf_idx);
  do s <- sget (fun s => s);
  do! sguard (node_idx <? len (RatchetTree.nodes s)) (ProtocolError.tree_integrity "Leaf node index out of range");
  smod (put_node node_idx (Populated (HybridNodeKeys.mk x25519_public kyber_public (Some x25519_private)
          (Some kyber_secret)) zero_hash)).

Definition set_node_parent_hash (node_idx : Z) (hash : bytes) : TreeM unit :=
  do s <- sget (fun s => s);
  match vget (RatchetTree.nodes s) node_idx with
  | Some (Populated keys _) => smod (put_node node_idx (Populated keys hash))
  | _ => sfail (ProtocolError.tree_integrity "Cannot set parent_hash on blank node")
  end.

(** ** Hashes *)

Section Hashes.
Context {P : Primitives} {SG : Signatures}.

(** What a node contributes to its hash: label, index, keys, and for a leaf its
    occupant. *)
Definition leaf_hash_input (s : RatchetTree) (node_idx : Z) : bytes :=
  match node_to_leaf node_idx with
  | Some leaf_idx =>
      match get_leaf_data s leaf_idx with
      | Some d => [1] ++ len_prefixed (LeafData.credential d) ++ len_prefixed (LeafData.identity_ed25519_public d) ++
                  len_prefixed (LeafData.identity_x25519_public d) ++
                  len_prefixed (LeafData.identity_kyber_public d) ++ len_prefixed (LeafData.signature d)
      | None => [0]
      end
  | None => [0]
  end.

Definition node_hash_input (s : RatchetTree) (node_idx : Z) : bytes :=
  let leaf := is_leaf node_idx in
  match vget (RatchetTree.nodes s) node_idx with
  | Some (Populated keys _) =>
      len_prefixed (if leaf then GROUP_LEAF_NODE_HASH_LABEL else GROUP_PARENT_NODE_HASH_LABEL) ++
      to_le_bytes 4 node_idx ++ [1] ++
      len_prefixed (HybridNodeKeys.x25519_public keys) ++ len_prefixed (HybridNodeKeys.kyber_public keys) ++
      (if leaf then leaf_hash_input s node_idx else [])
  | _ => len_prefixed GROUP_BLANK_NODE_HASH_LABEL ++ to_le_bytes 4 node_idx ++ [0]
  end.

Fixpoint compute_node_hash_inner (fuel : nat) (s : RatchetTree) (node_idx : Z) : PResult bytes :=
  match fuel with
  | O => Err (ProtocolError.tree_integrity "compute_node_hash: exceeded MAX_TREE_DEPTH")
  | S fuel =>
      let hasher_input := node_hash_input s node_idx in
      if negb (is_leaf node_idx) && (1 <? RatchetTree.leaf_count s) then
        let? l := left node_idx in
        let? r := right node_idx (RatchetTree.leaf_count s) in
        let? left_hash := compute_node_hash_inner fuel s l in
        let? right_hash := compute_node_hash_inner fuel s r in
        Ok (sha256 (hasher_input ++ len_prefixed left_hash ++ len_prefixed right_hash))
      else Ok (sha256 hasher_input)
  end.

Definition compute_node_hash (s : RatchetTree) (node_idx : Z) : PResult bytes :=
  compute_node_hash_inner depth_fuel s node_idx.

Definition tree_hash (s : RatchetTree) : PResult bytes :=
  if RatchetTree.leaf_count s =? 0 then Ok zero_hash else
  let? r := root (RatchetTree.leaf_count s) in
  compute_node_hash s r.

Definition subtree_hash (s : RatchetTree) (node_idx : Z) : PResult bytes := compute_node_hash s node_idx.

Definition compute_parent_hash_value (s : RatchetTree) (parent_x25519 parent_kyber parent_parent_hash : bytes)
    (sibling_idx : Z) : PResult bytes :=
  let? sibling_hash := subtree_hash s sibling_idx in
  Ok (sha256 (len_prefixed GROUP_PARENT_HASH_LABEL ++ len_prefixed parent_x25519 ++ len_prefixed parent_kyber ++
              len_prefixed parent_parent_hash ++ len_prefixed sibling_hash)).

(** The loop of [verify_parent_hash_chain] from the root down: [rdp] is the part
    of the direct path still to check, its upper end first. *)
Fixpoint verify_chain (s : RatchetTree) (root_idx : Z) (rdp : list Z) (expected_parent_hash : bytes) : PResult unit :=
  match rdp with
  | [] => Ok tt
  | node_idx :: rest =>
      let? stored := ok_or (get_node_parent_hash s node_idx)
        (ProtocolError.tree_integrity "Missing parent_hash at node {node_idx}") in
      check? len stored =? SHA256_HASH_BYTES
        else ProtocolError.tree_integrity "Invalid parent_hash length at node {node_idx}: expected {}, got {}" in
      let is_zero := is_all_zero stored in
      let? _ :=
        if node_idx =? root_idx
        then ensure is_zero (ProtocolError.tree_integrity "parent_hash at root node must be all-zero")
        else ensure (negb is_zero)
               (ProtocolError.tree_integrity "parent_hash is all-zero at non-root node {node_idx}") in
      let? hash_ok := crypto_err (constant_time_equals stored expected_parent_hash) in
      check? hash_ok else ProtocolError.tree_integrity "parent_hash mismatch at node {node_idx}" in
      match rest with
      | [] => Ok tt
      | child_node_idx :: _ =>
          let? sib_idx := sibling child_node_idx (RatchetTree.leaf_count s) in
          let? keys := ok_or (get_node_public_keys s node_idx)
            (ProtocolError.tree_integrity "Missing public keys at node {node_idx} for parent_hash verification") in
          let? expected := compute_parent_hash_value s (fst keys) (snd keys) stored sib_idx in
          verify_chain s root_idx rest expected
      end
  end.

Definition verify_parent_hash_chain (s : RatchetTree) (leaf_idx : Z) : PResult unit :=
  if RatchetTree.leaf_count s <=? 1 then Ok tt else
  let? dp := direct_path leaf_idx (RatchetTree.leaf_count s) in
  if len dp =? 0 then Ok tt else
  let? root_idx := root (RatchetTree.leaf_count s) in
  verify_chain s root_idx (rev dp) zero_hash.

(** ** Export and import *)

Definition leaf_key_package (s : RatchetTree) (node_idx : Z) : option GroupKeyPackage.t :=
  if negb (is_leaf node_idx) then None else
  match get_leaf_data s (node_idx / 2), get_node_public_keys s node_idx with
  | Some ld, Some (x25519_pub, kyber_pub) =>
      Some (GroupKeyPackage.mk GROUP_PROTOCOL_VERSION (LeafData.identity_ed25519_public ld)
              (LeafData.identity_x25519_public ld) x25519_pub kyber_pub (LeafData.signature ld)
              (LeafData.credential ld) None (LeafData.identity_kyber_public ld))
  | _, _ => None
  end.

(** [handle.as_ref().and_then(|h| h.read_bytes(n).ok()).unwrap_or_default()] *)
Definition read_or_empty (h : option SecureMemoryHandle.t) (n : Z) : bytes :=
  match h with Some h => unwrap_or (SecureMemoryHandle.read_bytes h n) [] | None => [] end.

(** The message of node [i]; [with_private] says whether its secrets go in. *)
Definition proto_node (s : RatchetTree) (with_private : bool) (i : Z) (node : TreeNodeContent.t) : GroupTreeNode.t :=
  match node with
  | Blank => GroupTreeNode.mk i [] [] [] [] [] (leaf_key_package s i)
  | Populated keys parent_hash =>
      GroupTreeNode.mk i (HybridNodeKeys.x25519_public keys) (HybridNodeKeys.kyber_public keys)
        (if with_private then read_or_empty (HybridNodeKeys.x25519_private keys) X25519_PRIVATE_KEY_BYTES else [])
        (if with_private then read_or_empty (HybridNodeKeys.kyber_secret keys) KYBER_SECRET_KEY_BYTES else [])
        parent_hash (leaf_key_package s i)
  end.

Definition export_public (s : RatchetTree) : list GroupTreeNode.t :=
  map (fun '(i, node) => proto_node s false i node) (enumerate_from 0 (RatchetTree.nodes s)).

Definition export_for_welcome (s : RatchetTree) (new_member_leaf_idx : Z) : PResult (list GroupTreeNode.t) :=
  let? dp := direct_path new_member_leaf_idx (RatchetTree.leaf_count s) in
  Ok (map (fun '(i, node) => proto_node s (negb (is_leaf i) && existsb (Z.eqb i) dp) i node)
        (enumerate_from 0 (RatchetTree.nodes s))).

Definition export_with_private_keys (s : RatchetTree) : list GroupTreeNode.t :=
  map (fun '(i, node) => proto_node s true i node) (enumerate_from 0 (RatchetTree.nodes s)).

Definition handle_of (n : Z) (b : bytes) : PResult (option SecureMemoryHandle.t) :=
  if len b =? 0 then Ok None else
  let? h := crypto_err (SecureMemoryHandle.alloc_write n b) in Ok (Some h).

Definition node_of_proto (pn : GroupTreeNode.t) : PResult TreeNodeContent.t :=
  if len (GroupTreeNode.x25519_public pn) =? 0 then Ok Blank else
  check? len (GroupTreeNode.x25519_public pn) =? X25519_PUBLIC_KEY_BYTES
    else ProtocolError.tree_integrity "Invalid X25519 public key size in tree node {}: expected {}, got {}" in
  check? (len (GroupTreeNode.kyber_public pn) =? 0) || (len (GroupTreeNode.kyber_public pn) =? KYBER_PUBLIC_KEY_BYTES)
    else ProtocolError.tree_integrity "Invalid Kyber public key size in tree node {}: expected {}, got {}" in
  check? (len (GroupTreeNode.x25519_private pn) =? 0) ||
         (len (GroupTreeNode.x25519_private pn) =? X25519_PRIVATE_KEY_BYTES)
    else ProtocolError.tree_integrity "Invalid X25519 private key size in tree node {}" in
  check? (len (GroupTreeNode.kyber_secret pn) =? 0) || (len (GroupTreeNode.kyber_secret pn) =? KYBER_SECRET_KEY_BYTES)
    else ProtocolError.tree_integrity "Invalid Kyber secret key size in tree node {}" in
  let? x25519_private := handle_of X25519_PRIVATE_KEY_BYTES (GroupTreeNode.x25519_private pn) in
  let? kyber_secret := handle_of KYBER_SECRET_KEY_BYTES (GroupTreeNode.kyber_secret pn) in
  Ok (Populated (HybridNodeKeys.mk (GroupTreeNode.x25519_public pn) (GroupTreeNode.kyber_public pn)
        x25519_private kyber_secret) (GroupTreeNode.parent_hash pn)).

Definition leaf_data_of (kp : GroupKeyPackage.t) : LeafData.t :=
  LeafData.mk (GroupKeyPackage.credential kp) (GroupKeyPackage.identity_ed25519_public kp)
    (GroupKeyPackage.identity_x25519_public kp) (GroupKeyPackage.identity_kyber_public kp)
    (GroupKeyPackage.signature kp).

(** One round of the loop over the leaves: the occupants so far and the set of
    their identity keys. *)
Definition leaf_of_proto (proto_nodes : list GroupTreeNode.t) (nodes : list TreeNodeContent.t)
    (acc : list (option LeafData.t) * list bytes) (i : Z) : PResult (list (option LeafData.t) * list bytes) :=
  let '(leaves, identity_ed25519_keys) := acc in
  let? node_idx := checked_leaf_to_node i in
  match vget proto_nodes node_idx with
  | None => Ok (leaves ++ [None], identity_ed25519_keys)
  | Some pn =>
      match GroupTreeNode.key_package pn with
      | None => Ok (leaves ++ [None], identity_ed25519_keys)
      | Some kp =>
          let? _ := validate_key_package kp in
          let id := GroupKeyPackage.identity_ed25519_public kp in
          check? negb (bset_contains identity_ed25519_keys id)
            else ProtocolError.tree_integrity "Duplicate Ed25519 identity key in group tree" in
          let? _ :=
            match vget nodes node_idx with
            | Some (Populated keys _) =>
                ensure (bytes_eqb (HybridNodeKeys.x25519_public keys) (GroupKeyPackage.leaf_x25519_public kp) &&
                        bytes_eqb (HybridNodeKeys.kyber_public keys) (GroupKeyPackage.leaf_kyber_public kp))
                  (ProtocolError.tree_integrity "Leaf key package does not match leaf node public keys")
            | _ => Err (ProtocolError.tree_integrity "Blank leaf cannot carry a key package")
            end in
          Ok (leaves ++ [Some (leaf_data_of kp)], bset_insert identity_ed25519_keys id)
      end
  end.

Definition from_proto (proto_nodes : list GroupTreeNode.t) : PResult RatchetTree :=
  check? negb (len proto_nodes =? 0) else ProtocolError.tree_integrity "Empty tree" in
  let nc := len proto_nodes in
  check? negb (nc mod 2 =? 0) else ProtocolError.tree_integrity "Node count must be odd (2n-1), got {nc}" in
  check? nc <=? MAX_TREE_NODES
    else ProtocolError.tree_integrity "Tree node count {nc} exceeds MAX_TREE_NODES ({MAX_TREE_NODES})" in
  let lc := div_ceil nc 2 in
  let? nodes := mapR node_of_proto proto_nodes in
  let? (leaves, _) := foldR (leaf_of_proto proto_nodes nodes) (zrange 0 lc) ([], []) in
  Ok (RatchetTree.mk nodes leaves lc).

Definition from_public_proto (proto_nodes : list GroupTreeNode.t) : PResult RatchetTree := from_proto proto_nodes.

End Hashes.
