(* ===== verification/TreeKem.v ===== *)
(** * Path secrets ([src/protocol/group/tree_kem.rs])

    The update path of a commit: new keys along the path of the committer, the
    path secrets encrypted to the nodes of the co-path, and their use by the
    other members.  The randomness of a call is an argument: [PathEntropy] for
    the whole path and one [SealEntropy] per encrypted secret. *)

From Stdlib Require Import ZArith List Bool Lia String.
From S2P Require Import Prelude Constants SecureMemory Crypto Signatures DhValidator TreeIndex.
From S2P Require Import GroupProto KeyPackage RatchetTree.
Import ListNotations.
Open Scope string_scope.
Open Scope list_scope.
Open Scope Z_scope.

(** Ephemeral X25519 secret, encapsulation randomness and nonce. *)
Record SealEntropy : Type := mkSealEntropy {
  se_ephemeral : bytes;
  se_kyber : bytes;
  se_nonce : bytes }.

Record PathEntropy : Type := mkPathEntropy {
  pe_leaf : LeafEntropy;
  pe_secret : bytes;
  (** the draw for the [j]-th node of the resolution at level [i] *)
  pe_seal : Z -> Z -> SealEntropy }.

(** The new private keys of a node. *)
Abbreviation NodeSecrets := (Z * SecureMemoryHandle.t * SecureMemoryHandle.t)%type.

Section TreeKem.
Context {P : Primitives} {SG : Signatures}.

Definition derive_next_path_secret (current : bytes) (level : Z) : PResult bytes :=
  let info := GROUP_PATH_SECRET_INFO ++ to_le_bytes 4 level in
  expand current info PATH_SECRET_BYTES.

Definition derive_node_keypairs (path_secret : bytes) :
    PResult (SecureMemoryHandle.t * bytes * SecureMemoryHandle.t * bytes) :=
  let? x25519_seed := expand path_secret (GROUP_NODE_KEY_INFO ++ bstr "x25519") X25519_PRIVATE_KEY_BYTES in
  let x25519_seed := clamp x25519_seed in
  check? len x25519_seed =? X25519_PRIVATE_KEY_BYTES
    else ProtocolError.tree_integrity "X25519 seed has wrong length" in
  let x25519_public := x25519_public x25519_seed in
  let? x25519_handle := crypto_err (SecureMemoryHandle.alloc_write X25519_PRIVATE_KEY_BYTES x25519_seed) in
  let? kyber_seed := expand path_secret (GROUP_NODE_KEY_INFO ++ bstr "kyber") KYBER_SEED_KEY_BYTES in
  let? (kyber_secret, kyber_public) := crypto_err (kyber_generate_keypair_from_seed kyber_seed) in
  Ok (x25519_handle, x25519_public, kyber_secret, kyber_public).

Definition encrypt_path_secret (path_secret target_x25519_public target_kyber_public : bytes) (node_index : Z)
    (e : SealEntropy) : PResult GroupHybridCiphertext.t :=
  let? (eph_private, eph_public) := generate_x25519_keypair (se_ephemeral e) in
  let? sk := crypto_err (SecureMemoryHandle.read_bytes eph_private X25519_PRIVATE_KEY_BYTES) in
  check? len sk =? X25519_PRIVATE_KEY_BYTES else ProtocolError.group_protocol "Invalid X25519 private key size" in
  check? len target_x25519_public =? X25519_PUBLIC_KEY_BYTES
    else ProtocolError.group_protocol "Invalid X25519 public key size" in
  let dh_shared := x25519_dh sk target_x25519_public in
  check? negb (is_all_zero dh_shared)
    else ProtocolError.group_protocol
           "X25519 DH produced all-zero output in encrypt_path_secret (RFC 7748 section 6.1)" in
  let? (kyber_ct, kyber_ss_handle) := crypto_err (kyber_encapsulate target_kyber_public (se_kyber e)) in
  let? kyber_ss := crypto_err (SecureMemoryHandle.read_bytes kyber_ss_handle KYBER_SHARED_SECRET_BYTES) in
  let? hybrid_key := derive_key_bytes kyber_ss AES_KEY_BYTES (GROUP_HYBRID_SALT_PREFIX ++ dh_shared)
    GROUP_HYBRID_PATH_INFO in
  let? encrypted := aes_encrypt hybrid_key (se_nonce e) path_secret (to_le_bytes 4 node_index) in
  Ok (GroupHybridCiphertext.mk eph_public kyber_ct encrypted (se_nonce e)).

Definition decrypt_path_secret (ciphertext : GroupHybridCiphertext.t) (x25519_private kyber_secret : SecureMemoryHandle.t)
    (node_index : Z) : PResult bytes :=
  let eph := GroupHybridCiphertext.ephemeral_x25519_public ciphertext in
  let? _ := map_err (fun _ => ProtocolError.group_protocol "decrypt_path_secret: invalid ephemeral X25519 key: {e}")
              (DhValidator.validate_x25519_public_key eph) in
  let? _ := map_err (fun _ => ProtocolError.group_protocol "decrypt_path_secret: invalid Kyber ciphertext: {e}")
              (kyber_validate_ciphertext (GroupHybridCiphertext.kyber_ciphertext ciphertext)) in
  let? sk := crypto_err (SecureMemoryHandle.read_bytes x25519_private X25519_PRIVATE_KEY_BYTES) in
  check? len sk =? X25519_PRIVATE_KEY_BYTES else ProtocolError.group_protocol "Invalid X25519 private key size" in
  check? len eph =? X25519_PUBLIC_KEY_BYTES else ProtocolError.group_protocol "Invalid X25519 public key size" in
  let dh_shared := x25519_dh sk eph in
  check? negb (is_all_zero dh_shared)
    else ProtocolError.group_protocol
           "X25519 DH produced all-zero output in decrypt_path_secret (RFC 7748 section 6.1)" in
  let? kyber_ss_handle :=
    crypto_err (kyber_decapsulate (GroupHybridCiphertext.kyber_ciphertext ciphertext) kyber_secret) in
  let? kyber_ss := crypto_err (SecureMemoryHandle.read_bytes kyber_ss_handle KYBER_SHARED_SECRET_BYTES) in
  let? hybrid_key := derive_key_bytes kyber_ss AES_KEY_BYTES (GROUP_HYBRID_SALT_PREFIX ++ dh_shared)
    GROUP_HYBRID_PATH_INFO in
  aes_decrypt hybrid_key (GroupHybridCiphertext.nonce ciphertext)
    (GroupHybridCiphertext.encrypted_secret ciphertext) (to_le_bytes 4 node_index).

(** ** The committer *)

(** [path_secrets[i] = derive_next_path_secret(&path_secrets[i - 1], i)] for
    [count] further levels, from level [i]. *)
Fixpoint next_path_secrets (count : nat) (current : bytes) (i : Z) : PResult (list bytes) :=
  match count with
  | O => Ok []
  | S count =>
      let? next := derive_next_path_secret current i in
      let? more := next_path_secrets count next (i + 1) in
      Ok (next :: more)
  end.

(** The path secret of level [i] encrypted to every node of a resolution. *)
Definition encrypt_to_resolution (tree : RatchetTree) (seal : Z -> SealEntropy) (path_secret : bytes)
    (node_idx : Z) (resolution : list Z) : PResult (list GroupHybridCiphertext.t) :=
  mapR (fun '(j, res_node) =>
          let? (target_x25519, target_kyber) := ok_or (get_node_public_keys tree res_node)
            (ProtocolError.tree_integrity "Resolution node {res_node} is blank") in
          encrypt_path_secret path_secret target_x25519 target_kyber node_idx (seal j))
    (enumerate_from 0 resolution).

(** The loop over the direct path: the nodes of the update path and the new
    private keys. *)
Fixpoint update_path_nodes (tree : RatchetTree) (seal : Z -> Z -> SealEntropy) (i : Z) (direct_path co_path : list Z)
    (path_secrets : list bytes) : PResult (list GroupUpdatePathNode.t * list NodeSecrets) :=
  match direct_path, co_path, path_secrets with
  | node_idx :: dp, copath_node :: cp, secret :: secrets =>
      let? (x25519_priv, x25519_pub, kyber_sec, kyber_pub) := derive_node_keypairs secret in
      let? resolution := resolution tree copath_node in
      let? encrypted_secrets := encrypt_to_resolution tree (seal i) secret node_idx resolution in
      let? (nodes, privs) := update_path_nodes tree seal (i + 1) dp cp secrets in
      Ok (GroupUpdatePathNode.mk x25519_pub kyber_pub encrypted_secrets zero_hash :: nodes,
          (node_idx, x25519_priv, kyber_sec) :: privs)
  | _, _, _ => Ok ([], [])
  end.

(** [for i in (0..last).rev()]: the parent hash of a node covers its parent's
    keys and parent hash and the subtree of its sibling. *)
Fixpoint set_parent_hashes (tree : RatchetTree) (n : Z) (direct_path : list Z) (nodes : list GroupUpdatePathNode.t) :
    PResult (list GroupUpdatePathNode.t) :=
  match direct_path, nodes with
  | child_node_idx :: dp, node :: nodes =>
      let? above := set_parent_hashes tree n dp nodes in
      match above with
      | [] => Ok [GroupUpdatePathNode.set_parent_hash zero_hash node]
      | parent :: _ =>
          let? sib_idx := sibling child_node_idx n in
          let? h := compute_parent_hash_value tree (GroupUpdatePathNode.x25519_public parent)
            (GroupUpdatePathNode.kyber_public parent) (GroupUpdatePathNode.parent_hash parent) sib_idx in
          Ok (GroupUpdatePathNode.set_parent_hash h node :: above)
      end
  | _, _ => Ok []
  end.

Definition create_update_path (tree_ref : RatchetTree) (my_leaf_idx : Z) (e : PathEntropy) :
    PResult (GroupUpdatePath.t * bytes * list NodeSecrets) :=
  let n := RatchetTree.leaf_count tree_ref in
  let? (leaf_x25519_priv, leaf_x25519_pub) := generate_x25519_keypair (le_x25519 (pe_leaf e)) in
  let? (leaf_kyber_sec, leaf_kyber_pub) :=
    crypto_err (kyber_generate_keypair (le_kyber (pe_leaf e)) (le_self_test (pe_leaf e))) in
  if n <=? 1 then
    let? node_idx := checked_leaf_to_node my_leaf_idx in
    Ok (GroupUpdatePath.mk leaf_x25519_pub leaf_kyber_pub [] [], pe_secret e,
        [(node_idx, leaf_x25519_priv, leaf_kyber_sec)])
  else
    let? dp := direct_path my_leaf_idx n in
    let? co_path := copath my_leaf_idx n in
    let? more := next_path_secrets (List.length dp - 1) (pe_secret e) 1 in
    let path_secrets := pe_secret e :: more in
    let? leaf_node := checked_leaf_to_node my_leaf_idx in
    let? (update_nodes, privs) := update_path_nodes tree_ref (pe_seal e) 0 dp co_path path_secrets in
    let? update_nodes := set_parent_hashes tree_ref n dp update_nodes in
    let commit_secret := last path_secrets [] in
    Ok (GroupUpdatePath.mk leaf_x25519_pub leaf_kyber_pub update_nodes [], commit_secret,
        (leaf_node, leaf_x25519_priv, leaf_kyber_sec) :: privs).

(** ** The other members *)

(** [r == my_node || my_direct_path.contains(&r)] *)
Definition is_mine (my_node : Z) (my_direct_path : list Z) (r : Z) : bool :=
  (r =? my_node) || existsb (Z.eqb r) my_direct_path.

(** The first search: a node of the committer's path that is also mine and whose
    co-path node resolves to one of mine. *)
Fixpoint level_on_my_path (tree : RatchetTree) (mine : Z -> bool) (i : Z) (direct_path co_path : list Z) :
    PResult (option Z) :=
  match direct_path, co_path with
  | dp_node :: dp, copath_node :: cp =>
      if mine dp_node then
        let? resolution := resolution tree copath_node in
        if existsb mine resolution then Ok (Some i) else level_on_my_path tree mine (i + 1) dp cp
      else level_on_my_path tree mine (i + 1) dp cp
  | _, _ => Ok None
  end.

(** The second search, over the resolutions alone. *)
Fixpoint level_by_resolution (tree : RatchetTree) (mine : Z -> bool) (i : Z) (co_path : list Z) : PResult (option Z) :=
  match co_path with
  | copath_node :: cp =>
      let? resolution := resolution tree copath_node in
      if existsb mine resolution then Ok (Some i) else level_by_resolution tree mine (i + 1) cp
  | [] => Ok None
  end.

Definition find_ancestor_level (tree : RatchetTree) (mine : Z -> bool) (direct_path co_path : list Z) :
    PResult (option Z) :=
  let? level := level_on_my_path tree mine 0 direct_path co_path in
  match level with
  | Some i => Ok (Some i)
  | None => level_by_resolution tree mine 0 co_path
  end.

(** [for (idx, &res_node) in resolution.iter().enumerate()]: the first of mine. *)
Fixpoint find_position (mine : Z -> bool) (i : Z) (l : list Z) : option (Z * Z) :=
  match l with
  | [] => None
  | r :: l => if mine r then Some (i, r) else find_position mine (i + 1) l
  end.

Definition validate_path_keys (update_path : GroupUpdatePath.t) : PResult unit :=
  let? _ := DhValidator.validate_x25519_public_key (GroupUpdatePath.leaf_x25519_public update_path) in
  let? _ := crypto_err (kyber_validate_public_key (GroupUpdatePath.leaf_kyber_public update_path)) in
  foldR (fun _ node =>
           let? _ := map_err (fun _ => ProtocolError.tree_integrity "UpdatePath node {i} X25519 key invalid: {e}")
                       (DhValidator.validate_x25519_public_key (GroupUpdatePathNode.x25519_public node)) in
           map_err (fun _ => ProtocolError.tree_integrity "UpdatePath node {i} Kyber key invalid: {e}")
             (kyber_validate_public_key (GroupUpdatePathNode.kyber_public node)))
    (GroupUpdatePath.nodes update_path) tt.

(** The lengths of the parent hashes, and that only the last may be zero. *)
Fixpoint validate_path_hashes (nodes : list GroupUpdatePathNode.t) : PResult unit :=
  match nodes with
  | [] => Ok tt
  | node :: rest =>
      check? len (GroupUpdatePathNode.parent_hash node) =? SHA256_HASH_BYTES
        else ProtocolError.tree_integrity "Invalid parent_hash length at node level {i}: expected {}, got {}" in
      check? (len rest =? 0) || negb (is_all_zero (GroupUpdatePathNode.parent_hash node))
        else ProtocolError.tree_integrity "parent_hash is all-zero at non-root node level {i}" in
      validate_path_hashes rest
  end.

(** One level of the path: the keys derived from the secret must be those of
    the update path, and are installed; the private ones on the own path only. *)
Definition install_level (my_direct_path : list Z) (node_idx : Z) (expected : GroupUpdatePathNode.t) (secret : bytes)
    (x25519_mismatch kyber_mismatch : string) : TreeM unit :=
  do (x25519_priv, x25519_pub, kyber_sec, kyber_pub) <- slift (derive_node_keypairs secret);
  do! sguard (bytes_eqb x25519_pub (GroupUpdatePathNode.x25519_public expected))
        (ProtocolError.tree_integrity x25519_mismatch);
  do! sguard (bytes_eqb kyber_pub (GroupUpdatePathNode.kyber_public expected))
        (ProtocolError.tree_integrity kyber_mismatch);
  do! set_node_public_keys node_idx (GroupUpdatePathNode.x25519_public expected)
        (GroupUpdatePathNode.kyber_public expected);
  if existsb (Z.eqb node_idx) my_direct_path then set_node_private_keys node_idx x25519_priv kyber_sec else sret tt.

(** [for i in (ancestor_level + 1)..committer_direct_path.len()] *)
Fixpoint climb_path (my_direct_path : list Z) (i : Z) (direct_path : list Z) (nodes : list GroupUpdatePathNode.t)
    (current_secret : bytes) : TreeM bytes :=
  match direct_path, nodes with
  | node_idx :: dp, expected :: nodes =>
      do next_secret <- slift (derive_next_path_secret current_secret i);
      do! install_level my_direct_path node_idx expected next_secret
            "X25519 public key mismatch at path level {i}" "Kyber public key mismatch at path level {i}";
      climb_path my_direct_path (i + 1) dp nodes next_secret
  | _, _ => sret current_secret
  end.

(** The public keys of the levels below the common ancestor, and the parent
    hashes of all levels. *)
Fixpoint install_public (direct_path : list Z) (nodes : list GroupUpdatePathNode.t) : TreeM unit :=
  match direct_path, nodes with
  | node_idx :: dp, node :: nodes =>
      do! set_node_public_keys node_idx (GroupUpdatePathNode.x25519_public node) (GroupUpdatePathNode.kyber_public node);
      install_public dp nodes
  | _, _ => sret tt
  end.

Fixpoint install_parent_hashes (direct_path : list Z) (nodes : list GroupUpdatePathNode.t) : TreeM unit :=
  match direct_path, nodes with
  | node_idx :: dp, node :: nodes =>
      do! set_node_parent_hash node_idx (GroupUpdatePathNode.parent_hash node);
      install_parent_hashes dp nodes
  | _, _ => sret tt
  end.

(** The secret meant for this member: the level at which it enters the path and
    the decrypted secret.  An index that would be out of range in [co_path] or
    [direct_path], where the source indexes, is an error here. *)
Definition open_path_secret (tree : RatchetTree) (update_path : GroupUpdatePath.t) (direct_path co_path : list Z)
    (my_node : Z) (my_direct_path : list Z) : PResult (Z * bytes) :=
  let mine := is_mine my_node my_direct_path in
  let? level := find_ancestor_level tree mine direct_path co_path in
  let? ancestor_level := ok_or level
    (ProtocolError.tree_integrity "Could not find common ancestor with committer") in
  let? path_node := ok_or (vget (GroupUpdatePath.nodes update_path) ancestor_level)
    (ProtocolError.tree_integrity "UpdatePath too short for common ancestor") in
  let? copath_node := ok_or (vget co_path ancestor_level)
    (ProtocolError.tree_integrity "co-path index out of range") in
  let? resolution := resolution tree copath_node in
  let? (res_idx, decrypt_node) := ok_or (find_position mine 0 resolution)
    (ProtocolError.tree_integrity "Not found in co-path resolution") in
  let? ciphertext := ok_or (vget (GroupUpdatePathNode.encrypted_path_secrets path_node) res_idx)
    (ProtocolError.tree_integrity "Missing encrypted path secret for my resolution index") in
  let? node_keys := ok_or (get_node_keys tree decrypt_node)
    (ProtocolError.tree_integrity "Decrypt node is blank") in
  let? x25519_priv := ok_or (HybridNodeKeys.x25519_private node_keys)
    (ProtocolError.tree_integrity "No X25519 private key for decryption") in
  let? kyber_sec := ok_or (HybridNodeKeys.kyber_secret node_keys)
    (ProtocolError.tree_integrity "No Kyber secret key for decryption") in
  let? ancestor_node_idx := ok_or (vget direct_path ancestor_level)
    (ProtocolError.tree_integrity "direct path index out of range") in
  let? path_secret := decrypt_path_secret ciphertext x25519_priv kyber_sec ancestor_node_idx in
  Ok (ancestor_level, path_secret).

Definition process_update_path (update_path : GroupUpdatePath.t) (committer_leaf_idx my_leaf_idx : Z) : TreeM bytes :=
  do tree <- sget (fun s => s);
  let n := RatchetTree.leaf_count tree in
  do! sguard (negb (n <=? 1)) (ProtocolError.tree_integrity "Cannot process UpdatePath in single-member group");
  do! sguard (committer_leaf_idx <? n)
        (ProtocolError.tree_integrity "Committer leaf index {committer_leaf_idx} out of range for tree with {n} leaves");
  do! sguard (my_leaf_idx <? n)
        (ProtocolError.tree_integrity "My leaf index {my_leaf_idx} out of range for tree with {n} leaves");
  do! slift (validate_path_keys update_path);
  do committer_direct_path <- slift (direct_path committer_leaf_idx n);
  do committer_copath <- slift (copath committer_leaf_idx n);
  do my_node <- slift (checked_leaf_to_node my_leaf_idx);
  do! sguard (len (GroupUpdatePath.nodes update_path) =? len committer_direct_path)
        (ProtocolError.tree_integrity "UpdatePath node count mismatch: expected {}, got {}");
  do! slift (validate_path_hashes (GroupUpdatePath.nodes update_path));
  do my_direct_path <- slift (direct_path my_leaf_idx n);
  do (ancestor_level, path_secret) <-
    slift (open_path_secret tree update_path committer_direct_path committer_copath my_node my_direct_path);
  let level := Z.to_nat ancestor_level in
  do (ancestor_node_idx, dp_above) <-
    match skipn level committer_direct_path with
    | a :: dp => sret (a, dp)
    | [] => sfail (ProtocolError.tree_integrity "direct path index out of range")
    end;
  do (path_node, nodes_above) <-
    match skipn level (GroupUpdatePath.nodes update_path) with
    | a :: ns => sret (a, ns)
    | [] => sfail (ProtocolError.tree_integrity "UpdatePath too short for common ancestor")
    end;
  do! install_level my_direct_path ancestor_node_idx path_node path_secret
        "X25519 public key mismatch at ancestor path level {ancestor_level}"
        "Kyber public key mismatch at ancestor path level {ancestor_level}";
  do current_secret <- climb_path my_direct_path (ancestor_level + 1) dp_above nodes_above path_secret;
  do! install_public (firstn level committer_direct_path) (firstn level (GroupUpdatePath.nodes update_path));
  do committer_node <- slift (checked_leaf_to_node committer_leaf_idx);
  do! set_node_public_keys committer_node (GroupUpdatePath.leaf_x25519_public update_path)
        (GroupUpdatePath.leaf_kyber_public update_path);
  do! install_parent_hashes committer_direct_path (GroupUpdatePath.nodes update_path);
  do! sgets (fun s => verify_parent_hash_chain s committer_leaf_idx);
  sret current_secret.

End TreeKem.
