(* ===== verification/Commit.v ===== *)
(** * Policies, proposals and commits of a group

    The security policy of a group with its named tiers and its encoding
    ([src/protocol/group/mod.rs]); the checks of proposals and their effect on
    the tree ([src/protocol/group/membership.rs]); creating and processing a
    commit ([src/protocol/group/commit.rs]). *)

From Stdlib Require Import ZArith List Bool Lia String.
From S2P Require Import Prelude Constants SeenSet SecureMemory Crypto Signatures DhValidator Proto TreeIndex GroupProto.
From S2P Require Import KeySchedule SenderKeys KeyPackage RatchetTree TreeKem.
Import ListNotations.
Open Scope string_scope.
Open Scope list_scope.
Open Scope Z_scope.

(** [trait PskResolver] *)
Abbreviation PskResolver := (bytes -> option bytes).

Inductive GroupSecurityTier : Type := Custom | Standard | ShieldV1.

Module GroupSecurityPolicy.

Record t : Type := mk {
  max_messages_per_epoch : Z;
  max_skipped_keys_per_sender : Z;
  block_external_join : bool;
  enhanced_key_schedule : bool;
  mandatory_franking : bool }.

Definition shield : t := mk SHIELD_MAX_MESSAGES_PER_EPOCH SHIELD_MAX_SKIPPED_KEYS_PER_SENDER true true true.

Definition standard : t := mk SHIELD_MAX_MESSAGES_PER_EPOCH STANDARD_MAX_SKIPPED_KEYS_PER_SENDER true true true.

Definition security_tier (p : t) : GroupSecurityTier :=
  if (max_messages_per_epoch p =? SHIELD_MAX_MESSAGES_PER_EPOCH) &&
     (max_skipped_keys_per_sender p =? SHIELD_MAX_SKIPPED_KEYS_PER_SENDER) &&
     enhanced_key_schedule p && mandatory_franking p && block_external_join p
  then ShieldV1
  else if (max_messages_per_epoch p =? SHIELD_MAX_MESSAGES_PER_EPOCH) &&
          (max_skipped_keys_per_sender p =? STANDARD_MAX_SKIPPED_KEYS_PER_SENDER) &&
          enhanced_key_schedule p && mandatory_franking p && block_external_join p
  then Standard
  else Custom.

Definition is_shielded (p : t) : bool := match security_tier p with ShieldV1 => true | _ => false end.

Definition to_proto (p : t) : GroupSecurityPolicyProto.t :=
  GroupSecurityPolicyProto.mk (max_messages_per_epoch p) (max_skipped_keys_per_sender p) (block_external_join p)
    (enhanced_key_schedule p) (mandatory_franking p).

Definition policy_bytes `{Prost GroupSecurityPolicyProto.t} (p : t) : bytes := encode (to_proto p).

Definition from_proto_bytes `{Prost GroupSecurityPolicyProto.t} (b : bytes) : PResult t :=
  check? negb (len b =? 0) else ProtocolError.invalid_input "Missing group security policy bytes" in
  let? proto := ok_or (decode b) (ProtocolError.decode "GroupSecurityPolicy decode: {e}") in
  Ok (mk (GroupSecurityPolicyProto.max_messages_per_epoch proto)
         (GroupSecurityPolicyProto.max_skipped_keys_per_sender proto)
         (GroupSecurityPolicyProto.block_external_join proto)
         (GroupSecurityPolicyProto.enhanced_key_schedule proto)
         (GroupSecurityPolicyProto.mandatory_franking proto)).

Definition effective_max_messages_per_epoch (p : t) : Z :=
  if max_messages_per_epoch p =? 0 then MAX_SENDER_KEY_GENERATION else max_messages_per_epoch p.

Definition effective_max_skipped_per_sender (p : t) : Z :=
  if max_skipped_keys_per_sender p =? 0 then MAX_SKIPPED_SENDER_KEYS_PER_SENDER else max_skipped_keys_per_sender p.

Definition validate (p : t) : PResult unit :=
  check? enhanced_key_schedule p else ProtocolError.invalid_input "enhanced_key_schedule must be enabled" in
  let max_msg := effective_max_messages_per_epoch p in
  check? SHIELD_MIN_MESSAGES_PER_EPOCH <=? max_msg
    else ProtocolError.invalid_input
           "max_messages_per_epoch too low: {max_msg} (minimum {SHIELD_MIN_MESSAGES_PER_EPOCH})" in
  check? max_msg <=? MAX_SENDER_KEY_GENERATION
    else ProtocolError.invalid_input
           "max_messages_per_epoch too high: {max_msg} (maximum {MAX_SENDER_KEY_GENERATION})" in
  let max_skip := effective_max_skipped_per_sender p in
  check? SHIELD_MIN_SKIPPED_PER_SENDER <=? max_skip
    else ProtocolError.invalid_input
           "max_skipped_keys_per_sender too low: {max_skip} (minimum {SHIELD_MIN_SKIPPED_PER_SENDER})" in
  check? max_skip <=? MAX_SKIPPED_SENDER_KEYS_PER_SENDER
    else ProtocolError.invalid_input
           "max_skipped_keys_per_sender too high: {max_skip} (maximum {MAX_SKIPPED_SENDER_KEYS_PER_SENDER})" in
  Ok tt.

End GroupSecurityPolicy.
Abbreviation GroupSecurityPolicy := GroupSecurityPolicy.t.

(** * Proposals ([src/protocol/group/membership.rs])

    The checks of the proposals of a commit and their application to the tree. *)

Section Membership.
Context {P : Primitives} {SG : Signatures}.

(** The sets the shape check fills: removed leaves, added identity keys, and the
    number of [ReInit] proposals. *)
Record Shapes : Type := mkShapes {
  sh_removed_leaves : list Z;
  sh_added_identity_keys : list bytes;
  sh_reinit_count : Z }.

Definition missing_key_package : ProtocolError.t :=
  ProtocolError.group_membership "Add proposal missing key package".

Definition check_shape (acc : Shapes) (proposal : GroupProposal.t) : PResult Shapes :=
  match GroupProposal.proposal proposal with
  | Some (GroupProposal.Add add) =>
      let? kp := ok_or (GroupAddProposal.key_package add) missing_key_package in
      let? _ := validate_key_package kp in
      let id := GroupKeyPackage.identity_ed25519_public kp in
      check? negb (bset_contains (sh_added_identity_keys acc) id)
        else ProtocolError.group_membership "Duplicate Add proposal: same identity key added twice" in
      Ok (mkShapes (sh_removed_leaves acc) (bset_insert (sh_added_identity_keys acc) id) (sh_reinit_count acc))
  | Some (GroupProposal.Remove remove) =>
      let leaf := GroupRemoveProposal.removed_leaf_index remove in
      check? negb (existsb (Z.eqb leaf) (sh_removed_leaves acc))
        else ProtocolError.group_membership "Duplicate Remove proposal for leaf {}" in
      Ok (mkShapes (leaf :: sh_removed_leaves acc) (sh_added_identity_keys acc) (sh_reinit_count acc))
  | Some (GroupProposal.Update update) =>
      let? _ := map_err (fun _ => ProtocolError.group_membership "Update proposal has invalid X25519 leaf key: {error}")
                  (DhValidator.validate_x25519_public_key (GroupUpdateProposal.leaf_x25519_public update)) in
      let? _ := crypto_err (kyber_validate_public_key (GroupUpdateProposal.leaf_kyber_public update)) in
      Ok acc
  | Some (GroupProposal.ExternalInit ext) =>
      let? _ := map_err (fun _ => ProtocolError.group_membership "ExternalInit has invalid ephemeral X25519 key: {error}")
                  (DhValidator.validate_x25519_public_key (GroupExternalInitProposal.ephemeral_x25519_public ext)) in
      let? _ := crypto_err (kyber_validate_ciphertext (GroupExternalInitProposal.kyber_ciphertext ext)) in
      check? negb (len (GroupExternalInitProposal.authorization ext) =? 0)
        else ProtocolError.group_membership "ExternalInit authorization is required" in
      Ok acc
  | Some (GroupProposal.Psk psk) =>
      check? negb (len (GroupPskProposal.psk_id psk) =? 0)
        else ProtocolError.group_membership "PSK proposal: empty psk_id" in
      check? len (GroupPskProposal.psk_nonce psk) =? PSK_BYTES
        else ProtocolError.group_membership "PSK proposal: psk_nonce must be {} bytes, got {}" in
      Ok acc
  | Some (GroupProposal.ReInit reinit) =>
      check? len (GroupReInitProposal.new_group_id reinit) =? GROUP_ID_BYTES
        else ProtocolError.group_membership "ReInit: new_group_id must be {} bytes, got {}" in
      Ok (mkShapes (sh_removed_leaves acc) (sh_added_identity_keys acc) (sh_reinit_count acc + 1))
  | None => Err (ProtocolError.group_membership "Empty proposal")
  end.

Definition validate_proposal_shapes (proposals : list GroupProposal.t) : PResult unit :=
  check? len proposals <=? MAX_PROPOSALS_PER_COMMIT
    else ProtocolError.group_membership "Too many proposals: {} (max {})" in
  let? shapes := foldR check_shape proposals (mkShapes [] [] 0) in
  check? sh_reinit_count shapes <=? 1
    else ProtocolError.group_membership "ReInit proposal must appear at most once" in
  check? negb ((sh_reinit_count shapes =? 1) && negb (len proposals =? 1))
    else ProtocolError.group_membership "ReInit commit must not contain other proposal types" in
  Ok tt.

(** [populated_leaf_indices().any(|i| get_leaf_data(i).identity == id)] *)
Definition identity_present (tree : RatchetTree) (id : bytes) : bool :=
  existsb (fun i => match get_leaf_data tree i with
                    | Some ld => bytes_eqb (LeafData.identity_ed25519_public ld) id
                    | None => false
                    end) (populated_leaf_indices tree).

Definition check_against_tree (tree : RatchetTree) (committer_leaf_idx : Z) (proposal : GroupProposal.t) : PResult unit :=
  match GroupProposal.proposal proposal with
  | Some (GroupProposal.Add add) =>
      let? kp := ok_or (GroupAddProposal.key_package add) missing_key_package in
      check? negb (identity_present tree (GroupKeyPackage.identity_ed25519_public kp))
        else ProtocolError.group_membership "Add proposal: identity key already exists in group tree" in
      Ok tt
  | Some (GroupProposal.Remove remove) =>
      let leaf_idx := GroupRemoveProposal.removed_leaf_index remove in
      check? leaf_idx <? RatchetTree.leaf_count tree
        else ProtocolError.group_membership "Remove: leaf index {leaf_idx} out of range" in
      check? is_some (get_leaf_data tree leaf_idx)
        else ProtocolError.group_membership "Remove: leaf {leaf_idx} is already blank" in
      check? negb (leaf_idx =? committer_leaf_idx)
        else ProtocolError.group_membership "Cannot remove the committer" in
      Ok tt
  | _ => Ok tt
  end.

Definition validate_proposals (tree : RatchetTree) (proposals : list GroupProposal.t) (committer_leaf_idx : Z) :
    PResult unit :=
  let? _ := validate_proposal_shapes proposals in
  foldR (fun _ p => check_against_tree tree committer_leaf_idx p) proposals tt.

Definition apply_add (add : GroupAddProposal.t) : TreeM Z :=
  do kp <- slift (ok_or (GroupAddProposal.key_package add) missing_key_package);
  add_leaf (GroupKeyPackage.leaf_x25519_public kp) (GroupKeyPackage.leaf_kyber_public kp) (leaf_data_of kp).

Definition apply_remove (remove : GroupRemoveProposal.t) : TreeM unit :=
  blank_leaf (GroupRemoveProposal.removed_leaf_index remove).

(** The loop over the [Remove] proposals and the loop over the [Add] proposals;
    the loop over the [Update] proposals has an empty body. *)
Fixpoint apply_removes (proposals : list GroupProposal.t) : TreeM unit :=
  match proposals with
  | [] => sret tt
  | p :: rest =>
      match GroupProposal.proposal p with
      | Some (GroupProposal.Remove remove) => do! apply_remove remove; apply_removes rest
      | _ => apply_removes rest
      end
  end.

Fixpoint apply_adds (proposals : list GroupProposal.t) : TreeM (list Z) :=
  match proposals with
  | [] => sret []
  | p :: rest =>
      match GroupProposal.proposal p with
      | Some (GroupProposal.Add add) =>
          do leaf_idx <- apply_add add;
          do more <- apply_adds rest;
          sret (leaf_idx :: more)
      | _ => apply_adds rest
      end
  end.

Definition apply_proposals (proposals : list GroupProposal.t) : TreeM (list Z) :=
  do! apply_removes proposals;
  apply_adds proposals.

End Membership.

(** * Commits ([src/protocol/group/commit.rs])

    Creating and processing a commit: proposals, update path, key schedule and
    confirmation.  Both work on the ratchet tree in place, as in the source; the
    randomness of the update path is an argument. *)

Record CommitOutput : Type := mkCommitOutput {
  co_commit : GroupCommit.t;
  co_epoch_keys : EpochKeys;
  co_new_sender_store : SenderKeyStore;
  co_added_leaf_indices : list Z;
  co_group_context_hash : bytes;
  co_joiner_secret : bytes }.

Record ProcessedCommit : Type := mkProcessedCommit {
  pc_epoch_keys : EpochKeys;
  pc_new_sender_store : SenderKeyStore;
  pc_added_leaf_indices : list Z;
  pc_group_context_hash : bytes }.

Section Commit.
Context {P : Primitives} {SG : Signatures}.
Context {CC : Prost GroupCommit.t} {CP : Prost GroupSecurityPolicyProto.t} {CE : Prost GroupExternalJoinAuthorization.t}.

(** ** Signatures *)

Definition ed25519_sign_commit (secret_key message : bytes) : PResult bytes :=
  check? len secret_key =? ED25519_SECRET_KEY_BYTES
    else ProtocolError.invalid_input "Invalid Ed25519 secret key size for commit signing" in
  check? ed25519_keypair_ok secret_key
    else ProtocolError.key_generation "Invalid Ed25519 keypair bytes" in
  Ok (ed25519_sign secret_key message).

Definition ed25519_verify_message (public_key signature message : bytes) (context : string) : PResult unit :=
  check? len public_key =? ED25519_PUBLIC_KEY_BYTES
    else ProtocolError.invalid_input "Invalid committer Ed25519 public key size" in
  check? len signature =? ED25519_SIGNATURE_BYTES
    else ProtocolError.invalid_input "Invalid committer signature size" in
  check? ed25519_public_ok public_key
    else ProtocolError.group_protocol "Invalid committer Ed25519 public key" in
  check? ed25519_verify_strict public_key message signature
    else ProtocolError.group_protocol context in
  Ok tt.

Definition ed25519_verify_commit (public_key signature message : bytes) : PResult unit :=
  ed25519_verify_message public_key signature message "Committer Ed25519 signature verification failed".

Definition validate_leaf_update_signature (committer_leaf : LeafData.t) (update_path : GroupUpdatePath.t) : PResult unit :=
  validate_key_package
    (GroupKeyPackage.mk GROUP_PROTOCOL_VERSION (LeafData.identity_ed25519_public committer_leaf)
       (LeafData.identity_x25519_public committer_leaf) (GroupUpdatePath.leaf_x25519_public update_path)
       (GroupUpdatePath.leaf_kyber_public update_path) (GroupUpdatePath.leaf_signature update_path)
       (LeafData.credential committer_leaf) None (LeafData.identity_kyber_public committer_leaf)).

(** ** Pre-shared keys *)

Definition psk_step (psk_resolver : option PskResolver) (acc : EpochKeys * bool) (proposal : GroupProposal.t) :
    PResult (EpochKeys * bool) :=
  match GroupProposal.proposal proposal with
  | Some (GroupProposal.Psk psk) =>
      let? resolver := ok_or psk_resolver
        (ProtocolError.group_protocol "PSK proposal present but no PSK resolver configured") in
      let? psk_value := ok_or (resolver (GroupPskProposal.psk_id psk))
        (ProtocolError.group_protocol "No PSK found for id {:?}") in
      let? secret := inject_psk (EpochKeys.epoch_secret (fst acc)) psk_value (GroupPskProposal.psk_nonce psk) in
      Ok (EpochKeys.mk secret (EpochKeys.metadata_key (fst acc)) (EpochKeys.welcome_key (fst acc))
            (EpochKeys.confirmation_key (fst acc)) (EpochKeys.init_secret (fst acc)), true)
  | _ => Ok acc
  end.

Definition apply_psk_proposals (epoch_keys : EpochKeys) (proposals : list GroupProposal.t)
    (psk_resolver : option PskResolver) (enhanced_key_schedule : bool) : PResult EpochKeys :=
  let? (epoch_keys, has_psk) := foldR (psk_step psk_resolver) proposals (epoch_keys, false) in
  if has_psk then derive_sub_keys_from_epoch_secret_ex (EpochKeys.epoch_secret epoch_keys) enhanced_key_schedule
  else Ok epoch_keys.

(** ** External joins *)

Definition is_external_init (p : GroupProposal.t) : bool :=
  match GroupProposal.proposal p with Some (GroupProposal.ExternalInit _) => true | _ => false end.

Fixpoint find_external_init (proposals : list GroupProposal.t) : option GroupExternalInitProposal.t :=
  match proposals with
  | [] => None
  | p :: rest =>
      match GroupProposal.proposal p with
      | Some (GroupProposal.ExternalInit ei) => Some ei
      | _ => find_external_init rest
      end
  end.

(** The first [Add] proposal with a key package. *)
Fixpoint find_added_key_package (proposals : list GroupProposal.t) : option GroupKeyPackage.t :=
  match proposals with
  | [] => None
  | p :: rest =>
      match GroupProposal.proposal p with
      | Some (GroupProposal.Add add) =>
          match GroupAddProposal.key_package add with
          | Some kp => Some kp
          | None => find_added_key_package rest
          end
      | _ => find_added_key_package rest
      end
  end.

Definition find_and_process_external_init (proposals : list GroupProposal.t) (prev_init_secret : bytes) :
    PResult (option bytes) :=
  match find_external_init proposals with
  | None => Ok None
  | Some ext =>
      let eph := GroupExternalInitProposal.ephemeral_x25519_public ext in
      let ct := GroupExternalInitProposal.kyber_ciphertext ext in
      check? len eph =? X25519_PUBLIC_KEY_BYTES
        else ProtocolError.group_protocol "ExternalInit ephemeral_x25519_public must be {} bytes, got {}" in
      let? _ := map_err (fun _ => ProtocolError.group_protocol "ExternalInit ephemeral X25519 key rejected: {e}")
                  (DhValidator.validate_x25519_public_key eph) in
      check? len ct =? KYBER_CIPHERTEXT_BYTES
        else ProtocolError.group_protocol "ExternalInit kyber_ciphertext must be {} bytes, got {}" in
      let? (ext_x25519_priv, _, ext_kyber_sec, _) := derive_external_keypairs prev_init_secret in
      let? sk := crypto_err (SecureMemoryHandle.read_bytes ext_x25519_priv X25519_PRIVATE_KEY_BYTES) in
      check? len sk =? X25519_PRIVATE_KEY_BYTES else ProtocolError.group_protocol "Invalid X25519 private key size" in
      let dh_shared := x25519_dh sk eph in
      check? negb (is_all_zero dh_shared)
        else ProtocolError.group_protocol
               "ExternalInit X25519 DH produced all-zero output (RFC 7748 section 6.1)" in
      let? kyber_ss_handle := crypto_err (kyber_decapsulate ct ext_kyber_sec) in
      let? kyber_ss := crypto_err (SecureMemoryHandle.read_bytes kyber_ss_handle KYBER_SHARED_SECRET_BYTES) in
      let kem_output := extract dh_shared kyber_ss in
      let? init_secret_proxy := expand kem_output GROUP_EXTERNAL_INIT_SECRET_INFO INIT_SECRET_BYTES in
      Ok (Some init_secret_proxy)
  end.

Definition external_join_must_not (what : string) : ProtocolError.t :=
  ProtocolError.group_protocol ("External join commit must not contain " ++ what ++ " proposals")%string.

(** One proposal of an external join; the numbers of [ExternalInit] and [Add]
    proposals are counted. *)
Definition count_external (acc : Z * Z) (p : GroupProposal.t) : PResult (Z * Z) :=
  match GroupProposal.proposal p with
  | Some (GroupProposal.ExternalInit _) => Ok (fst acc + 1, snd acc)
  | Some (GroupProposal.Add _) => Ok (fst acc, snd acc + 1)
  | Some (GroupProposal.Remove _) => Err (external_join_must_not "Remove")
  | Some (GroupProposal.Update _) => Err (external_join_must_not "Update")
  | Some (GroupProposal.Psk _) => Err (external_join_must_not "PSK")
  | Some (GroupProposal.ReInit _) => Err (external_join_must_not "ReInit")
  | None => Err (external_join_must_not "empty")
  end.

Definition validate_external_join_structure (proposals : list GroupProposal.t) : PResult unit :=
  let? (ext_init_count, add_count) := foldR count_external proposals (0, 0) in
  check? ext_init_count =? 1
    else ProtocolError.group_protocol "External join commit must contain exactly 1 ExternalInit, got {ext_init_count}" in
  check? add_count =? 1
    else ProtocolError.group_protocol "External join commit must contain exactly 1 Add proposal, got {add_count}" in
  Ok tt.

Definition validate_external_join_auth_format_version (auth_format_version : Z) : PResult unit :=
  check? auth_format_version =? GROUP_EXTERNAL_JOIN_AUTH_FORMAT_VERSION
    else ProtocolError.group_protocol
           "Unsupported external join authorization format version: expected {GROUP_EXTERNAL_JOIN_AUTH_FORMAT_VERSION}, got {auth_format_version}" in
  Ok tt.

Definition missing_added_package : ProtocolError.t :=
  ProtocolError.group_protocol "External join commit missing Add proposal with KeyPackage".

Definition validate_external_join_authorization (tree : RatchetTree) (group_id : bytes) (current_epoch : Z)
    (prev_init_secret : bytes) (policy : GroupSecurityPolicy) (proposals : list GroupProposal.t) : PResult unit :=
  let? external_init := ok_or (find_external_init proposals)
    (ProtocolError.group_protocol "External join commit missing ExternalInit proposal") in
  let? add_key_package := ok_or (find_added_key_package proposals) missing_added_package in
  check? negb (len (GroupExternalInitProposal.authorization external_init) =? 0)
    else ProtocolError.group_protocol "External join authorization is required" in
  let? auth := ok_or (decode (GroupExternalInitProposal.authorization external_init))
    (ProtocolError.decode "External join auth decode: {e}") in
  let? _ := validate_external_join_auth_format_version (GroupExternalJoinAuthorization.auth_format_version auth) in
  check? bytes_eqb (GroupExternalJoinAuthorization.group_id auth) group_id
    else ProtocolError.group_protocol "External join authorization group_id mismatch" in
  check? GroupExternalJoinAuthorization.epoch auth =? current_epoch
    else ProtocolError.group_protocol "External join authorization epoch mismatch: expected {current_epoch}, got {}" in
  let? tree_hash := tree_hash tree in
  let current_group_context_hash :=
    compute_group_context_hash group_id current_epoch tree_hash (GroupSecurityPolicy.policy_bytes policy) in
  check? bytes_eqb (GroupExternalJoinAuthorization.group_context_hash auth) current_group_context_hash
    else ProtocolError.group_protocol "External join authorization group_context_hash mismatch" in
  let? (_, current_external_x25519_public, _, current_external_kyber_public) :=
    derive_external_keypairs prev_init_secret in
  check? bytes_eqb (GroupExternalJoinAuthorization.external_x25519_public auth) current_external_x25519_public &&
         bytes_eqb (GroupExternalJoinAuthorization.external_kyber_public auth) current_external_kyber_public
    else ProtocolError.group_protocol "External join authorization external init key mismatch" in
  check? bytes_eqb (GroupExternalJoinAuthorization.joiner_identity_ed25519_public auth)
           (GroupKeyPackage.identity_ed25519_public add_key_package) &&
         bytes_eqb (GroupExternalJoinAuthorization.joiner_identity_x25519_public auth)
           (GroupKeyPackage.identity_x25519_public add_key_package) &&
         bytes_eqb (GroupExternalJoinAuthorization.joiner_credential auth)
           (GroupKeyPackage.credential add_key_package)
    else ProtocolError.group_protocol "External join authorization does not match Add proposal identity" in
  let? authorizer_leaf :=
    ok_or (get_leaf_data tree (GroupExternalJoinAuthorization.authorizer_leaf_index auth))
      (ProtocolError.group_protocol "External join authorizer leaf is blank") in
  let auth_bytes := encode (GroupExternalJoinAuthorization.set_authorizer_signature [] auth) in
  ed25519_verify_message (LeafData.identity_ed25519_public authorizer_leaf)
    (GroupExternalJoinAuthorization.authorizer_signature auth) auth_bytes
    "External join authorization signature verification failed".

(** ** Creating a commit *)

(** The new keys of the path go into the committer's own tree: public keys, then
    parent hashes, then private keys. *)
Fixpoint install_private (privs : list NodeSecrets) : TreeM unit :=
  match privs with
  | [] => sret tt
  | (node_idx, x25519_priv, kyber_sec) :: rest =>
      do! set_node_private_keys node_idx x25519_priv kyber_sec;
      install_private rest
  end.

(** [if !update_path.nodes[i].parent_hash.is_empty() { .. }] *)
Fixpoint install_own_parent_hashes (direct_path : list Z) (nodes : list GroupUpdatePathNode.t) : TreeM unit :=
  match direct_path, nodes with
  | node_idx :: dp, node :: nodes =>
      do! (if len (GroupUpdatePathNode.parent_hash node) =? 0 then sret tt
           else set_node_parent_hash node_idx (GroupUpdatePathNode.parent_hash node));
      install_own_parent_hashes dp nodes
  | _, _ => sret tt
  end.

(** The update path of the commit, signed and installed in the tree. *)
Definition make_update_path (my_leaf_idx : Z) (ed25519_secret : bytes) (e : PathEntropy) :
    TreeM (GroupUpdatePath.t * bytes) :=
  do (update_path, commit_secret, new_private_keys) <- sgets (fun t => create_update_path t my_leaf_idx e);
  do my_leaf <- sgets (fun t => ok_or (get_leaf_data t my_leaf_idx)
    (ProtocolError.group_protocol "Committer leaf {my_leaf_idx} is blank before update path signing"));
  do leaf_signature <- slift (sign_existing_key_package ed25519_secret (LeafData.identity_ed25519_public my_leaf)
    (LeafData.identity_x25519_public my_leaf) (LeafData.identity_kyber_public my_leaf)
    (GroupUpdatePath.leaf_x25519_public update_path) (GroupUpdatePath.leaf_kyber_public update_path)
    (LeafData.credential my_leaf));
  let update_path := GroupUpdatePath.set_leaf_signature leaf_signature update_path in
  do leaf_node <- slift (checked_leaf_to_node my_leaf_idx);
  do! set_node_public_keys leaf_node (GroupUpdatePath.leaf_x25519_public update_path)
        (GroupUpdatePath.leaf_kyber_public update_path);
  do! set_leaf_signature my_leaf_idx leaf_signature;
  do dp <- sgets (fun t => direct_path my_leaf_idx (RatchetTree.leaf_count t));
  do! install_public dp (GroupUpdatePath.nodes update_path);
  do! install_own_parent_hashes dp (GroupUpdatePath.nodes update_path);
  do! install_private new_private_keys;
  sret (update_path, commit_secret).

Definition epoch_overflow : ProtocolError.t := ProtocolError.group_protocol "Epoch counter overflow".

Definition sender_store_of (tree : RatchetTree) (epoch_keys : EpochKeys) (group_context_hash : bytes)
    (policy : GroupSecurityPolicy) : PResult SenderKeyStore :=
  new_epoch_with_policy (EpochKeys.epoch_secret epoch_keys) (populated_leaf_indices tree) group_context_hash
    (GroupSecurityPolicy.enhanced_key_schedule policy) (GroupSecurityPolicy.effective_max_messages_per_epoch policy)
    (GroupSecurityPolicy.effective_max_skipped_per_sender policy).

Definition create_commit (proposals : list GroupProposal.t) (my_leaf_idx : Z) (prev_init_secret group_id : bytes)
    (epoch : Z) (ed25519_secret : bytes) (psk_resolver : option PskResolver) (policy : GroupSecurityPolicy)
    (e : PathEntropy) : TreeM CommitOutput :=
  do! sgets (fun t => validate_proposals t proposals my_leaf_idx);
  do added_leaf_indices <- apply_proposals proposals;
  do (update_path, commit_secret) <- make_update_path my_leaf_idx ed25519_secret e;
  do tree_hash <- sgets tree_hash;
  do new_epoch <- slift (ok_or (checked_add 64 epoch 1) epoch_overflow);
  let group_context_hash :=
    compute_group_context_hash group_id new_epoch tree_hash (GroupSecurityPolicy.policy_bytes policy) in
  let joiner_secret := derive_joiner_secret prev_init_secret commit_secret in
  let enhanced := GroupSecurityPolicy.enhanced_key_schedule policy in
  do epoch_keys <- slift (derive_epoch_keys prev_init_secret commit_secret group_context_hash enhanced);
  do epoch_keys <- slift (apply_psk_proposals epoch_keys proposals psk_resolver enhanced);
  do confirmation_mac <- slift (compute_confirmation_mac (EpochKeys.confirmation_key epoch_keys) group_context_hash);
  do new_sender_store <- sgets (fun t => sender_store_of t epoch_keys group_context_hash policy);
  let commit := GroupCommit.mk my_leaf_idx proposals (Some update_path) confirmation_mac new_epoch group_id [] in
  do signature <- slift (ed25519_sign_commit ed25519_secret (encode commit));
  sret (mkCommitOutput (GroupCommit.set_committer_signature signature commit) epoch_keys new_sender_store
          added_leaf_indices group_context_hash joiner_secret).

(** ** Processing a commit *)

(** The committer's verification key: its leaf, or the added key package of an
    external join. *)
Definition committer_key (tree : RatchetTree) (commit : GroupCommit.t) (is_external_join : bool) : PResult bytes :=
  if is_external_join then
    let? kp := ok_or (find_added_key_package (GroupCommit.proposals commit)) missing_added_package in
    Ok (GroupKeyPackage.identity_ed25519_public kp)
  else
    let? committer_leaf := ok_or (get_leaf_data tree (GroupCommit.committer_leaf_index commit))
      (ProtocolError.group_protocol "Committer leaf {} is blank — cannot verify signature") in
    Ok (LeafData.identity_ed25519_public committer_leaf).

(** The checks before the tree is touched: epoch, group, external join, and the
    committer's signature. *)
Definition check_commit (tree : RatchetTree) (commit : GroupCommit.t) (prev_init_secret group_id : bytes)
    (current_epoch : Z) (policy : GroupSecurityPolicy) : PResult unit :=
  let? expected_epoch := ok_or (checked_add 64 current_epoch 1) epoch_overflow in
  check? GroupCommit.epoch commit =? expected_epoch
    else ProtocolError.group_protocol "Commit epoch mismatch: expected {}, got {}" in
  check? bytes_eqb (GroupCommit.group_id commit) group_id
    else ProtocolError.group_protocol "Commit group_id does not match current group" in
  let is_external_join := existsb is_external_init (GroupCommit.proposals commit) in
  let? _ :=
    if is_external_join then
      check? negb (GroupSecurityPolicy.block_external_join policy)
        else ProtocolError.group_protocol "External join blocked by group security policy" in
      let? _ := validate_external_join_structure (GroupCommit.proposals commit) in
      validate_external_join_authorization tree group_id current_epoch prev_init_secret policy
        (GroupCommit.proposals commit)
    else Ok tt in
  check? is_external_join || (GroupCommit.committer_leaf_index commit <? RatchetTree.leaf_count tree)
    else ProtocolError.group_protocol "Committer leaf index {} out of range (tree has {} leaves)" in
  let? committer_ed25519 := committer_key tree commit is_external_join in
  ed25519_verify_commit committer_ed25519 (GroupCommit.committer_signature commit)
    (encode (GroupCommit.set_committer_signature [] commit)).

(** The checks between the proposals and the update path. *)
Definition check_committer (tree : RatchetTree) (commit : GroupCommit.t) (added_leaf_indices : list Z) :
    PResult (GroupUpdatePath.t) :=
  let idx := GroupCommit.committer_leaf_index commit in
  check? negb (existsb is_external_init (GroupCommit.proposals commit)) || existsb (Z.eqb idx) added_leaf_indices
    else ProtocolError.group_protocol "External join committer_leaf_index {} does not match the added leaf" in
  check? idx <? RatchetTree.leaf_count tree
    else ProtocolError.group_protocol
           "Committer leaf index {} out of range after proposal application (tree has {})" in
  check? is_some (get_leaf_data tree idx)
    else ProtocolError.group_protocol "Committer leaf {} is blank after proposal application" in
  let? update_path := ok_or (GroupCommit.update_path commit)
    (ProtocolError.group_protocol "Commit missing update_path") in
  let? committer_leaf_data := ok_or (get_leaf_data tree idx)
    (ProtocolError.group_protocol "Committer leaf metadata missing") in
  let? _ := validate_leaf_update_signature committer_leaf_data update_path in
  Ok update_path.

Definition process_commit (commit : GroupCommit.t) (my_leaf_idx : Z) (prev_init_secret group_id : bytes)
    (current_epoch : Z) (psk_resolver : option PskResolver) (policy : GroupSecurityPolicy) : TreeM ProcessedCommit :=
  do! sgets (fun t => check_commit t commit prev_init_secret group_id current_epoch policy);
  do effective_init_secret <- slift (find_and_process_external_init (GroupCommit.proposals commit) prev_init_secret);
  let init_secret_for_epoch := match effective_init_secret with Some s => s | None => prev_init_secret end in
  do! sgets (fun t => validate_proposals t (GroupCommit.proposals commit) (GroupCommit.committer_leaf_index commit));
  do added_leaf_indices <- apply_proposals (GroupCommit.proposals commit);
  do update_path <- sgets (fun t => check_committer t commit added_leaf_indices);
  do commit_secret <- process_update_path update_path (GroupCommit.committer_leaf_index commit) my_leaf_idx;
  do! set_leaf_signature (GroupCommit.committer_leaf_index commit) (GroupUpdatePath.leaf_signature update_path);
  do tree_hash <- sgets tree_hash;
  let group_context_hash := compute_group_context_hash group_id (GroupCommit.epoch commit) tree_hash
    (GroupSecurityPolicy.policy_bytes policy) in
  let enhanced := GroupSecurityPolicy.enhanced_key_schedule policy in
  do epoch_keys <- slift (derive_epoch_keys init_secret_for_epoch commit_secret group_context_hash enhanced);
  do epoch_keys <- slift (apply_psk_proposals epoch_keys (GroupCommit.proposals commit) psk_resolver enhanced);
  do expected_mac <- slift (compute_confirmation_mac (EpochKeys.confirmation_key epoch_keys) group_context_hash);
  do mac_ok <- slift (crypto_err (constant_time_equals expected_mac (GroupCommit.confirmation_mac commit)));
  do! sguard mac_ok (ProtocolError.group_protocol "Confirmation MAC verification failed");
  do new_sender_store <- sgets (fun t => sender_store_of t epoch_keys group_context_hash policy);
  sret (mkProcessedCommit epoch_keys new_sender_store added_leaf_indices group_context_hash).

End Commit.
