(* ===== verification/Welcome.v ===== *)
(** * Welcomes ([src/protocol/group/welcome.rs])

    What a committer sends to a new member, and how the new member builds its
    view of the group from it. *)

From Stdlib Require Import ZArith List Bool Lia String.
From S2P Require Import Prelude Constants SecureMemory Crypto Signatures TreeIndex.
From S2P Require Import Proto GroupProto KeySchedule SenderKeys KeyPackage RatchetTree TreeKem Commit.
Import ListNotations.
Open Scope string_scope.
Open Scope list_scope.
Open Scope Z_scope.

Definition WELCOME_PROVENANCE_SIGNATURE_INFO : bytes := bstr "Aura-Group-WelcomeProvenance-v1".

Record WelcomeResult : Type := mkWelcomeResult {
  wr_tree : RatchetTree;
  wr_my_leaf_idx : Z;
  wr_epoch : Z;
  wr_group_id : bytes;
  wr_epoch_keys : EpochKeys;
  wr_group_context_hash : bytes;
  wr_sender_store : SenderKeyStore;
  wr_security_policy_bytes : bytes }.

(** [(bytes.len() as u64).to_le_bytes()] followed by the bytes. *)
Definition len_prefixed64 (b : bytes) : bytes := to_le_bytes 8 (len b) ++ b.

Section Welcome.
Context {P : Primitives} {SG : Signatures}.
Context {CI : Prost GroupInfo.t} {CH : Prost GroupHybridCiphertext.t} {CP : Prost GroupSecurityPolicyProto.t}.

Definition welcome_signature_input (welcome : GroupWelcome.t) : bytes :=
  let encrypted_joiner_bytes :=
    match GroupWelcome.encrypted_joiner_secret welcome with Some c => encode c | None => [] end in
  WELCOME_PROVENANCE_SIGNATURE_INFO ++ to_le_bytes 4 (GroupWelcome.version welcome) ++
  to_le_bytes 8 (GroupWelcome.epoch welcome) ++ to_le_bytes 4 (GroupWelcome.target_leaf_index welcome) ++
  to_le_bytes 4 (GroupWelcome.committer_leaf_index welcome) ++
  len_prefixed64 (GroupWelcome.group_id welcome) ++ len_prefixed64 (GroupWelcome.encrypted_group_info welcome) ++
  len_prefixed64 (GroupWelcome.welcome_nonce welcome) ++ len_prefixed64 encrypted_joiner_bytes ++
  len_prefixed64 (GroupWelcome.tree_hash welcome).

Definition ed25519_sign_welcome (secret_key message : bytes) : PResult bytes := kp_ed25519_sign secret_key message.

Definition ed25519_verify_welcome (public_key signature message : bytes) : PResult unit :=
  check? len public_key =? ED25519_PUBLIC_KEY_BYTES
    else ProtocolError.welcome_error "Welcome committer Ed25519 public key has invalid size" in
  check? len signature =? ED25519_SIGNATURE_BYTES
    else ProtocolError.welcome_error "Welcome committer signature has invalid size" in
  check? ed25519_public_ok public_key
    else ProtocolError.welcome_error "Invalid Welcome committer Ed25519 key" in
  check? ed25519_verify_strict public_key message signature
    else ProtocolError.welcome_error "Welcome committer signature verification failed" in
  Ok tt.

(** The key of the group information: an epoch secret for the tree hash, and its
    welcome key. *)
Definition derive_welcome_key (joiner_secret tree_hash : bytes) : PResult bytes :=
  let? temp_epoch_secret := expand joiner_secret (GROUP_EPOCH_SECRET_INFO ++ tree_hash) EPOCH_SECRET_BYTES in
  expand temp_epoch_secret GROUP_WELCOME_KEY_INFO WELCOME_KEY_BYTES.

Definition welcome_aad (group_id : bytes) (epoch : Z) : bytes := group_id ++ to_le_bytes 8 epoch.

Definition create_welcome (tree : RatchetTree) (new_member_leaf_idx : Z) (joiner_secret group_id : bytes) (epoch : Z)
    (confirmation_mac group_context_hash security_policy_bytes : bytes) (committer_leaf_index : Z)
    (committer_ed25519_secret welcome_nonce : bytes) (e : SealEntropy) : PResult GroupWelcome.t :=
  check? negb (committer_leaf_index =? new_member_leaf_idx)
    else ProtocolError.welcome_error "Welcome committer cannot be the new member" in
  check? is_some (get_leaf_data tree committer_leaf_index)
    else ProtocolError.welcome_error "Welcome committer leaf is not present in tree" in
  let? tree_hash := tree_hash tree in
  let? welcome_key := derive_welcome_key joiner_secret tree_hash in
  let? tree_nodes := export_for_welcome tree new_member_leaf_idx in
  let group_info := GroupInfo.mk group_id epoch tree_nodes group_context_hash confirmation_mac security_policy_bytes in
  let group_info_bytes := encode group_info in
  let? encrypted_group_info := aes_encrypt welcome_key welcome_nonce group_info_bytes (welcome_aad group_id epoch) in
  let? new_member_node := checked_leaf_to_node new_member_leaf_idx in
  let? (target_x25519, target_kyber) := ok_or (get_node_public_keys tree new_member_node)
    (ProtocolError.welcome_error "New member leaf is blank") in
  let? encrypted_joiner := encrypt_path_secret joiner_secret target_x25519 target_kyber new_member_leaf_idx e in
  let welcome := GroupWelcome.mk GROUP_PROTOCOL_VERSION group_id epoch encrypted_group_info welcome_nonce
    (Some encrypted_joiner) tree_hash new_member_leaf_idx committer_leaf_index [] in
  let? signature := ed25519_sign_welcome committer_ed25519_secret (welcome_signature_input welcome) in
  Ok (GroupWelcome.set_committer_signature signature welcome).

(** The group information inside a welcome. *)
Definition open_group_info (welcome : GroupWelcome.t) (joiner_secret : bytes) : PResult GroupInfo.t :=
  let? welcome_key := derive_welcome_key joiner_secret (GroupWelcome.tree_hash welcome) in
  let? group_info_bytes := aes_decrypt welcome_key (GroupWelcome.welcome_nonce welcome)
    (GroupWelcome.encrypted_group_info welcome)
    (welcome_aad (GroupWelcome.group_id welcome) (GroupWelcome.epoch welcome)) in
  check? len group_info_bytes <=? MAX_GROUP_MESSAGE_SIZE
    else ProtocolError.welcome_error "Decrypted GroupInfo too large" in
  let? group_info := ok_or (decode group_info_bytes) (ProtocolError.decode "GroupInfo decode: {e}") in
  check? bytes_eqb (GroupInfo.group_id group_info) (GroupWelcome.group_id welcome)
    else ProtocolError.welcome_error "Welcome group_id mismatch between envelope and group_info" in
  Ok group_info.

(** The tree of the new member, with its own private keys, checked against the
    tree hash and the committer's signature. *)
Definition welcome_tree (welcome : GroupWelcome.t) (group_info : GroupInfo.t)
    (my_x25519_private my_kyber_secret : SecureMemoryHandle.t) (my_identity_ed25519 my_identity_x25519 : bytes) :
    PResult (RatchetTree * bytes) :=
  let my_leaf_idx := GroupWelcome.target_leaf_index welcome in
  let? tree := from_proto (GroupInfo.tree_nodes group_info) in
  let? leaf_data := ok_or (get_leaf_data tree my_leaf_idx)
    (ProtocolError.welcome_error "My leaf is blank after Welcome reconstruction") in
  check? bytes_eqb (LeafData.identity_ed25519_public leaf_data) my_identity_ed25519 &&
         bytes_eqb (LeafData.identity_x25519_public leaf_data) my_identity_x25519
    else ProtocolError.welcome_error "Identity mismatch: Welcome leaf does not match joiner identity keys" in
  let? my_node := checked_leaf_to_node my_leaf_idx in
  let '(r, tree) := set_node_private_keys my_node my_x25519_private my_kyber_secret tree in
  let? _ := r in
  let? computed_tree_hash := tree_hash tree in
  let? hash_ok := crypto_err (constant_time_equals computed_tree_hash (GroupWelcome.tree_hash welcome)) in
  check? hash_ok else ProtocolError.welcome_error "Tree hash mismatch" in
  check? negb (GroupWelcome.committer_leaf_index welcome =? my_leaf_idx)
    else ProtocolError.welcome_error "Welcome committer cannot be the target member" in
  let? committer := ok_or (get_leaf_data tree (GroupWelcome.committer_leaf_index welcome))
    (ProtocolError.welcome_error "Welcome committer leaf is not present") in
  let? _ := ed25519_verify_welcome (LeafData.identity_ed25519_public committer)
              (GroupWelcome.committer_signature welcome) (welcome_signature_input welcome) in
  Ok (tree, computed_tree_hash).

Definition process_welcome (welcome : GroupWelcome.t) (my_x25519_private my_kyber_secret : SecureMemoryHandle.t)
    (my_identity_ed25519 my_identity_x25519 : bytes) : PResult WelcomeResult :=
  check? GroupWelcome.version welcome =? GROUP_PROTOCOL_VERSION
    else ProtocolError.welcome_error "Unsupported Welcome version: {}" in
  let? encrypted_joiner := ok_or (GroupWelcome.encrypted_joiner_secret welcome)
    (ProtocolError.welcome_error "Missing encrypted joiner secret") in
  let my_leaf_idx := GroupWelcome.target_leaf_index welcome in
  let? joiner_secret :=
    map_err (fun _ => ProtocolError.welcome_error "Failed to decrypt joiner secret at target leaf {my_leaf_idx}: {e}")
      (decrypt_path_secret encrypted_joiner my_x25519_private my_kyber_secret my_leaf_idx) in
  let? group_info := open_group_info welcome joiner_secret in
  let? (tree, computed_tree_hash) :=
    welcome_tree welcome group_info my_x25519_private my_kyber_secret my_identity_ed25519 my_identity_x25519 in
  let group_context_hash := compute_group_context_hash (GroupWelcome.group_id welcome) (GroupWelcome.epoch welcome)
    computed_tree_hash (GroupInfo.security_policy group_info) in
  let? policy := GroupSecurityPolicy.from_proto_bytes (GroupInfo.security_policy group_info) in
  let? _ := GroupSecurityPolicy.validate policy in
  let? epoch_secret := expand joiner_secret (GROUP_EPOCH_SECRET_INFO ++ group_context_hash) EPOCH_SECRET_BYTES in
  let? epoch_keys :=
    derive_sub_keys_from_epoch_secret_ex epoch_secret (GroupSecurityPolicy.enhanced_key_schedule policy) in
  let? expected_mac := compute_confirmation_mac (EpochKeys.confirmation_key epoch_keys) group_context_hash in
  let? mac_ok := crypto_err (constant_time_equals expected_mac (GroupInfo.confirmation_mac group_info)) in
  check? mac_ok else ProtocolError.welcome_error "Confirmation MAC verification failed" in
  let? sender_store := sender_store_of tree epoch_keys group_context_hash policy in
  Ok (mkWelcomeResult tree my_leaf_idx (GroupWelcome.epoch welcome) (GroupWelcome.group_id welcome) epoch_keys
        group_context_hash sender_store (GroupInfo.security_policy group_info)).

End Welcome.
