(* ===== verification/TreeFacts.v ===== *)
(** * The shape of the ratchet tree

    The invariant of the tree and its preservation by every operation, the
    public view that the members of a group share, and what the functions that
    only read public data make of it.  The relation of an inner node to the
    leaves below it comes from [TreeIndex]. *)

From Stdlib Require Import ZArith List Bool Lia String.
From S2P Require Import Prelude Constants SecureMemory Crypto Signatures SeenSet TreeIndex.
From S2P Require Import Proto GroupProto KeyPackage RatchetTree.
Import ListNotations.
Open Scope Z_scope.

(** ** The public view *)

Definition strip (c : TreeNodeContent.t) : TreeNodeContent.t :=
  match c with
  | Blank => Blank
  | Populated k ph =>
      Populated (HybridNodeKeys.mk (HybridNodeKeys.x25519_public k) (HybridNodeKeys.kyber_public k) None None) ph
  end.

Definition public (s : RatchetTree) : RatchetTree :=
  RatchetTree.mk (map strip (RatchetTree.nodes s)) (RatchetTree.leaves s) (RatchetTree.leaf_count s).

(** What is public of node [i]. *)
Definition view (s : RatchetTree) (i : Z) : option TreeNodeContent.t :=
  option_map strip (vget (RatchetTree.nodes s) i).

Lemma vget_map {A B} (f : A -> B) l i : vget (map f l) i = option_map f (vget l i).
Proof. apply nth_error_map. Qed.

Lemma strip_strip c : strip (strip c) = strip c.
Proof. now destruct c. Qed.

Lemma view_public s i : view (public s) i = view s i.
Proof. unfold view, public. cbn [RatchetTree.nodes]. rewrite vget_map. destruct (vget _ i); cbn; now rewrite ?strip_strip. Qed.

Lemma vget_ext {A} (l1 l2 : list A) : (forall i, 0 <= i -> vget l1 i = vget l2 i) -> l1 = l2.
Proof.
  intros H. apply nth_error_ext. intros k. specialize (H (Z.of_nat k)). unfold vget in H.
  rewrite Nat2Z.id in H. apply H. lia.
Qed.

Lemma public_ext s1 s2 :
  (forall i, 0 <= i -> view s1 i = view s2 i) -> RatchetTree.leaves s1 = RatchetTree.leaves s2 ->
  RatchetTree.leaf_count s1 = RatchetTree.leaf_count s2 -> public s1 = public s2.
Proof.
  intros Hv Hl Hc. unfold public. rewrite Hl, Hc. f_equal. apply vget_ext. intros i Hi.
  rewrite !vget_map. exact (Hv i Hi).
Qed.

Lemma public_view s1 s2 i : public s1 = public s2 -> view s1 i = view s2 i.
Proof. intros H. rewrite <- (view_public s1), <- (view_public s2). now rewrite H. Qed.

Lemma public_leaves s1 s2 : public s1 = public s2 -> RatchetTree.leaves s1 = RatchetTree.leaves s2.
Proof. intros H. apply (f_equal RatchetTree.leaves) in H. exact H. Qed.

Lemma public_count s1 s2 : public s1 = public s2 -> RatchetTree.leaf_count s1 = RatchetTree.leaf_count s2.
Proof. intros H. apply (f_equal RatchetTree.leaf_count) in H. exact H. Qed.

Lemma public_len s1 s2 : public s1 = public s2 -> len (RatchetTree.nodes s1) = len (RatchetTree.nodes s2).
Proof. intros H. apply (f_equal (fun s => len (RatchetTree.nodes s))) in H. unfold public in H. cbn in H. now rewrite !len_map in H. Qed.

Lemma view_blank s i : is_blank s i = match view s i with Some (Populated _ _) => false | _ => true end.
Proof. unfold is_blank, view. destruct (vget _ i) as [[|k ph]|]; reflexivity. Qed.

Lemma view_keys s i :
  get_node_public_keys s i =
  match view s i with
  | Some (Populated k _) => Some (HybridNodeKeys.x25519_public k, HybridNodeKeys.kyber_public k)
  | _ => None
  end.
Proof. unfold get_node_public_keys, view. destruct (vget _ i) as [[|k ph]|]; reflexivity. Qed.

Lemma view_parent_hash s i :
  get_node_parent_hash s i = match view s i with Some (Populated _ ph) => Some ph | _ => None end.
Proof. unfold get_node_parent_hash, view. destruct (vget _ i) as [[|k ph]|]; reflexivity. Qed.

(** The resolution reads the public view only. *)
Lemma resolution_public s1 s2 fuel : public s1 = public s2 -> forall x,
  resolution_inner fuel s1 x = resolution_inner fuel s2 x.
Proof.
  intros H. induction fuel as [|fuel IH]; intros x; [reflexivity|]. cbn [resolution_inner].
  pose proof (public_view _ _ x H) as Hv. unfold view in Hv. rewrite (public_count _ _ H).
  destruct (vget (RatchetTree.nodes s1) x) as [[|? ?]|], (vget (RatchetTree.nodes s2) x) as [[|? ?]|];
    try discriminate Hv; try reflexivity.
  destruct (is_leaf x); [reflexivity|]. destruct (left x); [|reflexivity]. cbn [rbind].
  destruct (right x _); [|reflexivity]. cbn [rbind]. now rewrite !IH.
Qed.

(** Two trees agree on the subtree [lo..hi]: the nodes and the occupants of the
    leaves there. *)
Definition agree_on (lo hi : Z) (s1 s2 : RatchetTree) : Prop :=
  (forall i, lo <= i <= hi -> view s1 i = view s2 i) /\
  (forall j, lo <= 2 * j <= hi -> get_leaf_data s1 j = get_leaf_data s2 j).

Lemma agree_public lo hi s1 s2 : public s1 = public s2 -> agree_on lo hi s1 s2.
Proof.
  intros H. split; intros i _; [now apply public_view|]. unfold get_leaf_data. now rewrite (public_leaves _ _ H).
Qed.

Lemma agree_sub lo hi lo' hi' s1 s2 : lo <= lo' -> hi' <= hi -> agree_on lo hi s1 s2 -> agree_on lo' hi' s1 s2.
Proof. intros Hl Hh [Hn Hd]. split; intros; [apply Hn|apply Hd]; lia. Qed.

Section HashFacts.
Context {P : Primitives}.

Lemma node_hash_input_local s1 s2 x : agree_on x x s1 s2 -> node_hash_input s1 x = node_hash_input s2 x.
Proof.
  intros [Hn Hd]. specialize (Hn x ltac:(lia)). unfold node_hash_input.
  assert (Hl : leaf_hash_input s1 x = leaf_hash_input s2 x).
  { unfold leaf_hash_input, node_to_leaf. destruct (is_leaf x) eqn:El; [|reflexivity].
    rewrite is_leaf_even in El. apply Z.even_spec in El. destruct El as [k ->].
    rewrite Z.mul_comm, Z.div_mul by lia. rewrite (Hd k) by lia. reflexivity. }
  rewrite Hl. unfold view in Hn.
  destruct (vget (RatchetTree.nodes s1) x) as [[|k1 p1]|], (vget (RatchetTree.nodes s2) x) as [[|k2 p2]|];
    try discriminate Hn; try reflexivity.
  cbn in Hn. injection Hn as Hx Hk _. now rewrite Hx, Hk.
Qed.

(** The hash of a subtree depends on the subtree only. *)
Lemma compute_node_hash_local s1 s2 n fuel : 0 < n <= max_leaves ->
  RatchetTree.leaf_count s1 = n -> RatchetTree.leaf_count s2 = n ->
  forall x, in_tree n x -> agree_on (low x) (high n x) s1 s2 ->
  compute_node_hash_inner fuel s1 x = compute_node_hash_inner fuel s2 x.
Proof.
  intros Hn H1 H2. induction fuel as [|fuel IH]; intros x Hx Ha; [reflexivity|]. cbn [compute_node_hash_inner].
  pose proof (interval_self n Hn x Hx) as Hi. rewrite H1, H2.
  rewrite (node_hash_input_local s1 s2 x) by (eapply agree_sub; [| |exact Ha]; lia).
  destruct (is_leaf x) eqn:El; [reflexivity|]. destruct (1 <? n); [|reflexivity]. cbn [negb andb].
  destruct (children n Hn x Hx El) as (l & r & Hl & Hr & Tl & Tr & _ & _ & A & B & C & D).
  rewrite Hl, Hr. cbn [rbind].
  rewrite (IH l Tl), (IH r Tr); [reflexivity|eapply agree_sub; [| |exact Ha]; lia..].
Qed.

Lemma compute_node_hash_total s n fuel : 0 < n <= max_leaves -> RatchetTree.leaf_count s = n ->
  forall x, in_tree n x -> level x < Z.of_nat fuel -> exists h, compute_node_hash_inner fuel s x = Ok h.
Proof.
  intros Hn Hs. induction fuel as [|fuel IH]; intros x Hx Hf.
  - pose proof (level_nonneg n Hn x Hx). lia.
  - cbn [compute_node_hash_inner]. rewrite Hs.
    destruct (negb (is_leaf x) && (1 <? n)) eqn:E; [|eauto].
    apply andb_true_iff in E. destruct E as [El _]. apply negb_true_iff in El.
    destruct (children n Hn x Hx El) as (l & r & Hl & Hr & Tl & Tr & Ll & Lr & _).
    rewrite Hl, Hr. cbn [rbind]. destruct (IH l Tl ltac:(lia)) as [h1 ->]. destruct (IH r Tr ltac:(lia)) as [h2 ->].
    cbn [rbind]. eauto.
Qed.

Lemma tree_hash_public s1 s2 : 0 < RatchetTree.leaf_count s1 <= max_leaves -> public s1 = public s2 ->
  tree_hash s1 = tree_hash s2.
Proof.
  intros Hn H. unfold tree_hash. rewrite <- (public_count _ _ H). destruct (_ =? 0); [reflexivity|].
  destruct (root_ok _ Hn) as (r & Hr & Tr & _). rewrite Hr. cbn [rbind]. unfold compute_node_hash.
  apply (compute_node_hash_local s1 s2 (RatchetTree.leaf_count s1)); auto using agree_public.
  symmetry. now apply public_count.
Qed.

Lemma tree_hash_total s : 0 < RatchetTree.leaf_count s <= max_leaves -> exists h, tree_hash s = Ok h.
Proof.
  intros Hn. unfold tree_hash. destruct (Z.eqb_spec (RatchetTree.leaf_count s) 0); [lia|].
  destruct (root_ok _ Hn) as (r & Hr & Tr & _). rewrite Hr. cbn [rbind].
  apply (compute_node_hash_total s (RatchetTree.leaf_count s)); auto. exact (depth_fuel_enough _ Hn _ Tr).
Qed.

End HashFacts.

(** ** The invariant *)

Definition node_ok (c : TreeNodeContent.t) : Prop :=
  match c with
  | Blank => True
  | Populated k ph =>
      len (HybridNodeKeys.x25519_public k) = X25519_PUBLIC_KEY_BYTES /\
      len (HybridNodeKeys.kyber_public k) = KYBER_PUBLIC_KEY_BYTES /\ len ph = SHA256_HASH_BYTES
  end.

Definition leaf_ok (l : option LeafData.t) : Prop :=
  match l with
  | None => True
  | Some d =>
      len (LeafData.credential d) <= MAX_CREDENTIAL_SIZE /\
      len (LeafData.identity_ed25519_public d) = ED25519_PUBLIC_KEY_BYTES /\
      len (LeafData.identity_x25519_public d) = X25519_PUBLIC_KEY_BYTES /\
      len (LeafData.identity_kyber_public d) = KYBER_PUBLIC_KEY_BYTES /\
      len (LeafData.signature d) = ED25519_SIGNATURE_BYTES
  end.

Definition blank_content (c : TreeNodeContent.t) : bool := match c with Blank => true | Populated _ _ => false end.

(** The identity keys of the members. *)
Definition ids_of (ls : list (option LeafData.t)) : list bytes :=
  flat_map (fun l => match l with Some d => [LeafData.identity_ed25519_public d] | None => [] end) ls.

(** The arrays have the lengths of a tree of [leaf_count] leaves, a leaf node
    holds keys exactly when the leaf is occupied, keys and hashes have their
    sizes, and no identity occurs twice. *)
Record tree_wf (s : RatchetTree) : Prop := {
  wf_count : 1 <= RatchetTree.leaf_count s <= MAX_GROUP_MEMBERS;
  wf_leaves : len (RatchetTree.leaves s) = RatchetTree.leaf_count s;
  wf_nodes : len (RatchetTree.nodes s) = 2 * RatchetTree.leaf_count s - 1;
  wf_occupied : forall i, 0 <= i < RatchetTree.leaf_count s -> is_blank s (2 * i) = negb (is_some (get_leaf_data s i));
  wf_node_ok : Forall node_ok (RatchetTree.nodes s);
  wf_leaf_ok : Forall leaf_ok (RatchetTree.leaves s);
  wf_ids : NoDup (ids_of (RatchetTree.leaves s)) }.

Lemma wf_bound s : tree_wf s -> 0 < RatchetTree.leaf_count s <= max_leaves.
Proof. intros H. pose proof (wf_count s H). unfold MAX_GROUP_MEMBERS in *. rewrite max_leaves_eq. lia. Qed.

Lemma wf_len s : tree_wf s -> len (RatchetTree.nodes s) = node_count (RatchetTree.leaf_count s).
Proof. intros H. rewrite (wf_nodes s H). symmetry. apply node_count_eq. apply wf_bound, H. Qed.

Lemma view_put_node s i c j : 0 <= i < len (RatchetTree.nodes s) -> 0 <= j ->
  view (put_node i c s) j = if i =? j then Some (strip c) else view s j.
Proof.
  intros Hi Hj. unfold view, put_node. cbn [RatchetTree.nodes RatchetTree.set_nodes]. rewrite vget_vset by assumption.
  destruct (i =? j); reflexivity.
Qed.

Lemma Forall_update {A} (Q : A -> Prop) l k x : Forall Q l -> Q x -> Forall Q (update l k x).
Proof. intros Hl Hx. revert k. induction Hl as [|a l Ha Hl IH]; intros [|k]; cbn [update]; constructor; auto. Qed.

Lemma blank_put_node s i c j : 0 <= i < len (RatchetTree.nodes s) -> 0 <= j ->
  is_blank (put_node i c s) j = if i =? j then blank_content c else is_blank s j.
Proof.
  intros Hi Hj. rewrite !view_blank, view_put_node by assumption. destruct (i =? j); [now destruct c|reflexivity].
Qed.

Lemma wf_put_node s i c : tree_wf s -> 0 <= i < len (RatchetTree.nodes s) -> node_ok c ->
  (is_leaf i = true -> blank_content c = is_blank s i) -> tree_wf (put_node i c s).
Proof.
  intros H Hi Hc Hl. destruct H. constructor; cbn [put_node RatchetTree.set_nodes RatchetTree.nodes
    RatchetTree.leaves RatchetTree.leaf_count]; auto.
  - now rewrite len_vset.
  - intros k Hk. rewrite blank_put_node by (auto; lia). destruct (Z.eqb_spec i (2 * k)) as [->|].
    + rewrite Hl by apply is_leaf_double. now apply wf_occupied0.
    + now apply wf_occupied0.
  - now apply Forall_update.
Qed.

Lemma Forall_vget {A} (Q : A -> Prop) l i x : Forall Q l -> vget l i = Some x -> Q x.
Proof. intros H Hx. apply nth_error_In in Hx. rewrite Forall_forall in H. auto. Qed.

Lemma len_zero_hash : len zero_hash = SHA256_HASH_BYTES.
Proof. reflexivity. Qed.

Lemma public_node_ok x k : len x = X25519_PUBLIC_KEY_BYTES -> len k = KYBER_PUBLIC_KEY_BYTES -> node_ok (public_node x k).
Proof. intros Hx Hk. exact (conj Hx (conj Hk len_zero_hash)). Qed.

(** *** Setters *)

Section Setters.
Context (s : RatchetTree) (H : tree_wf s).

Lemma set_node_public_keys_wf i x k : 0 <= i -> len x = X25519_PUBLIC_KEY_BYTES -> len k = KYBER_PUBLIC_KEY_BYTES ->
  (is_leaf i = true -> is_blank s i = false) ->
  forall r s', set_node_public_keys i x k s = (r, s') -> tree_wf s'.
Proof.
  intros Hi Hx Hk Hl r s' Hr. unfold set_node_public_keys, sbind, sget, sguard, slift in Hr.
  destruct (i <? len (RatchetTree.nodes s)) eqn:E; cbn [ensure] in Hr; [|congruence]. bools.
  unfold smod in Hr. destruct (vget (RatchetTree.nodes s) i) as [[|keys ph]|] eqn:Ev; apply pair_inj in Hr as [_ <-];
    apply wf_put_node; auto; try lia; try (intros Hle; now rewrite (Hl Hle)).
  - now apply public_node_ok.
  - pose proof (Forall_vget _ _ _ _ (wf_node_ok s H) Ev) as (_ & _ & Hp). exact (conj Hx (conj Hk Hp)).
  - now apply public_node_ok.
Qed.

Lemma set_node_private_keys_wf i x k r s' : 0 <= i -> set_node_private_keys i x k s = (r, s') -> tree_wf s'.
Proof.
  intros Hi Hr. unfold set_node_private_keys, sbind, sget, smod, sfail in Hr.
  destruct (vget (RatchetTree.nodes s) i) as [[|keys ph]|] eqn:Ev; apply pair_inj in Hr as [_ <-]; auto.
  apply wf_put_node; auto.
  - split; [assumption|]. eapply vget_Some_range; eauto.
  - exact (Forall_vget _ _ _ _ (wf_node_ok s H) Ev).
  - intros _. unfold is_blank. now rewrite Ev.
Qed.

Lemma set_node_parent_hash_wf i h r s' : 0 <= i -> len h = SHA256_HASH_BYTES ->
  set_node_parent_hash i h s = (r, s') -> tree_wf s'.
Proof.
  intros Hi Hh Hr. unfold set_node_parent_hash, sbind, sget, smod, sfail in Hr.
  destruct (vget (RatchetTree.nodes s) i) as [[|keys ph]|] eqn:Ev; apply pair_inj in Hr as [_ <-]; auto.
  apply wf_put_node; auto.
  - split; [assumption|]. eapply vget_Some_range; eauto.
  - pose proof (Forall_vget _ _ _ _ (wf_node_ok s H) Ev) as (A & B & _). exact (conj A (conj B Hh)).
  - intros _. unfold is_blank. now rewrite Ev.
Qed.

End Setters.

Lemma get_leaf_range s i d : 0 <= i -> get_leaf_data s i = Some d ->
  vget (RatchetTree.leaves s) i = Some (Some d) /\ i < len (RatchetTree.leaves s).
Proof.
  unfold get_leaf_data. intros Hi Hd. destruct (vget (RatchetTree.leaves s) i) as [l|] eqn:E; [|discriminate].
  subst l. split; [reflexivity|]. eapply vget_Some_range; eauto.
Qed.

Lemma get_leaf_put s i l j : 0 <= i < len (RatchetTree.leaves s) -> 0 <= j ->
  get_leaf_data (put_leaf i l s) j = if i =? j then l else get_leaf_data s j.
Proof.
  intros Hi Hj. unfold get_leaf_data, put_leaf. cbn [RatchetTree.leaves RatchetTree.set_leaves].
  rewrite vget_vset by assumption. destruct (i =? j); reflexivity.
Qed.

Lemma ids_cons l ls : ids_of (l :: ls) = ids_of [l] ++ ids_of ls.
Proof. unfold ids_of. cbn [flat_map]. now rewrite app_nil_r. Qed.

Lemma ids_app l1 l2 : ids_of (l1 ++ l2) = ids_of l1 ++ ids_of l2.
Proof. apply flat_map_app. Qed.

Lemma ids_update ls : forall k l l', nth_error ls k = Some l ->
  exists a b, ids_of ls = a ++ ids_of [l] ++ b /\ ids_of (update ls k l') = a ++ ids_of [l'] ++ b.
Proof.
  induction ls as [|x ls IH]; intros [|k] l l' Hk; try discriminate Hk; cbn [nth_error] in Hk.
  - inv_ok. exists [], (ids_of ls). split; apply ids_cons.
  - destruct (IH k l l' Hk) as (a & b & Ha & Hb). exists (ids_of [x] ++ a), b. cbn [update].
    now rewrite (ids_cons x ls), (ids_cons x (update ls k l')), Ha, Hb, <- !app_assoc.
Qed.

Lemma set_leaf_signature_wf s i sg r s' : tree_wf s -> 0 <= i -> len sg = ED25519_SIGNATURE_BYTES ->
  set_leaf_signature i sg s = (r, s') -> tree_wf s'.
Proof.
  intros H Hi Hs Hr. unfold set_leaf_signature, sbind, sget, smod, sfail in Hr.
  destruct (get_leaf_data s i) as [d|] eqn:Ed; apply pair_inj in Hr as [_ <-]; auto.
  destruct (get_leaf_range s i d Hi Ed) as [Ev Hr]. destruct H.
  constructor; cbn [put_leaf RatchetTree.set_leaves RatchetTree.nodes RatchetTree.leaves RatchetTree.leaf_count]; auto.
  - now rewrite len_vset.
  - intros k Hk. change (is_blank (put_leaf _ _ s) (2 * k)) with (is_blank s (2 * k)).
    rewrite get_leaf_put by lia. destruct (Z.eqb_spec i k) as [->|]; [|now apply wf_occupied0].
    rewrite wf_occupied0 by lia. now rewrite Ed.
  - apply Forall_update; [assumption|]. pose proof (Forall_vget _ _ _ _ wf_leaf_ok0 Ev) as (A & B & C & D & _).
    exact (conj A (conj B (conj C (conj D Hs)))).
  - destruct (ids_update _ _ _ (Some (LeafData.set_signature sg d)) Ev) as (a & b & Ha & Hb).
    unfold vset. rewrite Hb. rewrite Ha in wf_ids0. exact wf_ids0.
Qed.
