(* ===== verification/TreeMembers.v ===== *)
(** * Membership changes keep the tree well formed

    Adding and removing leaves, and applying the validated proposals of a
    commit, preserve [tree_wf]. *)

From Stdlib Require Import ZArith List Bool Lia String.
From S2P Require Import Prelude Constants SecureMemory Crypto Signatures SeenSet TreeIndex.
From S2P Require Import Proto GroupProto KeyPackage RatchetTree Commit TreeFacts.
Import ListNotations.
Open Scope Z_scope.

(** ** Lists of leaves *)

Lemma vget_app_l {A} (l1 l2 : list A) i : 0 <= i < len l1 -> vget (l1 ++ l2) i = vget l1 i.
Proof. intros H. unfold vget, len in *. apply nth_error_app1. lia. Qed.

Lemma vget_app_r {A} (l1 l2 : list A) i : len l1 <= i -> vget (l1 ++ l2) i = vget l2 (i - len l1).
Proof. intros H. unfold vget, len in *. rewrite nth_error_app2 by lia. f_equal. lia. Qed.

Lemma position_none_spec {A} (l : list (option A)) : forall i,
  match position_none i l with
  | Some j => i <= j < i + len l /\ vget l (j - i) = Some None
  | None => Forall (fun o => is_some o = true) l
  end.
Proof.
  induction l as [|[a|] l IH]; intros i; cbn [position_none].
  - constructor.
  - specialize (IH (i + 1)). rewrite len_cons. destruct (position_none (i + 1) l) as [j|].
    + destruct IH as [Hj Hv]. split; [lia|]. rewrite <- Hv. unfold vget.
      replace (Z.to_nat (j - i)) with (S (Z.to_nat (j - (i + 1)))) by lia. reflexivity.
    + now constructor.
  - rewrite len_cons. pose proof (len_nonneg l). split; [lia|]. now rewrite Z.sub_diag.
Qed.

Lemma enumerate_In {A} (l : list A) : forall i j a,
  In (j, a) (enumerate_from i l) <-> i <= j /\ vget l (j - i) = Some a.
Proof.
  induction l as [|x l IH]; intros i j a; cbn [enumerate_from In].
  - unfold vget. destruct (Z.to_nat (j - i)); cbn; split; try tauto; intros [_ [=]].
  - rewrite IH. split.
    + intros [[= -> ->]|[H1 H2]]; [split; [lia|now rewrite Z.sub_diag]|]. split; [lia|].
      rewrite <- H2. unfold vget. replace (Z.to_nat (j - i)) with (S (Z.to_nat (j - (i + 1)))) by lia. reflexivity.
    + intros [H1 H2]. destruct (Z.eq_dec j i) as [->|Hne].
      * left. rewrite Z.sub_diag in H2. cbn in H2. congruence.
      * right. split; [lia|]. rewrite <- H2. unfold vget.
        replace (Z.to_nat (j - i)) with (S (Z.to_nat (j - (i + 1)))) by lia. reflexivity.
Qed.

Lemma populated_In s i : In i (populated_leaf_indices s) <-> 0 <= i /\ exists d, get_leaf_data s i = Some d.
Proof.
  unfold populated_leaf_indices, get_leaf_data. rewrite in_map_iff. split.
  - intros ([j l] & <- & Hin). apply filter_In in Hin. destruct Hin as [Hin Hs]. apply enumerate_In in Hin.
    rewrite Z.sub_0_r in Hin. cbn [fst snd] in *. destruct Hin as [H0 ->]. destruct l as [d|]; [eauto|discriminate].
  - intros [H0 [d Hd]]. destruct (vget (RatchetTree.leaves s) i) as [l|] eqn:E; [|discriminate]. subst l.
    exists (i, Some d). split; [reflexivity|]. apply filter_In. split; [|reflexivity]. apply enumerate_In.
    rewrite Z.sub_0_r. auto.
Qed.

Lemma ids_In ls id : In id (ids_of ls) <->
  exists i d, 0 <= i /\ vget ls i = Some (Some d) /\ LeafData.identity_ed25519_public d = id.
Proof.
  unfold ids_of. rewrite in_flat_map. split.
  - intros ([d|] & Hin & Hid); [|destruct Hid]. destruct Hid as [Hid|[]]. apply In_nth_error in Hin.
    destruct Hin as [k Hk]. exists (Z.of_nat k), d. split; [lia|]. unfold vget. now rewrite Nat2Z.id.
  - intros (i & d & _ & Hv & Hid). exists (Some d). split; [eapply nth_error_In; exact Hv|now left].
Qed.

Lemma identity_present_In s id : identity_present s id = true <-> In id (ids_of (RatchetTree.leaves s)).
Proof.
  unfold identity_present. rewrite existsb_exists, ids_In. split.
  - intros (i & Hi & Hd). apply populated_In in Hi. destruct Hi as [H0 [d Hg]]. rewrite Hg in Hd.
    apply bytes_eqb_eq in Hd. destruct (get_leaf_range s i d H0 Hg) as [Hv _]. eauto.
  - intros (i & d & H0 & Hv & Hid). exists i. assert (Hg : get_leaf_data s i = Some d) by (unfold get_leaf_data; now rewrite Hv).
    rewrite Hg. split; [apply populated_In; eauto|]. now apply bytes_eqb_eq.
Qed.

Lemma filter_all {A} (f : A -> bool) l : Forall (fun a => f a = true) l -> filter f l = l.
Proof. induction 1 as [|a l Ha _ IH]; cbn [filter]; [reflexivity|]. now rewrite Ha, IH. Qed.

(** ** Adding a leaf *)

(** The tree with one more leaf, and with a vacant leaf taken. *)
Definition grown (x k : bytes) (d : LeafData.t) (s : RatchetTree) : RatchetTree :=
  let n := RatchetTree.leaf_count s in
  RatchetTree.mk (RatchetTree.nodes s ++ [Blank; public_node x k]) (RatchetTree.leaves s ++ [Some d]) (n + 1).

Definition filled (i : Z) (x k : bytes) (d : LeafData.t) (s : RatchetTree) : RatchetTree :=
  put_leaf i (Some d) (put_node (2 * i) (public_node x k) s).

Lemma update_snoc {A} (l : list A) a b c : update (l ++ [a; b]) (List.length l + 1) c = l ++ [a; c].
Proof. induction l as [|x l IH]; [reflexivity|]. cbn [app List.length Nat.add update]. now rewrite IH. Qed.

Lemma add_leaf_run s x k d : tree_wf s ->
  add_leaf x k d s =
  if member_count s <? MAX_GROUP_MEMBERS then
    match position_none 0 (RatchetTree.leaves s) with
    | Some i => (Ok i, filled i x k d s)
    | None => (Ok (RatchetTree.leaf_count s), grown x k d s)
    end
  else (Err (ProtocolError.group_membership "Group member limit reached"), s).
Proof.
  intros H. unfold add_leaf, sbind, sget, sguard, slift. destruct (member_count s <? MAX_GROUP_MEMBERS); [|reflexivity].
  cbn [ensure]. pose proof (position_none_spec (RatchetTree.leaves s) 0) as Hp. pose proof (wf_bound s H) as Hb.
  pose proof (wf_leaves s H) as Hl. pose proof (wf_nodes s H) as Hn.
  destruct (position_none 0 (RatchetTree.leaves s)) as [i|].
  - destruct (leaf_in_tree _ Hb i ltac:(lia)) as [-> _]. reflexivity.
  - destruct (leaf_in_tree (RatchetTree.leaf_count s + 1) ltac:(pose proof (wf_count s H); unfold MAX_GROUP_MEMBERS in *;
      rewrite max_leaves_eq; lia) (RatchetTree.leaf_count s) ltac:(lia)) as [-> _].
    unfold smod, sret, grown, put_node. cbn [RatchetTree.set_nodes RatchetTree.set_leaves RatchetTree.set_leaf_count
      RatchetTree.nodes RatchetTree.leaves RatchetTree.leaf_count]. do 3 f_equal.
    rewrite Hn, (node_count_eq (RatchetTree.leaf_count s + 1)) by (pose proof (wf_count s H); unfold MAX_GROUP_MEMBERS in *;
      rewrite max_leaves_eq; lia).
    replace (Z.to_nat _) with 2%nat by lia. unfold vset. cbn [repeat].
    replace (Z.to_nat (2 * RatchetTree.leaf_count s)) with (List.length (RatchetTree.nodes s) + 1)%nat
      by (unfold len in Hn; lia).
    rewrite update_snoc. reflexivity.
Qed.

Lemma member_count_full s : Forall (fun o => is_some o = true) (RatchetTree.leaves s) ->
  member_count s = len (RatchetTree.leaves s).
Proof. intros H. unfold member_count. now rewrite filter_all. Qed.

Lemma NoDup_insert {A} (a b : list A) x : NoDup (a ++ b) -> ~ In x (a ++ b) -> NoDup (a ++ x :: b).
Proof. intros H Hn. apply NoDup_Add with (a := x) (l := a ++ b); auto using Add_app. Qed.

Lemma grown_view x k d s i : tree_wf s -> 0 <= i ->
  view (grown x k d s) i =
  if i <? len (RatchetTree.nodes s) then view s i
  else if i =? len (RatchetTree.nodes s) then Some Blank
  else if i =? len (RatchetTree.nodes s) + 1 then Some (public_node x k) else None.
Proof.
  intros H Hi. unfold view, grown. cbn [RatchetTree.nodes]. destruct (Z.ltb_spec i (len (RatchetTree.nodes s))).
  - now rewrite vget_app_l by lia.
  - rewrite vget_app_r by lia. destruct (Z.eqb_spec i (len (RatchetTree.nodes s))) as [->|]; [now rewrite Z.sub_diag|].
    destruct (Z.eqb_spec i (len (RatchetTree.nodes s) + 1)) as [->|].
    + now replace (len (RatchetTree.nodes s) + 1 - len (RatchetTree.nodes s)) with 1 by lia.
    + unfold vget. replace (Z.to_nat (i - len (RatchetTree.nodes s)))
        with (S (S (Z.to_nat (i - len (RatchetTree.nodes s) - 2)))) by lia. now destruct (Z.to_nat _).
Qed.

Lemma grown_leaf x k d s i : tree_wf s -> 0 <= i ->
  get_leaf_data (grown x k d s) i =
  if i =? RatchetTree.leaf_count s then Some d else get_leaf_data s i.
Proof.
  intros H Hi. pose proof (wf_leaves s H) as Hl. unfold get_leaf_data, grown. cbn [RatchetTree.leaves].
  destruct (Z.lt_ge_cases i (RatchetTree.leaf_count s)).
  - rewrite vget_app_l by lia. destruct (Z.eqb_spec i (RatchetTree.leaf_count s)); [lia|reflexivity].
  - rewrite vget_app_r by lia. destruct (Z.eqb_spec i (RatchetTree.leaf_count s)) as [->|].
    + now rewrite Hl, Z.sub_diag.
    + rewrite (proj2 (vget_None (RatchetTree.leaves s) i Hi)) by lia.
      rewrite (proj2 (vget_None [Some d] (i - len (RatchetTree.leaves s)) ltac:(lia)));
        [reflexivity|]. change (len [Some d]) with 1. lia.
Qed.

Lemma grown_wf x k d s : tree_wf s -> len x = X25519_PUBLIC_KEY_BYTES -> len k = KYBER_PUBLIC_KEY_BYTES ->
  leaf_ok (Some d) -> ~ In (LeafData.identity_ed25519_public d) (ids_of (RatchetTree.leaves s)) ->
  RatchetTree.leaf_count s < MAX_GROUP_MEMBERS -> tree_wf (grown x k d s).
Proof.
  intros H Hx Hk Hd Hid Hm. pose proof (wf_nodes s H) as Hn. pose proof (wf_leaves s H) as Hl.
  pose proof (wf_count s H). constructor; unfold grown; cbn [RatchetTree.nodes RatchetTree.leaves RatchetTree.leaf_count].
  - lia.
  - rewrite len_app, Hl. reflexivity.
  - rewrite len_app, Hn. change (len [Blank; public_node x k]) with 2. lia.
  - intros i Hi. rewrite view_blank. fold (grown x k d s). rewrite grown_view, grown_leaf by (auto; lia). rewrite Hn.
    destruct (Z.ltb_spec (2 * i) (2 * RatchetTree.leaf_count s - 1)).
    + rewrite <- view_blank, (wf_occupied s H i) by lia.
      destruct (Z.eqb_spec i (RatchetTree.leaf_count s)); [lia|reflexivity].
    + assert (i = RatchetTree.leaf_count s) as -> by lia. rewrite Z.eqb_refl.
      destruct (Z.eqb_spec (2 * RatchetTree.leaf_count s) (2 * RatchetTree.leaf_count s - 1)); [lia|].
      destruct (Z.eqb_spec (2 * RatchetTree.leaf_count s) (2 * RatchetTree.leaf_count s - 1 + 1)); [reflexivity|lia].
  - apply Forall_app. split; [apply H|]. constructor; [exact I|]. constructor; [now apply public_node_ok|constructor].
  - apply Forall_app. split; [apply H|]. constructor; [exact Hd|constructor].
  - rewrite ids_app. apply NoDup_insert; rewrite app_nil_r; [apply H|exact Hid].
Qed.

Lemma filled_wf i x k d s : tree_wf s -> 0 <= i < RatchetTree.leaf_count s -> get_leaf_data s i = None ->
  len x = X25519_PUBLIC_KEY_BYTES -> len k = KYBER_PUBLIC_KEY_BYTES ->
  leaf_ok (Some d) -> ~ In (LeafData.identity_ed25519_public d) (ids_of (RatchetTree.leaves s)) ->
  tree_wf (filled i x k d s).
Proof.
  intros H Hi Hg Hx Hk Hd Hid. pose proof (wf_nodes s H) as Hn. pose proof (wf_leaves s H) as Hl.
  assert (Hv : vget (RatchetTree.leaves s) i = Some None).
  { unfold get_leaf_data in Hg. destruct (vget_in_range (RatchetTree.leaves s) i ltac:(lia)) as [l Hv].
    rewrite Hv in Hg. now subst l. }
  destruct H. constructor; unfold filled; cbn [put_leaf put_node RatchetTree.set_leaves RatchetTree.set_nodes
    RatchetTree.nodes RatchetTree.leaves RatchetTree.leaf_count]; auto.
  - now rewrite len_vset.
  - now rewrite len_vset.
  - intros j Hj. change (is_blank _ (2 * j)) with (is_blank (put_node (2 * i) (public_node x k) s) (2 * j)).
    rewrite blank_put_node by lia. fold (put_node (2 * i) (public_node x k) s).
    fold (put_leaf i (Some d) (put_node (2 * i) (public_node x k) s)).
    rewrite get_leaf_put by (unfold put_node; cbn; lia).
    destruct (Z.eqb_spec i j) as [->|]; [now rewrite Z.eqb_refl|].
    destruct (Z.eqb_spec (2 * i) (2 * j)); [lia|]. now apply wf_occupied.
  - apply Forall_update; [assumption|]. now apply public_node_ok.
  - apply Forall_update; [assumption|exact Hd].
  - destruct (ids_update _ _ _ (Some d) Hv) as (a & b & Ha & Hb). unfold vset. rewrite Hb. rewrite Ha in wf_ids, Hid.
    cbn [ids_of flat_map app] in *. now apply NoDup_insert.
Qed.

(** What an [add_leaf] that succeeds has done. *)
Lemma add_leaf_wf s x k d i s' : tree_wf s -> len x = X25519_PUBLIC_KEY_BYTES -> len k = KYBER_PUBLIC_KEY_BYTES ->
  leaf_ok (Some d) -> ~ In (LeafData.identity_ed25519_public d) (ids_of (RatchetTree.leaves s)) ->
  add_leaf x k d s = (Ok i, s') ->
  tree_wf s' /\ 0 <= i < RatchetTree.leaf_count s' /\ get_leaf_data s i = None /\
  (s' = filled i x k d s \/ i = RatchetTree.leaf_count s /\ s' = grown x k d s).
Proof.
  intros H Hx Hk Hd Hid Hr. rewrite add_leaf_run in Hr by assumption.
  pose proof (position_none_spec (RatchetTree.leaves s) 0) as Hp. pose proof (wf_leaves s H) as Hl.
  destruct (member_count s <? MAX_GROUP_MEMBERS) eqn:Em; [|discriminate]. bools.
  destruct (position_none 0 (RatchetTree.leaves s)) as [j|]; apply pair_inj in Hr as [Hr <-]; apply Ok_inj in Hr; subst i.
  - rewrite Z.sub_0_r in Hp. destruct Hp as [Hj Hv].
    assert (Hg : get_leaf_data s j = None) by (unfold get_leaf_data; now rewrite Hv).
    split; [apply filled_wf; auto; lia|]. split; [cbn; lia|]. auto.
  - pose proof (wf_count s H). assert (Hg : get_leaf_data s (RatchetTree.leaf_count s) = None).
    { unfold get_leaf_data. destruct (vget_None (RatchetTree.leaves s) (RatchetTree.leaf_count s)) as [_ Hv]; [lia|].
      now rewrite Hv by lia. }
    split; [apply grown_wf; auto; rewrite member_count_full in Em by assumption; lia|]. split; [cbn; lia|]. auto.
Qed.

Lemma filled_ids i x k d s id : tree_wf s -> 0 <= i < RatchetTree.leaf_count s ->
  In id (ids_of (RatchetTree.leaves (filled i x k d s))) ->
  id = LeafData.identity_ed25519_public d \/ In id (ids_of (RatchetTree.leaves s)).
Proof.
  intros H Hi Hin. apply ids_In in Hin. destruct Hin as (j & d' & Hj & Hv & Hid). unfold filled in Hv.
  cbn [put_leaf put_node RatchetTree.set_leaves RatchetTree.set_nodes RatchetTree.leaves] in Hv.
  rewrite vget_vset in Hv by (rewrite ?(wf_leaves s H); lia).
  destruct (i =? j); [left; congruence|right]. apply ids_In. eauto.
Qed.

Lemma grown_ids x k d s id :
  In id (ids_of (RatchetTree.leaves (grown x k d s))) ->
  id = LeafData.identity_ed25519_public d \/ In id (ids_of (RatchetTree.leaves s)).
Proof.
  unfold grown. cbn [RatchetTree.leaves]. rewrite ids_app, in_app_iff. intros [Hin|[Hin|[]]]; auto.
Qed.

(** ** Removing a leaf *)

Definition vacated (i : Z) (s : RatchetTree) : RatchetTree := put_leaf i None (put_node (2 * i) Blank s).

Lemma vacated_wf i s : tree_wf s -> 0 <= i < RatchetTree.leaf_count s -> tree_wf (vacated i s).
Proof.
  intros H Hi. pose proof (wf_nodes s H) as Hn. pose proof (wf_leaves s H) as Hl.
  destruct (vget_in_range (RatchetTree.leaves s) i ltac:(lia)) as [l Hv].
  destruct H. constructor; unfold vacated; cbn [put_leaf put_node RatchetTree.set_leaves RatchetTree.set_nodes
    RatchetTree.nodes RatchetTree.leaves RatchetTree.leaf_count]; auto.
  - now rewrite len_vset.
  - now rewrite len_vset.
  - intros j Hj. change (is_blank _ (2 * j)) with (is_blank (put_node (2 * i) Blank s) (2 * j)).
    rewrite blank_put_node by lia. fold (put_node (2 * i) Blank s). fold (put_leaf i None (put_node (2 * i) Blank s)).
    rewrite get_leaf_put by (unfold put_node; cbn; lia).
    destruct (Z.eqb_spec i j) as [->|]; [now rewrite Z.eqb_refl|].
    destruct (Z.eqb_spec (2 * i) (2 * j)); [lia|]. now apply wf_occupied.
  - now apply Forall_update.
  - now apply Forall_update.
  - destruct (ids_update _ _ _ None Hv) as (a & b & Ha & Hb). unfold vset. rewrite Hb. rewrite Ha in wf_ids.
    destruct l as [d|]; [|exact wf_ids]. cbn [ids_of flat_map app] in *. now apply NoDup_remove_1 in wf_ids.
Qed.

Lemma blank_nodes_wf path : forall s, tree_wf s -> Forall (fun p => 0 <= p /\ is_leaf p = false) path ->
  tree_wf (blank_nodes path s).
Proof.
  unfold blank_nodes. induction path as [|p path IH]; intros s H Hp; [exact H|]. inversion_clear Hp as [|? ? [H0 Hl] Hr].
  cbn [fold_left]. apply IH; [|exact Hr]. destruct (p <? len (RatchetTree.nodes s)) eqn:E; [|exact H]. bools.
  apply wf_put_node; auto; [exact I|]. rewrite Hl. discriminate.
Qed.

Lemma blank_nodes_leaves path : forall s, RatchetTree.leaves (blank_nodes path s) = RatchetTree.leaves s /\
  RatchetTree.leaf_count (blank_nodes path s) = RatchetTree.leaf_count s.
Proof.
  unfold blank_nodes. induction path as [|p path IH]; intros s; [auto|]. cbn [fold_left].
  destruct (IH (if p <? len (RatchetTree.nodes s) then put_node p Blank s else s)) as [-> ->].
  destruct (p <? _); auto.
Qed.

Lemma blank_leaf_run s i : tree_wf s -> 0 <= i ->
  (exists e, blank_leaf i s = (Err e, s)) \/
  (i < RatchetTree.leaf_count s /\ is_some (get_leaf_data s i) = true /\
   exists path, (RatchetTree.leaf_count s = 1 /\ path = [] \/
                 exists r cp, root (RatchetTree.leaf_count s) = Ok r /\
                   direct_path i (RatchetTree.leaf_count s) = Ok path /\ climbs (RatchetTree.leaf_count s) r (2 * i) path cp) /\
     blank_leaf i s = (Ok tt, blank_nodes path (vacated i s))).
Proof.
  intros H Hi. unfold blank_leaf, sbind, sget, sguard, slift. pose proof (wf_bound s H) as Hb.
  destruct (i <? RatchetTree.leaf_count s) eqn:E; cbn [ensure]; [|eauto]. bools.
  destruct (is_some (get_leaf_data s i)); cbn [ensure]; [|eauto]. right. split; [assumption|]. split; [reflexivity|].
  destruct (leaf_in_tree _ Hb i ltac:(lia)) as [-> _]. unfold smod. destruct (1 <? RatchetTree.leaf_count s) eqn:E1; bools.
  - destruct (leaf_paths _ Hb i ltac:(lia)) as (r & path & cp & Hr & Hd & _ & Hc & _). exists path. split; [right; eauto|].
    now rewrite Hd.
  - exists []. split; [left; split; [lia|reflexivity]|]. reflexivity.
Qed.

Lemma vacated_ids i s id : tree_wf s -> 0 <= i < RatchetTree.leaf_count s ->
  In id (ids_of (RatchetTree.leaves (vacated i s))) -> In id (ids_of (RatchetTree.leaves s)).
Proof.
  intros H Hi Hin. apply ids_In in Hin. destruct Hin as (j & d' & Hj & Hv & Hid). unfold vacated in Hv.
  cbn [put_leaf put_node RatchetTree.set_leaves RatchetTree.set_nodes RatchetTree.leaves] in Hv.
  rewrite vget_vset in Hv by (rewrite ?(wf_leaves s H); lia).
  destruct (i =? j); [discriminate|]. apply ids_In. eauto.
Qed.

Lemma blank_leaf_wf s i r s' : tree_wf s -> 0 <= i -> blank_leaf i s = (r, s') ->
  tree_wf s' /\ (forall id, In id (ids_of (RatchetTree.leaves s')) -> In id (ids_of (RatchetTree.leaves s))).
Proof.
  intros H Hi Hr. destruct (blank_leaf_run s i H Hi) as [[e He]|(Hlt & _ & path & Hp & He)];
    rewrite He in Hr; apply pair_inj in Hr as [_ <-]; [auto|].
  destruct (blank_nodes_leaves path (vacated i s)) as [-> _].
  split; [|intros id; apply vacated_ids; auto; lia]. apply blank_nodes_wf; [apply vacated_wf; auto; lia|].
  destruct Hp as [[_ ->]|(rt & cp & _ & _ & Hc)]; [constructor|]. apply path_inner in Hc.
  eapply Forall_impl; [|exact Hc]. intros p [[Hp0 _] Hl]. auto.
Qed.

(** ** Proposals *)

Section Proposals.
Context {P : Primitives} {SG : Signatures}.

(** The indices of a message are unsigned. *)
Definition proposal_u32 (p : GroupProposal.t) : Prop :=
  match GroupProposal.proposal p with
  | Some (GroupProposal.Remove r) => 0 <= GroupRemoveProposal.removed_leaf_index r
  | _ => True
  end.

Definition added_package (p : GroupProposal.t) : option GroupKeyPackage.t :=
  match GroupProposal.proposal p with
  | Some (GroupProposal.Add add) => GroupAddProposal.key_package add
  | _ => None
  end.

Definition added_id (p : GroupProposal.t) : list bytes :=
  match added_package p with Some kp => [GroupKeyPackage.identity_ed25519_public kp] | None => [] end.

Definition added_ids (ps : list GroupProposal.t) : list bytes := flat_map added_id ps.

Definition package_ok (p : GroupProposal.t) : Prop :=
  match added_package p with Some kp => validate_key_package kp = Ok tt | None => True end.

Lemma check_shape_added acc p acc' : check_shape acc p = Ok acc' ->
  package_ok p /\ (forall id, In id (added_id p) -> ~ In id (sh_added_identity_keys acc)) /\
  (forall id, In id (sh_added_identity_keys acc') <-> In id (added_id p) \/ In id (sh_added_identity_keys acc)).
Proof.
  unfold check_shape, package_ok, added_id, added_package. intros H.
  destruct (GroupProposal.proposal p) as [[add|rm|up|ei|psk|re]|]; inv_ok; cbn [sh_added_identity_keys In];
    try (split; [exact I|]; split; [tauto|]; intros; tauto).
  rewrite H0. cbn [In]. bools. match goal with E : bset_contains _ _ = false |- _ => rename E into Hc end.
  split; [destruct x0; assumption|]. split.
  - intros id [<-|[]] Hin. apply bset_contains_In in Hin. congruence.
  - intros id. rewrite bset_insert_In. intuition.
Qed.

Lemma check_shapes_added ps : forall acc acc', foldR check_shape ps acc = Ok acc' ->
  Forall package_ok ps /\ NoDup (added_ids ps) /\ (forall id, In id (added_ids ps) -> ~ In id (sh_added_identity_keys acc)).
Proof.
  induction ps as [|p ps IH]; intros acc acc' H; cbn [foldR] in H; inv_ok.
  - split; [constructor|]. split; [constructor|]. intros id [].
  - destruct (check_shape_added _ _ _ H0) as (Hp & Hn & Hi). destruct (IH _ _ H) as (Hps & Hd & Hns).
    split; [now constructor|]. unfold added_ids in *. cbn [flat_map].
    assert (Hx : forall id, In id (flat_map added_id ps) -> ~ In id (added_id p) /\ ~ In id (sh_added_identity_keys acc)).
    { intros id Hin. specialize (Hns id Hin). rewrite Hi in Hns. tauto. }
    split.
    + unfold added_id at 1. unfold added_id in Hx at 2. destruct (added_package p) as [kp|]; [|exact Hd].
      constructor; [|exact Hd]. intros Hin. apply (proj1 (Hx _ Hin)). now left.
    + intros id Hin. apply in_app_iff in Hin. destruct Hin as [Hin|Hin]; [now apply Hn|now apply Hx].
Qed.

Lemma foldR_unit {E A} (f : A -> Result E unit) l : foldR (fun _ a => f a) l tt = Ok tt -> Forall (fun a => f a = Ok tt) l.
Proof.
  induction l as [|a l IH]; intros H; cbn [foldR] in H; inv_ok; constructor; [|apply IH; now destruct x]. now destruct x.
Qed.

(** What validated proposals guarantee about the packages they add. *)
Definition adds_ok (s : RatchetTree) (ps : list GroupProposal.t) : Prop :=
  Forall package_ok ps /\ NoDup (added_ids ps) /\
  forall id, In id (added_ids ps) -> ~ In id (ids_of (RatchetTree.leaves s)).

Lemma validate_proposals_ok s ps c : validate_proposals s ps c = Ok tt -> adds_ok s ps.
Proof.
  unfold validate_proposals, validate_proposal_shapes. intros H. inv_ok.
  destruct (check_shapes_added _ _ _ H2) as (Hp & Hd & _). split; [exact Hp|]. split; [exact Hd|].
  apply foldR_unit in H. intros id Hin. apply in_flat_map in Hin. destruct Hin as (p & Hpin & Hid).
  rewrite Forall_forall in H. specialize (H p Hpin). unfold check_against_tree in H. unfold added_id, added_package in Hid.
  destruct (GroupProposal.proposal p) as [[add|rm|up|ei|psk|re]|]; try now destruct Hid.
  destruct (GroupAddProposal.key_package add) as [kp|]; [|destruct Hid]. destruct Hid as [<-|[]]. inv_ok. bools.
  intros Hin. apply identity_present_In in Hin. congruence.
Qed.

Lemma validate_key_package_sizes kp : validate_key_package kp = Ok tt ->
  leaf_ok (Some (leaf_data_of kp)) /\ len (GroupKeyPackage.leaf_x25519_public kp) = X25519_PUBLIC_KEY_BYTES /\
  len (GroupKeyPackage.leaf_kyber_public kp) = KYBER_PUBLIC_KEY_BYTES.
Proof. unfold validate_key_package. intros H. inv_ok. bools. unfold leaf_ok, leaf_data_of. cbn. conjs; auto. Qed.

Lemma apply_removes_wf ps : forall s r s', tree_wf s -> Forall proposal_u32 ps -> apply_removes ps s = (r, s') ->
  tree_wf s' /\ (forall id, In id (ids_of (RatchetTree.leaves s')) -> In id (ids_of (RatchetTree.leaves s))).
Proof.
  induction ps as [|p ps IH]; intros s r s' H Hu Hr; cbn [apply_removes] in Hr.
  - inv_stm. auto.
  - inversion_clear Hu as [|? ? Hp Hps]. unfold proposal_u32 in Hp.
    destruct (GroupProposal.proposal p) as [[add|rm|up|ei|psk|re]|]; try (now apply (IH s r s')).
    unfold sbind in Hr. destruct (apply_remove rm s) as [[u|e] s1] eqn:Hrm;
      destruct (blank_leaf_wf _ _ _ _ H Hp Hrm) as [H1 I1]; [|apply pair_inj in Hr as [_ <-]; auto].
    destruct (IH _ _ _ H1 Hps Hr) as [H2 I2]. split; [exact H2|auto].
Qed.

Lemma adds_ok_tail s p ps : adds_ok s (p :: ps) -> adds_ok s ps.
Proof.
  intros (Hp & Hd & Hn). unfold adds_ok, added_ids in *. cbn [flat_map] in Hd, Hn. apply NoDup_app_inv in Hd.
  destruct Hd as (_ & Hd2 & _). inversion_clear Hp. split; [assumption|]. split; [exact Hd2|].
  intros id Hin. apply Hn, in_app_iff. auto.
Qed.

(** One added key package: it fits the tree, and so do the remaining ones after
    it. *)
Lemma adds_ok_head s p ps kp : adds_ok s (p :: ps) -> added_package p = Some kp ->
  leaf_ok (Some (leaf_data_of kp)) /\ len (GroupKeyPackage.leaf_x25519_public kp) = X25519_PUBLIC_KEY_BYTES /\
  len (GroupKeyPackage.leaf_kyber_public kp) = KYBER_PUBLIC_KEY_BYTES /\
  ~ In (LeafData.identity_ed25519_public (leaf_data_of kp)) (ids_of (RatchetTree.leaves s)).
Proof.
  intros (Hp & _ & Hn) Hk. inversion_clear Hp as [|? ? Hp1 _]. unfold package_ok in Hp1. rewrite Hk in Hp1.
  destruct (validate_key_package_sizes kp Hp1) as (L1 & L2 & L3). conjs; auto. apply Hn. unfold added_ids, added_id.
  cbn [flat_map]. rewrite Hk. now left.
Qed.

Lemma adds_ok_step s p ps kp i s1 : tree_wf s -> adds_ok s (p :: ps) -> added_package p = Some kp ->
  add_leaf (GroupKeyPackage.leaf_x25519_public kp) (GroupKeyPackage.leaf_kyber_public kp) (leaf_data_of kp) s = (Ok i, s1) ->
  tree_wf s1 /\ adds_ok s1 ps.
Proof.
  intros H Hok Hk Ha. destruct (adds_ok_head s p ps kp Hok Hk) as (L1 & L2 & L3 & Hni).
  destruct (add_leaf_wf _ _ _ _ _ _ H L2 L3 L1 Hni Ha) as (H1 & Hi & _ & Hs1). split; [exact H1|].
  destruct (adds_ok_tail _ _ _ Hok) as (Hps & Hd2 & Hn2). destruct Hok as (_ & Hd & _).
  unfold added_ids, added_id in Hd. cbn [flat_map] in Hd. rewrite Hk in Hd. apply NoDup_app_inv in Hd. destruct Hd as (_ & _ & Hdis).
  split; [exact Hps|]. split; [exact Hd2|]. intros id Hin Hs.
  assert (Hor : id = GroupKeyPackage.identity_ed25519_public kp \/ In id (ids_of (RatchetTree.leaves s))).
  { destruct Hs1 as [->|[_ ->]]; [|now apply grown_ids in Hs]. eapply filled_ids in Hs; eauto. }
  destruct Hor as [->|Hor]; [|exact (Hn2 id Hin Hor)]. exact (Hdis _ (or_introl eq_refl) Hin).
Qed.

Lemma apply_adds_wf ps : forall s r s', tree_wf s -> adds_ok s ps -> apply_adds ps s = (r, s') -> tree_wf s'.
Proof.
  induction ps as [|p ps IH]; intros s r s' H Hok Hr; cbn [apply_adds] in Hr.
  - inv_stm. exact H.
  - pose proof (adds_ok_tail _ _ _ Hok) as Hrest. pose proof (adds_ok_step s p ps) as Hstep. unfold added_package in Hstep.
    destruct (GroupProposal.proposal p) as [[add|rm|up|ei|psk|re]|]; try (now apply (IH s r s')).
    unfold sbind at 1 in Hr. unfold apply_add in Hr. unfold sbind at 1, slift in Hr.
    destruct (GroupAddProposal.key_package add) as [kp|]; cbn [ok_or] in Hr; [|apply pair_inj in Hr as [_ <-]; exact H].
    destruct (add_leaf _ _ _ s) as [[i|e] s1] eqn:Ha.
    + destruct (Hstep kp i s1 H Hok eq_refl Ha) as [H1 H1'].
      unfold sbind in Hr. destruct (apply_adds ps s1) as [[more|e] s2] eqn:Hm; apply pair_inj in Hr as [_ <-];
        exact (IH _ _ _ H1 H1' Hm).
    + rewrite add_leaf_run in Ha by assumption. destruct (member_count s <? MAX_GROUP_MEMBERS);
        [destruct (position_none 0 (RatchetTree.leaves s)); discriminate|].
      apply pair_inj in Ha as [_ <-]. apply pair_inj in Hr as [_ <-]. exact H.
Qed.

(** Applying validated proposals keeps the tree well formed, also when it stops
    at an error. *)
Lemma apply_proposals_wf s ps c r s' : tree_wf s -> Forall proposal_u32 ps -> validate_proposals s ps c = Ok tt ->
  apply_proposals ps s = (r, s') -> tree_wf s'.
Proof.
  intros H Hu Hv Hr. unfold apply_proposals, sbind in Hr. destruct (apply_removes ps s) as [[u|e] s1] eqn:E;
    destruct (apply_removes_wf _ _ _ _ H Hu E) as [H1 I1]; [|apply pair_inj in Hr as [_ <-]; exact H1].
  apply (apply_adds_wf ps s1 r s' H1); [|exact Hr]. destruct (validate_proposals_ok _ _ _ Hv) as (A & B & C).
  split; [exact A|]. split; [exact B|]. intros id Hin Hs. exact (C id Hin (I1 id Hs)).
Qed.

End Proposals.
