(* ===== verification/TreeResolution.v ===== *)
(** * Resolutions reach every member

    The nodes above a leaf are its direct path; the resolution of a node covers
    every occupied leaf below it exactly once; so a member finds the level at
    which it enters the path of a committer. *)

From Stdlib Require Import ZArith List Bool Lia String.
From S2P Require Import Prelude Constants SecureMemory Crypto TreeIndex.
From S2P Require Import GroupProto RatchetTree TreeKem TreeFacts.
Import ListNotations.
Open Scope Z_scope.

Section Ancestors.
Context (n : Z) (Hn : 0 < n <= max_leaves).

Lemma descends_interval t u : descends n t u -> in_tree n t -> in_tree n u /\ low t <= low u /\ high n u <= high n t.
Proof.
  induction 1 as [x|x l t He Hd IH|x r t He Hd IH]; intros Hx; [split; [exact Hx|lia]| |];
    (assert (El : is_leaf x = false) by (destruct (is_leaf x) eqn:El; [|reflexivity];
       (unfold left in He || unfold right in He); rewrite El in He; discriminate));
    destruct (children n Hn x Hx El) as (l' & r' & Hl & Hr & Tl & Tr & _ & _ & A & B & C & D);
    pose proof (interval_self n Hn x Hx) as Hi.
  - rewrite Hl in He. apply Ok_inj in He. subst l'. destruct (IH Tl) as (Tu & E & F). split; [exact Tu|lia].
  - rewrite Hr in He. apply Ok_inj in He. subst r'. destruct (IH Tr) as (Tu & E & F). split; [exact Tu|lia].
Qed.

Lemma descends_parent t u : descends n t u -> in_tree n t -> t = u \/ exists p, is_child n p u /\ descends n t p.
Proof.
  induction 1 as [x|x l t He Hd IH|x r t He Hd IH]; intros Hx; [auto| |];
    (assert (El : is_leaf x = false) by (destruct (is_leaf x) eqn:El; [|reflexivity];
       (unfold left in He || unfold right in He); rewrite El in He; discriminate));
    destruct (children n Hn x Hx El) as (l' & r' & Hl & Hr & Tl & Tr & _); right.
  - assert (l' = l) by congruence. subst l'.
    destruct (IH Tl) as [->|(p & Hp & Hdp)]; [exists x; split; [split; auto|constructor]|].
    exists p. split; [exact Hp|]. now apply descends_left with l.
  - assert (r' = r) by congruence. subst r'.
    destruct (IH Tr) as [->|(p & Hp & Hdp)]; [exists x; split; [split; auto|constructor]|].
    exists p. split; [exact Hp|]. now apply descends_right with r.
Qed.

Lemma root_no_parent r p : root n = Ok r -> ~ is_child n p r.
Proof.
  intros Hr Hc. destruct (root_ok n Hn) as (r' & Hr' & _ & Hl & Hh). assert (r' = r) by congruence. subst r'.
  destruct (is_child_interval n Hn p r Hc) as (_ & _ & [(_ & _ & A)|(_ & A & _)]); destruct Hc as ([Hp1 Hp2] & _);
    rewrite node_count_eq in Hp2 by exact Hn; lia.
Qed.

(** The nodes above [x] are those of its path. *)
Lemma climbs_ancestors r x path cp : root n = Ok r -> climbs n r x path cp -> in_tree n x ->
  forall t, in_tree n t -> (below n t x = true <-> t = x \/ In t path).
Proof.
  intros Hr Hc. induction Hc as [|x p s path cp Hne Hs Hc IH]; intros Tx t Tt; rewrite below_spec.
  - split; [|intros [->|[]]; apply (interval_self n Hn), Tx]. intros Hi.
    pose proof (level_nonneg n Hn t Tt) as Hlv.
    assert (Hd : descends n t r) by (apply (interval_descends n Hn 20); auto; lia).
    destruct (descends_parent t r Hd Tt) as [->|(p & Hp & _)]; [auto|]. now apply root_no_parent in Hp.
  - pose proof Hs as (Hcx & _ & _). pose proof Hcx as (Tp & _). specialize (IH Tp t Tt). rewrite below_spec in IH.
    pose proof (interval_self n Hn p Tp) as Ip. pose proof (interval_self n Hn x Tx) as Ix. cbn [In].
    destruct (is_child_interval n Hn p x Hcx) as (_ & _ & Hx). split.
    + intros Hi. pose proof (level_nonneg n Hn t Tt) as Hlv.
      assert (Hd : descends n t x) by (apply (interval_descends n Hn 20); auto; lia).
      destruct (descends_parent t x Hd Tt) as [->|(p' & Hp' & Hdp)]; [auto|]. right.
      rewrite (parent_unique n Hn p' p x Hp' Hcx) in Hdp. destruct (descends_interval t p Hdp Tt) as (_ & A & B).
      destruct (proj1 IH ltac:(lia)) as [->|Hin]; auto.
    + intros [->|Hin]; [lia|]. assert (Hpt : low t <= p <= high n t) by (apply IH; intuition).
      assert (Hd : descends n t p) by (apply (interval_descends n Hn 20); auto; pose proof (level_nonneg n Hn t Tt); lia).
      destruct (descends_interval t p Hd Tt) as (_ & A & B). lia.
Qed.

Lemma is_mine_below m r path cp t : root n = Ok r -> climbs n r (2 * m) path cp -> 0 <= m < n -> in_tree n t ->
  is_mine (2 * m) path t = below n t (2 * m).
Proof.
  intros Hr Hc Hm Tt. destruct (leaf_in_tree n Hn m Hm) as [_ Tm].
  pose proof (climbs_ancestors r _ _ _ Hr Hc Tm t Tt) as Ha. unfold is_mine.
  apply eq_true_iff_eq. rewrite Ha, orb_true_iff, Z.eqb_eq, existsb_exists.
  split; intros [H|H]; auto; right; [destruct H as (y & Hy & He); apply Z.eqb_eq in He; now subst y|].
  exists t. split; [exact H|apply Z.eqb_refl].
Qed.

(** ** Resolutions *)

Lemma covers_app l1 l2 t : covers n (l1 ++ l2) t = covers n l1 t + covers n l2 t.
Proof. unfold covers. now rewrite filter_app, len_app. Qed.

Lemma covers_zero l t : Forall (fun c => below n c t = false) l -> covers n l t = 0.
Proof. induction 1 as [|c l Hc _ IH]; [reflexivity|]. rewrite covers_cons, Hc, IH. reflexivity. Qed.

Lemma covers_exists l t : 0 < covers n l t -> exists c, In c l /\ below n c t = true.
Proof.
  unfold covers. intros H. destruct (filter (fun c => below n c t) l) as [|c l'] eqn:E; [discriminate H|].
  assert (Hin : In c (filter (fun c => below n c t) l)) by (rewrite E; now left). apply filter_In in Hin. eauto.
Qed.

(** [r] is a populated node below [x]. *)
Definition resolves (s : RatchetTree) (x r : Z) : Prop :=
  in_tree n r /\ is_blank s r = false /\ low x <= low r /\ high n r <= high n x.

Lemma resolves_up s x y res : low x <= low y -> high n y <= high n x -> Forall (resolves s y) res -> Forall (resolves s x) res.
Proof. intros Hl Hh H. eapply Forall_impl; [|exact H]. intros r (A & B & C & D). repeat split; try apply A; auto; lia. Qed.

Lemma resolves_outside s x res t : ~ (low x <= t <= high n x) -> Forall (resolves s x) res -> covers n res t = 0.
Proof.
  intros Ht H. apply covers_zero. eapply Forall_impl; [|exact H]. intros r (A & _ & C & D).
  destruct (below n r t) eqn:E; [|reflexivity]. apply below_spec in E. lia.
Qed.

Lemma resolution_spec s fuel : RatchetTree.leaf_count s = n -> len (RatchetTree.nodes s) = node_count n ->
  forall x, in_tree n x -> level x < Z.of_nat fuel ->
  exists res, resolution_inner fuel s x = Ok res /\ Forall (resolves s x) res /\
    forall j, 0 <= j < n -> is_blank s (2 * j) = false -> below n x (2 * j) = true -> covers n res (2 * j) = 1.
Proof.
  intros Hc Hl. induction fuel as [|fuel IH]; intros x Hx Hf; [pose proof (level_nonneg n Hn x Hx); lia|].
  cbn [resolution_inner]. destruct (vget_in_range (RatchetTree.nodes s) x ltac:(destruct Hx; lia)) as [c Hv].
  rewrite Hv, Hc. destruct c as [|k ph].
  - assert (Hbx : is_blank s x = true) by (unfold is_blank; now rewrite Hv). destruct (is_leaf x) eqn:El.
    + exists []. split; [reflexivity|]. split; [constructor|]. intros j Hj Hb Hbel. exfalso.
      apply below_spec in Hbel. destruct (leaf_interval n Hn x Hx El) as [A B].
      assert (2 * j = x) by lia. congruence.
    + destruct (children n Hn x Hx El) as (l & r & Hle & Hr & Tl & Tr & Ll & Lr & A & B & C & D).
      pose proof (interval_self n Hn x Hx) as Ix. rewrite Hle, Hr. cbn [rbind].
      destruct (IH l Tl ltac:(lia)) as (res1 & -> & F1 & G1). destruct (IH r Tr ltac:(lia)) as (res2 & -> & F2 & G2).
      cbn [rbind]. exists (res1 ++ res2). split; [reflexivity|]. split.
      * apply Forall_app. split; eapply resolves_up; eauto; lia.
      * intros j Hj Hb Hbel. apply below_spec in Hbel. rewrite covers_app.
        assert (Hjx : 2 * j <> x) by (intros <-; rewrite is_leaf_double in El; discriminate).
        destruct (Z.lt_ge_cases (2 * j) x).
        -- rewrite G1 by (auto; apply below_spec; lia). rewrite (resolves_outside s r res2) by (auto; lia). lia.
        -- rewrite G2 by (auto; apply below_spec; lia). rewrite (resolves_outside s l res1) by (auto; lia). lia.
  - exists [x]. split; [reflexivity|]. split.
    + constructor; [|constructor]. unfold resolves, is_blank. rewrite Hv. split; [exact Hx|]. split; [reflexivity|lia].
    + intros j Hj Hb Hbel. rewrite covers_cons, Hbel. reflexivity.
Qed.

Lemma resolution_ok s x : RatchetTree.leaf_count s = n -> len (RatchetTree.nodes s) = node_count n -> in_tree n x ->
  exists res, resolution s x = Ok res /\ Forall (resolves s x) res /\
    forall j, 0 <= j < n -> is_blank s (2 * j) = false -> below n x (2 * j) = true -> covers n res (2 * j) = 1.
Proof. intros Hc Hl Hx. apply resolution_spec; auto. exact (depth_fuel_enough n Hn x Hx). Qed.

End Ancestors.

(** ** Entering the path of a committer *)

Lemma find_position_spec mine l : forall i,
  match find_position mine i l with
  | Some (j, q) => i <= j /\ vget l (j - i) = Some q /\ In q l /\ mine q = true
  | None => existsb mine l = false
  end.
Proof.
  induction l as [|q l IH]; intros i; cbn [find_position existsb In]; [reflexivity|]. destruct (mine q) eqn:E.
  - split; [lia|]. rewrite Z.sub_diag. auto.
  - specialize (IH (i + 1)). destruct (find_position mine (i + 1) l) as [[j q']|]; [|exact IH].
    destruct IH as (A & B & C & D). split; [lia|]. split; [|auto]. rewrite <- B. unfold vget.
    replace (Z.to_nat (j - i)) with (S (Z.to_nat (j - (i + 1)))) by lia. reflexivity.
Qed.

Section Member.
Context (n : Z) (Hn : 0 < n <= max_leaves) (s : RatchetTree).
Context (Hcount : RatchetTree.leaf_count s = n) (Hnodes : len (RatchetTree.nodes s) = node_count n).
Context (m : Z) (Hm : 0 <= m < n) (Hocc : is_blank s (2 * m) = false).
Context (r : Z) (path cp : list Z) (Hr : root n = Ok r) (Hclimb : climbs n r (2 * m) path cp).

Let mine := is_mine (2 * m) path.

Lemma resolution_mine x : in_tree n x -> below n x (2 * m) = true ->
  exists res j q, resolution s x = Ok res /\ existsb mine res = true /\ find_position mine 0 res = Some (j, q) /\
    0 <= j /\ vget res j = Some q /\ below n q (2 * m) = true /\ in_tree n q /\ is_blank s q = false.
Proof.
  intros Hx Hb. destruct (resolution_ok n Hn s x Hcount Hnodes Hx) as (res & He & Hf & Hcov).
  specialize (Hcov m Hm Hocc Hb). destruct (covers_exists n res (2 * m) ltac:(lia)) as (q0 & Hin0 & Hq0).
  rewrite Forall_forall in Hf. assert (Hmine : forall q, In q res -> mine q = below n q (2 * m)).
  { intros q Hin. destruct (Hf q Hin) as (Tq & _). exact (is_mine_below n Hn m r path cp q Hr Hclimb Hm Tq). }
  assert (Hex : existsb mine res = true) by (apply existsb_exists; exists q0; split; [exact Hin0|now rewrite Hmine]).
  pose proof (find_position_spec mine res 0) as Hfp. destruct (find_position mine 0 res) as [[j q]|] eqn:Efp; [|congruence].
  destruct Hfp as (Hj & Hv & Hin & Hq). rewrite Z.sub_0_r in Hv. destruct (Hf q Hin) as (Tq & Bq & _).
  exists res, j, q. rewrite (Hmine q Hin) in Hq. conjs; auto.
Qed.

(** The member enters the path above [x] at the first co-path node that covers
    it; below that level it knows no node of the path, from there on all. *)
Lemma level_found x cpath ccp : climbs n r x cpath ccp -> in_tree n x -> below n x (2 * m) = false -> forall i,
  exists pre a post cpre c cpost, cpath = pre ++ a :: post /\ ccp = cpre ++ c :: cpost /\ len pre = len cpre /\
    level_on_my_path s mine i cpath ccp = Ok (Some (i + len pre)) /\
    Forall (fun p => below n p (2 * m) = false) pre /\ Forall (fun p => below n p (2 * m) = true) (a :: post) /\
    in_tree n c /\ below n c (2 * m) = true.
Proof.
  intros Hc. induction Hc as [|x p sb cpath ccp Hne Hs Hc IH]; intros Tx Hb i.
  - exfalso. destruct (root_ok n Hn) as (r' & Hr' & _ & Hl & Hh). assert (r' = r) by congruence. subst r'.
    destruct (leaf_in_tree n Hn m Hm) as [_ [T1 T2]]. rewrite node_count_eq in T2 by exact Hn.
    assert (below n r (2 * m) = true) by (apply below_spec; lia). congruence.
  - pose proof Hs as (Hcx & Hcs & _). pose proof Hcx as (Tp & Lp & _).
    pose proof (siblings_split n Hn p x sb (2 * m) Hs) as Hsplit.
    assert (Hpm : (p =? 2 * m) = false)
      by (apply Z.eqb_neq; intros ->; rewrite is_leaf_double in Lp; discriminate).
    rewrite Hb, Hpm in Hsplit. cbn [one_if] in Hsplit.
    cbn [level_on_my_path]. unfold mine at 1.
    rewrite (is_mine_below n Hn m r path cp p Hr Hclimb Hm Tp).
    destruct (below n sb (2 * m)) eqn:Es; destruct (below n p (2 * m)) eqn:Ep; cbn [one_if] in Hsplit; try lia.
    + destruct (is_child_interval n Hn p sb Hcs) as (Tsb & _).
      destruct (resolution_mine sb Tsb Es) as (res & j & q & He & Hex & _). rewrite He. cbn [rbind]. rewrite Hex.
      exists [], p, cpath, [], sb, ccp. cbn [app]. change (len (@nil Z)) with 0. rewrite Z.add_0_r.
      conjs; auto. constructor; [exact Ep|].
      apply Forall_forall. intros t Ht.
      assert (Tt : in_tree n t) by (pose proof (path_inner n _ _ _ _ Hc) as Hpi; rewrite Forall_forall in Hpi; now apply Hpi).
      pose proof (proj2 (climbs_ancestors n Hn r p cpath ccp Hr Hc Tp t Tt) (or_intror Ht)) as Htp.
      apply below_spec in Htp, Ep.
      assert (Hd : descends n t p) by (apply (interval_descends n Hn 20); auto; pose proof (level_nonneg n Hn t Tt); lia).
      destruct (descends_interval n Hn t p Hd Tt) as (_ & A & B). apply below_spec. lia.
    + destruct (IH Tp eq_refl (i + 1)) as (pre & a & post & cpre & c & cpost & -> & -> & Hlen & Hlv & Hpre & Hpost & Tc & Hbc).
      exists (p :: pre), a, post, (sb :: cpre), c, cpost. rewrite Hlv, !len_cons, Hlen.
      conjs; auto. do 2 f_equal. lia.
Qed.

End Member.
