(* ===== verification/PathSecrets.v ===== *)
(** * Path secrets and the keys they determine

    On secrets of the right length the derivations of [TreeKem] succeed and are
    functions; a secret encrypted to a node is decrypted by the owner of the
    node's private keys. *)

From Stdlib Require Import ZArith List Bool Lia String.
From S2P Require Import Prelude Constants SecureMemory Crypto Signatures DhValidator TreeIndex.
From S2P Require Import GroupProto KeySchedule KeyPackage RatchetTree TreeKem TreeFacts.
Import ListNotations.
Open Scope Z_scope.

Section Secrets.
Context {P : Primitives} {L : PrimitiveLaws P}.

Definition next_secret (secret : bytes) (level : Z) : bytes :=
  hkdf_expand secret (GROUP_PATH_SECRET_INFO ++ to_le_bytes 4 level) PATH_SECRET_BYTES.

(** The X25519 secret and the ML-KEM randomness a path secret determines. *)
Definition node_x (secret : bytes) : bytes :=
  clamp (hkdf_expand secret (GROUP_NODE_KEY_INFO ++ bstr "x25519") X25519_PRIVATE_KEY_BYTES).
Definition node_e (secret : bytes) : bytes :=
  chacha20rng (firstn (Z.to_nat KYBER_SEED_KEY_BYTES)
    (hkdf_expand secret (GROUP_NODE_KEY_INFO ++ bstr "kyber") KYBER_SEED_KEY_BYTES)).

Definition kyber_pair (e : bytes) : SecureMemoryHandle.t * bytes :=
  (SecureMemoryHandle.mk (fst (mlkem_generate e)), snd (mlkem_generate e)).

Lemma len_next_secret s i : len (next_secret s i) = PATH_SECRET_BYTES.
Proof. apply hkdf_expand_len. unfold PATH_SECRET_BYTES. lia. Qed.

Lemma len_node_x s : len (node_x s) = X25519_PRIVATE_KEY_BYTES.
Proof. unfold node_x. rewrite len_clamp. apply hkdf_expand_len. unfold X25519_PRIVATE_KEY_BYTES. lia. Qed.

Lemma derive_next_ok s i : len s = PATH_SECRET_BYTES -> derive_next_path_secret s i = Ok (next_secret s i).
Proof. intros Hs. unfold derive_next_path_secret. apply expand_ok; [exact Hs|]. vm_compute. split; congruence. Qed.

Lemma kyber_from_seed seed : len seed = KYBER_SEED_KEY_BYTES ->
  kyber_generate_keypair_from_seed seed =
  Ok (kyber_pair (chacha20rng (firstn (Z.to_nat KYBER_SEED_KEY_BYTES) seed))).
Proof.
  intros Hs. unfold kyber_generate_keypair_from_seed. rewrite Hs, Z.leb_refl. cbn [ensure rbind]. unfold kyber_pair.
  destruct (mlkem_generate_len (chacha20rng (firstn (Z.to_nat KYBER_SEED_KEY_BYTES) seed))) as [Hd _].
  destruct (mlkem_generate _) as [dk ek]. cbn [fst snd] in *.
  rewrite SecureMemoryHandle.alloc_write_exact; [reflexivity| |reflexivity].
  rewrite Hd. unfold KYBER_SECRET_KEY_BYTES, MAX_BUFFER_SIZE. lia.
Qed.

Lemma derive_keypairs_ok s : len s = PATH_SECRET_BYTES ->
  derive_node_keypairs s =
  Ok (SecureMemoryHandle.mk (node_x s), x25519_public (node_x s), fst (kyber_pair (node_e s)), snd (kyber_pair (node_e s))).
Proof.
  intros Hs. unfold derive_node_keypairs.
  rewrite !expand_ok by (first [exact Hs|vm_compute; split; congruence]). cbn [rbind].
  change (clamp (hkdf_expand s (GROUP_NODE_KEY_INFO ++ bstr "x25519") X25519_PRIVATE_KEY_BYTES)) with (node_x s).
  rewrite len_node_x, Z.eqb_refl. cbn [ensure rbind].
  rewrite SecureMemoryHandle.alloc_write_exact;
    [|unfold X25519_PRIVATE_KEY_BYTES, MAX_BUFFER_SIZE; lia|apply len_node_x].
  unfold crypto_err. cbn [map_err rbind]. rewrite kyber_from_seed; [reflexivity|].
  apply hkdf_expand_len. unfold KYBER_SEED_KEY_BYTES. lia.
Qed.

(** The secrets of the levels above one with secret [current]. *)
Fixpoint secret_chain (count : nat) (current : bytes) (i : Z) : list bytes :=
  match count with
  | O => []
  | S count => next_secret current i :: secret_chain count (next_secret current i) (i + 1)
  end.

Lemma next_path_secrets_ok count : forall s i, len s = PATH_SECRET_BYTES ->
  next_path_secrets count s i = Ok (secret_chain count s i).
Proof.
  induction count as [|count IH]; intros s i Hs; [reflexivity|]. cbn [next_path_secrets secret_chain].
  rewrite derive_next_ok by exact Hs. cbn [rbind]. now rewrite IH by apply len_next_secret.
Qed.

Lemma secret_chain_len count : forall s i, List.length (secret_chain count s i) = count.
Proof. induction count as [|count IH]; intros s i; [reflexivity|]. cbn. now rewrite IH. Qed.

Lemma secret_chain_sizes count : forall s i, Forall (fun x => len x = PATH_SECRET_BYTES) (secret_chain count s i).
Proof. induction count as [|count IH]; intros s i; constructor; [apply len_next_secret|apply IH]. Qed.

Lemma secret_chain_split p : forall q s i, len s = PATH_SECRET_BYTES ->
  exists pre x, List.length pre = p /\ len x = PATH_SECRET_BYTES /\
    s :: secret_chain (p + q) s i = pre ++ x :: secret_chain q x (i + Z.of_nat p).
Proof.
  induction p as [|p IH]; intros q s i Hs.
  - exists [], s. cbn [Nat.add app]. rewrite Z.add_0_r. auto.
  - cbn [Nat.add secret_chain]. destruct (IH q (next_secret s i) (i + 1) (len_next_secret _ _)) as (pre & x & Hp & Hx & He).
    exists (s :: pre), x. cbn [List.length app]. rewrite He. split; [lia|]. split; [exact Hx|].
    do 4 f_equal. lia.
Qed.

(** ** Owning a node *)

(** The private keys of a node are those of its public keys. *)
Definition keyed (k : HybridNodeKeys.t) : Prop :=
  exists xs e, HybridNodeKeys.x25519_private k = Some (SecureMemoryHandle.mk xs) /\ len xs = X25519_PRIVATE_KEY_BYTES /\
    HybridNodeKeys.x25519_public k = x25519_public xs /\
    HybridNodeKeys.kyber_secret k = Some (fst (kyber_pair e)) /\ HybridNodeKeys.kyber_public k = snd (kyber_pair e).

(** What a receiver checks of a ciphertext before using it. *)
Definition ct_sound (ct : GroupHybridCiphertext.t) : Prop :=
  DhValidator.validate_x25519_public_key (GroupHybridCiphertext.ephemeral_x25519_public ct) = Ok tt /\
  kyber_validate_ciphertext (GroupHybridCiphertext.kyber_ciphertext ct) = Ok tt.

Lemma path_secret_roundtrip secret k idx e ct xh kh : keyed k ->
  HybridNodeKeys.x25519_private k = Some xh -> HybridNodeKeys.kyber_secret k = Some kh ->
  len (se_ephemeral e) = X25519_PRIVATE_KEY_BYTES ->
  encrypt_path_secret secret (HybridNodeKeys.x25519_public k) (HybridNodeKeys.kyber_public k) idx e = Ok ct ->
  ct_sound ct -> decrypt_path_secret ct xh kh idx = Ok secret.
Proof.
  intros (xs & en & Hxp & Hxs & Hx & Hkp & Hk) Hxh Hkh He Henc [Sv Sk]. rewrite Hxp in Hxh. rewrite Hkp in Hkh.
  apply Some_inj in Hxh, Hkh. subst xh kh. rewrite Hx, Hk in Henc. unfold encrypt_path_secret in Henc.
  apply rbind_Ok in Henc. destruct Henc as ([h pk] & Hg & Henc). apply generate_x25519_keypair_inv in Hg; [|exact He].
  destruct Hg as [-> ->]. rewrite SecureMemoryHandle.read_bytes_exact in Henc by exact He.
  unfold crypto_err in Henc. cbn [map_err rbind] in Henc. rewrite He, x25519_public_len in Henc.
  change (32 =? X25519_PUBLIC_KEY_BYTES) with true in Henc. rewrite Z.eqb_refl in Henc. cbn [ensure rbind] in Henc.
  inv_ok. match goal with p : (bytes * SecureMemoryHandle.t)%type |- _ => destruct p as [kct kss] end.
  match goal with H : kyber_encapsulate _ _ = Ok _ |- _ => pose proof (kyber_encapsulate_inv _ _ _ _ H) as (ss & -> & Hss & Hct);
    pose proof (kyber_roundtrip en _ _ _ _ eq_refl H) as Hdec end.
  rewrite SecureMemoryHandle.read_bytes_exact in * by exact Hss. inv_ok. cbn [GroupHybridCiphertext.ephemeral_x25519_public
    GroupHybridCiphertext.kyber_ciphertext] in Sv, Sk.
  unfold decrypt_path_secret. cbn [GroupHybridCiphertext.ephemeral_x25519_public GroupHybridCiphertext.kyber_ciphertext
    GroupHybridCiphertext.nonce GroupHybridCiphertext.encrypted_secret].
  rewrite Sv, Sk. cbn [map_err rbind]. rewrite SecureMemoryHandle.read_bytes_exact by exact Hxs.
  unfold crypto_err. cbn [map_err rbind]. rewrite Hxs, Z.eqb_refl, x25519_public_len.
  change (32 =? X25519_PUBLIC_KEY_BYTES) with true. cbn [ensure rbind]. rewrite (x25519_agree xs (se_ephemeral e)).
  match goal with H : negb (is_all_zero _) = true |- _ => rewrite H end. cbn [ensure rbind].
  unfold kyber_pair. cbn [fst]. rewrite Hdec. cbn [map_err rbind].
  rewrite SecureMemoryHandle.read_bytes_exact by exact Hss. cbn [map_err rbind].
  match goal with H : derive_key_bytes _ _ _ _ = Ok _ |- _ => rewrite H end. cbn [rbind].
  eapply aes_roundtrip. eassumption.
Qed.

Lemma keyed_derived s ph : len s = PATH_SECRET_BYTES ->
  match Populated (HybridNodeKeys.mk (x25519_public (node_x s)) (snd (kyber_pair (node_e s)))
          (Some (SecureMemoryHandle.mk (node_x s))) (Some (fst (kyber_pair (node_e s))))) ph with
  | Populated k _ => keyed k
  | Blank => True
  end.
Proof. intros Hs. exists (node_x s), (node_e s). cbn. conjs; auto using len_node_x. Qed.

End Secrets.
