(* ===== verification/TreeUpdates.v ===== *)
(** * Updating the nodes of a tree

    The tree operations that install an update path, as edits of single nodes:
    which nodes a run changes and to what; and the update path a committer
    creates, level by level. *)

From Stdlib Require Import ZArith List Bool Lia String.
From S2P Require Import Prelude Constants SecureMemory Crypto Signatures DhValidator TreeIndex GroupProto KeyPackage.
From S2P Require Import RatchetTree TreeKem Commit TreeFacts TreeResolution PathSecrets.
Import ListNotations.
Open Scope Z_scope.

Abbreviation Edit := (TreeNodeContent.t -> TreeNodeContent.t).

Definition set_pub (x k : bytes) : Edit := fun c =>
  match c with
  | Blank => public_node x k
  | Populated keys ph =>
      Populated (HybridNodeKeys.mk x k (HybridNodeKeys.x25519_private keys) (HybridNodeKeys.kyber_secret keys)) ph
  end.

Definition set_priv (x k : SecureMemoryHandle.t) : Edit := fun c =>
  match c with
  | Blank => Blank
  | Populated keys ph =>
      Populated (HybridNodeKeys.mk (HybridNodeKeys.x25519_public keys) (HybridNodeKeys.kyber_public keys) (Some x) (Some k)) ph
  end.

Definition set_ph (h : bytes) : Edit := fun c =>
  match c with Blank => Blank | Populated keys _ => Populated keys h end.

Lemma strip_set_pub x k c : strip (set_pub x k c) = set_pub x k (strip c).
Proof. now destruct c. Qed.
Lemma strip_set_priv x k c : strip (set_priv x k c) = strip c.
Proof. now destruct c. Qed.
Lemma strip_set_ph h c : strip (set_ph h c) = set_ph h (strip c).
Proof. now destruct c. Qed.

(** [s'] is [s] with the content of node [j] edited by [g j]. *)
Record edited (s s' : RatchetTree) (g : Z -> Edit) : Prop := {
  ed_leaves : RatchetTree.leaves s' = RatchetTree.leaves s;
  ed_count : RatchetTree.leaf_count s' = RatchetTree.leaf_count s;
  ed_len : len (RatchetTree.nodes s') = len (RatchetTree.nodes s);
  ed_node : forall j, 0 <= j -> vget (RatchetTree.nodes s') j = option_map (g j) (vget (RatchetTree.nodes s) j) }.

Definition at_node (i : Z) (f : Edit) (j : Z) : Edit := fun c => if i =? j then f c else c.
Definition seq_edit (g h : Z -> Edit) (j : Z) : Edit := fun c => h j (g j c).

Lemma edited_refl s : edited s s (fun _ c => c).
Proof. constructor; auto. intros j _. now destruct (vget _ j). Qed.

Lemma edited_trans s s1 s2 g h : edited s s1 g -> edited s1 s2 h -> edited s s2 (seq_edit g h).
Proof.
  intros [A B C D] [A' B' C' D']. constructor; try congruence. intros j Hj. rewrite D', D by exact Hj.
  now destruct (vget _ j).
Qed.

Lemma edited_put s i c f : 0 <= i -> vget (RatchetTree.nodes s) i = Some c -> edited s (put_node i (f c) s) (at_node i f).
Proof.
  intros Hi Hc. pose proof (vget_Some_range _ _ _ Hi Hc) as Hr. constructor; try reflexivity; cbn [put_node RatchetTree.set_nodes RatchetTree.nodes].
  - apply len_vset.
  - intros j Hj. rewrite vget_vset by lia. unfold at_node.
    destruct (Z.eqb_spec i j) as [<-|]; [now rewrite Hc|]. now destruct (vget _ j).
Qed.

(** *** Setters *)

Lemma set_pub_run i x k s : 0 <= i < len (RatchetTree.nodes s) ->
  exists s', set_node_public_keys i x k s = (Ok tt, s') /\ edited s s' (at_node i (set_pub x k)).
Proof.
  intros Hi. destruct (vget_in_range (RatchetTree.nodes s) i Hi) as [c Hc].
  exists (put_node i (set_pub x k c) s). split; [|apply edited_put; [apply Hi|exact Hc]].
  unfold set_node_public_keys, sbind, sget, sguard, slift. destruct (Z.ltb_spec i (len (RatchetTree.nodes s))); [|lia].
  cbn [ensure]. rewrite Hc. destruct c; reflexivity.
Qed.

Lemma set_priv_run i x k s : 0 <= i -> is_blank s i = false ->
  exists s', set_node_private_keys i x k s = (Ok tt, s') /\ edited s s' (at_node i (set_priv x k)).
Proof.
  intros Hi Hb. unfold is_blank in Hb. destruct (vget (RatchetTree.nodes s) i) as [c|] eqn:Hc; [|discriminate].
  exists (put_node i (set_priv x k c) s). split; [|apply edited_put; assumption].
  unfold set_node_private_keys, sbind, sget. rewrite Hc. destruct c; [discriminate|reflexivity].
Qed.

Lemma set_ph_run i h s : 0 <= i -> is_blank s i = false ->
  exists s', set_node_parent_hash i h s = (Ok tt, s') /\ edited s s' (at_node i (set_ph h)).
Proof.
  intros Hi Hb. unfold is_blank in Hb. destruct (vget (RatchetTree.nodes s) i) as [c|] eqn:Hc; [|discriminate].
  exists (put_node i (set_ph h c) s). split; [|apply edited_put; assumption].
  unfold set_node_parent_hash, sbind, sget. rewrite Hc. destruct c; [discriminate|reflexivity].
Qed.

(** Edits that leave a node populated. *)
Definition fills (f : Edit) : Prop := forall c, blank_content c = false -> blank_content (f c) = false.

Lemma fills_pub x k : fills (set_pub x k). Proof. intros [|? ?]; [discriminate|reflexivity]. Qed.
Lemma fills_priv x k : fills (set_priv x k). Proof. intros [|? ?]; [discriminate|reflexivity]. Qed.
Lemma fills_ph h : fills (set_ph h). Proof. intros [|? ?]; [discriminate|reflexivity]. Qed.
Lemma fills_at i f : fills f -> forall j, fills (at_node i f j).
Proof. intros Hf j c Hc. unfold at_node. destruct (i =? j); auto. Qed.

Lemma edited_blank s s' g j : edited s s' g -> 0 <= j -> fills (g j) -> is_blank s j = false -> is_blank s' j = false.
Proof.
  intros H Hj Hf. unfold is_blank. rewrite (ed_node _ _ _ H j Hj).
  destruct (vget (RatchetTree.nodes s) j) as [c|]; [|discriminate]. cbn [option_map]. specialize (Hf c).
  destruct c; [discriminate|]. intros _. destruct (g j _); [now specialize (Hf eq_refl)|reflexivity].
Qed.

(** *** Loops *)

(** The edits [f a] at the nodes of a list of indices, paired with data. *)
Fixpoint along {A} (f : A -> Edit) (dp : list Z) (l : list A) (j : Z) (c : TreeNodeContent.t) : TreeNodeContent.t :=
  match dp, l with
  | d :: dp, a :: l => along f dp l j (at_node d (f a) j c)
  | _, _ => c
  end.

Fixpoint assoc {A} (dp : list Z) (l : list A) (j : Z) : option A :=
  match dp, l with
  | d :: dp, a :: l => if d =? j then Some a else assoc dp l j
  | _, _ => None
  end.

Lemma assoc_In {A} dp (l : list A) j a : assoc dp l j = Some a -> In j dp /\ In a l.
Proof.
  revert l. induction dp as [|d dp IH]; intros [|b l] H; try discriminate H. cbn [assoc] in H.
  destruct (Z.eqb_spec d j) as [->|]; [injection H as ->; cbn; auto|]. destruct (IH l H). cbn. auto.
Qed.

Lemma assoc_None {A} dp (l : list A) j : ~ In j dp -> assoc dp l j = None.
Proof. intros H. destruct (assoc dp l j) eqn:E; [|reflexivity]. now apply assoc_In in E. Qed.

Lemma assoc_Some {A} dp (l : list A) j : List.length dp = List.length l -> In j dp -> exists a, assoc dp l j = Some a.
Proof.
  revert l. induction dp as [|d dp IH]; intros [|a l] Hl Hj; try easy. cbn [assoc].
  destruct (Z.eqb_spec d j); [eauto|]. destruct Hj; [easy|]. apply IH; [now injection Hl|assumption].
Qed.

Lemma assoc_app {A} p1 (l1 : list A) p2 l2 j : List.length p1 = List.length l1 ->
  assoc (p1 ++ p2) (l1 ++ l2) j = match assoc p1 l1 j with Some a => Some a | None => assoc p2 l2 j end.
Proof.
  revert l1. induction p1 as [|d p1 IH]; intros [|a l1] Hl; try discriminate Hl; [reflexivity|]. cbn [app assoc].
  destruct (d =? j); [reflexivity|]. apply IH. now injection Hl.
Qed.

Lemma along_out {A} (f : A -> Edit) dp l j c : ~ In j dp -> along f dp l j c = c.
Proof.
  revert l c. induction dp as [|d dp IH]; intros [|a l] c H; try reflexivity. cbn [along]. unfold at_node.
  destruct (Z.eqb_spec d j) as [->|]; [exfalso; apply H; now left|]. apply IH. intros Hin. apply H. now right.
Qed.

Lemma along_assoc {A} (f : A -> Edit) dp l j c : NoDup dp ->
  along f dp l j c = match assoc dp l j with Some a => f a c | None => c end.
Proof.
  intros H. revert l c. induction H as [|d dp Hd H IH]; intros [|a l] c; try reflexivity. cbn [along assoc]. unfold at_node.
  destruct (Z.eqb_spec d j) as [->|]; [|apply IH]. now apply along_out.
Qed.

Lemma along_app {A} (f : A -> Edit) p1 l1 p2 l2 j c : List.length p1 = List.length l1 ->
  along f (p1 ++ p2) (l1 ++ l2) j c = along f p2 l2 j (along f p1 l1 j c).
Proof.
  revert l1 c. induction p1 as [|d p1 IH]; intros [|a l1] c Hl; try discriminate Hl; [reflexivity|]. cbn [app along].
  apply IH. now injection Hl.
Qed.

Lemma fills_along {A} (f : A -> Edit) dp l j : (forall a, fills (f a)) -> fills (along f dp l j).
Proof.
  intros Hf. revert l. induction dp as [|d dp IH]; intros [|a l] c Hc; try exact Hc. cbn [along]. apply IH. now apply fills_at.
Qed.

Definition in_range (s : RatchetTree) (dp : list Z) : Prop := Forall (fun d => 0 <= d < len (RatchetTree.nodes s)) dp.
Definition populated (s : RatchetTree) (dp : list Z) : Prop := Forall (fun d => 0 <= d /\ is_blank s d = false) dp.

Lemma in_range_edited s s' g dp : edited s s' g -> in_range s dp -> in_range s' dp.
Proof. intros H. apply Forall_impl. intros d. now rewrite (ed_len _ _ _ H). Qed.

Lemma populated_edited s s' g dp : edited s s' g -> (forall j, fills (g j)) -> populated s dp -> populated s' dp.
Proof. intros H Hg. apply Forall_impl. intros d [Hd Hb]. split; [exact Hd|]. eapply edited_blank; eauto. Qed.

(** One edit followed by a loop. *)
Lemma along_step {A} s s1 s2 (f : A -> Edit) d dp a l :
  edited s s1 (at_node d (f a)) -> edited s1 s2 (along f dp l) -> edited s s2 (along f (d :: dp) (a :: l)).
Proof. intros H1 H2. exact (edited_trans _ _ _ _ _ H1 H2). Qed.

Lemma sbind_run {E S A B} (c : Stm E S A) (k : A -> Stm E S B) s a s1 : c s = (Ok a, s1) -> sbind c k s = k a s1.
Proof. intros H. unfold sbind. now rewrite H. Qed.

Definition pub_of (nd : GroupUpdatePathNode.t) : Edit :=
  set_pub (GroupUpdatePathNode.x25519_public nd) (GroupUpdatePathNode.kyber_public nd).
Definition hash_of (nd : GroupUpdatePathNode.t) : Edit := set_ph (GroupUpdatePathNode.parent_hash nd).

Lemma install_public_run dp : forall nodes s, in_range s dp ->
  exists s', install_public dp nodes s = (Ok tt, s') /\ edited s s' (along pub_of dp nodes).
Proof.
  induction dp as [|d dp IH]; intros [|nd nodes] s Hr; try (exists s; split; [reflexivity|apply edited_refl]).
  inversion Hr as [|? ? Hd Hdp]; subst. cbn [install_public].
  destruct (set_pub_run d (GroupUpdatePathNode.x25519_public nd) (GroupUpdatePathNode.kyber_public nd) s Hd) as (s1 & E1 & H1).
  destruct (IH nodes s1 (in_range_edited _ _ _ _ H1 Hdp)) as (s2 & E2 & H2).
  exists s2. rewrite (sbind_run _ _ _ _ _ E1). split; [exact E2|]. now apply (along_step s s1).
Qed.

Lemma install_parent_hashes_run dp : forall nodes s, populated s dp ->
  exists s', install_parent_hashes dp nodes s = (Ok tt, s') /\ edited s s' (along hash_of dp nodes).
Proof.
  induction dp as [|d dp IH]; intros [|nd nodes] s Hr; try (exists s; split; [reflexivity|apply edited_refl]).
  inversion Hr as [|? ? [Hd Hb] Hdp]; subst. cbn [install_parent_hashes].
  destruct (set_ph_run d (GroupUpdatePathNode.parent_hash nd) s Hd Hb) as (s1 & E1 & H1).
  destruct (IH nodes s1) as (s2 & E2 & H2). { eapply populated_edited; eauto using fills_at, fills_ph. }
  exists s2. rewrite (sbind_run _ _ _ _ _ E1). split; [exact E2|]. now apply (along_step s s1).
Qed.

(** The committer's loop skips empty hashes; there are none. *)
Lemma install_own_hashes dp : forall nodes s,
  Forall (fun nd => len (GroupUpdatePathNode.parent_hash nd) = SHA256_HASH_BYTES) nodes ->
  install_own_parent_hashes dp nodes s = install_parent_hashes dp nodes s.
Proof.
  induction dp as [|d dp IH]; intros [|nd nodes] s H; try reflexivity. inversion H as [|? ? Hn Hns]; subst.
  cbn [install_own_parent_hashes install_parent_hashes]. rewrite Hn. change (SHA256_HASH_BYTES =? 0) with false. unfold sbind at 1 2.
  destruct (set_node_parent_hash d _ s) as [[[]|er] s1]; [now apply IH|reflexivity].
Qed.

Definition priv_of (hs : SecureMemoryHandle.t * SecureMemoryHandle.t) : Edit := set_priv (fst hs) (snd hs).

Lemma install_private_run dp : forall l s, populated s dp -> List.length dp = List.length l ->
  exists s', install_private (map (fun '(d, (x, k)) => (d, x, k)) (combine dp l)) s = (Ok tt, s') /\
    edited s s' (along priv_of dp l).
Proof.
  induction dp as [|d dp IH]; intros [|[x k] l] s Hr Hl; try discriminate Hl; [exists s; split; [reflexivity|apply edited_refl]|].
  inversion Hr as [|? ? [Hd Hb] Hdp]; subst. cbn [combine map install_private].
  destruct (set_priv_run d x k s Hd Hb) as (s1 & E1 & H1).
  destruct (IH l s1) as (s2 & E2 & H2); [eapply populated_edited; eauto using fills_at, fills_priv|now injection Hl|].
  exists s2. rewrite (sbind_run _ _ _ _ _ E1). split; [exact E2|]. now apply (along_step s s1).
Qed.

(** *** The levels a member derives *)

Section Levels.
Context {P : Primitives} {L : PrimitiveLaws P}.

(** The keys a secret determines, on the own path with the private ones. *)
Definition level_edit (my_dp : list Z) (d : Z) (secret : bytes) : Edit := fun c =>
  let c := set_pub (x25519_public (node_x secret)) (snd (kyber_pair (node_e secret))) c in
  if existsb (Z.eqb d) my_dp
  then set_priv (SecureMemoryHandle.mk (node_x secret)) (fst (kyber_pair (node_e secret))) c else c.

(** The keys of a path node are those of a secret. *)
Definition node_matches (nd : GroupUpdatePathNode.t) (secret : bytes) : Prop :=
  GroupUpdatePathNode.x25519_public nd = x25519_public (node_x secret) /\
  GroupUpdatePathNode.kyber_public nd = snd (kyber_pair (node_e secret)).

Lemma install_level_run my_dp d nd secret m1 m2 s : 0 <= d < len (RatchetTree.nodes s) ->
  len secret = PATH_SECRET_BYTES -> node_matches nd secret ->
  exists s', install_level my_dp d nd secret m1 m2 s = (Ok tt, s') /\ edited s s' (at_node d (level_edit my_dp d secret)).
Proof.
  intros Hd Hs [Hx Hk]. unfold install_level.
  destruct (set_pub_run d (x25519_public (node_x secret)) (snd (kyber_pair (node_e secret))) s Hd) as (s1 & E1 & H1).
  rewrite derive_keypairs_ok by exact Hs. unfold slift at 1. unfold sbind at 1. cbv beta iota.
  rewrite Hx, Hk, !bytes_eqb_refl. unfold sguard, slift. cbn [ensure]. unfold sbind at 1 2. rewrite (sbind_run _ _ _ _ _ E1).
  destruct (existsb (Z.eqb d) my_dp) eqn:Ee.
  - destruct (vget_in_range (RatchetTree.nodes s) d Hd) as [c0 Hc0].
    assert (Hb : is_blank s1 d = false).
    { unfold is_blank. rewrite (ed_node _ _ _ H1 d (proj1 Hd)), Hc0. unfold at_node. cbn [option_map]. rewrite Z.eqb_refl.
      now destruct c0. }
    destruct (set_priv_run d (SecureMemoryHandle.mk (node_x secret)) (fst (kyber_pair (node_e secret))) s1 (proj1 Hd) Hb)
      as (s2 & E2 & H2).
    exists s2. split; [exact E2|]. pose proof (edited_trans _ _ _ _ _ H1 H2) as H. destruct H as [A B C D].
    constructor; auto. intros j Hj. rewrite D by exact Hj. unfold seq_edit, at_node, level_edit. rewrite Ee. now destruct (d =? j).
  - exists s1. split; [reflexivity|]. destruct H1 as [A B C D]. constructor; auto. intros j Hj. rewrite D by exact Hj.
    unfold level_edit. now rewrite Ee.
Qed.

Fixpoint along_levels (my_dp dp : list Z) (secrets : list bytes) (j : Z) (c : TreeNodeContent.t) : TreeNodeContent.t :=
  match dp, secrets with
  | d :: dp, a :: l => along_levels my_dp dp l j (at_node d (level_edit my_dp d a) j c)
  | _, _ => c
  end.

Lemma along_levels_out my_dp dp : forall l j c, ~ In j dp -> along_levels my_dp dp l j c = c.
Proof.
  induction dp as [|d dp IH]; intros [|a l] j c H; try reflexivity. cbn [along_levels]. unfold at_node.
  destruct (Z.eqb_spec d j) as [->|]; [exfalso; apply H; now left|]. apply IH. intros Hin. apply H. now right.
Qed.

Lemma along_levels_assoc my_dp dp : NoDup dp -> forall l j c,
  along_levels my_dp dp l j c = match assoc dp l j with Some a => level_edit my_dp j a c | None => c end.
Proof.
  induction 1 as [|d dp Hd H IH]; intros [|a l] j c; try reflexivity. cbn [along_levels assoc]. unfold at_node.
  destruct (Z.eqb_spec d j) as [->|]; [|apply IH]. now apply along_levels_out.
Qed.

Lemma climb_path_run my_dp dp : forall nodes secret i s, in_range s dp -> len secret = PATH_SECRET_BYTES ->
  Forall2 node_matches nodes (secret_chain (List.length dp) secret i) ->
  exists s', climb_path my_dp i dp nodes secret s = (Ok (last (secret_chain (List.length dp) secret i) secret), s') /\
    edited s s' (along_levels my_dp dp (secret_chain (List.length dp) secret i)).
Proof.
  induction dp as [|d dp IH]; intros nodes secret i s Hr Hs Hm.
  - exists s. split; [reflexivity|apply edited_refl].
  - cbn [List.length secret_chain] in *. inversion Hm as [|nd ? nodes' ? Hnd Hnodes]; subst.
    inversion Hr as [|? ? Hd Hdp]; subst. cbn [climb_path]. rewrite derive_next_ok by exact Hs.
    unfold slift at 1. unfold sbind at 1.
    pose proof (len_next_secret secret i) as Hl.
    destruct (install_level_run my_dp d nd (next_secret secret i) "X25519 public key mismatch at path level {i}"%string
      "Kyber public key mismatch at path level {i}"%string s Hd Hl Hnd) as (s1 & E1 & H1).
    rewrite (sbind_run _ _ _ _ _ E1).
    destruct (IH nodes' _ (i + 1) s1 (in_range_edited _ _ _ _ H1 Hdp) Hl Hnodes) as (s2 & E2 & H2).
    exists s2. rewrite E2. split; [|exact (edited_trans _ _ _ _ _ H1 H2)]. do 2 f_equal.
    generalize (secret_chain (List.length dp) (next_secret secret i) (i + 1)). intros l.
    destruct l as [|b l]; [reflexivity|]. change (last (b :: l) (next_secret secret i) = last (b :: l) secret).
    clear. revert b. induction l as [|b' l IHl]; intros b; [reflexivity|]. exact (IHl b').
Qed.

End Levels.

(** * The update path: what the committer sends is what the members derive

    The rows of the path made by [create_update_path], its chain of parent
    hashes, and the run of [process_update_path] at another member: it returns
    the committer's secret and leaves the same public tree. *)

Section Path.
Context {P : Primitives} {L : PrimitiveLaws P} {SG : Signatures}.

(** ** Rows *)

(** Level [i] of a path: node [d] gets the keys of [secret], which is encrypted
    to the resolution of the co-path node [c]. *)
Definition row (tree : RatchetTree) (seal : Z -> Z -> SealEntropy) (i d c : Z) (secret : bytes)
    (nd : GroupUpdatePathNode.t) : Prop :=
  node_matches nd secret /\
  exists res, resolution tree c = Ok res /\
    encrypt_to_resolution tree (seal i) secret d res = Ok (GroupUpdatePathNode.encrypted_path_secrets nd).

Inductive rows (tree : RatchetTree) (seal : Z -> Z -> SealEntropy) :
  Z -> list Z -> list Z -> list bytes -> list GroupUpdatePathNode.t -> Prop :=
| rows_nil i : rows tree seal i [] [] [] []
| rows_cons i d dp c cp x secrets nd nodes :
    row tree seal i d c x nd -> rows tree seal (i + 1) dp cp secrets nodes ->
    rows tree seal i (d :: dp) (c :: cp) (x :: secrets) (nd :: nodes).

Definition secrets_of (x : bytes) : SecureMemoryHandle.t * SecureMemoryHandle.t :=
  (SecureMemoryHandle.mk (node_x x), fst (kyber_pair (node_e x))).

Definition priv_list (dp : list Z) (l : list (SecureMemoryHandle.t * SecureMemoryHandle.t)) : list NodeSecrets :=
  map (fun '(d, (x, k)) => (d, x, k)) (combine dp l).

Lemma update_path_rows tree seal : forall dp cp secrets i nodes privs,
  List.length cp = List.length dp -> List.length secrets = List.length dp ->
  Forall (fun x => len x = PATH_SECRET_BYTES) secrets ->
  update_path_nodes tree seal i dp cp secrets = Ok (nodes, privs) ->
  rows tree seal i dp cp secrets nodes /\ privs = priv_list dp (map secrets_of secrets).
Proof.
  induction dp as [|d dp IH]; intros [|c cp] [|x secrets] i nodes privs Hc Hs Hf H; try discriminate Hc; try discriminate Hs.
  - cbn [update_path_nodes] in H. apply Ok_inj in H. apply pair_inj in H as [<- <-]. split; [constructor|reflexivity].
  - inversion Hf as [|? ? Hx Hf']; subst. cbn [update_path_nodes] in H. rewrite derive_keypairs_ok in H by exact Hx.
    cbn [rbind] in H. inv_ok. destruct x2 as [nodes' privs']. inv_ok.
    match goal with Hu : update_path_nodes _ _ _ _ _ _ = _ |- _ =>
      destruct (IH cp secrets (i + 1) nodes' privs') as [Hr ->]; [now injection Hc|now injection Hs|exact Hf'|exact Hu|] end.
    split; [|reflexivity]. constructor; [|exact Hr]. split; [split; reflexivity|]. cbn. eauto.
Qed.

(** [set_parent_hashes] changes the hashes only. *)
Lemma rows_set_hashes tree n dp : forall nodes nodes', set_parent_hashes tree n dp nodes = Ok nodes' ->
  List.length dp = List.length nodes ->
  Forall2 (fun a b => exists h, b = GroupUpdatePathNode.set_parent_hash h a) nodes nodes'.
Proof.
  induction dp as [|d dp IH]; intros [|nd nodes] nodes' H Hl; try discriminate Hl; cbn [set_parent_hashes] in H.
  - apply Ok_inj in H. subst. constructor.
  - apply rbind_Ok in H. destruct H as (above & Ha & H). apply IH in Ha; [|now injection Hl].
    destruct above as [|p above]; inv_ok; constructor; eauto. 
Qed.

Lemma rows_hashes tree seal i dp cp secrets nodes nodes' : rows tree seal i dp cp secrets nodes ->
  Forall2 (fun a b => exists h, b = GroupUpdatePathNode.set_parent_hash h a) nodes nodes' ->
  rows tree seal i dp cp secrets nodes'.
Proof.
  intros H. revert nodes'. induction H as [i|i d dp c cp x secrets nd nodes Hr H IH]; intros nodes' Hf;
    inversion Hf as [|? b ? l [h ->] Hl]; subst; constructor; auto.
Qed.

Lemma rows_match tree seal i dp cp secrets nodes : rows tree seal i dp cp secrets nodes ->
  Forall2 node_matches nodes secrets.
Proof. induction 1 as [|i d dp c cp x secrets nd nodes [Hm _] H IH]; constructor; auto. Qed.

Lemma rows_len tree seal i dp cp secrets nodes : rows tree seal i dp cp secrets nodes ->
  List.length nodes = List.length dp.
Proof. induction 1; cbn; congruence. Qed.

(** The row at the level of the first part of the path. *)
Lemma rows_split tree seal : forall pre i a post cpre c cpost spre x spost nodes,
  rows tree seal i (pre ++ a :: post) (cpre ++ c :: cpost) (spre ++ x :: spost) nodes ->
  List.length pre = List.length cpre -> List.length pre = List.length spre ->
  exists npre nd npost, nodes = npre ++ nd :: npost /\ List.length npre = List.length pre /\
    row tree seal (i + len pre) a c x nd /\ Forall2 node_matches npost spost.
Proof.
  induction pre as [|d pre IH]; intros i a post [|c0 cpre] c cpost [|x0 spre] x spost nodes H Hc Hs;
    try discriminate Hc; try discriminate Hs; cbn [app] in H.
  - inversion H as [|? ? ? ? ? ? ? nd nodes' Hr Hrest]; subst. exists [], nd, nodes'.
    rewrite len_nil, Z.add_0_r. conjs; auto. eapply rows_match; eassumption.
  - inversion H as [|? ? ? ? ? ? ? nd nodes' Hr Hrest]; subst.
    apply IH in Hrest; [|now injection Hc|now injection Hs].
    destruct Hrest as (npre & nd1 & npost & -> & Hl & Hrow & Hm). exists (nd :: npre), nd1, npost.
    rewrite len_cons. conjs; auto; [cbn; congruence|]. replace (i + (1 + len pre)) with (i + 1 + len pre) by lia. exact Hrow.
Qed.

(** The ciphertext for the [j]-th node of a resolution. *)
Lemma encrypted_at tree seal secret d : forall res k cts j q,
  mapR (fun '(j, res_node) =>
          let? (target_x25519, target_kyber) := ok_or (get_node_public_keys tree res_node)
            (ProtocolError.tree_integrity "Resolution node {res_node} is blank") in
          encrypt_path_secret secret target_x25519 target_kyber d (seal j)) (enumerate_from k res) = Ok cts ->
  0 <= j -> vget res j = Some q ->
  exists x kp ct, get_node_public_keys tree q = Some (x, kp) /\ vget cts j = Some ct /\
    encrypt_path_secret secret x kp d (seal (k + j)) = Ok ct.
Proof.
  induction res as [|r res IH]; intros k cts j q H Hj Hq; [unfold vget in Hq; destruct (Z.to_nat j); discriminate Hq|].
  cbn [enumerate_from mapR] in H. inv_ok. destruct (Z.eq_dec j 0) as [->|Hne].
  - injection Hq as <-. destruct (get_node_public_keys tree r) as [[xp kp]|] eqn:Ek; [|discriminate]. inv_ok.
    rewrite Z.add_0_r. exists xp, kp. eexists. conjs; [reflexivity|reflexivity|eassumption].
  - assert (Hv : forall A (y : A) l, vget (y :: l) j = vget l (j - 1))
      by (intros A y l; unfold vget; now replace (Z.to_nat j) with (S (Z.to_nat (j - 1))) by lia).
    rewrite Hv in Hq. match goal with Hm : mapR _ (enumerate_from _ _) = Ok _ |- _ =>
      destruct (IH (k + 1) _ (j - 1) q Hm) as (xp & kp & ct & A & B & C); [lia|exact Hq|] end.
    exists xp, kp, ct. rewrite Hv. replace (k + 1 + (j - 1)) with (k + j) in C by lia. auto.
Qed.

(** ** Parent hashes *)

Inductive hash_chain (tree : RatchetTree) (n : Z) : list Z -> list GroupUpdatePathNode.t -> Prop :=
| chain_top d nd : GroupUpdatePathNode.parent_hash nd = zero_hash -> hash_chain tree n [d] [nd]
| chain_up d e dp nd p nodes sib :
    sibling d n = Ok sib ->
    compute_parent_hash_value tree (GroupUpdatePathNode.x25519_public p) (GroupUpdatePathNode.kyber_public p)
      (GroupUpdatePathNode.parent_hash p) sib = Ok (GroupUpdatePathNode.parent_hash nd) ->
    hash_chain tree n (e :: dp) (p :: nodes) -> hash_chain tree n (d :: e :: dp) (nd :: p :: nodes).

Lemma set_hashes_chain tree n dp : forall nodes nodes', set_parent_hashes tree n dp nodes = Ok nodes' ->
  List.length dp = List.length nodes -> dp <> [] -> hash_chain tree n dp nodes'.
Proof.
  induction dp as [|d dp IH]; intros [|nd nodes] nodes' H Hl Hne; try discriminate Hl; [easy|].
  cbn [set_parent_hashes] in H. apply rbind_Ok in H. destruct H as (above & Ha & H).
  destruct dp as [|e dp].
  - destruct nodes as [|? ?]; [|discriminate Hl]. cbn [set_parent_hashes] in Ha. apply Ok_inj in Ha. subst above.
    apply Ok_inj in H. subst nodes'. now constructor.
  - apply IH in Ha; [|now injection Hl|discriminate]. destruct above as [|p above]; [inversion Ha|]. inv_ok.
    econstructor; [eassumption| |exact Ha]. assumption.
Qed.

(** One node of [verify_chain]: its stored hash, and what it expects below. *)
Definition chain_check (s : RatchetTree) (root_idx node_idx : Z) (expected : bytes) : PResult bytes :=
  let? stored := ok_or (get_node_parent_hash s node_idx)
    (ProtocolError.tree_integrity "Missing parent_hash at node {node_idx}") in
  check? len stored =? SHA256_HASH_BYTES
    else ProtocolError.tree_integrity "Invalid parent_hash length at node {node_idx}: expected {}, got {}" in
  let? _ :=
    if node_idx =? root_idx
    then ensure (is_all_zero stored) (ProtocolError.tree_integrity "parent_hash at root node must be all-zero")
    else ensure (negb (is_all_zero stored))
           (ProtocolError.tree_integrity "parent_hash is all-zero at non-root node {node_idx}") in
  let? hash_ok := crypto_err (constant_time_equals stored expected) in
  check? hash_ok else ProtocolError.tree_integrity "parent_hash mismatch at node {node_idx}" in
  Ok stored.

Definition chain_next (s : RatchetTree) (node_idx : Z) (stored : bytes) (child : Z) : PResult bytes :=
  let? sib_idx := sibling child (RatchetTree.leaf_count s) in
  let? keys := ok_or (get_node_public_keys s node_idx)
    (ProtocolError.tree_integrity "Missing public keys at node {node_idx} for parent_hash verification") in
  compute_parent_hash_value s (fst keys) (snd keys) stored sib_idx.

Lemma verify_chain_cons s r d rest e :
  verify_chain s r (d :: rest) e =
  (let? stored := chain_check s r d e in
   match rest with
   | [] => Ok tt
   | c :: _ => let? e' := chain_next s d stored c in verify_chain s r rest e'
   end).
Proof.
  cbn [verify_chain]. unfold chain_check, chain_next. destruct (ok_or (get_node_parent_hash s d) _) as [st|]; [|reflexivity].
  cbn [rbind]. destruct (len st =? SHA256_HASH_BYTES); [|reflexivity]. cbn [ensure rbind].
  destruct (d =? r); [destruct (is_all_zero st)|destruct (negb (is_all_zero st))]; try reflexivity; cbn [ensure rbind];
    (destruct (crypto_err _) as [[|]|]; [|reflexivity..]; cbn [ensure rbind]; destruct rest as [|c rest]; [reflexivity|];
     destruct (sibling c _); [|reflexivity]; cbn [rbind]; destruct (ok_or _ _); reflexivity).
Qed.

Lemma verify_chain_snoc s r p d st h : get_node_parent_hash s p = Some st -> chain_next s p st d = Ok h ->
  chain_check s r d h = Ok h ->
  forall l e, verify_chain s r (l ++ [p]) e = Ok tt -> verify_chain s r ((l ++ [p]) ++ [d]) e = Ok tt.
Proof.
  intros Hp Hn Hd. induction l as [|x l IH]; intros e H; cbn [app] in H |- *; rewrite verify_chain_cons in *.
  - apply rbind_Ok in H. destruct H as (st' & Hc & _). rewrite Hc. cbn [rbind].
    assert (st' = st) as ->.
    { unfold chain_check in Hc. rewrite Hp in Hc. cbn [ok_or rbind] in Hc. now inv_ok. }
    rewrite Hn. cbn [rbind]. rewrite verify_chain_cons, Hd. reflexivity.
  - apply rbind_Ok in H. destruct H as (st' & Hc & H). rewrite Hc. cbn [rbind].
    destruct (l ++ [p]) as [|c rest] eqn:E; [now destruct l|]. cbn [app].
    apply rbind_Ok in H. destruct H as (e' & He & H). rewrite He. cbn [rbind]. now apply IH.
Qed.

(** A tree that stores the keys and hashes of the path. *)
Definition stores (s : RatchetTree) (d : Z) (nd : GroupUpdatePathNode.t) : Prop :=
  get_node_parent_hash s d = Some (GroupUpdatePathNode.parent_hash nd) /\
  get_node_public_keys s d = Some (GroupUpdatePathNode.x25519_public nd, GroupUpdatePathNode.kyber_public nd).

Lemma chain_check_ok s r d nd : get_node_parent_hash s d = Some (GroupUpdatePathNode.parent_hash nd) ->
  len (GroupUpdatePathNode.parent_hash nd) = SHA256_HASH_BYTES ->
  is_all_zero (GroupUpdatePathNode.parent_hash nd) = (d =? r) ->
  chain_check s r d (GroupUpdatePathNode.parent_hash nd) = Ok (GroupUpdatePathNode.parent_hash nd).
Proof.
  intros Hp Hl Hz. unfold chain_check. rewrite Hp. cbn [ok_or rbind]. rewrite Hl, Z.eqb_refl, Hz. cbn [ensure rbind].
  destruct (d =? r); cbn [negb ensure rbind]; rewrite constant_time_equals_spec, bytes_eqb_refl; reflexivity.
Qed.

Lemma path_hashes_cons nd nodes : validate_path_hashes (nd :: nodes) = Ok tt ->
  len (GroupUpdatePathNode.parent_hash nd) = SHA256_HASH_BYTES /\
  (nodes = [] \/ is_all_zero (GroupUpdatePathNode.parent_hash nd) = false) /\ validate_path_hashes nodes = Ok tt.
Proof.
  intros H. cbn [validate_path_hashes] in H. inv_ok. bools. conjs; auto.
  match goal with Hz : _ || _ = true |- _ => apply orb_true_iff in Hz; destruct Hz as [Hz|Hz]; bools; [left|now right] end.
  now destruct nodes.
Qed.

Lemma chain_verified s s' n r dp nodes : hash_chain s n dp nodes -> RatchetTree.leaf_count s' = n ->
  Forall2 (stores s') dp nodes -> NoDup dp -> last dp r = r -> validate_path_hashes nodes = Ok tt ->
  (forall d sib, In d dp -> sibling d n = Ok sib -> d <> r -> compute_node_hash s' sib = compute_node_hash s sib) ->
  verify_chain s' r (rev dp) zero_hash = Ok tt.
Proof.
  intros H Hn. induction H as [d nd Hz|d e dp nd p nodes sib Hs Hh H IH]; intros Hst Hnd Hlast Hv Hsub.
  - inversion Hst as [|? ? ? ? [Hp _] _]; subst. cbn [last] in Hlast. subst d. cbn [rev app]. rewrite verify_chain_cons.
    rewrite <- Hz. rewrite (chain_check_ok s' r r nd Hp); [reflexivity| |]; rewrite Hz; [reflexivity|now rewrite Z.eqb_refl].
  - inversion Hst as [|? ? ? ? [Hp Hk] Hst']; subst. inversion Hnd as [|? ? Hni Hnd']; subst.
    apply path_hashes_cons in Hv. destruct Hv as (Hl & Hz & Hv).
    assert (Hdr : d <> r).
    { intros ->. apply Hni. change (last (e :: dp) r = r) in Hlast. rewrite <- Hlast.
      clear. revert e. induction dp as [|e' dp IHdp]; intros e; [now left|]. right. exact (IHdp e'). }
    cbn [rev] in *. inversion Hst' as [|? ? ? ? [Hpp Hpk] _]; subst.
    apply (verify_chain_snoc s' r e d (GroupUpdatePathNode.parent_hash p) (GroupUpdatePathNode.parent_hash nd)).
    + exact Hpp.
    + unfold chain_next. rewrite Hs. cbn [rbind]. rewrite Hpk. cbn [ok_or rbind fst snd].
      unfold compute_parent_hash_value, subtree_hash in *. rewrite (Hsub d sib); auto. now left.
    + apply chain_check_ok; auto. rewrite (proj2 (Z.eqb_neq d r) Hdr). now destruct Hz.
    + apply IH; auto. intros d' sib' Hin. apply Hsub. now right.
Qed.

End Path.
