(* ===== verification/PathAgreement.v ===== *)
(** * Committer and members agree on an update path

    What a member derives from the secret it can decrypt is what the committer
    derived; after both have installed the path their trees show the same public
    keys, and each holds the private keys of the nodes above its own leaf. *)

From Stdlib Require Import ZArith List Bool Lia String.
From S2P Require Import Prelude Constants SecureMemory Crypto Signatures DhValidator TreeIndex GroupProto KeyPackage.
From S2P Require Import RatchetTree TreeKem Commit TreeFacts TreeResolution PathSecrets TreeUpdates.
Import ListNotations.
Open Scope Z_scope.

(** ** Paths and subtrees *)

Section Geometry.
Context (n : Z) (Hn : 0 < n <= max_leaves) (r : Z) (Hr : root n = Ok r).

Lemma climbs_NoDup x path cp : climbs n r x path cp -> NoDup path.
Proof.
  induction 1 as [|x p s path cp Hne Hs Hc IH]; constructor; [|exact IH]. intros Hin.
  destruct Hs as ((Tp & _) & _). pose proof (climbs_partition n Hn r p path cp p Hr Hc Tp) as Hpart.
  pose proof (interval_self n Hn p Tp) as Hi. assert (Hb : below n p p = true) by (apply below_spec; lia).
  rewrite Hb in Hpart. cbn [one_if] in Hpart.
  assert (0 < len (filter (fun q => q =? p) path)).
  { assert (Hf : In p (filter (fun q => q =? p) path)) by (apply filter_In; split; [exact Hin|apply Z.eqb_refl]).
    destruct (filter _ path); [destruct Hf|]. rewrite len_cons. pose proof (len_nonneg l). lia. }
  pose proof (len_nonneg (filter (fun c => below n c p) cp)). unfold covers in Hpart. lia.
Qed.

Lemma leaf_off_path x path cp : climbs n r x path cp -> forall i, ~ In (2 * i) path.
Proof.
  intros Hc i Hin. pose proof (path_inner n _ _ _ _ Hc) as Hp. rewrite Forall_forall in Hp.
  destruct (Hp _ Hin) as [_ Hl]. rewrite is_leaf_double in Hl. discriminate.
Qed.

Context (c : Z) (dp cp : list Z) (Hc : 0 <= c < n) (Hclimb : climbs n r (2 * c) dp cp).

(** The subtree of the sibling of a path node contains no node of the path. *)
Lemma sibling_off_path d sib t : In d dp -> d <> r -> sibling d n = Ok sib ->
  in_tree n sib /\ (low sib <= t <= high n sib -> t <> 2 * c /\ ~ In t dp).
Proof.
  intros Hd Hne Hs. pose proof (path_inner n _ _ _ _ Hclimb) as Hp. rewrite Forall_forall in Hp.
  destruct (Hp d Hd) as [Td _]. destruct (sibling_ok n Hn d r Td Hr Hne) as (p & sib' & _ & Hs' & Hsib).
  assert (sib' = sib) by congruence. subst sib'. destruct (leaf_in_tree n Hn c Hc) as [_ Tc].
  destruct Hsib as (Hx & Hsx & Hint). destruct (is_child_interval n Hn p sib Hsx) as (Tsib & _). split; [exact Tsib|].
  pose proof (proj2 (climbs_ancestors n Hn r _ _ _ Hr Hclimb Tc d Td) (or_intror Hd)) as Hb. apply below_spec in Hb.
  assert (Hout : ~ (low sib <= 2 * c <= high n sib)) by (destruct Hint as [(A & B & C & D)|(A & B & C & D)]; lia).
  intros Ht. split; [intros ->; now apply Hout|]. intros Hin. destruct (Hp t Hin) as [Tt _].
  pose proof (proj2 (climbs_ancestors n Hn r _ _ _ Hr Hclimb Tc t Tt) (or_intror Hin)) as Hbt. apply below_spec in Hbt.
  assert (Hdesc : descends n sib t).
  { apply (interval_descends n Hn 20); auto. pose proof (level_nonneg n Hn sib Tsib). lia. }
  destruct (descends_interval n Hn sib t Hdesc Tsib) as (_ & A & B). apply Hout. lia.
Qed.

End Geometry.

(** ** The public effect of a path *)

Definition path_edit (leaf_node : Z) (dp : list Z) (p : GroupUpdatePath.t) (j : Z) : Edit := fun c =>
  if leaf_node =? j then set_pub (GroupUpdatePath.leaf_x25519_public p) (GroupUpdatePath.leaf_kyber_public p) c
  else match assoc dp (GroupUpdatePath.nodes p) j with Some nd => hash_of nd (pub_of nd c) | None => c end.

(** [g] is [path_edit] as far as the public view is concerned. *)
Definition shows (g : Z -> Edit) (leaf_node : Z) (dp : list Z) (p : GroupUpdatePath.t) : Prop :=
  forall j c, 0 <= j -> strip (g j c) = path_edit leaf_node dp p j (strip c).

Lemma shows_view s s' g leaf_node dp p j : edited s s' g -> shows g leaf_node dp p -> 0 <= j ->
  view s' j = option_map (path_edit leaf_node dp p j) (view s j).
Proof.
  intros H Hg Hj. unfold view. rewrite (ed_node _ _ _ H j Hj). destruct (vget (RatchetTree.nodes s) j) as [c|]; [|reflexivity].
  cbn [option_map]. now rewrite Hg.
Qed.

Lemma shows_public s1 s1' s2 s2' g1 g2 leaf_node dp p : public s1 = public s2 ->
  edited s1 s1' g1 -> edited s2 s2' g2 -> shows g1 leaf_node dp p -> shows g2 leaf_node dp p -> public s1' = public s2'.
Proof.
  intros Hp H1 H2 G1 G2. apply public_ext.
  - intros i Hi. rewrite (shows_view _ _ _ _ _ _ _ H1 G1 Hi), (shows_view _ _ _ _ _ _ _ H2 G2 Hi).
    now rewrite (public_view _ _ i Hp).
  - rewrite (ed_leaves _ _ _ H1), (ed_leaves _ _ _ H2). now apply public_leaves.
  - rewrite (ed_count _ _ _ H1), (ed_count _ _ _ H2). now apply public_count.
Qed.

Lemma assoc_Forall2 {A} (R : Z -> A -> Prop) dp : NoDup dp -> forall l, List.length dp = List.length l ->
  (forall d a, assoc dp l d = Some a -> R d a) -> Forall2 R dp l.
Proof.
  induction 1 as [|d dp Hd H IH]; intros [|a l] Hl HR; try discriminate Hl; constructor.
  - apply HR. cbn [assoc]. now rewrite Z.eqb_refl.
  - apply IH; [now injection Hl|]. intros d' a' Ha. apply HR. cbn [assoc]. destruct (Z.eqb_spec d d') as [<-|]; [|exact Ha].
    apply assoc_In in Ha. easy.
Qed.

Section Stored.
Context {P : Primitives}.

Lemma shows_stores s s' g leaf_node dp p : edited s s' g -> shows g leaf_node dp p -> NoDup dp -> ~ In leaf_node dp ->
  List.length dp = List.length (GroupUpdatePath.nodes p) -> in_range s dp ->
  Forall2 (stores s') dp (GroupUpdatePath.nodes p).
Proof.
  intros H Hg Hnd Hl Hlen Hr. apply assoc_Forall2; [exact Hnd|exact Hlen|]. intros d nd Ha.
  pose proof (proj1 (assoc_In _ _ _ _ Ha)) as Hin. pose proof (proj1 (Forall_forall _ _) Hr d Hin) as Hd.
  pose proof (shows_view _ _ _ _ _ _ d H Hg (proj1 Hd)) as Hv. unfold stores. rewrite view_parent_hash, view_keys, Hv.
  unfold path_edit. destruct (Z.eqb_spec leaf_node d) as [->|_]; [easy|]. rewrite Ha. unfold view.
  destruct (vget_in_range (RatchetTree.nodes s) d Hd) as [c ->]. destruct c; split; reflexivity.
Qed.

(** The hash of the sibling of a path node is not affected. *)
Lemma shows_subtree n r c dp cp s s' g p d sib : 0 < n <= max_leaves -> root n = Ok r -> 0 <= c < n ->
  climbs n r (2 * c) dp cp -> RatchetTree.leaf_count s = n -> edited s s' g -> shows g (2 * c) dp p ->
  In d dp -> sibling d n = Ok sib -> d <> r -> compute_node_hash s' sib = compute_node_hash s sib.
Proof.
  intros Hn Hr Hc Hcl Hs H Hg Hd Hsib Hne. unfold compute_node_hash.
  destruct (sibling_off_path n Hn r Hr c dp cp Hc Hcl d sib 0 Hd Hne Hsib) as [Tsib _].
  apply (compute_node_hash_local s' s n); auto. { now rewrite (ed_count _ _ _ H). }
  split; [|intros j _; unfold get_leaf_data; now rewrite (ed_leaves _ _ _ H)].
  intros i Hi. destruct (sibling_off_path n Hn r Hr c dp cp Hc Hcl d sib i Hd Hne Hsib) as [_ Hoff].
  destruct (Hoff Hi) as [H1 H2]. pose proof (interval_self n Hn sib Tsib) as [_ Hlo].
  rewrite (shows_view _ _ _ _ _ _ i H Hg ltac:(lia)). unfold path_edit. destruct (Z.eqb_spec (2 * c) i) as [E|_]; [lia|].
  rewrite assoc_None by exact H2. now destruct (view s i).
Qed.

End Stored.

(** ** Ownership *)

Section Run.
Context {P : Primitives} {L : PrimitiveLaws P} {SG : Signatures}.

(** Member [m] has the private keys of every populated node above its leaf. *)
Definition holds (s : RatchetTree) (m : Z) : Prop :=
  forall t k ph, 0 <= t -> below (RatchetTree.leaf_count s) t (2 * m) = true ->
    vget (RatchetTree.nodes s) t = Some (Populated k ph) -> keyed k.

(** A path that passes the receivers' checks of its keys. *)
Definition path_sound (p : GroupUpdatePath.t) : Prop :=
  validate_path_keys p = Ok tt /\ validate_path_hashes (GroupUpdatePath.nodes p) = Ok tt /\
  Forall (fun nd => Forall ct_sound (GroupUpdatePathNode.encrypted_path_secrets nd)) (GroupUpdatePath.nodes p).

Definition seals_ok (seal : Z -> Z -> SealEntropy) : Prop :=
  forall i j, len (se_ephemeral (seal i j)) = X25519_PRIVATE_KEY_BYTES.

Lemma vget_mid {A} (pre : list A) a post : vget (pre ++ a :: post) (len pre) = Some a.
Proof. unfold vget, len. rewrite Nat2Z.id, nth_error_app2, Nat.sub_diag by lia. reflexivity. Qed.

Lemma skipn_mid {A} (pre : list A) l k : k = List.length pre -> skipn k (pre ++ l) = l.
Proof. intros ->. now rewrite skipn_app, skipn_all, Nat.sub_diag. Qed.

Lemma firstn_mid {A} (pre : list A) l k : k = List.length pre -> firstn k (pre ++ l) = pre.
Proof. intros ->. rewrite firstn_app, Nat.sub_diag, firstn_all. apply app_nil_r. Qed.

Lemma assoc_match {A B} (R : A -> B -> Prop) dp : forall l1 l2 j a, Forall2 R l1 l2 -> assoc dp l1 j = Some a ->
  exists b, assoc dp l2 j = Some b /\ R a b.
Proof.
  induction dp as [|d dp IH]; intros l1 l2 j a H Ha; [discriminate|].
  destruct H as [|x y l1 l2 Hxy H]; [discriminate|]. cbn [assoc] in *. destruct (d =? j); [|eauto].
  apply Some_inj in Ha. subst. eauto.
Qed.

(** ** The member's edits *)

Section Edits.
Context (mdp pre upper : list Z) (npre nupper : list GroupUpdatePathNode.t) (secrets : list bytes).
Context (cn : Z) (p : GroupUpdatePath.t).
Context (Hdup : NoDup (pre ++ upper)) (Hlp : List.length pre = List.length npre) (Hlu : List.length upper = List.length nupper).
Context (Hm : Forall2 node_matches nupper secrets) (Hcn : ~ In cn (pre ++ upper)).
Context (Hp : GroupUpdatePath.nodes p = npre ++ nupper).

(** Keys above the entry, public keys below it, the committer's leaf. *)
Definition member_keys : Z -> Edit :=
  seq_edit (seq_edit (along_levels mdp upper secrets) (along pub_of pre npre))
    (at_node cn (set_pub (GroupUpdatePath.leaf_x25519_public p) (GroupUpdatePath.leaf_kyber_public p))).

Lemma member_keys_cases j c :
  (cn = j /\ member_keys j c = set_pub (GroupUpdatePath.leaf_x25519_public p) (GroupUpdatePath.leaf_kyber_public p) c) \/
  (cn <> j /\ exists nd, assoc (pre ++ upper) (npre ++ nupper) j = Some nd /\ In j pre /\ member_keys j c = pub_of nd c) \/
  (cn <> j /\ exists nd x, assoc (pre ++ upper) (npre ++ nupper) j = Some nd /\ In j upper /\ In x secrets /\
     node_matches nd x /\ member_keys j c = level_edit mdp j x c) \/
  (cn <> j /\ ~ In j (pre ++ upper) /\ member_keys j c = c).
Proof.
  pose proof (NoDup_app_remove_r _ _ Hdup) as Hd1. pose proof (NoDup_app_remove_l _ _ Hdup) as Hd2.
  unfold member_keys, seq_edit, at_node. destruct (Z.eqb_spec cn j) as [<-|Hne].
  - left. split; [reflexivity|]. rewrite along_levels_out, along_out; [reflexivity| |]; intros Hin; apply Hcn, in_or_app; auto.
  - right. rewrite along_assoc by exact Hd1. destruct (assoc pre npre j) as [nd|] eqn:Ea.
    + left. split; [exact Hne|]. exists nd. rewrite assoc_app, Ea by exact Hlp. pose proof (proj1 (assoc_In _ _ _ _ Ea)) as Hin.
      conjs; auto. f_equal. apply along_levels_out. intros Hin2. revert Hin Hin2. clear - Hdup.
      induction pre as [|d l IH]; [easy|]. cbn [app] in Hdup. inversion Hdup as [|? ? Hx Hd]; subst.
      intros [<-|Hin] Hin2; [apply Hx, in_or_app; auto|auto].
    + right. rewrite along_levels_assoc, assoc_app, Ea by (exact Hd2 || exact Hlp).
      destruct (assoc upper nupper j) as [nd|] eqn:Eu.
      * left. split; [exact Hne|]. destruct (assoc_match _ _ _ _ _ _ Hm Eu) as (x & Ex & Hx). exists nd, x. rewrite Ex.
        conjs; auto; [now apply assoc_In in Eu|now apply assoc_In in Ex].
      * right. assert (Hni : ~ In j (pre ++ upper)).
        { intros Hin. apply in_app_or in Hin. destruct Hin as [Hin|Hin];
            [destruct (assoc_Some pre npre j Hlp Hin)|destruct (assoc_Some upper nupper j Hlu Hin)]; congruence. }
        conjs; auto. rewrite assoc_None; [reflexivity|]. intros Hin. apply Hni, in_or_app. auto.
Qed.

Definition member_edit : Z -> Edit := seq_edit member_keys (along hash_of (pre ++ upper) (npre ++ nupper)).

Lemma level_edit_strip my_dp j x nd c : node_matches nd x -> strip (level_edit my_dp j x c) = pub_of nd (strip c).
Proof.
  intros [Hx Hk]. unfold level_edit, pub_of. rewrite Hx, Hk.
  destruct (existsb _ _); now rewrite ?strip_set_priv, strip_set_pub.
Qed.

Lemma member_edit_shows : shows member_edit cn (pre ++ upper) p.
Proof.
  intros j c _. unfold member_edit, seq_edit, path_edit. rewrite along_assoc by exact Hdup. rewrite Hp.
  destruct (member_keys_cases j c) as [(<- & E)|[(Hne & nd & Ha & _ & E)|[(Hne & nd & x & Ha & _ & _ & Hx & E)|(Hne & Hni & E)]]].
  - rewrite Z.eqb_refl, assoc_None by exact Hcn. now rewrite E, strip_set_pub.
  - rewrite (proj2 (Z.eqb_neq cn j) Hne), Ha, E. unfold hash_of, pub_of. now rewrite strip_set_ph, strip_set_pub.
  - rewrite (proj2 (Z.eqb_neq cn j) Hne), Ha, E. unfold hash_of at 1. rewrite strip_set_ph.
    now rewrite (level_edit_strip mdp j x nd c Hx).
  - now rewrite (proj2 (Z.eqb_neq cn j) Hne), assoc_None, E by exact Hni.
Qed.

Lemma member_keys_populates s s' : edited s s' member_keys -> in_range s (pre ++ upper) -> populated s' (pre ++ upper).
Proof.
  intros H Hr. apply Forall_forall. intros d Hd. pose proof (proj1 (Forall_forall _ _) Hr d Hd) as Hrd.
  split; [apply Hrd|]. unfold is_blank. rewrite (ed_node _ _ _ H d (proj1 Hrd)).
  destruct (vget_in_range _ _ Hrd) as [c ->]. cbn [option_map].
  destruct (member_keys_cases d c) as [(<- & E)|[(_ & nd & _ & _ & E)|[(_ & nd & x & _ & _ & _ & _ & E)|(_ & Hni & _)]]];
    [easy|rewrite E; now destruct c|rewrite E|easy].
  unfold level_edit. destruct c, (existsb _ _); reflexivity.
Qed.

End Edits.

(** ** The member's side *)

Section Member.
Context (n : Z) (Hn : 0 < n <= max_leaves) (r : Z) (Hr : root n = Ok r).
Context (s tc : RatchetTree) (Hpub : public tc = public s).
Context (Hcount : RatchetTree.leaf_count s = n) (Hnodes : len (RatchetTree.nodes s) = node_count n).
Context (c m : Z) (Hc : 0 <= c < n) (Hm : 0 <= m < n) (Hcm : c <> m) (Hocc : is_blank s (2 * m) = false).
Context (Hholds : holds s m).
Context (dp cp mdp mcp : list Z) (Hclimb : climbs n r (2 * c) dp cp) (Hmine : climbs n r (2 * m) mdp mcp).
Context (seal : Z -> Z -> SealEntropy) (Hseal : seals_ok seal).

Lemma path_in_range l : climbs n r (2 * c) l cp -> in_range s l.
Proof.
  intros H. pose proof (path_inner n _ _ _ _ H) as Hp. eapply Forall_impl; [|exact Hp].
  intros d [Td _]. rewrite Hnodes. exact Td.
Qed.

(** The secret of the level at which the member enters the path. *)
Lemma entry_found s0 p : len s0 = PATH_SECRET_BYTES ->
  rows tc seal 0 dp cp (s0 :: secret_chain (List.length dp - 1) s0 1) (GroupUpdatePath.nodes p) -> path_sound p ->
  exists pre a post spre x npre nd npost,
    dp = pre ++ a :: post /\ s0 :: secret_chain (List.length dp - 1) s0 1 = spre ++ x :: secret_chain (List.length post) x (len pre + 1) /\
    GroupUpdatePath.nodes p = npre ++ nd :: npost /\ List.length npre = List.length pre /\ List.length spre = List.length pre /\
    len x = PATH_SECRET_BYTES /\ node_matches nd x /\ Forall2 node_matches npost (secret_chain (List.length post) x (len pre + 1)) /\
    Forall (fun t => below n t (2 * m) = false) pre /\ Forall (fun t => below n t (2 * m) = true) (a :: post) /\
    open_path_secret s p dp cp (2 * m) mdp = Ok (len pre, x).
Proof.
  intros Hs0 Hrows (_ & _ & Hct). destruct (leaf_in_tree n Hn c Hc) as [_ Tc]. destruct (leaf_in_tree n Hn m Hm) as [_ Tm].
  assert (Hb : below n (2 * c) (2 * m) = false).
  { destruct (leaf_interval n Hn (2 * c) Tc (is_leaf_double c)) as [A B]. unfold below. rewrite A, B.
    apply andb_false_iff. rewrite !Z.leb_gt. lia. }
  destruct (level_found n Hn s Hcount Hnodes m Hm Hocc r mdp mcp Hr Hmine (2 * c) dp cp Hclimb Tc Hb 0)
    as (pre & a & post & cpre & cn & cpost & Edp & Ecp & Hlen & Hlv & Hpre & Hpost & Tcn & Hcn).
  assert (Hl1 : (List.length dp - 1 = List.length pre + List.length post)%nat)
    by (rewrite Edp, length_app; cbn [List.length]; lia).
  assert (Hlc : List.length pre = List.length cpre) by (unfold len in Hlen; lia).
  destruct (secret_chain_split (List.length pre) (List.length post) s0 1 Hs0) as (spre & x & Hsp & Hx & Es).
  rewrite <- Hl1 in Es. replace (1 + Z.of_nat (List.length pre)) with (len pre + 1) in Es by (unfold len; lia).
  pose proof Hrows as Hrows'. rewrite Es, Edp, Ecp in Hrows'.
  destruct (rows_split tc seal pre 0 a post cpre cn cpost spre x _ _ Hrows' Hlc (eq_sym Hsp))
    as (npre & nd & npost & En & Hln & (Hnm & res & Hres & Henc) & Hmn).
  exists pre, a, post, spre, x, npre, nd, npost. conjs; auto.
  destruct (resolution_mine n Hn s Hcount Hnodes m Hm Hocc r mdp mcp Hr Hmine cn Tcn Hcn)
    as (res' & j & q & Hres' & Hex & Hfp & Hj & Hvq & Hbq & Tq & Hbl).
  assert (res' = res).
  { unfold resolution in Hres, Hres'. rewrite (resolution_public tc s depth_fuel Hpub) in Hres. congruence. }
  subst res'. destruct (encrypted_at tc (seal (0 + len pre)) x a res 0 _ j q Henc Hj Hvq) as (qx & qk & ct & Hqk & Hvct & He).
  unfold open_path_secret. unfold find_ancestor_level. rewrite Hlv. cbn [rbind ok_or]. rewrite Z.add_0_l.
  replace (vget (GroupUpdatePath.nodes p) (len pre)) with (Some nd)
    by (rewrite En; symmetry; replace (len pre) with (len npre) by (unfold len; lia); apply vget_mid).
  replace (vget cp (len pre)) with (Some cn) by (rewrite Ecp, Hlen; symmetry; apply vget_mid).
  cbn [ok_or rbind]. rewrite Hres'. cbn [rbind]. rewrite Hfp. cbn [ok_or rbind]. rewrite Hvct. cbn [ok_or rbind].
  unfold is_blank in Hbl. unfold get_node_keys. destruct (vget (RatchetTree.nodes s) q) as [[|k ph]|] eqn:Eq; try discriminate Hbl.
  cbn [ok_or rbind]. destruct Tq as [Tq0 Tq1].
  assert (Hk : keyed k) by (apply (Hholds q k ph Tq0); [rewrite Hcount; exact Hbq|exact Eq]).
  pose proof Hk as (xs & en & Kx & _ & _ & Kk & _). rewrite Kx, Kk. cbn [ok_or rbind].
  replace (vget dp (len pre)) with (Some a) by (rewrite Edp; symmetry; apply vget_mid). cbn [ok_or rbind].
  rewrite view_keys, (public_view _ _ q Hpub) in Hqk. unfold view in Hqk. rewrite Eq in Hqk. cbn in Hqk.
  apply Some_inj, pair_inj in Hqk as [<- <-].
  rewrite (path_secret_roundtrip x k a (seal (0 + len pre) (0 + j)) ct _ _ Hk Kx Kk (Hseal _ _) He); [reflexivity|].
  rewrite Forall_forall in Hct. specialize (Hct nd). rewrite Forall_forall in Hct.
  apply Hct; [rewrite En; apply in_elt|]. eapply nth_error_In. exact Hvct.
Qed.

Context (Hdp : direct_path c n = Ok dp) (Hcp : copath c n = Ok cp) (Hmdp : direct_path m n = Ok mdp).

(** The private keys of a member survive its own edits. *)
Lemma member_holds s' pre upper npre nupper secrets p :
  dp = pre ++ upper -> List.length pre = List.length npre -> List.length upper = List.length nupper ->
  Forall2 node_matches nupper secrets -> Forall (fun x => len x = PATH_SECRET_BYTES) secrets ->
  Forall (fun t => below n t (2 * m) = false) pre ->
  edited s s' (member_edit mdp pre upper npre nupper secrets (2 * c) p) -> holds s' m.
Proof.
  intros Edp Hlp Hlu Hmt Hsz Hpre He t k ph Ht Hb Hv. rewrite (ed_count _ _ _ He), Hcount in Hb.
  rewrite (ed_node _ _ _ He t Ht) in Hv. destruct (vget (RatchetTree.nodes s) t) as [c0|] eqn:E0; [|discriminate].
  cbn [option_map] in Hv. apply Some_inj in Hv. unfold member_edit, seq_edit in Hv.
  pose proof (climbs_NoDup n Hn r Hr _ _ _ Hclimb) as Hdup. rewrite Edp in Hdup.
  assert (Hcn : ~ In (2 * c) (pre ++ upper)) by (rewrite <- Edp; eapply leaf_off_path; eassumption).
  rewrite along_assoc in Hv by exact Hdup. destruct (leaf_in_tree n Hn c Hc) as [_ Tc].
  destruct (member_keys_cases mdp pre upper npre nupper secrets (2 * c) p Hdup Hlp Hlu Hmt Hcn t c0)
    as [(<- & E)|[(_ & nd & _ & Hin & _)|[(_ & nd & x & Ha & Hin & Hx & Hnm & E)|(_ & Hni & E)]]].
  - exfalso. destruct (leaf_interval n Hn (2 * c) Tc (is_leaf_double c)) as [A B]. apply below_spec in Hb. lia.
  - exfalso. rewrite Forall_forall in Hpre. specialize (Hpre t Hin). congruence.
  - rewrite Ha, E in Hv. assert (Hid : In t dp) by (rewrite Edp; apply in_or_app; auto).
    pose proof (path_inner n _ _ _ _ Hclimb) as Hpi. rewrite Forall_forall in Hpi. destruct (Hpi t Hid) as [Tt Lt].
    destruct (leaf_in_tree n Hn m Hm) as [_ Tm].
    apply (climbs_ancestors n Hn r _ _ _ Hr Hmine Tm t Tt) in Hb.
    destruct Hb as [->|Hb]; [rewrite is_leaf_double in Lt; discriminate|].
    assert (Hex : existsb (Z.eqb t) mdp = true) by (apply existsb_exists; exists t; split; [exact Hb|apply Z.eqb_refl]).
    unfold level_edit in Hv. rewrite Hex in Hv. rewrite Forall_forall in Hsz.
    exists (node_x x), (node_e x). destruct c0; cbn in Hv; injection Hv as <- _; cbn; conjs; auto using len_node_x.
  - rewrite assoc_None, E in Hv by exact Hni. subst c0. eapply Hholds; [exact Ht| |exact E0]. now rewrite Hcount.
Qed.

(** The installation of the derived and the received keys. *)
Lemma install_run p pre a post npre nd npost x m1 m2 :
  let chain := secret_chain (List.length post) x (len pre + 1) in
  dp = pre ++ a :: post -> GroupUpdatePath.nodes p = npre ++ nd :: npost -> List.length npre = List.length pre ->
  len x = PATH_SECRET_BYTES -> node_matches nd x -> Forall2 node_matches npost chain ->
  exists s1 s2 s3 s4 s5, install_level mdp a nd x m1 m2 s = (Ok tt, s1) /\
    climb_path mdp (len pre + 1) post npost x s1 = (Ok (last chain x), s2) /\ install_public pre npre s2 = (Ok tt, s3) /\
    set_node_public_keys (2 * c) (GroupUpdatePath.leaf_x25519_public p) (GroupUpdatePath.leaf_kyber_public p) s3 = (Ok tt, s4) /\
    install_parent_hashes dp (GroupUpdatePath.nodes p) s4 = (Ok tt, s5) /\
    edited s s5 (member_edit mdp pre (a :: post) npre (nd :: npost) (x :: chain) (2 * c) p).
Proof.
  intros chain Edp En Hln Hx Hnm Hmn. pose proof (path_in_range dp Hclimb) as Hrange.
  pose proof (climbs_NoDup n Hn r Hr _ _ _ Hclimb) as Hdup. pose proof (leaf_off_path n r _ _ _ Hclimb c) as Hoff.
  rewrite Edp in Hrange, Hdup, Hoff |- *. apply Forall_app in Hrange as Hr'. destruct Hr' as [Hrpre Hrup].
  apply Forall_cons_iff in Hrup. destruct Hrup as [Hra Hrpost]. destruct (leaf_in_tree n Hn c Hc) as [_ Tc].
  destruct (install_level_run mdp a nd x m1 m2 s Hra Hx Hnm) as (s1 & E1 & G1).
  destruct (climb_path_run mdp post npost x (len pre + 1) s1 (in_range_edited _ _ _ _ G1 Hrpost) Hx Hmn) as (s2 & E2 & G2).
  pose proof (edited_trans _ _ _ _ _ G1 G2) as G12. change (edited s s2 (along_levels mdp (a :: post) (x :: chain))) in G12.
  destruct (install_public_run pre npre s2 (in_range_edited _ _ _ _ G12 Hrpre)) as (s3 & E3 & G3).
  pose proof (edited_trans _ _ _ _ _ G12 G3) as G123.
  destruct (set_pub_run (2 * c) (GroupUpdatePath.leaf_x25519_public p) (GroupUpdatePath.leaf_kyber_public p) s3)
    as (s4 & E4 & G4). { rewrite (ed_len _ _ _ G123), Hnodes. exact Tc. }
  pose proof (edited_trans _ _ _ _ _ G123 G4) as G1234.
  assert (Hmt : Forall2 node_matches (nd :: npost) (x :: chain)) by (constructor; assumption).
  assert (Hlu : List.length (a :: post) = List.length (nd :: npost)).
  { cbn [List.length]. apply Forall2_length in Hmn. unfold chain in Hmn. rewrite secret_chain_len in Hmn. congruence. }
  pose proof (member_keys_populates mdp pre (a :: post) npre (nd :: npost) (x :: chain) (2 * c) p Hdup (eq_sym Hln) Hlu Hmt Hoff
    s s4 G1234 Hrange) as Hpop.
  destruct (install_parent_hashes_run (pre ++ a :: post) (GroupUpdatePath.nodes p) s4 Hpop) as (s5 & E5 & G5).
  exists s1, s2, s3, s4, s5. conjs; auto. rewrite En in G5. exact (edited_trans _ _ _ _ _ G1234 G5).
Qed.

Lemma last_chain pre x chain (d : bytes) : last (pre ++ x :: chain) d = last chain x.
Proof.
  induction pre as [|y pre IH]; cbn [app].
  - destruct chain as [|b l]; [reflexivity|]. change (last (b :: l) d = last (b :: l) x).
    clear. revert b. induction l as [|b' l IH]; intros b; [reflexivity|exact (IH b')].
  - rewrite <- IH. destruct pre; reflexivity.
Qed.

Lemma path_verified s' g p : edited s s' g -> shows g (2 * c) dp p -> hash_chain tc n dp (GroupUpdatePath.nodes p) ->
  validate_path_hashes (GroupUpdatePath.nodes p) = Ok tt -> List.length (GroupUpdatePath.nodes p) = List.length dp ->
  verify_chain s' r (rev dp) zero_hash = Ok tt.
Proof.
  intros G Hshow Hchain Hvh Hlen. pose proof (climbs_NoDup n Hn r Hr _ _ _ Hclimb) as Hdup.
  apply (chain_verified tc s' n r dp (GroupUpdatePath.nodes p)); auto.
  - rewrite (ed_count _ _ _ G). exact Hcount.
  - pose proof (leaf_off_path n r _ _ _ Hclimb c). eapply shows_stores; eauto using path_in_range.
  - destruct Hclimb as [|? ? ? ? ? ? ? Hcl]; [reflexivity|]. exact (climbs_last n r _ _ _ r Hcl).
  - intros d sib Hd Hsib Hne. rewrite (shows_subtree n r c dp cp s s' g p d sib) by assumption.
    destruct (sibling_off_path n Hn r Hr c dp cp Hc Hclimb d sib 0 Hd Hne Hsib) as [Tsib _].
    unfold compute_node_hash. apply (compute_node_hash_local s tc n); auto using agree_public.
    rewrite <- Hcount. now apply public_count.
Qed.

(** Member [m] follows the path: the same commit secret, the same public tree. *)
Lemma process_run s0 p : len s0 = PATH_SECRET_BYTES ->
  rows tc seal 0 dp cp (s0 :: secret_chain (List.length dp - 1) s0 1) (GroupUpdatePath.nodes p) ->
  hash_chain tc n dp (GroupUpdatePath.nodes p) -> path_sound p ->
  exists s' g, process_update_path p c m s = (Ok (last (s0 :: secret_chain (List.length dp - 1) s0 1) []), s') /\
    edited s s' g /\ shows g (2 * c) dp p /\ holds s' m.
Proof.
  intros Hs0 Hrows Hchain Hsound.
  destruct (entry_found s0 p Hs0 Hrows Hsound) as (pre & a & post & spre & x & npre & nd & npost & Edp & Es & En & Hln & Hls
    & Hx & Hnm & Hmn & Hpre & Hpost & Hopen).
  pose proof (climbs_NoDup n Hn r Hr _ _ _ Hclimb) as Hdup. pose proof (leaf_off_path n r _ _ _ Hclimb c) as Hoff.
  pose proof (rows_len _ _ _ _ _ _ _ Hrows) as Hlen.
  destruct (install_run p pre a post npre nd npost x
    "X25519 public key mismatch at ancestor path level {ancestor_level}"%string
    "Kyber public key mismatch at ancestor path level {ancestor_level}"%string Edp En Hln Hx Hnm Hmn)
    as (s1 & s2 & s3 & s4 & s5 & E1 & E2 & E3 & E4 & E5 & G).
  assert (Hmt : Forall2 node_matches (nd :: npost) (x :: secret_chain (List.length post) x (len pre + 1)))
    by (constructor; assumption).
  assert (Hlu : List.length (a :: post) = List.length (nd :: npost)).
  { apply Forall2_length in Hmn. rewrite secret_chain_len in Hmn. cbn [List.length]. congruence. }
  assert (Hshow : shows (member_edit mdp pre (a :: post) npre (nd :: npost)
      (x :: secret_chain (List.length post) x (len pre + 1)) (2 * c) p) (2 * c) dp p)
    by (rewrite Edp; apply member_edit_shows; auto; rewrite <- Edp; assumption).
  exists s5, (member_edit mdp pre (a :: post) npre (nd :: npost) (x :: secret_chain (List.length post) x (len pre + 1)) (2 * c) p).
  split; [|conjs; [exact G|exact Hshow|]].
  - destruct (leaf_in_tree n Hn c Hc) as [Lc _]. destruct (leaf_in_tree n Hn m Hm) as [Lm _].
    destruct Hsound as (Hvk & Hvh & _). rewrite Es, last_chain.
    unfold process_update_path, sgets. unfold sbind at 1, sget at 1. rewrite Hcount.
    destruct (Z.leb_spec n 1); [lia|]. destruct (Z.ltb_spec c n); [|lia]. destruct (Z.ltb_spec m n); [|lia].
    unfold sguard, slift. cbn [negb ensure]. unfold sbind at 1 2 3 4. rewrite Hvk. unfold sbind at 1. rewrite Hdp.
    unfold sbind at 1. rewrite Hcp. unfold sbind at 1. rewrite Lm. unfold sbind at 1.
    unfold len at 1 2. rewrite Hlen, Z.eqb_refl. cbn [ensure]. unfold sbind at 1. rewrite Hvh. unfold sbind at 1. rewrite Hmdp.
    unfold sbind at 1. rewrite Hopen. cbv beta iota zeta.
    assert (Hk : Z.to_nat (len pre) = List.length pre) by (unfold len; lia). rewrite Hk, En, Edp.
    rewrite !skipn_mid, !firstn_mid by (auto; congruence). unfold sret at 1 2. unfold sbind at 1 2.
    rewrite (sbind_run _ _ _ _ _ E1), (sbind_run _ _ _ _ _ E2), (sbind_run _ _ _ _ _ E3), Lc. unfold sbind at 1.
    rewrite (sbind_run _ _ _ _ _ E4). rewrite <- En, <- Edp, (sbind_run _ _ _ _ _ E5).
    assert (Hver : verify_parent_hash_chain s5 c = Ok tt); [|unfold sbind; rewrite Hver; reflexivity].
    unfold verify_parent_hash_chain. rewrite (ed_count _ _ _ G), Hcount, Hdp, Hr. destruct (Z.leb_spec n 1); [lia|].
    cbn [rbind]. destruct (len dp =? 0); [reflexivity|].
    exact (path_verified s5 _ p G Hshow Hchain Hvh Hlen).
  - eapply member_holds; try exact G; auto.
    constructor; [exact Hx|apply secret_chain_sizes].
Qed.

End Member.
End Run.

(** * The committer's side of an update path

    What [create_update_path] returns, and the effect of [make_update_path] on
    the committer's own tree: the public view a path shows, with the private
    keys of the leaf and of every node of the path. *)

Section Committer.
Context {P : Primitives} {L : PrimitiveLaws P} {SG : Signatures}.

(** Draws of the sizes the generators ask for. *)
Definition entropy_ok (e : PathEntropy) : Prop :=
  len (le_x25519 (pe_leaf e)) = X25519_PRIVATE_KEY_BYTES /\ len (pe_secret e) = PATH_SECRET_BYTES /\ seals_ok (pe_seal e).

Definition level_secrets (e : PathEntropy) (dp : list Z) : list bytes :=
  pe_secret e :: secret_chain (List.length dp - 1) (pe_secret e) 1.

Definition leaf_pair (e : PathEntropy) : SecureMemoryHandle.t * SecureMemoryHandle.t :=
  (SecureMemoryHandle.mk (le_x25519 (pe_leaf e)), fst (kyber_pair (le_kyber (pe_leaf e)))).

Section Facts.
Context (n : Z) (Hn : 1 < n <= max_leaves) (r : Z) (Hr : root n = Ok r).
Context (s : RatchetTree) (Hcount : RatchetTree.leaf_count s = n) (Hnodes : len (RatchetTree.nodes s) = node_count n).
Context (c : Z) (Hc : 0 <= c < n) (dp cp : list Z) (Hclimb : climbs n r (2 * c) dp cp).
Context (Hdp : direct_path c n = Ok dp) (Hcp : copath c n = Ok cp).

Lemma bound : 0 < n <= max_leaves.
Proof. lia. Qed.

(** The path of a leaf is not empty. *)
Lemma path_nonempty : dp <> [].
Proof.
  intros E. rewrite E in Hclimb. assert (Er : 2 * c = r) by (inversion Hclimb; congruence). destruct (root_ok n bound) as (r' & Hr' & _ & Hl & Hh).
  rewrite Hr in Hr'. apply Ok_inj in Hr'. subst r'. destruct (leaf_in_tree n bound c Hc) as [_ Tc].
  destruct (leaf_interval n bound (2 * c) Tc (is_leaf_double c)) as [A B]. rewrite Er in A, B. lia.
Qed.

Lemma level_secrets_len e : List.length (level_secrets e dp) = List.length dp.
Proof.
  unfold level_secrets. cbn [List.length]. rewrite secret_chain_len. pose proof path_nonempty. destruct dp; [easy|]. cbn. lia.
Qed.

Lemma create_update_path_inv e p secret privs : entropy_ok e -> create_update_path s c e = Ok (p, secret, privs) ->
  rows s (pe_seal e) 0 dp cp (level_secrets e dp) (GroupUpdatePath.nodes p) /\
  hash_chain s n dp (GroupUpdatePath.nodes p) /\ secret = last (level_secrets e dp) [] /\
  privs = priv_list (2 * c :: dp) (leaf_pair e :: map secrets_of (level_secrets e dp)) /\
  GroupUpdatePath.leaf_x25519_public p = x25519_public (le_x25519 (pe_leaf e)) /\
  GroupUpdatePath.leaf_kyber_public p = snd (kyber_pair (le_kyber (pe_leaf e))).
Proof.
  intros (Hx & Hs & _) H. unfold create_update_path in H. rewrite Hcount in H.
  apply rbind_Ok in H. destruct H as ([h pk] & Hg & H). apply generate_x25519_keypair_inv in Hg; [|exact Hx]. destruct Hg as [-> ->].
  apply rbind_Ok in H. destruct H as ([kh kpk] & Hk & H). unfold crypto_err in Hk.
  destruct (kyber_generate_keypair _ _) as [[kh' kpk']|] eqn:Ek; [|discriminate]. cbn [map_err] in Hk. apply Ok_inj, pair_inj in Hk as [<- <-].
  apply kyber_generate_keypair_inv in Ek. destruct Ek as [-> ->].
  destruct (Z.leb_spec n 1); [lia|]. rewrite Hdp, Hcp in H. cbn [rbind] in H. rewrite next_path_secrets_ok in H by exact Hs. cbn [rbind] in H.
  destruct (leaf_in_tree n bound c Hc) as [Lc _]. rewrite Lc in H. cbn [rbind] in H.
  apply rbind_Ok in H. destruct H as ([nodes ps] & Hu & H). apply rbind_Ok in H. destruct H as (nodes' & Hph & H).
  apply Ok_inj, pair_inj in H as [H <-]. apply pair_inj in H as [<- <-]. cbn [GroupUpdatePath.nodes GroupUpdatePath.leaf_x25519_public
    GroupUpdatePath.leaf_kyber_public].
  apply update_path_rows in Hu.
  - destruct Hu as [Hrows ->]. pose proof (rows_len _ _ _ _ _ _ _ Hrows) as Hl.
    conjs; try reflexivity.
    + eapply rows_hashes; [exact Hrows|]. eapply rows_set_hashes; [exact Hph|congruence].
    + eapply set_hashes_chain; [exact Hph|congruence|exact path_nonempty].
  - pose proof (climbs_lengths _ _ _ _ _ Hclimb) as E. unfold len in E. lia.
  - apply level_secrets_len.
  - constructor; [exact Hs|apply secret_chain_sizes].
Qed.

Lemma hash_chain_sizes d nodes : hash_chain s n d nodes ->
  Forall (fun nd => len (GroupUpdatePathNode.parent_hash nd) = SHA256_HASH_BYTES) nodes.
Proof.
  induction 1 as [d nd Hz|d e0 dp0 nd p nodes sib Hs Hh H IH]; constructor; auto.
  - rewrite Hz. reflexivity.
  - unfold compute_parent_hash_value in Hh. inv_ok. match goal with E : sha256 _ = _ |- _ => rewrite <- E end. apply sha256_len.
Qed.

(** *** The committer's edits *)

Definition committer_edit (e : PathEntropy) (p : GroupUpdatePath.t) : Z -> Edit :=
  seq_edit (seq_edit (seq_edit
    (at_node (2 * c) (set_pub (GroupUpdatePath.leaf_x25519_public p) (GroupUpdatePath.leaf_kyber_public p)))
    (along pub_of dp (GroupUpdatePath.nodes p))) (along hash_of dp (GroupUpdatePath.nodes p)))
    (along priv_of (2 * c :: dp) (leaf_pair e :: map secrets_of (level_secrets e dp))).

Lemma committer_edit_cases e p j t : List.length (GroupUpdatePath.nodes p) = List.length dp ->
  (2 * c = j /\ committer_edit e p j t =
     priv_of (leaf_pair e) (set_pub (GroupUpdatePath.leaf_x25519_public p) (GroupUpdatePath.leaf_kyber_public p) t)) \/
  (2 * c <> j /\ exists nd x, assoc dp (GroupUpdatePath.nodes p) j = Some nd /\ assoc dp (level_secrets e dp) j = Some x /\
     committer_edit e p j t = priv_of (secrets_of x) (hash_of nd (pub_of nd t))) \/
  (2 * c <> j /\ ~ In j dp /\ committer_edit e p j t = t).
Proof.
  intros Hlen. pose proof (climbs_NoDup n bound r Hr _ _ _ Hclimb) as Hdup. pose proof (leaf_off_path n r _ _ _ Hclimb c) as Hoff.
  assert (Hdup2 : NoDup (2 * c :: dp)) by (constructor; assumption).
  unfold committer_edit, seq_edit. rewrite (along_assoc priv_of) by exact Hdup2.
  rewrite (along_assoc hash_of), (along_assoc pub_of) by exact Hdup. cbn [assoc].
  unfold at_node. destruct (Z.eqb_spec (2 * c) j) as [<-|Hne].
  - left. rewrite !assoc_None by exact Hoff. auto.
  - right. destruct (in_dec Z.eq_dec j dp) as [Hin|Hin].
    + left. split; [exact Hne|]. destruct (assoc_Some dp (GroupUpdatePath.nodes p) j (eq_sym Hlen) Hin) as [nd Hnd].
      destruct (assoc_Some dp (level_secrets e dp) j (eq_sym (level_secrets_len e)) Hin) as [x Hx]. exists nd, x.
      assert (Hm : assoc dp (map secrets_of (level_secrets e dp)) j = Some (secrets_of x)).
      { clear - Hx. revert Hx. generalize (level_secrets e dp). induction dp as [|d l IH]; intros [|y ys] H; try discriminate H.
        cbn [assoc map] in *. destruct (d =? j); [injection H as ->; reflexivity|auto]. }
      rewrite Hnd, Hm. auto.
    + right. rewrite !assoc_None by exact Hin. auto.
Qed.

Lemma committer_edit_shows e p : List.length (GroupUpdatePath.nodes p) = List.length dp ->
  shows (committer_edit e p) (2 * c) dp p.
Proof.
  intros Hlen j t _. unfold path_edit.
  destruct (committer_edit_cases e p j t Hlen) as [(<- & E)|[(Hne & nd & x & Ha & _ & E)|(Hne & Hni & E)]]; rewrite E.
  - rewrite Z.eqb_refl. unfold priv_of. now rewrite strip_set_priv, strip_set_pub.
  - rewrite (proj2 (Z.eqb_neq _ _) Hne), Ha. unfold priv_of, hash_of, pub_of. now rewrite strip_set_priv, strip_set_ph, strip_set_pub.
  - now rewrite (proj2 (Z.eqb_neq _ _) Hne), assoc_None by exact Hni.
Qed.

(** The committer owns its leaf and its whole path. *)
Lemma committer_holds e p s' : len (le_x25519 (pe_leaf e)) = X25519_PRIVATE_KEY_BYTES ->
  GroupUpdatePath.leaf_x25519_public p = x25519_public (le_x25519 (pe_leaf e)) ->
  GroupUpdatePath.leaf_kyber_public p = snd (kyber_pair (le_kyber (pe_leaf e))) ->
  Forall2 node_matches (GroupUpdatePath.nodes p) (level_secrets e dp) ->
  edited s s' (committer_edit e p) -> holds s' c.
Proof.
  intros Hx Hlx Hlk Hm He t k ph Ht Hb Hv. rewrite (ed_count _ _ _ He), Hcount in Hb.
  rewrite (ed_node _ _ _ He t Ht) in Hv. destruct (vget (RatchetTree.nodes s) t) as [c0|] eqn:E0; [|discriminate].
  cbn [option_map] in Hv. apply Some_inj in Hv.
  assert (Hlen : List.length (GroupUpdatePath.nodes p) = List.length dp)
    by (rewrite (Forall2_length Hm); apply level_secrets_len).
  destruct (committer_edit_cases e p t c0 Hlen) as [(<- & E)|[(Hne & nd & x & Ha & Hxa & E)|(Hne & Hni & E)]]; rewrite E in Hv.
  - exists (le_x25519 (pe_leaf e)), (le_kyber (pe_leaf e)). rewrite Hlx, Hlk in Hv.
    destruct c0; cbn in Hv; injection Hv as <- _; cbn; auto 6.
  - destruct (assoc_match _ _ _ _ _ _ Hm Ha) as (x' & Hx' & Hnm). assert (x' = x) by congruence. subst x'.
    destruct Hnm as [Hnx Hnk]. exists (node_x x), (node_e x).
    destruct c0; cbn in Hv; injection Hv as <- _; cbn; rewrite Hnx, Hnk; conjs; auto using len_node_x.
  - exfalso. destruct (leaf_in_tree n bound c Hc) as [_ Tc]. assert (Tt : in_tree n t).
    { split; [exact Ht|]. rewrite <- Hnodes. eapply vget_Some_range; eassumption. }
    apply (climbs_ancestors n bound r _ _ _ Hr Hclimb Tc t Tt) in Hb. destruct Hb as [->|Hb]; auto.
Qed.

(** Node edits on a tree whose leaves were changed in between. *)
Lemma edited_over_leaves t1 t2 g1 g2 l : edited s t1 g1 -> edited (RatchetTree.set_leaves l t1) t2 g2 ->
  edited s (RatchetTree.set_leaves (RatchetTree.leaves s) t2) (seq_edit g1 g2) /\
  t2 = RatchetTree.set_leaves l (RatchetTree.set_leaves (RatchetTree.leaves s) t2).
Proof.
  intros H1 [A B C D]. split.
  - constructor; cbn [RatchetTree.leaves RatchetTree.leaf_count RatchetTree.nodes RatchetTree.set_leaves] in *; auto.
    + rewrite B. apply (ed_count _ _ _ H1).
    + rewrite C. apply (ed_len _ _ _ H1).
    + intros j Hj. rewrite D by exact Hj. rewrite (ed_node _ _ _ H1 j Hj). now destruct (vget _ j).
  - destruct t2. cbn in *. now rewrite A.
Qed.

Lemma set_leaf_signature_inv i sg t u t' : set_leaf_signature i sg t = (Ok u, t') ->
  exists d, get_leaf_data t i = Some d /\ t' = put_leaf i (Some (LeafData.set_signature sg d)) t.
Proof.
  intros H. unfold set_leaf_signature in H. inv_stm. destruct (get_leaf_data t i) as [d|]; inv_stm. eauto.
Qed.

Lemma path_populated t1 t2 t3 x k nodes : edited s t1 (at_node (2 * c) (set_pub x k)) ->
  RatchetTree.nodes t2 = RatchetTree.nodes t1 -> List.length nodes = List.length dp ->
  edited t2 t3 (along pub_of dp nodes) -> populated t3 (2 * c :: dp).
Proof.
  intros G1 Hn2 Hlen G3. pose proof (climbs_NoDup n bound r Hr _ _ _ Hclimb) as Hdup.
  pose proof (leaf_off_path n r _ _ _ Hclimb c) as Hoff. destruct (leaf_in_tree n bound c Hc) as [_ Tc].
  pose proof (path_inner n _ _ _ _ Hclimb) as Hp. rewrite Forall_forall in Hp.
  apply Forall_forall. intros d Hd. assert (Td : in_tree n d) by (destruct Hd as [<-|Hd]; [exact Tc|now apply Hp]).
  split; [apply Td|]. destruct Td as [Td0 Td1]. unfold is_blank. rewrite (ed_node _ _ _ G3 d Td0), Hn2, (ed_node _ _ _ G1 d Td0).
  destruct (vget_in_range (RatchetTree.nodes s) d) as [c0 ->]; [rewrite Hnodes; lia|]. cbn [option_map].
  rewrite along_assoc by exact Hdup. destruct Hd as [<-|Hd].
  - rewrite assoc_None by exact Hoff. unfold at_node. rewrite Z.eqb_refl. now destruct c0.
  - destruct (assoc_Some dp nodes d (eq_sym Hlen) Hd) as [nd ->]. unfold at_node. destruct (Z.eqb_spec (2 * c) d) as [<-|]; [easy|].
    now destruct c0.
Qed.

Lemma make_update_path_inv sk e p secret s' : entropy_ok e -> make_update_path c sk e s = (Ok (p, secret), s') ->
  exists p0 privs d sg t, create_update_path s c e = Ok (p0, secret, privs) /\ get_leaf_data s c = Some d /\
    sign_existing_key_package sk (LeafData.identity_ed25519_public d) (LeafData.identity_x25519_public d)
      (LeafData.identity_kyber_public d) (GroupUpdatePath.leaf_x25519_public p) (GroupUpdatePath.leaf_kyber_public p)
      (LeafData.credential d) = Ok sg /\
    p = GroupUpdatePath.set_leaf_signature sg p0 /\ edited s t (committer_edit e p) /\
    s' = put_leaf c (Some (LeafData.set_signature sg d)) t.
Proof.
  intros He H. unfold make_update_path in H. apply sbind_Ok in H. destruct H as ([[p0 sec] privs] & s0 & Hcr & H).
  apply sgets_inv in Hcr. destruct Hcr as [Hcr ->].
  apply sbind_Ok in H. destruct H as (d & s1 & Hd & H). apply sgets_inv in Hd. destruct Hd as [Hd ->].
  destruct (get_leaf_data s c) as [d'|] eqn:Ed; [|discriminate]. cbn [ok_or] in Hd. apply Ok_inj in Hd. subst d'.
  apply sbind_Ok in H. destruct H as (sg & s1 & Hsg & H). apply slift_inv in Hsg. destruct Hsg as [Hsg ->].
  destruct (leaf_in_tree n bound c Hc) as [Lc Tc]. rewrite Lc in H. rewrite (sbind_run _ _ _ (2 * c) s) in H by reflexivity.
  destruct (create_update_path_inv e p0 sec privs He Hcr) as (Hrows & Hchain & -> & -> & Hlx & Hlk).
  pose proof (hash_chain_sizes _ _ Hchain) as Hsz. pose proof (rows_len _ _ _ _ _ _ _ Hrows) as Hlen.
  set (p1 := GroupUpdatePath.set_leaf_signature sg p0) in *.
  destruct (set_pub_run (2 * c) (GroupUpdatePath.leaf_x25519_public p1) (GroupUpdatePath.leaf_kyber_public p1) s) as (t1 & E1 & G1).
  { rewrite Hnodes. exact Tc. }
  rewrite (sbind_run _ _ _ _ _ E1) in H. apply sbind_Ok in H. destruct H as ([] & t2 & E2 & H).
  apply set_leaf_signature_inv in E2. destruct E2 as (d2 & Hd2 & ->).
  assert (d2 = d). { unfold get_leaf_data in *. rewrite (ed_leaves _ _ _ G1) in Hd2. congruence. } subst d2.
  rewrite (sbind_run _ _ _ dp (put_leaf c (Some (LeafData.set_signature sg d)) t1)) in H
    by (unfold sgets; cbn [put_leaf RatchetTree.set_leaves RatchetTree.leaf_count]; rewrite (ed_count _ _ _ G1), Hcount, Hdp; reflexivity).
  assert (Hrange : in_range (put_leaf c (Some (LeafData.set_signature sg d)) t1) dp).
  { pose proof (path_inner n _ _ _ _ Hclimb) as Hp. eapply Forall_impl; [|exact Hp]. intros q [Tq _]. cbn. rewrite (ed_len _ _ _ G1), Hnodes. exact Tq. }
  destruct (install_public_run dp (GroupUpdatePath.nodes p1) _ Hrange) as (t3 & E3 & G3). rewrite (sbind_run _ _ _ _ _ E3) in H.
  assert (Hpop3 : populated t3 (2 * c :: dp)) by (eapply path_populated; [exact G1| |exact Hlen|exact G3]; reflexivity).
  pose proof Hpop3 as Hdp3. apply Forall_cons_iff in Hdp3. destruct Hdp3 as [_ Hdp3].
  destruct (install_parent_hashes_run dp (GroupUpdatePath.nodes p1) t3 Hdp3) as (t4 & E4 & G4).
  rewrite <- install_own_hashes in E4 by exact Hsz. rewrite (sbind_run _ _ _ _ _ E4) in H.
  assert (Hpop4 : populated t4 (2 * c :: dp)).
  { eapply populated_edited; [exact G4| |exact Hpop3]. intros j. apply fills_along. intros a. apply fills_ph. }
  destruct (install_private_run (2 * c :: dp) (leaf_pair e :: map secrets_of (level_secrets e dp)) t4 Hpop4) as (t5 & E5 & G5).
  { cbn [List.length]. rewrite length_map, level_secrets_len. reflexivity. }
  unfold priv_list in H. rewrite (sbind_run _ _ _ _ _ E5) in H. apply sret_inv in H. destruct H as [H ->].
  apply Ok_inj, pair_inj in H as [-> ->].
  destruct (edited_over_leaves t1 t5 _ _ _ G1 (edited_trans _ _ _ _ _ (edited_trans _ _ _ _ _ G3 G4) G5)) as [Ga Gb].
  exists p0, (priv_list (2 * c :: dp) (leaf_pair e :: map secrets_of (level_secrets e dp))), d, sg,
    (RatchetTree.set_leaves (RatchetTree.leaves s) t5). conjs; auto.
  rewrite Gb at 1. unfold put_leaf. cbn [RatchetTree.leaves RatchetTree.set_leaves]. now rewrite (ed_leaves _ _ _ G1).
Qed.

End Facts.
End Committer.
