(* ===== verification/ProposalSync.v ===== *)
(** * Proposals at several members

    Proposals read and change public data only, so members that share the public
    tree apply them alike; a member that is not removed keeps its leaf, and every
    populated node above it afterwards was there before. *)

From Stdlib Require Import ZArith List Bool Lia String.
From S2P Require Import Prelude Constants SecureMemory Crypto Signatures SeenSet TreeIndex.
From S2P Require Import Proto GroupProto KeyPackage RatchetTree Commit TreeKem TreeFacts TreeMembers PathSecrets.
From S2P Require Import TreeUpdates PathAgreement.
Import ListNotations.
Open Scope Z_scope.

(** ** Agreement on the public tree *)

Definition respects {A} (c : TreeM A) : Prop :=
  forall s1 s2, public s1 = public s2 -> fst (c s1) = fst (c s2) /\ public (snd (c s1)) = public (snd (c s2)).

Lemma respects_sret {A} (a : A) : respects (sret a).
Proof. intros s1 s2 H. auto. Qed.

Lemma respects_slift {A} (r : PResult A) : respects (slift r).
Proof. intros s1 s2 H. auto. Qed.

Lemma respects_sguard b e : respects (sguard b e).
Proof. apply respects_slift. Qed.

Lemma respects_smod f h : (forall s, public (f s) = h (public s)) -> respects (smod f).
Proof. intros Hf s1 s2 H. cbn. rewrite !Hf, H. auto. Qed.

Lemma respects_bind {A B} (c : TreeM A) (k : A -> TreeM B) :
  respects c -> (forall a, respects (k a)) -> respects (sbind c k).
Proof.
  intros Hc Hk s1 s2 H. destruct (Hc s1 s2 H) as [Hf Hs]. unfold sbind.
  destruct (c s1) as [r1 s1'], (c s2) as [r2 s2']. cbn [fst snd] in *. subst r2.
  destruct r1 as [a|e]; [now apply Hk|auto].
Qed.

(** A continuation that uses the public part of the state it reads. *)
Lemma respects_read {A} (k : RatchetTree -> TreeM A) :
  (forall s1 s2, public s1 = public s2 -> k s1 = k s2) -> (forall s, respects (k s)) ->
  respects (sbind (sget (fun s => s)) k).
Proof. intros Hk Hr s1 s2 H. unfold sbind, sget. rewrite (Hk s1 s2 H). now apply Hr. Qed.

Create HintDb respect.
#[export] Hint Resolve respects_sret respects_slift respects_sguard respects_bind : respect.

Lemma public_put_node i c s : public (put_node i c s) = put_node i (strip c) (public s).
Proof.
  unfold public, put_node, RatchetTree.set_nodes, vset. cbn [RatchetTree.nodes RatchetTree.leaves RatchetTree.leaf_count].
  f_equal. generalize (Z.to_nat i). intros k. revert k. induction (RatchetTree.nodes s) as [|a l IH]; intros [|k]; cbn; auto.
  now rewrite IH.
Qed.

Lemma public_put_leaf i l s : public (put_leaf i l s) = put_leaf i l (public s).
Proof. reflexivity. Qed.

Lemma respects_put_node i c : respects (smod (put_node i c)).
Proof. eapply respects_smod. apply public_put_node. Qed.

Lemma respects_put_leaf i l : respects (smod (put_leaf i l)).
Proof. eapply respects_smod. apply public_put_leaf. Qed.
#[export] Hint Resolve respects_put_node respects_put_leaf : respect.

Lemma add_leaf_respects x k d : respects (add_leaf x k d).
Proof.
  unfold add_leaf. apply respects_read.
  - intros s1 s2 H. unfold member_count. now rewrite (public_leaves _ _ H), (public_count _ _ H).
  - intros s. apply respects_bind; auto with respect. intros _. destruct (position_none 0 _) as [i|]; auto 6 with respect.
    apply respects_bind.
    { apply (respects_smod _ (fun t => RatchetTree.set_nodes (RatchetTree.nodes t ++ repeat Blank (Z.to_nat
        (node_count (RatchetTree.leaf_count s + 1) - len (RatchetTree.nodes t)))) t)).
      intros t. unfold public. cbn [RatchetTree.nodes RatchetTree.set_nodes RatchetTree.leaves RatchetTree.leaf_count].
      rewrite map_app, len_map, map_repeat. reflexivity. }
    intros _. apply respects_bind; auto with respect. intros i. apply respects_bind; auto with respect. intros _.
    apply respects_bind.
    { apply (respects_smod _ (fun t => RatchetTree.set_leaves (RatchetTree.leaves t ++ [Some d]) t)). reflexivity. }
    intros _. apply respects_bind; auto with respect.
    apply (respects_smod _ (RatchetTree.set_leaf_count (RatchetTree.leaf_count s + 1))). reflexivity.
Qed.

Lemma public_blank_nodes path : forall s, public (blank_nodes path s) = blank_nodes path (public s).
Proof.
  unfold blank_nodes. induction path as [|p path IH]; intros s; [reflexivity|]. cbn [fold_left]. rewrite IH. f_equal.
  replace (len (RatchetTree.nodes (public s))) with (len (RatchetTree.nodes s)) by (unfold public; cbn; now rewrite len_map).
  destruct (p <? _); [apply public_put_node|reflexivity].
Qed.

Lemma blank_leaf_respects i : respects (blank_leaf i).
Proof.
  unfold blank_leaf. apply respects_read.
  - intros s1 s2 H. unfold get_leaf_data. now rewrite (public_leaves _ _ H), (public_count _ _ H).
  - intros s. repeat (apply respects_bind; auto with respect; intros). destruct (1 <? _); auto with respect.
    apply respects_bind; auto with respect. intros path. eapply respects_smod. apply public_blank_nodes.
Qed.
#[export] Hint Resolve add_leaf_respects blank_leaf_respects : respect.

Lemma apply_proposals_respects ps : respects (apply_proposals ps).
Proof.
  apply respects_bind; [|intros _]; induction ps as [|p ps IH]; cbn [apply_removes apply_adds]; auto with respect;
    destruct (GroupProposal.proposal p) as [[]|]; auto with respect; unfold apply_remove, apply_add; auto 8 with respect.
Qed.

Section Validate.
Context {P : Primitives} {SG : Signatures}.

Lemma validate_proposals_public s1 s2 ps c : public s1 = public s2 ->
  validate_proposals s1 ps c = validate_proposals s2 ps c.
Proof.
  intros H. unfold validate_proposals. destruct (validate_proposal_shapes ps) as [[]|]; [|reflexivity]. cbn [rbind].
  generalize tt. induction ps as [|p ps IH]; intros u; [reflexivity|]. cbn [foldR].
  assert (Hp : check_against_tree s1 c p = check_against_tree s2 c p).
  { unfold check_against_tree, identity_present, populated_leaf_indices, get_leaf_data.
    now rewrite (public_leaves _ _ H), (public_count _ _ H). }
  rewrite Hp. destruct (check_against_tree s2 c p); [|reflexivity]. cbn [rbind]. apply IH.
Qed.

End Validate.

(** ** A member that stays *)

Lemma below_leaf n t m : 0 <= m < n -> below n t (2 * m) = (low t <=? 2 * m) && (2 * m <=? t + 2 ^ level t - 1).
Proof. intros Hm. unfold below, high. f_equal. apply Bool.eq_iff_eq_true. rewrite !Z.leb_le. lia. Qed.

(** The populated nodes above leaf [m] in [s'] are those of [s], and the leaf is
    occupied as before. *)
Record inherits (m : Z) (s s' : RatchetTree) : Prop := {
  in_count : RatchetTree.leaf_count s <= RatchetTree.leaf_count s';
  in_leaf : get_leaf_data s' m = get_leaf_data s m;
  in_nodes : forall t k ph, 0 <= t -> below (RatchetTree.leaf_count s') t (2 * m) = true ->
    vget (RatchetTree.nodes s') t = Some (Populated k ph) -> vget (RatchetTree.nodes s) t = Some (Populated k ph) }.

Lemma inherits_refl m s : inherits m s s.
Proof. constructor; auto. lia. Qed.

Lemma inherits_trans m s s1 s2 : 0 <= m < RatchetTree.leaf_count s -> inherits m s s1 -> inherits m s1 s2 -> inherits m s s2.
Proof.
  intros Hm [A B C] [A' B' C']. constructor; [lia|congruence|]. intros t k ph Ht Hb Hv. apply C; auto.
  rewrite below_leaf in * by lia. exact Hb.
Qed.

Lemma inherits_holds {P : Primitives} m s s' : 0 <= m < RatchetTree.leaf_count s -> inherits m s s' -> holds s m -> holds s' m.
Proof.
  intros Hm [A B C] H t k ph Ht Hb Hv. eapply H; [exact Ht| |exact (C t k ph Ht Hb Hv)]. rewrite below_leaf in * by lia. exact Hb.
Qed.


Lemma level_double i : 0 <= i < max_leaves -> level (2 * i) = 0.
Proof.
  intros Hi. apply (located_level (2 * i) 0 i).
  - unfold located, node. lia.
  - rewrite max_leaves_eq in Hi. unfold u32_max. lia.
Qed.

Lemma leaf_not_below n i m : 0 <= m < n -> 0 <= i < max_leaves -> i <> m -> below n (2 * i) (2 * m) = false.
Proof.
  intros Hm Hi Hne. rewrite below_leaf by exact Hm. unfold low. rewrite level_double by exact Hi. rewrite Z.pow_0_r.
  apply andb_false_iff. rewrite !Z.leb_gt. lia.
Qed.

Lemma leaf_range s m d : tree_wf s -> 0 <= m -> get_leaf_data s m = Some d -> 0 <= m < RatchetTree.leaf_count s.
Proof. intros H Hm Hd. split; [exact Hm|]. apply get_leaf_range in Hd; [|exact Hm]. now rewrite (wf_leaves s H) in Hd. Qed.

Lemma inherits_put_leaf m i l s : i <> m -> 0 <= m -> 0 <= i -> i < len (RatchetTree.leaves s) -> inherits m s (put_leaf i l s).
Proof.
  intros Hne Hm Hi Hr. constructor; [reflexivity| |auto]. rewrite get_leaf_put by lia.
  now destruct (Z.eqb_spec i m).
Qed.

Lemma inherits_put_node m i c s : 0 <= i < len (RatchetTree.nodes s) ->
  (c = Blank \/ below (RatchetTree.leaf_count s) i (2 * m) = false) -> inherits m s (put_node i c s).
Proof.
  intros Hi Hc. constructor; [reflexivity|reflexivity|]. intros t k ph Ht Hb.
  cbn [put_node RatchetTree.set_nodes RatchetTree.nodes RatchetTree.leaf_count] in *. rewrite vget_vset by lia.
  destruct (Z.eqb_spec i t) as [->|]; [|auto]. destruct Hc as [->|Hc]; [discriminate|congruence].
Qed.

Lemma inherits_blank_nodes m path : forall s, 0 <= m < RatchetTree.leaf_count s -> Forall (fun p => 0 <= p) path ->
  inherits m s (blank_nodes path s).
Proof.
  unfold blank_nodes. induction path as [|p path IH]; intros s Hm Hf; [apply inherits_refl|]. cbn [fold_left].
  inversion Hf as [|? ? Hp Hf']; subst. destruct (Z.ltb_spec p (len (RatchetTree.nodes s))); [|now apply IH].
  apply (inherits_trans m s (put_node p Blank s)); [exact Hm| |now apply IH]. apply inherits_put_node; [lia|auto].
Qed.

Lemma inherits_vacated m i s : tree_wf s -> 0 <= m < RatchetTree.leaf_count s -> 0 <= i < RatchetTree.leaf_count s -> i <> m ->
  inherits m s (vacated i s).
Proof.
  intros H Hm Hi Hne. unfold vacated. apply (inherits_trans m s (put_node (2 * i) Blank s)); [exact Hm| |].
  - apply inherits_put_node; [rewrite (wf_nodes s H); lia|auto].
  - apply inherits_put_leaf; try lia. cbn. rewrite (wf_leaves s H). lia.
Qed.

Lemma blank_leaf_inherits m d s i s' : tree_wf s -> 0 <= i -> 0 <= m -> get_leaf_data s m = Some d -> i <> m ->
  blank_leaf i s = (Ok tt, s') -> inherits m s s'.
Proof.
  intros H Hi Hm Hd Hne He. pose proof (leaf_range s m d H Hm Hd) as Hr.
  destruct (blank_leaf_run s i H Hi) as [[e E]|(Hl & _ & path & Hpath & E)]; rewrite E in He; [discriminate|].
  apply pair_inj in He as [_ <-]. apply (inherits_trans m s (vacated i s)); [exact Hr|apply inherits_vacated; auto|].
  apply inherits_blank_nodes; [exact Hr|]. destruct Hpath as [[_ ->]|(r & cp & _ & _ & Hc)]; [constructor|].
  eapply Forall_impl; [|exact (path_inner _ _ _ _ _ Hc)]. intros p [[Hp _] _]. exact Hp.
Qed.

Lemma grown_inherits m x k d s : tree_wf s -> 0 <= m < RatchetTree.leaf_count s -> inherits m s (grown x k d s).
Proof.
  intros H Hm. constructor.
  - cbn. lia.
  - rewrite grown_leaf by (auto; lia). destruct (Z.eqb_spec m (RatchetTree.leaf_count s)); [lia|reflexivity].
  - intros t k0 ph Ht Hb Hv. cbn [grown RatchetTree.nodes RatchetTree.leaf_count] in *.
    pose proof (wf_nodes s H) as Hw. pose proof (wf_bound s H) as Hbd.
    destruct (Z.ltb_spec t (len (RatchetTree.nodes s))); [now rewrite vget_app_l in Hv by lia|].
    rewrite vget_app_r in Hv by lia. destruct (Z.eq_dec t (len (RatchetTree.nodes s))) as [->|Hne].
    + rewrite Z.sub_diag in Hv. discriminate.
    + destruct (Z.eq_dec t (len (RatchetTree.nodes s) + 1)) as [->|Hne2].
      * rewrite Hw in Hb. replace (2 * RatchetTree.leaf_count s - 1 + 1) with (2 * RatchetTree.leaf_count s) in Hb by lia.
        rewrite leaf_not_below in Hb; [discriminate|lia| |lia]. pose proof (wf_count s H). rewrite max_leaves_eq.
        unfold MAX_GROUP_MEMBERS in *. lia.
      * exfalso. revert Hv. unfold vget. destruct (Z.to_nat (t - len (RatchetTree.nodes s))) as [|[|[|q]]] eqn:Eq; cbn; lia || congruence.
Qed.

Lemma add_leaf_inherits m dm s x k d i s' : tree_wf s -> 0 <= m -> get_leaf_data s m = Some dm ->
  len x = X25519_PUBLIC_KEY_BYTES -> len k = KYBER_PUBLIC_KEY_BYTES ->
  leaf_ok (Some d) -> ~ In (LeafData.identity_ed25519_public d) (ids_of (RatchetTree.leaves s)) ->
  add_leaf x k d s = (Ok i, s') -> inherits m s s'.
Proof.
  intros H Hm Hd Hx Hk Hl Hid He. pose proof (leaf_range s m dm H Hm Hd) as Hr.
  destruct (add_leaf_wf s x k d i s' H Hx Hk Hl Hid He) as (_ & Hi & Hnone & [->|[-> ->]]); [|now apply grown_inherits].
  cbn [filled put_leaf put_node RatchetTree.set_leaves RatchetTree.set_nodes RatchetTree.leaf_count] in Hi.
  assert (Hne : i <> m) by (intros ->; congruence). pose proof (wf_bound s H).
  unfold filled. apply (inherits_trans m s (put_node (2 * i) (public_node x k) s)); [exact Hr| |].
  - apply inherits_put_node; [rewrite (wf_nodes s H); lia|]. right. apply leaf_not_below; [exact Hr|lia|exact Hne].
  - apply inherits_put_leaf; try lia. cbn. rewrite (wf_leaves s H). lia.
Qed.

(** *** All proposals of a commit *)

Section Stays.
Context {P : Primitives} {SG : Signatures}.

(** No proposal removes leaf [m]. *)
Definition stays (m : Z) (ps : list GroupProposal.t) : Prop :=
  Forall (fun p => match GroupProposal.proposal p with
                   | Some (GroupProposal.Remove r) => GroupRemoveProposal.removed_leaf_index r <> m
                   | _ => True
                   end) ps.

Lemma committer_stays s ps c : validate_proposals s ps c = Ok tt -> stays c ps.
Proof.
  intros H. unfold validate_proposals in H. apply rbind_Ok in H. destruct H as ([] & _ & H). apply foldR_unit in H.
  eapply Forall_impl; [|exact H]. intros p Hp. unfold check_against_tree in Hp.
  destruct (GroupProposal.proposal p) as [[add|rm|up|ei|psk|re]|]; auto. inv_ok. bools. assumption.
Qed.

Lemma apply_removes_stays m d ps : 0 <= m -> forall s s', tree_wf s -> Forall proposal_u32 ps -> stays m ps ->
  get_leaf_data s m = Some d -> apply_removes ps s = (Ok tt, s') -> inherits m s s'.
Proof.
  intros Hm. induction ps as [|p ps IH]; intros s s' H Hu Hs Hd Hr; cbn [apply_removes] in Hr.
  - inv_stm. apply inherits_refl.
  - inversion_clear Hu as [|? ? Hp Hps]. inversion_clear Hs as [|? ? Hq Hqs]. unfold proposal_u32 in Hp.
    destruct (GroupProposal.proposal p) as [[add|rm|up|ei|psk|re]|]; try (now apply (IH s s')).
    apply sbind_Ok in Hr. destruct Hr as ([] & s1 & Hrm & Hr). destruct (blank_leaf_wf _ _ _ _ H Hp Hrm) as [H1 _].
    pose proof (blank_leaf_inherits m d s _ s1 H Hp Hm Hd Hq Hrm) as I1.
    apply (inherits_trans m s s1); [now apply (leaf_range s m d)|exact I1|]. apply (IH s1 s'); auto.
    rewrite (in_leaf _ _ _ I1). exact Hd.
Qed.

Lemma apply_adds_stays m d ps : 0 <= m -> forall s r s', tree_wf s -> adds_ok s ps ->
  get_leaf_data s m = Some d -> apply_adds ps s = (Ok r, s') -> inherits m s s'.
Proof.
  intros Hm. induction ps as [|p ps IH]; intros s r s' H Hok Hd Hr; cbn [apply_adds] in Hr.
  - inv_stm. apply inherits_refl.
  - pose proof (adds_ok_tail _ _ _ Hok) as Hrest. pose proof (adds_ok_step s p ps) as Hstep.
    pose proof (adds_ok_head s p ps) as Hhead. unfold added_package in Hstep, Hhead.
    destruct (GroupProposal.proposal p) as [[add|rm|up|ei|psk|re]|]; try (now apply (IH s r s')).
    unfold apply_add in Hr. inv_stm. destruct (GroupAddProposal.key_package add) as [kp|]; cbn [ok_or] in *; [|discriminate].
    inv_ok. match goal with Ha : add_leaf _ _ _ s = (Ok _, ?s1) |- _ =>
      destruct (Hstep _ _ s1 H Hok eq_refl Ha) as [H1 H1'];
      destruct (Hhead _ Hok eq_refl) as (L1 & L2 & L3 & Hni);
      pose proof (add_leaf_inherits m d s _ _ _ _ s1 H Hm Hd L2 L3 L1 Hni Ha) as I1 end.
    eapply (inherits_trans m s); [now apply (leaf_range s m d)|exact I1|]. eapply IH; eauto.
    rewrite (in_leaf _ _ _ I1). exact Hd.
Qed.

Lemma apply_proposals_stays m d ps c s r s' : tree_wf s -> Forall proposal_u32 ps -> validate_proposals s ps c = Ok tt ->
  0 <= m -> stays m ps -> get_leaf_data s m = Some d -> apply_proposals ps s = (Ok r, s') -> inherits m s s'.
Proof.
  intros H Hu Hv Hm Hs Hd Hr. apply sbind_Ok in Hr. destruct Hr as ([] & s1 & H1 & H2).
  destruct (apply_removes_wf _ _ _ _ H Hu H1) as [W1 I1]. pose proof (apply_removes_stays m d ps Hm s s1 H Hu Hs Hd H1) as J1.
  apply (inherits_trans m s s1); [now apply (leaf_range s m d)|exact J1|].
  apply (apply_adds_stays m d ps Hm s1 r s' W1); [|rewrite (in_leaf _ _ _ J1); exact Hd|exact H2].
  destruct (validate_proposals_ok _ _ _ Hv) as (A & B & C). split; [exact A|]. split; [exact B|].
  intros id Hin Hid. exact (C id Hin (I1 id Hid)).
Qed.

End Stays.
