(* ===== verification/TreeTypes.v ===== *)
(** * The tree stays well typed through commits

    [tree_wf] is kept by [create_commit] and by [process_commit], whatever the
    commit received and whether or not it is accepted. *)

From Stdlib Require Import ZArith List Bool Lia String.
From S2P Require Import Prelude Constants SecureMemory Crypto Signatures DhValidator TreeIndex.
From S2P Require Import Proto GroupProto KeySchedule SenderKeys KeyPackage RatchetTree Commit TreeKem.
From S2P Require Import TreeFacts TreeMembers PathSecrets.
Import ListNotations.
Open Scope Z_scope.

(** ** Steps that change nodes only *)

Definition safe {A} (l : list (option LeafData.t)) (c : TreeM A) : Prop :=
  forall s r s', tree_wf s -> RatchetTree.leaves s = l -> c s = (r, s') -> tree_wf s' /\ RatchetTree.leaves s' = l.

Section Safe.
Context (l : list (option LeafData.t)).

Lemma safe_bind {A B} (c : TreeM A) (k : A -> TreeM B) : safe l c -> (forall a, safe l (k a)) -> safe l (sbind c k).
Proof.
  intros Hc Hk s r s' W Hl H. unfold sbind in H. destruct (c s) as [[a|e] s1] eqn:E; destruct (Hc _ _ _ W Hl E) as [W1 Hl1].
  - exact (Hk a s1 r s' W1 Hl1 H).
  - apply pair_inj in H as [_ <-]. auto.
Qed.

Lemma safe_lift {A B} (x : PResult A) (k : A -> TreeM B) : (forall a, x = Ok a -> safe l (k a)) -> safe l (sbind (slift x) k).
Proof.
  intros Hk s r s' W Hl H. unfold sbind, slift in H. destruct x as [a|e]; [exact (Hk a eq_refl s r s' W Hl H)|].
  apply pair_inj in H as [_ <-]. auto.
Qed.

Lemma safe_guard {B} b e (k : unit -> TreeM B) : (b = true -> safe l (k tt)) -> safe l (sbind (sguard b e) k).
Proof. intros Hk. apply safe_lift. intros [] H. apply Hk. now apply ensure_Ok in H. Qed.

Lemma safe_read {A} (k : RatchetTree -> TreeM A) : (forall t, tree_wf t -> RatchetTree.leaves t = l -> safe l (k t)) ->
  safe l (sbind (sget (fun s => s)) k).
Proof. intros Hk s r s' W Hl H. exact (Hk s W Hl s r s' W Hl H). Qed.

Lemma safe_sgets {A} (f : RatchetTree -> PResult A) : safe l (sgets f).
Proof. intros s r s' W Hl H. unfold sgets in H. apply pair_inj in H as [_ <-]. auto. Qed.

Lemma safe_sret {A} (a : A) : safe l (sret a).
Proof. intros s r s' W Hl H. apply pair_inj in H as [_ <-]. auto. Qed.

Lemma safe_sfail {A} e : safe l (sfail (A := A) e).
Proof. intros s r s' W Hl H. apply pair_inj in H as [_ <-]. auto. Qed.

Lemma safe_ret_bind {A B} (a : A) (k : A -> TreeM B) : safe l (k a) -> safe l (sbind (sret a) k).
Proof. exact (fun H => H). Qed.

Lemma safe_fail_bind {A B} e (k : A -> TreeM B) : safe l (sbind (sfail e) k).
Proof. exact (safe_sfail e). Qed.

Lemma node_step_leaves i x k : keeps RatchetTree.leaves (set_node_public_keys i x k).
Proof.
  intros s. unfold set_node_public_keys, sbind, sget, sguard, slift. destruct (i <? _); [|reflexivity]. cbn [ensure].
  destruct (vget _ i) as [[|? ?]|]; reflexivity.
Qed.

Lemma safe_public i x k : 0 <= i -> len x = X25519_PUBLIC_KEY_BYTES -> len k = KYBER_PUBLIC_KEY_BYTES ->
  (is_leaf i = true -> exists d, vget l (i / 2) = Some (Some d)) -> safe l (set_node_public_keys i x k).
Proof.
  intros Hi Hx Hk Hleaf s r s' W Hl H. split.
  - eapply set_node_public_keys_wf; eauto. intros El. rewrite is_leaf_even in El. apply Z.even_spec in El.
    destruct El as [j ->]. rewrite (Z.mul_comm 2 j), Z.div_mul in Hleaf by lia. rewrite (Z.mul_comm j 2) in *.
    destruct Hleaf as [d Hd]; [apply is_leaf_double|]. rewrite <- Hl in Hd.
    assert (Hj : 0 <= j < RatchetTree.leaf_count s).
    { rewrite <- (wf_leaves s W). split; [lia|]. eapply vget_Some_range; [lia|exact Hd]. }
    rewrite (wf_occupied s W) by exact Hj. unfold get_leaf_data. now rewrite Hd.
  - rewrite <- Hl. change s' with (snd (r, s')). rewrite <- H. apply node_step_leaves.
Qed.

Lemma safe_private i x k : 0 <= i -> safe l (set_node_private_keys i x k).
Proof.
  intros Hi s r s' W Hl H. split; [eapply set_node_private_keys_wf; eauto|]. rewrite <- Hl.
  unfold set_node_private_keys, sbind, sget in H. destruct (vget _ i) as [[|? ?]|]; apply pair_inj in H as [_ <-]; reflexivity.
Qed.

Lemma safe_parent_hash i h : 0 <= i -> len h = SHA256_HASH_BYTES -> safe l (set_node_parent_hash i h).
Proof.
  intros Hi Hh s r s' W Hl H. split; [eapply set_node_parent_hash_wf; eauto|]. rewrite <- Hl.
  unfold set_node_parent_hash, sbind, sget in H. destruct (vget _ i) as [[|? ?]|]; apply pair_inj in H as [_ <-]; reflexivity.
Qed.

(** *** Loops *)

Definition inner (dp : list Z) : Prop := Forall (fun d => 0 <= d /\ is_leaf d = false) dp.
Definition node_sizes (nd : GroupUpdatePathNode.t) : Prop :=
  len (GroupUpdatePathNode.x25519_public nd) = X25519_PUBLIC_KEY_BYTES /\
  len (GroupUpdatePathNode.kyber_public nd) = KYBER_PUBLIC_KEY_BYTES.
Definition hash_size (nd : GroupUpdatePathNode.t) : Prop := len (GroupUpdatePathNode.parent_hash nd) = SHA256_HASH_BYTES.

Lemma safe_inner d nd : 0 <= d /\ is_leaf d = false -> node_sizes nd ->
  safe l (set_node_public_keys d (GroupUpdatePathNode.x25519_public nd) (GroupUpdatePathNode.kyber_public nd)).
Proof. intros [Hd Hl] [Hx Hk]. apply safe_public; auto. congruence. Qed.

Lemma safe_install_public dp : inner dp -> forall nodes, Forall node_sizes nodes -> safe l (install_public dp nodes).
Proof.
  induction 1 as [|d dp Hd H IH]; intros [|nd nodes] Hn; try apply safe_sret. inversion_clear Hn as [|? ? H1 H2].
  cbn [install_public]. apply safe_bind; auto using safe_inner.
Qed.

Lemma safe_install_hashes dp : inner dp -> forall nodes, Forall hash_size nodes -> safe l (install_parent_hashes dp nodes).
Proof.
  induction 1 as [|d dp [Hd _] H IH]; intros [|nd nodes] Hn; try apply safe_sret. inversion_clear Hn as [|? ? H1 H2].
  cbn [install_parent_hashes]. apply safe_bind; auto using safe_parent_hash.
Qed.

Lemma safe_install_own dp : inner dp -> forall nodes, Forall hash_size nodes -> safe l (install_own_parent_hashes dp nodes).
Proof.
  induction 1 as [|d dp [Hd _] H IH]; intros [|nd nodes] Hn; try apply safe_sret. inversion_clear Hn as [|? ? H1 H2].
  cbn [install_own_parent_hashes]. apply safe_bind; [|auto]. destruct (_ =? 0); auto using safe_parent_hash, safe_sret.
Qed.

Lemma safe_install_private privs : Forall (fun p => 0 <= fst (fst p)) privs -> safe l (install_private privs).
Proof.
  induction 1 as [|[[i x] k] privs Hi H IH]; [apply safe_sret|]. cbn [install_private]. apply safe_bind; auto using safe_private.
Qed.

Context {P : Primitives} {SG : Signatures}.

Lemma safe_install_level my_dp d nd secret m1 m2 : 0 <= d /\ is_leaf d = false -> node_sizes nd ->
  safe l (install_level my_dp d nd secret m1 m2).
Proof.
  intros Hd Hn. unfold install_level. apply safe_lift. intros [[[xp xpub] ks] kp] _. apply safe_guard. intros _. apply safe_guard. intros _.
  apply safe_bind; [now apply safe_inner|]. intros _. destruct (existsb _ _); [apply safe_private, Hd|apply safe_sret].
Qed.

Lemma safe_climb my_dp dp : inner dp -> forall nodes i secret, Forall node_sizes nodes -> safe l (climb_path my_dp i dp nodes secret).
Proof.
  induction 1 as [|d dp Hd H IH]; intros [|nd nodes] i secret Hn; try apply safe_sret. inversion_clear Hn as [|? ? H1 H2].
  cbn [climb_path]. apply safe_lift. intros next _. apply safe_bind; auto using safe_install_level.
Qed.

End Safe.

(** ** Sizes that validation guarantees *)

Section Commits.
Context {P : Primitives} {L : PrimitiveLaws P} {SG : Signatures} {SL : SignatureLaws SG}.
Context {CC : Prost GroupCommit.t} {CP : Prost GroupSecurityPolicyProto.t} {CE : Prost GroupExternalJoinAuthorization.t}.

Lemma valid_x25519_len k : DhValidator.validate_x25519_public_key k = Ok tt -> len k = X25519_PUBLIC_KEY_BYTES.
Proof. intros H. unfold DhValidator.validate_x25519_public_key in H. inv_ok. now bools. Qed.

Lemma valid_kyber_len k : kyber_validate_public_key k = Ok tt -> len k = KYBER_PUBLIC_KEY_BYTES.
Proof. intros H. unfold kyber_validate_public_key in H. inv_ok. now bools. Qed.

Lemma path_leaf_keys p : validate_path_keys p = Ok tt ->
  DhValidator.validate_x25519_public_key (GroupUpdatePath.leaf_x25519_public p) = Ok tt /\
  kyber_validate_public_key (GroupUpdatePath.leaf_kyber_public p) = Ok tt.
Proof.
  intros Hp. unfold validate_path_keys, crypto_err in Hp. apply rbind_Ok in Hp. destruct Hp as ([] & Hlx & Hp). split; [exact Hlx|].
  destruct (kyber_validate_public_key (GroupUpdatePath.leaf_kyber_public p)) as [[]|]; [reflexivity|discriminate].
Qed.


Lemma path_node_sizes p : validate_path_keys p = Ok tt -> Forall node_sizes (GroupUpdatePath.nodes p).
Proof.
  intros Hp. unfold validate_path_keys in Hp. apply rbind_Ok in Hp. destruct Hp as ([] & _ & Hp).
  apply rbind_Ok in Hp. destruct Hp as ([] & _ & Hp). apply foldR_unit in Hp. eapply Forall_impl; [|exact Hp].
  intros nd Hnd. apply rbind_Ok in Hnd. destruct Hnd as ([] & Hx & Hk). split.
  - destruct (DhValidator.validate_x25519_public_key _) as [[]|] eqn:E; [|discriminate]. now apply valid_x25519_len.
  - destruct (kyber_validate_public_key _) as [[]|] eqn:E; [|discriminate]. now apply valid_kyber_len.
Qed.

Lemma path_hash_sizes nodes : validate_path_hashes nodes = Ok tt -> Forall hash_size nodes.
Proof.
  induction nodes as [|nd nodes IH]; intros H; constructor; cbn [validate_path_hashes] in H; inv_ok; bools; auto.
Qed.

Lemma direct_path_inner n i dp : 0 < n <= max_leaves -> 0 <= i < n -> direct_path i n = Ok dp -> inner dp.
Proof.
  intros Hn Hi H. destruct (leaf_paths n Hn i Hi) as (r & path & cp & _ & Hp & _ & Hc & _). assert (path = dp) by congruence. subst.
  eapply Forall_impl; [|exact (path_inner n _ _ _ _ Hc)]. intros d [[Hd _] Hl]. auto.
Qed.

Lemma Forall_skipn {A} (Q : A -> Prop) k l : Forall Q l -> Forall Q (skipn k l).
Proof. intros H. revert k. induction H; intros [|k]; cbn [skipn]; auto. Qed.

Lemma Forall_firstn {A} (Q : A -> Prop) k l : Forall Q l -> Forall Q (firstn k l).
Proof. intros H. revert k. induction H; intros [|k]; cbn [firstn]; auto. Qed.

Lemma process_update_path_safe l p c m d : 0 <= c -> vget l c = Some (Some d) -> safe l (process_update_path p c m).
Proof.
  intros Hc Hd. unfold process_update_path. apply safe_read. intros t W Hl. pose proof (wf_bound t W) as Hb.
  assert (Hcn : 0 <= c < RatchetTree.leaf_count t)
    by (rewrite <- (wf_leaves t W), Hl; split; [exact Hc|eapply vget_Some_range; eassumption]).
  do 3 (apply safe_guard; intros _). apply safe_lift. intros [] Hvk. apply safe_lift. intros dp Hdp.
  apply safe_lift. intros cp _. apply safe_lift. intros mn _. apply safe_guard. intros _. apply safe_lift. intros [] Hvh.
  apply safe_lift. intros mdp _. apply safe_lift. intros [lv secret] _.
  pose proof (direct_path_inner _ _ _ Hb Hcn Hdp) as Hin. pose proof (path_node_sizes _ Hvk) as Hns.
  pose proof (path_hash_sizes _ Hvh) as Hhs. destruct (path_leaf_keys _ Hvk) as [Hlx Hlk].
  pose proof (Forall_skipn _ (Z.to_nat lv) _ Hin) as Hin2. pose proof (Forall_skipn _ (Z.to_nat lv) _ Hns) as Hns2.
  destruct (skipn (Z.to_nat lv) dp) as [|a dpa]; [apply safe_fail_bind|]. apply safe_ret_bind.
  destruct (skipn (Z.to_nat lv) (GroupUpdatePath.nodes p)) as [|nd nda]; [apply safe_fail_bind|]. apply safe_ret_bind.
  inversion_clear Hin2. inversion_clear Hns2.
  apply safe_bind; [now apply safe_install_level|]. intros _. apply safe_bind; [now apply safe_climb|]. intros secret'.
  apply safe_bind; [apply safe_install_public; now apply Forall_firstn|]. intros _.
  apply safe_lift. intros cn Hcnode. assert (cn = 2 * c) by (destruct (leaf_in_tree _ Hb c Hcn) as [E _]; congruence). subst cn.
  apply safe_bind.
  { apply safe_public; [lia|now apply valid_x25519_len|now apply valid_kyber_len|].
    intros _. exists d. now rewrite (Z.mul_comm 2 c), Z.div_mul by lia. }
  intros _. apply safe_bind; [now apply safe_install_hashes|]. intros _. apply safe_bind; [apply safe_sgets|]. intros _. apply safe_sret.
Qed.

(** ** Processing any commit *)

Lemma check_committer_inv t commit added p : check_committer t commit added = Ok p ->
  exists d, get_leaf_data t (GroupCommit.committer_leaf_index commit) = Some d /\
    len (GroupUpdatePath.leaf_signature p) = ED25519_SIGNATURE_BYTES.
Proof.
  intros H. unfold check_committer in H. inv_ok.
  eexists. split; [eassumption|]. match goal with E : validate_leaf_update_signature _ _ = Ok _ |- _ =>
    unfold validate_leaf_update_signature, validate_key_package in E; inv_ok end. now bools.
Qed.

Lemma sbind_cases {E S A B} (c : Stm E S A) (k : A -> Stm E S B) s r s' : sbind c k s = (r, s') ->
  (exists e, c s = (Err e, s')) \/ exists a s1, c s = (Ok a, s1) /\ k a s1 = (r, s').
Proof.
  unfold sbind. destruct (c s) as [[a|e] s1] eqn:Hs; intros H; [right; eauto|]. apply pair_inj in H as [_ ->]. eauto.
Qed.

(** A read step: on an error the state is that of the start. *)
Lemma read_cases {E S A B} (f : S -> Result E A) (k : A -> Stm E S B) s r s' : sbind (sgets f) k s = (r, s') ->
  s' = s \/ exists a, f s = Ok a /\ k a s = (r, s').
Proof.
  intros H. apply sbind_cases in H. destruct H as [[e H]|(a & s1 & H & Hk)]; apply sgets_inv in H; destruct H as [H ->]; eauto.
Qed.

Lemma lift_cases {E S A B} (x : Result E A) (k : A -> Stm E S B) s r s' : sbind (slift x) k s = (r, s') ->
  s' = s \/ exists a, x = Ok a /\ k a s = (r, s').
Proof. exact (read_cases (fun _ => x) k s r s'). Qed.

Ltac read_step H :=
  first [apply read_cases in H | apply lift_cases in H];
  let a := fresh "a" in let E := fresh "E" in destruct H as [->|(a & E & H)]; [assumption|].

Lemma process_commit_wf commit m init gid epoch psk policy s r s' : tree_wf s ->
  0 <= GroupCommit.committer_leaf_index commit -> Forall proposal_u32 (GroupCommit.proposals commit) ->
  process_commit commit m init gid epoch psk policy s = (r, s') -> tree_wf s'.
Proof.
  intros W Hc Hu H. unfold process_commit in H. do 3 read_step H. apply sbind_cases in H. destruct a1.
  destruct H as [[e H]|(added & s1 & Ha & H)]; [eapply apply_proposals_wf; eauto|].
  pose proof (apply_proposals_wf _ _ _ _ _ W Hu E1 Ha) as W1. read_step H. rename a1 into p.
  destruct (check_committer_inv _ _ _ _ E2) as (d & Hd & Hsg).
  assert (Hv : vget (RatchetTree.leaves s1) (GroupCommit.committer_leaf_index commit) = Some (Some d)).
  { unfold get_leaf_data in Hd. destruct (vget _ _); congruence. }
  apply sbind_cases in H. destruct H as [[e H]|(secret & s2 & Hp & H)].
  - eapply (process_update_path_safe _ p _ m d Hc Hv); eauto.
  - destruct (process_update_path_safe _ p _ m d Hc Hv _ _ _ W1 eq_refl Hp) as [W2 _].
    apply sbind_cases in H. destruct H as [[e H]|([] & s3 & Hs & H)]; [eapply set_leaf_signature_wf; eauto|].
    pose proof (set_leaf_signature_wf _ _ _ _ _ W2 Hc Hsg Hs) as W3.
    do 5 read_step H. unfold sguard in H. do 2 read_step H. apply sret_inv in H. destruct H as [_ ->]. exact W3.
Qed.

(** ** Creating a commit *)

Lemma generated_sizes e xh xp : generate_x25519_keypair e = Ok (xh, xp) -> len xp = X25519_PUBLIC_KEY_BYTES.
Proof. intros H. unfold generate_x25519_keypair, crypto_err in H. inv_ok. apply x25519_public_len. Qed.

Lemma generated_kyber_sizes e r kh kp : kyber_generate_keypair e r = Ok (kh, kp) -> len kp = KYBER_PUBLIC_KEY_BYTES.
Proof. intros H. apply kyber_generate_keypair_inv in H. destruct H as [_ ->]. apply mlkem_generate_len. Qed.

Lemma derived_sizes s xh xp kh kp : derive_node_keypairs s = Ok (xh, xp, kh, kp) ->
  len xp = X25519_PUBLIC_KEY_BYTES /\ len kp = KYBER_PUBLIC_KEY_BYTES.
Proof.
  intros H. unfold derive_node_keypairs, crypto_err in H. do 4 (apply rbind_Ok in H; destruct H as (? & ? & H)).
  apply rbind_Ok in H. destruct H as ([kh' kp'] & Hk & H). apply Ok_inj in H. repeat apply pair_inj in H as [H ?]. subst.
  split; [apply x25519_public_len|]. destruct (kyber_generate_keypair_from_seed _) as [[kh1 kp1]|] eqn:E; [|discriminate].
  cbn [map_err] in Hk. apply Ok_inj, pair_inj in Hk as [-> ->]. unfold kyber_generate_keypair_from_seed in E.
  apply rbind_Ok in E. destruct E as ([] & _ & E). pose proof (mlkem_generate_len (chacha20rng (firstn (Z.to_nat KYBER_SEED_KEY_BYTES) x2))) as [_ Hl].
  destruct (mlkem_generate _) as [dk ek]. inv_ok. exact Hl.
Qed.

Lemma update_nodes_sizes tree seal : forall dp cp secrets i nodes privs, Forall (fun d => 0 <= d) dp ->
  update_path_nodes tree seal i dp cp secrets = Ok (nodes, privs) ->
  Forall node_sizes nodes /\ Forall (fun p => 0 <= fst (fst p)) privs.
Proof.
  induction dp as [|d dp IH]; intros [|c cp] [|x secrets] i nodes privs Hd H; cbn [update_path_nodes] in H;
    try (apply Ok_inj, pair_inj in H as [<- <-]; now split).
  inversion_clear Hd as [|? ? Hd1 Hd2]. apply rbind_Ok in H. destruct H as ([[[xh xp] kh] kp] & Hk & H).
  apply rbind_Ok in H. destruct H as (res & _ & H). apply rbind_Ok in H. destruct H as (cts & _ & H).
  apply rbind_Ok in H. destruct H as ([nodes' privs'] & Hn & H). apply Ok_inj, pair_inj in H as [<- <-].
  destruct (IH _ _ _ _ _ Hd2 Hn) as [H1 H2]. split; constructor; auto. exact (derived_sizes _ _ _ _ _ Hk).
Qed.

Lemma set_hashes_sizes tree n : forall dp nodes nodes', set_parent_hashes tree n dp nodes = Ok nodes' ->
  Forall node_sizes nodes -> Forall node_sizes nodes' /\ Forall hash_size nodes'.
Proof.
  induction dp as [|d dp IH]; intros [|nd nodes] nodes' H Hn; cbn [set_parent_hashes] in H; try (apply Ok_inj in H; subst; now split).
  inversion_clear Hn as [|? ? Hn1 Hn2]. apply rbind_Ok in H. destruct H as (above & Ha & H). destruct (IH _ _ Ha Hn2) as [H1 H2].
  destruct above as [|p above].
  - apply Ok_inj in H. subst. split; constructor; auto. reflexivity.
  - apply rbind_Ok in H. destruct H as (sib & _ & H). apply rbind_Ok in H. destruct H as (h & Hh & H). apply Ok_inj in H. subst.
    split; constructor; auto. unfold hash_size. cbn. unfold compute_parent_hash_value in Hh. apply rbind_Ok in Hh.
    destruct Hh as (sh & _ & Hh). apply Ok_inj in Hh. subst h. apply sha256_len.
Qed.

Lemma create_update_path_sizes t c e p secret privs : tree_wf t -> 0 <= c < RatchetTree.leaf_count t ->
  create_update_path t c e = Ok (p, secret, privs) ->
  len (GroupUpdatePath.leaf_x25519_public p) = X25519_PUBLIC_KEY_BYTES /\
  len (GroupUpdatePath.leaf_kyber_public p) = KYBER_PUBLIC_KEY_BYTES /\
  Forall node_sizes (GroupUpdatePath.nodes p) /\ Forall hash_size (GroupUpdatePath.nodes p) /\
  Forall (fun q => 0 <= fst (fst q)) privs.
Proof.
  intros W Hc H. pose proof (wf_bound t W) as Hb. destruct (leaf_in_tree _ Hb c Hc) as [Lc _]. unfold create_update_path in H.
  apply rbind_Ok in H. destruct H as ([xh xp] & Hx & H). apply generated_sizes in Hx.
  apply rbind_Ok in H. destruct H as ([kh kp] & Hk & H). unfold crypto_err in Hk.
  destruct (kyber_generate_keypair _ _) as [[kh' kp']|] eqn:Ek; [|discriminate]. cbn [map_err] in Hk. apply Ok_inj, pair_inj in Hk as [-> ->].
  apply generated_kyber_sizes in Ek. rewrite Lc in H. destruct (_ <=? 1).
  - cbn [rbind] in H. apply Ok_inj, pair_inj in H as [H <-]. apply pair_inj in H as [<- <-]. cbn [GroupUpdatePath.leaf_x25519_public
      GroupUpdatePath.leaf_kyber_public GroupUpdatePath.nodes]. conjs; auto. constructor; [cbn [fst]; lia|constructor].
  - apply rbind_Ok in H. destruct H as (dp & Hdp & H). apply rbind_Ok in H. destruct H as (cp & _ & H).
    apply rbind_Ok in H. destruct H as (more & _ & H). cbn [rbind] in H. apply rbind_Ok in H. destruct H as ([nodes ps] & Hu & H).
    apply rbind_Ok in H. destruct H as (nodes' & Hh & H). apply Ok_inj, pair_inj in H as [H <-]. apply pair_inj in H as [<- <-].
    pose proof (direct_path_inner _ _ _ Hb Hc Hdp) as Hin.
    destruct (update_nodes_sizes _ _ _ _ _ _ _ _ (Forall_impl _ (fun d H => proj1 H) Hin) Hu) as [Hns Hps].
    destruct (set_hashes_sizes _ _ _ _ _ Hh Hns) as [H1 H2]. cbn [GroupUpdatePath.leaf_x25519_public
      GroupUpdatePath.leaf_kyber_public GroupUpdatePath.nodes]. conjs; auto. constructor; [cbn [fst]; lia|exact Hps].
Qed.

Lemma set_leaf_signature_count i sg s u s' : set_leaf_signature i sg s = (Ok u, s') ->
  RatchetTree.leaf_count s' = RatchetTree.leaf_count s.
Proof. intros H. unfold set_leaf_signature in H. inv_stm. destruct (get_leaf_data s i); inv_stm. reflexivity. Qed.

Lemma make_update_path_wf c sk e s r s' : tree_wf s -> 0 <= c -> make_update_path c sk e s = (r, s') -> tree_wf s'.
Proof.
  intros W Hc H. unfold make_update_path in H. apply read_cases in H. destruct H as [->|([[p secret] privs] & Hcr & H)]; [exact W|].
  apply read_cases in H. destruct H as [->|(d & Hd & H)]; [exact W|].
  destruct (get_leaf_data s c) as [d'|] eqn:Ed; [|discriminate].
  assert (Hr : 0 <= c < RatchetTree.leaf_count s).
  { split; [exact Hc|]. apply get_leaf_range in Ed; [|exact Hc]. now rewrite (wf_leaves s W) in Ed. }
  destruct (create_update_path_sizes s c e p secret privs W Hr Hcr) as (Hx & Hk & Hns & Hhs & Hps).
  apply lift_cases in H. destruct H as [->|(sg & Hsg & H)]; [exact W|].
  assert (Hsgl : len sg = ED25519_SIGNATURE_BYTES).
  { unfold sign_existing_key_package, kp_ed25519_sign in Hsg. inv_ok. apply ed25519_sign_len. }
  pose proof (wf_bound s W) as Hb. destruct (leaf_in_tree _ Hb c Hr) as [Lc _]. rewrite Lc in H. cbv zeta in H.
  apply lift_cases in H. destruct H as [->|(cn & Ecn & H)]; [exact W|]. apply Ok_inj in Ecn. subst cn.
  assert (Hv : vget (RatchetTree.leaves s) c = Some (Some d')) by (unfold get_leaf_data in Ed; destruct (vget _ _); congruence).
  assert (Hsafe : safe (RatchetTree.leaves s) (set_node_public_keys (2 * c) (GroupUpdatePath.leaf_x25519_public p)
    (GroupUpdatePath.leaf_kyber_public p))).
  { apply safe_public; auto; [lia|]. intros _. exists d'. now rewrite (Z.mul_comm 2 c), Z.div_mul by lia. }
  apply sbind_cases in H. destruct H as [[er H]|([] & s1 & H1 & H)]; [now apply (Hsafe s (Err er) s' W eq_refl)|].
  destruct (Hsafe _ _ _ W eq_refl H1) as [W1 Hl1].
  apply sbind_cases in H. destruct H as [[er H]|([] & s2 & H2 & H)]; [eapply set_leaf_signature_wf; eauto|].
  pose proof (set_leaf_signature_wf _ _ _ _ _ W1 Hc Hsgl H2) as W2.
  apply read_cases in H. destruct H as [->|(dp & Hdp & H)]; [exact W2|].
  assert (Hin : inner dp).
  { apply (direct_path_inner (RatchetTree.leaf_count s2) c); [now apply wf_bound| |exact Hdp].
    apply set_leaf_signature_count in H2. rewrite H2, <- (wf_leaves s1 W1), Hl1, (wf_leaves s W). exact Hr. }
  refine (proj1 ((_ : safe (RatchetTree.leaves s2) _) s2 r s' W2 eq_refl H)).
  apply safe_bind; [now apply safe_install_public|]. intros _. apply safe_bind; [now apply safe_install_own|]. intros _.
  apply safe_bind; [now apply safe_install_private|]. intros _. apply safe_sret.
Qed.

Lemma create_commit_wf ps c init gid epoch sk psk policy e s r s' : tree_wf s -> 0 <= c -> Forall proposal_u32 ps ->
  create_commit ps c init gid epoch sk psk policy e s = (r, s') -> tree_wf s'.
Proof.
  intros W Hc Hu H. unfold create_commit in H. read_step H. destruct a. apply sbind_cases in H.
  destruct H as [[er H]|(added & s1 & Ha & H)]; [eapply apply_proposals_wf; eauto|].
  pose proof (apply_proposals_wf _ _ _ _ _ W Hu E Ha) as W1. apply sbind_cases in H.
  destruct H as [[er H]|([p secret] & s2 & Hp & H)]; [eapply make_update_path_wf; eauto|].
  pose proof (make_update_path_wf _ _ _ _ _ _ W1 Hc Hp) as W2. do 7 read_step H.
  apply sret_inv in H. destruct H as [_ ->]. exact W2.
Qed.

(** C23. Well-formedness of the ratchet tree: node and leaf counts that match and
    stay within the limit, blank leaf nodes exactly at the free leaves, keys,
    hashes and signatures of the right sizes, and no identity twice.  Creating a
    commit and processing one keep it, whatever the proposals and the received
    commit contain, and also when they fail half-way with the tree already
    changed. *)
Theorem commits_keep_tree_well_formed s (W : tree_wf s) :
  (forall ps c init gid epoch sk psk policy e r s', 0 <= c -> Forall proposal_u32 ps ->
     create_commit ps c init gid epoch sk psk policy e s = (r, s') -> tree_wf s') /\
  (forall commit m init gid epoch psk policy r s', 0 <= GroupCommit.committer_leaf_index commit ->
     Forall proposal_u32 (GroupCommit.proposals commit) ->
     process_commit commit m init gid epoch psk policy s = (r, s') -> tree_wf s').
Proof.
  split; intros; [eapply create_commit_wf|eapply process_commit_wf]; eauto.
Qed.

End Commits.
