(* ===== verification/CommitSync.v ===== *)
(** * Commits: the group stays in agreement

    A commit made by one member is processed by every other member that stays
    and owns the nodes above its leaf, with the same keys, the same sender store
    and the same public tree as a result; the members own their nodes again, so
    the argument repeats for the next commit. *)

From Stdlib Require Import ZArith List Bool Lia String.
From S2P Require Import Prelude Constants SecureMemory Crypto Signatures DhValidator TreeIndex.
From S2P Require Import Proto GroupProto KeySchedule SenderKeys KeyPackage RatchetTree Commit TreeKem.
From S2P Require Import TreeFacts TreeMembers PathSecrets TreeResolution TreeUpdates PathAgreement.
From S2P Require Import TreeTypes ProposalSync.
Import ListNotations.
Open Scope Z_scope.

(** The invariant is about public data. *)
Lemma wf_public s1 s2 : public s1 = public s2 -> tree_wf s1 -> tree_wf s2.
Proof.
  intros Hp [A B C D E F G]. pose proof (public_leaves _ _ Hp) as Hl. pose proof (public_count _ _ Hp) as Hc.
  constructor; rewrite <- ?Hl, <- ?Hc; auto.
  - now rewrite <- (public_len _ _ Hp).
  - intros i Hi. rewrite view_blank, <- (public_view _ _ _ Hp), <- view_blank, D by exact Hi.
    unfold get_leaf_data. now rewrite Hl.
  - apply Forall_forall. intros c Hin. apply In_nth_error in Hin. destruct Hin as [k Hk].
    pose proof (public_view _ _ (Z.of_nat k) Hp) as Hv. unfold view, vget in Hv. rewrite Nat2Z.id, Hk in Hv.
    destruct (nth_error (RatchetTree.nodes s1) k) as [c1|] eqn:E1; [|discriminate]. cbn in Hv.
    apply nth_error_In in E1. rewrite Forall_forall in E. specialize (E c1 E1).
    destruct c as [|k2 p2], c1 as [|k1 p1]; try discriminate Hv; [exact I|]. cbn in Hv. injection Hv as Hx Hk' Hph.
    unfold node_ok in *. now rewrite <- Hx, <- Hk', <- Hph.
Qed.

Section Sync.
Context {P : Primitives} {L : PrimitiveLaws P} {SG : Signatures} {SL : SignatureLaws SG}.
Context {CC : Prost GroupCommit.t} {CP : Prost GroupSecurityPolicyProto.t} {CE : Prost GroupExternalJoinAuthorization.t}.

Definition identity_valid (d : LeafData.t) : Prop :=
  DhValidator.validate_x25519_public_key (LeafData.identity_x25519_public d) = Ok tt /\
  kyber_validate_public_key (LeafData.identity_kyber_public d) = Ok tt.

(** ** Signatures of the committer *)

Lemma verify_signed seed m sg context : sg = ed25519_sign (ed25519_keypair seed) m ->
  ed25519_verify_message (ed25519_public (ed25519_keypair seed)) sg m context = Ok tt.
Proof.
  intros ->. unfold ed25519_verify_message. rewrite ed25519_public_len by apply ed25519_keypair_len.
  rewrite ed25519_sign_len, ed25519_public_valid, ed25519_sign_verify. reflexivity.
Qed.

Lemma leaf_signature_valid d seed p sg : LeafData.identity_ed25519_public d = ed25519_public (ed25519_keypair seed) ->
  leaf_ok (Some d) -> identity_valid d -> validate_path_keys p = Ok tt ->
  sign_existing_key_package (ed25519_keypair seed) (LeafData.identity_ed25519_public d) (LeafData.identity_x25519_public d)
    (LeafData.identity_kyber_public d) (GroupUpdatePath.leaf_x25519_public p) (GroupUpdatePath.leaf_kyber_public p)
    (LeafData.credential d) = Ok sg ->
  GroupUpdatePath.leaf_signature p = sg -> validate_leaf_update_signature d p = Ok tt.
Proof.
  intros Hid (H1 & H2 & H3 & H4 & _) [Hx Hk] Hp Hsg Hs. destruct (path_leaf_keys p Hp) as [Hlx Hlk].
  unfold sign_existing_key_package, kp_ed25519_sign in Hsg. apply rbind_Ok in Hsg. destruct Hsg as ([] & _ & Hsg).
  apply rbind_Ok in Hsg. destruct Hsg as ([] & _ & Hsg). apply Ok_inj in Hsg.
  unfold validate_leaf_update_signature, validate_key_package, crypto_err.
  cbn [GroupKeyPackage.version GroupKeyPackage.credential GroupKeyPackage.identity_ed25519_public
    GroupKeyPackage.identity_x25519_public GroupKeyPackage.identity_kyber_public GroupKeyPackage.leaf_x25519_public
    GroupKeyPackage.leaf_kyber_public GroupKeyPackage.signature].
  rewrite H2, H3, H4, (valid_x25519_len _ Hlx), (valid_kyber_len _ Hlk), Hx, Hk, Hlx, Hlk, Hs, <- Hsg, ed25519_sign_len.
  destruct (Z.ltb_spec MAX_CREDENTIAL_SIZE (len (LeafData.credential d))); [lia|].
  rewrite !Z.eqb_refl. cbn [negb ensure rbind map_err]. unfold kp_ed25519_verify. rewrite H2, ed25519_sign_len. rewrite Hid.
  rewrite ed25519_public_valid, ed25519_sign_verify, !Z.eqb_refl. reflexivity.
Qed.

(** ** One update path at the committer and at a member *)

Lemma holds_put_leaf s m i l : holds s m -> holds (put_leaf i l s) m.
Proof. exact (fun H => H). Qed.

Lemma path_step t1 m1 c m dm sk e p secret tc' : tree_wf t1 -> public t1 = public m1 -> 0 <= c -> 0 <= m -> c <> m ->
  get_leaf_data t1 m = Some dm -> holds m1 m -> entropy_ok e ->
  make_update_path c sk e t1 = (Ok (p, secret), tc') -> path_sound p ->
  exists m2 m3 d, process_update_path p c m m1 = (Ok secret, m2) /\ get_leaf_data t1 c = Some d /\
    sign_existing_key_package sk (LeafData.identity_ed25519_public d) (LeafData.identity_x25519_public d)
      (LeafData.identity_kyber_public d) (GroupUpdatePath.leaf_x25519_public p) (GroupUpdatePath.leaf_kyber_public p)
      (LeafData.credential d) = Ok (GroupUpdatePath.leaf_signature p) /\
    set_leaf_signature c (GroupUpdatePath.leaf_signature p) m2 = (Ok tt, m3) /\
    public m3 = public tc' /\ holds m3 m /\ holds tc' c /\
    (forall j, 0 <= j -> get_leaf_data tc' j =
       if c =? j then Some (LeafData.set_signature (GroupUpdatePath.leaf_signature p) d) else get_leaf_data t1 j).
Proof.
  intros W Hpub Hc0 Hm0 Hcm Hdm Hh He Hmk Hsound. pose proof (wf_public _ _ Hpub W) as W'.
  assert (Hc' : exists d, get_leaf_data t1 c = Some d).
  { unfold make_update_path in Hmk. inv_stm. destruct (get_leaf_data t1 c) as [d|]; [eauto|discriminate]. }
  destruct Hc' as [dc Hdc]. pose proof (leaf_range _ _ _ W Hc0 Hdc) as Hc. pose proof (leaf_range _ _ _ W Hm0 Hdm) as Hm.
  set (n := RatchetTree.leaf_count t1) in *. pose proof (wf_bound t1 W) as Hn. fold n in Hn.
  assert (Hn1 : 1 < n <= max_leaves) by lia. pose proof (wf_len t1 W) as Hnodes. fold n in Hnodes.
  assert (Hcnt : RatchetTree.leaf_count m1 = n) by (symmetry; now apply public_count).
  destruct (leaf_paths n Hn c Hc) as (r & dp & cp & Hr & Hdp & Hcp & Hcl & _).
  destruct (leaf_paths n Hn m Hm) as (r' & mdp & mcp & Hr' & Hmdp & _ & Hml & _).
  assert (r' = r) by congruence. subst r'.
  destruct (make_update_path_inv n Hn1 r Hr t1 eq_refl Hnodes c Hc dp cp Hcl Hdp Hcp sk e p secret tc' He Hmk)
    as (p0 & privs & d & sg & t & Hcr & Hd & Hsg & -> & Gt & ->).
  destruct (create_update_path_inv n Hn1 r Hr t1 eq_refl c Hc dp cp Hcl Hdp Hcp e p0 secret privs He Hcr)
    as (Hrows & Hchain & -> & -> & Hlx & Hlk).
  assert (Hocc : is_blank m1 (2 * m) = false).
  { rewrite (wf_occupied m1 W') by lia. unfold get_leaf_data in *. rewrite <- (public_leaves _ _ Hpub). now rewrite Hdm. }
  destruct He as (He1 & He2 & He3).
  destruct (process_run n Hn r Hr m1 t1 Hpub Hcnt (eq_trans (eq_sym (public_len _ _ Hpub)) Hnodes) c m Hc Hm Hcm Hocc Hh dp cp mdp mcp
    Hcl Hml (pe_seal e) He3 Hdp Hcp Hmdp (pe_secret e) (GroupUpdatePath.set_leaf_signature sg p0) He2 Hrows Hchain Hsound)
    as (m2 & g & Hrun & Gm & Hshow & Hhm).
  pose proof (rows_len _ _ _ _ _ _ _ Hrows) as Hlen.
  exists m2, (put_leaf c (Some (LeafData.set_signature sg d)) m2), d. conjs; auto.
  - unfold set_leaf_signature, sbind, sget. replace (get_leaf_data m2 c) with (Some d); [reflexivity|].
    unfold get_leaf_data in *. rewrite (ed_leaves _ _ _ Gm), <- (public_leaves _ _ Hpub). congruence.
  - rewrite !public_put_leaf. f_equal. eapply shows_public; [symmetry; exact Hpub|exact Gm|exact Gt|exact Hshow|].
    eapply committer_edit_shows; eauto.
  - apply holds_put_leaf. eapply (committer_holds n Hn1 r Hr t1); eauto. exact (rows_match _ _ _ _ _ _ _ Hrows).
  - intros j Hj. rewrite get_leaf_put; [|rewrite (ed_leaves _ _ _ Gt), (wf_leaves t1 W); exact Hc|exact Hj].
    unfold get_leaf_data. now rewrite (ed_leaves _ _ _ Gt).
Qed.

(** ** Commits *)

Lemma no_external ps : existsb is_external_init ps = false -> find_external_init ps = None.
Proof.
  induction ps as [|p ps IH]; [reflexivity|]. cbn [existsb find_external_init]. unfold is_external_init at 1.
  destruct (GroupProposal.proposal p) as [[]|]; cbn [orb]; auto. discriminate.
Qed.

(** What the committer computed. *)
Lemma create_commit_inv ps c init gid epoch sk psk policy e t out t' :
  create_commit ps c init gid epoch sk psk policy e t = (Ok out, t') ->
  exists t1 added p secret th ne keys0 keys mac store sg,
    validate_proposals t ps c = Ok tt /\ apply_proposals ps t = (Ok added, t1) /\
    make_update_path c sk e t1 = (Ok (p, secret), t') /\ tree_hash t' = Ok th /\ checked_add 64 epoch 1 = Some ne /\
    let ctx := compute_group_context_hash gid ne th (GroupSecurityPolicy.policy_bytes policy) in
    let enhanced := GroupSecurityPolicy.enhanced_key_schedule policy in
    let commit := GroupCommit.mk c ps (Some p) mac ne gid [] in
    derive_epoch_keys init secret ctx enhanced = Ok keys0 /\ apply_psk_proposals keys0 ps psk enhanced = Ok keys /\
    compute_confirmation_mac (EpochKeys.confirmation_key keys) ctx = Ok mac /\ sender_store_of t' keys ctx policy = Ok store /\
    ed25519_sign_commit sk (encode commit) = Ok sg /\
    out = mkCommitOutput (GroupCommit.set_committer_signature sg commit) keys store added ctx (derive_joiner_secret init secret).
Proof.
  intros H. unfold create_commit in H. inv_stm.
  match goal with E : ok_or (checked_add 64 epoch 1) _ = Ok _ |- _ => apply ok_or_Ok in E end.
  repeat match goal with u : unit |- _ => destruct u end.
  do 11 eexists. cbv zeta. conjs; [eassumption..|reflexivity].
Qed.

(** The run of [process_commit] from the runs of its parts. *)
Lemma process_commit_run commit m init gid epoch psk policy tm m1 m2 m3 added p secret th keys0 keys store :
  let ctx := compute_group_context_hash gid (GroupCommit.epoch commit) th (GroupSecurityPolicy.policy_bytes policy) in
  let enhanced := GroupSecurityPolicy.enhanced_key_schedule policy in
  check_commit tm commit init gid epoch policy = Ok tt -> find_external_init (GroupCommit.proposals commit) = None ->
  validate_proposals tm (GroupCommit.proposals commit) (GroupCommit.committer_leaf_index commit) = Ok tt ->
  apply_proposals (GroupCommit.proposals commit) tm = (Ok added, m1) -> check_committer m1 commit added = Ok p ->
  process_update_path p (GroupCommit.committer_leaf_index commit) m m1 = (Ok secret, m2) ->
  set_leaf_signature (GroupCommit.committer_leaf_index commit) (GroupUpdatePath.leaf_signature p) m2 = (Ok tt, m3) ->
  tree_hash m3 = Ok th -> derive_epoch_keys init secret ctx enhanced = Ok keys0 ->
  apply_psk_proposals keys0 (GroupCommit.proposals commit) psk enhanced = Ok keys ->
  compute_confirmation_mac (EpochKeys.confirmation_key keys) ctx = Ok (GroupCommit.confirmation_mac commit) ->
  sender_store_of m3 keys ctx policy = Ok store ->
  process_commit commit m init gid epoch psk policy tm = (Ok (mkProcessedCommit keys store added ctx), m3).
Proof.
  intros ctx enhanced H1 H2 H3 H4 H5 H6 H7 H8 H9 H10 H11 H12. unfold process_commit.
  unfold sgets at 1. unfold sbind at 1. rewrite H1. unfold find_and_process_external_init. rewrite H2.
  unfold slift at 1. unfold sbind at 1. unfold sgets at 1. unfold sbind at 1. rewrite H3. rewrite (sbind_run _ _ _ _ _ H4).
  unfold sgets at 1. unfold sbind at 1. rewrite H5. rewrite (sbind_run _ _ _ _ _ H6), (sbind_run _ _ _ _ _ H7).
  unfold sgets at 1. unfold sbind at 1. rewrite H8. cbv zeta. fold ctx enhanced.
  unfold slift at 1. unfold sbind at 1. rewrite H9. unfold slift at 1. unfold sbind at 1. rewrite H10.
  unfold slift at 1. unfold sbind at 1. rewrite H11. unfold slift at 1. unfold sbind at 1.
  rewrite constant_time_equals_spec, bytes_eqb_refl. unfold crypto_err, sguard, slift. cbn [map_err ensure].
  unfold sbind at 1. unfold sgets, sbind. rewrite H12. reflexivity.
Qed.

(** A member that processes the output [out]. *)
Definition accepted (out : CommitOutput) : ProcessedCommit :=
  mkProcessedCommit (co_epoch_keys out) (co_new_sender_store out) (co_added_leaf_indices out) (co_group_context_hash out).

Definition commit_path_sound (out : CommitOutput) : Prop :=
  forall p, GroupCommit.update_path (co_commit out) = Some p -> path_sound p.

(** The committer: its tree, its leaf and its signing key. *)
Record committer (tc : RatchetTree) (c : Z) (seed : bytes) : Prop := {
  cm_wf : tree_wf tc;
  cm_index : 0 <= c;
  cm_leaf : exists d, get_leaf_data tc c = Some d /\
    LeafData.identity_ed25519_public d = ed25519_public (ed25519_keypair seed) /\ identity_valid d }.

(** The checks of a member on the commit pass. *)
Lemma check_commit_ok tc tm c seed ps p mac ne gid sg init epoch policy : committer tc c seed -> public tc = public tm ->
  existsb is_external_init ps = false -> checked_add 64 epoch 1 = Some ne ->
  ed25519_sign_commit (ed25519_keypair seed) (encode (GroupCommit.mk c ps (Some p) mac ne gid [])) = Ok sg ->
  check_commit tm (GroupCommit.mk c ps (Some p) mac ne gid sg) init gid epoch policy = Ok tt.
Proof.
  intros [W Hc (d & Hd & Hid & _)] Hpub Hext Hne Hsg. unfold check_commit. rewrite Hne.
  cbn [ok_or rbind GroupCommit.epoch GroupCommit.group_id GroupCommit.proposals GroupCommit.committer_leaf_index
    GroupCommit.committer_signature GroupCommit.set_committer_signature GroupCommit.update_path GroupCommit.confirmation_mac].
  rewrite Z.eqb_refl, bytes_eqb_refl, Hext. cbn [ensure rbind orb].
  pose proof (leaf_range tc c d W Hc Hd) as Hr. rewrite <- (public_count _ _ Hpub).
  destruct (Z.ltb_spec c (RatchetTree.leaf_count tc)); [|lia]. cbn [ensure rbind]. unfold committer_key.
  assert (Hdm : get_leaf_data tm c = Some d) by (unfold get_leaf_data in *; now rewrite <- (public_leaves _ _ Hpub)).
  cbn [GroupCommit.committer_leaf_index GroupCommit.proposals]. rewrite Hdm. cbn [ok_or rbind]. rewrite Hid.
  apply verify_signed. unfold ed25519_sign_commit in Hsg. inv_ok. reflexivity.
Qed.

Lemma leaf_ok_of s i d : tree_wf s -> get_leaf_data s i = Some d -> leaf_ok (Some d).
Proof.
  intros W H. unfold get_leaf_data in H. destruct (vget (RatchetTree.leaves s) i) as [l|] eqn:E; [|discriminate]. subst l.
  exact (Forall_vget _ _ _ _ (wf_leaf_ok s W) E).
Qed.

Lemma check_committer_ok t1 m1 c ps p mac ne gid sg added d seed : public t1 = public m1 -> tree_wf t1 -> 0 <= c ->
  existsb is_external_init ps = false -> get_leaf_data t1 c = Some d ->
  LeafData.identity_ed25519_public d = ed25519_public (ed25519_keypair seed) -> identity_valid d -> leaf_ok (Some d) ->
  validate_path_keys p = Ok tt ->
  sign_existing_key_package (ed25519_keypair seed) (LeafData.identity_ed25519_public d) (LeafData.identity_x25519_public d)
    (LeafData.identity_kyber_public d) (GroupUpdatePath.leaf_x25519_public p) (GroupUpdatePath.leaf_kyber_public p)
    (LeafData.credential d) = Ok (GroupUpdatePath.leaf_signature p) ->
  check_committer m1 (GroupCommit.mk c ps (Some p) mac ne gid sg) added = Ok p.
Proof.
  intros Hpub W Hc Hext Hd Hid Hval Hok Hkeys Hsig. unfold check_committer.
  cbn [GroupCommit.committer_leaf_index GroupCommit.proposals GroupCommit.update_path]. rewrite Hext. cbn [negb orb ensure rbind].
  pose proof (leaf_range t1 c d W Hc Hd) as Hr. rewrite <- (public_count _ _ Hpub).
  destruct (Z.ltb_spec c (RatchetTree.leaf_count t1)); [|lia]. cbn [ensure rbind].
  assert (Hdm : get_leaf_data m1 c = Some d) by (unfold get_leaf_data in *; now rewrite <- (public_leaves _ _ Hpub)).
  rewrite Hdm. cbn [is_some ok_or ensure rbind]. rewrite (leaf_signature_valid d seed p _ Hid Hok Hval Hkeys Hsig eq_refl). reflexivity.
Qed.

Section Step.
Context (tc tm : RatchetTree) (c m : Z) (seed : bytes) (dm : LeafData.t).
Context (ps : list GroupProposal.t) (init gid : bytes) (epoch : Z) (psk : option PskResolver) (policy : GroupSecurityPolicy).
Context (e : PathEntropy) (out : CommitOutput) (tc' : RatchetTree).
Context (Hcom : committer tc c seed) (Hpub : public tc = public tm).
Context (Hm0 : 0 <= m) (Hcm : c <> m) (Hdm : get_leaf_data tc m = Some dm) (Hholds : holds tm m).
Context (Hu : Forall proposal_u32 ps) (Hext : existsb is_external_init ps = false) (Hstay : stays m ps) (He : entropy_ok e).
Context (Hcreate : create_commit ps c init gid epoch (ed25519_keypair seed) psk policy e tc = (Ok out, tc')).
Context (Hsound : commit_path_sound out).

Lemma commit_step : exists tm', process_commit (co_commit out) m init gid epoch psk policy tm = (Ok (accepted out), tm') /\
  public tm' = public tc' /\ holds tm' m /\ holds tc' c /\ tree_wf tc' /\
  get_leaf_data tc' m = Some dm /\ committer tc' c seed.
Proof.
  destruct (create_commit_inv _ _ _ _ _ _ _ _ _ _ _ _ Hcreate)
    as (t1 & added & p & secret & th & ne & keys0 & keys & mac & store & sg & Hv & Ha & Hmk & Hth & Hne & Hk0 & Hk & Hmac & Hst & Hsg & ->).
  destruct Hcom as [W Hc (d & Hd & Hid & Hval)]. specialize (Hsound p eq_refl).
  pose proof (apply_proposals_wf _ _ _ _ _ W Hu Hv Ha) as W1.
  pose proof (apply_proposals_stays m dm ps c tc _ t1 W Hu Hv Hm0 Hstay Hdm Ha) as I1.
  pose proof (apply_proposals_stays c d ps c tc _ t1 W Hu Hv Hc (committer_stays _ _ _ Hv) Hd Ha) as I2.
  destruct (apply_proposals_respects ps tc tm Hpub) as [Hr1 Hp1]. rewrite Ha in Hr1, Hp1. cbn [fst snd] in Hr1, Hp1.
  destruct (apply_proposals ps tm) as [r1 m1] eqn:Ham. cbn [fst snd] in Hr1, Hp1. subst r1.
  pose proof (wf_public _ _ Hpub W) as Wm. assert (Hvm : validate_proposals tm ps c = Ok tt) by (rewrite <- Hv; symmetry; now apply validate_proposals_public).
  assert (Hdmm : get_leaf_data tm m = Some dm) by (unfold get_leaf_data in *; now rewrite <- (public_leaves _ _ Hpub)).
  pose proof (apply_proposals_stays m dm ps c tm _ m1 Wm Hu Hvm Hm0 Hstay Hdmm Ham) as I3.
  pose proof (inherits_holds m tm m1 (leaf_range tm m dm Wm Hm0 Hdmm) I3 Hholds) as Hh1.
  assert (Hd1 : get_leaf_data t1 c = Some d) by (rewrite (in_leaf _ _ _ I2); exact Hd).
  assert (Hdm1 : get_leaf_data t1 m = Some dm) by (rewrite (in_leaf _ _ _ I1); exact Hdm).
  destruct (path_step t1 m1 c m dm _ e p secret tc' W1 Hp1 Hc Hm0 Hcm Hdm1 Hh1 He Hmk Hsound)
    as (m2 & m3 & d' & Hrun & Hd' & Hsig & Hset & Hp3 & Hhm & Hhc & Hleaf).
  assert (d' = d) by congruence. subst d'.
  pose proof (create_commit_wf _ _ _ _ _ _ _ _ _ _ _ _ W Hc Hu Hcreate) as W'.
  exists m3. split; [|conjs; auto].
  - eapply (process_commit_run (GroupCommit.mk c ps (Some p) mac ne gid sg)); cbn [GroupCommit.epoch GroupCommit.proposals
      GroupCommit.committer_leaf_index GroupCommit.confirmation_mac]; eauto using no_external.
    + eapply check_commit_ok; eauto.
    + eapply check_committer_ok; eauto using leaf_ok_of. exact (proj1 Hsound).
    + rewrite <- Hth. symmetry. apply tree_hash_public; [now apply wf_bound|now symmetry].
    + etransitivity; [|exact Hst]. unfold sender_store_of, populated_leaf_indices. now rewrite (public_leaves _ _ Hp3).
  - rewrite Hleaf by exact Hm0. now rewrite (proj2 (Z.eqb_neq c m) Hcm).
  - constructor; auto. exists (LeafData.set_signature (GroupUpdatePath.leaf_signature p) d).
    rewrite Hleaf, Z.eqb_refl by exact Hc. auto.
Qed.

End Step.

End Sync.
