(* ===== verification/TreeSigned.v ===== *)
(** * Clones and signed leaves

    A tree whose key handles have a legal size is its own clone, and every
    operation on the tree keeps that; every occupied leaf carries a key package
    with a valid signature, and commits keep that too. *)

From Stdlib Require Import ZArith List Bool Lia String.
From S2P Require Import Prelude Constants SecureMemory Crypto Signatures DhValidator Proto TreeIndex GroupProto.
From S2P Require Import KeySchedule SenderKeys KeyPackage RatchetTree TreeKem Commit TreeFacts TreeMembers.
From S2P Require Import TreeResolution PathSecrets TreeUpdates ProposalSync PathAgreement TreeTypes CommitSync.
Import ListNotations.
Open Scope Z_scope.

Definition handle_ok (h : SecureMemoryHandle.t) : Prop := 0 < len (SecureMemoryHandle.data h) <= MAX_BUFFER_SIZE.

Definition opt_handle_ok (h : option SecureMemoryHandle.t) : Prop := match h with Some h => handle_ok h | None => True end.

Definition node_handles (c : TreeNodeContent.t) : Prop :=
  match c with
  | Blank => True
  | Populated k _ => opt_handle_ok (HybridNodeKeys.x25519_private k) /\ opt_handle_ok (HybridNodeKeys.kyber_secret k)
  end.

Definition clonable (s : RatchetTree) : Prop := Forall node_handles (RatchetTree.nodes s).

(** ** A clone is the original *)

Lemma handle_clone h : handle_ok h -> SecureMemoryHandle.try_clone h = Ok h.
Proof.
  intros [H1 H2]. destruct h as [d]. unfold SecureMemoryHandle.try_clone, SecureMemoryHandle.allocate. cbn [SecureMemoryHandle.data] in *.
  destruct (Z.eqb_spec (len d) 0), (Z.ltb_spec MAX_BUFFER_SIZE (len d)); try lia. reflexivity.
Qed.

Lemma clone_handle_ok h : opt_handle_ok h -> HybridNodeKeys.clone_handle h = Ok h.
Proof. destruct h as [h|]; [|reflexivity]. intros H. cbn. now rewrite handle_clone. Qed.

Lemma node_clone c : node_handles c -> TreeNodeContent.try_clone c = Ok c.
Proof.
  destruct c as [|[x k xp ks] ph]; [reflexivity|]. intros [Hx Hk]. cbn in *. unfold HybridNodeKeys.try_clone. cbn.
  now rewrite (clone_handle_ok xp Hx), (clone_handle_ok ks Hk).
Qed.

Lemma clonable_clone s : clonable s -> RatchetTree.try_clone s = Ok s.
Proof.
  intros H. unfold RatchetTree.try_clone. replace (mapR _ _) with (Ok (E := ProtocolError.t) (RatchetTree.nodes s)); [now destruct s|].
  symmetry. induction H as [|c l Hc H IH]; [reflexivity|]. cbn [mapR]. rewrite (node_clone c Hc). cbn [rbind]. now rewrite IH.
Qed.

(** Whatever is cloned, a clone that succeeds is equal to its original. *)
Lemma clone_same s s' : RatchetTree.try_clone s = Ok s' -> s' = s.
Proof.
  intros H. unfold RatchetTree.try_clone in H. apply rbind_Ok in H. destruct H as (nodes & Hn & H). apply Ok_inj in H. subst s'.
  replace nodes with (RatchetTree.nodes s); [now destruct s|]. revert nodes Hn.
  induction (RatchetTree.nodes s) as [|c l IH]; intros nodes Hn; cbn [mapR] in Hn; [now apply Ok_inj in Hn|].
  apply rbind_Ok in Hn. destruct Hn as (c' & Hc & Hn). apply rbind_Ok in Hn. destruct Hn as (l' & Hl & Hn). apply Ok_inj in Hn.
  subst nodes. rewrite (IH l' Hl). f_equal. destruct c as [|[x k xp ks] ph]; cbn in Hc; [now apply Ok_inj in Hc|].
  unfold HybridNodeKeys.try_clone in Hc. cbn in Hc.
  assert (G : forall h h', HybridNodeKeys.clone_handle h = Ok h' -> h' = h).
  { intros [h|] h' Hh; cbn in Hh; [|now apply Ok_inj in Hh]. apply rbind_Ok in Hh. destruct Hh as (h0 & Hh0 & Hh). apply Ok_inj in Hh.
    unfold SecureMemoryHandle.try_clone, crypto_err in Hh0. destruct (SecureMemoryHandle.allocate _); [|discriminate].
    cbn in Hh0. apply Ok_inj in Hh0. subst. now destruct h. }
  apply rbind_Ok in Hc. destruct Hc as (k' & Hk & Hc). apply Ok_inj in Hc. subst c'. apply rbind_Ok in Hk. destruct Hk as (xp' & Hx & Hk).
  apply rbind_Ok in Hk. destruct Hk as (ks' & Hks & Hk). apply Ok_inj in Hk. subst k'. now rewrite (G _ _ Hx), (G _ _ Hks).
Qed.

(** ** Preservation *)

Definition kept {A} (c : TreeM A) : Prop := forall s r s', clonable s -> c s = (r, s') -> clonable s'.

Create HintDb kept.

Lemma kept_bind {A B} (c : TreeM A) (k : A -> TreeM B) : kept c -> (forall a, kept (k a)) -> kept (sbind c k).
Proof.
  intros Hc Hk s r s' W H. apply sbind_cases in H. destruct H as [[e H]|(a & s1 & H & H')]; [exact (Hc _ _ _ W H)|].
  exact (Hk a _ _ _ (Hc _ _ _ W H) H').
Qed.

Lemma kept_lift_bind {A B} (x : PResult A) (k : A -> TreeM B) : (forall a, x = Ok a -> kept (k a)) -> kept (sbind (slift x) k).
Proof. intros Hk s r s' W H. apply lift_cases in H. destruct H as [->|(a & E & H)]; [exact W|exact (Hk a E _ _ _ W H)]. Qed.

Lemma kept_sget {A} (f : RatchetTree -> A) : kept (sget f).
Proof. intros s r s' W H. now apply pair_inj in H as [_ <-]. Qed.

Lemma kept_sgets {A} (f : RatchetTree -> PResult A) : kept (sgets f).
Proof. intros s r s' W H. now apply pair_inj in H as [_ <-]. Qed.

Lemma kept_slift {A} (x : PResult A) : kept (slift x).
Proof. intros s r s' W H. now apply pair_inj in H as [_ <-]. Qed.

Lemma kept_sguard b e : kept (sguard b e).
Proof. apply kept_slift. Qed.

Lemma kept_sret {A} (a : A) : kept (sret a).
Proof. intros s r s' W H. now apply pair_inj in H as [_ <-]. Qed.

Lemma kept_sfail {A} e : kept (sfail (A := A) e).
Proof. intros s r s' W H. now apply pair_inj in H as [_ <-]. Qed.

Lemma kept_smod f : (forall s, clonable s -> clonable (f s)) -> kept (smod f).
Proof. intros Hf s r s' W H. apply pair_inj in H as [_ <-]. auto. Qed.

#[local] Hint Resolve kept_bind kept_sget kept_sgets kept_slift kept_sguard kept_sret kept_sfail : kept.

Lemma clonable_put i c s : node_handles c -> clonable s -> clonable (put_node i c s).
Proof. intros Hc Hs. unfold clonable, put_node. cbn. now apply Forall_update. Qed.

Lemma clonable_at s i k ph : clonable s -> vget (RatchetTree.nodes s) i = Some (Populated k ph) -> node_handles (Populated k ph).
Proof. intros H Hv. eapply Forall_vget; [exact H|exact Hv]. Qed.

Lemma kept_public i x k : kept (set_node_public_keys i x k).
Proof.
  intros s r s' W H. unfold set_node_public_keys, sbind, sget, sguard, slift in H. destruct (i <? _); cbn [ensure] in H;
    [|now apply pair_inj in H as [_ <-]].
  destruct (vget _ i) as [[|keys ph]|] eqn:E; apply pair_inj in H as [_ <-]; apply clonable_put; try exact W; try (now split).
  exact (clonable_at s i keys ph W E).
Qed.

Lemma kept_private i x k : handle_ok x -> handle_ok k -> kept (set_node_private_keys i x k).
Proof.
  intros Hx Hk s r s' W H. unfold set_node_private_keys, sbind, sget in H.
  destruct (vget _ i) as [[|keys ph]|]; apply pair_inj in H as [_ <-]; try exact W. now apply clonable_put.
Qed.

Lemma kept_parent_hash i h : kept (set_node_parent_hash i h).
Proof.
  intros s r s' W H. unfold set_node_parent_hash, sbind, sget in H.
  destruct (vget _ i) as [[|keys ph]|] eqn:E; apply pair_inj in H as [_ <-]; try exact W. apply clonable_put; [|exact W].
  exact (clonable_at s i keys ph W E).
Qed.

Lemma kept_leaf_signature i sg : kept (set_leaf_signature i sg).
Proof.
  intros s r s' W H. unfold set_leaf_signature, sbind, sget in H. destruct (get_leaf_data s i); now apply pair_inj in H as [_ <-].
Qed.

Lemma kept_add_leaf x k d : kept (add_leaf x k d).
Proof.
  unfold add_leaf. apply kept_bind; [apply kept_sget|]. intros s0. apply kept_bind; [apply kept_sguard|]. intros _.
  destruct (position_none 0 _); repeat (apply kept_bind; [first [apply kept_slift|apply kept_smod; intros s W]|intros ?]);
    try apply kept_sret; try (apply clonable_put; [now split|exact W]); try exact W.
  apply Forall_app. split; [exact W|]. apply Forall_forall. intros c Hc. apply repeat_spec in Hc. now subst.
Qed.

Lemma kept_blank_leaf i : kept (blank_leaf i).
Proof.
  unfold blank_leaf. apply kept_bind; [apply kept_sget|]. intros s0. do 2 (apply kept_bind; [apply kept_sguard|intros _]).
  apply kept_bind; [apply kept_slift|]. intros n. apply kept_bind; [apply kept_smod; intros s W; now apply clonable_put|]. intros _.
  apply kept_bind; [apply kept_smod; intros s W; exact W|]. intros _. destruct (1 <? _); [|apply kept_sret].
  apply kept_bind; [apply kept_slift|]. intros path. apply kept_smod. unfold blank_nodes.
  induction path as [|p path IH]; intros s W; [exact W|]. cbn [fold_left]. apply IH. destruct (p <? _); [now apply clonable_put|exact W].
Qed.

#[local] Hint Resolve kept_public kept_parent_hash kept_leaf_signature kept_add_leaf kept_blank_leaf : kept.

Section Commits.
Context {P : Primitives} {L : PrimitiveLaws P} {SG : Signatures} {SL : SignatureLaws SG}.
Context {CC : Prost GroupCommit.t} {CP : Prost GroupSecurityPolicyProto.t} {CE : Prost GroupExternalJoinAuthorization.t}.

Lemma kept_proposals ps : kept (apply_proposals ps).
Proof.
  unfold apply_proposals. apply kept_bind; [|intros _]; induction ps as [|p ps IH]; cbn [apply_removes apply_adds]; auto with kept;
    destruct (GroupProposal.proposal p) as [[]|]; auto with kept; unfold apply_remove, apply_add; auto with kept.
Qed.

Lemma alloc_write_ok n d h : 0 <= n -> SecureMemoryHandle.alloc_write n d = Ok h -> handle_ok h.
Proof.
  intros Hn H. rewrite SecureMemoryHandle.alloc_write_spec in H by exact Hn.
  destruct (Z.eqb_spec n 0), (Z.ltb_spec MAX_BUFFER_SIZE n); try discriminate H. cbn [orb] in H.
  destruct (Z.ltb_spec n (len d)); [discriminate|]. apply Ok_inj in H. subst h. unfold handle_ok. cbn [SecureMemoryHandle.data].
  rewrite len_app, len_repeat. pose proof (len_nonneg d). unfold len in *. lia.
Qed.

Lemma kyber_handle_ok e : handle_ok (SecureMemoryHandle.mk (fst (mlkem_generate e))).
Proof. unfold handle_ok. cbn. rewrite (proj1 (mlkem_generate_len e)). split; [reflexivity|vm_compute; discriminate]. Qed.

Lemma derived_handles s xh xp kh kp : derive_node_keypairs s = Ok (xh, xp, kh, kp) -> handle_ok xh /\ handle_ok kh.
Proof.
  intros H. unfold derive_node_keypairs, crypto_err in H. do 3 (apply rbind_Ok in H; destruct H as (? & ? & H)).
  apply rbind_Ok in H. destruct H as (? & ? & H). apply rbind_Ok in H. destruct H as ([kh' kp'] & Hk & H).
  apply Ok_inj in H. repeat apply pair_inj in H as [H ?]. subst. split.
  - match goal with E : map_err _ (SecureMemoryHandle.alloc_write _ _) = Ok _ |- _ => revert E end.
    destruct (SecureMemoryHandle.alloc_write _ _) as [h0|] eqn:Eh; [|discriminate]. cbn. intros E. apply Ok_inj in E. subst.
    eapply alloc_write_ok; [|exact Eh]. easy.
  - destruct (kyber_generate_keypair_from_seed _) as [[kh1 kp1]|] eqn:E; [|discriminate]. cbn in Hk. apply Ok_inj, pair_inj in Hk as [-> _].
    unfold kyber_generate_keypair_from_seed in E. apply rbind_Ok in E. destruct E as ([] & _ & E).
    destruct (mlkem_generate _) as [dk ek]. apply rbind_Ok in E. destruct E as (h & Eh & E). apply Ok_inj, pair_inj in E as [<- _].
    eapply alloc_write_ok; [|exact Eh]. apply len_nonneg.
Qed.

Lemma kept_install_level my_dp d nd secret m1 m2 : kept (install_level my_dp d nd secret m1 m2).
Proof.
  unfold install_level. apply kept_lift_bind. intros [[[xp xpub] ks] kp] Hk. destruct (derived_handles _ _ _ _ _ Hk) as [H1 H2].
  do 2 (apply kept_bind; [apply kept_sguard|intros _]). apply kept_bind; [apply kept_public|]. intros _.
  destruct (existsb _ _); [now apply kept_private|apply kept_sret].
Qed.

Lemma kept_climb my_dp dp : forall nodes i secret, kept (climb_path my_dp i dp nodes secret).
Proof.
  induction dp as [|d dp IH]; intros [|nd nodes] i secret; try apply kept_sret. cbn [climb_path].
  apply kept_bind; [apply kept_slift|]. intros next. apply kept_bind; [apply kept_install_level|]. auto.
Qed.

Lemma kept_install_public dp : forall nodes, kept (install_public dp nodes).
Proof. induction dp as [|d dp IH]; intros [|nd nodes]; cbn [install_public]; auto with kept. Qed.

Lemma kept_install_hashes dp : forall nodes, kept (install_parent_hashes dp nodes).
Proof. induction dp as [|d dp IH]; intros [|nd nodes]; cbn [install_parent_hashes]; auto with kept. Qed.

Lemma kept_install_own dp : forall nodes, kept (install_own_parent_hashes dp nodes).
Proof.
  induction dp as [|d dp IH]; intros [|nd nodes]; cbn [install_own_parent_hashes]; auto with kept.
  apply kept_bind; [|auto]. destruct (_ =? 0); auto with kept.
Qed.

Lemma kept_install_private privs : Forall (fun p => handle_ok (snd (fst p)) /\ handle_ok (snd p)) privs -> kept (install_private privs).
Proof.
  induction 1 as [|[[i x] k] privs [Hx Hk] H IH]; [apply kept_sret|]. cbn [install_private].
  apply kept_bind; [now apply kept_private|auto].
Qed.

#[local] Hint Resolve kept_install_level kept_climb kept_install_public kept_install_hashes kept_install_own kept_proposals : kept.

(** A chain of steps, each of which is known to keep the property. *)
Ltac keep :=
  repeat match goal with
  | |- kept (sbind _ _) => apply kept_bind; [solve [auto with kept | match goal with |- kept match ?x with _ => _ end => destruct x; auto with kept end]|]
  | |- forall _ : _ * _, _ => intros [? ?]
  | |- forall _, _ => intros ?
  end; auto with kept.

Lemma kept_process_update_path p c m : kept (process_update_path p c m).
Proof. unfold process_update_path. keep. Qed.

Lemma generated_handle e xh xp : generate_x25519_keypair e = Ok (xh, xp) -> handle_ok xh.
Proof.
  intros H. unfold generate_x25519_keypair, crypto_err in H. apply rbind_Ok in H. destruct H as (h & Hh & H). apply Ok_inj, pair_inj in H as [<- _].
  destruct (SecureMemoryHandle.alloc_write _ _) as [h0|] eqn:E; [|discriminate]. cbn in Hh. apply Ok_inj in Hh. subst.
  eapply alloc_write_ok; [|exact E]. easy.
Qed.

Lemma update_nodes_handles tree seal : forall dp cp secrets i nodes privs,
  update_path_nodes tree seal i dp cp secrets = Ok (nodes, privs) ->
  Forall (fun p => handle_ok (snd (fst p)) /\ handle_ok (snd p)) privs.
Proof.
  induction dp as [|d dp IH]; intros [|c cp] [|x secrets] i nodes privs H; cbn [update_path_nodes] in H;
    try (apply Ok_inj, pair_inj in H as [<- <-]; constructor).
  apply rbind_Ok in H. destruct H as ([[[xh xp] kh] kp] & Hk & H).
  apply rbind_Ok in H. destruct H as (res & _ & H). apply rbind_Ok in H. destruct H as (cts & _ & H).
  apply rbind_Ok in H. destruct H as ([nodes' privs'] & Hn & H). apply Ok_inj, pair_inj in H as [<- <-].
  constructor; [exact (derived_handles _ _ _ _ _ Hk)|eauto].
Qed.

Lemma create_update_path_handles t c e p secret privs : create_update_path t c e = Ok (p, secret, privs) ->
  Forall (fun p => handle_ok (snd (fst p)) /\ handle_ok (snd p)) privs.
Proof.
  intros H. unfold create_update_path in H. apply rbind_Ok in H. destruct H as ([xh xp] & Hx & H). apply generated_handle in Hx.
  apply rbind_Ok in H. destruct H as ([kh kp] & Hk & H). unfold crypto_err in Hk.
  destruct (kyber_generate_keypair _ _) as [[kh' kp']|] eqn:Ek; [|discriminate]. cbn [map_err] in Hk. apply Ok_inj, pair_inj in Hk as [-> ->].
  apply kyber_generate_keypair_inv in Ek. destruct Ek as [-> _]. destruct (_ <=? 1).
  - apply rbind_Ok in H. destruct H as (n & _ & H). apply Ok_inj, pair_inj in H as [_ <-]. repeat constructor; apply Hx || apply kyber_handle_ok.
  - do 4 (apply rbind_Ok in H; destruct H as (? & _ & H)). apply rbind_Ok in H. destruct H as ([nodes ps] & Hu & H).
    apply rbind_Ok in H. destruct H as (nodes' & _ & H). apply Ok_inj, pair_inj in H as [_ <-].
    constructor; [split; [exact Hx|apply kyber_handle_ok]|exact (update_nodes_handles _ _ _ _ _ _ _ _ Hu)].
Qed.

Lemma kept_make_update_path c sk e : kept (make_update_path c sk e).
Proof.
  unfold make_update_path. intros s r s' W H. apply read_cases in H. destruct H as [->|([[p secret] privs] & E & H)]; [exact W|].
  apply create_update_path_handles in E. revert s r s' W H.
  match goal with |- forall s r s', clonable s -> ?f s = _ -> _ => change (kept f) end.
  pose proof (kept_install_private privs E) as Hp. keep.
Qed.

(** A commit, made or received, leaves a tree that can be cloned. *)
Lemma kept_create_commit ps c init gid epoch sk psk policy e : kept (create_commit ps c init gid epoch sk psk policy e).
Proof. pose proof (kept_make_update_path c sk e) as Hm. unfold create_commit. keep. Qed.

Lemma kept_process_commit commit m init gid epoch psk policy : kept (process_commit commit m init gid epoch psk policy).
Proof. pose proof kept_process_update_path as Hp. unfold process_commit. keep. Qed.

End Commits.

(** * Signed leaves

    Every leaf of a group's tree carries a signature of its occupant over its
    current keys, so that a new member can check the whole tree it is sent.
    The property holds through the proposals and through the update path of a
    commit; with it the committer's own invariants are restored by a commit
    whether or not another member is there to process it. *)

Section Signed.
Context {P : Primitives} {L : PrimitiveLaws P} {SG : Signatures} {SL : SignatureLaws SG}.
Context {CC : Prost GroupCommit.t} {CP : Prost GroupSecurityPolicyProto.t} {CE : Prost GroupExternalJoinAuthorization.t}.

(** The key package of an occupant with its current leaf keys. *)
Definition package_of (d : LeafData.t) (x k : bytes) : GroupKeyPackage.t :=
  GroupKeyPackage.mk GROUP_PROTOCOL_VERSION (LeafData.identity_ed25519_public d) (LeafData.identity_x25519_public d) x k
    (LeafData.signature d) (LeafData.credential d) None (LeafData.identity_kyber_public d).

Definition signed_at (s : RatchetTree) (i : Z) : Prop := forall d, get_leaf_data s i = Some d ->
  exists x k, get_node_public_keys s (2 * i) = Some (x, k) /\ validate_key_package (package_of d x k) = Ok tt.

Definition signed (s : RatchetTree) : Prop := forall i, 0 <= i -> signed_at s i.

Lemma signed_public s1 s2 : public s1 = public s2 -> signed s1 -> signed s2.
Proof.
  intros Hp H i Hi d Hd. unfold get_leaf_data in Hd. rewrite <- (public_leaves _ _ Hp) in Hd. destruct (H i Hi d Hd) as (x & k & Hk & Hv).
  exists x, k. split; [|exact Hv]. rewrite view_keys, <- (public_view _ _ _ Hp), <- view_keys. exact Hk.
Qed.

Lemma package_valid kp : validate_key_package kp = Ok tt ->
  validate_key_package (package_of (leaf_data_of kp) (GroupKeyPackage.leaf_x25519_public kp) (GroupKeyPackage.leaf_kyber_public kp)) = Ok tt.
Proof.
  intros H. pose proof H as H'. unfold validate_key_package in H'. apply rbind_Ok in H'. destruct H' as ([] & Hv & _).
  apply ensure_Ok, Z.eqb_eq in Hv. destruct kp. cbn in Hv. subst. exact H.
Qed.

Lemma package_identity d x k : validate_key_package (package_of d x k) = Ok tt -> identity_valid d.
Proof.
  unfold validate_key_package, crypto_err. intros H. do 8 (apply rbind_Ok in H; destruct H as ([] & _ & H)).
  apply rbind_Ok in H. destruct H as ([] & Hx & H). apply rbind_Ok in H. destruct H as ([] & Hk & _).
  cbn [GroupKeyPackage.identity_x25519_public GroupKeyPackage.identity_kyber_public package_of] in *.
  split; [exact Hx|]. destruct (kyber_validate_public_key (LeafData.identity_kyber_public d)) as [[]|]; [reflexivity|discriminate].
Qed.

(** ** Proposals *)

Lemma signed_inherits m s s' : tree_wf s -> tree_wf s' -> 0 <= m -> inherits m s s' -> signed_at s m -> signed_at s' m.
Proof.
  intros W W' Hm I H d Hd. pose proof (leaf_range s' m d W' Hm Hd) as Hr.
  pose proof (wf_occupied s' W' m Hr) as Hocc. rewrite Hd in Hocc. unfold is_blank in Hocc.
  destruct (vget (RatchetTree.nodes s') (2 * m)) as [[|k ph]|] eqn:E; try discriminate Hocc.
  destruct (leaf_in_tree _ (wf_bound s' W') m Hr) as [_ T]. pose proof (interval_self _ (wf_bound s' W') _ T) as Hself.
  assert (Hv : vget (RatchetTree.nodes s) (2 * m) = Some (Populated k ph)).
  { apply (in_nodes _ _ _ I); [lia| |exact E]. apply below_spec. lia. }
  rewrite (in_leaf _ _ _ I) in Hd. destruct (H d Hd) as (x & y & Hk & Hval). exists x, y. split; [|exact Hval].
  unfold get_node_public_keys in *. now rewrite Hv in Hk; rewrite E.
Qed.

Lemma blank_leaf_data s i s' m : tree_wf s -> 0 <= i -> 0 <= m -> blank_leaf i s = (Ok tt, s') ->
  get_leaf_data s' m = if i =? m then None else get_leaf_data s m.
Proof.
  intros W Hi Hm Hb. destruct (blank_leaf_run s i W Hi) as [[e E]|(Hl & _ & path & Hpath & E)]; rewrite E in Hb; [discriminate|].
  apply pair_inj in Hb as [_ <-]. unfold get_leaf_data at 1. rewrite (proj1 (blank_nodes_leaves path (vacated i s))).
  change (get_leaf_data (vacated i s) m = if i =? m then None else get_leaf_data s m). unfold vacated.
  rewrite get_leaf_put; [reflexivity|cbn; rewrite (wf_leaves s W); lia|exact Hm].
Qed.

Lemma blank_leaf_signed s i s' : tree_wf s -> 0 <= i -> signed s -> blank_leaf i s = (Ok tt, s') -> signed s'.
Proof.
  intros W Hi H Hb m Hm d Hd. destruct (blank_leaf_wf s i _ s' W Hi Hb) as [W' _].
  pose proof Hd as Hds. rewrite (blank_leaf_data s i s' m W Hi Hm Hb) in Hds. destruct (Z.eqb_spec i m) as [|Hne]; [discriminate|].
  exact (signed_inherits m s s' W W' Hm (blank_leaf_inherits m d s i s' W Hi Hm Hds Hne Hb) (H m Hm) d Hd).
Qed.

(** The new leaf holds the keys and the identity of the key package. *)
Lemma add_leaf_new s kp i s' : tree_wf s -> validate_key_package kp = Ok tt ->
  ~ In (LeafData.identity_ed25519_public (leaf_data_of kp)) (ids_of (RatchetTree.leaves s)) ->
  add_leaf (GroupKeyPackage.leaf_x25519_public kp) (GroupKeyPackage.leaf_kyber_public kp) (leaf_data_of kp) s = (Ok i, s') ->
  get_leaf_data s' i = Some (leaf_data_of kp) /\
  get_node_public_keys s' (2 * i) = Some (GroupKeyPackage.leaf_x25519_public kp, GroupKeyPackage.leaf_kyber_public kp).
Proof.
  intros W Hv Hid Ha. destruct (validate_key_package_sizes kp Hv) as (L1 & L2 & L3).
  destruct (add_leaf_wf s _ _ _ i s' W L2 L3 L1 Hid Ha) as (W' & Hi & Hnone & Hs').
  pose proof (wf_leaves s W). pose proof (wf_nodes s W). pose proof (wf_bound s W). destruct Hs' as [->|[-> ->]].
  - cbn [filled put_leaf put_node RatchetTree.set_leaves RatchetTree.set_nodes RatchetTree.leaf_count] in Hi.
    unfold filled. rewrite get_leaf_put by (cbn [put_node RatchetTree.set_nodes RatchetTree.leaves]; lia). rewrite Z.eqb_refl. split; [reflexivity|].
    unfold get_node_public_keys, put_leaf, put_node. cbn [RatchetTree.set_nodes RatchetTree.set_leaves RatchetTree.nodes]. rewrite vget_vset by lia. now rewrite Z.eqb_refl.
  - rewrite grown_leaf by (auto; lia). rewrite Z.eqb_refl. split; [reflexivity|].
    unfold get_node_public_keys, grown. cbn [RatchetTree.nodes]. rewrite vget_app_r by lia.
    replace (2 * RatchetTree.leaf_count s - len (RatchetTree.nodes s)) with 1 by lia. reflexivity.
Qed.

Lemma add_leaf_signed s kp i s' : tree_wf s -> signed s -> validate_key_package kp = Ok tt ->
  ~ In (LeafData.identity_ed25519_public (leaf_data_of kp)) (ids_of (RatchetTree.leaves s)) ->
  add_leaf (GroupKeyPackage.leaf_x25519_public kp) (GroupKeyPackage.leaf_kyber_public kp) (leaf_data_of kp) s = (Ok i, s') ->
  signed s'.
Proof.
  intros W H Hv Hid Ha m Hm d Hd. destruct (validate_key_package_sizes kp Hv) as (L1 & L2 & L3).
  destruct (add_leaf_wf s _ _ _ i s' W L2 L3 L1 Hid Ha) as (W' & Hi & Hnone & Hs').
  destruct (Z.eq_dec m i) as [->|Hne].
  - pose proof (add_leaf_new s kp i s' W Hv Hid Ha) as Hnew.
    destruct Hnew as [Hl Hk]. assert (d = leaf_data_of kp) by congruence. subst d. do 2 eexists. split; [exact Hk|now apply package_valid].
  - assert (Hds : get_leaf_data s m = Some d).
    { destruct Hs' as [->|[-> ->]].
      - cbn [filled put_leaf put_node RatchetTree.set_leaves RatchetTree.set_nodes RatchetTree.leaf_count] in Hi.
        unfold filled in Hd. rewrite get_leaf_put in Hd by (cbn [put_node RatchetTree.set_nodes RatchetTree.leaves]; rewrite ?(wf_leaves s W); lia).
        destruct (Z.eqb_spec i m); [lia|]. exact Hd.
      - rewrite grown_leaf in Hd by (auto; lia). destruct (Z.eqb_spec m (RatchetTree.leaf_count s)); [lia|exact Hd]. }
    exact (signed_inherits m s s' W W' Hm (add_leaf_inherits m d s _ _ _ _ s' W Hm Hds L2 L3 L1 Hid Ha) (H m Hm) d Hd).
Qed.

Lemma apply_removes_signed ps : forall s s', tree_wf s -> Forall proposal_u32 ps -> signed s ->
  apply_removes ps s = (Ok tt, s') -> signed s'.
Proof.
  induction ps as [|p ps IH]; intros s s' W Hu H Hr; cbn [apply_removes] in Hr; [inv_stm; exact H|].
  inversion_clear Hu as [|? ? Hp Hps]. unfold proposal_u32 in Hp.
  destruct (GroupProposal.proposal p) as [[add|rm|up|ei|psk|re]|]; try (now apply (IH s s')).
  apply sbind_Ok in Hr. destruct Hr as ([] & s1 & Hrm & Hr). destruct (blank_leaf_wf _ _ _ _ W Hp Hrm) as [W1 _].
  apply (IH s1 s'); auto. exact (blank_leaf_signed s _ s1 W Hp H Hrm).
Qed.

Lemma apply_adds_signed ps : forall s r s', tree_wf s -> adds_ok s ps -> signed s -> apply_adds ps s = (Ok r, s') -> signed s'.
Proof.
  induction ps as [|p ps IH]; intros s r s' W Hok H Hr; cbn [apply_adds] in Hr; [inv_stm; exact H|].
  pose proof (adds_ok_tail _ _ _ Hok) as Hrest. pose proof (adds_ok_step s p ps) as Hstep. pose proof (adds_ok_head s p ps) as Hhead.
  pose proof Hok as (Hpk & _). apply Forall_cons_iff in Hpk. destruct Hpk as [Hpk _]. unfold package_ok in Hpk.
  unfold added_package in Hstep, Hhead, Hpk. destruct (GroupProposal.proposal p) as [[add|rm|up|ei|psk|re]|]; try (now apply (IH s r s')).
  unfold apply_add in Hr. inv_stm. destruct (GroupAddProposal.key_package add) as [kp|]; cbn [ok_or] in *; [|discriminate].
  inv_ok. match goal with Ha : add_leaf _ _ _ s = (Ok _, ?s1) |- _ =>
    destruct (Hstep _ _ s1 W Hok eq_refl Ha) as [W1 Hok1]; destruct (Hhead _ Hok eq_refl) as (_ & _ & _ & Hni);
    pose proof (add_leaf_signed s _ _ s1 W H Hpk Hni Ha) as H1 end.
  eapply IH; eauto.
Qed.

Lemma apply_proposals_signed ps c s r s' : tree_wf s -> Forall proposal_u32 ps -> validate_proposals s ps c = Ok tt ->
  signed s -> apply_proposals ps s = (Ok r, s') -> signed s'.
Proof.
  intros W Hu Hv H Hr. apply sbind_Ok in Hr. destruct Hr as ([] & s1 & H1 & H2).
  destruct (apply_removes_wf _ _ _ _ W Hu H1) as [W1 I1]. eapply (apply_adds_signed ps s1); eauto using apply_removes_signed.
  destruct (validate_proposals_ok _ _ _ Hv) as (A & B & C). split; [exact A|]. split; [exact B|].
  intros id Hin Hid. exact (C id Hin (I1 id Hid)).
Qed.

(** ** The update path *)

(** What a committer's update path leaves in its own tree. *)
Lemma committer_step t1 c sk e p secret tc' : tree_wf t1 -> 0 <= c -> 1 < RatchetTree.leaf_count t1 -> entropy_ok e ->
  make_update_path c sk e t1 = (Ok (p, secret), tc') ->
  exists d, get_leaf_data t1 c = Some d /\
    sign_existing_key_package sk (LeafData.identity_ed25519_public d) (LeafData.identity_x25519_public d)
      (LeafData.identity_kyber_public d) (GroupUpdatePath.leaf_x25519_public p) (GroupUpdatePath.leaf_kyber_public p)
      (LeafData.credential d) = Ok (GroupUpdatePath.leaf_signature p) /\ holds tc' c /\
    RatchetTree.leaf_count tc' = RatchetTree.leaf_count t1 /\
    (forall j, 0 <= j -> get_leaf_data tc' j =
       if c =? j then Some (LeafData.set_signature (GroupUpdatePath.leaf_signature p) d) else get_leaf_data t1 j) /\
    (forall j, 0 <= j -> get_leaf_data t1 j <> None -> get_node_public_keys tc' (2 * j) =
       if c =? j then Some (GroupUpdatePath.leaf_x25519_public p, GroupUpdatePath.leaf_kyber_public p)
       else get_node_public_keys t1 (2 * j)).
Proof.
  intros W Hc0 Hn1 He Hmk. assert (Hc' : exists d, get_leaf_data t1 c = Some d).
  { unfold make_update_path in Hmk. inv_stm. destruct (get_leaf_data t1 c) as [d|]; [eauto|discriminate]. }
  destruct Hc' as [dc Hdc]. pose proof (leaf_range _ _ _ W Hc0 Hdc) as Hc.
  set (n := RatchetTree.leaf_count t1) in *. pose proof (wf_bound t1 W) as Hn. fold n in Hn. pose proof (wf_len t1 W) as Hnodes. fold n in Hnodes.
  destruct (leaf_paths n Hn c Hc) as (r & dp & cp & Hr & Hdp & Hcp & Hcl & _).
  assert (Hn2 : 1 < n <= max_leaves) by lia.
  destruct (make_update_path_inv n Hn2 r Hr t1 eq_refl Hnodes c Hc dp cp Hcl Hdp Hcp sk e p secret tc' He Hmk)
    as (p0 & privs & d & sg & t & Hcr & Hd & Hsg & -> & Gt & ->).
  destruct (create_update_path_inv n Hn2 r Hr t1 eq_refl c Hc dp cp Hcl Hdp Hcp e p0 secret privs He Hcr)
    as (Hrows & Hchain & -> & -> & Hlx & Hlk).
  pose proof (rows_len _ _ _ _ _ _ _ Hrows) as Hlen. exists d. destruct He as (He1 & He2 & He3). conjs; auto.
  - apply holds_put_leaf. eapply (committer_holds n Hn2 r Hr t1); eauto. exact (rows_match _ _ _ _ _ _ _ Hrows).
  - exact (ed_count _ _ _ Gt).
  - intros j Hj. rewrite get_leaf_put; [|rewrite (ed_leaves _ _ _ Gt), (wf_leaves t1 W); exact Hc|exact Hj].
    unfold get_leaf_data. now rewrite (ed_leaves _ _ _ Gt).
  - intros j Hj Hocc. rewrite !view_keys. change (view (put_leaf _ _ t) (2 * j)) with (view t (2 * j)).
    assert (Hshow : shows (committer_edit c dp e (GroupUpdatePath.set_leaf_signature sg p0)) (2 * c) dp (GroupUpdatePath.set_leaf_signature sg p0))
      by (eapply committer_edit_shows; eauto).
    rewrite (shows_view _ _ _ _ _ _ (2 * j) Gt Hshow ltac:(lia)). unfold path_edit.
    destruct (Z.eqb_spec (2 * c) (2 * j)), (Z.eqb_spec c j); try lia.
    + subst j. unfold view. destruct (vget_in_range (RatchetTree.nodes t1) (2 * c)) as [c0 ->]; [rewrite (wf_nodes t1 W); lia|].
      destruct c0; reflexivity.
    + rewrite assoc_None by (eapply leaf_off_path; eassumption). now destruct (view t1 (2 * j)).
Qed.

(** An update path does not change the number of leaves. *)
Lemma make_update_path_count c sk e : keeps RatchetTree.leaf_count (make_update_path c sk e).
Proof.
  assert (Hpub : forall i x k, keeps RatchetTree.leaf_count (set_node_public_keys i x k)) by (intros; unfold set_node_public_keys; frame).
  assert (Hpriv : forall i x k, keeps RatchetTree.leaf_count (set_node_private_keys i x k)) by (intros; unfold set_node_private_keys; frame).
  assert (Hhash : forall i h, keeps RatchetTree.leaf_count (set_node_parent_hash i h)) by (intros; unfold set_node_parent_hash; frame).
  assert (Hsig : forall i h, keeps RatchetTree.leaf_count (set_leaf_signature i h)) by (intros; unfold set_leaf_signature; frame).
  assert (H1 : forall dp nodes, keeps RatchetTree.leaf_count (install_public dp nodes))
    by (induction dp as [|d dp IH]; intros [|nd nodes]; cbn [install_public]; auto with frame).
  assert (H2 : forall dp nodes, keeps RatchetTree.leaf_count (install_own_parent_hashes dp nodes)).
  { induction dp as [|d dp IH]; intros [|nd nodes]; cbn [install_own_parent_hashes]; auto with frame.
    apply keeps_bind; [destruct (_ =? 0); auto with frame|auto]. }
  assert (H3 : forall privs, keeps RatchetTree.leaf_count (install_private privs))
    by (induction privs as [|[[i x] k] privs IH]; cbn [install_private]; auto with frame).
  unfold make_update_path. frame.
Qed.

(** The invariants of the committer after its commit. *)
Lemma create_commit_own ps c seed init gid epoch psk policy e t out t' : committer t c seed -> signed t ->
  Forall proposal_u32 ps -> entropy_ok e -> commit_path_sound out -> 1 < RatchetTree.leaf_count t' ->
  create_commit ps c init gid epoch (ed25519_keypair seed) psk policy e t = (Ok out, t') ->
  committer t' c seed /\ signed t' /\ holds t' c.
Proof.
  intros [W Hc (d & Hd & Hid & Hval)] Hs Hu He Hsound Hn Hcreate.
  pose proof (create_commit_wf _ _ _ _ _ _ _ _ _ _ _ _ W Hc Hu Hcreate) as W'.
  destruct (create_commit_inv _ _ _ _ _ _ _ _ _ _ _ _ Hcreate)
    as (t1 & added & p & secret & th & ne & keys0 & keys & mac & store & sg & Hv & Ha & Hmk & Hth & Hne & Hk0 & Hk & Hmac & Hst & Hsg & ->).
  specialize (Hsound p eq_refl). pose proof (apply_proposals_wf _ _ _ _ _ W Hu Hv Ha) as W1.
  pose proof (apply_proposals_stays c d ps c t _ t1 W Hu Hv Hc (committer_stays _ _ _ Hv) Hd Ha) as I.
  pose proof (apply_proposals_signed ps c t _ t1 W Hu Hv Hs Ha) as S1.
  assert (Hd1 : get_leaf_data t1 c = Some d) by (rewrite (in_leaf _ _ _ I); exact Hd).
  assert (Hn1 : 1 < RatchetTree.leaf_count t1) by (rewrite <- (make_update_path_count c (ed25519_keypair seed) e t1), Hmk; exact Hn).
  destruct (committer_step t1 c _ e p secret t' W1 Hc Hn1 He Hmk) as (d' & Hd' & Hsig & Hh & Hcnt & Hleaf & Hkeys).
  assert (d' = d) by congruence. subst d'. conjs; auto.
  - constructor; auto. exists (LeafData.set_signature (GroupUpdatePath.leaf_signature p) d). rewrite Hleaf, Z.eqb_refl by exact Hc. auto.
  - intros j Hj dj Hdj. rewrite Hleaf in Hdj by exact Hj.
    assert (Hocc : get_leaf_data t1 j <> None) by (destruct (Z.eqb_spec c j) as [<-|]; congruence).
    rewrite (Hkeys j Hj Hocc). destruct (Z.eqb_spec c j) as [<-|Hne2].
    + apply Some_inj in Hdj. subst dj. do 2 eexists. split; [reflexivity|].
      exact (leaf_signature_valid d seed p _ Hid (leaf_ok_of t1 c d W1 Hd1) Hval (proj1 Hsound) Hsig eq_refl).
    + exact (S1 j Hj dj Hdj).
Qed.

End Signed.
