(* ===== verification/GroupReplay.v ===== *)
(** * Replay windows of a group ([src/protocol/group/mod.rs], lines 40-134 and 451-518)

    For every sender a 1024-entry sliding bitmap over sixteen 64-bit words, and
    its encoding in the sealed state.  The abstract specification is the list of
    generations received; the bitmap refines it. *)

From Stdlib Require Import ZArith List Bool Lia String.
From S2P Require Import Prelude Constants BTree ReplayWindow.
Import ListNotations.
Open Scope list_scope.
Open Scope Z_scope.

Definition REPLAY_WINDOW_WORDS : Z := 16.
Definition REPLAY_WINDOW_BITS : Z := REPLAY_WINDOW_WORDS * 64.
Definition REPLAY_WINDOW_ENCODED_PREFIX : bytes := [255; 82; 87; 1].

Module SenderReplayWindow.

Record t : Type := mk { high_water : Z; bitmap : list Z; initialized : bool }.

Definition zero_bitmap : list Z := repeat 0 (Z.to_nat REPLAY_WINDOW_WORDS).

Definition default : t := mk 0 zero_bitmap false.

(** [self.bitmap[i]] and [self.bitmap[i] = v]. *)
Abbreviation get := ReplayWindow.get.
Abbreviation set := ReplayWindow.set.

Definition is_duplicate_or_too_old (w : t) (generation : Z) : bool :=
  if negb (initialized w) then false else
  if high_water w <? generation then false else
  let delta := high_water w - generation in
  if REPLAY_WINDOW_BITS <=? delta then true else
  let word := delta / 64 in
  let bit := delta mod 64 in
  negb (Z.land (get (bitmap w) word) (shl 64 1 bit) =? 0).

Definition shift_window (bitmap : list Z) (shift : Z) : list Z :=
  if REPLAY_WINDOW_BITS <=? shift then zero_bitmap else
  let word_shift := shift / 64 in
  let bit_shift := shift mod 64 in
  let bitmap :=
    if 0 <? word_shift then
      let bitmap := fold_left (fun b i => set b i (get b (i - word_shift)))
                      (rev (zrange word_shift REPLAY_WINDOW_WORDS)) bitmap in
      fold_left (fun b i => set b i 0) (zrange 0 (Z.min word_shift REPLAY_WINDOW_WORDS)) bitmap
    else bitmap in
  if 0 <? bit_shift then
    let bitmap := fold_left (fun b i => set b i (Z.lor (shl 64 (get b i) bit_shift)
                                                    (Z.shiftr (get b (i - 1)) (64 - bit_shift))))
                    (rev (zrange 1 REPLAY_WINDOW_WORDS)) bitmap in
    set bitmap 0 (shl 64 (get bitmap 0) bit_shift)
  else bitmap.

Definition mark_seen (w : t) (generation : Z) : t :=
  if negb (initialized w) then mk generation (set zero_bitmap 0 (Z.lor (get zero_bitmap 0) 1)) true else
  if high_water w <? generation then
    let shift := generation - high_water w in
    let b := shift_window (bitmap w) shift in
    mk generation (set b 0 (Z.lor (get b 0) 1)) true
  else
    let delta := high_water w - generation in
    if REPLAY_WINDOW_BITS <=? delta then w else
    let word := delta / 64 in
    let bit := delta mod 64 in
    mk (high_water w) (set (bitmap w) word (Z.lor (get (bitmap w) word) (shl 64 1 bit))) (initialized w).

End SenderReplayWindow.
Abbreviation SenderReplayWindow := SenderReplayWindow.t.
Abbreviation ReplayWindows := (BTreeMap.t Z SenderReplayWindow).

(** ** Encoding *)

Definition encode_window (e : Z * SenderReplayWindow) : list bytes :=
  let '(leaf_index, window) := e in
  if negb (SenderReplayWindow.initialized window) then [] else
  [REPLAY_WINDOW_ENCODED_PREFIX ++ to_le_bytes 4 leaf_index ++ to_le_bytes 4 (SenderReplayWindow.high_water window) ++
   flat_map (to_le_bytes 8) (SenderReplayWindow.bitmap window)].

Definition encode_replay_windows_for_state (replay_windows : ReplayWindows) : list bytes :=
  flat_map encode_window replay_windows.

Definition replay_entry_len : Z := len REPLAY_WINDOW_ENCODED_PREFIX + 8 + REPLAY_WINDOW_WORDS * 8.

(** [entry[off..off + n]]; the length of the entry is checked before. *)
Definition slice (b : bytes) (off n : Z) : bytes := firstn (Z.to_nat n) (skipn (Z.to_nat off) b).

(** Entries of another length or without the prefix are skipped. *)
Definition decode_window (windows : ReplayWindows) (entry : bytes) : ReplayWindows :=
  if negb (len entry =? replay_entry_len) then windows else
  if negb (bytes_eqb (slice entry 0 (len REPLAY_WINDOW_ENCODED_PREFIX)) REPLAY_WINDOW_ENCODED_PREFIX) then windows else
  let off := len REPLAY_WINDOW_ENCODED_PREFIX in
  let leaf_index := from_le_bytes (slice entry off 4) in
  let high_water := from_le_bytes (slice entry (off + 4) 4) in
  let bitmap := map (fun i => from_le_bytes (slice entry (off + 8 + 8 * i) 8)) (zrange 0 REPLAY_WINDOW_WORDS) in
  let initialized := existsb (fun word => negb (word =? 0)) bitmap in
  BTreeMap.insert windows leaf_index (SenderReplayWindow.mk high_water bitmap initialized).

Definition decode_replay_windows_from_state (entries : list bytes) : PResult ReplayWindows :=
  Ok (fold_left decode_window entries BTreeMap.empty).

(** ** Words and bits *)

Module WindowFacts.
Import SenderReplayWindow.

Definition words_ok (b : list Z) : Prop := List.length b = 16%nat /\ Forall (in_range 64) b.

Abbreviation bit := ReplayWindow.bit.

Lemma set_update b i v : set b i v = update b (Z.to_nat i) v.
Proof. unfold ReplayWindow.set. generalize (Z.to_nat i). induction b; intros [|k]; cbn; congruence. Qed.

Lemma set_length b i v : List.length (set b i v) = List.length b.
Proof. rewrite set_update. apply update_length. Qed.

Lemma get_set b i v j : 0 <= i < len b -> 0 <= j -> get (set b i v) j = if i =? j then v else get b j.
Proof.
  intros Hi Hj. rewrite set_update. unfold ReplayWindow.get, len in *. rewrite nth_update by lia.
  destruct (Nat.eqb_spec (Z.to_nat i) (Z.to_nat j)), (Z.eqb_spec i j); reflexivity || lia.
Qed.

Lemma words_set b i v : words_ok b -> in_range 64 v -> words_ok (set b i v).
Proof.
  intros [Hl Hf] Hv. split; [now rewrite set_length|]. rewrite set_update.
  generalize (Z.to_nat i). clear Hl i. induction Hf as [|w b Hw Hf IH]; intros [|k]; cbn [update]; constructor; auto.
Qed.

Lemma words_get b i : words_ok b -> in_range 64 (get b i).
Proof.
  intros [_ Hf]. unfold ReplayWindow.get. destruct (nth_in_or_default (Z.to_nat i) b 0) as [Hin| ->].
  - rewrite Forall_forall in Hf. auto.
  - unfold in_range. lia.
Qed.

(** A loop downwards that combines each word with one at distance [d] below it
    reads the words of the start. *)
Lemma down_loop (F : Z -> Z -> Z -> Z) d lo b k : 0 <= d <= lo -> Z.of_nat k <= len b ->
  let r := fold_left (fun b i => set b i (F i (get b i) (get b (i - d)))) (rev (zrange lo (Z.of_nat k))) b in
  List.length r = List.length b /\
  forall j, 0 <= j -> get r j = if (lo <=? j) && (j <? Z.of_nat k) then F j (get b j) (get b (j - d)) else get b j.
Proof.
  intros Hd. cbv zeta. revert b. induction k as [|k IH]; intros b Hk.
  - rewrite zrange_empty by lia. cbn [rev fold_left]. split; [reflexivity|]. intros j Hj.
    destruct (Z.leb_spec lo j), (Z.ltb_spec j (Z.of_nat 0)); cbn [andb]; reflexivity || lia.
  - destruct (Z.le_gt_cases lo (Z.of_nat k)) as [Hlo|Hlo].
    + replace (Z.of_nat (S k)) with (Z.of_nat k + 1) by lia. rewrite zrange_snoc by exact Hlo.
      rewrite rev_app_distr. cbn [rev app fold_left]. set (v := F _ _ _).
      destruct (IH (set b (Z.of_nat k) v)) as [Hl Hg]; [unfold len in *; rewrite set_length; lia|].
      split; [rewrite Hl; apply set_length|]. intros j Hj. rewrite Hg by exact Hj. rewrite !get_set by lia.
      destruct (Z.leb_spec lo j), (Z.ltb_spec j (Z.of_nat k)), (Z.ltb_spec j (Z.of_nat k + 1)), (Z.eqb_spec (Z.of_nat k) j);
        cbn [andb]; try lia; try reflexivity.
      * rewrite get_set by lia. destruct (Z.eqb_spec (Z.of_nat k) (j - d)); [lia|reflexivity].
      * subst j. reflexivity.
    + rewrite zrange_empty by lia. cbn [rev fold_left]. split; [reflexivity|]. intros j Hj.
      destruct (Z.leb_spec lo j), (Z.ltb_spec j (Z.of_nat (S k))); cbn [andb]; reflexivity || lia.
Qed.

Lemma zero_loop b k : Z.of_nat k <= len b ->
  let r := fold_left (fun b i => set b i 0) (zrange 0 (Z.of_nat k)) b in
  List.length r = List.length b /\ forall j, 0 <= j -> get r j = if j <? Z.of_nat k then 0 else get b j.
Proof.
  cbv zeta. induction k as [|k IH]; intros Hk.
  - rewrite zrange_empty by lia. split; [reflexivity|]. intros j Hj. destruct (Z.ltb_spec j (Z.of_nat 0)); [lia|reflexivity].
  - replace (Z.of_nat (S k)) with (Z.of_nat k + 1) by lia. rewrite zrange_snoc, fold_left_app by lia. cbn [fold_left].
    destruct IH as [Hl Hg]; [lia|]. rewrite set_length. split; [exact Hl|]. intros j Hj.
    rewrite get_set by (unfold len in *; rewrite ?Hl; lia). rewrite Hg by exact Hj.
    destruct (Z.eqb_spec (Z.of_nat k) j), (Z.ltb_spec j (Z.of_nat k)), (Z.ltb_spec j (Z.of_nat k + 1)); reflexivity || lia.
Qed.

Lemma words_of_get r : List.length r = 16%nat -> (forall j, 0 <= j < 16 -> in_range 64 (get r j)) -> words_ok r.
Proof.
  intros Hl Hg. split; [exact Hl|]. apply Forall_forall. intros w Hin. apply In_nth with (d := 0) in Hin.
  destruct Hin as (k & Hk & <-). specialize (Hg (Z.of_nat k) ltac:(lia)). unfold ReplayWindow.get in Hg. now rewrite Nat2Z.id in Hg.
Qed.

Definition shift_words (b : list Z) (word_shift : Z) : list Z :=
  if 0 <? word_shift then
    fold_left (fun b i => set b i 0) (zrange 0 (Z.min word_shift REPLAY_WINDOW_WORDS))
      (fold_left (fun b i => set b i (get b (i - word_shift))) (rev (zrange word_shift REPLAY_WINDOW_WORDS)) b)
  else b.

Definition shift_bits (b : list Z) (bit_shift : Z) : list Z :=
  if 0 <? bit_shift then
    let b' := fold_left (fun b i => set b i (Z.lor (shl 64 (get b i) bit_shift)
                           (Z.shiftr (get b (i - 1)) (64 - bit_shift)))) (rev (zrange 1 REPLAY_WINDOW_WORDS)) b in
    set b' 0 (shl 64 (get b' 0) bit_shift)
  else b.

Lemma shift_words_get b ws : words_ok b -> 0 <= ws < 16 ->
  words_ok (shift_words b ws) /\ forall j, 0 <= j < 16 -> get (shift_words b ws) j = if ws <=? j then get b (j - ws) else 0.
Proof.
  intros Hb Hws. unfold shift_words, REPLAY_WINDOW_WORDS. pose proof Hb as [Hl _]. destruct (Z.ltb_spec 0 ws).
  - destruct (down_loop (fun _ _ y => y) ws ws b 16 ltac:(lia) ltac:(unfold len; lia)) as [L1 G1]. change (Z.of_nat 16) with 16 in *.
    set (b1 := fold_left _ (rev _) b) in *.
    destruct (zero_loop b1 (Z.to_nat ws) ltac:(unfold len; lia)) as [L2 G2]. rewrite Z2Nat.id in L2, G2 by lia.
    rewrite Z.min_l by lia.
    assert (G : forall j, 0 <= j < 16 -> get (fold_left (fun b i => set b i 0) (zrange 0 ws) b1) j = if ws <=? j then get b (j - ws) else 0).
    { intros j Hj. rewrite G2, G1 by lia. destruct (Z.ltb_spec j ws), (Z.leb_spec ws j), (Z.ltb_spec j 16); cbn [andb]; reflexivity || lia. }
    split; [|exact G]. apply words_of_get; [lia|]. intros j Hj. rewrite G by exact Hj.
    destruct (ws <=? j); [now apply words_get|unfold in_range; lia].
  - split; [exact Hb|]. intros j Hj. destruct (Z.leb_spec ws j); [f_equal; lia|lia].
Qed.

Lemma shift_bits_get b bs : words_ok b -> 0 < bs < 64 ->
  words_ok (shift_bits b bs) /\ forall j, 0 <= j < 16 -> get (shift_bits b bs) j =
    Z.lor (shl 64 (get b j) bs) (if 1 <=? j then Z.shiftr (get b (j - 1)) (64 - bs) else 0).
Proof.
  intros Hb Hbs. unfold shift_bits, REPLAY_WINDOW_WORDS. pose proof Hb as [Hl _]. destruct (Z.ltb_spec 0 bs); [|lia].
  destruct (down_loop (fun _ x y => Z.lor (shl 64 x bs) (Z.shiftr y (64 - bs))) 1 1 b 16 ltac:(lia) ltac:(unfold len; lia)) as [L1 G1].
  change (Z.of_nat 16) with 16 in *. cbv zeta. set (b1 := fold_left _ (rev _) b) in *.
  assert (G : forall j, 0 <= j < 16 -> get (set b1 0 (shl 64 (get b1 0) bs)) j =
    Z.lor (shl 64 (get b j) bs) (if 1 <=? j then Z.shiftr (get b (j - 1)) (64 - bs) else 0)).
  { intros j Hj. rewrite get_set by (unfold len; lia). rewrite !G1 by lia.
    destruct (Z.eqb_spec 0 j), (Z.leb_spec 1 j), (Z.ltb_spec j 16); cbn [andb]; try lia; try reflexivity.
    subst j. now rewrite Z.lor_0_r. }
  split; [|exact G]. apply words_of_get; [rewrite set_length; lia|]. intros j Hj. rewrite G by exact Hj.
  apply lor_range; [lia|apply ReplayWindow.shl_range; lia|].
  destruct (1 <=? j); [apply ReplayWindow.shiftr_range; [lia|now apply words_get]|unfold in_range; lia].
Qed.

Lemma bit_shift_words b ws i : words_ok b -> 0 <= ws < 16 -> 0 <= i < 1024 ->
  bit (shift_words b ws) i = (64 * ws <=? i) && bit b (i - 64 * ws).
Proof.
  intros Hb Hws Hi. unfold ReplayWindow.bit. destruct (shift_words_get b ws Hb Hws) as [_ G].
  rewrite G by (split; [apply Z.div_pos; lia|apply Z.div_lt_upper_bound; lia]).
  destruct (Z.leb_spec (64 * ws) i) as [H|H]; cbn [andb].
  - destruct (Z.leb_spec ws (i / 64)) as [H1|H1]; [|pose proof (Z.div_le_lower_bound i 64 ws); lia].
    replace (i - 64 * ws) with (i + (- ws) * 64) by lia. rewrite Z.div_add, Z.mod_add by lia. do 2 f_equal; try lia.
  - destruct (Z.leb_spec ws (i / 64)) as [H1|H1]; [|apply Z.testbit_0_l].
    pose proof (Z.mul_div_le i 64 ltac:(lia)). lia.
Qed.

Lemma bit_shift_bits b bs i : words_ok b -> 0 < bs < 64 -> 0 <= i < 1024 ->
  bit (shift_bits b bs) i = (bs <=? i) && bit b (i - bs).
Proof.
  intros Hb Hbs Hi. unfold ReplayWindow.bit. destruct (shift_bits_get b bs Hb Hbs) as [_ G].
  pose proof (Z.div_mod i 64 ltac:(lia)) as D. pose proof (Z.mod_pos_bound i 64 ltac:(lia)) as M.
  set (j := i / 64) in *. set (q := i mod 64) in *. assert (Hj : 0 <= j < 16) by lia. rewrite G by exact Hj.
  rewrite Z.lor_spec, ReplayWindow.testbit_shl by lia. destruct (Z.ltb_spec q 64); [|lia]. cbn [andb].
  destruct (Z.le_gt_cases bs q) as [Hq|Hq].
  - assert (E1 : (i - bs) / 64 = j) by (symmetry; apply Z.div_unique with (r := q - bs); lia).
    assert (E2 : (i - bs) mod 64 = q - bs) by (symmetry; apply Z.mod_unique with (q := j); lia).
    rewrite E1, E2. destruct (Z.leb_spec bs i); [|lia]. cbn [andb].
    replace (Z.testbit (if 1 <=? j then _ else 0) q) with false; [apply orb_false_r|].
    destruct (1 <=? j); [|now rewrite Z.testbit_0_l]. rewrite Z.shiftr_spec by lia.
    symmetry. apply (testbit_high 64); [now apply words_get|lia].
  - rewrite Z.testbit_neg_r by lia. cbn [orb]. destruct (Z.leb_spec 1 j).
    + assert (E1 : (i - bs) / 64 = j - 1) by (symmetry; apply Z.div_unique with (r := q + 64 - bs); lia).
      assert (E2 : (i - bs) mod 64 = q + 64 - bs) by (symmetry; apply Z.mod_unique with (q := j - 1); lia).
      rewrite E1, E2, Z.shiftr_spec by lia. destruct (Z.leb_spec bs i); [|lia]. cbn [andb]. f_equal. lia.
    + rewrite Z.testbit_0_l. destruct (Z.leb_spec bs i); [lia|reflexivity].
Qed.

Lemma zero_ok : words_ok zero_bitmap.
Proof. split; [reflexivity|]. apply Forall_forall. intros w Hin. apply repeat_spec in Hin. subst. unfold in_range. lia. Qed.

Lemma bit_zero i : bit zero_bitmap i = false.
Proof.
  unfold ReplayWindow.bit, ReplayWindow.get, zero_bitmap. rewrite nth_repeat. apply Z.testbit_0_l.
Qed.

(** Shifting moves bit [i - s] to bit [i]. *)
Lemma shift_window_spec b s : words_ok b -> 0 < s ->
  words_ok (shift_window b s) /\ forall i, 0 <= i < 1024 -> bit (shift_window b s) i = (s <=? i) && bit b (i - s).
Proof.
  intros Hb Hs. unfold shift_window. change REPLAY_WINDOW_BITS with 1024. destruct (Z.leb_spec 1024 s).
  - split; [apply zero_ok|]. intros i Hi. rewrite bit_zero. destruct (Z.leb_spec s i); [lia|reflexivity].
  - change (words_ok (shift_bits (shift_words b (s / 64)) (s mod 64)) /\ forall i, 0 <= i < 1024 ->
      bit (shift_bits (shift_words b (s / 64)) (s mod 64)) i = (s <=? i) && bit b (i - s)).
    pose proof (Z.div_mod s 64 ltac:(lia)) as D. pose proof (Z.mod_pos_bound s 64 ltac:(lia)) as M.
    assert (Hws : 0 <= s / 64 < 16) by (split; [apply Z.div_pos; lia|apply Z.div_lt_upper_bound; lia]).
    destruct (shift_words_get b (s / 64) Hb Hws) as [Hb1 _].
    destruct (Z.eq_dec (s mod 64) 0) as [E|E].
    + rewrite E. change (shift_bits (shift_words b (s / 64)) 0) with (shift_words b (s / 64)). split; [exact Hb1|].
      intros i Hi. rewrite bit_shift_words by assumption. now replace (64 * (s / 64)) with s by lia.
    + split; [apply shift_bits_get; auto; lia|]. intros i Hi. rewrite bit_shift_bits by (auto; lia).
      destruct (Z.leb_spec (s mod 64) i); cbn [andb].
      * rewrite bit_shift_words by (auto; lia).
        destruct (Z.leb_spec (64 * (s / 64)) (i - s mod 64)), (Z.leb_spec s i); cbn [andb]; try lia; try reflexivity. f_equal. lia.
      * destruct (Z.leb_spec s i); [lia|reflexivity].
Qed.

(** ** The abstract specification *)

Definition newest (seen : list Z) : Z := ReplayWindow.top seen.

(** A generation is refused when it was received before or is a window or more
    behind the newest. *)
Definition refused (seen : list Z) (g : Z) : bool :=
  match seen with
  | [] => false
  | _ => (g <=? newest seen) && ((1024 <=? newest seen - g) || ReplayWindow.seen_before seen g)
  end.

Definition refines (w : t) (seen : list Z) : Prop :=
  words_ok (bitmap w) /\ Forall (fun g => 0 <= g) seen /\
  match seen with
  | [] => initialized w = false
  | _ => initialized w = true /\ high_water w = newest seen /\
         forall i, 0 <= i < 1024 -> bit (bitmap w) i = ReplayWindow.seen_before seen (high_water w - i)
  end.

Lemma default_refines : refines default [].
Proof. split; [apply zero_ok|]. auto. Qed.

Lemma duplicate_refines w seen g : refines w seen -> is_duplicate_or_too_old w g = refused seen g.
Proof.
  intros (Hw & _ & H). unfold is_duplicate_or_too_old, refused. destruct seen as [|a seen]; [now rewrite H|].
  destruct H as (Hi & Hh & Hb). rewrite Hi. cbn [negb]. rewrite <- Hh.
  destruct (Z.ltb_spec (high_water w) g), (Z.leb_spec g (high_water w)); try lia; try reflexivity. cbn [andb].
  change REPLAY_WINDOW_BITS with 1024. destruct (Z.leb_spec 1024 (high_water w - g)); [reflexivity|]. cbn [orb].
  rewrite ReplayWindow.land_one_zero, negb_involutive by (apply Z.mod_pos_bound; lia).
  change (bit (bitmap w) (high_water w - g) = ReplayWindow.seen_before (a :: seen) g). rewrite Hb by lia. f_equal. lia.
Qed.

Lemma set_bit_spec b d : words_ok b -> 0 <= d < 1024 ->
  let r := set b (d / 64) (Z.lor (get b (d / 64)) (shl 64 1 (d mod 64))) in
  words_ok r /\ forall i, 0 <= i < 1024 -> bit r i = (i =? d) || bit b i.
Proof.
  intros Hb Hd r. pose proof (Z.div_mod d 64 ltac:(lia)) as D. pose proof (Z.mod_pos_bound d 64 ltac:(lia)) as M.
  assert (Hj : 0 <= d / 64 < 16) by (split; [apply Z.div_pos; lia|apply Z.div_lt_upper_bound; lia]).
  split; [apply words_set; [exact Hb|apply lor_range; [lia|now apply words_get|apply ReplayWindow.shl_range; lia]]|].
  intros i Hi. unfold ReplayWindow.bit, r. pose proof (Z.div_mod i 64 ltac:(lia)) as D'. pose proof (Z.mod_pos_bound i 64 ltac:(lia)) as M'.
  rewrite get_set; [|unfold len; destruct Hb as [-> _]; lia|apply Z.div_pos; lia].
  destruct (Z.eqb_spec (d / 64) (i / 64)) as [E|E].
  - rewrite Z.lor_spec, ReplayWindow.testbit_one by lia. rewrite E, orb_comm. f_equal.
    destruct (Z.eqb_spec (i mod 64) (d mod 64)), (Z.eqb_spec i d); reflexivity || (exfalso; lia) || (subst; lia).
  - destruct (Z.eqb_spec i d) as [->|]; [lia|reflexivity].
Qed.

Lemma newest_cons g a seen : newest (g :: a :: seen) = Z.max g (newest (a :: seen)).
Proof. reflexivity. Qed.

Lemma mark_seen_refines w seen g : refines w seen -> 0 <= g -> refines (mark_seen w g) (g :: seen).
Proof.
  intros (Hw & Hnn & H) Hg. assert (Hnn' : Forall (fun g => 0 <= g) (g :: seen)) by auto. unfold mark_seen.
  destruct seen as [|a seen].
  - rewrite H. cbn [negb]. destruct (set_bit_spec zero_bitmap 0 zero_ok ltac:(lia)) as [Hz Hzb].
    split; [exact Hz|]. split; [exact Hnn'|]. cbn [initialized high_water bitmap].
    split; [reflexivity|]. split; [unfold newest; cbn; lia|]. intros i Hi. etransitivity; [exact (Hzb i Hi)|].
    rewrite bit_zero, orb_false_r. cbn. rewrite orb_false_r. destruct (Z.eqb_spec i 0), (Z.eqb_spec (g - i) g); reflexivity || lia.
  - destruct H as (Hi & Hh & Hb). rewrite Hi. cbn [negb].
    destruct (Z.ltb_spec (high_water w) g) as [Hlt|Hge].
    + destruct (shift_window_spec (bitmap w) (g - high_water w) Hw ltac:(lia)) as [Hs Hsb].
      destruct (set_bit_spec (shift_window (bitmap w) (g - high_water w)) 0 Hs ltac:(lia)) as [Hz Hzb].
      split; [exact Hz|]. split; [exact Hnn'|]. cbn [initialized high_water bitmap]. rewrite newest_cons.
      split; [reflexivity|]. split; [lia|]. intros i Hir. etransitivity; [exact (Hzb i Hir)|]. rewrite Hsb by exact Hir.
      change (ReplayWindow.seen_before (g :: a :: seen) (g - i)) with ((g - i =? g) || ReplayWindow.seen_before (a :: seen) (g - i)).
      destruct (Z.eqb_spec i 0), (Z.eqb_spec (g - i) g); try lia; try reflexivity. cbn [orb].
      destruct (Z.leb_spec (g - high_water w) i); cbn [andb].
      * rewrite Hb by lia. f_equal. lia.
      * symmetry. apply not_true_is_false. intros E. apply ReplayWindow.seen_le_top in E.
        change (g - i <= newest (a :: seen)) in E. lia.
    + change REPLAY_WINDOW_BITS with 1024. destruct (Z.leb_spec 1024 (high_water w - g)).
      * split; [exact Hw|]. split; [exact Hnn'|]. rewrite newest_cons. split; [exact Hi|]. split; [lia|].
        intros i Hir. rewrite Hb by exact Hir.
        change (ReplayWindow.seen_before (g :: a :: seen) (high_water w - i)) with
          ((high_water w - i =? g) || ReplayWindow.seen_before (a :: seen) (high_water w - i)).
        destruct (Z.eqb_spec (high_water w - i) g); [lia|reflexivity].
      * destruct (set_bit_spec (bitmap w) (high_water w - g) Hw ltac:(lia)) as [Hz Hzb].
        split; [exact Hz|]. split; [exact Hnn'|]. cbn [initialized high_water bitmap]. rewrite newest_cons.
        split; [first [exact Hi|reflexivity]|]. split; [lia|]. intros i Hir. etransitivity; [exact (Hzb i Hir)|]. rewrite Hb by exact Hir.
        change (ReplayWindow.seen_before (g :: a :: seen) (high_water w - i)) with
          ((high_water w - i =? g) || ReplayWindow.seen_before (a :: seen) (high_water w - i)).
        f_equal. destruct (Z.eqb_spec i (high_water w - g)), (Z.eqb_spec (high_water w - i) g); reflexivity || lia.
Qed.

(** A generation that was marked is refused. *)
Lemma marked_refused seen g : 0 <= g -> refused (g :: seen) g = true.
Proof.
  intros Hg. unfold refused, newest. apply andb_true_iff. split; [apply Z.leb_le; cbn; lia|].
  apply orb_true_iff. right. cbn. now rewrite Z.eqb_refl.
Qed.

End WindowFacts.

(** ** Encoding and decoding *)

Module WindowCodec.
Import SenderReplayWindow.

(** A window that can be written: its newest generation is marked. *)
Definition storable (e : Z * t) : Prop :=
  0 <= fst e < 2 ^ 32 /\ 0 <= high_water (snd e) < 2 ^ 32 /\ WindowFacts.words_ok (bitmap (snd e)) /\
  (initialized (snd e) = true -> ReplayWindow.bit (bitmap (snd e)) 0 = true).

Lemma top_In seen : seen <> [] -> Forall (fun g => 0 <= g) seen -> In (ReplayWindow.top seen) seen.
Proof.
  intros Hne H. induction H as [|x seen Hx H IH]; [easy|]. destruct seen as [|y seen]; [cbn; left; lia|].
  specialize (IH ltac:(discriminate)). change (ReplayWindow.top (x :: y :: seen)) with (Z.max x (ReplayWindow.top (y :: seen))).
  destruct (Z.max_spec x (ReplayWindow.top (y :: seen))) as [[_ ->]|[_ ->]]; [now right|now left].
Qed.

Lemma refines_storable i w seen : 0 <= i < 2 ^ 32 -> 0 <= high_water w < 2 ^ 32 -> WindowFacts.refines w seen -> storable (i, w).
Proof.
  intros Hi Hh (Hw & Hnn & H). split; [exact Hi|]. split; [exact Hh|]. split; [exact Hw|]. cbn [snd]. intros Hin.
  destruct seen as [|a seen]; [congruence|]. destruct H as (_ & Ht & Hb). rewrite Hb, Z.sub_0_r by lia.
  rewrite Ht. unfold WindowFacts.newest, ReplayWindow.seen_before. apply existsb_exists.
  exists (ReplayWindow.top (a :: seen)). split; [apply top_In; [discriminate|exact Hnn]|apply Z.eqb_refl].
Qed.

Lemma slice_mid u v w : slice (u ++ v ++ w) (len u) (len v) = v.
Proof.
  unfold slice, len. rewrite !Nat2Z.id, skipn_app, skipn_all, Nat.sub_diag. cbn [app skipn].
  rewrite firstn_app, firstn_all, Nat.sub_diag. apply app_nil_r.
Qed.

Lemma slice_at b u v w off n : b = u ++ v ++ w -> off = len u -> n = len v -> slice b off n = v.
Proof. intros -> -> ->. apply slice_mid. Qed.

Lemma words_decode words : Forall (in_range 64) words -> forall pre off k, len pre = off + 8 * k ->
  map (fun i => from_le_bytes (slice (pre ++ flat_map (to_le_bytes 8) words) (off + 8 * i) 8)) (zrange k (k + len words)) = words.
Proof.
  induction 1 as [|x words Hx H IH]; intros pre off k Hp.
  - rewrite len_nil, zrange_empty by lia. reflexivity.
  - rewrite len_cons, zrange_cons by (pose proof (len_nonneg words); lia). cbn [map flat_map]. f_equal.
    + rewrite (slice_at _ pre (to_le_bytes 8 x) (flat_map (to_le_bytes 8) words)); [|reflexivity|lia|reflexivity].
      apply from_to_le_bytes. exact Hx.
    + rewrite <- (IH (pre ++ to_le_bytes 8 x) off (k + 1)) at 2 by (rewrite len_app, len_to_le_bytes; lia).
      replace (k + (1 + len words)) with (k + 1 + len words) by lia. apply map_ext. intros i. now rewrite <- app_assoc.
Qed.

Lemma words_flat words : len (flat_map (to_le_bytes 8) words) = 8 * len words.
Proof. induction words as [|x l IH]; [reflexivity|]. cbn [flat_map]. rewrite len_app, len_to_le_bytes, IH, len_cons. lia. Qed.

Lemma nonzero_words b : ReplayWindow.bit b 0 = true -> existsb (fun word => negb (word =? 0)) b = true.
Proof.
  unfold ReplayWindow.bit, ReplayWindow.get. change (Z.to_nat (0 / 64)) with 0%nat. change (0 mod 64) with 0.
  destruct b as [|w b]; cbn [nth existsb]; [discriminate|]. intros H. destruct (Z.eqb_spec w 0) as [->|]; [discriminate|reflexivity].
Qed.

Lemma decode_encoded e acc : storable e -> initialized (snd e) = true ->
  fold_left decode_window (encode_window e) acc = BTreeMap.insert acc (fst e) (snd e).
Proof.
  destruct e as [i w]. intros (Hi & Hh & [Hl Hf] & Hb) Hin. cbn [fst snd] in *. unfold encode_window. rewrite Hin. cbn [negb fold_left].
  set (entry := REPLAY_WINDOW_ENCODED_PREFIX ++ _). unfold decode_window.
  assert (Hlen : len (bitmap w) = 16) by (unfold len; lia).
  assert (He : len entry = replay_entry_len).
  { unfold entry. rewrite !len_app, !len_to_le_bytes, words_flat, Hlen. reflexivity. }
  rewrite He, Z.eqb_refl. cbn [negb].
  rewrite (slice_at entry [] REPLAY_WINDOW_ENCODED_PREFIX _ 0 _ eq_refl eq_refl eq_refl), bytes_eqb_refl. cbn [negb].
  rewrite (slice_at entry REPLAY_WINDOW_ENCODED_PREFIX (to_le_bytes 4 i) _ (len REPLAY_WINDOW_ENCODED_PREFIX) 4 eq_refl eq_refl eq_refl).
  rewrite (slice_at entry (REPLAY_WINDOW_ENCODED_PREFIX ++ to_le_bytes 4 i) (to_le_bytes 4 (high_water w))
    (flat_map (to_le_bytes 8) (bitmap w)) (len REPLAY_WINDOW_ENCODED_PREFIX + 4) 4); [|now rewrite <- app_assoc|reflexivity|reflexivity].
  rewrite !from_to_le_bytes by (cbn; lia).
  assert (Hw : map (fun j => from_le_bytes (slice entry (len REPLAY_WINDOW_ENCODED_PREFIX + 8 + 8 * j) 8)) (zrange 0 REPLAY_WINDOW_WORDS)
    = bitmap w).
  { etransitivity; [|exact (words_decode (bitmap w) Hf (REPLAY_WINDOW_ENCODED_PREFIX ++ to_le_bytes 4 i ++ to_le_bytes 4 (high_water w))
      (len REPLAY_WINDOW_ENCODED_PREFIX + 8) 0 eq_refl)].
    rewrite Hlen. unfold entry. apply map_ext. intros j. now rewrite <- !app_assoc. }
  rewrite Hw, (nonzero_words _ (Hb Hin)). f_equal. destruct w. cbn in *. now rewrite Hin.
Qed.

Definition active (m : ReplayWindows) : ReplayWindows := filter (fun e => initialized (snd e)) m.

Lemma windows_roundtrip m : BTreeMap.sorted m -> Forall storable m ->
  decode_replay_windows_from_state (encode_replay_windows_for_state m) = Ok (active m).
Proof.
  intros Hs Hf. unfold decode_replay_windows_from_state, encode_replay_windows_for_state. f_equal.
  assert (G : forall acc, BTreeMap.sorted (acc ++ m) -> fold_left decode_window (flat_map encode_window m) acc = acc ++ active m).
  { clear Hs. induction Hf as [|[i w] m Hw Hf IH]; intros acc Hs; cbn [flat_map fold_left active filter]; [now rewrite app_nil_r|].
    rewrite fold_left_app. cbn [snd]. destruct (initialized w) eqn:Ei.
    - rewrite (decode_encoded (i, w) acc Hw Ei). cbn [fst snd]. rewrite (BTreeMap.insert_last acc i w (BTreeMap.sorted_snoc _ _ _ _ Hs)).
      rewrite IH by (now rewrite <- app_assoc). now rewrite <- app_assoc.
    - cbn [encode_window]. rewrite Ei. cbn [negb fold_left]. apply IH.
      clear - Hs. revert Hs. induction acc as [|[k v] acc IH]; cbn [app]; intros Hs; inversion Hs as [|? ? ? Ha Hs']; subst; auto.
      constructor; [|auto]. unfold BTreeMap.above in *. rewrite Forall_app in *. destruct Ha as [A B]. inversion B; subst. auto. }
  exact (G [] Hs).
Qed.

End WindowCodec.
