(* ===== verification/GroupContent.v ===== *)
(** * Content of group messages ([src/protocol/group/mod.rs], lines 310-450 and 520-860)

    Kinds of content, message policies, and the checks of reactions, receipts,
    mentions and reply contexts that sender and receiver both run.  The theorem
    at the end characterises the mentions that are accepted: at most fifty
    non-empty ranges inside the content, no two of which overlap. *)

From Stdlib Require Import ZArith List Bool Lia String Ascii Permutation Sorted.
From S2P Require Import Prelude Constants BTree SecureMemory Crypto Signatures.
From S2P Require Import Proto GroupProto RatchetTree.
Import ListNotations.
Open Scope string_scope.
Open Scope list_scope.
Open Scope Z_scope.

(** ** Kinds of content *)

Module ContentType.

Inductive t : Type :=
| Normal | Sealed | Disappearing | SealedDisappearing | Edit | Delete | Reaction | ReadReceipt | Typing.

Definition unsupported : ProtocolError.t := ProtocolError.invalid_input "Unsupported group content_type {v}".

(** [u32::try_from(v)] refuses the negative values of the wire enum. *)
Definition try_from_wire (v : Z) : PResult t :=
  check? 0 <=? v else unsupported in
  if v =? CONTENT_TYPE_NORMAL then Ok Normal else
  if v =? CONTENT_TYPE_SEALED then Ok Sealed else
  if v =? CONTENT_TYPE_DISAPPEARING then Ok Disappearing else
  if v =? CONTENT_TYPE_SEALED_DISAPPEARING then Ok SealedDisappearing else
  if v =? CONTENT_TYPE_EDIT then Ok Edit else
  if v =? CONTENT_TYPE_DELETE then Ok Delete else
  if v =? CONTENT_TYPE_REACTION then Ok Reaction else
  if v =? CONTENT_TYPE_READ_RECEIPT then Ok ReadReceipt else
  if v =? CONTENT_TYPE_TYPING then Ok Typing else
  Err unsupported.

Definition to_u32 (c : t) : Z :=
  match c with
  | Normal => CONTENT_TYPE_NORMAL
  | Sealed => CONTENT_TYPE_SEALED
  | Disappearing => CONTENT_TYPE_DISAPPEARING
  | SealedDisappearing => CONTENT_TYPE_SEALED_DISAPPEARING
  | Edit => CONTENT_TYPE_EDIT
  | Delete => CONTENT_TYPE_DELETE
  | Reaction => CONTENT_TYPE_REACTION
  | ReadReceipt => CONTENT_TYPE_READ_RECEIPT
  | Typing => CONTENT_TYPE_TYPING
  end.

Definition is_sealed (c : t) : bool := match c with Sealed | SealedDisappearing => true | _ => false end.

Definition is_disappearing (c : t) : bool := match c with Disappearing | SealedDisappearing => true | _ => false end.

Definition is_edit (c : t) : bool := match c with Edit => true | _ => false end.

Definition is_delete (c : t) : bool := match c with Delete => true | _ => false end.

Definition validate_ttl (c : t) (ttl_seconds : Z) : PResult unit :=
  if is_disappearing c then
    check? negb ((ttl_seconds =? 0) || (MAX_TTL_SECONDS <? ttl_seconds))
      else ProtocolError.invalid_input "Disappearing message TTL must be 1..{MAX_TTL_SECONDS}, got {ttl_seconds}" in
    Ok tt
  else
    check? ttl_seconds =? 0
      else ProtocolError.invalid_input "Non-disappearing message TTL must be 0, got {ttl_seconds}" in
    Ok tt.

(** The kind survives the wire. *)
Lemma wire_roundtrip c : try_from_wire (to_u32 c) = Ok c.
Proof. now destruct c. Qed.

Lemma wire_inv v c : try_from_wire v = Ok c -> to_u32 c = v.
Proof.
  unfold try_from_wire. intros H. inv_ok.
  repeat match type of H with (if ?a =? ?b then _ else _) = _ => destruct (Z.eqb_spec a b) as [->|] end; now inversion H.
Qed.

End ContentType.
Abbreviation ContentType := ContentType.t.

(** ** Policies and results *)

Module ReplyContext.

Record t : Type := mk {
  reply_to_message_id : bytes;
  thread_root_id : option bytes;
  depth : option Z }.

Definition to_proto (rc : t) : GroupReplyContext.t :=
  GroupReplyContext.mk (reply_to_message_id rc) (thread_root_id rc) (depth rc).

Definition of_proto (rc : GroupReplyContext.t) : t :=
  mk (GroupReplyContext.reply_to_message_id rc) (GroupReplyContext.thread_root_id rc) (GroupReplyContext.depth rc).

End ReplyContext.

Module MessagePolicy.

Record t : Type := mk {
  content_type : ContentType;
  ttl_seconds : Z;
  frankable : bool;
  referenced_message_id : bytes;
  mentions : list (Z * Z * Z);
  reply_context : option ReplyContext.t }.

Definition default : t := mk ContentType.Normal 0 false [] [] None.

(** [MessagePolicy { content_type, ..MessagePolicy::default() }] *)
Definition of_type (c : ContentType) : t := mk c 0 false [] [] None.

Definition set_frankable (v : bool) (p : t) : t :=
  mk (content_type p) (ttl_seconds p) v (referenced_message_id p) (mentions p) (reply_context p).

Definition proto_mentions (p : t) : list GroupMention.t :=
  map (fun '(leaf_index, offset, length) => GroupMention.mk leaf_index offset length) (mentions p).

Definition proto_reply (p : t) : option GroupReplyContext.t := option_map ReplyContext.to_proto (reply_context p).

End MessagePolicy.
Abbreviation MessagePolicy := MessagePolicy.t.

Module SealedPayload.

Record t : Type := mk {
  hint : bytes;
  encrypted_content : bytes;
  nonce : bytes;
  seal_key : bytes }.

End SealedPayload.

Module FrankingData.

Record t : Type := mk {
  franking_tag : bytes;
  franking_key : bytes;
  content : bytes;
  sealed_content : bytes;
  content_type : Z;
  sealed_nonce : bytes;
  seal_key : bytes }.

End FrankingData.

Module GroupDecryptResult.

Record t : Type := mk {
  plaintext : bytes;
  sender_leaf_index : Z;
  generation : Z;
  content_type : ContentType;
  sealed_payload : option SealedPayload.t;
  franking_data : option FrankingData.t;
  ttl_seconds : Z;
  sent_timestamp : Z;
  prev_message_hash : bytes;
  message_id : bytes;
  referenced_message_id : bytes;
  mentions : list (Z * Z * Z);
  reply_context : option ReplyContext.t }.

(** [sealed_payload.take()] followed by a new plaintext. *)
Definition open_with (plaintext : bytes) (r : t) : t :=
  mk plaintext (sender_leaf_index r) (generation r) (content_type r) None (franking_data r) (ttl_seconds r)
    (sent_timestamp r) (prev_message_hash r) (message_id r) (referenced_message_id r) (mentions r) (reply_context r).

End GroupDecryptResult.

(** ** Checks *)

(** [s.chars().count()]: a scalar value has one byte that is not a continuation. *)
Fixpoint chars_count (s : string) : Z :=
  match s with
  | EmptyString => 0
  | String a s => (if Z.land (Z.of_nat (nat_of_ascii a)) 192 =? 128 then 0 else 1) + chars_count s
  end.

Definition validate_reaction (reaction : GroupReaction.t) : PResult unit :=
  check? len (GroupReaction.message_id reaction) =? MESSAGE_ID_BYTES
    else ProtocolError.invalid_input "Reaction message_id must be 32 bytes" in
  check? negb (String.eqb (GroupReaction.emoji reaction) "")
    else ProtocolError.invalid_input "Reaction emoji must not be empty" in
  check? negb (MAX_REACTION_EMOJI_CHARS <? chars_count (GroupReaction.emoji reaction))
    else ProtocolError.invalid_input "Reaction emoji exceeds {MAX_REACTION_EMOJI_CHARS} chars" in
  Ok tt.

Definition validate_read_receipt (receipt : GroupReadReceipt.t) : PResult unit :=
  check? negb (MAX_READ_RECEIPT_MESSAGE_IDS <? len (GroupReadReceipt.message_ids receipt))
    else ProtocolError.invalid_input "Read receipt exceeds {MAX_READ_RECEIPT_MESSAGE_IDS} message_ids" in
  foldR (fun _ id => ensure (len id =? MESSAGE_ID_BYTES)
                       (ProtocolError.invalid_input "Read receipt message_id must be 32 bytes"))
    (GroupReadReceipt.message_ids receipt) tt.

Definition validate_mentions (mentions : list GroupMention.t) : PResult unit :=
  check? negb (MAX_MENTIONS_PER_MESSAGE <? len mentions)
    else ProtocolError.invalid_input "Mentions exceed {MAX_MENTIONS_PER_MESSAGE} per message" in
  Ok tt.

Definition validate_reply_context (ctx : GroupReplyContext.t) : PResult unit :=
  check? len (GroupReplyContext.reply_to_message_id ctx) =? MESSAGE_ID_BYTES
    else ProtocolError.invalid_input "reply_to_message_id must be 32 bytes" in
  let? _ :=
    match GroupReplyContext.thread_root_id ctx with
    | Some root => ensure (len root =? MESSAGE_ID_BYTES) (ProtocolError.invalid_input "thread_root_id must be 32 bytes")
    | None => Ok tt
    end in
  match GroupReplyContext.depth ctx with
  | Some depth =>
      check? negb (MAX_THREAD_DEPTH <? depth)
        else ProtocolError.invalid_input "Thread depth {depth} exceeds maximum {MAX_THREAD_DEPTH}" in
      check? negb ((0 <? depth) && negb (is_some (GroupReplyContext.thread_root_id ctx)))
        else ProtocolError.invalid_input "thread_root_id is required when thread depth is greater than zero" in
      Ok tt
  | None => Ok tt
  end.

(** [time_provider.now_unix_secs()]: [None] is its error. *)
Definition group_now_unix_secs (clock : option Z) : PResult Z :=
  ok_or clock (ProtocolError.group_protocol "system clock is before UNIX epoch").

(** [a.saturating_add(b)] on [u64] and [u32]. *)
Definition saturating_add (w a b : Z) : Z := Z.min (2 ^ w - 1) (a + b).

Definition validate_external_join_auth_time_window (issued_at_unix expires_at_unix : Z) (clock : option Z) :
    PResult unit :=
  check? negb ((issued_at_unix =? 0) || (expires_at_unix =? 0))
    else ProtocolError.group_protocol "External join authorization timestamps are required" in
  check? negb (expires_at_unix <? issued_at_unix)
    else ProtocolError.group_protocol "External join authorization expiry is before issue time" in
  check? negb (EXTERNAL_JOIN_AUTH_VALIDITY_SECS <? saturating_sub expires_at_unix issued_at_unix)
    else ProtocolError.group_protocol "External join authorization validity window is too large" in
  let? now := group_now_unix_secs clock in
  check? negb (saturating_add 64 now MAX_FUTURE_TIMESTAMP_SKEW_SECS <? issued_at_unix)
    else ProtocolError.group_protocol
           "External join authorization issued_at {issued_at_unix} is too far in the future (now {now})" in
  check? negb (expires_at_unix <? now)
    else ProtocolError.group_protocol "External join authorization expired at {expires_at_unix} (now {now})" in
  Ok tt.

(** The range of one mention, [offset..end]. *)
Definition mention_span (content_len : Z) (mention : GroupMention.t) : PResult (Z * Z) :=
  check? negb (GroupMention.length mention =? 0)
    else ProtocolError.invalid_input "Mention length must be greater than zero" in
  let? e := ok_or (checked_add 32 (GroupMention.offset mention) (GroupMention.length mention))
    (ProtocolError.invalid_input "Mention offset overflow") in
  check? negb (content_len <? e)
    else ProtocolError.invalid_input "Mention range exceeds message content length" in
  Ok (GroupMention.offset mention, e).

(** [spans.sort_unstable()]: pairs in lexicographic order. *)
Fixpoint insert_span (x : Z * Z) (l : list (Z * Z)) : list (Z * Z) :=
  match l with
  | [] => [x]
  | y :: l' => if key_ltb y x then y :: insert_span x l' else x :: l
  end.

Definition sort_spans (l : list (Z * Z)) : list (Z * Z) := fold_right insert_span [] l.

(** [for pair in spans.windows(2)] *)
Fixpoint check_adjacent (spans : list (Z * Z)) : PResult unit :=
  match spans with
  | x :: ((y :: _) as rest) =>
      check? negb (fst y <? snd x) else ProtocolError.invalid_input "Mention ranges must not overlap" in
      check_adjacent rest
  | _ => Ok tt
  end.

Definition validate_mentions_for_content (mentions : list GroupMention.t) (content : bytes) : PResult unit :=
  let? _ := validate_mentions mentions in
  check? len content <=? u32_max else ProtocolError.invalid_input "Message content too large" in
  let? spans := mapR (mention_span (len content)) mentions in
  check_adjacent (sort_spans spans).

Definition validate_annotations_against_tree (tree : RatchetTree) (content : bytes) (mentions : list GroupMention.t)
    (reply_context : option GroupReplyContext.t) : PResult unit :=
  let? _ := validate_mentions_for_content mentions content in
  let? _ := foldR (fun _ m => ensure (is_some (get_leaf_data tree (GroupMention.leaf_index m)))
                      (ProtocolError.invalid_input "Mention leaf_index must reference an active group member"))
              mentions tt in
  match reply_context with Some ctx => validate_reply_context ctx | None => Ok tt end.

(** [HashMap<u32, i32>], in the order in which the map lists its entries. *)
Abbreviation MemberRoles := (list (Z * Z)).

Definition validate_member_role_value (role : Z) : PResult unit :=
  check? (0 <=? role) && (role <=? 2)
    else ProtocolError.invalid_input "member role must be 0 (Member), 1 (Moderator), or 2 (Admin)" in
  Ok tt.

Definition prune_member_roles (active_leaf_indices : list Z) (member_roles : MemberRoles) : MemberRoles :=
  filter (fun '(leaf_index, role) => existsb (Z.eqb leaf_index) active_leaf_indices &&
                                     is_ok (validate_member_role_value role)) member_roles.

Section Secrets.
Context {P : Primitives} {SG : Signatures}.

Definition compute_message_id (group_id : bytes) (epoch sender_leaf generation : Z) : bytes :=
  sha256 (GROUP_MSG_ID_INFO ++ group_id ++ to_le_bytes 8 epoch ++ to_le_bytes 4 sender_leaf ++
          to_le_bytes 4 generation).

Definition ed25519_secret_to_handle (raw : bytes) : PResult SecureMemoryHandle.t :=
  check? len raw =? ED25519_SECRET_KEY_BYTES
    else ProtocolError.invalid_input "Ed25519 secret key must be {ED25519_SECRET_KEY_BYTES} bytes" in
  crypto_err (SecureMemoryHandle.alloc_write ED25519_SECRET_KEY_BYTES raw).

Definition validate_ed25519_secret_matches_public (secret : SecureMemoryHandle.t) (expected_public : bytes) :
    PResult unit :=
  check? len expected_public =? ED25519_PUBLIC_KEY_BYTES
    else ProtocolError.invalid_input "Invalid Ed25519 public key size in sealed group state" in
  let? secret_bytes := crypto_err (SecureMemoryHandle.read_bytes secret ED25519_SECRET_KEY_BYTES) in
  check? len secret_bytes =? ED25519_SECRET_KEY_BYTES
    else ProtocolError.invalid_input "Invalid Ed25519 secret key size" in
  check? ed25519_keypair_ok secret_bytes
    else ProtocolError.key_generation "Invalid Ed25519 keypair bytes" in
  let actual_public := ed25519_public secret_bytes in
  let? matches := crypto_err (constant_time_equals actual_public expected_public) in
  check? matches
    else ProtocolError.invalid_input "Ed25519 identity secret does not match sealed group state" in
  Ok tt.

End Secrets.

(** ** The mentions that are accepted *)

Module Mentions.

(** Two ranges without a common position. *)
Definition apart (x y : Z * Z) : Prop := snd x <= fst y \/ snd y <= fst x.

Definition span (m : GroupMention.t) : Z * Z :=
  (GroupMention.offset m, GroupMention.offset m + GroupMention.length m).

Definition mention_u32 (m : GroupMention.t) : Prop := is_u32 (GroupMention.offset m) /\ is_u32 (GroupMention.length m).

(** A range of the content with at least one position. *)
Definition inside (n : Z) (x : Z * Z) : Prop := fst x < snd x <= n.

Lemma insert_span_perm x l : Permutation (x :: l) (insert_span x l).
Proof.
  induction l as [|y l IH]; cbn [insert_span]; [reflexivity|]. destruct (key_ltb y x); [|reflexivity].
  rewrite perm_swap. now constructor.
Qed.

Lemma sort_spans_perm l : Permutation l (sort_spans l).
Proof. induction l as [|x l IH]; [constructor|]. cbn. rewrite <- insert_span_perm. now constructor. Qed.

(** Ordered by their first positions. *)
Definition ordered : list (Z * Z) -> Prop := Sorted.StronglySorted (fun x y => fst x <= fst y).

Lemma insert_span_ordered x l : ordered l -> ordered (insert_span x l).
Proof.
  induction 1 as [|y l H IH Hy]; cbn [insert_span]; [repeat constructor|].
  destruct (key_ltb y x) eqn:E.
  - constructor; [exact IH|]. rewrite <- insert_span_perm. constructor; [apply pair_key_spec in E; lia|exact Hy].
  - apply not_true_iff_false in E. rewrite pair_key_spec in E.
    constructor; [constructor; assumption|]. constructor; [lia|]. eapply Forall_impl; [|exact Hy]. cbn. lia.
Qed.

Lemma sort_spans_ordered l : ordered (sort_spans l).
Proof. induction l; [constructor|]. now apply insert_span_ordered. Qed.

(** Checking neighbours of an ordered list checks all pairs. *)
Lemma check_adjacent_iff n l : ordered l -> Forall (inside n) l -> check_adjacent l = Ok tt <-> ForallOrdPairs apart l.
Proof.
  intros Ho. induction Ho as [|x l Ho IH Hx]; intros Hf; [split; [constructor|reflexivity]|].
  apply Forall_cons_iff in Hf. destruct Hf as [Hxi Hf]. specialize (IH Hf). destruct l as [|y l].
  { split; [repeat constructor|reflexivity]. }
  cbn [check_adjacent]. destruct (Z.ltb_spec (fst y) (snd x)) as [Hlt|Hge]; cbn [negb ensure rbind].
  - split; [discriminate|]. intros H. inversion H as [|? ? Ha _]; subst. apply Forall_inv in Ha.
    apply Forall_inv in Hf. unfold apart, inside in *. apply Forall_inv in Hx. lia.
  - rewrite IH. split; intros H; [|now inversion H]. constructor; [|exact H].
    apply Forall_cons; [now left|]. inversion Ho as [|? ? Ho' Hy]; subst. eapply Forall_impl; [|exact Hy].
    cbn. intros z Hz. left. lia.
Qed.

Lemma apart_sym x y : apart x y -> apart y x.
Proof. unfold apart. tauto. Qed.

Lemma apart_perm l l' : Permutation l l' -> ForallOrdPairs apart l -> ForallOrdPairs apart l'.
Proof.
  induction 1 as [|x l l' Hp IH|x y l|l1 l2 l3 _ IH1 _ IH2]; intros H; [constructor| | |auto].
  - inversion H as [|? ? Hx Hl]; subst. constructor; [now rewrite <- Hp|auto].
  - inversion H as [|? ? Hy Hl]; subst. inversion Hl as [|? ? Hx Hl']; subst. apply Forall_cons_iff in Hy. destruct Hy as [Hyx Hy].
    constructor; [apply Forall_cons; [now apply apart_sym|exact Hx]|]. now constructor.
Qed.

Lemma mention_span_iff n m s : mention_u32 m -> n <= u32_max ->
  mention_span n m = Ok s <-> s = span m /\ inside n (span m).
Proof.
  intros [Ho Hl] Hn. unfold mention_span, checked_add, span, inside, u32_max in *. cbn [fst snd].
  unfold in_range in *. destruct (Z.eqb_spec (GroupMention.length m) 0); cbn [negb ensure rbind]; [split; [discriminate|lia]|].
  destruct (Z.ltb_spec (GroupMention.offset m + GroupMention.length m) (2 ^ 32)); cbn [ok_or rbind]; [|split; [discriminate|lia]].
  destruct (Z.ltb_spec n (GroupMention.offset m + GroupMention.length m)); cbn [negb ensure rbind]; [split; [discriminate|lia]|].
  split; [intros H1; injection H1 as <-; split; [reflexivity|lia]|now intros [-> _]].
Qed.

Lemma spans_iff n ms ss : Forall mention_u32 ms -> n <= u32_max ->
  mapR (mention_span n) ms = Ok ss <-> ss = map span ms /\ Forall (fun m => inside n (span m)) ms.
Proof.
  intros Hm Hn. revert ss. induction Hm as [|m ms Hm Hms IH]; intros ss; cbn [mapR map].
  - split; [intros H; injection H as <-; now split|now intros [-> _]].
  - split.
    + intros H. inv_ok. apply (mention_span_iff n m _ Hm Hn) in H0. apply IH in H1. destruct H0 as [-> H0], H1 as [-> H1]. auto.
    + intros [-> H]. apply Forall_cons_iff in H. destruct H as [H0 H1].
      rewrite (proj2 (mention_span_iff n m _ Hm Hn) (conj eq_refl H0)). cbn [rbind].
      now rewrite (proj2 (IH _) (conj eq_refl H1)).
Qed.

(** [validate_mentions_for_content] accepts a list of mentions exactly when
    there are at most fifty, every one is a non-empty range inside the content,
    and no two of them overlap, in whatever order they are given. *)
Theorem mentions_accepted_iff mentions content : Forall mention_u32 mentions -> len content <= u32_max ->
  validate_mentions_for_content mentions content = Ok tt <->
  len mentions <= MAX_MENTIONS_PER_MESSAGE /\ Forall (fun m => inside (len content) (span m)) mentions /\
  ForallOrdPairs (fun m m' => apart (span m) (span m')) mentions.
Proof.
  intros Hm Hc. unfold validate_mentions_for_content, validate_mentions.
  destruct (Z.ltb_spec MAX_MENTIONS_PER_MESSAGE (len mentions)); cbn [negb ensure rbind]; [split; [discriminate|lia]|].
  destruct (Z.leb_spec (len content) u32_max); [|lia]. cbn [ensure rbind].
  assert (G : ForallOrdPairs (fun m m' => apart (span m) (span m')) mentions <-> ForallOrdPairs apart (map span mentions)).
  { clear. induction mentions as [|m ms IH]; cbn [map]; [split; constructor|]. split; intros H; inversion H as [|? ? Ha Hr]; subst; constructor.
    - now apply Forall_map.
    - now apply IH.
    - now rewrite Forall_map in Ha.
    - now apply IH. }
  destruct (mapR _ mentions) as [ss|e] eqn:E; cbn [rbind].
  - apply (spans_iff _ _ _ Hm Hc) in E. destruct E as [-> E].
    rewrite (check_adjacent_iff (len content)); [|apply sort_spans_ordered|rewrite <- sort_spans_perm; now apply Forall_map].
    rewrite G. split; intros K; [split; [lia|]; split; [exact E|]|destruct K as (_ & _ & K)];
      eapply apart_perm; try exact K; [symmetry|]; apply sort_spans_perm.
  - split; [discriminate|]. intros (_ & K & _). pose proof (proj2 (spans_iff _ _ _ Hm Hc) (conj eq_refl K)). congruence.
Qed.

Lemma mentions_accepted_iff_witness :
  let ms := [GroupMention.mk 1 4 3; GroupMention.mk 2 0 4] in
  validate_mentions_for_content ms (bstr "@bo @al") = Ok tt /\
  (validate_mentions_for_content (GroupMention.mk 3 3 2 :: ms) (bstr "@bo @al") = Ok tt -> False).
Proof.
  cbv zeta. split.
  - apply mentions_accepted_iff; [repeat constructor; cbn; lia|vm_compute; discriminate|].
    split; [vm_compute; discriminate|]. split; [repeat constructor; vm_compute; easy|].
    constructor; [constructor; [right; vm_compute; discriminate|constructor]|repeat constructor].
  - intros H. apply mentions_accepted_iff in H; [|repeat constructor; cbn; lia|vm_compute; discriminate].
    destruct H as (_ & _ & H). inversion H as [|? ? Ha _]; subst. apply Forall_inv in Ha. destruct Ha as [Ha|Ha]; vm_compute in Ha; auto.
Defined.

End Mentions.
