(* ===== verification/GroupSessions.v ===== *)
(** * Group sessions ([src/protocol/group/mod.rs], lines 262-310 and 870-2030)

    The state of a member and the operations that change it: creating a group,
    joining by welcome or externally, the four kinds of own commits, processing
    a commit of another member, and the getters.  The mutex, which serialises
    the operations, is not part of the state; a session is one
    [GroupSessionInner] and an operation a state and error computation on it, so
    what an early return leaves behind is visible.  Random values and the
    reading of the clock are arguments. *)

From Stdlib Require Import ZArith List Bool Lia String.
From S2P Require Import Prelude Constants BTree SecureMemory Crypto Signatures DhValidator TreeIndex.
From S2P Require Import Proto IdentityModels Identity GroupProto KeySchedule SenderKeys KeyPackage RatchetTree TreeKem.
From S2P Require Import Commit Welcome GroupReplay GroupContent.
Import ListNotations.
Open Scope string_scope.
Open Scope list_scope.
Open Scope Z_scope.

Module ReInitInfo.

Record t : Type := mk {
  new_group_id : bytes;
  new_version : Z }.

End ReInitInfo.

(** The calls of [IGroupEventHandler]. *)
Inductive GroupEvent : Type :=
| on_member_added (leaf_index : Z) (identity_ed25519 : bytes)
| on_member_removed (leaf_index : Z)
| on_epoch_advanced (new_epoch member_count : Z)
| on_sender_key_exhaustion_warning (remaining max_capacity : Z)
| on_reinit_proposed (new_group_id : bytes) (new_version : Z).

(** [struct GroupSessionInner].  [event_handler] says whether a handler is installed;
    [handler_calls] records the calls it received, newest first. *)
Module GroupSessionInner.

Record t : Type := mk {
  group_id : bytes;
  epoch : Z;
  my_leaf_idx : Z;
  tree : RatchetTree;
  epoch_keys : EpochKeys;
  init_secret : bytes;
  sender_store : SenderKeyStore;
  group_context_hash : bytes;
  my_identity_ed25519_public : bytes;
  my_identity_x25519_public : bytes;
  my_ed25519_secret : SecureMemoryHandle.t;
  replay_windows : ReplayWindows;
  external_x25519_public : bytes;
  external_kyber_public : bytes;
  psk_resolver : option PskResolver;
  pending_reinit : option ReInitInfo.t;
  event_handler : bool;
  last_sent_message_hash : bytes;
  security_policy : GroupSecurityPolicy;
  member_roles : MemberRoles;
  handler_calls : list GroupEvent }.

Definition set_group_id (v : bytes) (s : t) : t :=
  mk v (epoch s) (my_leaf_idx s) (tree s) (epoch_keys s) (init_secret s) (sender_store s)
    (group_context_hash s) (my_identity_ed25519_public s) (my_identity_x25519_public s)
    (my_ed25519_secret s) (replay_windows s) (external_x25519_public s) (external_kyber_public s)
    (psk_resolver s) (pending_reinit s) (event_handler s) (last_sent_message_hash s)
    (security_policy s) (member_roles s) (handler_calls s).
Definition set_epoch (v : Z) (s : t) : t :=
  mk (group_id s) v (my_leaf_idx s) (tree s) (epoch_keys s) (init_secret s) (sender_store s)
    (group_context_hash s) (my_identity_ed25519_public s) (my_identity_x25519_public s)
    (my_ed25519_secret s) (replay_windows s) (external_x25519_public s) (external_kyber_public s)
    (psk_resolver s) (pending_reinit s) (event_handler s) (last_sent_message_hash s)
    (security_policy s) (member_roles s) (handler_calls s).
Definition set_my_leaf_idx (v : Z) (s : t) : t :=
  mk (group_id s) (epoch s) v (tree s) (epoch_keys s) (init_secret s) (sender_store s)
    (group_context_hash s) (my_identity_ed25519_public s) (my_identity_x25519_public s)
    (my_ed25519_secret s) (replay_windows s) (external_x25519_public s) (external_kyber_public s)
    (psk_resolver s) (pending_reinit s) (event_handler s) (last_sent_message_hash s)
    (security_policy s) (member_roles s) (handler_calls s).
Definition set_tree (v : RatchetTree) (s : t) : t :=
  mk (group_id s) (epoch s) (my_leaf_idx s) v (epoch_keys s) (init_secret s) (sender_store s)
    (group_context_hash s) (my_identity_ed25519_public s) (my_identity_x25519_public s)
    (my_ed25519_secret s) (replay_windows s) (external_x25519_public s) (external_kyber_public s)
    (psk_resolver s) (pending_reinit s) (event_handler s) (last_sent_message_hash s)
    (security_policy s) (member_roles s) (handler_calls s).
Definition set_epoch_keys (v : EpochKeys) (s : t) : t :=
  mk (group_id s) (epoch s) (my_leaf_idx s) (tree s) v (init_secret s) (sender_store s)
    (group_context_hash s) (my_identity_ed25519_public s) (my_identity_x25519_public s)
    (my_ed25519_secret s) (replay_windows s) (external_x25519_public s) (external_kyber_public s)
    (psk_resolver s) (pending_reinit s) (event_handler s) (last_sent_message_hash s)
    (security_policy s) (member_roles s) (handler_calls s).
Definition set_init_secret (v : bytes) (s : t) : t :=
  mk (group_id s) (epoch s) (my_leaf_idx s) (tree s) (epoch_keys s) v (sender_store s)
    (group_context_hash s) (my_identity_ed25519_public s) (my_identity_x25519_public s)
    (my_ed25519_secret s) (replay_windows s) (external_x25519_public s) (external_kyber_public s)
    (psk_resolver s) (pending_reinit s) (event_handler s) (last_sent_message_hash s)
    (security_policy s) (member_roles s) (handler_calls s).
Definition set_sender_store (v : SenderKeyStore) (s : t) : t :=
  mk (group_id s) (epoch s) (my_leaf_idx s) (tree s) (epoch_keys s) (init_secret s) v
    (group_context_hash s) (my_identity_ed25519_public s) (my_identity_x25519_public s)
    (my_ed25519_secret s) (replay_windows s) (external_x25519_public s) (external_kyber_public s)
    (psk_resolver s) (pending_reinit s) (event_handler s) (last_sent_message_hash s)
    (security_policy s) (member_roles s) (handler_calls s).
Definition set_group_context_hash (v : bytes) (s : t) : t :=
  mk (group_id s) (epoch s) (my_leaf_idx s) (tree s) (epoch_keys s) (init_secret s)
    (sender_store s) v (my_identity_ed25519_public s) (my_identity_x25519_public s)
    (my_ed25519_secret s) (replay_windows s) (external_x25519_public s) (external_kyber_public s)
    (psk_resolver s) (pending_reinit s) (event_handler s) (last_sent_message_hash s)
    (security_policy s) (member_roles s) (handler_calls s).
Definition set_my_identity_ed25519_public (v : bytes) (s : t) : t :=
  mk (group_id s) (epoch s) (my_leaf_idx s) (tree s) (epoch_keys s) (init_secret s)
    (sender_store s) (group_context_hash s) v (my_identity_x25519_public s) (my_ed25519_secret s)
    (replay_windows s) (external_x25519_public s) (external_kyber_public s) (psk_resolver s)
    (pending_reinit s) (event_handler s) (last_sent_message_hash s) (security_policy s)
    (member_roles s) (handler_calls s).
Definition set_my_identity_x25519_public (v : bytes) (s : t) : t :=
  mk (group_id s) (epoch s) (my_leaf_idx s) (tree s) (epoch_keys s) (init_secret s)
    (sender_store s) (group_context_hash s) (my_identity_ed25519_public s) v (my_ed25519_secret s)
    (replay_windows s) (external_x25519_public s) (external_kyber_public s) (psk_resolver s)
    (pending_reinit s) (event_handler s) (last_sent_message_hash s) (security_policy s)
    (member_roles s) (handler_calls s).
Definition set_my_ed25519_secret (v : SecureMemoryHandle.t) (s : t) : t :=
  mk (group_id s) (epoch s) (my_leaf_idx s) (tree s) (epoch_keys s) (init_secret s)
    (sender_store s) (group_context_hash s) (my_identity_ed25519_public s)
    (my_identity_x25519_public s) v (replay_windows s) (external_x25519_public s)
    (external_kyber_public s) (psk_resolver s) (pending_reinit s) (event_handler s)
    (last_sent_message_hash s) (security_policy s) (member_roles s) (handler_calls s).
Definition set_replay_windows (v : ReplayWindows) (s : t) : t :=
  mk (group_id s) (epoch s) (my_leaf_idx s) (tree s) (epoch_keys s) (init_secret s)
    (sender_store s) (group_context_hash s) (my_identity_ed25519_public s)
    (my_identity_x25519_public s) (my_ed25519_secret s) v (external_x25519_public s)
    (external_kyber_public s) (psk_resolver s) (pending_reinit s) (event_handler s)
    (last_sent_message_hash s) (security_policy s) (member_roles s) (handler_calls s).
Definition set_external_x25519_public (v : bytes) (s : t) : t :=
  mk (group_id s) (epoch s) (my_leaf_idx s) (tree s) (epoch_keys s) (init_secret s)
    (sender_store s) (group_context_hash s) (my_identity_ed25519_public s)
    (my_identity_x25519_public s) (my_ed25519_secret s) (replay_windows s) v
    (external_kyber_public s) (psk_resolver s) (pending_reinit s) (event_handler s)
    (last_sent_message_hash s) (security_policy s) (member_roles s) (handler_calls s).
Definition set_external_kyber_public (v : bytes) (s : t) : t :=
  mk (group_id s) (epoch s) (my_leaf_idx s) (tree s) (epoch_keys s) (init_secret s)
    (sender_store s) (group_context_hash s) (my_identity_ed25519_public s)
    (my_identity_x25519_public s) (my_ed25519_secret s) (replay_windows s)
    (external_x25519_public s) v (psk_resolver s) (pending_reinit s) (event_handler s)
    (last_sent_message_hash s) (security_policy s) (member_roles s) (handler_calls s).
Definition set_psk_resolver (v : option PskResolver) (s : t) : t :=
  mk (group_id s) (epoch s) (my_leaf_idx s) (tree s) (epoch_keys s) (init_secret s)
    (sender_store s) (group_context_hash s) (my_identity_ed25519_public s)
    (my_identity_x25519_public s) (my_ed25519_secret s) (replay_windows s)
    (external_x25519_public s) (external_kyber_public s) v (pending_reinit s) (event_handler s)
    (last_sent_message_hash s) (security_policy s) (member_roles s) (handler_calls s).
Definition set_pending_reinit (v : option ReInitInfo.t) (s : t) : t :=
  mk (group_id s) (epoch s) (my_leaf_idx s) (tree s) (epoch_keys s) (init_secret s)
    (sender_store s) (group_context_hash s) (my_identity_ed25519_public s)
    (my_identity_x25519_public s) (my_ed25519_secret s) (replay_windows s)
    (external_x25519_public s) (external_kyber_public s) (psk_resolver s) v (event_handler s)
    (last_sent_message_hash s) (security_policy s) (member_roles s) (handler_calls s).
Definition set_event_handler (v : bool) (s : t) : t :=
  mk (group_id s) (epoch s) (my_leaf_idx s) (tree s) (epoch_keys s) (init_secret s)
    (sender_store s) (group_context_hash s) (my_identity_ed25519_public s)
    (my_identity_x25519_public s) (my_ed25519_secret s) (replay_windows s)
    (external_x25519_public s) (external_kyber_public s) (psk_resolver s) (pending_reinit s) v
    (last_sent_message_hash s) (security_policy s) (member_roles s) (handler_calls s).
Definition set_last_sent_message_hash (v : bytes) (s : t) : t :=
  mk (group_id s) (epoch s) (my_leaf_idx s) (tree s) (epoch_keys s) (init_secret s)
    (sender_store s) (group_context_hash s) (my_identity_ed25519_public s)
    (my_identity_x25519_public s) (my_ed25519_secret s) (replay_windows s)
    (external_x25519_public s) (external_kyber_public s) (psk_resolver s) (pending_reinit s)
    (event_handler s) v (security_policy s) (member_roles s) (handler_calls s).
Definition set_security_policy (v : GroupSecurityPolicy) (s : t) : t :=
  mk (group_id s) (epoch s) (my_leaf_idx s) (tree s) (epoch_keys s) (init_secret s)
    (sender_store s) (group_context_hash s) (my_identity_ed25519_public s)
    (my_identity_x25519_public s) (my_ed25519_secret s) (replay_windows s)
    (external_x25519_public s) (external_kyber_public s) (psk_resolver s) (pending_reinit s)
    (event_handler s) (last_sent_message_hash s) v (member_roles s) (handler_calls s).
Definition set_member_roles (v : MemberRoles) (s : t) : t :=
  mk (group_id s) (epoch s) (my_leaf_idx s) (tree s) (epoch_keys s) (init_secret s)
    (sender_store s) (group_context_hash s) (my_identity_ed25519_public s)
    (my_identity_x25519_public s) (my_ed25519_secret s) (replay_windows s)
    (external_x25519_public s) (external_kyber_public s) (psk_resolver s) (pending_reinit s)
    (event_handler s) (last_sent_message_hash s) (security_policy s) v (handler_calls s).
Definition set_handler_calls (v : list GroupEvent) (s : t) : t :=
  mk (group_id s) (epoch s) (my_leaf_idx s) (tree s) (epoch_keys s) (init_secret s)
    (sender_store s) (group_context_hash s) (my_identity_ed25519_public s)
    (my_identity_x25519_public s) (my_ed25519_secret s) (replay_windows s)
    (external_x25519_public s) (external_kyber_public s) (psk_resolver s) (pending_reinit s)
    (event_handler s) (last_sent_message_hash s) (security_policy s) (member_roles s) v.

End GroupSessionInner.

Abbreviation GroupSessionInner := GroupSessionInner.t.
Abbreviation GM := (Stm ProtocolError.t GroupSessionInner).

(** [if let Some(handler) = &inner.event_handler { handler.call() }] *)
Definition notify_group (ev : GroupEvent) (inner : GroupSessionInner) : GroupSessionInner :=
  if GroupSessionInner.event_handler inner
  then GroupSessionInner.set_handler_calls (ev :: GroupSessionInner.handler_calls inner) inner else inner.

(** An operation on [&mut inner.tree] and one on [&mut inner.sender_store]. *)
Definition on_tree {A} (c : TreeM A) : GM A := fun inner =>
  let '(r, t) := c (GroupSessionInner.tree inner) in (r, GroupSessionInner.set_tree t inner).

Definition on_store {A} (c : Stm ProtocolError.t SenderKeyStore A) : GM A := fun inner =>
  let '(r, st) := c (GroupSessionInner.sender_store inner) in (r, GroupSessionInner.set_sender_store st inner).

Definition ensure_no_pending_reinit (inner : GroupSessionInner) (operation : string) : PResult unit :=
  check? negb (is_some (GroupSessionInner.pending_reinit inner))
    else ProtocolError.group_protocol
           (operation ++ " blocked: group has a pending reinit and is now read-only")%string in
  Ok tt.

Definition zero_message_hash : bytes := repeat 0 (Z.to_nat SHA256_HASH_BYTES).

(** The randomness of a new group and of a welcome. *)
Record GroupEntropy : Type := mkGroupEntropy { ge_leaf : LeafEntropy; ge_group_id : bytes; ge_commit_secret : bytes }.
Record WelcomeEntropy : Type := mkWelcomeEntropy { we_nonce : bytes; we_seal : SealEntropy }.
Record JoinEntropy : Type := mkJoinEntropy {
  je_ephemeral : bytes;
  je_kyber : bytes;
  je_leaf : LeafEntropy;
  je_path : PathEntropy }.

Module GroupSession.
Section Session.
Context {P : Primitives} {SG : Signatures}.
Context {CC : Prost GroupCommit.t} {CP : Prost GroupSecurityPolicyProto.t} {CE : Prost GroupExternalJoinAuthorization.t}.
Context {CI : Prost GroupInfo.t} {CH : Prost GroupHybridCiphertext.t} {CW : Prost GroupWelcome.t}.
Context {CS : Prost GroupPublicState.t} {CK : Prost GroupKeyPackage.t}.

(** ** Signatures *)

Definition ed25519_sign_group_message (secret_key message : bytes) : PResult bytes :=
  check? len secret_key =? ED25519_SECRET_KEY_BYTES
    else ProtocolError.invalid_input "Invalid Ed25519 secret key size" in
  check? ed25519_keypair_ok secret_key
    else ProtocolError.key_generation "Invalid Ed25519 keypair bytes" in
  Ok (ed25519_sign secret_key message).

Definition ed25519_verify_group_message_with_context (public_key signature message : bytes) (context : string) :
    PResult unit :=
  check? len public_key =? ED25519_PUBLIC_KEY_BYTES
    else ProtocolError.invalid_input "Invalid Ed25519 public key size" in
  check? len signature =? ED25519_SIGNATURE_BYTES
    else ProtocolError.invalid_input "Invalid Ed25519 signature size" in
  check? ed25519_public_ok public_key
    else ProtocolError.peer_pub_key "Invalid sender Ed25519 public key" in
  check? ed25519_verify_strict public_key message signature
    else ProtocolError.group_protocol context in
  Ok tt.

Definition ed25519_verify_group_message (public_key signature message : bytes) : PResult unit :=
  ed25519_verify_group_message_with_context public_key signature message "Group sender signature verification failed".

(** ** Creating and joining *)

(** A session at the start of an epoch. *)
Definition fresh_session (group_id : bytes) (epoch my_leaf_idx : Z) (tree : RatchetTree) (epoch_keys : EpochKeys)
    (sender_store : SenderKeyStore) (group_context_hash ed25519_public x25519_public : bytes)
    (ed25519_secret : SecureMemoryHandle.t) (ext_x25519_pub ext_kyber_pub : bytes) (policy : GroupSecurityPolicy) :
    GroupSessionInner :=
  GroupSessionInner.mk group_id epoch my_leaf_idx tree epoch_keys (EpochKeys.init_secret epoch_keys) sender_store
    group_context_hash ed25519_public x25519_public ed25519_secret BTreeMap.empty ext_x25519_pub ext_kyber_pub
    None None false zero_message_hash policy [] [].

Definition create_with_policy_and_time_provider (identity : IdentityKeysInner) (credential : bytes)
    (policy : GroupSecurityPolicy) (e : GroupEntropy) : PResult GroupSessionInner :=
  let? _ := GroupSecurityPolicy.validate policy in
  let? (kp, x25519_priv, kyber_sec) := create_key_package identity credential (ge_leaf e) in
  let? ed25519_secret_raw := get_identity_ed25519_private_key_copy identity in
  let? ed25519_secret := ed25519_secret_to_handle ed25519_secret_raw in
  let group_id := ge_group_id e in
  let? tree := new_single (GroupKeyPackage.leaf_x25519_public kp) (GroupKeyPackage.leaf_kyber_public kp)
    x25519_priv kyber_sec (GroupKeyPackage.identity_ed25519_public kp) (GroupKeyPackage.identity_x25519_public kp)
    (GroupKeyPackage.identity_kyber_public kp) credential (GroupKeyPackage.signature kp) in
  let? tree_hash := tree_hash tree in
  let policy_bytes := GroupSecurityPolicy.policy_bytes policy in
  let zero_init_secret := repeat 0 (Z.to_nat INIT_SECRET_BYTES) in
  let group_context_hash := compute_group_context_hash group_id 0 tree_hash policy_bytes in
  let? epoch_keys := derive_epoch_keys zero_init_secret (ge_commit_secret e) group_context_hash
    (GroupSecurityPolicy.enhanced_key_schedule policy) in
  let? sender_store := sender_store_of tree epoch_keys group_context_hash policy in
  let? (_, ext_x25519_pub, _, ext_kyber_pub) := derive_external_keypairs (EpochKeys.init_secret epoch_keys) in
  Ok (fresh_session group_id 0 0 tree epoch_keys sender_store group_context_hash
        (GroupKeyPackage.identity_ed25519_public kp) (GroupKeyPackage.identity_x25519_public kp) ed25519_secret
        ext_x25519_pub ext_kyber_pub policy).

Definition create_with_policy (identity : IdentityKeysInner) (credential : bytes) (policy : GroupSecurityPolicy)
    (e : GroupEntropy) : PResult GroupSessionInner := create_with_policy_and_time_provider identity credential policy e.

Definition create (identity : IdentityKeysInner) (credential : bytes) (e : GroupEntropy) : PResult GroupSessionInner :=
  create_with_policy_and_time_provider identity credential GroupSecurityPolicy.standard e.

Definition from_welcome_with_time_provider (welcome_bytes : bytes) (x25519_private kyber_secret : SecureMemoryHandle.t)
    (identity_ed25519 identity_x25519 ed25519_secret_raw : bytes) : PResult GroupSessionInner :=
  check? negb (MAX_GROUP_MESSAGE_SIZE <? len welcome_bytes) else ProtocolError.invalid_input "Welcome too large" in
  let? ed25519_secret := ed25519_secret_to_handle ed25519_secret_raw in
  let? welcome_msg := ok_or (decode welcome_bytes) (ProtocolError.decode "Welcome decode: {e}") in
  let? result := process_welcome welcome_msg x25519_private kyber_secret identity_ed25519 identity_x25519 in
  let? security_policy := GroupSecurityPolicy.from_proto_bytes (wr_security_policy_bytes result) in
  let? _ := GroupSecurityPolicy.validate security_policy in
  let? (_, ext_x25519_pub, _, ext_kyber_pub) :=
    derive_external_keypairs (EpochKeys.init_secret (wr_epoch_keys result)) in
  Ok (fresh_session (wr_group_id result) (wr_epoch result) (wr_my_leaf_idx result) (wr_tree result)
        (wr_epoch_keys result) (wr_sender_store result) (wr_group_context_hash result) identity_ed25519 identity_x25519
        ed25519_secret ext_x25519_pub ext_kyber_pub security_policy).

Definition from_welcome (welcome_bytes : bytes) (x25519_private kyber_secret : SecureMemoryHandle.t)
    (identity_ed25519 identity_x25519 ed25519_secret_raw : bytes) : PResult GroupSessionInner :=
  from_welcome_with_time_provider welcome_bytes x25519_private kyber_secret identity_ed25519 identity_x25519
    ed25519_secret_raw.

Definition from_welcome_with_min_epoch (welcome_bytes : bytes) (x25519_private kyber_secret : SecureMemoryHandle.t)
    (identity_ed25519 identity_x25519 ed25519_secret_raw : bytes) (min_epoch : Z) : PResult GroupSessionInner :=
  check? negb (MAX_GROUP_MESSAGE_SIZE <? len welcome_bytes) else ProtocolError.invalid_input "Welcome too large" in
  let? welcome_msg := ok_or (decode welcome_bytes) (ProtocolError.decode "Welcome decode: {e}") in
  check? negb (GroupWelcome.epoch welcome_msg <? min_epoch)
    else ProtocolError.group_protocol "Stale Welcome rejected: epoch {} < min_epoch {}" in
  from_welcome_with_time_provider welcome_bytes x25519_private kyber_secret identity_ed25519 identity_x25519
    ed25519_secret_raw.

(** ** Own commits *)

(** The keys of the next epoch, and the replay windows cleared. *)
Definition enter_epoch (epoch : Z) (epoch_keys : EpochKeys) (sender_store : SenderKeyStore)
    (group_context_hash : bytes) (inner : GroupSessionInner) : GroupSessionInner :=
  let inner := GroupSessionInner.set_init_secret (EpochKeys.init_secret epoch_keys) inner in
  let inner := GroupSessionInner.set_epoch epoch inner in
  let inner := GroupSessionInner.set_epoch_keys epoch_keys inner in
  let inner := GroupSessionInner.set_sender_store sender_store inner in
  let inner := GroupSessionInner.set_group_context_hash group_context_hash inner in
  GroupSessionInner.set_replay_windows BTreeMap.empty inner.

Definition enter_own (out : CommitOutput) : GroupSessionInner -> GroupSessionInner :=
  enter_epoch (GroupCommit.epoch (co_commit out)) (co_epoch_keys out) (co_new_sender_store out)
    (co_group_context_hash out).

Definition prune_roles (inner : GroupSessionInner) : GroupSessionInner :=
  GroupSessionInner.set_member_roles
    (prune_member_roles (populated_leaf_indices (GroupSessionInner.tree inner)) (GroupSessionInner.member_roles inner))
    inner.

Definition refresh_external : GM unit :=
  do (_, ext_x25519_pub, _, ext_kyber_pub) <-
    sgets (fun inner => derive_external_keypairs (GroupSessionInner.init_secret inner));
  do! smod (GroupSessionInner.set_external_x25519_public ext_x25519_pub);
  smod (GroupSessionInner.set_external_kyber_public ext_kyber_pub).

(** [inner.my_ed25519_secret.read_bytes(..)] *)
Definition read_signing_key : GM bytes :=
  sgets (fun inner => crypto_err (SecureMemoryHandle.read_bytes (GroupSessionInner.my_ed25519_secret inner)
                                    ED25519_SECRET_KEY_BYTES)).

(** [commit::create_commit] on the tree of the session, in place. *)
Definition commit_own (proposals : list GroupProposal.t) (ed25519_sk : bytes) (e : PathEntropy) : GM CommitOutput :=
  do inner <- sget (fun inner => inner);
  on_tree (create_commit proposals (GroupSessionInner.my_leaf_idx inner) (GroupSessionInner.init_secret inner)
             (GroupSessionInner.group_id inner) (GroupSessionInner.epoch inner) ed25519_sk
             (GroupSessionInner.psk_resolver inner) (GroupSessionInner.security_policy inner) e).

Definition add_member (key_package : GroupKeyPackage.t) (e : PathEntropy) (w : WelcomeEntropy) : GM (bytes * bytes) :=
  do! slift (validate_key_package key_package);
  do! sgets (fun inner => ensure_no_pending_reinit inner "add_member");
  let add_proposal := GroupProposal.mk (Some (GroupProposal.Add (GroupAddProposal.mk (Some key_package)))) in
  do ed25519_sk <- read_signing_key;
  do commit_output <- commit_own [add_proposal] ed25519_sk e;
  do new_leaf_idx <- slift (ok_or (hd_error (co_added_leaf_indices commit_output))
    (ProtocolError.group_protocol "No leaf added"));
  do welcome <- sgets (fun inner =>
    create_welcome (GroupSessionInner.tree inner) new_leaf_idx (co_joiner_secret commit_output)
      (GroupSessionInner.group_id inner) (GroupCommit.epoch (co_commit commit_output))
      (GroupCommit.confirmation_mac (co_commit commit_output)) (co_group_context_hash commit_output)
      (GroupSecurityPolicy.policy_bytes (GroupSessionInner.security_policy inner))
      (GroupSessionInner.my_leaf_idx inner) ed25519_sk (we_nonce w) (we_seal w));
  do! smod (enter_own commit_output);
  do! smod prune_roles;
  do! refresh_external;
  sret (encode (co_commit commit_output), encode welcome).

Definition remove_member (removed_leaf_idx : Z) (e : PathEntropy) : GM bytes :=
  do! sgets (fun inner => ensure_no_pending_reinit inner "remove_member");
  let remove_proposal := GroupProposal.mk (Some (GroupProposal.Remove (GroupRemoveProposal.mk removed_leaf_idx))) in
  do ed25519_sk <- read_signing_key;
  do commit_output <- commit_own [remove_proposal] ed25519_sk e;
  do! smod (enter_own commit_output);
  do! smod prune_roles;
  do! refresh_external;
  sret (encode (co_commit commit_output)).

Definition update (e : PathEntropy) : GM bytes :=
  do! sgets (fun inner => ensure_no_pending_reinit inner "update");
  do ed25519_sk <- read_signing_key;
  do commit_output <- commit_own [] ed25519_sk e;
  do! smod (enter_own commit_output);
  do! refresh_external;
  sret (encode (co_commit commit_output)).

Definition is_reinit (p : GroupProposal.t) : option GroupReInitProposal.t :=
  match GroupProposal.proposal p with Some (GroupProposal.ReInit r) => Some r | _ => None end.

(** [proposals.iter().find_map(..)] *)
Fixpoint find_reinit (proposals : list GroupProposal.t) : option GroupReInitProposal.t :=
  match proposals with
  | [] => None
  | p :: rest => match is_reinit p with Some r => Some r | None => find_reinit rest end
  end.

Definition create_reinit_commit (new_group_id : bytes) (new_version : Z) (e : PathEntropy) : GM bytes :=
  do! sguard (len new_group_id =? GROUP_ID_BYTES)
        (ProtocolError.invalid_input "create_reinit_commit: new_group_id must be {} bytes, got {}");
  do! sgets (fun inner => ensure_no_pending_reinit inner "create_reinit_commit");
  do ed25519_sk <- read_signing_key;
  let reinit_proposal := GroupProposal.mk (Some (GroupProposal.ReInit (GroupReInitProposal.mk new_group_id new_version))) in
  do commit_output <- commit_own [reinit_proposal] ed25519_sk e;
  do! smod (enter_own commit_output);
  do reinit <- slift (ok_or (find_reinit (GroupCommit.proposals (co_commit commit_output)))
    (ProtocolError.group_protocol "ReInit proposal missing"));
  do! smod (GroupSessionInner.set_pending_reinit
              (Some (ReInitInfo.mk (GroupReInitProposal.new_group_id reinit) new_version)));
  do! refresh_external;
  sret (encode (co_commit commit_output)).

(** ** Commits of other members *)

(** [inner.pending_reinit] after the loop over the proposals: the last [ReInit]. *)
Definition reinit_of (proposals : list GroupProposal.t) (acc : option ReInitInfo.t) : option ReInitInfo.t :=
  fold_left (fun acc p => match is_reinit p with
                          | Some r => Some (ReInitInfo.mk (GroupReInitProposal.new_group_id r) (GroupReInitProposal.new_version r))
                          | None => acc
                          end) proposals acc.

(** The leaf of the first member with this identity key; 0 without one. *)
Definition leaf_of_identity (tree : RatchetTree) (identity_ed25519 : bytes) : Z :=
  match find (fun idx => match get_leaf_data tree idx with
                         | Some ld => bytes_eqb (LeafData.identity_ed25519_public ld) identity_ed25519
                         | None => false
                         end) (populated_leaf_indices tree) with
  | Some idx => idx
  | None => 0
  end.

Definition notify_proposal (inner : GroupSessionInner) (p : GroupProposal.t) : GroupSessionInner :=
  match GroupProposal.proposal p with
  | Some (GroupProposal.Add add) =>
      match GroupAddProposal.key_package add with
      | Some kp =>
          let id := GroupKeyPackage.identity_ed25519_public kp in
          notify_group (on_member_added (leaf_of_identity (GroupSessionInner.tree inner) id) id) inner
      | None => inner
      end
  | Some (GroupProposal.Remove remove) =>
      notify_group (on_member_removed (GroupRemoveProposal.removed_leaf_index remove)) inner
  | _ => inner
  end.

Definition notify_commit (commit_msg : GroupCommit.t) (inner : GroupSessionInner) : GroupSessionInner :=
  let inner := fold_left notify_proposal (GroupCommit.proposals commit_msg) inner in
  let inner := notify_group (on_epoch_advanced (GroupSessionInner.epoch inner)
                               (member_count (GroupSessionInner.tree inner))) inner in
  match reinit_of (GroupCommit.proposals commit_msg) None with
  | Some r => notify_group (on_reinit_proposed (ReInitInfo.new_group_id r) (ReInitInfo.new_version r)) inner
  | None => inner
  end.

(** The commit runs on a clone of the tree, which replaces the tree when the
    commit is accepted. *)
Definition process_commit (commit_bytes : bytes) : GM unit :=
  do! sguard (negb (MAX_GROUP_MESSAGE_SIZE <? len commit_bytes))
        (ProtocolError.invalid_input "Commit message too large: {} bytes (max {})");
  do commit_msg <- slift (ok_or (decode commit_bytes) (ProtocolError.decode "Commit decode: {e}"));
  do! sgets (fun inner => ensure_no_pending_reinit inner "process_commit");
  do tree_candidate <- sgets (fun inner => RatchetTree.try_clone (GroupSessionInner.tree inner));
  do (processed, tree) <- sgets (fun inner =>
    let '(r, tree) := Commit.process_commit commit_msg (GroupSessionInner.my_leaf_idx inner)
      (GroupSessionInner.init_secret inner) (GroupSessionInner.group_id inner) (GroupSessionInner.epoch inner)
      (GroupSessionInner.psk_resolver inner) (GroupSessionInner.security_policy inner) tree_candidate in
    let? processed := r in Ok (processed, tree));
  do! smod (GroupSessionInner.set_tree tree);
  do! smod (fun inner => GroupSessionInner.set_pending_reinit
              (reinit_of (GroupCommit.proposals commit_msg) (GroupSessionInner.pending_reinit inner)) inner);
  do! smod (enter_epoch (GroupCommit.epoch commit_msg) (pc_epoch_keys processed) (pc_new_sender_store processed)
              (pc_group_context_hash processed));
  do! smod (GroupSessionInner.set_last_sent_message_hash zero_message_hash);
  do! smod prune_roles;
  do! refresh_external;
  smod (notify_commit commit_msg).

(** ** External joins *)

Definition export_public_state (inner : GroupSessionInner) : PResult bytes :=
  let? confirmation_mac := compute_confirmation_mac
    (EpochKeys.confirmation_key (GroupSessionInner.epoch_keys inner)) (GroupSessionInner.group_context_hash inner) in
  Ok (encode (GroupPublicState.mk GROUP_PROTOCOL_VERSION (GroupSessionInner.group_id inner)
    (GroupSessionInner.epoch inner) (export_public (GroupSessionInner.tree inner))
    (GroupSessionInner.group_context_hash inner) confirmation_mac (GroupSessionInner.external_x25519_public inner)
    (GroupSessionInner.external_kyber_public inner)
    (GroupSecurityPolicy.policy_bytes (GroupSessionInner.security_policy inner)))).

Definition authorize_external_join (joiner_identity_ed25519_public joiner_identity_x25519_public
    joiner_credential : bytes) (clock : option Z) (inner : GroupSessionInner) : PResult bytes :=
  check? len joiner_identity_ed25519_public =? ED25519_PUBLIC_KEY_BYTES
    else ProtocolError.invalid_input "authorize_external_join: invalid joiner Ed25519 public key size" in
  check? len joiner_identity_x25519_public =? X25519_PUBLIC_KEY_BYTES
    else ProtocolError.invalid_input "authorize_external_join: invalid joiner X25519 public key size" in
  check? negb (MAX_CREDENTIAL_SIZE <? len joiner_credential)
    else ProtocolError.invalid_input "authorize_external_join: credential too large (max {MAX_CREDENTIAL_SIZE})" in
  let? _ := ensure_no_pending_reinit inner "authorize_external_join" in
  check? negb (GroupSecurityPolicy.block_external_join (GroupSessionInner.security_policy inner))
    else ProtocolError.group_protocol "External join blocked by group security policy" in
  let? issued_at_unix := group_now_unix_secs clock in
  let auth := GroupExternalJoinAuthorization.mk (GroupSessionInner.group_id inner) (GroupSessionInner.epoch inner)
    joiner_identity_ed25519_public joiner_identity_x25519_public joiner_credential
    (GroupSessionInner.my_leaf_idx inner) [] (GroupSessionInner.group_context_hash inner)
    (GroupSessionInner.external_x25519_public inner) (GroupSessionInner.external_kyber_public inner)
    issued_at_unix (saturating_add 64 issued_at_unix EXTERNAL_JOIN_AUTH_VALIDITY_SECS)
    GROUP_EXTERNAL_JOIN_AUTH_FORMAT_VERSION in
  let auth_bytes := encode auth in
  let? ed25519_sk := crypto_err (SecureMemoryHandle.read_bytes (GroupSessionInner.my_ed25519_secret inner)
    ED25519_SECRET_KEY_BYTES) in
  let? signature := ed25519_sign_group_message ed25519_sk auth_bytes in
  Ok (encode (GroupExternalJoinAuthorization.set_authorizer_signature signature auth)).

Definition validate_external_join_authorization_for_public_state (tree : RatchetTree)
    (public_state : GroupPublicState.t) (authorization_bytes joiner_identity_ed25519_public
    joiner_identity_x25519_public joiner_credential : bytes) (clock : option Z) : PResult unit :=
  let? auth := ok_or (decode authorization_bytes) (ProtocolError.decode "External join auth decode: {e}") in
  let? _ := validate_external_join_auth_format_version (GroupExternalJoinAuthorization.auth_format_version auth) in
  check? bytes_eqb (GroupExternalJoinAuthorization.group_id auth) (GroupPublicState.group_id public_state)
    else ProtocolError.group_protocol "External join authorization group_id mismatch" in
  check? GroupExternalJoinAuthorization.epoch auth =? GroupPublicState.epoch public_state
    else ProtocolError.group_protocol "External join authorization epoch mismatch: expected {}, got {}" in
  check? bytes_eqb (GroupExternalJoinAuthorization.joiner_identity_ed25519_public auth) joiner_identity_ed25519_public &&
         bytes_eqb (GroupExternalJoinAuthorization.joiner_identity_x25519_public auth) joiner_identity_x25519_public &&
         bytes_eqb (GroupExternalJoinAuthorization.joiner_credential auth) joiner_credential
    else ProtocolError.group_protocol "External join authorization does not match joiner identity" in
  check? bytes_eqb (GroupExternalJoinAuthorization.group_context_hash auth)
           (GroupPublicState.group_context_hash public_state)
    else ProtocolError.group_protocol "External join authorization group_context_hash mismatch" in
  check? bytes_eqb (GroupExternalJoinAuthorization.external_x25519_public auth)
           (GroupPublicState.external_x25519_public public_state) &&
         bytes_eqb (GroupExternalJoinAuthorization.external_kyber_public auth)
           (GroupPublicState.external_kyber_public public_state)
    else ProtocolError.group_protocol "External join authorization external init key mismatch" in
  let? _ := validate_external_join_auth_time_window (GroupExternalJoinAuthorization.issued_at_unix auth)
              (GroupExternalJoinAuthorization.expires_at_unix auth) clock in
  let? authorizer_leaf :=
    ok_or (get_leaf_data tree (GroupExternalJoinAuthorization.authorizer_leaf_index auth))
      (ProtocolError.group_protocol "External join authorizer leaf is blank") in
  let auth_bytes := encode (GroupExternalJoinAuthorization.set_authorizer_signature [] auth) in
  ed25519_verify_group_message_with_context (LeafData.identity_ed25519_public authorizer_leaf)
    (GroupExternalJoinAuthorization.authorizer_signature auth) auth_bytes
    "External join authorization signature verification failed".

(** The checks of the public state before any key is used; the tree it describes. *)
Definition check_public_state (public_state_bytes authorization_bytes : bytes) (identity : IdentityKeysInner)
    (credential : bytes) (clock : option Z) : PResult (GroupPublicState.t * GroupSecurityPolicy * RatchetTree) :=
  check? negb (MAX_GROUP_MESSAGE_SIZE <? len public_state_bytes)
    else ProtocolError.invalid_input "Public state too large" in
  let? public_state := ok_or (decode public_state_bytes) (ProtocolError.decode "GroupPublicState decode: {e}") in
  check? GroupPublicState.version public_state =? GROUP_PROTOCOL_VERSION
    else ProtocolError.group_protocol "External join: unsupported public state version {}" in
  let? security_policy := GroupSecurityPolicy.from_proto_bytes (GroupPublicState.security_policy public_state) in
  let? _ := GroupSecurityPolicy.validate security_policy in
  check? negb (GroupSecurityPolicy.block_external_join security_policy)
    else ProtocolError.group_protocol "External join blocked by group security policy" in
  check? negb (len authorization_bytes =? 0)
    else ProtocolError.group_protocol "External join authorization is required" in
  check? negb (MAX_GROUP_MESSAGE_SIZE <? len authorization_bytes)
    else ProtocolError.invalid_input "External join authorization too large" in
  let? tree := from_public_proto (GroupPublicState.tree_nodes public_state) in
  let? tree_hash := tree_hash tree in
  let expected_ctx_hash := compute_group_context_hash (GroupPublicState.group_id public_state)
    (GroupPublicState.epoch public_state) tree_hash (GroupPublicState.security_policy public_state) in
  let? ctx_ok := crypto_err (constant_time_equals expected_ctx_hash (GroupPublicState.group_context_hash public_state)) in
  check? ctx_ok else ProtocolError.group_protocol "External join: group_context_hash mismatch" in
  let? _ := validate_external_join_authorization_for_public_state tree public_state authorization_bytes
    (IdentityKeysInner.identity_ed25519_public identity) (IdentityKeysInner.identity_x25519_public identity)
    credential clock in
  let? _ := DhValidator.validate_x25519_public_key (GroupPublicState.external_x25519_public public_state) in
  let? _ := crypto_err (kyber_validate_public_key (GroupPublicState.external_kyber_public public_state)) in
  Ok (public_state, security_policy, tree).

(** The secret the joiner shares with the group through its external keys: the
    ephemeral key and the ciphertext of the proposal, and the init secret. *)
Definition external_init (public_state : GroupPublicState.t) (e : JoinEntropy) : PResult (bytes * bytes * bytes) :=
  let? (eph_x25519_priv, eph_x25519_pub) := generate_x25519_keypair (je_ephemeral e) in
  let? sk := crypto_err (SecureMemoryHandle.read_bytes eph_x25519_priv X25519_PRIVATE_KEY_BYTES) in
  check? len sk =? X25519_PRIVATE_KEY_BYTES else ProtocolError.group_protocol "Invalid X25519 private key size" in
  check? len (GroupPublicState.external_x25519_public public_state) =? X25519_PUBLIC_KEY_BYTES
    else ProtocolError.group_protocol "Invalid external X25519 public key size" in
  let dh_shared := x25519_dh sk (GroupPublicState.external_x25519_public public_state) in
  check? negb (is_all_zero dh_shared)
    else ProtocolError.group_protocol
           "External join X25519 DH produced all-zero output (RFC 7748 section 6.1)" in
  let? (kyber_ct, kyber_ss_handle) :=
    crypto_err (kyber_encapsulate (GroupPublicState.external_kyber_public public_state) (je_kyber e)) in
  let? kyber_ss := crypto_err (SecureMemoryHandle.read_bytes kyber_ss_handle KYBER_SHARED_SECRET_BYTES) in
  let kem_output := extract dh_shared kyber_ss in
  let? init_secret_proxy := expand kem_output GROUP_EXTERNAL_INIT_SECRET_INFO INIT_SECRET_BYTES in
  Ok (eph_x25519_pub, kyber_ct, init_secret_proxy).

Definition from_external_join_with_time_provider (public_state_bytes authorization_bytes : bytes)
    (identity : IdentityKeysInner) (credential : bytes) (clock : option Z) (e : JoinEntropy) :
    PResult (GroupSessionInner * bytes) :=
  let? (public_state, security_policy, tree) :=
    check_public_state public_state_bytes authorization_bytes identity credential clock in
  let? (eph_x25519_pub, kyber_ct, init_secret_proxy) := external_init public_state e in
  let? (kp, _, _) := create_key_package identity credential (je_leaf e) in
  let my_leaf_idx := next_leaf_index tree in
  let external_init_proposal := GroupProposal.mk (Some (GroupProposal.ExternalInit
    (GroupExternalInitProposal.mk eph_x25519_pub kyber_ct authorization_bytes))) in
  let add_proposal := GroupProposal.mk (Some (GroupProposal.Add (GroupAddProposal.mk (Some kp)))) in
  let? ed25519_sk := get_identity_ed25519_private_key_copy identity in
  let '(r, tree) := create_commit [external_init_proposal; add_proposal] my_leaf_idx init_secret_proxy
    (GroupPublicState.group_id public_state) (GroupPublicState.epoch public_state) ed25519_sk None security_policy
    (je_path e) tree in
  let? commit_output := r in
  let? ed25519_secret_raw := get_identity_ed25519_private_key_copy identity in
  let? ed25519_secret := ed25519_secret_to_handle ed25519_secret_raw in
  let? (_, ext_x25519_pub, _, ext_kyber_pub) :=
    derive_external_keypairs (EpochKeys.init_secret (co_epoch_keys commit_output)) in
  Ok (fresh_session (GroupPublicState.group_id public_state) (GroupCommit.epoch (co_commit commit_output)) my_leaf_idx
        tree (co_epoch_keys commit_output) (co_new_sender_store commit_output) (co_group_context_hash commit_output)
        (GroupKeyPackage.identity_ed25519_public kp) (GroupKeyPackage.identity_x25519_public kp) ed25519_secret
        ext_x25519_pub ext_kyber_pub security_policy,
      encode (co_commit commit_output)).

(** ** Rotation *)

Definition compute_rotation_threshold (max_messages percent : Z) : PResult Z :=
  check? negb ((percent =? 0) || (100 <? percent))
    else ProtocolError.invalid_input "Rotation threshold percent must be in 1..=100" in
  let threshold_u64 := div_ceil (max_messages * percent) 100 in
  check? threshold_u64 <=? u32_max else ProtocolError.invalid_state "Rotation threshold overflow" in
  Ok threshold_u64.

Definition own_generation (inner : GroupSessionInner) : PResult Z :=
  let? chain := ok_or (get_chain (GroupSessionInner.sender_store inner) (GroupSessionInner.my_leaf_idx inner))
    (ProtocolError.invalid_state "Missing local sender key chain") in
  Ok (SenderKeyChain.generation chain).

Definition epoch_messages_remaining (inner : GroupSessionInner) : PResult Z :=
  let policy_max := GroupSecurityPolicy.effective_max_messages_per_epoch (GroupSessionInner.security_policy inner) in
  let? generation := own_generation inner in
  Ok (saturating_sub policy_max generation).

Definition should_rotate_epoch_with_threshold (percent : Z) (inner : GroupSessionInner) : PResult bool :=
  let policy_max := GroupSecurityPolicy.effective_max_messages_per_epoch (GroupSessionInner.security_policy inner) in
  let? threshold := compute_rotation_threshold policy_max percent in
  let? generation := own_generation inner in
  let remaining := saturating_sub policy_max generation in
  Ok (remaining <=? threshold).

Definition should_rotate_epoch (inner : GroupSessionInner) : PResult bool :=
  should_rotate_epoch_with_threshold SENDER_KEY_EXHAUSTION_WARNING_PERCENT inner.

Definition rotate_epoch_if_needed (e : PathEntropy) : GM (option bytes) :=
  do rotate <- sgets should_rotate_epoch;
  if negb rotate then sret None else
  do commit <- update e;
  sret (Some commit).

(** ** Getters and setters *)

Definition set_psk_resolver (resolver : PskResolver) : GM unit :=
  smod (GroupSessionInner.set_psk_resolver (Some resolver)).

Definition set_event_handler : GM unit := smod (GroupSessionInner.set_event_handler true).

Definition roles_disabled : ProtocolError.t :=
  ProtocolError.invalid_state "member role APIs are disabled because roles are not protocol-authoritative".

Definition set_member_role (leaf_index role : Z) : GM unit := sfail roles_disabled.

Definition get_member_role (leaf_index : Z) (inner : GroupSessionInner) : PResult Z := Err roles_disabled.

Definition is_admin (leaf_index : Z) (inner : GroupSessionInner) : PResult bool := Err roles_disabled.

Definition member_count (inner : GroupSessionInner) : Z := RatchetTree.member_count (GroupSessionInner.tree inner).

Definition member_leaf_indices (inner : GroupSessionInner) : list Z :=
  populated_leaf_indices (GroupSessionInner.tree inner).

Definition member_key_package (leaf_index : Z) (inner : GroupSessionInner) : PResult bytes :=
  let? node_index := checked_leaf_to_node leaf_index in
  let? key_package := ok_or (leaf_key_package (GroupSessionInner.tree inner) node_index)
    (ProtocolError.group_membership "Member leaf is not active") in
  Ok (encode key_package).

Definition is_shielded (inner : GroupSessionInner) : bool :=
  GroupSecurityPolicy.is_shielded (GroupSessionInner.security_policy inner).

End Session.
End GroupSession.
