(* ===== verification/GroupMessages.v ===== *)
(** * Application messages of a group ([src/protocol/group/mod.rs], lines 2030-2990)

    The plaintext of a message with its optional seal and franking tag, the
    associated data and signature inputs, and sending and receiving.  Operations
    are computations on [GroupSessionInner], so an error leaves what was done
    before it: the sender key a failed decryption used up is gone. *)

From Stdlib Require Import ZArith List Bool Lia String.
From S2P Require Import Prelude Constants BTree SecureMemory Crypto Signatures Padding.
From S2P Require Import Proto GroupProto KeySchedule SenderKeys KeyPackage RatchetTree TreeKem.
From S2P Require Import Commit Welcome GroupReplay GroupContent GroupSessions.
Import ListNotations.
Open Scope string_scope.
Open Scope list_scope.
Open Scope Z_scope.

(** The random values one encryption may draw. *)
Record MessageEntropy : Type := mkMessageEntropy {
  me_sealed_nonce : bytes;
  me_franking_key : bytes;
  me_payload_nonce : bytes;
  me_reuse_guard : bytes;
  me_sender_nonce : bytes }.

Module GroupMessaging.
Section Messages.
Context {P : Primitives} {SG : Signatures}.
Context {CC : Prost GroupCommit.t} {CP : Prost GroupSecurityPolicyProto.t} {CE : Prost GroupExternalJoinAuthorization.t}.
Context {CT : Prost GroupPlaintext.t} {CD : Prost GroupSenderData.t} {CM : Prost GroupMessage.t}.
Context {CR : Prost GroupReaction.t} {CV : Prost GroupReadReceipt.t} {CY : Prost GroupTypingIndicator.t}.

(** ** Bytes under tags, signatures and the AEAD *)

Definition wrong_group_id : ProtocolError.t :=
  ProtocolError.invalid_input "group_id length must be exactly {GROUP_ID_BYTES} bytes, got {}".

Definition build_sender_aad (group_id : bytes) (epoch : Z) : PResult bytes :=
  check? len group_id =? GROUP_ID_BYTES else wrong_group_id in
  Ok (group_id ++ to_le_bytes 8 epoch).

Definition build_payload_aad (group_id : bytes) (epoch leaf_idx generation : Z) : PResult bytes :=
  check? len group_id =? GROUP_ID_BYTES else wrong_group_id in
  Ok (group_id ++ to_le_bytes 8 epoch ++ to_le_bytes 4 leaf_idx ++ to_le_bytes 4 generation ++
      to_le_bytes 4 GROUP_PROTOCOL_VERSION).

Definition build_franking_input (content_type : Z) (content sealed_content sealed_nonce seal_key : bytes) : bytes :=
  GROUP_FRANKING_TAG_INFO ++ to_le_bytes 4 GROUP_PROTOCOL_VERSION ++ to_le_bytes 4 content_type ++
  len_prefixed content ++ len_prefixed sealed_content ++ len_prefixed sealed_nonce ++ len_prefixed seal_key.

Definition build_app_signature_input (group_id : bytes) (epoch : Z) (app_msg : GroupApplicationMessage.t) : bytes :=
  GROUP_MESSAGE_SIGNATURE_INFO ++ to_le_bytes 4 GROUP_PROTOCOL_VERSION ++ to_le_bytes 8 epoch ++
  len_prefixed group_id ++ len_prefixed (GroupApplicationMessage.encrypted_sender_data app_msg) ++
  len_prefixed (GroupApplicationMessage.sender_data_nonce app_msg) ++
  len_prefixed (GroupApplicationMessage.encrypted_payload app_msg) ++
  len_prefixed (GroupApplicationMessage.payload_nonce app_msg) ++
  len_prefixed (GroupApplicationMessage.franking_tag app_msg).

(** ** Plaintexts *)

Definition expand_seal_key (message_key : bytes) : PResult bytes :=
  expand message_key GROUP_SEAL_KEY_INFO SEAL_KEY_BYTES.

Definition build_group_plaintext (content : bytes) (policy : MessagePolicy) (message_key : bytes)
    (actual_plaintext : option bytes) (clock : option Z) (e : MessageEntropy) : PResult (GroupPlaintext.t * bytes) :=
  let? now := group_now_unix_secs clock in
  let ct := MessagePolicy.content_type policy in
  let proto_policy := GroupMessagePolicy.mk (ContentType.to_u32 ct) (MessagePolicy.ttl_seconds policy) now in
  let? (seal_key, sealed_content, sealed_nonce) :=
    if ContentType.is_sealed ct then
      let? real_pt := ok_or actual_plaintext
        (ProtocolError.invalid_input "Sealed message requires actual_plaintext") in
      let? seal_key := expand_seal_key message_key in
      let? sealed_ct := aes_encrypt seal_key (me_sealed_nonce e) real_pt SEALED_AAD_SUFFIX in
      Ok (seal_key, sealed_ct, me_sealed_nonce e)
    else Ok ([], [], []) in
  let '(franking_key, franking_tag) :=
    if MessagePolicy.frankable policy then
      (me_franking_key e,
       hmac_sha256 (me_franking_key e)
         (build_franking_input (ContentType.to_u32 ct) content sealed_content sealed_nonce seal_key))
    else ([], []) in
  Ok (GroupPlaintext.mk content (Some proto_policy) franking_key sealed_content sealed_nonce []
        (MessagePolicy.referenced_message_id policy) (MessagePolicy.proto_mentions policy)
        (MessagePolicy.proto_reply policy), franking_tag).

Definition validate_sealed_payload_fields (content_type : ContentType) (sealed_content sealed_nonce : bytes) :
    PResult unit :=
  if negb (ContentType.is_sealed content_type) then Ok tt else
  check? negb (len sealed_content <? AES_GCM_TAG_BYTES)
    else ProtocolError.invalid_input
           "Sealed message encrypted content must contain at least the {AES_GCM_TAG_BYTES}-byte authentication tag" in
  check? len sealed_nonce =? AES_GCM_NONCE_BYTES
    else ProtocolError.invalid_input "Sealed message nonce must be {AES_GCM_NONCE_BYTES} bytes, got {}" in
  Ok tt.

(** A disappearing message is refused when it lies in the future or has expired. *)
Definition check_lifetime (content_type : ContentType) (ttl_seconds sent_timestamp : Z) (clock : option Z) : PResult unit :=
  if ContentType.is_disappearing content_type then
    let? now := group_now_unix_secs clock in
    check? negb (saturating_add 64 now MAX_FUTURE_TIMESTAMP_SKEW_SECS <? sent_timestamp)
      else ProtocolError.invalid_input "sent_timestamp {sent_timestamp} is too far in the future (now {now})" in
    let expiry := saturating_add 64 sent_timestamp ttl_seconds in
    check? negb (expiry <? now)
      else ProtocolError.message_expired "TTL {ttl_seconds}s expired (sent {sent_timestamp}, now {now})" in
    Ok tt
  else Ok tt.

Definition check_franking (gpt : GroupPlaintext.t) (content_type : ContentType) (seal_key franking_tag_wire : bytes)
    (mandatory_franking : bool) : PResult (option FrankingData.t) :=
  let fk := GroupPlaintext.franking_key gpt in
  check? negb (mandatory_franking && (len fk =? 0))
    else ProtocolError.franking_failed "Group security policy requires franking on every message" in
  check? negb (negb (len fk =? 0) && (len franking_tag_wire =? 0))
    else ProtocolError.franking_failed "Message contains franking_key but franking_tag is missing on wire" in
  if negb (len fk =? 0) && negb (len franking_tag_wire =? 0) then
    let sealed_seal_key := if ContentType.is_sealed content_type then seal_key else [] in
    let computed := hmac_sha256 fk
      (build_franking_input (ContentType.to_u32 content_type) (GroupPlaintext.content gpt)
         (GroupPlaintext.sealed_content gpt) (GroupPlaintext.sealed_nonce gpt) sealed_seal_key) in
    check? unwrap_or (constant_time_equals computed franking_tag_wire) false
      else ProtocolError.franking_failed "Franking tag mismatch on decrypt" in
    Ok (Some (FrankingData.mk franking_tag_wire fk (GroupPlaintext.content gpt) (GroupPlaintext.sealed_content gpt)
                (ContentType.to_u32 content_type) (GroupPlaintext.sealed_nonce gpt) sealed_seal_key))
  else Ok None.

Record ParsedPlaintext : Type := mkParsed {
  pp_content : bytes;
  pp_content_type : ContentType;
  pp_sealed_payload : option SealedPayload.t;
  pp_franking_data : option FrankingData.t;
  pp_ttl_seconds : Z;
  pp_sent_timestamp : Z;
  pp_referenced_message_id : bytes }.

(** [policy.map_or(0, f)] *)
Definition policy_field (f : GroupMessagePolicy.t -> Z) (gpt : GroupPlaintext.t) : Z :=
  match GroupPlaintext.policy gpt with Some p => f p | None => 0 end.

Definition parse_group_plaintext (gpt : GroupPlaintext.t) (seal_key franking_tag_wire : bytes)
    (mandatory_franking : bool) (clock : option Z) : PResult ParsedPlaintext :=
  let? content_type := ContentType.try_from_wire (policy_field GroupMessagePolicy.content_type gpt) in
  let ttl_seconds := policy_field GroupMessagePolicy.ttl_seconds gpt in
  let sent_timestamp := policy_field GroupMessagePolicy.sent_timestamp gpt in
  let? _ := validate_sealed_payload_fields content_type (GroupPlaintext.sealed_content gpt)
              (GroupPlaintext.sealed_nonce gpt) in
  let? _ := ContentType.validate_ttl content_type ttl_seconds in
  let? _ := check_lifetime content_type ttl_seconds sent_timestamp clock in
  let sealed_payload :=
    if ContentType.is_sealed content_type && negb (len (GroupPlaintext.sealed_content gpt) =? 0) then
      Some (SealedPayload.mk (GroupPlaintext.content gpt) (GroupPlaintext.sealed_content gpt)
              (GroupPlaintext.sealed_nonce gpt) seal_key)
    else None in
  let? franking_data := check_franking gpt content_type seal_key franking_tag_wire mandatory_franking in
  let referenced_message_id := GroupPlaintext.referenced_message_id gpt in
  check? negb ((ContentType.is_edit content_type || ContentType.is_delete content_type) &&
               negb (len referenced_message_id =? MESSAGE_ID_BYTES))
    else ProtocolError.invalid_input "Edit/Delete message missing valid referenced_message_id" in
  Ok (mkParsed (GroupPlaintext.content gpt) content_type sealed_payload franking_data ttl_seconds sent_timestamp
        referenced_message_id).

(** ** Sending *)

Definition check_referenced (policy : MessagePolicy) : PResult unit :=
  if ContentType.is_edit (MessagePolicy.content_type policy) || ContentType.is_delete (MessagePolicy.content_type policy) then
    check? len (MessagePolicy.referenced_message_id policy) =? MESSAGE_ID_BYTES
      else ProtocolError.invalid_input "Edit/Delete requires a 32-byte referenced_message_id" in
    Ok tt
  else
    check? len (MessagePolicy.referenced_message_id policy) =? 0
      else ProtocolError.invalid_input "referenced_message_id must be empty for non-Edit/Delete messages" in
    Ok tt.

(** The policy with franking forced on when the group requires it. *)
Definition effective_policy (security : GroupSecurityPolicy) (policy : MessagePolicy) : MessagePolicy :=
  if GroupSecurityPolicy.mandatory_franking security && negb (MessagePolicy.frankable policy)
  then MessagePolicy.set_frankable true policy else policy.

(** [for i in 0..REUSE_GUARD_BYTES { nonce[i] ^= reuse_guard[i] }] *)
Fixpoint xor_guard (nonce guard : bytes) : bytes :=
  match nonce, guard with
  | n :: nonce, g :: guard => Z.lxor n g :: xor_guard nonce guard
  | _, _ => nonce
  end.

(** The next key of the own chain, with the limits of the epoch. *)
Definition take_own_key : GM (Z * bytes) :=
  do inner <- sget (fun inner => inner);
  let my_leaf_idx := GroupSessionInner.my_leaf_idx inner in
  let policy_max := GroupSecurityPolicy.effective_max_messages_per_epoch (GroupSessionInner.security_policy inner) in
  do! slift (match get_chain (GroupSessionInner.sender_store inner) my_leaf_idx with
             | Some chain => ensure (negb (policy_max <=? SenderKeyChain.generation chain))
                 (ProtocolError.group_protocol "Epoch rotation required: message limit reached by security policy")
             | None => Ok tt
             end);
  do (generation, message_key) <- on_store (next_own_message_key my_leaf_idx);
  let remaining := saturating_sub policy_max (saturating_add 32 generation 1) in
  do warning_threshold <- slift (GroupSession.compute_rotation_threshold policy_max SENDER_KEY_EXHAUSTION_WARNING_PERCENT);
  do! smod (if remaining <=? warning_threshold
            then notify_group (on_sender_key_exhaustion_warning remaining policy_max) else fun inner => inner);
  sret (generation, message_key).

(** The sender data under the metadata key of the epoch. *)
Definition seal_sender_data (inner : GroupSessionInner) (generation : Z) (e : MessageEntropy) : PResult (bytes * bytes) :=
  let sender_data := GroupSenderData.mk (GroupSessionInner.my_leaf_idx inner) generation (me_reuse_guard e) in
  let sender_data_nonce := xor_guard (me_sender_nonce e) (me_reuse_guard e) in
  let? sender_aad := build_sender_aad (GroupSessionInner.group_id inner) (GroupSessionInner.epoch inner) in
  let? encrypted_sender_data := aes_encrypt (EpochKeys.metadata_key (GroupSessionInner.epoch_keys inner))
    sender_data_nonce (encode sender_data) sender_aad in
  Ok (encrypted_sender_data, sender_data_nonce).

(** The signed message with the plaintext and the generation it carries. *)
Definition compose_message (content : bytes) (policy : MessagePolicy) (actual_plaintext : option bytes)
    (clock : option Z) (e : MessageEntropy) : GM (GroupPlaintext.t * Z * GroupMessage.t) :=
  do! sgets (fun inner => ensure_no_pending_reinit inner "encrypt");
  do! slift (ContentType.validate_ttl (MessagePolicy.content_type policy) (MessagePolicy.ttl_seconds policy));
  do! slift (check_referenced policy);
  do policy <- sget (fun inner => effective_policy (GroupSessionInner.security_policy inner) policy);
  do! sgets (fun inner => validate_annotations_against_tree (GroupSessionInner.tree inner) content
                            (MessagePolicy.proto_mentions policy) (MessagePolicy.proto_reply policy));
  do (generation, message_key) <- take_own_key;
  do (group_plaintext, franking_tag) <-
    slift (build_group_plaintext content policy message_key actual_plaintext clock e);
  do inner <- sget (fun inner => inner);
  let group_plaintext := GroupPlaintext.set_prev_message_hash (GroupSessionInner.last_sent_message_hash inner)
                           group_plaintext in
  let padded := MessagePadding.pad (encode group_plaintext) in
  do aad <- slift (build_payload_aad (GroupSessionInner.group_id inner) (GroupSessionInner.epoch inner)
    (GroupSessionInner.my_leaf_idx inner) generation);
  do encrypted_payload <- slift (aes_encrypt message_key (me_payload_nonce e) padded aad);
  do! smod (GroupSessionInner.set_last_sent_message_hash (sha256 (encrypted_payload ++ me_payload_nonce e)));
  do (encrypted_sender_data, sender_data_nonce) <- slift (seal_sender_data inner generation e);
  let app_msg := GroupApplicationMessage.mk encrypted_sender_data sender_data_nonce encrypted_payload
    (me_payload_nonce e) franking_tag [] in
  do ed25519_sk <- GroupSession.read_signing_key;
  do signature <- slift (GroupSession.ed25519_sign_group_message ed25519_sk
    (build_app_signature_input (GroupSessionInner.group_id inner) (GroupSessionInner.epoch inner) app_msg));
  sret (group_plaintext, generation, GroupMessage.mk GROUP_PROTOCOL_VERSION (GroupSessionInner.group_id inner)
    (GroupSessionInner.epoch inner)
    (Some (GroupMessage.Application (GroupApplicationMessage.set_sender_signature signature app_msg)))).

Definition encrypt_internal (content : bytes) (policy : MessagePolicy) (actual_plaintext : option bytes)
    (clock : option Z) (e : MessageEntropy) : GM bytes :=
  do (_, _, group_msg) <- compose_message content policy actual_plaintext clock e;
  sret (encode group_msg).

Definition encrypt (plaintext : bytes) (clock : option Z) (e : MessageEntropy) : GM bytes :=
  encrypt_internal plaintext MessagePolicy.default None clock e.

Definition encrypt_with_auto_rotate (plaintext : bytes) (clock : option Z) (pe : PathEntropy) (e : MessageEntropy) :
    GM (option bytes * bytes) :=
  do rotation_commit <- GroupSession.rotate_epoch_if_needed pe;
  do ciphertext <- encrypt plaintext clock e;
  sret (rotation_commit, ciphertext).

Definition encrypt_sealed (plaintext hint : bytes) (clock : option Z) (e : MessageEntropy) : GM bytes :=
  encrypt_internal hint (MessagePolicy.of_type ContentType.Sealed) (Some plaintext) clock e.

Definition bad_ttl : ProtocolError.t := ProtocolError.invalid_input "TTL must be 1..{MAX_TTL_SECONDS}, got {ttl_seconds}".

Definition encrypt_disappearing (plaintext : bytes) (ttl_seconds : Z) (clock : option Z) (e : MessageEntropy) : GM bytes :=
  do! sguard (negb ((ttl_seconds =? 0) || (MAX_TTL_SECONDS <? ttl_seconds))) bad_ttl;
  encrypt_internal plaintext (MessagePolicy.mk ContentType.Disappearing ttl_seconds false [] [] None) None clock e.

Definition encrypt_sealed_disappearing (plaintext hint : bytes) (ttl_seconds : Z) (clock : option Z)
    (e : MessageEntropy) : GM bytes :=
  do! sguard (negb ((ttl_seconds =? 0) || (MAX_TTL_SECONDS <? ttl_seconds))) bad_ttl;
  encrypt_internal hint (MessagePolicy.mk ContentType.SealedDisappearing ttl_seconds false [] [] None)
    (Some plaintext) clock e.

Definition encrypt_frankable (plaintext : bytes) (clock : option Z) (e : MessageEntropy) : GM bytes :=
  encrypt_internal plaintext (MessagePolicy.mk ContentType.Normal 0 true [] [] None) None clock e.

Definition encrypt_with_policy (plaintext : bytes) (policy : MessagePolicy) (clock : option Z) (e : MessageEntropy) :
    GM bytes :=
  if ContentType.is_sealed (MessagePolicy.content_type policy)
  then encrypt_internal [] policy (Some plaintext) clock e
  else encrypt_internal plaintext policy None clock e.

Definition encrypt_edit (new_content target_message_id : bytes) (clock : option Z) (e : MessageEntropy) : GM bytes :=
  encrypt_internal new_content (MessagePolicy.mk ContentType.Edit 0 false target_message_id [] None) None clock e.

Definition encrypt_delete (target_message_id : bytes) (clock : option Z) (e : MessageEntropy) : GM bytes :=
  encrypt_internal [] (MessagePolicy.mk ContentType.Delete 0 false target_message_id [] None) None clock e.

Definition encrypt_reaction (message_id : bytes) (emoji : string) (remove : bool) (clock : option Z)
    (e : MessageEntropy) : GM bytes :=
  let reaction := GroupReaction.mk message_id emoji remove in
  do! slift (validate_reaction reaction);
  encrypt_with_policy (encode reaction) (MessagePolicy.of_type ContentType.Reaction) clock e.

Definition encrypt_read_receipt (message_ids : list bytes) (timestamp : Z) (clock : option Z) (e : MessageEntropy) :
    GM bytes :=
  let receipt := GroupReadReceipt.mk message_ids timestamp in
  do! slift (validate_read_receipt receipt);
  encrypt_with_policy (encode receipt) (MessagePolicy.of_type ContentType.ReadReceipt) clock e.

Definition encrypt_typing (is_typing : bool) (clock : option Z) (e : MessageEntropy) : GM bytes :=
  encrypt_with_policy (encode (GroupTypingIndicator.mk is_typing)) (MessagePolicy.of_type ContentType.Typing) clock e.

(** ** Receiving *)

Definition reveal_sealed (sealed : SealedPayload.t) : PResult bytes :=
  aes_decrypt (SealedPayload.seal_key sealed) (SealedPayload.nonce sealed) (SealedPayload.encrypted_content sealed)
    SEALED_AAD_SUFFIX.

Definition verify_franking (data : FrankingData.t) : PResult bool :=
  let computed := hmac_sha256 (FrankingData.franking_key data)
    (build_franking_input (FrankingData.content_type data) (FrankingData.content data)
       (FrankingData.sealed_content data) (FrankingData.sealed_nonce data) (FrankingData.seal_key data)) in
  crypto_err (constant_time_equals computed (FrankingData.franking_tag data)).

(** The envelope, the sender under the metadata key, and the sender's signature. *)
Definition open_envelope (inner : GroupSessionInner) (group_msg : GroupMessage.t) :
    PResult (GroupApplicationMessage.t * GroupSenderData.t) :=
  check? bytes_eqb (GroupMessage.group_id group_msg) (GroupSessionInner.group_id inner)
    else ProtocolError.group_protocol "Group ID mismatch" in
  check? GroupMessage.epoch group_msg =? GroupSessionInner.epoch inner
    else ProtocolError.group_protocol "Epoch mismatch: expected {}, got {}" in
  let? app_msg := match GroupMessage.content group_msg with
                  | Some (GroupMessage.Application app_msg) => Ok app_msg
                  | _ => Err (ProtocolError.group_protocol "Expected application message")
                  end in
  let? sender_aad := build_sender_aad (GroupSessionInner.group_id inner) (GroupSessionInner.epoch inner) in
  let? sender_data_bytes := aes_decrypt (EpochKeys.metadata_key (GroupSessionInner.epoch_keys inner))
    (GroupApplicationMessage.sender_data_nonce app_msg) (GroupApplicationMessage.encrypted_sender_data app_msg)
    sender_aad in
  let? sender_data := ok_or (decode sender_data_bytes) (ProtocolError.decode "SenderData decode: {e}") in
  check? negb (GroupSenderData.sender_leaf_index sender_data =? GroupSessionInner.my_leaf_idx inner)
    else ProtocolError.group_protocol "Cannot decrypt own group message" in
  let? sender_leaf :=
    ok_or (get_leaf_data (GroupSessionInner.tree inner) (GroupSenderData.sender_leaf_index sender_data))
      (ProtocolError.group_protocol "Unknown sender leaf index {}") in
  let? _ := GroupSession.ed25519_verify_group_message (LeafData.identity_ed25519_public sender_leaf)
    (GroupApplicationMessage.sender_signature app_msg)
    (build_app_signature_input (GroupSessionInner.group_id inner) (GroupSessionInner.epoch inner)
       (GroupApplicationMessage.set_sender_signature [] app_msg)) in
  Ok (app_msg, sender_data).

(** [replay_windows.entry(leaf).or_default()]: the window, stored when it was missing. *)
Definition window_entry (leaf : Z) : GM SenderReplayWindow :=
  do windows <- sget GroupSessionInner.replay_windows;
  match BTreeMap.get windows leaf with
  | Some w => sret w
  | None =>
      do! smod (GroupSessionInner.set_replay_windows (BTreeMap.insert windows leaf SenderReplayWindow.default));
      sret SenderReplayWindow.default
  end.

Definition mark_received (leaf generation : Z) : GM unit :=
  do w <- window_entry leaf;
  smod (fun inner => GroupSessionInner.set_replay_windows
          (BTreeMap.insert (GroupSessionInner.replay_windows inner) leaf (SenderReplayWindow.mark_seen w generation)) inner).

Definition decrypt (message_bytes : bytes) (clock : option Z) : GM GroupDecryptResult.t :=
  do! sguard (negb (MAX_GROUP_MESSAGE_SIZE <? len message_bytes))
        (ProtocolError.invalid_input "Group message too large: {} bytes (max {})");
  do group_msg <- slift (ok_or (decode message_bytes) (ProtocolError.decode "GroupMessage decode: {e}"));
  do! sgets (fun inner => ensure_no_pending_reinit inner "decrypt");
  do (app_msg, sender_data) <- sgets (fun inner => open_envelope inner group_msg);
  let leaf := GroupSenderData.sender_leaf_index sender_data in
  let generation := GroupSenderData.generation sender_data in
  do replay <- window_entry leaf;
  do! sguard (negb (SenderReplayWindow.is_duplicate_or_too_old replay generation))
        (ProtocolError.replay_attack "Duplicate group message");
  do message_key <- on_store (get_message_key leaf generation);
  do inner <- sget (fun inner => inner);
  do aad <- slift (build_payload_aad (GroupSessionInner.group_id inner) (GroupSessionInner.epoch inner) leaf generation);
  do padded_plaintext <- slift (aes_decrypt message_key (GroupApplicationMessage.payload_nonce app_msg)
    (GroupApplicationMessage.encrypted_payload app_msg) aad);
  do seal_key <- slift (expand_seal_key message_key);
  do pt_bytes <- slift (MessagePadding.unpad padded_plaintext);
  do group_plaintext <- slift (ok_or (decode pt_bytes) (ProtocolError.decode "GroupPlaintext decode: {e}"));
  do! slift (validate_annotations_against_tree (GroupSessionInner.tree inner) (GroupPlaintext.content group_plaintext)
               (GroupPlaintext.mentions group_plaintext) (GroupPlaintext.reply_context group_plaintext));
  do parsed <- slift (parse_group_plaintext group_plaintext seal_key (GroupApplicationMessage.franking_tag app_msg)
    (GroupSecurityPolicy.mandatory_franking (GroupSessionInner.security_policy inner)) clock);
  do! mark_received leaf generation;
  sret (GroupDecryptResult.mk (pp_content parsed) leaf generation (pp_content_type parsed) (pp_sealed_payload parsed)
    (pp_franking_data parsed) (pp_ttl_seconds parsed) (pp_sent_timestamp parsed)
    (GroupPlaintext.prev_message_hash group_plaintext)
    (compute_message_id (GroupSessionInner.group_id inner) (GroupSessionInner.epoch inner) leaf generation)
    (pp_referenced_message_id parsed)
    (map (fun m => (GroupMention.leaf_index m, GroupMention.offset m, GroupMention.length m))
       (GroupPlaintext.mentions group_plaintext))
    (option_map ReplyContext.of_proto (GroupPlaintext.reply_context group_plaintext))).

Definition decrypt_open_sealed (message_bytes : bytes) (clock : option Z) : GM GroupDecryptResult.t :=
  do result <- decrypt message_bytes clock;
  match GroupDecryptResult.sealed_payload result with
  | Some sealed =>
      do plaintext <- slift (reveal_sealed sealed);
      sret (GroupDecryptResult.open_with plaintext result)
  | None => sret result
  end.

End Messages.
End GroupMessaging.
