(* ===== verification/GroupSeal.v ===== *)
(** * Sealed state of a group ([src/protocol/group/mod.rs], lines 3128-3485)

    The persisted form of a session: the state under an HMAC, encrypted with a
    fresh data key that is itself encrypted with the caller's key, bound to an
    external counter.  The wiping of buffers has no effect on results and is not
    part of the model. *)

From Stdlib Require Import ZArith List Bool Lia String.
From S2P Require Import Prelude Constants BTree SecureMemory Crypto Signatures.
From S2P Require Import Proto GroupProto KeySchedule SenderKeys KeyPackage RatchetTree TreeKem.
From S2P Require Import Commit GroupReplay GroupContent GroupSessions.
Import ListNotations.
Open Scope string_scope.
Open Scope list_scope.
Open Scope Z_scope.

(** The random values of one export. *)
Record GroupSealEntropy : Type := mkGroupSealEntropy { gx_dek : bytes; gx_dek_nonce : bytes; gx_state_nonce : bytes }.

Module GroupSealing.
Section Seal.
Context {P : Primitives} {SG : Signatures}.
Context {CP : Prost GroupSecurityPolicyProto.t} {CS : Prost GroupProtocolState.t} {CZ : Prost SealedGroupState.t}.

Definition build_state_aad (version_le dek_nonce encrypted_dek : bytes) : bytes :=
  version_le ++ dek_nonce ++ encrypted_dek.

(** HMAC accepts keys of any length. *)
Definition compute_group_state_hmac (key data : bytes) : PResult bytes := Ok (hmac_sha256 key data).

(** [dek_aad]: version and external counter. *)
Definition dek_aad (version external_counter : Z) : bytes := to_le_bytes 4 version ++ to_le_bytes 8 external_counter.

(** The state without its tag. *)
Definition state_of (inner : GroupSessionInner) : GroupProtocolState.t :=
  let keys := GroupSessionInner.epoch_keys inner in
  GroupProtocolState.mk GROUP_PROTOCOL_VERSION (GroupSessionInner.group_id inner) (GroupSessionInner.epoch inner)
    (GroupSessionInner.my_leaf_idx inner) (export_with_private_keys (GroupSessionInner.tree inner))
    (EpochKeys.epoch_secret keys) (GroupSessionInner.init_secret inner) (EpochKeys.metadata_key keys)
    (EpochKeys.confirmation_key keys) (EpochKeys.welcome_key keys)
    (map (fun '(leaf_index, chain_key, generation) => GroupMemberSenderChain.mk leaf_index chain_key generation)
       (export_chains (GroupSessionInner.sender_store inner)))
    (GroupSessionInner.my_identity_ed25519_public inner) (GroupSessionInner.my_identity_x25519_public inner)
    (GroupSessionInner.group_context_hash inner)
    (encode_replay_windows_for_state (GroupSessionInner.replay_windows inner)) [] 0 0 None
    (GroupSecurityPolicy.policy_bytes (GroupSessionInner.security_policy inner)) (GroupSessionInner.member_roles inner).

Definition export_sealed_state (key : bytes) (external_counter : Z) (e : GroupSealEntropy) (inner : GroupSessionInner) :
    PResult bytes :=
  check? len key =? AES_KEY_BYTES else ProtocolError.invalid_input "State encryption key must be 32 bytes" in
  check? negb (external_counter =? 0)
    else ProtocolError.invalid_input "External sealed-state counter must be > 0" in
  let state := state_of inner in
  let tmp := encode state in
  let? hmac_key := expand key GROUP_STATE_HMAC_INFO HMAC_BYTES in
  let? state_hmac := compute_group_state_hmac hmac_key tmp in
  let plaintext_state := encode (GroupProtocolState.set_state_hmac state_hmac state) in
  let dek_aad := dek_aad GROUP_SEALED_STATE_VERSION external_counter in
  let? encrypted_dek := aes_encrypt key (gx_dek_nonce e) (gx_dek e) dek_aad in
  let state_aad := build_state_aad dek_aad (gx_dek_nonce e) encrypted_dek in
  let? encrypted_state := aes_encrypt (gx_dek e) (gx_state_nonce e) plaintext_state state_aad in
  Ok (encode (SealedGroupState.mk GROUP_SEALED_STATE_VERSION (gx_dek_nonce e) (gx_state_nonce e) encrypted_dek
                encrypted_state external_counter)).

(** The checks of the envelope. *)
Definition open_sealed (sealed_data key : bytes) (min_external_counter : Z) : PResult SealedGroupState.t :=
  let? sealed := ok_or (decode sealed_data) (ProtocolError.decode "SealedGroupState decode: {e}") in
  check? SealedGroupState.version sealed =? GROUP_SEALED_STATE_VERSION
    else ProtocolError.invalid_input "Unsupported sealed group state version: expected {}, got {}" in
  check? (len (SealedGroupState.dek_nonce sealed) =? AES_GCM_NONCE_BYTES) &&
         (len (SealedGroupState.state_nonce sealed) =? AES_GCM_NONCE_BYTES)
    else ProtocolError.invalid_input "Invalid nonce size in sealed group state" in
  check? negb (SealedGroupState.external_counter sealed =? 0)
    else ProtocolError.invalid_input "Sealed group state external counter must be > 0" in
  check? negb (SealedGroupState.external_counter sealed <? min_external_counter)
    else ProtocolError.invalid_state "Group sealed state rollback detected by external counter" in
  Ok sealed.

(** Decryption of the data key and of the state, and the tag of the state. *)
Definition unseal_state (sealed : SealedGroupState.t) (key : bytes) : PResult GroupProtocolState.t :=
  let dek_aad := dek_aad (SealedGroupState.version sealed) (SealedGroupState.external_counter sealed) in
  let? dek := aes_decrypt key (SealedGroupState.dek_nonce sealed) (SealedGroupState.encrypted_dek sealed) dek_aad in
  let state_aad := build_state_aad dek_aad (SealedGroupState.dek_nonce sealed) (SealedGroupState.encrypted_dek sealed) in
  let? plaintext_state := aes_decrypt dek (SealedGroupState.state_nonce sealed) (SealedGroupState.encrypted_state sealed)
    state_aad in
  let? state := ok_or (decode plaintext_state) (ProtocolError.decode "GroupProtocolState decode: {e}") in
  let? hmac_key := expand key GROUP_STATE_HMAC_INFO HMAC_BYTES in
  let saved_hmac := GroupProtocolState.state_hmac state in
  let? expected_hmac := compute_group_state_hmac hmac_key (encode (GroupProtocolState.set_state_hmac [] state)) in
  let? hmac_ok := crypto_err (constant_time_equals expected_hmac saved_hmac) in
  check? hmac_ok
    else ProtocolError.invalid_state "Group state HMAC verification failed — possible rollback attack" in
  check? GroupProtocolState.version state =? GROUP_PROTOCOL_VERSION
    else ProtocolError.invalid_input "Unsupported group protocol state version: expected {}, got {}" in
  Ok state.

Definition chain_of_state (policy : GroupSecurityPolicy) (chains : BTreeMap.t Z SenderKeyChain)
    (sc : GroupMemberSenderChain.t) : PResult (BTreeMap.t Z SenderKeyChain) :=
  let? chain := from_state_with_policy (GroupMemberSenderChain.leaf_index sc) (GroupMemberSenderChain.chain_key sc)
    (GroupMemberSenderChain.generation sc) (GroupSecurityPolicy.enhanced_key_schedule policy)
    (GroupSecurityPolicy.effective_max_messages_per_epoch policy)
    (GroupSecurityPolicy.effective_max_skipped_per_sender policy) in
  Ok (BTreeMap.insert chains (GroupMemberSenderChain.leaf_index sc) chain).

(** The session of a state; what is not persisted starts empty. *)
Definition session_of_state (state : GroupProtocolState.t) (ed25519_secret : SecureMemoryHandle.t) :
    PResult GroupSessionInner :=
  let? _ := validate_ed25519_secret_matches_public ed25519_secret
              (GroupProtocolState.my_identity_ed25519_public state) in
  let? tree := from_proto (GroupProtocolState.tree_nodes state) in
  let epoch_keys := EpochKeys.mk (GroupProtocolState.epoch_secret state) (GroupProtocolState.metadata_key state)
    (GroupProtocolState.welcome_key state) (GroupProtocolState.confirmation_key state)
    (GroupProtocolState.init_secret state) in
  let? security_policy := GroupSecurityPolicy.from_proto_bytes (GroupProtocolState.security_policy state) in
  let? _ := GroupSecurityPolicy.validate security_policy in
  let? chains := foldR (chain_of_state security_policy) (GroupProtocolState.sender_chains state) BTreeMap.empty in
  let sender_store := from_chains chains (GroupSecurityPolicy.effective_max_skipped_per_sender security_policy) in
  let? replay_windows := decode_replay_windows_from_state (GroupProtocolState.seen_message_ids state) in
  let? (_, ext_x25519_pub, _, ext_kyber_pub) := derive_external_keypairs (EpochKeys.init_secret epoch_keys) in
  let member_roles := prune_member_roles (populated_leaf_indices tree) (GroupProtocolState.member_roles state) in
  Ok (GroupSessionInner.mk (GroupProtocolState.group_id state) (GroupProtocolState.epoch state)
        (GroupProtocolState.my_leaf_index state) tree epoch_keys (EpochKeys.init_secret epoch_keys) sender_store
        (GroupProtocolState.group_context_hash state) (GroupProtocolState.my_identity_ed25519_public state)
        (GroupProtocolState.my_identity_x25519_public state) ed25519_secret replay_windows ext_x25519_pub ext_kyber_pub
        None None false zero_message_hash security_policy member_roles []).

Definition from_sealed_state_with_time_provider (sealed_data key ed25519_secret_raw : bytes) (min_external_counter : Z) :
    PResult GroupSessionInner :=
  check? len key =? AES_KEY_BYTES else ProtocolError.invalid_input "State encryption key must be 32 bytes" in
  check? negb (MAX_GROUP_MESSAGE_SIZE <? len sealed_data)
    else ProtocolError.invalid_input "Sealed group state too large" in
  let? ed25519_secret := ed25519_secret_to_handle ed25519_secret_raw in
  let? sealed := open_sealed sealed_data key min_external_counter in
  let? state := unseal_state sealed key in
  session_of_state state ed25519_secret.

Definition from_sealed_state (sealed_data key ed25519_secret_raw : bytes) (min_external_counter : Z) :
    PResult GroupSessionInner := from_sealed_state_with_time_provider sealed_data key ed25519_secret_raw min_external_counter.

Definition sealed_state_external_counter (sealed_data : bytes) : PResult Z :=
  check? negb (MAX_GROUP_MESSAGE_SIZE <? len sealed_data)
    else ProtocolError.invalid_input "Sealed group state too large" in
  let? sealed := ok_or (decode sealed_data) (ProtocolError.decode "SealedGroupState decode: {e}") in
  Ok (SealedGroupState.external_counter sealed).

End Seal.
End GroupSealing.
