(* ===== verification/GroupSync.v ===== *)
(** * Sessions of a group in agreement

    What the members of a group share, what each of them keeps for itself, and
    the effect of a commit of one session on another: from shared state to
    shared state. *)

From Stdlib Require Import ZArith List Bool Lia String.
From S2P Require Import Prelude Constants BTree SecureMemory Crypto Signatures TreeIndex.
From S2P Require Import Proto IdentityModels Identity GroupProto KeySchedule SenderKeys KeyPackage RatchetTree Commit TreeKem.
From S2P Require Import Welcome GroupReplay GroupContent GroupSessions.
From S2P Require Import SenderRun TreeFacts TreeMembers PathSecrets TreeTypes PathAgreement ProposalSync CommitSync TreeSigned.
Import ListNotations.
Open Scope string_scope.
Open Scope list_scope.
Open Scope Z_scope.

(** ** What is shared *)

Record Shared : Type := mkShared {
  sh_group_id : bytes;
  sh_epoch : Z;
  sh_tree : RatchetTree;
  sh_epoch_keys : EpochKeys;
  sh_context_hash : bytes;
  sh_psk_resolver : option PskResolver;
  sh_pending_reinit : option ReInitInfo.t;
  sh_policy : GroupSecurityPolicy }.

Definition shared (x : GroupSessionInner) : Shared :=
  mkShared (GroupSessionInner.group_id x) (GroupSessionInner.epoch x) (public (GroupSessionInner.tree x))
    (GroupSessionInner.epoch_keys x) (GroupSessionInner.group_context_hash x)
    (GroupSessionInner.psk_resolver x) (GroupSessionInner.pending_reinit x) (GroupSessionInner.security_policy x).

Section Sync.
Context {P : Primitives} {L : PrimitiveLaws P} {SG : Signatures} {SL : SignatureLaws SG}.
Context {CC : Prost GroupCommit.t} {CP : Prost GroupSecurityPolicyProto.t} {CE : Prost GroupExternalJoinAuthorization.t}.
Context {CI : Prost GroupInfo.t} {CH : Prost GroupHybridCiphertext.t} {CW : Prost GroupWelcome.t}.

(** ** What a member keeps *)

(** The windows of a session have seen only generations whose keys are spent. *)
Definition windows_ok (x : GroupSessionInner) : Prop := forall leaf w,
  BTreeMap.get (GroupSessionInner.replay_windows x) leaf = Some w ->
  exists seen, WindowFacts.refines w seen /\ Forall (spent (GroupSessionInner.sender_store x) leaf) seen.

(** The base of a leaf's chain of message keys in the epoch of a session. *)
Definition session_base (x : GroupSessionInner) : Z -> bytes :=
  sender_base (EpochKeys.epoch_secret (GroupSessionInner.epoch_keys x)) (GroupSessionInner.group_context_hash x).

Definition session_enhanced (x : GroupSessionInner) : bool :=
  GroupSecurityPolicy.enhanced_key_schedule (GroupSessionInner.security_policy x).

(** A member with signing key seed [seed]. *)
Record member (x : GroupSessionInner) (seed : bytes) : Prop := {
  mb_committer : committer (GroupSessionInner.tree x) (GroupSessionInner.my_leaf_idx x) seed;
  mb_signed : signed (GroupSessionInner.tree x);
  mb_holds : holds (GroupSessionInner.tree x) (GroupSessionInner.my_leaf_idx x);
  mb_clone : clonable (GroupSessionInner.tree x);
  mb_init : GroupSessionInner.init_secret x = EpochKeys.init_secret (GroupSessionInner.epoch_keys x);
  mb_store : store_ok (session_base x) (session_enhanced x) (GroupSessionInner.sender_store x);
  mb_key : GroupSessionInner.my_ed25519_secret x = SecureMemoryHandle.mk (ed25519_keypair seed);
  mb_windows : windows_ok x }.

(** ** The state after a commit *)

(** [x'] is [x] in the epoch of the commit [out], with the tree [t]. *)
Record advanced (x : GroupSessionInner) (out : CommitOutput) (ps : list GroupProposal.t) (t : RatchetTree)
    (x' : GroupSessionInner) : Prop := {
  ad_group_id : GroupSessionInner.group_id x' = GroupSessionInner.group_id x;
  ad_epoch : GroupSessionInner.epoch x' = GroupCommit.epoch (co_commit out);
  ad_leaf : GroupSessionInner.my_leaf_idx x' = GroupSessionInner.my_leaf_idx x;
  ad_tree : GroupSessionInner.tree x' = t;
  ad_keys : GroupSessionInner.epoch_keys x' = co_epoch_keys out;
  ad_init : GroupSessionInner.init_secret x' = EpochKeys.init_secret (co_epoch_keys out);
  ad_store : GroupSessionInner.sender_store x' = co_new_sender_store out;
  ad_context : GroupSessionInner.group_context_hash x' = co_group_context_hash out;
  ad_secret : GroupSessionInner.my_ed25519_secret x' = GroupSessionInner.my_ed25519_secret x;
  ad_windows : GroupSessionInner.replay_windows x' = BTreeMap.empty;
  ad_psk : GroupSessionInner.psk_resolver x' = GroupSessionInner.psk_resolver x;
  ad_reinit : GroupSessionInner.pending_reinit x' = GroupSession.reinit_of ps (GroupSessionInner.pending_reinit x);
  ad_policy : GroupSessionInner.security_policy x' = GroupSessionInner.security_policy x }.

Lemma advanced_shared x y x' y' out ps t u : advanced x out ps t x' -> advanced y out ps u y' -> shared x = shared y ->
  public t = public u -> shared x' = shared y'.
Proof.
  intros A B H Hp. unfold shared in *. injection H as H1 H2 H3 H4 H5 H6 H7 H8.
  destruct A, B. unfold shared. congruence.
Qed.

Lemma windows_empty x : GroupSessionInner.replay_windows x = BTreeMap.empty -> windows_ok x.
Proof. intros H leaf w Hw. rewrite H in Hw. discriminate. Qed.

Lemma advanced_member x x' seed out ps t : advanced x out ps t x' -> member x seed ->
  committer t (GroupSessionInner.my_leaf_idx x) seed -> signed t -> holds t (GroupSessionInner.my_leaf_idx x) -> clonable t ->
  store_ok (sender_base (EpochKeys.epoch_secret (co_epoch_keys out)) (co_group_context_hash out)) (session_enhanced x)
    (co_new_sender_store out) ->
  member x' seed.
Proof.
  intros A M H1 H2 H3 H4 H5. constructor.
  - rewrite (ad_tree _ _ _ _ _ A), (ad_leaf _ _ _ _ _ A). exact H1.
  - rewrite (ad_tree _ _ _ _ _ A). exact H2.
  - rewrite (ad_tree _ _ _ _ _ A), (ad_leaf _ _ _ _ _ A). exact H3.
  - rewrite (ad_tree _ _ _ _ _ A). exact H4.
  - rewrite (ad_init _ _ _ _ _ A), (ad_keys _ _ _ _ _ A). reflexivity.
  - unfold session_base, session_enhanced. rewrite (ad_keys _ _ _ _ _ A), (ad_context _ _ _ _ _ A), (ad_policy _ _ _ _ _ A),
      (ad_store _ _ _ _ _ A). exact H5.
  - rewrite (ad_secret _ _ _ _ _ A). apply (mb_key _ _ M).
  - apply windows_empty, (ad_windows _ _ _ _ _ A).
Qed.

(** ** Own commits *)

(** [create_commit] with the state of a session. *)
Definition session_commit (x : GroupSessionInner) (ps : list GroupProposal.t) (sk : bytes) (e : PathEntropy) : TreeM CommitOutput :=
  create_commit ps (GroupSessionInner.my_leaf_idx x) (GroupSessionInner.init_secret x) (GroupSessionInner.group_id x)
    (GroupSessionInner.epoch x) sk (GroupSessionInner.psk_resolver x) (GroupSessionInner.security_policy x) e.

Lemma commit_own_inv ps sk e x out x' : GroupSession.commit_own ps sk e x = (Ok out, x') ->
  exists t, session_commit x ps sk e (GroupSessionInner.tree x) = (Ok out, t) /\ x' = GroupSessionInner.set_tree t x.
Proof.
  intros H. unfold GroupSession.commit_own, sbind, sget, on_tree in H. fold (session_commit x ps sk e) in H.
  destruct (session_commit x ps sk e (GroupSessionInner.tree x)) as [r t]. apply pair_inj in H as [-> <-]. eauto.
Qed.

Lemma read_key_inv x k x' seed : GroupSessionInner.my_ed25519_secret x = SecureMemoryHandle.mk (ed25519_keypair seed) ->
  GroupSession.read_signing_key x = (Ok k, x') -> k = ed25519_keypair seed /\ x' = x.
Proof.
  intros Hk H. unfold GroupSession.read_signing_key in H. apply sgets_inv in H. destruct H as [H ->]. split; [|reflexivity].
  rewrite Hk in H. unfold SecureMemoryHandle.read_bytes, crypto_err in H. cbn [SecureMemoryHandle.data] in H.
  rewrite ed25519_keypair_len, Z.ltb_irrefl in H. cbn [map_err] in H. apply Ok_inj in H. subst k.
  pose proof (ed25519_keypair_len seed) as Hl. unfold len in Hl. rewrite <- Hl, Nat2Z.id. apply firstn_all.
Qed.

Lemma refresh_inv x u x' : GroupSession.refresh_external x = (Ok u, x') ->
  exists a b, derive_external_keypairs (GroupSessionInner.init_secret x) = Ok (fst a, fst b, snd a, snd b) /\
    x' = GroupSessionInner.set_external_kyber_public (snd b) (GroupSessionInner.set_external_x25519_public (fst b) x).
Proof.
  intros H. unfold GroupSession.refresh_external in H. apply sbind_Ok in H. destruct H as ([[[p1 p2] p3] p4] & s1 & H1 & H).
  apply sgets_inv in H1. destruct H1 as [H1 ->]. inv_stm. exists (p1, p3), (p2, p4). auto.
Qed.

Lemma no_reinit_inv x op x' u : sgets (fun inner => ensure_no_pending_reinit inner op) x = (Ok u, x') ->
  GroupSessionInner.pending_reinit x = None /\ x' = x.
Proof.
  intros H. apply sgets_inv in H. destruct H as [H ->]. split; [|reflexivity]. unfold ensure_no_pending_reinit in H.
  destruct (GroupSessionInner.pending_reinit x); [discriminate|reflexivity].
Qed.

(** The kinds of own commits. *)
Inductive CommitOp : Type :=
| OpUpdate
| OpRemove (leaf : Z)
| OpAdd (kp : GroupKeyPackage.t) (w : WelcomeEntropy)
| OpReInit (new_group_id : bytes) (new_version : Z).

Definition op_proposals (op : CommitOp) : list GroupProposal.t :=
  match op with
  | OpUpdate => []
  | OpRemove leaf => [GroupProposal.mk (Some (GroupProposal.Remove (GroupRemoveProposal.mk leaf)))]
  | OpAdd kp _ => [GroupProposal.mk (Some (GroupProposal.Add (GroupAddProposal.mk (Some kp))))]
  | OpReInit id v => [GroupProposal.mk (Some (GroupProposal.ReInit (GroupReInitProposal.mk id v)))]
  end.

(** The bytes for the group, and the welcome of an addition. *)
Definition run_commit (op : CommitOp) (e : PathEntropy) : GM (bytes * bytes) :=
  match op with
  | OpUpdate => do c <- GroupSession.update e; sret (c, [])
  | OpRemove leaf => do c <- GroupSession.remove_member leaf e; sret (c, [])
  | OpAdd kp w => GroupSession.add_member kp e w
  | OpReInit id v => do c <- GroupSession.create_reinit_commit id v e; sret (c, [])
  end.

(** What a successful own commit did. *)
Definition committed (x : GroupSessionInner) (op : CommitOp) (e : PathEntropy) (seed : bytes) (commit : bytes)
    (out : CommitOutput) (t : RatchetTree) (x' : GroupSessionInner) : Prop :=
  GroupSessionInner.pending_reinit x = None /\
  session_commit x (op_proposals op) (ed25519_keypair seed) e (GroupSessionInner.tree x) = (Ok out, t) /\
  commit = encode (co_commit out) /\ advanced x out (op_proposals op) t x'.

Lemma session_commit_proposals x ps sk e t out t' : session_commit x ps sk e t = (Ok out, t') ->
  GroupCommit.proposals (co_commit out) = ps.
Proof.
  intros H. destruct (create_commit_inv _ _ _ _ _ _ _ _ _ _ _ _ H)
    as (t1 & added & p & secret & th & ne & keys0 & keys & mac & store & sg & _ & _ & _ & _ & _ & _ & _ & _ & _ & _ & ->). reflexivity.
Qed.

Lemma update_committed e x c x' seed : GroupSessionInner.my_ed25519_secret x = SecureMemoryHandle.mk (ed25519_keypair seed) ->
  GroupSession.update e x = (Ok c, x') -> exists out t, committed x OpUpdate e seed c out t x'.
Proof.
  intros Hk H. unfold GroupSession.update in H. apply sbind_Ok in H. destruct H as ([] & s1 & Hn & H).
  apply no_reinit_inv in Hn. destruct Hn as [Hn ->]. apply sbind_Ok in H. destruct H as (sk & s1 & Hs & H).
  apply (read_key_inv _ _ _ seed Hk) in Hs. destruct Hs as [-> ->]. apply sbind_Ok in H. destruct H as (out & s1 & Hc & H).
  apply commit_own_inv in Hc. destruct Hc as (t & Hc & ->). apply sbind_Ok in H. destruct H as ([] & s1 & He & H). inv_stm.
  match goal with E : GroupSession.refresh_external _ = (Ok _, _) |- _ => apply refresh_inv in E; destruct E as (a' & b & _ & ->) end.
  exists out, t. split; [exact Hn|]. split; [exact Hc|]. split; [reflexivity|]. constructor; reflexivity.
Qed.

Lemma remove_committed leaf e x c x' seed : GroupSessionInner.my_ed25519_secret x = SecureMemoryHandle.mk (ed25519_keypair seed) ->
  GroupSession.remove_member leaf e x = (Ok c, x') -> exists out t, committed x (OpRemove leaf) e seed c out t x'.
Proof.
  intros Hk H. unfold GroupSession.remove_member in H. apply sbind_Ok in H. destruct H as ([] & s1 & Hn & H).
  apply no_reinit_inv in Hn. destruct Hn as [Hn ->]. apply sbind_Ok in H. destruct H as (sk & s1 & Hs & H).
  apply (read_key_inv _ _ _ seed Hk) in Hs. destruct Hs as [-> ->]. apply sbind_Ok in H. destruct H as (out & s1 & Hc & H).
  apply commit_own_inv in Hc. destruct Hc as (t & Hc & ->). apply sbind_Ok in H. destruct H as ([] & s1 & He & H). inv_stm.
  match goal with E : GroupSession.refresh_external _ = (Ok _, _) |- _ => apply refresh_inv in E; destruct E as (a' & b & _ & ->) end.
  exists out, t. split; [exact Hn|]. split; [exact Hc|]. split; [reflexivity|]. constructor; reflexivity.
Qed.

Lemma reinit_committed id v e x c x' seed : GroupSessionInner.my_ed25519_secret x = SecureMemoryHandle.mk (ed25519_keypair seed) ->
  GroupSession.create_reinit_commit id v e x = (Ok c, x') -> exists out t, committed x (OpReInit id v) e seed c out t x'.
Proof.
  intros Hk H. unfold GroupSession.create_reinit_commit in H. apply sbind_Ok in H. destruct H as ([] & s0 & Hg & H).
  apply slift_inv in Hg. destruct Hg as [_ ->]. apply sbind_Ok in H. destruct H as ([] & s1 & Hn & H).
  apply no_reinit_inv in Hn. destruct Hn as [Hn ->]. apply sbind_Ok in H. destruct H as (sk & s1 & Hs & H).
  apply (read_key_inv _ _ _ seed Hk) in Hs. destruct Hs as [-> ->]. apply sbind_Ok in H. destruct H as (out & s1 & Hc & H).
  apply commit_own_inv in Hc. destruct Hc as (t & Hc & ->). pose proof (session_commit_proposals _ _ _ _ _ _ _ Hc) as Hps.
  apply sbind_Ok in H. destruct H as ([] & s1 & He & H). inv_stm.
  match goal with E : GroupSession.refresh_external _ = (Ok _, _) |- _ => apply refresh_inv in E; destruct E as (a' & b & _ & ->) end.
  match goal with E : ok_or (GroupSession.find_reinit _) _ = Ok _ |- _ => rewrite Hps in E; cbn in E; apply Ok_inj in E; subst end.
  exists out, t. split; [exact Hn|]. split; [exact Hc|]. split; [reflexivity|]. constructor; try reflexivity.
Qed.

Lemma add_committed kp w e x c wb x' seed : GroupSessionInner.my_ed25519_secret x = SecureMemoryHandle.mk (ed25519_keypair seed) ->
  GroupSession.add_member kp e w x = (Ok (c, wb), x') -> exists out t, committed x (OpAdd kp w) e seed c out t x'.
Proof.
  intros Hk H. unfold GroupSession.add_member in H. apply sbind_Ok in H. destruct H as ([] & s0 & Hg & H).
  apply slift_inv in Hg. destruct Hg as [_ ->]. apply sbind_Ok in H. destruct H as ([] & s1 & Hn & H).
  apply no_reinit_inv in Hn. destruct Hn as [Hn ->]. apply sbind_Ok in H. destruct H as (sk & s1 & Hs & H).
  apply (read_key_inv _ _ _ seed Hk) in Hs. destruct Hs as [-> ->]. apply sbind_Ok in H. destruct H as (out & s1 & Hc & H).
  apply commit_own_inv in Hc. destruct Hc as (t & Hc & ->). inv_stm.
  match goal with E : GroupSession.refresh_external _ = (Ok _, _) |- _ => apply refresh_inv in E; destruct E as (a' & b & _ & ->) end.
  exists out, t. split; [exact Hn|]. split; [exact Hc|]. split; [reflexivity|]. constructor; reflexivity.
Qed.

(** ** Commits of other members *)

Lemma external_keypairs_ok init : len init = INIT_SECRET_BYTES -> exists a b c d, derive_external_keypairs init = Ok (a, b, c, d).
Proof.
  intros Hi. unfold derive_external_keypairs, crypto_err.
  rewrite !expand_ok by (first [exact Hi|vm_compute; split; congruence]). cbn [rbind].
  assert (Hc : len (clamp (hkdf_expand init GROUP_EXTERNAL_PUB_X25519_INFO X25519_PRIVATE_KEY_BYTES)) = X25519_PRIVATE_KEY_BYTES)
    by (rewrite len_clamp; now apply hkdf_expand_len).
  rewrite Hc, Z.eqb_refl. cbn [ensure rbind].
  rewrite SecureMemoryHandle.alloc_write_exact; [|unfold X25519_PRIVATE_KEY_BYTES, MAX_BUFFER_SIZE; lia|exact Hc].
  cbn [map_err rbind]. rewrite kyber_from_seed by (now apply hkdf_expand_len). cbn [map_err rbind]. destruct (kyber_pair _). eauto 6.
Qed.

Lemma refresh_ok x : len (GroupSessionInner.init_secret x) = INIT_SECRET_BYTES ->
  exists a b, GroupSession.refresh_external x =
    (Ok tt, GroupSessionInner.set_external_kyber_public b (GroupSessionInner.set_external_x25519_public a x)).
Proof.
  intros Hi. destruct (external_keypairs_ok _ Hi) as (p1 & p2 & p3 & p4 & Hd). exists p2, p4.
  unfold GroupSession.refresh_external, sbind, sgets. rewrite Hd. reflexivity.
Qed.

Lemma notify_group_calls ev x : exists h, notify_group ev x = GroupSessionInner.set_handler_calls h x.
Proof. unfold notify_group. destruct (GroupSessionInner.event_handler x); [eauto|]. exists (GroupSessionInner.handler_calls x). now destruct x. Qed.

Lemma set_calls_twice h h' x : GroupSessionInner.set_handler_calls h (GroupSessionInner.set_handler_calls h' x) = GroupSessionInner.set_handler_calls h x.
Proof. reflexivity. Qed.

(** Notifying the handler changes nothing else. *)
Lemma notify_commit_calls c x : exists h, GroupSession.notify_commit c x = GroupSessionInner.set_handler_calls h x.
Proof.
  unfold GroupSession.notify_commit.
  assert (G : forall ps y, exists h, fold_left GroupSession.notify_proposal ps y = GroupSessionInner.set_handler_calls h y).
  { induction ps as [|p ps IH]; intros y; cbn [fold_left]; [exists (GroupSessionInner.handler_calls y); now destruct y|].
    destruct (IH (GroupSession.notify_proposal y p)) as [h ->]. unfold GroupSession.notify_proposal.
    destruct (GroupProposal.proposal p) as [[add|rm|up|ei|psk|re]|]; try (now exists h).
    - destruct (GroupAddProposal.key_package add); [|now exists h].
      match goal with |- context [notify_group ?ev y] => destruct (notify_group_calls ev y) as [h' ->] end. now exists h.
    - match goal with |- context [notify_group ?ev y] => destruct (notify_group_calls ev y) as [h' ->] end. now exists h. }
  destruct (G (GroupCommit.proposals c) x) as [h ->].
  match goal with |- context [notify_group ?ev ?y] => destruct (notify_group_calls ev y) as [h' ->] end.
  destruct (GroupSession.reinit_of _ None) as [r|]; [|now exists h'].
  match goal with |- context [notify_group ?ev ?y] => destruct (notify_group_calls ev y) as [h'' ->] end. now exists h''.
Qed.

(** The state in which an accepted commit leaves a session. *)
Lemma process_commit_advances x bs commit out t : (len bs <= MAX_GROUP_MESSAGE_SIZE) -> decode bs = Some commit ->
  GroupSessionInner.pending_reinit x = None ->
  RatchetTree.try_clone (GroupSessionInner.tree x) = Ok (GroupSessionInner.tree x) -> co_commit out = commit ->
  len (EpochKeys.init_secret (co_epoch_keys out)) = INIT_SECRET_BYTES ->
  Commit.process_commit commit (GroupSessionInner.my_leaf_idx x) (GroupSessionInner.init_secret x) (GroupSessionInner.group_id x)
    (GroupSessionInner.epoch x) (GroupSessionInner.psk_resolver x) (GroupSessionInner.security_policy x)
    (GroupSessionInner.tree x) = (Ok (accepted out), t) ->
  exists x', GroupSession.process_commit bs x = (Ok tt, x') /\ advanced x out (GroupCommit.proposals commit) t x'.
Proof.
  intros Hsz Hdec Hpend Hclone Hout Hinit Hrun. unfold GroupSession.process_commit.
  destruct (Z.ltb_spec MAX_GROUP_MESSAGE_SIZE (len bs)); [lia|]. unfold sguard, slift at 1 2. cbn [negb ensure].
  unfold sbind at 1. unfold sbind at 1. rewrite Hdec. cbn [ok_or]. unfold sbind at 1, sgets at 1.
  unfold ensure_no_pending_reinit. rewrite Hpend. cbn [is_some negb ensure rbind].
  unfold sbind at 1, sgets at 1. rewrite Hclone. unfold sbind at 1, sgets at 1. rewrite Hrun. cbn [rbind].
  unfold smod at 1 2 3 4 5. unfold sbind at 1 2 3 4 5 6.
  match goal with |- context [GroupSession.refresh_external ?y] => destruct (refresh_ok y) as (a & b & ->); [exact Hinit|] end.
  unfold smod. match goal with |- context [GroupSession.notify_commit commit ?y] => destruct (notify_commit_calls commit y) as [h Hh] end.
  eexists. split; [reflexivity|]. rewrite Hh. constructor; try reflexivity; cbn; congruence.
Qed.

(** The next init secret has its size. *)
Lemma sub_keys_init secret b k : derive_sub_keys_from_epoch_secret_ex secret b = Ok k -> len (EpochKeys.init_secret k) = INIT_SECRET_BYTES.
Proof.
  intros H. unfold derive_sub_keys_from_epoch_secret_ex in H. do 4 (apply rbind_Ok in H; destruct H as (? & ? & H)).
  apply Ok_inj in H. subst k. cbn [EpochKeys.init_secret].
  match goal with E : derive_sub_key secret GROUP_INIT_SECRET_INFO _ b = Ok _ |- _ => unfold derive_sub_key, expand in E; destruct b end;
    inv_ok; now apply hkdf_expand_len.
Qed.

Lemma psk_init psk ps : forall acc acc', foldR (psk_step psk) ps acc = Ok acc' ->
  EpochKeys.init_secret (fst acc') = EpochKeys.init_secret (fst acc).
Proof.
  induction ps as [|p ps IH]; intros acc acc' H; cbn [foldR] in H; [now apply Ok_inj in H; subst|].
  apply rbind_Ok in H. destruct H as (acc1 & H1 & H). rewrite (IH _ _ H). unfold psk_step in H1.
  destruct (GroupProposal.proposal p) as [[]|]; try (now apply Ok_inj in H1; subst). inv_ok. reflexivity.
Qed.

Lemma keys_init init secret ctx enhanced ps psk keys0 keys : derive_epoch_keys init secret ctx enhanced = Ok keys0 ->
  apply_psk_proposals keys0 ps psk enhanced = Ok keys -> len (EpochKeys.init_secret keys) = INIT_SECRET_BYTES.
Proof.
  intros Hk0 Hk. unfold derive_epoch_keys in Hk0. apply rbind_Ok in Hk0. destruct Hk0 as (es & _ & Hk0).
  apply sub_keys_init in Hk0. unfold apply_psk_proposals in Hk. apply rbind_Ok in Hk. destruct Hk as ([k f] & Hf & Hk).
  apply psk_init in Hf. cbn [fst] in Hf. destruct f; [exact (sub_keys_init _ _ _ Hk)|]. apply Ok_inj in Hk. subst k. congruence.
Qed.

Lemma commit_init x ps sk e t out t' : session_commit x ps sk e t = (Ok out, t') ->
  len (EpochKeys.init_secret (co_epoch_keys out)) = INIT_SECRET_BYTES.
Proof.
  intros H. destruct (create_commit_inv _ _ _ _ _ _ _ _ _ _ _ _ H)
    as (t1 & added & p & secret & th & ne & keys0 & keys & mac & store & sg & _ & _ & _ & _ & _ & Hk0 & Hk & _ & _ & _ & ->).
  exact (keys_init _ _ _ _ _ _ _ _ Hk0 Hk).
Qed.

Lemma commit_store x ps sk e t out t' : session_commit x ps sk e t = (Ok out, t') ->
  store_ok (sender_base (EpochKeys.epoch_secret (co_epoch_keys out)) (co_group_context_hash out)) (session_enhanced x)
    (co_new_sender_store out).
Proof.
  intros H. destruct (create_commit_inv _ _ _ _ _ _ _ _ _ _ _ _ H)
    as (t1 & added & p & secret & th & ne & keys0 & keys & mac & store & sg & _ & _ & _ & _ & _ & _ & _ & _ & Hs & _ & ->).
  exact (proj1 (new_epoch_ok _ _ _ _ _ _ _ Hs)).
Qed.

(** ** One commit, from session to session *)

Context {wfC : GroupCommit.t -> Prop} {CCL : ProstLaws GroupCommit.t wfC}.

(** A commit that can be sent: it has a wire form and the wire form is not too
    large for its receivers. *)
Definition sendable (c : GroupCommit.t) : Prop := wfC c /\ len (encode c) <= MAX_GROUP_MESSAGE_SIZE.

Definition op_u32 (op : CommitOp) : Prop := match op with OpRemove leaf => 0 <= leaf | _ => True end.

Lemma op_proposals_u32 op : op_u32 op -> Forall proposal_u32 (op_proposals op).
Proof. destruct op; repeat constructor. assumption. Qed.

Lemma op_no_external op : existsb is_external_init (op_proposals op) = false.
Proof. now destruct op. Qed.

(** Shared public trees have the same members. *)
Lemma shared_leaf a b i : shared a = shared b ->
  get_leaf_data (GroupSessionInner.tree a) i = get_leaf_data (GroupSessionInner.tree b) i.
Proof. intros H. apply (f_equal sh_tree) in H. cbn in H. unfold get_leaf_data. now rewrite (public_leaves _ _ H). Qed.

Lemma commit_delivered a b sa sb op e c out t a' : member a sa -> member b sb -> shared a = shared b ->
  GroupSessionInner.my_leaf_idx a <> GroupSessionInner.my_leaf_idx b ->
  committed a op e sa c out t a' -> op_u32 op -> stays (GroupSessionInner.my_leaf_idx b) (op_proposals op) ->
  entropy_ok e -> commit_path_sound out -> sendable (co_commit out) ->
  exists b', GroupSession.process_commit c b = (Ok tt, b') /\ shared b' = shared a' /\ member b' sb /\
    GroupSessionInner.my_leaf_idx b' = GroupSessionInner.my_leaf_idx b.
Proof.
  intros Ma Mb Hsh Hne (Hpend & Hc & -> & Ad) Hop Hstay He Hsound [Hwf Hsz].
  pose proof (f_equal sh_tree Hsh) as Hpub. cbn in Hpub. pose proof (mb_committer _ _ Mb) as [Wb Hb0 (db & Hdb & Hidb & Hvalb)].
  assert (Hdba : get_leaf_data (GroupSessionInner.tree a) (GroupSessionInner.my_leaf_idx b) = Some db) by (now rewrite (shared_leaf a b _ Hsh)).
  pose proof (op_proposals_u32 op Hop) as Hu.
  destruct (commit_step (GroupSessionInner.tree a) (GroupSessionInner.tree b) (GroupSessionInner.my_leaf_idx a) (GroupSessionInner.my_leaf_idx b)
    sa db (op_proposals op) (GroupSessionInner.init_secret a) (GroupSessionInner.group_id a) (GroupSessionInner.epoch a)
    (GroupSessionInner.psk_resolver a) (GroupSessionInner.security_policy a) e out t (mb_committer _ _ Ma) Hpub Hb0 Hne Hdba (mb_holds _ _ Mb)
    Hu (op_no_external op) Hstay He Hc Hsound) as (tm & Hrun & Hp' & Hhb & Hha & Wt & Hdt & Hcom).
  assert (Hsame : GroupSessionInner.init_secret a = GroupSessionInner.init_secret b /\ GroupSessionInner.group_id a = GroupSessionInner.group_id b /\
    GroupSessionInner.epoch a = GroupSessionInner.epoch b /\ GroupSessionInner.psk_resolver a = GroupSessionInner.psk_resolver b /\
    GroupSessionInner.security_policy a = GroupSessionInner.security_policy b /\
    GroupSessionInner.pending_reinit b = None).
  { pose proof (f_equal sh_group_id Hsh). pose proof (f_equal sh_epoch Hsh). pose proof (f_equal sh_epoch_keys Hsh).
    pose proof (f_equal sh_psk_resolver Hsh). pose proof (f_equal sh_policy Hsh). pose proof (f_equal sh_pending_reinit Hsh).
    rewrite (mb_init _ _ Ma), (mb_init _ _ Mb). cbn in *. conjs; congruence. }
  destruct Hsame as (E1 & E2 & E3 & E4 & E5 & E6). rewrite E1, E2, E3, E4, E5 in Hrun.
  destruct (process_commit_advances b (encode (co_commit out)) (co_commit out) out tm Hsz (decode_encode _ Hwf) E6 (clonable_clone _ (mb_clone _ _ Mb))
    eq_refl (commit_init _ _ _ _ _ _ _ Hc) Hrun) as (b' & Hproc & Adb).
  rewrite (session_commit_proposals _ _ _ _ _ _ _ Hc) in Adb.
  exists b'. split; [exact Hproc|]. split; [|split].
  - exact (advanced_shared _ _ _ _ _ _ _ _ Adb Ad (eq_sym Hsh) Hp').
  - apply (advanced_member b b' sb out (op_proposals op) tm Adb Mb).
    + constructor; [exact (wf_public _ _ (eq_sym Hp') Wt)|exact Hb0|]. exists db. split; [|auto].
      unfold get_leaf_data in *. now rewrite (public_leaves _ _ Hp').
    + apply (signed_public t tm (eq_sym Hp')).
      eapply (create_commit_own (op_proposals op)); [exact (mb_committer _ _ Ma)|exact (mb_signed _ _ Ma)|exact Hu|exact He|exact Hsound| |exact Hc].
      pose proof (leaf_range t _ _ Wt Hb0 Hdt). destruct Hcom as [_ Ha0 (d & Hd & _)]. pose proof (leaf_range t _ _ Wt Ha0 Hd). lia.
    + exact Hhb.
    + exact (kept_process_commit _ _ _ _ _ _ _ _ _ _ (mb_clone _ _ Mb) Hrun).
    + unfold session_enhanced. rewrite <- E5. exact (commit_store _ _ _ _ _ _ _ Hc).
  - exact (ad_leaf _ _ _ _ _ Adb).
Qed.

(** The committer is a member of the new epoch. *)
Lemma commit_own_member a sa op e c out t a' : member a sa -> committed a op e sa c out t a' -> op_u32 op -> entropy_ok e ->
  commit_path_sound out -> 1 < RatchetTree.leaf_count t -> member a' sa.
Proof.
  intros Ma (_ & Hc & _ & Ad) Hop He Hsound Hn.
  destruct (create_commit_own (op_proposals op) _ sa _ _ _ _ _ e _ out t (mb_committer _ _ Ma) (mb_signed _ _ Ma)
    (op_proposals_u32 op Hop) He Hsound Hn Hc) as (H1 & H2 & H3).
  apply (advanced_member a a' sa out (op_proposals op) t Ad Ma H1 H2 H3).
  - exact (kept_create_commit _ _ _ _ _ _ _ _ _ _ _ _ (mb_clone _ _ Ma) Hc).
  - exact (commit_store _ _ _ _ _ _ _ Hc).
Qed.

(** ** A commit is processed entirely or not at all *)

Lemma processed_inv commit m init gid epoch psk policy t pc t' :
  Commit.process_commit commit m init gid epoch psk policy t = (Ok pc, t') ->
  len (EpochKeys.init_secret (pc_epoch_keys pc)) = INIT_SECRET_BYTES /\ checked_add 64 epoch 1 = Some (GroupCommit.epoch commit) /\
  GroupCommit.group_id commit = gid.
Proof.
  intros H. unfold Commit.process_commit in H. apply sbind_Ok in H. destruct H as ([] & s0 & Hck & H).
  apply sgets_inv in Hck. destruct Hck as [Hck ->]. unfold check_commit in Hck. apply rbind_Ok in Hck. destruct Hck as (ne & Hne & Hck).
  apply ok_or_Ok in Hne. apply rbind_Ok in Hck. destruct Hck as ([] & He & Hck). apply ensure_Ok, Z.eqb_eq in He.
  apply rbind_Ok in Hck. destruct Hck as ([] & Hg & _). apply ensure_Ok, bytes_eqb_eq in Hg.
  inv_stm. cbn [pc_epoch_keys]. split; [|split; [congruence|reflexivity]]. eapply keys_init; eassumption.
Qed.

(** Either nothing happened, or the session entered the epoch of the commit. *)
Lemma process_commit_cases bs x r x' : GroupSession.process_commit bs x = (r, x') ->
  (exists e, r = Err e) /\ x' = x \/
  r = Ok tt /\ exists commit out t, decode bs = Some commit /\ co_commit out = commit /\
    checked_add 64 (GroupSessionInner.epoch x) 1 = Some (GroupCommit.epoch commit) /\ advanced x out (GroupCommit.proposals commit) t x'.
Proof.
  intros H. pose proof H as Hrun. unfold GroupSession.process_commit in H. unfold sguard in H. unfold slift at 1 in H. unfold sbind at 1 in H.
  destruct (ensure _ _) as [[]|] eqn:E1; [|apply pair_inj in H as [<- <-]; left; eauto].
  unfold slift, sbind at 1 in H. destruct (ok_or (decode bs) _) as [commit|] eqn:E2; [|apply pair_inj in H as [<- <-]; left; eauto].
  unfold sbind at 1, sgets at 1 in H. destruct (ensure_no_pending_reinit x _) as [[]|] eqn:E3; [|apply pair_inj in H as [<- <-]; left; eauto].
  unfold sbind at 1, sgets at 1 in H. destruct (RatchetTree.try_clone _) as [t|] eqn:E4; [|apply pair_inj in H as [<- <-]; left; eauto].
  unfold sbind at 1, sgets at 1 in H.
  destruct (Commit.process_commit _ _ _ _ _ _ _ t) as [[pc|] t'] eqn:Hp; cbn [rbind] in H; [|apply pair_inj in H as [<- <-]; left; eauto].
  clear H. pose proof (clone_same _ _ E4) as ->. pose proof (processed_inv _ _ _ _ _ _ _ _ _ _ Hp) as (Hinit & Hep & Hgid).
  apply ensure_Ok, negb_true_iff, Z.ltb_ge in E1. apply ok_or_Ok in E2.
  assert (E3' : GroupSessionInner.pending_reinit x = None)
    by (unfold ensure_no_pending_reinit in E3; destruct (GroupSessionInner.pending_reinit x); [discriminate|reflexivity]).
  set (out := mkCommitOutput commit (pc_epoch_keys pc) (pc_new_sender_store pc) (pc_added_leaf_indices pc) (pc_group_context_hash pc) []).
  assert (Hacc : accepted out = pc) by (now destruct pc). rewrite <- Hacc in Hp.
  destruct (process_commit_advances x bs commit out t' E1 E2 E3' E4 eq_refl Hinit Hp) as (x1 & Hx1 & A).
  rewrite Hx1 in Hrun. apply pair_inj in Hrun as [<- <-].
  right. split; [reflexivity|]. exists commit, out, t'. auto.
Qed.

(** C19. [GroupSession::process_commit] is atomic.  When it returns an error the
    session is exactly what it was; when it returns [Ok] the epoch has advanced
    by one, the replay windows of the old epoch are gone and the init secret is
    that of the new epoch keys. *)
Theorem process_commit_atomic bs x r x' : GroupSession.process_commit bs x = (r, x') ->
  match r with
  | Err _ => x' = x
  | Ok _ => GroupSessionInner.epoch x' = GroupSessionInner.epoch x + 1 /\ GroupSessionInner.replay_windows x' = BTreeMap.empty /\
      GroupSessionInner.init_secret x' = EpochKeys.init_secret (GroupSessionInner.epoch_keys x') /\
      GroupSessionInner.group_id x' = GroupSessionInner.group_id x /\ GroupSessionInner.my_leaf_idx x' = GroupSessionInner.my_leaf_idx x
  end.
Proof.
  intros H. destruct (process_commit_cases bs x r x' H) as [[[e ->] ->]|(-> & commit & out & t & _ & Hc & Hep & A)]; [reflexivity|].
  split; [|split; [exact (ad_windows _ _ _ _ _ A)|split; [|split; [exact (ad_group_id _ _ _ _ _ A)|exact (ad_leaf _ _ _ _ _ A)]]]].
  - rewrite (ad_epoch _ _ _ _ _ A), Hc. unfold checked_add in Hep. destruct (_ <? _); [|discriminate]. symmetry. now apply Some_inj in Hep.
  - now rewrite (ad_init _ _ _ _ _ A), (ad_keys _ _ _ _ _ A).
Qed.

End Sync.
