(* ===== verification/GroupMessageSync.v ===== *)
(** * Messages between the members of a group

    A message composed by one member and received by another of the same epoch:
    the receiver reads what the sender wrote, once.  Delivery may be late, out of
    order or missing; what is needed of the receiver is that its sender store
    still serves the key and that its replay window is not past the message. *)

From Stdlib Require Import ZArith List Bool Lia String.
From S2P Require Import Prelude Constants BTree SecureMemory Crypto Signatures Padding ReplayWindow TreeIndex.
From S2P Require Import Proto GroupProto KeySchedule SenderKeys SenderRun KeyPackage RatchetTree TreeKem TreeFacts TreeTypes.
From S2P Require Import TreeUpdates Commit CommitSync Welcome GroupReplay GroupContent GroupSessions GroupMessages GroupSync.
Import ListNotations.
Open Scope string_scope.
Open Scope list_scope.
Open Scope Z_scope.

(** What the result of a decryption says of the message that was sent. *)
Record delivers `{Primitives} (content : bytes) (policy : MessagePolicy) (actual : option bytes) (now leaf g : Z)
    (res : GroupDecryptResult.t) : Prop := {
  dv_content : GroupDecryptResult.plaintext res = content;
  dv_leaf : GroupDecryptResult.sender_leaf_index res = leaf;
  dv_generation : GroupDecryptResult.generation res = g;
  dv_type : GroupDecryptResult.content_type res = MessagePolicy.content_type policy;
  dv_ttl : GroupDecryptResult.ttl_seconds res = MessagePolicy.ttl_seconds policy;
  dv_sent : GroupDecryptResult.sent_timestamp res = now;
  dv_reference : GroupDecryptResult.referenced_message_id res = MessagePolicy.referenced_message_id policy;
  dv_mentions : GroupDecryptResult.mentions res = MessagePolicy.mentions policy;
  dv_reply : GroupDecryptResult.reply_context res = MessagePolicy.reply_context policy;
  dv_sealed : ContentType.is_sealed (MessagePolicy.content_type policy) = true ->
    exists sp pt, GroupDecryptResult.sealed_payload res = Some sp /\ actual = Some pt /\ GroupMessaging.reveal_sealed sp = Ok pt;
  dv_franking : MessagePolicy.frankable policy = true ->
    exists fd, GroupDecryptResult.franking_data res = Some fd /\ GroupMessaging.verify_franking fd = Ok true }.

Section Messages.
Context {P : Primitives} {L : PrimitiveLaws P} {SG : Signatures} {SL : SignatureLaws SG}.
Context {CC : Prost GroupCommit.t} {CP : Prost GroupSecurityPolicyProto.t} {CE : Prost GroupExternalJoinAuthorization.t}.
Context {CT : Prost GroupPlaintext.t} {CD : Prost GroupSenderData.t} {CM : Prost GroupMessage.t}.
Context {wfT : GroupPlaintext.t -> Prop} {CTL : ProstLaws GroupPlaintext.t wfT}.
Context {wfD : GroupSenderData.t -> Prop} {CDL : ProstLaws GroupSenderData.t wfD}.
Context {wfM : GroupMessage.t -> Prop} {CML : ProstLaws GroupMessage.t wfM}.

(** ** Plaintexts *)

Lemma const_equals_refl b : constant_time_equals b b = Ok true.
Proof. unfold constant_time_equals. now rewrite Z.eqb_refl, bytes_eqb_refl. Qed.

(** The seal of a plaintext: key, ciphertext and nonce. *)
Definition sealed_as (policy : MessagePolicy) (actual : option bytes) (seal sk sc sn : bytes) : Prop :=
  if ContentType.is_sealed (MessagePolicy.content_type policy)
  then sk = seal /\ exists pt, actual = Some pt /\ aes_encrypt seal sn pt SEALED_AAD_SUFFIX = Ok sc
  else sk = [] /\ sc = [] /\ sn = [].

Definition franked_as (policy : MessagePolicy) (e : MessageEntropy) (content sk sc sn fk tag : bytes) : Prop :=
  if MessagePolicy.frankable policy
  then fk = me_franking_key e /\
       tag = hmac_sha256 fk (GroupMessaging.build_franking_input (ContentType.to_u32 (MessagePolicy.content_type policy)) content sc sn sk)
  else fk = [] /\ tag = [].

Lemma build_inv content policy key actual clock e gpt tag seal :
  GroupMessaging.build_group_plaintext content policy key actual clock e = Ok (gpt, tag) ->
  GroupMessaging.expand_seal_key key = Ok seal ->
  exists now sk sc sn fk, clock = Some now /\ sealed_as policy actual seal sk sc sn /\ franked_as policy e content sk sc sn fk tag /\
    gpt = GroupPlaintext.mk content (Some (GroupMessagePolicy.mk (ContentType.to_u32 (MessagePolicy.content_type policy))
            (MessagePolicy.ttl_seconds policy) now)) fk sc sn [] (MessagePolicy.referenced_message_id policy)
            (MessagePolicy.proto_mentions policy) (MessagePolicy.proto_reply policy).
Proof.
  intros H Hs. unfold GroupMessaging.build_group_plaintext in H. apply rbind_Ok in H. destruct H as (now & Hn & H).
  apply ok_or_Ok in Hn. apply rbind_Ok in H. destruct H as ([[sk sc] sn] & Hseal & H). exists now, sk, sc, sn.
  assert (Hse : sealed_as policy actual seal sk sc sn).
  { unfold sealed_as. destruct (ContentType.is_sealed _).
    - apply rbind_Ok in Hseal. destruct Hseal as (pt & Hpt & Hseal). apply ok_or_Ok in Hpt. rewrite Hs in Hseal. cbn [rbind] in Hseal.
      apply rbind_Ok in Hseal. destruct Hseal as (c & Hc & Hseal). apply Ok_inj in Hseal. injection Hseal as <- <- <-. eauto.
    - apply Ok_inj in Hseal. injection Hseal as <- <- <-. auto. }
  unfold franked_as. destruct (MessagePolicy.frankable policy); apply Ok_inj in H; injection H as <- <-; eexists; eauto.
Qed.

(** The seal passes the checks of the receiver and opens to the plaintext. *)
Lemma sealed_checks policy actual seal sk sc sn : sealed_as policy actual seal sk sc sn ->
  GroupMessaging.validate_sealed_payload_fields (MessagePolicy.content_type policy) sc sn = Ok tt /\
  sk = (if ContentType.is_sealed (MessagePolicy.content_type policy) then seal else []) /\
  (ContentType.is_sealed (MessagePolicy.content_type policy) = true -> (len sc =? 0) = false /\
    exists pt, actual = Some pt /\ forall hint, GroupMessaging.reveal_sealed (SealedPayload.mk hint sc sn seal) = Ok pt).
Proof.
  unfold sealed_as, GroupMessaging.validate_sealed_payload_fields. destruct (ContentType.is_sealed _); [|intros (-> & _); auto; split; [reflexivity|easy]].
  intros (-> & pt & -> & He). pose proof (aes_roundtrip _ _ _ _ _ He) as Hd. apply aes_encrypt_inv in He. destruct He as (_ & Hn & He).
  pose proof (siv_encrypt_len _ _ _ _ _ He) as Hl. pose proof (len_nonneg pt). change AES_GCM_TAG_BYTES with 16 in *. cbn [negb].
  rewrite Hn, Z.eqb_refl. destruct (Z.ltb_spec (len sc) 16); [lia|]. split; [reflexivity|]. split; [reflexivity|]. intros _.
  split; [apply Z.eqb_neq; lia|]. exists pt. auto.
Qed.

Lemma hmac_nonempty k m : (len (hmac_sha256 k m) =? 0) = false.
Proof. rewrite hmac_sha256_len. reflexivity. Qed.

(** The franking tag passes the check of the receiver and can be verified later. *)
Lemma franked_checks policy e content sk sc sn fk tag gpt seal mandatory : franked_as policy e content sk sc sn fk tag ->
  sk = (if ContentType.is_sealed (MessagePolicy.content_type policy) then seal else []) ->
  GroupPlaintext.content gpt = content -> GroupPlaintext.franking_key gpt = fk -> GroupPlaintext.sealed_content gpt = sc ->
  GroupPlaintext.sealed_nonce gpt = sn -> 0 < len (me_franking_key e) -> (mandatory = true -> MessagePolicy.frankable policy = true) ->
  exists fd, GroupMessaging.check_franking gpt (MessagePolicy.content_type policy) seal tag mandatory = Ok fd /\
    (MessagePolicy.frankable policy = true -> exists d, fd = Some d /\ GroupMessaging.verify_franking d = Ok true).
Proof.
  intros Hf Hsk E1 E2 E3 E4 Hk Hm. unfold franked_as in Hf. unfold GroupMessaging.check_franking. rewrite E1, E2, E3, E4, <- Hsk. cbv zeta.
  destruct (MessagePolicy.frankable policy).
  - destruct Hf as [-> ->]. rewrite hmac_nonempty. destruct (Z.eqb_spec (len (me_franking_key e)) 0); [lia|].
    rewrite andb_false_r. cbn [negb andb]. rewrite const_equals_refl. cbn. eexists. split; [reflexivity|]. intros _. eexists. split; [reflexivity|].
    unfold GroupMessaging.verify_franking. cbn [FrankingData.franking_key FrankingData.content_type FrankingData.content
      FrankingData.sealed_content FrankingData.sealed_nonce FrankingData.seal_key FrankingData.franking_tag].
    now rewrite const_equals_refl.
  - destruct Hf as [-> ->]. destruct mandatory; [specialize (Hm eq_refl); discriminate|]. cbn. eexists. split; [reflexivity|]. easy.
Qed.

(** A plaintext as built parses to what went in. *)
Lemma built_parses content policy key actual clock e gpt tag hash seal mandatory clock' now :
  GroupMessaging.build_group_plaintext content policy key actual clock e = Ok (gpt, tag) -> clock = Some now ->
  GroupMessaging.expand_seal_key key = Ok seal ->
  ContentType.validate_ttl (MessagePolicy.content_type policy) (MessagePolicy.ttl_seconds policy) = Ok tt ->
  GroupMessaging.check_referenced policy = Ok tt ->
  GroupMessaging.check_lifetime (MessagePolicy.content_type policy) (MessagePolicy.ttl_seconds policy) now clock' = Ok tt ->
  0 < len (me_franking_key e) -> (mandatory = true -> MessagePolicy.frankable policy = true) ->
  exists pp, GroupMessaging.parse_group_plaintext (GroupPlaintext.set_prev_message_hash hash gpt) seal tag mandatory clock' = Ok pp /\
    GroupMessaging.pp_content pp = content /\ GroupMessaging.pp_content_type pp = MessagePolicy.content_type policy /\
    GroupMessaging.pp_ttl_seconds pp = MessagePolicy.ttl_seconds policy /\ GroupMessaging.pp_sent_timestamp pp = now /\
    GroupMessaging.pp_referenced_message_id pp = MessagePolicy.referenced_message_id policy /\
    (ContentType.is_sealed (MessagePolicy.content_type policy) = true ->
      exists sp pt, GroupMessaging.pp_sealed_payload pp = Some sp /\ actual = Some pt /\ GroupMessaging.reveal_sealed sp = Ok pt) /\
    (MessagePolicy.frankable policy = true ->
      exists fd, GroupMessaging.pp_franking_data pp = Some fd /\ GroupMessaging.verify_franking fd = Ok true).
Proof.
  intros Hb -> Hs Httl Href Hlife Hk Hm. destruct (build_inv _ _ _ _ _ _ _ _ _ Hb Hs) as (now' & sk & sc & sn & fk & Hnow & Hse & Hf & ->).
  apply Some_inj in Hnow. subst now'. destruct (sealed_checks _ _ _ _ _ _ Hse) as (Hv & Hsk & Hopen).
  set (gpt := GroupPlaintext.set_prev_message_hash hash _).
  destruct (franked_checks policy e content sk sc sn fk tag gpt seal mandatory Hf Hsk eq_refl eq_refl eq_refl eq_refl Hk Hm) as (fd & Hfd & Hver).
  unfold GroupMessaging.parse_group_plaintext. change (GroupMessaging.policy_field GroupMessagePolicy.content_type gpt) with
    (ContentType.to_u32 (MessagePolicy.content_type policy)).
  change (GroupMessaging.policy_field GroupMessagePolicy.ttl_seconds gpt) with (MessagePolicy.ttl_seconds policy).
  change (GroupMessaging.policy_field GroupMessagePolicy.sent_timestamp gpt) with now.
  change (GroupPlaintext.sealed_content gpt) with sc. change (GroupPlaintext.sealed_nonce gpt) with sn.
  change (GroupPlaintext.referenced_message_id gpt) with (MessagePolicy.referenced_message_id policy).
  change (GroupPlaintext.content gpt) with content.
  rewrite ContentType.wire_roundtrip. cbn [rbind]. rewrite Hv. cbn [rbind]. rewrite Httl. cbn [rbind]. rewrite Hlife. cbn [rbind]. cbv zeta.
  rewrite Hfd. cbn [rbind].
  assert (Hr : negb ((ContentType.is_edit (MessagePolicy.content_type policy) || ContentType.is_delete (MessagePolicy.content_type policy)) &&
    negb (len (MessagePolicy.referenced_message_id policy) =? MESSAGE_ID_BYTES)) = true).
  { unfold GroupMessaging.check_referenced in Href. destruct (_ || _); [|reflexivity]. apply rbind_Ok in Href. destruct Href as ([] & Href & _). apply ensure_Ok in Href. now rewrite Href. }
  rewrite Hr. cbn [rbind]. eexists. split; [reflexivity|]. cbn. conjs; auto.
  intros Hsealed. destruct (Hopen Hsealed) as [Hne (pt & Hpt & Hrev)]. rewrite Hsealed, Hne. cbn [andb negb]. eauto.
Qed.

(** ** What sending and receiving change *)

(** The part of a session no message touches. *)
Definition core (x : GroupSessionInner) :=
  (shared x, GroupSessionInner.tree x, GroupSessionInner.my_leaf_idx x, GroupSessionInner.init_secret x,
   GroupSessionInner.my_ed25519_secret x).

Definition keys_ok (x : GroupSessionInner) : Prop :=
  store_ok (session_base x) (session_enhanced x) (GroupSessionInner.sender_store x) /\ windows_ok x.

(** [x'] is [x] after some keys were spent. *)
Definition later (x x' : GroupSessionInner) : Prop :=
  core x' = core x /\ keys_ok x' /\
  forall l g, spent (GroupSessionInner.sender_store x) l g -> spent (GroupSessionInner.sender_store x') l g.

Lemma later_refl x : keys_ok x -> later x x.
Proof. now split. Qed.

Lemma later_trans x y z : later x y -> later y z -> later x z.
Proof. intros (H1 & H2 & H3) (H4 & H5 & H6). split; [congruence|]. auto. Qed.

Lemma core_base x x' : core x' = core x -> session_base x' = session_base x /\ session_enhanced x' = session_enhanced x.
Proof.
  intros H. pose proof (f_equal (fun c => fst (fst (fst (fst c)))) H) as Hs. cbn in Hs. unfold session_base, session_enhanced.
  pose proof (f_equal sh_epoch_keys Hs). pose proof (f_equal sh_context_hash Hs). pose proof (f_equal sh_policy Hs). cbn in *.
  split; congruence.
Qed.

(** A store that handed out a key leaves the windows right. *)
Lemma later_store x l g k st : keys_ok x ->
  hands_out (session_base x) (session_enhanced x) (GroupSessionInner.sender_store x) l g k st ->
  later x (GroupSessionInner.set_sender_store st x).
Proof.
  intros [_ Hw] (_ & Hst & _ & _ & Hmono & _). split; [reflexivity|]. split; [|exact Hmono]. split; [exact Hst|].
  intros leaf w H. destruct (Hw leaf w H) as (seen & Hr & Hsp). exists seen. split; [exact Hr|].
  eapply Forall_impl; [|exact Hsp]. intros a Ha. now apply Hmono.
Qed.

(** A window that marks a spent generation, or a new one. *)
Lemma later_window x leaf w seen : keys_ok x -> WindowFacts.refines w seen ->
  Forall (spent (GroupSessionInner.sender_store x) leaf) seen ->
  later x (GroupSessionInner.set_replay_windows (BTreeMap.insert (GroupSessionInner.replay_windows x) leaf w) x).
Proof.
  intros [Hs Hw] Hr Hf. split; [reflexivity|]. split; [|auto]. split; [exact Hs|]. intros l w' H.
  change (BTreeMap.get (BTreeMap.insert (GroupSessionInner.replay_windows x) leaf w) l = Some w') in H.
  destruct (Z.eq_dec leaf l) as [<-|Hl].
  - rewrite BTreeMap.get_insert_eq in H. apply Some_inj in H. subst w'. exists seen. auto.
  - rewrite BTreeMap.get_insert_neq in H by exact Hl. exact (Hw l w' H).
Qed.

Lemma window_entry_later leaf x r x' : keys_ok x -> GroupMessaging.window_entry leaf x = (r, x') ->
  later x x' /\ GroupSessionInner.sender_store x' = GroupSessionInner.sender_store x /\
  exists w, r = Ok w /\ BTreeMap.get (GroupSessionInner.replay_windows x') leaf = Some w /\
    w = match BTreeMap.get (GroupSessionInner.replay_windows x) leaf with Some w => w | None => SenderReplayWindow.default end.
Proof.
  intros Hk H. unfold GroupMessaging.window_entry, sbind at 1, sget at 1 in H.
  destruct (BTreeMap.get (GroupSessionInner.replay_windows x) leaf) as [w|] eqn:E.
  - apply sret_inv in H. destruct H as [-> ->]. split; [now apply later_refl|]. split; [reflexivity|]. eauto.
  - unfold sbind, smod, sret in H. apply pair_inj in H. destruct H as [<- <-].
    split; [exact (later_window x leaf _ [] Hk WindowFacts.default_refines (Forall_nil _))|]. split; [reflexivity|].
    eexists. split; [reflexivity|]. split; [apply BTreeMap.get_insert_eq|reflexivity].
Qed.

Lemma spent_nonneg s l g : spent s l g -> 0 <= g.
Proof. intros (_ & c & _ & Hg). lia. Qed.

Lemma mark_received_later leaf g x r x' : keys_ok x -> spent (GroupSessionInner.sender_store x) leaf g ->
  GroupMessaging.mark_received leaf g x = (r, x') ->
  r = Ok tt /\ later x x' /\ GroupSessionInner.sender_store x' = GroupSessionInner.sender_store x.
Proof.
  intros Hk Hsp H. unfold GroupMessaging.mark_received in H.
  destruct (GroupMessaging.window_entry leaf x) as [rw x1] eqn:E. pose proof E as E'. apply (window_entry_later leaf x rw x1 Hk) in E'.
  destruct E' as (Hl1 & Hst & w & -> & Hw & _). rewrite (sbind_run _ _ _ _ _ E) in H. unfold smod in H. apply pair_inj in H. destruct H as [<- <-].
  split; [reflexivity|]. split; [|exact Hst]. apply (later_trans x x1); [exact Hl1|]. destruct Hl1 as (_ & Hk1 & _).
  destruct (proj2 Hk1 leaf w Hw) as (seen & Hr & Hf). apply (later_window x1 leaf _ (g :: seen) Hk1).
  - apply WindowFacts.mark_seen_refines; [exact Hr|exact (spent_nonneg _ _ _ Hsp)].
  - constructor; [now rewrite Hst|exact Hf].
Qed.

(** ** Receiving anything *)

(** The outcome of a run, whatever it is. *)
Definition post {A} (c : GM A) (x : GroupSessionInner) (Q : PResult A -> GroupSessionInner -> Prop) : Prop :=
  forall r x', c x = (r, x') -> Q r x'.

Lemma post_read {A B} (f : GroupSessionInner -> PResult A) (k : A -> GM B) x Q : (forall e, Q (Err e) x) ->
  (forall a, f x = Ok a -> post (k a) x Q) -> post (sbind (sgets f) k) x Q.
Proof.
  intros He Hk r x' H. unfold sbind, sgets in H. destruct (f x) as [a|e] eqn:E; [exact (Hk a eq_refl r x' H)|].
  apply pair_inj in H. destruct H as [<- <-]. apply He.
Qed.

Lemma post_lift {A B} (v : PResult A) (k : A -> GM B) x Q : (forall e, Q (Err e) x) ->
  (forall a, v = Ok a -> post (k a) x Q) -> post (sbind (slift v) k) x Q.
Proof. exact (post_read (fun _ => v) k x Q). Qed.

Lemma post_get {A B} (f : GroupSessionInner -> A) (k : A -> GM B) x Q : post (k (f x)) x Q -> post (sbind (sget f) k) x Q.
Proof. intros Hk r x' H. exact (Hk r x' H). Qed.

Lemma post_bind {A B} (c : GM A) (k : A -> GM B) x (R : PResult A -> GroupSessionInner -> Prop) Q : post c x R ->
  (forall e y, R (Err e) y -> Q (Err e) y) -> (forall a y, R (Ok a) y -> post (k a) y Q) -> post (sbind c k) x Q.
Proof.
  intros Hc He Hk r x' H. unfold sbind in H. destruct (c x) as [[a|e] y] eqn:E; [exact (Hk a y (Hc _ _ E) r x' H)|].
  apply pair_inj in H. destruct H as [<- <-]. exact (He e y (Hc _ _ E)).
Qed.

Lemma get_key_later l g x : keys_ok x -> post (on_store (get_message_key l g)) x (fun r y => later x y /\
  forall k, r = Ok k -> k = message_at (session_enhanced x) (session_base x l) g /\
    ~ spent (GroupSessionInner.sender_store x) l g /\ spent (GroupSessionInner.sender_store y) l g).
Proof.
  intros Hk r y H. unfold on_store in H. destruct (get_message_key l g (GroupSessionInner.sender_store x)) as [r0 st] eqn:E.
  apply pair_inj in H. destruct H as [-> <-]. pose proof (get_message_key_effect _ _ _ _ _ _ _ (proj1 Hk) E) as He. destruct r as [k|e].
  - split; [exact (later_store x l g k st Hk He)|]. intros k' [= <-]. destruct He as (Hkey & _ & Hn & Hs & _). auto.
  - subst st. split; [|discriminate]. replace (GroupSessionInner.set_sender_store _ x) with x by (now destruct x). now apply later_refl.
Qed.

(** What receiving does: keys are only spent, and an accepted message spends a
    key that was not spent before. *)
Definition receives (x : GroupSessionInner) (r : PResult GroupDecryptResult.t) (y : GroupSessionInner) : Prop :=
  later x y /\ forall res, r = Ok res ->
    ~ spent (GroupSessionInner.sender_store x) (GroupDecryptResult.sender_leaf_index res) (GroupDecryptResult.generation res) /\
    spent (GroupSessionInner.sender_store y) (GroupDecryptResult.sender_leaf_index res) (GroupDecryptResult.generation res).

Lemma receives_err x e y : later x y -> receives x (Err e) y.
Proof. split; [assumption|discriminate]. Qed.

Ltac pure_step := first [apply post_read | apply post_lift]; [intros ?; now apply receives_err|let v := fresh "v" in let Ev := fresh "Ev" in intros v Ev].

Lemma decrypt_receives bs clock x : keys_ok x -> post (GroupMessaging.decrypt bs clock) x (receives x).
Proof.
  intros Hk. pose proof (later_refl x Hk) as Hl0. unfold GroupMessaging.decrypt, sguard. do 4 pure_step. destruct v2 as [app sd].
  set (leaf := GroupSenderData.sender_leaf_index sd). set (g := GroupSenderData.generation sd). cbv zeta.
  eapply post_bind; [intros r y Hy; exact (conj (window_entry_later leaf x r y Hk Hy) Hy)|..].
  { intros e y [(H & _) _]. now apply receives_err. }
  intros w x1 [(Hl1 & Hst1 & _) _]. pure_step.
  eapply post_bind; [exact (get_key_later leaf g x1 (proj1 (proj2 Hl1)))|..].
  { intros e y [H _]. apply receives_err. exact (later_trans _ _ _ Hl1 H). }
  intros key x2 [Hl2 Hkey]. destruct (Hkey key eq_refl) as (_ & Hfresh & Hspent). rewrite Hst1 in Hfresh.
  pose proof (later_trans _ _ _ Hl1 Hl2) as Hl. apply post_get. do 7 pure_step.
  eapply post_bind; [intros r y Hy; exact (mark_received_later leaf g x2 r y (proj1 (proj2 Hl2)) Hspent Hy)|..].
  { intros e y [H _]. discriminate H. }
  intros [] x3 (_ & Hl3 & Hst3) r x' H. apply sret_inv in H. destruct H as [-> ->].
  split; [exact (later_trans _ _ _ Hl Hl3)|]. intros res [= <-]. cbn [GroupDecryptResult.sender_leaf_index GroupDecryptResult.generation].
  now rewrite Hst3.
Qed.

(** ** Which messages can still be received *)

(** The store still serves generation [g] of leaf [l]. *)
Definition available (s : SenderKeyStore) (l g : Z) : Prop :=
  BTreeMap.get (SenderKeyStore.skipped_keys s) (l, g) <> None \/
  exists c, get_chain s l = Some c /\ SenderKeyChain.generation c <= g < SenderKeyChain.max_generation c /\
    g - SenderKeyChain.generation c <= SenderKeyChain.max_skipped_per_sender c.

Definition deliverable (x : GroupSessionInner) (l g : Z) : Prop :=
  available (GroupSessionInner.sender_store x) l g /\
  forall w, BTreeMap.get (GroupSessionInner.replay_windows x) l = Some w -> SenderReplayWindow.high_water w - g < 1024.

Lemma advance_to_ok b e g c : chain_ok b e c -> SenderKeyChain.generation c <= g < SenderKeyChain.max_generation c ->
  g - SenderKeyChain.generation c <= SenderKeyChain.max_skipped_per_sender c ->
  advance_to g c = (Ok (message_at e b g, skipped_range e b (SenderKeyChain.generation c) g), moved b (g + 1) c).
Proof.
  intros Hc Hg Hs. destruct (advance_to_eq b e g c Hc) as [[err H]|[_ H]]; [exfalso|exact H].
  unfold advance_to, sbind at 1, sget at 1 in H. unfold sguard, sbind at 1, slift at 1 in H.
  destruct (Z.ltb_spec g (SenderKeyChain.generation c)); [lia|]. cbn [negb ensure] in H. unfold sbind at 1, slift at 1 in H.
  destruct (Z.leb_spec (SenderKeyChain.max_generation c) g); [lia|]. cbn [negb ensure] in H. unfold sbind at 1, slift at 1 in H. cbv zeta in H.
  destruct (Z.leb_spec (g - SenderKeyChain.generation c) (SenderKeyChain.max_skipped_per_sender c)); [|lia]. cbn [ensure] in H.
  unfold sbind at 1 in H. rewrite (advance_loop_eq b e g (Z.to_nat (g - SenderKeyChain.generation c)) c Hc ltac:(lia) ltac:(lia)) in H.
  unfold sbind at 1 in H. rewrite (next_message_key_eq b e _ (moved_ok b e g c Hc ltac:(destruct Hc as (_ & Hc & _); lia))) in H.
  cbv zeta in H. change (SenderKeyChain.generation (moved b g c)) with g in H.
  change (SenderKeyChain.max_generation (moved b g c)) with (SenderKeyChain.max_generation c) in H.
  destruct (Z.ltb_spec g (SenderKeyChain.max_generation c)); [discriminate H|lia].
Qed.

Lemma available_key bases e s l g : store_ok bases e s -> available s l g ->
  exists st, get_message_key l g s = (Ok (message_at e (bases l) g), st).
Proof.
  intros Hs Ha. assert (exists k st, get_message_key l g s = (Ok k, st)) as (k & st & E).
  2:{ exists st. rewrite E. pose proof (get_message_key_effect _ _ _ _ _ _ _ Hs E) as (-> & _). reflexivity. }
  unfold get_message_key, sbind at 1, sget at 1. destruct (BTreeMap.get _ _) as [k|] eqn:Ek; [unfold sbind, smod, sret; eauto|].
  destruct Ha as [Ha|(c & Hc & Hg & Hsk)]; [congruence|]. cbv zeta. set (missing := ProtocolError.group_protocol _).
  pose proof (so_chains _ _ s Hs l c Hc) as Hok.
  rewrite (sbind_run _ _ _ _ _ (with_chain_same l missing (sget SenderKeyChain.generation) s c _ Hc eq_refl)).
  unfold sguard, sbind at 1, slift at 1. destruct (Z.ltb_spec g (SenderKeyChain.generation c)); [lia|]. cbn [negb ensure].
  destruct (Z.eqb_spec g (SenderKeyChain.generation c)) as [Heq|Hneq].
  - unfold sbind, with_chain. rewrite Hc, (next_message_key_eq _ _ _ Hok). cbv zeta. rewrite <- Heq.
    destruct (Z.ltb_spec g (SenderKeyChain.max_generation c)); [|lia]. unfold sret. eauto.
  - unfold sbind at 1, with_chain. rewrite Hc, (advance_to_ok _ _ g c Hok Hg Hsk). unfold sbind, smod, sret. eauto.
Qed.

Lemma available_fresh bases e s l g : store_ok bases e s -> available s l g -> ~ spent s l g.
Proof.
  intros Hs [Ha|(c & Hc & Hg & _)] [Hn (c' & Hc' & Hr)]; [now apply Ha|]. rewrite Hc in Hc'. apply Some_inj in Hc'. subst c'. lia.
Qed.

(** The window lets a deliverable message pass. *)
Lemma deliverable_window x l g : keys_ok x -> deliverable x l g ->
  SenderReplayWindow.is_duplicate_or_too_old
    match BTreeMap.get (GroupSessionInner.replay_windows x) l with Some w => w | None => SenderReplayWindow.default end g = false.
Proof.
  intros [Hs Hw] [Ha Hwin]. pose proof (available_fresh _ _ _ _ _ Hs Ha) as Hf.
  destruct (BTreeMap.get (GroupSessionInner.replay_windows x) l) as [w|] eqn:E; [|reflexivity].
  destruct (Hw l w E) as (seen & Hr & Hsp). rewrite (WindowFacts.duplicate_refines w seen g Hr). unfold WindowFacts.refused.
  destruct seen as [|a seen]; [reflexivity|]. destruct Hr as (_ & _ & _ & Hh & _). specialize (Hwin w eq_refl). rewrite Hh in Hwin.
  destruct (Z.leb_spec 1024 (WindowFacts.newest (a :: seen) - g)); [lia|]. cbn [orb].
  destruct (ReplayWindow.seen_before (a :: seen) g) eqn:Eb; [|now rewrite andb_false_r]. exfalso. apply Hf.
  unfold ReplayWindow.seen_before in Eb. apply existsb_exists in Eb. destruct Eb as (h & Hin & Hh'). apply Z.eqb_eq in Hh'. subst h.
  rewrite Forall_forall in Hsp. now apply Hsp.
Qed.

(** ** Composing *)

(** What a message of the epoch of [x] carries. *)
Record sent_as (x : GroupSessionInner) (leaf g : Z) (guard : bytes) (gpt : GroupPlaintext.t) (app : GroupApplicationMessage.t) : Prop := {
  sa_sender : exists aad, GroupMessaging.build_sender_aad (GroupSessionInner.group_id x) (GroupSessionInner.epoch x) = Ok aad /\
    aes_encrypt (EpochKeys.metadata_key (GroupSessionInner.epoch_keys x)) (GroupApplicationMessage.sender_data_nonce app)
      (encode (GroupSenderData.mk leaf g guard)) aad = Ok (GroupApplicationMessage.encrypted_sender_data app);
  sa_payload : exists aad, GroupMessaging.build_payload_aad (GroupSessionInner.group_id x) (GroupSessionInner.epoch x) leaf g = Ok aad /\
    aes_encrypt (message_at (session_enhanced x) (session_base x leaf) g) (GroupApplicationMessage.payload_nonce app)
      (MessagePadding.pad (encode gpt)) aad = Ok (GroupApplicationMessage.encrypted_payload app);
  sa_signature : exists d, get_leaf_data (GroupSessionInner.tree x) leaf = Some d /\
    GroupSession.ed25519_verify_group_message (LeafData.identity_ed25519_public d) (GroupApplicationMessage.sender_signature app)
      (GroupMessaging.build_app_signature_input (GroupSessionInner.group_id x) (GroupSessionInner.epoch x)
         (GroupApplicationMessage.set_sender_signature [] app)) = Ok tt }.

(** It is the same for every member of the epoch. *)
Lemma sent_as_shared x y leaf g guard gpt app : shared x = shared y -> sent_as x leaf g guard gpt app -> sent_as y leaf g guard gpt app.
Proof.
  intros H [H1 H2 H3]. pose proof (f_equal sh_group_id H) as E1. pose proof (f_equal sh_epoch H) as E2.
  pose proof (f_equal sh_epoch_keys H) as E3. pose proof (f_equal sh_context_hash H) as E4. pose proof (f_equal sh_policy H) as E5.
  cbn in E1, E2, E3, E4, E5. constructor.
  - now rewrite <- E1, <- E2, <- E3.
  - unfold session_enhanced, session_base in *. now rewrite <- E1, <- E2, <- E3, <- E4, <- E5.
  - now rewrite <- (shared_leaf x y leaf H), <- E1, <- E2.
Qed.

Lemma later_irrelevant x y : keys_ok x -> core y = core x -> GroupSessionInner.sender_store y = GroupSessionInner.sender_store x ->
  GroupSessionInner.replay_windows y = GroupSessionInner.replay_windows x -> later x y.
Proof.
  intros [Hs Hw] Hc H1 H2. split; [exact Hc|]. destruct (core_base x y Hc) as [E1 E2]. split; [|now rewrite H1].
  split; [now rewrite E1, E2, H1|]. unfold windows_ok in *. now rewrite H1, H2.
Qed.

(** The next own key is one of the chain of the own leaf. *)
Definition takes (x : GroupSessionInner) (r : PResult (Z * bytes)) (y : GroupSessionInner) : Prop :=
  later x y /\ GroupSessionInner.last_sent_message_hash y = GroupSessionInner.last_sent_message_hash x /\
  forall g k, r = Ok (g, k) -> k = message_at (session_enhanced x) (session_base x (GroupSessionInner.my_leaf_idx x)) g /\
    ~ spent (GroupSessionInner.sender_store x) (GroupSessionInner.my_leaf_idx x) g /\
    spent (GroupSessionInner.sender_store y) (GroupSessionInner.my_leaf_idx x) g.

Lemma own_key_takes x : keys_ok x -> post (on_store (next_own_message_key (GroupSessionInner.my_leaf_idx x))) x (takes x).
Proof.
  intros Hk r y H. unfold on_store in H.
  destruct (next_own_message_key (GroupSessionInner.my_leaf_idx x) (GroupSessionInner.sender_store x)) as [r0 st] eqn:E.
  apply pair_inj in H. destruct H as [-> <-]. pose proof (next_own_effect _ _ _ _ _ _ (proj1 Hk) E) as He. destruct r as [[g k]|e].
  - split; [exact (later_store x _ g k st Hk He)|]. split; [reflexivity|]. intros g' k' [= <- <-]. destruct He as (Hkey & _ & Hn & Hs & _). auto.
  - subst st. replace (GroupSessionInner.set_sender_store _ x) with x by (now destruct x).
    split; [now apply later_refl|]. split; [reflexivity|discriminate].
Qed.

Lemma take_own_key_takes x : keys_ok x -> post GroupMessaging.take_own_key x (takes x).
Proof.
  intros Hk. assert (Herr : forall e y, later x y -> GroupSessionInner.last_sent_message_hash y = GroupSessionInner.last_sent_message_hash x ->
    takes x (Err e) y) by (intros e y H1 H2; split; [exact H1|split; [exact H2|discriminate]]).
  unfold GroupMessaging.take_own_key. apply post_get. apply post_lift; [intros e; apply Herr; [now apply later_refl|reflexivity]|]. intros [] _.
  eapply post_bind; [exact (own_key_takes x Hk)|intros e y [H1 [H2 _]]; now apply Herr|]. intros [g k] y (Hl & Hh & Hkey). cbv zeta.
  apply post_lift; [intros e; now apply Herr|]. intros th _ r z0 H. unfold sbind, smod, sret in H. apply pair_inj in H. destruct H as [<- <-].
  match goal with |- takes x _ ?s => set (z := s) end. assert (Hz : core z = core y /\ GroupSessionInner.sender_store z = GroupSessionInner.sender_store y /\
    GroupSessionInner.replay_windows z = GroupSessionInner.replay_windows y /\
    GroupSessionInner.last_sent_message_hash z = GroupSessionInner.last_sent_message_hash y).
  { subst z. destruct (_ <=? th); [|auto 6]. unfold notify_group. destruct (GroupSessionInner.event_handler y); auto. }
  destruct Hz as (Z1 & Z2 & Z3 & Z4). split; [|split; [congruence|]].
  - exact (later_trans _ _ _ Hl (later_irrelevant y z (proj1 (proj2 Hl)) Z1 Z2 Z3)).
  - intros g' k' [= <- <-]. rewrite Z2. now apply Hkey.
Qed.

(** What composing does: whatever the outcome keys are only spent; on success the
    message carries the plaintext under a key that was not spent before. *)
Definition composes (x : GroupSessionInner) (content : bytes) (policy : MessagePolicy) (actual : option bytes) (clock : option Z)
    (e : MessageEntropy) (r : PResult (GroupPlaintext.t * Z * GroupMessage.t)) (y : GroupSessionInner) : Prop :=
  let leaf := GroupSessionInner.my_leaf_idx x in
  let pol := GroupMessaging.effective_policy (GroupSessionInner.security_policy x) policy in
  later x y /\ forall gpt g msg, r = Ok (gpt, g, msg) ->
    ~ spent (GroupSessionInner.sender_store x) leaf g /\ spent (GroupSessionInner.sender_store y) leaf g /\
    GroupSessionInner.pending_reinit x = None /\
    ContentType.validate_ttl (MessagePolicy.content_type policy) (MessagePolicy.ttl_seconds policy) = Ok tt /\
    GroupMessaging.check_referenced policy = Ok tt /\
    validate_annotations_against_tree (GroupSessionInner.tree x) content (MessagePolicy.proto_mentions pol)
      (MessagePolicy.proto_reply pol) = Ok tt /\
    exists gpt0 app, GroupMessaging.build_group_plaintext content pol (message_at (session_enhanced x) (session_base x leaf) g)
        actual clock e = Ok (gpt0, GroupApplicationMessage.franking_tag app) /\
      gpt = GroupPlaintext.set_prev_message_hash (GroupSessionInner.last_sent_message_hash x) gpt0 /\
      msg = GroupMessage.mk GROUP_PROTOCOL_VERSION (GroupSessionInner.group_id x) (GroupSessionInner.epoch x)
              (Some (GroupMessage.Application app)) /\
      sent_as x leaf g (me_reuse_guard e) gpt app.

(** The signature of a member verifies under the key of its leaf. *)
Lemma member_signature x seed m sg : committer (GroupSessionInner.tree x) (GroupSessionInner.my_leaf_idx x) seed ->
  GroupSession.ed25519_sign_group_message (ed25519_keypair seed) m = Ok sg ->
  exists d, get_leaf_data (GroupSessionInner.tree x) (GroupSessionInner.my_leaf_idx x) = Some d /\
    GroupSession.ed25519_verify_group_message (LeafData.identity_ed25519_public d) sg m = Ok tt.
Proof.
  intros [_ _ (d & Hd & Hid & _)] H. exists d. split; [exact Hd|]. unfold GroupSession.ed25519_sign_group_message in H. inv_ok.
  rewrite Hid. unfold GroupSession.ed25519_verify_group_message, GroupSession.ed25519_verify_group_message_with_context.
  rewrite ed25519_public_len by apply ed25519_keypair_len. now rewrite ed25519_sign_len, ed25519_public_valid, ed25519_sign_verify.
Qed.

Lemma seal_sender_inv x g e c n : GroupMessaging.seal_sender_data x g e = Ok (c, n) ->
  exists aad, GroupMessaging.build_sender_aad (GroupSessionInner.group_id x) (GroupSessionInner.epoch x) = Ok aad /\
    aes_encrypt (EpochKeys.metadata_key (GroupSessionInner.epoch_keys x)) n
      (encode (GroupSenderData.mk (GroupSessionInner.my_leaf_idx x) g (me_reuse_guard e))) aad = Ok c.
Proof.
  intros H. unfold GroupMessaging.seal_sender_data in H. cbv zeta in H. apply rbind_Ok in H. destruct H as (aad & Ha & H).
  apply rbind_Ok in H. destruct H as (c' & Hc & H). apply Ok_inj in H. injection H as <- <-. eauto.
Qed.

Lemma core_fields x y : core y = core x -> GroupSessionInner.group_id y = GroupSessionInner.group_id x /\
  GroupSessionInner.epoch y = GroupSessionInner.epoch x /\ GroupSessionInner.my_leaf_idx y = GroupSessionInner.my_leaf_idx x /\
  GroupSessionInner.epoch_keys y = GroupSessionInner.epoch_keys x /\ GroupSessionInner.my_ed25519_secret y = GroupSessionInner.my_ed25519_secret x /\
  GroupSessionInner.tree y = GroupSessionInner.tree x /\ GroupSessionInner.security_policy y = GroupSessionInner.security_policy x.
Proof.
  intros H. pose proof (f_equal (fun c => fst (fst (fst (fst c)))) H) as Hs. cbn in Hs.
  pose proof (f_equal sh_group_id Hs). pose proof (f_equal sh_epoch Hs). pose proof (f_equal sh_epoch_keys Hs). pose proof (f_equal sh_policy Hs).
  pose proof (f_equal (fun c => snd (fst (fst (fst c)))) H). pose proof (f_equal (fun c => snd (fst (fst c))) H).
  pose proof (f_equal snd H). cbn in *. auto 8.
Qed.

Lemma compose_composes x seed content policy actual clock e : keys_ok x ->
  committer (GroupSessionInner.tree x) (GroupSessionInner.my_leaf_idx x) seed ->
  GroupSessionInner.my_ed25519_secret x = SecureMemoryHandle.mk (ed25519_keypair seed) ->
  post (GroupMessaging.compose_message content policy actual clock e) x (composes x content policy actual clock e).
Proof.
  intros Hk Hcom Hsk. pose proof (later_refl x Hk) as Hl0.
  assert (Herr : forall er y, later x y -> composes x content policy actual clock e (Err er) y) by (split; [assumption|discriminate]).
  unfold GroupMessaging.compose_message. apply post_read; [auto|]. intros [] Hp. unfold ensure_no_pending_reinit in Hp. apply rbind_Ok in Hp.
  destruct Hp as ([] & Hp & _). apply ensure_Ok in Hp.
  apply post_lift; [auto|]. intros [] Httl. apply post_lift; [auto|]. intros [] Href. apply post_get. set (pol := GroupMessaging.effective_policy _ _).
  apply post_read; [auto|]. intros [] Han.
  eapply post_bind; [exact (take_own_key_takes x Hk)|intros er y [H _]; auto|]. intros [g key] y (Hl & Hh & Hkey).
  destruct (Hkey g key eq_refl) as (-> & Hfresh & Hspent). destruct (core_fields x y (proj1 Hl)) as (E1 & E2 & E3 & E4 & E5 & _).
  apply post_lift; [auto|]. intros [gpt0 tag] Hb. apply post_get. cbv zeta. rewrite E1, E2, E3, Hh.
  apply post_lift; [auto|]. intros aad Haad. apply post_lift; [auto|]. intros ep Hep.
  eapply (post_bind _ _ _ (fun _ z => z = GroupSessionInner.set_last_sent_message_hash (sha256 (ep ++ me_payload_nonce e)) y));
    [intros r z H; unfold smod in H; apply pair_inj in H; symmetry; apply H| |].
  { intros er z ->. apply Herr. exact (later_trans _ _ _ Hl (later_irrelevant y _ (proj1 (proj2 Hl)) eq_refl eq_refl eq_refl)). }
  intros [] z ->. set (z := GroupSessionInner.set_last_sent_message_hash _ y).
  assert (Hlz : later x z) by exact (later_trans _ _ _ Hl (later_irrelevant y _ (proj1 (proj2 Hl)) eq_refl eq_refl eq_refl)).
  apply post_lift; [auto|]. intros [esd sdn] Hsd. cbv zeta. apply post_read; [auto|]. intros sk Hread.
  apply post_lift; [auto|]. intros sg Hsg r z' H. apply sret_inv in H. destruct H as [-> ->]. split; [exact Hlz|].
  intros gpt g' msg [= <- <- <-]. split; [exact Hfresh|]. split; [exact Hspent|].
  split; [now destruct (GroupSessionInner.pending_reinit x)|]. split; [exact Httl|]. split; [exact Href|]. split; [exact Han|].
  exists gpt0, (GroupApplicationMessage.mk esd sdn ep (me_payload_nonce e) tag sg). split; [exact Hb|]. split; [reflexivity|]. split; [reflexivity|]. constructor.
  - cbn. rewrite <- E3. destruct (seal_sender_inv _ _ _ _ _ Hsd) as (aad' & Ha & Hc). rewrite E1, E2 in Ha. rewrite E4 in Hc. eauto.
  - cbn. eauto.
  - assert (Hkz : sk = ed25519_keypair seed).
    { apply (read_key_inv z sk z seed); [|]. { change (GroupSessionInner.my_ed25519_secret y = SecureMemoryHandle.mk (ed25519_keypair seed)). congruence. }
      unfold GroupSession.read_signing_key, sgets. now rewrite Hread. }
    subst sk. exact (member_signature x seed _ sg Hcom Hsg).
Qed.

(** ** Delivery *)

(** The messages are in the domain of the codec, and of a size that is accepted. *)
Record transmissible (leaf g : Z) (guard : bytes) (gpt : GroupPlaintext.t) (msg : GroupMessage.t) : Prop := {
  tr_sender : wfD (GroupSenderData.mk leaf g guard);
  tr_plaintext : wfT gpt;
  tr_bytes : bytes_ok (encode gpt);
  tr_short : len (encode gpt) < 2 ^ 62;
  tr_message : wfM msg;
  tr_size : len (encode msg) <= MAX_GROUP_MESSAGE_SIZE }.

Lemma open_sent b leaf g guard gpt app msg : sent_as b leaf g guard gpt app -> leaf <> GroupSessionInner.my_leaf_idx b ->
  transmissible leaf g guard gpt msg -> GroupMessage.group_id msg = GroupSessionInner.group_id b ->
  GroupMessage.epoch msg = GroupSessionInner.epoch b -> GroupMessage.content msg = Some (GroupMessage.Application app) ->
  GroupMessaging.open_envelope b msg = Ok (app, GroupSenderData.mk leaf g guard).
Proof.
  intros [(aad & Ha & Hs) _ (d & Hd & Hv)] Hne T E1 E2 E3. unfold GroupMessaging.open_envelope.
  rewrite E1, E2, E3, bytes_eqb_refl, Z.eqb_refl. cbn [ensure rbind]. rewrite Ha. cbn [rbind]. rewrite (aes_roundtrip _ _ _ _ _ Hs). cbn [rbind].
  rewrite (decode_encode _ (tr_sender _ _ _ _ _ T)). cbn [ok_or rbind GroupSenderData.sender_leaf_index].
  destruct (Z.eqb_spec leaf (GroupSessionInner.my_leaf_idx b)); [easy|]. cbn [negb ensure rbind]. rewrite Hd. cbn [ok_or rbind].
  rewrite Hv. reflexivity.
Qed.

Lemma seal_key_ok e b g : exists seal, GroupMessaging.expand_seal_key (message_at e b g) = Ok seal.
Proof.
  unfold GroupMessaging.expand_seal_key, expand, message_at. rewrite hkdf_expand_len by easy. eexists. reflexivity.
Qed.

(** The result of a decryption that found [pp] in the plaintext [gpt]. *)
Definition result_of (b : GroupSessionInner) (leaf g : Z) (gpt : GroupPlaintext.t) (pp : GroupMessaging.ParsedPlaintext) :
    GroupDecryptResult.t :=
  GroupDecryptResult.mk (GroupMessaging.pp_content pp) leaf g (GroupMessaging.pp_content_type pp) (GroupMessaging.pp_sealed_payload pp)
    (GroupMessaging.pp_franking_data pp) (GroupMessaging.pp_ttl_seconds pp) (GroupMessaging.pp_sent_timestamp pp)
    (GroupPlaintext.prev_message_hash gpt)
    (compute_message_id (GroupSessionInner.group_id b) (GroupSessionInner.epoch b) leaf g)
    (GroupMessaging.pp_referenced_message_id pp)
    (map (fun m => (GroupMention.leaf_index m, GroupMention.offset m, GroupMention.length m)) (GroupPlaintext.mentions gpt))
    (option_map ReplyContext.of_proto (GroupPlaintext.reply_context gpt)).

Lemma decrypt_sent b leaf g guard gpt app msg clock seal pp : keys_ok b -> GroupSessionInner.pending_reinit b = None ->
  sent_as b leaf g guard gpt app -> leaf <> GroupSessionInner.my_leaf_idx b -> transmissible leaf g guard gpt msg ->
  GroupMessage.group_id msg = GroupSessionInner.group_id b -> GroupMessage.epoch msg = GroupSessionInner.epoch b ->
  GroupMessage.content msg = Some (GroupMessage.Application app) -> deliverable b leaf g ->
  GroupMessaging.expand_seal_key (message_at (session_enhanced b) (session_base b leaf) g) = Ok seal ->
  validate_annotations_against_tree (GroupSessionInner.tree b) (GroupPlaintext.content gpt) (GroupPlaintext.mentions gpt)
    (GroupPlaintext.reply_context gpt) = Ok tt ->
  GroupMessaging.parse_group_plaintext gpt seal (GroupApplicationMessage.franking_tag app)
    (GroupSecurityPolicy.mandatory_franking (GroupSessionInner.security_policy b)) clock = Ok pp ->
  exists b', GroupMessaging.decrypt (encode msg) clock b = (Ok (result_of b leaf g gpt pp), b').
Proof.
  intros Hk Hp S Hne T E1 E2 E3 D Hseal Han Hpp. unfold GroupMessaging.decrypt.
  rewrite (sbind_run (sguard _ _) _ b tt b).
  2:{ unfold sguard, slift. destruct (Z.ltb_spec MAX_GROUP_MESSAGE_SIZE (len (encode msg))); [pose proof (tr_size _ _ _ _ _ T); lia|reflexivity]. }
  rewrite (decode_encode _ (tr_message _ _ _ _ _ T)). cbn [ok_or]. rewrite (sbind_run (slift _) _ b msg b eq_refl).
  rewrite (sbind_run (sgets _) _ b tt b) by (unfold sgets, ensure_no_pending_reinit; now rewrite Hp).
  rewrite (sbind_run (sgets _) _ b (app, GroupSenderData.mk leaf g guard) b)
    by (unfold sgets; now rewrite (open_sent b leaf g guard gpt app msg S Hne T E1 E2 E3)).
  cbv zeta. cbn [GroupSenderData.sender_leaf_index GroupSenderData.generation].
  destruct (GroupMessaging.window_entry leaf b) as [rw b1] eqn:Ew. destruct (window_entry_later leaf b rw b1 Hk Ew) as (Hl1 & Hst1 & w & -> & _ & Hw).
  rewrite (sbind_run _ _ _ _ _ Ew). pose proof (deliverable_window b leaf g Hk D) as Hdup. rewrite <- Hw in Hdup.
  rewrite (sbind_run (sguard _ _) _ b1 tt b1) by (unfold sguard, slift; now rewrite Hdup).
  destruct (available_key _ _ _ _ _ (proj1 Hk) (proj1 D)) as (st & Hkey).
  rewrite (sbind_run (on_store _) _ b1 (message_at (session_enhanced b) (session_base b leaf) g) (GroupSessionInner.set_sender_store st b1))
    by (unfold on_store; now rewrite Hst1, Hkey).
  set (b2 := GroupSessionInner.set_sender_store st b1).
  assert (Hl2 : later b1 b2 /\ spent (GroupSessionInner.sender_store b2) leaf g).
  { assert (Hrun : on_store (get_message_key leaf g) b1 = (Ok (message_at (session_enhanced b) (session_base b leaf) g), b2))
      by (unfold on_store; now rewrite Hst1, Hkey).
    destruct (get_key_later leaf g b1 (proj1 (proj2 Hl1)) _ _ Hrun) as [H1 H2]. split; [exact H1|]. now apply (H2 _ eq_refl). }
  destruct Hl2 as [Hl2 Hspent]. destruct (core_fields b b2 (eq_trans (proj1 Hl2) (proj1 Hl1))) as (F1 & F2 & _ & _ & _ & F6 & F7).
  rewrite (sbind_run (sget _) _ b2 b2 b2 eq_refl). rewrite F1, F2, F6, F7. destruct (sa_payload _ _ _ _ _ _ S) as (aad & Ha & Hc).
  rewrite Ha, (sbind_run (slift _) _ b2 aad b2 eq_refl), (aes_roundtrip _ _ _ _ _ Hc), (sbind_run (slift _) _ b2 _ b2 eq_refl).
  rewrite Hseal, (sbind_run (slift _) _ b2 seal b2 eq_refl).
  rewrite (MessagePadding.unpad_pad_lemma _ (tr_bytes _ _ _ _ _ T) (tr_short _ _ _ _ _ T)), (sbind_run (slift _) _ b2 _ b2 eq_refl).
  rewrite (decode_encode _ (tr_plaintext _ _ _ _ _ T)). cbn [ok_or]. rewrite (sbind_run (slift _) _ b2 gpt b2 eq_refl).
  rewrite Han, (sbind_run (slift _) _ b2 tt b2 eq_refl), Hpp, (sbind_run (slift _) _ b2 pp b2 eq_refl).
  destruct (GroupMessaging.mark_received leaf g b2) as [rm b3] eqn:Em.
  destruct (mark_received_later leaf g b2 rm b3 (proj1 (proj2 Hl2)) Hspent Em) as (-> & _). rewrite (sbind_run _ _ _ _ _ Em).
  eexists. reflexivity.
Qed.

Lemma member_keys x seed : member x seed -> keys_ok x.
Proof. intros M. split; [exact (mb_store _ _ M)|exact (mb_windows _ _ M)]. Qed.

(** Messages keep a member a member of the same epoch. *)
Lemma later_member x y seed : member x seed -> later x y ->
  member y seed /\ shared y = shared x /\ GroupSessionInner.my_leaf_idx y = GroupSessionInner.my_leaf_idx x.
Proof.
  intros M (Hc & [Hs Hw] & _). destruct (core_fields x y Hc) as (F1 & F2 & F3 & F4 & F5 & F6 & F7).
  pose proof (f_equal (fun c => snd (fst c)) Hc) as F8. cbn in F8.
  split; [|split; [exact (f_equal (fun c => fst (fst (fst (fst c)))) Hc)|exact F3]]. destruct M. constructor; rewrite ?F3, ?F4, ?F6, ?F8; auto. congruence.
Qed.

Lemma annotations_shared a b content ms rc : shared a = shared b ->
  validate_annotations_against_tree (GroupSessionInner.tree a) content ms rc =
  validate_annotations_against_tree (GroupSessionInner.tree b) content ms rc.
Proof.
  intros H. pose proof (fun i => shared_leaf a b i H) as Hl. unfold validate_annotations_against_tree.
  assert (Hf : forall acc, foldR (fun _ m => ensure (is_some (get_leaf_data (GroupSessionInner.tree a) (GroupMention.leaf_index m)))
      (ProtocolError.invalid_input "Mention leaf_index must reference an active group member")) ms acc =
    foldR (fun _ m => ensure (is_some (get_leaf_data (GroupSessionInner.tree b) (GroupMention.leaf_index m)))
      (ProtocolError.invalid_input "Mention leaf_index must reference an active group member")) ms acc).
  { induction ms as [|m ms IH]; intros acc; [reflexivity|]. cbn [foldR]. rewrite Hl. destruct (ensure _ _) as [[]|]; [apply IH|reflexivity]. }
  now rewrite Hf.
Qed.

Lemma proto_mentions_back p : map (fun m => (GroupMention.leaf_index m, GroupMention.offset m, GroupMention.length m))
  (MessagePolicy.proto_mentions p) = MessagePolicy.mentions p.
Proof.
  unfold MessagePolicy.proto_mentions. rewrite map_map. rewrite <- (map_id (MessagePolicy.mentions p)) at 2.
  apply map_ext. now intros [[? ?] ?].
Qed.

Lemma proto_reply_back p : option_map ReplyContext.of_proto (MessagePolicy.proto_reply p) = MessagePolicy.reply_context p.
Proof. unfold MessagePolicy.proto_reply. now destruct (MessagePolicy.reply_context p) as [[]|]. Qed.

(** The message a member composed, at another member of the epoch. *)
Lemma message_delivered a b sa sb content policy actual now e gpt g msg a' clock' :
  member a sa -> member b sb -> shared a = shared b -> GroupSessionInner.my_leaf_idx a <> GroupSessionInner.my_leaf_idx b ->
  GroupMessaging.compose_message content policy actual (Some now) e a = (Ok (gpt, g, msg), a') ->
  transmissible (GroupSessionInner.my_leaf_idx a) g (me_reuse_guard e) gpt msg -> 0 < len (me_franking_key e) ->
  GroupMessaging.check_lifetime (MessagePolicy.content_type policy) (MessagePolicy.ttl_seconds policy) now clock' = Ok tt ->
  deliverable b (GroupSessionInner.my_leaf_idx a) g ->
  exists res b', GroupMessaging.decrypt (encode msg) clock' b = (Ok res, b') /\
    delivers content (GroupMessaging.effective_policy (GroupSessionInner.security_policy a) policy) actual now
      (GroupSessionInner.my_leaf_idx a) g res.
Proof.
  intros Ma Mb Hsh Hne Hc T Hfk Hlife D.
  destruct (compose_composes a sa content policy actual (Some now) e (member_keys _ _ Ma) (mb_committer _ _ Ma) (mb_key _ _ Ma) _ _ Hc) as [_ H].
  destruct (H gpt g msg eq_refl) as (_ & _ & Hpend & Httl & Href & Han & gpt0 & app & Hb & -> & -> & S). clear H.
  set (pol := GroupMessaging.effective_policy _ policy) in *. set (leaf := GroupSessionInner.my_leaf_idx a) in *.
  destruct (seal_key_ok (session_enhanced a) (session_base a leaf) g) as [seal Hseal].
  assert (Hpol : MessagePolicy.content_type pol = MessagePolicy.content_type policy /\ MessagePolicy.ttl_seconds pol = MessagePolicy.ttl_seconds policy /\
    MessagePolicy.referenced_message_id pol = MessagePolicy.referenced_message_id policy)
    by (subst pol; unfold GroupMessaging.effective_policy; destruct (_ && _); auto).
  destruct Hpol as (P1 & P2 & P3). unfold GroupMessaging.check_referenced in Href. rewrite <- P1 in Httl, Href, Hlife. rewrite <- P2 in Httl, Hlife.
  rewrite <- P3 in Href.
  assert (Hmand : GroupSecurityPolicy.mandatory_franking (GroupSessionInner.security_policy a) = true -> MessagePolicy.frankable pol = true).
  { intros Hm. subst pol. unfold GroupMessaging.effective_policy. rewrite Hm. cbn [andb]. destruct (MessagePolicy.frankable policy) eqn:E; cbn [negb]; auto. }
  destruct (built_parses content pol _ actual (Some now) e gpt0 _ (GroupSessionInner.last_sent_message_hash a) seal _ clock' now Hb eq_refl Hseal Httl Href Hlife
    Hfk Hmand) as (pp & Hpp & Q1 & Q2 & Q3 & Q4 & Q5 & Q6 & Q7).
  destruct (build_inv _ _ _ _ _ _ _ _ _ Hb Hseal) as (now' & sk & sc & sn & fk & _ & _ & _ & Hg0).
  pose proof (f_equal sh_policy Hsh) as E5. pose proof (f_equal sh_pending_reinit Hsh) as E6. cbn in E5, E6. rewrite E5 in Hpp.
  assert (Hbase : session_enhanced a = session_enhanced b /\ session_base a = session_base b).
  { pose proof (f_equal sh_epoch_keys Hsh) as E3. pose proof (f_equal sh_context_hash Hsh) as E4. cbn in E3, E4.
    unfold session_enhanced, session_base. now rewrite E3, E4, E5. }
  rewrite (proj1 Hbase), (proj2 Hbase) in Hseal. rewrite (annotations_shared a b _ _ _ Hsh) in Han.
  assert (Hpub : GroupPlaintext.content gpt0 = content /\ GroupPlaintext.mentions gpt0 = MessagePolicy.proto_mentions pol /\
    GroupPlaintext.reply_context gpt0 = MessagePolicy.proto_reply pol) by (now rewrite Hg0). destruct Hpub as (G1 & G2 & G3).
  rewrite <- G1, <- G2, <- G3 in Han.
  destruct (decrypt_sent b leaf g _ _ app _ clock' seal pp (member_keys _ _ Mb) (eq_trans (eq_sym E6) Hpend) (sent_as_shared _ _ _ _ _ _ _ Hsh S) Hne T
    (f_equal sh_group_id Hsh) (f_equal sh_epoch Hsh) eq_refl D Hseal Han Hpp) as [b' Hdec].
  eexists _, b'. split; [exact Hdec|]. constructor; cbn; auto.
  - rewrite G2. apply proto_mentions_back.
  - rewrite G3. apply proto_reply_back.
Qed.

(** A message one member sends is read by every other member of the epoch that
    can still receive it, in any order of delivery: [encrypt] returns the encoded
    message, [decrypt] of those bytes returns its content, kind, lifetime,
    references, mentions and reply context with the sender's leaf and generation,
    the sealed part opens to the sealed plaintext and the franking data verifies.
    Both sessions stay members of the same epoch. *)
Theorem group_message_roundtrip a b sa sb content policy actual now e gpt g msg a' clock'
    (Ma : member a sa) (Mb : member b sb) (Hsh : shared a = shared b)
    (Hne : GroupSessionInner.my_leaf_idx a <> GroupSessionInner.my_leaf_idx b)
    (Hc : GroupMessaging.compose_message content policy actual (Some now) e a = (Ok (gpt, g, msg), a'))
    (T : transmissible (GroupSessionInner.my_leaf_idx a) g (me_reuse_guard e) gpt msg) (Hfk : 0 < len (me_franking_key e))
    (Hlife : GroupMessaging.check_lifetime (MessagePolicy.content_type policy) (MessagePolicy.ttl_seconds policy) now clock' = Ok tt)
    (D : deliverable b (GroupSessionInner.my_leaf_idx a) g) :
  GroupMessaging.encrypt_internal content policy actual (Some now) e a = (Ok (encode msg), a') /\
  (exists res b', GroupMessaging.decrypt (encode msg) clock' b = (Ok res, b') /\
    delivers content (GroupMessaging.effective_policy (GroupSessionInner.security_policy a) policy) actual now
      (GroupSessionInner.my_leaf_idx a) g res /\ member b' sb /\ shared b' = shared b /\
    spent (GroupSessionInner.sender_store b') (GroupSessionInner.my_leaf_idx a) g) /\
  member a' sa /\ shared a' = shared a.
Proof.
  split; [unfold GroupMessaging.encrypt_internal, sbind; now rewrite Hc|]. split.
  - destruct (message_delivered a b sa sb content policy actual now e gpt g msg a' clock' Ma Mb Hsh Hne Hc T Hfk Hlife D) as (res & b' & Hd & Hv).
    exists res, b'. destruct (decrypt_receives _ _ _ (member_keys _ _ Mb) _ _ Hd) as [Hl Hs].
    destruct (later_member b b' sb Mb Hl) as (H1 & H2 & _). destruct (Hs res eq_refl) as [_ H3].
    rewrite (dv_leaf _ _ _ _ _ _ _ Hv), (dv_generation _ _ _ _ _ _ _ Hv) in H3. auto 7.
  - destruct (compose_composes a sa _ _ _ _ _ (member_keys _ _ Ma) (mb_committer _ _ Ma) (mb_key _ _ Ma) _ _ Hc) as [Hl _].
    destruct (later_member a a' sa Ma Hl) as (H1 & H2 & _). auto.
Qed.

(** ** Receiving a sequence of messages *)

Fixpoint receive_all (msgs : list (bytes * option Z)) (x : GroupSessionInner) : list (bytes * GroupDecryptResult.t) * GroupSessionInner :=
  match msgs with
  | [] => ([], x)
  | (bs, clock) :: msgs =>
      let '(r, x) := GroupMessaging.decrypt bs clock x in
      let '(outs, x) := receive_all msgs x in
      (match r with Ok res => (bs, res) :: outs | Err _ => outs end, x)
  end.

Definition position (o : bytes * GroupDecryptResult.t) : Z * Z :=
  (GroupDecryptResult.sender_leaf_index (snd o), GroupDecryptResult.generation (snd o)).

(** The bytes are a message of the epoch of [sh] signed by the member at the leaf of the result. *)
Definition authentic (x : GroupSessionInner) (o : bytes * GroupDecryptResult.t) : Prop := exists msg app d,
  decode (fst o) = Some msg /\ GroupMessage.group_id msg = GroupSessionInner.group_id x /\
  GroupMessage.epoch msg = GroupSessionInner.epoch x /\ GroupMessage.content msg = Some (GroupMessage.Application app) /\
  GroupDecryptResult.sender_leaf_index (snd o) <> GroupSessionInner.my_leaf_idx x /\
  get_leaf_data (GroupSessionInner.tree x) (GroupDecryptResult.sender_leaf_index (snd o)) = Some d /\
  GroupSession.ed25519_verify_group_message (LeafData.identity_ed25519_public d) (GroupApplicationMessage.sender_signature app)
    (GroupMessaging.build_app_signature_input (GroupSessionInner.group_id x) (GroupSessionInner.epoch x)
       (GroupApplicationMessage.set_sender_signature [] app)) = Ok tt.

Lemma open_inv x msg app sd : GroupMessaging.open_envelope x msg = Ok (app, sd) -> exists d,
  GroupMessage.group_id msg = GroupSessionInner.group_id x /\ GroupMessage.epoch msg = GroupSessionInner.epoch x /\
  GroupMessage.content msg = Some (GroupMessage.Application app) /\ GroupSenderData.sender_leaf_index sd <> GroupSessionInner.my_leaf_idx x /\
  get_leaf_data (GroupSessionInner.tree x) (GroupSenderData.sender_leaf_index sd) = Some d /\
  GroupSession.ed25519_verify_group_message (LeafData.identity_ed25519_public d) (GroupApplicationMessage.sender_signature app)
    (GroupMessaging.build_app_signature_input (GroupSessionInner.group_id x) (GroupSessionInner.epoch x)
       (GroupApplicationMessage.set_sender_signature [] app)) = Ok tt.
Proof.
  intros H. unfold GroupMessaging.open_envelope in H. inv_ok. bools.
  destruct (GroupMessage.content msg) as [[a| |]|]; try discriminate. inv_ok.
  match goal with E : unit |- _ => destruct E end.
  eexists. conjs; try eassumption; try reflexivity; try (now apply bytes_eqb_eq).
Qed.

Lemma decrypt_authentic bs clock x res x' : GroupMessaging.decrypt bs clock x = (Ok res, x') -> authentic x (bs, res).
Proof.
  intros H. unfold GroupMessaging.decrypt in H. apply sbind_Ok in H. destruct H as ([] & s0 & H0 & H). apply sguard_Ok in H0. destruct H0 as [_ ->].
  apply sbind_Ok in H. destruct H as (msg & s0 & H0 & H). apply slift_inv in H0. destruct H0 as [H0 ->]. apply ok_or_Ok in H0.
  apply sbind_Ok in H. destruct H as ([] & s0 & H1 & H). apply sgets_inv in H1. destruct H1 as [_ ->].
  apply sbind_Ok in H. destruct H as ([app sd] & s0 & H1 & H). apply sgets_inv in H1. destruct H1 as [H1 ->].
  destruct (open_inv _ _ _ _ H1) as (d & Ha). cbv zeta in H.
  assert (Hleaf : GroupDecryptResult.sender_leaf_index res = GroupSenderData.sender_leaf_index sd).
  { repeat (apply sbind_Ok in H; let a := fresh "a" in let s := fresh "s" in destruct H as (a & s & _ & H)).
    apply sret_inv in H. destruct H as [H _]. apply Ok_inj in H. now rewrite H. }
  exists msg, app, d. cbn [fst snd]. rewrite Hleaf. auto.
Qed.

Lemma authentic_core x y o : core y = core x -> authentic y o -> authentic x o.
Proof.
  intros H. destruct (core_fields x y H) as (F1 & F2 & F3 & _ & _ & F6 & _). unfold authentic. now rewrite F1, F2, F3, F6.
Qed.

Lemma receive_all_spent msgs : forall x outs x', keys_ok x -> receive_all msgs x = (outs, x') ->
  later x x' /\ NoDup (map position outs) /\ Forall (fun o => In (fst o) (map fst msgs) /\ authentic x o) outs /\
  Forall (fun o => ~ spent (GroupSessionInner.sender_store x) (fst (position o)) (snd (position o))) outs.
Proof.
  induction msgs as [|[bs clock] msgs IH]; intros x outs x' Hk H; cbn [receive_all] in H.
  { injection H as <- <-. split; [now apply later_refl|]. repeat constructor. }
  destruct (GroupMessaging.decrypt bs clock x) as [r y] eqn:Ed. destruct (receive_all msgs y) as [outs1 z] eqn:Er. injection H as <- <-.
  destruct (decrypt_receives bs clock x Hk r y Ed) as [Hl Hr]. destruct (IH y outs1 z (proj1 (proj2 Hl)) Er) as (Hl2 & Hnd & Hau & Hfr).
  assert (Hau' : Forall (fun o => In (fst o) (bs :: map fst msgs) /\ authentic x o) outs1).
  { eapply Forall_impl; [|exact Hau]. intros o [H1 H2]. split; [now right|exact (authentic_core x y o (proj1 Hl) H2)]. }
  assert (Hfr' : Forall (fun o => ~ spent (GroupSessionInner.sender_store x) (fst (position o)) (snd (position o))) outs1).
  { eapply Forall_impl; [|exact Hfr]. intros o H1 H2. apply H1. now apply (proj2 (proj2 Hl)). }
  split; [exact (later_trans _ _ _ Hl Hl2)|]. destruct r as [res|e]; [|auto]. destruct (Hr res eq_refl) as [Hf Hs]. cbn [map].
  split; [|split].
  - constructor; [|exact Hnd]. intros Hin. apply in_map_iff in Hin. destruct Hin as (o & Ho & Hin). rewrite Forall_forall in Hfr.
    apply (Hfr o Hin). rewrite Ho. exact Hs.
  - constructor; [|exact Hau']. split; [now left|exact (decrypt_authentic _ _ _ _ _ Ed)].
  - constructor; [exact Hf|exact Hfr'].
Qed.

(** C8. Whatever byte strings a member of a group receives within an epoch, in
    whatever order, each position (sender leaf, generation) is accepted at most
    once, and only from bytes that are a message of this group and epoch carrying
    a valid signature of the member at that leaf, never the receiver itself.  The
    session stays a member of its epoch. *)
Theorem group_receive_once_authentic x seed msgs outs x' (M : member x seed) (H : receive_all msgs x = (outs, x')) :
  NoDup (map position outs) /\ Forall (fun o => In (fst o) (map fst msgs) /\ authentic x o) outs /\
  member x' seed /\ shared x' = shared x.
Proof.
  destruct (receive_all_spent msgs x outs x' (member_keys _ _ M) H) as (Hl & H1 & H2 & _).
  destruct (later_member x x' seed M Hl) as (H3 & H4 & _). auto.
Qed.

End Messages.
