(* ===== verification/WelcomeSync.v ===== *)
(** * Trees over the wire, and joining by welcome

    Importing an exported tree gives the tree back: every node with its public
    keys and hash, every occupant, and of the private keys those that were
    exported; the tree of a welcome and the tree of a sealed state are both read
    this way.  The member a commit added builds from the welcome a session that
    agrees with the committer. *)

From Stdlib Require Import ZArith List Bool Lia String.
From S2P Require Import Prelude Constants BTree SeenSet SecureMemory Crypto Signatures Proto TreeIndex GroupProto.
From S2P Require Import KeySchedule SenderKeys SenderRun IdentityModels Identity KeyPackage RatchetTree TreeKem Commit.
From S2P Require Import Welcome TreeFacts TreeMembers TreeResolution PathSecrets TreeUpdates ProposalSync PathAgreement.
From S2P Require Import TreeTypes CommitSync TreeSigned GroupReplay GroupContent GroupSessions GroupSync.
Import ListNotations.
Open Scope string_scope.
Open Scope list_scope.
Open Scope Z_scope.

(** A key handle written out and read back. *)
Definition reload (h : option SecureMemoryHandle.t) (n : Z) : option SecureMemoryHandle.t :=
  match h with
  | Some h => if len (SecureMemoryHandle.data h) <? n then None
              else Some (SecureMemoryHandle.mk (firstn (Z.to_nat n) (SecureMemoryHandle.data h)))
  | None => None
  end.

(** A node as the importer sees it. *)
Definition imported (with_private : bool) (c : TreeNodeContent.t) : TreeNodeContent.t :=
  match c with
  | Blank => Blank
  | Populated k ph => Populated (HybridNodeKeys.mk (HybridNodeKeys.x25519_public k) (HybridNodeKeys.kyber_public k)
      (if with_private then reload (HybridNodeKeys.x25519_private k) X25519_PRIVATE_KEY_BYTES else None)
      (if with_private then reload (HybridNodeKeys.kyber_secret k) KYBER_SECRET_KEY_BYTES else None)) ph
  end.

Definition exported (s : RatchetTree) (w : Z -> bool) : list GroupTreeNode.t :=
  map (fun '(i, node) => proto_node s (w i) i node) (enumerate_from 0 (RatchetTree.nodes s)).

Definition imported_nodes (s : RatchetTree) (w : Z -> bool) : list TreeNodeContent.t :=
  map (fun '(i, node) => imported (w i) node) (enumerate_from 0 (RatchetTree.nodes s)).

Definition imported_tree (s : RatchetTree) (w : Z -> bool) : RatchetTree :=
  RatchetTree.mk (imported_nodes s w) (RatchetTree.leaves s) (RatchetTree.leaf_count s).

Lemma vget_enumerate {A} (l : list A) : forall k i, 0 <= i -> vget (enumerate_from k l) i = option_map (pair (k + i)) (vget l i).
Proof.
  induction l as [|a l IH]; intros k i Hi; cbn [enumerate_from].
  - unfold vget. now destruct (Z.to_nat i).
  - destruct (Z.eq_dec i 0) as [->|Hne]; [now rewrite Z.add_0_r|].
    specialize (IH (k + 1) (i - 1) ltac:(lia)). unfold vget in *. replace (Z.to_nat i) with (S (Z.to_nat (i - 1))) by lia. cbn [nth_error].
    rewrite IH. now replace (k + 1 + (i - 1)) with (k + i) by lia.
Qed.

Lemma vget_exported s w i : 0 <= i -> vget (exported s w) i = option_map (proto_node s (w i) i) (vget (RatchetTree.nodes s) i).
Proof. intros Hi. unfold exported. rewrite vget_map, vget_enumerate by exact Hi. now destruct (vget (RatchetTree.nodes s) i). Qed.

Lemma vget_imported s w i : 0 <= i -> vget (imported_nodes s w) i = option_map (imported (w i)) (vget (RatchetTree.nodes s) i).
Proof. intros Hi. unfold imported_nodes. rewrite vget_map, vget_enumerate by exact Hi. now destruct (vget (RatchetTree.nodes s) i). Qed.

Lemma foldR_app {E A B} (f : A -> B -> Result E A) l1 : forall l2 a, foldR f (l1 ++ l2) a = rbind (foldR f l1 a) (foldR f l2).
Proof. induction l1 as [|b l1 IH]; intros l2 a; [reflexivity|]. cbn [app foldR]. destruct (f a b); [apply IH|reflexivity]. Qed.

Lemma firstn_snoc {A} (l : list A) : forall n a, nth_error l n = Some a -> firstn (S n) l = firstn n l ++ [a].
Proof. induction l as [|x l IH]; intros [|n] a H; try discriminate H; cbn in *; [now injection H as ->|]. now rewrite (IH n a). Qed.

Lemma len_enumerate {A} (l : list A) : forall k, len (enumerate_from k l) = len l.
Proof. induction l as [|a l IH]; intros k; cbn [enumerate_from]; [reflexivity|]. now rewrite !len_cons, IH. Qed.

Lemma len_exported s w : len (exported s w) = len (RatchetTree.nodes s).
Proof. unfold exported. now rewrite len_map, len_enumerate. Qed.

(** ** Nodes *)

Lemma handle_reload h n : 0 < n <= MAX_BUFFER_SIZE -> let b := read_or_empty h n in
  ((len b =? 0) || (len b =? n) = true) /\ handle_of n b = Ok (reload h n).
Proof.
  intros Hn. cbv zeta. unfold handle_of, read_or_empty, reload. destruct h as [[d]|]; [|auto].
  unfold SecureMemoryHandle.read_bytes. cbn [SecureMemoryHandle.data]. destruct (Z.ltb_spec (len d) n); cbn [unwrap_or]; [auto|].
  assert (Hl : len (firstn (Z.to_nat n) d) = n) by (unfold len in *; rewrite length_firstn; lia). rewrite Hl.
  destruct (Z.eqb_spec n 0); [lia|]. rewrite Z.eqb_refl. split; [reflexivity|]. unfold crypto_err.
  rewrite SecureMemoryHandle.alloc_write_spec by lia. destruct (Z.eqb_spec n 0), (Z.ltb_spec MAX_BUFFER_SIZE n); try lia. cbn [orb].
  rewrite Hl, Z.ltb_irrefl, Z.sub_diag. cbn [Z.to_nat repeat]. now rewrite app_nil_r.
Qed.

Lemma node_of_exported s b i c : node_ok c -> node_of_proto (proto_node s b i c) = Ok (imported b c).
Proof.
  intros Hc. unfold node_of_proto. destruct c as [|k ph]; [reflexivity|]. destruct Hc as (H1 & H2 & _).
  cbn [proto_node GroupTreeNode.x25519_public GroupTreeNode.kyber_public GroupTreeNode.x25519_private GroupTreeNode.kyber_secret GroupTreeNode.parent_hash].
  rewrite H1, H2. change (X25519_PUBLIC_KEY_BYTES =? 0) with false. rewrite !Z.eqb_refl, orb_true_r. cbn [ensure rbind imported].
  destruct b; [|reflexivity].
  destruct (handle_reload (HybridNodeKeys.x25519_private k) X25519_PRIVATE_KEY_BYTES ltac:(easy)) as [E1 E2].
  destruct (handle_reload (HybridNodeKeys.kyber_secret k) KYBER_SECRET_KEY_BYTES ltac:(easy)) as [E3 E4].
  rewrite E1, E3. cbn [ensure rbind]. now rewrite E2, E4.
Qed.

Lemma nodes_of_exported s w : Forall node_ok (RatchetTree.nodes s) -> mapR node_of_proto (exported s w) = Ok (imported_nodes s w).
Proof.
  unfold exported, imported_nodes. generalize (RatchetTree.nodes s). intros l Hl. generalize 0.
  induction Hl as [|c l Hc Hl IH]; intros z; [reflexivity|]. cbn [enumerate_from map mapR].
  rewrite node_of_exported by exact Hc. cbn [rbind]. now rewrite IH.
Qed.

(** ** Occupants *)

Section Leaves.
Context {P : Primitives} {SG : Signatures}.
Context (s : RatchetTree) (W : tree_wf s) (Hs : signed s) (w : Z -> bool).

Lemma leaf_package i : 0 <= i < RatchetTree.leaf_count s ->
  leaf_key_package s (2 * i) = match get_leaf_data s i with
                               | Some d => match get_node_public_keys s (2 * i) with Some (x, k) => Some (package_of d x k) | None => None end
                               | None => None
                               end.
Proof.
  intros Hi. unfold leaf_key_package. rewrite is_leaf_double. cbn [negb]. rewrite (Z.mul_comm 2 i), Z.div_mul by lia. reflexivity.
Qed.

Lemma leaf_step i ls ids : 0 <= i < RatchetTree.leaf_count s -> ls = firstn (Z.to_nat i) (RatchetTree.leaves s) ->
  (forall id, In id ids -> In id (ids_of ls)) ->
  exists ids', leaf_of_proto (exported s w) (imported_nodes s w) (ls, ids) i =
    Ok (firstn (Z.to_nat (i + 1)) (RatchetTree.leaves s), ids') /\
    (forall id, In id ids' -> In id (ids_of (firstn (Z.to_nat (i + 1)) (RatchetTree.leaves s)))).
Proof.
  intros Hi -> Hids. pose proof (wf_leaves s W) as Hlen. pose proof (wf_nodes s W) as Hn. pose proof (wf_bound s W) as Hb.
  destruct (vget_in_range (RatchetTree.leaves s) i ltac:(lia)) as [l Hl]. destruct (vget_in_range (RatchetTree.nodes s) (2 * i) ltac:(lia)) as [c Hc].
  assert (Hsplit : firstn (Z.to_nat (i + 1)) (RatchetTree.leaves s) = firstn (Z.to_nat i) (RatchetTree.leaves s) ++ [l]).
  { replace (Z.to_nat (i + 1)) with (S (Z.to_nat i)) by lia. now apply firstn_snoc. }
  unfold leaf_of_proto. destruct (leaf_in_tree _ Hb i Hi) as [-> _]. cbn [rbind]. rewrite vget_exported, Hc by lia. cbn [option_map].
  replace (GroupTreeNode.key_package (proto_node s (w (2 * i)) (2 * i) c)) with (leaf_key_package s (2 * i)) by (now destruct c).
  rewrite (leaf_package i Hi). rewrite Hsplit. assert (Hd : get_leaf_data s i = l) by (unfold get_leaf_data; now rewrite Hl).
  rewrite Hd. destruct l as [d|].
  2:{ exists ids. split; [reflexivity|]. intros id Hid. rewrite ids_app. apply in_or_app. auto. }
  destruct (Hs i ltac:(lia) d Hd) as (x & k & Hk & Hval). rewrite Hk, Hval. cbn [rbind].
  assert (Hfresh : bset_contains ids (LeafData.identity_ed25519_public d) = false).
  { apply bset_contains_not. intros Hin. apply Hids in Hin. pose proof (wf_ids s W) as Hnd.
    rewrite <- (firstn_skipn (Z.to_nat (i + 1)) (RatchetTree.leaves s)), Hsplit, ids_app in Hnd. apply NoDup_app_remove_r in Hnd.
    rewrite ids_app in Hnd. cbn in Hnd. apply NoDup_remove_2 in Hnd. apply Hnd. rewrite app_nil_r. exact Hin. }
  change (GroupKeyPackage.identity_ed25519_public (package_of d x k)) with (LeafData.identity_ed25519_public d). rewrite Hfresh. cbn [negb ensure rbind].
  rewrite vget_imported, Hc by lia. cbn [option_map]. unfold get_node_public_keys in Hk. rewrite Hc in Hk. destruct c as [|kk ph]; [discriminate|].
  apply Some_inj in Hk. injection Hk as <- <-. cbn [imported HybridNodeKeys.x25519_public HybridNodeKeys.kyber_public].
  change (GroupKeyPackage.leaf_x25519_public (package_of d ?x ?k)) with x. change (GroupKeyPackage.leaf_kyber_public (package_of d ?x ?k)) with k.
  rewrite !bytes_eqb_refl. cbn [andb ensure rbind]. eexists. split.
  - unfold leaf_data_of, package_of. cbn. now destruct d.
  - intros id Hin. rewrite bset_insert_In in Hin. rewrite ids_app. apply in_or_app. cbn. destruct Hin as [->|Hin]; auto.
Qed.

Lemma leaves_of_exported k : (k <= Z.to_nat (RatchetTree.leaf_count s))%nat ->
  exists ids, foldR (leaf_of_proto (exported s w) (imported_nodes s w)) (zrange 0 (Z.of_nat k)) ([], []) =
    Ok (firstn k (RatchetTree.leaves s), ids) /\ (forall id, In id ids -> In id (ids_of (firstn k (RatchetTree.leaves s)))).
Proof.
  induction k as [|k IH]; intros Hk.
  - exists []. rewrite zrange_empty by lia. split; [reflexivity|easy].
  - destruct (IH ltac:(lia)) as (ids & E & Hids). replace (Z.of_nat (S k)) with (Z.of_nat k + 1) by lia.
    rewrite zrange_snoc, foldR_app, E by lia. cbn [rbind foldR].
    destruct (leaf_step (Z.of_nat k) (firstn k (RatchetTree.leaves s)) ids ltac:(lia) ltac:(now rewrite Nat2Z.id) Hids) as (ids' & -> & H').
    replace (Z.to_nat (Z.of_nat k + 1)) with (S k) in * by lia. cbn [rbind]. eauto.
Qed.

(** Import after export. *)
Lemma from_exported : from_proto (exported s w) = Ok (imported_tree s w).
Proof.
  pose proof (wf_nodes s W) as Hn. pose proof (wf_count s W) as Hc. unfold from_proto. rewrite len_exported, Hn.
  destruct (Z.eqb_spec (2 * RatchetTree.leaf_count s - 1) 0); [lia|]. cbn [negb ensure rbind].
  assert (Hm : (2 * RatchetTree.leaf_count s - 1) mod 2 = 1).
  { replace (2 * RatchetTree.leaf_count s - 1) with (1 + (RatchetTree.leaf_count s - 1) * 2) by lia. now rewrite Z.mod_add. }
  rewrite Hm. cbn [Z.eqb negb ensure rbind]. destruct (Z.leb_spec (2 * RatchetTree.leaf_count s - 1) MAX_TREE_NODES) as [_|H]; [|unfold MAX_TREE_NODES in H; lia].
  cbn [ensure rbind]. assert (Hd : div_ceil (2 * RatchetTree.leaf_count s - 1) 2 = RatchetTree.leaf_count s).
  { unfold div_ceil. replace (2 * RatchetTree.leaf_count s - 1 + 2 - 1) with (RatchetTree.leaf_count s * 2) by lia. now rewrite Z.div_mul. }
  rewrite Hd, (nodes_of_exported s w (wf_node_ok s W)). cbn [rbind].
  destruct (leaves_of_exported (Z.to_nat (RatchetTree.leaf_count s)) ltac:(lia)) as (ids & E & _). rewrite Z2Nat.id in E by lia.
  rewrite E. cbn [rbind]. pose proof (wf_leaves s W) as Hl. rewrite firstn_all2 by (unfold len in Hl; lia). reflexivity.
Qed.

Lemma imported_public : public (imported_tree s w) = public s.
Proof.
  apply public_ext; [|reflexivity|reflexivity]. intros i Hi. unfold view. cbn [imported_tree RatchetTree.nodes]. rewrite vget_imported by exact Hi.
  now destruct (vget (RatchetTree.nodes s) i) as [[|k ph]|].
Qed.

Lemma imported_clonable : clonable (imported_tree s w).
Proof.
  unfold clonable, imported_tree, imported_nodes. cbn [RatchetTree.nodes]. apply Forall_forall. intros c Hin. apply in_map_iff in Hin.
  destruct Hin as ([i c0] & <- & _). destruct c0 as [|k ph]; [exact I|]. cbn [imported node_handles HybridNodeKeys.x25519_private HybridNodeKeys.kyber_secret].
  assert (Hre : forall h n, 0 < n <= MAX_BUFFER_SIZE -> opt_handle_ok (reload h n)).
  { intros [[d]|] n Hn; [|exact I]. unfold reload. cbn [SecureMemoryHandle.data]. destruct (Z.ltb_spec (len d) n); [exact I|].
    unfold opt_handle_ok, handle_ok. cbn [SecureMemoryHandle.data]. unfold len in *. rewrite length_firstn. lia. }
  destruct (w i); split; try exact I; now apply Hre.
Qed.

(** Keys that belong to their public keys are carried as they are. *)
Lemma imported_keyed {L : PrimitiveLaws P} k ph k' ph' : keyed k -> imported true (Populated k ph) = Populated k' ph' -> keyed k'.
Proof.
  intros (xs & e & H1 & H2 & H3 & H4 & H5) H. injection H as <- <-. exists xs, e.
  cbn [HybridNodeKeys.x25519_private HybridNodeKeys.kyber_secret HybridNodeKeys.x25519_public HybridNodeKeys.kyber_public].
  rewrite H1, H4. unfold reload. cbn [SecureMemoryHandle.data]. rewrite H2, Z.ltb_irrefl.
  assert (Hf : forall (d : bytes) n, len d = n -> firstn (Z.to_nat n) d = d) by (intros d n <-; unfold len; rewrite Nat2Z.id; apply firstn_all).
  rewrite (Hf xs _ H2). pose proof (proj1 (mlkem_generate_len e)) as Hk. unfold kyber_pair in *. cbn [fst snd SecureMemoryHandle.data] in *. rewrite Hk, Z.ltb_irrefl, (Hf _ _ Hk). auto 6.
Qed.

End Leaves.

(** * Joining by welcome

    The member a commit added and the committer that added it: what the welcome
    carries, what the newcomer makes of it, and that the two agree. *)

(** The nodes whose private keys a welcome carries. *)
Definition welcome_nodes (s : RatchetTree) (leaf : Z) (dp : list Z) (i : Z) : bool := negb (is_leaf i) && existsb (Z.eqb i) dp.

(** Every populated node above the new leaf is also above the committer, who has
    its private keys to pass on. *)
Definition covered (s : RatchetTree) (leaf c : Z) : Prop := forall i k ph, 0 <= i -> i <> 2 * leaf ->
  below (RatchetTree.leaf_count s) i (2 * leaf) = true -> vget (RatchetTree.nodes s) i = Some (Populated k ph) ->
  below (RatchetTree.leaf_count s) i (2 * c) = true.

Section Join.
Context {P : Primitives} {L : PrimitiveLaws P} {SG : Signatures} {SL : SignatureLaws SG}.
Context {CC : Prost GroupCommit.t} {CP : Prost GroupSecurityPolicyProto.t} {CE : Prost GroupExternalJoinAuthorization.t}.
Context {CI : Prost GroupInfo.t} {CH : Prost GroupHybridCiphertext.t} {CW : Prost GroupWelcome.t}.
Context {wfI : GroupInfo.t -> Prop} {CIL : ProstLaws GroupInfo.t wfI}.
Context {wfW : GroupWelcome.t -> Prop} {CWL : ProstLaws GroupWelcome.t wfW}.
Context {wfP : GroupSecurityPolicyProto.t -> Prop} {CPL : ProstLaws GroupSecurityPolicyProto.t wfP}.

(** ** The tree of the newcomer *)

Section Tree.
Context (t : RatchetTree) (W : tree_wf t) (Hs : signed t) (c leaf : Z) (Hc : holds t c) (Hcov : covered t leaf c).
Context (Hl : 0 <= leaf < RatchetTree.leaf_count t) (dp : list Z) (Hdp : direct_path leaf (RatchetTree.leaf_count t) = Ok dp).
Context (xs e : bytes) (Hxs : len xs = X25519_PRIVATE_KEY_BYTES).
Context (Hkeys : get_node_public_keys t (2 * leaf) = Some (x25519_public xs, snd (kyber_pair e))).

Definition sent_tree : RatchetTree := imported_tree t (welcome_nodes t leaf dp).

Lemma leaf_node : exists k ph, vget (RatchetTree.nodes sent_tree) (2 * leaf) = Some (Populated k ph) /\
  HybridNodeKeys.x25519_public k = x25519_public xs /\ HybridNodeKeys.kyber_public k = snd (kyber_pair e).
Proof.
  unfold get_node_public_keys in Hkeys. destruct (vget (RatchetTree.nodes t) (2 * leaf)) as [[|k ph]|] eqn:E; try discriminate.
  apply Some_inj in Hkeys. injection Hkeys as H1 H2. cbn [sent_tree imported_tree RatchetTree.nodes]. rewrite vget_imported, E by lia.
  do 2 eexists. split; [reflexivity|]. auto.
Qed.

(** The node at the new leaf with the newcomer's private keys. *)
Definition joined_node (ph : bytes) : TreeNodeContent.t :=
  Populated (HybridNodeKeys.mk (x25519_public xs) (snd (kyber_pair e)) (Some (SecureMemoryHandle.mk xs)) (Some (fst (kyber_pair e)))) ph.

Lemma set_own_keys : exists ph, (exists k, vget (RatchetTree.nodes sent_tree) (2 * leaf) = Some (Populated k ph)) /\
  set_node_private_keys (2 * leaf) (SecureMemoryHandle.mk xs) (fst (kyber_pair e)) sent_tree =
    (Ok tt, put_node (2 * leaf) (joined_node ph) sent_tree) /\
  forall i, 0 <= i -> vget (RatchetTree.nodes (put_node (2 * leaf) (joined_node ph) sent_tree)) i =
    if 2 * leaf =? i then Some (joined_node ph) else vget (RatchetTree.nodes sent_tree) i.
Proof.
  destruct leaf_node as (k & ph & Hk & H1 & H2). exists ph. unfold set_node_private_keys, sbind, sget. rewrite Hk, H1, H2. split; [eauto|].
  split; [reflexivity|]. intros i Hi. unfold put_node. cbn [RatchetTree.nodes RatchetTree.set_nodes]. apply vget_vset; [|exact Hi].
  pose proof (vget_Some_range _ (2 * leaf) _ ltac:(lia) Hk). lia.
Qed.

Section Joined.
Context (ph : bytes) (j : RatchetTree) (Hj : j = put_node (2 * leaf) (joined_node ph) sent_tree).
Context (Hph : exists k, vget (RatchetTree.nodes sent_tree) (2 * leaf) = Some (Populated k ph)).
Context (Hget : forall i, 0 <= i -> vget (RatchetTree.nodes j) i = if 2 * leaf =? i then Some (joined_node ph) else vget (RatchetTree.nodes sent_tree) i).

Lemma joined_public : public j = public t.
Proof.
  rewrite <- (imported_public t (welcome_nodes t leaf dp)). fold sent_tree. apply public_ext; [|now rewrite Hj|now rewrite Hj].
  intros i Hi. unfold view. rewrite Hget by exact Hi. destruct (Z.eqb_spec (2 * leaf) i) as [<-|]; [|reflexivity].
  destruct leaf_node as (k & ph' & Hk & H1 & H2). destruct Hph as (k' & Hk'). rewrite Hk in Hk'. apply Some_inj in Hk'. injection Hk' as <- <-.
  rewrite Hk. cbn [option_map strip joined_node HybridNodeKeys.x25519_public HybridNodeKeys.kyber_public]. now rewrite H1, H2.
Qed.

Lemma joined_clonable : clonable j.
Proof.
  pose proof (imported_clonable t (welcome_nodes t leaf dp)) as H. fold sent_tree in H. unfold clonable in *. rewrite Hj.
  unfold put_node. cbn [RatchetTree.nodes RatchetTree.set_nodes]. unfold vset. apply Forall_update; [exact H|].
  cbn [joined_node node_handles HybridNodeKeys.x25519_private HybridNodeKeys.kyber_secret opt_handle_ok]. unfold handle_ok, kyber_pair.
  cbn [fst SecureMemoryHandle.data]. rewrite Hxs, (proj1 (mlkem_generate_len e)). easy.
Qed.

Lemma joined_holds : holds j leaf.
Proof.
  intros i k ph' Hi Hb Hv. rewrite Hget in Hv by exact Hi. destruct (Z.eqb_spec (2 * leaf) i) as [<-|Hne].
  - apply Some_inj in Hv. injection Hv as <- <-. exists xs, e. auto 6.
  - rewrite (public_count _ _ joined_public) in Hb. cbn [sent_tree imported_tree RatchetTree.nodes] in Hv. rewrite vget_imported in Hv by exact Hi.
    destruct (vget (RatchetTree.nodes t) i) as [c0|] eqn:E; [|discriminate]. cbn [option_map] in Hv. apply Some_inj in Hv.
    destruct c0 as [|k0 ph0]; [discriminate|]. pose proof (Hcov i k0 ph0 Hi ltac:(congruence) Hb E) as Hbc. pose proof (Hc i k0 ph0 Hi Hbc E) as Hk0.
    pose proof (wf_bound t W) as Hn. destruct (leaf_paths _ Hn leaf Hl) as (r & path & cp & Hr & Hp & _ & Hcl & _).
    assert (path = dp) by congruence. subst path. destruct (leaf_in_tree _ Hn leaf Hl) as [_ Tl].
    assert (Ti : in_tree (RatchetTree.leaf_count t) i).
    { pose proof (vget_Some_range _ i _ Hi E) as Hr'. unfold in_tree. rewrite <- (wf_len t W). lia. }
    apply (climbs_ancestors _ Hn r _ _ _ Hr Hcl Tl i Ti) in Hb. destruct Hb as [Hb|Hin]; [congruence|].
    assert (Hw : welcome_nodes t leaf dp i = true).
    { pose proof (proj1 (Forall_forall _ _) (path_inner _ _ _ _ _ Hcl) i Hin) as [_ Hlf]. unfold welcome_nodes. rewrite Hlf. cbn [negb andb].
      apply existsb_exists. exists i. split; [exact Hin|apply Z.eqb_refl]. }
    rewrite Hw in Hv. exact (imported_keyed k0 ph0 k ph' Hk0 Hv).
Qed.

End Joined.
End Tree.

(** ** The welcome *)

(** The group information a welcome for [leaf] carries. *)
Definition info_of (t : RatchetTree) (leaf : Z) (dp : list Z) (gid : bytes) (epoch : Z) (ctx mac pb : bytes) : GroupInfo.t :=
  GroupInfo.mk gid epoch (exported t (welcome_nodes t leaf dp)) ctx mac pb.

Record info_ok (info : GroupInfo.t) : Prop := {
  io_wf : wfI info;
  io_size : len (encode info) <= MAX_GROUP_MESSAGE_SIZE }.

Lemma create_welcome_inv t leaf joiner gid epoch mac ctx pb c sk nonce se wel :
  create_welcome t leaf joiner gid epoch mac ctx pb c sk nonce se = Ok wel ->
  exists th dp key eg x k ej w0 sg, c <> leaf /\ tree_hash t = Ok th /\ derive_welcome_key joiner th = Ok key /\
    direct_path leaf (RatchetTree.leaf_count t) = Ok dp /\
    aes_encrypt key nonce (encode (info_of t leaf dp gid epoch ctx mac pb)) (welcome_aad gid epoch) = Ok eg /\
    get_node_public_keys t (2 * leaf) = Some (x, k) /\ encrypt_path_secret joiner x k leaf se = Ok ej /\
    w0 = GroupWelcome.mk GROUP_PROTOCOL_VERSION gid epoch eg nonce (Some ej) th leaf c [] /\
    ed25519_sign_welcome sk (welcome_signature_input w0) = Ok sg /\ wel = GroupWelcome.set_committer_signature sg w0.
Proof.
  intros H. unfold create_welcome in H. apply rbind_Ok in H. destruct H as ([] & Hne & H). apply ensure_Ok in Hne.
  apply rbind_Ok in H. destruct H as ([] & _ & H). apply rbind_Ok in H. destruct H as (th & Hth & H). apply rbind_Ok in H. destruct H as (key & Hkey & H).
  apply rbind_Ok in H. destruct H as (nodes & Hnodes & H). unfold export_for_welcome in Hnodes. apply rbind_Ok in Hnodes. destruct Hnodes as (dp & Hdp & Hnodes).
  apply Ok_inj in Hnodes. cbv zeta in H. apply rbind_Ok in H. destruct H as (eg & Heg & H). apply rbind_Ok in H. destruct H as (node & Hnode & H).
  unfold checked_leaf_to_node in Hnode. apply ok_or_Ok in Hnode. unfold checked_mul in Hnode. destruct (_ <? _); [|discriminate]. apply Some_inj in Hnode.
  apply rbind_Ok in H. destruct H as ([x k] & Hxk & H). apply ok_or_Ok in Hxk. apply rbind_Ok in H. destruct H as (ej & Hej & H).
  apply rbind_Ok in H. destruct H as (sg & Hsg & H). apply Ok_inj in H. rewrite <- Hnode, (Z.mul_comm leaf 2) in Hxk.
  exists th, dp, key, eg, x, k, ej. do 2 eexists. conjs; try eassumption; try reflexivity; try (now symmetry).
  - intros ->. now rewrite Z.eqb_refl in Hne.
  - unfold info_of, exported, welcome_nodes. rewrite Hnodes. exact Heg.
Qed.

(** A policy that survives its encoding. *)
Record policy_ok (p : GroupSecurityPolicy) : Prop := {
  po_wf : wfP (GroupSecurityPolicy.to_proto p);
  po_bytes : 0 < len (GroupSecurityPolicy.policy_bytes p);
  po_valid : GroupSecurityPolicy.validate p = Ok tt }.

Lemma policy_reads p : policy_ok p -> GroupSecurityPolicy.from_proto_bytes (GroupSecurityPolicy.policy_bytes p) = Ok p.
Proof.
  intros [H1 H2 _]. unfold GroupSecurityPolicy.from_proto_bytes. destruct (Z.eqb_spec (len (GroupSecurityPolicy.policy_bytes p)) 0); [lia|].
  unfold GroupSecurityPolicy.policy_bytes. rewrite (decode_encode _ H1). cbn. now destruct p.
Qed.

Lemma welcome_signature_ok seed w0 sg : ed25519_sign_welcome (ed25519_keypair seed) (welcome_signature_input w0) = Ok sg ->
  ed25519_verify_welcome (ed25519_public (ed25519_keypair seed)) sg (welcome_signature_input (GroupWelcome.set_committer_signature sg w0)) = Ok tt.
Proof.
  intros H. unfold ed25519_sign_welcome, kp_ed25519_sign in H. inv_ok. unfold ed25519_verify_welcome.
  rewrite ed25519_public_len by apply ed25519_keypair_len. rewrite ed25519_sign_len, ed25519_public_valid.
  change (welcome_signature_input (GroupWelcome.set_committer_signature ?x w0)) with (welcome_signature_input w0).
  now rewrite ed25519_sign_verify.
Qed.

Section Process.
Context (t : RatchetTree) (W : tree_wf t) (Hs : signed t) (c leaf : Z) (Hc : holds t c) (Hcov : covered t leaf c).
Context (Hl : 0 <= leaf < RatchetTree.leaf_count t).
Context (seed : bytes) (dc dl : LeafData.t) (Hdc : get_leaf_data t c = Some dc) (Hdl : get_leaf_data t leaf = Some dl).
Context (Hid : LeafData.identity_ed25519_public dc = ed25519_public (ed25519_keypair seed)).
Context (xs e : bytes) (Hxs : len xs = X25519_PRIVATE_KEY_BYTES).
Context (Hkeys : get_node_public_keys t (2 * leaf) = Some (x25519_public xs, snd (kyber_pair e))).
Context (init secret gid : bytes) (epoch : Z) (policy : GroupSecurityPolicy) (Hpol : policy_ok policy).
Context (th : bytes) (Hth : tree_hash t = Ok th).
Let pb := GroupSecurityPolicy.policy_bytes policy.
Let ctx := compute_group_context_hash gid epoch th pb.
Context (keys : EpochKeys) (Hder : derive_epoch_keys init secret ctx (GroupSecurityPolicy.enhanced_key_schedule policy) = Ok keys).
Context (mac : bytes) (Hmac : compute_confirmation_mac (EpochKeys.confirmation_key keys) ctx = Ok mac).
Context (store : SenderKeyStore) (Hstore : sender_store_of t keys ctx policy = Ok store).
Context (nonce : bytes) (se : SealEntropy) (Hse : len (se_ephemeral se) = X25519_PRIVATE_KEY_BYTES) (wel : GroupWelcome.t).
Context (Hwel : create_welcome t leaf (derive_joiner_secret init secret) gid epoch mac ctx pb c (ed25519_keypair seed) nonce se = Ok wel).
Context (Hct : forall ct, GroupWelcome.encrypted_joiner_secret wel = Some ct -> ct_sound ct).
Context (Hinfo : forall dp, direct_path leaf (RatchetTree.leaf_count t) = Ok dp -> info_ok (info_of t leaf dp gid epoch ctx mac pb)).

Lemma welcome_processed : exists j,
  process_welcome wel (SecureMemoryHandle.mk xs) (fst (kyber_pair e)) (LeafData.identity_ed25519_public dl) (LeafData.identity_x25519_public dl) =
    Ok (mkWelcomeResult j leaf epoch gid keys ctx store pb) /\ public j = public t /\ holds j leaf /\ clonable j.
Proof.
  destruct (create_welcome_inv _ _ _ _ _ _ _ _ _ _ _ _ _ Hwel) as (th' & dp & key & eg & x & k & ej & w0 & sg & Hne & Hth' & Hkey & Hdp & Heg & Hxk & Hej & Hw0 & Hsg & Hw).
  assert (th' = th) by congruence. subst th'. rewrite Hkeys in Hxk. apply Some_inj in Hxk. injection Hxk as <- <-.
  destruct (Hinfo dp Hdp) as [Iwf Isz].
  destruct (set_own_keys t leaf Hl dp xs e Hkeys) as (ph & Hph & Hset & Hget).
  set (j := put_node (2 * leaf) (joined_node xs e ph) (sent_tree t leaf dp)) in *.
  pose proof (joined_public t leaf Hl dp xs e Hkeys ph j eq_refl Hph Hget) as Hpub.
  exists j. split; [|split; [exact Hpub|split]].
  2:{ exact (joined_holds t W c leaf Hc Hcov Hl dp Hdp xs e Hxs Hkeys ph j eq_refl Hph Hget). }
  2:{ exact (joined_clonable t leaf Hl dp xs e Hxs ph j eq_refl). }
  assert (Hjoin : decrypt_path_secret ej (SecureMemoryHandle.mk xs) (fst (kyber_pair e)) leaf = Ok (derive_joiner_secret init secret)).
  { eapply (path_secret_roundtrip _ (HybridNodeKeys.mk (x25519_public xs) (snd (kyber_pair e)) (Some (SecureMemoryHandle.mk xs)) (Some (fst (kyber_pair e))))
      leaf se ej); try reflexivity; [exists xs, e; auto 6|exact Hse|exact Hej|]. apply Hct. now rewrite Hw, Hw0. }
  assert (Hopen : open_group_info wel (derive_joiner_secret init secret) = Ok (info_of t leaf dp gid epoch ctx mac pb)).
  { unfold open_group_info. rewrite Hw, Hw0. cbn [GroupWelcome.set_committer_signature GroupWelcome.tree_hash GroupWelcome.welcome_nonce
      GroupWelcome.encrypted_group_info GroupWelcome.group_id GroupWelcome.epoch]. rewrite Hkey. cbn [rbind]. rewrite (aes_roundtrip _ _ _ _ _ Heg). cbn [rbind].
    destruct (Z.leb_spec (len (encode (info_of t leaf dp gid epoch ctx mac pb))) MAX_GROUP_MESSAGE_SIZE); [|lia]. cbn [ensure rbind].
    rewrite (decode_encode _ Iwf). cbn [ok_or rbind info_of GroupInfo.group_id]. now rewrite bytes_eqb_refl. }
  assert (Htree : welcome_tree wel (info_of t leaf dp gid epoch ctx mac pb) (SecureMemoryHandle.mk xs) (fst (kyber_pair e))
    (LeafData.identity_ed25519_public dl) (LeafData.identity_x25519_public dl) = Ok (j, th)).
  { unfold welcome_tree. rewrite Hw, Hw0. cbn [GroupWelcome.set_committer_signature GroupWelcome.target_leaf_index GroupWelcome.tree_hash
      GroupWelcome.committer_leaf_index GroupWelcome.committer_signature info_of GroupInfo.tree_nodes].
    rewrite (from_exported t W Hs). cbn [rbind]. change (get_leaf_data (imported_tree t (welcome_nodes t leaf dp)) leaf) with (get_leaf_data t leaf).
    rewrite Hdl. cbn [ok_or rbind]. rewrite !bytes_eqb_refl. cbn [andb ensure rbind]. destruct (leaf_in_tree _ (wf_bound t W) leaf Hl) as [-> _]. cbn [rbind].
    fold (sent_tree t leaf dp). rewrite Hset. cbn [rbind]. fold j.
    rewrite (tree_hash_public j t) by (try exact Hpub; rewrite (public_count _ _ Hpub); now apply wf_bound). rewrite Hth. cbn [rbind].
    unfold constant_time_equals. rewrite Z.eqb_refl, bytes_eqb_refl. cbn [negb crypto_err map_err rbind ensure].
    destruct (Z.eqb_spec c leaf); [easy|]. cbn [negb ensure rbind]. change (get_leaf_data j c) with (get_leaf_data t c). rewrite Hdc. cbn [ok_or rbind].
    rewrite Hid. pose proof (welcome_signature_ok seed w0 sg Hsg) as Hv. rewrite Hw0 in Hv. cbn [GroupWelcome.set_committer_signature] in Hv.
    now rewrite Hv. }
  assert (Hver : GroupWelcome.version wel = GROUP_PROTOCOL_VERSION /\ GroupWelcome.encrypted_joiner_secret wel = Some ej /\
    GroupWelcome.target_leaf_index wel = leaf /\ GroupWelcome.group_id wel = gid /\ GroupWelcome.epoch wel = epoch) by (now rewrite Hw, Hw0).
  destruct Hver as (V1 & V2 & V3 & V4 & V5). unfold process_welcome. rewrite V1, V2, V3, V4, V5, Z.eqb_refl. cbn [ensure rbind ok_or].
  rewrite Hjoin. cbn [map_err rbind]. rewrite Hopen. cbn [rbind]. rewrite Htree. cbn [rbind]. cbv zeta.
  change (GroupInfo.security_policy (info_of t leaf dp gid epoch ctx mac pb)) with pb.
  change (GroupInfo.confirmation_mac (info_of t leaf dp gid epoch ctx mac pb)) with mac. fold ctx.
  unfold pb at 1. rewrite (policy_reads policy Hpol). cbn [rbind]. rewrite (po_valid _ Hpol). cbn [rbind].
  pose proof Hder as Hd. unfold derive_epoch_keys in Hd. fold (derive_joiner_secret init secret) in Hd. cbv zeta in Hd.
  apply rbind_Ok in Hd. destruct Hd as (es & Hes & Hd). rewrite Hes. cbn [rbind]. rewrite Hd. cbn [rbind]. rewrite Hmac. cbn [rbind].
  unfold constant_time_equals. rewrite Z.eqb_refl, bytes_eqb_refl. cbn [negb crypto_err map_err rbind ensure].
  unfold sender_store_of, populated_leaf_indices in *. rewrite (public_leaves _ _ Hpub), Hstore. reflexivity.
Qed.

End Process.

(** ** The commit that adds a member *)

Lemma add_inv kp w e x c wb x' seed : GroupSessionInner.my_ed25519_secret x = SecureMemoryHandle.mk (ed25519_keypair seed) ->
  GroupSession.add_member kp e w x = (Ok (c, wb), x') ->
  exists out t leaf wel, committed x (OpAdd kp w) e seed c out t x' /\ hd_error (co_added_leaf_indices out) = Some leaf /\
    create_welcome t leaf (co_joiner_secret out) (GroupSessionInner.group_id x) (GroupCommit.epoch (co_commit out))
      (GroupCommit.confirmation_mac (co_commit out)) (co_group_context_hash out)
      (GroupSecurityPolicy.policy_bytes (GroupSessionInner.security_policy x)) (GroupSessionInner.my_leaf_idx x) (ed25519_keypair seed)
      (we_nonce w) (we_seal w) = Ok wel /\ wb = encode wel.
Proof.
  intros Hk H. unfold GroupSession.add_member in H. apply sbind_Ok in H. destruct H as ([] & s0 & Hg & H).
  apply slift_inv in Hg. destruct Hg as [_ ->]. apply sbind_Ok in H. destruct H as ([] & s1 & Hn & H).
  apply no_reinit_inv in Hn. destruct Hn as [Hn ->]. apply sbind_Ok in H. destruct H as (sk & s1 & Hs & H).
  apply (read_key_inv _ _ _ seed Hk) in Hs. destruct Hs as [-> ->]. apply sbind_Ok in H. destruct H as (out & s1 & Hc & H).
  apply commit_own_inv in Hc. destruct Hc as (t & Hc & ->). apply sbind_Ok in H. destruct H as (leaf & s1 & Hleaf & H).
  apply slift_inv in Hleaf. destruct Hleaf as [Hleaf ->]. apply ok_or_Ok in Hleaf. apply sbind_Ok in H. destruct H as (wel & s1 & Hw & H).
  apply sgets_inv in Hw. destruct Hw as [Hw ->]. inv_stm.
  match goal with E : GroupSession.refresh_external _ = (Ok _, _) |- _ => apply refresh_inv in E; destruct E as (a' & b & _ & ->) end.
  exists out, t, leaf, wel. split; [|auto]. split; [exact Hn|]. split; [exact Hc|]. split; [reflexivity|]. constructor; reflexivity.
Qed.

(** The leaf of the new member, before and after. *)
Lemma added_leaf x seed kp w e out t leaf : member x seed -> entropy_ok e ->
  session_commit x (op_proposals (OpAdd kp w)) (ed25519_keypair seed) e (GroupSessionInner.tree x) = (Ok out, t) ->
  hd_error (co_added_leaf_indices out) = Some leaf ->
  get_leaf_data (GroupSessionInner.tree x) leaf = None /\ 0 <= leaf < RatchetTree.leaf_count t /\ 1 < RatchetTree.leaf_count t /\
  get_leaf_data t leaf = Some (leaf_data_of kp) /\
  get_node_public_keys t (2 * leaf) = Some (GroupKeyPackage.leaf_x25519_public kp, GroupKeyPackage.leaf_kyber_public kp).
Proof.
  intros M He H Hl. pose proof (mb_committer _ _ M) as [W Hc (d & Hd & _)].
  destruct (create_commit_inv _ _ _ _ _ _ _ _ _ _ _ _ H)
    as (t1 & added & p & secret & th & ne & keys0 & keys & mac & store & sg & Hv & Ha & Hmk & _ & _ & _ & _ & _ & _ & _ & ->).
  cbn [co_added_leaf_indices] in Hl. pose proof (apply_proposals_wf _ _ _ _ _ W (op_proposals_u32 (OpAdd kp w) I) Hv Ha) as W1.
  destruct (validate_proposals_ok _ _ _ Hv) as (Hpk & Hnd & Hids). apply Forall_inv in Hpk. unfold package_ok, added_package in Hpk. cbn in Hpk.
  assert (Hid : ~ In (LeafData.identity_ed25519_public (leaf_data_of kp)) (ids_of (RatchetTree.leaves (GroupSessionInner.tree x)))).
  { apply Hids. cbn. now left. }
  assert (Hadd : add_leaf (GroupKeyPackage.leaf_x25519_public kp) (GroupKeyPackage.leaf_kyber_public kp) (leaf_data_of kp)
    (GroupSessionInner.tree x) = (Ok leaf, t1)).
  { unfold apply_proposals in Ha. apply sbind_Ok in Ha. destruct Ha as ([] & s1 & Hr & Ha). cbn in Hr. apply sret_inv in Hr. destruct Hr as [_ ->].
    cbn [op_proposals apply_adds GroupProposal.proposal] in Ha. unfold apply_add in Ha. inv_stm. cbn in Hl. apply Some_inj in Hl. subst.
    cbn [GroupAddProposal.key_package ok_or] in *. inv_ok. assumption. }
  destruct (validate_key_package_sizes kp Hpk) as (L1 & L2 & L3).
  destruct (add_leaf_wf _ _ _ _ leaf t1 W L2 L3 L1 Hid Hadd) as (_ & Hi & Hnone & _). destruct (add_leaf_new _ kp leaf t1 W Hpk Hid Hadd) as [N1 N2].
  pose proof (apply_proposals_stays _ d _ _ _ _ t1 W (op_proposals_u32 (OpAdd kp w) I) Hv Hc (committer_stays _ _ _ Hv) Hd Ha) as In1.
  assert (Hd1 : get_leaf_data t1 (GroupSessionInner.my_leaf_idx x) = Some d) by (rewrite (in_leaf _ _ _ In1); exact Hd).
  pose proof (leaf_range _ _ _ W1 Hc Hd1) as Hcr. assert (Hne : GroupSessionInner.my_leaf_idx x <> leaf) by congruence.
  assert (Hn1 : 1 < RatchetTree.leaf_count t1) by lia.
  destruct (committer_step t1 _ _ e p secret t W1 Hc Hn1 He Hmk) as (d' & _ & _ & _ & Hcnt & Hleaf & Hk). rewrite Hcnt.
  split; [exact Hnone|]. split; [exact Hi|]. split; [exact Hn1|].
  rewrite Hleaf, Hk by (try lia; congruence). destruct (Z.eqb_spec (GroupSessionInner.my_leaf_idx x) leaf); [easy|]. auto.
Qed.

(** The epoch of an addition: no pre-shared key enters it. *)
Lemma added_epoch x kp w sk e out t :
  session_commit x (op_proposals (OpAdd kp w)) sk e (GroupSessionInner.tree x) = (Ok out, t) ->
  exists secret th, let policy := GroupSessionInner.security_policy x in let ctx := co_group_context_hash out in
    tree_hash t = Ok th /\ ctx = compute_group_context_hash (GroupSessionInner.group_id x) (GroupCommit.epoch (co_commit out)) th
      (GroupSecurityPolicy.policy_bytes policy) /\
    derive_epoch_keys (GroupSessionInner.init_secret x) secret ctx (GroupSecurityPolicy.enhanced_key_schedule policy) = Ok (co_epoch_keys out) /\
    compute_confirmation_mac (EpochKeys.confirmation_key (co_epoch_keys out)) ctx = Ok (GroupCommit.confirmation_mac (co_commit out)) /\
    sender_store_of t (co_epoch_keys out) ctx policy = Ok (co_new_sender_store out) /\
    co_joiner_secret out = derive_joiner_secret (GroupSessionInner.init_secret x) secret.
Proof.
  intros H. destruct (create_commit_inv _ _ _ _ _ _ _ _ _ _ _ _ H)
    as (t1 & added & p & secret & th & ne & keys0 & keys & mac & store & sg & _ & _ & _ & Hth & _ & Hk0 & Hk & Hmac & Hst & _ & ->).
  cbn in Hk. apply Ok_inj in Hk. subst keys0. exists secret, th. cbv zeta. cbn. auto 7.
Qed.

(** ** The newcomer *)

(** Whoever holds the secrets of a key package. *)
Record newcomer (kp : GroupKeyPackage.t) (seed xs e : bytes) : Prop := {
  nc_identity : GroupKeyPackage.identity_ed25519_public kp = ed25519_public (ed25519_keypair seed);
  nc_x25519 : GroupKeyPackage.leaf_x25519_public kp = x25519_public xs;
  nc_x25519_len : len xs = X25519_PRIVATE_KEY_BYTES;
  nc_kyber : GroupKeyPackage.leaf_kyber_public kp = snd (kyber_pair e) }.

(** A welcome within the limits of the receiver. *)
Record welcome_ok (x : GroupSessionInner) (out : CommitOutput) (t : RatchetTree) (leaf : Z) (w : WelcomeEntropy) (wel : GroupWelcome.t) : Prop := {
  wo_entropy : len (se_ephemeral (we_seal w)) = X25519_PRIVATE_KEY_BYTES;
  wo_ct : forall ct, GroupWelcome.encrypted_joiner_secret wel = Some ct -> ct_sound ct;
  wo_info : forall dp, direct_path leaf (RatchetTree.leaf_count t) = Ok dp ->
    info_ok (info_of t leaf dp (GroupSessionInner.group_id x) (GroupCommit.epoch (co_commit out)) (co_group_context_hash out)
               (GroupCommit.confirmation_mac (co_commit out)) (GroupSecurityPolicy.policy_bytes (GroupSessionInner.security_policy x)));
  wo_wf : wfW wel;
  wo_size : len (encode wel) <= MAX_GROUP_MESSAGE_SIZE }.

Lemma keypair_handle seed : ed25519_secret_to_handle (ed25519_keypair seed) = Ok (SecureMemoryHandle.mk (ed25519_keypair seed)).
Proof.
  unfold ed25519_secret_to_handle, crypto_err. rewrite ed25519_keypair_len, Z.eqb_refl. cbn [ensure rbind].
  rewrite SecureMemoryHandle.alloc_write_spec by easy. rewrite ed25519_keypair_len. cbn. now rewrite app_nil_r.
Qed.

Lemma newcomer_joins a sa kp w e c out t a' leaf wel sj xs e0 : member a sa -> committed a (OpAdd kp w) e sa c out t a' -> entropy_ok e ->
  commit_path_sound out -> hd_error (co_added_leaf_indices out) = Some leaf ->
  create_welcome t leaf (co_joiner_secret out) (GroupSessionInner.group_id a) (GroupCommit.epoch (co_commit out))
      (GroupCommit.confirmation_mac (co_commit out)) (co_group_context_hash out)
      (GroupSecurityPolicy.policy_bytes (GroupSessionInner.security_policy a)) (GroupSessionInner.my_leaf_idx a) (ed25519_keypair sa)
      (we_nonce w) (we_seal w) = Ok wel ->
  newcomer kp sj xs e0 -> policy_ok (GroupSessionInner.security_policy a) -> covered t leaf (GroupSessionInner.my_leaf_idx a) ->
  welcome_ok a out t leaf w wel ->
  exists j0, GroupSession.from_welcome (encode wel) (SecureMemoryHandle.mk xs) (fst (kyber_pair e0)) (GroupKeyPackage.identity_ed25519_public kp)
      (GroupKeyPackage.identity_x25519_public kp) (ed25519_keypair sj) = Ok j0 /\
    let j := GroupSessionInner.set_psk_resolver (GroupSessionInner.psk_resolver a) j0 in
    shared j = shared a' /\ member j sj /\ GroupSessionInner.my_leaf_idx j = leaf.
Proof.
  intros Ma Hcom He Hsound Hleaf Hwel N Hpol Hcov Wo. pose proof Hcom as (Hpend & Hc & -> & Ad).
  destruct (added_leaf a sa kp w e out t leaf Ma He Hc Hleaf) as (Hnone & Hl & Hn & Hdl & Hk).
  destruct (added_epoch a kp w _ e out t Hc) as (secret & th & Hth & Hctx & Hder & Hmac & Hstore & Hjoin). cbv zeta in *.
  destruct (create_commit_own _ _ sa _ _ _ _ _ e _ out t (mb_committer _ _ Ma) (mb_signed _ _ Ma) (op_proposals_u32 (OpAdd kp w) I) He Hsound Hn Hc)
    as (Ct & St & Ht). pose proof Ct as [Wt Hc0 (dc & Hdc & Hidc & _)]. rewrite (nc_x25519 _ _ _ _ N), (nc_kyber _ _ _ _ N) in Hk.
  rewrite Hctx in Hder, Hmac, Hstore. rewrite Hjoin, Hctx in Hwel.
  pose proof (wo_info _ _ _ _ _ _ Wo) as Hinfo. rewrite Hctx in Hinfo.
  destruct (welcome_processed t Wt St _ leaf Ht Hcov Hl sa dc (leaf_data_of kp) Hdc Hdl Hidc xs e0 (nc_x25519_len _ _ _ _ N) Hk
    (GroupSessionInner.init_secret a) secret (GroupSessionInner.group_id a) (GroupCommit.epoch (co_commit out)) (GroupSessionInner.security_policy a) Hpol th Hth
    (co_epoch_keys out) Hder _ Hmac _ Hstore (we_nonce w) (we_seal w) (wo_entropy _ _ _ _ _ _ Wo) wel Hwel (wo_ct _ _ _ _ _ _ Wo) Hinfo)
    as (j & Hproc & Hpub & Hhold & Hclone). rewrite <- Hctx in Hproc.
  destruct (external_keypairs_ok _ (commit_init _ _ _ _ _ _ _ Hc)) as (p1 & p2 & p3 & p4 & Hext).
  eexists. split.
  { unfold GroupSession.from_welcome, GroupSession.from_welcome_with_time_provider.
    destruct (Z.ltb_spec MAX_GROUP_MESSAGE_SIZE (len (encode wel))); [pose proof (wo_size _ _ _ _ _ _ Wo); lia|]. cbn [negb ensure rbind].
    rewrite keypair_handle. cbn [rbind]. rewrite (decode_encode _ (wo_wf _ _ _ _ _ _ Wo)). cbn [ok_or rbind].
    cbn [leaf_data_of LeafData.identity_ed25519_public LeafData.identity_x25519_public] in Hproc. rewrite Hproc.
    cbn [rbind wr_security_policy_bytes wr_epoch_keys wr_group_id wr_epoch wr_my_leaf_idx wr_tree wr_sender_store wr_group_context_hash].
    rewrite (policy_reads _ Hpol). cbn [rbind]. rewrite (po_valid _ Hpol). cbn [rbind]. rewrite Hext. cbn [rbind]. reflexivity. }
  cbv zeta. split; [|split; [|reflexivity]].
  - unfold shared, GroupSession.fresh_session. cbn. rewrite (ad_group_id _ _ _ _ _ Ad), (ad_epoch _ _ _ _ _ Ad), (ad_tree _ _ _ _ _ Ad), (ad_keys _ _ _ _ _ Ad),
      (ad_context _ _ _ _ _ Ad), (ad_psk _ _ _ _ _ Ad), (ad_reinit _ _ _ _ _ Ad), (ad_policy _ _ _ _ _ Ad), Hpub, Hpend. reflexivity.
  - constructor; cbn; try reflexivity; auto.
    + constructor; [exact (wf_public t j (eq_sym Hpub) Wt)|lia|]. exists (leaf_data_of kp). split; [unfold get_leaf_data in *; now rewrite (public_leaves _ _ Hpub)|].
      split; [exact (nc_identity _ _ _ _ N)|]. destruct (St leaf ltac:(lia) _ Hdl) as (x1 & k1 & _ & Hval). exact (package_identity _ _ _ Hval).
    + exact (signed_public t j (eq_sym Hpub) St).
    + exact (commit_store _ _ _ _ _ _ _ Hc).
    + now apply windows_empty.
Qed.

(** The owner of a fresh key package is a newcomer. *)
Lemma created_newcomer identity credential le kp xh kh seed : len (le_x25519 le) = X25519_PRIVATE_KEY_BYTES ->
  IdentityKeysInner.identity_ed25519_public identity = ed25519_public (ed25519_keypair seed) ->
  create_key_package identity credential le = Ok (kp, xh, kh) ->
  newcomer kp seed (le_x25519 le) (le_kyber le) /\ xh = SecureMemoryHandle.mk (le_x25519 le) /\ kh = fst (kyber_pair (le_kyber le)) /\
  GroupKeyPackage.credential kp = credential.
Proof.
  intros Hl Hid H. unfold create_key_package in H. apply rbind_Ok in H. destruct H as ([xh' xp] & Hx & H).
  destruct (generate_x25519_keypair_inv _ _ _ Hl Hx) as [-> ->]. apply rbind_Ok in H. destruct H as ([kh' kp'] & Hk & H). unfold crypto_err in Hk.
  destruct (kyber_generate_keypair _ _) as [[kh0 kp0]|] eqn:Ek; [|discriminate]. cbn [map_err] in Hk. apply Ok_inj in Hk. injection Hk as <- <-.
  pose proof (kyber_generate_keypair_inv _ _ _ _ Ek) as [-> ->]. apply rbind_Ok in H. destruct H as ([] & _ & H). apply rbind_Ok in H. destruct H as (sk & _ & H).
  apply rbind_Ok in H. destruct H as (sg & _ & H). apply Ok_inj in H. injection H as <- <- <-. cbn. split; [constructor; auto|auto].
Qed.

(** The tree of a new group. *)
Definition single_tree (kp : GroupKeyPackage.t) (xs e : bytes) : RatchetTree :=
  RatchetTree.mk [Populated (HybridNodeKeys.mk (GroupKeyPackage.leaf_x25519_public kp) (GroupKeyPackage.leaf_kyber_public kp)
    (Some (SecureMemoryHandle.mk xs)) (Some (fst (kyber_pair e)))) zero_hash] [Some (leaf_data_of kp)] 1.

Lemma single_member kp seed xs e : newcomer kp seed xs e -> validate_key_package kp = Ok tt ->
  committer (single_tree kp xs e) 0 seed /\ signed (single_tree kp xs e) /\ holds (single_tree kp xs e) 0 /\ clonable (single_tree kp xs e).
Proof.
  intros [N1 N2 N3 N4] Hval. destruct (validate_key_package_sizes kp Hval) as (L1 & L2 & L3). pose proof (package_valid kp Hval) as Hpk.
  assert (Hone : forall (A : Type) (a b : A) i, 0 <= i -> vget [a] i = Some b -> i = 0 /\ b = a).
  { intros A a b i Hi H. pose proof (vget_Some_range _ i _ Hi H) as Hr. unfold len in Hr. cbn [List.length] in Hr. assert (i = 0) by lia. subst i. cbn in H. split; congruence. }
  split; [|split; [|split]].
  - constructor; [constructor| |]; cbn [single_tree RatchetTree.leaf_count RatchetTree.leaves RatchetTree.nodes].
    + unfold MAX_GROUP_MEMBERS. lia.
    + reflexivity.
    + reflexivity.
    + intros i Hi. assert (i = 0) by lia. subst i. reflexivity.
    + repeat constructor; auto using len_zero_hash.
    + repeat constructor; apply L1.
    + repeat constructor. intros [].
    + lia.
    + exists (leaf_data_of kp). split; [reflexivity|]. split; [exact N1|]. exact (package_identity _ _ _ Hpk).
  - intros i Hi d Hd. unfold get_leaf_data in Hd. destruct (vget _ i) as [l|] eqn:E; [|discriminate]. subst l.
    destruct (Hone _ _ _ i Hi E) as [-> H]. injection H as ->. do 2 eexists. split; [reflexivity|exact Hpk].
  - intros i k ph Hi _ Hv. destruct (Hone _ _ _ i Hi Hv) as [-> H]. injection H as -> _. exists xs, e. auto 6.
  - repeat constructor; cbn [SecureMemoryHandle.data HybridNodeKeys.x25519_private HybridNodeKeys.kyber_secret kyber_pair fst];
      rewrite ?N3, ?(proj1 (mlkem_generate_len e)); easy.
Qed.

(** The creator of a group is its first member. *)
Lemma creator_member identity credential policy e kp xh kh seed x : len (le_x25519 (ge_leaf e)) = X25519_PRIVATE_KEY_BYTES ->
  IdentityKeysInner.identity_ed25519_secret_key identity = SecureMemoryHandle.mk (ed25519_keypair seed) ->
  IdentityKeysInner.identity_ed25519_public identity = ed25519_public (ed25519_keypair seed) ->
  create_key_package identity credential (ge_leaf e) = Ok (kp, xh, kh) -> validate_key_package kp = Ok tt ->
  GroupSession.create_with_policy identity credential policy e = Ok x ->
  member x seed /\ GroupSessionInner.security_policy x = policy.
Proof.
  intros Hl Hsk Hid Hkp Hval H. unfold GroupSession.create_with_policy, GroupSession.create_with_policy_and_time_provider in H.
  apply rbind_Ok in H. destruct H as ([] & _ & H). rewrite Hkp in H. cbn [rbind] in H.
  destruct (created_newcomer _ _ _ _ _ _ seed Hl Hid Hkp) as (N & -> & -> & <-).
  unfold get_identity_ed25519_private_key_copy, crypto_err in H. rewrite Hsk in H.
  rewrite SecureMemoryHandle.read_bytes_exact in H by apply ed25519_keypair_len. cbn [map_err rbind] in H. rewrite keypair_handle in H. cbn [rbind] in H. cbv zeta in H.
  apply rbind_Ok in H. destruct H as (t & Ht & H). assert (Hs : t = single_tree kp (le_x25519 (ge_leaf e)) (le_kyber (ge_leaf e)))
    by (unfold new_single in Ht; inv_ok; reflexivity). clear Ht.
  destruct (single_member kp seed _ _ N Hval) as (T1 & T2 & T3 & T4). rewrite <- Hs in T1, T2, T3, T4. inv_ok.
  match goal with Hst : sender_store_of t _ _ _ = Ok _ |- _ => pose proof (proj1 (new_epoch_ok _ _ _ _ _ _ _ Hst)) as Hok end.
  repeat match goal with p : (_ * _)%type |- _ => destruct p end. inv_ok. split; [|reflexivity].
  constructor; try reflexivity; auto. now apply windows_empty.
Qed.


End Join.
