(* ===== verification/GroupRestart.v ===== *)
(** * A group member across a restart

    Sealing the state of a member ([export_sealed_state]) and opening it again
    ([from_sealed_state]): what comes back, and that the member is still in step
    with its group, with no spent message key usable again. *)

From Stdlib Require Import ZArith List Bool Lia String Sorted.
From S2P Require Import Prelude Constants BTree SeenSet SecureMemory Crypto Signatures Proto TreeIndex GroupProto.
From S2P Require Import KeySchedule SenderKeys SenderRun IdentityModels Identity KeyPackage RatchetTree TreeKem Commit.
From S2P Require Import Welcome TreeFacts TreeMembers TreeResolution PathSecrets TreeUpdates ProposalSync PathAgreement.
From S2P Require Import TreeTypes CommitSync TreeSigned GroupReplay GroupContent GroupSessions GroupSeal GroupSync WelcomeSync.
Import ListNotations.
Open Scope string_scope.
Open Scope list_scope.
Open Scope Z_scope.

(** ** What the sealed form relies on *)

(** A chain filed under its leaf, with the limits of the policy. *)
Definition chain_stored (policy : GroupSecurityPolicy) (e : Z * SenderKeyChain) : Prop :=
  SenderKeyChain.leaf_index (snd e) = fst e /\
  SenderKeyChain.max_generation (snd e) = GroupSecurityPolicy.effective_max_messages_per_epoch policy /\
  SenderKeyChain.max_skipped_per_sender (snd e) = GroupSecurityPolicy.effective_max_skipped_per_sender policy.

Record store_stored (policy : GroupSecurityPolicy) (s : SenderKeyStore) : Prop := {
  ss_sorted : BTreeMap.sorted (SenderKeyStore.chains s);
  ss_chains : Forall (chain_stored policy) (SenderKeyStore.chains s);
  ss_per_sender : SenderKeyStore.max_skipped_per_sender s = GroupSecurityPolicy.effective_max_skipped_per_sender policy;
  ss_total : SenderKeyStore.max_skipped_total s = MAX_SKIPPED_SENDER_KEYS }.

(** A window of a leaf and of generations of 32 bits. *)
Definition window_u32 (e : Z * SenderReplayWindow) : Prop :=
  0 <= fst e < 2 ^ 32 /\ 0 <= SenderReplayWindow.high_water (snd e) < 2 ^ 32.

(** ** Every store of a session has this shape

    The store of a new epoch has it, and handing out keys keeps it. *)

Lemma leaves_increase {A} (l : list (option A)) : forall k, let m := filter (fun il => is_some (snd il)) (enumerate_from k l) in
  Forall (fun il => k <= fst il) m /\ StronglySorted Z.lt (map fst m).
Proof.
  induction l as [|a l IH]; intros k; cbn; [split; constructor|]. destruct (IH (k + 1)) as [H1 H2].
  assert (H1' : forall b, b <= k + 1 -> Forall (fun il => b <= fst il) (filter (fun il : Z * option A => is_some (snd il)) (enumerate_from (k + 1) l)))
    by (intros b Hb; revert H1; apply Forall_impl; intros; lia).
  destruct a; cbn; [|split; [apply H1'; lia|exact H2]]. split; [constructor; [cbn; lia|apply H1'; lia]|].
  constructor; [exact H2|]. apply Forall_map. revert H1. apply Forall_impl. intros. lia.
Qed.

Section Stored.
Context {P : Primitives} (policy : GroupSecurityPolicy).

Lemma epoch_chains_stored secret ctx e maxg maxs leaves : forall chains, StronglySorted Z.lt leaves ->
  mapR (fun leaf_idx =>
    let? base := derive_sender_key_base secret leaf_idx ctx in
    let? chain := new_with_policy leaf_idx base e maxg maxs in
    Ok (leaf_idx, chain)) leaves = Ok chains ->
  BTreeMap.sorted chains /\ map fst chains = leaves /\
  Forall (fun e => SenderKeyChain.leaf_index (snd e) = fst e /\ SenderKeyChain.max_generation (snd e) = maxg /\
                   SenderKeyChain.max_skipped_per_sender (snd e) = maxs) chains.
Proof.
  induction leaves as [|i leaves IH]; intros chains Hs H; cbn [mapR] in H.
  { apply Ok_inj in H. subst chains. repeat constructor. }
  inversion_clear Hs as [|? ? Hs' Hi]. apply rbind_Ok in H. destruct H as ([j c] & Hc & H).
  apply rbind_Ok in H. destruct H as (rest & Hr & H). apply Ok_inj in H. subst chains. destruct (IH rest Hs' Hr) as (H1 & H2 & H3).
  apply rbind_Ok in Hc. destruct Hc as (base & _ & Hc). apply rbind_Ok in Hc. destruct Hc as (c0 & Hn & Hc). apply Ok_inj, pair_inj in Hc. destruct Hc as [-> ->].
  unfold new_with_policy in Hn. apply rbind_Ok in Hn. destruct Hn as (_ & _ & Hn). apply Ok_inj in Hn. rewrite <- Hn.
  split; [|split; [cbn [map fst]; now rewrite H2|constructor; [easy|exact H3]]].
  constructor; [|exact H1]. apply Forall_forall. intros x Hx. rewrite Forall_forall in Hi. apply Z.ltb_lt, Hi. rewrite <- H2. now apply in_map.
Qed.

Lemma epoch_store_stored tree keys ctx s : sender_store_of tree keys ctx policy = Ok s -> store_stored policy s.
Proof.
  intros H. unfold sender_store_of, new_epoch_with_policy in H. apply rbind_Ok in H. destruct H as (chains & Hc & H). apply Ok_inj in H. subst s.
  destruct (epoch_chains_stored _ _ _ _ _ _ chains (proj2 (leaves_increase (RatchetTree.leaves tree) 0)) Hc) as (H1 & _ & H3).
  now constructor.
Qed.

(** A chain operation that only moves the chain on. *)
Definition keeps_limits {A} (op : Stm ProtocolError.t SenderKeyChain A) : Prop := forall c r c', op c = (r, c') ->
  SenderKeyChain.leaf_index c' = SenderKeyChain.leaf_index c /\ SenderKeyChain.max_generation c' = SenderKeyChain.max_generation c /\
  SenderKeyChain.max_skipped_per_sender c' = SenderKeyChain.max_skipped_per_sender c.

Lemma limits_bind {A B} (c : Stm ProtocolError.t SenderKeyChain A) (k : A -> Stm ProtocolError.t SenderKeyChain B) :
  keeps_limits c -> (forall a, keeps_limits (k a)) -> keeps_limits (sbind c k).
Proof.
  intros Hc Hk s r s' H. unfold sbind in H. destruct (c s) as [[a|e] s1] eqn:E.
  - destruct (Hc _ _ _ E) as (<- & <- & <-). exact (Hk a _ _ _ H).
  - injection H as <- <-. exact (Hc _ _ _ E).
Qed.

Lemma limits_read {A} (c : Stm ProtocolError.t SenderKeyChain A) : (forall s, snd (c s) = s) -> keeps_limits c.
Proof. intros H s r s' E. specialize (H s). rewrite E in H. cbn in H. now subst. Qed.

Lemma limits_next : keeps_limits next_message_key.
Proof.
  repeat (apply limits_bind; [now apply limits_read|intros ?; cbv beta zeta]).
  apply limits_bind; [|intros ?; now apply limits_read]. intros s r s' H. injection H as <- <-. auto.
Qed.

Lemma limits_loop fuel target : keeps_limits (advance_loop fuel target).
Proof.
  induction fuel as [|fuel IH]; cbn [advance_loop]; (apply limits_bind; [now apply limits_read|]); intros g; destruct (g <? target);
    try (now apply limits_read).
  apply limits_bind; [exact limits_next|]. intros q. apply limits_bind; [exact IH|]. intros ?. now apply limits_read.
Qed.

Lemma limits_advance target : keeps_limits (advance_to target).
Proof.
  unfold advance_to. repeat (apply limits_bind; [now apply limits_read|intros ?; cbv beta zeta]).
  apply limits_bind; [apply limits_loop|]. intros sk. apply limits_bind; [exact limits_next|]. intros [? ?]. now apply limits_read.
Qed.

Lemma with_chain_stored {A} l missing (op : Stm ProtocolError.t SenderKeyChain A) s r s' : keeps_limits op -> store_stored policy s ->
  with_chain l missing op s = (r, s') -> store_stored policy s'.
Proof.
  intros Hop [H1 H2 H3 H4] H. unfold with_chain, get_chain in H. destruct (find_chain (SenderKeyStore.chains s) l) as [c|] eqn:E.
  2:{ injection H as <- <-. now constructor. }
  destruct (op c) as [r0 c'] eqn:Eo. injection H as <- <-. destruct (Hop _ _ _ Eo) as (K1 & K2 & K3).
  assert (G : forall k m, BTreeMap.above k m -> BTreeMap.above k (put_chain m l c')).
  { intros k m. induction m as [|[i d] m IH]; cbn [put_chain]; [auto|]. intros Hm. inversion_clear Hm. destruct (i =? l); constructor; auto. now apply IH. }
  constructor; [| |exact H3|exact H4]; cbn [SenderKeyStore.chains SenderKeyStore.set_chains].
  - clear H2 E. induction H1 as [|k v m Ha Hm IH]; cbn [put_chain]; [constructor|]. destruct (k =? l); constructor; auto.
  - clear H1. induction H2 as [|[i d] m (F1 & F2 & F3) Hm IH]; cbn [put_chain find_chain] in *; [constructor|].
    destruct (i =? l); [|constructor; [easy|now apply IH]]. apply Some_inj in E. subst d. constructor; [|exact Hm].
    unfold chain_stored in *. cbn [fst snd] in *. now rewrite K1, K2, K3.
Qed.

Lemma own_key_stored l s r s' : store_stored policy s -> next_own_message_key l s = (r, s') -> store_stored policy s'.
Proof. apply with_chain_stored, limits_next. Qed.

Lemma message_key_stored l g s r s' : store_stored policy s -> get_message_key l g s = (r, s') -> store_stored policy s'.
Proof.
  intros Hs H. unfold get_message_key, sbind at 1, sget at 1 in H. destruct (BTreeMap.get (SenderKeyStore.skipped_keys s) (l, g)).
  { destruct Hs as [H1 H2 H3 H4]. injection H as <- <-. now constructor. }
  apply sbind_cases in H. destruct H as [[e H]|(cur & s1 & Hc & H)]; [eapply with_chain_stored; [|exact Hs|exact H]; now apply limits_read|].
  assert (Hs1 : store_stored policy s1) by (eapply with_chain_stored; [|exact Hs|exact Hc]; now apply limits_read).
  apply sbind_cases in H. destruct H as [[e H]|(u & s2 & Hg & H)].
  { unfold sguard, slift in H. now injection H as _ <-. }
  unfold sguard, slift in Hg. injection Hg as _ <-. destruct (g =? cur).
  - apply sbind_cases in H. destruct H as [[e H]|([q k] & s3 & Hn & H)]; [eapply with_chain_stored; [exact limits_next|exact Hs1|exact H]|].
    injection H as _ <-. eapply with_chain_stored; [exact limits_next|exact Hs1|exact Hn].
  - apply sbind_cases in H. destruct H as [[e H]|([q k] & s3 & Hn & H)]; [eapply with_chain_stored; [apply limits_advance|exact Hs1|exact H]|].
    destruct (with_chain_stored _ _ _ _ _ _ (limits_advance g) Hs1 Hn) as [H1 H2 H3 H4].
    unfold sbind, smod, sret in H. injection H as _ <-. now constructor.
Qed.

End Stored.

Section Restart.
Context {P : Primitives} {L : PrimitiveLaws P} {SG : Signatures} {SL : SignatureLaws SG}.
Context {CC : Prost GroupCommit.t} {CP : Prost GroupSecurityPolicyProto.t} {CE : Prost GroupExternalJoinAuthorization.t}.
Context {CI : Prost GroupInfo.t} {CH : Prost GroupHybridCiphertext.t} {CW : Prost GroupWelcome.t}.
Context {CS : Prost GroupProtocolState.t} {CZ : Prost SealedGroupState.t}.
Context {wfS : GroupProtocolState.t -> Prop} {CSL : ProstLaws GroupProtocolState.t wfS}.
Context {wfZ : SealedGroupState.t -> Prop} {CZL : ProstLaws SealedGroupState.t wfZ}.
Context {wfP : GroupSecurityPolicyProto.t -> Prop} {CPL : ProstLaws GroupSecurityPolicyProto.t wfP}.

Record persistable (x : GroupSessionInner) (seed : bytes) : Prop := {
  pe_store : store_stored (GroupSessionInner.security_policy x) (GroupSessionInner.sender_store x);
  pe_sorted : BTreeMap.sorted (GroupSessionInner.replay_windows x);
  pe_windows : Forall window_u32 (GroupSessionInner.replay_windows x);
  pe_public : GroupSessionInner.my_identity_ed25519_public x = ed25519_public (ed25519_keypair seed);
  pe_external : exists a b, derive_external_keypairs (GroupSessionInner.init_secret x) =
    Ok (a, GroupSessionInner.external_x25519_public x, b, GroupSessionInner.external_kyber_public x);
  pe_policy : policy_ok (wfP := wfP) (GroupSessionInner.security_policy x) }.

(** The session as it comes back: the private keys of the tree, the chains and
    the used windows are kept; the cached keys of skipped messages, the resolver,
    a pending reinitialisation and the handler are not. *)
Definition restored (x : GroupSessionInner) : GroupSessionInner :=
  GroupSessionInner.mk (GroupSessionInner.group_id x) (GroupSessionInner.epoch x) (GroupSessionInner.my_leaf_idx x)
    (imported_tree (GroupSessionInner.tree x) (fun _ => true)) (GroupSessionInner.epoch_keys x)
    (GroupSessionInner.init_secret x)
    (SenderKeyStore.set_skipped_keys BTreeMap.empty (GroupSessionInner.sender_store x))
    (GroupSessionInner.group_context_hash x) (GroupSessionInner.my_identity_ed25519_public x)
    (GroupSessionInner.my_identity_x25519_public x) (GroupSessionInner.my_ed25519_secret x)
    (WindowCodec.active (GroupSessionInner.replay_windows x)) (GroupSessionInner.external_x25519_public x)
    (GroupSessionInner.external_kyber_public x) None None false zero_message_hash
    (GroupSessionInner.security_policy x)
    (prune_member_roles (populated_leaf_indices (GroupSessionInner.tree x)) (GroupSessionInner.member_roles x)) [].

(** ** The chains *)

Lemma chains_read policy bases s : store_ok bases (GroupSecurityPolicy.enhanced_key_schedule policy) s -> store_stored policy s ->
  foldR (GroupSealing.chain_of_state policy)
    (map (fun '(leaf_index, chain_key, generation) => GroupMemberSenderChain.mk leaf_index chain_key generation) (export_chains s))
    BTreeMap.empty = Ok (SenderKeyStore.chains s).
Proof.
  intros Hok [Hs Hf _ _]. unfold export_chains. rewrite map_map.
  assert (Hc : Forall (fun e => chain_ok (bases (fst e)) (GroupSecurityPolicy.enhanced_key_schedule policy) (snd e)) (SenderKeyStore.chains s)).
  { apply Forall_forall. intros [l c] Hin. apply (so_chains _ _ _ Hok). unfold get_chain. cbn [fst snd]. revert Hs Hin.
    clear. induction (SenderKeyStore.chains s) as [|[k v] m IH]; intros Hs Hin; [easy|]. cbn [find_chain].
    inversion Hs as [|? ? ? Ha Hs']; subst. destruct Hin as [[= -> ->]|Hin]; [now rewrite Z.eqb_refl|].
    destruct (Z.eqb_spec k l) as [->|]; [|exact (IH Hs' Hin)]. exfalso.
    pose proof (proj1 (Forall_forall _ _) Ha _ Hin) as Hlt. cbn in Hlt. lia. }
  assert (G : forall acc, BTreeMap.sorted (acc ++ SenderKeyStore.chains s) ->
    foldR (GroupSealing.chain_of_state policy)
      (map (fun e => GroupMemberSenderChain.mk (SenderKeyChain.leaf_index (snd e)) (SenderKeyChain.chain_key (snd e))
                       (SenderKeyChain.generation (snd e))) (SenderKeyStore.chains s)) acc = Ok (acc ++ SenderKeyStore.chains s)).
  { clear Hok Hs. revert Hf Hc. induction (SenderKeyStore.chains s) as [|[k c] m IH]; intros Hf Hc acc Hs; [now rewrite app_nil_r|].
    inversion Hf as [|? ? (F1 & F2 & F3) Hf']; inversion Hc as [|? ? (C1 & C2 & C3 & C4) Hc']; subst. cbn [map foldR fst snd] in *.
    unfold GroupSealing.chain_of_state at 1, from_state_with_policy. cbn [GroupMemberSenderChain.leaf_index GroupMemberSenderChain.chain_key GroupMemberSenderChain.generation].
    rewrite C4, (len_sender_chain_at _ _ _ C1). cbn [Z.eqb CHAIN_KEY_BYTES Pos.eqb ensure rbind].
    rewrite <- C4, <- C3, F1, <- F2, <- F3.
    rewrite (BTreeMap.insert_last acc k _ (BTreeMap.sorted_snoc _ _ _ _ Hs)).
    replace (SenderKeyChain.mk k _ _ _ _ _) with c by (destruct c; cbn in *; congruence).
    rewrite IH by (try assumption; now rewrite <- app_assoc). now rewrite <- app_assoc. }
  erewrite map_ext; [exact (G [] Hs)|]. now intros [k c].
Qed.

(** ** The state *)

Lemma exported_all t : exported t (fun _ => true) = export_with_private_keys t.
Proof. reflexivity. Qed.

Lemma windows_storable x : windows_ok x -> BTreeMap.sorted (GroupSessionInner.replay_windows x) ->
  Forall window_u32 (GroupSessionInner.replay_windows x) -> Forall WindowCodec.storable (GroupSessionInner.replay_windows x).
Proof.
  intros Hw Hs Hu. apply Forall_forall. intros [i w] Hin. destruct (proj1 (Forall_forall _ _) Hu _ Hin) as [Hi Hh].
  destruct (Hw i w (BTreeMap.In_get _ _ _ Hs Hin)) as (seen & Hr & _). now apply (WindowCodec.refines_storable i w seen).
Qed.

Lemma secret_matches seed : validate_ed25519_secret_matches_public (SecureMemoryHandle.mk (ed25519_keypair seed))
  (ed25519_public (ed25519_keypair seed)) = Ok tt.
Proof.
  unfold validate_ed25519_secret_matches_public, crypto_err. rewrite ed25519_public_len by apply ed25519_keypair_len.
  rewrite SecureMemoryHandle.read_bytes_exact by apply ed25519_keypair_len. rewrite Z.eqb_refl. cbn [ensure rbind map_err].
  rewrite ed25519_keypair_len, Z.eqb_refl, ed25519_keypair_valid. cbn [ensure rbind].
  rewrite constant_time_equals_spec, bytes_eqb_refl. reflexivity.
Qed.

Lemma state_reads x seed tag : member x seed -> persistable x seed ->
  GroupSealing.session_of_state (GroupProtocolState.set_state_hmac tag (GroupSealing.state_of x)) (SecureMemoryHandle.mk (ed25519_keypair seed)) =
  Ok (restored x).
Proof.
  intros M Pe. unfold GroupSealing.session_of_state, GroupSealing.state_of.
  cbn [GroupProtocolState.set_state_hmac GroupProtocolState.my_identity_ed25519_public GroupProtocolState.tree_nodes
       GroupProtocolState.epoch_secret GroupProtocolState.metadata_key GroupProtocolState.welcome_key
       GroupProtocolState.confirmation_key GroupProtocolState.init_secret GroupProtocolState.security_policy
       GroupProtocolState.sender_chains GroupProtocolState.seen_message_ids GroupProtocolState.member_roles
       GroupProtocolState.group_id GroupProtocolState.epoch GroupProtocolState.my_leaf_index
       GroupProtocolState.group_context_hash GroupProtocolState.my_identity_x25519_public EpochKeys.init_secret].
  rewrite (pe_public _ _ Pe) at 1. rewrite secret_matches. cbn [rbind].
  rewrite <- exported_all, (from_exported _ (cm_wf _ _ _ (mb_committer _ _ M)) (mb_signed _ _ M)). cbn [rbind].
  rewrite (policy_reads _ (pe_policy _ _ Pe)). cbn [rbind]. rewrite (po_valid _ (pe_policy _ _ Pe)). cbn [rbind].
  rewrite (chains_read _ _ _ (mb_store _ _ M) (pe_store _ _ Pe)). cbn [rbind].
  rewrite (WindowCodec.windows_roundtrip _ (pe_sorted _ _ Pe) (windows_storable _ (mb_windows _ _ M) (pe_sorted _ _ Pe) (pe_windows _ _ Pe))). cbn [rbind].
  destruct (pe_external _ _ Pe) as (a & b & E). rewrite E. cbn [rbind]. unfold restored. rewrite (mb_key _ _ M).
  destruct (pe_store _ _ Pe) as [_ _ H1 H2]. unfold from_chains, SenderKeyStore.set_skipped_keys. rewrite H1, H2.
  rewrite (mb_init _ _ M). now destruct (GroupSessionInner.epoch_keys x).
Qed.

(** ** The member *)

Lemma restored_shared x : shared (restored x) =
  shared (GroupSessionInner.set_psk_resolver None (GroupSessionInner.set_pending_reinit None x)).
Proof. unfold shared. cbn. now rewrite imported_public. Qed.

(** A spent generation stays spent; those that were only cached become spent. *)
Lemma restored_spent x l g : spent (GroupSessionInner.sender_store x) l g -> spent (GroupSessionInner.sender_store (restored x)) l g.
Proof. intros [_ H]. split; [reflexivity|exact H]. Qed.

Lemma restored_window x i w : BTreeMap.sorted (GroupSessionInner.replay_windows x) ->
  BTreeMap.get (GroupSessionInner.replay_windows (restored x)) i = Some w -> BTreeMap.get (GroupSessionInner.replay_windows x) i = Some w.
Proof.
  intros Hs H. apply BTreeMap.get_In in H. apply filter_In in H. now apply BTreeMap.In_get.
Qed.

Lemma restored_holds x : holds (GroupSessionInner.tree x) (GroupSessionInner.my_leaf_idx x) ->
  holds (GroupSessionInner.tree (restored x)) (GroupSessionInner.my_leaf_idx x).
Proof.
  intros H i k ph Hi Hb Hv. cbn [restored GroupSessionInner.tree imported_tree RatchetTree.nodes RatchetTree.leaf_count] in *.
  rewrite vget_imported in Hv by exact Hi. destruct (vget (RatchetTree.nodes (GroupSessionInner.tree x)) i) as [c|] eqn:E; [|discriminate].
  apply Some_inj in Hv. destruct c as [|k0 ph0]; [discriminate|]. exact (imported_keyed k0 ph0 k ph (H i k0 ph0 Hi Hb E) Hv).
Qed.

Lemma restored_member x seed : member x seed -> persistable x seed -> member (restored x) seed.
Proof.
  intros M Pe. pose proof (imported_public (GroupSessionInner.tree x) (fun _ => true)) as Hp. constructor.
  - destruct (mb_committer _ _ M) as [W H0 Hd]. constructor; [exact (wf_public _ _ (eq_sym Hp) W)|exact H0|exact Hd].
  - exact (signed_public _ _ (eq_sym Hp) (mb_signed _ _ M)).
  - exact (restored_holds x (mb_holds _ _ M)).
  - apply imported_clonable.
  - exact (mb_init _ _ M).
  - destruct (mb_store _ _ M) as [_ Hc _ [Hb _]]. constructor; [constructor|exact Hc|discriminate|].
    split; exact Hb.
  - exact (mb_key _ _ M).
  - intros leaf w Hw. apply restored_window in Hw; [|exact (pe_sorted _ _ Pe)].
    destruct (mb_windows _ _ M leaf w Hw) as (seen & Hr & Hs). exists seen. split; [exact Hr|].
    revert Hs. apply Forall_impl. intros g. apply restored_spent.
Qed.

(** ** The envelope *)

(** The parts of a sealed state: the tag, the encrypted data key and the
    encrypted state. *)
Record sealed_parts (x : GroupSessionInner) (key : bytes) (ctr : Z) (e : GroupSealEntropy) (tag ed es : bytes) : Prop := {
  sp_tag : exists hk, expand key GROUP_STATE_HMAC_INFO HMAC_BYTES = Ok hk /\ tag = hmac_sha256 hk (encode (GroupSealing.state_of x));
  sp_dek : aes_encrypt key (gx_dek_nonce e) (gx_dek e) (GroupSealing.dek_aad GROUP_SEALED_STATE_VERSION ctr) = Ok ed;
  sp_state : aes_encrypt (gx_dek e) (gx_state_nonce e) (encode (GroupProtocolState.set_state_hmac tag (GroupSealing.state_of x)))
    (GroupSealing.build_state_aad (GroupSealing.dek_aad GROUP_SEALED_STATE_VERSION ctr) (gx_dek_nonce e) ed) = Ok es }.

Definition envelope (ctr : Z) (e : GroupSealEntropy) (ed es : bytes) : SealedGroupState.t :=
  SealedGroupState.mk GROUP_SEALED_STATE_VERSION (gx_dek_nonce e) (gx_state_nonce e) ed es ctr.

(** The messages of the export fit their types. *)
Definition seal_typed (x : GroupSessionInner) (key : bytes) (ctr : Z) (e : GroupSealEntropy) : Prop :=
  forall tag ed es, sealed_parts x key ctr e tag ed es ->
    wfS (GroupProtocolState.set_state_hmac tag (GroupSealing.state_of x)) /\ wfZ (envelope ctr e ed es).

Lemma export_parts x key ctr e sealed : GroupSealing.export_sealed_state key ctr e x = Ok sealed ->
  len key = AES_KEY_BYTES /\ ctr <> 0 /\ exists tag ed es, sealed_parts x key ctr e tag ed es /\ sealed = encode (envelope ctr e ed es).
Proof.
  intros H. unfold GroupSealing.export_sealed_state, GroupSealing.compute_group_state_hmac in H. inv_ok. bools.
  conjs; [assumption|assumption|]. do 3 eexists. split; [|reflexivity]. constructor; eauto.
Qed.

Lemma unseal_parts x key ctr e tag ed es : seal_typed x key ctr e -> sealed_parts x key ctr e tag ed es ->
  GroupSealing.unseal_state (envelope ctr e ed es) key = Ok (GroupProtocolState.set_state_hmac tag (GroupSealing.state_of x)).
Proof.
  intros Ht Hp. destruct (Ht _ _ _ Hp) as [Hw _]. destruct Hp as [(hk & Hhk & Etag) Hed Hes]. unfold GroupSealing.unseal_state, envelope.
  cbn [SealedGroupState.version SealedGroupState.external_counter SealedGroupState.dek_nonce SealedGroupState.encrypted_dek
       SealedGroupState.state_nonce SealedGroupState.encrypted_state].
  rewrite (aes_roundtrip _ _ _ _ _ Hed). cbn [rbind]. rewrite (aes_roundtrip _ _ _ _ _ Hes). cbn [rbind].
  rewrite (decode_encode _ Hw). cbn [ok_or rbind]. rewrite Hhk. cbn [rbind GroupSealing.compute_group_state_hmac].
  change (GroupProtocolState.set_state_hmac [] (GroupProtocolState.set_state_hmac tag (GroupSealing.state_of x))) with (GroupSealing.state_of x).
  unfold crypto_err. rewrite constant_time_equals_spec. cbn [GroupProtocolState.set_state_hmac GroupProtocolState.state_hmac map_err rbind].
  rewrite Etag, bytes_eqb_refl. reflexivity.
Qed.


End Restart.
