(* ===== verification/GroupRun.v ===== *)
(** * Runs of a group

    A group as a set of sessions and the messages of the epoch under way.  Members
    commit, the others process the commit, removed members leave, added members
    join by their welcome; members send, and any bytes may be delivered to any
    member at any time, as messages or as commits.  In every run all members agree
    on the state of the group, every commit is accepted by everyone it concerns,
    and every message can be read by every member that can still receive it. *)

From Stdlib Require Import ZArith List Bool Lia String.
From S2P Require Import Prelude Constants BTree SecureMemory Crypto Signatures TreeIndex.
From S2P Require Import Proto IdentityModels GroupProto KeySchedule SenderKeys SenderRun KeyPackage RatchetTree TreeKem Commit Welcome.
From S2P Require Import TreeFacts PathSecrets PathAgreement ProposalSync CommitSync.
From S2P Require Import GroupReplay GroupContent GroupSessions GroupMessages GroupSync GroupMessageSync WelcomeSync.
Import ListNotations.
Open Scope list_scope.
Open Scope Z_scope.

(** A session with the seed of its signing key. *)
Abbreviation Party := (GroupSessionInner * bytes)%type.

Section Run.
Context {P : Primitives} {L : PrimitiveLaws P} {SG : Signatures} {SL : SignatureLaws SG}.
Context {CC : Prost GroupCommit.t} {CP : Prost GroupSecurityPolicyProto.t} {CE : Prost GroupExternalJoinAuthorization.t}.
Context {CI : Prost GroupInfo.t} {CH : Prost GroupHybridCiphertext.t} {CW : Prost GroupWelcome.t}.
Context {CT : Prost GroupPlaintext.t} {CD : Prost GroupSenderData.t} {CM : Prost GroupMessage.t}.
Context {wfC : GroupCommit.t -> Prop} {CCL : ProstLaws GroupCommit.t wfC}.
Context {wfI : GroupInfo.t -> Prop} {CIL : ProstLaws GroupInfo.t wfI}.
Context {wfW : GroupWelcome.t -> Prop} {CWL : ProstLaws GroupWelcome.t wfW}.
Context {wfP : GroupSecurityPolicyProto.t -> Prop} {CPL : ProstLaws GroupSecurityPolicyProto.t wfP}.
Context {wfT : GroupPlaintext.t -> Prop} {CTL : ProstLaws GroupPlaintext.t wfT}.
Context {wfD : GroupSenderData.t -> Prop} {CDL : ProstLaws GroupSenderData.t wfD}.
Context {wfM : GroupMessage.t -> Prop} {CML : ProstLaws GroupMessage.t wfM}.

(** ** Groups *)

Definition leaf_of (x : Party) : Z := GroupSessionInner.my_leaf_idx (fst x).

(** A message under way: the sender as it was, what it sent, and the message. *)
Record Flight : Type := mkFlight {
  fl_sender : Party;
  fl_content : bytes;
  fl_policy : MessagePolicy;
  fl_actual : option bytes;
  fl_now : Z;
  fl_entropy : MessageEntropy;
  fl_plaintext : GroupPlaintext.t;
  fl_generation : Z;
  fl_message : GroupMessage.t }.

Record Group : Type := mkGroup { g_members : list Party; g_flights : list Flight }.

(** Who a commit leaves in the group. *)
Definition remaining (op : CommitOp) (members : list Party) : list Party :=
  match op with OpRemove leaf => filter (fun x => negb (leaf_of x =? leaf)) members | _ => members end.

(** A member given the bytes of a commit, and one given the bytes of a message. *)
Definition processed (c : bytes) (x : Party) : Party := (snd (GroupSession.process_commit c (fst x)), snd x).

Definition received (bs : bytes) (clock : option Z) (x : Party) : Party := (snd (GroupMessaging.decrypt bs clock (fst x)), snd x).

(** The secrets behind a key package. *)
Record Joiner : Type := mkJoiner { jo_seed : bytes; jo_x25519 : bytes; jo_kyber : bytes }.

(** The joiner after it was given the welcome. *)
Definition joined (op : CommitOp) (wb : bytes) (a : Party) (jo : Joiner) : list Party :=
  match op with
  | OpAdd kp _ =>
      match GroupSession.from_welcome wb (SecureMemoryHandle.mk (jo_x25519 jo)) (fst (kyber_pair (jo_kyber jo)))
              (GroupKeyPackage.identity_ed25519_public kp) (GroupKeyPackage.identity_x25519_public kp) (ed25519_keypair (jo_seed jo)) with
      | Ok j => [(GroupSessionInner.set_psk_resolver (GroupSessionInner.psk_resolver (fst a)) j, jo_seed jo)]
      | Err _ => []
      end
  | _ => []
  end.

(** What a commit needs of its surroundings: random values of the right lengths, a
    path the receivers' key checks accept, messages within the limits, and for an
    addition the holder of the key package and a covered leaf. *)
Record commit_ok (a : Party) (op : CommitOp) (e : PathEntropy) (jo : Joiner) (out : CommitOutput) (t : RatchetTree) : Prop := {
  ck_run : session_commit (fst a) (op_proposals op) (ed25519_keypair (snd a)) e (GroupSessionInner.tree (fst a)) = (Ok out, t);
  ck_op : op_u32 op;
  ck_entropy : entropy_ok e;
  ck_sound : commit_path_sound out;
  ck_send : sendable (wfC := wfC) (co_commit out);
  ck_size : 1 < RatchetTree.leaf_count t;
  ck_join : forall kp w leaf wel, op = OpAdd kp w -> hd_error (co_added_leaf_indices out) = Some leaf ->
    create_welcome t leaf (co_joiner_secret out) (GroupSessionInner.group_id (fst a)) (GroupCommit.epoch (co_commit out))
      (GroupCommit.confirmation_mac (co_commit out)) (co_group_context_hash out)
      (GroupSecurityPolicy.policy_bytes (GroupSessionInner.security_policy (fst a))) (leaf_of a) (ed25519_keypair (snd a))
      (we_nonce w) (we_seal w) = Ok wel ->
    newcomer kp (jo_seed jo) (jo_x25519 jo) (jo_kyber jo) /\ covered t leaf (leaf_of a) /\
    welcome_ok (wfI := wfI) (wfW := wfW) (fst a) out t leaf w wel }.

(** ** Steps *)

Inductive gstep : Group -> Group -> Prop :=
| gs_commit pre a sa post fl op e jo c wb a' out t :
    run_commit op e a = (Ok (c, wb), a') -> commit_ok (a, sa) op e jo out t ->
    gstep (mkGroup (pre ++ (a, sa) :: post) fl)
          (mkGroup ((a', sa) :: map (processed c) (remaining op (pre ++ post)) ++ joined op wb (a, sa) jo) [])
| gs_send pre a sa post fl content policy actual now e gpt g msg a' :
    GroupMessaging.compose_message content policy actual (Some now) e a = (Ok (gpt, g, msg), a') ->
    transmissible (wfT := wfT) (wfD := wfD) (wfM := wfM) (GroupSessionInner.my_leaf_idx a) g (me_reuse_guard e) gpt msg ->
    0 < len (me_franking_key e) ->
    gstep (mkGroup (pre ++ (a, sa) :: post) fl)
          (mkGroup (pre ++ (a', sa) :: post) (mkFlight (a, sa) content policy actual now e gpt g msg :: fl))
| gs_send_fails pre a sa post fl content policy actual clock e err a' :
    GroupMessaging.compose_message content policy actual clock e a = (Err err, a') ->
    gstep (mkGroup (pre ++ (a, sa) :: post) fl) (mkGroup (pre ++ (a', sa) :: post) fl)
| gs_receive pre b post fl bs clock :
    gstep (mkGroup (pre ++ b :: post) fl) (mkGroup (pre ++ received bs clock b :: post) fl)
| gs_bad_commit pre b sb post fl bs err b' : GroupSession.process_commit bs b = (Err err, b') ->
    gstep (mkGroup (pre ++ (b, sb) :: post) fl) (mkGroup (pre ++ (b', sb) :: post) fl).

(** A group as it is created. *)
Inductive created : Group -> Prop :=
| created_by identity credential policy e kp xh kh seed x :
    len (le_x25519 (ge_leaf e)) = X25519_PRIVATE_KEY_BYTES ->
    IdentityKeysInner.identity_ed25519_secret_key identity = SecureMemoryHandle.mk (ed25519_keypair seed) ->
    IdentityKeysInner.identity_ed25519_public identity = ed25519_public (ed25519_keypair seed) ->
    create_key_package identity credential (ge_leaf e) = Ok (kp, xh, kh) -> validate_key_package kp = Ok tt ->
    GroupSession.create_with_policy identity credential policy e = Ok x -> policy_ok (wfP := wfP) policy ->
    created (mkGroup [(x, seed)] []).

Inductive reaches : Group -> Prop :=
| reaches_new g : created g -> reaches g
| reaches_step g g' : reaches g -> gstep g g' -> reaches g'.

(** ** Agreement *)

Definition party_ok (sh : Shared) (x : Party) : Prop := member (fst x) (snd x) /\ shared (fst x) = sh.

Definition flight_ok (sh : Shared) (f : Flight) : Prop :=
  party_ok sh (fl_sender f) /\
  (exists a', GroupMessaging.compose_message (fl_content f) (fl_policy f) (fl_actual f) (Some (fl_now f)) (fl_entropy f) (fst (fl_sender f)) =
    (Ok (fl_plaintext f, fl_generation f, fl_message f), a')) /\
  transmissible (wfT := wfT) (wfD := wfD) (wfM := wfM) (leaf_of (fl_sender f)) (fl_generation f) (me_reuse_guard (fl_entropy f)) (fl_plaintext f) (fl_message f) /\
  0 < len (me_franking_key (fl_entropy f)).

Record agreed (sh : Shared) (g : Group) : Prop := {
  ag_members : Forall (party_ok sh) (g_members g);
  ag_leaves : NoDup (map leaf_of (g_members g));
  ag_flights : Forall (flight_ok sh) (g_flights g);
  ag_policy : policy_ok (wfP := wfP) (sh_policy sh) }.

(** ** Commits *)

Lemma run_committed op e x c wb x' seed : GroupSessionInner.my_ed25519_secret x = SecureMemoryHandle.mk (ed25519_keypair seed) ->
  run_commit op e x = (Ok (c, wb), x') -> exists out t, committed x op e seed c out t x'.
Proof.
  intros Hk H. destruct op as [|leaf|kp w|id v]; cbn [run_commit] in H.
  - apply sbind_Ok in H. destruct H as (c' & s & Hc & H). apply sret_inv in H. destruct H as [H ->]. apply Ok_inj in H. injection H as -> _.
    exact (update_committed e x c' s seed Hk Hc).
  - apply sbind_Ok in H. destruct H as (c' & s & Hc & H). apply sret_inv in H. destruct H as [H ->]. apply Ok_inj in H. injection H as -> _.
    exact (remove_committed leaf e x c' s seed Hk Hc).
  - exact (add_committed kp w e x c wb x' seed Hk H).
  - apply sbind_Ok in H. destruct H as (c' & s & Hc & H). apply sret_inv in H. destruct H as [H ->]. apply Ok_inj in H. injection H as -> _.
    exact (reinit_committed id v e x c' s seed Hk Hc).
Qed.

Lemma remaining_In op members b : In b (remaining op members) -> In b members /\ stays (leaf_of b) (op_proposals op).
Proof.
  destruct op as [|leaf|kp w|id v]; cbn [remaining op_proposals]; intros H; try (split; [exact H|repeat constructor]).
  apply filter_In in H. destruct H as [H Hn]. split; [exact H|]. repeat constructor. cbn. intros ->. now rewrite Z.eqb_refl in Hn.
Qed.

Lemma remaining_leaves op members : NoDup (map leaf_of members) -> NoDup (map leaf_of (remaining op members)).
Proof.
  destruct op as [|leaf|kp w|id v]; cbn [remaining]; auto. induction members as [|x members IH]; cbn [map filter]; [auto|]. intros H.
  inversion_clear H as [|? ? Hx Hrest]. destruct (negb _); [|auto]. cbn [map]. constructor; [|auto]. intros Hin. apply in_map_iff in Hin.
  destruct Hin as (y & Hy & Hin). apply filter_In in Hin. apply Hx. rewrite <- Hy. now apply in_map.
Qed.

(** One other member. *)
Lemma commit_reaches sh a sa op e jo c out t a' b : party_ok sh (a, sa) -> party_ok sh b -> leaf_of b <> GroupSessionInner.my_leaf_idx a ->
  stays (leaf_of b) (op_proposals op) -> committed a op e sa c out t a' -> commit_ok (a, sa) op e jo out t ->
  fst (GroupSession.process_commit c (fst b)) = Ok tt /\ party_ok (shared a') (processed c b) /\ leaf_of (processed c b) = leaf_of b.
Proof.
  intros [Ma Ha] [Mb Hb] Hne Hst Hc K. destruct b as [b sb]. cbn [fst snd leaf_of] in *.
  destruct (commit_delivered a b sa sb op e c out t a' Ma Mb (eq_trans Ha (eq_sym Hb)) (not_eq_sym Hne) Hc (ck_op _ _ _ _ _ _ K) Hst
    (ck_entropy _ _ _ _ _ _ K) (ck_sound _ _ _ _ _ _ K) (ck_send _ _ _ _ _ _ K)) as (b' & Hp & H1 & H2 & H3).
  unfold party_ok, processed, leaf_of. cbn [fst snd]. rewrite Hp. cbn [fst snd]. auto.
Qed.

(** The joiner, when the commit adds one. *)
Lemma joiner_reaches sh a sa op e jo c wb out t a' : party_ok sh (a, sa) -> policy_ok (wfP := wfP) (sh_policy sh) ->
  run_commit op e a = (Ok (c, wb), a') -> commit_ok (a, sa) op e jo out t ->
  Forall (fun j => party_ok (shared a') j /\ get_leaf_data (GroupSessionInner.tree a) (leaf_of j) = None) (joined op wb (a, sa) jo) /\
  len (joined op wb (a, sa) jo) = match op with OpAdd _ _ => 1 | _ => 0 end.
Proof.
  intros [Ma Ha] Hpol Hrun K. cbn [fst snd] in *. destruct op as [|leaf|kp w|id v]; cbn [joined]; try (split; [constructor|reflexivity]).
  destruct (add_inv kp w e a c wb a' sa (mb_key _ _ Ma) Hrun) as (out' & t' & leaf & wel & Hcom & Hl & Hw & ->).
  pose proof Hcom as (_ & Hc & _ & _). pose proof (ck_run _ _ _ _ _ _ K) as Hk. cbn [fst snd] in Hk. rewrite Hc in Hk. apply pair_inj in Hk.
  destruct Hk as [Hk ->]. apply Ok_inj in Hk. subst out'. destruct (ck_join _ _ _ _ _ _ K kp w leaf wel eq_refl Hl Hw) as (N & Cov & Wo).
  assert (Hp : policy_ok (wfP := wfP) (GroupSessionInner.security_policy a)) by (rewrite <- Ha in Hpol; exact Hpol).
  destruct (newcomer_joins a sa kp w e c out t a' leaf wel _ _ _ Ma Hcom (ck_entropy _ _ _ _ _ _ K) (ck_sound _ _ _ _ _ _ K) Hl Hw N Hp Cov Wo)
    as (j0 & Hj & H1 & H2 & H3). rewrite Hj. split; [|reflexivity]. constructor; [|constructor]. split; [split; assumption|].
  unfold leaf_of. cbn [fst]. rewrite H3. apply (added_leaf a sa kp w e out t leaf Ma (ck_entropy _ _ _ _ _ _ K) Hc Hl).
Qed.

Lemma member_occupied x seed : member x seed -> get_leaf_data (GroupSessionInner.tree x) (GroupSessionInner.my_leaf_idx x) <> None.
Proof. intros M. destruct (mb_committer _ _ M) as [_ _ (d & -> & _)]. discriminate. Qed.

(** Members, and newcomers at free leaves. *)
Lemma new_leaves a (members joiners : list Party) :
  Forall (fun x => get_leaf_data (GroupSessionInner.tree a) (leaf_of x) <> None) members ->
  Forall (fun x => get_leaf_data (GroupSessionInner.tree a) (leaf_of x) = None) joiners -> len joiners <= 1 ->
  NoDup (map leaf_of members) -> NoDup (map leaf_of (members ++ joiners)).
Proof.
  intros Hm Hj Hl Hnd. rewrite map_app. destruct joiners as [|j [|j' joiners]]; [now rewrite app_nil_r| |rewrite !len_cons in Hl; pose proof (len_nonneg joiners); lia].
  cbn [map]. apply NoDup_Add with (a := leaf_of j) (l := map leaf_of members); [rewrite <- (app_nil_r (map leaf_of members)) at 1; apply Add_app|].
  split; [exact Hnd|]. intros Hin. apply in_map_iff in Hin. destruct Hin as (x & Hx & Hin). rewrite Forall_forall in Hm. apply (Hm x Hin). rewrite Hx.
  now apply Forall_inv in Hj.
Qed.

Lemma commit_round sh pre a sa post fl op e jo c wb a' out t : agreed sh (mkGroup (pre ++ (a, sa) :: post) fl) ->
  run_commit op e a = (Ok (c, wb), a') -> commit_ok (a, sa) op e jo out t ->
  agreed (shared a') (mkGroup ((a', sa) :: map (processed c) (remaining op (pre ++ post)) ++ joined op wb (a, sa) jo) []) /\
  Forall (fun b => fst (GroupSession.process_commit c (fst b)) = Ok tt) (remaining op (pre ++ post)).
Proof.
  intros [Hm Hnd _ Hpol] Hrun K. cbn [g_members] in *. pose proof (proj1 (Forall_forall _ _) Hm) as Hall.
  pose proof (Hall (a, sa) (in_elt _ _ _)) as Pa. pose proof Pa as [Ma Ha]. cbn [fst snd] in Ma, Ha.
  destruct (run_committed op e a c wb a' sa (mb_key _ _ Ma) Hrun) as (out' & t' & Hcom). pose proof Hcom as (_ & Hc & _ & Ad).
  pose proof (ck_run _ _ _ _ _ _ K) as Hk. cbn [fst snd] in Hk. rewrite Hc in Hk. apply pair_inj in Hk. destruct Hk as [Hk ->]. apply Ok_inj in Hk. subst out'.
  rewrite map_app in Hnd. cbn [map] in Hnd. pose proof (NoDup_remove_1 _ _ _ Hnd) as Hnd1. apply NoDup_remove_2 in Hnd. rewrite <- map_app in Hnd, Hnd1.
  assert (Hothers : forall b, In b (remaining op (pre ++ post)) ->
    fst (GroupSession.process_commit c (fst b)) = Ok tt /\ party_ok (shared a') (processed c b) /\ leaf_of (processed c b) = leaf_of b).
  { intros b Hb. apply remaining_In in Hb. destruct Hb as [Hb Hst]. assert (Hbo : party_ok sh b).
    { apply Hall. apply in_app_iff in Hb. apply in_app_iff. cbn. tauto. }
    apply (commit_reaches sh a sa op e jo c out t a' b Pa Hbo); auto. intros E. apply Hnd. unfold leaf_of at 1. cbn [fst]. rewrite <- E. now apply in_map. }
  destruct (joiner_reaches sh a sa op e jo c wb out t a' Pa Hpol Hrun K) as [Hj Hjl].
  assert (Hleaf : map leaf_of (map (processed c) (remaining op (pre ++ post))) = map leaf_of (remaining op (pre ++ post))).
  { rewrite map_map. apply map_ext_in. intros b Hb. now apply Hothers. }
  assert (Haf : leaf_of (a', sa) = leaf_of (a, sa)) by exact (ad_leaf _ _ _ _ _ Ad).
  split; [constructor; cbn [g_members g_flights]|].
  - constructor; [split; [|reflexivity]|].
    { exact (commit_own_member a sa op e c out t a' Ma Hcom (ck_op _ _ _ _ _ _ K) (ck_entropy _ _ _ _ _ _ K) (ck_sound _ _ _ _ _ _ K) (ck_size _ _ _ _ _ _ K)). }
    apply Forall_app. split; [|eapply Forall_impl; [|exact Hj]; now intros j [H _]].
    apply Forall_forall. intros b Hb. apply in_map_iff in Hb. destruct Hb as (b0 & <- & Hb). now apply Hothers.
  - assert (Hren : map leaf_of ((a', sa) :: map (processed c) (remaining op (pre ++ post)) ++ joined op wb (a, sa) jo) =
      map leaf_of (((a, sa) :: remaining op (pre ++ post)) ++ joined op wb (a, sa) jo)).
    { cbn [map app]. now rewrite !map_app, Hleaf, Haf. }
    rewrite Hren. apply (new_leaves a).
    + apply Forall_forall. intros b Hb. assert (Hbo : party_ok sh b).
      { apply Hall. destruct Hb as [<-|Hb]; [apply in_elt|]. apply remaining_In in Hb. destruct Hb as [Hb _]. apply in_app_iff in Hb. apply in_app_iff. cbn. tauto. }
      destruct Hbo as [Mb Hb']. rewrite (shared_leaf a (fst b)) by congruence. exact (member_occupied _ _ Mb).
    + eapply Forall_impl; [|exact Hj]. now intros j [_ H].
    + rewrite Hjl. destruct op; lia.
    + cbn [map]. constructor; [|now apply remaining_leaves]. intros Hin. apply in_map_iff in Hin. destruct Hin as (b & Hb & Hin).
      apply remaining_In in Hin. apply Hnd. rewrite <- Hb. apply in_map. apply Hin.
  - constructor.
  - rewrite <- Ha in Hpol. cbn [sh_policy shared] in *. now rewrite (ad_policy _ _ _ _ _ Ad).
  - apply Forall_forall. intros b Hb. now apply Hothers.
Qed.

(** ** The other steps *)

Lemma replace_party sh pre x y post fl fl' : agreed sh (mkGroup (pre ++ x :: post) fl) -> party_ok sh y -> leaf_of y = leaf_of x ->
  Forall (flight_ok sh) fl' -> agreed sh (mkGroup (pre ++ y :: post) fl').
Proof.
  intros [Hm Hnd _ Hpol] Hy Hl Hfl. cbn [g_members g_flights] in *. constructor; cbn [g_members g_flights]; auto.
  - apply Forall_app in Hm. destruct Hm as [H1 H2]. inversion_clear H2. apply Forall_app. auto.
  - rewrite map_app in *. cbn [map] in *. now rewrite Hl.
Qed.

Lemma party_in sh pre x post fl : agreed sh (mkGroup (pre ++ x :: post) fl) -> party_ok sh x.
Proof. intros [Hm _ _ _]. exact (proj1 (Forall_forall _ _) Hm x (in_elt _ _ _)). Qed.

(** A member after a message was sent or bytes were received. *)
Lemma party_later sh x seed y : party_ok sh (x, seed) -> later x y -> party_ok sh (y, seed) /\ leaf_of (y, seed) = leaf_of (x, seed).
Proof. intros [M H] Hl. destruct (later_member x y seed M Hl) as (H1 & H2 & H3). split; [split; cbn in *; congruence|exact H3]. Qed.

Lemma step_agreed sh g g' : agreed sh g -> gstep g g' -> exists sh', agreed sh' g'.
Proof.
  intros A H. destruct H as [pre a sa post fl op e jo c wb a' out t Hrun K|pre a sa post fl content policy actual now e gpt g msg a' Hc T Hf
    |pre a sa post fl content policy actual clock e err a' Hc|pre [b sb] post fl bs clock|pre b sb post fl bs err b' Hp]; pose proof (party_in _ _ _ _ _ A) as Pa.
  - exists (shared a'). exact (proj1 (commit_round sh pre a sa post fl op e jo c wb a' out t A Hrun K)).
  - exists sh. pose proof Pa as [Ma Ha]. cbn [fst snd] in Ma, Ha.
    destruct (compose_composes a sa content policy actual (Some now) e (member_keys _ _ Ma) (mb_committer _ _ Ma) (mb_key _ _ Ma) _ _ Hc) as [Hl _].
    destruct (party_later sh a sa a' Pa Hl) as [P1 P2]. apply (replace_party sh pre (a, sa) (a', sa) post fl); auto.
    constructor; [|exact (ag_flights _ _ A)]. split; [exact Pa|]. split; [eauto|]. auto.
  - exists sh. pose proof Pa as [Ma Ha]. cbn [fst snd] in Ma, Ha.
    destruct (compose_composes a sa content policy actual clock e (member_keys _ _ Ma) (mb_committer _ _ Ma) (mb_key _ _ Ma) _ _ Hc) as [Hl _].
    destruct (party_later sh a sa a' Pa Hl) as [P1 P2]. apply (replace_party sh pre (a, sa) (a', sa) post fl); auto. exact (ag_flights _ _ A).
  - exists sh. pose proof Pa as [Mb Hb]. cbn [fst snd] in Mb, Hb. unfold received. cbn [fst snd].
    destruct (GroupMessaging.decrypt bs clock b) as [r b'] eqn:E. cbn [snd]. destruct (decrypt_receives bs clock b (member_keys _ _ Mb) r b' E) as [Hl _].
    destruct (party_later sh b sb b' Pa Hl) as [P1 P2]. apply (replace_party sh pre (b, sb) (b', sb) post fl); auto. exact (ag_flights _ _ A).
  - exists sh. destruct (process_commit_cases bs b _ b' Hp) as [[_ ->]|[H _]]; [|discriminate H]. exact A.
Qed.

Lemma reaches_agreed g : reaches g -> exists sh, agreed sh g.
Proof.
  induction 1 as [g H|g g' _ [sh A] H]; [|exact (step_agreed sh g g' A H)].
  destruct H as [identity credential policy e kp xh kh seed x H1 H2 H3 H4 H5 H6 H7]. exists (shared x).
  destruct (creator_member identity credential policy e kp xh kh seed x H1 H2 H3 H4 H5 H6) as [M Hp].
  constructor; cbn [g_members g_flights].
  - constructor; [|constructor]. now split.
  - repeat constructor. intros [].
  - constructor.
  - cbn [sh_policy shared]. now rewrite Hp.
Qed.

(** ** Properties *)



(** C6. A message under way can be read by every other member that can still
    receive it: in any reachable state of the group, however many messages were
    sent, lost, duplicated or reordered since, [decrypt] of the message returns
    what its sender wrote. *)
Theorem group_messages_readable g f b clock (R : reaches g) (Hf : In f (g_flights g)) (Hb : In b (g_members g))
    (Hne : leaf_of b <> leaf_of (fl_sender f)) (D : deliverable (fst b) (leaf_of (fl_sender f)) (fl_generation f))
    (Hlife : GroupMessaging.check_lifetime (MessagePolicy.content_type (fl_policy f)) (MessagePolicy.ttl_seconds (fl_policy f)) (fl_now f) clock = Ok tt) :
  exists res b', GroupMessaging.decrypt (encode (fl_message f)) clock (fst b) = (Ok res, b') /\
    delivers (fl_content f) (GroupMessaging.effective_policy (GroupSessionInner.security_policy (fst b)) (fl_policy f)) (fl_actual f) (fl_now f)
      (leaf_of (fl_sender f)) (fl_generation f) res.
Proof.
  destruct (reaches_agreed _ R) as [sh [Hm _ Hfl _]]. rewrite Forall_forall in Hm, Hfl. destruct (Hm b Hb) as [Mb Sb].
  destruct (Hfl f Hf) as ([Ma Sa] & [a' Hc] & T & Hfk). assert (Hpol : GroupSessionInner.security_policy (fst b) = GroupSessionInner.security_policy (fst (fl_sender f))).
  { exact (f_equal sh_policy (eq_trans Sb (eq_sym Sa))). }
  rewrite Hpol. exact (message_delivered (fst (fl_sender f)) (fst b) _ _ _ _ _ _ _ _ _ _ a' clock Ma Mb (eq_trans Sa (eq_sym Sb)) (not_eq_sym Hne) Hc T Hfk Hlife D).
Qed.

End Run.
