(* ===== verification/GroupExamples.v ===== *)
(** * A concrete group

    Executable stand-ins for the codec of the group messages, and a small group
    (Alice creates it, adds Bob and Carol; notes are sent and read; Bob
    restarts) on which the theorems about groups are applied.  At the end, a run
    in which a new member is left out by the next commit. *)

From Stdlib Require Import ZArith List Bool Lia String.
From S2P Require Import Prelude Constants BTree SecureMemory Crypto Toy Signatures Padding DhValidator Proto ToyCodec.
From S2P Require Import TreeIndex GroupProto KeySchedule SenderKeys SenderRun IdentityModels Identity KeyPackage.
From S2P Require Import RatchetTree TreeKem Commit Welcome TreeFacts TreeMembers PathSecrets ProposalSync PathAgreement TreeTypes CommitSync.
From S2P Require Import GroupReplay GroupContent GroupSessions GroupMessages GroupSeal GroupSync GroupMessageSync.
From S2P Require Import WelcomeSync GroupRestart GroupRun.
Import ListNotations.
Open Scope list_scope.
Open Scope Z_scope.

#[export] Program Instance codec_sum {A B} `{Codec A} `{Codec B} : Codec (A + B) := {
  enc x := match x with inl a => 0 :: enc a | inr b => 1 :: enc b end;
  dec l := match l with
           | z :: l =>
               if z =? 0 then match dec l with Some (a, l) => Some (inl a, l) | None => None end
               else match dec l with Some (b, l) => Some (inr b, l) | None => None end
           | [] => None
           end }.
Next Obligation. destruct a; simpl; now rewrite dec_enc. Qed.

#[export] Instance codec_key_package : Codec GroupKeyPackage.t.
Proof.
  refine (codec_iso (A := Z * (bytes * (bytes * (bytes * (bytes * (bytes * (bytes * ((option Timestamp.t) *
    (bytes)))))))))
    (fun m => (GroupKeyPackage.version m, (GroupKeyPackage.identity_ed25519_public m,
    (GroupKeyPackage.identity_x25519_public m, (GroupKeyPackage.leaf_x25519_public m,
    (GroupKeyPackage.leaf_kyber_public m, (GroupKeyPackage.signature m, (GroupKeyPackage.credential
    m, (GroupKeyPackage.created_at m, GroupKeyPackage.identity_kyber_public m)))))))))
    (fun '(x1, (x2, (x3, (x4, (x5, (x6, (x7, (x8, x9)))))))) =>
    GroupKeyPackage.mk x1 x2 x3 x4 x5 x6 x7 x8 x9) _).
  now intros [].
Defined.

#[export] Instance codec_tree_node : Codec GroupTreeNode.t.
Proof.
  refine (codec_iso (A := Z * (bytes * (bytes * (bytes * (bytes * (bytes * ((option GroupKeyPackage.t))))))))
    (fun m => (GroupTreeNode.node_index m, (GroupTreeNode.x25519_public m, (GroupTreeNode.kyber_public
    m, (GroupTreeNode.x25519_private m, (GroupTreeNode.kyber_secret m, (GroupTreeNode.parent_hash m,
    GroupTreeNode.key_package m)))))))
    (fun '(x1, (x2, (x3, (x4, (x5, (x6, x7)))))) =>
    GroupTreeNode.mk x1 x2 x3 x4 x5 x6 x7) _).
  now intros [].
Defined.

#[export] Instance codec_external_init : Codec GroupExternalInitProposal.t.
Proof.
  refine (codec_iso (A := bytes * (bytes * (bytes)))
    (fun m => (GroupExternalInitProposal.ephemeral_x25519_public m,
    (GroupExternalInitProposal.kyber_ciphertext m, GroupExternalInitProposal.authorization m)))
    (fun '(x1, (x2, x3)) =>
    GroupExternalInitProposal.mk x1 x2 x3) _).
  now intros [].
Defined.

#[export] Instance codec_join_authorization : Codec GroupExternalJoinAuthorization.t.
Proof.
  refine (codec_iso (A := bytes * (Z * (bytes * (bytes * (bytes * (Z * (bytes * (bytes * (bytes * (bytes * (Z * (Z *
    (Z)))))))))))))
    (fun m => (GroupExternalJoinAuthorization.group_id m, (GroupExternalJoinAuthorization.epoch m,
    (GroupExternalJoinAuthorization.joiner_identity_ed25519_public m,
    (GroupExternalJoinAuthorization.joiner_identity_x25519_public m,
    (GroupExternalJoinAuthorization.joiner_credential m,
    (GroupExternalJoinAuthorization.authorizer_leaf_index m,
    (GroupExternalJoinAuthorization.authorizer_signature m,
    (GroupExternalJoinAuthorization.group_context_hash m,
    (GroupExternalJoinAuthorization.external_x25519_public m,
    (GroupExternalJoinAuthorization.external_kyber_public m,
    (GroupExternalJoinAuthorization.issued_at_unix m,
    (GroupExternalJoinAuthorization.expires_at_unix m,
    GroupExternalJoinAuthorization.auth_format_version m)))))))))))))
    (fun '(x1, (x2, (x3, (x4, (x5, (x6, (x7, (x8, (x9, (x10, (x11, (x12, x13)))))))))))) =>
    GroupExternalJoinAuthorization.mk x1 x2 x3 x4 x5 x6 x7 x8 x9 x10 x11 x12 x13) _).
  now intros [].
Defined.

#[export] Instance codec_psk_proposal : Codec GroupPskProposal.t.
Proof.
  refine (codec_iso (A := bytes * (bytes))
    (fun m => (GroupPskProposal.psk_id m, GroupPskProposal.psk_nonce m))
    (fun '(x1, x2) =>
    GroupPskProposal.mk x1 x2) _).
  now intros [].
Defined.

#[export] Instance codec_reinit_proposal : Codec GroupReInitProposal.t.
Proof.
  refine (codec_iso (A := bytes * (Z))
    (fun m => (GroupReInitProposal.new_group_id m, GroupReInitProposal.new_version m))
    (fun '(x1, x2) =>
    GroupReInitProposal.mk x1 x2) _).
  now intros [].
Defined.

#[export] Instance codec_add_proposal : Codec GroupAddProposal.t.
Proof.
  refine (codec_iso (A := (option GroupKeyPackage.t))
    (fun m => GroupAddProposal.key_package m)
    (fun x1 => GroupAddProposal.mk x1) _).
  now intros [].
Defined.

#[export] Instance codec_remove_proposal : Codec GroupRemoveProposal.t.
Proof.
  refine (codec_iso (A := Z)
    (fun m => GroupRemoveProposal.removed_leaf_index m)
    (fun x1 => GroupRemoveProposal.mk x1) _).
  now intros [].
Defined.

#[export] Instance codec_update_proposal : Codec GroupUpdateProposal.t.
Proof.
  refine (codec_iso (A := bytes * (bytes))
    (fun m => (GroupUpdateProposal.leaf_x25519_public m, GroupUpdateProposal.leaf_kyber_public m))
    (fun '(x1, x2) =>
    GroupUpdateProposal.mk x1 x2) _).
  now intros [].
Defined.

#[export] Instance codec_proposal_kind : Codec GroupProposal.Proposal.
Proof.
  refine (codec_iso (A := GroupAddProposal.t + (GroupRemoveProposal.t + (GroupUpdateProposal.t + (GroupExternalInitProposal.t +
      (GroupPskProposal.t + GroupReInitProposal.t)))))
    (fun p => match p with
              | GroupProposal.Add x => inl x
              | GroupProposal.Remove x => inr (inl x)
              | GroupProposal.Update x => inr (inr (inl x))
              | GroupProposal.ExternalInit x => inr (inr (inr (inl x)))
              | GroupProposal.Psk x => inr (inr (inr (inr (inl x))))
              | GroupProposal.ReInit x => inr (inr (inr (inr (inr x))))
              end)
    (fun s => match s with
              | inl x => GroupProposal.Add x
              | inr (inl x) => GroupProposal.Remove x
              | inr (inr (inl x)) => GroupProposal.Update x
              | inr (inr (inr (inl x))) => GroupProposal.ExternalInit x
              | inr (inr (inr (inr (inl x)))) => GroupProposal.Psk x
              | inr (inr (inr (inr (inr x)))) => GroupProposal.ReInit x
              end) _).
  now intros [].
Defined.

#[export] Instance codec_proposal : Codec GroupProposal.t.
Proof. refine (codec_iso (A := option GroupProposal.Proposal) GroupProposal.proposal GroupProposal.mk _). now intros []. Defined.

#[export] Instance codec_hybrid_ciphertext : Codec GroupHybridCiphertext.t.
Proof.
  refine (codec_iso (A := bytes * (bytes * (bytes * (bytes))))
    (fun m => (GroupHybridCiphertext.ephemeral_x25519_public m, (GroupHybridCiphertext.kyber_ciphertext
    m, (GroupHybridCiphertext.encrypted_secret m, GroupHybridCiphertext.nonce m))))
    (fun '(x1, (x2, (x3, x4))) =>
    GroupHybridCiphertext.mk x1 x2 x3 x4) _).
  now intros [].
Defined.

#[export] Instance codec_path_node : Codec GroupUpdatePathNode.t.
Proof.
  refine (codec_iso (A := bytes * (bytes * ((list GroupHybridCiphertext.t) * (bytes))))
    (fun m => (GroupUpdatePathNode.x25519_public m, (GroupUpdatePathNode.kyber_public m,
    (GroupUpdatePathNode.encrypted_path_secrets m, GroupUpdatePathNode.parent_hash m))))
    (fun '(x1, (x2, (x3, x4))) =>
    GroupUpdatePathNode.mk x1 x2 x3 x4) _).
  now intros [].
Defined.

#[export] Instance codec_update_path : Codec GroupUpdatePath.t.
Proof.
  refine (codec_iso (A := bytes * (bytes * ((list GroupUpdatePathNode.t) * (bytes))))
    (fun m => (GroupUpdatePath.leaf_x25519_public m, (GroupUpdatePath.leaf_kyber_public m,
    (GroupUpdatePath.nodes m, GroupUpdatePath.leaf_signature m))))
    (fun '(x1, (x2, (x3, x4))) =>
    GroupUpdatePath.mk x1 x2 x3 x4) _).
  now intros [].
Defined.

#[export] Instance codec_commit : Codec GroupCommit.t.
Proof.
  refine (codec_iso (A := Z * ((list GroupProposal.t) * ((option GroupUpdatePath.t) * (bytes * (Z * (bytes *
    (bytes)))))))
    (fun m => (GroupCommit.committer_leaf_index m, (GroupCommit.proposals m, (GroupCommit.update_path m,
    (GroupCommit.confirmation_mac m, (GroupCommit.epoch m, (GroupCommit.group_id m,
    GroupCommit.committer_signature m)))))))
    (fun '(x1, (x2, (x3, (x4, (x5, (x6, x7)))))) =>
    GroupCommit.mk x1 x2 x3 x4 x5 x6 x7) _).
  now intros [].
Defined.

#[export] Instance codec_welcome : Codec GroupWelcome.t.
Proof.
  refine (codec_iso (A := Z * (bytes * (Z * (bytes * (bytes * ((option GroupHybridCiphertext.t) * (bytes * (Z * (Z *
    (bytes))))))))))
    (fun m => (GroupWelcome.version m, (GroupWelcome.group_id m, (GroupWelcome.epoch m,
    (GroupWelcome.encrypted_group_info m, (GroupWelcome.welcome_nonce m,
    (GroupWelcome.encrypted_joiner_secret m, (GroupWelcome.tree_hash m,
    (GroupWelcome.target_leaf_index m, (GroupWelcome.committer_leaf_index m,
    GroupWelcome.committer_signature m))))))))))
    (fun '(x1, (x2, (x3, (x4, (x5, (x6, (x7, (x8, (x9, x10))))))))) =>
    GroupWelcome.mk x1 x2 x3 x4 x5 x6 x7 x8 x9 x10) _).
  now intros [].
Defined.

#[export] Instance codec_group_info : Codec GroupInfo.t.
Proof.
  refine (codec_iso (A := bytes * (Z * ((list GroupTreeNode.t) * (bytes * (bytes * (bytes))))))
    (fun m => (GroupInfo.group_id m, (GroupInfo.epoch m, (GroupInfo.tree_nodes m,
    (GroupInfo.group_context_hash m, (GroupInfo.confirmation_mac m, GroupInfo.security_policy
    m))))))
    (fun '(x1, (x2, (x3, (x4, (x5, x6))))) =>
    GroupInfo.mk x1 x2 x3 x4 x5 x6) _).
  now intros [].
Defined.

#[export] Instance codec_application_message : Codec GroupApplicationMessage.t.
Proof.
  refine (codec_iso (A := bytes * (bytes * (bytes * (bytes * (bytes * (bytes))))))
    (fun m => (GroupApplicationMessage.encrypted_sender_data m,
    (GroupApplicationMessage.sender_data_nonce m, (GroupApplicationMessage.encrypted_payload m,
    (GroupApplicationMessage.payload_nonce m, (GroupApplicationMessage.franking_tag m,
    GroupApplicationMessage.sender_signature m))))))
    (fun '(x1, (x2, (x3, (x4, (x5, x6))))) =>
    GroupApplicationMessage.mk x1 x2 x3 x4 x5 x6) _).
  now intros [].
Defined.

#[export] Instance codec_message_content : Codec GroupMessage.Content.
Proof.
  refine (codec_iso (A := GroupApplicationMessage.t + (GroupCommit.t + GroupWelcome.t))
    (fun c => match c with
              | GroupMessage.Application x => inl x
              | GroupMessage.Commit x => inr (inl x)
              | GroupMessage.Welcome x => inr (inr x)
              end)
    (fun s => match s with
              | inl x => GroupMessage.Application x
              | inr (inl x) => GroupMessage.Commit x
              | inr (inr x) => GroupMessage.Welcome x
              end) _).
  now intros [].
Defined.

#[export] Instance codec_group_message : Codec GroupMessage.t.
Proof.
  refine (codec_iso (A := Z * (bytes * (Z * ((option GroupMessage.Content)))))
    (fun m => (GroupMessage.version m, (GroupMessage.group_id m, (GroupMessage.epoch m,
    GroupMessage.content m))))
    (fun '(x1, (x2, (x3, x4))) =>
    GroupMessage.mk x1 x2 x3 x4) _).
  now intros [].
Defined.

#[export] Instance codec_public_state : Codec GroupPublicState.t.
Proof.
  refine (codec_iso (A := Z * (bytes * (Z * ((list GroupTreeNode.t) * (bytes * (bytes * (bytes * (bytes *
    (bytes)))))))))
    (fun m => (GroupPublicState.version m, (GroupPublicState.group_id m, (GroupPublicState.epoch m,
    (GroupPublicState.tree_nodes m, (GroupPublicState.group_context_hash m,
    (GroupPublicState.confirmation_mac m, (GroupPublicState.external_x25519_public m,
    (GroupPublicState.external_kyber_public m, GroupPublicState.security_policy m)))))))))
    (fun '(x1, (x2, (x3, (x4, (x5, (x6, (x7, (x8, x9)))))))) =>
    GroupPublicState.mk x1 x2 x3 x4 x5 x6 x7 x8 x9) _).
  now intros [].
Defined.

#[export] Instance codec_sender_data : Codec GroupSenderData.t.
Proof.
  refine (codec_iso (A := Z * (Z * (bytes)))
    (fun m => (GroupSenderData.sender_leaf_index m, (GroupSenderData.generation m,
    GroupSenderData.reuse_guard m)))
    (fun '(x1, (x2, x3)) =>
    GroupSenderData.mk x1 x2 x3) _).
  now intros [].
Defined.

#[export] Instance codec_message_policy : Codec GroupMessagePolicy.t.
Proof.
  refine (codec_iso (A := Z * (Z * (Z)))
    (fun m => (GroupMessagePolicy.content_type m, (GroupMessagePolicy.ttl_seconds m,
    GroupMessagePolicy.sent_timestamp m)))
    (fun '(x1, (x2, x3)) =>
    GroupMessagePolicy.mk x1 x2 x3) _).
  now intros [].
Defined.

#[export] Instance codec_mention : Codec GroupMention.t.
Proof.
  refine (codec_iso (A := Z * (Z * (Z)))
    (fun m => (GroupMention.leaf_index m, (GroupMention.offset m, GroupMention.length m)))
    (fun '(x1, (x2, x3)) =>
    GroupMention.mk x1 x2 x3) _).
  now intros [].
Defined.

#[export] Instance codec_reply_context : Codec GroupReplyContext.t.
Proof.
  refine (codec_iso (A := bytes * ((option bytes) * ((option Z))))
    (fun m => (GroupReplyContext.reply_to_message_id m, (GroupReplyContext.thread_root_id m,
    GroupReplyContext.depth m)))
    (fun '(x1, (x2, x3)) =>
    GroupReplyContext.mk x1 x2 x3) _).
  now intros [].
Defined.

#[export] Instance codec_group_plaintext : Codec GroupPlaintext.t.
Proof.
  refine (codec_iso (A := bytes * ((option GroupMessagePolicy.t) * (bytes * (bytes * (bytes * (bytes * (bytes * ((list
    GroupMention.t) * ((option GroupReplyContext.t))))))))))
    (fun m => (GroupPlaintext.content m, (GroupPlaintext.policy m, (GroupPlaintext.franking_key m,
    (GroupPlaintext.sealed_content m, (GroupPlaintext.sealed_nonce m,
    (GroupPlaintext.prev_message_hash m, (GroupPlaintext.referenced_message_id m,
    (GroupPlaintext.mentions m, GroupPlaintext.reply_context m)))))))))
    (fun '(x1, (x2, (x3, (x4, (x5, (x6, (x7, (x8, x9)))))))) =>
    GroupPlaintext.mk x1 x2 x3 x4 x5 x6 x7 x8 x9) _).
  now intros [].
Defined.

#[export] Instance codec_sender_chain : Codec GroupMemberSenderChain.t.
Proof.
  refine (codec_iso (A := Z * (bytes * (Z)))
    (fun m => (GroupMemberSenderChain.leaf_index m, (GroupMemberSenderChain.chain_key m,
    GroupMemberSenderChain.generation m)))
    (fun '(x1, (x2, x3)) =>
    GroupMemberSenderChain.mk x1 x2 x3) _).
  now intros [].
Defined.

#[export] Instance codec_group_state : Codec GroupProtocolState.t.
Proof.
  refine (codec_iso (A := Z * (bytes * (Z * (Z * ((list GroupTreeNode.t) * (bytes * (bytes * (bytes * (bytes * (bytes *
    ((list GroupMemberSenderChain.t) * (bytes * (bytes * (bytes * ((list bytes) * (bytes * (Z * (Z *
    ((option Timestamp.t) * (bytes * (((list (Z * Z))))))))))))))))))))))))
    (fun m => (GroupProtocolState.version m, (GroupProtocolState.group_id m, (GroupProtocolState.epoch
    m, (GroupProtocolState.my_leaf_index m, (GroupProtocolState.tree_nodes m,
    (GroupProtocolState.epoch_secret m, (GroupProtocolState.init_secret m,
    (GroupProtocolState.metadata_key m, (GroupProtocolState.confirmation_key m,
    (GroupProtocolState.welcome_key m, (GroupProtocolState.sender_chains m,
    (GroupProtocolState.my_identity_ed25519_public m, (GroupProtocolState.my_identity_x25519_public
    m, (GroupProtocolState.group_context_hash m, (GroupProtocolState.seen_message_ids m,
    (GroupProtocolState.state_hmac m, (GroupProtocolState.state_counter m,
    (GroupProtocolState.nonce_counter m, (GroupProtocolState.created_at m,
    (GroupProtocolState.security_policy m, GroupProtocolState.member_roles m)))))))))))))))))))))
    (fun '(x1, (x2, (x3, (x4, (x5, (x6, (x7, (x8, (x9, (x10, (x11, (x12, (x13, (x14, (x15, (x16, (x17,
    (x18, (x19, (x20, x21)))))))))))))))))))) =>
    GroupProtocolState.mk x1 x2 x3 x4 x5 x6 x7 x8 x9 x10 x11 x12 x13 x14 x15 x16 x17 x18 x19 x20 x21) _).
  now intros [].
Defined.

#[export] Instance codec_sealed_group_state : Codec SealedGroupState.t.
Proof.
  refine (codec_iso (A := Z * (bytes * (bytes * (bytes * (bytes * (Z))))))
    (fun m => (SealedGroupState.version m, (SealedGroupState.dek_nonce m, (SealedGroupState.state_nonce
    m, (SealedGroupState.encrypted_dek m, (SealedGroupState.encrypted_state m,
    SealedGroupState.external_counter m))))))
    (fun '(x1, (x2, (x3, (x4, (x5, x6))))) =>
    SealedGroupState.mk x1 x2 x3 x4 x5 x6) _).
  now intros [].
Defined.

#[export] Instance codec_reaction : Codec GroupReaction.t.
Proof.
  refine (codec_iso (A := bytes * (string * (bool)))
    (fun m => (GroupReaction.message_id m, (GroupReaction.emoji m, GroupReaction.remove m)))
    (fun '(x1, (x2, x3)) =>
    GroupReaction.mk x1 x2 x3) _).
  now intros [].
Defined.

#[export] Instance codec_read_receipt : Codec GroupReadReceipt.t.
Proof.
  refine (codec_iso (A := (list bytes) * (Z))
    (fun m => (GroupReadReceipt.message_ids m, GroupReadReceipt.timestamp m))
    (fun '(x1, x2) =>
    GroupReadReceipt.mk x1 x2) _).
  now intros [].
Defined.

#[export] Instance codec_typing : Codec GroupTypingIndicator.t.
Proof.
  refine (codec_iso (A := bool)
    (fun m => GroupTypingIndicator.is_typing m)
    (fun x1 => GroupTypingIndicator.mk x1) _).
  now intros [].
Defined.

#[export] Instance codec_security_policy : Codec GroupSecurityPolicyProto.t.
Proof.
  refine (codec_iso (A := Z * (Z * (bool * (bool * (bool)))))
    (fun m => (GroupSecurityPolicyProto.max_messages_per_epoch m,
    (GroupSecurityPolicyProto.max_skipped_keys_per_sender m,
    (GroupSecurityPolicyProto.block_external_join m, (GroupSecurityPolicyProto.enhanced_key_schedule
    m, GroupSecurityPolicyProto.mandatory_franking m)))))
    (fun '(x1, (x2, (x3, (x4, x5)))) =>
    GroupSecurityPolicyProto.mk x1 x2 x3 x4 x5) _).
  now intros [].
Defined.

(** * Concrete groups

    Runs of a group with the toy primitives and codec: they show that the
    hypotheses of the group theorems can hold together, and exhibit the
    behaviours the findings describe.  Nothing here models code. *)

(** ** Codecs *)

#[export] Instance toy_commit_prost : Prost GroupCommit.t := prost_of.
#[export] Instance toy_policy_prost : Prost GroupSecurityPolicyProto.t := prost_of.
#[export] Instance toy_auth_prost : Prost GroupExternalJoinAuthorization.t := prost_of.
#[export] Instance toy_info_prost : Prost GroupInfo.t := prost_of.
#[export] Instance toy_ciphertext_prost : Prost GroupHybridCiphertext.t := prost_of.
#[export] Instance toy_welcome_prost : Prost GroupWelcome.t := prost_of.
#[export] Instance toy_plaintext_prost : Prost GroupPlaintext.t := prost_of.
#[export] Instance toy_sender_prost : Prost GroupSenderData.t := prost_of.
#[export] Instance toy_message_prost : Prost GroupMessage.t := prost_of.
#[export] Instance toy_group_state_prost : Prost GroupProtocolState.t := prost_of.
#[export] Instance toy_sealed_group_prost : Prost SealedGroupState.t := prost_of.

Definition any {A} (_ : A) : Prop := True.

#[export] Instance toy_commit_laws : ProstLaws GroupCommit.t any := prost_of_laws _.
#[export] Instance toy_policy_laws : ProstLaws GroupSecurityPolicyProto.t any := prost_of_laws _.
#[export] Instance toy_info_laws : ProstLaws GroupInfo.t any := prost_of_laws _.
#[export] Instance toy_welcome_laws : ProstLaws GroupWelcome.t any := prost_of_laws _.
#[export] Instance toy_plaintext_laws : ProstLaws GroupPlaintext.t any := prost_of_laws _.
#[export] Instance toy_sender_laws : ProstLaws GroupSenderData.t any := prost_of_laws _.
#[export] Instance toy_message_laws : ProstLaws GroupMessage.t any := prost_of_laws _.
#[export] Instance toy_group_state_laws : ProstLaws GroupProtocolState.t any := prost_of_laws _.
#[export] Instance toy_sealed_group_laws : ProstLaws SealedGroupState.t any := prost_of_laws _.

(** ** Parties *)

Definition seed_of (n : Z) : bytes := repeat n 32.

Definition toy_handle (b : bytes) : SecureMemoryHandle.t := SecureMemoryHandle.mk b.

Definition toy_identity (n : Z) : IdentityKeysInner :=
  let kem := mlkem_generate (repeat (n + 2) 64) in
  IdentityKeysInner.mk (toy_handle (ed25519_keypair (seed_of n))) (ed25519_public (ed25519_keypair (seed_of n)))
    (toy_handle (seed_of (n + 1))) (x25519_public (seed_of (n + 1))) [] 0 (toy_handle []) [] [] [] 0
    (toy_handle (fst kem)) (snd kem) None None None None [] [] [] false [].

Definition leaf_entropy (n : Z) : LeafEntropy := mkLeafEntropy (seed_of n) (repeat n 64) (seed_of (n + 1)).

Definition seal_entropy (n : Z) : SealEntropy := mkSealEntropy (seed_of n) (seed_of (n + 1)) (repeat n 12).

Definition path_entropy (n : Z) : PathEntropy :=
  mkPathEntropy (leaf_entropy n) (seed_of (n + 1)) (fun i j => seal_entropy (n + 2 + i + j)).

Definition welcome_entropy (n : Z) : WelcomeEntropy := mkWelcomeEntropy (repeat n 12) (seal_entropy n).

Definition message_entropy (n : Z) : MessageEntropy :=
  mkMessageEntropy (repeat n 12) (seed_of (n + 1)) (repeat (n + 2) 12) (repeat (n + 3) 4) (repeat (n + 4) 12).

Definition no_session : GroupSessionInner :=
  GroupSession.fresh_session [] 0 0 (RatchetTree.mk [] [] 0) (EpochKeys.mk [] [] [] [] []) (SenderKeyStore.mk [] [] 0 0) [] [] []
    (toy_handle []) [] [] GroupSecurityPolicy.standard.

Definition ok_of {A} (r : PResult A) (d : A) : A := match r with Ok a => a | Err _ => d end.

Definition group_entropy : GroupEntropy := mkGroupEntropy (leaf_entropy 40) (repeat 9 32) (seed_of 44).

Definition alice0 : GroupSessionInner :=
  Eval vm_compute in ok_of (GroupSession.create_with_policy (toy_identity 10) [65] GroupSecurityPolicy.standard group_entropy) no_session.

Definition no_package : GroupKeyPackage.t := GroupKeyPackage.mk 0 [] [] [] [] [] [] None [].

Definition package_for (n : Z) : GroupKeyPackage.t :=
  fst (fst (ok_of (create_key_package (toy_identity n) [n] (leaf_entropy (n + 5))) (no_package, toy_handle [], toy_handle []))).

Definition bob_package : GroupKeyPackage.t := Eval vm_compute in package_for 60.
Definition carol_package : GroupKeyPackage.t := Eval vm_compute in package_for 80.

(** The result of a run, for runs that succeed. *)
Definition out_of {A} (r : PResult A * GroupSessionInner) (d : A) : A := ok_of (fst r) d.

Definition add_bob : CommitOp := OpAdd bob_package (welcome_entropy 120).
Definition bob_added := Eval vm_compute in run_commit add_bob (path_entropy 100) alice0.

Definition alice1 : GroupSessionInner := Eval vm_compute in snd bob_added.
Definition welcome1 : bytes := Eval vm_compute in snd (out_of bob_added ([], [])).
Definition commit1 : bytes := Eval vm_compute in fst (out_of bob_added ([], [])).

Definition join_with (n : Z) (kp : GroupKeyPackage.t) (wb : bytes) : GroupSessionInner :=
  ok_of (GroupSession.from_welcome wb (toy_handle (seed_of (n + 5))) (fst (kyber_pair (repeat (n + 5) 64)))
    (GroupKeyPackage.identity_ed25519_public kp) (GroupKeyPackage.identity_x25519_public kp) (ed25519_keypair (seed_of n))) no_session.

Definition bob1 : GroupSessionInner := Eval vm_compute in join_with 60 bob_package welcome1.

(** ** Checkers *)

Definition ok_unit (r : PResult unit) : bool := match r with Ok _ => true | Err _ => false end.

Definition ct_soundb (ct : GroupHybridCiphertext.t) : bool :=
  ok_unit (DhValidator.validate_x25519_public_key (GroupHybridCiphertext.ephemeral_x25519_public ct)) &&
  is_ok (kyber_validate_ciphertext (GroupHybridCiphertext.kyber_ciphertext ct)).

Lemma ct_soundb_ok ct : ct_soundb ct = true -> ct_sound ct.
Proof.
  unfold ct_soundb, ct_sound. intros H. apply andb_true_iff in H. destruct H as [H1 H2].
  destruct (DhValidator.validate_x25519_public_key _) as [[]|]; [|discriminate]. destruct (kyber_validate_ciphertext _) as [[]|]; [|discriminate]. auto.
Qed.

Definition path_soundb (p : GroupUpdatePath.t) : bool :=
  ok_unit (validate_path_keys p) && ok_unit (validate_path_hashes (GroupUpdatePath.nodes p)) &&
  forallb (fun nd => forallb ct_soundb (GroupUpdatePathNode.encrypted_path_secrets nd)) (GroupUpdatePath.nodes p).

Definition commit_soundb (out : CommitOutput) : bool :=
  match GroupCommit.update_path (co_commit out) with Some p => path_soundb p | None => true end.

Lemma commit_soundb_ok out : commit_soundb out = true -> commit_path_sound out.
Proof.
  unfold commit_soundb, commit_path_sound, path_soundb. intros H p Hp. rewrite Hp in H. apply andb_true_iff in H. destruct H as [H H3].
  apply andb_true_iff in H. destruct H as [H1 H2]. split; [|split].
  - destruct (validate_path_keys p) as [[]|]; [reflexivity|discriminate].
  - destruct (validate_path_hashes _) as [[]|]; [reflexivity|discriminate].
  - rewrite forallb_forall in H3. apply Forall_forall. intros nd Hnd. specialize (H3 nd Hnd). rewrite forallb_forall in H3.
    apply Forall_forall. intros ct Hct. now apply ct_soundb_ok, H3.
Qed.

Definition coveredb (s : RatchetTree) (leaf c : Z) : bool :=
  forallb (fun i => (i =? 2 * leaf) || negb (below (RatchetTree.leaf_count s) i (2 * leaf)) || is_blank s i ||
                    below (RatchetTree.leaf_count s) i (2 * c)) (zrange 0 (len (RatchetTree.nodes s))).

Lemma coveredb_ok s leaf c : coveredb s leaf c = true -> covered s leaf c.
Proof.
  unfold coveredb. intros H i k ph Hi Hne Hb Hv. rewrite forallb_forall in H.
  pose proof (vget_Some_range _ i _ Hi Hv) as Hr. specialize (H i ltac:(apply zrange_In; lia)).
  destruct (Z.eqb_spec i (2 * leaf)); [easy|]. rewrite Hb in H. cbn [negb orb] in H. unfold is_blank in H. rewrite Hv in H. exact H.
Qed.

Lemma path_entropy_ok n : entropy_ok (path_entropy n).
Proof. split; [reflexivity|]. split; [reflexivity|]. intros i j. reflexivity. Qed.

(** What an addition needs: the joiner's secrets, a covered leaf, a welcome within the limits. *)
Definition join_okb (a : Party) (jo : Joiner) (out : CommitOutput) (t : RatchetTree) (kp : GroupKeyPackage.t) (w : WelcomeEntropy) : bool :=
  let x := fst a in
  match hd_error (co_added_leaf_indices out) with
  | Some leaf =>
      let info dp := info_of t leaf dp (GroupSessionInner.group_id x) (GroupCommit.epoch (co_commit out)) (co_group_context_hash out)
               (GroupCommit.confirmation_mac (co_commit out)) (GroupSecurityPolicy.policy_bytes (GroupSessionInner.security_policy x)) in
      match create_welcome t leaf (co_joiner_secret out) (GroupSessionInner.group_id x) (GroupCommit.epoch (co_commit out))
        (GroupCommit.confirmation_mac (co_commit out)) (co_group_context_hash out)
        (GroupSecurityPolicy.policy_bytes (GroupSessionInner.security_policy x)) (leaf_of a) (ed25519_keypair (snd a)) (we_nonce w) (we_seal w) with
      | Ok wel =>
          bytes_eqb (GroupKeyPackage.identity_ed25519_public kp) (ed25519_public (ed25519_keypair (jo_seed jo))) &&
          bytes_eqb (GroupKeyPackage.leaf_x25519_public kp) (x25519_public (jo_x25519 jo)) &&
          (len (jo_x25519 jo) =? X25519_PRIVATE_KEY_BYTES) &&
          bytes_eqb (GroupKeyPackage.leaf_kyber_public kp) (snd (kyber_pair (jo_kyber jo))) &&
          coveredb t leaf (leaf_of a) && (len (se_ephemeral (we_seal w)) =? X25519_PRIVATE_KEY_BYTES) &&
          match GroupWelcome.encrypted_joiner_secret wel with Some ct => ct_soundb ct | None => true end &&
          match direct_path leaf (RatchetTree.leaf_count t) with
          | Ok dp => len (encode (info dp)) <=? MAX_GROUP_MESSAGE_SIZE
          | Err _ => true
          end && (len (encode wel) <=? MAX_GROUP_MESSAGE_SIZE)
      | Err _ => false
      end
  | None => false
  end.

Lemma join_okb_ok a jo out t kp w leaf wel : join_okb a jo out t kp w = true -> hd_error (co_added_leaf_indices out) = Some leaf ->
  create_welcome t leaf (co_joiner_secret out) (GroupSessionInner.group_id (fst a)) (GroupCommit.epoch (co_commit out))
    (GroupCommit.confirmation_mac (co_commit out)) (co_group_context_hash out)
    (GroupSecurityPolicy.policy_bytes (GroupSessionInner.security_policy (fst a))) (leaf_of a) (ed25519_keypair (snd a))
    (we_nonce w) (we_seal w) = Ok wel ->
  newcomer kp (jo_seed jo) (jo_x25519 jo) (jo_kyber jo) /\ covered t leaf (leaf_of a) /\
  welcome_ok (wfI := any) (wfW := any) (fst a) out t leaf w wel.
Proof.
  unfold join_okb. intros H Hl Hw. rewrite Hl in H. cbv zeta in H. rewrite Hw in H. repeat (apply andb_true_iff in H; destruct H as [H ?]).
  repeat match goal with E : bytes_eqb _ _ = true |- _ => apply bytes_eqb_eq in E end. split; [|split].
  - constructor; try assumption. now apply Z.eqb_eq.
  - now apply coveredb_ok.
  - constructor; [now apply Z.eqb_eq| | |exact I|now apply Z.leb_le].
    + intros ct Hct. rewrite Hct in *. now apply ct_soundb_ok.
    + intros dp Hdp. rewrite Hdp in *. constructor; [exact I|now apply Z.leb_le].
Qed.

Definition commit_okb (a : Party) (op : CommitOp) (jo : Joiner) (out : CommitOutput) (t : RatchetTree) : bool :=
  match op with OpRemove leaf => 0 <=? leaf | _ => true end && commit_soundb out &&
  (len (encode (co_commit out)) <=? MAX_GROUP_MESSAGE_SIZE) && (1 <? RatchetTree.leaf_count t) &&
  match op with OpAdd kp w => join_okb a jo out t kp w | _ => true end.

Lemma commit_okb_ok a op n jo out t :
  session_commit (fst a) (op_proposals op) (ed25519_keypair (snd a)) (path_entropy n) (GroupSessionInner.tree (fst a)) = (Ok out, t) ->
  commit_okb a op jo out t = true -> commit_ok (wfC := any) (wfI := any) (wfW := any) a op (path_entropy n) jo out t.
Proof.
  unfold commit_okb. intros Hrun H. repeat (apply andb_true_iff in H; destruct H as [H ?]). constructor; auto using path_entropy_ok.
  - destruct op; try exact I. now apply Z.leb_le.
  - now apply commit_soundb_ok.
  - split; [exact I|now apply Z.leb_le].
  - now apply Z.ltb_lt.
  - intros kp w leaf wel -> Hl Hw. eapply join_okb_ok; eassumption.
Qed.

(** ** A run *)

Abbreviation toy_reaches :=
  (reaches (wfC := any) (wfI := any) (wfW := any) (wfP := any) (wfT := any) (wfD := any) (wfM := any)).
Abbreviation toy_step := (gstep (wfC := any) (wfI := any) (wfW := any) (wfT := any) (wfD := any) (wfM := any)).

Definition alice_seed : bytes := seed_of 10.
Definition bob_seed : bytes := seed_of 60.
Definition carol_seed : bytes := seed_of 80.
Definition joiner_of (n : Z) : Joiner := mkJoiner (seed_of n) (seed_of (n + 5)) (repeat (n + 5) 64).

Lemma standard_ok : policy_ok (wfP := any) GroupSecurityPolicy.standard.
Proof. constructor; [exact I|vm_compute; reflexivity|vm_compute; reflexivity]. Qed.

Definition alice_package : GroupKeyPackage.t :=
  Eval vm_compute in fst (fst (ok_of (create_key_package (toy_identity 10) [65] (leaf_entropy 40)) (no_package, toy_handle [], toy_handle []))).

Lemma run0 : toy_reaches (mkGroup [(alice0, alice_seed)] []).
Proof.
  apply reaches_new. apply (created_by (toy_identity 10) [65] GroupSecurityPolicy.standard group_entropy alice_package
    (toy_handle (seed_of 40)) (toy_handle (fst (mlkem_generate (repeat 40 64))))); try exact standard_ok; vm_compute; reflexivity.
Qed.

(** Alice adds Bob. *)
Definition committing (x : GroupSessionInner) (op : CommitOp) (seed : bytes) (n : Z) : CommitOutput * RatchetTree :=
  match session_commit x (op_proposals op) (ed25519_keypair seed) (path_entropy n) (GroupSessionInner.tree x) with
  | (Ok out, t) => (out, t)
  | (Err _, t) => (mkCommitOutput (GroupCommit.mk 0 [] None [] 0 [] []) (EpochKeys.mk [] [] [] [] []) (SenderKeyStore.mk [] [] 0 0) [] [] [], t)
  end.

Definition bob_commit : CommitOutput * RatchetTree := Eval vm_compute in committing alice0 add_bob alice_seed 100.

Lemma bob_commit_ok : commit_ok (wfC := any) (wfI := any) (wfW := any) (alice0, alice_seed) add_bob (path_entropy 100) (joiner_of 60)
  (fst bob_commit) (snd bob_commit).
Proof. apply commit_okb_ok; vm_compute; reflexivity. Qed.

Lemma bob_added_run : run_commit add_bob (path_entropy 100) alice0 = (Ok (commit1, welcome1), alice1).
Proof. vm_compute. reflexivity. Qed.

Lemma run1 : toy_reaches (mkGroup [(alice1, alice_seed); (bob1, bob_seed)] []).
Proof.
  apply (reaches_step _ _ run0).
  assert (E : mkGroup [(alice1, alice_seed); (bob1, bob_seed)] [] =
    mkGroup ((alice1, alice_seed) :: map (processed commit1) (remaining add_bob ([] ++ [])) ++ joined add_bob welcome1 (alice0, alice_seed) (joiner_of 60)) [])
    by (vm_compute; reflexivity).
  rewrite E. exact (gs_commit [] alice0 alice_seed [] [] add_bob (path_entropy 100) (joiner_of 60) commit1 welcome1 alice1 _ _ bob_added_run bob_commit_ok).
Qed.

(** Alice sends a disappearing message, sealed, with a hint and a mention of Bob. *)
Definition note_policy : MessagePolicy := MessagePolicy.mk ContentType.SealedDisappearing 3600 false [] [(1, 0, 2)] None.
Definition note_sent := Eval vm_compute in GroupMessaging.compose_message [72; 105; 33] note_policy (Some [1; 2; 3]) (Some 1000) (message_entropy 70) alice1.
Definition alice2 : GroupSessionInner := Eval vm_compute in snd note_sent.
Definition no_plaintext : GroupPlaintext.t := GroupPlaintext.mk [] None [] [] [] [] [] [] None.
Definition note : GroupPlaintext.t * Z * GroupMessage.t := Eval vm_compute in out_of note_sent (no_plaintext, 0, GroupMessage.mk 0 [] 0 None).

Definition note_flight : Flight :=
  mkFlight (alice1, alice_seed) [72; 105; 33] note_policy (Some [1; 2; 3]) 1000 (message_entropy 70) (fst (fst note)) (snd (fst note)) (snd note).

Definition transmissibleb (gpt : GroupPlaintext.t) (msg : GroupMessage.t) : bool :=
  forallb (fun b => (0 <=? b) && (b <? 256)) (encode gpt) && (len (encode gpt) <? 2 ^ 62) && (len (encode msg) <=? MAX_GROUP_MESSAGE_SIZE).

Lemma transmissibleb_ok leaf g guard gpt msg : transmissibleb gpt msg = true ->
  transmissible (wfT := any) (wfD := any) (wfM := any) leaf g guard gpt msg.
Proof.
  unfold transmissibleb. intros H. repeat (apply andb_true_iff in H; destruct H as [H ?]). constructor; try exact I.
  - rewrite forallb_forall in H. apply Forall_forall. intros b Hb. specialize (H b Hb). apply andb_true_iff in H.
    destruct H as [Hlo Hhi]. apply Z.leb_le in Hlo. apply Z.ltb_lt in Hhi. unfold is_u8. lia.
  - now apply Z.ltb_lt.
  - now apply Z.leb_le.
Qed.

Lemma note_composed : GroupMessaging.compose_message [72; 105; 33] note_policy (Some [1; 2; 3]) (Some 1000) (message_entropy 70) alice1 =
  (Ok (fst (fst note), snd (fst note), snd note), alice2).
Proof. vm_compute. reflexivity. Qed.

Lemma note_transmissible : transmissible (wfT := any) (wfD := any) (wfM := any) (GroupSessionInner.my_leaf_idx alice1) (snd (fst note))
  (me_reuse_guard (message_entropy 70)) (fst (fst note)) (snd note).
Proof. apply transmissibleb_ok. vm_compute. reflexivity. Qed.

Lemma run2 : toy_reaches (mkGroup [(alice2, alice_seed); (bob1, bob_seed)] [note_flight]).
Proof.
  apply (reaches_step _ _ run1).
  exact (gs_send [] alice1 alice_seed [(bob1, bob_seed)] [] _ _ _ _ _ _ _ _ alice2 note_composed note_transmissible eq_refl).
Qed.

Lemma bob_can_receive : deliverable bob1 0 0.
Proof.
  split.
  - right. exists (match get_chain (GroupSessionInner.sender_store bob1) 0 with Some c => c | None => SenderKeyChain.mk 0 [] 0 true 0 0 end).
    split; [vm_compute; reflexivity|]. vm_compute. repeat split; congruence.
  - intros w Hw. discriminate Hw.
Qed.

Lemma group_messages_readable_witness : exists res b',
  GroupMessaging.decrypt (encode (snd note)) (Some 1500) bob1 = (Ok res, b') /\
  GroupDecryptResult.plaintext res = [72; 105; 33] /\ GroupDecryptResult.mentions res = [(1, 0, 2)] /\
  exists sp, GroupDecryptResult.sealed_payload res = Some sp /\ GroupMessaging.reveal_sealed sp = Ok [1; 2; 3].
Proof.
  destruct (group_messages_readable _ note_flight (bob1, bob_seed) (Some 1500) run2 (or_introl eq_refl) (or_intror (or_introl eq_refl))
    ltac:(vm_compute; discriminate) bob_can_receive ltac:(vm_compute; reflexivity)) as (res & b' & H1 & H2).
  exists res, b'. split; [exact H1|]. split; [exact (dv_content _ _ _ _ _ _ _ H2)|]. split; [exact (dv_mentions _ _ _ _ _ _ _ H2)|].
  destruct (dv_sealed _ _ _ _ _ _ _ H2 eq_refl) as (sp & pt & H3 & H4 & H5). exists sp. split; [exact H3|]. rewrite H5. symmetry.
  now apply (f_equal (fun o => match o with Some b => Ok b | None => Ok [] end : PResult bytes)) in H4.
Defined.

(** Alice adds Carol; Bob processes the commit. *)
Definition add_carol : CommitOp := OpAdd carol_package (welcome_entropy 50).
Definition carol_added := Eval vm_compute in run_commit add_carol (path_entropy 30) alice2.
Definition alice3 : GroupSessionInner := Eval vm_compute in snd carol_added.
Definition commit3 : bytes := Eval vm_compute in fst (out_of carol_added ([], [])).
Definition welcome3 : bytes := Eval vm_compute in snd (out_of carol_added ([], [])).
Definition carol_commit : CommitOutput * RatchetTree := Eval vm_compute in committing alice2 add_carol alice_seed 30.

Lemma carol_commit_ok : commit_ok (wfC := any) (wfI := any) (wfW := any) (alice2, alice_seed) add_carol (path_entropy 30) (joiner_of 80)
  (fst carol_commit) (snd carol_commit).
Proof. apply commit_okb_ok; vm_compute; reflexivity. Qed.

Lemma carol_added_run : run_commit add_carol (path_entropy 30) alice2 = (Ok (commit3, welcome3), alice3).
Proof. vm_compute. reflexivity. Qed.


Definition carol1 : GroupSessionInner := Eval vm_compute in join_with 80 carol_package welcome3.
Definition bob2 : GroupSessionInner := Eval vm_compute in snd (GroupSession.process_commit commit3 bob1).

Lemma run3 : toy_reaches (mkGroup [(alice3, alice_seed); (bob2, bob_seed); (carol1, carol_seed)] []).
Proof.
  apply (reaches_step _ _ run2).
  assert (E : mkGroup [(alice3, alice_seed); (bob2, bob_seed); (carol1, carol_seed)] [] =
    mkGroup ((alice3, alice_seed) :: map (processed commit3) (remaining add_carol ([] ++ [(bob1, bob_seed)])) ++
             joined add_carol welcome3 (alice2, alice_seed) (joiner_of 80)) []) by (vm_compute; reflexivity).
  rewrite E. exact (gs_commit [] alice2 alice_seed [(bob1, bob_seed)] [note_flight] add_carol (path_entropy 30) (joiner_of 80) commit3 welcome3 alice3 _ _
    carol_added_run carol_commit_ok).
Qed.


Lemma bob2_processed : GroupSession.process_commit commit3 bob1 = (Ok tt, bob2).
Proof. vm_compute. reflexivity. Qed.

Lemma process_commit_atomic_witness :
  GroupSessionInner.epoch bob2 = GroupSessionInner.epoch bob1 + 1 /\ GroupSessionInner.replay_windows bob2 = BTreeMap.empty /\
  GroupSessionInner.init_secret bob2 = EpochKeys.init_secret (GroupSessionInner.epoch_keys bob2) /\
  GroupSessionInner.group_id bob2 = GroupSessionInner.group_id bob1 /\ GroupSessionInner.my_leaf_idx bob2 = GroupSessionInner.my_leaf_idx bob1.
Proof. exact (process_commit_atomic commit3 bob1 (Ok tt) bob2 bob2_processed). Defined.

Definition no_welcome : GroupWelcome.t := GroupWelcome.mk 0 [] 0 [] [] None [] 0 0 [].

Definition carol_welcome : GroupWelcome.t :=
  Eval vm_compute in ok_of (create_welcome (snd carol_commit) 2 (co_joiner_secret (fst carol_commit)) (GroupSessionInner.group_id alice2)
    (GroupCommit.epoch (co_commit (fst carol_commit))) (GroupCommit.confirmation_mac (co_commit (fst carol_commit))) (co_group_context_hash (fst carol_commit))
    (GroupSecurityPolicy.policy_bytes (GroupSessionInner.security_policy alice2)) (GroupSessionInner.my_leaf_idx alice2) (ed25519_keypair alice_seed)
    (we_nonce (welcome_entropy 50)) (we_seal (welcome_entropy 50))) no_welcome.

Lemma carol_welcome_created :
  create_welcome (snd carol_commit) 2 (co_joiner_secret (fst carol_commit)) (GroupSessionInner.group_id alice2)
    (GroupCommit.epoch (co_commit (fst carol_commit))) (GroupCommit.confirmation_mac (co_commit (fst carol_commit))) (co_group_context_hash (fst carol_commit))
    (GroupSecurityPolicy.policy_bytes (GroupSessionInner.security_policy alice2)) (GroupSessionInner.my_leaf_idx alice2) (ed25519_keypair alice_seed)
    (we_nonce (welcome_entropy 50)) (we_seal (welcome_entropy 50)) = Ok carol_welcome.
Proof. vm_compute. reflexivity. Qed.

Lemma carol_add_run : GroupSession.add_member carol_package (path_entropy 30) (welcome_entropy 50) alice2 = (Ok (commit3, welcome3), alice3).
Proof. vm_compute. reflexivity. Qed.

Lemma carol_commit_run : session_commit alice2 (op_proposals (OpAdd carol_package (welcome_entropy 50))) (ed25519_keypair alice_seed) (path_entropy 30)
  (GroupSessionInner.tree alice2) = (Ok (fst carol_commit), snd carol_commit).
Proof. vm_compute. reflexivity. Qed.

Lemma carol_leaf : hd_error (co_added_leaf_indices (fst carol_commit)) = Some 2.
Proof. vm_compute. reflexivity. Qed.

Lemma member_of g x : toy_reaches g -> In x (g_members g) -> member (fst x) (snd x).
Proof. intros R H. destruct (reaches_agreed g R) as [sh [Hm _ _ _]]. rewrite Forall_forall in Hm. exact (proj1 (Hm x H)). Qed.

Lemma alice2_member : member alice2 alice_seed.
Proof. exact (member_of _ (alice2, alice_seed) run2 (or_introl eq_refl)). Qed.

Lemma alice2_policy : policy_ok (wfP := any) (GroupSessionInner.security_policy alice2).
Proof. replace (GroupSessionInner.security_policy alice2) with GroupSecurityPolicy.standard by (vm_compute; reflexivity). exact standard_ok. Qed.

Lemma carol_joins_ok : newcomer carol_package carol_seed (seed_of 85) (repeat 85 64) /\
  covered (snd carol_commit) 2 (GroupSessionInner.my_leaf_idx alice2) /\
  welcome_ok (wfI := any) (wfW := any) alice2 (fst carol_commit) (snd carol_commit) 2 (welcome_entropy 50) carol_welcome.
Proof. exact (ck_join _ _ _ _ _ _ carol_commit_ok carol_package (welcome_entropy 50) 2 carol_welcome eq_refl carol_leaf carol_welcome_created). Qed.

Lemma carol_proposals_u32 : Forall proposal_u32 (op_proposals (OpAdd carol_package (welcome_entropy 50))).
Proof. constructor; [exact I|constructor]. Qed.

Lemma carol_commit_created : create_commit (op_proposals (OpAdd carol_package (welcome_entropy 50))) (GroupSessionInner.my_leaf_idx alice2)
  (GroupSessionInner.init_secret alice2) (GroupSessionInner.group_id alice2) (GroupSessionInner.epoch alice2) (ed25519_keypair alice_seed)
  (GroupSessionInner.psk_resolver alice2) (GroupSessionInner.security_policy alice2) (path_entropy 30) (GroupSessionInner.tree alice2) =
  (Ok (fst carol_commit), snd carol_commit).
Proof. vm_compute. reflexivity. Qed.

Lemma commits_keep_tree_well_formed_witness : tree_wf (snd carol_commit).
Proof.
  destruct (commits_keep_tree_well_formed (GroupSessionInner.tree alice2) (cm_wf _ _ _ (mb_committer _ _ alice2_member))) as [H _].
  exact (H (op_proposals (OpAdd carol_package (welcome_entropy 50))) (GroupSessionInner.my_leaf_idx alice2) (GroupSessionInner.init_secret alice2)
    (GroupSessionInner.group_id alice2) (GroupSessionInner.epoch alice2) (ed25519_keypair alice_seed) (GroupSessionInner.psk_resolver alice2)
    (GroupSessionInner.security_policy alice2) (path_entropy 30) (Ok (fst carol_commit)) (snd carol_commit)
    (cm_index _ _ _ (mb_committer _ _ alice2_member)) carol_proposals_u32 carol_commit_created).
Defined.


(** Bob is given the note, the note again, and bytes that are no message. *)
Definition deliveries : list (bytes * option Z) :=
  Eval vm_compute in [(encode (snd note), Some 1500); (encode (snd note), Some 1501); ([1; 2; 3], Some 1502)].

Definition bob_inbox : list (bytes * GroupDecryptResult.t) * GroupSessionInner := Eval vm_compute in receive_all deliveries bob1.

Lemma bob_inbox_run : receive_all deliveries bob1 = (fst bob_inbox, snd bob_inbox).
Proof. vm_compute. reflexivity. Qed.

Lemma bob1_member : member bob1 bob_seed.
Proof. exact (member_of _ (bob1, bob_seed) run1 (or_intror (or_introl eq_refl))). Qed.

Lemma bob_inbox_once : map position (fst bob_inbox) = [(0, 0)].
Proof. vm_compute. reflexivity. Qed.

Lemma group_receive_once_authentic_witness : map position (fst bob_inbox) = [(0, 0)] /\ NoDup (map position (fst bob_inbox)) /\
  Forall (fun o => In (fst o) (map fst deliveries) /\ authentic bob1 o) (fst bob_inbox) /\
  member (snd bob_inbox) bob_seed /\ shared (snd bob_inbox) = shared bob1.
Proof.
  split; [exact bob_inbox_once|].
  exact (group_receive_once_authentic bob1 bob_seed deliveries (fst bob_inbox) (snd bob_inbox) bob1_member bob_inbox_run).
Defined.

(** Bob reads the note, saves his state and comes back. *)
Definition bob_read : GroupSessionInner := Eval vm_compute in snd (GroupMessaging.decrypt (encode (snd note)) (Some 1500) bob1).

Lemma bob_read_run : received (encode (snd note)) (Some 1500) (bob1, bob_seed) = (bob_read, bob_seed).
Proof. vm_compute. reflexivity. Qed.

Lemma bob_read_member : member bob_read bob_seed.
Proof.
  apply (member_of (mkGroup [(alice2, alice_seed); (bob_read, bob_seed)] [note_flight]) (bob_read, bob_seed)); [|right; left; reflexivity].
  apply (reaches_step _ _ run2). rewrite <- bob_read_run. exact (gs_receive [(alice2, alice_seed)] (bob1, bob_seed) [] [note_flight] _ _).
Qed.

Definition restart_entropy : GroupSealEntropy := mkGroupSealEntropy (seed_of 3) (repeat 4 12) (repeat 5 12).
Definition bob_sealed : bytes := Eval vm_compute in ok_of (GroupSealing.export_sealed_state (seed_of 2) 7 restart_entropy bob_read) [].

Lemma bob_sealed_run : GroupSealing.export_sealed_state (seed_of 2) 7 restart_entropy bob_read = Ok bob_sealed.
Proof. vm_compute. reflexivity. Qed.

Lemma bob_external : exists a b, derive_external_keypairs (GroupSessionInner.init_secret bob_read) =
  Ok (a, GroupSessionInner.external_x25519_public bob_read, b, GroupSessionInner.external_kyber_public bob_read).
Proof. do 2 eexists. vm_compute. reflexivity. Qed.

Lemma bob_persistable : persistable (wfP := any) bob_read bob_seed.
Proof.
  constructor.
  - constructor; try (vm_compute; reflexivity); vm_compute; repeat constructor; congruence.
  - repeat constructor.
  - repeat constructor; vm_compute; congruence.
  - vm_compute. reflexivity.
  - exact bob_external.
  - replace (GroupSessionInner.security_policy bob_read) with GroupSecurityPolicy.standard by (vm_compute; reflexivity). exact standard_ok.
Qed.

Lemma group_sealed_small : len bob_sealed <= MAX_GROUP_MESSAGE_SIZE.
Proof. apply Z.leb_le. vm_compute. reflexivity. Qed.

Lemma bob_spent : spent (GroupSessionInner.sender_store bob_read) 0 0.
Proof.
  split; [vm_compute; reflexivity|].
  exists (match get_chain (GroupSessionInner.sender_store bob_read) 0 with Some c => c | None => SenderKeyChain.mk 0 [] 0 true 0 0 end).
  split; [vm_compute; reflexivity|]. split; [lia|vm_compute; reflexivity].
Qed.


(** ** A leaf under a populated node

    Carol removes Alice, Bob updates, Carol gives the free leaf to Dave: node 1
    above Dave's leaf holds keys of Bob's that nobody passed on.  The next update
    of Carol is encrypted to node 1 only: Bob follows, Dave cannot. *)

Definition dave_package : GroupKeyPackage.t := Eval vm_compute in package_for 90.

Definition after_remove := Eval vm_compute in run_commit (OpRemove 0) (path_entropy 14) carol1.
Definition carol4 : GroupSessionInner := Eval vm_compute in snd after_remove.
Definition bob4 : GroupSessionInner := Eval vm_compute in snd (GroupSession.process_commit (fst (out_of after_remove ([], []))) bob2).
Definition after_update := Eval vm_compute in run_commit OpUpdate (path_entropy 20) bob4.
Definition bob5 : GroupSessionInner := Eval vm_compute in snd after_update.
Definition carol5 : GroupSessionInner := Eval vm_compute in snd (GroupSession.process_commit (fst (out_of after_update ([], []))) carol4).
Definition after_add := Eval vm_compute in run_commit (OpAdd dave_package (welcome_entropy 52)) (path_entropy 24) carol5.
Definition carol6 : GroupSessionInner := Eval vm_compute in snd after_add.
Definition bob6 : GroupSessionInner := Eval vm_compute in snd (GroupSession.process_commit (fst (out_of after_add ([], []))) bob5).
Definition dave6 : GroupSessionInner := Eval vm_compute in join_with 90 dave_package (snd (out_of after_add ([], []))).
Definition last_update := Eval vm_compute in run_commit OpUpdate (path_entropy 32) carol6.
Definition commit7 : bytes := Eval vm_compute in fst (out_of last_update ([], [])).

(** The newcomer at a free leaf below a node another member has populated joins,
    agrees with everyone, and cannot process the next commit. *)
Lemma new_member_left_out : shared dave6 = shared carol6 /\ fst (GroupSession.process_commit commit7 bob6) = Ok tt /\
  fst (GroupSession.process_commit commit7 dave6) = Err (ProtocolError.tree_integrity "No X25519 private key for decryption").
Proof. vm_compute. auto. Qed.
